(* ===== verification/_CoqProject ===== *)
-Q . S2P
Prelude.v
Float32.v
Types.v
Registry.v
AlarmManager.v
Pid.v
ControlEngine.v
ControlScenarios.v
Sequence.v
Authority.v
Buffer.v
Crc.v
Modbus.v
Compression.v
Failover.v
AlarmRules.v
Wire.v
Frame.v
Dcp.v
Cyclic.v
Rpc.v
ArManager.v
ArProtocol.v
PnController.v
RegisterMap.v
ModbusGateway.v
UserSync.v
UserStore.v
Presets.v
Version.v
Coordination.v
Health.v
Time.v
Historian.v
ConfigSync.v
Reconcile.v
ConfigFile.v
Ipc.v
ModbusTcp.v
ModbusRtu.v
Simulator.v
Database.v
App.v
AppSafety.v
Topology.v
RpcSocket.v
Services.v
Gsdml.v
