(* ===== verification/Prelude.v ===== *)
(** * Water-Controller: a verification library of the controller's C core

    The program is a water treatment controller.  Remote terminal units (RTUs)
    deliver sensor readings and take actuator commands; the controller keeps their
    state in a registry, runs PID loops, interlocks and batch sequences over it,
    raises and tracks alarms, negotiates with each RTU who may command it, and talks
    to other equipment over Modbus.  This library models the components that carry
    that logic, function by function from the C sources, and proves what makes them
    correct.  Paths below are relative to the repository ([src/...]).

    ** Files and components

    - Prelude.v (this file): result codes, record update, machine integers, C
      strings, arrays with a count, byte order, shared list lemmas and tactics.
    - Float32.v: the C type [float] as IEEE-754 binary32 ([SpecFloat] with precision
      24 and maximal exponent 128): arithmetic, comparisons and their order lemmas,
      bit patterns with a round trip, conversion to [uint8_t], and the [%.2f] output.
    - Types.v: enumerations and structs of [src/types.h] shared by the components, and
      the classes [RegistryOps]/[RegistryLaws]: what the registry promises to the
      control and alarm code.
    - Registry.v: [src/registry/rtu_registry.c], the device table; it discharges
      [RegistryLaws].
    - AlarmManager.v: [src/alarms/alarm_manager.c], alarms: rules, the
      periodic scan, acknowledgement, suppression, shelving, history and rate rings.
    - Pid.v: the PID algorithm of [src/control/control_engine.c].
    - ControlEngine.v: the rest of that file: interlock pass, PID pass, loop,
      interlock and forced-output tables, against any registry that keeps the laws.
    - ControlScenarios.v: the engine on a concrete plant with the registry of
      Registry.v.
    - Sequence.v: [src/control/sequence_engine.c], the batch sequencer.
    - Authority.v: [src/coordination/authority_manager.c], the handoff protocol.
    - Buffer.v: [src/utils/buffer.c], circular buffer and byte buffer.
    - Crc.v: [src/utils/crc.c], CRC-16-CCITT and CRC-32 with the source's tables.
    - Modbus.v: [src/modbus/modbus_common.c], CRC, byte order, PDU builders and parsers.
    - Compression.v: [src/historian/compression.c], historian compression and
      interpolation.
    - Failover.v: [src/coordination/failover.c], health of the RTUs and takeover by
      backup stations.
    - AlarmRules.v: [src/alarms/alarm_rules.c], the stand-alone rule evaluator.
    - Wire.v: the cursor (buffer, length, position) that the PROFINET builders and
      parsers work on, as a monad in which an access outside the buffer is an outcome.
    - Frame.v: [src/profinet/profinet_frame.c], frame builder and parser, addresses.
    - Dcp.v: [src/profinet/dcp_discovery.c], device cache and DCP requests.
    - Cyclic.v: [src/profinet/cyclic_exchange.c], the application relationship (AR), its IO
      buffers, input frames and the sensor and actuator slots.
    - Rpc.v: [src/profinet/profinet_rpc.c] and [rpc_strategy.c], the PDUs of connect, control,
      release and read, and the calls made of them.
    - ArManager.v: [src/profinet/ar_manager.c], the AR table, connection and recovery,
      discovery, cyclic frames, watchdog.
    - ArProtocol.v: the theorems about ArManager.v.
    - PnController.v: [src/profinet/profinet_controller.c], frame routing, data delivery,
      connect and disconnect, inputs, outputs and records, the cycle.
    - RegisterMap.v, ModbusGateway.v: [src/modbus/register_map.c] and [modbus_gateway.c],
      which value stands behind which register, the server's answers and the polling of
      downstream devices; ModbusTcp.v, ModbusRtu.v: the two transports.
    - UserSync.v: [shared/include/user_sync_protocol.h] and [src/user/user_sync.c], accounts
      packed and written to the RTUs; UserStore.v: [shared/rtu/], the RTU side.
    - Presets.v: [src/registry/slot_manager.c], [src/control/pid_loop.c],
      [interlock_manager.c]; Version.v: [shared/src/version_negotiation.c].
    - Coordination.v: [src/coordination/cascade_control.c], [load_balance.c],
      [coordination.c]; Reconcile.v: [state_reconciliation.c].
    - Health.v: [src/core/component_health.c]; Time.v: [src/utils/time_utils.c].
    - Historian.v: [src/historian/tag_manager.c] and [historian.c].
    - ConfigSync.v: [src/config_sync/config_sync.c], the RTU's configuration as records;
      ConfigFile.v: [src/config/config_manager.c], the settings file.
    - Ipc.v: [src/ipc/ipc_server.c], commands from and state for the web API.
    - Simulator.v: [src/simulation/simulator.c], simulated RTUs.
    - Database.v: [src/db/database.c], the SQL statements and the values they carry, over an
      interface to libpq.
    - App.v: [src/main.c], which composes all components: command line, start-up, callbacks,
      main loop and threads, persistence, shutdown; AppSafety.v: the theorems about it.
    - Topology.v: the topology file and the text exports of registry and alarm manager.
    - RpcSocket.v: the UDP socket below Rpc.v.
    - Gsdml.v: [src/profinet/gsdml_cache.c], module lists of the RTUs over HTTP and from
      cached GSDML files; it provides them to the discovery of ArManager.v.
    - Services.v: threads of the control engine and the alarm manager, timing of the scan,
      reports, the socket of the DCP discovery, sleeping.

    ** How the code is modelled

    - One definition per function, with its guards in the order of the code; a
      function that changes state returns the new state, a result code or both.
    - [T a[MAX]; int count;] is the list of the live entries; shifting loops are
      written out ([shift_loop]) and shown to delete one entry.
    - Unsigned integers are [Z] with the wrap-around written out ([wrap32],
      [u64_sub]); [int] counters and ids are [Z] (signed overflow is undefined
      behaviour in C and not modelled).
    - Floats: every operation rounds to binary32 (FLT_EVAL_METHOD 0, no contraction).
      A float to [uint8_t] conversion out of range is undefined: its result is the
      parameter [ub].
    - Each clock reading is an argument ([now], or [clk k] for the [k]-th reading of a
      call), so theorems hold for any clock unless they say otherwise.
    - The network is an argument: the answer to a request ([transport]), the datagram that a
      poll finds, whether a socket takes a frame; [net] collects it for the AR manager.
    - An access outside a buffer is a result of its own ([Oob], [Overflowed], [None]).
    - An uninitialised local variable that is read has an arbitrary value ([junk]); an
      allocation succeeds or fails by an argument ([alloc]).
    - Callbacks are recorded in a trace field; log output is left out.
    - Public functions take the component's lock, so each call is one atomic step and a
      run of the component is a list of operations ([am_op], [ce_op], [reg_op], ...),
      executed by [foldl].  NULL arguments are [None] where the code accepts them.

    ** What the theorems show

    - Alarms: a scan acts on each rule as a transition table says; no alarm without a
      condition that lasted, no unacknowledged alarm lost, table invariants, the history ring.
    - Control: interlock timing (tripped exactly when the condition held for the delay),
      latching, enforcement of the action, safe state after communication loss, output
      limits and PWM conversion, bumpless transfer, table invariants.
    - Registry: table invariants, read-back of updates, removal, unique names.
    - Authority: refinement of a handoff automaton, no command without a grant, no
      handoff pending beyond its timeout.
    - Sequences: memory safety and completion.
    - Buffers, CRC, Modbus: refinement of a bounded queue, round trips, equality of the
      table-driven checksums with their bitwise definitions, bounds of PDUs.
    - Alarm rules: a rule triggers once per stretch of its condition, when the delay is over;
      a point evaluates each of its rules once.
    - Failover: the exact condition under which a mapping is active after a period, and
      the invariant of the tables.
    - PROFINET: no read outside a received frame, parsing undoes building, an identify
      response stores exactly what its blocks say; the size of a connect request and what a
      connect response means; an AR follows the connection protocol and runs only after an
      ApplicationReady for it, its recovery ends, the watchdog needs three late checks in a
      row, and the table keeps its invariant through any run; sensor data is delivered from
      where the connect request announced it, and a connect leaves no AR half way.
    - Compression: deadband and boxcar keep every sample or one that covers it;
      interpolation reproduces the samples it is given.
    - Modbus gateway and transports: which writes reach the plant, a read of 16-bit registers over TCP
      from the client's call to the registry and back, a transmission error of one byte
      detected on the serial line.
    - User accounts: what the controller packs is what the RTU authenticates, and an old
      payload is refused by an RTU whose memory outlives a restart.
    - IPC: the command area refines a one-place mailbox, the published tables stay within
      their arrays, and when publishing crashes.
    - Historian: recorded samples come back by a query and from the file; the shape of its
      tables.  State reconciliation: a saved state is the state restored.
    - Coordination: a period of failover, cascade and load balancing runs without an
      access outside the tables.
    - Database: the device operations refine a finite map.
    - Program: the invariants of the components hold together in every state that any
      interleaving of the threads reaches, a restart restores the devices together with those
      removed in earlier runs, the Modbus server has no registers, and exactly when the cyclic thread waits for itself.
    - Topology: a saved registry is read back; when printing runs over its buffer.
    - RPC socket: which incoming datagrams are delivered after an exchange.
    - Discovery: a slot list served over HTTP is the module list of the connection.
    - Behaviours that differ from what the comments promise are theorems too: a PID loop
      overriding a tripped interlock, the watchdog starting an idle actuator, a NaN
      reading disabling a loop for good, interlocks not tripping on an input fault,
      forced outputs never applied, out-of-service and shelving ignored by the alarm
      scan, a wrong entry of the CRC-32 table, a negative GOTO reading outside its array,
      swinging-door compression losing samples beyond its deadband, failover to a missing
      station, a rule trigger lost when the report is full, a connect request written behind its
      buffer, frames of a second station stored for the first, commands of all actuators but the
      first misplaced, a Modbus/TCP server thread that locks its mutex twice at the first
      request, a publication that releases memory it does not own as soon as an alarm is
      active or a PID loop exists.

    Loops run over a list or an index range and are structurally recursive.  Where the code
    loops on a condition the definition has a fuel argument, and a lemma shows that the fuel
    given is enough: the search of [compression_interpolate_samples] ([advance_idx]) gets the
    length of the input, which its index cannot exceed ([advance_idx_spec]); the padding of a
    frame ([padding_loop]) the bytes to add ([padding_loop_spec]); the block loops of DCP and
    connect response ([parse_blocks], [response_blocks]) the bytes of the frame, of which a
    round consumes at least four or six ([parse_dcp_blocks_terminates],
    [response_blocks_fold]); the readers of files ([read_lines], [read_file], [read_entries],
    [load_loop], [gsdml_loop], [slots_loop]) the length of the text, of which a round consumes
    a part ([read_file_samples], [register_map_load_terminates], [load_loop_terminates],
    [gsdml_loop_terminates], [slots_loop_terminates]); the search
    for the next station of a load group ([next_available]) one more than its members
    ([next_available_spec]); the calendar ([year_from]) a year per 365 days
    ([year_from_spec]); the carry of nanoseconds ([carry]) is bounded in
    [time_add_ms_exact].

    ** Not modelled

    Threads beyond their atomic steps, the system calls below the sockets, creation of shared
    memory, logging, the stand-alone Modbus gateway program, the inside of PostgreSQL, and
    everything outside the C sources. *)

From Stdlib Require Export ZArith Lia Bool.
From Stdlib Require Import Btauto.
From stdpp Require Export base option decidable numbers strings pretty sets list.

#[global] Open Scope Z_scope.

(** ** Record update

    [r <| f := v |>] is the C assignment [r.f = v] on a struct passed by value.
    A record that is updated declares its [Eta] instance once; the setter of each
    field is then derived by rewriting the field's projection in it. *)

Class Eta (R : Type) := eta_of : R -> R.

Class Setter {R E : Type} (getter : R -> E) := set : (E -> E) -> R -> R.
Arguments set {R E} getter {_} _ _ /.

Ltac derive_setter :=
  match goal with
  | |- @Setter ?R ?E ?g =>
      let inst := constr:(_ : Eta R) in
      let h := eval hnf in inst in
      lazymatch eval pattern g in h with
      | ?f _ =>
          let t := eval cbv beta in (fun upd : E -> E => f (fun r : R => upd (g r))) in
          exact t
      end
  end.

#[global] Hint Extern 1 (Setter _) => derive_setter : typeclass_instances.

Declare Scope wtc_scope.
Delimit Scope wtc_scope with wtc.
Notation "r <| f := v |>" := (set f (fun _ => v) r)
  (at level 1, left associativity, f at level 9, v at level 200,
   format "r  <| f  :=  v |>") : wtc_scope.
Notation "r <| f ::= g |>" := (set f g r)
  (at level 1, left associativity, f at level 9, g at level 200,
   format "r  <| f  ::=  g |>") : wtc_scope.
#[global] Open Scope wtc_scope.

(** ** Return codes: [wtc_result_t] of [src/types.h] *)

Inductive wtc_result :=
| WTC_OK | WTC_ERROR | WTC_ERROR_INVALID_PARAM | WTC_ERROR_NO_MEMORY
| WTC_ERROR_NOT_FOUND | WTC_ERROR_TIMEOUT | WTC_ERROR_BUSY
| WTC_ERROR_NOT_INITIALIZED | WTC_ERROR_ALREADY_EXISTS
| WTC_ERROR_CONNECTION_FAILED | WTC_ERROR_IO | WTC_ERROR_PROTOCOL
| WTC_ERROR_PERMISSION | WTC_ERROR_FULL | WTC_ERROR_EMPTY
| WTC_ERROR_INTERNAL | WTC_ERROR_NOT_CONNECTED.

#[export] Instance wtc_result_eq_dec : EqDecision wtc_result.
Proof. solve_decision. Defined.

(** ** Machine integers: a [w]-bit unsigned C integer is a [Z] in [0, 2^w). *)

Definition wrap8 (z : Z) : Z := z mod 2 ^ 8.
Definition wrap16 (z : Z) : Z := z mod 2 ^ 16.
Definition wrap32 (z : Z) : Z := z mod 2 ^ 32.
Definition wrap64 (z : Z) : Z := z mod 2 ^ 64.

(** [a - b] on two [uint64_t]. *)
Definition u64_sub (a b : Z) : Z := wrap64 (a - b).

Definition is_u8 (z : Z) : Prop := 0 <= z < 2 ^ 8.
Definition is_u16 (z : Z) : Prop := 0 <= z < 2 ^ 16.
Definition is_u32 (z : Z) : Prop := 0 <= z < 2 ^ 32.
Definition is_u64 (z : Z) : Prop := 0 <= z < 2 ^ 64.

(** ** C strings

    A C string is the Rocq string of the characters before its NUL.
    [strncpy(dst, src, n)] into an [n+1]-byte zeroed array and
    [snprintf(dst, n+1, ...)] both leave the first [n] characters. *)

Definition strncpy (n : nat) (s : string) : string := String.substring 0 n s.

(** [strstr(hay, needle) != NULL]. *)
Definition strstr (hay needle : string) : bool :=
  match String.index 0 needle hay with Some _ => true | None => false end.

Definition WTC_MAX_STATION_NAME : nat := 64.
Definition WTC_MAX_NAME : nat := 64.
Definition WTC_MAX_USERNAME : nat := 64.
Definition WTC_MAX_MESSAGE : nat := 256.
Definition WTC_MAX_UNIT : nat := 16.
Definition WTC_MAX_IP_ADDRESS : nat := 16.

(** ** Machine-integer lemmas *)

Create HintDb wtc.

Lemma wrap8_range z : is_u8 (wrap8 z).
Proof. apply Z.mod_pos_bound. lia. Qed.
Lemma wrap16_range z : is_u16 (wrap16 z).
Proof. apply Z.mod_pos_bound. lia. Qed.
Lemma wrap32_range z : is_u32 (wrap32 z).
Proof. apply Z.mod_pos_bound. lia. Qed.
Lemma wrap64_range z : is_u64 (wrap64 z).
Proof. apply Z.mod_pos_bound. lia. Qed.
#[export] Hint Resolve wrap8_range wrap16_range wrap32_range wrap64_range : wtc.

Lemma wrap64_small z : is_u64 z -> wrap64 z = z.
Proof. apply Z.mod_small. Qed.

(** Elapsed time: with readings in order the subtraction does not wrap. *)
Lemma u64_sub_le a b : is_u64 a -> is_u64 b -> b <= a -> u64_sub a b = a - b.
Proof. intros Ha Hb Hle. apply Z.mod_small. unfold is_u64 in *. lia. Qed.

(** A clock stepped backwards makes the elapsed time huge. *)
Lemma u64_sub_wrap a b : is_u64 a -> is_u64 b -> a < b -> u64_sub a b = a - b + 2 ^ 64.
Proof.
  intros Ha Hb Hlt. unfold u64_sub, wrap64, is_u64 in *.
  rewrite <- (Z_mod_plus_full (a - b) 1 (2 ^ 64)), Z.mod_small; lia.
Qed.

(** ** Big-endian byte strings (network order) *)

Definition be16 (v : Z) : list Z := [(v / 2 ^ 8) mod 2 ^ 8; v mod 2 ^ 8].
Definition be32 (v : Z) : list Z :=
  [(v / 2 ^ 24) mod 2 ^ 8; (v / 2 ^ 16) mod 2 ^ 8; (v / 2 ^ 8) mod 2 ^ 8; v mod 2 ^ 8].
Fixpoint of_be (acc : Z) (l : list Z) : Z :=
  match l with [] => acc | b :: l => of_be (acc * 2 ^ 8 + b) l end.

Lemma of_be16 v : is_u16 v -> of_be 0 (be16 v) = v.
Proof. unfold is_u16. intros Hv. cbn -[Z.div Z.modulo Z.pow]. Z.div_mod_to_equations. lia. Qed.

Lemma of_be32 v : is_u32 v -> of_be 0 (be32 v) = v.
Proof. unfold is_u32. intros Hv. cbn -[Z.div Z.modulo Z.pow]. Z.div_mod_to_equations. lia. Qed.

(** ** Arrays with a count

    The C code keeps [T a[MAX]; int count;] and reads only the first [count]
    entries: the model is the list of those entries. *)

Section Arrays.
Context {A : Type}.
Implicit Types (l : list A) (i j n : nat).

(** [for (j = i; j < count - 1; j++) a[j] = a[j + 1];] from [j], [n] iterations. *)
Fixpoint shift_loop (n j : nat) (l : list A) : list A :=
  match n with
  | O => l
  | S n' =>
      match l !! S j with
      | Some x => shift_loop n' (S j) (<[j := x]> l)
      | None => l
      end
  end.

(** The shift loop followed by [count--]. *)
Definition remove_shift (i : nat) (l : list A) : list A :=
  take (length l - 1) (shift_loop (length l - 1 - i) i l).

Lemma shift_loop_spec n j l :
  (j < length l)%nat -> n = (length l - 1 - j)%nat ->
  take (length l - 1) (shift_loop n j l) = take j l ++ drop (S j) l.
Proof.
  revert j l. induction n as [|n IH]; intros j l Hj Hn; simpl.
  - assert (j = length l - 1)%nat as -> by lia.
    rewrite (drop_ge l (S _)) by lia. by rewrite app_nil_r.
  - destruct (lookup_lt_is_Some_2 l (S j)) as [x Hx]; [lia|]. rewrite Hx.
    assert (length (<[j:=x]> l) = length l) as Hlen by apply length_insert.
    rewrite <- Hlen at 1. rewrite IH by lia.
    rewrite (take_S_r _ j x) by (apply list_lookup_insert_eq; lia).
    rewrite take_insert_ge, drop_insert_lt by lia.
    rewrite (drop_S l x (S j)) by done. by rewrite <- app_assoc.
Qed.

(** The shift loop deletes exactly entry [i] and keeps the order of the rest. *)
Lemma remove_shift_delete i l :
  (i < length l)%nat -> remove_shift i l = take i l ++ drop (S i) l.
Proof. intros Hi. by apply shift_loop_spec. Qed.

Context (P : A -> Prop) {DP : forall x, Decision (P x)}.

(** Find-by-key loop that updates the first match in place. *)
Definition find_update (f : A -> A) (l : list A) : option (list A) :=
  match list_find P l with
  | Some (i, x) => Some (<[i := f x]> l)
  | None => None
  end.

(** Find-by-key loop that removes the first match by shifting. *)
Definition find_remove (l : list A) : option (list A) :=
  match list_find P l with
  | Some (i, _) => Some (remove_shift i l)
  | None => None
  end.

(** The first match of a find-by-key loop, if any. *)
Definition find_entry (l : list A) : option A := snd <$> list_find P l.

Lemma list_find_split i x l :
  list_find P l = Some (i, x) ->
  l = take i l ++ x :: drop (S i) l /\ P x /\ Forall (fun y => ~ P y) (take i l) /\ (i < length l)%nat.
Proof.
  intros H. apply list_find_Some in H as (Hi & HP & Hbefore).
  split_and!; [by rewrite take_drop_middle | done | | by eapply lookup_lt_Some].
  apply Forall_lookup_2. intros k y Hk. apply lookup_take_Some in Hk as [Hk ?]. eauto.
Qed.

Lemma find_update_Some f l l' :
  find_update f l = Some l' ->
  exists l1 x l2, l = l1 ++ x :: l2 /\ P x /\ Forall (fun y => ~ P y) l1 /\ l' = l1 ++ f x :: l2.
Proof.
  unfold find_update. destruct (list_find P l) as [[i x]|] eqn:E; [|done].
  intros [= <-]. apply list_find_split in E as (Hl & HP & Hno & Hi).
  exists (take i l), x, (drop (S i) l). split_and!; try done.
  rewrite insert_take_drop by done. done.
Qed.

Lemma find_remove_Some l l' :
  find_remove l = Some l' ->
  exists l1 x l2, l = l1 ++ x :: l2 /\ P x /\ Forall (fun y => ~ P y) l1 /\ l' = l1 ++ l2.
Proof.
  unfold find_remove. destruct (list_find P l) as [[i x]|] eqn:E; [|done].
  intros [= <-]. apply list_find_split in E as (Hl & HP & Hno & Hi).
  exists (take i l), x, (drop (S i) l). split_and!; try done.
  by apply remove_shift_delete.
Qed.

Lemma list_find_None_iff l : list_find P l = None <-> Forall (fun y => ~ P y) l.
Proof. apply list_find_None. Qed.

Lemma find_update_None f l : find_update f l = None <-> Forall (fun y => ~ P y) l.
Proof.
  unfold find_update. rewrite <- list_find_None_iff.
  destruct (list_find P l) as [[]|]; naive_solver.
Qed.

Lemma find_remove_None l : find_remove l = None <-> Forall (fun y => ~ P y) l.
Proof.
  unfold find_remove. rewrite <- list_find_None_iff.
  destruct (list_find P l) as [[]|]; naive_solver.
Qed.

Lemma find_entry_Some l x :
  find_entry l = Some x ->
  exists l1 l2, l = l1 ++ x :: l2 /\ P x /\ Forall (fun y => ~ P y) l1.
Proof.
  unfold find_entry. destruct (list_find P l) as [[i y]|] eqn:E; [|done].
  intros [= <-]. apply list_find_split in E as (Hl & HP & Hno & Hi). eauto.
Qed.

Lemma find_entry_None l : find_entry l = None <-> Forall (fun y => ~ P y) l.
Proof.
  unfold find_entry. rewrite <- list_find_None_iff.
  destruct (list_find P l) as [[]|]; naive_solver.
Qed.

(** The entry in front of which nothing matches is the one found. *)
Lemma find_entry_app l1 x l2 :
  Forall (fun y => ~ P y) l1 -> P x -> find_entry (l1 ++ x :: l2) = Some x.
Proof.
  intros H HP. unfold find_entry. rewrite list_find_app_r.
  - simpl. by rewrite decide_True.
  - by apply list_find_None_iff.
Qed.

Lemma find_update_app f l1 x l2 :
  Forall (fun y => ~ P y) l1 -> P x ->
  find_update f (l1 ++ x :: l2) = Some (l1 ++ f x :: l2).
Proof.
  intros H HP. unfold find_update. rewrite list_find_app_r by (by apply list_find_None_iff).
  simpl. rewrite decide_True by done. simpl. f_equal.
  rewrite insert_app_r_alt by lia. by replace (_ - _)%nat with 0%nat by lia.
Qed.

(** [l[length l1]] updated in place. *)
Lemma alter_middle (f : A -> A) l1 x l2 :
  alter f (length l1) (l1 ++ x :: l2) = l1 ++ f x :: l2.
Proof. by rewrite <- (Nat.add_0_r (length l1)), alter_app_r. Qed.

(** Replacing an entry that matches neither before nor after changes no lookup. *)
Lemma find_entry_replace l1 x y l2 :
  ~ P x -> ~ P y -> find_entry (l1 ++ y :: l2) = find_entry (l1 ++ x :: l2).
Proof.
  intros Hx Hy. unfold find_entry. induction l1 as [|z l1 IH]; cbn.
  - by rewrite !decide_False by done.
  - destruct (decide (P z)); [done|].
    destruct (list_find P (l1 ++ y :: l2)) as [[]|], (list_find P (l1 ++ x :: l2)) as [[]|];
      cbn in *; congruence.
Qed.
End Arrays.

(** Keys kept distinct: an array whose [key]s are unique stays so when entries are
    removed, appended with a fresh key, or updated without changing the key. *)
Section UniqueKeys.
Context {A : Type} (key : A -> Z).

Lemma keys_remove l1 x l2 : NoDup (key <$> l1 ++ x :: l2) -> NoDup (key <$> l1 ++ l2).
Proof.
  rewrite !fmap_app, fmap_cons. intros H%NoDup_app. apply NoDup_app.
  destruct H as (H1 & H2 & [H3 H4]%NoDup_cons). set_solver.
Qed.

Lemma keys_update l1 x y l2 :
  key y = key x -> key <$> (l1 ++ y :: l2) = key <$> (l1 ++ x :: l2).
Proof. intros H. by rewrite !fmap_app, !fmap_cons, H. Qed.

Lemma keys_append l x n :
  NoDup (key <$> l) -> Forall (fun y => key y < n) l -> key x = n ->
  NoDup (key <$> l ++ [x]).
Proof.
  intros Hnd Hlt Hx. rewrite fmap_app. apply NoDup_app.
  split_and!; [done| |apply NoDup_singleton].
  intros k Hk Hk'. apply list_elem_of_fmap in Hk as (y & -> & Hy).
  rewrite Forall_forall in Hlt. specialize (Hlt _ Hy).
  simpl in Hk'. apply list_elem_of_singleton in Hk'. lia.
Qed.

(** With unique keys a lookup by key finds the one entry that has it. *)
Lemma find_entry_unique (l : list A) (x : A) :
  NoDup (key <$> l) -> x ∈ l -> find_entry (fun y => key y = key x) l = Some x.
Proof.
  intros Hnd Hx. apply list_elem_of_split in Hx as (l1 & l2 & ->).
  apply find_entry_app; [|done]. apply Forall_forall. intros y Hy Heq.
  rewrite fmap_app, fmap_cons in Hnd. apply NoDup_app in Hnd as (_ & Hd & _).
  apply (Hd (key y)); [by apply list_elem_of_fmap_2|]. rewrite Heq. set_solver.
Qed.
End UniqueKeys.

Lemma Forall_middle {A} (P : A -> Prop) l1 x l2 :
  Forall P (l1 ++ x :: l2) <-> Forall P l1 /\ P x /\ Forall P l2.
Proof. by rewrite Forall_app, Forall_cons. Qed.

(** A property of the keys only depends on the keys. *)
Lemma Forall_keys {A} (f : A -> Z) (P : Z -> Prop) (l l' : list A) :
  f <$> l' = f <$> l -> Forall (fun x => P (f x)) l -> Forall (fun x => P (f x)) l'.
Proof.
  intros Heq Hl. apply (Forall_fmap f P l'). rewrite Heq. by apply (Forall_fmap f P l).
Qed.

Lemma length_filter_keys {A} (f : A -> Z) (k : Z) (P : A -> Prop) `{!forall x, Decision (P x)} l :
  (forall x, P x <-> f x = k) ->
  length (filter P l) = length (filter (fun y => y = k) (f <$> l)).
Proof.
  intros HP. induction l as [|x l IH]; [done|]. rewrite fmap_cons, !filter_cons.
  destruct (decide (P x)) as [Hx|Hx], (decide (f x = k)) as [Hk|Hk];
    rewrite HP in Hx; simpl; congruence.
Qed.

Lemma list_alter_same {A} (f : A -> A) (i : nat) (l : list A) :
  (forall x, l !! i = Some x -> f x = x) -> alter f i l = l.
Proof.
  intros Hf. apply list_eq. intros j. destruct (decide (i = j)) as [<-|Hne].
  - rewrite list_lookup_alter_eq. destruct (l !! i) eqn:E; [|done]. cbn. by rewrite Hf.
  - by rewrite list_lookup_alter_ne.
Qed.

Lemma list_insert_alter {A} (f : A -> A) (i : nat) (l : list A) (x : A) :
  l !! i = Some x -> <[i := f x]> l = alter f i l.
Proof.
  intros Hx. apply list_eq. intros j. destruct (decide (i = j)) as [<-|Hne].
  - rewrite list_lookup_alter_eq, Hx. apply list_lookup_insert_eq. by eapply lookup_lt_Some.
  - by rewrite list_lookup_alter_ne, list_lookup_insert_ne.
Qed.

Lemma Forall_nth_default {A} (P : A -> Prop) (l : list A) (d : A) (i : nat) :
  Forall P l -> P d -> P (nth i l d).
Proof. intros Hl Hd. rewrite nth_lookup. destruct (l !! i) eqn:E; cbn; [by apply (Forall_lookup_1 _ _ _ _ Hl E)|done]. Qed.

Lemma last_sub {A} (l : list A) : last l = l !! (length l - 1)%nat.
Proof. rewrite last_lookup. f_equal. lia. Qed.

Lemma lookup_snoc_eq {A} (l : list A) (x : A) : (l ++ [x]) !! length l = Some x.
Proof. by rewrite lookup_app_r, Nat.sub_diag by lia. Qed.

Lemma filter_none {A} (P : A -> Prop) `{!forall x, Decision (P x)} (l : list A) :
  Forall (fun x => ~ P x) l -> filter P l = [].
Proof. induction 1 as [|x l Hx _ IH]; [done|]. by rewrite filter_cons_False. Qed.

Lemma filter_comm {A} (P Q : A -> Prop) `{!forall x, Decision (P x), !forall x, Decision (Q x)}
    (l : list A) : filter P (filter Q l) = filter Q (filter P l).
Proof. rewrite !list_filter_filter. apply list_filter_iff. tauto. Qed.

(** The search of the code finds an entry exactly when the filtered list has one,
    and finds the first. *)
Lemma list_find_head {A} (P : A -> Prop) `{!forall x, Decision (P x)} (l : list A) :
  snd <$> list_find P l = head (filter P l).
Proof.
  induction l as [|x l IH]; [done|]. cbn [list_find]. rewrite filter_cons.
  destruct (decide (P x)); [done|]. rewrite <- IH. by destruct (list_find P l) as [[]|].
Qed.

Lemma substring_full n s : (String.length s <= n)%nat -> String.substring 0 n s = s.
Proof.
  revert s. induction n as [|n IH]; intros [|c s]; simpl; intros Hn; try lia; try done.
  f_equal. apply IH. lia.
Qed.

(** A string that fits its array is stored unchanged. *)
Lemma strncpy_fits n s : (String.length s <= n)%nat -> strncpy n s = s.
Proof. apply substring_full. Qed.

Lemma strncpy_length n s : (String.length (strncpy n s) <= n)%nat.
Proof.
  unfold strncpy. revert s. induction n as [|n IH]; intros [|c s]; simpl; try lia.
  specialize (IH s). lia.
Qed.

Lemma strncpy_idem n s : strncpy n (strncpy n s) = strncpy n s.
Proof. apply strncpy_fits, strncpy_length. Qed.

(** ** Bits and bytes *)

(** [x] has [w] bits. *)
Lemma range_bits w x : 0 <= w -> 0 <= x < 2 ^ w <-> 0 <= x /\ forall n, w <= n -> Z.testbit x n = false.
Proof.
  intros Hw. split.
  - intros [H0 Hx]. split; [done|]. intros n Hn. destruct (decide (x = 0)) as [->|Hne]; [apply Z.bits_0|].
    apply Z.bits_above_log2; [done|]. apply Z.log2_lt_pow2 in Hx; lia.
  - intros [H0 Hb]. split; [done|]. apply Z.nle_gt. intros Hge.
    assert (0 < x) as Hpos by (pose proof (Z.pow_pos_nonneg 2 w); lia).
    pose proof (Z.bit_log2 x Hpos) as Hl. apply Z.log2_le_pow2 in Hge; [|done].
    by rewrite Hb in Hl.
Qed.

(** Byte [k] (from the top) of a 32-bit value. *)
Lemma testbit_byte v k n :
  0 <= n -> 0 <= k ->
  Z.testbit (Z.land (Z.shiftr v k) 255) n = Z.testbit v (n + k) && (n <? 8).
Proof.
  intros Hn Hk. change 255 with (Z.ones 8).
  by rewrite Z.land_spec, Z.shiftr_spec, Z.testbit_ones_nonneg by lia.
Qed.

Lemma testbit_byte_shift v k n :
  0 <= n -> 0 <= k -> Z.testbit (Z.shiftl (Z.land (Z.shiftr v k) 255) k) n
  = Z.testbit v n && (k <=? n) && (n <? k + 8).
Proof.
  intros Hn Hk. destruct (Z.leb_spec k n).
  - rewrite Z.shiftl_spec_high, testbit_byte, Z.sub_add by lia.
    destruct (Z.ltb_spec (n - k) 8), (Z.ltb_spec n (k + 8)); try lia; btauto.
  - rewrite Z.shiftl_spec_low by lia. btauto.
Qed.

(** Four bytes shifted into place make the value. *)
Lemma lor_bytes32 v :
  is_u32 v ->
  Z.lor (Z.lor (Z.lor (wrap32 (Z.shiftl (Z.land (Z.shiftr v 24) 255) 24))
                 (wrap32 (Z.shiftl (Z.land (Z.shiftr v 16) 255) 16)))
           (wrap32 (Z.shiftl (Z.land (Z.shiftr v 8) 255) 8))) (Z.land v 255) = v.
Proof.
  intros Hv. apply (range_bits 32) in Hv as [H0 Hv]; [|lia]. unfold wrap32. rewrite <- !Z.land_ones by lia.
  apply Z.bits_inj'. intros n Hn.
  rewrite !Z.lor_spec, !(Z.land_spec (Z.shiftl _ _)), !testbit_byte_shift, !Z.testbit_ones_nonneg by lia.
  pose proof (testbit_byte v 0 n Hn ltac:(lia)) as Hb. rewrite Z.shiftr_0_r, Z.add_0_r in Hb. rewrite Hb.
  destruct (Z.ltb_spec n 32); [|rewrite Hv by lia; btauto].
  destruct (Z.ltb_spec n 8), (Z.leb_spec 8 n), (Z.ltb_spec n (8 + 8)), (Z.leb_spec 16 n),
    (Z.ltb_spec n (16 + 8)), (Z.leb_spec 24 n), (Z.ltb_spec n (24 + 8)); try lia; btauto.
Qed.

Lemma land_255_byte z : is_u8 (Z.land z 255).
Proof. change 255 with (Z.ones 8). rewrite Z.land_ones by lia. apply Z.mod_pos_bound. lia. Qed.
#[export] Hint Resolve land_255_byte : wtc.

(** ** Tactics *)

(** Case analysis on the innermost condition of the goal or of a hypothesis. *)
Ltac split_if :=
  match goal with
  | |- context [if ?c then _ else _] => let E := fresh "E" in destruct c eqn:E
  | H : context [if ?c then _ else _] |- _ => let E := fresh "E" in destruct c eqn:E
  end.

(** Turn the boolean tests of the code into propositions. *)
Ltac reflect :=
  repeat match goal with
  | H : _ && _ = true |- _ => apply andb_true_iff in H as [? ?]
  | H : _ || _ = true |- _ => apply orb_true_iff in H
  | H : _ && _ = false |- _ => apply andb_false_iff in H
  | H : _ || _ = false |- _ => apply orb_false_iff in H as [? ?]
  | H : negb _ = true |- _ => apply negb_true_iff in H
  | H : negb _ = false |- _ => apply negb_false_iff in H
  | H : (_ <? _) = true |- _ => apply Z.ltb_lt in H
  | H : (_ <? _) = false |- _ => apply Z.ltb_ge in H
  | H : (_ <=? _) = true |- _ => apply Z.leb_le in H
  | H : (_ <=? _) = false |- _ => apply Z.leb_gt in H
  | H : (_ =? _) = true |- _ => apply Z.eqb_eq in H
  | H : (_ =? _) = false |- _ => apply Z.eqb_neq in H
  | H : bool_decide _ = true |- _ => apply bool_decide_eq_true in H
  | H : bool_decide _ = false |- _ => apply bool_decide_eq_false in H
  end.
