(* ===== verification/Float32.v ===== *)
(** * IEEE-754 binary32, the C type [float]

    The controller computes on [float] everywhere (process values, thresholds,
    PID terms).  A [float] is a [spec_float] of the Standard Library at
    precision 24 and maximal exponent 128, with its rounding operations; this
    file adds the comparisons the C operators perform (false on NaN), the order
    lemmas the components use, the bit pattern that [memcpy] and unions expose,
    the conversion to [uint8_t], the ["%.nf"] conversion of [snprintf], and [double]
    as the same type at precision 53. *)

From Stdlib Require Import SpecFloat.
From S2P Require Import Prelude.

Abbreviation float32 := spec_float.

Definition prec32 : Z := 24.
Definition emax32 : Z := 128.

Definition fadd : float32 -> float32 -> float32 := SFadd prec32 emax32.
Definition fsub : float32 -> float32 -> float32 := SFsub prec32 emax32.
Definition fmul : float32 -> float32 -> float32 := SFmul prec32 emax32.
Definition fdiv : float32 -> float32 -> float32 := SFdiv prec32 emax32.
Definition fopp : float32 -> float32 := SFopp.
Definition fabsf : float32 -> float32 := SFabs.

Definition flt (x y : float32) : bool := SFltb x y.
Definition fle (x y : float32) : bool := SFleb x y.
Definition fgt (x y : float32) : bool := flt y x.
Definition fge (x y : float32) : bool := fle y x.
Definition feq (x y : float32) : bool := SFeqb x y.

(** Conversion of an integer, rounding to nearest even. *)
Definition f32_of_Z (z : Z) : float32 := binary_normalize prec32 emax32 z 0 false.

(** The literal [n / d]: correctly rounded when [n] and [d] are below 2^24. *)
Definition f32_lit (n d : Z) : float32 := fdiv (f32_of_Z n) (f32_of_Z d).

Definition f0 : float32 := S754_zero false.
Definition f1 : float32 := f32_of_Z 1.

Definition is_nan (x : float32) : bool :=
  match x with S754_nan => true | _ => false end.
Definition is_finite (x : float32) : bool :=
  match x with S754_zero _ | S754_finite _ _ _ => true | _ => false end.

(** A value a [float] variable can hold: a normalised binary32. *)
Definition valid32 (x : float32) : bool := valid_binary prec32 emax32 x.

(** ** The order of the C comparisons *)

(** Sign class, signed exponent and signed mantissa: compared lexicographically
    they order the non-NaN values. *)
Definition rank (x : float32) : Z * Z * Z :=
  match x with
  | S754_infinity true => (-2, 0, 0)
  | S754_finite true m e => (-1, - e, - Z.pos m)
  | S754_zero _ => (0, 0, 0)
  | S754_finite false m e => (1, e, Z.pos m)
  | S754_infinity false => (2, 0, 0)
  | S754_nan => (3, 0, 0)
  end.

Definition rank_lt (a b : Z * Z * Z) : Prop :=
  let '(a1, a2, a3) := a in let '(b1, b2, b3) := b in
  a1 < b1 \/ (a1 = b1 /\ (a2 < b2 \/ (a2 = b2 /\ a3 < b3))).

Lemma SFcompare_rank x y :
  is_nan x = false -> is_nan y = false ->
  match SFcompare x y with
  | Some Lt => rank_lt (rank x) (rank y)
  | Some Eq => rank x = rank y
  | Some Gt => rank_lt (rank y) (rank x)
  | None => False
  end.
Proof.
  intros Hx Hy.
  destruct x as [[]|[]| |[] mx ex]; destruct y as [[]|[]| |[] my ey]; try done;
    simpl; try lia; try (left; lia).
  - destruct (Z.compare_spec ex ey) as [->| |]; simpl; [|lia|lia].
    change (Pos.compare_cont Eq mx my) with (mx ?= my)%positive.
    destruct (Pos.compare_spec mx my) as [->| |]; simpl; [done|lia|lia].
  - destruct (Z.compare_spec ex ey) as [->| |]; simpl; [|lia|lia].
    change (Pos.compare_cont Eq mx my) with (mx ?= my)%positive.
    destruct (Pos.compare_spec mx my) as [->| |]; simpl; [done|lia|lia].
Qed.

Lemma SFcompare_nan x y : is_nan x = true \/ is_nan y = true -> SFcompare x y = None.
Proof. intros [H|H]; destruct x, y; done. Qed.

Lemma rank_lt_irrefl a b : rank_lt a b -> rank_lt b a -> False.
Proof. destruct a as [[??]?], b as [[??]?]. simpl. lia. Qed.

Lemma flt_spec x y :
  flt x y = true <-> is_nan x = false /\ is_nan y = false /\ rank_lt (rank x) (rank y).
Proof.
  unfold flt, SFltb. split.
  - intros H. destruct (is_nan x) eqn:Hx; [by rewrite SFcompare_nan in H by auto|].
    destruct (is_nan y) eqn:Hy; [by rewrite SFcompare_nan in H by auto|].
    pose proof (SFcompare_rank x y Hx Hy) as Hc.
    destruct (SFcompare x y) as [[]|]; done.
  - intros (Hx & Hy & Hlt). pose proof (SFcompare_rank x y Hx Hy) as Hc.
    destruct (SFcompare x y) as [[]|]; try done; exfalso.
    + rewrite Hc in Hlt. by eapply rank_lt_irrefl.
    + by eapply rank_lt_irrefl.
Qed.

Lemma fle_spec x y :
  fle x y = true <->
  is_nan x = false /\ is_nan y = false /\ (rank_lt (rank x) (rank y) \/ rank x = rank y).
Proof.
  unfold fle, SFleb. split.
  - intros H. destruct (is_nan x) eqn:Hx; [by rewrite SFcompare_nan in H by auto|].
    destruct (is_nan y) eqn:Hy; [by rewrite SFcompare_nan in H by auto|].
    pose proof (SFcompare_rank x y Hx Hy) as Hc.
    destruct (SFcompare x y) as [[]|]; auto; done.
  - intros (Hx & Hy & Hle). pose proof (SFcompare_rank x y Hx Hy) as Hc.
    destruct (SFcompare x y) as [[]|]; try done; exfalso.
    destruct Hle as [Hlt|Heq]; [|rewrite Heq in Hc; by eapply rank_lt_irrefl].
    by eapply rank_lt_irrefl.
Qed.

(** The order of the numbers, with no use of the comparisons of the code. *)
Definition num_lt (x y : float32) : Prop :=
  is_nan x = false /\ is_nan y = false /\ rank_lt (rank x) (rank y).
Definition num_le (x y : float32) : Prop :=
  is_nan x = false /\ is_nan y = false /\ (rank_lt (rank x) (rank y) \/ rank x = rank y).

Lemma fle_refl x : is_nan x = false -> fle x x = true.
Proof. intros H. apply fle_spec. auto. Qed.

Lemma flt_fle x y : flt x y = true -> fle x y = true.
Proof. rewrite flt_spec, fle_spec. tauto. Qed.

Lemma rank_lt_trans a b c : rank_lt a b -> rank_lt b c -> rank_lt a c.
Proof. destruct a as [[??]?], b as [[??]?], c as [[??]?]. simpl. lia. Qed.

Lemma fle_trans x y z : fle x y = true -> fle y z = true -> fle x z = true.
Proof.
  rewrite !fle_spec. intros (Hx & Hy & H1) (_ & Hz & H2). split_and!; [done..|].
  destruct H1 as [H1|H1], H2 as [H2|H2]; rewrite ?H1, <- ?H2; auto.
  left. by eapply rank_lt_trans.
Qed.

Lemma flt_fle_trans x y z : flt x y = true -> fle y z = true -> flt x z = true.
Proof.
  rewrite !flt_spec, fle_spec. intros (Hx & Hy & H1) (_ & Hz & H2). split_and!; [done..|].
  destruct H2 as [H2|H2]; rewrite <- ?H2; auto. by eapply rank_lt_trans.
Qed.

Lemma rank_total a b : rank_lt a b \/ a = b \/ rank_lt b a.
Proof.
  destruct a as [[a1 a2] a3], b as [[b1 b2] b3]. simpl.
  destruct (decide (a1 = b1)), (decide (a2 = b2)), (decide (a3 = b3)); subst; auto; lia.
Qed.

(** On non-NaN values the failed test is the converse comparison. *)
Lemma flt_false x y :
  is_nan x = false -> is_nan y = false -> flt x y = false -> fle y x = true.
Proof.
  intros Hx Hy H. apply fle_spec. split_and!; [done..|].
  destruct (rank_total (rank y) (rank x)) as [?|[?|Hlt]]; auto.
  assert (flt x y = true) by (apply flt_spec; auto). congruence.
Qed.

Lemma flt_asym x y : flt x y = true -> flt y x = false.
Proof.
  intros H. destruct (flt y x) eqn:E; [|done].
  apply flt_spec in H as (?&?&?), E as (?&?&?). exfalso. by eapply rank_lt_irrefl.
Qed.

Lemma fle_not_flt x y : fle x y = true -> flt y x = false.
Proof.
  intros H. destruct (flt y x) eqn:E; [|done].
  apply flt_spec in E as (?&?&?). apply fle_spec in H as (?&?&[H|H]); exfalso.
  - by eapply rank_lt_irrefl.
  - rewrite H in *. by eapply rank_lt_irrefl.
Qed.

Lemma flt_nan_l x y : is_nan x = true -> flt x y = false.
Proof. intros H. unfold flt, SFltb. by rewrite SFcompare_nan by auto. Qed.
Lemma flt_nan_r x y : is_nan y = true -> flt x y = false.
Proof. intros H. unfold flt, SFltb. by rewrite SFcompare_nan by auto. Qed.

#[export] Hint Resolve fle_refl flt_fle fle_trans : wtc.

(** ** The bit pattern of a [float] *)

(** The 32 bits of a value (a NaN is stored as the quiet NaN 0x7FC00000). *)
Definition bits_of_f32 (x : float32) : Z :=
  match x with
  | S754_zero s => Z.b2z s * 2 ^ 31
  | S754_infinity s => Z.b2z s * 2 ^ 31 + 255 * 2 ^ 23
  | S754_nan => 255 * 2 ^ 23 + 2 ^ 22
  | S754_finite s m e =>
      if Z.pos m <? 2 ^ 23 then Z.b2z s * 2 ^ 31 + Z.pos m
      else Z.b2z s * 2 ^ 31 + (e + 150) * 2 ^ 23 + (Z.pos m - 2 ^ 23)
  end.

Definition f32_of_bits (b : Z) : float32 :=
  let s := Z.odd (b / 2 ^ 31) in
  let ex := (b / 2 ^ 23) mod 2 ^ 8 in
  let mant := b mod 2 ^ 23 in
  if ex =? 0 then
    if mant =? 0 then S754_zero s else S754_finite s (Z.to_pos mant) (-149)
  else if ex =? 255 then
    if mant =? 0 then S754_infinity s else S754_nan
  else S754_finite s (Z.to_pos (mant + 2 ^ 23)) (ex - 150).

Lemma digits2_pos_bounds m :
  2 ^ (Z.pos (digits2_pos m) - 1) <= Z.pos m < 2 ^ Z.pos (digits2_pos m).
Proof.
  induction m as [m IH|m IH|]; simpl digits2_pos; [| |done];
    rewrite ?Pos2Z.inj_succ;
    replace (Z.succ (Z.pos (digits2_pos m)) - 1) with (Z.pos (digits2_pos m) - 1 + 1) by lia;
    rewrite Z.pow_add_r, Z.pow_succ_r by lia; lia.
Qed.

(** A stored mantissa is subnormal at the least exponent, or has its top bit. *)
Lemma valid32_finite s m e :
  valid32 (S754_finite s m e) = true ->
  (Z.pos m < 2 ^ 23 /\ e = -149) \/ (2 ^ 23 <= Z.pos m < 2 ^ 24 /\ -149 <= e <= 104).
Proof.
  unfold valid32, valid_binary, bounded, canonical_mantissa, fexp, emin, prec32, emax32.
  intros [H1 H2]%andb_true_iff. apply Z.eqb_eq in H1. apply Z.leb_le in H2.
  pose proof (digits2_pos_bounds m) as [Hlo Hhi].
  remember (Z.pos (digits2_pos m)) as d eqn:Hd. assert (1 <= d) by lia. clear Hd.
  destruct (Z.lt_ge_cases d 24) as [Hlt|Hge].
  - left. split; [|lia]. eapply Z.lt_le_trans; [exact Hhi|]. apply Z.pow_le_mono_r; lia.
  - right. assert (d = 24) as -> by lia. change (24 - 1) with 23 in Hlo. lia.
Qed.

Lemma bits_split (s : bool) (ex mant : Z) :
  0 <= ex < 2 ^ 8 -> 0 <= mant < 2 ^ 23 ->
  let b := Z.b2z s * 2 ^ 31 + ex * 2 ^ 23 + mant in
  Z.odd (b / 2 ^ 31) = s /\ (b / 2 ^ 23) mod 2 ^ 8 = ex /\ b mod 2 ^ 23 = mant.
Proof.
  intros Hex Hm b.
  assert (b / 2 ^ 23 = Z.b2z s * 2 ^ 8 + ex) as H23.
  { symmetry. apply (Z.div_unique _ _ _ mant); unfold b; lia. }
  assert (b / 2 ^ 31 = Z.b2z s) as H31.
  { symmetry. apply (Z.div_unique _ _ _ (ex * 2 ^ 23 + mant)); unfold b; lia. }
  split_and!.
  - rewrite H31. by destruct s.
  - rewrite H23. symmetry. apply (Z.mod_unique _ _ (Z.b2z s)); lia.
  - symmetry. apply (Z.mod_unique _ _ (Z.b2z s * 2 ^ 8 + ex)); unfold b; lia.
Qed.

Lemma f32_of_bits_split (s : bool) (ex mant : Z) :
  0 <= ex < 2 ^ 8 -> 0 <= mant < 2 ^ 23 ->
  f32_of_bits (Z.b2z s * 2 ^ 31 + ex * 2 ^ 23 + mant) =
  (if ex =? 0 then
     if mant =? 0 then S754_zero s else S754_finite s (Z.to_pos mant) (-149)
   else if ex =? 255 then
     if mant =? 0 then S754_infinity s else S754_nan
   else S754_finite s (Z.to_pos (mant + 2 ^ 23)) (ex - 150)).
Proof.
  intros Hex Hm. destruct (bits_split s ex mant Hex Hm) as (H1 & H2 & H3).
  unfold f32_of_bits. by rewrite H1, H2, H3.
Qed.

(** Reading back the stored bits gives the value. *)
Lemma f32_bits_roundtrip x : valid32 x = true -> f32_of_bits (bits_of_f32 x) = x.
Proof.
  destruct x as [s|s| |s m e]; intros Hv.
  - by destruct s.
  - by destruct s.
  - done.
  - apply valid32_finite in Hv as [[Hm ->]|[Hm He]]; simpl.
    + rewrite (proj2 (Z.ltb_lt _ _) Hm).
      replace (Z.b2z s * 2 ^ 31 + Z.pos m) with (Z.b2z s * 2 ^ 31 + 0 * 2 ^ 23 + Z.pos m) by lia.
      by rewrite f32_of_bits_split by lia.
    + destruct (Z.ltb_spec (Z.pos m) (2 ^ 23)); [lia|].
      rewrite f32_of_bits_split by lia.
      destruct (Z.eqb_spec (e + 150) 0); [lia|]. destruct (Z.eqb_spec (e + 150) 255); [lia|].
      f_equal; [|lia]. replace (Z.pos m - 2 ^ 23 + 2 ^ 23) with (Z.pos m) by lia. done.
Qed.

Lemma bits_of_f32_range x : valid32 x = true -> is_u32 (bits_of_f32 x).
Proof.
  unfold is_u32. destruct x as [s|s| |s m e]; intros Hv; simpl.
  1-3: try destruct s; simpl; lia.
  apply valid32_finite in Hv.
  destruct (Z.ltb_spec (Z.pos m) (2 ^ 23)); destruct s; simpl; lia.
Qed.

(** ** [(uint8_t)x]: truncation toward zero, undefined outside [0, 256) *)

Definition f32_trunc (x : float32) : option Z :=
  match x with
  | S754_zero _ => Some 0
  | S754_finite s m e =>
      let a := if 0 <=? e then Z.pos m * 2 ^ e else Z.pos m / 2 ^ (- e) in
      Some (if s then - a else a)
  | _ => None
  end.

Definition f32_to_u8 (x : float32) : option Z :=
  match f32_trunc x with
  | Some z => if (0 <=? z) && (z <? 256) then Some z else None
  | None => None
  end.

Lemma f32_to_u8_range x z : f32_to_u8 x = Some z -> is_u8 z.
Proof.
  unfold f32_to_u8. destruct (f32_trunc x); [|done].
  destruct (_ && _) eqn:E; [|done]. intros [= <-]. unfold is_u8. reflect. lia.
Qed.

(** A value between 0 and 255 converts without undefined behaviour. *)
Lemma f32_to_u8_defined x :
  valid32 x = true -> fle f0 x = true -> fle x (f32_of_Z 255) = true ->
  exists z, f32_to_u8 x = Some z.
Proof.
  intros Hv H0 H255. apply fle_spec in H0 as (_ & Hn & H0).
  apply fle_spec in H255 as (_ & _ & H255).
  change (f32_of_Z 255) with (S754_finite false 16711680 (-16)) in H255.
  unfold f32_to_u8. destruct x as [s|s| |s m e]; try done; simpl in *.
  - eauto.
  - destruct s; simpl in *; destruct H0 as [?|[=]]; destruct H255 as [?|[=]]; lia.
  - destruct s; simpl in *; [destruct H0 as [?|[=]]; lia|].
    apply (valid32_finite false) in Hv. assert (e <= -16) as He.
    { destruct H255 as [H|[= ? ?]]; lia. }
    destruct (Z.leb_spec 0 e); [lia|].
    assert (0 <= Z.pos m / 2 ^ (- e) < 256) as [Hlo Hhi].
    { split; [apply Z.div_pos; lia|]. apply Z.div_lt_upper_bound; [lia|].
      assert (2 ^ 16 <= 2 ^ (- e)) by (apply Z.pow_le_mono_r; lia). lia. }
    rewrite (proj2 (Z.leb_le _ _) Hlo), (proj2 (Z.ltb_lt _ _) Hhi). eauto.
Qed.

(** ** The C type [double] *)

Definition prec64 : Z := 53.
Definition emax64 : Z := 1024.
Definition dmul := SFmul prec64 emax64.
Definition ddiv := SFdiv prec64 emax64.
(** The conversions [float] to [double] and back. *)
Definition change_format (prec emax : Z) (x : spec_float) : spec_float :=
  match x with
  | S754_finite s m e => binary_normalize prec emax (if s then Zneg m else Zpos m) e s
  | _ => x
  end.
Definition to_double := change_format prec64 emax64.
Definition to_float := change_format prec32 emax32.

(** ** ["%.nf"] of [snprintf] *)

Definition div_half_even (n d : Z) : Z :=
  let q := n / d in
  match Z.compare (2 * (n mod d)) d with
  | Lt => q
  | Gt => q + 1
  | Eq => if Z.even q then q else q + 1
  end.

Fixpoint pad_zeros (n : nat) (s : string) : string :=
  match n with
  | O => s
  | S n' => ("0" +:+ pad_zeros n' s)%string
  end.

Definition fixed_digits (k : nat) (n : Z) : string :=
  let p := 10 ^ Z.of_nat k in
  let frac := pretty (n mod p) in
  (pretty (n / p) +:+ "." +:+ pad_zeros (k - String.length frac) frac)%string.

(** The value is converted to [double] exactly and printed with [k] decimals,
    ties to even, as the C library does. *)
Definition fmt_fixed (k : nat) (x : float32) : string :=
  let sign (s : bool) (t : string) := if s then ("-" +:+ t)%string else t in
  match x with
  | S754_nan => "nan"
  | S754_infinity s => sign s "inf"%string
  | S754_zero s => sign s (fixed_digits k 0)
  | S754_finite s m e =>
      let n := Z.pos m * 10 ^ Z.of_nat k in
      sign s (fixed_digits k (if 0 <=? e then n * 2 ^ e else div_half_even n (2 ^ (- e))))
  end.

Example fmt_fixed_2 : fmt_fixed 2 (f32_lit 1237 100) = "12.37"%string.
Proof. vm_compute. reflexivity. Qed.
Example fmt_fixed_3 : fmt_fixed 3 (fopp (f32_lit 5 100)) = "-0.050"%string.
Proof. vm_compute. reflexivity. Qed.
