(* ===== verification/Types.v ===== *)
(** * Shared data types of [src/types.h] and the registry interface

    The enumerations and structs that several components exchange, and the
    interface ([RegistryOps] with its laws [RegistryLaws]) through which the
    alarm manager, the control engine and the sequence engine reach the RTU
    registry: their theorems are proved against the interface, and
    [Registry.v] discharges it for [rtu_registry.c]. *)

From S2P Require Import Prelude Float32.

(** [iops_t] *)
Inductive iops := IOPS_BAD | IOPS_GOOD.

(** [data_quality_t] *)
Inductive data_quality :=
| QUALITY_GOOD | QUALITY_UNCERTAIN | QUALITY_BAD | QUALITY_NOT_CONNECTED.

(** [profinet_state_t] *)
Inductive profinet_state :=
| PROFINET_STATE_OFFLINE | PROFINET_STATE_DISCOVERY | PROFINET_STATE_CONNECTING
| PROFINET_STATE_CONNECTED | PROFINET_STATE_RUNNING | PROFINET_STATE_ERROR
| PROFINET_STATE_DISCONNECT.

(** [slot_type_t], [measurement_type_t], [actuator_type_t] *)
Inductive slot_type := SLOT_TYPE_DAP | SLOT_TYPE_SENSOR | SLOT_TYPE_ACTUATOR.

Inductive measurement_type :=
| MEASUREMENT_PH | MEASUREMENT_TEMPERATURE | MEASUREMENT_TURBIDITY | MEASUREMENT_TDS
| MEASUREMENT_DISSOLVED_OXYGEN | MEASUREMENT_FLOW_RATE | MEASUREMENT_LEVEL
| MEASUREMENT_PRESSURE | MEASUREMENT_CONDUCTIVITY | MEASUREMENT_ORP
| MEASUREMENT_CHLORINE | MEASUREMENT_CUSTOM.

Inductive actuator_type :=
| ACTUATOR_RELAY | ACTUATOR_PWM | ACTUATOR_PUMP | ACTUATOR_VALVE
| ACTUATOR_LATCHING | ACTUATOR_MOMENTARY.

#[export] Instance iops_eq_dec : EqDecision iops.
Proof. solve_decision. Defined.
#[export] Instance data_quality_eq_dec : EqDecision data_quality.
Proof. solve_decision. Defined.
#[export] Instance profinet_state_eq_dec : EqDecision profinet_state.
Proof. solve_decision. Defined.
#[export] Instance slot_type_eq_dec : EqDecision slot_type.
Proof. solve_decision. Defined.
#[export] Instance measurement_type_eq_dec : EqDecision measurement_type.
Proof. solve_decision. Defined.

(** [actuator_cmd_t] values of the [command] byte. *)
Definition ACTUATOR_CMD_OFF : Z := 0.
Definition ACTUATOR_CMD_ON : Z := 1.
Definition ACTUATOR_CMD_PWM : Z := 2.

(** [sensor_data_t] *)
Record sensor_data := mk_sensor_data {
  sd_value : float32;
  sd_status : iops;
  sd_quality : data_quality;
  sd_timestamp_ms : Z;
  sd_stale : bool }.

(** [actuator_output_t] *)
Record actuator_output := mk_actuator_output {
  ao_command : Z;
  ao_pwm_duty : Z;
  ao_reserved0 : Z;
  ao_reserved1 : Z }.

(** [actuator_state_t] *)
Record actuator_state := mk_actuator_state {
  as_output : actuator_output;
  as_forced : bool;
  as_last_change_ms : Z;
  as_total_on_time_ms : Z;
  as_cycle_count : Z }.

#[export] Instance eta_sensor_data : Eta sensor_data := fun r =>
  mk_sensor_data (sd_value r) (sd_status r) (sd_quality r) (sd_timestamp_ms r) (sd_stale r).
#[export] Instance eta_actuator_output : Eta actuator_output := fun r =>
  mk_actuator_output (ao_command r) (ao_pwm_duty r) (ao_reserved0 r) (ao_reserved1 r).
#[export] Instance eta_actuator_state : Eta actuator_state := fun r =>
  mk_actuator_state (as_output r) (as_forced r) (as_last_change_ms r)
    (as_total_on_time_ms r) (as_cycle_count r).

(** What [calloc] leaves in the runtime arrays. *)
Definition zero_sensor : sensor_data := mk_sensor_data f0 IOPS_BAD QUALITY_GOOD 0 false.
Definition zero_output : actuator_output := mk_actuator_output 0 0 0 0.
Definition zero_actuator : actuator_state := mk_actuator_state zero_output false 0 0 0.

(** ** The registry as its clients see it

    [reg_get_sensor r now station slot out] is [rtu_registry_get_sensor] called
    with the output parameter holding [out]: on an error the output parameter is
    not written.  [now] is the clock reading inside the call. *)
Class RegistryOps (R : Type) := {
  reg_get_sensor : R -> Z -> string -> Z -> sensor_data -> wtc_result * sensor_data;
  reg_update_actuator : R -> Z -> string -> Z -> actuator_output -> wtc_result * R;
  reg_get_actuator : R -> string -> Z -> wtc_result * option actuator_state }.

Class RegistryLaws (R : Type) `{RegistryOps R} := {
  (** Writing an output never changes what a sensor read returns. *)
  update_actuator_sensor : forall r now st sl o now' st' sl' out,
    reg_get_sensor (snd (reg_update_actuator r now st sl o)) now' st' sl' out
    = reg_get_sensor r now' st' sl' out;
  (** A failed write changes nothing. *)
  update_actuator_failed : forall r now st sl o,
    fst (reg_update_actuator r now st sl o) <> WTC_OK ->
    snd (reg_update_actuator r now st sl o) = r;
  (** A successful write is read back. *)
  update_actuator_read : forall r now st sl o,
    fst (reg_update_actuator r now st sl o) = WTC_OK ->
    exists a, reg_get_actuator (snd (reg_update_actuator r now st sl o)) st sl = (WTC_OK, Some a)
      /\ as_output a = o;
  (** A write to one point leaves the others alone. *)
  update_actuator_frame : forall r now st sl o st' sl',
    (st, sl) <> (st', sl') ->
    reg_get_actuator (snd (reg_update_actuator r now st sl o)) st' sl'
    = reg_get_actuator r st' sl';
  (** Whether a point exists does not depend on what was written before. *)
  update_actuator_stable : forall r now st sl o now' st' sl' o',
    fst (reg_update_actuator (snd (reg_update_actuator r now st sl o)) now' st' sl' o')
    = fst (reg_update_actuator r now' st' sl' o');
  (** A failed sensor read leaves the output parameter as it was. *)
  get_sensor_failed : forall r now st sl out,
    fst (reg_get_sensor r now st sl out) <> WTC_OK ->
    snd (reg_get_sensor r now st sl out) = out }.
