(* ===== verification/Registry.v ===== *)
(** * The RTU registry: [src/registry/rtu_registry.c]

    The table of field devices and their runtime data.  Every operation that
    changes the table is a function on the [registry] record; a failing
    allocation is an argument ([alloc k] says whether the [k]-th allocation of
    the call succeeds), and the clock reading is an argument. *)

From S2P Require Import Prelude Float32 Types.

Definition WTC_MAX_RTUS : nat := 256.
Definition WTC_DEFAULT_SLOTS : Z := 247.
Definition WTC_DEFAULT_SENSORS : nat := 123.
Definition WTC_DEFAULT_ACTUATORS : nat := 123.

(** [slot_config_t] *)
Record slot_config := mk_slot_config {
  sc_slot : Z;
  sc_subslot : Z;
  sc_type : slot_type;
  sc_name : string;
  sc_unit : string;
  sc_measurement_type : measurement_type;
  sc_actuator_type : actuator_type;
  sc_scale_min : float32;
  sc_scale_max : float32;
  sc_alarm_low : float32;
  sc_alarm_high : float32;
  sc_alarm_low_low : float32;
  sc_alarm_high_high : float32;
  sc_warning_low : float32;
  sc_warning_high : float32;
  sc_deadband : float32;
  sc_enabled : bool }.

(** [rtu_device_t]: [slots] holds the [slot_count] configured entries of an
    array of [slot_capacity]; [sensors] and [actuators] are whole arrays. *)
Record rtu_device := mk_rtu_device {
  dev_id : Z;
  dev_station_name : string;
  dev_ip_address : string;
  dev_vendor_id : Z;
  dev_device_id : Z;
  dev_connection_state : profinet_state;
  dev_last_seen_ms : Z;
  dev_slots : list slot_config;
  dev_slot_capacity : Z;
  dev_sensors : list sensor_data;
  dev_sensor_count : Z;
  dev_actuators : list actuator_state;
  dev_actuator_count : Z;
  dev_packet_loss_percent : float32;
  dev_config_dirty : bool }.

(** [struct rtu_registry]: the device table and which callbacks are set. *)
Record registry := mk_registry {
  reg_on_device_added : bool;
  reg_on_device_removed : bool;
  reg_on_state_changed : bool;
  reg_devices : list rtu_device }.

#[export] Instance eta_rtu_device : Eta rtu_device := fun r =>
  mk_rtu_device (dev_id r) (dev_station_name r) (dev_ip_address r) (dev_vendor_id r)
    (dev_device_id r) (dev_connection_state r) (dev_last_seen_ms r) (dev_slots r)
    (dev_slot_capacity r) (dev_sensors r) (dev_sensor_count r) (dev_actuators r)
    (dev_actuator_count r) (dev_packet_loss_percent r) (dev_config_dirty r).
#[export] Instance eta_registry : Eta registry := fun r =>
  mk_registry (reg_on_device_added r) (reg_on_device_removed r)
    (reg_on_state_changed r) (reg_devices r).

(** The callbacks a call invokes, in order. *)
Inductive registry_event :=
| EvDeviceAdded (station : string)
| EvDeviceRemoved (station : string)
| EvStateChanged (station : string) (old new : profinet_state).

Definition has_name (n : string) (d : rtu_device) : Prop := dev_station_name d = n.
#[export] Instance has_name_dec n d : Decision (has_name n d).
Proof. unfold has_name. apply _. Defined.

(** [find_device_locked] *)
Definition find_device_locked (r : registry) (station : string) : option rtu_device :=
  find_entry (has_name station) (reg_devices r).

(** Count the sensor and actuator slots of a configuration. *)
Definition count_slots (t : slot_type) (slots : list slot_config) : Z :=
  Z.of_nat (length (filter (fun s => sc_type s = t) slots)).

(** [rtu_registry_add_device] ([slots = None] is the NULL pointer). *)
Definition rtu_registry_add_device (alloc : nat -> bool) (now : Z) (r : registry)
    (station : string) (ip : option string) (slots : option (list slot_config))
    (slot_count : Z) : wtc_result * registry * list registry_event :=
  if bool_decide (is_Some (find_device_locked r station)) then
    (WTC_ERROR_ALREADY_EXISTS, r, [])
  else if (WTC_MAX_RTUS <=? length (reg_devices r))%nat then
    (WTC_ERROR_FULL, r, [])
  else if negb (alloc 0%nat && alloc 1%nat && alloc 2%nat && alloc 3%nat) then
    (WTC_ERROR_NO_MEMORY, r, [])
  else
    let cfg := match slots with
               | Some s => if 0 <? slot_count then take (Z.to_nat slot_count) s else []
               | None => []
               end in
    let device := {|
      dev_id := Z.of_nat (length (reg_devices r));
      dev_station_name := strncpy (WTC_MAX_STATION_NAME - 1) station;
      dev_ip_address := match ip with
                        | Some a => strncpy (WTC_MAX_IP_ADDRESS - 1) a
                        | None => ""
                        end;
      dev_vendor_id := 0; dev_device_id := 0;
      dev_connection_state := PROFINET_STATE_OFFLINE;
      dev_last_seen_ms := now;
      dev_slots := cfg;
      dev_slot_capacity := if 0 <? slot_count then slot_count else WTC_DEFAULT_SLOTS;
      dev_sensors := replicate WTC_DEFAULT_SENSORS zero_sensor;
      dev_sensor_count := count_slots SLOT_TYPE_SENSOR cfg;
      dev_actuators := replicate WTC_DEFAULT_ACTUATORS zero_actuator;
      dev_actuator_count := count_slots SLOT_TYPE_ACTUATOR cfg;
      dev_packet_loss_percent := f0;
      dev_config_dirty := false |} in
    (WTC_OK, r <| reg_devices := reg_devices r ++ [device] |>,
     if reg_on_device_added r then [EvDeviceAdded (dev_station_name device)] else []).

(** The loop of [rtu_registry_remove_device]: shift and renumber. *)
Fixpoint shift_renumber (n j : nat) (l : list rtu_device) : list rtu_device :=
  match n with
  | O => l
  | S n' =>
      match l !! S j with
      | Some d => shift_renumber n' (S j) (<[j := d <| dev_id := Z.of_nat j |>]> l)
      | None => l
      end
  end.

(** [rtu_registry_remove_device] *)
Definition rtu_registry_remove_device (r : registry) (station : string)
    : wtc_result * registry * list registry_event :=
  match list_find (has_name station) (reg_devices r) with
  | Some (i, _) =>
      let l := reg_devices r in
      (WTC_OK,
       r <| reg_devices := take (length l - 1) (shift_renumber (length l - 1 - i) i l) |>,
       if reg_on_device_removed r then [EvDeviceRemoved station] else [])
  | None => (WTC_ERROR_NOT_FOUND, r, [])
  end.

(** [deep_copy_device]: an array whose copy cannot be allocated is dropped. *)
Definition deep_copy_device (alloc : nat -> bool) (d : rtu_device) : option rtu_device :=
  if alloc 0%nat then
    let d1 := if 0 <? dev_slot_capacity d then
                if alloc 1%nat then d else d <| dev_slots := [] |> <| dev_slot_capacity := 0 |>
              else d <| dev_slots := [] |> in
    let d2 := if alloc 2%nat then d1 else d1 <| dev_sensors := [] |> in
    Some (if alloc 3%nat then d2 else d2 <| dev_actuators := [] |>)
  else None.

(** [rtu_registry_get_device], [rtu_registry_get_device_by_index] *)
Definition rtu_registry_get_device (alloc : nat -> bool) (r : registry) (station : string)
    : option rtu_device :=
  match find_device_locked r station with
  | Some d => deep_copy_device alloc d
  | None => None
  end.

Definition rtu_registry_get_device_by_index (alloc : nat -> bool) (r : registry) (index : Z)
    : option rtu_device :=
  if (index <? 0) || (Z.of_nat (length (reg_devices r)) <=? index) then None
  else match reg_devices r !! Z.to_nat index with
       | Some d => deep_copy_device alloc d
       | None => None
       end.

(** [rtu_registry_set_device_config] ([realloc_ok]: the reallocation succeeds). *)
Definition rtu_registry_set_device_config (realloc_ok : bool) (r : registry)
    (station : string) (slots : list slot_config) : wtc_result * registry :=
  let n := Z.of_nat (length slots) in
  match find_device_locked r station with
  | None => (WTC_ERROR_NOT_FOUND, r)
  | Some d0 =>
      if (dev_slot_capacity d0 <? n) && negb realloc_ok then (WTC_ERROR_NO_MEMORY, r)
      else
        let upd d := d <| dev_slots := slots |>
                       <| dev_slot_capacity := Z.max (dev_slot_capacity d) n |>
                       <| dev_config_dirty := true |>
                       <| dev_sensor_count := count_slots SLOT_TYPE_SENSOR slots |>
                       <| dev_actuator_count := count_slots SLOT_TYPE_ACTUATOR slots |> in
        match find_update (has_name station) upd (reg_devices r) with
        | Some l => (WTC_OK, r <| reg_devices := l |>)
        | None => (WTC_ERROR_NOT_FOUND, r)
        end
  end.

(** [rtu_registry_set_device_state] *)
Definition rtu_registry_set_device_state (now : Z) (r : registry) (station : string)
    (state : profinet_state) : wtc_result * registry * list registry_event :=
  match find_device_locked r station with
  | None => (WTC_ERROR_NOT_FOUND, r, [])
  | Some d =>
      if bool_decide (dev_connection_state d = state) then (WTC_OK, r, [])
      else
        match find_update (has_name station)
                (fun d => d <| dev_connection_state := state |> <| dev_last_seen_ms := now |>)
                (reg_devices r) with
        | Some l => (WTC_OK, r <| reg_devices := l |>,
                     if reg_on_state_changed r
                     then [EvStateChanged station (dev_connection_state d) state] else [])
        | None => (WTC_ERROR_NOT_FOUND, r, [])
        end
  end.

(** [rtu_registry_update_sensor] *)
Definition rtu_registry_update_sensor (now : Z) (r : registry) (station : string) (slot : Z)
    (value : float32) (status : iops) (quality : data_quality) : wtc_result * registry :=
  if slot <? 0 then (WTC_ERROR_INVALID_PARAM, r)
  else match find_device_locked r station with
  | None => (WTC_ERROR_NOT_FOUND, r)
  | Some d =>
      if Z.of_nat (length (dev_sensors d)) <=? slot then (WTC_ERROR_INVALID_PARAM, r)
      else
        let sensor := mk_sensor_data value status quality now false in
        match find_update (has_name station)
                (fun d => d <| dev_sensors := <[Z.to_nat slot := sensor]> (dev_sensors d) |>)
                (reg_devices r) with
        | Some l => (WTC_OK, r <| reg_devices := l |>)
        | None => (WTC_ERROR_NOT_FOUND, r)
        end
  end.

(** The two assignments to [actuators[slot]] of [rtu_registry_update_actuator]. *)
Definition write_output (now : Z) (output : actuator_output) (a : actuator_state)
    : actuator_state :=
  a <| as_output := output |> <| as_last_change_ms := now |>.

(** [rtu_registry_update_actuator] *)
Definition rtu_registry_update_actuator (now : Z) (r : registry) (station : string) (slot : Z)
    (output : actuator_output) : wtc_result * registry :=
  if slot <? 0 then (WTC_ERROR_INVALID_PARAM, r)
  else match find_device_locked r station with
  | None => (WTC_ERROR_NOT_FOUND, r)
  | Some d =>
      if Z.of_nat (length (dev_actuators d)) <=? slot then (WTC_ERROR_INVALID_PARAM, r)
      else
        match find_update (has_name station)
                (fun d => d <| dev_actuators :=
                   alter (write_output now output) (Z.to_nat slot) (dev_actuators d) |>)
                (reg_devices r) with
        | Some l => (WTC_OK, r <| reg_devices := l |>)
        | None => (WTC_ERROR_NOT_FOUND, r)
        end
  end.

(** [rtu_registry_get_sensor]: copies the entry, then marks the copy stale when
    it is more than 5000 ms old. *)
Definition rtu_registry_get_sensor (now : Z) (r : registry) (station : string) (slot : Z)
    (out : sensor_data) : wtc_result * sensor_data :=
  if slot <? 0 then (WTC_ERROR_INVALID_PARAM, out)
  else match find_device_locked r station with
  | None => (WTC_ERROR_NOT_FOUND, out)
  | Some d =>
      match dev_sensors d !! Z.to_nat slot with
      | None => (WTC_ERROR_INVALID_PARAM, out)
      | Some s =>
          (WTC_OK, if 5000 <? u64_sub now (sd_timestamp_ms s) then s <| sd_stale := true |> else s)
      end
  end.

(** [rtu_registry_get_actuator] *)
Definition rtu_registry_get_actuator (r : registry) (station : string) (slot : Z)
    : wtc_result * option actuator_state :=
  if slot <? 0 then (WTC_ERROR_INVALID_PARAM, None)
  else match find_device_locked r station with
  | None => (WTC_ERROR_NOT_FOUND, None)
  | Some d =>
      match dev_actuators d !! Z.to_nat slot with
      | None => (WTC_ERROR_INVALID_PARAM, None)
      | Some a => (WTC_OK, Some a)
      end
  end.

(** [rtu_registry_list_devices]: deep copies of the first [max_count] devices
    (the copies of one call all succeed when [alloc_ok]). *)
Definition rtu_registry_list_devices (alloc_ok : bool) (r : registry) (max_count : Z)
    : wtc_result * option (list rtu_device) :=
  let copy_count := Z.min (Z.of_nat (length (reg_devices r))) max_count in
  if copy_count =? 0 then (WTC_OK, Some [])
  else if negb alloc_ok || (copy_count <? 0) then (WTC_ERROR_NO_MEMORY, None)
  else (WTC_OK, Some (take (Z.to_nat copy_count) (reg_devices r))).

(** [registry_stats_t] and [rtu_registry_get_stats] *)
Record registry_stats := mk_registry_stats {
  rs_total_devices : Z;
  rs_connected_devices : Z;
  rs_disconnected_devices : Z;
  rs_error_devices : Z }.

Definition stats_step (s : registry_stats) (d : rtu_device) : registry_stats :=
  let '(mk_registry_stats t c n e) := s in
  match dev_connection_state d with
  | PROFINET_STATE_RUNNING => mk_registry_stats t (c + 1) n e
  | PROFINET_STATE_ERROR | PROFINET_STATE_DISCONNECT => mk_registry_stats t c n (e + 1)
  | _ => mk_registry_stats t c (n + 1) e
  end.

Definition rtu_registry_get_stats (r : registry) : registry_stats :=
  foldl stats_step (mk_registry_stats (Z.of_nat (length (reg_devices r))) 0 0 0) (reg_devices r).

(** ** Lemmas on lookups and in-place updates *)

Lemma find_device_update r station d f :
  find_device_locked r station = Some d ->
  (forall x, dev_station_name (f x) = dev_station_name x) ->
  exists l, find_update (has_name station) f (reg_devices r) = Some l /\
    length l = length (reg_devices r) /\
    find_entry (has_name station) l = Some (f d) /\
    (forall st, st <> station ->
       find_entry (has_name st) l = find_entry (has_name st) (reg_devices r)).
Proof.
  intros Hd Hf. apply find_entry_Some in Hd as (l1 & l2 & Hl & HP & Hno).
  exists (l1 ++ f d :: l2). rewrite Hl. split_and!.
  - by apply find_update_app.
  - by rewrite !length_app.
  - apply find_entry_app; [done|]. unfold has_name in *. by rewrite Hf.
  - intros st Hne. clear Hl Hno. unfold find_entry.
    induction l1 as [|x l1 IH]; simpl.
    + assert (~ has_name st d /\ ~ has_name st (f d)) as [??]
        by (unfold has_name in *; rewrite Hf; split; congruence).
      by rewrite !decide_False.
    + destruct (decide (has_name st x)); [done|].
      destruct (list_find _ (l1 ++ f d :: l2)) as [[]|], (list_find _ (l1 ++ d :: l2)) as [[]|];
        simpl in *; naive_solver.
Qed.

(** The same point [(station, slot)] resolves to the same device before and
    after a write. *)
Lemma update_actuator_devices now r st sl o :
  let r' := snd (rtu_registry_update_actuator now r st sl o) in
  (r' = r /\ fst (rtu_registry_update_actuator now r st sl o) <> WTC_OK) \/
  exists d, find_device_locked r st = Some d /\ 0 <= sl < Z.of_nat (length (dev_actuators d)) /\
    fst (rtu_registry_update_actuator now r st sl o) = WTC_OK /\
    (forall st', find_device_locked r' st' =
       if decide (st' = st) then
         Some (d <| dev_actuators :=
                 alter (write_output now o) (Z.to_nat sl) (dev_actuators d) |>)
       else find_device_locked r st').
Proof.
  unfold rtu_registry_update_actuator. destruct (Z.ltb_spec sl 0); [by left|].
  destruct (find_device_locked r st) as [d|] eqn:Hd; [|by left].
  destruct (Z.leb_spec (Z.of_nat (length (dev_actuators d))) sl); [by left|].
  right. exists d.
  set (f := fun d0 : rtu_device => _).
  destruct (find_device_update r st d f Hd) as (l & Hl & Hlen & Hfe & Hother); [done|].
  rewrite Hl. split_and!; [done|lia|lia|done|]. intros st'. simpl.
  destruct (decide (st' = st)) as [->|Hne]; [by apply Hfe|by apply Hother].
Qed.

#[export] Instance registry_ops : RegistryOps registry := {|
  reg_get_sensor r now st sl out := rtu_registry_get_sensor now r st sl out;
  reg_update_actuator r now st sl o := rtu_registry_update_actuator now r st sl o;
  reg_get_actuator r st sl := rtu_registry_get_actuator r st sl |}.

Lemma update_actuator_result now r st sl o :
  fst (rtu_registry_update_actuator now r st sl o) =
  if sl <? 0 then WTC_ERROR_INVALID_PARAM
  else match find_device_locked r st with
       | None => WTC_ERROR_NOT_FOUND
       | Some d => if Z.of_nat (length (dev_actuators d)) <=? sl
                   then WTC_ERROR_INVALID_PARAM else WTC_OK
       end.
Proof.
  unfold rtu_registry_update_actuator. destruct (sl <? 0); [done|].
  destruct (find_device_locked r st) as [d|] eqn:Hd; [|done].
  destruct (_ <=? sl); [done|].
  edestruct (find_device_update r st d) as (l & Hl & _); [done| |by rewrite Hl]. done.
Qed.

Lemma lookup_alter_eq_is_Some {A} (f : A -> A) (l : list A) (i : nat) :
  (i < length l)%nat -> exists x, l !! i = Some x /\ alter f i l !! i = Some (f x).
Proof.
  intros Hi. destruct (lookup_lt_is_Some_2 l i Hi) as [x Hx]. exists x.
  by rewrite list_lookup_alter_eq, Hx.
Qed.

(** The registry of [rtu_registry.c] keeps the promises its clients rely on. *)
#[export] Instance registry_laws : RegistryLaws registry.
Proof.
  split; intros r now st sl o; intros; simpl in *;
    try destruct (update_actuator_devices now r st sl o)
      as [[Hr Hres]|(d & Hd & Hsl & Hok & Hf)]; try congruence.
  - unfold rtu_registry_get_sensor. rewrite Hf. case_decide; [|done]. subst. by rewrite Hd.
  - unfold rtu_registry_get_actuator. rewrite Hf, decide_True by done.
    destruct (Z.ltb_spec sl 0); [lia|]. simpl.
    destruct (lookup_alter_eq_is_Some (write_output now o) (dev_actuators d) (Z.to_nat sl))
      as (a & Ha & Ha'); [lia|]. rewrite Ha'. eauto.
  - unfold rtu_registry_get_actuator. rewrite Hf. destruct (Z.ltb_spec sl' 0); [done|].
    case_decide; [|done]. subst st'. rewrite Hd. simpl.
    rewrite list_lookup_alter_ne; [done|]. intros ?%Z2Nat.inj; [|lia..]. congruence.
  - rewrite !update_actuator_result, Hf. case_decide; [|done]. subst. rewrite Hd. simpl.
    by rewrite length_alter.
  - unfold rtu_registry_get_sensor in *. destruct (sl <? 0); [done|].
    destruct (find_device_locked r st) as [d|]; [|done].
    by destruct (dev_sensors d !! Z.to_nat sl).
Qed.

(** ** Invariant over arbitrary sequences of calls *)

Inductive reg_op :=
| OpAddDevice (alloc : nat -> bool) (now : Z) (station : string) (ip : option string)
    (slots : option (list slot_config)) (slot_count : Z)
| OpRemoveDevice (station : string)
| OpSetConfig (realloc_ok : bool) (station : string) (slots : list slot_config)
| OpSetState (now : Z) (station : string) (state : profinet_state)
| OpUpdateSensor (now : Z) (station : string) (slot : Z) (value : float32)
    (status : iops) (quality : data_quality)
| OpUpdateActuator (now : Z) (station : string) (slot : Z) (output : actuator_output).

Definition reg_exec (r : registry) (op : reg_op) : registry :=
  match op with
  | OpAddDevice a n st ip sl c => snd (fst (rtu_registry_add_device a n r st ip sl c))
  | OpRemoveDevice st => snd (fst (rtu_registry_remove_device r st))
  | OpSetConfig a st sl => snd (rtu_registry_set_device_config a r st sl)
  | OpSetState n st s => snd (fst (rtu_registry_set_device_state n r st s))
  | OpUpdateSensor n st sl v s q => snd (rtu_registry_update_sensor n r st sl v s q)
  | OpUpdateActuator n st sl o => snd (rtu_registry_update_actuator n r st sl o)
  end.

(** The registry as [rtu_registry_init] leaves it (no topology file). *)
Definition rtu_registry_init (on_added on_removed on_state : bool) : registry :=
  mk_registry on_added on_removed on_state [].

Definition device_ok (d : rtu_device) : Prop :=
  length (dev_sensors d) = WTC_DEFAULT_SENSORS /\
  length (dev_actuators d) = WTC_DEFAULT_ACTUATORS /\
  Z.of_nat (length (dev_slots d)) <= dev_slot_capacity d /\
  dev_sensor_count d = count_slots SLOT_TYPE_SENSOR (dev_slots d) /\
  dev_actuator_count d = count_slots SLOT_TYPE_ACTUATOR (dev_slots d) /\
  (String.length (dev_station_name d) < WTC_MAX_STATION_NAME)%nat.

(** Ids are the positions in the table. *)
Definition ids_are_indices (l : list rtu_device) : Prop :=
  forall i d, l !! i = Some d -> dev_id d = Z.of_nat i.

Definition reg_inv (r : registry) : Prop :=
  (length (reg_devices r) <= WTC_MAX_RTUS)%nat /\
  ids_are_indices (reg_devices r) /\ Forall device_ok (reg_devices r).

Lemma shift_renumber_spec n j l :
  (j < length l)%nat -> n = (length l - 1 - j)%nat ->
  take (length l - 1) (shift_renumber n j l) =
  take j l ++ imap (fun k d => d <| dev_id := Z.of_nat (j + k) |>) (drop (S j) l).
Proof.
  revert j l. induction n as [|n IH]; intros j l Hj Hn; cbn [shift_renumber].
  - assert (j = length l - 1)%nat as -> by lia.
    rewrite (drop_ge l (S _)) by lia. by rewrite app_nil_r.
  - destruct (lookup_lt_is_Some_2 l (S j)) as [x Hx]; [lia|]. rewrite Hx.
    set (y := x <| dev_id := Z.of_nat j |>).
    assert (length (<[j:=y]> l) = length l) as Hlen by apply length_insert.
    rewrite <- Hlen at 1. rewrite IH by lia.
    rewrite (take_S_r _ j y) by (apply list_lookup_insert_eq; lia).
    rewrite take_insert_ge, drop_insert_lt by lia.
    rewrite (drop_S l x (S j)) by done. rewrite <- app_assoc. f_equal.
    cbn [imap app]. f_equal; [unfold y; by rewrite Nat.add_0_r|].
    apply imap_ext. intros k d Hk. by replace (S j + k)%nat with (j + S k)%nat by lia.
Qed.

Lemma find_update_inv (P : rtu_device -> Prop) station f r l :
  find_update (has_name station) f (reg_devices r) = Some l ->
  (forall d, P d -> P (f d)) -> (forall d, dev_id (f d) = dev_id d) ->
  Forall P (reg_devices r) -> ids_are_indices (reg_devices r) ->
  Forall P l /\ ids_are_indices l /\ length l = length (reg_devices r).
Proof.
  intros (l1 & x & l2 & Hl & _ & _ & ->)%find_update_Some HP Hid. rewrite Hl.
  intros HF Hi. split_and!.
  - apply Forall_middle in HF as (?&?&?). apply Forall_middle. auto.
  - intros i d H. destruct (decide (i = length l1)) as [->|Hne].
    + rewrite lookup_app_r, Nat.sub_diag in H by done. simplify_eq/=. rewrite Hid.
      apply Hi. by rewrite lookup_app_r, Nat.sub_diag by done.
    + apply Hi. rewrite lookup_app in H |- *. destruct (l1 !! i) eqn:E; [done|].
      apply lookup_ge_None in E. destruct (i - length l1)%nat eqn:E'; [lia|done].
  - by rewrite !length_app.
Qed.

(** An update of one device that keeps its id and its well-formedness keeps the
    invariant of the table. *)
Lemma reg_inv_update station f r l :
  reg_inv r -> find_update (has_name station) f (reg_devices r) = Some l ->
  (forall d, device_ok d -> device_ok (f d)) -> (forall d, dev_id (f d) = dev_id d) ->
  reg_inv (r <| reg_devices := l |>).
Proof.
  intros (Hn & Hi & HF) Hl H1 H2. destruct (find_update_inv _ _ _ _ _ Hl H1 H2 HF Hi) as (?&?&?).
  split_and!; simpl; [lia|done..].
Qed.

Lemma reg_inv_add alloc now r st ip sl n :
  reg_inv r -> reg_inv (snd (fst (rtu_registry_add_device alloc now r st ip sl n))).
Proof.
  intros (Hn & Hi & HF). unfold rtu_registry_add_device.
  case_bool_decide; [done|]. destruct (Nat.leb_spec WTC_MAX_RTUS (length (reg_devices r))); [done|].
  destruct (negb _); [done|]. split_and!; cbn -[WTC_MAX_RTUS take].
  - rewrite length_app. simpl. lia.
  - intros i d Hd. apply lookup_app_Some in Hd as [Hd|[Hge Hd]]; [by apply Hi|].
    apply list_lookup_singleton_Some in Hd as [Hk <-]. simpl. lia.
  - apply Forall_app. split; [done|]. apply Forall_singleton. split_and!; try done.
    + destruct sl as [sl|]; cbn -[take]; destruct (Z.ltb_spec 0 n); cbn -[take]; [|done|lia|done].
      rewrite length_take. lia.
    + eapply Nat.le_lt_trans; [apply strncpy_length|]. vm_compute. lia.
Qed.

Lemma reg_inv_remove r st : reg_inv r -> reg_inv (snd (fst (rtu_registry_remove_device r st))).
Proof.
  intros (Hn & Hi & HF). unfold rtu_registry_remove_device.
  destruct (list_find _ _) as [[i d]|] eqn:E; [|done].
  apply list_find_split in E as (Hl & _ & _ & Hlt). cbn [fst snd].
  set (l := reg_devices r) in *. unfold reg_inv; cbn [reg_devices set eta_registry].
  rewrite (shift_renumber_spec _ i l Hlt eq_refl). split_and!.
  - rewrite length_app, length_imap, length_take, length_drop. lia.
  - intros k x Hk. apply lookup_app_Some in Hk as [[Hk _]%lookup_take_Some|[Hge Hk]]; [by apply Hi|].
    rewrite list_lookup_imap in Hk. destruct (drop (S i) l !! _); simplify_eq/=.
    rewrite length_take in *. lia.
  - apply Forall_app. split; [by apply Forall_take|].
    apply Forall_lookup_2. intros k x Hk. rewrite list_lookup_imap in Hk.
    destruct (drop (S i) l !! k) as [y|] eqn:Ey; simplify_eq/=.
    rewrite lookup_drop in Ey. by eapply (Forall_lookup_1 _ _ _ _ HF) in Ey.
Qed.

(** The calls that neither add nor remove a device change nothing, or update one
    device in place keeping its id, its name and its well-formedness. *)
Lemma reg_exec_in_place r op :
  match op with OpAddDevice _ _ _ _ _ _ | OpRemoveDevice _ => True | _ =>
    reg_exec r op = r \/
    exists station f l, find_update (has_name station) f (reg_devices r) = Some l /\
      reg_exec r op = r <| reg_devices := l |> /\
      (forall d, dev_id (f d) = dev_id d) /\
      (forall d, dev_station_name (f d) = dev_station_name d) /\
      (forall d, device_ok d -> device_ok (f d))
  end.
Proof.
  destruct op as [| |a st sl|now st s|now st sl v s q|now st sl o]; [done..| | | |];
    cbn [reg_exec].
  - unfold rtu_registry_set_device_config. destruct (find_device_locked r st); [|by left].
    destruct (_ && _); [by left|]. destruct (find_update _ _ _) as [l|] eqn:E; [right|by left].
    eexists _, _, l. split_and!; try done. intros d (?&?&?&?&?&?). split_and!; simpl; try done. lia.
  - unfold rtu_registry_set_device_state. destruct (find_device_locked r st); [|by left].
    case_bool_decide; [by left|]. destruct (find_update _ _ _) as [l|] eqn:E; [right|by left].
    by eexists _, _, l.
  - unfold rtu_registry_update_sensor. destruct (sl <? 0); [by left|].
    destruct (find_device_locked r st); [|by left].
    destruct (_ <=? sl); [by left|]. destruct (find_update _ _ _) as [l|] eqn:E; [right|by left].
    eexists _, _, l. split_and!; try done. intros d (?&?&?&?&?&?). split_and!; simpl; try done.
    by rewrite length_insert.
  - unfold rtu_registry_update_actuator. destruct (sl <? 0); [by left|].
    destruct (find_device_locked r st); [|by left].
    destruct (_ <=? sl); [by left|]. destruct (find_update _ _ _) as [l|] eqn:E; [right|by left].
    eexists _, _, l. split_and!; try done. intros d (?&?&?&?&?&?). split_and!; simpl; try done.
    by rewrite length_alter.
Qed.

Lemma reg_exec_inv r op : reg_inv r -> reg_inv (reg_exec r op).
Proof.
  intros Hr. pose proof (reg_exec_in_place r op) as H.
  destruct op; [by apply reg_inv_add|by apply reg_inv_remove|..];
    (destruct H as [->|(st & f & l & Hl & -> & ? & ? & ?)]; [done|by eapply reg_inv_update]).
Qed.
Lemma reg_inv_init a b c : reg_inv (rtu_registry_init a b c).
Proof. split_and!; [simpl; lia|intros ? ? [=]|constructor]. Qed.

(** Whatever sequence of registry calls runs, with whatever arguments and
    failing allocations, the table never exceeds [WTC_MAX_RTUS] entries, every
    device's id is its position, the sensor and actuator arrays keep their
    capacity, the slot counts agree with the slot configuration, and station
    names fit their array. *)
Theorem registry_invariant (ops : list reg_op) (a b c : bool) :
  reg_inv (foldl reg_exec (rtu_registry_init a b c) ops).
Proof.
  generalize (reg_inv_init a b c). generalize (rtu_registry_init a b c).
  induction ops as [|op ops IH]; intros r Hr; [done|]. by apply IH, reg_exec_inv.
Qed.

(** A sensor update that succeeds is what the next reads of that point return,
    with the staleness flag exactly when the value is more than 5000 ms old, and
    reads of every other point are unchanged. *)
Theorem sensor_update_roundtrip now r st sl v status q r' :
  rtu_registry_update_sensor now r st sl v status q = (WTC_OK, r') ->
  (forall now' out, rtu_registry_get_sensor now' r' st sl out
     = (WTC_OK, mk_sensor_data v status q now (5000 <? u64_sub now' now))) /\
  (forall now' st' sl' out, (st', sl') <> (st, sl) ->
     rtu_registry_get_sensor now' r' st' sl' out = rtu_registry_get_sensor now' r st' sl' out).
Proof.
  unfold rtu_registry_update_sensor. destruct (Z.ltb_spec sl 0) as [|Hsl]; [done|].
  destruct (find_device_locked r st) as [d|] eqn:Hd; [|done].
  destruct (Z.leb_spec (Z.of_nat (length (dev_sensors d))) sl) as [|Hlt]; [done|].
  set (f := fun d0 : rtu_device => _).
  destruct (find_device_update r st d f Hd) as (l & Hl & _ & Hfe & Hother); [done|].
  rewrite Hl. intros [= <-].
  assert (forall st', find_device_locked (r <| reg_devices := l |>) st'
    = if decide (st' = st) then Some (f d) else find_device_locked r st') as Hfind.
  { intros st'. case_decide; subst; [by apply Hfe|by apply Hother]. }
  unfold rtu_registry_get_sensor. split.
  - intros now' out. rewrite Hfind, decide_True by done.
    destruct (Z.ltb_spec sl 0); [lia|]. unfold f; cbn [dev_sensors set eta_rtu_device].
    rewrite list_lookup_insert_eq by lia. cbn [sd_timestamp_ms]. by destruct (5000 <? _).
  - intros now' st' sl' out Hne. rewrite Hfind. destruct (Z.ltb_spec sl' 0); [done|].
    case_decide; [|done]. subst st'. rewrite Hd. unfold f; cbn [dev_sensors set eta_rtu_device].
    rewrite list_lookup_insert_ne; [done|]. intros ?%Z2Nat.inj; [|lia..]. congruence.
Qed.

Lemma remove_device_split r st :
  match list_find (has_name st) (reg_devices r) with
  | Some (i, d) => exists l1 l2,
      reg_devices r = l1 ++ d :: l2 /\ dev_station_name d = st /\
      Forall (fun x => dev_station_name x <> st) l1 /\
      fst (rtu_registry_remove_device r st) = (WTC_OK, r <| reg_devices :=
        l1 ++ imap (fun k x => x <| dev_id := Z.of_nat (length l1 + k) |>) l2 |>)
  | None => rtu_registry_remove_device r st = (WTC_ERROR_NOT_FOUND, r, []) /\
      Forall (fun x => dev_station_name x <> st) (reg_devices r)
  end.
Proof.
  unfold rtu_registry_remove_device. destruct (list_find _ _) as [[i d]|] eqn:E.
  - apply list_find_split in E as (Hl & Hd & Hno & Hlt).
    exists (take i (reg_devices r)), (drop (S i) (reg_devices r)). split_and!; try done.
    cbn [fst]. rewrite shift_renumber_spec by done. by rewrite length_take_le by lia.
  - split; [done|]. by apply list_find_None_iff in E.
Qed.

(** Removing a device deletes exactly the first entry with that name, keeps
    the order of the others and renumbers the ones behind it. *)
Theorem remove_device_spec r st :
  match rtu_registry_remove_device r st with
  | (WTC_OK, r', _) => exists l1 d l2,
      reg_devices r = l1 ++ d :: l2 /\ dev_station_name d = st /\
      Forall (fun x => dev_station_name x <> st) l1 /\
      reg_devices r' = l1 ++ imap (fun k x => x <| dev_id := Z.of_nat (length l1 + k) |>) l2
  | (e, r', ev) => e = WTC_ERROR_NOT_FOUND /\ r' = r /\ ev = [] /\
      Forall (fun x => dev_station_name x <> st) (reg_devices r)
  end.
Proof.
  pose proof (remove_device_split r st) as H. destruct (list_find _ _) as [[i d]|].
  - destruct H as (l1 & l2 & Hl & Hd & Hno & Hr).
    destruct (rtu_registry_remove_device r st) as [[res r'] ev]. simplify_eq/=. eauto 10.
  - by destruct H as [-> H].
Qed.

(** What identifies a device: its name, its address and its slot table *)
Definition identity (dev : rtu_device) : string * string * list slot_config :=
  (dev_station_name dev, dev_ip_address dev, dev_slots dev).

(** A device with an unused name is appended with an empty slot table when no slots are
    given. *)
Lemma add_device_fresh alloc now r name ip n :
  (forall k, alloc k = true) -> name ∉ dev_station_name <$> reg_devices r ->
  (length (reg_devices r) < WTC_MAX_RTUS)%nat -> (String.length name <= 63)%nat ->
  (String.length (default ""%string ip) <= 15)%nat ->
  exists dev, snd (fst (rtu_registry_add_device alloc now r name ip None n)) = r <| reg_devices ::= fun ds => ds ++ [dev] |> /\
              identity dev = (name, default ""%string ip, []).
Proof.
  intros Ha Hn Hlen H1 H2. unfold rtu_registry_add_device.
  assert (find_device_locked r name = None) as ->.
  { unfold find_device_locked, find_entry. destruct (list_find _ _) as [[j dev]|] eqn:Ef; [|done]. destruct Hn.
    apply list_find_Some in Ef as (Hj & Hd & _). apply list_elem_of_fmap. exists dev.
    split; [by symmetry|by eapply list_elem_of_lookup_2]. }
  rewrite bool_decide_eq_false_2 by (by intros [? ?]).
  destruct (Nat.leb_spec WTC_MAX_RTUS (length (reg_devices r))); [lia|]. rewrite !Ha. cbn [andb negb].
  eexists. split; [reflexivity|]. unfold identity. cbn [dev_station_name dev_ip_address dev_slots].
  destruct ip as [ip|]; cbn in H2; rewrite !strncpy_fits by (cbn; lia); done.
Qed.

Definition add_name_short (op : reg_op) : Prop :=
  match op with
  | OpAddDevice _ _ st _ _ _ => (String.length st < WTC_MAX_STATION_NAME)%nat
  | _ => True
  end.

Lemma find_update_names station f r l :
  find_update (has_name station) f (reg_devices r) = Some l ->
  (forall d, dev_station_name (f d) = dev_station_name d) ->
  dev_station_name <$> l = dev_station_name <$> reg_devices r.
Proof.
  intros (l1 & x & l2 & -> & _ & _ & ->)%find_update_Some Hf. by rewrite !fmap_app, !fmap_cons, Hf.
Qed.

Lemma add_names_unique alloc now r st ip sl n :
  (String.length st < WTC_MAX_STATION_NAME)%nat ->
  NoDup (dev_station_name <$> reg_devices r) ->
  NoDup (dev_station_name <$>
    reg_devices (snd (fst (rtu_registry_add_device alloc now r st ip sl n)))).
Proof.
  intros Hlen Hnd. unfold rtu_registry_add_device. case_bool_decide as Hex; [done|].
  destruct (_ <=? _)%nat; [done|]. destruct (negb _); [done|].
  cbn [fst snd reg_devices set eta_registry]. rewrite fmap_app.
  apply NoDup_app. split_and!; [done| |apply NoDup_singleton].
  intros k (d & -> & Hd)%list_elem_of_fmap Hk%list_elem_of_singleton. cbn in Hk.
  rewrite strncpy_fits in Hk by (unfold WTC_MAX_STATION_NAME in *; lia).
  apply Hex. destruct (find_device_locked r st) as [y|] eqn:E; [eauto|].
  apply find_entry_None, (Forall_forall _ _) with (x := d) in E; done.
Qed.

Lemma remove_names_unique r st :
  NoDup (dev_station_name <$> reg_devices r) ->
  NoDup (dev_station_name <$> reg_devices (snd (fst (rtu_registry_remove_device r st)))).
Proof.
  intros Hr. pose proof (remove_device_split r st) as H. destruct (list_find _ _) as [[i d]|].
  - destruct H as (l1 & l2 & Hl & _ & _ & ->). rewrite Hl in Hr.
    cbn [snd reg_devices set eta_registry].
    rewrite fmap_app, fmap_cons in Hr. rewrite fmap_app, fmap_imap.
    erewrite (imap_const dev_station_name). apply NoDup_app in Hr as (?&?&[??]%NoDup_cons).
    apply NoDup_app. set_solver.
  - by destruct H as [-> _].
Qed.

(** As long as the names given to [rtu_registry_add_device] fit the 64-byte
    station-name array, station names in the table are unique. *)
Theorem station_names_unique (ops : list reg_op) (a b c : bool) :
  Forall add_name_short ops ->
  NoDup (dev_station_name <$> reg_devices (foldl reg_exec (rtu_registry_init a b c) ops)).
Proof.
  cut (forall r, NoDup (dev_station_name <$> reg_devices r) -> Forall add_name_short ops ->
         NoDup (dev_station_name <$> reg_devices (foldl reg_exec r ops))).
  { intros H Hops. apply H; [constructor|done]. }
  induction ops as [|op ops IH]; intros r Hr Hops; [done|].
  apply Forall_cons in Hops as [Hop Hops]. simpl. apply IH; [|done].
  pose proof (reg_exec_in_place r op) as H.
  destruct op; [by apply add_names_unique|cbn [reg_exec]; by apply remove_names_unique|..];
    (destruct H as [->|(st & f & l & Hl & -> & ? & ? & ?)]; [done|]);
    cbn [reg_devices set eta_registry]; by erewrite find_update_names.
Qed.

Definition long_name : string :=
  "station-name-that-is-longer-than-the-sixty-three-characters-kept"%string.

(** A station name of 64 or more characters is cut when stored but compared
    in full when looked up: adding the same device twice succeeds twice, leaves
    two entries with one stored name, and neither is found under that name. *)
Theorem long_station_name_not_found :
  let all_ok := fun _ : nat => true in
  let r0 := rtu_registry_init true true true in
  let '(res1, r1, _) := rtu_registry_add_device all_ok 0 r0 long_name None None 0 in
  let '(res2, r2, _) := rtu_registry_add_device all_ok 0 r1 long_name None None 0 in
  res1 = WTC_OK /\ res2 = WTC_OK /\ length (reg_devices r2) = 2%nat /\
  find_device_locked r2 long_name = None /\
  ~ NoDup (dev_station_name <$> reg_devices r2).
Proof.
  vm_compute. split_and!; [done..|]. intros H.
  apply NoDup_cons in H as [H _]. apply H. left.
Qed.

(** ** Witnesses *)

Lemma station_names_unique_witness :
  let ops := [OpAddDevice (fun _ => true) 1 "rtu-tank-1" None None 0;
              OpAddDevice (fun _ => true) 2 "rtu-pump-1" None None 0;
              OpRemoveDevice "rtu-tank-1"] in
  NoDup (dev_station_name <$> reg_devices (foldl reg_exec (rtu_registry_init true true true) ops)).
Proof.
  apply station_names_unique. repeat (apply Forall_cons; split; [simpl; unfold WTC_MAX_STATION_NAME; lia|]).
  apply Forall_nil. exact I.
Defined.

Lemma sensor_update_roundtrip_witness :
  let r := snd (fst (rtu_registry_add_device (fun _ => true) 1 (rtu_registry_init true true true)
                       "rtu-tank-1" None None 0)) in
  let r' := snd (rtu_registry_update_sensor 10 r "rtu-tank-1" 7 f1 IOPS_GOOD QUALITY_GOOD) in
  rtu_registry_get_sensor 20 r' "rtu-tank-1" 7 zero_sensor
  = (WTC_OK, mk_sensor_data f1 IOPS_GOOD QUALITY_GOOD 10 false).
Proof.
  intros r r'.
  exact (proj1 (sensor_update_roundtrip 10 r "rtu-tank-1" 7 f1 IOPS_GOOD QUALITY_GOOD r'
                  ltac:(vm_compute; reflexivity)) 20 zero_sensor).
Defined.
