(* ===== verification/AlarmManager.v ===== *)
(** * The alarm manager: [src/alarms/alarm_manager.c]

    Alarm management: rules, the active list, acknowledgement,
    suppression, shelving, the history ring and the alarm-rate window, and the
    periodic scan [alarm_manager_process] that raises, clears and removes alarms.

    The rule, active and suppression arrays are the lists of their live entries;
    the history and time-stamp rings are whole arrays with their cursors.
    Callbacks are recorded in the ghost field [am_trace].  Clock readings are
    arguments; the stack variable [sensor] of the scan, which a failed read leaves
    unwritten, starts with the arbitrary contents [junk i]. *)

From S2P Require Import Prelude Float32 Types Registry.

Definition MAX_ACTIVE_ALARMS : nat := 256.
Definition MAX_HISTORY_ALARMS : Z := 10000.
Definition MAX_SUPPRESSIONS : nat := 64.
Definition WTC_MAX_ALARM_RULES : nat := 512.
Definition ALARM_TIMESTAMPS : nat := 600.

Inductive alarm_severity :=
| ALARM_SEVERITY_LOW | ALARM_SEVERITY_MEDIUM | ALARM_SEVERITY_HIGH | ALARM_SEVERITY_EMERGENCY.

Inductive alarm_state :=
| ALARM_STATE_CLEARED | ALARM_STATE_ACTIVE_UNACK | ALARM_STATE_ACTIVE_ACK
| ALARM_STATE_CLEARED_UNACK.

Inductive alarm_condition :=
| ALARM_CONDITION_HIGH | ALARM_CONDITION_LOW | ALARM_CONDITION_HIGH_HIGH
| ALARM_CONDITION_LOW_LOW | ALARM_CONDITION_RATE_OF_CHANGE
| ALARM_CONDITION_DEVIATION | ALARM_CONDITION_BAD_QUALITY.

#[export] Instance alarm_state_eq_dec : EqDecision alarm_state.
Proof. solve_decision. Defined.
#[export] Instance alarm_condition_eq_dec : EqDecision alarm_condition.
Proof. solve_decision. Defined.

(** [alarm_rule_t] *)
Record alarm_rule := mk_alarm_rule {
  ar_rule_id : Z;
  ar_name : string;
  ar_enabled : bool;
  ar_rtu_station : string;
  ar_slot : Z;
  ar_condition : alarm_condition;
  ar_threshold : float32;
  ar_delay_ms : Z;
  ar_severity : alarm_severity;
  ar_message_template : string;
  ar_consequence : string;
  ar_corrective_action : string;
  ar_response_time_sec : Z;
  ar_out_of_service : bool;
  ar_oos_user : string;
  ar_oos_reason : string;
  ar_oos_start_time_ms : Z;
  ar_active : bool;
  ar_condition_start_ms : Z }.

(** [alarm_t] *)
Record alarm := mk_alarm {
  al_alarm_id : Z;
  al_rule_id : Z;
  al_rtu_station : string;
  al_slot : Z;
  al_severity : alarm_severity;
  al_state : alarm_state;
  al_message : string;
  al_value : float32;
  al_threshold : float32;
  al_raise_time_ms : Z;
  al_ack_time_ms : Z;
  al_clear_time_ms : Z;
  al_ack_user : string;
  al_shelved : bool;
  al_shelve_end_time_ms : Z;
  al_shelve_user : string;
  al_shelve_reason : string }.

(** [suppression_t] *)
Record suppression := mk_suppression {
  su_rtu_station : string;
  su_slot : Z;
  su_end_time_ms : Z;
  su_reason : string;
  su_user : string }.

(** [alarm_manager_config_t] (callbacks as "is set") *)
Record alarm_manager_config := mk_alarm_manager_config {
  cfg_max_active_alarms : Z;
  cfg_max_history_entries : Z;
  cfg_max_alarms_per_10min : Z;
  cfg_require_ack : bool;
  cfg_shelving_enabled : bool;
  cfg_on_alarm_raised : bool;
  cfg_on_alarm_cleared : bool;
  cfg_on_alarm_acknowledged : bool }.

Inductive alarm_event :=
| EvRaised (a : alarm) | EvCleared (a : alarm) | EvAcknowledged (a : alarm).

(** [struct alarm_manager] without its thread handle, mutex and registry pointer *)
Record alarm_manager := mk_alarm_manager {
  am_config : alarm_manager_config;
  am_rules : list alarm_rule;
  am_next_rule_id : Z;
  am_active_alarms : list alarm;
  am_next_alarm_id : Z;
  am_history : list alarm;
  am_history_count : Z;
  am_history_capacity : Z;
  am_history_write_pos : Z;
  am_suppressions : list suppression;
  am_alarm_timestamps : list Z;
  am_alarm_timestamp_idx : Z;
  am_total_alarms : Z;
  am_stats_active : Z;
  am_trace : list alarm_event }.

#[export] Instance eta_alarm_rule : Eta alarm_rule := fun r =>
  mk_alarm_rule (ar_rule_id r) (ar_name r) (ar_enabled r) (ar_rtu_station r) (ar_slot r)
    (ar_condition r) (ar_threshold r) (ar_delay_ms r) (ar_severity r) (ar_message_template r)
    (ar_consequence r) (ar_corrective_action r) (ar_response_time_sec r) (ar_out_of_service r)
    (ar_oos_user r) (ar_oos_reason r) (ar_oos_start_time_ms r) (ar_active r)
    (ar_condition_start_ms r).
#[export] Instance eta_alarm : Eta alarm := fun r =>
  mk_alarm (al_alarm_id r) (al_rule_id r) (al_rtu_station r) (al_slot r) (al_severity r)
    (al_state r) (al_message r) (al_value r) (al_threshold r) (al_raise_time_ms r)
    (al_ack_time_ms r) (al_clear_time_ms r) (al_ack_user r) (al_shelved r)
    (al_shelve_end_time_ms r) (al_shelve_user r) (al_shelve_reason r).
#[export] Instance eta_alarm_manager_config : Eta alarm_manager_config := fun r =>
  mk_alarm_manager_config (cfg_max_active_alarms r) (cfg_max_history_entries r)
    (cfg_max_alarms_per_10min r) (cfg_require_ack r) (cfg_shelving_enabled r)
    (cfg_on_alarm_raised r) (cfg_on_alarm_cleared r) (cfg_on_alarm_acknowledged r).
#[export] Instance eta_alarm_manager : Eta alarm_manager := fun r =>
  mk_alarm_manager (am_config r) (am_rules r) (am_next_rule_id r) (am_active_alarms r)
    (am_next_alarm_id r) (am_history r) (am_history_count r) (am_history_capacity r)
    (am_history_write_pos r) (am_suppressions r) (am_alarm_timestamps r)
    (am_alarm_timestamp_idx r) (am_total_alarms r) (am_stats_active r) (am_trace r).

(** The all-zero [alarm_t] that [memset] and [calloc] produce (its severity is
    the non-enumerator 0 in C; it is overwritten before any use). *)
Definition zero_alarm : alarm :=
  mk_alarm 0 0 "" 0 ALARM_SEVERITY_LOW ALARM_STATE_CLEARED "" f0 f0 0 0 0 "" false 0 "" "".

(** ** Initialisation: [alarm_manager_init] *)

Definition default_if_zero (z d : Z) : Z := if z =? 0 then d else z.

(** The configuration copied from the argument ([None] is the NULL pointer), with
    the defaults set. *)
Definition init_config (config : option alarm_manager_config) : alarm_manager_config :=
  (default (mk_alarm_manager_config 0 0 0 false false false false false) config)
    <| cfg_max_active_alarms ::= fun z => default_if_zero z (Z.of_nat MAX_ACTIVE_ALARMS) |>
    <| cfg_max_history_entries ::= fun z => default_if_zero z MAX_HISTORY_ALARMS |>
    <| cfg_max_alarms_per_10min ::= fun z => default_if_zero z 100 |>.

(** [alloc k] is whether the [k]-th allocation succeeds. *)
Definition alarm_manager_init (alloc : nat -> bool) (config : option alarm_manager_config)
    : wtc_result * option alarm_manager :=
  if negb (alloc 0%nat) then (WTC_ERROR_NO_MEMORY, None) else
  let c := init_config config in
  (* a negative count makes calloc's size overflow, and it fails *)
  if negb (alloc 1%nat) || (cfg_max_history_entries c <? 0) then (WTC_ERROR_NO_MEMORY, None)
  else
    (WTC_OK, Some {|
       am_config := c; am_rules := []; am_next_rule_id := 1;
       am_active_alarms := []; am_next_alarm_id := 1;
       am_history := replicate (Z.to_nat (cfg_max_history_entries c)) zero_alarm;
       am_history_count := 0; am_history_capacity := cfg_max_history_entries c;
       am_history_write_pos := 0; am_suppressions := [];
       am_alarm_timestamps := replicate ALARM_TIMESTAMPS 0; am_alarm_timestamp_idx := 0;
       am_total_alarms := 0; am_stats_active := 0; am_trace := [] |}).

(** ** Helpers *)

Definition has_rule (id : Z) (r : alarm_rule) : Prop := ar_rule_id r = id.
Definition has_alarm (id : Z) (a : alarm) : Prop := al_alarm_id a = id.
Definition from_rule (id : Z) (a : alarm) : Prop := al_rule_id a = id.
#[export] Instance has_rule_dec id r : Decision (has_rule id r).
Proof. unfold has_rule. apply _. Defined.
#[export] Instance has_alarm_dec id r : Decision (has_alarm id r).
Proof. unfold has_alarm. apply _. Defined.
#[export] Instance from_rule_dec id r : Decision (from_rule id r).
Proof. unfold from_rule. apply _. Defined.

(** [find_active_alarm_by_rule] *)
Definition find_active_alarm_by_rule (m : alarm_manager) (rule_id : Z) : option (nat * alarm) :=
  list_find (from_rule rule_id) (am_active_alarms m).

(** [add_to_history] *)
Definition add_to_history (m : alarm_manager) (a : alarm) : alarm_manager :=
  m <| am_history := <[Z.to_nat (am_history_write_pos m) := a]> (am_history m) |>
    <| am_history_write_pos := (am_history_write_pos m + 1) mod am_history_capacity m |>
    <| am_history_count := if am_history_count m <? am_history_capacity m
                           then am_history_count m + 1 else am_history_count m |>.

(** [track_alarm] *)
Definition track_alarm (now : Z) (m : alarm_manager) : alarm_manager :=
  m <| am_alarm_timestamps :=
         <[Z.to_nat (am_alarm_timestamp_idx m) := now]> (am_alarm_timestamps m) |>
    <| am_alarm_timestamp_idx := (am_alarm_timestamp_idx m + 1) mod 600 |>.

(** [_is_suppressed_unlocked] and [alarm_manager_is_suppressed] *)
Definition is_suppressed (now : Z) (m : alarm_manager) (station : string) (slot : Z) : bool :=
  existsb (fun s => bool_decide (su_rtu_station s = station) && (su_slot s =? slot)
                    && (now <? su_end_time_ms s)) (am_suppressions m).

Definition emit (cond : bool) (e : alarm_event) (m : alarm_manager) : alarm_manager :=
  m <| am_trace := am_trace m ++ (if cond then [e] else []) |>.

(** ** Rules *)

Definition condition_string (c : alarm_condition) : string :=
  match c with
  | ALARM_CONDITION_HIGH => "High" | ALARM_CONDITION_LOW => "Low"
  | ALARM_CONDITION_HIGH_HIGH => "High-High" | ALARM_CONDITION_LOW_LOW => "Low-Low"
  | ALARM_CONDITION_RATE_OF_CHANGE => "Rate of Change"
  | ALARM_CONDITION_DEVIATION => "Deviation" | ALARM_CONDITION_BAD_QUALITY => "Bad Quality"
  end.

(** The enumerator's integer, printed by ["%d"] in the rule's name. *)
Definition condition_code (c : alarm_condition) : Z :=
  match c with
  | ALARM_CONDITION_HIGH => 0 | ALARM_CONDITION_LOW => 1 | ALARM_CONDITION_HIGH_HIGH => 2
  | ALARM_CONDITION_LOW_LOW => 3 | ALARM_CONDITION_RATE_OF_CHANGE => 4
  | ALARM_CONDITION_DEVIATION => 5 | ALARM_CONDITION_BAD_QUALITY => 6
  end.

(** [alarm_manager_create_rule]: result, rule id, new state *)
Definition alarm_manager_create_rule (m : alarm_manager) (station : string) (slot : Z)
    (condition : alarm_condition) (threshold : float32) (severity : alarm_severity)
    (delay_ms : Z) (message : option string) : wtc_result * option Z * alarm_manager :=
  if (WTC_MAX_ALARM_RULES <=? length (am_rules m))%nat then (WTC_ERROR_FULL, None, m)
  else
    let id := am_next_rule_id m in
    let rule := {|
      ar_rule_id := id;
      ar_name := strncpy (WTC_MAX_NAME - 1)
        (station +:+ "_" +:+ pretty slot +:+ "_" +:+ pretty (condition_code condition));
      ar_enabled := true;
      ar_rtu_station := strncpy (WTC_MAX_STATION_NAME - 1) station;
      ar_slot := slot; ar_condition := condition; ar_threshold := threshold;
      ar_delay_ms := delay_ms; ar_severity := severity;
      ar_message_template := strncpy (WTC_MAX_MESSAGE - 1)
        match message with
        | Some msg => msg
        | None => condition_string condition +:+ " alarm on " +:+ station +:+ " slot "
                  +:+ pretty slot
        end;
      ar_consequence := ""; ar_corrective_action := ""; ar_response_time_sec := 0;
      ar_out_of_service := false; ar_oos_user := ""; ar_oos_reason := "";
      ar_oos_start_time_ms := 0; ar_active := false; ar_condition_start_ms := 0 |} in
    (WTC_OK, Some id, m <| am_rules := am_rules m ++ [rule] |> <| am_next_rule_id := id + 1 |>).

(** A find-by-id loop over the rules that updates the match. *)
Definition with_rule (m : alarm_manager) (rule_id : Z) (f : alarm_rule -> alarm_rule)
    : wtc_result * alarm_manager :=
  match find_update (has_rule rule_id) f (am_rules m) with
  | Some l => (WTC_OK, m <| am_rules := l |>)
  | None => (WTC_ERROR_NOT_FOUND, m)
  end.

(** A find-by-id loop over the active alarms that updates the match. *)
Definition with_alarm (m : alarm_manager) (alarm_id : Z) (f : alarm -> alarm)
    : wtc_result * alarm_manager :=
  match find_update (has_alarm alarm_id) f (am_active_alarms m) with
  | Some l => (WTC_OK, m <| am_active_alarms := l |>)
  | None => (WTC_ERROR_NOT_FOUND, m)
  end.

(** [alarm_manager_delete_rule] *)
Definition alarm_manager_delete_rule (m : alarm_manager) (rule_id : Z)
    : wtc_result * alarm_manager :=
  match find_remove (has_rule rule_id) (am_rules m) with
  | Some l => (WTC_OK, m <| am_rules := l |>)
  | None => (WTC_ERROR_NOT_FOUND, m)
  end.

(** [alarm_manager_enable_rule] *)
Definition alarm_manager_enable_rule (m : alarm_manager) (rule_id : Z) (enabled : bool) :=
  with_rule m rule_id (fun r => r <| ar_enabled := enabled |>).

(** [alarm_manager_set_out_of_service] *)
Definition set_oos (now : Z) (oos : bool) (reason : option string) (user : string)
    (r : alarm_rule) : alarm_rule :=
  if oos then
    r <| ar_out_of_service := true |>
      <| ar_oos_user := strncpy (WTC_MAX_USERNAME - 1) user |>
      <| ar_oos_reason ::= fun old =>
           match reason with Some s => strncpy (WTC_MAX_MESSAGE - 1) s | None => old end |>
      <| ar_oos_start_time_ms := now |>
  else
    r <| ar_out_of_service := false |> <| ar_oos_user := "" |> <| ar_oos_reason := "" |>
      <| ar_oos_start_time_ms := 0 |>.

Definition alarm_manager_set_out_of_service (now : Z) (m : alarm_manager) (rule_id : Z)
    (oos : bool) (reason : option string) (user : string) :=
  with_rule m rule_id (set_oos now oos reason user).

(** [alarm_manager_set_rationalization] *)
Definition alarm_manager_set_rationalization (m : alarm_manager) (rule_id : Z)
    (consequence response : option string) (response_time_sec : Z) :=
  let copy (s : option string) (old : string) :=
    match s with Some t => strncpy (WTC_MAX_MESSAGE - 1) t | None => old end in
  with_rule m rule_id (fun r =>
    r <| ar_consequence ::= copy consequence |> <| ar_corrective_action ::= copy response |>
      <| ar_response_time_sec := response_time_sec |>).

(** ** Acknowledgement *)

Definition ack_state (s : alarm_state) : alarm_state :=
  match s with
  | ALARM_STATE_ACTIVE_UNACK => ALARM_STATE_ACTIVE_ACK
  | ALARM_STATE_CLEARED_UNACK => ALARM_STATE_CLEARED
  | s => s
  end.

Definition ack_alarm (now : Z) (user : string) (a : alarm) : alarm :=
  a <| al_state := ack_state (al_state a) |> <| al_ack_time_ms := now |>
    <| al_ack_user := strncpy (WTC_MAX_USERNAME - 1) user |>.

Definition unacked (a : alarm) : bool :=
  match al_state a with
  | ALARM_STATE_ACTIVE_UNACK | ALARM_STATE_CLEARED_UNACK => true
  | _ => false
  end.

(** [alarm_manager_acknowledge] *)
Definition alarm_manager_acknowledge (now : Z) (m : alarm_manager) (alarm_id : Z)
    (user : string) : wtc_result * alarm_manager :=
  match find_entry (has_alarm alarm_id) (am_active_alarms m) with
  | Some a =>
      let '(res, m') := with_alarm m alarm_id (ack_alarm now user) in
      (res, emit (cfg_on_alarm_acknowledged (am_config m))
              (EvAcknowledged (ack_alarm now user a)) m')
  | None => (WTC_ERROR_NOT_FOUND, m)
  end.

(** [alarm_manager_acknowledge_all]: [clk i] is the reading for entry [i]. *)
Definition alarm_manager_acknowledge_all (clk : nat -> Z) (m : alarm_manager)
    (user : string) : wtc_result * alarm_manager :=
  (WTC_OK, m <| am_active_alarms ::=
     imap (fun i a => if unacked a then ack_alarm (clk i) user a else a) |>).

(** [alarm_manager_get_unack_count] *)
Definition alarm_manager_get_unack_count (m : alarm_manager) : Z :=
  Z.of_nat (length (filter (fun a => unacked a = true) (am_active_alarms m))).

(** ** Suppression and shelving *)

(** [alarm_manager_suppress] *)
Definition alarm_manager_suppress (now : Z) (m : alarm_manager) (station : string) (slot : Z)
    (duration_ms : Z) (reason user : option string) : wtc_result * alarm_manager :=
  if (MAX_SUPPRESSIONS <=? length (am_suppressions m))%nat then (WTC_ERROR_FULL, m)
  else
    let sup := {|
      su_rtu_station := strncpy (WTC_MAX_STATION_NAME - 1) station; su_slot := slot;
      su_end_time_ms := wrap64 (now + duration_ms);
      su_reason := match reason with Some s => strncpy 127 s | None => "" end;
      su_user := match user with Some s => strncpy (WTC_MAX_USERNAME - 1) s | None => "" end |} in
    (WTC_OK, m <| am_suppressions := am_suppressions m ++ [sup] |>).

(** [alarm_manager_shelve]: the duration is cut to 24 hours. *)
Definition alarm_manager_shelve (now : Z) (m : alarm_manager) (alarm_id : Z) (duration_ms : Z)
    (reason : option string) (user : string) :=
  let d := if 86400000 <? duration_ms then 86400000 else duration_ms in
  with_alarm m alarm_id (fun a =>
    a <| al_shelved := true |> <| al_shelve_end_time_ms := wrap64 (now + d) |>
      <| al_shelve_user := strncpy (WTC_MAX_USERNAME - 1) user |>
      <| al_shelve_reason ::= fun old =>
           match reason with Some s => strncpy (WTC_MAX_MESSAGE - 1) s | None => old end |>).

(** [alarm_manager_unshelve] *)
Definition alarm_manager_unshelve (m : alarm_manager) (alarm_id : Z) :=
  with_alarm m alarm_id (fun a => a <| al_shelved := false |> <| al_shelve_end_time_ms := 0 |>).

(** ** Statistics *)

(** The count shared by [alarm_manager_get_alarm_rate] and
    [alarm_manager_is_alarm_flood]. *)
Definition count_recent (now : Z) (m : alarm_manager) : Z :=
  let ten_min_ago := u64_sub now 600000 in
  Z.of_nat (length (filter (fun t => ten_min_ago < t) (am_alarm_timestamps m))).

Definition alarm_manager_get_alarm_rate (now : Z) (m : alarm_manager) : float32 :=
  fmul (f32_of_Z (count_recent now m)) (f32_of_Z 6).

Definition alarm_manager_is_alarm_flood (now : Z) (m : alarm_manager) : bool :=
  cfg_max_alarms_per_10min (am_config m) <? count_recent now m.

(** [alarm_manager_get_history]: entries in storage order. *)
Fixpoint history_scan (l : list alarm) (from_ms to_ms : Z) (max_count : Z) (found : list alarm)
    : list alarm :=
  match l with
  | [] => found
  | a :: l' =>
      if negb (Z.of_nat (length found) <? max_count) then found
      else if (0 <? from_ms) && (al_raise_time_ms a <? from_ms) then
        history_scan l' from_ms to_ms max_count found
      else if (0 <? to_ms) && (to_ms <? al_raise_time_ms a) then
        history_scan l' from_ms to_ms max_count found
      else history_scan l' from_ms to_ms max_count (found ++ [a])
  end.

Definition alarm_manager_get_history (m : alarm_manager) (max_count from_ms to_ms : Z)
    : list alarm :=
  history_scan (take (Z.to_nat (am_history_count m)) (am_history m)) from_ms to_ms max_count [].

(** ** Raising *)

(** Append an alarm to the active list, count it, track its time and log it. *)
Definition push_alarm (track_now : Z) (a : alarm) (m : alarm_manager) : alarm_manager :=
  add_to_history
    (track_alarm track_now
       (m <| am_active_alarms := am_active_alarms m ++ [a] |>
          <| am_next_alarm_id := am_next_alarm_id m + 1 |>
          <| am_total_alarms := wrap32 (am_total_alarms m + 1) |>)) a.

(** [alarm_manager_raise_alarm] (readings: [now] for the alarm, [track_now] for
    the rate window) *)
Definition alarm_manager_raise_alarm (now track_now : Z) (m : alarm_manager)
    (station : option string) (slot : Z) (severity : alarm_severity) (message : string)
    (value : float32) : wtc_result * alarm_manager :=
  if (MAX_ACTIVE_ALARMS <=? length (am_active_alarms m))%nat then (WTC_ERROR_FULL, m)
  else
    let a := zero_alarm
      <| al_alarm_id := am_next_alarm_id m |> <| al_rule_id := 0 |>
      <| al_rtu_station := match station with
                           | Some s => strncpy (WTC_MAX_STATION_NAME - 1) s
                           | None => ""
                           end |>
      <| al_slot := slot |> <| al_severity := severity |>
      <| al_state := ALARM_STATE_ACTIVE_UNACK |> <| al_value := value |>
      <| al_raise_time_ms := now |>
      <| al_message := strncpy (WTC_MAX_MESSAGE - 1) message |> in
    (WTC_OK, emit (cfg_on_alarm_raised (am_config m)) (EvRaised a) (push_alarm track_now a m)).

(** ** The scan: [alarm_manager_process] *)

Definition eval_condition (c : alarm_condition) (value threshold : float32) : bool :=
  match c with
  | ALARM_CONDITION_HIGH | ALARM_CONDITION_HIGH_HIGH => fge value threshold
  | ALARM_CONDITION_LOW | ALARM_CONDITION_LOW_LOW => fle value threshold
  | _ => false
  end.

Definition quality_good (res : wtc_result) (s : sensor_data) : bool :=
  bool_decide (res = WTC_OK) && bool_decide (sd_status s = IOPS_GOOD)
  && bool_decide (sd_quality s = QUALITY_GOOD).

Definition condition_met (rule : alarm_rule) (res : wtc_result) (s : sensor_data) : bool :=
  if quality_good res s then eval_condition (ar_condition rule) (sd_value s) (ar_threshold rule)
  else bool_decide (ar_condition rule = ALARM_CONDITION_BAD_QUALITY).

(** The alarm a rule raises. *)
Definition rule_alarm (now : Z) (id : Z) (rule : alarm_rule) (value : float32) : alarm :=
  zero_alarm
    <| al_alarm_id := id |> <| al_rule_id := ar_rule_id rule |>
    <| al_rtu_station := strncpy (WTC_MAX_STATION_NAME - 1) (ar_rtu_station rule) |>
    <| al_slot := ar_slot rule |> <| al_severity := ar_severity rule |>
    <| al_state := ALARM_STATE_ACTIVE_UNACK |> <| al_value := value |>
    <| al_threshold := ar_threshold rule |> <| al_raise_time_ms := now |>
    <| al_message := strncpy (WTC_MAX_MESSAGE - 1)
         (strncpy 200 (ar_message_template rule) +:+ " (value=" +:+ fmt_fixed 2 value
          +:+ ", threshold=" +:+ fmt_fixed 2 (ar_threshold rule) +:+ ")") |>.

Definition clear_alarm (now : Z) (a : alarm) : alarm :=
  a <| al_clear_time_ms := now |>
    <| al_state := match al_state a with
                   | ALARM_STATE_ACTIVE_ACK => ALARM_STATE_CLEARED
                   | _ => ALARM_STATE_CLEARED_UNACK
                   end |>.

Definition is_active_state (s : alarm_state) : bool :=
  match s with ALARM_STATE_ACTIVE_UNACK | ALARM_STATE_ACTIVE_ACK => true | _ => false end.

Section Process.
Context {R : Type} `{RegistryOps R}.
(** [reg]: the registry; [clk k]: the readings inside the scan (rule [i] uses
    [clk (3 i)] for the suppression test, [clk (3 i + 1)] for the staleness test and
    [clk (3 i + 2)] for the rate window); [junk i]: the uninitialised [sensor]. *)
Context (reg : R) (clk : nat -> Z) (junk : nat -> sensor_data) (now_ms : Z).

Definition read_sensor (i : nat) (rule : alarm_rule) : wtc_result * sensor_data :=
  reg_get_sensor reg (clk (3 * i + 1)%nat) (ar_rtu_station rule) (ar_slot rule) (junk i).

Definition set_rule (i : nat) (f : alarm_rule -> alarm_rule) (m : alarm_manager) : alarm_manager :=
  m <| am_rules ::= alter f i |>.

(** The branch that raises an alarm. *)
Definition raise_branch (i : nat) (rule : alarm_rule) (sensor : sensor_data)
    (m : alarm_manager) : alarm_manager :=
  if (length (am_active_alarms m) <? MAX_ACTIVE_ALARMS)%nat then
    let a := rule_alarm now_ms (am_next_alarm_id m) rule (sd_value sensor) in
    emit (cfg_on_alarm_raised (am_config m)) (EvRaised a)
      (push_alarm (clk (3 * i + 2)%nat) a (set_rule i (fun r => r <| ar_active := true |>) m))
  else m.

(** The branch that clears the rule's alarm. *)
Definition clear_branch (i : nat) (existing : option (nat * alarm)) (m : alarm_manager)
    : alarm_manager :=
  let m1 := set_rule i (fun r => r <| ar_condition_start_ms := 0 |>) m in
  match existing with
  | Some (j, a) =>
      if is_active_state (al_state a) then
        let a' := clear_alarm now_ms a in
        emit (cfg_on_alarm_cleared (am_config m)) (EvCleared a')
          (add_to_history
             (set_rule i (fun r => r <| ar_active := false |>)
                (m1 <| am_active_alarms ::= <[j := a']> |>)) a')
      else m1
  | None => m1
  end.

(** One iteration of the rule loop. *)
Definition process_rule (m : alarm_manager) (i : nat) : alarm_manager :=
  match am_rules m !! i with
  | None => m
  | Some rule =>
      if negb (ar_enabled rule) then m
      else if is_suppressed (clk (3 * i)%nat) m (ar_rtu_station rule) (ar_slot rule) then m
      else
        let '(res, sensor) := read_sensor i rule in
        let existing := find_active_alarm_by_rule m (ar_rule_id rule) in
        if condition_met rule res sensor then
          if ar_condition_start_ms rule =? 0 then
            set_rule i (fun r => r <| ar_condition_start_ms := now_ms |>) m
          else if bool_decide (existing = None)
                  && (ar_delay_ms rule <=? u64_sub now_ms (ar_condition_start_ms rule))
          then raise_branch i rule sensor m
          else m
        else clear_branch i existing m
  end.

Definition process_rules (m : alarm_manager) : alarm_manager :=
  foldl process_rule m (seq 0 (length (am_rules m))).
End Process.

(** The backwards removal loop from index [n - 1]. *)
Fixpoint remove_cleared (n : nat) (l : list alarm) : list alarm :=
  match n with
  | O => l
  | S i =>
      remove_cleared i
        match l !! i with
        | Some a => if bool_decide (al_state a = ALARM_STATE_CLEARED) then remove_shift i l else l
        | None => l
        end
  end.

(** [alarm_manager_process] ([reg = None]: no registry set) *)
Definition alarm_manager_process {R} `{RegistryOps R} (reg : option R) (clk : nat -> Z)
    (junk : nat -> sensor_data) (now_ms : Z) (m : alarm_manager) : wtc_result * alarm_manager :=
  match reg with
  | None => (WTC_ERROR_INVALID_PARAM, m)
  | Some rg =>
      let m1 := process_rules rg clk junk now_ms m in
      let l := remove_cleared (length (am_active_alarms m1)) (am_active_alarms m1) in
      (WTC_OK, m1 <| am_active_alarms := l |> <| am_stats_active := Z.of_nat (length l) |>)
  end.

(** ** Shape of one iteration *)

Lemma remove_cleared_take n l :
  (n <= length l)%nat ->
  remove_cleared n l = filter (fun a => al_state a <> ALARM_STATE_CLEARED) (take n l) ++ drop n l.
Proof.
  revert l. induction n as [|n IH]; intros l Hn; [done|]. cbn [remove_cleared].
  destruct (lookup_lt_is_Some_2 l n) as [a Ha]; [lia|]. rewrite Ha.
  rewrite (take_S_r l n a Ha), filter_app. case_bool_decide as Hs.
  - rewrite remove_shift_delete by lia.
    assert (length (take n l) = n) as Hlen by (rewrite length_take; lia).
    rewrite IH by (rewrite length_app, Hlen; lia).
    rewrite take_app_le, drop_app_ge by lia. rewrite Hlen, Nat.sub_diag, drop_0.
    rewrite take_take, Nat.min_id.
    by rewrite filter_cons_False, filter_nil, app_nil_r by tauto.
  - rewrite IH by lia. rewrite filter_cons_True, filter_nil by done.
    by rewrite <- app_assoc, (drop_S l a n Ha).
Qed.

(** The removal loop keeps, in order, exactly the alarms not fully cleared. *)
Lemma remove_cleared_filter l :
  remove_cleared (length l) l = filter (fun a => al_state a <> ALARM_STATE_CLEARED) l.
Proof. rewrite remove_cleared_take by done. by rewrite take_ge, drop_ge, app_nil_r by done. Qed.

(** What an iteration may change in a rule: its two runtime fields. *)
Definition same_rule (r r' : alarm_rule) : Prop :=
  r' = r <| ar_active := ar_active r' |> <| ar_condition_start_ms := ar_condition_start_ms r' |>.

Lemma same_rule_refl r : same_rule r r.
Proof. by destruct r. Qed.
Lemma same_rule_trans r1 r2 r3 : same_rule r1 r2 -> same_rule r2 r3 -> same_rule r1 r3.
Proof. unfold same_rule. destruct r1, r2, r3; simpl. intros [=] [=]. subst. reflexivity. Qed.
#[export] Hint Resolve same_rule_refl same_rule_trans : wtc.
#[export] Instance same_rule_preorder : PreOrder same_rule.
Proof. split; [exact same_rule_refl|exact same_rule_trans]. Qed.

Section ProcessFacts.
Context {R : Type} `{RegistryOps R}.
Context (reg : R) (clk : nat -> Z) (junk : nat -> sensor_data) (now_ms : Z).
Notation step := (process_rule reg clk junk now_ms).

(** Rule [i] of [m] raises an alarm in this scan. *)
Definition raises (m : alarm_manager) (i : nat) (rule : alarm_rule) : Prop :=
  am_rules m !! i = Some rule /\ ar_enabled rule = true /\
  is_suppressed (clk (3 * i)%nat) m (ar_rtu_station rule) (ar_slot rule) = false /\
  condition_met rule (fst (read_sensor reg clk junk i rule))
                     (snd (read_sensor reg clk junk i rule)) = true /\
  ar_condition_start_ms rule <> 0 /\
  ar_delay_ms rule <= u64_sub now_ms (ar_condition_start_ms rule).

Definition raised_alarm (m : alarm_manager) (i : nat) (rule : alarm_rule) : alarm :=
  rule_alarm now_ms (am_next_alarm_id m) rule (sd_value (snd (read_sensor reg clk junk i rule))).

(** Rule [i] of [m] returns to normal in this scan. *)
Definition returns_to_normal (m : alarm_manager) (i : nat) (rule : alarm_rule) : Prop :=
  am_rules m !! i = Some rule /\ ar_enabled rule = true /\
  is_suppressed (clk (3 * i)%nat) m (ar_rtu_station rule) (ar_slot rule) = false /\
  condition_met rule (fst (read_sensor reg clk junk i rule))
                     (snd (read_sensor reg clk junk i rule)) = false.

Variant active_effect (m : alarm_manager) (i : nat) (m' : alarm_manager) : Prop :=
| EffNone :
    am_active_alarms m' = am_active_alarms m -> am_next_alarm_id m' = am_next_alarm_id m ->
    active_effect m i m'
| EffRaise rule :
    raises m i rule -> find_active_alarm_by_rule m (ar_rule_id rule) = None ->
    (length (am_active_alarms m) < MAX_ACTIVE_ALARMS)%nat ->
    am_active_alarms m' = am_active_alarms m ++ [raised_alarm m i rule] ->
    am_next_alarm_id m' = am_next_alarm_id m + 1 ->
    active_effect m i m'
| EffClear rule l1 a l2 :
    returns_to_normal m i rule -> al_rule_id a = ar_rule_id rule ->
    is_active_state (al_state a) = true ->
    am_active_alarms m = l1 ++ a :: l2 ->
    am_active_alarms m' = l1 ++ clear_alarm now_ms a :: l2 ->
    am_next_alarm_id m' = am_next_alarm_id m ->
    active_effect m i m'.

Lemma step_active m i : active_effect m i (step m i).
Proof.
  unfold process_rule. destruct (am_rules m !! i) as [rule|] eqn:Hr; [|by constructor].
  destruct (negb (ar_enabled rule)) eqn:Hen; [by constructor|].
  destruct (is_suppressed _ _ _ _) eqn:Hsup; [by constructor|]. reflect.
  destruct (read_sensor reg clk junk i rule) as [res sensor] eqn:Hread.
  destruct (condition_met rule res sensor) eqn:Hc.
  - destruct (Z.eqb_spec (ar_condition_start_ms rule) 0); [by constructor|].
    destruct (bool_decide _ && _) eqn:Hg; [|by constructor]. reflect.
    unfold raise_branch.
    destruct (Nat.ltb_spec (length (am_active_alarms m)) MAX_ACTIVE_ALARMS); [|by constructor].
    apply (EffRaise _ _ _ rule); [|done..|unfold raised_alarm; by rewrite Hread|done].
    unfold raises. rewrite Hread. done.
  - unfold clear_branch.
    destruct (find_active_alarm_by_rule m (ar_rule_id rule)) as [[j a]|] eqn:Hf; [|by constructor].
    destruct (is_active_state (al_state a)) eqn:Hst; [|by constructor].
    unfold find_active_alarm_by_rule in Hf.
    apply list_find_split in Hf as (Hl & Ha & _ & Hj).
    eapply (EffClear _ _ _ rule (take j (am_active_alarms m)) a (drop (S j) (am_active_alarms m)));
      [unfold returns_to_normal; by rewrite Hread|done..| |done].
    cbn. by rewrite insert_take_drop.
Qed.

(** An iteration touches only the runtime fields of its own rule. *)
Lemma step_rules m i :
  am_suppressions (step m i) = am_suppressions m /\ am_config (step m i) = am_config m /\
  am_next_rule_id (step m i) = am_next_rule_id m /\
  (forall k, k <> i -> am_rules (step m i) !! k = am_rules m !! k) /\
  Forall2 same_rule (am_rules m) (am_rules (step m i)).
Proof.
  assert (forall g m', (forall r, same_rule r (g r)) -> am_rules m' = alter g i (am_rules m) ->
     (forall k, k <> i -> am_rules m' !! k = am_rules m !! k) /\
     Forall2 same_rule (am_rules m) (am_rules m')) as Halt.
  { intros g m' Hg ->. split.
    - intros k Hk. by rewrite list_lookup_alter_ne by done.
    - apply Forall2_same_length_lookup_2; [by rewrite length_alter|].
      intros k x y Hx Hy. rewrite list_lookup_alter in Hy. case_decide; subst.
      + rewrite Hx in Hy. injection Hy as <-. apply Hg.
      + rewrite Hx in Hy. injection Hy as <-. apply same_rule_refl. }
  assert ((forall k, k <> i -> am_rules m !! k = am_rules m !! k) /\
     Forall2 same_rule (am_rules m) (am_rules m)) as Hid.
  { split; [done|]. reflexivity. }
  unfold process_rule. destruct (am_rules m !! i) as [rule|] eqn:Hr; [|done].
  destruct (negb _); [done|]. destruct (is_suppressed _ _ _ _); [done|].
  destruct (read_sensor _ _ _ i rule) as [res sensor].
  destruct (condition_met rule res sensor).
  - destruct (_ =? 0). { split_and!; try done; eapply Halt; try done; by intros []. }
    destruct (_ && _); [|done]. unfold raise_branch. destruct (_ <? _)%nat; [|done].
    split_and!; try done; eapply Halt; try done; by intros [].
  - unfold clear_branch. destruct (find_active_alarm_by_rule _ _) as [[j a]|].
    2: { split_and!; try done; eapply Halt; try done; by intros []. }
    destruct (is_active_state _).
    2: { split_and!; try done; eapply Halt; try done; by intros []. }
    split_and!; try done;
      (eapply (Halt (fun r => r <| ar_active := false |> <| ar_condition_start_ms := 0 |>));
       [by intros []|]; cbn; by rewrite list_alter_alter_eq).
Qed.
End ProcessFacts.

(** ** The scan *)

Section ScanFacts.
Context {R : Type} `{RegistryOps R}.
Context (reg : R) (clk : nat -> Z) (junk : nat -> sensor_data) (now_ms : Z).
Notation step := (process_rule reg clk junk now_ms).

(** How a scan may change one alarm. *)
Definition evolves (a a' : alarm) : Prop :=
  a' = a \/ (is_active_state (al_state a) = true /\ a' = clear_alarm now_ms a).

Lemma evolves_trans a b c : evolves a b -> evolves b c -> evolves a c.
Proof.
  intros [->|[Ha ->]] [->|[Hb ->]]; unfold evolves; auto.
  exfalso. cbn in Hb. by destruct (al_state a).
Qed.

Lemma evolves_refl_list l : Forall2 evolves l l.
Proof. apply Forall_Forall2_diag, Forall_true. by left. Qed.

(** Nothing is lost by the rule loop: the old alarms stay, in place and evolved;
    new ones are appended. *)
Lemma scan_evolves ks m :
  exists l1 l2, am_active_alarms (foldl step m ks) = l1 ++ l2 /\
    Forall2 evolves (am_active_alarms m) l1.
Proof.
  revert m. induction ks as [|i ks IH]; intros m.
  { exists (am_active_alarms m), []. rewrite app_nil_r. split; [done|apply evolves_refl_list]. }
  cbn [foldl]. destruct (IH (step m i)) as (l1 & l2 & Hl & HF). rewrite Hl.
  destruct (step_active reg clk junk now_ms m i) as [Ha _|rule _ _ _ Ha _|rule k1 a k2 _ _ Hst Hm Ha _].
  - rewrite Ha in HF. eauto.
  - rewrite Ha in HF. apply Forall2_app_inv_l in HF as (l1a & l1b & HF & _ & ->).
    exists l1a, (l1b ++ l2). by rewrite app_assoc.
  - exists l1, l2. split; [done|]. rewrite Hm. rewrite Ha in HF.
    apply Forall2_app_inv_l in HF as (l1a & l1b & HF1 & HF2 & ->).
    apply Forall2_cons_inv_l in HF2 as (b & l1c & Hb & HF2 & ->).
    apply Forall2_app; [done|]. constructor; [|done].
    eapply evolves_trans; [|done]. by right.
Qed.

(** The loop keeps the rules' configuration and everything an iteration reads
    besides the active list. *)
Lemma scan_rules ks m :
  am_suppressions (foldl step m ks) = am_suppressions m /\
  am_config (foldl step m ks) = am_config m /\
  am_next_rule_id (foldl step m ks) = am_next_rule_id m /\
  (forall k, k ∉ ks -> am_rules (foldl step m ks) !! k = am_rules m !! k) /\
  Forall2 same_rule (am_rules m) (am_rules (foldl step m ks)).
Proof.
  revert m. induction ks as [|i ks IH]; intros m.
  { split_and!; done. }
  cbn [foldl]. destruct (IH (step m i)) as (H1 & H2 & H3 & H4 & H5).
  destruct (step_rules reg clk junk now_ms m i) as (S1 & S2 & S3 & S4 & S5).
  split_and!; try congruence.
  - intros k Hk. rewrite H4, S4 by set_solver. done.
  - by etrans.
Qed.

Lemma same_rule_ids l l' : Forall2 same_rule l l' -> ar_rule_id <$> l' = ar_rule_id <$> l.
Proof. induction 1 as [|r r' l l' Hr _ IH]; [done|]. rewrite !fmap_cons, IH. by rewrite Hr. Qed.

Lemma filter_from_rule_other rid (l : list alarm) a :
  al_rule_id a <> rid -> filter (from_rule rid) (l ++ [a]) = filter (from_rule rid) l.
Proof.
  intros Ha. rewrite filter_app, filter_cons_False by done. by rewrite filter_nil, app_nil_r.
Qed.

(** An iteration for another rule leaves this rule's alarms alone. *)
Lemma step_other rid m i :
  (forall rule, am_rules m !! i = Some rule -> ar_rule_id rule <> rid) ->
  filter (from_rule rid) (am_active_alarms (step m i)) = filter (from_rule rid) (am_active_alarms m).
Proof.
  intros Hne. destruct (step_active reg clk junk now_ms m i)
    as [-> _|rule (Hr & _) _ _ -> _|rule l1 a l2 (Hr & _) Hid Hst -> -> _]; [done| |].
  - apply filter_from_rule_other. cbn. eauto.
  - rewrite !filter_app. f_equal. specialize (Hne _ Hr).
    rewrite !filter_cons_False; [done|..]; unfold from_rule; cbn; congruence.
Qed.

Lemma scan_other rid ks m :
  (forall i rule, i ∈ ks -> am_rules m !! i = Some rule -> ar_rule_id rule <> rid) ->
  filter (from_rule rid) (am_active_alarms (foldl step m ks))
  = filter (from_rule rid) (am_active_alarms m).
Proof.
  revert m. induction ks as [|i ks IH]; intros m Hne; [done|]. cbn [foldl].
  rewrite IH, step_other; [done| |].
  - intros rule Hr. apply (Hne i); [left|done].
  - intros k rule Hk Hr.
    destruct (step_rules reg clk junk now_ms m i) as (_ & _ & _ & _ & HF).
    pose proof (Forall2_lookup_r _ _ _ _ _ HF Hr) as (rule' & Hr' & Hsame).
    replace (ar_rule_id rule) with (ar_rule_id rule') by (by rewrite Hsame).
    apply (Hne k); [by apply list_elem_of_further|done].
Qed.

(** At most one alarm is appended per rule, so room in front of the scan is room
    in front of every iteration. *)
Lemma scan_length ks m :
  (length (am_active_alarms (foldl step m ks)) <= length (am_active_alarms m) + length ks)%nat.
Proof.
  revert m. induction ks as [|i ks IH]; intros m; [simpl; lia|]. cbn [foldl].
  specialize (IH (step m i)). simpl.
  destruct (step_active reg clk junk now_ms m i) as [Ha _|rule _ _ _ Ha _|rule l1 a l2 _ _ _ Hm Ha _];
    rewrite Ha in IH; rewrite ?Hm, ?length_app in *; simpl in *; lia.
Qed.

Lemma NoDup_rule_index l i j r r' :
  NoDup (ar_rule_id <$> l) -> l !! i = Some r -> l !! j = Some r' ->
  ar_rule_id r = ar_rule_id r' -> i = j.
Proof.
  intros Hnd Hi Hj Heq. eapply NoDup_lookup; [done|rewrite list_lookup_fmap, Hi; done|].
  rewrite list_lookup_fmap, Hj. cbn. by rewrite Heq.
Qed.

(** The loop splits around iteration [i]: what precedes and what follows does not
    touch rule [i] or its alarms. *)
Lemma scan_at m i rule :
  NoDup (ar_rule_id <$> am_rules m) -> am_rules m !! i = Some rule ->
  exists m1,
    am_rules m1 !! i = Some rule /\ am_suppressions m1 = am_suppressions m /\
    (length (am_active_alarms m1) <= length (am_active_alarms m) + i)%nat /\
    filter (from_rule (ar_rule_id rule)) (am_active_alarms m1)
    = filter (from_rule (ar_rule_id rule)) (am_active_alarms m) /\
    filter (from_rule (ar_rule_id rule)) (am_active_alarms (process_rules reg clk junk now_ms m))
    = filter (from_rule (ar_rule_id rule)) (am_active_alarms (step m1 i)) /\
    am_rules (process_rules reg clk junk now_ms m) !! i = am_rules (step m1 i) !! i.
Proof.
  intros Hnd Hr. pose proof (lookup_lt_Some _ _ _ Hr) as Hi.
  exists (foldl step m (seq 0 i)). unfold process_rules.
  replace (length (am_rules m)) with (i + S (length (am_rules m) - S i))%nat by lia.
  rewrite seq_app, foldl_app. cbn [seq foldl Nat.add].
  set (m1 := foldl step m (seq 0 i)).
  destruct (scan_rules (seq 0 i) m) as (Hsup & _ & _ & Hk & HF). fold m1 in Hsup, Hk, HF.
  assert (am_rules m1 !! i = Some rule) as Hr1.
  { rewrite Hk; [done|]. rewrite elem_of_seq. lia. }
  assert (forall k r, (k <> i)%nat -> am_rules m1 !! k = Some r -> ar_rule_id r <> ar_rule_id rule) as Hne.
  { intros k r Hki Hr' Heq. apply Hki.
    apply (NoDup_rule_index (am_rules m1) k i r rule); try done. by rewrite (same_rule_ids _ _ HF). }
  split_and!; try done.
  - pose proof (scan_length (seq 0 i) m) as Hlen. rewrite length_seq in Hlen. done.
  - apply scan_other. intros k r Hk' Hr' Heq. apply elem_of_seq in Hk'.
    assert (k = i) by (by eapply (NoDup_rule_index (am_rules m))). lia.
  - apply scan_other. intros k r Hk' Hr' Heq. apply elem_of_seq in Hk'.
    destruct (step_rules reg clk junk now_ms m1 i) as (_ & _ & _ & Hother & _).
    rewrite Hother in Hr' by lia. by eapply Hne; [|done|]; [lia|].
  - destruct (scan_rules (seq (S i) (length (am_rules m) - S i)) (step m1 i)) as (_ & _ & _ & Hk' & _).
    apply Hk'. rewrite elem_of_seq. lia.
Qed.
End ScanFacts.

(** ** The invariant of the manager *)

(** The active list: ids distinct and already handed out, at most
    [MAX_ACTIVE_ALARMS] entries, at most one alarm per rule (rule id 0 marks
    alarms raised from outside the rules). *)
Definition active_inv (next : Z) (l : list alarm) : Prop :=
  NoDup (al_alarm_id <$> l) /\ Forall (fun a => 1 <= al_alarm_id a < next) l /\
  (length l <= MAX_ACTIVE_ALARMS)%nat /\
  (forall rid, rid <> 0 -> (length (filter (from_rule rid) l) <= 1)%nat).

Definition rules_inv (next : Z) (l : list alarm_rule) : Prop :=
  NoDup (ar_rule_id <$> l) /\ Forall (fun r => 1 <= ar_rule_id r < next) l /\
  (length l <= WTC_MAX_ALARM_RULES)%nat.

(** The two rings stay inside their arrays. *)
Definition rings_inv (m : alarm_manager) : Prop :=
  0 < am_history_capacity m /\ length (am_history m) = Z.to_nat (am_history_capacity m) /\
  0 <= am_history_count m <= am_history_capacity m /\
  0 <= am_history_write_pos m < am_history_capacity m /\
  length (am_alarm_timestamps m) = ALARM_TIMESTAMPS /\ 0 <= am_alarm_timestamp_idx m < 600.

Record am_inv (m : alarm_manager) : Prop := {
  inv_next_rule : 1 <= am_next_rule_id m;
  inv_next_alarm : 1 <= am_next_alarm_id m;
  inv_rules : rules_inv (am_next_rule_id m) (am_rules m);
  inv_active : active_inv (am_next_alarm_id m) (am_active_alarms m);
  inv_rings : rings_inv m;
  inv_suppressions : (length (am_suppressions m) <= MAX_SUPPRESSIONS)%nat }.

Lemma active_inv_append next l a :
  active_inv next l -> 1 <= next -> al_alarm_id a = next ->
  (length l < MAX_ACTIVE_ALARMS)%nat ->
  (al_rule_id a = 0 \/ filter (from_rule (al_rule_id a)) l = []) ->
  active_inv (next + 1) (l ++ [a]).
Proof.
  intros (Hnd & Hr & Hc & H1) Hn Ha Hlen Hrule. split_and!.
  - eapply keys_append; [done| |done]. eapply Forall_impl; [exact Hr|]. simpl. lia.
  - apply Forall_app. split; [|by apply Forall_singleton; lia].
    eapply Forall_impl; [exact Hr|]. simpl. lia.
  - rewrite length_app. simpl. lia.
  - intros rid Hrid. destruct (decide (al_rule_id a = rid)) as [<-|Hne].
    + destruct Hrule as [?|Hf]; [done|]. rewrite filter_app, Hf. cbn.
      case_decide; simpl; lia.
    + rewrite filter_from_rule_other by done. auto.
Qed.

Lemma active_inv_update next l1 a a' l2 :
  active_inv next (l1 ++ a :: l2) ->
  al_alarm_id a' = al_alarm_id a -> al_rule_id a' = al_rule_id a ->
  active_inv next (l1 ++ a' :: l2).
Proof.
  intros (Hnd & Hr & Hc & H1) Hid Hrule. split_and!.
  - by rewrite (keys_update _ _ a).
  - apply Forall_middle in Hr as (? & ? & ?). apply Forall_middle. rewrite Hid. auto.
  - rewrite length_app in *. done.
  - intros rid Hrid. specialize (H1 rid Hrid). rewrite filter_app, filter_cons, length_app in *.
    destruct (decide (from_rule rid a)) as [Ha|Ha], (decide (from_rule rid a')) as [Ha'|Ha'];
      unfold from_rule in Ha, Ha'; simpl in *; congruence || lia.
Qed.

Lemma active_inv_filter next l (P : alarm -> Prop) `{!forall x, Decision (P x)} :
  active_inv next l -> active_inv next (filter P l).
Proof.
  intros (Hnd & Hr & Hc & H1). split_and!.
  - eapply sublist_NoDup; [done|]. apply fmap_sublist, sublist_filter.
  - apply Forall_forall. intros a [_ Ha]%list_elem_of_filter.
    by apply (proj1 (Forall_forall _ _) Hr).
  - pose proof (length_filter P l). lia.
  - intros rid Hrid. rewrite filter_comm.
    pose proof (length_filter P (filter (from_rule rid) l)). specialize (H1 rid Hrid). lia.
Qed.

Lemma rings_inv_history m a : rings_inv m -> rings_inv (add_to_history m a).
Proof.
  intros (Hc & Hl & Hn & Hw & ?). unfold rings_inv, add_to_history; cbn.
  split_and!; try tauto; try lia.
  - by rewrite length_insert.
  - destruct (Z.ltb_spec (am_history_count m) (am_history_capacity m)); lia.
  - destruct (Z.ltb_spec (am_history_count m) (am_history_capacity m)); lia.
  - apply Z.mod_pos_bound. lia.
  - apply Z.mod_pos_bound. lia.
Qed.

Lemma rings_inv_track m now : rings_inv m -> rings_inv (track_alarm now m).
Proof.
  intros (Hc & Hl & Hn & Hw & Ht & Hi). unfold rings_inv, track_alarm; cbn.
  rewrite length_insert. split_and!; try tauto; try lia; apply Z.mod_pos_bound; lia.
Qed.
Lemma rings_inv_emit c e m : rings_inv m -> rings_inv (emit c e m).
Proof. done. Qed.
Lemma rings_inv_set_rule i f m : rings_inv m -> rings_inv (set_rule i f m).
Proof. done. Qed.
Lemma rings_inv_push t a m : rings_inv m -> rings_inv (push_alarm t a m).
Proof. intros Hm. unfold push_alarm. apply rings_inv_history, rings_inv_track, Hm. Qed.
#[export] Hint Resolve rings_inv_history rings_inv_track rings_inv_emit rings_inv_set_rule
  rings_inv_push : wtc.

Section Invariant.
Context {R : Type} `{RegistryOps R}.

Lemma step_rings reg clk junk now_ms m i :
  rings_inv m -> rings_inv (process_rule reg clk junk now_ms m i).
Proof.
  intros Hm. unfold process_rule. destruct (am_rules m !! i) as [rule|]; [|done].
  destruct (negb _); [done|]. destruct (is_suppressed _ _ _ _); [done|].
  destruct (read_sensor _ _ _ i rule) as [res sensor].
  destruct (condition_met rule res sensor).
  - destruct (_ =? 0); [done|]. destruct (_ && _); [|done].
    unfold raise_branch. destruct (_ <? _)%nat; [|done].
    auto with wtc.
  - unfold clear_branch. destruct (find_active_alarm_by_rule _ _) as [[j a]|]; [|done].
    destruct (is_active_state _); [|done]. apply rings_inv_emit, rings_inv_history. done.
Qed.

Lemma find_none_filter m rid :
  find_active_alarm_by_rule m rid = None -> filter (from_rule rid) (am_active_alarms m) = [].
Proof.
  intros Hf. pose proof (list_find_head (from_rule rid) (am_active_alarms m)) as Hh.
  unfold find_active_alarm_by_rule in Hf. rewrite Hf in Hh. by destruct (filter _ _).
Qed.

Lemma step_inv reg clk junk now_ms m i :
  am_inv m -> am_inv (process_rule reg clk junk now_ms m i).
Proof.
  intros [H1 H2 (R1 & R2 & R3) H4 H5 H6].
  destruct (step_rules reg clk junk now_ms m i) as (S1 & _ & S3 & _ & S5).
  pose proof (step_rings reg clk junk now_ms m i H5) as S6.
  split; rewrite ?S1, ?S3; try done.
  - destruct (step_active reg clk junk now_ms m i) as [_ ->|rule _ _ _ _ ->|rule l1 a l2 _ _ _ _ _ ->]; lia.
  - pose proof (same_rule_ids _ _ S5) as Hids. split_and!; [by rewrite Hids| |].
    + by apply (Forall_keys ar_rule_id (fun id => 1 <= id < am_next_rule_id m) (am_rules m)).
    + by rewrite <- (Forall2_length _ _ _ S5).
  - destruct (step_active reg clk junk now_ms m i)
      as [-> ->|rule _ Hf Hlt -> ->|rule l1 a l2 _ _ _ Hl -> ->]; [done| |].
    + apply active_inv_append; try done. right. by apply find_none_filter.
    + rewrite Hl in H4. by eapply active_inv_update.
Qed.

Lemma process_inv reg clk junk now_ms m :
  am_inv m -> am_inv (snd (alarm_manager_process reg clk junk now_ms m)).
Proof.
  intros Hm. unfold alarm_manager_process. destruct reg as [rg|]; [|done]. cbn [snd].
  assert (am_inv (process_rules rg clk junk now_ms m)) as [H1 H2 H3 H4 H5 H6].
  { unfold process_rules. generalize (seq 0 (length (am_rules m))). intros ks. revert m Hm.
    induction ks as [|i ks IH]; intros m Hm; [done|]. apply IH. by apply step_inv. }
  split; try done. cbn. rewrite remove_cleared_filter. by apply active_inv_filter.
Qed.

(** ** The operations, and reachability *)

Inductive am_op :=
| OpCreateRule (station : string) (slot : Z) (condition : alarm_condition) (threshold : float32)
    (severity : alarm_severity) (delay_ms : Z) (message : option string)
| OpDeleteRule (rule_id : Z)
| OpEnableRule (rule_id : Z) (enabled : bool)
| OpSetOos (now rule_id : Z) (oos : bool) (reason : option string) (user : string)
| OpSetRationalization (rule_id : Z) (consequence response : option string) (time_sec : Z)
| OpAcknowledge (now alarm_id : Z) (user : string)
| OpAcknowledgeAll (clk : nat -> Z) (user : string)
| OpSuppress (now : Z) (station : string) (slot duration_ms : Z) (reason user : option string)
| OpShelve (now alarm_id duration_ms : Z) (reason : option string) (user : string)
| OpUnshelve (alarm_id : Z)
| OpRaise (now track_now : Z) (station : option string) (slot : Z) (severity : alarm_severity)
    (message : string) (value : float32)
| OpProcess (reg : option R) (clk : nat -> Z) (junk : nat -> sensor_data) (now : Z).

Definition am_exec (m : alarm_manager) (op : am_op) : alarm_manager :=
  match op with
  | OpCreateRule st sl c t s d msg => snd (alarm_manager_create_rule m st sl c t s d msg)
  | OpDeleteRule id => snd (alarm_manager_delete_rule m id)
  | OpEnableRule id e => snd (alarm_manager_enable_rule m id e)
  | OpSetOos n id o r u => snd (alarm_manager_set_out_of_service n m id o r u)
  | OpSetRationalization id c r t => snd (alarm_manager_set_rationalization m id c r t)
  | OpAcknowledge n id u => snd (alarm_manager_acknowledge n m id u)
  | OpAcknowledgeAll c u => snd (alarm_manager_acknowledge_all c m u)
  | OpSuppress n st sl d r u => snd (alarm_manager_suppress n m st sl d r u)
  | OpShelve n id d r u => snd (alarm_manager_shelve n m id d r u)
  | OpUnshelve id => snd (alarm_manager_unshelve m id)
  | OpRaise n t st sl s msg v => snd (alarm_manager_raise_alarm n t m st sl s msg v)
  | OpProcess rg c j n => snd (alarm_manager_process rg c j n m)
  end.

Lemma with_rule_inv m id f :
  (forall r, ar_rule_id (f r) = ar_rule_id r) -> am_inv m -> am_inv (snd (with_rule m id f)).
Proof.
  intros Hf [H1 H2 (R1 & R2 & R3) H4 H5 H6]. unfold with_rule.
  destruct (find_update _ _ _) as [l|] eqn:E; [|done].
  apply find_update_Some in E as (l1 & x & l2 & Hl & _ & _ & ->).
  split; try done. cbn. rewrite Hl in *. split_and!.
  - by rewrite (keys_update _ _ x).
  - apply Forall_middle in R2 as (?&?&?). apply Forall_middle. by rewrite Hf.
  - by rewrite length_app in *.
Qed.

Lemma with_alarm_inv m id f :
  (forall a, al_alarm_id (f a) = al_alarm_id a) -> (forall a, al_rule_id (f a) = al_rule_id a) ->
  am_inv m -> am_inv (snd (with_alarm m id f)).
Proof.
  intros Hf Hf' [H1 H2 H3 H4 H5 H6]. unfold with_alarm.
  destruct (find_update _ _ _) as [l|] eqn:E; [|done].
  apply find_update_Some in E as (l1 & x & l2 & Hl & _ & _ & ->).
  split; try done. cbn. rewrite Hl in H4. by eapply active_inv_update.
Qed.

Lemma create_rule_inv m st sl c t s d msg :
  am_inv m -> am_inv (snd (alarm_manager_create_rule m st sl c t s d msg)).
Proof.
  intros [H1 H2 (R1 & R2 & R3) H4 H5 H6]. unfold alarm_manager_create_rule.
  destruct (Nat.leb_spec WTC_MAX_ALARM_RULES (length (am_rules m))); [done|].
  split; try done; cbn -[WTC_MAX_ALARM_RULES]; [lia|]. split_and!.
  - eapply keys_append; [done| |done]. eapply Forall_impl; [exact R2|]. simpl. lia.
  - apply Forall_app. split; [|by apply Forall_singleton; cbn; lia].
    eapply Forall_impl; [exact R2|]. simpl. lia.
  - rewrite length_app. cbn [length]. lia.
Qed.

Lemma delete_rule_inv m id : am_inv m -> am_inv (snd (alarm_manager_delete_rule m id)).
Proof.
  intros [H1 H2 (R1 & R2 & R3) H4 H5 H6]. unfold alarm_manager_delete_rule.
  destruct (find_remove _ _) as [l|] eqn:E; [|done].
  apply find_remove_Some in E as (l1 & x & l2 & Hl & _ & _ & ->).
  split; try done. cbn. rewrite Hl in *. split_and!.
  - by eapply keys_remove.
  - apply Forall_middle in R2 as (?&?&?). by apply Forall_app.
  - rewrite length_app in *. cbn [length] in *. lia.
Qed.

Lemma acknowledge_inv now m id user :
  am_inv m -> am_inv (snd (alarm_manager_acknowledge now m id user)).
Proof.
  intros Hm. unfold alarm_manager_acknowledge. destruct (find_entry _ _); [|done].
  pose proof (with_alarm_inv m id (ack_alarm now user)) as Hw.
  destruct (with_alarm m id (ack_alarm now user)) as [res m']. by destruct Hw.
Qed.

Lemma acknowledge_all_inv clk m user :
  am_inv m -> am_inv (snd (alarm_manager_acknowledge_all clk m user)).
Proof.
  intros [H1 H2 H3 (A1 & A2 & A3 & A4) H5 H6]. split; try done. cbn.
  set (f := fun (i : nat) (a : alarm) => if unacked a then ack_alarm (clk i) user a else a).
  assert (forall (g : alarm -> Z) l, (forall i a, g (f i a) = g a) -> g <$> imap f l = g <$> l) as Hg.
  { intros g l Hgf. rewrite fmap_imap, <- (imap_const g l). apply imap_ext. intros. apply Hgf. }
  assert (forall i a, al_alarm_id (f i a) = al_alarm_id a) as Hid by (intros i a; unfold f; by case_match).
  assert (forall i a, al_rule_id (f i a) = al_rule_id a) as Hrid by (intros i a; unfold f; by case_match).
  split_and!.
  - by rewrite (Hg al_alarm_id).
  - apply (Forall_keys al_alarm_id (fun id => 1 <= id < am_next_alarm_id m) (am_active_alarms m));
      [by apply Hg|done].
  - by rewrite length_imap.
  - intros rid Hr. specialize (A4 rid Hr).
    rewrite (length_filter_keys al_rule_id rid) in A4 |- * by done.
    by rewrite (Hg al_rule_id).
Qed.

Lemma raise_inv now t m st sl s msg v :
  am_inv m -> am_inv (snd (alarm_manager_raise_alarm now t m st sl s msg v)).
Proof.
  intros [H1 H2 H3 H4 H5 H6]. unfold alarm_manager_raise_alarm.
  destruct (Nat.leb_spec MAX_ACTIVE_ALARMS (length (am_active_alarms m))); [done|].
  split; try done; cbn -[MAX_ACTIVE_ALARMS]; [lia| |].
  - apply active_inv_append; try done. by left.
  - auto with wtc.
Qed.

Lemma default_if_zero_nonzero z d : d <> 0 -> default_if_zero z d <> 0.
Proof. unfold default_if_zero. by destruct (Z.eqb_spec z 0). Qed.

Lemma init_inv alloc config m :
  alarm_manager_init alloc config = (WTC_OK, Some m) -> am_inv m.
Proof.
  unfold alarm_manager_init. destruct (negb (alloc 0%nat)); [done|].
  set (c := init_config config).
  destruct (negb (alloc 1%nat) || (cfg_max_history_entries c <? 0)) eqn:E; [done|].
  assert (cfg_max_history_entries c <> 0) as Hc by (by apply default_if_zero_nonzero).
  clearbody c. intros [= <-]. reflect. split; cbn [am_next_rule_id am_next_alarm_id am_rules am_active_alarms am_suppressions].
  - lia.
  - lia.
  - split_and!; [apply NoDup_nil_2|apply Forall_nil_2|apply Nat.le_0_l].
  - split_and!; [apply NoDup_nil_2|apply Forall_nil_2|apply Nat.le_0_l|intros; apply Nat.le_0_l].
  - unfold rings_inv; cbn -[replicate Z.to_nat ALARM_TIMESTAMPS].
    rewrite !length_replicate. split_and!; try done; lia.
  - apply Nat.le_0_l.
Qed.

Lemma am_exec_inv m (ops : list am_op) : am_inv m -> am_inv (foldl am_exec m ops).
Proof.
  revert m. induction ops as [|op ops IH]; intros m Hm; [done|].
  apply IH. destruct op; cbn [am_exec];
    auto using create_rule_inv, delete_rule_inv, acknowledge_inv, acknowledge_all_inv,
      raise_inv, process_inv.
  - by apply with_rule_inv.
  - apply with_rule_inv; [|done]. intros r. unfold set_oos. by case_match.
  - by apply with_rule_inv.
  - destruct Hm. unfold alarm_manager_suppress.
    destruct (Nat.leb_spec MAX_SUPPRESSIONS (length (am_suppressions m))); [done|].
    split; try done. cbn -[MAX_SUPPRESSIONS]. rewrite length_app. cbn [length]. lia.
  - by apply with_alarm_inv.
  - by apply with_alarm_inv.
Qed.

(** C4: Whatever sequence of calls and scans runs, rule ids and alarm ids stay
    distinct and below the next id, at most one active alarm belongs to a rule,
    the rule, alarm and suppression arrays and both rings stay within bounds. *)
Theorem alarm_manager_invariant alloc config m (ops : list am_op) :
  alarm_manager_init alloc config = (WTC_OK, Some m) -> am_inv (foldl am_exec m ops).
Proof. intros Hm%init_inv. by apply am_exec_inv. Qed.
End Invariant.

(** ** What a scan does to one rule: the transition table

    The specification is stated on its own terms: [alarming] says in words of the
    reading when a rule's condition holds, [fresh_alarm] what a new alarm must
    contain, and [rule_table] lists what a scan may do to a rule's delay timer and
    to its alarm on the active list. *)

(** The reading can be used: the registry answered, status and quality are good. *)
Definition reads_good (rd : wtc_result * sensor_data) : Prop :=
  fst rd = WTC_OK /\ sd_status (snd rd) = IOPS_GOOD /\ sd_quality (snd rd) = QUALITY_GOOD.

(** The rule's condition holds on this reading (rate-of-change and deviation
    rules are never evaluated). *)
Definition alarming (rule : alarm_rule) (rd : wtc_result * sensor_data) : Prop :=
  match ar_condition rule with
  | ALARM_CONDITION_HIGH | ALARM_CONDITION_HIGH_HIGH =>
      reads_good rd /\ num_le (ar_threshold rule) (sd_value (snd rd))
  | ALARM_CONDITION_LOW | ALARM_CONDITION_LOW_LOW =>
      reads_good rd /\ num_le (sd_value (snd rd)) (ar_threshold rule)
  | ALARM_CONDITION_BAD_QUALITY => ~ reads_good rd
  | ALARM_CONDITION_RATE_OF_CHANGE | ALARM_CONDITION_DEVIATION => False
  end.

(** A new alarm: active, unacknowledged, with the data of its rule and reading. *)
Definition fresh_alarm (now id : Z) (rule : alarm_rule) (value : float32) : alarm := {|
  al_alarm_id := id; al_rule_id := ar_rule_id rule;
  al_rtu_station := strncpy 63 (ar_rtu_station rule); al_slot := ar_slot rule;
  al_severity := ar_severity rule; al_state := ALARM_STATE_ACTIVE_UNACK;
  al_message := strncpy 255 (strncpy 200 (ar_message_template rule) +:+ " (value="
    +:+ fmt_fixed 2 value +:+ ", threshold=" +:+ fmt_fixed 2 (ar_threshold rule) +:+ ")");
  al_value := value; al_threshold := ar_threshold rule;
  al_raise_time_ms := now; al_ack_time_ms := 0; al_clear_time_ms := 0; al_ack_user := "";
  al_shelved := false; al_shelve_end_time_ms := 0; al_shelve_user := ""; al_shelve_reason := "" |}.

(** One scan at [now]: delay timer (0: not running) and alarm before, timer and
    alarm after. *)
Inductive rule_table (now : Z) (rule : alarm_rule) (rd : wtc_result * sensor_data) (id : Z) :
    Z -> option alarm -> Z -> option alarm -> Prop :=
(* the condition begins: the timer starts *)
| row_start : alarming rule rd -> rule_table now rule rd id 0 None now None
(* it lasts, but not yet for the delay *)
| row_wait t : alarming rule rd -> t <> 0 -> (now - t) mod 2 ^ 64 < ar_delay_ms rule ->
    rule_table now rule rd id t None t None
(* it has lasted for the delay: the alarm is raised *)
| row_raise t : alarming rule rd -> t <> 0 -> ar_delay_ms rule <= (now - t) mod 2 ^ 64 ->
    rule_table now rule rd id t None t (Some (fresh_alarm now id rule (sd_value (snd rd))))
(* it lasts and the rule has an alarm on the list: the alarm stays as it is, also
   when it is cleared and waits for acknowledgement *)
| row_hold a t : alarming rule rd -> al_state a <> ALARM_STATE_CLEARED ->
    rule_table now rule rd id t (Some a) (if decide (t = 0) then now else t) (Some a)
(* no condition and no alarm *)
| row_quiet t : ~ alarming rule rd -> rule_table now rule rd id t None 0 None
(* the condition ends: an unacknowledged alarm waits, cleared, for its acknowledgement *)
| row_clear_unack a t : ~ alarming rule rd -> al_state a = ALARM_STATE_ACTIVE_UNACK ->
    rule_table now rule rd id t (Some a) 0
      (Some (a <| al_state := ALARM_STATE_CLEARED_UNACK |> <| al_clear_time_ms := now |>))
(* the condition ends: an acknowledged alarm leaves the list *)
| row_clear_ack a t : ~ alarming rule rd -> al_state a = ALARM_STATE_ACTIVE_ACK ->
    rule_table now rule rd id t (Some a) 0 None
(* a cleared alarm keeps waiting for its acknowledgement *)
| row_unacked a t : ~ alarming rule rd -> al_state a = ALARM_STATE_CLEARED_UNACK ->
    rule_table now rule rd id t (Some a) 0 (Some a)
(* an alarm cleared and acknowledged since the last scan leaves the list; the
   condition, if it holds again, starts the timer *)
| row_done a t : ~ alarming rule rd -> al_state a = ALARM_STATE_CLEARED ->
    rule_table now rule rd id t (Some a) 0 None
| row_done_again a t : alarming rule rd -> al_state a = ALARM_STATE_CLEARED ->
    rule_table now rule rd id t (Some a) (if decide (t = 0) then now else t) None.

(** The table is a function: what is before the scan decides what is after it. *)
Lemma rule_table_functional now rule rd id t cur t1 cur1 t2 cur2 :
  rule_table now rule rd id t cur t1 cur1 -> rule_table now rule rd id t cur t2 cur2 ->
  t1 = t2 /\ cur1 = cur2.
Proof. intros H1 H2. inversion H1; inversion H2; simplify_eq; try tauto; try lia; congruence. Qed.

Lemma condition_met_alarming rule res s :
  condition_met rule res s = true <-> alarming rule (res, s).
Proof.
  assert (quality_good res s = true <-> reads_good (res, s)) as Hq.
  { unfold quality_good, reads_good. cbn. rewrite !andb_true_iff, !bool_decide_eq_true. tauto. }
  unfold condition_met, alarming, eval_condition. destruct (quality_good res s) eqn:E.
  - assert (reads_good (res, s)) as Hg by (by apply Hq).
    destruct (ar_condition rule); cbn; unfold fge; rewrite ?fle_spec; unfold num_le; naive_solver.
  - assert (~ reads_good (res, s)) as Hg by (rewrite <- Hq; congruence).
    rewrite bool_decide_eq_true. destruct (ar_condition rule); naive_solver.
Qed.

Lemma condition_not_met_alarming rule res s :
  condition_met rule res s = false <-> ~ alarming rule (res, s).
Proof. rewrite <- condition_met_alarming. by destruct (condition_met rule res s). Qed.

(** A rule's alarm on the active list. *)
Definition alarm_of_rule (m : alarm_manager) (rid : Z) : option alarm :=
  head (filter (from_rule rid) (am_active_alarms m)).

Lemma head_filter_single rid l1 (a : alarm) l2 :
  al_rule_id a = rid -> Forall (fun x => ~ from_rule rid x) l1 ->
  (length (filter (from_rule rid) (l1 ++ a :: l2)) <= 1)%nat ->
  filter (from_rule rid) l1 = [] /\ filter (from_rule rid) l2 = [].
Proof.
  intros Ha Hl1. assert (filter (from_rule rid) l1 = []) as H1.
  { induction Hl1 as [|x l Hx _ IH]; [done|]. by rewrite filter_cons_False. }
  rewrite filter_app, H1, filter_cons_True by done. simpl.
  destruct (filter (from_rule rid) l2); [done|]. simpl. lia.
Qed.

Lemma head_not_cleared (a : alarm) :
  head (filter (fun a => al_state a <> ALARM_STATE_CLEARED) [a])
  = if bool_decide (al_state a = ALARM_STATE_CLEARED) then None else Some a.
Proof.
  case_bool_decide; [by rewrite filter_cons_False by tauto|by rewrite filter_cons_True].
Qed.

Section Refinement.
Context {R : Type} `{RegistryOps R}.
Context (reg : R) (clk : nat -> Z) (junk : nat -> sensor_data) (now_ms : Z).
Notation step := (process_rule reg clk junk now_ms).

Definition live (m : alarm_manager) (i : nat) (rule : alarm_rule) : Prop :=
  am_rules m !! i = Some rule /\ ar_enabled rule = true /\
  is_suppressed (clk (3 * i)%nat) m (ar_rtu_station rule) (ar_slot rule) = false.

(** The iteration of a live rule with room on the active list. *)
Lemma step_self m i rule :
  live m i rule -> (length (am_active_alarms m) < MAX_ACTIVE_ALARMS)%nat ->
  (length (filter (from_rule (ar_rule_id rule)) (am_active_alarms m)) <= 1)%nat ->
  exists t, ar_condition_start_ms <$> (am_rules (step m i) !! i) = Some t /\
    rule_table now_ms rule (read_sensor reg clk junk i rule) (am_next_alarm_id m)
      (ar_condition_start_ms rule) (alarm_of_rule m (ar_rule_id rule)) t
      (head (filter (fun a => al_state a <> ALARM_STATE_CLEARED)
         (filter (from_rule (ar_rule_id rule)) (am_active_alarms (step m i))))).
Proof.
  intros (Hr & Hen & Hsup) Hroom H1. unfold process_rule, alarm_of_rule.
  rewrite Hr, Hen, Hsup. cbn [negb].
  destruct (read_sensor reg clk junk i rule) as [res sensor].
  rewrite <- (list_find_head (from_rule (ar_rule_id rule)) (am_active_alarms m)).
  unfold find_active_alarm_by_rule.
  destruct (list_find (from_rule (ar_rule_id rule)) (am_active_alarms m)) as [[j a]|] eqn:Hf.
  - apply list_find_split in Hf as (Hl & Ha & Hno & Hj). unfold from_rule in Ha.
    set (l1 := take j _) in *. set (l2 := drop (S j) _) in *. rewrite Hl in H1.
    destruct (head_filter_single _ _ _ _ Ha Hno H1) as [Hf1 Hf2].
    assert (forall a', al_rule_id a' = al_rule_id a ->
      filter (from_rule (ar_rule_id rule)) (l1 ++ a' :: l2) = [a']) as Hone.
    { intros a' Ha'. rewrite filter_app, Hf1, filter_cons_True, Hf2; [done|].
      unfold from_rule. congruence. }
    destruct (condition_met rule res sensor) eqn:Hc.
    + apply condition_met_alarming in Hc.
      assert (filter (from_rule (ar_rule_id rule)) (am_active_alarms m) = [a]) as Hm.
      { rewrite Hl. by apply Hone. }
      exists (if decide (ar_condition_start_ms rule = 0) then now_ms else ar_condition_start_ms rule).
      destruct (Z.eqb_spec (ar_condition_start_ms rule) 0) as [H0|H0];
        cbn -[filter]; rewrite ?list_lookup_alter_eq, Hr, Hm, head_not_cleared;
        (split; [cbn; by case_decide|]); case_bool_decide; by constructor.
    + apply condition_not_met_alarming in Hc. exists 0. unfold clear_branch. cbn [snd].
      destruct (is_active_state (al_state a)) eqn:Hst; cbn -[filter clear_alarm].
      * rewrite (insert_take_drop _ _ _ Hj). fold l1 l2. rewrite Hone by done.
        rewrite !list_lookup_alter_eq, Hr, head_not_cleared. split; [done|].
        unfold clear_alarm. destruct (al_state a) eqn:Hs; try discriminate Hst; cbn;
          [by apply row_clear_unack|by apply row_clear_ack].
      * rewrite Hl, Hone by done. rewrite list_lookup_alter_eq, Hr, head_not_cleared.
        split; [done|]. case_bool_decide; [by apply row_done|].
        apply row_unacked; [done|]. by destruct (al_state a).
  - assert (filter (from_rule (ar_rule_id rule)) (am_active_alarms m) = []) as Hnone
      by (by apply find_none_filter).
    destruct (condition_met rule res sensor) eqn:Hc.
    + apply condition_met_alarming in Hc.
      destruct (Z.eqb_spec (ar_condition_start_ms rule) 0) as [H0|H0]; cbn -[filter].
      { exists now_ms. rewrite list_lookup_alter_eq, Hr, Hnone, H0. split; [done|by apply row_start]. }
      exists (ar_condition_start_ms rule).
      destruct (Z.leb_spec (ar_delay_ms rule) (u64_sub now_ms (ar_condition_start_ms rule)))
        as [Hd|Hd]; cbn -[filter MAX_ACTIVE_ALARMS].
      * unfold raise_branch. rewrite (proj2 (Nat.ltb_lt _ _) Hroom). cbn -[filter].
        rewrite list_lookup_alter_eq, Hr. split; [done|].
        rewrite filter_app, Hnone, filter_cons_True by done.
        by apply (row_raise _ _ (res, sensor)).
      * rewrite Hnone, Hr. split; [done|]. by apply row_wait.
    + apply condition_not_met_alarming in Hc. exists 0.
      unfold clear_branch. cbn -[filter]. rewrite list_lookup_alter_eq, Hr, Hnone.
      split; [done|by apply row_quiet].
Qed.

(** The same for a whole scan: the other rules do not interfere. *)
Lemma scan_self m i rule :
  am_inv m -> live m i rule ->
  (length (am_active_alarms m) + length (am_rules m) <= MAX_ACTIVE_ALARMS)%nat ->
  let m' := snd (alarm_manager_process (Some reg) clk junk now_ms m) in
  exists id t, ar_condition_start_ms <$> (am_rules m' !! i) = Some t /\
    rule_table now_ms rule (read_sensor reg clk junk i rule) id (ar_condition_start_ms rule)
      (alarm_of_rule m (ar_rule_id rule)) t (alarm_of_rule m' (ar_rule_id rule)).
Proof.
  intros Hm (Hr & Hen & Hsup) Hroom m'.
  pose proof (inv_rules m Hm) as (Hnd & Hrange & _).
  pose proof (lookup_lt_Some _ _ _ Hr) as Hi.
  destruct (scan_at reg clk junk now_ms m i rule Hnd Hr) as (m1 & Hr1 & Hs1 & Hl1 & Hf1 & Hf & Hr').
  exists (am_next_alarm_id m1).
  assert (ar_rule_id rule <> 0) as Hrid.
  { rewrite Forall_lookup in Hrange. specialize (Hrange _ _ Hr). simpl in Hrange. lia. }
  pose proof (inv_active m Hm) as (_ & _ & _ & Hone). specialize (Hone _ Hrid).
  destruct (step_self m1 i rule) as (t & Ht & Ha).
  - split_and!; [done..|]. unfold is_suppressed in *. by rewrite Hs1.
  - lia.
  - by rewrite Hf1.
  - exists t. unfold m'. cbn -[process_rules]. split; [by rewrite Hr'|].
    unfold alarm_of_rule in *; cbn -[process_rules].
    rewrite remove_cleared_filter, filter_comm, Hf. by rewrite Hf1 in Ha.
Qed.
End Refinement.

Section Theorems.
Context {R : Type} `{RegistryOps R}.

(** C1: Refinement. A whole scan over all rules acts on the delay timer and the
    alarm of each rule exactly as a row of the transition table [rule_table] says:
    start the timer, wait, raise after the delay, hold, return to normal
    (unacknowledged alarms wait, acknowledged ones leave the list), drop. This
    holds for every rule that is enabled, in service and not suppressed in that
    scan, when the alarms on the list and the rules together are at most 256, so
    that there is room for what the scan may raise. The table is the program's
    own: an acknowledged alarm whose condition ends is cleared at once, and a
    condition that comes back does not reactivate an alarm that waits, cleared,
    for acknowledgement. *)
Theorem scan_follows_rule_table reg clk junk now_ms m i rule :
  am_inv m -> live clk m i rule -> ar_out_of_service rule = false ->
  (length (am_active_alarms m) + length (am_rules m) <= MAX_ACTIVE_ALARMS)%nat ->
  let m' := snd (alarm_manager_process (Some reg) clk junk now_ms m) in
  exists id t, ar_condition_start_ms <$> (am_rules m' !! i) = Some t /\
    rule_table now_ms rule (read_sensor reg clk junk i rule) id (ar_condition_start_ms rule)
      (alarm_of_rule m (ar_rule_id rule)) t (alarm_of_rule m' (ar_rule_id rule)).
Proof. intros Hm Hl _ Hroom. by apply scan_self. Qed.

(** The alarm with this id, unacknowledged, is on the active list. *)
Definition unacked_id (id : Z) (l : list alarm) : Prop :=
  exists a, a ∈ l /\ al_alarm_id a = id /\ unacked a = true.

Lemma evolves_unacked now a a' :
  evolves now a a' -> unacked a = true ->
  al_alarm_id a' = al_alarm_id a /\ unacked a' = true /\ al_state a' <> ALARM_STATE_CLEARED.
Proof.
  unfold unacked. intros [->|[Hs ->]] Hu; cbn; [by destruct (al_state a)|].
  by destruct (al_state a).
Qed.

Lemma with_alarm_unacked id m aid f :
  (forall a, al_alarm_id (f a) = al_alarm_id a) -> (forall a, al_state (f a) = al_state a) ->
  unacked_id id (am_active_alarms m) -> unacked_id id (am_active_alarms (snd (with_alarm m aid f))).
Proof.
  intros Hid Hst (a & Ha & Hi & Hu). unfold with_alarm.
  destruct (find_update _ _ _) as [l|] eqn:E; [|by exists a].
  apply find_update_Some in E as (l1 & x & l2 & Hl & _ & _ & ->). cbn. rewrite Hl in Ha.
  apply elem_of_app in Ha as [Ha|[->|Ha]%elem_of_cons];
    [exists a; set_solver|exists (f x)|exists a; set_solver].
  split_and!; [set_solver|congruence|]. unfold unacked in *. by rewrite Hst.
Qed.

(** Only an acknowledgement of that alarm (or of all) may end its unacknowledged
    state. *)
Definition acknowledges (id : Z) (op : am_op (R := R)) : Prop :=
  match op with
  | OpAcknowledge _ aid _ => aid = id
  | OpAcknowledgeAll _ _ => True
  | _ => False
  end.

Lemma process_unacked id reg clk junk now_ms m :
  unacked_id id (am_active_alarms m) ->
  unacked_id id (am_active_alarms (snd (alarm_manager_process reg clk junk now_ms m))).
Proof.
  intros (a & Ha & Hi & Hu). unfold alarm_manager_process. destruct reg as [rg|]; [|by exists a].
  cbn -[process_rules]. rewrite remove_cleared_filter. unfold process_rules.
  destruct (scan_evolves rg clk junk now_ms (seq 0 (length (am_rules m))) m) as (l1 & l2 & -> & HF).
  apply list_elem_of_lookup in Ha as [k Hk].
  destruct (Forall2_lookup_l _ _ _ _ _ HF Hk) as (a' & Hk' & Hev).
  destruct (evolves_unacked _ _ _ Hev Hu) as (Hid & Hu' & Hns).
  exists a'. split_and!; [|congruence|done]. apply list_elem_of_filter. split; [done|].
  apply elem_of_app. left. by eapply list_elem_of_lookup_2.
Qed.

(** C6: An unacknowledged alarm is never lost: whatever calls and scans run, it
    stays on the active list and unacknowledged until it is acknowledged. *)
Theorem unacked_never_lost id m (ops : list am_op) :
  unacked_id id (am_active_alarms m) -> Forall (fun op => ~ acknowledges id op) ops ->
  unacked_id id (am_active_alarms (foldl am_exec m ops)).
Proof.
  revert m. induction ops as [|op ops IH]; intros m Hm Hops; [done|].
  apply Forall_cons in Hops as [Hop Hops]. apply IH; [|done].
  destruct op; cbn [am_exec acknowledges] in *; try tauto; try (by apply with_alarm_unacked);
    try (by apply process_unacked).
  - unfold alarm_manager_create_rule. by destruct (_ <=? _)%nat.
  - unfold alarm_manager_delete_rule. by destruct (find_remove _ _).
  - unfold alarm_manager_enable_rule, with_rule. by destruct (find_update _ _ _).
  - unfold alarm_manager_set_out_of_service, with_rule. by destruct (find_update _ _ _).
  - unfold alarm_manager_set_rationalization, with_rule. by destruct (find_update _ _ _).
  - unfold alarm_manager_acknowledge, with_alarm.
    destruct (find_entry _ _) as [x|]; [|done].
    destruct (find_update _ _ _) as [l|] eqn:E; [|done].
    apply find_update_Some in E as (l1 & y & l2 & Hl & Hy & _ & ->).
    destruct Hm as (a & Ha & Hi & Hu). rewrite Hl in Ha. exists a. cbn. unfold has_alarm in Hy.
    split_and!; [|done..]. assert (a <> y) by congruence. set_solver.
  - unfold alarm_manager_suppress. by destruct (_ <=? _)%nat.
  - unfold alarm_manager_raise_alarm. destruct (_ <=? _)%nat; [done|].
    destruct Hm as (a & Ha & Hi & Hu). exists a. split_and!; [|done..]. cbn. set_solver.
Qed.
End Theorems.

Section Sources.
Context {R : Type} `{RegistryOps R}.
Context (reg : R) (clk : nat -> Z) (junk : nat -> sensor_data) (now_ms : Z).
Notation step := (process_rule reg clk junk now_ms).

(** Where an alarm found on the active list during a scan of [m0] comes from,
    when the rules below [k] have been processed. *)
Definition source (m0 : alarm_manager) (k : nat) (a : alarm) : Prop :=
  (exists a0, a0 ∈ am_active_alarms m0 /\ evolves now_ms a0 a) \/
  (exists i rule id, (i < k)%nat /\ raises reg clk junk now_ms m0 i rule /\
     am_next_alarm_id m0 <= id /\
     a = rule_alarm now_ms id rule (sd_value (snd (read_sensor reg clk junk i rule)))).

Lemma source_mono m0 k k' a : (k <= k')%nat -> source m0 k a -> source m0 k' a.
Proof. intros Hk [?|(i & rule & id & ? & ?)]; [by left|]. right. exists i, rule, id. split; [lia|done]. Qed.

Lemma scan_sources n k m0 m :
  NoDup (ar_rule_id <$> am_rules m0) ->
  (forall i, (k <= i)%nat -> am_rules m !! i = am_rules m0 !! i) ->
  am_suppressions m = am_suppressions m0 -> am_next_alarm_id m0 <= am_next_alarm_id m ->
  Forall (source m0 k) (am_active_alarms m) ->
  Forall (source m0 (k + n)) (am_active_alarms (foldl step m (seq k n))).
Proof.
  intros Hnd. revert k m. induction n as [|n IH]; intros k m Hrules Hsup Hnext HF.
  { by rewrite Nat.add_0_r. }
  cbn [seq foldl]. replace (k + S n)%nat with (S k + n)%nat by lia.
  destruct (step_rules reg clk junk now_ms m k) as (Hs & _ & _ & Hother & _).
  assert (Forall (source m0 (S k)) (am_active_alarms m)) as HF'.
  { eapply Forall_impl; [exact HF|]. intros a. apply source_mono. lia. }
  apply IH.
  - intros i Hi. rewrite Hother by lia. apply Hrules. lia.
  - congruence.
  - destruct (step_active reg clk junk now_ms m k) as [_ ->|rule _ _ _ _ ->|rule l1 a l2 _ _ _ _ _ ->]; lia.
  - destruct (step_active reg clk junk now_ms m k)
      as [-> _|rule Hra _ _ -> _|rule l1 a l2 (Hr & _) Hid Hst Hl -> _]; [done| |].
    + apply Forall_app. split; [done|]. apply Forall_singleton. right.
      exists k, rule, (am_next_alarm_id m). split_and!; [lia| |done..].
      destruct Hra as (Hr & ? & Hsp & ?). unfold raises, is_suppressed in *.
      rewrite <- Hrules by lia. rewrite <- Hsup. done.
    + rewrite Hl in HF, HF'. apply Forall_middle in HF as (_ & Ha & _).
      apply Forall_middle in HF' as (? & _ & ?). apply Forall_middle. split_and!; [done| |done].
      destruct Ha as [(a0 & Ha0 & Hev)|(i & rule' & id & Hi & (Hr' & _) & _ & ->)].
      * left. exists a0. split; [done|]. eapply evolves_trans; [done|]. by right.
      * exfalso. rewrite Hrules in Hr by lia. cbn in Hid.
        assert (i = k) by (by eapply (NoDup_rule_index (am_rules m0))). lia.
Qed.

(** An alarm with an id not on the list before the scan was raised in it. *)
Lemma new_alarm_raised m a :
  am_inv m ->
  a ∈ am_active_alarms (snd (alarm_manager_process (Some reg) clk junk now_ms m)) ->
  al_alarm_id a ∉ al_alarm_id <$> am_active_alarms m ->
  exists i rule id, raises reg clk junk now_ms m i rule /\ am_next_alarm_id m <= id /\
    a = rule_alarm now_ms id rule (sd_value (snd (read_sensor reg clk junk i rule))).
Proof.
  intros Hm Ha Hnew. cbn -[process_rules] in Ha. rewrite remove_cleared_filter in Ha.
  apply list_elem_of_filter in Ha as [Hs Ha].
  pose proof (inv_rules m Hm) as (Hnd & _ & _). unfold process_rules in Ha.
  pose proof (scan_sources (length (am_rules m)) 0 m m Hnd) as HF.
  assert (source m (length (am_rules m)) a) as [(a0 & Ha0 & Hev)|(i & rule & id & _ & ? & ? & ?)].
  - eapply (proj1 (Forall_forall _ _)); [|exact Ha]. apply HF; try done.
    apply Forall_forall. intros x Hx. left. exists x. split; [done|by left].
  - exfalso. apply Hnew. apply list_elem_of_fmap. exists a0. split; [|done].
    by destruct Hev as [->|[_ ->]].
  - eauto 10.
Qed.

(** A disabled or suppressed rule is left alone by the scan: its delay timer is
    untouched and its alarm stays as it was (dropped only if already cleared and
    acknowledged). *)
Theorem inactive_rule_untouched m i rule :
  am_inv m -> am_rules m !! i = Some rule ->
  ar_enabled rule = false \/
    is_suppressed (clk (3 * i)%nat) m (ar_rtu_station rule) (ar_slot rule) = true ->
  let m' := snd (alarm_manager_process (Some reg) clk junk now_ms m) in
  am_rules m' !! i = Some rule /\
  alarm_of_rule m' (ar_rule_id rule)
  = match alarm_of_rule m (ar_rule_id rule) with
    | Some a => if bool_decide (al_state a = ALARM_STATE_CLEARED) then None else Some a
    | None => None
    end.
Proof.
  intros Hm Hr Hoff m'. pose proof (inv_rules m Hm) as (Hnd & Hrange & _).
  destruct (scan_at reg clk junk now_ms m i rule Hnd Hr) as (m1 & Hr1 & Hs1 & _ & Hf1 & Hf & Hr').
  assert (step m1 i = m1) as Hskip.
  { unfold process_rule. rewrite Hr1. destruct Hoff as [Hoff|Hoff]; [by rewrite Hoff|].
    unfold is_suppressed in *. rewrite Hs1, Hoff. by destruct (negb _). }
  rewrite Hskip in Hf, Hr'. split; [by rewrite <- Hr1, <- Hr'|].
  unfold m', alarm_of_rule; cbn -[process_rules filter].
  rewrite remove_cleared_filter, filter_comm, Hf, Hf1.
  rewrite Forall_lookup in Hrange. specialize (Hrange _ _ Hr). simpl in Hrange.
  pose proof (inv_active m Hm) as (_ & _ & _ & Hone). specialize (Hone (ar_rule_id rule)).
  destruct (filter (from_rule (ar_rule_id rule)) (am_active_alarms m)) as [|a [|b l]]; [done| |].
  - apply head_not_cleared.
  - simpl in Hone. lia.
Qed.

(** A condition that comes back while its alarm still waits, cleared, for
    acknowledgement does not reactivate the alarm or raise another one. *)
Theorem recurring_condition_not_reraised m i rule a :
  am_inv m -> live clk m i rule -> alarming rule (read_sensor reg clk junk i rule) ->
  (length (am_active_alarms m) + length (am_rules m) <= MAX_ACTIVE_ALARMS)%nat ->
  alarm_of_rule m (ar_rule_id rule) = Some a -> al_state a = ALARM_STATE_CLEARED_UNACK ->
  alarm_of_rule (snd (alarm_manager_process (Some reg) clk junk now_ms m)) (ar_rule_id rule) = Some a.
Proof.
  intros Hm Hl Hmet Hroom Ha Hst.
  destruct (scan_self reg clk junk now_ms m i rule Hm Hl Hroom) as (id & t & _ & Htab).
  rewrite Ha in Htab. revert Htab. generalize (alarm_of_rule
    (snd (alarm_manager_process (Some reg) clk junk now_ms m)) (ar_rule_id rule)).
  intros cur Htab. inversion Htab; simplify_eq; done || congruence.
Qed.
End Sources.

(** ** Why an alarm is raised: the history of the readings

    [past m ops] lists the states in which the operations [ops], run from [m],
    were called, the latest first.  The delay of an alarm is judged on this
    history, not on the timer the manager keeps. *)

Section History.
Context {R : Type} `{RegistryOps R}.
Implicit Types (op : am_op (R := R)) (ops : list (am_op (R := R))).

Fixpoint past (m : alarm_manager) ops : list (alarm_manager * am_op) :=
  match ops with
  | [] => []
  | op :: ops' => past (am_exec m op) ops' ++ [(m, op)]
  end.

(** The call is a scan at [now] that evaluates rule [rid] on the reading [rd]: the
    rule is enabled and not suppressed. *)
Definition evaluates (e : alarm_manager * am_op) (rid now : Z) (rule : alarm_rule)
    (rd : wtc_result * sensor_data) : Prop :=
  match snd e with
  | OpProcess (Some reg) clk junk now_ms =>
      now_ms = now /\ exists i, live clk (fst e) i rule /\ ar_rule_id rule = rid /\
        rd = read_sensor reg clk junk i rule
  | _ => False
  end.

(** The condition of the rule held in every scan of [h] that evaluated it. *)
Definition held (rid : Z) (h : list (alarm_manager * am_op)) : Prop :=
  Forall (fun e => forall now rule rd, evaluates e rid now rule rd -> alarming rule rd) h.

(** The condition held in a scan at [since] and in every scan since that
    evaluated the rule. *)
Definition held_since (rid since : Z) (h : list (alarm_manager * am_op)) : Prop :=
  exists newer e older rule rd,
    h = newer ++ e :: older /\ evaluates e rid since rule rd /\ alarming rule rd /\
    held rid newer.

Lemma past_snoc m ops op : past m (ops ++ [op]) = (foldl am_exec m ops, op) :: past m ops.
Proof.
  revert m. induction ops as [|o ops IH]; intros m; [done|]. cbn. by rewrite IH.
Qed.

Lemma held_since_cons rid since e h :
  held_since rid since h ->
  (forall now rule rd, evaluates e rid now rule rd -> alarming rule rd) ->
  held_since rid since (e :: h).
Proof.
  intros (newer & e' & older & rule & rd & -> & Hev & Hal & Hn) He.
  exists (e :: newer), e', older, rule, rd. split_and!; [done..|]. by constructor.
Qed.

(** What a scan does to the timer of a rule, room or not. *)
Lemma scan_timer reg clk junk now_ms m i rule :
  NoDup (ar_rule_id <$> am_rules m) -> am_rules m !! i = Some rule ->
  exists rule', am_rules (process_rules reg clk junk now_ms m) !! i = Some rule' /\
    (ar_condition_start_ms rule' <> 0 ->
     live clk m i rule -> alarming rule (read_sensor reg clk junk i rule)) /\
    (ar_condition_start_ms rule' = ar_condition_start_ms rule \/ ar_condition_start_ms rule' = 0 \/
     (ar_condition_start_ms rule' = now_ms /\ live clk m i rule)).
Proof.
  intros Hnd Hr.
  destruct (scan_at reg clk junk now_ms m i rule Hnd Hr) as (m1 & Hr1 & Hs1 & _ & _ & _ & ->).
  unfold live, process_rule. rewrite Hr1.
  assert (forall n st sl, is_suppressed n m1 st sl = is_suppressed n m st sl) as ->
    by (intros; unfold is_suppressed; by rewrite Hs1).
  destruct (ar_enabled rule) eqn:Hen; cbn [negb]; [|exists rule; naive_solver].
  destruct (is_suppressed _ _ _ _) eqn:Hsup; [exists rule; naive_solver|].
  destruct (read_sensor reg clk junk i rule) as [res sensor].
  destruct (condition_met rule res sensor) eqn:Hc.
  - apply condition_met_alarming in Hc. destruct (Z.eqb_spec (ar_condition_start_ms rule) 0).
    { eexists. cbn. rewrite list_lookup_alter_eq, Hr1. cbn. naive_solver. }
    destruct (bool_decide _ && _); [|exists rule; naive_solver].
    unfold raise_branch. destruct (_ <? _)%nat; [|exists rule; naive_solver].
    eexists. cbn. rewrite list_lookup_alter_eq, Hr1. cbn. naive_solver.
  - unfold clear_branch. destruct (find_active_alarm_by_rule _ _) as [[j a]|].
    2: { eexists. cbn. rewrite list_lookup_alter_eq, Hr1. cbn. naive_solver. }
    destruct (is_active_state _); eexists; cbn; rewrite !list_lookup_alter_eq, Hr1; cbn; naive_solver.
Qed.

(** The timers tell the truth about the history. *)
Definition timers_true (h : list (alarm_manager * am_op)) (m : alarm_manager) : Prop :=
  Forall (fun r => ar_condition_start_ms r <> 0 ->
            held_since (ar_rule_id r) (ar_condition_start_ms r) h) (am_rules m).

(** Any other call keeps the timers or adds a rule with its timer at 0. *)
Lemma other_op_timers m op r' :
  (forall reg clk junk now, op <> OpProcess reg clk junk now) ->
  r' ∈ am_rules (am_exec m op) ->
  ar_condition_start_ms r' = 0 \/
  exists r, r ∈ am_rules m /\ ar_rule_id r = ar_rule_id r' /\
    ar_condition_start_ms r = ar_condition_start_ms r'.
Proof.
  intros Hop Hr'.
  assert (forall id f, (forall r, ar_rule_id (f r) = ar_rule_id r /\
      ar_condition_start_ms (f r) = ar_condition_start_ms r) ->
    r' ∈ am_rules (snd (with_rule m id f)) ->
    exists r, r ∈ am_rules m /\ ar_rule_id r = ar_rule_id r' /\
      ar_condition_start_ms r = ar_condition_start_ms r') as Hw.
  { intros id f Hf. unfold with_rule. destruct (find_update _ _ _) as [l|] eqn:E; [|eauto].
    apply find_update_Some in E as (l1 & x & l2 & -> & _ & _ & ->). cbn. destruct (Hf x).
    intros [?|[->|?]%elem_of_cons]%elem_of_app; [exists r'|exists x|exists r']; set_solver. }
  destruct op; cbn [am_exec] in Hr'; try (by right; eauto); try (by right; eapply Hw; [|exact Hr']).
  - unfold alarm_manager_create_rule in Hr'. destruct (_ <=? _)%nat; [by right; eauto|].
    cbn in Hr'. apply elem_of_app in Hr' as [?| ->%list_elem_of_singleton]; [right; eauto|by left].
  - right. unfold alarm_manager_delete_rule in Hr'.
    destruct (find_remove _ _) as [l|] eqn:E; [|eauto].
    apply find_remove_Some in E as (l1 & x & l2 & -> & _ & _ & ->). cbn in Hr'.
    exists r'. set_solver.
  - right. eapply Hw; [|exact Hr']. intros r. unfold set_oos. by case_match.
  - right. unfold alarm_manager_acknowledge, with_alarm in Hr'. exists r'.
    destruct (find_entry _ _); [|done]. by destruct (find_update _ _ _).
  - right. unfold alarm_manager_suppress in Hr'. exists r'. by destruct (_ <=? _)%nat.
  - right. unfold alarm_manager_shelve, with_alarm in Hr'. exists r'. by destruct (find_update _ _ _).
  - right. unfold alarm_manager_unshelve, with_alarm in Hr'. exists r'. by destruct (find_update _ _ _).
  - right. unfold alarm_manager_raise_alarm in Hr'. exists r'. by destruct (_ <=? _)%nat.
  - by destruct (Hop reg clk junk now).
Qed.

Lemma timers_true_step h m op :
  am_inv m -> timers_true h m -> timers_true ((m, op) :: h) (am_exec m op).
Proof.
  intros Hm Ht. unfold timers_true in *. rewrite Forall_forall in Ht. apply Forall_forall.
  intros r' Hr' Hne. assert ((exists reg clk junk now, op = OpProcess reg clk junk now) \/
    (forall reg clk junk now, op <> OpProcess reg clk junk now)) as [(reg & clk & junk & now & ->)|Hop]
    by (destruct op; naive_solver).
  2: { destruct (other_op_timers m op r' Hop Hr') as [?|(r & Hr & Hid & Hs)]; [done|].
       rewrite <- Hid, <- Hs in *. apply held_since_cons; [by apply Ht|].
       unfold evaluates. cbn. destruct op; naive_solver. }
  pose proof (inv_rules m Hm) as (Hnd & _ & _). cbn [am_exec] in Hr'.
  destruct reg as [reg|]; [|by apply held_since_cons; [apply Ht|]].
  cbn -[process_rules] in Hr'. apply list_elem_of_lookup in Hr' as [i Hr'].
  destruct (scan_rules reg clk junk now (seq 0 (length (am_rules m))) m) as (_ & _ & _ & _ & HF).
  destruct (Forall2_lookup_r _ _ _ _ _ HF Hr') as (r & Hr & Hsame).
  destruct (scan_timer reg clk junk now m i r Hnd Hr) as (r2 & Hr2 & Hal & Hcase).
  rewrite Hr' in Hr2. injection Hr2 as <-.
  assert (ar_rule_id r' = ar_rule_id r) as -> by (by rewrite Hsame).
  assert (forall now' rule rd, evaluates (m, OpProcess (Some reg) clk junk now) (ar_rule_id r) now' rule rd ->
    alarming rule rd) as Hev.
  { intros now' rule rd (_ & k & Hl & Hid & ->). cbn in Hl. pose proof (proj1 Hl) as Hk.
    assert (k = i) as -> by (by eapply (NoDup_rule_index (am_rules m))). naive_solver. }
  destruct Hcase as [Hc|[Hc|[Hc Hl]]]; [|done|].
  - rewrite Hc in *. apply held_since_cons; [|done]. apply Ht; [|done]. by eapply list_elem_of_lookup_2.
  - rewrite Hc. eexists [], _, h, r, _. split_and!; [done| |by apply Hal|by constructor].
    cbn. split; [done|]. by exists i.
Qed.

Lemma timers_true_run m ops :
  am_inv m -> am_rules m = [] -> timers_true (past m ops) (foldl am_exec m ops).
Proof.
  intros Hm H0. induction ops as [|op ops IH] using rev_ind.
  { unfold timers_true. cbn. rewrite H0. constructor. }
  rewrite past_snoc, foldl_snoc. apply timers_true_step; [by apply am_exec_inv|done].
Qed.

(** C16: No alarm without cause. Start from a new manager and run any calls and scans:
    an alarm that a further scan puts on the list belongs to a rule that is
    enabled and not suppressed in that scan, and the condition of the rule holds
    on the reading the alarm reports (for a high or low rule a good reading past
    the threshold, for a bad-quality rule a reading that is not good). It also
    held in an earlier scan, at least the delay of the rule before (64-bit
    difference of the clock), and in every scan in between that evaluated the
    rule, which are those where it was enabled and not suppressed. *)
Theorem raised_alarms_justified alloc config m0 ops reg clk junk now_ms a :
  alarm_manager_init alloc config = (WTC_OK, Some m0) ->
  let m := foldl am_exec m0 ops in
  let scan := OpProcess (Some reg) clk junk now_ms in
  a ∈ am_active_alarms (am_exec m scan) ->
  al_alarm_id a ∉ al_alarm_id <$> am_active_alarms m ->
  exists rule rd since id,
    a = fresh_alarm now_ms id rule (sd_value (snd rd)) /\ am_next_alarm_id m <= id /\
    evaluates (m, scan) (ar_rule_id rule) now_ms rule rd /\ alarming rule rd /\
    held_since (ar_rule_id rule) since (past m0 ops) /\
    ar_delay_ms rule <= (now_ms - since) mod 2 ^ 64.
Proof.
  intros Hinit m scan Ha Hnew. pose proof (init_inv _ _ _ Hinit) as H0.
  assert (am_rules m0 = []) as Hnil.
  { unfold alarm_manager_init in Hinit. repeat case_match; by simplify_eq/=. }
  destruct (new_alarm_raised reg clk junk now_ms m a (am_exec_inv _ _ H0) Ha Hnew)
    as (i & rule & id & (Hr & Hen & Hsup & Hmet & Hne & Hd) & Hid & ->).
  exists rule, (read_sensor reg clk junk i rule), (ar_condition_start_ms rule), id.
  split_and!; try done.
  - split; [done|]. exists i. done.
  - apply condition_met_alarming in Hmet. by destruct (read_sensor reg clk junk i rule).
  - pose proof (timers_true_run m0 ops H0 Hnil) as Ht. unfold timers_true in Ht.
    rewrite Forall_forall in Ht. apply Ht; [by eapply list_elem_of_lookup_2|done].
Qed.
End History.

(** ** The history ring *)

(** The history ring of capacity [N] holds exactly the last [min N k] of the [k]
    entries ever added: entry number [j] (counting from 0) is found at position
    [j mod N] as long as fewer than [N] entries follow it. *)
Theorem history_ring_last_n m (xs : list alarm) :
  0 < am_history_capacity m -> length (am_history m) = Z.to_nat (am_history_capacity m) ->
  am_history_count m = 0 -> am_history_write_pos m = 0 ->
  let m' := foldl add_to_history m xs in
  let N := am_history_capacity m in
  let k := Z.of_nat (length xs) in
  am_history_count m' = Z.min N k /\ am_history_write_pos m' = k mod N /\
  forall j x, xs !! j = Some x -> k - N <= Z.of_nat j ->
    am_history m' !! Z.to_nat (Z.of_nat j mod N) = Some x.
Proof.
  intros HN Hlen Hc Hw. cbn zeta.
  induction xs as [|y xs IH] using rev_ind.
  { cbn. rewrite Hc, Hw, Z.mod_0_l by lia. split_and!; [lia|done|intros j x [=]]. }
  rewrite foldl_snoc, length_app. cbn [length].
  assert (am_history_capacity (foldl add_to_history m xs) = am_history_capacity m /\
          length (am_history (foldl add_to_history m xs)) = length (am_history m)) as [Hcap Hlh].
  { clear. induction xs as [|y xs IH] using rev_ind; [done|]. rewrite foldl_snoc. cbn.
    by rewrite length_insert. }
  destruct IH as (IHc & IHw & IHl). set (m1 := foldl add_to_history m xs) in *.
  set (N := am_history_capacity m) in *. set (k := Z.of_nat (length xs)) in *.
  pose proof (Z.mod_pos_bound k N HN) as Hk.
  cbn [add_to_history am_history am_history_count am_history_write_pos set eta_alarm_manager].
  rewrite Hcap, IHc, IHw. fold N. split_and!.
  - destruct (Z.ltb_spec (Z.min N k) N); lia.
  - rewrite Zplus_mod_idemp_l. f_equal. lia.
  - intros j x Hj Hlast. apply lookup_app_Some in Hj as [Hj|[Hge Hj]].
    + assert (Z.of_nat j < k) by (apply lookup_lt_Some in Hj; lia).
      rewrite list_lookup_insert_ne; [apply IHl; [done|lia]|].
      intros Heq%Z2Nat.inj; [|lia|apply Z.mod_pos_bound; lia].
      assert ((k - Z.of_nat j) mod N = 0) as Hz.
      { rewrite Zminus_mod, Heq, Z.sub_diag. apply Z.mod_0_l. lia. }
      rewrite Z.mod_small in Hz; lia.
    + apply list_lookup_singleton_Some in Hj as [Hj ->].
      assert (Z.of_nat j = k) as -> by lia.
      apply list_lookup_insert_eq. rewrite Hlh, Hlen. fold N. lia.
Qed.

(** After acknowledging all, no alarm is unacknowledged and no other alarm or
    field but state, acknowledgement time and user has changed. *)
Theorem acknowledge_all_complete clk m user :
  let m' := snd (alarm_manager_acknowledge_all clk m user) in
  alarm_manager_get_unack_count m' = 0 /\
  am_active_alarms m' = imap (fun i a =>
    if unacked a then
      a <| al_state := match al_state a with
                       | ALARM_STATE_ACTIVE_UNACK => ALARM_STATE_ACTIVE_ACK
                       | _ => ALARM_STATE_CLEARED
                       end |>
        <| al_ack_time_ms := clk i |> <| al_ack_user := strncpy 63 user |>
    else a) (am_active_alarms m).
Proof.
  cbn zeta. split.
  - unfold alarm_manager_get_unack_count. cbn.
    rewrite filter_none; [done|]. apply Forall_lookup_2. intros i a Ha.
    rewrite list_lookup_imap in Ha. destruct (am_active_alarms m !! i) as [b|]; simplify_eq/=.
    unfold unacked, ack_alarm. destruct (al_state b) eqn:Hs; cbn; rewrite ?Hs; done.
  - apply imap_ext. intros i a _. unfold unacked, ack_alarm. by destruct (al_state a) eqn:Hs.
Qed.

(** ** A concrete plant *)

Module Demo.
Definition station : string := "rtu-tank-1".
Definition reg0 : registry :=
  snd (fst (rtu_registry_add_device (fun _ => true) 1 (rtu_registry_init false false false)
              station None None 0)).
(** Tank level 95 on slot 6, good quality. *)
Definition reg_high : registry :=
  snd (rtu_registry_update_sensor 500 reg0 station 6 (f32_of_Z 95) IOPS_GOOD QUALITY_GOOD).
Definition reg_normal : registry :=
  snd (rtu_registry_update_sensor 500 reg0 station 6 (f32_of_Z 50) IOPS_GOOD QUALITY_GOOD).
Definition clk (now : Z) : nat -> Z := fun _ => now.
Definition junk : nat -> sensor_data := fun _ => zero_sensor.
Definition mgr0 : alarm_manager :=
  match alarm_manager_init (fun _ => true)
          (Some (mk_alarm_manager_config 0 4 0 true true true true true)) with
  | (_, Some m) => m
  | (_, None) => mk_alarm_manager (mk_alarm_manager_config 0 0 0 false false false false false)
                   [] 1 [] 1 [] 0 1 0 [] [] 0 0 0 []
  end.
Definition mk_rule : am_op (R := registry) :=
  OpCreateRule station 6 ALARM_CONDITION_HIGH (f32_of_Z 90) ALARM_SEVERITY_HIGH 500 None.
Definition scan (r : registry) (now : Z) : am_op := OpProcess (Some r) (clk now) junk now.

Lemma mgr0_inv ops : am_inv (foldl am_exec mgr0 ops).
Proof.
  apply am_exec_inv.
  apply (init_inv (fun _ => true) (Some (mk_alarm_manager_config 0 4 0 true true true true true))).
  reflexivity.
Qed.

Definition armed : alarm_manager := foldl am_exec mgr0 [mk_rule; scan reg_high 1000].
Definition raised : alarm_manager := foldl am_exec armed [scan reg_high 2000].
Definition the_rule : alarm_rule := default (mk_alarm_rule 0 "" false "" 0 ALARM_CONDITION_LOW f0 0
  ALARM_SEVERITY_LOW "" "" "" 0 false "" "" 0 false 0) (am_rules armed !! 0%nat).

(** After the first scan the rule's timer runs; one second later it raises. *)
Lemma armed_live : live (clk 2000) armed 0 the_rule.
Proof. vm_compute. split_and!; reflexivity. Qed.

Lemma scan_follows_rule_table_witness :
  rule_table 2000 the_rule (read_sensor reg_high (clk 2000) junk 0 the_rule) 1 1000 None 1000
    (Some (fresh_alarm 2000 1 the_rule (f32_of_Z 95))) /\
  alarm_of_rule raised 1 = Some (fresh_alarm 2000 1 the_rule (f32_of_Z 95)).
Proof.
  destruct (scan_follows_rule_table reg_high (clk 2000) junk 2000 armed 0 the_rule
              (mgr0_inv _) armed_live ltac:(reflexivity) ltac:(vm_compute; lia)) as (id & t & Ht & Htab).
  assert (alarm_of_rule raised 1 = Some (fresh_alarm 2000 1 the_rule (f32_of_Z 95))) as Hr
    by (vm_compute; reflexivity).
  split; [|exact Hr].
  change (alarm_of_rule (snd (alarm_manager_process (Some reg_high) (clk 2000) junk 2000 armed))
            (ar_rule_id the_rule)) with (alarm_of_rule raised 1) in Htab.
  rewrite Hr in Htab.
  assert (t = 1000) as -> by (vm_compute in Ht; by injection Ht as <-).
  change (ar_condition_start_ms the_rule) with 1000 in Htab.
  change (alarm_of_rule armed (ar_rule_id the_rule)) with (@None alarm) in Htab.
  assert (id = 1) as -> by (inversion Htab; congruence). exact Htab.
Defined.

Lemma raised_alarms_justified_witness :
  exists rule since, held_since (ar_rule_id rule) since (past mgr0 [mk_rule; scan reg_high 1000]) /\
    ar_delay_ms rule <= (2000 - since) mod 2 ^ 64.
Proof.
  destruct (raised_alarms_justified (fun _ => true)
    (Some (mk_alarm_manager_config 0 4 0 true true true true true)) mgr0
    [mk_rule; scan reg_high 1000] reg_high (clk 2000) junk 2000
    (rule_alarm 2000 1 the_rule (f32_of_Z 95)))
    as (rule & rd & since & id & _ & _ & _ & _ & Hh & Hd).
  - reflexivity.
  - vm_compute. left.
  - vm_compute. intros Hin. inversion Hin.
  - exists rule, since. split; [exact Hh|exact Hd].
Defined.

(** A rule that is disabled (or suppressed) keeps its timer: when it is enabled
    again it raises at once, although in between the reading was normal. *)
Example stale_timer_raises_at_once :
  let m := foldl am_exec mgr0 [mk_rule; scan reg_high 1000; OpEnableRule 1 false;
    scan reg_normal 2000; scan reg_normal 3000; OpEnableRule 1 true; scan reg_high 4000] in
  al_raise_time_ms <$> am_active_alarms m = [4000].
Proof. vm_compute. reflexivity. Qed.

Lemma unacked_never_lost_witness :
  unacked_id 1 (am_active_alarms (foldl am_exec raised
    [scan reg_normal 3000; OpSuppress 3100 station 6 60000 None None; scan reg_normal 4000])).
Proof.
  apply unacked_never_lost.
  - exists (rule_alarm 2000 1 the_rule (f32_of_Z 95)). vm_compute. split_and!; [left|done..].
  - repeat (apply Forall_cons; split; [exact id|]). apply Forall_nil. exact I.
Defined.

Definition cleared_unacked : alarm_manager :=
  foldl am_exec raised [scan reg_normal 3000; scan reg_high 4000].
Definition the_rule2 : alarm_rule := default the_rule (am_rules cleared_unacked !! 0%nat).

Lemma cleared_unacked_inv : am_inv cleared_unacked.
Proof. unfold cleared_unacked, raised, armed. by do 3 apply am_exec_inv; apply (mgr0_inv []). Qed.

Lemma recurring_condition_not_reraised_witness :
  al_state <$> alarm_of_rule (snd (alarm_manager_process (Some reg_high) (clk 9000) junk 9000
     cleared_unacked)) 1 = Some ALARM_STATE_CLEARED_UNACK.
Proof.
  destruct (alarm_of_rule cleared_unacked 1) as [a|] eqn:Ha; [|vm_compute in Ha; discriminate Ha].
  pose proof (recurring_condition_not_reraised reg_high (clk 9000) junk 9000 cleared_unacked 0 the_rule2 a
    cleared_unacked_inv ltac:(vm_compute; split_and!; reflexivity)
    ltac:(vm_compute; split_and!; tauto) ltac:(vm_compute; lia) Ha
    ltac:(vm_compute in Ha; injection Ha as <-; reflexivity)) as Hres.
  change (ar_rule_id the_rule2) with 1 in Hres. rewrite Hres.
  vm_compute in Ha. injection Ha as <-. reflexivity.
Defined.

Definition disabled : alarm_manager :=
  foldl am_exec mgr0 [mk_rule; scan reg_high 1000; OpEnableRule 1 false].

Lemma inactive_rule_untouched_witness :
  alarm_of_rule (snd (alarm_manager_process (Some reg_high) (clk 9000) junk 9000 disabled)) 1 = None.
Proof.
  destruct (am_rules disabled !! 0%nat) as [r|] eqn:Hr; [|vm_compute in Hr; discriminate Hr].
  pose proof (proj2 (inactive_rule_untouched reg_high (clk 9000) junk 9000 disabled 0 r
    (mgr0_inv _) Hr ltac:(vm_compute in Hr; injection Hr as <-; left; reflexivity))) as Hres.
  assert (ar_rule_id r = 1) as Hid by (vm_compute in Hr; injection Hr as <-; reflexivity).
  rewrite Hid in Hres. rewrite Hres. vm_compute. reflexivity.
Defined.

Lemma alarm_manager_invariant_witness :
  am_inv (foldl am_exec mgr0 [mk_rule; scan reg_high 1000; scan reg_high 2000]).
Proof.
  apply (alarm_manager_invariant (fun _ => true)
    (Some (mk_alarm_manager_config 0 4 0 true true true true true))).
  reflexivity.
Defined.

Lemma history_ring_last_n_witness :
  let entry j := zero_alarm <| al_alarm_id := j |> in
  am_history (foldl add_to_history mgr0 (entry <$> [1; 2; 3; 4; 5; 6])) !! 1%nat = Some (entry 6).
Proof.
  pose proof (proj2 (proj2 (history_ring_last_n mgr0
    ((fun j => zero_alarm <| al_alarm_id := j |>) <$> [1; 2; 3; 4; 5; 6])
    ltac:(reflexivity) ltac:(reflexivity) ltac:(reflexivity) ltac:(reflexivity)))
    5%nat _ ltac:(reflexivity) ltac:(vm_compute; discriminate)) as Hres.
  exact Hres.
Defined.

(** Taking a rule out of service, or shelving its alarm, has no effect on the
    scan: the rule still raises its alarm, and a shelved alarm stays listed as
    unacknowledged after its shelving period, with the flag still set. *)
Theorem out_of_service_and_shelving_ignored :
  let m1 := foldl am_exec mgr0
    [mk_rule; OpSetOos 10 1 true (Some "maintenance") "op"; scan reg_high 1000; scan reg_high 2000] in
  let m2 := foldl am_exec m1 [OpShelve 2100 1 1000 None "op"; scan reg_high 50000] in
  (ar_out_of_service <$> am_rules m1 = [true]) /\
  (al_state <$> am_active_alarms m1 = [ALARM_STATE_ACTIVE_UNACK]) /\
  (al_shelved <$> am_active_alarms m2 = [true]) /\
  (al_shelve_end_time_ms <$> am_active_alarms m2 = [3100]) /\
  alarm_manager_get_unack_count m2 = 1.
Proof. vm_compute. split_and!; reflexivity. Qed.
End Demo.
