(* ===== verification/Pid.v ===== *)
(** * The PID algorithm of the control engine

    [calculate_pid] and [check_pid_watchdog] of [src/control/control_engine.c],
    the PWM conversion of its scan, and the mode switch with its bumpless
    transfer.  Arithmetic is IEEE binary32, operation by operation (Float32.v). *)

From Stdlib Require Import SpecFloat.
From S2P Require Import Prelude Float32 Types.

Definition WTC_MAX_PID_LOOPS : nat := 64.
Definition CONTROL_WATCHDOG_TIMEOUT_MS : Z := 5000.

Inductive pid_mode := PID_MODE_OFF | PID_MODE_MANUAL | PID_MODE_AUTO | PID_MODE_CASCADE.
#[export] Instance pid_mode_eq_dec : EqDecision pid_mode.
Proof. solve_decision. Defined.

(** [pid_loop_t] *)
Record pid_loop := mk_pid_loop {
  pl_loop_id : Z;
  pl_name : string;
  pl_enabled : bool;
  pl_input_rtu : string;
  pl_input_slot : Z;
  pl_output_rtu : string;
  pl_output_slot : Z;
  pl_kp : float32;
  pl_ki : float32;
  pl_kd : float32;
  pl_setpoint : float32;
  pl_output_min : float32;
  pl_output_max : float32;
  pl_deadband : float32;
  pl_integral_limit : float32;
  pl_derivative_filter : float32;
  pl_pv : float32;
  pl_cv : float32;
  pl_error : float32;
  pl_integral : float32;
  pl_derivative : float32;
  pl_last_error : float32;
  pl_mode : pid_mode;
  pl_last_update_ms : Z }.

#[export] Instance eta_pid_loop : Eta pid_loop := fun r =>
  mk_pid_loop (pl_loop_id r) (pl_name r) (pl_enabled r) (pl_input_rtu r) (pl_input_slot r)
    (pl_output_rtu r) (pl_output_slot r) (pl_kp r) (pl_ki r) (pl_kd r) (pl_setpoint r)
    (pl_output_min r) (pl_output_max r) (pl_deadband r) (pl_integral_limit r)
    (pl_derivative_filter r) (pl_pv r) (pl_cv r) (pl_error r) (pl_integral r)
    (pl_derivative r) (pl_last_error r) (pl_mode r) (pl_last_update_ms r).

(** ** [calculate_pid] *)

(** [float dt = dt_ms / 1000.0f; if (dt <= 0) dt = 0.001f;] *)
Definition pid_dt (dt_ms : float32) : float32 :=
  let dt := fdiv dt_ms (f32_of_Z 1000) in
  if fle dt f0 then f32_lit 1 1000 else dt.

(** The error after the deadband. *)
Definition pid_error (loop : pid_loop) (pv : float32) : float32 :=
  let error := fsub (pl_setpoint loop) pv in
  if flt (fabsf error) (pl_deadband loop) then f0 else error.

(** [loop->ki * error * dt] *)
Definition integral_step (loop : pid_loop) (error dt : float32) : float32 :=
  fmul (fmul (pl_ki loop) error) dt.

(** The accumulated integral, limited. *)
Definition pid_integral (loop : pid_loop) (error dt : float32) : float32 :=
  let i := fadd (pl_integral loop) (integral_step loop error dt) in
  if fgt (pl_integral_limit loop) f0 then
    if fgt i (pl_integral_limit loop) then pl_integral_limit loop
    else if flt i (fopp (pl_integral_limit loop)) then fopp (pl_integral_limit loop)
    else i
  else i.

(** The filtered derivative. *)
Definition pid_derivative (loop : pid_loop) (error dt : float32) : float32 :=
  let derivative := fdiv (fsub error (pl_last_error loop)) dt in
  if fgt (pl_derivative_filter loop) f0 then
    fadd (fmul (pl_derivative loop) (pl_derivative_filter loop))
         (fmul derivative (fsub f1 (pl_derivative_filter loop)))
  else derivative.

(** The output clamp with its anti-windup correction: the new integral and the
    output. *)
Definition pid_clamp (loop : pid_loop) (error dt integral output : float32)
    : float32 * float32 :=
  if fgt output (pl_output_max loop) then
    (if fgt error f0 then fsub integral (integral_step loop error dt) else integral,
     pl_output_max loop)
  else if flt output (pl_output_min loop) then
    (if flt error f0 then fsub integral (integral_step loop error dt) else integral,
     pl_output_min loop)
  else (integral, output).

Definition calculate_pid (loop : pid_loop) (pv dt_ms : float32) : pid_loop * float32 :=
  match pl_mode loop with
  | PID_MODE_OFF => (loop, f0)
  | PID_MODE_MANUAL => (loop, pl_cv loop)
  | PID_MODE_AUTO | PID_MODE_CASCADE =>
      let dt := pid_dt dt_ms in
      let error := pid_error loop pv in
      let p_term := fmul (pl_kp loop) error in
      let i_term := pid_integral loop error dt in
      let derivative := pid_derivative loop error dt in
      let d_term := fmul (pl_kd loop) derivative in
      let output := fadd (fadd p_term i_term) d_term in
      let '(integral, output) := pid_clamp loop error dt i_term output in
      (loop <| pl_integral := integral |> <| pl_derivative := derivative |>
            <| pl_last_error := error |> <| pl_error := error |>
            <| pl_pv := pv |> <| pl_cv := output |>,
       output)
  end.

(** [check_pid_watchdog] on the loop's entry [start] of the static array
    [at_limit_start]; [now] is the one clock reading it makes.  Returns whether it
    fires and the entry's new value. *)
Definition check_pid_watchdog (now start : Z) (loop : pid_loop) (output : float32)
    : bool * Z :=
  let at_limit := fge output (pl_output_max loop) || fle output (pl_output_min loop) in
  if at_limit then
    if start =? 0 then (false, now)
    else (CONTROL_WATCHDOG_TIMEOUT_MS <? u64_sub now start, start)
  else (false, 0).

(** [(uint8_t)x]: undefined outside the range of the type, where [ub] stands for
    whatever the compiled code yields. *)
Definition cast_u8 (ub : float32 -> Z) (x : float32) : Z := default (ub x) (f32_to_u8 x).

(** The actuator command written for a PID output. *)
Definition drive_output (ub : float32 -> Z) (output : float32) : actuator_output :=
  if fgt output (f32_lit 1 2) then mk_actuator_output ACTUATOR_CMD_PWM (cast_u8 ub output) 0 0
  else if fgt output f0 then mk_actuator_output ACTUATOR_CMD_ON 0 0 0
  else mk_actuator_output ACTUATOR_CMD_OFF 0 0 0.

(** The mode switch of [control_engine_set_pid_mode]. *)
Definition switch_mode (mode : pid_mode) (loop : pid_loop) : pid_loop :=
  (if decide (pl_mode loop = PID_MODE_MANUAL /\ mode = PID_MODE_AUTO) then
     loop <| pl_integral := pl_cv loop |> <| pl_last_error := f0 |>
   else loop) <| pl_mode := mode |>.

(** ** Lemmas *)

Definition automatic (loop : pid_loop) : Prop :=
  pl_mode loop = PID_MODE_AUTO \/ pl_mode loop = PID_MODE_CASCADE.

Lemma calculate_pid_automatic loop pv dt_ms :
  automatic loop ->
  let dt := pid_dt dt_ms in
  let error := pid_error loop pv in
  let i_term := pid_integral loop error dt in
  let derivative := pid_derivative loop error dt in
  let raw := fadd (fadd (fmul (pl_kp loop) error) i_term) (fmul (pl_kd loop) derivative) in
  let c := pid_clamp loop error dt i_term raw in
  calculate_pid loop pv dt_ms =
  (loop <| pl_integral := c.1 |> <| pl_derivative := derivative |>
        <| pl_last_error := error |> <| pl_error := error |>
        <| pl_pv := pv |> <| pl_cv := c.2 |>, c.2).
Proof.
  unfold calculate_pid. intros [-> | ->]; cbv zeta; by destruct (pid_clamp _ _ _ _ _).
Qed.

(** What the algorithm never touches. *)
Lemma calculate_pid_config loop pv dt_ms :
  let loop' := (calculate_pid loop pv dt_ms).1 in
  pl_loop_id loop' = pl_loop_id loop /\ pl_mode loop' = pl_mode loop /\
  pl_enabled loop' = pl_enabled loop /\
  pl_output_min loop' = pl_output_min loop /\ pl_output_max loop' = pl_output_max loop /\
  pl_input_rtu loop' = pl_input_rtu loop /\ pl_input_slot loop' = pl_input_slot loop /\
  pl_output_rtu loop' = pl_output_rtu loop /\ pl_output_slot loop' = pl_output_slot loop /\
  pl_last_update_ms loop' = pl_last_update_ms loop.
Proof.
  unfold calculate_pid. destruct (pl_mode loop) eqn:Hm; cbv zeta;
    try destruct (pid_clamp _ _ _ _ _); cbn; split_and!; congruence.
Qed.

Lemma pid_clamp_range loop error dt i out :
  fle (pl_output_min loop) (pl_output_max loop) = true -> is_nan out = false ->
  let o := (pid_clamp loop error dt i out).2 in
  fle (pl_output_min loop) o = true /\ fle o (pl_output_max loop) = true.
Proof.
  intros Hmm Hn. pose proof Hmm as (Hmin & Hmax & _)%fle_spec. unfold pid_clamp, fgt.
  destruct (flt (pl_output_max loop) out) eqn:E1;
    [|destruct (flt out (pl_output_min loop)) eqn:E2]; cbn [snd fst]; split; auto with wtc;
    apply flt_false; assumption.
Qed.

(** ** NaN propagation *)

Lemma fadd_nan_l x y : is_nan x = true -> is_nan (fadd x y) = true.
Proof. by destruct x. Qed.
Lemma fadd_nan_r x y : is_nan y = true -> is_nan (fadd x y) = true.
Proof. destruct y; [done..| |done]. by destruct x. Qed.
Lemma fsub_nan_l x y : is_nan x = true -> is_nan (fsub x y) = true.
Proof. by destruct x. Qed.
Lemma fsub_nan_r x y : is_nan y = true -> is_nan (fsub x y) = true.
Proof. destruct y; [done..| |done]. by destruct x. Qed.
Lemma fmul_nan_l x y : is_nan x = true -> is_nan (fmul x y) = true.
Proof. by destruct x. Qed.
Lemma fmul_nan_r x y : is_nan y = true -> is_nan (fmul x y) = true.
Proof. destruct y; [done..| |done]. by destruct x. Qed.
#[export] Hint Resolve fadd_nan_l fadd_nan_r fsub_nan_l fsub_nan_r fmul_nan_l fmul_nan_r : wtc.

Lemma fabsf_nan x : is_nan (fabsf x) = is_nan x.
Proof. by destruct x. Qed.

Lemma pid_integral_nan loop error dt :
  is_nan (pl_integral loop) = true \/ is_nan error = true ->
  is_nan (pid_integral loop error dt) = true.
Proof.
  intros H. unfold pid_integral.
  assert (is_nan (fadd (pl_integral loop) (integral_step loop error dt)) = true) as Hi.
  { unfold integral_step. destruct H; auto 6 with wtc. }
  unfold fgt. rewrite !(flt_nan_r _ _ Hi), !(flt_nan_l _ _ Hi). by destruct (flt _ _).
Qed.

Lemma pid_error_nan loop pv : is_nan pv = true -> is_nan (pid_error loop pv) = true.
Proof.
  intros H. unfold pid_error. rewrite flt_nan_l; auto with wtc.
  rewrite fabsf_nan. auto with wtc.
Qed.

Lemma pid_clamp_nan loop error dt i out :
  is_nan out = true -> pid_clamp loop error dt i out = (i, out).
Proof.
  intros H. unfold pid_clamp, fgt. by rewrite (flt_nan_r _ _ H), (flt_nan_l _ _ H).
Qed.

(** A poisoned integral, or a NaN reading, gives a NaN output and a NaN integral. *)
Lemma calculate_pid_nan loop pv dt_ms :
  automatic loop -> is_nan (pl_integral loop) = true \/ is_nan pv = true ->
  let '(loop', o) := calculate_pid loop pv dt_ms in
  is_nan o = true /\ is_nan (pl_integral loop') = true /\ is_nan (pl_cv loop') = true.
Proof.
  intros Ha H. rewrite calculate_pid_automatic by done.
  assert (is_nan (pid_integral loop (pid_error loop pv) (pid_dt dt_ms)) = true) as Hi.
  { apply pid_integral_nan. destruct H; auto using pid_error_nan. }
  rewrite pid_clamp_nan by auto with wtc. cbn. auto with wtc.
Qed.

Lemma drive_output_nan ub x : is_nan x = true -> drive_output ub x = zero_output.
Proof. intros H. unfold drive_output, fgt. by rewrite !flt_nan_r by done. Qed.

(** ** Signed zeros

    [same x y]: equal as C compares them, i.e. identical or both zeros. *)
Definition is_zero (x : float32) : bool := match x with S754_zero _ => true | _ => false end.
Definition same (x y : float32) : Prop := x = y \/ (is_zero x = true /\ is_zero y = true).

#[export] Instance same_equivalence : Equivalence same.
Proof.
  split; unfold same.
  - by left.
  - intros x y. naive_solver.
  - intros x y z. naive_solver.
Qed.

#[export] Instance flt_proper : Proper (same ==> same ==> eq) flt.
Proof.
  intros x x' [-> | [Hx Hx']] y y' [-> | [Hy Hy']]; try done;
    repeat match goal with
           | H : is_zero ?z = true |- _ => destruct z; try discriminate H; clear H
           end; done.
Qed.

Lemma fadd_zero_r x s : is_finite x = true -> same (fadd x (S754_zero s)) x.
Proof.
  destruct x as [t| | |t m e]; intros Hx; try discriminate Hx; [|by left].
  right. by destruct s, t.
Qed.
Lemma fadd_zero_l x s : is_finite x = true -> same (fadd (S754_zero s) x) x.
Proof.
  destruct x as [t| | |t m e]; intros Hx; try discriminate Hx; [|by left].
  right. by destruct s, t.
Qed.
Lemma fmul_zero_r x s : is_finite x = true -> exists t, fmul x (S754_zero s) = S754_zero t.
Proof. destruct x; intros Hx; try discriminate Hx; cbn; eauto. Qed.
Lemma fmul_zero_l x s : is_finite x = true -> exists t, fmul (S754_zero s) x = S754_zero t.
Proof. destruct x; intros Hx; try discriminate Hx; cbn; eauto. Qed.

Lemma same_finite x y : same x y -> is_finite y = true -> is_finite x = true.
Proof. intros [-> | [Hx Hy]]; [done|]. by destruct x. Qed.

Lemma same_feq x y : same x y -> is_nan y = false -> feq x y = true.
Proof.
  intros [-> | [Hx Hy]] Hn; unfold feq, SpecFloat.SFeqb.
  - destruct y as [|[]| |[] m e]; try done; cbn; rewrite Z.compare_refl;
      by rewrite Pos.compare_cont_refl.
  - by destruct x, y.
Qed.

(** The time step never is zero. *)
Lemma pid_dt_nonzero dt_ms :
  is_finite (pid_dt dt_ms) = true -> exists s m e, pid_dt dt_ms = S754_finite s m e.
Proof.
  unfold pid_dt. destruct (fle (fdiv dt_ms (f32_of_Z 1000)) f0) eqn:E; [vm_compute; eauto|].
  destruct (fdiv dt_ms (f32_of_Z 1000)); try done; eauto.
Qed.

(** Inside the deadband, with the integral at [cv] and no derivative memory, the
    three terms sum to [cv]. *)
Lemma pid_terms_at_rest loop dt s m e :
  dt = S754_finite s m e ->
  is_finite (pl_kp loop) = true -> is_finite (pl_ki loop) = true ->
  is_finite (pl_kd loop) = true -> is_finite (pl_integral loop) = true ->
  pl_last_error loop = f0 -> fgt (pl_derivative_filter loop) f0 = false ->
  (fgt (pl_integral_limit loop) f0 = true ->
   fle (pl_integral loop) (pl_integral_limit loop) = true /\
   fle (fopp (pl_integral_limit loop)) (pl_integral loop) = true) ->
  same (fadd (fadd (fmul (pl_kp loop) f0) (pid_integral loop f0 dt))
             (fmul (pl_kd loop) (pid_derivative loop f0 dt))) (pl_integral loop).
Proof.
  intros Hdt Hkp Hki Hkd Hi Hle Hdf Hlim.
  assert (same (pid_integral loop f0 dt) (pl_integral loop)) as Hint.
  { unfold pid_integral, integral_step.
    destruct (fmul_zero_r (pl_ki loop) false Hki) as [t1 Ht1]. fold f0 in Ht1. rewrite Ht1.
    destruct (fmul_zero_l dt t1) as [t2 Ht2]; [by rewrite Hdt|]. rewrite Ht2.
    pose proof (fadd_zero_r (pl_integral loop) t2 Hi) as Hs.
    destruct (fgt (pl_integral_limit loop) f0) eqn:E; [|done]. destruct (Hlim eq_refl) as [H1 H2]. unfold fgt.
    rewrite !Hs, (fle_not_flt _ _ H1), (fle_not_flt _ _ H2). done. }
  assert (exists t, fmul (pl_kd loop) (pid_derivative loop f0 dt) = S754_zero t) as [t3 ->].
  { unfold pid_derivative. rewrite Hdf, Hle, Hdt. by apply fmul_zero_r. }
  destruct (fmul_zero_r (pl_kp loop) false Hkp) as [t4 Ht4]. fold f0 in Ht4. rewrite Ht4.
  assert (is_finite (pid_integral loop f0 dt) = true) as Hif by (by eapply same_finite).
  pose proof (fadd_zero_l _ t4 Hif) as Hs.
  rewrite (fadd_zero_r _ t3) by (by eapply same_finite). by rewrite Hs.
Qed.

(** ** Theorems *)

(** C8: In automatic mode, with ordered limits, the output (which is also stored as
    the loop's [cv]) lies within [output_min, output_max] unless it is NaN, and
    then the actuator is commanded off; with limits inside 0..255 the PWM duty is
    the truncated output, whatever the compiler makes of an out-of-range cast. *)
Theorem pid_output_in_range loop pv dt_ms ub :
  automatic loop -> fle (pl_output_min loop) (pl_output_max loop) = true ->
  let '(loop', o) := calculate_pid loop pv dt_ms in
  pl_cv loop' = o /\
  (is_nan o = true /\ drive_output ub o = zero_output \/
   fle (pl_output_min loop) o = true /\ fle o (pl_output_max loop) = true /\
   (fle f0 (pl_output_min loop) = true -> fle (pl_output_max loop) (f32_of_Z 255) = true ->
    valid32 o = true ->
    exists z, f32_to_u8 o = Some z /\ is_u8 z /\
      drive_output ub o =
        if fgt o (f32_lit 1 2) then mk_actuator_output ACTUATOR_CMD_PWM z 0 0
        else mk_actuator_output (if fgt o f0 then ACTUATOR_CMD_ON else ACTUATOR_CMD_OFF) 0 0 0)).
Proof.
  intros Ha Hmm. rewrite calculate_pid_automatic by done. split; [done|].
  set (raw := fadd _ _). destruct (is_nan raw) eqn:Hn.
  - left. rewrite pid_clamp_nan by done. auto using drive_output_nan.
  - right. destruct (pid_clamp_range loop (pid_error loop pv) (pid_dt dt_ms)
      (pid_integral loop (pid_error loop pv) (pid_dt dt_ms)) raw Hmm Hn) as [H1 H2].
    split_and!; [done..|]. intros H0 H255 Hv.
    destruct (f32_to_u8_defined _ Hv (fle_trans _ _ _ H0 H1) (fle_trans _ _ _ H2 H255))
      as [z Hz].
    exists z. split_and!; [done|by eapply f32_to_u8_range|].
    unfold drive_output, cast_u8. rewrite Hz. by repeat destruct (fgt _ _).
Qed.

(** Bumpless transfer: switching a loop from manual to automatic with the error
    inside the deadband and no derivative filter leaves the first automatic output
    equal to the manual one, for finite gains and an output inside the limits. *)
Theorem bumpless_transfer loop pv dt_ms :
  pl_mode loop = PID_MODE_MANUAL ->
  flt (fabsf (fsub (pl_setpoint loop) pv)) (pl_deadband loop) = true ->
  is_finite (pl_kp loop) = true -> is_finite (pl_ki loop) = true ->
  is_finite (pl_kd loop) = true -> is_finite (pl_cv loop) = true ->
  is_finite (pid_dt dt_ms) = true ->
  fgt (pl_derivative_filter loop) f0 = false ->
  (fgt (pl_integral_limit loop) f0 = true ->
   fle (pl_cv loop) (pl_integral_limit loop) = true /\
   fle (fopp (pl_integral_limit loop)) (pl_cv loop) = true) ->
  fle (pl_output_min loop) (pl_cv loop) = true ->
  fle (pl_cv loop) (pl_output_max loop) = true ->
  feq (calculate_pid (switch_mode PID_MODE_AUTO loop) pv dt_ms).2
      (calculate_pid loop pv dt_ms).2 = true.
Proof.
  intros Hm Hdb Hkp Hki Hkd Hcv Hdt Hdf Hlim Hmin Hmax.
  assert ((calculate_pid loop pv dt_ms).2 = pl_cv loop) as ->
    by (unfold calculate_pid; by rewrite Hm).
  unfold switch_mode. rewrite decide_True by done.
  set (l := (loop <| pl_integral := _ |> <| pl_last_error := _ |>) <| pl_mode := _ |>).
  rewrite (calculate_pid_automatic l) by (by left).
  assert (pid_error l pv = f0) as -> by (unfold pid_error; cbn -[flt]; by rewrite Hdb).
  destruct (pid_dt_nonzero dt_ms Hdt) as (s & m & e & Hd).
  pose proof (pid_terms_at_rest l (pid_dt dt_ms) s m e Hd Hkp Hki Hkd Hcv eq_refl Hdf Hlim)
    as Hraw.
  cbn [snd]. set (raw := fadd _ _) in *. change (pl_integral l) with (pl_cv loop) in Hraw.
  unfold pid_clamp, fgt.
  change (pl_output_min l) with (pl_output_min loop).
  change (pl_output_max l) with (pl_output_max loop).
  rewrite !Hraw, (fle_not_flt _ _ Hmin), (fle_not_flt _ _ Hmax). cbn [snd].
  apply same_feq; [done|]. by apply fle_spec in Hmin as (_ & ? & _).
Qed.

(** While the output is not saturated, the integral stays within its limit. *)
Theorem integral_within_limit loop pv dt_ms :
  automatic loop -> fgt (pl_integral_limit loop) f0 = true ->
  let '(loop', o) := calculate_pid loop pv dt_ms in
  flt (pl_output_min loop) o = true -> flt o (pl_output_max loop) = true ->
  fle (fopp (pl_integral_limit loop)) (pl_integral loop') = true /\
  fle (pl_integral loop') (pl_integral_limit loop) = true.
Proof.
  intros Ha Hl. rewrite calculate_pid_automatic by done.
  set (dt := pid_dt dt_ms). set (err := pid_error loop pv). set (raw := fadd _ _).
  intros Hmin Hmax. cbn. unfold pid_clamp, fgt in *.
  pose proof Hl as (_ & Hln & Hlr)%flt_spec.
  assert (fle (fopp (pl_integral_limit loop)) (pl_integral_limit loop) = true) as Hll.
  { destruct (pl_integral_limit loop) as [|[]| |[] m e]; cbn in Hlr |- *; try done; lia. }
  destruct (flt (pl_output_max loop) raw) eqn:E1.
  { cbn in Hmax. by rewrite (fle_not_flt (pl_output_max loop) (pl_output_max loop)) in Hmax
      by (apply flt_spec in Hmax as (?&?&?); by apply fle_refl). }
  destruct (flt raw (pl_output_min loop)) eqn:E2.
  { cbn in Hmin. by rewrite (fle_not_flt (pl_output_min loop) (pl_output_min loop)) in Hmin
      by (apply flt_spec in Hmin as (?&?&?); by apply fle_refl). }
  cbn in Hmin |- *.
  assert (is_nan (pid_integral loop err dt) = false) as Hni.
  { apply flt_spec in Hmin as (_ & Hn & _). destruct (is_nan (pid_integral _ _ _)) eqn:E; [|done].
    unfold raw in Hn. rewrite fadd_nan_l in Hn; [done|]. by apply fadd_nan_r. }
  revert Hni. unfold pid_integral, fgt. rewrite Hl.
  assert (is_nan (fopp (pl_integral_limit loop)) = false) by (by destruct (pl_integral_limit loop)).
  repeat (split_if; auto with wtc). intros Hni. auto using flt_false.
Qed.

Module PidDemo.
Definition loop0 : pid_loop :=
  mk_pid_loop 1 "pH" true "rtu" 1 "rtu" 2 (f32_of_Z 2) (f32_of_Z 1) f0 (f32_of_Z 7)
    f0 (f32_of_Z 100) (f32_lit 1 10) (f32_of_Z 50) f0 f0 (f32_of_Z 40) f0 f0 f0 f0
    PID_MODE_AUTO 0.

Lemma pid_output_in_range_witness :
  drive_output (fun _ => 0) (calculate_pid loop0 (f32_of_Z 3) (f32_of_Z 100)).2
  = mk_actuator_output ACTUATOR_CMD_PWM 8 0 0.
Proof.
  pose proof (pid_output_in_range loop0 (f32_of_Z 3) (f32_of_Z 100) (fun _ => 0)
    (or_introl eq_refl) ltac:(reflexivity)) as H.
  destruct (calculate_pid loop0 (f32_of_Z 3) (f32_of_Z 100)) as [l o] eqn:E.
  vm_compute in E. injection E as <- <-. destruct H as [_ [[H _]|(_ & _ & H)]];
    [discriminate H|]. reflexivity.
Defined.

Lemma bumpless_transfer_witness :
  let m := loop0 <| pl_mode := PID_MODE_MANUAL |> in
  feq (calculate_pid (switch_mode PID_MODE_AUTO m) (f32_of_Z 7) (f32_of_Z 100)).2
      (calculate_pid m (f32_of_Z 7) (f32_of_Z 100)).2 = true.
Proof.
  apply (bumpless_transfer (loop0 <| pl_mode := PID_MODE_MANUAL |>) (f32_of_Z 7) (f32_of_Z 100));
    try reflexivity. intros _. split; reflexivity.
Defined.

Lemma integral_within_limit_witness :
  fle (pl_integral (calculate_pid loop0 (f32_of_Z 3) (f32_of_Z 100)).1) (f32_of_Z 50) = true.
Proof.
  pose proof (integral_within_limit loop0 (f32_of_Z 3) (f32_of_Z 100)
    (or_introl eq_refl) ltac:(reflexivity)) as H.
  destruct (calculate_pid loop0 (f32_of_Z 3) (f32_of_Z 100)) as [l o] eqn:E.
  vm_compute in E. injection E as <- <-. apply H; reflexivity.
Defined.

(** The anti-windup correction can push the integral far outside its limit: with
    a limit of 50 and an error of 1000 over one second the saturated loop's
    integral becomes 50 - 1000. *)
Theorem anti_windup_leaves_limit :
  let loop := loop0 <| pl_setpoint := f32_of_Z 1000 |> in
  let '(loop', o) := calculate_pid loop f0 (f32_of_Z 1000) in
  o = f32_of_Z 100 /\ pl_integral_limit loop' = f32_of_Z 50 /\
  pl_integral loop' = f32_of_Z (-950).
Proof. vm_compute. split_and!; reflexivity. Qed.
End PidDemo.
