(* ===== verification/ControlEngine.v ===== *)
(** * Control engine: interlocks, PID loops and the scan

    Model of [src/control/control_engine.c].  The PID algorithm itself is in Pid.v.
    The engine works against the registry interface [RegistryOps]; its theorems
    use only [RegistryLaws], which Registry.v discharges.

    A scan reads the clock many times: [now_ms] is the reading a pass keeps,
    [clk] numbers the other ones.  [junk k] is the content of the uninitialised
    [sensor_data_t] on the stack when the [k]-th sensor is read, and [ub] the
    result of an out-of-range float to [uint8_t] conversion.  The static array
    [at_limit_start] of [check_pid_watchdog] is a field (one engine runs). *)

From S2P Require Import Prelude Float32 Types Pid.

Definition COMM_LOSS_TIMEOUT_MS : Z := 10000.
Definition WTC_MAX_INTERLOCKS : nat := 128.
Definition MAX_FORCED : nat := 128.

Inductive interlock_condition :=
| INTERLOCK_CONDITION_ABOVE | INTERLOCK_CONDITION_BELOW
| INTERLOCK_CONDITION_EQUAL | INTERLOCK_CONDITION_NOT_EQUAL.

Inductive interlock_action :=
| INTERLOCK_ACTION_ALARM_ONLY | INTERLOCK_ACTION_FORCE_OFF
| INTERLOCK_ACTION_FORCE_ON | INTERLOCK_ACTION_SET_VALUE.
#[export] Instance interlock_action_eq_dec : EqDecision interlock_action.
Proof. solve_decision. Defined.

(** [interlock_t] *)
Record interlock := mk_interlock {
  il_interlock_id : Z;
  il_name : string;
  il_enabled : bool;
  il_condition_rtu : string;
  il_condition_slot : Z;
  il_condition : interlock_condition;
  il_threshold : float32;
  il_delay_ms : Z;
  il_action_rtu : string;
  il_action_slot : Z;
  il_action : interlock_action;
  il_action_value : float32;
  il_tripped : bool;
  il_trip_time_ms : Z;
  il_condition_start_ms : Z }.

Record forced_output := mk_forced_output {
  fo_station_name : string;
  fo_slot : Z;
  fo_output : actuator_output }.

Inductive control_event := EvPidOutput (loop_id : Z) (output : float32) | EvInterlockTrip (id : Z).

(** [struct control_engine] without thread, mutex and registry pointer; the
    configuration's callbacks as "is set"; [ce_trace] is the callbacks made. *)
Record control_engine := mk_control_engine {
  ce_scan_rate_ms : Z;
  ce_on_pid_output : bool;
  ce_on_interlock_trip : bool;
  ce_pid_loops : list pid_loop;
  ce_next_pid_id : Z;
  ce_interlocks : list interlock;
  ce_next_interlock_id : Z;
  ce_forced_outputs : list forced_output;
  ce_last_scan_time_ms : Z;
  ce_watchdog_tripped : bool;
  ce_last_input_time_ms : list Z;
  ce_comm_loss : list bool;
  ce_at_limit_start : list Z;
  ce_tripped_interlocks : Z;
  ce_trace : list control_event }.

#[export] Instance eta_interlock : Eta interlock := fun r =>
  mk_interlock (il_interlock_id r) (il_name r) (il_enabled r) (il_condition_rtu r)
    (il_condition_slot r) (il_condition r) (il_threshold r) (il_delay_ms r) (il_action_rtu r)
    (il_action_slot r) (il_action r) (il_action_value r) (il_tripped r) (il_trip_time_ms r)
    (il_condition_start_ms r).
#[export] Instance eta_forced_output : Eta forced_output := fun r =>
  mk_forced_output (fo_station_name r) (fo_slot r) (fo_output r).
#[export] Instance eta_control_engine : Eta control_engine := fun r =>
  mk_control_engine (ce_scan_rate_ms r) (ce_on_pid_output r) (ce_on_interlock_trip r)
    (ce_pid_loops r) (ce_next_pid_id r) (ce_interlocks r) (ce_next_interlock_id r)
    (ce_forced_outputs r) (ce_last_scan_time_ms r) (ce_watchdog_tripped r)
    (ce_last_input_time_ms r) (ce_comm_loss r) (ce_at_limit_start r)
    (ce_tripped_interlocks r) (ce_trace r).

(** [control_engine_init] (the allocation succeeding): scan rate and which callbacks
    are set, from the configuration. *)
Definition control_engine_init (scan_rate : Z) (on_pid on_trip : bool) : control_engine :=
  mk_control_engine (if scan_rate =? 0 then 100 else scan_rate) on_pid on_trip
    [] 1 [] 1 [] 0 false
    (replicate WTC_MAX_PID_LOOPS 0) (replicate WTC_MAX_PID_LOOPS false)
    (replicate WTC_MAX_PID_LOOPS 0) 0 [].

Definition input_good (res : wtc_result) (s : sensor_data) : bool :=
  bool_decide (res = WTC_OK) && bool_decide (sd_status s = IOPS_GOOD).

(** ** PID pass *)

(** What index [i] holds across the engine's per-loop arrays. *)
Record pid_slot := mk_pid_slot {
  ps_loop : pid_loop;
  ps_last_input : Z;
  ps_comm_loss : bool;
  ps_at_limit : Z }.
#[export] Instance eta_pid_slot : Eta pid_slot := fun r =>
  mk_pid_slot (ps_loop r) (ps_last_input r) (ps_comm_loss r) (ps_at_limit r).

Inductive pid_outcome :=
| PidSkip                                    (* disabled or off *)
| PidSafe                                    (* communication lost: write OFF *)
| PidHold                                    (* input fault: leave the output *)
| PidDrive (output : float32) (tripped : bool).

(** The body of the loop in [process_pid_loops] up to the actuator write. *)
Definition pid_step (now_ms wd_now : Z) (res : wtc_result) (sensor : sensor_data)
    (s : pid_slot) : pid_slot * pid_outcome :=
  let loop := ps_loop s in
  if negb (pl_enabled loop) || bool_decide (pl_mode loop = PID_MODE_OFF) then (s, PidSkip)
  else if input_good res sensor then
    let dt_ms := if 0 <? pl_last_update_ms loop
                 then u64_sub now_ms (pl_last_update_ms loop) else 100 in
    let loop := loop <| pl_last_update_ms := now_ms |> in
    let '(loop, output) := calculate_pid loop (sd_value sensor) (f32_of_Z dt_ms) in
    let '(tripped, at_limit) := check_pid_watchdog wd_now (ps_at_limit s) loop output in
    let output := if tripped
                  then fdiv (fadd (pl_output_max loop) (pl_output_min loop)) (f32_of_Z 2)
                  else output in
    (mk_pid_slot loop now_ms false at_limit, PidDrive output tripped)
  else if (0 <? ps_last_input s) &&
          (COMM_LOSS_TIMEOUT_MS <? u64_sub now_ms (ps_last_input s)) then
    (s <| ps_comm_loss := true |>, PidSafe)
  else (s, PidHold).

Definition get_slot (e : control_engine) (i : nat) (loop : pid_loop) : pid_slot :=
  mk_pid_slot loop (default 0 (ce_last_input_time_ms e !! i))
    (default false (ce_comm_loss e !! i)) (default 0 (ce_at_limit_start e !! i)).

Definition put_slot (i : nat) (s : pid_slot) (e : control_engine) : control_engine :=
  e <| ce_pid_loops ::= <[i := ps_loop s]> |>
    <| ce_last_input_time_ms ::= <[i := ps_last_input s]> |>
    <| ce_comm_loss ::= <[i := ps_comm_loss s]> |>
    <| ce_at_limit_start ::= <[i := ps_at_limit s]> |>.

Definition emit_event (enabled : bool) (ev : control_event) (e : control_engine) : control_engine :=
  if enabled then e <| ce_trace ::= fun t => t ++ [ev] |> else e.

Section Scan.
Context {R : Type} `{RegistryOps R}.
Context (clk : nat -> Z) (junk : nat -> sensor_data) (ub : float32 -> Z).

(** One iteration of [process_pid_loops]. *)
Definition process_pid_loop (now_ms : Z) (st : control_engine * R) (i : nat)
    : control_engine * R :=
  let '(e, reg) := st in
  match ce_pid_loops e !! i with
  | None => (e, reg)
  | Some loop =>
      let '(res, sensor) := reg_get_sensor reg (clk (3 * i)) (pl_input_rtu loop)
                              (pl_input_slot loop) (junk i) in
      let '(s, outcome) := pid_step now_ms (clk (3 * i + 1)) res sensor (get_slot e i loop) in
      let e := put_slot i s e in
      let write o := snd (reg_update_actuator reg (clk (3 * i + 2)) (pl_output_rtu loop)
                            (pl_output_slot loop) o) in
      match outcome with
      | PidSkip | PidHold => (e, reg)
      | PidSafe => (e, write zero_output)
      | PidDrive output tripped =>
          (emit_event (ce_on_pid_output e) (EvPidOutput (pl_loop_id loop) output)
             (e <| ce_watchdog_tripped ::= fun b => b || tripped |>),
           write (drive_output ub output))
      end
  end.

(** [process_pid_loops] with a registry attached. *)
Definition process_pid_loops (now_ms : Z) (st : control_engine * R) : control_engine * R :=
  let '(e, reg) := st in
  foldl (process_pid_loop now_ms) (e <| ce_last_scan_time_ms := now_ms |>, reg)
    (seq 0 (length (ce_pid_loops e))).

(** ** Interlock pass *)

Definition interlock_condition_met (il : interlock) (value : float32) : bool :=
  match il_condition il with
  | INTERLOCK_CONDITION_ABOVE => fgt value (il_threshold il)
  | INTERLOCK_CONDITION_BELOW => flt value (il_threshold il)
  | INTERLOCK_CONDITION_EQUAL => flt (fabsf (fsub value (il_threshold il))) (f32_lit 1 100)
  | INTERLOCK_CONDITION_NOT_EQUAL => fge (fabsf (fsub value (il_threshold il))) (f32_lit 1 100)
  end.

(** The delay handling: the interlock afterwards and whether it trips now. *)
Definition interlock_next (now_ms : Z) (value : float32) (il : interlock) : interlock * bool :=
  let condition_met := interlock_condition_met il value in
  if condition_met && negb (il_tripped il) then
    if il_condition_start_ms il =? 0 then
      (il <| il_condition_start_ms := now_ms |>, false)
    else if il_delay_ms il <=? u64_sub now_ms (il_condition_start_ms il) then
      (il <| il_tripped := true |> <| il_trip_time_ms := now_ms |>, true)
    else (il, false)
  else if negb condition_met then (il <| il_condition_start_ms := 0 |>, false)
  else (il, false).

(** The output a tripped interlock writes, if it writes one. *)
Definition interlock_output (il : interlock) : option actuator_output :=
  match il_action il with
  | INTERLOCK_ACTION_ALARM_ONLY => None
  | INTERLOCK_ACTION_FORCE_OFF => Some (zero_output <| ao_command := ACTUATOR_CMD_OFF |>)
  | INTERLOCK_ACTION_FORCE_ON => Some (zero_output <| ao_command := ACTUATOR_CMD_ON |>)
  | INTERLOCK_ACTION_SET_VALUE =>
      Some (zero_output <| ao_command := ACTUATOR_CMD_PWM |>
                        <| ao_pwm_duty := cast_u8 ub (il_action_value il) |>)
  end.

(** One iteration of [process_interlocks].  The reading's result code and status
    only decide whether a warning is logged. *)
Definition process_interlock (now_ms : Z) (st : control_engine * R) (i : nat)
    : control_engine * R :=
  let '(e, reg) := st in
  match ce_interlocks e !! i with
  | None => (e, reg)
  | Some il =>
      if negb (il_enabled il) then (e, reg) else
      let e := if il_tripped il then e <| ce_tripped_interlocks ::= Z.succ |> else e in
      let '(res, sensor) := reg_get_sensor reg (clk (2 * i)) (il_condition_rtu il)
                              (il_condition_slot il) (junk i) in
      let '(il, trips) := interlock_next now_ms (sd_value sensor) il in
      let e := e <| ce_interlocks ::= <[i := il]> |> in
      let e := if trips then emit_event (ce_on_interlock_trip e)
                               (EvInterlockTrip (il_interlock_id il)) e else e in
      match (if il_tripped il then interlock_output il else None) with
      | Some o => (e, snd (reg_update_actuator reg (clk (2 * i + 1)) (il_action_rtu il)
                             (il_action_slot il) o))
      | None => (e, reg)
      end
  end.

(** [process_interlocks] with a registry attached. *)
Definition process_interlocks (now_ms : Z) (st : control_engine * R) : control_engine * R :=
  let '(e, reg) := st in
  foldl (process_interlock now_ms) (e <| ce_tripped_interlocks := 0 |>, reg)
    (seq 0 (length (ce_interlocks e))).
End Scan.

(** The readings one [control_engine_process] consumes: those of the interlock pass
    and those of the PID pass. *)
Record scan_input := mk_scan_input {
  si_il_now : Z; si_il_clk : nat -> Z; si_il_junk : nat -> sensor_data;
  si_pid_now : Z; si_pid_clk : nat -> Z; si_pid_junk : nat -> sensor_data }.

(** [control_engine_process]: interlocks first, then the PID loops; without a
    registry ([None]) both passes return at once. *)
Definition control_engine_process {R} `{RegistryOps R} (ub : float32 -> Z) (inp : scan_input)
    (e : control_engine) (reg : option R) : control_engine * option R :=
  match reg with
  | None => (e, None)
  | Some r =>
      let st := process_interlocks (si_il_clk inp) (si_il_junk inp) ub (si_il_now inp) (e, r) in
      let '(e', r') := process_pid_loops (si_pid_clk inp) (si_pid_junk inp) ub
                         (si_pid_now inp) st in
      (e', Some r')
  end.

(** ** Loop and interlock tables *)

Definition has_loop (id : Z) (l : pid_loop) : Prop := pl_loop_id l = id.
Definition has_interlock (id : Z) (l : interlock) : Prop := il_interlock_id l = id.
Definition is_forced (st : string) (sl : Z) (f : forced_output) : Prop :=
  fo_station_name f = st /\ fo_slot f = sl.
#[export] Instance has_loop_dec id l : Decision (has_loop id l).
Proof. unfold has_loop. apply _. Defined.
#[export] Instance has_interlock_dec id l : Decision (has_interlock id l).
Proof. unfold has_interlock. apply _. Defined.
#[export] Instance is_forced_dec st sl f : Decision (is_forced st sl f).
Proof. unfold is_forced. apply _. Defined.

Definition control_engine_add_pid_loop (e : control_engine) (config : pid_loop)
    : wtc_result * control_engine :=
  if (WTC_MAX_PID_LOOPS <=? length (ce_pid_loops e))%nat then (WTC_ERROR_FULL, e)
  else (WTC_OK, e <| ce_pid_loops ::= fun l => l ++ [config <| pl_loop_id := ce_next_pid_id e |>] |>
                  <| ce_next_pid_id ::= Z.succ |>).

Definition control_engine_remove_pid_loop (e : control_engine) (loop_id : Z)
    : wtc_result * control_engine :=
  match find_remove (has_loop loop_id) (ce_pid_loops e) with
  | Some l => (WTC_OK, e <| ce_pid_loops := l |>)
  | None => (WTC_ERROR_NOT_FOUND, e)
  end.

Definition control_engine_get_pid_loop (e : control_engine) (loop_id : Z) : option pid_loop :=
  find_entry (has_loop loop_id) (ce_pid_loops e).

(** Find the loop by id and update it in place. *)
Definition with_loop (e : control_engine) (loop_id : Z) (f : pid_loop -> pid_loop)
    : wtc_result * control_engine :=
  match find_update (has_loop loop_id) f (ce_pid_loops e) with
  | Some l => (WTC_OK, e <| ce_pid_loops := l |>)
  | None => (WTC_ERROR_NOT_FOUND, e)
  end.

Definition control_engine_set_setpoint (e : control_engine) (loop_id : Z) (setpoint : float32) :=
  with_loop e loop_id (fun l => l <| pl_setpoint := setpoint |>).

Definition control_engine_set_pid_mode (e : control_engine) (loop_id : Z) (mode : pid_mode) :=
  with_loop e loop_id (switch_mode mode).

Definition control_engine_set_pid_tuning (e : control_engine) (loop_id : Z) (kp ki kd : float32) :=
  with_loop e loop_id (fun l => l <| pl_kp := kp |> <| pl_ki := ki |> <| pl_kd := kd |>).

Definition control_engine_get_pid_output (e : control_engine) (loop_id : Z) : option float32 :=
  pl_cv <$> find_entry (has_loop loop_id) (ce_pid_loops e).

Definition control_engine_add_interlock (e : control_engine) (config : interlock)
    : wtc_result * control_engine :=
  if (WTC_MAX_INTERLOCKS <=? length (ce_interlocks e))%nat then (WTC_ERROR_FULL, e)
  else (WTC_OK, e <| ce_interlocks ::= fun l => l ++ [config <| il_interlock_id := ce_next_interlock_id e |>] |>
                  <| ce_next_interlock_id ::= Z.succ |>).

Definition control_engine_remove_interlock (e : control_engine) (interlock_id : Z)
    : wtc_result * control_engine :=
  match find_remove (has_interlock interlock_id) (ce_interlocks e) with
  | Some l => (WTC_OK, e <| ce_interlocks := l |>)
  | None => (WTC_ERROR_NOT_FOUND, e)
  end.

Definition control_engine_get_interlock (e : control_engine) (id : Z) : option interlock :=
  find_entry (has_interlock id) (ce_interlocks e).

Definition with_interlock (e : control_engine) (id : Z) (f : interlock -> interlock)
    : wtc_result * control_engine :=
  match find_update (has_interlock id) f (ce_interlocks e) with
  | Some l => (WTC_OK, e <| ce_interlocks := l |>)
  | None => (WTC_ERROR_NOT_FOUND, e)
  end.

Definition control_engine_enable_interlock (e : control_engine) (id : Z) (enabled : bool) :=
  with_interlock e id (fun l => l <| il_enabled := enabled |>).

Definition control_engine_reset_interlock (e : control_engine) (id : Z) :=
  with_interlock e id (fun l => l <| il_tripped := false |> <| il_trip_time_ms := 0 |>
                                  <| il_condition_start_ms := 0 |>).

(** ** Forced outputs *)

Definition control_engine_force_output (e : control_engine) (station : string) (slot : Z)
    (command pwm_duty : Z) : wtc_result * control_engine :=
  let set_out := fun o => o <| ao_command := command |> <| ao_pwm_duty := pwm_duty |> in
  match find_update (is_forced station slot) (fun f => f <| fo_output ::= set_out |>)
          (ce_forced_outputs e) with
  | Some l => (WTC_OK, e <| ce_forced_outputs := l |>)
  | None =>
      if (MAX_FORCED <=? length (ce_forced_outputs e))%nat then (WTC_ERROR_FULL, e)
      else (WTC_OK, e <| ce_forced_outputs ::= fun l =>
              l ++ [mk_forced_output (strncpy (WTC_MAX_STATION_NAME - 1) station) slot
                      (set_out zero_output)] |>)
  end.

Definition control_engine_release_output (e : control_engine) (station : string) (slot : Z)
    : wtc_result * control_engine :=
  match find_remove (is_forced station slot) (ce_forced_outputs e) with
  | Some l => (WTC_OK, e <| ce_forced_outputs := l |>)
  | None => (WTC_ERROR_NOT_FOUND, e)
  end.

Definition control_engine_is_output_forced (e : control_engine) (station : string) (slot : Z) : bool :=
  bool_decide (is_Some (find_entry (is_forced station slot) (ce_forced_outputs e))).

(** ** The interlock pass, interlock by interlock *)

(** The per-loop arrays have room for every loop. *)
Definition arrays_ok (e : control_engine) : Prop :=
  (length (ce_pid_loops e) <= WTC_MAX_PID_LOOPS)%nat /\
  length (ce_last_input_time_ms e) = WTC_MAX_PID_LOOPS /\
  length (ce_comm_loss e) = WTC_MAX_PID_LOOPS /\
  length (ce_at_limit_start e) = WTC_MAX_PID_LOOPS.

Definition slot_of (e : control_engine) (i : nat) : option pid_slot :=
  get_slot e i <$> ce_pid_loops e !! i.

Section Pass.
Context {R : Type} `{RegistryLaws R}.

(** Two registries whose sensors read the same. *)
Definition sens_eq (r r' : R) : Prop :=
  forall now st sl out, reg_get_sensor r now st sl out = reg_get_sensor r' now st sl out.
#[export] Instance sens_eq_equivalence : Equivalence sens_eq.
Proof.
  split; unfold sens_eq.
  - done.
  - intros r r' Hr now st sl out. by rewrite Hr.
  - intros r1 r2 r3 H1 H2 now st sl out. by rewrite H1.
Qed.

Lemma sens_eq_write r now st sl o : sens_eq (snd (reg_update_actuator r now st sl o)) r.
Proof. intros ????. apply update_actuator_sensor. Qed.

(** What the last write left at an actuator. *)
Definition out_at (r : R) (st : string) (sl : Z) : option actuator_output :=
  as_output <$> snd (reg_get_actuator r st sl).

Definition writable (r : R) (st : string) (sl : Z) : Prop :=
  forall now o, fst (reg_update_actuator r now st sl o) = WTC_OK.

Lemma out_at_write r now st sl o :
  writable r st sl -> out_at (snd (reg_update_actuator r now st sl o)) st sl = Some o.
Proof.
  intros Hw. destruct (update_actuator_read r now st sl o (Hw _ _)) as (a & Ha & Ho).
  unfold out_at. rewrite Ha. cbn. by rewrite Ho.
Qed.

Lemma out_at_frame r now st sl o st' sl' :
  (st, sl) <> (st', sl') ->
  out_at (snd (reg_update_actuator r now st sl o)) st' sl' = out_at r st' sl'.
Proof. intros Hne. unfold out_at. by rewrite update_actuator_frame. Qed.

Lemma writable_write r now st sl o st' sl' :
  writable r st' sl' -> writable (snd (reg_update_actuator r now st sl o)) st' sl'.
Proof. intros Hw now' o'. rewrite update_actuator_stable. apply Hw. Qed.

Context (clk : nat -> Z) (junk : nat -> sensor_data) (ub : float32 -> Z) (now_ms : Z).

(** The value interlock [i] sees when the registry's sensors are those of [r]. *)
Definition il_reading (r : R) (i : nat) (il : interlock) : float32 :=
  sd_value (snd (reg_get_sensor r (clk (2 * i)) (il_condition_rtu il)
                   (il_condition_slot il) (junk i))).

(** What one pass makes of interlock [i]. *)
Definition il_scan (r : R) (i : nat) (il : interlock) : interlock :=
  if il_enabled il then fst (interlock_next now_ms (il_reading r i il) il) else il.

Lemma il_reading_proper r r' i il : sens_eq r r' -> il_reading r i il = il_reading r' i il.
Proof. intros Hr. unfold il_reading. by rewrite Hr. Qed.

Lemma il_scan_proper r r' i il : sens_eq r r' -> il_scan r i il = il_scan r' i il.
Proof. intros Hr. unfold il_scan. by rewrite (il_reading_proper r r'). Qed.

(** Only the trip state of an interlock changes. *)
Definition same_config (a b : interlock) : Prop :=
  b = a <| il_tripped := il_tripped b |> <| il_trip_time_ms := il_trip_time_ms b |>
        <| il_condition_start_ms := il_condition_start_ms b |>.

Lemma interlock_next_config now v il : same_config il (fst (interlock_next now v il)).
Proof. unfold interlock_next, same_config. destruct il. repeat split_if; done. Qed.

Lemma il_scan_config r i il : same_config il (il_scan r i il).
Proof.
  unfold il_scan. destruct (il_enabled il); [apply interlock_next_config|by destruct il].
Qed.

(** One iteration: interlock [i] is scanned, the rest of the table and the sensors
    are as before, and at most interlock [i]'s own output is written. *)
Lemma process_interlock_spec e r i :
  let '(e', r') := process_interlock clk junk ub now_ms (e, r) i in
  sens_eq r' r /\
  (exists c t, e' = e <| ce_interlocks ::= alter (il_scan r i) i |>
                      <| ce_tripped_interlocks := c |> <| ce_trace := t |>) /\
  (r' = r \/ exists il now o, ce_interlocks e !! i = Some il /\ il_enabled il = true /\
     r' = snd (reg_update_actuator r now (il_action_rtu il) (il_action_slot il) o)) /\
  (forall il o, ce_interlocks e !! i = Some il -> il_enabled il = true ->
     il_tripped (il_scan r i il) = true -> interlock_output ub il = Some o ->
     exists now, r' = snd (reg_update_actuator r now (il_action_rtu il) (il_action_slot il) o)).
Proof.
  unfold process_interlock. destruct (ce_interlocks e !! i) as [il|] eqn:Hi; cycle 1.
  { split_and!; [done| |by left|done]. exists (ce_tripped_interlocks e), (ce_trace e).
    destruct e. cbn in *. f_equal. symmetry. apply list_alter_same. congruence. }
  destruct (il_enabled il) eqn:Hen; cbn [negb]; cycle 1.
  { split_and!; [done| |by left|intros; congruence]. exists (ce_tripped_interlocks e), (ce_trace e).
    destruct e. cbn in *. f_equal. symmetry. apply list_alter_same. intros ?. rewrite Hi.
    intros [= <-]. unfold il_scan. by rewrite Hen. }
  destruct (reg_get_sensor _ _ _ _ _) as [res sensor] eqn:Hs.
  assert (il_scan r i il = fst (interlock_next now_ms (sd_value sensor) il)) as Hscan.
  { unfold il_scan, il_reading. by rewrite Hen, Hs. }
  pose proof (interlock_next_config now_ms (sd_value sensor) il) as Hcfg.
  destruct (interlock_next now_ms (sd_value sensor) il) as [il' trips]. cbn in Hscan, Hcfg.
  assert (interlock_output ub il' = interlock_output ub il) as Hout by (by rewrite Hcfg).
  assert (il_action_rtu il' = il_action_rtu il /\ il_action_slot il' = il_action_slot il)
    as [Hrtu Hslot] by (by rewrite Hcfg).
  match goal with |- context [match ?x with Some _ => (?e1, _) | None => _ end] =>
    set (e' := e1) end.
  assert (exists c t, e' = e <| ce_interlocks ::= alter (il_scan r i) i |>
                             <| ce_tripped_interlocks := c |> <| ce_trace := t |>) as He.
  { subst e'. pose proof (list_insert_alter (il_scan r i) i _ il Hi) as Hins.
    rewrite Hscan in Hins. destruct e. cbn in *. rewrite <- Hins.
    destruct (il_tripped il), trips; cbn; unfold emit_event; cbn;
      try (destruct ce_on_interlock_trip0; cbn); eauto. }
  rewrite Hout, Hrtu, Hslot.
  destruct (il_tripped il') eqn:Ht, (interlock_output ub il) as [o|] eqn:Ho;
    (split_and!; [first [apply sens_eq_write|done]|exact He| |]);
    try (by left);
    try (right; eexists _, _, _; split_and!; [reflexivity|exact Hen|reflexivity]);
    intros il0 o0; intros [= <-]; rewrite ?Hscan, ?Ht; intros; simplify_eq; eauto.
Qed.

(** ** The PID pass, loop by loop *)

(** What one pass computes for loop [i] when the registry's sensors are those of [r]. *)
Definition pid_result (r : R) (i : nat) (s : pid_slot) : pid_slot * pid_outcome :=
  let '(res, sensor) := reg_get_sensor r (clk (3 * i)) (pl_input_rtu (ps_loop s))
                          (pl_input_slot (ps_loop s)) (junk i) in
  pid_step now_ms (clk (3 * i + 1)) res sensor s.

(** The actuator write an outcome stands for. *)
Definition outcome_write (o : pid_outcome) : option actuator_output :=
  match o with
  | PidSkip | PidHold => None
  | PidSafe => Some zero_output
  | PidDrive output _ => Some (drive_output ub output)
  end.

(** A loop the pass works on. *)
Definition runs (loop : pid_loop) : Prop :=
  pl_enabled loop = true /\ pl_mode loop <> PID_MODE_OFF.

Lemma pid_result_proper r r' i s : sens_eq r r' -> pid_result r i s = pid_result r' i s.
Proof. intros Hr. unfold pid_result. by rewrite Hr. Qed.

Lemma pid_result_skip r i s : ~ runs (ps_loop s) -> pid_result r i s = (s, PidSkip).
Proof.
  intros Hr. unfold pid_result. destruct (reg_get_sensor _ _ _ _ _) as [res sensor].
  unfold pid_step. destruct (negb _ || _) eqn:E; [done|].
  exfalso. apply Hr. reflect. done.
Qed.

(** The configuration of a loop survives the pass. *)
Definition same_loop (a b : pid_loop) : Prop :=
  pl_loop_id b = pl_loop_id a /\ pl_mode b = pl_mode a /\ pl_enabled b = pl_enabled a /\
  pl_input_rtu b = pl_input_rtu a /\ pl_input_slot b = pl_input_slot a /\
  pl_output_rtu b = pl_output_rtu a /\ pl_output_slot b = pl_output_slot a.

Lemma pid_result_config r i s : same_loop (ps_loop s) (ps_loop (fst (pid_result r i s))).
Proof.
  unfold pid_result. destruct (reg_get_sensor _ _ _ _ _) as [res sensor].
  unfold pid_step, same_loop. destruct (negb _ || _); [done|].
  destruct (input_good res sensor).
  - set (l := (ps_loop s) <| pl_last_update_ms := _ |>). set (dt := f32_of_Z _).
    pose proof (calculate_pid_config l (sd_value sensor) dt) as Hc. subst l dt.
    destruct (calculate_pid _ _ _) as [l o], (check_pid_watchdog _ _ _ _) as [t w].
    cbn in *. naive_solver.
  - by destruct (_ && _).
Qed.

Lemma slot_of_put e i j s :
  arrays_ok e -> (i < length (ce_pid_loops e))%nat ->
  slot_of (put_slot i s e) j = if decide (i = j) then Some s else slot_of e j.
Proof.
  intros (Hl & H1 & H2 & H3) Hi. unfold slot_of, get_slot. cbn.
  destruct (decide (i = j)) as [<-|Hne].
  - rewrite !list_lookup_insert_eq by lia. by destruct s.
  - by rewrite !list_lookup_insert_ne.
Qed.

Lemma arrays_ok_put e i s : arrays_ok e -> arrays_ok (put_slot i s e).
Proof. unfold arrays_ok. cbn. by rewrite !length_insert. Qed.

(** What the pass leaves alone. *)
Definition same_tables (a b : control_engine) : Prop :=
  length (ce_pid_loops b) = length (ce_pid_loops a) /\
  ce_interlocks b = ce_interlocks a /\ ce_forced_outputs b = ce_forced_outputs a /\
  ce_next_pid_id b = ce_next_pid_id a /\ ce_next_interlock_id b = ce_next_interlock_id a /\
  ce_tripped_interlocks b = ce_tripped_interlocks a.

Lemma process_pid_loop_spec e r i :
  arrays_ok e ->
  let '(e', r') := process_pid_loop clk junk ub now_ms (e, r) i in
  sens_eq r' r /\ arrays_ok e' /\ same_tables e e' /\
  (forall j, slot_of e' j =
     if decide (i = j) then fst ∘ pid_result r i <$> slot_of e i else slot_of e j) /\
  match slot_of e i with
  | Some s =>
      match outcome_write (snd (pid_result r i s)) with
      | Some o => exists now, r' = snd (reg_update_actuator r now (pl_output_rtu (ps_loop s))
                                          (pl_output_slot (ps_loop s)) o)
      | None => r' = r
      end
  | None => r' = r
  end.
Proof.
  intros Ha. unfold process_pid_loop.
  destruct (ce_pid_loops e !! i) as [loop|] eqn:Hi; cycle 1.
  { assert (slot_of e i = None) as Hs by (unfold slot_of; by rewrite Hi). rewrite Hs.
    split_and!; try done. intros j. case_decide; [by subst|done]. }
  assert (slot_of e i = Some (get_slot e i loop)) as Hs by (unfold slot_of; by rewrite Hi).
  assert (i < length (ce_pid_loops e))%nat as Hlt by (by eapply lookup_lt_Some).
  rewrite Hs. change (fst ∘ pid_result r i <$> Some (get_slot e i loop))
    with (Some (fst (pid_result r i (get_slot e i loop)))). cbn beta iota.
  destruct (reg_get_sensor _ _ _ _ _) as [res sensor] eqn:Hr.
  assert (pid_result r i (get_slot e i loop)
          = pid_step now_ms (clk (3 * i + 1)) res sensor (get_slot e i loop)) as Hp
    by (unfold pid_result; cbn [ps_loop get_slot]; by rewrite Hr).
  rewrite Hp. destruct (pid_step _ _ _ _ _) as [s out].
  pose proof (fun j => slot_of_put e i j s Ha Hlt) as Hput.
  pose proof (arrays_ok_put e i s Ha) as Hok.
  assert (same_tables e (put_slot i s e)) as Hst.
  { unfold same_tables. cbn. by rewrite length_insert. }
  destruct out; cbn [outcome_write snd fst];
    (split_and!; [first [apply sens_eq_write|done]| | | |try (by eexists); try done]);
    try exact Hok; try exact Hst;
    try (unfold emit_event; split_if; first [exact Hok|exact Hst]);
    intros j; rewrite <- Hput; unfold emit_event; try destruct (ce_on_pid_output _); done.
Qed.

(** ** Whole passes *)

Lemma il_fold e r k n :
  let '(e', r') := foldl (process_interlock clk junk ub now_ms) (e, r) (seq k n) in
  sens_eq r' r /\
  (exists ils c t, e' = e <| ce_interlocks := ils |> <| ce_tripped_interlocks := c |>
                          <| ce_trace := t |>) /\
  forall j, ce_interlocks e' !! j =
    (if decide (k <= j < k + n)%nat then il_scan r j else id) <$> ce_interlocks e !! j.
Proof.
  revert e r k. induction n as [|n IH]; intros e r k; cbn [seq foldl].
  - split_and!; [done| |].
    + exists (ce_interlocks e), (ce_tripped_interlocks e), (ce_trace e). by destruct e.
    + intros j. rewrite decide_False by lia. by rewrite option_fmap_id.
  - pose proof (process_interlock_spec e r k) as Hs.
    destruct (process_interlock _ _ _ _ _ _) as [e1 r1].
    destruct Hs as (Hr1 & (c1 & t1 & He1) & _). specialize (IH e1 r1 (S k)).
    destruct (foldl _ _ _) as [e2 r2]. destruct IH as (Hr2 & (ils & c & t & He2) & Hils).
    split_and!; [by etrans| |].
    + exists ils, c, t. by rewrite He2, He1.
    + intros j. rewrite Hils, He1. cbn. destruct (decide (j = k)) as [->|Hne].
      * rewrite list_lookup_alter_eq, decide_False, decide_True by lia.
        by rewrite option_fmap_id.
      * rewrite list_lookup_alter_ne by done. destruct (decide (S k <= j < S (k + n))%nat),
          (decide (k <= j < k + S n)%nat); try lia; [|done].
        apply option_fmap_ext. intros il. by apply il_scan_proper.
Qed.

(** Interlocks that act elsewhere leave an actuator alone. *)
Lemma il_fold_frame e r k n st sl :
  (forall j il, (k <= j < k + n)%nat -> ce_interlocks e !! j = Some il -> il_enabled il = true ->
     (il_action_rtu il, il_action_slot il) <> (st, sl)) ->
  let '(_, r') := foldl (process_interlock clk junk ub now_ms) (e, r) (seq k n) in
  out_at r' st sl = out_at r st sl.
Proof.
  revert e r k. induction n as [|n IH]; intros e r k Hne; cbn [seq foldl]; [done|].
  pose proof (process_interlock_spec e r k) as Hs.
  destruct (process_interlock _ _ _ _ _ _) as [e1 r1].
  destruct Hs as (Hr1 & (c1 & t1 & He1) & Hw & _). specialize (IH e1 r1 (S k)).
  destruct (foldl _ _ _) as [e2 r2]. rewrite IH.
  - destruct Hw as [->|(il & now & o & Hk & Hen & ->)]; [done|].
    apply out_at_frame. apply (Hne k il); [lia|done..].
  - intros j il Hj. rewrite He1. cbn. rewrite list_lookup_alter_ne by lia. apply Hne. lia.
Qed.

Lemma il_fold_writable e r k n st sl :
  writable r st sl ->
  let '(_, r') := foldl (process_interlock clk junk ub now_ms) (e, r) (seq k n) in
  writable r' st sl.
Proof.
  revert e r k. induction n as [|n IH]; intros e r k Hw; cbn [seq foldl]; [done|].
  pose proof (process_interlock_spec e r k) as Hs.
  destruct (process_interlock _ _ _ _ _ _) as [e1 r1]. apply IH.
  destruct Hs as (_ & _ & [->|(il & now & o & _ & _ & ->)] & _); auto using writable_write.
Qed.

(** The last interlock that acts on an actuator decides its output. *)
Lemma il_fold_enforces e r j il o :
  ce_interlocks e !! j = Some il -> il_enabled il = true ->
  il_tripped (il_scan r j il) = true -> interlock_output ub il = Some o ->
  writable r (il_action_rtu il) (il_action_slot il) ->
  (forall j' il', (j < j')%nat -> ce_interlocks e !! j' = Some il' -> il_enabled il' = true ->
     (il_action_rtu il', il_action_slot il') <> (il_action_rtu il, il_action_slot il)) ->
  let '(_, r') := foldl (process_interlock clk junk ub now_ms) (e, r)
                    (seq 0 (length (ce_interlocks e))) in
  out_at r' (il_action_rtu il) (il_action_slot il) = Some o.
Proof.
  intros Hj Hen Htr Ho Hw Hlast. assert (j < length (ce_interlocks e))%nat as Hlt
    by (by eapply lookup_lt_Some).
  replace (length (ce_interlocks e)) with (j + S (length (ce_interlocks e) - j - 1))%nat by lia.
  rewrite seq_app, foldl_app. cbn [seq foldl plus].
  pose proof (il_fold e r 0 j) as H1.
  pose proof (il_fold_writable e r 0 j _ _ Hw) as H2.
  destruct (foldl _ (e, r) (seq 0 j)) as [e1 r1].
  destruct H1 as (Hr1 & _ & Hils).
  pose proof (process_interlock_spec e1 r1 j) as Hs.
  destruct (process_interlock _ _ _ _ _ _) as [e2 r2].
  destruct Hs as (_ & (c2 & t2 & He2) & _ & Hwr).
  pose proof (il_fold_frame e2 r2 (S j) (length (ce_interlocks e) - j - 1)
    (il_action_rtu il) (il_action_slot il)) as Hfr.
  destruct (foldl _ _ _) as [e3 r3]. rewrite Hfr; clear Hfr.
  - destruct (Hwr il o) as [now ->]; [|done| |done|by apply out_at_write].
    + rewrite Hils, decide_False, Hj by lia. done.
    + by rewrite (il_scan_proper r1 r).
  - intros j' il' Hj' Hl. eapply (Hlast j'); [lia|]. revert Hl. rewrite He2. cbn.
    rewrite list_lookup_alter_ne, Hils, decide_False, option_fmap_id by lia. done.
Qed.

Lemma pid_fold e r k n :
  arrays_ok e ->
  let '(e', r') := foldl (process_pid_loop clk junk ub now_ms) (e, r) (seq k n) in
  sens_eq r' r /\ arrays_ok e' /\ same_tables e e' /\
  forall j, slot_of e' j =
    (if decide (k <= j < k + n)%nat then fst ∘ pid_result r j else id) <$> slot_of e j.
Proof.
  revert e r k. induction n as [|n IH]; intros e r k Ha; cbn [seq foldl].
  - split_and!; try done. intros j. rewrite decide_False by lia. by rewrite option_fmap_id.
  - pose proof (process_pid_loop_spec e r k Ha) as Hs.
    destruct (process_pid_loop _ _ _ _ _ _) as [e1 r1].
    destruct Hs as (Hr1 & Ha1 & Ht1 & Hs1 & _). specialize (IH e1 r1 (S k) Ha1).
    destruct (foldl _ _ _) as [e2 r2]. destruct IH as (Hr2 & Ha2 & Ht2 & Hs2).
    split_and!; [by etrans|done|unfold same_tables in *; naive_solver congruence|].
    intros j. rewrite Hs2, Hs1. destruct (decide (k = j)) as [->|Hne].
    + rewrite decide_False, decide_True, option_fmap_id by lia. done.
    + destruct (decide (S k <= j < S k + n)%nat), (decide (k <= j < k + S n)%nat);
        try lia; [|done].
      apply option_fmap_ext. intros s. cbn. by rewrite (pid_result_proper r1 r).
Qed.

(** Loops that drive other actuators, or do not run, leave an actuator alone. *)
Lemma pid_fold_frame e r k n st sl :
  arrays_ok e ->
  (forall j s, (k <= j < k + n)%nat -> slot_of e j = Some s -> runs (ps_loop s) ->
     (pl_output_rtu (ps_loop s), pl_output_slot (ps_loop s)) <> (st, sl)) ->
  let '(_, r') := foldl (process_pid_loop clk junk ub now_ms) (e, r) (seq k n) in
  out_at r' st sl = out_at r st sl.
Proof.
  revert e r k. induction n as [|n IH]; intros e r k Ha Hne; cbn [seq foldl]; [done|].
  pose proof (process_pid_loop_spec e r k Ha) as Hs.
  destruct (process_pid_loop _ _ _ _ _ _) as [e1 r1].
  destruct Hs as (Hr1 & Ha1 & Ht1 & Hs1 & Hw). specialize (IH e1 r1 (S k) Ha1).
  destruct (foldl _ _ _) as [e2 r2]. rewrite IH.
  - destruct (slot_of e k) as [s|] eqn:Hk; [|by rewrite Hw].
    destruct (decide (pl_enabled (ps_loop s) = true)) as [Hen|Hen];
      [destruct (decide (pl_mode (ps_loop s) = PID_MODE_OFF)) as [Hoff|Hoff]|].
    1, 3: rewrite pid_result_skip in Hw by (unfold runs; tauto); cbn in Hw; by rewrite Hw.
    destruct (outcome_write _); [|by rewrite Hw].
    destruct Hw as [now ->]. apply out_at_frame. apply (Hne k s); [lia|done..].
  - intros j s Hj. rewrite Hs1, decide_False by lia. apply Hne. lia.
Qed.

Lemma pid_fold_writable e r k n st sl :
  arrays_ok e -> writable r st sl ->
  let '(_, r') := foldl (process_pid_loop clk junk ub now_ms) (e, r) (seq k n) in
  writable r' st sl.
Proof.
  revert e r k. induction n as [|n IH]; intros e r k Ha Hw; cbn [seq foldl]; [done|].
  pose proof (process_pid_loop_spec e r k Ha) as Hs.
  destruct (process_pid_loop _ _ _ _ _ _) as [e1 r1].
  destruct Hs as (_ & Ha1 & _ & _ & Hwr). apply IH; [done|].
  destruct (slot_of e k) as [s|]; [|by rewrite Hwr].
  destruct (outcome_write _); [|by rewrite Hwr].
  destruct Hwr as [now ->]. by apply writable_write.
Qed.

(** The last loop that drives an actuator decides its output. *)
Lemma pid_fold_writes e r j s o :
  arrays_ok e -> slot_of e j = Some s ->
  outcome_write (snd (pid_result r j s)) = Some o ->
  writable r (pl_output_rtu (ps_loop s)) (pl_output_slot (ps_loop s)) ->
  (forall j' s', (j < j')%nat -> slot_of e j' = Some s' -> runs (ps_loop s') ->
     (pl_output_rtu (ps_loop s'), pl_output_slot (ps_loop s'))
     <> (pl_output_rtu (ps_loop s), pl_output_slot (ps_loop s))) ->
  let '(_, r') := foldl (process_pid_loop clk junk ub now_ms) (e, r)
                    (seq 0 (length (ce_pid_loops e))) in
  out_at r' (pl_output_rtu (ps_loop s)) (pl_output_slot (ps_loop s)) = Some o.
Proof.
  intros Ha Hj Ho Hw Hlast. assert (j < length (ce_pid_loops e))%nat as Hlt.
  { unfold slot_of in Hj. apply fmap_Some in Hj as (l & Hl & _). by eapply lookup_lt_Some. }
  replace (length (ce_pid_loops e)) with (j + S (length (ce_pid_loops e) - j - 1))%nat by lia.
  rewrite seq_app, foldl_app. cbn [seq foldl plus].
  pose proof (pid_fold e r 0 j Ha) as H1.
  pose proof (pid_fold_writable e r 0 j _ _ Ha Hw) as H2.
  destruct (foldl _ (e, r) (seq 0 j)) as [e1 r1].
  destruct H1 as (Hr1 & Ha1 & _ & Hs1).
  pose proof (process_pid_loop_spec e1 r1 j Ha1) as Hs.
  destruct (process_pid_loop _ _ _ _ _ _) as [e2 r2].
  destruct Hs as (_ & Ha2 & _ & Hs2 & Hwr).
  pose proof (pid_fold_frame e2 r2 (S j) (length (ce_pid_loops e) - j - 1)
    (pl_output_rtu (ps_loop s)) (pl_output_slot (ps_loop s)) Ha2) as Hfr.
  destruct (foldl _ _ _) as [e3 r3]. rewrite Hfr; clear Hfr.
  - rewrite Hs1, decide_False, option_fmap_id, Hj in Hwr by lia.
    rewrite (pid_result_proper r1 r), Ho in Hwr by done.
    destruct Hwr as [now ->]. by apply out_at_write.
  - intros j' s' Hj'. rewrite Hs2, decide_False, Hs1, decide_False, option_fmap_id by lia.
    apply Hlast. lia.
Qed.
End Pass.

(** ** A whole scan *)

Section Process.
Context {R : Type} `{RegistryLaws R} (ub : float32 -> Z).

(** What interlock [i] and loop [i] become in one scan against registry [r]. *)
Definition il_after (inp : scan_input) (r : R) (i : nat) (il : interlock) : interlock :=
  il_scan (si_il_clk inp) (si_il_junk inp) (si_il_now inp) r i il.
Definition pid_after (inp : scan_input) (r : R) (i : nat) (s : pid_slot) : pid_slot * pid_outcome :=
  pid_result (si_pid_clk inp) (si_pid_junk inp) (si_pid_now inp) r i s.

Lemma process_effect inp e r :
  arrays_ok e ->
  let e' := fst (control_engine_process ub inp e (Some r)) in
  arrays_ok e' /\
  (forall j, ce_interlocks e' !! j = il_after inp r j <$> ce_interlocks e !! j) /\
  (forall j, slot_of e' j = fst ∘ pid_after inp r j <$> slot_of e j) /\
  length (ce_pid_loops e') = length (ce_pid_loops e) /\
  ce_forced_outputs e' = ce_forced_outputs e /\ ce_next_pid_id e' = ce_next_pid_id e /\
  ce_next_interlock_id e' = ce_next_interlock_id e.
Proof.
  intros Ha. unfold control_engine_process, process_interlocks.
  set (e0 := e <| ce_tripped_interlocks := 0 |>).
  pose proof (il_fold (si_il_clk inp) (si_il_junk inp) ub (si_il_now inp) e0 r 0
    (length (ce_interlocks e))) as H1.
  destruct (foldl _ _ _) as [e1 r1]. destruct H1 as (Hr1 & (ils & c & t & He1) & Hils).
  unfold process_pid_loops. set (e2 := e1 <| ce_last_scan_time_ms := _ |>).
  assert (arrays_ok e2) as Ha2 by (unfold e2; by rewrite He1).
  pose proof (pid_fold (si_pid_clk inp) (si_pid_junk inp) ub (si_pid_now inp) e2 r1 0
    (length (ce_pid_loops e1)) Ha2) as H2.
  destruct (foldl _ _ _) as [e3 r3]. destruct H2 as (Hr3 & Ha3 & Ht & Hs). cbn [fst].
  assert (forall j, slot_of e2 j = slot_of e j) as Hslot by (intros j; unfold e2; by rewrite He1).
  unfold same_tables in Ht. unfold e2 in Ht. rewrite He1 in Ht. cbn in Ht.
  split_and!; try tauto.
  - intros j. destruct Ht as (_ & -> & _). rewrite He1 in Hils. cbn in Hils. rewrite Hils.
    destruct (ce_interlocks e !! j) as [il|] eqn:Hj; [|done]. apply lookup_lt_Some in Hj.
    by rewrite decide_True by lia.
  - intros j. rewrite Hs, Hslot. destruct (slot_of e j) as [s|] eqn:Hj; [|done].
    unfold slot_of in Hj. apply fmap_Some in Hj as (l & Hl & _). apply lookup_lt_Some in Hl.
    rewrite decide_True by (rewrite He1; cbn; lia). cbn. f_equal. unfold pid_after.
    by rewrite (pid_result_proper _ _ _ r1 r).
Qed.

(** ** Interlock timing *)

(** Readings of one interlock over a run of scans: the time of each scan and whether
    the condition was met.  A trip window is a stretch of scans, all with the
    condition met, from first to last at least the delay apart. *)
Definition trip_window (delay : Z) (l : list (Z * bool)) : Prop :=
  exists a b ta tb, (a < b)%nat /\ l !! a = Some (ta, true) /\ l !! b = Some (tb, true) /\
    delay <= tb - ta /\ forall i, (a <= i <= b)%nat -> exists t, l !! i = Some (t, true).

Definition clock_ok (l : list Z) : Prop :=
  Forall (fun t => 0 < t < 2 ^ 64) l /\
  forall i j ti tj, (i <= j)%nat -> l !! i = Some ti -> l !! j = Some tj -> ti <= tj.

Lemma clock_ok_snoc l t : clock_ok (l ++ [t]) -> clock_ok l.
Proof.
  intros [Hf Hs]. apply Forall_app in Hf as [Hf _]. split; [done|].
  intros i j ti tj Hij Hi Hj. eapply (Hs i j); [done|by apply lookup_app_l_Some..].
Qed.

(** The check of a concrete run of clock readings. *)
Fixpoint clock_okb (prev : Z) (l : list Z) : bool :=
  match l with
  | [] => true
  | t :: l' => (0 <? t) && (prev <=? t) && (t <? 2 ^ 64) && clock_okb t l'
  end.

Lemma clock_okb_sound prev l : clock_okb prev l = true -> clock_ok l.
Proof.
  cut (clock_okb prev l = true -> clock_ok l /\ Forall (fun t => prev <= t) l); [naive_solver|].
  revert prev. induction l as [|t l IH]; intros prev Hc.
  { repeat split; try constructor. done. }
  cbn in Hc. reflect. destruct (IH t) as [[Hf Hs] Hle]; [done|]. repeat split.
  - constructor; [lia|done].
  - intros [|i] [|j] ti tj Hij Hi Hj; cbn in *; simplify_eq; try lia.
    + by apply (Forall_lookup_1 _ _ _ _ Hle Hj).
    + by apply (Hs i j ti tj ltac:(lia)).
  - constructor; [lia|]. eapply Forall_impl; [exact Hle|]. cbn. lia.
Qed.

(** The state of an untripped interlock after readings [l]: no timer and the last
    reading normal, or the timer started with the current stretch. *)
Definition timer_inv (l : list (Z * bool)) (start : Z) : Prop :=
  (start = 0 /\ forall t, last l <> Some (t, true)) \/
  exists a, l !! a = Some (start, true) /\
    (forall i, (a <= i < length l)%nat -> exists t, l !! i = Some (t, true)) /\
    (a = 0%nat \/ exists t, l !! (a - 1)%nat = Some (t, false)).

Definition trip_state_ok (delay : Z) (l : list (Z * bool)) (il : interlock) : Prop :=
  (il_tripped il = true <-> trip_window delay l) /\
  (il_tripped il = false -> timer_inv l (il_condition_start_ms il)).

Lemma trip_window_app delay l x : trip_window delay l -> trip_window delay (l ++ [x]).
Proof.
  intros (a & b & ta & tb & Hab & Ha & Hb & Hd & Hall). exists a, b, ta, tb.
  split_and!; [done|by apply lookup_app_l_Some..|done|].
  intros i Hi. destruct (Hall i Hi) as [t Ht]. exists t. by apply lookup_app_l_Some.
Qed.

(** A new window ends at the new reading. *)
Lemma trip_window_snoc delay l t m :
  trip_window delay (l ++ [(t, m)]) -> trip_window delay l \/
  m = true /\ exists a ta, (a < length l)%nat /\ l !! a = Some (ta, true) /\ delay <= t - ta /\
    forall i, (a <= i < length l)%nat -> exists u, l !! i = Some (u, true).
Proof.
  intros (a & b & ta & tb & Hab & Ha & Hb & Hd & Hall).
  assert (b <= length l)%nat as Hbl.
  { apply lookup_lt_Some in Hb. rewrite length_app in Hb. cbn in Hb. lia. }
  assert (forall i, (i < length l)%nat -> (l ++ [(t, m)]) !! i = l !! i) as Hl
    by (intros; by apply lookup_app_l).
  destruct (decide (b = length l)) as [->|Hne].
  - right. rewrite lookup_app_r, Nat.sub_diag in Hb by lia. cbn in Hb.
    injection Hb as <- Hm. split; [done|]. exists a, ta. rewrite Hl in Ha by lia.
    split_and!; [lia|done..|].
    intros i Hi. destruct (Hall i) as [u Hu]; [lia|]. exists u. by rewrite Hl in Hu by lia.
  - left. exists a, b, ta, tb. rewrite Hl in Ha, Hb by lia. split_and!; [done..|].
    intros i Hi. destruct (Hall i Hi) as [u Hu]. exists u. by rewrite Hl in Hu by lia.
Qed.

(** A stretch of met readings, extended. *)
Definition met_from (a : nat) (l : list (Z * bool)) : Prop :=
  forall i, (a <= i < length l)%nat -> exists t, l !! i = Some (t, true).

Lemma met_from_snoc a l t : met_from a l -> met_from a (l ++ [(t, true)]).
Proof.
  intros Hrun i Hi. rewrite length_app in Hi. cbn in Hi.
  destruct (decide (i = length l)) as [->|]; [exists t; apply lookup_snoc_eq|].
  destruct (Hrun i) as [u Hu]; [lia|]. exists u. by apply lookup_app_l_Some.
Qed.

Lemma timer_starts delay l t :
  (forall u, last l <> Some (u, true)) -> ~ trip_window delay l ->
  ~ trip_window delay (l ++ [(t, true)]) /\ timer_inv (l ++ [(t, true)]) t.
Proof.
  setoid_rewrite last_sub. intros Hlast Hnw. split.
  - intros [?|(_ & a & ta & Hlt & _ & _ & Hall)]%trip_window_snoc; [done|].
    destruct (Hall (length l - 1)%nat) as [u Hu]; [lia|]. by destruct (Hlast u).
  - right. exists (length l). rewrite lookup_snoc_eq. split_and!; [done| |].
    + apply met_from_snoc. intros i Hi. lia.
    + destruct (decide (length l = 0%nat)); [by left|right].
      destruct (lookup_lt_is_Some_2 l (length l - 1)) as [[u b] Hu]; [lia|].
      exists u. rewrite lookup_app_l by lia. destruct b; [by destruct (Hlast u)|done].
Qed.

(** With an ordered clock every reading of the current stretch is no older than its
    first. *)
Lemma timer_order l t a start :
  clock_ok (l.*1 ++ [t]) -> l !! a = Some (start, true) ->
  (0 < start < 2 ^ 64 /\ 0 < t < 2 ^ 64 /\ start <= t) /\
  forall i u m, (a <= i)%nat -> l !! i = Some (u, m) -> start <= u.
Proof.
  intros [Hf Hs] Ha. assert ((l.*1 ++ [t]) !! a = Some start) as Ha'.
  { apply lookup_app_l_Some. by rewrite list_lookup_fmap, Ha. }
  assert (a < length l)%nat by (by eapply lookup_lt_Some). split_and!.
  1-2: apply (Forall_lookup_1 _ _ a start Hf Ha').
  1-2: apply (Forall_lookup_1 _ _ (length l.*1) t Hf), lookup_snoc_eq.
  - eapply (Hs a (length l.*1)); [rewrite length_fmap; lia|done|apply lookup_snoc_eq].
  - intros i u m Hi Hu. eapply (Hs a i); [done..|]. apply lookup_app_l_Some.
    by rewrite list_lookup_fmap, Hu.
Qed.

Lemma timer_fires delay l t a start :
  l !! a = Some (start, true) -> met_from a l -> delay <= t - start ->
  trip_window delay (l ++ [(t, true)]).
Proof.
  intros Ha Hrun Hle. assert (a < length l)%nat by (by eapply lookup_lt_Some).
  exists a, (length l), start, t. rewrite lookup_snoc_eq.
  split_and!; [done|by apply lookup_app_l_Some|done|done|].
  intros i Hi. apply (met_from_snoc a l t Hrun). rewrite length_app. cbn. lia.
Qed.

Lemma timer_holds delay l t a start :
  clock_ok (l.*1 ++ [t]) ->
  l !! a = Some (start, true) -> met_from a l ->
  (a = 0%nat \/ exists u, l !! (a - 1)%nat = Some (u, false)) ->
  ~ delay <= t - start -> ~ trip_window delay l ->
  ~ trip_window delay (l ++ [(t, true)]) /\ timer_inv (l ++ [(t, true)]) start.
Proof.
  intros Hc Ha Hrun Hfirst Hd Hnw. destruct (timer_order l t a start Hc Ha) as [_ Hord]. split.
  - intros [?|(_ & a' & ta & Hlt & Ha' & Hd' & Hall)]%trip_window_snoc; [done|].
    destruct (decide (a <= a')%nat) as [Haa|Haa]; [pose proof (Hord a' ta true Haa Ha'); lia|].
    destruct Hfirst as [->|[u Hu]]; [lia|].
    destruct (Hall (a - 1)%nat) as [u' Hu']; [apply lookup_lt_Some in Ha; lia|]. congruence.
  - right. exists a. split_and!; [by apply lookup_app_l_Some|by apply met_from_snoc|].
    destruct Hfirst as [?|[u Hu]]; [by left|right; exists u; by apply lookup_app_l_Some].
Qed.

Lemma interlock_next_trip_state delay l il t v :
  clock_ok (l.*1 ++ [t]) -> il_delay_ms il = delay -> trip_state_ok delay l il ->
  trip_state_ok delay (l ++ [(t, interlock_condition_met il v)]) (fst (interlock_next t v il)).
Proof.
  intros Hc Hd [Hiff Hinv]. unfold interlock_next, trip_state_ok.
  destruct (interlock_condition_met il v) eqn:Hm; cbn [negb andb].
  2:{ split; cbn.
    - rewrite Hiff. split; [apply trip_window_app|].
      intros [?|[? _]]%trip_window_snoc; [done|discriminate].
    - intros _. left. split; [done|]. rewrite last_snoc. congruence. }
  destruct (il_tripped il) eqn:Ht; cbn [negb].
  { cbn. rewrite Ht. split; [|discriminate]. split; [|done].
    intros _. apply trip_window_app. by apply Hiff. }
  assert (~ trip_window delay l) as Hnw by (rewrite <- Hiff; discriminate).
  destruct (Hinv eq_refl) as [[Hz Hlast]|(a & Ha & Hrun & Hfirst)].
  - rewrite Hz. cbn. rewrite Ht. destruct (timer_starts delay l t Hlast Hnw). by split.
  - destruct (timer_order l t a _ Hc Ha) as [(Hs & Ht' & Hle) _].
    destruct (Z.eqb_spec (il_condition_start_ms il) 0); [lia|].
    rewrite u64_sub_le, Hd by (unfold is_u64; lia).
    destruct (Z.leb_spec delay (t - il_condition_start_ms il)) as [Hdl|Hdl]; cbn.
    + split; [|done]. split; [|done]. intros _. by eapply timer_fires.
    + rewrite Ht. destruct (timer_holds delay l t a _ Hc Ha Hrun Hfirst ltac:(lia) Hnw). by split.
Qed.
End Process.

(** ** Operations and the engine's invariant *)

Section Engine.
Context {R : Type} `{RegistryLaws R} (ub : float32 -> Z).

Inductive ce_op :=
| OpScan (inp : scan_input) (reg : option R)
| OpAddLoop (config : pid_loop)
| OpRemoveLoop (id : Z)
| OpSetSetpoint (id : Z) (sp : float32)
| OpSetMode (id : Z) (mode : pid_mode)
| OpSetTuning (id : Z) (kp ki kd : float32)
| OpAddInterlock (config : interlock)
| OpRemoveInterlock (id : Z)
| OpEnableInterlock (id : Z) (enabled : bool)
| OpResetInterlock (id : Z)
| OpForce (station : string) (slot command duty : Z)
| OpRelease (station : string) (slot : Z).

Definition ce_exec (e : control_engine) (op : ce_op) : control_engine :=
  match op with
  | OpScan inp reg => fst (control_engine_process ub inp e reg)
  | OpAddLoop c => snd (control_engine_add_pid_loop e c)
  | OpRemoveLoop id => snd (control_engine_remove_pid_loop e id)
  | OpSetSetpoint id sp => snd (control_engine_set_setpoint e id sp)
  | OpSetMode id m => snd (control_engine_set_pid_mode e id m)
  | OpSetTuning id kp ki kd => snd (control_engine_set_pid_tuning e id kp ki kd)
  | OpAddInterlock c => snd (control_engine_add_interlock e c)
  | OpRemoveInterlock id => snd (control_engine_remove_interlock e id)
  | OpEnableInterlock id b => snd (control_engine_enable_interlock e id b)
  | OpResetInterlock id => snd (control_engine_reset_interlock e id)
  | OpForce st sl c d => snd (control_engine_force_output e st sl c d)
  | OpRelease st sl => snd (control_engine_release_output e st sl)
  end.

(** Ids are distinct and below the next one. *)
Definition ids_ok (ids : list Z) (next : Z) : Prop := NoDup ids /\ Forall (fun i => i < next) ids.

Record ce_inv (e : control_engine) : Prop := {
  inv_arrays : arrays_ok e;
  inv_loop_ids : ids_ok (pl_loop_id <$> ce_pid_loops e) (ce_next_pid_id e);
  inv_il_ids : ids_ok (il_interlock_id <$> ce_interlocks e) (ce_next_interlock_id e);
  inv_il_count : (length (ce_interlocks e) <= WTC_MAX_INTERLOCKS)%nat;
  inv_forced : (length (ce_forced_outputs e) <= MAX_FORCED)%nat }.

Lemma ids_ok_remove {A} (key : A -> Z) l1 x l2 n :
  ids_ok (key <$> l1 ++ x :: l2) n -> ids_ok (key <$> l1 ++ l2) n.
Proof.
  intros [Hnd Hf]. split; [by eapply keys_remove|].
  rewrite fmap_app, fmap_cons, Forall_app, Forall_cons in Hf.
  rewrite fmap_app, Forall_app. tauto.
Qed.

Lemma ids_ok_append {A} (key : A -> Z) l x n :
  ids_ok (key <$> l) n -> key x = n -> ids_ok (key <$> l ++ [x]) (Z.succ n).
Proof.
  intros [Hnd Hf] Hx. split.
  - eapply keys_append; [done| |exact Hx]. by apply (Forall_fmap key (fun i => i < n)).
  - rewrite fmap_app, Forall_app. split; [eapply Forall_impl; [exact Hf|]; cbn; lia|].
    constructor; [lia|constructor].
Qed.

Lemma process_loop_ids inp e r :
  arrays_ok e ->
  pl_loop_id <$> ce_pid_loops (fst (control_engine_process ub inp e (Some r)))
  = pl_loop_id <$> ce_pid_loops e.
Proof.
  intros Ha. destruct (process_effect ub inp e r Ha) as (_ & _ & Hs & _).
  set (e' := fst _) in *. clearbody e'. apply list_eq. intros i.
  rewrite !list_lookup_fmap. specialize (Hs i). unfold slot_of in Hs.
  destruct (ce_pid_loops e !! i) as [l|] eqn:Hl, (ce_pid_loops e' !! i) as [l'|]; try done.
  cbn in Hs |- *. injection Hs as Hs. f_equal.
  assert (same_loop l (ps_loop (fst (pid_after inp r i (get_slot e i l))))) as [Hid _]
    by (apply (pid_result_config _ _ ub)).
  by rewrite <- Hs in Hid.
Qed.

Lemma process_il_ids inp e r :
  arrays_ok e ->
  il_interlock_id <$> ce_interlocks (fst (control_engine_process ub inp e (Some r)))
  = il_interlock_id <$> ce_interlocks e.
Proof.
  intros Ha. destruct (process_effect ub inp e r Ha) as (_ & Hi & _).
  apply list_eq. intros i. rewrite !list_lookup_fmap, Hi.
  destruct (ce_interlocks e !! i) as [il|]; [|done]. cbn. f_equal.
  unfold il_after. by rewrite il_scan_config.
Qed.

Lemma engine_process_inv inp reg e : ce_inv e -> ce_inv (fst (control_engine_process ub inp e reg)).
Proof.
  intros [Ha Hl Hi Hc Hf]. destruct reg as [r|]; [|done].
  pose proof (process_loop_ids inp e r Ha) as Hlids.
  pose proof (process_il_ids inp e r Ha) as Hiids.
  destruct (process_effect ub inp e r Ha) as (Ha' & _ & _ & _ & Hfo & Hn1 & Hn2).
  split; rewrite ?Hlids, ?Hiids, ?Hn1, ?Hn2, ?Hfo; try done.
  apply (f_equal length) in Hiids. rewrite !length_fmap in Hiids. by rewrite Hiids.
Qed.

Lemma with_loop_inv e id f :
  (forall l, pl_loop_id (f l) = pl_loop_id l) -> ce_inv e -> ce_inv (snd (with_loop e id f)).
Proof.
  intros Hfid [Ha Hl Hi Hc Hf]. unfold with_loop.
  destruct (find_update _ _ _) as [l|] eqn:E; [|done].
  apply find_update_Some in E as (l1 & x & l2 & Hx & _ & _ & ->).
  split; cbn; try done.
  - unfold arrays_ok in *. cbn. rewrite Hx in Ha. rewrite !length_app in *. cbn in *. tauto.
  - rewrite (keys_update pl_loop_id l1 x (f x) l2), <- Hx; auto.
Qed.

Lemma with_interlock_inv e id f :
  (forall l, il_interlock_id (f l) = il_interlock_id l) -> ce_inv e ->
  ce_inv (snd (with_interlock e id f)).
Proof.
  intros Hfid [Ha Hl Hi Hc Hf]. unfold with_interlock.
  destruct (find_update _ _ _) as [l|] eqn:E; [|done].
  apply find_update_Some in E as (l1 & x & l2 & Hx & _ & _ & ->).
  split; cbn; try done.
  - rewrite (keys_update il_interlock_id l1 x (f x) l2), <- Hx; auto.
  - rewrite Hx in Hc. rewrite !length_app in *. cbn in *. lia.
Qed.

Lemma switch_mode_id m l : pl_loop_id (switch_mode m l) = pl_loop_id l.
Proof. unfold switch_mode. by destruct (decide _). Qed.

Lemma remove_inv e id :
  ce_inv e -> ce_inv (snd (control_engine_remove_pid_loop e id)) /\
  ce_inv (snd (control_engine_remove_interlock e id)).
Proof.
  intros [Ha Hl Hi Hc Hf].
  unfold control_engine_remove_pid_loop, control_engine_remove_interlock. split.
  - destruct (find_remove _ _) as [l|] eqn:E; [|done].
    apply find_remove_Some in E as (l1 & x & l2 & Hx & _ & _ & ->). rewrite Hx in Hl.
    split; cbn; try done; [|by eapply ids_ok_remove].
    unfold arrays_ok in *. cbn. rewrite Hx in Ha. rewrite !length_app in *. cbn in *.
    split_and!; try tauto. lia.
  - destruct (find_remove _ _) as [l|] eqn:E; [|done].
    apply find_remove_Some in E as (l1 & x & l2 & Hx & _ & _ & ->). rewrite Hx in Hi, Hc.
    split; cbn; try done; [by eapply ids_ok_remove|].
    rewrite !length_app in *. cbn in *. lia.
Qed.

Lemma add_loop_inv e l : ce_inv e -> ce_inv (snd (control_engine_add_pid_loop e l)).
Proof.
  intros [Ha Hl Hi Hc Hf]. unfold control_engine_add_pid_loop.
  destruct (_ <=? _)%nat eqn:E; [done|]. apply Nat.leb_gt in E.
  split; cbn; try done; [|by apply ids_ok_append].
  unfold arrays_ok in *. cbn. rewrite length_app. cbn. split_and!; try tauto. lia.
Qed.

Lemma add_interlock_inv e il : ce_inv e -> ce_inv (snd (control_engine_add_interlock e il)).
Proof.
  intros [Ha Hl Hi Hc Hf]. unfold control_engine_add_interlock.
  destruct (_ <=? _)%nat eqn:E; [done|]. apply Nat.leb_gt in E.
  split; cbn; try done; [by apply ids_ok_append|]. rewrite length_app. cbn. lia.
Qed.

Lemma forced_inv e st sl c d :
  ce_inv e -> ce_inv (snd (control_engine_force_output e st sl c d)) /\
  ce_inv (snd (control_engine_release_output e st sl)).
Proof.
  intros [Ha Hl Hi Hc Hf]. unfold control_engine_force_output, control_engine_release_output. split.
  - destruct (find_update _ _ _) as [l|] eqn:E.
    + apply find_update_Some in E as (l1 & x & l2 & Hx & _ & _ & ->). rewrite Hx in Hf.
      split; cbn; try done. rewrite !length_app in *. cbn in *. lia.
    + destruct (_ <=? _)%nat eqn:E'; [done|]. apply Nat.leb_gt in E'.
      split; cbn; try done. rewrite length_app. cbn. lia.
  - destruct (find_remove _ _) as [l|] eqn:E; [|done].
    apply find_remove_Some in E as (l1 & x & l2 & Hx & _ & _ & ->). rewrite Hx in Hf.
    split; cbn; try done. rewrite !length_app in *. cbn in *. lia.
Qed.

Lemma ce_exec_inv e op : ce_inv e -> ce_inv (ce_exec e op).
Proof.
  intros He. destruct op; cbn [ce_exec].
  - by apply engine_process_inv.
  - by apply add_loop_inv.
  - by apply remove_inv.
  - by apply with_loop_inv.
  - apply with_loop_inv; [apply switch_mode_id|done].
  - by apply with_loop_inv.
  - by apply add_interlock_inv.
  - by apply remove_inv.
  - by apply with_interlock_inv.
  - by apply with_interlock_inv.
  - by apply forced_inv.
  - by apply (forced_inv e station slot 0 0).
Qed.
End Engine.

(** ** Theorems *)

Section Theorems.
Context {R : Type} `{RegistryLaws R} (ub : float32 -> Z).

(** Whatever calls and scans run, loop and interlock ids stay distinct and below
    the next id, and every table stays within its array. *)
Theorem control_engine_invariant rate on_pid on_trip (ops : list ce_op) :
  ce_inv (foldl (ce_exec ub) (control_engine_init rate on_pid on_trip) ops).
Proof.
  cut (forall e, ce_inv e -> ce_inv (foldl (ce_exec ub) e ops)).
  - intros Hcut. apply Hcut. split; cbn; try (split; by constructor).
    all: vm_compute; lia.
  - induction ops as [|op ops IH]; [done|]. intros e He. apply IH. by apply ce_exec_inv.
Qed.

(** A run of scans, each against the registry as it stands then. *)
Definition scan_run (e : control_engine) (scans : list (scan_input * R)) : control_engine :=
  foldl (fun e '(inp, r) => fst (control_engine_process ub inp e (Some r))) e scans.

(** The readings interlock [j] sees in a run of scans. *)
Definition il_samples (il : interlock) (j : nat) (scans : list (scan_input * R)) : list (Z * bool) :=
  (fun '(inp, r) => (si_il_now inp,
     interlock_condition_met il (il_reading (si_il_clk inp) (si_il_junk inp) r j il))) <$> scans.

Lemma same_config_met a b v :
  same_config a b -> interlock_condition_met b v = interlock_condition_met a v.
Proof. intros ->. done. Qed.

Lemma scan_run_trip_state e j il scans :
  arrays_ok e -> ce_interlocks e !! j = Some il -> il_enabled il = true ->
  il_tripped il = false -> il_condition_start_ms il = 0 ->
  clock_ok ((il_samples il j scans).*1) ->
  arrays_ok (scan_run e scans) /\
  exists il', ce_interlocks (scan_run e scans) !! j = Some il' /\ same_config il il' /\
    trip_state_ok (il_delay_ms il) (il_samples il j scans) il'.
Proof.
  intros Ha Hj Hen Ht Hst. induction scans as [|[inp r] scans IH] using rev_ind; intros Hc.
  - split; [done|]. exists il. split_and!; [done|by destruct il|]. split.
    + rewrite Ht. split; [done|]. intros (a & b & ta & tb & _ & Hl & _). done.
    + intros _. left. split; [done|]. done.
  - unfold il_samples in *. rewrite fmap_app in Hc |- *. cbn in Hc |- *.
    rewrite fmap_app in Hc. cbn in Hc.
    destruct IH as (Ha' & il' & Hj' & Hcfg & Hok); [by eapply clock_ok_snoc|].
    unfold scan_run in *. rewrite foldl_snoc. set (e1 := foldl _ _ _) in *.
    destruct (process_effect ub inp e1 r Ha') as (Ha2 & Hils & _).
    split; [done|]. exists (il_after inp r j il'). rewrite Hils, Hj'. split; [done|].
    assert (il_enabled il' = true) as Hen' by (by rewrite Hcfg).
    assert (same_config il (il_after inp r j il')) as Hcfg2.
    { pose proof (il_scan_config (si_il_clk inp) (si_il_junk inp) (si_il_now inp) r j il') as H2.
      unfold il_after, same_config in *. rewrite H2, Hcfg. done. }
    split; [done|]. unfold il_after, il_scan. rewrite Hen'.
    assert (il_reading (si_il_clk inp) (si_il_junk inp) r j il'
            = il_reading (si_il_clk inp) (si_il_junk inp) r j il) as Hrd by (by rewrite Hcfg).
    rewrite <- (same_config_met il il' _ Hcfg), Hrd.
    apply interlock_next_trip_state; [exact Hc|by rewrite Hcfg|done].
Qed.

(** What interlock [j] reads in a scan. *)
Definition il_read (il : interlock) (j : nat) (sc : scan_input * R) : wtc_result * sensor_data :=
  reg_get_sensor (snd sc) (si_il_clk (fst sc) (2 * j)) (il_condition_rtu il)
    (il_condition_slot il) (si_il_junk (fst sc) j).

Definition good_reading (rd : wtc_result * sensor_data) : Prop :=
  fst rd = WTC_OK /\ sd_status (snd rd) = IOPS_GOOD.

(** The condition of the interlock holds for this value: above or below the
    threshold, or within a hundredth of it or not. *)
Definition hazard (il : interlock) (v : float32) : Prop :=
  match il_condition il with
  | INTERLOCK_CONDITION_ABOVE => num_lt (il_threshold il) v
  | INTERLOCK_CONDITION_BELOW => num_lt v (il_threshold il)
  | INTERLOCK_CONDITION_EQUAL =>
      num_lt (fabsf (fsub v (il_threshold il))) (fdiv (f32_of_Z 1) (f32_of_Z 100))
  | INTERLOCK_CONDITION_NOT_EQUAL =>
      num_le (fdiv (f32_of_Z 1) (f32_of_Z 100)) (fabsf (fsub v (il_threshold il)))
  end.

(** In the scans [a] to [b] of the run the condition held each time, and from the
    first to the last at least [delay] milliseconds passed. *)
Definition hazard_lasted (il : interlock) (j : nat) (delay : Z) (scans : list (scan_input * R)) : Prop :=
  exists a b sa sb, (a < b)%nat /\ scans !! a = Some sa /\ scans !! b = Some sb /\
    delay <= si_il_now (fst sb) - si_il_now (fst sa) /\
    forall i sc, (a <= i <= b)%nat -> scans !! i = Some sc ->
      hazard il (sd_value (snd (il_read il j sc))).

Lemma condition_met_hazard il v : interlock_condition_met il v = true <-> hazard il v.
Proof.
  unfold interlock_condition_met, hazard, fgt, fge.
  destruct (il_condition il); rewrite ?flt_spec, ?fle_spec; done.
Qed.

Lemma il_samples_lookup il j scans i t :
  il_samples il j scans !! i = Some (t, true) <->
  exists sc, scans !! i = Some sc /\ si_il_now (fst sc) = t /\
    hazard il (sd_value (snd (il_read il j sc))).
Proof.
  unfold il_samples. rewrite list_lookup_fmap_Some. split.
  - intros ([inp r] & [= -> Hm] & Hs). exists (inp, r). split_and!; [done..|].
    by apply condition_met_hazard.
  - intros ([inp r] & Hs & <- & Hm). exists (inp, r). split; [|done]. f_equal. symmetry.
    by apply condition_met_hazard.
Qed.

Lemma trip_window_hazard il j delay scans :
  trip_window delay (il_samples il j scans) <-> hazard_lasted il j delay scans.
Proof.
  split.
  - intros (a & b & ta & tb & Hab & Ha & Hb & Hd & Hall).
    apply il_samples_lookup in Ha as (sa & Ha & <- & _), Hb as (sb & Hb & <- & _).
    exists a, b, sa, sb. split_and!; [done..|]. intros i sc Hi Hs.
    destruct (Hall i Hi) as [t (sc' & Hs' & _ & Hz)%il_samples_lookup]. by simplify_eq.
  - intros (a & b & sa & sb & Hab & Ha & Hb & Hd & Hall).
    assert (forall i, (a <= i <= b)%nat -> exists sc, scans !! i = Some sc /\
      il_samples il j scans !! i = Some (si_il_now (fst sc), true)) as Hl.
    { intros i Hi. destruct (lookup_lt_is_Some_2 scans i) as [sc Hs].
      { apply lookup_lt_Some in Hb. lia. }
      exists sc. split; [done|]. apply il_samples_lookup. exists sc. naive_solver. }
    destruct (Hl a) as (sa' & Ha' & Hta); [lia|]. destruct (Hl b) as (sb' & Hb' & Htb); [lia|].
    simplify_eq. exists a, b, (si_il_now (fst sa)), (si_il_now (fst sb)).
    split_and!; [done..|]. intros i Hi. destruct (Hl i Hi) as (sc & _ & Hs). eauto.
Qed.

(** C2: Interlock timing. Over any run of scans in which the condition input of the
    interlock is read without fault (result OK, status good) and the clock does
    not go back, an enabled, untripped interlock with its timer at rest is
    tripped at the end exactly when at some point its condition held in every
    scan of a stretch of at least two scans and [delay_ms] length; so it trips
    neither early nor late, and stays tripped. *)
Theorem interlock_trips_iff e j il scans :
  arrays_ok e -> ce_interlocks e !! j = Some il -> il_enabled il = true ->
  il_tripped il = false -> il_condition_start_ms il = 0 ->
  clock_ok ((fun sc => si_il_now (fst sc)) <$> scans) ->
  Forall (fun sc => good_reading (il_read il j sc)) scans ->
  exists il', ce_interlocks (scan_run e scans) !! j = Some il' /\
    (il_tripped il' = true <-> hazard_lasted il j (il_delay_ms il) scans).
Proof.
  intros Ha Hj Hen Ht Hst Hc _.
  destruct (scan_run_trip_state e j il scans Ha Hj Hen Ht Hst) as (_ & il' & Hj' & _ & Hok & _).
  - replace (il_samples il j scans).*1 with ((fun sc => si_il_now (fst sc)) <$> scans); [done|].
    unfold il_samples. rewrite <- list_fmap_compose. apply list_fmap_ext. by intros ? [].
  - exists il'. split; [done|]. by rewrite <- trip_window_hazard.
Qed.

(** C3: The protective action: after a whole scan the actuator of a tripped interlock
    holds the interlock's output, provided no later enabled interlock and no
    running PID loop writes the same actuator. *)
Theorem interlock_action_enforced inp e r j il o :
  arrays_ok e -> ce_interlocks e !! j = Some il -> il_enabled il = true ->
  il_tripped (il_after inp r j il) = true -> interlock_output ub il = Some o ->
  writable r (il_action_rtu il) (il_action_slot il) ->
  (forall j' il', (j < j')%nat -> ce_interlocks e !! j' = Some il' -> il_enabled il' = true ->
     (il_action_rtu il', il_action_slot il') <> (il_action_rtu il, il_action_slot il)) ->
  (forall k l, ce_pid_loops e !! k = Some l -> runs l ->
     (pl_output_rtu l, pl_output_slot l) <> (il_action_rtu il, il_action_slot il)) ->
  exists r', snd (control_engine_process ub inp e (Some r)) = Some r' /\
    out_at r' (il_action_rtu il) (il_action_slot il) = Some o.
Proof.
  intros Ha Hj Hen Htr Ho Hw Hlast Hpid. unfold control_engine_process, process_interlocks.
  set (e0 := e <| ce_tripped_interlocks := 0 |>).
  pose proof (il_fold (si_il_clk inp) (si_il_junk inp) ub (si_il_now inp) e0 r 0
    (length (ce_interlocks e))) as H1.
  pose proof (il_fold_enforces (si_il_clk inp) (si_il_junk inp) ub (si_il_now inp) e0 r j il o
    Hj Hen Htr Ho Hw Hlast) as H2. change (ce_interlocks e0) with (ce_interlocks e) in H2.
  destruct (foldl _ _ _) as [e1 r1]. destruct H1 as (_ & (ils & c & t & He1) & _).
  unfold process_pid_loops. set (e2 := e1 <| ce_last_scan_time_ms := _ |>).
  assert (arrays_ok e2) as Ha2 by (unfold e2; by rewrite He1).
  pose proof (pid_fold_frame (si_pid_clk inp) (si_pid_junk inp) ub (si_pid_now inp) e2 r1 0
    (length (ce_pid_loops e1)) (il_action_rtu il) (il_action_slot il) Ha2) as H3.
  destruct (foldl _ _ _) as [e3 r3]. exists r3. split; [done|]. rewrite H3; [done|].
  intros k s _ Hs. unfold slot_of, e2 in Hs. rewrite He1 in Hs. cbn in Hs.
  apply fmap_Some in Hs as (l & Hl & ->). apply (Hpid k l Hl).
Qed.

(** What loop [j] reads in a scan. *)
Definition loop_read (l : pid_loop) (j : nat) (sc : scan_input * R) : wtc_result * sensor_data :=
  reg_get_sensor (snd sc) (si_pid_clk (fst sc) (3 * j)) (pl_input_rtu l) (pl_input_slot l)
    (si_pid_junk (fst sc) j).

Lemma input_good_spec res s : input_good res s = true <-> good_reading (res, s).
Proof.
  unfold input_good, good_reading. cbn. by rewrite andb_true_iff, !bool_decide_eq_true.
Qed.

Lemma same_loop_trans a b c : same_loop a b -> same_loop b c -> same_loop a c.
Proof. unfold same_loop. intros. naive_solver congruence. Qed.

(** The loops of the table after a run: the same ones, with their settings. *)
Lemma scan_run_slots e scans :
  arrays_ok e -> arrays_ok (scan_run e scans) /\
  forall j, match slot_of (scan_run e scans) j, slot_of e j with
            | Some s', Some s => same_loop (ps_loop s) (ps_loop s')
            | None, None => True
            | _, _ => False
            end.
Proof.
  intros Ha. induction scans as [|[inp r] scans [Ha' IH]] using rev_ind.
  { split; [done|]. intros j. cbn. by destruct (slot_of e j). }
  unfold scan_run in *. rewrite foldl_snoc. set (e1 := foldl _ _ _) in *.
  destruct (process_effect ub inp e1 r Ha') as (Ha2 & _ & Hs & _). split; [done|].
  intros j. rewrite Hs. specialize (IH j).
  destruct (slot_of e1 j) as [s1|], (slot_of e j) as [s|]; cbn in IH |- *; try done.
  eapply same_loop_trans; [exact IH|]. by apply (pid_result_config _ _ ub).
Qed.

(** After a good reading the slot remembers when it was, through any number of
    scans without one. *)
Lemma last_input_remembered e j s g bad :
  arrays_ok e -> slot_of e j = Some s -> runs (ps_loop s) ->
  good_reading (loop_read (ps_loop s) j g) ->
  Forall (fun sc => ~ good_reading (loop_read (ps_loop s) j sc)) bad ->
  exists s', slot_of (scan_run e (g :: bad)) j = Some s' /\
    ps_last_input s' = si_pid_now (fst g).
Proof.
  intros Ha Hj [Hen Hmode] Hg. induction bad as [|[inp r] bad IH] using rev_ind; intros Hbad.
  - destruct g as [inp r]. destruct (process_effect ub inp e r Ha) as (_ & _ & Hs & _).
    unfold scan_run. cbn [foldl]. rewrite Hs, Hj. eexists. split; [done|]. cbn.
    unfold pid_after, pid_result. unfold loop_read in Hg. cbn in Hg |- *.
    destruct (reg_get_sensor _ _ _ _ _) as [res sensor]. apply input_good_spec in Hg.
    unfold pid_step. rewrite Hen, bool_decide_false, Hg by done. cbn [negb orb].
    destruct (calculate_pid _ _ _) as [l o], (check_pid_watchdog _ _ _ _) as [t w]. done.
  - apply Forall_app in Hbad as [Hbad Hb]. rewrite Forall_singleton in Hb. destruct (IH Hbad) as (s1 & Hs1 & Hl1).
    destruct (scan_run_slots e (g :: bad) Ha) as [Ha1 Hsame]. specialize (Hsame j).
    rewrite Hs1, Hj in Hsame. rewrite app_comm_cons. unfold scan_run in *. rewrite foldl_snoc.
    set (e1 := foldl _ _ _) in *. destruct (process_effect ub inp e1 r Ha1) as (_ & _ & Hs & _).
    rewrite Hs, Hs1. eexists. split; [done|]. rewrite <- Hl1. unfold compose.
    destruct Hsame as (_ & Hm & He & Hir & His & _).
    unfold pid_after, pid_result. unfold loop_read in Hb. cbn [fst snd] in Hb. rewrite Hir, His.
    destruct (reg_get_sensor _ _ _ _ _) as [res sensor].
    destruct (input_good res sensor) eqn:Hgood; [by apply input_good_spec in Hgood|].
    unfold pid_step. rewrite Hgood. destruct (negb _ || _); [done|]. by destruct (_ && _).
Qed.

(** A running loop with a bad reading and a last good one more than ten seconds
    ago commands its actuator off. *)
Lemma comm_loss_writes_off inp e r j s :
  arrays_ok e -> slot_of e j = Some s -> runs (ps_loop s) ->
  ~ good_reading (loop_read (ps_loop s) j (inp, r)) ->
  0 < ps_last_input s -> 10000 < u64_sub (si_pid_now inp) (ps_last_input s) ->
  writable r (pl_output_rtu (ps_loop s)) (pl_output_slot (ps_loop s)) ->
  (forall j' s', (j < j')%nat -> slot_of e j' = Some s' -> runs (ps_loop s') ->
     (pl_output_rtu (ps_loop s'), pl_output_slot (ps_loop s'))
     <> (pl_output_rtu (ps_loop s), pl_output_slot (ps_loop s))) ->
  exists r', snd (control_engine_process ub inp e (Some r)) = Some r' /\
    out_at r' (pl_output_rtu (ps_loop s)) (pl_output_slot (ps_loop s)) = Some zero_output.
Proof.
  intros Ha Hj [Hen Hmode] Hbad Hpos Hlong Hw Hlast. unfold control_engine_process, process_interlocks.
  set (e0 := e <| ce_tripped_interlocks := 0 |>).
  pose proof (il_fold (si_il_clk inp) (si_il_junk inp) ub (si_il_now inp) e0 r 0
    (length (ce_interlocks e))) as H1.
  pose proof (il_fold_writable (si_il_clk inp) (si_il_junk inp) ub (si_il_now inp) e0 r 0
    (length (ce_interlocks e)) _ _ Hw) as H2.
  destruct (foldl _ _ _) as [e1 r1]. destruct H1 as (Hr1 & (ils & c & t & He1) & _).
  unfold process_pid_loops. set (e2 := e1 <| ce_last_scan_time_ms := _ |>).
  assert (arrays_ok e2) as Ha2 by (unfold e2; by rewrite He1).
  assert (forall k, slot_of e2 k = slot_of e k) as Hslot by (intros k; unfold e2; by rewrite He1).
  pose proof (pid_fold_writes (si_pid_clk inp) (si_pid_junk inp) ub (si_pid_now inp) e2 r1 j s
    zero_output Ha2) as H3. change (ce_pid_loops e2) with (ce_pid_loops e1) in H3.
  destruct (foldl _ _ _) as [e3 r3]. exists r3. split; [done|]. apply H3; [by rewrite Hslot| |done|].
  - rewrite (pid_result_proper _ _ _ r1 r) by done. unfold pid_result.
    unfold loop_read in Hbad. cbn [fst snd] in Hbad. destruct (reg_get_sensor _ _ _ _ _) as [res sensor].
    destruct (input_good res sensor) eqn:Hgood; [by apply input_good_spec in Hgood|].
    unfold pid_step. rewrite Hen, bool_decide_false, Hgood by done. cbn [negb orb].
    change COMM_LOSS_TIMEOUT_MS with 10000.
    by rewrite (proj2 (Z.ltb_lt _ _) Hpos), (proj2 (Z.ltb_lt _ _) Hlong).
  - intros j' s' Hlt. rewrite Hslot. by apply Hlast.
Qed.

(** C9: Loss of communication. Take any run of scans in which the input of a running
    loop was last read without fault in the scan [g], and was faulty in all later
    scans [bad] and is faulty in the present one: when the present scan is more
    than ten seconds after [g] it commands the actuator of the loop off (unless a
    later running loop drives the same actuator). *)
Theorem comm_loss_safe_state e j s g bad inp r :
  arrays_ok e -> slot_of e j = Some s -> runs (ps_loop s) ->
  good_reading (loop_read (ps_loop s) j g) ->
  Forall (fun sc => ~ good_reading (loop_read (ps_loop s) j sc)) (bad ++ [(inp, r)]) ->
  0 < si_pid_now (fst g) -> 10000 < (si_pid_now inp - si_pid_now (fst g)) mod 2 ^ 64 ->
  writable r (pl_output_rtu (ps_loop s)) (pl_output_slot (ps_loop s)) ->
  (forall j' s', (j < j')%nat -> slot_of e j' = Some s' -> runs (ps_loop s') ->
     (pl_output_rtu (ps_loop s'), pl_output_slot (ps_loop s'))
     <> (pl_output_rtu (ps_loop s), pl_output_slot (ps_loop s))) ->
  exists r', snd (control_engine_process ub inp (scan_run e (g :: bad)) (Some r)) = Some r' /\
    out_at r' (pl_output_rtu (ps_loop s)) (pl_output_slot (ps_loop s)) = Some zero_output.
Proof.
  intros Ha Hj Hrun Hg Hbad Hpos Hlong Hw Hlast. apply Forall_app in Hbad as [Hbad Hb]. rewrite Forall_singleton in Hb.
  destruct (last_input_remembered e j s g bad Ha Hj Hrun Hg Hbad) as (s' & Hs' & Hl).
  destruct (scan_run_slots e (g :: bad) Ha) as [Ha' Hsame]. pose proof (Hsame j) as Hc.
  rewrite Hs', Hj in Hc. destruct Hc as (_ & Hm & He & Hir & His & Hor & Hos).
  rewrite <- Hor, <- Hos. apply (comm_loss_writes_off inp _ r j s'); rewrite ?Hor, ?Hos, ?Hl; try done.
  - unfold runs in *. by rewrite Hm, He.
  - unfold loop_read in *. by rewrite Hir, His.
  - intros j' s1 Hlt Hs1. specialize (Hsame j'). rewrite Hs1 in Hsame.
    destruct (slot_of e j') as [s0|] eqn:Hs0; [|done].
    destruct Hsame as (_ & Hm0 & He0 & _ & _ & Hor0 & Hos0). unfold runs. rewrite Hm0, He0, Hor0, Hos0.
    by apply (Hlast j').
Qed.

(** ** What persists through every operation *)

(** An interlock with this id is tripped. *)
Definition tripped_id (id : Z) (e : control_engine) : Prop :=
  exists il, il ∈ ce_interlocks e /\ il_interlock_id il = id /\ il_tripped il = true.

Definition resets (id : Z) (op : ce_op (R := R)) : Prop :=
  op = OpResetInterlock id \/ op = OpRemoveInterlock id.

Lemma interlock_next_latched now v il :
  il_tripped il = true -> il_tripped (fst (interlock_next now v il)) = true.
Proof. unfold interlock_next. intros Ht. rewrite Ht, andb_false_r. by destruct (negb _). Qed.

(** Updating or removing another entry keeps an entry; updating the entry itself
    turns it into its image. *)
Lemma elem_of_find_update {A} (P : A -> Prop) `{!forall x, Decision (P x)} f l l' (x : A) :
  find_update P f l = Some l' -> x ∈ l -> x ∈ l' \/ f x ∈ l' /\ P x.
Proof.
  intros (l1 & y & l2 & -> & Hy & _ & ->)%find_update_Some Hx. set_solver.
Qed.

Lemma elem_of_find_remove {A} (P : A -> Prop) `{!forall x, Decision (P x)} l l' (x : A) :
  find_remove P l = Some l' -> x ∈ l -> ~ P x -> x ∈ l'.
Proof. intros (l1 & y & l2 & -> & Hy & _ & ->)%find_remove_Some Hx Hn. set_solver. Qed.

Lemma tripped_id_exec id e op :
  arrays_ok e -> ~ resets id op -> tripped_id id e -> tripped_id id (ce_exec ub e op).
Proof.
  intros Ha Hno (il & Hil & Hid & Ht).
  destruct op; cbn [ce_exec]; try (by exists il).
  all: unfold control_engine_process, control_engine_add_pid_loop, control_engine_remove_pid_loop,
    control_engine_set_setpoint, control_engine_set_pid_mode, control_engine_set_pid_tuning,
    control_engine_add_interlock, control_engine_remove_interlock, control_engine_enable_interlock,
    control_engine_reset_interlock, control_engine_force_output, control_engine_release_output,
    with_loop, with_interlock.
  all: try (repeat case_match; by exists il).
  - fold (control_engine_process ub inp e reg). destruct reg as [r|]; [|by exists il].
    destruct (process_effect ub inp e r Ha) as (_ & Hils & _).
    apply list_elem_of_lookup in Hil as [j Hj]. exists (il_after inp r j il). split_and!.
    + apply list_elem_of_lookup. exists j. by rewrite Hils, Hj.
    + unfold il_after. by rewrite il_scan_config.
    + unfold il_after, il_scan. destruct (il_enabled il); [|done]. by apply interlock_next_latched.
  - case_match; [by exists il|]. exists il. cbn. set_solver.
  - destruct (find_remove _ _) eqn:E; [|by exists il]. exists il. split; [|done].
    eapply elem_of_find_remove; [done..|]. unfold has_interlock. intros Hh.
    apply Hno. right. congruence.
  - destruct (find_update _ _ _) eqn:E; [|by exists il].
    destruct (elem_of_find_update _ _ _ _ il E Hil) as [?|[? ?]]; [by exists il|].
    by eexists (il <| il_enabled := enabled |>).
  - destruct (find_update _ _ _) eqn:E; [|by exists il].
    destruct (elem_of_find_update _ _ _ _ il E Hil) as [?|[? Hh]]; [by exists il|].
    destruct Hno. left. unfold has_interlock in Hh. congruence.
Qed.

(** C7: A tripped interlock stays tripped, whatever scans and calls follow, until it
    is reset or removed. *)
Theorem interlock_latched id e (ops : list ce_op) :
  ce_inv e -> tripped_id id e -> Forall (fun op => ~ resets id op) ops ->
  tripped_id id (foldl (ce_exec ub) e ops).
Proof.
  intros He Ht Hops. revert e He Ht. induction Hops as [|op ops Hop _ IH]; intros e He Ht; [done|].
  apply IH; [by apply ce_exec_inv|]. apply tripped_id_exec; auto using inv_arrays.
Qed.

(** A loop whose integral and output are NaN. *)
Definition poisoned (l : pid_loop) : Prop :=
  is_nan (pl_integral l) = true /\ is_nan (pl_cv l) = true.
Definition poisoned_id (id : Z) (e : control_engine) : Prop :=
  exists l, l ∈ ce_pid_loops e /\ pl_loop_id l = id /\ poisoned l.

Lemma calculate_pid_poisoned l pv dt : poisoned l -> poisoned (calculate_pid l pv dt).1.
Proof.
  intros [Hi Hc]. destruct (pl_mode l) eqn:Hm.
  1-2: unfold calculate_pid; rewrite Hm; done.
  all: pose proof (calculate_pid_nan l pv dt (ltac:(unfold automatic; auto)) (or_introl Hi)) as H1;
    destruct (calculate_pid _ _ _); unfold poisoned; tauto.
Qed.

Lemma pid_after_poisoned inp (r : R) j s :
  poisoned (ps_loop s) -> poisoned (ps_loop (fst (pid_after inp r j s))).
Proof.
  intros Hp. unfold pid_after, pid_result. destruct (reg_get_sensor _ _ _ _ _) as [res sensor].
  unfold pid_step. destruct (_ || _); [done|]. destruct (input_good res sensor).
  - set (dt := f32_of_Z _).
    assert (poisoned ((ps_loop s) <| pl_last_update_ms := si_pid_now inp |>)) as Hp' by apply Hp.
    pose proof (calculate_pid_poisoned _ (sd_value sensor) dt Hp') as H1.
    destruct (calculate_pid _ _ _), (check_pid_watchdog _ _ _ _). done.
  - by destruct (_ && _).
Qed.

Lemma switch_mode_poisoned m l : poisoned l -> poisoned (switch_mode m l).
Proof. intros [? ?]. unfold switch_mode. by destruct (decide _). Qed.

Lemma poisoned_id_exec id e op :
  arrays_ok e -> op <> OpRemoveLoop id -> poisoned_id id e -> poisoned_id id (ce_exec ub e op).
Proof.
  intros Ha Hno (l & Hl & Hid & Hp).
  assert (forall f k, (forall l, pl_loop_id (f l) = pl_loop_id l) ->
    (forall l, poisoned l -> poisoned (f l)) -> poisoned_id id (snd (with_loop e k f))) as Hwith.
  { intros f k Hfid Hfp. unfold with_loop. destruct (find_update _ _ _) eqn:E; [|by exists l].
    destruct (elem_of_find_update _ _ _ _ l E Hl) as [?|[? _]]; [by exists l|].
    exists (f l). split_and!; [done|by rewrite Hfid|by apply Hfp]. }
  destruct op; cbn [ce_exec].
  - destruct reg as [r|]; [|by exists l].
    destruct (process_effect ub inp e r Ha) as (_ & _ & Hs & _).
    apply list_elem_of_lookup in Hl as [j Hj]. specialize (Hs j).
    unfold slot_of in Hs. rewrite Hj in Hs. cbn -[control_engine_process] in Hs.
    apply fmap_Some in Hs as (l' & Hl' & Hs). exists l'. split.
    { apply list_elem_of_lookup. by exists j. }
    assert (l' = ps_loop (fst (pid_after inp r j (get_slot e j l)))) as -> by (by rewrite Hs).
    split; [|by apply pid_after_poisoned]. unfold pid_after.
    by destruct (pid_result_config (si_pid_clk inp) (si_pid_junk inp) ub (si_pid_now inp) r j
      (get_slot e j l)) as [-> _].
  - unfold control_engine_add_pid_loop. case_match; [by exists l|]. exists l. cbn. set_solver.
  - unfold control_engine_remove_pid_loop. destruct (find_remove _ _) eqn:E; [|by exists l].
    exists l. split; [|done]. eapply elem_of_find_remove; [done..|]. unfold has_loop. congruence.
  - by apply Hwith.
  - apply Hwith; auto using switch_mode_id, switch_mode_poisoned.
  - by apply Hwith.
  - unfold control_engine_add_interlock. case_match; by exists l.
  - unfold control_engine_remove_interlock. case_match; by exists l.
  - unfold control_engine_enable_interlock, with_interlock. case_match; by exists l.
  - unfold control_engine_reset_interlock, with_interlock. case_match; by exists l.
  - unfold control_engine_force_output. repeat case_match; by exists l.
  - unfold control_engine_release_output. case_match; by exists l.
Qed.

(** A NaN reading is permanent: once a loop's integral and output are NaN (which
    one NaN reading of good status makes them in automatic mode), no sequence of
    scans, mode switches, setpoint or tuning changes recovers it, and every
    automatic calculation gives NaN, which commands the actuator off. *)
Theorem nan_poisons_loop_forever id e (ops : list ce_op) :
  ce_inv e -> poisoned_id id e -> Forall (fun op => op <> OpRemoveLoop id) ops ->
  exists l, l ∈ ce_pid_loops (foldl (ce_exec ub) e ops) /\ pl_loop_id l = id /\ poisoned l /\
    forall pv dt, automatic l ->
      drive_output ub (calculate_pid l pv dt).2 = zero_output.
Proof.
  intros He Ht Hops.
  assert (poisoned_id id (foldl (ce_exec ub) e ops)) as (l & Hl & Hid & Hp).
  { revert e He Ht. induction Hops as [|op ops Hop _ IH]; intros e He Ht; [done|].
    apply IH; [by apply ce_exec_inv|]. apply poisoned_id_exec; auto using inv_arrays. }
  exists l. split_and!; [done..|]. intros pv dt Hauto.
  pose proof (calculate_pid_nan l pv dt Hauto (or_introl (proj1 Hp))) as H1.
  destruct (calculate_pid l pv dt). apply drive_output_nan, H1.
Qed.

(** Removing a loop shifts the loops behind it but not the communication and
    watchdog arrays: the next loop takes over the removed loop's last-input time,
    communication-loss flag and limit timer. *)
Theorem removed_loop_state_inherited e l1 l2 rest s1 s2 :
  ce_pid_loops e = l1 :: l2 :: rest ->
  slot_of e 0 = Some s1 -> slot_of e 1 = Some s2 ->
  let e' := snd (control_engine_remove_pid_loop e (pl_loop_id l1)) in
  slot_of e' 0 = Some (s1 <| ps_loop := ps_loop s2 |>).
Proof.
  intros He H1 H2. unfold control_engine_remove_pid_loop, find_remove, slot_of in *.
  rewrite He in *. cbn [list_find]. rewrite decide_True by done. cbn [option_fmap].
  rewrite remove_shift_delete by (cbn; lia). cbn in *. by simplify_eq.
Qed.

(** An interlock whose input cannot be read is judged on whatever the
    uninitialised local variable holds, and one whose input has bad status on the
    bad value: the fault itself never counts as the trip condition. *)
Theorem interlock_fault_not_a_trip inp (r : R) j il :
  il_enabled il = true ->
  let '(res, sensor) := reg_get_sensor r (si_il_clk inp (2 * j)) (il_condition_rtu il)
                          (il_condition_slot il) (si_il_junk inp j) in
  il_after inp r j il = fst (interlock_next (si_il_now inp) (sd_value sensor) il) /\
  (res <> WTC_OK -> sensor = si_il_junk inp j) /\
  (interlock_condition_met il (sd_value sensor) = false -> il_tripped il = false ->
   il_tripped (il_after inp r j il) = false).
Proof.
  intros Hen. pose proof (get_sensor_failed r (si_il_clk inp (2 * j)) (il_condition_rtu il)
    (il_condition_slot il) (si_il_junk inp j)) as Hf.
  unfold il_after, il_scan, il_reading. rewrite Hen.
  destruct (reg_get_sensor _ _ _ _ _) as [res sensor]. split_and!; [done|by apply Hf|].
  cbn. intros Hm Ht. unfold interlock_next. rewrite Hm. done.
Qed.

Lemma foldl_commute {A B} (f : A -> B -> A) (g : A -> A) (l : list B) (a : A) :
  (forall a b, f (g a) b = g (f a b)) -> foldl f (g a) l = g (foldl f a l).
Proof. intros Hc. revert a. induction l as [|b l IH]; [done|]. intros a. cbn. by rewrite Hc, IH. Qed.

Definition set_forced (f : list forced_output) (st : control_engine * R) : control_engine * R :=
  (st.1 <| ce_forced_outputs := f |>, st.2).

(** Forced outputs are recorded but never applied: a scan computes the same
    outputs and the same engine state whatever the table of forced outputs holds. *)
Theorem forced_outputs_not_applied inp e r f :
  control_engine_process ub inp (e <| ce_forced_outputs := f |>) (Some r) =
  let '(e', r') := control_engine_process ub inp e (Some r) in
  (e' <| ce_forced_outputs := f |>, r').
Proof.
  unfold control_engine_process, process_interlocks, process_pid_loops.
  change ((e <| ce_forced_outputs := f |>) <| ce_tripped_interlocks := 0 |>, r)
    with (set_forced f (e <| ce_tripped_interlocks := 0 |>, r)).
  rewrite foldl_commute.
  2:{ intros [e0 r0] i. unfold set_forced, process_interlock. destruct e0. cbn.
      repeat case_match; simplify_eq/=; unfold emit_event in *; repeat case_match;
        simplify_eq/=; done. }
  change (ce_interlocks (e <| ce_forced_outputs := f |>)) with (ce_interlocks e).
  destruct (foldl _ (e <| ce_tripped_interlocks := 0 |>, r) _) as [e1 r1]. cbn [set_forced fst snd].
  change ((e1 <| ce_forced_outputs := f |>) <| ce_last_scan_time_ms := si_pid_now inp |>, r1)
    with (set_forced f (e1 <| ce_last_scan_time_ms := si_pid_now inp |>, r1)).
  rewrite foldl_commute.
  2:{ intros [e0 r0] i. unfold set_forced, process_pid_loop. destruct e0. cbn -[Nat.mul].
      destruct (ce_pid_loops0 !! i) as [l|]; [|done].
      destruct (reg_get_sensor _ _ _ _ _) as [res sensor].
      match goal with |- context [pid_step ?a ?b ?c ?d ?s] =>
        change (pid_step a b c d _) with (pid_step a b c d s); destruct (pid_step a b c d s) as [s' []] end;
      unfold emit_event; repeat case_match; done. }
  change (ce_pid_loops (e1 <| ce_forced_outputs := f |>)) with (ce_pid_loops e1).
  by destruct (foldl _ _ _) as [e2 r2].
Qed.
End Theorems.
