(* ===== verification/ControlScenarios.v ===== *)
(** * Control scenarios

    The control engine running against the registry of Registry.v: a small plant on
    which the general theorems of ControlEngine.v are applied, and the behaviours
    that need only one run to exhibit. *)

From S2P Require Import Prelude Float32 Types Registry Pid ControlEngine.

Definition rtu : string := "rtu-tank-1".
Definition plant0 : registry :=
  snd (fst (rtu_registry_add_device (fun _ => true) 1 (rtu_registry_init false false false)
              rtu None None 0)).
(** The tank level on slot 6. *)
Definition level (v : Z) (status : iops) : registry :=
  snd (rtu_registry_update_sensor 500 plant0 rtu 6 (f32_of_Z v) status QUALITY_GOOD).
Definition no_ub : float32 -> Z := fun _ => 0.
Definition at_time (t : Z) : scan_input :=
  mk_scan_input t (fun _ => t) (fun _ => zero_sensor) t (fun _ => t) (fun _ => zero_sensor).

(** Above 90 for half a second, force the inlet pump (slot 3) off. *)
Definition high_level : interlock :=
  mk_interlock 0 "high level" true rtu 6 INTERLOCK_CONDITION_ABOVE (f32_of_Z 90) 500
    rtu 3 INTERLOCK_ACTION_FORCE_OFF f0 false 0 0.
(** Drive the pump on [slot] to hold the level at 50. *)
Definition level_loop (slot : Z) (mode : pid_mode) : pid_loop :=
  mk_pid_loop 0 "level" true rtu 6 rtu slot (f32_of_Z (-1)) f0 f0 (f32_of_Z 50)
    f0 (f32_of_Z 100) f0 f0 f0 f0 f0 f0 f0 f0 f0 mode 0.

Definition engine (ops : list ce_op) : control_engine :=
  foldl (ce_exec (R := registry) no_ub) (control_engine_init 0 true true) ops.
Definition scan_at (t : Z) (r : registry) : ce_op := OpScan (at_time t) (Some r).

Definition guarded : control_engine := engine [OpAddInterlock high_level].
Definition tripped : control_engine :=
  engine [OpAddInterlock high_level; scan_at 1000 (level 95 IOPS_GOOD); scan_at 1600 (level 95 IOPS_GOOD)].

Lemma writable_pump v st sl : 0 <= sl < 123 -> writable (level v st) rtu sl.
Proof.
  intros Hsl now o. cbn [reg_update_actuator registry_ops]. rewrite update_actuator_result.
  destruct (Z.ltb_spec sl 0); [lia|].
  assert (exists d, find_device_locked (level v st) rtu = Some d /\ length (dev_actuators d) = 123%nat)
    as (d & -> & ->).
  { unfold level. generalize (f32_of_Z v). intros x. eexists. split; vm_compute; reflexivity. }
  destruct (Z.leb_spec (Z.of_nat 123) sl); [lia|done].
Qed.

Lemma interlock_trips_iff_witness :
  il_tripped <$> ce_interlocks (scan_run no_ub guarded
    [(at_time 1000, level 95 IOPS_GOOD); (at_time 1400, level 96 IOPS_GOOD);
     (at_time 1600, level 95 IOPS_GOOD); (at_time 1700, level 50 IOPS_GOOD)]) = [true].
Proof.
  edestruct (interlock_trips_iff no_ub guarded 0
    (high_level <| il_interlock_id := 1 |>)
    [(at_time 1000, level 95 IOPS_GOOD); (at_time 1400, level 96 IOPS_GOOD);
     (at_time 1600, level 95 IOPS_GOOD); (at_time 1700, level 50 IOPS_GOOD)])
    as (il & Hil & _ & Htrip); [|vm_compute; reflexivity..| | |].
  - split_and!; vm_compute; lia.
  - apply (clock_okb_sound 0). vm_compute. reflexivity.
  - repeat (apply Forall_cons; split; [vm_compute; split; reflexivity|]). apply Forall_nil. exact I.
  - assert (il_tripped il = true) as Ht.
    { apply Htrip. eexists 0%nat, 2%nat, _, _. split_and!; [lia|reflexivity..|vm_compute; discriminate|].
      intros i sc Hi Hs. apply condition_met_hazard.
      do 3 (destruct i as [|i]; [injection Hs as <-; vm_compute; reflexivity|]). lia. }
    vm_compute in Hil. injection Hil as <-. vm_compute. reflexivity.
Defined.

Lemma control_engine_invariant_witness :
  ce_inv (engine [OpAddInterlock high_level; scan_at 1000 (level 95 IOPS_GOOD)]).
Proof. exact (control_engine_invariant (R := registry) no_ub 0 true true _). Defined.

Lemma tripped_inv : ce_inv tripped.
Proof.
  unfold tripped, engine. cbn [foldl]. do 3 apply ce_exec_inv.
  split; cbn; try (split; by constructor). all: vm_compute; lia.
Qed.

Lemma interlock_action_enforced_witness :
  exists r', snd (control_engine_process no_ub (at_time 1700) tripped (Some (level 95 IOPS_GOOD)))
             = Some r' /\ out_at r' rtu 3 = Some zero_output.
Proof.
  refine (interlock_action_enforced no_ub (at_time 1700) tripped (level 95 IOPS_GOOD) 0
    ((high_level <| il_interlock_id := 1 |>) <| il_tripped := true |> <| il_trip_time_ms := 1600 |>
       <| il_condition_start_ms := 1000 |>) zero_output (inv_arrays _ tripped_inv)
    _ _ _ _ _ _ _).
  1-4: vm_compute; reflexivity.
  - exact (writable_pump 95 IOPS_GOOD 3 ltac:(lia)).
  - intros [|j'] il' Hj Hl; [lia|discriminate Hl].
  - intros k l Hl. discriminate Hl.
Defined.

(** A loop that sees its input at 1000 and then loses it: off at 11500. *)
Definition watching : control_engine := engine [OpAddLoop (level_loop 4 PID_MODE_AUTO)].

Lemma comm_loss_safe_state_witness :
  exists r', snd (control_engine_process no_ub (at_time 11500)
      (scan_run no_ub watching [(at_time 1000, level 80 IOPS_GOOD); (at_time 5000, level 80 IOPS_BAD);
         (at_time 9000, level 80 IOPS_BAD)]) (Some (level 80 IOPS_BAD)))
    = Some r' /\ out_at r' rtu 4 = Some zero_output.
Proof.
  refine (comm_loss_safe_state no_ub watching 0
    (mk_pid_slot ((level_loop 4 PID_MODE_AUTO) <| pl_loop_id := 1 |>) 0 false 0)
    (at_time 1000, level 80 IOPS_GOOD) [(at_time 5000, level 80 IOPS_BAD); (at_time 9000, level 80 IOPS_BAD)]
    (at_time 11500) (level 80 IOPS_BAD) _ _ _ _ _ _ _ _ _).
  - vm_compute. lia.
  - vm_compute. reflexivity.
  - split; [reflexivity|discriminate].
  - vm_compute. split; reflexivity.
  - repeat (apply Forall_cons; split; [vm_compute; intros [_ Hb]; discriminate Hb|]).
    apply Forall_nil. exact I.
  - reflexivity.
  - vm_compute. reflexivity.
  - exact (writable_pump 80 IOPS_BAD 4 ltac:(lia)).
  - intros [|j'] s' Hj Hl; [lia|vm_compute in Hl; discriminate Hl].
Defined.

Lemma interlock_latched_witness :
  tripped_id 1 (foldl (ce_exec no_ub) tripped
    [scan_at 2000 (level 50 IOPS_GOOD); OpEnableInterlock 1 false; scan_at 9000 (level 40 IOPS_GOOD)]).
Proof.
  apply interlock_latched; [exact tripped_inv| |].
  - eexists. split; [vm_compute; left|]. split; reflexivity.
  - repeat (apply Forall_cons; split; [intros [Hr|Hr]; discriminate Hr|]). by apply Forall_nil.
Defined.

(** The level transmitter once delivers a NaN with good status. *)
Definition nan_level : registry :=
  snd (rtu_registry_update_sensor 500 plant0 rtu 6 SpecFloat.S754_nan IOPS_GOOD QUALITY_GOOD).
Definition after_nan : control_engine :=
  engine [OpAddLoop (level_loop 4 PID_MODE_AUTO); scan_at 1000 nan_level].

Lemma nan_poisons_loop_forever_witness :
  exists l, l ∈ ce_pid_loops (foldl (ce_exec no_ub) after_nan
    [scan_at 2000 (level 80 IOPS_GOOD); OpSetMode 1 PID_MODE_MANUAL; OpSetMode 1 PID_MODE_AUTO;
     scan_at 3000 (level 80 IOPS_GOOD)]) /\ pl_loop_id l = 1 /\ poisoned l.
Proof.
  edestruct (nan_poisons_loop_forever no_ub 1 after_nan) as (l & Hl & Hid & Hp & _); cycle 3.
  - exists l. split; [exact Hl|]. split; [exact Hid|exact Hp].
  - unfold after_nan, engine. cbn [foldl]. do 2 apply ce_exec_inv.
    split; cbn; try (split; by constructor). all: vm_compute; lia.
  - eexists. split; [vm_compute; left|]. repeat split.
  - repeat (apply Forall_cons; split; [discriminate|]). by apply Forall_nil.
Defined.

Lemma removed_loop_state_inherited_witness :
  let e := engine [OpAddLoop (level_loop 4 PID_MODE_AUTO); OpAddLoop (level_loop 5 PID_MODE_OFF);
                   scan_at 1000 (level 80 IOPS_GOOD)] in
  ps_last_input <$> slot_of e 1 = Some 0 /\
  ps_last_input <$> slot_of (snd (control_engine_remove_pid_loop e 1)) 0 = Some 1000.
Proof.
  cbn zeta. set (e := engine _). split; [vm_compute; reflexivity|].
  destruct (ce_pid_loops e) as [|l1 [|l2 rest]] eqn:He; try (vm_compute in He; discriminate He).
  destruct (slot_of e 0) as [s1|] eqn:H1; [|vm_compute in H1; discriminate H1].
  destruct (slot_of e 1) as [s2|] eqn:H2; [|vm_compute in H2; discriminate H2].
  pose proof (removed_loop_state_inherited e l1 l2 rest s1 s2 He H1 H2) as Hres.
  assert (pl_loop_id l1 = 1) as Hid by (vm_compute in He; injection He as <- _ _; reflexivity).
  rewrite Hid in Hres. cbn zeta in Hres. rewrite Hres.
  vm_compute in H1. injection H1 as <-. reflexivity.
Defined.

Lemma interlock_fault_not_a_trip_witness :
  il_tripped (il_after (at_time 2000) (level 95 IOPS_BAD) 0
    (high_level <| il_condition_start_ms := 1000 |>)) = true.
Proof.
  pose proof (interlock_fault_not_a_trip (at_time 2000) (level 95 IOPS_BAD) 0
    (high_level <| il_condition_start_ms := 1000 |>) eq_refl) as Hf.
  destruct (reg_get_sensor _ _ _ _ _) as [res sensor] eqn:Hs.
  destruct Hf as (Heq & _). rewrite Heq. vm_compute in Hs. injection Hs as <- <-.
  vm_compute. reflexivity.
Defined.

(** A PID loop overrides an interlock: with a tripped force-off interlock and a
    running loop on the same pump, the scan first writes OFF and then the loop's
    output, so the pump runs although the level is above the trip limit. *)
Theorem pid_overrides_interlock :
  let e := engine [OpAddInterlock high_level;
                   OpAddLoop ((level_loop 3 PID_MODE_AUTO) <| pl_kp := f32_of_Z (-2) |>);
                   scan_at 1000 (level 95 IOPS_GOOD)] in
  let '(e', r') := control_engine_process no_ub (at_time 1600) e (Some (level 95 IOPS_GOOD)) in
  (il_tripped <$> ce_interlocks e' = [true]) /\
  (il_action <$> ce_interlocks e' = [INTERLOCK_ACTION_FORCE_OFF]) /\
  (r ← r'; out_at r rtu 3) = Some (mk_actuator_output ACTUATOR_CMD_PWM 90 0 0).
Proof. vm_compute. split_and!; reflexivity. Qed.

(** The output watchdog turns an idle actuator on: a loop left in manual at 0%
    (its lower limit) is driven to the middle of its range, PWM 50, once it has
    been off for more than five seconds. *)
Theorem watchdog_starts_idle_actuator :
  let e := engine [OpAddLoop (level_loop 4 PID_MODE_MANUAL); scan_at 1000 (level 50 IOPS_GOOD);
                   scan_at 6000 (level 50 IOPS_GOOD)] in
  let '(e', r') := control_engine_process no_ub (at_time 6001) e (Some (level 50 IOPS_GOOD)) in
  (pl_cv <$> ce_pid_loops e' = [f0]) /\
  (r ← snd (control_engine_process no_ub (at_time 6000) e (Some (level 50 IOPS_GOOD)));
   out_at r rtu 4) = Some zero_output /\
  (r ← r'; out_at r rtu 4) = Some (mk_actuator_output ACTUATOR_CMD_PWM 50 0 0).
Proof. vm_compute. split_and!; reflexivity. Qed.
