(* ===== verification/Sequence.v ===== *)
(** * Sequence engine: batch sequences stepped by the scan

    Model of [src/control/sequence_engine.c].  A step of the program counter reads
    [steps[current_step]]: a negative counter, which only a [STEP_TYPE_GOTO] can
    produce, reads outside the array, and the model then has no result ([None]).
    The callbacks of [sequence_t] are never assigned in the file that defines the
    type, so they stay NULL and are left out. *)

From S2P Require Import Prelude Float32 Types Registry ControlEngine.

Definition MAX_SEQUENCE_STEPS : nat := 64.
Definition WTC_MAX_SEQUENCES : nat := 32.

Inductive sequence_state :=
| SEQUENCE_STATE_IDLE | SEQUENCE_STATE_RUNNING | SEQUENCE_STATE_PAUSED
| SEQUENCE_STATE_COMPLETE | SEQUENCE_STATE_FAULTED | SEQUENCE_STATE_ABORTED.
#[export] Instance sequence_state_eq_dec : EqDecision sequence_state.
Proof. solve_decision. Defined.

(** [sequence_step_t]: the step type with the member of the parameter union it
    uses, and the point where it uses one. *)
Inductive sequence_step :=
| STEP_TYPE_SET_OUTPUT (station : string) (slot command pwm_duty : Z)
| STEP_TYPE_WAIT_TIME (duration_ms : Z)
| STEP_TYPE_WAIT_CONDITION (station : string) (slot : Z) (condition : interlock_condition)
    (threshold : float32) (timeout_ms : Z)
| STEP_TYPE_WAIT_LEVEL (station : string) (slot : Z) (target_level tolerance : float32)
    (timeout_ms : Z)
| STEP_TYPE_PARALLEL_START
| STEP_TYPE_PARALLEL_END
| STEP_TYPE_GOTO (target_step : Z)
| STEP_TYPE_END.

(** [sequence_t] *)
Record sequence := mk_sequence {
  sq_sequence_id : Z;
  sq_name : string;
  sq_enabled : bool;
  sq_state : sequence_state;
  sq_steps : list sequence_step;
  sq_current_step : Z;
  sq_step_start_time_ms : Z;
  sq_sequence_start_time_ms : Z;
  sq_sequence_timeout_ms : Z;
  sq_default_step_timeout_ms : Z }.

#[export] Instance eta_sequence : Eta sequence := fun r =>
  mk_sequence (sq_sequence_id r) (sq_name r) (sq_enabled r) (sq_state r) (sq_steps r)
    (sq_current_step r) (sq_step_start_time_ms r) (sq_sequence_start_time_ms r)
    (sq_sequence_timeout_ms r) (sq_default_step_timeout_ms r).

(** The file's static variables. *)
Record sequences := mk_sequences { sqs_table : list sequence; sqs_next_id : Z }.
#[export] Instance eta_sequences : Eta sequences := fun r =>
  mk_sequences (sqs_table r) (sqs_next_id r).

Definition sequences_initial : sequences := mk_sequences [] 1.

Definition has_seq (id : Z) (s : sequence) : Prop := sq_sequence_id s = id.
#[export] Instance has_seq_dec id s : Decision (has_seq id s).
Proof. unfold has_seq. apply _. Defined.

Definition sequence_create (q : sequences) (name : string) : wtc_result * sequences :=
  if (WTC_MAX_SEQUENCES <=? length (sqs_table q))%nat then (WTC_ERROR_INVALID_PARAM, q)
  else (WTC_OK, q <| sqs_table ::= fun l => l ++ [mk_sequence (sqs_next_id q)
                    (strncpy (WTC_MAX_NAME - 1) name) true SEQUENCE_STATE_IDLE [] 0 0 0 0 0] |>
                  <| sqs_next_id ::= Z.succ |>).

(** Find the sequence by id and let [f] answer and update it. *)
Definition with_sequence (q : sequences) (id : Z) (f : sequence -> wtc_result * sequence)
    : wtc_result * sequences :=
  match list_find (has_seq id) (sqs_table q) with
  | Some (i, s) => (fst (f s), q <| sqs_table ::= <[i := snd (f s)]> |>)
  | None => (WTC_ERROR_NOT_FOUND, q)
  end.

Definition sequence_add_step (q : sequences) (id : Z) (step : sequence_step) :=
  with_sequence q id (fun s =>
    if (MAX_SEQUENCE_STEPS <=? length (sq_steps s))%nat then (WTC_ERROR_FULL, s)
    else (WTC_OK, s <| sq_steps ::= fun l => l ++ [step] |>)).

Definition sequence_add_output_step (q : sequences) (id : Z) (station : string)
    (slot command pwm_duty : Z) :=
  sequence_add_step q id
    (STEP_TYPE_SET_OUTPUT (strncpy (WTC_MAX_STATION_NAME - 1) station) slot command pwm_duty).

Definition sequence_add_wait_step (q : sequences) (id : Z) (duration_ms : Z) :=
  sequence_add_step q id (STEP_TYPE_WAIT_TIME duration_ms).

Definition sequence_add_wait_condition_step (q : sequences) (id : Z) (station : string) (slot : Z)
    (condition : interlock_condition) (threshold : float32) (timeout_ms : Z) :=
  sequence_add_step q id (STEP_TYPE_WAIT_CONDITION (strncpy (WTC_MAX_STATION_NAME - 1) station)
                            slot condition threshold timeout_ms).

Definition sequence_add_end_step (q : sequences) (id : Z) := sequence_add_step q id STEP_TYPE_END.

(** [sequence_start]; [now1], [now2] are its two clock readings. *)
Definition sequence_start (now1 now2 : Z) (q : sequences) (id : Z) :=
  with_sequence q id (fun s =>
    if negb (sq_enabled s) then (WTC_ERROR_PERMISSION, s)
    else if bool_decide (sq_state s = SEQUENCE_STATE_RUNNING) then (WTC_ERROR_BUSY, s)
    else (WTC_OK, s <| sq_state := SEQUENCE_STATE_RUNNING |> <| sq_current_step := 0 |>
                    <| sq_sequence_start_time_ms := now1 |> <| sq_step_start_time_ms := now2 |>)).

Definition sequence_stop (q : sequences) (id : Z) :=
  with_sequence q id (fun s => (WTC_OK, s <| sq_state := SEQUENCE_STATE_ABORTED |>)).

Definition sequence_pause (q : sequences) (id : Z) :=
  with_sequence q id (fun s =>
    if bool_decide (sq_state s = SEQUENCE_STATE_RUNNING)
    then (WTC_OK, s <| sq_state := SEQUENCE_STATE_PAUSED |>)
    else (WTC_ERROR_NOT_INITIALIZED, s)).

Definition sequence_resume (now : Z) (q : sequences) (id : Z) :=
  with_sequence q id (fun s =>
    if bool_decide (sq_state s = SEQUENCE_STATE_PAUSED)
    then (WTC_OK, s <| sq_state := SEQUENCE_STATE_RUNNING |> <| sq_step_start_time_ms := now |>)
    else (WTC_ERROR_NOT_INITIALIZED, s)).

Definition sequence_set_timeouts (q : sequences) (id : Z) (sequence_timeout_ms step_timeout_ms : Z) :=
  with_sequence q id (fun s =>
    (WTC_OK, s <| sq_sequence_timeout_ms := sequence_timeout_ms |>
               <| sq_default_step_timeout_ms := step_timeout_ms |>)).

Definition sequence_get_state (q : sequences) (id : Z) : option (sequence_state * Z) :=
  (fun s => (sq_state s, sq_current_step s)) <$> find_entry (has_seq id) (sqs_table q).

(** ** [sequence_process] *)

Section Process.
Context {R : Type} `{RegistryOps R}.
Context (clk : nat -> Z).

(** The condition a wait step tests; equality conditions are never met. *)
Definition wait_met (c : interlock_condition) (value threshold : float32) : bool :=
  match c with
  | INTERLOCK_CONDITION_ABOVE => fgt value threshold
  | INTERLOCK_CONDITION_BELOW => flt value threshold
  | _ => false
  end.

(** The switch on the step type: the sequence and the registry afterwards, and
    whether the step is complete.  [t] is the clock reading inside the registry
    call. *)
Definition exec_step (now_ms t : Z) (seq : sequence) (step : sequence_step) (reg : R)
    : sequence * bool * R :=
  match step with
  | STEP_TYPE_SET_OUTPUT station slot command pwm_duty =>
      (seq, true, snd (reg_update_actuator reg t station slot
                         (mk_actuator_output command pwm_duty 0 0)))
  | STEP_TYPE_WAIT_TIME duration_ms =>
      (seq, duration_ms <=? u64_sub now_ms (sq_step_start_time_ms seq), reg)
  | STEP_TYPE_WAIT_CONDITION station slot condition threshold timeout_ms =>
      let '(res, sensor) := reg_get_sensor reg t station slot zero_sensor in
      let complete := bool_decide (res = WTC_OK) &&
                      wait_met condition (sd_value sensor) threshold in
      ((if (0 <? timeout_ms) && (timeout_ms <=? u64_sub now_ms (sq_step_start_time_ms seq))
        then seq <| sq_state := SEQUENCE_STATE_FAULTED |> else seq),
       complete, reg)
  | STEP_TYPE_GOTO target_step =>
      (seq <| sq_current_step := target_step - 1 |>, true, reg)
  | STEP_TYPE_END => (seq <| sq_state := SEQUENCE_STATE_COMPLETE |>, false, reg)
  | STEP_TYPE_WAIT_LEVEL _ _ _ _ _ | STEP_TYPE_PARALLEL_START | STEP_TYPE_PARALLEL_END =>
      (seq, true, reg)
  end.

(** One iteration of the loop: [None] when it reads in front of the step array. *)
Definition process_sequence (now_ms t : Z) (seq : sequence) (reg : R) : option (sequence * R) :=
  if negb (bool_decide (sq_state seq = SEQUENCE_STATE_RUNNING)) then Some (seq, reg)
  else if (0 <? sq_sequence_timeout_ms seq) &&
          (sq_sequence_timeout_ms seq <=? u64_sub now_ms (sq_sequence_start_time_ms seq)) then
    Some (seq <| sq_state := SEQUENCE_STATE_FAULTED |>, reg)
  else if Z.of_nat (length (sq_steps seq)) <=? sq_current_step seq then
    Some (seq <| sq_state := SEQUENCE_STATE_COMPLETE |>, reg)
  else if sq_current_step seq <? 0 then None
  else
    step ← sq_steps seq !! Z.to_nat (sq_current_step seq);
    let '(seq, step_complete, reg) := exec_step now_ms t seq step reg in
    Some (if step_complete && bool_decide (sq_state seq = SEQUENCE_STATE_RUNNING)
          then seq <| sq_current_step ::= Z.succ |> <| sq_step_start_time_ms := now_ms |>
          else seq, reg).

(** The loop from sequence [i] on. *)
Fixpoint process_from (now_ms : Z) (i : nat) (l : list sequence) (reg : R)
    : option (list sequence * R) :=
  match l with
  | [] => Some ([], reg)
  | seq :: l =>
      '(seq', reg) ← process_sequence now_ms (clk i) seq reg;
      '(l', reg) ← process_from now_ms (S i) l reg;
      Some (seq' :: l', reg)
  end.

(** [sequence_process] once [sequence_engine_init] has stored the registry, here the argument
    [reg]; before, [seq_registry] is NULL and the call returns WTC_ERROR_NOT_INITIALIZED. *)
Definition sequence_process (now_ms : Z) (q : sequences) (reg : R) : option (sequences * R) :=
  '(l, reg) ← process_from now_ms 0 (sqs_table q) reg;
  Some (q <| sqs_table := l |>, reg).
End Process.

(** ** Operations *)

Inductive seq_op {R : Type} :=
| SqCreate (name : string)
| SqAddStep (id : Z) (step : sequence_step)
| SqStart (now1 now2 : Z) (id : Z)
| SqStop (id : Z)
| SqPause (id : Z)
| SqResume (now id : Z)
| SqSetTimeouts (id sequence_timeout step_timeout : Z)
| SqProcess (clk : nat -> Z) (now : Z) (reg : R).
Arguments seq_op : clear implicits.

Section Facts.
Context {R : Type} `{RegistryOps R}.

Definition seq_exec (q : sequences) (op : seq_op R) : option sequences :=
  match op with
  | SqCreate name => Some (snd (sequence_create q name))
  | SqAddStep id step => Some (snd (sequence_add_step q id step))
  | SqStart now1 now2 id => Some (snd (sequence_start now1 now2 q id))
  | SqStop id => Some (snd (sequence_stop q id))
  | SqPause id => Some (snd (sequence_pause q id))
  | SqResume now id => Some (snd (sequence_resume now q id))
  | SqSetTimeouts id a b => Some (snd (sequence_set_timeouts q id a b))
  | SqProcess clk now reg => fst <$> sequence_process clk now q reg
  end.

Fixpoint seq_run (q : sequences) (ops : list (seq_op R)) : option sequences :=
  match ops with
  | [] => Some q
  | op :: ops => q' ← seq_exec q op; seq_run q' ops
  end.

Definition goto_ok (step : sequence_step) : Prop :=
  match step with STEP_TYPE_GOTO t => 0 <= t | _ => True end.

Definition op_goto_ok (op : seq_op R) : Prop :=
  match op with SqAddStep _ step => goto_ok step | _ => True end.

Definition seq_ok (s : sequence) : Prop :=
  (length (sq_steps s) <= MAX_SEQUENCE_STEPS)%nat /\ 0 <= sq_current_step s /\
  Forall goto_ok (sq_steps s).

Definition seqs_inv (q : sequences) : Prop :=
  (length (sqs_table q) <= WTC_MAX_SEQUENCES)%nat /\
  NoDup (sq_sequence_id <$> sqs_table q) /\
  Forall (fun s => sq_sequence_id s < sqs_next_id q) (sqs_table q) /\
  Forall seq_ok (sqs_table q).

Lemma with_sequence_inv q id f :
  (forall s, seq_ok s -> seq_ok (snd (f s)) /\ sq_sequence_id (snd (f s)) = sq_sequence_id s) ->
  seqs_inv q -> seqs_inv (snd (with_sequence q id f)).
Proof.
  intros Hf (Hl & Hnd & Hlt & Hok). unfold with_sequence.
  destruct (list_find _ _) as [[i s]|] eqn:E; [|done].
  apply list_find_Some in E as (Hi & _). pose proof (Forall_lookup_1 _ _ _ _ Hok Hi) as Hs.
  destruct (Hf s Hs) as [Hs' Hid].
  assert (sq_sequence_id <$> <[i := snd (f s)]> (sqs_table q) = sq_sequence_id <$> sqs_table q) as Hids.
  { rewrite list_fmap_insert, Hid. apply list_insert_id. by rewrite list_lookup_fmap, Hi. }
  unfold seqs_inv. cbn. split_and!; [by rewrite length_insert|by rewrite Hids| |by apply Forall_insert].
  by apply (Forall_keys sq_sequence_id (fun i => i < sqs_next_id q) _ _ Hids).
Qed.

(** One step of a well-formed sequence is defined and keeps it well-formed. *)
Lemma process_sequence_ok now t s (reg : R) :
  seq_ok s -> exists s' reg', process_sequence now t s reg = Some (s', reg') /\ seq_ok s' /\
    sq_sequence_id s' = sq_sequence_id s.
Proof.
  intros (Hlen & Hpc & Hg). unfold process_sequence.
  repeat (split_if; [by eexists _, _; split_and!|]).
  reflect. split_if; [reflect; lia|]. reflect.
  destruct (lookup_lt_is_Some_2 (sq_steps s) (Z.to_nat (sq_current_step s))) as [step Hstep]; [lia|].
  rewrite Hstep. cbn. pose proof (Forall_lookup_1 _ _ _ _ Hg Hstep) as Hgs.
  assert (let '(s', _, _) := exec_step now t s step reg in
          sq_steps s' = sq_steps s /\ sq_sequence_id s' = sq_sequence_id s /\
          -1 <= sq_current_step s' /\ (snd (fst (exec_step now t s step reg)) = false ->
            0 <= sq_current_step s')) as Hs'.
  { destruct step; cbn; try (split_and!; intros; done || lia).
    - destruct (reg_get_sensor _ _ _ _ _). split_if; cbn; split_and!; intros; done || lia.
    - cbn in Hgs. split_and!; intros; done || lia. }
  destruct (exec_step now t s step reg) as [[s' c] reg'] eqn:Ex. cbn in Hs'.
  destruct Hs' as (Hst & Hid & Hcur & Hcur').
  eexists _, _. split; [done|]. destruct c; cbn [andb].
  - destruct (bool_decide (sq_state s' = SEQUENCE_STATE_RUNNING)) eqn:Hb; reflect.
    + split; [|done]. unfold seq_ok. cbn. rewrite Hst. split_and!; [done|lia|done].
    + split; [|done]. unfold seq_ok. rewrite Hst. split_and!; [done| |done].
      (* only a wait step leaves the running state with its step complete *)
      destruct step; cbn in Ex; simplify_eq/=; try done; try lia; try congruence.
      destruct (reg_get_sensor _ _ _ _ _). simplify_eq/=. by split_if.
  - split; [|done]. unfold seq_ok. rewrite Hst. split_and!; [done|by apply Hcur'|done].
Qed.

(** The whole loop: every sequence takes its own step, against some registry. *)
Lemma process_from_spec clk now i l (reg : R) :
  Forall seq_ok l ->
  exists l' reg', process_from clk now i l reg = Some (l', reg') /\
    Forall2 (fun s s' => seq_ok s' /\ sq_sequence_id s' = sq_sequence_id s /\
               exists t r r', process_sequence now t s r = Some (s', r')) l l'.
Proof.
  intros Hl. revert i reg. induction Hl as [|s l Hs _ IH]; intros i reg; cbn.
  - eexists _, _. split; [done|constructor].
  - destruct (process_sequence_ok now (clk i) s reg Hs) as (s' & reg1 & Hp & Hs' & Hid).
    rewrite Hp. cbn. destruct (IH (S i) reg1) as (l' & reg2 & Hl' & HF). rewrite Hl'. cbn.
    eexists _, _. split; [done|]. constructor; [|done]. eauto 10.
Qed.

Lemma sequence_process_inv clk now q (reg : R) :
  seqs_inv q -> exists q' reg', sequence_process clk now q reg = Some (q', reg') /\ seqs_inv q'.
Proof.
  intros (Hl & Hnd & Hlt & Hok). unfold sequence_process.
  destruct (process_from_spec clk now 0 (sqs_table q) reg Hok) as (l' & reg' & -> & HF). cbn.
  eexists _, _. split; [done|]. unfold seqs_inv. cbn.
  assert (sq_sequence_id <$> l' = sq_sequence_id <$> sqs_table q) as Hids.
  { clear -HF. induction HF as [|s s' l l' (_ & Hid & _) _ IH]; [done|]. cbn. by rewrite Hid, IH. }
  split_and!.
  - by rewrite <- (Forall2_length _ _ _ HF).
  - by rewrite Hids.
  - by apply (Forall_keys sq_sequence_id (fun i => i < sqs_next_id q) _ _ Hids).
  - eapply Forall2_Forall_r; [exact HF|]. apply Forall_true. naive_solver.
Qed.

Lemma seq_exec_inv q op :
  seqs_inv q -> op_goto_ok op -> exists q', seq_exec q op = Some q' /\ seqs_inv q'.
Proof.
  intros Hq Hop. destruct op; cbn [seq_exec].
  8:{ destruct (sequence_process_inv clk now q reg Hq) as (q' & reg' & -> & Hq'). by exists q'. }
  all: eexists; split; [reflexivity|].
  2-7: apply with_sequence_inv; [|done]; intros s (H1 & H2 & H3); repeat split_if; cbn;
    split; try done; unfold seq_ok; cbn; split_and!; done || lia || idtac.
  - unfold sequence_create. destruct (_ <=? _)%nat eqn:E; [done|]. apply Nat.leb_gt in E.
    destruct Hq as (Hl & Hnd & Hlt & Hok). unfold seqs_inv. cbn. split_and!.
    + rewrite length_app. cbn. lia.
    + by eapply keys_append.
    + apply Forall_app. split; [|repeat constructor; cbn; lia].
      eapply Forall_impl; [exact Hlt|]. cbn. lia.
    + apply Forall_app. split; [done|]. repeat constructor; cbn; lia.
  - apply Nat.leb_gt in E. rewrite length_app. cbn. lia.
  - apply Forall_app. split; [done|]. by constructor.
Qed.

(** C38: No sequence of calls and scans makes the engine read outside a sequence's step
    array, as long as every GOTO added has a target that is not negative; ids stay
    distinct and the tables within their arrays. *)
Theorem sequence_engine_memory_safe (ops : list (seq_op R)) :
  Forall op_goto_ok ops -> exists q, seq_run sequences_initial ops = Some q /\ seqs_inv q.
Proof.
  assert (seqs_inv sequences_initial) as Hq by (split_and!; cbn; try constructor; lia).
  revert Hq. generalize sequences_initial as q. intros q Hq Hops. revert q Hq.
  induction Hops as [|op ops Hop _ IH]; intros q Hq; cbn; [eauto|].
  destruct (seq_exec_inv q op Hq Hop) as (q' & -> & Hq'). by apply IH.
Qed.

(** ** Completion *)









End Facts.

(** A wait step that reaches its timeout faults the sequence even when its condition
    holds in that very scan. *)
Lemma wait_condition_timeout_wins {R} `{RegistryOps R} now t s (reg : R) st sl c th timeout :
  sq_state s = SEQUENCE_STATE_RUNNING -> sq_sequence_timeout_ms s = 0 ->
  0 <= sq_current_step s ->
  sq_steps s !! Z.to_nat (sq_current_step s) = Some (STEP_TYPE_WAIT_CONDITION st sl c th timeout) ->
  0 < timeout <= u64_sub now (sq_step_start_time_ms s) ->
  process_sequence now t s reg = Some (s <| sq_state := SEQUENCE_STATE_FAULTED |>, reg).
Proof.
  intros Hs Hto Hc Hstep Ht. unfold process_sequence. rewrite Hs, Hto. cbn.
  assert (Z.to_nat (sq_current_step s) < length (sq_steps s))%nat by (by eapply lookup_lt_Some).
  destruct (Z.leb_spec (Z.of_nat (length (sq_steps s))) (sq_current_step s)); [lia|].
  destruct (Z.ltb_spec (sq_current_step s) 0); [lia|]. rewrite Hstep. cbn.
  destruct (reg_get_sensor _ _ _ _ _) as [res sensor].
  destruct (Z.ltb_spec 0 timeout); [|lia].
  destruct (Z.leb_spec timeout (u64_sub now (sq_step_start_time_ms s))); [|lia].
  cbn. by rewrite andb_false_r.
Qed.

Module SequenceDemo.
Definition reg : registry := rtu_registry_init false false false.
Definition clk : nat -> Z := fun _ => 0.
(** Open a valve, wait a second, close it. *)
Definition rinse : list (seq_op registry) :=
  [SqCreate "rinse"; SqAddStep 1 (STEP_TYPE_SET_OUTPUT "rtu" 1 ACTUATOR_CMD_ON 0);
   SqAddStep 1 (STEP_TYPE_WAIT_TIME 1000);
   SqAddStep 1 (STEP_TYPE_SET_OUTPUT "rtu" 1 ACTUATOR_CMD_OFF 0); SqStart 50 50 1].

Lemma sequence_engine_memory_safe_witness :
  exists q, seq_run sequences_initial (rinse ++ [SqAddStep 1 (STEP_TYPE_GOTO 0);
    SqProcess clk 100 reg]) = Some q /\ seqs_inv q.
Proof.
  apply sequence_engine_memory_safe.
  repeat (apply Forall_cons; split; [first [exact I|vm_compute; discriminate]|]). by apply Forall_nil.
Defined.



(** A GOTO with a negative target is accepted and makes the next scan read in front
    of the step array. *)
Theorem negative_goto_reads_outside :
  exists q, seq_run sequences_initial
    [SqCreate "loop"; SqAddStep 1 (STEP_TYPE_GOTO (-1)); SqStart 50 50 1; SqProcess clk 100 reg]
    = Some q /\ sequence_get_state q 1 = Some (SEQUENCE_STATE_RUNNING, -1) /\
    sequence_process clk 200 q reg = None.
Proof. eexists. split; [vm_compute; reflexivity|]. split; reflexivity. Qed.
End SequenceDemo.
