(* ===== verification/Authority.v ===== *)
(** * Authority manager: who may command an RTU

    Model of [src/coordination/authority_manager.c]: the handoff protocol between
    controller and RTU.  An entry of the table is never freed, so the used entries
    are a prefix of the array and the model is their list.  The callback is
    recorded as a trace of the state changes it is told. *)

From S2P Require Import Prelude.

Definition MAX_AUTHORITY_ENTRIES : nat := 256.
Definition DEFAULT_HANDOFF_TIMEOUT_MS : Z := 5000.
Definition DEFAULT_STALE_COMMAND_MS : Z := 10000.
Definition DEFAULT_HEARTBEAT_INTERVAL_MS : Z := 1000.

Inductive authority_state :=
| AUTHORITY_AUTONOMOUS | AUTHORITY_HANDOFF_PENDING | AUTHORITY_SUPERVISED | AUTHORITY_RELEASING.
#[export] Instance authority_state_eq_dec : EqDecision authority_state.
Proof. solve_decision. Defined.

(** [authority_context_t] *)
Record authority_context := mk_authority_context {
  ac_epoch : Z;
  ac_state : authority_state;
  ac_request_time_ms : Z;
  ac_grant_time_ms : Z;
  ac_holder : string;
  ac_controller_online : bool;
  ac_rtu_acknowledged : bool;
  ac_stale_command_threshold_ms : Z }.

(** [authority_entry_t] of an entry in use *)
Record authority_entry := mk_authority_entry {
  ae_station_name : string;
  ae_context : authority_context;
  ae_last_heartbeat_ms : Z }.

Record authority_manager_config := mk_authority_manager_config {
  amc_handoff_timeout_ms : Z;
  amc_stale_command_ms : Z;
  amc_heartbeat_interval_ms : Z;
  amc_auto_release_on_disconnect : bool }.

Definition change := (string * authority_state * authority_state)%type.

Record authority_manager := mk_authority_manager {
  au_config : authority_manager_config;
  au_entries : list authority_entry;
  au_callback : bool;
  au_trace : list change }.

#[export] Instance eta_authority_context : Eta authority_context := fun r =>
  mk_authority_context (ac_epoch r) (ac_state r) (ac_request_time_ms r) (ac_grant_time_ms r)
    (ac_holder r) (ac_controller_online r) (ac_rtu_acknowledged r)
    (ac_stale_command_threshold_ms r).
#[export] Instance eta_authority_entry : Eta authority_entry := fun r =>
  mk_authority_entry (ae_station_name r) (ae_context r) (ae_last_heartbeat_ms r).
#[export] Instance eta_authority_manager : Eta authority_manager := fun r =>
  mk_authority_manager (au_config r) (au_entries r) (au_callback r) (au_trace r).

Definition authority_context_init : authority_context :=
  mk_authority_context 1 AUTHORITY_AUTONOMOUS 0 0 "" false false DEFAULT_STALE_COMMAND_MS.

(** [authority_manager_init], the allocation succeeding ([None] is a NULL config). *)
Definition authority_manager_init (config : option authority_manager_config) : authority_manager :=
  mk_authority_manager
    (default (mk_authority_manager_config DEFAULT_HANDOFF_TIMEOUT_MS DEFAULT_STALE_COMMAND_MS
                DEFAULT_HEARTBEAT_INTERVAL_MS true) config) [] false [].

Definition authority_manager_set_callback (m : authority_manager) (set : bool) : authority_manager :=
  m <| au_callback := set |>.

Definition has_station (st : string) (en : authority_entry) : Prop := ae_station_name en = st.
#[export] Instance has_station_dec st en : Decision (has_station st en).
Proof. unfold has_station. apply _. Defined.

(** [find_or_create_entry]: the table afterwards and the entry's index. *)
Definition find_or_create_entry (m : authority_manager) (station : string)
    : option (authority_manager * nat * authority_entry) :=
  match list_find (has_station station) (au_entries m) with
  | Some (i, en) => Some (m, i, en)
  | None =>
      if (length (au_entries m) <? MAX_AUTHORITY_ENTRIES)%nat then
        let en := mk_authority_entry (strncpy (WTC_MAX_STATION_NAME - 1) station)
                    authority_context_init 0 in
        Some (m <| au_entries ::= fun l => l ++ [en] |>, length (au_entries m), en)
      else None
  end.

Definition notify_state_change (station : string) (old new : authority_state)
    (m : authority_manager) : authority_manager :=
  if au_callback m && negb (bool_decide (old = new))
  then m <| au_trace ::= fun t => t ++ [(station, old, new)] |> else m.

(** Store a context and notify. *)
Definition put_context (i : nat) (en : authority_entry) (c : authority_context) (station : string)
    (m : authority_manager) : authority_manager :=
  notify_state_change station (ac_state (ae_context en)) (ac_state c)
    (m <| au_entries ::= <[i := en <| ae_context := c |>]> |>).

(** [authority_request] *)
Definition authority_request (now : Z) (m : authority_manager) (station : string)
    : wtc_result * authority_manager :=
  match find_or_create_entry m station with
  | None => (WTC_ERROR_FULL, m)
  | Some (m, i, en) =>
      match ac_state (ae_context en) with
      | AUTHORITY_SUPERVISED => (WTC_OK, m)
      | AUTHORITY_HANDOFF_PENDING => (WTC_ERROR_BUSY, m)
      | AUTHORITY_AUTONOMOUS | AUTHORITY_RELEASING =>
          (WTC_OK, put_context i en
             ((ae_context en) <| ac_state := AUTHORITY_HANDOFF_PENDING |>
                <| ac_request_time_ms := now |> <| ac_rtu_acknowledged := false |>
                <| ac_controller_online := true |>
                <| ac_stale_command_threshold_ms := amc_stale_command_ms (au_config m) |>)
             station m)
      end
  end.

(** [authority_release] *)
Definition authority_release (now : Z) (m : authority_manager) (station : string)
    : wtc_result * authority_manager :=
  match list_find (has_station station) (au_entries m) with
  | None => (WTC_ERROR_NOT_FOUND, m)
  | Some (i, en) =>
      if negb (bool_decide (ac_state (ae_context en) = AUTHORITY_SUPERVISED))
      then (WTC_ERROR_PERMISSION, m)
      else (WTC_OK, put_context i en
              ((ae_context en) <| ac_state := AUTHORITY_RELEASING |>
                 <| ac_request_time_ms := now |>) station m)
  end.

(** [authority_handle_grant] *)
Definition authority_handle_grant (now : Z) (m : authority_manager) (station : string) (epoch : Z)
    : wtc_result * authority_manager :=
  match list_find (has_station station) (au_entries m) with
  | None => (WTC_ERROR_NOT_FOUND, m)
  | Some (i, en) =>
      if negb (bool_decide (ac_state (ae_context en) = AUTHORITY_HANDOFF_PENDING))
      then (WTC_ERROR_PROTOCOL, m)
      else (WTC_OK, put_context i en
              ((ae_context en) <| ac_epoch := epoch |> <| ac_state := AUTHORITY_SUPERVISED |>
                 <| ac_grant_time_ms := now |> <| ac_rtu_acknowledged := true |>
                 <| ac_holder := "CONTROLLER" |>) station m)
  end.

(** [authority_handle_released] *)
Definition authority_handle_released (m : authority_manager) (station : string) (epoch : Z)
    : wtc_result * authority_manager :=
  match list_find (has_station station) (au_entries m) with
  | None => (WTC_ERROR_NOT_FOUND, m)
  | Some (i, en) =>
      (WTC_OK, put_context i en
         ((ae_context en) <| ac_epoch := epoch |> <| ac_state := AUTHORITY_AUTONOMOUS |>
            <| ac_rtu_acknowledged := false |>
            <| ac_holder := strncpy (WTC_MAX_STATION_NAME - 1) station |>) station m)
  end.

(** [authority_validate_command] *)
Definition authority_validate_command (m : authority_manager) (station : string)
    (command_epoch : Z) : wtc_result :=
  match list_find (has_station station) (au_entries m) with
  | None => WTC_ERROR_NOT_FOUND
  | Some (_, en) =>
      if negb (bool_decide (ac_state (ae_context en) = AUTHORITY_SUPERVISED))
      then WTC_ERROR_PERMISSION
      else if negb (command_epoch =? 0) && (command_epoch <? ac_epoch (ae_context en))
      then WTC_ERROR_PERMISSION
      else WTC_OK
  end.

Definition authority_get_state (m : authority_manager) (station : string) : authority_state :=
  match list_find (has_station station) (au_entries m) with
  | Some (_, en) => ac_state (ae_context en)
  | None => AUTHORITY_AUTONOMOUS
  end.

Definition authority_get_epoch (m : authority_manager) (station : string) : Z :=
  match list_find (has_station station) (au_entries m) with
  | Some (_, en) => ac_epoch (ae_context en)
  | None => 0
  end.

(** The timeouts of [authority_manager_process] on one entry's context. *)
Definition check_timeouts (now_ms timeout : Z) (c : authority_context) : authority_context :=
  let expired := timeout <? u64_sub now_ms (ac_request_time_ms c) in
  match ac_state c with
  | AUTHORITY_HANDOFF_PENDING =>
      if expired then c <| ac_state := AUTHORITY_AUTONOMOUS |> <| ac_controller_online := false |>
      else c
  | AUTHORITY_RELEASING =>
      if expired then c <| ac_state := AUTHORITY_AUTONOMOUS |>
                        <| ac_epoch ::= fun e => wrap32 (e + 1) |>
      else c
  | _ => c
  end.

(** One iteration of its loop. *)
Definition process_entry (now_ms : Z) (m : authority_manager) (i : nat) : authority_manager :=
  match au_entries m !! i with
  | None => m
  | Some en =>
      put_context i en (check_timeouts now_ms (amc_handoff_timeout_ms (au_config m)) (ae_context en))
        (ae_station_name en) m
  end.

Definition authority_manager_process (now_ms : Z) (m : authority_manager) : authority_manager :=
  foldl (process_entry now_ms) m (seq 0 (length (au_entries m))).

(** [authority_force_release] *)
Definition authority_force_release (m : authority_manager) (station : string)
    : wtc_result * authority_manager :=
  match list_find (has_station station) (au_entries m) with
  | None => (WTC_ERROR_NOT_FOUND, m)
  | Some (i, en) =>
      (WTC_OK, put_context i en
         ((ae_context en) <| ac_state := AUTHORITY_AUTONOMOUS |>
            <| ac_epoch ::= fun e => wrap32 (e + 1) |> <| ac_controller_online := false |>
            <| ac_holder := strncpy (WTC_MAX_STATION_NAME - 1) station |>) station m)
  end.

(** ** Operations *)

Inductive au_op :=
| AuSetCallback (set : bool)
| AuRequest (now : Z) (station : string)
| AuRelease (now : Z) (station : string)
| AuGrant (now : Z) (station : string) (epoch : Z)
| AuReleased (station : string) (epoch : Z)
| AuProcess (now : Z)
| AuForce (station : string).

Definition au_exec (m : authority_manager) (op : au_op) : authority_manager :=
  match op with
  | AuSetCallback b => authority_manager_set_callback m b
  | AuRequest now st => snd (authority_request now m st)
  | AuRelease now st => snd (authority_release now m st)
  | AuGrant now st e => snd (authority_handle_grant now m st e)
  | AuReleased st e => snd (authority_handle_released m st e)
  | AuProcess now => authority_manager_process now m
  | AuForce st => snd (authority_force_release m st)
  end.

(** ** What an operation does at most to one entry

    A device of the proofs below: every entry is kept or changed in one of these
    ways.  When it is kept is shown separately. *)
Inductive entry_step (st : string) : au_op -> authority_context -> authority_context -> Prop :=
| step_same op c : entry_step st op c c
| step_request now st' c :
    strncpy (WTC_MAX_STATION_NAME - 1) st' = st ->
    ac_state c = AUTHORITY_AUTONOMOUS \/ ac_state c = AUTHORITY_RELEASING ->
    forall c', ac_state c' = AUTHORITY_HANDOFF_PENDING -> ac_request_time_ms c' = now ->
    ac_epoch c' = ac_epoch c -> entry_step st (AuRequest now st') c c'
| step_grant now epoch c :
    ac_state c = AUTHORITY_HANDOFF_PENDING ->
    forall c', ac_state c' = AUTHORITY_SUPERVISED -> ac_epoch c' = epoch ->
    entry_step st (AuGrant now st epoch) c c'
| step_release now c :
    ac_state c = AUTHORITY_SUPERVISED ->
    forall c', ac_state c' = AUTHORITY_RELEASING -> ac_request_time_ms c' = now ->
    entry_step st (AuRelease now st) c c'
| step_released epoch c :
    forall c', ac_state c' = AUTHORITY_AUTONOMOUS -> ac_epoch c' = epoch ->
    entry_step st (AuReleased st epoch) c c'
| step_force c :
    forall c', ac_state c' = AUTHORITY_AUTONOMOUS -> entry_step st (AuForce st) c c'
| step_timeout now c :
    ac_state c = AUTHORITY_HANDOFF_PENDING \/ ac_state c = AUTHORITY_RELEASING ->
    forall c', ac_state c' = AUTHORITY_AUTONOMOUS -> entry_step st (AuProcess now) c c'.

(** ** Lemmas *)

Lemma notify_entries st a b m : au_entries (notify_state_change st a b m) = au_entries m.
Proof. unfold notify_state_change. by destruct (_ && _). Qed.

Lemma put_context_entries i en c st m :
  au_entries (put_context i en c st m) = <[i := en <| ae_context := c |>]> (au_entries m).
Proof. unfold put_context. by rewrite notify_entries. Qed.

Lemma put_context_config i en c st m : au_config (put_context i en c st m) = au_config m.
Proof. unfold put_context, notify_state_change. by destruct (_ && _). Qed.

Definition au_inv (m : authority_manager) : Prop :=
  (length (au_entries m) <= MAX_AUTHORITY_ENTRIES)%nat /\
  Forall (fun en => String.length (ae_station_name en) <= WTC_MAX_STATION_NAME - 1)%nat
    (au_entries m).

(** What one operation does to the table: every old entry keeps its place and name
    and takes a protocol step; a request may append one entry. *)
Definition protocol_ok (op : au_op) (l l' : list authority_entry) : Prop :=
  (forall i en, l !! i = Some en -> exists en', l' !! i = Some en' /\
     ae_station_name en' = ae_station_name en /\
     entry_step (ae_station_name en) op (ae_context en) (ae_context en')) /\
  (forall i en', l !! i = None -> l' !! i = Some en' ->
     entry_step (ae_station_name en') op authority_context_init (ae_context en')).

Lemma protocol_ok_refl op l : protocol_ok op l l.
Proof.
  split; [intros i en Hi; exists en; split_and!; [done..|apply step_same]|]. congruence.
Qed.

(** An operation that updates the entry found for a station. *)
Lemma protocol_ok_put op i en c st m :
  au_entries m !! i = Some en ->
  entry_step (ae_station_name en) op (ae_context en) c ->
  protocol_ok op (au_entries m) (au_entries (put_context i en c st m)).
Proof.
  intros Hi Hs. rewrite put_context_entries. split.
  - intros j en0 Hj. destruct (decide (i = j)) as [<-|Hne].
    + assert (en0 = en) as -> by congruence. exists (en <| ae_context := c |>).
      rewrite list_lookup_insert_eq by (by eapply lookup_lt_Some). done.
    + exists en0. rewrite list_lookup_insert_ne by done. split_and!; [done..|apply step_same].
  - intros j en' Hn Hj. apply lookup_ge_None in Hn.
    apply lookup_lt_Some in Hj. rewrite length_insert in Hj. lia.
Qed.

Lemma find_station m st i en :
  list_find (has_station st) (au_entries m) = Some (i, en) ->
  au_entries m !! i = Some en /\ ae_station_name en = st.
Proof. intros (Hi & Hst & _)%list_find_Some. done. Qed.

Lemma request_protocol now m st :
  au_inv m -> protocol_ok (AuRequest now st) (au_entries m) (au_entries (snd (authority_request now m st))).
Proof.
  intros [Hlen Hnames]. unfold authority_request, find_or_create_entry.
  destruct (list_find _ _) as [[i en]|] eqn:E.
  - apply find_station in E as [Hi Hst].
    assert (strncpy (WTC_MAX_STATION_NAME - 1) st = ae_station_name en) as Hn.
    { rewrite <- Hst. apply strncpy_fits. by apply (Forall_lookup_1 _ _ _ _ Hnames Hi). }
    destruct (ac_state (ae_context en)) eqn:Hs; cbn [snd]; try apply protocol_ok_refl.
    all: apply protocol_ok_put; [done|]; apply step_request; auto.
  - destruct (_ <? _)%nat; [|apply protocol_ok_refl]. cbn [ae_context ac_state authority_context_init snd].
    set (en := mk_authority_entry _ _ _). rewrite put_context_entries. cbn.
    rewrite insert_app_r_alt, Nat.sub_diag by lia. cbn. split.
    + intros i en0 Hi. exists en0. rewrite lookup_app_l by (by eapply lookup_lt_Some).
      split_and!; [done..|apply step_same].
    + intros i en' Hn Hi. apply lookup_ge_None in Hn. rewrite lookup_app_r in Hi by done.
      apply list_lookup_singleton_Some in Hi as [_ <-]. cbn. apply step_request; auto.
Qed.

Lemma check_timeouts_step st now timeout c :
  entry_step st (AuProcess now) c (check_timeouts now timeout c).
Proof.
  unfold check_timeouts. destruct (ac_state c) eqn:Hs; try apply step_same.
  all: destruct (_ <? _); [apply step_timeout; auto|apply step_same].
Qed.

(** The loop of [authority_manager_process] checks every entry. *)
Lemma process_entries now m k n :
  let m' := foldl (process_entry now) m (seq k n) in
  au_config m' = au_config m /\
  forall i, au_entries m' !! i =
    (if decide (k <= i < k + n)%nat
     then (fun en => en <| ae_context ::= check_timeouts now (amc_handoff_timeout_ms (au_config m)) |>)
     else id) <$> au_entries m !! i.
Proof.
  revert m k. induction n as [|n IH]; intros m k; cbn [seq foldl].
  - split; [done|]. intros i. rewrite decide_False by lia. by rewrite option_fmap_id.
  - destruct (IH (process_entry now m k) (S k)) as [Hc He]. clear IH.
    assert (au_config (process_entry now m k) = au_config m) as Hcfg.
    { unfold process_entry. destruct (_ !! k); [apply put_context_config|done]. }
    split; [by rewrite Hc|]. intros i. rewrite He, Hcfg. unfold process_entry.
    destruct (decide (i = k)) as [->|Hne].
    + rewrite decide_False, decide_True, option_fmap_id by lia.
      destruct (au_entries m !! k) as [en|] eqn:Hk; [|by rewrite Hk].
      rewrite put_context_entries, list_lookup_insert_eq by (by eapply lookup_lt_Some). done.
    + assert (au_entries match au_entries m !! k with
        | Some en => put_context k en (check_timeouts now (amc_handoff_timeout_ms (au_config m))
            (ae_context en)) (ae_station_name en) m
        | None => m end !! i = au_entries m !! i) as ->.
      { destruct (au_entries m !! k); [|done].
        by rewrite put_context_entries, list_lookup_insert_ne. }
      destruct (decide (S k <= i < S k + n)%nat), (decide (k <= i < k + S n)%nat); done || lia.
Qed.

Lemma process_lookup now m i :
  au_entries (authority_manager_process now m) !! i =
  (fun en => en <| ae_context ::= check_timeouts now (amc_handoff_timeout_ms (au_config m)) |>)
    <$> au_entries m !! i.
Proof.
  unfold authority_manager_process.
  destruct (process_entries now m 0 (length (au_entries m))) as [_ ->].
  destruct (au_entries m !! i) eqn:E; [|done]. apply lookup_lt_Some in E.
  by rewrite decide_True by lia.
Qed.

Lemma exec_protocol m op : au_inv m -> protocol_ok op (au_entries m) (au_entries (au_exec m op)).
Proof.
  intros Hm. destruct op; cbn [au_exec].
  - apply protocol_ok_refl.
  - by apply request_protocol.
  - unfold authority_release. destruct (list_find _ _) as [[i en]|] eqn:E; [|apply protocol_ok_refl].
    apply find_station in E as [Hi <-]. split_if; [apply protocol_ok_refl|]. reflect.
    apply protocol_ok_put; [done|]. by apply step_release.
  - unfold authority_handle_grant. destruct (list_find _ _) as [[i en]|] eqn:E; [|apply protocol_ok_refl].
    apply find_station in E as [Hi <-]. split_if; [apply protocol_ok_refl|]. reflect.
    apply protocol_ok_put; [done|]. by apply step_grant.
  - unfold authority_handle_released.
    destruct (list_find _ _) as [[i en]|] eqn:E; [|apply protocol_ok_refl].
    apply find_station in E as [Hi <-]. apply protocol_ok_put; [done|]. by apply step_released.
  - split.
    + intros i en Hi. eexists. rewrite process_lookup, Hi. split_and!; [done..|].
      apply check_timeouts_step.
    + intros i en' Hn. rewrite process_lookup, Hn. done.
  - unfold authority_force_release.
    destruct (list_find _ _) as [[i en]|] eqn:E; [|apply protocol_ok_refl].
    apply find_station in E as [Hi <-]. apply protocol_ok_put; [done|]. by apply step_force.
Qed.

Lemma au_inv_put i en c st m :
  au_entries m !! i = Some en -> au_inv m -> au_inv (put_context i en c st m).
Proof.
  intros Hi [Hl Hn]. unfold au_inv. rewrite put_context_entries, length_insert. split; [done|].
  apply Forall_insert; [done|]. by apply (Forall_lookup_1 _ _ _ _ Hn Hi).
Qed.

Lemma au_exec_inv m op : au_inv m -> au_inv (au_exec m op).
Proof.
  intros Hm. destruct op; cbn [au_exec]; [done|..].
  - unfold authority_request, find_or_create_entry.
    destruct (list_find _ _) as [[i en]|] eqn:E.
    + apply find_station in E as [Hi _]. destruct (ac_state _); cbn [snd]; auto using au_inv_put.
    + destruct (_ <? _)%nat eqn:Hlt; [|done]. apply Nat.ltb_lt in Hlt.
      cbn [ae_context ac_state authority_context_init snd]. apply au_inv_put.
      * cbn. apply lookup_snoc_eq.
      * destruct Hm as [Hl Hn]. split; cbn; [rewrite length_app; cbn; lia|].
        apply Forall_app. split; [done|]. apply Forall_singleton. cbn. apply strncpy_length.
  - unfold authority_release. destruct (list_find _ _) as [[i en]|] eqn:E; [|done].
    apply find_station in E as [Hi _]. split_if; cbn [snd]; auto using au_inv_put.
  - unfold authority_handle_grant. destruct (list_find _ _) as [[i en]|] eqn:E; [|done].
    apply find_station in E as [Hi _]. split_if; cbn [snd]; auto using au_inv_put.
  - unfold authority_handle_released. destruct (list_find _ _) as [[i en]|] eqn:E; [|done].
    apply find_station in E as [Hi _]. cbn [snd]. auto using au_inv_put.
  - assert (ae_station_name <$> au_entries (authority_manager_process now m)
            = ae_station_name <$> au_entries m) as Hn.
    { apply list_eq. intros i. rewrite !list_lookup_fmap, process_lookup.
      by destruct (au_entries m !! i). }
    destruct Hm as [Hl Hs]. split.
    + apply (f_equal length) in Hn. rewrite !length_fmap in Hn. by rewrite Hn.
    + apply (Forall_fmap ae_station_name (fun s => String.length s <= WTC_MAX_STATION_NAME - 1)%nat).
      rewrite Hn. by apply (Forall_fmap ae_station_name
        (fun s => String.length s <= WTC_MAX_STATION_NAME - 1)%nat).
  - unfold authority_force_release. destruct (list_find _ _) as [[i en]|] eqn:E; [|done].
    apply find_station in E as [Hi _]. cbn [snd]. auto using au_inv_put.
Qed.

Definition au_run (config : option authority_manager_config) (ops : list au_op) : authority_manager :=
  foldl au_exec (authority_manager_init config) ops.

Lemma au_run_inv config ops : au_inv (au_run config ops).
Proof.
  unfold au_run. induction ops as [|op ops IH] using rev_ind.
  - split; [vm_compute; lia|constructor].
  - rewrite foldl_snoc. by apply au_exec_inv.
Qed.

(** ** Theorems *)

(** *** One RTU as an automaton

    The handoff protocol of one station, with the time of the open request. *)
Inductive phase :=
| Unknown | Autonomous | Pending (since : Z) | Supervised | Releasing (since : Z).

Definition phase_next (timeout : Z) (st : string) (p : phase) (op : au_op) : phase :=
  match op with
  | AuSetCallback _ => p
  | AuRequest now s =>
      if decide (s = st) then
        match p with
        | Unknown | Autonomous | Releasing _ => Pending now
        | Pending _ | Supervised => p
        end
      else p
  | AuGrant _ s _ =>
      if decide (s = st) then match p with Pending _ => Supervised | _ => p end else p
  | AuRelease now s =>
      if decide (s = st) then match p with Supervised => Releasing now | _ => p end else p
  | AuReleased s _ | AuForce s =>
      if decide (s = st) then match p with Unknown => Unknown | _ => Autonomous end else p
  | AuProcess now =>
      match p with
      | Pending t | Releasing t => if decide (timeout < (now - t) mod 2 ^ 64) then Autonomous else p
      | _ => p
      end
  end.

(** What the manager answers for a station in a phase. *)
Definition phase_state (p : phase) : authority_state :=
  match p with
  | Unknown | Autonomous => AUTHORITY_AUTONOMOUS
  | Pending _ => AUTHORITY_HANDOFF_PENDING
  | Supervised => AUTHORITY_SUPERVISED
  | Releasing _ => AUTHORITY_RELEASING
  end.
Definition phase_command (p : phase) : wtc_result :=
  match p with
  | Unknown => WTC_ERROR_NOT_FOUND
  | Supervised => WTC_OK
  | _ => WTC_ERROR_PERMISSION
  end.

(** The phase the table holds for a station. *)
Definition context_phase (c : authority_context) : phase :=
  match ac_state c with
  | AUTHORITY_AUTONOMOUS => Autonomous
  | AUTHORITY_HANDOFF_PENDING => Pending (ac_request_time_ms c)
  | AUTHORITY_SUPERVISED => Supervised
  | AUTHORITY_RELEASING => Releasing (ac_request_time_ms c)
  end.
Definition phase_of (l : list authority_entry) (st : string) : phase :=
  match list_find (has_station st) l with
  | Some (_, en) => context_phase (ae_context en)
  | None => Unknown
  end.

Lemma find_insert_name l i en en' st :
  l !! i = Some en -> ae_station_name en' = ae_station_name en ->
  list_find (has_station st) (<[i := en']> l)
  = (fun '(j, x) => (j, if decide (j = i) then en' else x)) <$> list_find (has_station st) l.
Proof.
  revert i. induction l as [|x l IH]; intros [|i] Hi Hn; try done; cbn in Hi |- *.
  - injection Hi as ->. unfold has_station in *.
    destruct (decide _), (decide _); try congruence; [done|].
    destruct (list_find _ l) as [[j y]|]; done.
  - case_decide; [done|]. rewrite IH by done. destruct (list_find _ l) as [[j y]|]; [|done].
    cbn. by repeat case_decide; try lia.
Qed.

Lemma phase_of_put m i en c st s :
  list_find (has_station st) (au_entries m) = Some (i, en) ->
  phase_of (au_entries (put_context i en c st m)) s
  = if decide (s = st) then context_phase c else phase_of (au_entries m) s.
Proof.
  intros Hf. pose proof (find_station _ _ _ _ Hf) as [Hi Hst].
  unfold phase_of. rewrite put_context_entries, (find_insert_name _ _ en) by done.
  case_decide as Hs; [subst s; rewrite Hf; cbn; by rewrite decide_True|].
  destruct (list_find (has_station s) _) as [[j y]|] eqn:E; [|done]. cbn.
  apply find_station in E as [Hj Hy]. rewrite decide_False; [done|]. intros ->. congruence.
Qed.

Lemma phase_of_fmap (f : authority_entry -> authority_entry) l st :
  (forall en, ae_station_name (f en) = ae_station_name en) ->
  list_find (has_station st) (f <$> l) = prod_map id f <$> list_find (has_station st) l.
Proof.
  intros Hf. induction l as [|x l IH]; [done|]. cbn. unfold has_station in *. specialize (Hf x).
  destruct (decide _), (decide _); try congruence; [done|].
  rewrite IH. by destruct (list_find _ l) as [[]|].
Qed.

(** The table as a set of stations that cannot overflow: names taken from
    [stations], each once. *)
Definition table_of (stations : list string) (m : authority_manager) : Prop :=
  NoDup (ae_station_name <$> au_entries m) /\
  Forall (fun en => ae_station_name en ∈ stations) (au_entries m).

(** A request fits: its station is one of the known ones and its name fits the
    entry. *)
Definition request_fits (stations : list string) (op : au_op) : Prop :=
  match op with
  | AuRequest _ s => s ∈ stations /\ (String.length s <= 63)%nat
  | _ => True
  end.

Lemma names_kept m op :
  (forall now s, op <> AuRequest now s) ->
  ae_station_name <$> au_entries (au_exec m op) = ae_station_name <$> au_entries m.
Proof.
  assert (forall i en c s m', au_entries m' !! i = Some en ->
    ae_station_name <$> au_entries (put_context i en c s m') = ae_station_name <$> au_entries m') as Hput.
  { intros i en c s m' Hi. rewrite put_context_entries, list_fmap_insert. cbn.
    apply list_insert_id. by rewrite list_lookup_fmap, Hi. }
  intros Hop. destruct op; cbn [au_exec]; try done; try by destruct (Hop now station).
  - unfold authority_release. destruct (list_find _ _) as [[i en]|] eqn:E; [|done].
    apply find_station in E as [Hi _]. split_if; cbn [snd]; auto.
  - unfold authority_handle_grant. destruct (list_find _ _) as [[i en]|] eqn:E; [|done].
    apply find_station in E as [Hi _]. split_if; cbn [snd]; auto.
  - unfold authority_handle_released. destruct (list_find _ _) as [[i en]|] eqn:E; [|done].
    apply find_station in E as [Hi _]. cbn [snd]; auto.
  - apply list_eq. intros i. rewrite !list_lookup_fmap, process_lookup. by destruct (au_entries m !! i).
  - unfold authority_force_release. destruct (list_find _ _) as [[i en]|] eqn:E; [|done].
    apply find_station in E as [Hi _]. cbn [snd]; auto.
Qed.

Lemma exec_config m op : au_config (au_exec m op) = au_config m.
Proof.
  destruct op; cbn [au_exec]; [done|..].
  - unfold authority_request, find_or_create_entry. destruct (list_find _ _) as [[i en]|].
    + destruct (ac_state _); cbn [snd]; rewrite ?put_context_config; done.
    + destruct (_ <? _)%nat; [|done]. cbn [ae_context ac_state authority_context_init snd].
      by rewrite put_context_config.
  - unfold authority_release. destruct (list_find _ _) as [[i en]|]; [|done].
    split_if; cbn [snd]; rewrite ?put_context_config; done.
  - unfold authority_handle_grant. destruct (list_find _ _) as [[i en]|]; [|done].
    split_if; cbn [snd]; rewrite ?put_context_config; done.
  - unfold authority_handle_released. destruct (list_find _ _) as [[i en]|]; [|done].
    cbn [snd]. by rewrite put_context_config.
  - by destruct (process_entries now m 0 (length (au_entries m))).
  - unfold authority_force_release. destruct (list_find _ _) as [[i en]|]; [|done].
    cbn [snd]. by rewrite put_context_config.
Qed.

(** A request on a table with room. *)
Lemma request_phase stations now m st s :
  table_of stations m -> (length stations <= MAX_AUTHORITY_ENTRIES)%nat ->
  request_fits stations (AuRequest now st) ->
  table_of stations (au_exec m (AuRequest now st)) /\
  phase_of (au_entries (au_exec m (AuRequest now st))) s
  = phase_next (amc_handoff_timeout_ms (au_config m)) s (phase_of (au_entries m) s) (AuRequest now st).
Proof.
  intros [Hnd Hin] Hlen [Hst Hfit]. cbn [au_exec phase_next].
  unfold authority_request, find_or_create_entry.
  destruct (list_find (has_station st) (au_entries m)) as [[i en]|] eqn:E.
  - pose proof (find_station _ _ _ _ E) as [Hi Hn].
    assert (forall c, table_of stations (put_context i en c st m)) as Htab.
    { intros c. unfold table_of. rewrite put_context_entries, list_fmap_insert. cbn.
      rewrite list_insert_id by (by rewrite list_lookup_fmap, Hi). split; [done|].
      apply Forall_insert; [done|]. cbn. by rewrite Hn. }
    assert (context_phase (ae_context en) = phase_of (au_entries m) st) as Hp
      by (unfold phase_of; by rewrite E).
    unfold context_phase in Hp.
    destruct (ac_state (ae_context en)); cbn [snd];
      (split; [first [apply Htab|done]|]); rewrite ?(phase_of_put _ _ _ _ _ _ E);
      repeat case_decide; subst; try done; by rewrite <- Hp.
  - assert (st ∉ ae_station_name <$> au_entries m) as Hnew.
    { intros (en & -> & Hen)%list_elem_of_fmap. apply list_find_None in E.
      rewrite Forall_forall in E. by apply (E en Hen). }
    assert (length (au_entries m) < MAX_AUTHORITY_ENTRIES)%nat as Hroom.
    { assert (length (st :: (ae_station_name <$> au_entries m)) <= length stations)%nat as Hl.
      { apply submseteq_length, NoDup_submseteq; [by constructor|].
        intros x [->|(en & -> & Hen)%list_elem_of_fmap]%elem_of_cons; [done|].
        rewrite Forall_forall in Hin. by apply Hin. }
      cbn in Hl. rewrite length_fmap in Hl. lia. }
    rewrite (proj2 (Nat.ltb_lt _ _) Hroom). cbn [ae_context ac_state authority_context_init snd].
    rewrite strncpy_fits by done. rewrite put_context_entries. cbn.
    rewrite insert_app_r_alt, Nat.sub_diag by lia. cbn.
    unfold table_of, phase_of. rewrite put_context_entries. cbn.
    rewrite insert_app_r_alt, Nat.sub_diag by lia. cbn. split; [split|].
    + rewrite fmap_app. apply NoDup_app. split_and!; [done|set_solver|apply NoDup_singleton].
    + apply Forall_app. split; [done|]. by apply Forall_singleton.
    + destruct (decide (st = s)) as [->|Hne].
      * rewrite (list_find_app_r _ _ _ E), E. cbn. by rewrite decide_True.
      * destruct (list_find (has_station s) (au_entries m)) as [[j y]|] eqn:Es;
          [by rewrite (list_find_app_l _ _ _ _ _ Es)|].
        rewrite (list_find_app_r _ _ _ Es). cbn. by rewrite decide_False.
Qed.

Lemma exec_phase stations m op st :
  table_of stations m -> (length stations <= MAX_AUTHORITY_ENTRIES)%nat ->
  request_fits stations op ->
  table_of stations (au_exec m op) /\
  phase_of (au_entries (au_exec m op)) st
  = phase_next (amc_handoff_timeout_ms (au_config m)) st (phase_of (au_entries m) st) op.
Proof.
  intros Ht Hlen Hfit.
  assert ((exists now s, op = AuRequest now s) \/ (forall now s, op <> AuRequest now s)) as [(now & s & ->)|Hop]
    by (destruct op; naive_solver).
  { by apply request_phase. }
  split.
  { destruct Ht as [Hnd Hin]. unfold table_of. rewrite names_kept by done. split; [done|].
    apply (Forall_fmap ae_station_name (fun s => s ∈ stations)). rewrite names_kept by done.
    by apply (Forall_fmap ae_station_name (fun s => s ∈ stations)). }
  assert (forall s, list_find (has_station s) (au_entries m) = None ->
    phase_of (au_entries m) s = Unknown) as Hnone by (intros s E; unfold phase_of; by rewrite E).
  assert (forall s i en, list_find (has_station s) (au_entries m) = Some (i, en) ->
    phase_of (au_entries m) s = context_phase (ae_context en)) as Hsome
    by (intros s i en E; unfold phase_of; by rewrite E).
  destruct op; cbn [au_exec phase_next]; [done|by destruct (Hop now station)|..].
  - unfold authority_release. destruct (list_find _ _) as [[i en]|] eqn:E; cycle 1.
    { cbn [snd]. case_decide; [subst; by rewrite Hnone|done]. }
    destruct (negb _) eqn:G; cbn [snd]; reflect.
    + case_decide; [subst|done]. rewrite (Hsome _ _ _ E). unfold context_phase. by destruct (ac_state (ae_context en)).
    + rewrite (phase_of_put _ _ _ _ _ _ E). repeat case_decide; subst; try done.
      rewrite (Hsome _ _ _ E). unfold context_phase. by rewrite G.
  - unfold authority_handle_grant. destruct (list_find _ _) as [[i en]|] eqn:E; cycle 1.
    { cbn [snd]. case_decide; [subst; by rewrite Hnone|done]. }
    destruct (negb _) eqn:G; cbn [snd]; reflect.
    + case_decide; [subst|done]. rewrite (Hsome _ _ _ E). unfold context_phase. by destruct (ac_state (ae_context en)).
    + rewrite (phase_of_put _ _ _ _ _ _ E). repeat case_decide; subst; try done.
      rewrite (Hsome _ _ _ E). unfold context_phase. by rewrite G.
  - unfold authority_handle_released. destruct (list_find _ _) as [[i en]|] eqn:E; cycle 1.
    { cbn [snd]. case_decide; [subst; by rewrite Hnone|done]. }
    cbn [snd]. rewrite (phase_of_put _ _ _ _ _ _ E). repeat case_decide; subst; try done.
    rewrite (Hsome _ _ _ E). unfold context_phase. by destruct (ac_state (ae_context en)).
  - replace (au_entries (authority_manager_process now m)) with
      ((fun en => en <| ae_context ::= check_timeouts now (amc_handoff_timeout_ms (au_config m)) |>)
         <$> au_entries m).
    2: { apply list_eq. intros i. by rewrite process_lookup, list_lookup_fmap. }
    unfold phase_of. rewrite phase_of_fmap by done.
    destruct (list_find _ _) as [[i en]|]; [|done]. cbn. unfold check_timeouts, context_phase.
    destruct (ac_state (ae_context en)) eqn:G; cbn; rewrite ?G; try done;
      (destruct (Z.ltb_spec (amc_handoff_timeout_ms (au_config m))
         (u64_sub now (ac_request_time_ms (ae_context en)))) as [Hx|Hx];
       [rewrite decide_True by exact Hx; done|rewrite decide_False by (apply Z.le_ngt; exact Hx); by rewrite G]).
  - unfold authority_force_release. destruct (list_find _ _) as [[i en]|] eqn:E; cycle 1.
    { cbn [snd]. case_decide; [subst; by rewrite Hnone|done]. }
    cbn [snd]. rewrite (phase_of_put _ _ _ _ _ _ E). repeat case_decide; subst; try done.
    rewrite (Hsome _ _ _ E). unfold context_phase. by destruct (ac_state (ae_context en)).
Qed.

(** C36: Refinement of the handoff protocol: whatever operations run, the state the
    manager reports for a station is that of the automaton [phase_next] run on
    the same operations, and a command without epoch is accepted exactly when the
    automaton is supervised. Authority is granted only to a pending request, a
    pending handoff or release ends after the timeout and not before, operations
    on other stations have no effect. The stations that request authority are at
    most 256, with names of at most 63 characters. Epochs are not part of the
    automaton. *)
Theorem authority_refines_automaton config stations ops st :
  (length stations <= MAX_AUTHORITY_ENTRIES)%nat -> Forall (request_fits stations) ops ->
  let m := au_run config ops in
  let p := foldl (phase_next (amc_handoff_timeout_ms (au_config (authority_manager_init config))) st)
             Unknown ops in
  authority_get_state m st = phase_state p /\ authority_validate_command m st 0 = phase_command p.
Proof.
  intros Hlen Hfit m p.
  assert (phase_of (au_entries m) st = p /\ table_of stations m /\
    au_config m = au_config (authority_manager_init config)) as (Hp & _ & _).
  { subst m p. unfold au_run. revert Hfit. induction ops as [|op ops IH] using rev_ind; intros Hfit.
    - split_and!; [done|split; constructor|done].
    - apply Forall_app in Hfit as [Hfit Hop]. rewrite Forall_singleton in Hop.
      destruct (IH Hfit) as (Hp & Ht & Hc). rewrite !foldl_snoc.
      destruct (exec_phase stations _ op st Ht Hlen Hop) as [Ht' Hp'].
      rewrite exec_config. split_and!; [|done..]. by rewrite Hp', Hp, Hc. }
  rewrite <- Hp. unfold authority_get_state, authority_validate_command, phase_of.
  destruct (list_find _ _) as [[i en]|]; [|done]. unfold context_phase.
  by destruct (ac_state (ae_context en)) eqn:G.
Qed.

(** ** Why a command is accepted *)

(** What takes authority away. *)
Definition ends_authority (st : string) (op : au_op) : Prop :=
  match op with
  | AuRelease _ s | AuReleased s _ | AuForce s => s = st
  | _ => False
  end.

(** What ends a handoff requested at [since]: a grant, a released message, a forced
    release or a periodic check after the timeout. *)
Definition ends_handoff (timeout : Z) (st : string) (since : Z) (op : au_op) : Prop :=
  match op with
  | AuGrant _ s _ | AuReleased s _ | AuForce s => s = st
  | AuProcess now => timeout < (now - since) mod 2 ^ 64
  | _ => False
  end.

(** A handoff requested at [since] is open at the end of the history. *)
Definition open_handoff (timeout : Z) (st : string) (since : Z) (ops : list au_op) : Prop :=
  exists pre st' mid, ops = pre ++ AuRequest since st' :: mid /\
    strncpy (WTC_MAX_STATION_NAME - 1) st' = st /\
    Forall (fun op => ~ ends_handoff timeout st since op) mid.

(** The history ends with authority granted with [epoch]: the grant met an open
    handoff, and nothing has taken authority away since. *)
Definition granted (timeout : Z) (st : string) (epoch : Z) (ops : list au_op) : Prop :=
  exists pre now since post, ops = pre ++ AuGrant now st epoch :: post /\
    open_handoff timeout st since pre /\ Forall (fun op => ~ ends_authority st op) post.

Definition justified (timeout : Z) (ops : list au_op) (st : string) (c : authority_context) : Prop :=
  (ac_state c = AUTHORITY_SUPERVISED -> granted timeout st (ac_epoch c) ops) /\
  (ac_state c = AUTHORITY_HANDOFF_PENDING ->
   open_handoff timeout st (ac_request_time_ms c) ops).

Lemma open_handoff_app timeout st since ops op :
  ~ ends_handoff timeout st since op -> open_handoff timeout st since ops ->
  open_handoff timeout st since (ops ++ [op]).
Proof.
  intros Hne (pre & st' & mid & -> & Hn & Hm). exists pre, st', (mid ++ [op]).
  rewrite <- app_assoc. split_and!; [done..|]. apply Forall_app. by repeat constructor.
Qed.

Lemma granted_app timeout st e ops op :
  ~ ends_authority st op -> granted timeout st e ops -> granted timeout st e (ops ++ [op]).
Proof.
  intros Hne (pre & now & since & post & -> & Hr & Hp). exists pre, now, since, (post ++ [op]).
  rewrite <- app_assoc. split_and!; [done..|]. apply Forall_app. by repeat constructor.
Qed.

Lemma step_justified timeout st op ops c c' :
  entry_step st op c c' ->
  (c' = c -> ac_state c = AUTHORITY_SUPERVISED -> ~ ends_authority st op) ->
  (c' = c -> ac_state c = AUTHORITY_HANDOFF_PENDING ->
     ~ ends_handoff timeout st (ac_request_time_ms c) op) ->
  justified timeout ops st c -> justified timeout (ops ++ [op]) st c'.
Proof.
  intros Hstep Hne Hnh [Hs Hp]. unfold justified.
  destruct Hstep as [op c|now st' c Hst Hc c' Hc' Ht He|now epoch c Hc c' Hc' He|now c Hc c' Hc' Ht
                    |epoch c c' Hc' He|c c' Hc'|now c Hc c' Hc']; rewrite ?Hc'; split; try done.
  - intros Hsup. apply granted_app; auto.
  - intros Hpend. apply open_handoff_app; auto.
  - intros _. rewrite Ht. by exists ops, st', [].
  - intros _. exists ops, now, (ac_request_time_ms c), []. rewrite He. split_and!; [done|by apply Hp|constructor].
Qed.

(** What ends authority or a handoff changes the entry it finds. *)
Lemma ends_changes m st op i en en' :
  list_find (has_station st) (au_entries m) = Some (i, en) ->
  au_entries (au_exec m op) !! i = Some en' ->
  (ends_authority st op -> ac_state (ae_context en') <> AUTHORITY_SUPERVISED) /\
  (ends_handoff (amc_handoff_timeout_ms (au_config m)) st (ac_request_time_ms (ae_context en)) op ->
   ac_state (ae_context en) = AUTHORITY_HANDOFF_PENDING ->
   ac_state (ae_context en') <> AUTHORITY_HANDOFF_PENDING).
Proof.
  intros Hf. pose proof (find_station _ _ _ _ Hf) as [Hi Hst].
  assert (i < length (au_entries m))%nat as Hlt by (by eapply lookup_lt_Some).
  destruct op; cbn [au_exec ends_authority ends_handoff]; try done; intros Hen'.
  - split; [intros ->|done]. revert Hen'. unfold authority_release. rewrite Hf.
    destruct (negb _) eqn:E; cbn [snd].
    + reflect. congruence.
    + rewrite put_context_entries, list_lookup_insert_eq by done. by intros [= <-].
  - split; [done|]. intros -> Hp. revert Hen'. unfold authority_handle_grant.
    rewrite Hf, Hp, bool_decide_true by done. cbn [negb snd].
    rewrite put_context_entries, list_lookup_insert_eq by done. by intros [= <-].
  - assert (station = st -> ac_state (ae_context en') = AUTHORITY_AUTONOMOUS) as Ha.
    { intros ->. revert Hen'. unfold authority_handle_released. rewrite Hf. cbn [snd].
      rewrite put_context_entries, list_lookup_insert_eq by done. by intros [= <-]. }
    split; intros; by rewrite Ha.
  - split; [done|]. intros Hx Hp. rewrite process_lookup, Hi in Hen'. injection Hen' as <-. cbn.
    unfold check_timeouts. rewrite Hp.
    change ((now - ac_request_time_ms (ae_context en)) mod 2 ^ 64)
      with (u64_sub now (ac_request_time_ms (ae_context en))) in Hx.
    by rewrite (proj2 (Z.ltb_lt _ _) Hx).
  - assert (station = st -> ac_state (ae_context en') = AUTHORITY_AUTONOMOUS) as Ha.
    { intros ->. revert Hen'. unfold authority_force_release. rewrite Hf. cbn [snd].
      rewrite put_context_entries, list_lookup_insert_eq by done. by intros [= <-]. }
    split; intros; by rewrite Ha.
Qed.

Lemma exec_justified timeout ops m op :
  au_inv m -> timeout = amc_handoff_timeout_ms (au_config m) ->
  (forall st i en, list_find (has_station st) (au_entries m) = Some (i, en) ->
     justified timeout ops st (ae_context en)) ->
  forall st i en, list_find (has_station st) (au_entries (au_exec m op)) = Some (i, en) ->
     justified timeout (ops ++ [op]) st (ae_context en).
Proof.
  intros Hm -> Hj st i en' (Hi' & Hst' & Hfirst')%list_find_Some.
  destruct (exec_protocol m op Hm) as [Hold Hnew].
  destruct (au_entries m !! i) as [en|] eqn:Hi.
  - destruct (Hold i en Hi) as (en1 & Hi1 & Hname & Hstep).
    assert (en1 = en') as -> by congruence. unfold has_station in Hst'. rewrite Hname in Hst'.
    rewrite Hst' in Hstep.
    assert (list_find (has_station st) (au_entries m) = Some (i, en)) as Hf.
    { apply list_find_Some. split_and!; [done..|]. intros j en0 Hj0 Hlt.
      destruct (Hold j en0 Hj0) as (en2 & Hj2 & Hn2 & _). unfold has_station. rewrite <- Hn2.
      by apply (Hfirst' j en2). }
    destruct (ends_changes m st op i en en' Hf Hi1) as [Hea Heh].
    eapply step_justified; [exact Hstep| | |by apply (Hj st i en)].
    + intros Heq Hs Hend. apply (Hea Hend). congruence.
    + intros Heq Hs Hend. apply (Heh Hend Hs). congruence.
  - pose proof (Hnew i en' Hi Hi') as Hstep. unfold has_station in Hst'. rewrite Hst' in Hstep.
    eapply step_justified; [exact Hstep|done..|]. by split.
Qed.

(** C5: No command without a grant: when a command is accepted, the history has a
    request for that station, then a grant received while the handoff was open
    (since the request no grant, released message, forced release or check after
    the timeout), and since the grant no release, released message or forced
    release; the command carries no older epoch than the grant (or none at all). *)
Theorem command_needs_grant config ops st command_epoch :
  authority_validate_command (au_run config ops) st command_epoch = WTC_OK ->
  exists epoch,
    granted (amc_handoff_timeout_ms (au_config (authority_manager_init config))) st epoch ops /\
    (command_epoch = 0 \/ epoch <= command_epoch).
Proof.
  assert (au_config (au_run config ops) = au_config (authority_manager_init config) /\
    forall st i en, list_find (has_station st) (au_entries (au_run config ops)) = Some (i, en) ->
      justified (amc_handoff_timeout_ms (au_config (authority_manager_init config))) ops st (ae_context en))
    as [_ Hj].
  { unfold au_run. induction ops as [|op ops [IHc IH]] using rev_ind.
    - split; [done|]. intros ? ? ? [Hl _]%list_find_Some. done.
    - rewrite foldl_snoc, exec_config. split; [done|].
      apply exec_justified; [apply (au_run_inv config ops)|by rewrite IHc|apply IH]. }
  unfold authority_validate_command.
  destruct (list_find _ _) as [[i en]|] eqn:E; [|done].
  destruct (negb (bool_decide _)) eqn:E1; [done|]. destruct (_ && _) eqn:E2; [done|]. intros _.
  exists (ac_epoch (ae_context en)). split.
  - apply (Hj st i en E). by reflect.
  - reflect. destruct E2 as [E2|E2]; reflect; auto.
Qed.

(** No handoff hangs: after [authority_manager_process] at time [now], an RTU that
    is still pending or releasing has been so for no longer than the handoff
    timeout. *)
Theorem handoff_bounded now m i en :
  au_entries (authority_manager_process now m) !! i = Some en ->
  ac_state (ae_context en) = AUTHORITY_HANDOFF_PENDING \/
  ac_state (ae_context en) = AUTHORITY_RELEASING ->
  u64_sub now (ac_request_time_ms (ae_context en)) <= amc_handoff_timeout_ms (au_config m).
Proof.
  rewrite process_lookup. destruct (au_entries m !! i) as [en0|]; [|done]. cbn. intros [= <-].
  cbn. unfold check_timeouts. destruct (ac_state (ae_context en0)) eqn:Hs; rewrite ?Hs;
    try (intros [Hx|Hx]; discriminate Hx);
    destruct (Z.ltb_spec (amc_handoff_timeout_ms (au_config m))
      (u64_sub now (ac_request_time_ms (ae_context en0)))); cbn; try lia;
    intros [Hx|Hx]; discriminate Hx.
Qed.

Module AuthorityDemo.
Definition ops : list au_op :=
  [AuRequest 100 "rtu-1"; AuProcess 200; AuGrant 300 "rtu-1" 7].

Lemma command_needs_grant_witness :
  exists epoch, granted 5000 "rtu-1" epoch ops /\ (9 = 0 \/ epoch <= 9).
Proof. apply (command_needs_grant None ops "rtu-1" 9). vm_compute. reflexivity. Defined.

(** Requested, left pending too long, requested again, granted, released. *)
Lemma authority_refines_automaton_witness :
  authority_get_state (au_run None [AuRequest 100 "rtu-1"; AuProcess 5200; AuGrant 5300 "rtu-1" 6;
    AuRequest 5400 "rtu-1"; AuGrant 5500 "rtu-1" 7; AuRelease 5600 "rtu-1"]) "rtu-1"
  = AUTHORITY_RELEASING.
Proof.
  refine (proj1 (authority_refines_automaton None ["rtu-1"] [AuRequest 100 "rtu-1"; AuProcess 5200;
    AuGrant 5300 "rtu-1" 6; AuRequest 5400 "rtu-1"; AuGrant 5500 "rtu-1" 7; AuRelease 5600 "rtu-1"]
    "rtu-1" _ _)).
  - vm_compute. lia.
  - repeat (apply Forall_cons; split; [first [exact I|split; [left|vm_compute; lia]]|]).
    apply Forall_nil. exact I.
Defined.

Lemma handoff_bounded_witness :
  exists en, au_entries (authority_manager_process 5000 (au_run None [AuRequest 100 "rtu-1"])) !! 0%nat
    = Some en /\ u64_sub 5000 (ac_request_time_ms (ae_context en)) <= 5000.
Proof.
  eexists. split; [vm_compute; reflexivity|].
  apply (handoff_bounded 5000 (au_run None [AuRequest 100 "rtu-1"]) 0);
    [vm_compute; reflexivity|left; reflexivity].
Defined.

(** Epochs can go back: a second handoff may be granted with a smaller epoch than
    the first, after which a command of the older handoff is accepted again; and a
    command is accepted however long ago the grant was. *)
Theorem epoch_can_decrease :
  let m1 := au_run None (ops ++ [AuRelease 400 "rtu-1"; AuReleased "rtu-1" 8]) in
  let m2 := foldl au_exec m1 [AuRequest 500 "rtu-1"; AuGrant 600 "rtu-1" 3] in
  authority_get_epoch (au_run None ops) "rtu-1" = 7 /\
  authority_validate_command m1 "rtu-1" 7 = WTC_ERROR_PERMISSION /\
  authority_get_epoch m2 "rtu-1" = 3 /\
  authority_validate_command m2 "rtu-1" 7 = WTC_OK /\
  authority_validate_command (authority_manager_process 100000000 m2) "rtu-1" 7 = WTC_OK.
Proof. vm_compute. split_and!; reflexivity. Qed.
End AuthorityDemo.
