(* ===== verification/Buffer.v ===== *)
(** * Buffers: the circular sample buffer and the network byte buffer

    Model of [src/utils/buffer.c].  Elements of the circular buffer are opaque
    (the code copies [element_size] bytes); positions are [size_t] values.  The
    byte buffer holds bytes as [Z] in 0..255; [size_t] additions wrap at 2^64. *)

From S2P Require Import Prelude Float32.

(** ** Circular buffer *)

Module Circular.
Section Circular.
Context {A : Type}.

(** [circular_buffer_t]; [cb_data] has [capacity] elements. *)
Record circular_buffer := mk_circular_buffer {
  cb_data : list A;
  cb_capacity : nat;
  cb_head : nat;
  cb_tail : nat;
  cb_count : nat }.

(** [buffer_init]: [zero] is the all-zero element [calloc] leaves. *)
Definition buffer_init (alloc_ok : bool) (zero : A) (element_size capacity : nat)
    : wtc_result * option circular_buffer :=
  if (element_size =? 0)%nat || (capacity =? 0)%nat then (WTC_ERROR_INVALID_PARAM, None)
  else if negb alloc_ok then (WTC_ERROR_NO_MEMORY, None)
  else (WTC_OK, Some (mk_circular_buffer (replicate capacity zero) capacity 0 0 0)).

Definition buffer_push (b : circular_buffer) (x : A) : circular_buffer :=
  let data := <[cb_head b := x]> (cb_data b) in
  let head := ((cb_head b + 1) mod cb_capacity b)%nat in
  if (cb_count b <? cb_capacity b)%nat
  then mk_circular_buffer data (cb_capacity b) head (cb_tail b) (cb_count b + 1)
  else mk_circular_buffer data (cb_capacity b) head ((cb_tail b + 1) mod cb_capacity b) (cb_count b).

(** [None] as the element: the output parameter is not written. *)
Definition buffer_pop (b : circular_buffer) : wtc_result * option A * circular_buffer :=
  if (cb_count b =? 0)%nat then (WTC_ERROR_EMPTY, None, b)
  else (WTC_OK, cb_data b !! cb_tail b,
        mk_circular_buffer (cb_data b) (cb_capacity b) (cb_head b)
          ((cb_tail b + 1) mod cb_capacity b) (cb_count b - 1)).

Definition buffer_peek (b : circular_buffer) : wtc_result * option A :=
  if (cb_count b =? 0)%nat then (WTC_ERROR_EMPTY, None)
  else (WTC_OK, cb_data b !! cb_tail b).

Definition buffer_get (b : circular_buffer) (index : nat) : wtc_result * option A :=
  if (cb_count b <=? index)%nat then (WTC_ERROR_INVALID_PARAM, None)
  else (WTC_OK, cb_data b !! ((cb_tail b + index) mod cb_capacity b)%nat).

Definition buffer_count (b : circular_buffer) : nat := cb_count b.
Definition buffer_is_empty (b : circular_buffer) : bool := (cb_count b =? 0)%nat.
Definition buffer_is_full (b : circular_buffer) : bool := (cb_count b =? cb_capacity b)%nat.

Definition buffer_clear (b : circular_buffer) : circular_buffer :=
  mk_circular_buffer (cb_data b) (cb_capacity b) 0 0 0.

(** *** The queue it implements

    A list, oldest first, of at most [cap] elements; pushing onto a full queue
    drops the oldest. *)
Definition queue_push (cap : nat) (q : list A) (x : A) : list A :=
  if (length q <? cap)%nat then q ++ [x] else drop 1 q ++ [x].

Record represents (cap : nat) (b : circular_buffer) (q : list A) : Prop := {
  rep_cap : cb_capacity b = cap /\ (0 < cap)%nat /\ length (cb_data b) = cap;
  rep_count : cb_count b = length q /\ (length q <= cap)%nat;
  rep_tail : (cb_tail b < cap)%nat;
  rep_head : cb_head b = ((cb_tail b + length q) mod cap)%nat;
  rep_data : forall i x, q !! i = Some x -> cb_data b !! ((cb_tail b + i) mod cap)%nat = Some x }.

(** Positions within one turn of the ring are distinct. *)
Lemma mod_inj cap t i j :
  (i < cap)%nat -> (j < cap)%nat -> ((t + i) mod cap = (t + j) mod cap)%nat -> i = j.
Proof.
  intros Hi Hj Heq. pose proof (Nat.div_mod_eq (t + i) cap) as H1.
  pose proof (Nat.div_mod_eq (t + j) cap) as H2. rewrite Heq in H1.
  assert ((t + i) / cap = (t + j) / cap)%nat by nia. lia.
Qed.

Lemma mod_lt_pos n cap : (0 < cap)%nat -> (n mod cap < cap)%nat.
Proof. intros. apply Nat.mod_upper_bound. lia. Qed.

Lemma mod_succ_add t i cap : (((t + 1) mod cap + i) mod cap = (t + S i) mod cap)%nat.
Proof. rewrite Nat.Div0.add_mod_idemp_l. f_equal. lia. Qed.

Lemma represents_push cap b q x :
  represents cap b q -> represents cap (buffer_push b x) (queue_push cap q x).
Proof.
  intros [(Hc & Hpos & Hd) (Hn & Hle) Ht Hh Hdata]. unfold buffer_push, queue_push.
  rewrite Hn, Hc. pose proof (mod_lt_pos (cb_tail b + length q) cap Hpos) as Hlt.
  destruct (Nat.ltb_spec (length q) cap) as [Hfree|Hfull].
  - split; cbn; rewrite ?length_insert, ?length_app; cbn; [split_and!; lia..| | |]; [done| |].
    + rewrite Hh, Nat.Div0.add_mod_idemp_l. f_equal. lia.
    + intros i y Hi. apply lookup_app_Some in Hi as [Hi|[Hge Hi]].
      * rewrite list_lookup_insert_ne; [by apply Hdata|]. apply lookup_lt_Some in Hi.
        rewrite Hh. intros Heq. apply mod_inj in Heq; lia.
      * apply list_lookup_singleton_Some in Hi as [Hi <-]. rewrite Hh.
        replace i with (length q) by lia. apply list_lookup_insert_eq. lia.
  - assert (length q = cap) as Hq by lia. destruct q as [|y q]; [cbn in *; lia|]. cbn in Hq.
    assert (cb_head b = cb_tail b) as Hht.
    { rewrite Hh. cbn [length]. rewrite Hq. rewrite <- (Nat.mul_1_l cap) at 1.
      rewrite Nat.Div0.mod_add. by apply Nat.mod_small. }
    split; cbn; rewrite ?drop_0, ?length_insert, ?length_app; cbn; [split_and!; lia..| | |].
    + by apply mod_lt_pos.
    + rewrite Hht, mod_succ_add. replace (cb_tail b + S (length q + 1))%nat
        with (cb_tail b + 1 + 1 * cap)%nat by lia. by rewrite Nat.Div0.mod_add.
    + intros i z Hi. rewrite mod_succ_add. apply lookup_app_Some in Hi as [Hi|[Hge Hi]].
      * rewrite list_lookup_insert_ne; [by apply (Hdata (S i))|]. apply lookup_lt_Some in Hi.
        rewrite Hht, <- (Nat.mod_small (cb_tail b) cap) at 1 by done.
        rewrite <- (Nat.add_0_r (cb_tail b)) at 1. intros Heq. apply mod_inj in Heq; lia.
      * apply list_lookup_singleton_Some in Hi as [Hi <-].
        replace (cb_tail b + S i)%nat with (cb_tail b + 1 * cap)%nat by lia.
        rewrite Nat.Div0.mod_add, Nat.mod_small by done. rewrite Hht.
        apply list_lookup_insert_eq. lia.
Qed.

Lemma represents_pop cap b q :
  represents cap b q ->
  let '(res, x, b') := buffer_pop b in
  match q with
  | [] => res = WTC_ERROR_EMPTY /\ x = None /\ b' = b
  | y :: q' => res = WTC_OK /\ x = Some y /\ represents cap b' q'
  end.
Proof.
  intros [(Hc & Hpos & Hd) (Hn & Hle) Ht Hh Hdata]. unfold buffer_pop. rewrite Hn, Hc.
  destruct q as [|y q']; cbn; [done|]. cbn in Hle, Hh. split_and!; [done| |].
  - rewrite <- (Hdata 0%nat y eq_refl). by rewrite Nat.add_0_r, Nat.mod_small.
  - split; cbn; [split_and!; lia..| | |].
    + by apply mod_lt_pos.
    + by rewrite Hh, mod_succ_add.
    + intros i z Hi. rewrite mod_succ_add. by apply Hdata.
Qed.

Lemma represents_get cap b q i :
  represents cap b q ->
  buffer_get b i = match q !! i with
                   | Some x => (WTC_OK, Some x)
                   | None => (WTC_ERROR_INVALID_PARAM, None)
                   end.
Proof.
  intros [(Hc & _) (Hn & _) _ _ Hdata]. unfold buffer_get. rewrite Hn, Hc.
  destruct (q !! i) as [x|] eqn:E.
  - pose proof (lookup_lt_Some _ _ _ E). destruct (Nat.leb_spec (length q) i); [lia|].
    by rewrite (Hdata i x E).
  - apply lookup_ge_None in E. by destruct (Nat.leb_spec (length q) i); [|lia].
Qed.

Lemma represents_peek cap b q :
  represents cap b q ->
  buffer_peek b = match q with [] => (WTC_ERROR_EMPTY, None) | x :: _ => (WTC_OK, Some x) end.
Proof.
  intros Hr. pose proof (represents_pop cap b q Hr) as Hp. unfold buffer_pop in Hp.
  unfold buffer_peek. destruct (cb_count b =? 0)%nat, q; destruct Hp as (? & ? & ?); congruence.
Qed.

(** Empty after initialisation and after clearing. *)
Lemma represents_empty cap (data : list A) :
  (0 < cap)%nat -> length data = cap -> represents cap (mk_circular_buffer data cap 0 0 0) [].
Proof.
  intros Hpos Hlen. split; cbn; [done|lia|done| |].
  - by rewrite Nat.Div0.mod_0_l.
  - intros i x Hi. by rewrite lookup_nil in Hi.
Qed.

(** *** Refinement *)

Inductive cb_op := CbPush (x : A) | CbPop | CbPeek | CbGet (i : nat) | CbCount | CbClear.

(** What a call returns to its caller. *)
Inductive cb_out := OutNone | OutElem (r : wtc_result) (x : option A) | OutCount (n : nat) (empty full : bool).

Definition cb_step (b : circular_buffer) (op : cb_op) : circular_buffer * cb_out :=
  match op with
  | CbPush x => (buffer_push b x, OutNone)
  | CbPop => let '(r, x, b') := buffer_pop b in (b', OutElem r x)
  | CbPeek => let '(r, x) := buffer_peek b in (b, OutElem r x)
  | CbGet i => let '(r, x) := buffer_get b i in (b, OutElem r x)
  | CbCount => (b, OutCount (buffer_count b) (buffer_is_empty b) (buffer_is_full b))
  | CbClear => (buffer_clear b, OutNone)
  end.

Definition queue_step (cap : nat) (q : list A) (op : cb_op) : list A * cb_out :=
  match op with
  | CbPush x => (queue_push cap q x, OutNone)
  | CbPop => match q with
             | [] => ([], OutElem WTC_ERROR_EMPTY None)
             | x :: q' => (q', OutElem WTC_OK (Some x))
             end
  | CbPeek => (q, match q with
                  | [] => OutElem WTC_ERROR_EMPTY None
                  | x :: _ => OutElem WTC_OK (Some x)
                  end)
  | CbGet i => (q, match q !! i with
                   | Some x => OutElem WTC_OK (Some x)
                   | None => OutElem WTC_ERROR_INVALID_PARAM None
                   end)
  | CbCount => (q, OutCount (length q) (length q =? 0)%nat (length q =? cap)%nat)
  | CbClear => ([], OutNone)
  end.

Fixpoint run {S} (step : S -> cb_op -> S * cb_out) (s : S) (ops : list cb_op) : list cb_out :=
  match ops with
  | [] => []
  | op :: ops => let '(s', out) := step s op in out :: run step s' ops
  end.

Lemma cb_step_refines cap b q op :
  represents cap b q ->
  represents cap (fst (cb_step b op)) (fst (queue_step cap q op)) /\
  snd (cb_step b op) = snd (queue_step cap q op).
Proof.
  intros Hr. destruct op; cbn.
  - split; [by apply represents_push|done].
  - pose proof (represents_pop cap b q Hr) as Hp. destruct (buffer_pop b) as [[r x] b'].
    destruct q; destruct Hp as (-> & -> & Hb); [by subst|done].
  - rewrite (represents_peek cap b q Hr). by destruct q.
  - rewrite (represents_get cap b q i Hr). by destruct (q !! i).
  - split; [done|]. destruct Hr as [(Hc & _) (Hn & _) _ _ _].
    unfold buffer_count, buffer_is_empty, buffer_is_full. by rewrite Hc, Hn.
  - destruct Hr as [(Hc & Hpos & Hd) _ Ht _ _]. split; [|done]. unfold buffer_clear. rewrite Hc.
    by apply (represents_empty cap).
Qed.

(** The circular buffer is a bounded queue: from initialisation on, whatever calls
    are made, every call returns what the list model (oldest first, the oldest
    dropped by a push onto a full queue) returns. *)
Theorem circular_buffer_refines_queue zero size cap b (ops : list cb_op) :
  buffer_init true zero size cap = (WTC_OK, Some b) ->
  run cb_step b ops = run (queue_step cap) [] ops.
Proof.
  intros Hinit. assert (represents cap b []) as Hr.
  { unfold buffer_init in Hinit. destruct (_ || _) eqn:E; [done|]. cbn in Hinit. simplify_eq.
    apply orb_false_iff in E as [_ E]. apply Nat.eqb_neq in E.
    apply represents_empty; [lia|apply length_replicate]. }
  clear Hinit. revert b Hr. generalize (@nil A) as q. induction ops as [|op ops IH]; intros q b Hr; [done|].
  cbn. destruct (cb_step_refines cap b q op Hr) as [Hr' Hout].
  destruct (cb_step b op) as [b' out], (queue_step cap q op) as [q' out']. cbn in *. subst.
  f_equal. by apply IH.
Qed.
End Circular.

Lemma circular_buffer_refines_queue_witness :
  run cb_step (mk_circular_buffer [0; 0] 2 0 0 0)
    [CbPush 1; CbPush 2; CbPush 3; CbPop; CbCount; CbGet 0] =
  [OutNone; OutNone; OutNone; OutElem WTC_OK (Some 2); OutCount 1 false false; OutElem WTC_OK (Some 3)].
Proof. rewrite (circular_buffer_refines_queue 0 4 2); reflexivity. Defined.
End Circular.

(** ** Byte buffer *)

Module Bytes.

(** [byte_buffer_t] *)
Record byte_buffer := mk_byte_buffer {
  bb_data : list Z;
  bb_capacity : Z;
  bb_read_pos : Z;
  bb_write_pos : Z }.

(** [byte_buffer_init]; [junk] is what [malloc] returns. *)
Definition byte_buffer_init (alloc_ok : bool) (junk : list Z) (capacity : Z)
    : wtc_result * option byte_buffer :=
  if capacity =? 0 then (WTC_ERROR_INVALID_PARAM, None)
  else if negb alloc_ok then (WTC_ERROR_NO_MEMORY, None)
  else (WTC_OK, Some (mk_byte_buffer junk capacity 0 0)).

Definition byte_buffer_reset (b : byte_buffer) : byte_buffer :=
  mk_byte_buffer (bb_data b) (bb_capacity b) 0 0.

Definition byte_buffer_readable (b : byte_buffer) : Z := u64_sub (bb_write_pos b) (bb_read_pos b).
Definition byte_buffer_writable (b : byte_buffer) : Z := u64_sub (bb_capacity b) (bb_write_pos b).

(** [memcpy(data + pos, bytes, len)] *)
Definition splice (pos : nat) (bytes data : list Z) : list Z :=
  take pos data ++ bytes ++ drop (pos + length bytes) data.

Definition byte_buffer_write (b : byte_buffer) (bytes : list Z) : wtc_result * byte_buffer :=
  let len := Z.of_nat (length bytes) in
  if byte_buffer_writable b <? len then (WTC_ERROR_FULL, b)
  else (WTC_OK, mk_byte_buffer (splice (Z.to_nat (bb_write_pos b)) bytes (bb_data b))
                  (bb_capacity b) (bb_read_pos b) (wrap64 (bb_write_pos b + len))).

(** The bytes copied out; [[]] when the call fails. *)
Definition byte_buffer_peek (b : byte_buffer) (len : Z) : wtc_result * list Z :=
  if byte_buffer_readable b <? len then (WTC_ERROR_EMPTY, [])
  else (WTC_OK, take (Z.to_nat len) (drop (Z.to_nat (bb_read_pos b)) (bb_data b))).

Definition byte_buffer_skip (b : byte_buffer) (len : Z) : wtc_result * byte_buffer :=
  if byte_buffer_readable b <? len then (WTC_ERROR_EMPTY, b)
  else (WTC_OK, mk_byte_buffer (bb_data b) (bb_capacity b) (wrap64 (bb_read_pos b + len))
                  (bb_write_pos b)).

Definition byte_buffer_read (b : byte_buffer) (len : Z) : wtc_result * list Z * byte_buffer :=
  if byte_buffer_readable b <? len then (WTC_ERROR_EMPTY, [], b)
  else (WTC_OK, take (Z.to_nat len) (drop (Z.to_nat (bb_read_pos b)) (bb_data b)),
        mk_byte_buffer (bb_data b) (bb_capacity b) (wrap64 (bb_read_pos b + len)) (bb_write_pos b)).

Definition byte_buffer_advance_write (b : byte_buffer) (len : Z) : byte_buffer :=
  if wrap64 (bb_write_pos b + len) <=? bb_capacity b
  then mk_byte_buffer (bb_data b) (bb_capacity b) (bb_read_pos b) (wrap64 (bb_write_pos b + len))
  else b.

Definition byte_buffer_write_u8 (b : byte_buffer) (v : Z) := byte_buffer_write b [v].
Definition byte_buffer_write_u16 (b : byte_buffer) (v : Z) := byte_buffer_write b (be16 v).
Definition byte_buffer_write_u32 (b : byte_buffer) (v : Z) := byte_buffer_write b (be32 v).
Definition byte_buffer_write_float (b : byte_buffer) (x : float32) :=
  byte_buffer_write_u32 b (bits_of_f32 x).

(** The value read ([None] when the call fails) and the buffer afterwards. *)
Definition read_with {T} (len : Z) (decode : list Z -> T) (b : byte_buffer)
    : wtc_result * option T * byte_buffer :=
  match byte_buffer_read b len with
  | (WTC_OK, bytes, b') => (WTC_OK, Some (decode bytes), b')
  | (res, _, b') => (res, None, b')
  end.

Definition byte_buffer_read_u8 := read_with 1 (of_be 0).
Definition byte_buffer_read_u16 := read_with 2 (of_be 0).
Definition byte_buffer_read_u32 := read_with 4 (of_be 0).
Definition byte_buffer_read_float := read_with 4 (fun bytes => f32_of_bits (of_be 0 bytes)).

(** *** The byte queue it implements *)

Record bb_inv (b : byte_buffer) : Prop := {
  bi_cap : Z.of_nat (length (bb_data b)) = bb_capacity b /\ bb_capacity b < 2 ^ 63;
  bi_pos : 0 <= bb_read_pos b <= bb_write_pos b /\ bb_write_pos b <= bb_capacity b }.

(** The bytes written and not yet read. *)
Definition pending (b : byte_buffer) : list Z :=
  take (Z.to_nat (bb_write_pos b - bb_read_pos b)) (drop (Z.to_nat (bb_read_pos b)) (bb_data b)).

Lemma length_pending b :
  bb_inv b -> Z.of_nat (length (pending b)) = bb_write_pos b - bb_read_pos b.
Proof. intros [[Hc ?] ?]. unfold pending. rewrite length_take, length_drop. lia. Qed.

Lemma writable_eq b : bb_inv b -> byte_buffer_writable b = bb_capacity b - bb_write_pos b.
Proof. intros [[Hc ?] ?]. apply u64_sub_le; unfold is_u64; lia. Qed.

Lemma readable_eq b : bb_inv b -> byte_buffer_readable b = Z.of_nat (length (pending b)).
Proof.
  intros Hb. rewrite length_pending by done. destruct Hb as [[Hc ?] ?].
  apply u64_sub_le; unfold is_u64; lia.
Qed.

Lemma length_splice pos bytes data :
  (pos + length bytes <= length data)%nat -> length (splice pos bytes data) = length data.
Proof. intros H. unfold splice. rewrite !length_app, length_take, length_drop. lia. Qed.

Lemma pending_write b bytes :
  bb_inv b -> bb_write_pos b + Z.of_nat (length bytes) <= bb_capacity b ->
  bb_inv (snd (byte_buffer_write b bytes)) /\ fst (byte_buffer_write b bytes) = WTC_OK /\
  pending (snd (byte_buffer_write b bytes)) = pending b ++ bytes /\
  bb_capacity (snd (byte_buffer_write b bytes)) = bb_capacity b /\
  bb_write_pos (snd (byte_buffer_write b bytes)) = bb_write_pos b + Z.of_nat (length bytes).
Proof.
  intros Hb Hfit. unfold byte_buffer_write. rewrite writable_eq by done.
  destruct (Z.ltb_spec (bb_capacity b - bb_write_pos b) (Z.of_nat (length bytes))); [lia|].
  destruct Hb as [[Hc Hcap] [Hr Hw]]. cbn.
  assert (wrap64 (bb_write_pos b + Z.of_nat (length bytes)) = bb_write_pos b + Z.of_nat (length bytes))
    as Hwp by (apply wrap64_small; unfold is_u64; lia).
  rewrite Hwp. split_and!; try done.
  - split; cbn; [rewrite length_splice by lia; lia|lia].
  - unfold pending, splice. cbn. rewrite drop_app_le by (rewrite length_take; lia).
    rewrite take_app_ge by (rewrite length_drop, length_take; lia).
    rewrite length_drop, length_take. rewrite skipn_firstn_comm.
    f_equal; [f_equal; lia|]. rewrite take_app_le by lia. apply take_ge. lia.
Qed.

Lemma pending_read b len :
  bb_inv b -> 0 <= len <= Z.of_nat (length (pending b)) ->
  exists b', byte_buffer_read b len = (WTC_OK, take (Z.to_nat len) (pending b), b') /\
    bb_inv b' /\ pending b' = drop (Z.to_nat len) (pending b) /\
    bb_capacity b' = bb_capacity b /\ bb_write_pos b' = bb_write_pos b.
Proof.
  intros Hb Hlen. unfold byte_buffer_read. rewrite readable_eq by done.
  destruct (Z.ltb_spec (Z.of_nat (length (pending b))) len); [lia|].
  rewrite length_pending in * by done. pose proof Hb as [[Hc Hcap] [Hr Hw]].
  rewrite (wrap64_small (bb_read_pos b + len)) by (unfold is_u64; lia).
  assert (take (Z.to_nat len) (pending b)
          = take (Z.to_nat len) (drop (Z.to_nat (bb_read_pos b)) (bb_data b))) as ->.
  { unfold pending. rewrite take_take. f_equal. lia. }
  eexists. split_and!.
  - reflexivity.
  - split; cbn; lia.
  - unfold pending. cbn. rewrite skipn_firstn_comm, drop_drop. f_equal; [lia|]. f_equal. lia.
  - done.
  - done.
Qed.

(** *** Typed values *)

Inductive value := VU8 (v : Z) | VU16 (v : Z) | VU32 (v : Z) | VFloat (x : float32).

Definition value_ok (v : value) : Prop :=
  match v with
  | VU8 v => is_u8 v | VU16 v => is_u16 v | VU32 v => is_u32 v | VFloat x => valid32 x = true
  end.

Definition write_value (b : byte_buffer) (v : value) : wtc_result * byte_buffer :=
  match v with
  | VU8 v => byte_buffer_write_u8 b v
  | VU16 v => byte_buffer_write_u16 b v
  | VU32 v => byte_buffer_write_u32 b v
  | VFloat x => byte_buffer_write_float b x
  end.

(** Read a value of the type of [v]. *)
Definition read_like (v : value) (b : byte_buffer) : wtc_result * option value * byte_buffer :=
  match v with
  | VU8 _ => let '(r, x, b) := byte_buffer_read_u8 b in (r, VU8 <$> x, b)
  | VU16 _ => let '(r, x, b) := byte_buffer_read_u16 b in (r, VU16 <$> x, b)
  | VU32 _ => let '(r, x, b) := byte_buffer_read_u32 b in (r, VU32 <$> x, b)
  | VFloat _ => let '(r, x, b) := byte_buffer_read_float b in (r, VFloat <$> x, b)
  end.

Definition encode (v : value) : list Z :=
  match v with
  | VU8 v => [v] | VU16 v => be16 v | VU32 v => be32 v | VFloat x => be32 (bits_of_f32 x)
  end.

Lemma write_value_encode b v : write_value b v = byte_buffer_write b (encode v).
Proof. by destruct v. Qed.

Lemma read_like_pending b v rest :
  bb_inv b -> value_ok v -> pending b = encode v ++ rest ->
  exists b', read_like v b = (WTC_OK, Some v, b') /\ bb_inv b' /\ pending b' = rest.
Proof.
  intros Hb Hv Hp.
  assert (forall T (dec : list Z -> T), exists b',
    read_with (Z.of_nat (length (encode v))) dec b = (WTC_OK, Some (dec (encode v)), b') /\
    bb_inv b' /\ pending b' = rest) as Hread.
  { intros T dec. unfold read_with.
    destruct (pending_read b (Z.of_nat (length (encode v))) Hb) as (b' & -> & Hb' & Hp' & _).
    { rewrite Hp, length_app. lia. }
    exists b'. rewrite Nat2Z.id, Hp in *. rewrite take_app_length, drop_app_length in *. done. }
  destruct v; unfold read_like, byte_buffer_read_u8, byte_buffer_read_u16, byte_buffer_read_u32,
    byte_buffer_read_float; cbn [encode] in Hread.
  - destruct (Hread Z (of_be 0)) as (b' & Hr & H1 & H2). change (Z.of_nat _) with 1 in Hr.
    rewrite Hr. by exists b'.
  - destruct (Hread Z (of_be 0)) as (b' & Hr & H1 & H2). change (Z.of_nat _) with 2 in Hr.
    rewrite Hr, of_be16 by done. by exists b'.
  - destruct (Hread Z (of_be 0)) as (b' & Hr & H1 & H2). change (Z.of_nat _) with 4 in Hr.
    rewrite Hr, of_be32 by done. by exists b'.
  - destruct (Hread float32 (fun l => f32_of_bits (of_be 0 l))) as (b' & Hr & H1 & H2).
    change (Z.of_nat _) with 4 in Hr.
    rewrite Hr, of_be32, f32_bits_roundtrip by (done || by apply bits_of_f32_range).
    by exists b'.
Qed.

Fixpoint write_all (b : byte_buffer) (vs : list value) : list wtc_result * byte_buffer :=
  match vs with
  | [] => ([], b)
  | v :: vs => let '(r, b) := write_value b v in
               let '(rs, b) := write_all b vs in (r :: rs, b)
  end.

Fixpoint read_all (b : byte_buffer) (vs : list value) : list (wtc_result * option value) * byte_buffer :=
  match vs with
  | [] => ([], b)
  | v :: vs => let '(r, x, b) := read_like v b in
               let '(rs, b) := read_all b vs in ((r, x) :: rs, b)
  end.

Lemma write_all_pending b vs :
  bb_inv b -> bb_write_pos b + Z.of_nat (length (concat (encode <$> vs))) <= bb_capacity b ->
  let '(rs, b') := write_all b vs in
  Forall (fun r => r = WTC_OK) rs /\ bb_inv b' /\ pending b' = pending b ++ concat (encode <$> vs).
Proof.
  revert b. induction vs as [|v vs IH]; intros b Hb Hfit; cbn.
  { rewrite app_nil_r. split_and!; [constructor|done..]. }
  cbn in Hfit. rewrite length_app in Hfit. rewrite write_value_encode.
  destruct (pending_write b (encode v)) as (Hb' & Hr & Hp & Hc & Hw); [done|lia|].
  destruct (byte_buffer_write b (encode v)) as [r b']. cbn in *. subst r.
  specialize (IH b' Hb'). destruct (write_all b' vs) as [rs b2].
  destruct IH as (H1 & H2 & H3); [lia|]. split_and!; [by constructor|done|].
  by rewrite H3, Hp, app_assoc.
Qed.

Lemma read_all_pending b vs rest :
  bb_inv b -> Forall value_ok vs -> pending b = concat (encode <$> vs) ++ rest ->
  exists b', read_all b vs = ((fun v => (WTC_OK, Some v)) <$> vs, b') /\ bb_inv b' /\ pending b' = rest.
Proof.
  intros Hb Hvs. revert b Hb. induction Hvs as [|v vs Hv _ IH]; intros b Hb Hp; cbn in *; [eauto|].
  rewrite <- app_assoc in Hp. destruct (read_like_pending b v _ Hb Hv Hp) as (b1 & -> & Hb1 & Hp1).
  destruct (IH b1 Hb1 Hp1) as (b2 & -> & H2). eauto.
Qed.

(** Round trip: any list of 8-, 16- and 32-bit integers and floats that fits is
    written to a buffer with nothing pending without error, and read back, value
    by value, unchanged, with nothing left over. *)
Theorem byte_buffer_roundtrip b vs :
  bb_inv b -> pending b = [] -> Forall value_ok vs ->
  bb_write_pos b + Z.of_nat (length (concat (encode <$> vs))) <= bb_capacity b ->
  let '(rs, b1) := write_all b vs in
  Forall (fun r => r = WTC_OK) rs /\
  exists b2, read_all b1 vs = ((fun v => (WTC_OK, Some v)) <$> vs, b2) /\ pending b2 = [].
Proof.
  intros Hb Hp Hvs Hfit. pose proof (write_all_pending b vs Hb Hfit) as Hw.
  destruct (write_all b vs) as [rs b1]. destruct Hw as (H1 & H2 & H3). split; [done|].
  rewrite Hp in H3. cbn in H3.
  destruct (read_all_pending b1 vs [] H2 Hvs) as (b2 & -> & _ & H4); [by rewrite app_nil_r|eauto].
Qed.

Definition empty8 : byte_buffer := mk_byte_buffer (replicate 8 170) 8 0 0.
Definition sample : list value := [VU8 7; VU16 513; VFloat (f32_lit 5 2)].

Lemma byte_buffer_roundtrip_witness :
  fst (read_all (snd (write_all empty8 sample)) sample)
  = [(WTC_OK, Some (VU8 7)); (WTC_OK, Some (VU16 513)); (WTC_OK, Some (VFloat (f32_lit 5 2)))].
Proof.
  pose proof (byte_buffer_roundtrip empty8 sample) as H.
  destruct (write_all empty8 sample) as [rs b1]. cbn [snd].
  destruct H as (_ & b2 & -> & _); [split; cbn; lia|reflexivity| |vm_compute; discriminate|reflexivity].
  repeat (apply Forall_cons; split; [first [reflexivity|cbn; unfold is_u8, is_u16; lia]|]).
  apply Forall_nil. exact I.
Defined.

(** [byte_buffer_advance_write] checks the new position after the addition wrapped:
    a huge length moves the write position backwards, behind the read position,
    and the buffer then reports almost 2^64 readable bytes. *)
Theorem advance_write_wraps :
  let b := mk_byte_buffer (replicate 8 0) 8 4 4 in
  let b' := byte_buffer_advance_write b (2 ^ 64 - 2) in
  bb_write_pos b' = 2 /\ byte_buffer_readable b' = 2 ^ 64 - 2 /\
  fst (byte_buffer_peek b' (2 ^ 64 - 2)) = WTC_OK.
Proof. cbn zeta. split_and!; reflexivity. Qed.
End Bytes.
