(* ===== verification/Crc.v ===== *)
(** * CRC utilities

    Model of [src/utils/crc.c]: the table-driven CRC-16-CCITT and CRC-32, with the
    tables as the source has them, against the bit-by-bit definitions of the two
    polynomials.  The reflected case is generic in the polynomial: the Modbus CRC
    of Modbus.v uses the same lemmas. *)

From Stdlib Require Import Btauto.
From S2P Require Import Prelude.

Definition crc16_table : list Z := Eval cbv in
  [
    0x0000; 0x1021; 0x2042; 0x3063; 0x4084; 0x50a5; 0x60c6; 0x70e7;
    0x8108; 0x9129; 0xa14a; 0xb16b; 0xc18c; 0xd1ad; 0xe1ce; 0xf1ef;
    0x1231; 0x0210; 0x3273; 0x2252; 0x52b5; 0x4294; 0x72f7; 0x62d6;
    0x9339; 0x8318; 0xb37b; 0xa35a; 0xd3bd; 0xc39c; 0xf3ff; 0xe3de;
    0x2462; 0x3443; 0x0420; 0x1401; 0x64e6; 0x74c7; 0x44a4; 0x5485;
    0xa56a; 0xb54b; 0x8528; 0x9509; 0xe5ee; 0xf5cf; 0xc5ac; 0xd58d;
    0x3653; 0x2672; 0x1611; 0x0630; 0x76d7; 0x66f6; 0x5695; 0x46b4;
    0xb75b; 0xa77a; 0x9719; 0x8738; 0xf7df; 0xe7fe; 0xd79d; 0xc7bc;
    0x48c4; 0x58e5; 0x6886; 0x78a7; 0x0840; 0x1861; 0x2802; 0x3823;
    0xc9cc; 0xd9ed; 0xe98e; 0xf9af; 0x8948; 0x9969; 0xa90a; 0xb92b;
    0x5af5; 0x4ad4; 0x7ab7; 0x6a96; 0x1a71; 0x0a50; 0x3a33; 0x2a12;
    0xdbfd; 0xcbdc; 0xfbbf; 0xeb9e; 0x9b79; 0x8b58; 0xbb3b; 0xab1a;
    0x6ca6; 0x7c87; 0x4ce4; 0x5cc5; 0x2c22; 0x3c03; 0x0c60; 0x1c41;
    0xedae; 0xfd8f; 0xcdec; 0xddcd; 0xad2a; 0xbd0b; 0x8d68; 0x9d49;
    0x7e97; 0x6eb6; 0x5ed5; 0x4ef4; 0x3e13; 0x2e32; 0x1e51; 0x0e70;
    0xff9f; 0xefbe; 0xdfdd; 0xcffc; 0xbf1b; 0xaf3a; 0x9f59; 0x8f78;
    0x9188; 0x81a9; 0xb1ca; 0xa1eb; 0xd10c; 0xc12d; 0xf14e; 0xe16f;
    0x1080; 0x00a1; 0x30c2; 0x20e3; 0x5004; 0x4025; 0x7046; 0x6067;
    0x83b9; 0x9398; 0xa3fb; 0xb3da; 0xc33d; 0xd31c; 0xe37f; 0xf35e;
    0x02b1; 0x1290; 0x22f3; 0x32d2; 0x4235; 0x5214; 0x6277; 0x7256;
    0xb5ea; 0xa5cb; 0x95a8; 0x8589; 0xf56e; 0xe54f; 0xd52c; 0xc50d;
    0x34e2; 0x24c3; 0x14a0; 0x0481; 0x7466; 0x6447; 0x5424; 0x4405;
    0xa7db; 0xb7fa; 0x8799; 0x97b8; 0xe75f; 0xf77e; 0xc71d; 0xd73c;
    0x26d3; 0x36f2; 0x0691; 0x16b0; 0x6657; 0x7676; 0x4615; 0x5634;
    0xd94c; 0xc96d; 0xf90e; 0xe92f; 0x99c8; 0x89e9; 0xb98a; 0xa9ab;
    0x5844; 0x4865; 0x7806; 0x6827; 0x18c0; 0x08e1; 0x3882; 0x28a3;
    0xcb7d; 0xdb5c; 0xeb3f; 0xfb1e; 0x8bf9; 0x9bd8; 0xabbb; 0xbb9a;
    0x4a75; 0x5a54; 0x6a37; 0x7a16; 0x0af1; 0x1ad0; 0x2ab3; 0x3a92;
    0xfd2e; 0xed0f; 0xdd6c; 0xcd4d; 0xbdaa; 0xad8b; 0x9de8; 0x8dc9;
    0x7c26; 0x6c07; 0x5c64; 0x4c45; 0x3ca2; 0x2c83; 0x1ce0; 0x0cc1;
    0xef1f; 0xff3e; 0xcf5d; 0xdf7c; 0xaf9b; 0xbfba; 0x8fd9; 0x9ff8;
    0x6e17; 0x7e36; 0x4e55; 0x5e74; 0x2e93; 0x3eb2; 0x0ed1; 0x1ef0].

Definition crc32_table : list Z := Eval cbv in
  [
    0x00000000; 0x77073096; 0xee0e612c; 0x990951ba; 0x076dc419; 0x706af48f;
    0xe963a535; 0x9e6495a3; 0x0edb8832; 0x79dcb8a4; 0xe0d5e91e; 0x97d2d988;
    0x09b64c2b; 0x7eb17cbd; 0xe7b82d07; 0x90bf1d91; 0x1db71064; 0x6ab020f2;
    0xf3b97148; 0x84be41de; 0x1adad47d; 0x6ddde4eb; 0xf4d4b551; 0x83d385c7;
    0x136c9856; 0x646ba8c0; 0xfd62f97a; 0x8a65c9ec; 0x14015c4f; 0x63066cd9;
    0xfa0f3d63; 0x8d080df5; 0x3b6e20c8; 0x4c69105e; 0xd56041e4; 0xa2677172;
    0x3c03e4d1; 0x4b04d447; 0xd20d85fd; 0xa50ab56b; 0x35b5a8fa; 0x42b2986c;
    0xdbbbc9d6; 0xacbcf940; 0x32d86ce3; 0x45df5c75; 0xdcd60dcf; 0xabd13d59;
    0x26d930ac; 0x51de003a; 0xc8d75180; 0xbfd06116; 0x21b4f4b5; 0x56b3c423;
    0xcfba9599; 0xb8bda50f; 0x2802b89e; 0x5f058808; 0xc60cd9b2; 0xb10be924;
    0x2f6f7c87; 0x58684c11; 0xc1611dab; 0xb6662d3d; 0x76dc4190; 0x01db7106;
    0x98d220bc; 0xefd5102a; 0x71b18589; 0x06b6b51f; 0x9fbfe4a5; 0xe8b8d433;
    0x7807c9a2; 0x0f00f934; 0x9609a88e; 0xe10e9818; 0x7f6a0dbb; 0x086d3d2d;
    0x91646c97; 0xe6635c01; 0x6b6b51f4; 0x1c6c6162; 0x856530d8; 0xf262004e;
    0x6c0695ed; 0x1b01a57b; 0x8208f4c1; 0xf50fc457; 0x65b0d9c6; 0x12b7e950;
    0x8bbeb8ea; 0xfcb9887c; 0x62dd1ddf; 0x15da2d49; 0x8cd37cf3; 0xfbd44c65;
    0x4db26158; 0x3ab551ce; 0xa3bc0074; 0xd4bb30e2; 0x4adfa541; 0x3dd895d7;
    0xa4d1c46d; 0xd3d6f4fb; 0x4369e96a; 0x346ed9fc; 0xad678846; 0xda60b8d0;
    0x44042d73; 0x33031de5; 0xaa0a4c5f; 0xdd0d7cc9; 0x5005713c; 0x270241aa;
    0xbe0b1010; 0xc90c2086; 0x5768b525; 0x206f85b3; 0xb966d409; 0xce61e49f;
    0x5edef90e; 0x29d9c998; 0xb0d09822; 0xc7d7a8b4; 0x59b33d17; 0x2eb40d81;
    0xb7bd5c3b; 0xc0ba6cad; 0xedb88320; 0x9abfb3b6; 0x03b6e20c; 0x74b1d29a;
    0xead54739; 0x9dd277af; 0x04db2615; 0x73dc1683; 0xe3630b12; 0x94643b84;
    0x0d6d6a3e; 0x7a6a5aa8; 0xe40ecf0b; 0x9309ff9d; 0x0a00ae27; 0x7d079eb1;
    0xf00f9344; 0x8708a3d2; 0x1e01f268; 0x6906c2fe; 0xf762575d; 0x806567cb;
    0x196c3671; 0x6e6b06e7; 0xfed41b76; 0x89d32be0; 0x10da7a5a; 0x67dd4acc;
    0xf9b9df6f; 0x8ebeeff9; 0x17b7be43; 0x60b08ed5; 0xd6d6a3e8; 0xa1d1937e;
    0x38d8c2c4; 0x4fdff252; 0xd1bb67f1; 0xa6bc5767; 0x3fb506dd; 0x48b2364b;
    0xd80d2bda; 0xaf0a1b4c; 0x36034af6; 0x41047a60; 0xdf60efc3; 0xa867df55;
    0x316e8eef; 0x4669be79; 0xcb61b38c; 0xbc66831a; 0x256fd2a0; 0x5268e236;
    0xcc0c7795; 0xbb0b4703; 0x220216b9; 0x5505262f; 0xc5ba3bbe; 0xb2bd0b28;
    0x2bb45a92; 0x5cb36a04; 0xc2d7ffa7; 0xb5d0cf31; 0x2cd99e8b; 0x5bdeae1d;
    0x9b64c2b0; 0xec63f226; 0x756aa39c; 0x026d930a; 0x9c0906a9; 0xeb0e363f;
    0x72076785; 0x05005713; 0x95bf4a82; 0xe2b87a14; 0x7bb12bae; 0x0cb61b38;
    0x92d28e9b; 0xe5d5be0d; 0x7cdcefb7; 0x0bdbdf21; 0x86d3d2d4; 0xf1d4e242;
    0x68ddb3f8; 0x1fda836e; 0x81be16cd; 0xf6b9265b; 0x6fb077e1; 0x18b74777;
    0x88085ae6; 0xff0f6a70; 0x66063bca; 0x11010b5c; 0x8f659eff; 0xf862ae69;
    0x616bffd3; 0x166ccf45; 0xa00ae278; 0xd70dd2ee; 0x4e048354; 0x3903b3c2;
    0xa7672661; 0xd06016f7; 0x4969474d; 0x3e6e77db; 0xaed16a4a; 0xd9d65adc;
    0x40df0b66; 0x37d83bf0; 0xa9bcae53; 0xdebb9ec5; 0x47b2cf7f; 0x30b5ffe9;
    0xbdbdf21c; 0xcabac28a; 0x53b39330; 0x24b4a3a6; 0xbad03605; 0xcdd706b3;
    0x54de5729; 0x23d967bf; 0xb3667a2e; 0xc4614ab8; 0x5d681b02; 0x2a6f2b94;
    0xb40bbe37; 0xc30c8ea1; 0x5a05df1b; 0x2d02ef8d].

Definition table_get (t : list Z) (i : Z) : Z := nth (Z.to_nat i) t 0.

(** ** CRC-16-CCITT *)

(** [crc = (crc << 8) ^ crc16_table[((crc >> 8) ^ *data++) & 0xFF];] on [uint16_t] *)
Definition crc16_step (crc b : Z) : Z :=
  wrap16 (Z.lxor (Z.shiftl crc 8)
            (table_get crc16_table (Z.land (Z.lxor (Z.shiftr crc 8) b) 255))).

Definition crc16_ccitt_update (crc : Z) (data : list Z) : Z := foldl crc16_step crc data.
Definition crc16_ccitt (data : list Z) : Z := crc16_ccitt_update 65535 data.

(** ** CRC-32 *)

(** [crc = crc32_table[(crc ^ *data++) & 0xFF] ^ (crc >> 8);] *)
Definition crc32_step (crc b : Z) : Z :=
  Z.lxor (table_get crc32_table (Z.land (Z.lxor crc b) 255)) (Z.shiftr crc 8).

Definition crc32_update (crc : Z) (data : list Z) : Z := foldl crc32_step crc data.
Definition crc32 (data : list Z) : Z := Z.lxor (crc32_update 4294967295 data) 4294967295.

Definition crc32_verify_fcs (frame : list Z) : bool :=
  if (length frame <? 4)%nat then false
  else crc32_update 4294967295 frame =? 3736805603.

(** ** Bit lemmas *)

Ltac bits :=
  apply Z.bits_inj'; intros ?n ?Hn;
  repeat first [rewrite Z.lxor_spec | rewrite Z.land_spec | rewrite Z.bits_0
               | rewrite Z.shiftr_spec by lia]; try btauto.


Lemma lxor_range w x y : 0 <= w -> 0 <= x < 2 ^ w -> 0 <= y < 2 ^ w -> 0 <= Z.lxor x y < 2 ^ w.
Proof.
  intros Hw Hx Hy. apply range_bits; [done|]. apply (range_bits w x) in Hx as [Hx0 Hx]; [|done].
  apply (range_bits w y) in Hy as [Hy0 Hy]; [|done]. split; [apply Z.lxor_nonneg; lia|].
  intros n Hn. by rewrite Z.lxor_spec, Hx, Hy.
Qed.

Lemma shiftr_range w k x : 0 <= k -> 0 <= w -> 0 <= x < 2 ^ (w + k) -> 0 <= Z.shiftr x k < 2 ^ w.
Proof.
  intros Hk Hw Hx. rewrite Z.shiftr_div_pow2 by done. rewrite Z.pow_add_r in Hx by done.
  split; [apply Z.div_pos; lia|]. apply Z.div_lt_upper_bound; lia.
Qed.

Lemma land_255_range x : 0 <= Z.land x 255 < 256.
Proof. change 255 with (Z.ones 8). rewrite Z.land_ones by lia. by apply Z.mod_pos_bound. Qed.

Lemma land_255_small x : 0 <= x < 256 -> Z.land x 255 = x.
Proof. intros Hx. change 255 with (Z.ones 8). rewrite Z.land_ones by lia. by apply Z.mod_small. Qed.

(** A check of all 256 indices decides a statement about bytes. *)
Lemma bytes_forall (P : Z -> bool) :
  forallb (fun i => P (Z.of_nat i)) (seq 0 256) = true -> forall b, 0 <= b < 256 -> P b = true.
Proof.
  intros H b Hb. rewrite forallb_forall in H. rewrite <- (Z2Nat.id b) by lia. apply H.
  apply in_seq. lia.
Qed.

(** ** Reflected CRCs, bit by bit *)

Section Reflected.
Context (poly : Z).

(** One bit: shift right, xor the polynomial if a one fell out. *)
Definition refl_bit (x : Z) : Z :=
  Z.lxor (Z.shiftr x 1) (if Z.testbit x 0 then poly else 0).

Fixpoint refl_bits (n : nat) (x : Z) : Z :=
  match n with O => x | S n => refl_bit (refl_bits n x) end.

(** The reference: xor the byte in, then eight bits. *)
Definition refl_byte (crc b : Z) : Z := refl_bits 8 (Z.lxor crc b).
Definition refl_update (crc : Z) (data : list Z) : Z := foldl refl_byte crc data.

Lemma refl_bit_lxor x y : refl_bit (Z.lxor x y) = Z.lxor (refl_bit x) (refl_bit y).
Proof.
  unfold refl_bit. rewrite Z.shiftr_lxor, Z.lxor_spec.
  destruct (Z.testbit x 0), (Z.testbit y 0); cbn [xorb]; bits.
Qed.

Lemma refl_bits_lxor n x y : refl_bits n (Z.lxor x y) = Z.lxor (refl_bits n x) (refl_bits n y).
Proof.
  revert x y. induction n as [|n IH]; intros x y; [done|].
  cbn [refl_bits]. by rewrite IH, refl_bit_lxor.
Qed.

(** Zeros that fall out only shift. *)
Lemma refl_bits_zeros n x :
  (forall k, 0 <= k < Z.of_nat n -> Z.testbit x k = false) -> refl_bits n x = Z.shiftr x (Z.of_nat n).
Proof.
  revert x. induction n as [|n IH]; intros x Hx; [cbn; by rewrite Z.shiftr_0_r|].
  cbn [refl_bits]. rewrite IH by (intros; apply Hx; lia).
  unfold refl_bit. rewrite Z.shiftr_spec by lia. rewrite Z.add_0_l, Hx by lia.
  rewrite Z.lxor_0_r, Z.shiftr_shiftr by lia. f_equal. lia.
Qed.

(** A table that holds the eight-bit results computes the reference. *)
Lemma refl_table_step (t : list Z) crc b :
  0 <= crc -> 0 <= b < 256 ->
  (forall i, 0 <= i < 256 -> table_get t i = refl_bits 8 i) ->
  Z.lxor (table_get t (Z.land (Z.lxor crc b) 255)) (Z.shiftr crc 8) = refl_byte crc b.
Proof.
  intros Hc Hb Ht. rewrite Ht by apply land_255_range. unfold refl_byte.
  set (x := Z.lxor crc b). assert (Z.shiftr crc 8 = Z.shiftr x 8) as ->.
  { unfold x. rewrite Z.shiftr_lxor.
    rewrite (Z.shiftr_div_pow2 b), (Z.div_small b) by lia. by rewrite Z.lxor_0_r. }
  set (hi := Z.ldiff x 255).
  assert (x = Z.lxor hi (Z.land x 255)) as Hx.
  { unfold hi. apply Z.bits_inj'. intros n Hn.
    rewrite Z.lxor_spec, Z.ldiff_spec, Z.land_spec. btauto. }
  rewrite Hx at 3. rewrite refl_bits_lxor, Z.lxor_comm. f_equal.
  assert (forall k, 0 <= k -> Z.testbit hi k = if decide (k < 8) then false else Z.testbit x k) as Hbits.
  { intros k Hk. unfold hi. rewrite Z.ldiff_spec. change 255 with (Z.ones 8).
    rewrite Z.testbit_ones_nonneg by lia. destruct (decide (k < 8)), (Z.ltb_spec k 8); try lia;
      cbn; btauto. }
  rewrite refl_bits_zeros.
  - bits. rewrite Hbits by lia. by rewrite decide_False by lia.
  - intros k Hk. rewrite Hbits by lia. by rewrite decide_True by lia.
Qed.
End Reflected.

(** ** CRC-16-CCITT, bit by bit *)

Definition ccitt_bit (x : Z) : Z :=
  Z.lxor (Z.land (Z.shiftl x 1) 65535) (if Z.testbit x 15 then 4129 (* 0x1021 *) else 0).
Fixpoint ccitt_bits (n : nat) (x : Z) : Z :=
  match n with O => x | S n => ccitt_bit (ccitt_bits n x) end.
Definition ccitt_byte (crc b : Z) : Z := ccitt_bits 8 (Z.lxor crc (Z.shiftl b 8)).
Definition ccitt_update (crc : Z) (data : list Z) : Z := foldl ccitt_byte crc data.

Lemma ccitt_bits_lxor n x y : ccitt_bits n (Z.lxor x y) = Z.lxor (ccitt_bits n x) (ccitt_bits n y).
Proof.
  revert x y. induction n as [|n IH]; intros x y; [done|]. cbn [ccitt_bits]. rewrite IH.
  unfold ccitt_bit. rewrite Z.shiftl_lxor, Z.lxor_spec.
  destruct (Z.testbit (ccitt_bits n x) 15), (Z.testbit (ccitt_bits n y) 15); cbn [xorb]; bits.
Qed.

(** The low byte only moves up; the high byte goes through the table. *)
Lemma ccitt_bits_low b : 0 <= b < 256 -> ccitt_bits 8 b = Z.shiftl b 8.
Proof.
  intros Hb. apply Z.eqb_eq.
  by apply (bytes_forall (fun b => ccitt_bits 8 b =? Z.shiftl b 8)); [vm_compute|].
Qed.

Lemma crc16_table_correct i :
  0 <= i < 256 -> table_get crc16_table i = ccitt_bits 8 (Z.shiftl i 8) /\
  0 <= table_get crc16_table i < 65536.
Proof.
  intros Hi.
  pose proof (bytes_forall (fun i => (table_get crc16_table i =? ccitt_bits 8 (Z.shiftl i 8)) &&
    (0 <=? table_get crc16_table i) && (table_get crc16_table i <? 65536))
    ltac:(vm_compute; reflexivity) i Hi) as H. cbv beta in H. reflect. lia.
Qed.

Lemma crc16_step_correct crc b :
  is_u16 crc -> 0 <= b < 256 -> crc16_step crc b = ccitt_byte crc b /\ is_u16 (crc16_step crc b).
Proof.
  intros Hc Hb. split; [|apply wrap16_range]. unfold crc16_step, ccitt_byte.
  set (hi := Z.lxor (Z.shiftr crc 8) b).
  assert (0 <= hi < 256) as Hhi.
  { apply (lxor_range 8); [lia| |done]. apply (shiftr_range 8 8); [lia..|done]. }
  rewrite land_255_small by done. destruct (crc16_table_correct hi Hhi) as [Ht Hr].
  assert (Z.lxor crc (Z.shiftl b 8) = Z.lxor (Z.shiftl hi 8) (Z.land crc 255)) as ->.
  { apply Z.bits_inj'. intros n Hn. unfold hi. change 255 with (Z.ones 8).
    rewrite Z.shiftl_lxor, !Z.lxor_spec, Z.land_spec, Z.testbit_ones_nonneg by lia.
    destruct (Z.ltb_spec n 8).
    - rewrite !Z.shiftl_spec_low by lia. btauto.
    - rewrite !Z.shiftl_spec_high, Z.shiftr_spec by lia. rewrite Z.sub_add. btauto. }
  rewrite ccitt_bits_lxor, <- Ht, ccitt_bits_low by apply land_255_range.
  unfold wrap16. rewrite <- Z.land_ones by lia.
  apply (range_bits 16) in Hr as [_ Hr]; [|lia].
  apply (range_bits 16) in Hc as [_ Hc]; [|lia].
  apply Z.bits_inj'. intros n Hn. change 255 with (Z.ones 8).
  rewrite Z.land_spec, !Z.lxor_spec, Z.testbit_ones_nonneg by lia.
  destruct (Z.ltb_spec n 8).
  - rewrite !Z.shiftl_spec_low by lia. destruct (Z.ltb_spec n 16); [|lia]. btauto.
  - rewrite !Z.shiftl_spec_high, Z.land_spec, Z.testbit_ones_nonneg by lia.
    destruct (Z.ltb_spec n 16), (Z.ltb_spec (n - 8) 8); try lia; rewrite ?Hr by lia; btauto.
Qed.

Definition bytes_ok (data : list Z) : Prop := Forall (fun b => 0 <= b < 256) data.

(** The table-driven CRC-16-CCITT equals the bit-by-bit division by 0x1021, for
    every start value and every data. *)
Theorem crc16_ccitt_correct crc data :
  is_u16 crc -> bytes_ok data ->
  crc16_ccitt_update crc data = ccitt_update crc data /\ is_u16 (crc16_ccitt_update crc data).
Proof.
  intros Hc Hd. revert crc Hc. induction Hd as [|b data Hb _ IH]; intros crc Hc; [done|].
  destruct (crc16_step_correct crc b Hc Hb) as [Hs Hr].
  unfold crc16_ccitt_update, ccitt_update. cbn [foldl]. rewrite <- Hs. by apply IH.
Qed.

Lemma crc16_ccitt_correct_witness : (* "123456789" *)
  ccitt_update 65535 [49; 50; 51; 52; 53; 54; 55; 56; 57] = 10673 (* 0x29B1 *).
Proof.
  assert (bytes_ok [49; 50; 51; 52; 53; 54; 55; 56; 57]) as Hb by (repeat constructor; lia).
  destruct (crc16_ccitt_correct 65535 _ ltac:(unfold is_u16; lia) Hb) as [<- _].
  vm_compute. reflexivity.
Defined.

(** ** CRC-32 *)

Definition IEEE_POLY : Z := 3988292384. (* 0xEDB88320 *)

Lemma crc32_table_range i : 0 <= i < 256 -> 0 <= table_get crc32_table i < 2 ^ 32.
Proof.
  intros Hi. pose proof (bytes_forall (fun i => (0 <=? table_get crc32_table i) &&
    (table_get crc32_table i <? 2 ^ 32)) ltac:(vm_compute; reflexivity) i Hi) as H.
  cbv beta in H. reflect. lia.
Qed.

Lemma crc32_step_range crc b : is_u32 crc -> is_u32 (crc32_step crc b).
Proof.
  intros Hc. unfold crc32_step. apply (lxor_range 32); [lia|apply crc32_table_range, land_255_range|].
  pose proof (shiftr_range 24 8 crc ltac:(lia) ltac:(lia) Hc). lia.
Qed.

Lemma crc32_update_range crc data : is_u32 crc -> is_u32 (crc32_update crc data).
Proof.
  revert crc. induction data as [|b data IH]; intros crc Hc; [done|].
  cbn. apply IH. by apply crc32_step_range.
Qed.

(** [v] as the four bytes of the frame check sequence, least significant first. *)
Definition le32 (v : Z) : list Z :=
  [Z.land v 255; Z.land (Z.shiftr v 8) 255; Z.land (Z.shiftr v 16) 255; Z.land (Z.shiftr v 24) 255].

(** Feeding back byte [k] of the complemented register hits a fixed table entry. *)
Lemma crc32_step_fcs (s c : Z) (k : Z) :
  0 <= k <= 24 ->
  crc32_step (Z.lxor c (Z.shiftr s k)) (Z.land (Z.shiftr (Z.lxor s 4294967295) k) 255)
  = Z.lxor (Z.lxor (table_get crc32_table (Z.land (Z.lxor c 255) 255)) (Z.shiftr c 8))
      (Z.shiftr s (k + 8)).
Proof.
  intros Hk. unfold crc32_step.
  rewrite (Z.shiftr_lxor c), Z.shiftr_shiftr, (Z.lxor_assoc (table_get _ _)) by lia.
  f_equal. f_equal. apply Z.bits_inj'. intros n Hn. change 255 with (Z.ones 8).
  change 4294967295 with (Z.ones 32).
  rewrite !Z.land_spec, !Z.lxor_spec, !Z.land_spec, !Z.shiftr_spec, !Z.lxor_spec by lia.
  rewrite !Z.testbit_ones_nonneg by lia.
  destruct (Z.ltb_spec n 8), (Z.ltb_spec (n + k) 32); try lia; btauto.
Qed.

(** Every frame the controller protects verifies: appending the CRC-32 of the data,
    least significant byte first, makes [crc32_verify_fcs] accept. *)
Theorem crc32_fcs_roundtrip data :
  crc32_verify_fcs (data ++ le32 (crc32 data)) = true.
Proof.
  unfold crc32_verify_fcs. rewrite length_app. cbn [length le32].
  destruct (Nat.ltb_spec (length data + 4) 4); [lia|].
  unfold crc32_update. rewrite foldl_app. fold (crc32_update 4294967295 data).
  unfold crc32. pose proof (crc32_update_range 4294967295 data ltac:(unfold is_u32; lia)) as Hs.
  set (s := crc32_update 4294967295 data) in *. clearbody s.
  pose proof (crc32_step_fcs s 0 0 ltac:(lia)) as H0. rewrite Z.lxor_0_l, !Z.shiftr_0_r in H0.
  unfold le32. cbn [foldl]. rewrite H0.
  rewrite (crc32_step_fcs s _ 8), (crc32_step_fcs s _ 16), (crc32_step_fcs s _ 24) by lia.
  replace (Z.shiftr s (24 + 8)) with 0.
  - vm_compute. reflexivity.
  - symmetry. rewrite Z.shiftr_div_pow2 by lia. by apply Z.div_small.
Qed.

(** The CRC-32 table has one wrong entry: index 245 (0xF5) is 0xcdd706b3 instead of
    0xcdd70693; all others are the IEEE 802.3 values.  So the checksum of, for
    example, a line feed differs from the standard CRC-32, and the standard frame
    for it is rejected. *)
Theorem crc32_table_wrong_entry :
  (forall i, 0 <= i < 256 ->
     (table_get crc32_table i = refl_bits IEEE_POLY 8 i <-> i <> 245)) /\
  let standard := Z.lxor (refl_update IEEE_POLY 4294967295 [10]) 4294967295 in
  crc32 [10] <> standard /\ crc32_verify_fcs ([10] ++ le32 standard) = false.
Proof.
  split; [|vm_compute; by split].
  intros i Hi. pose proof (bytes_forall (fun i => Bool.eqb (table_get crc32_table i =? refl_bits IEEE_POLY 8 i)
    (negb (i =? 245))) ltac:(vm_compute; reflexivity) i Hi) as H. cbv beta in H.
  apply Bool.eqb_prop in H. rewrite <- Z.eqb_eq, H, negb_true_iff, Z.eqb_neq. done.
Qed.
