(* ===== verification/Modbus.v ===== *)
(** * Modbus: checksum, byte order and PDUs

    Model of [src/modbus/modbus_common.c]: the RTU CRC-16, the big-endian accessors,
    the request builders and the response parsers.  A PDU's data array has 252
    bytes; reads and writes are by index into it. *)

From Stdlib Require Import Btauto.
From S2P Require Import Prelude Float32 Crc.

Definition MODBUS_MAX_PDU_LEN : nat := 253.
Definition MODBUS_MAX_WRITE_REGISTERS : Z := 123.
Definition MODBUS_MAX_WRITE_BITS : Z := 1968.
Definition PDU_DATA : nat := 252.
Definition MODBUS_FC_WRITE_SINGLE_COIL : Z := 5.
Definition MODBUS_FC_WRITE_SINGLE_REGISTER : Z := 6.
Definition MODBUS_FC_WRITE_MULTIPLE_COILS : Z := 15.
Definition MODBUS_FC_WRITE_MULTIPLE_REGISTERS : Z := 16.

Definition modbus_crc16_table : list Z := Eval cbv in
  [
    0x0000; 0xc0c1; 0xc181; 0x0140; 0xc301; 0x03c0; 0x0280; 0xc241;
    0xc601; 0x06c0; 0x0780; 0xc741; 0x0500; 0xc5c1; 0xc481; 0x0440;
    0xcc01; 0x0cc0; 0x0d80; 0xcd41; 0x0f00; 0xcfc1; 0xce81; 0x0e40;
    0x0a00; 0xcac1; 0xcb81; 0x0b40; 0xc901; 0x09c0; 0x0880; 0xc841;
    0xd801; 0x18c0; 0x1980; 0xd941; 0x1b00; 0xdbc1; 0xda81; 0x1a40;
    0x1e00; 0xdec1; 0xdf81; 0x1f40; 0xdd01; 0x1dc0; 0x1c80; 0xdc41;
    0x1400; 0xd4c1; 0xd581; 0x1540; 0xd701; 0x17c0; 0x1680; 0xd641;
    0xd201; 0x12c0; 0x1380; 0xd341; 0x1100; 0xd1c1; 0xd081; 0x1040;
    0xf001; 0x30c0; 0x3180; 0xf141; 0x3300; 0xf3c1; 0xf281; 0x3240;
    0x3600; 0xf6c1; 0xf781; 0x3740; 0xf501; 0x35c0; 0x3480; 0xf441;
    0x3c00; 0xfcc1; 0xfd81; 0x3d40; 0xff01; 0x3fc0; 0x3e80; 0xfe41;
    0xfa01; 0x3ac0; 0x3b80; 0xfb41; 0x3900; 0xf9c1; 0xf881; 0x3840;
    0x2800; 0xe8c1; 0xe981; 0x2940; 0xeb01; 0x2bc0; 0x2a80; 0xea41;
    0xee01; 0x2ec0; 0x2f80; 0xef41; 0x2d00; 0xedc1; 0xec81; 0x2c40;
    0xe401; 0x24c0; 0x2580; 0xe541; 0x2700; 0xe7c1; 0xe681; 0x2640;
    0x2200; 0xe2c1; 0xe381; 0x2340; 0xe101; 0x21c0; 0x2080; 0xe041;
    0xa001; 0x60c0; 0x6180; 0xa141; 0x6300; 0xa3c1; 0xa281; 0x6240;
    0x6600; 0xa6c1; 0xa781; 0x6740; 0xa501; 0x65c0; 0x6480; 0xa441;
    0x6c00; 0xacc1; 0xad81; 0x6d40; 0xaf01; 0x6fc0; 0x6e80; 0xae41;
    0xaa01; 0x6ac0; 0x6b80; 0xab41; 0x6900; 0xa9c1; 0xa881; 0x6840;
    0x7800; 0xb8c1; 0xb981; 0x7940; 0xbb01; 0x7bc0; 0x7a80; 0xba41;
    0xbe01; 0x7ec0; 0x7f80; 0xbf41; 0x7d00; 0xbdc1; 0xbc81; 0x7c40;
    0xb401; 0x74c0; 0x7580; 0xb541; 0x7700; 0xb7c1; 0xb681; 0x7640;
    0x7200; 0xb2c1; 0xb381; 0x7340; 0xb101; 0x71c0; 0x7080; 0xb041;
    0x5000; 0x90c1; 0x9181; 0x5140; 0x9301; 0x53c0; 0x5280; 0x9241;
    0x9601; 0x56c0; 0x5780; 0x9741; 0x5500; 0x95c1; 0x9481; 0x5440;
    0x9c01; 0x5cc0; 0x5d80; 0x9d41; 0x5f00; 0x9fc1; 0x9e81; 0x5e40;
    0x5a00; 0x9ac1; 0x9b81; 0x5b40; 0x9901; 0x59c0; 0x5880; 0x9841;
    0x8801; 0x48c0; 0x4980; 0x8941; 0x4b00; 0x8bc1; 0x8a81; 0x4a40;
    0x4e00; 0x8ec1; 0x8f81; 0x4f40; 0x8d01; 0x4dc0; 0x4c80; 0x8c41;
    0x4400; 0x84c1; 0x8581; 0x4540; 0x8701; 0x47c0; 0x4680; 0x8641;
    0x8201; 0x42c0; 0x4380; 0x8341; 0x4100; 0x81c1; 0x8081; 0x4040].

(** [idx = (crc ^ data[i]) & 0xFF; crc = (crc >> 8) ^ crc16_table[idx];] *)
Definition modbus_crc16_step (crc b : Z) : Z :=
  Z.lxor (Z.shiftr crc 8) (table_get modbus_crc16_table (Z.land (Z.lxor crc b) 255)).

Definition modbus_crc16 (data : list Z) : Z := foldl modbus_crc16_step 65535 data.

(** ** Byte order *)

Definition byte_at (l : list Z) (i : nat) : Z := nth i l 0.

(** The accessors work on the bytes from offset [o] of [l]. *)
Definition modbus_get_uint16_be (l : list Z) (o : nat) : Z :=
  wrap16 (Z.lor (Z.shiftl (byte_at l o) 8) (byte_at l (o + 1))).

Definition modbus_set_uint16_be (l : list Z) (o : nat) (value : Z) : list Z :=
  <[(o + 1)%nat := Z.land value 255]> (<[o := Z.land (Z.shiftr value 8) 255]> l).

Definition modbus_get_uint32_be (l : list Z) (o : nat) : Z :=
  Z.lor (Z.lor (Z.lor (wrap32 (Z.shiftl (byte_at l o) 24)) (wrap32 (Z.shiftl (byte_at l (o + 1)) 16)))
           (wrap32 (Z.shiftl (byte_at l (o + 2)) 8))) (byte_at l (o + 3)).

Definition modbus_set_uint32_be (l : list Z) (o : nat) (value : Z) : list Z :=
  <[(o + 3)%nat := Z.land value 255]> (<[(o + 2)%nat := Z.land (Z.shiftr value 8) 255]>
    (<[(o + 1)%nat := Z.land (Z.shiftr value 16) 255]> (<[o := Z.land (Z.shiftr value 24) 255]> l))).

Definition modbus_get_float32_be (l : list Z) (o : nat) : float32 :=
  f32_of_bits (modbus_get_uint32_be l o).
Definition modbus_set_float32_be (l : list Z) (o : nat) (value : float32) : list Z :=
  modbus_set_uint32_be l o (bits_of_f32 value).

(** ** PDUs *)

(** [modbus_pdu_t] *)
Record modbus_pdu := mk_modbus_pdu {
  pdu_function_code : Z;
  pdu_data : list Z;
  pdu_data_len : Z }.

(** A builder's result code and the PDU (its previous content [p] on rejection). *)
Definition modbus_build_read_request (p : modbus_pdu) (fc start_addr quantity : Z) : Z * modbus_pdu :=
  (0, mk_modbus_pdu fc
        (modbus_set_uint16_be (modbus_set_uint16_be (pdu_data p) 0 start_addr) 2 quantity) 4).

Definition modbus_build_write_single_register (p : modbus_pdu) (addr value : Z) : Z * modbus_pdu :=
  (0, mk_modbus_pdu MODBUS_FC_WRITE_SINGLE_REGISTER
        (modbus_set_uint16_be (modbus_set_uint16_be (pdu_data p) 0 addr) 2 value) 4).

(** [values] is the caller's array. *)
Definition modbus_build_write_multiple_registers (p : modbus_pdu) (start_addr quantity : Z)
    (values : list Z) : Z * modbus_pdu :=
  if MODBUS_MAX_WRITE_REGISTERS <? quantity then (-1, p)
  else
    let d := modbus_set_uint16_be (modbus_set_uint16_be (pdu_data p) 0 start_addr) 2 quantity in
    let d := <[4%nat := wrap8 (quantity * 2)]> d in
    let d := foldl (fun d i => modbus_set_uint16_be d (5 + i * 2) (nth i values 0)) d
               (seq 0 (Z.to_nat quantity)) in
    (0, mk_modbus_pdu MODBUS_FC_WRITE_MULTIPLE_REGISTERS d (wrap16 (5 + quantity * 2))).

Definition modbus_build_write_single_coil (p : modbus_pdu) (addr : Z) (value : bool) : Z * modbus_pdu :=
  (0, mk_modbus_pdu MODBUS_FC_WRITE_SINGLE_COIL
        (modbus_set_uint16_be (modbus_set_uint16_be (pdu_data p) 0 addr) 2
           (if value then 65280 else 0)) 4).

Definition modbus_build_write_multiple_coils (p : modbus_pdu) (start_addr quantity : Z)
    (values : list Z) : Z * modbus_pdu :=
  if MODBUS_MAX_WRITE_BITS <? quantity then (-1, p)
  else
    let byte_count := wrap8 ((quantity + 7) / 8) in
    let d := modbus_set_uint16_be (modbus_set_uint16_be (pdu_data p) 0 start_addr) 2 quantity in
    let d := <[4%nat := byte_count]> d in
    let n := Z.to_nat byte_count in
    let d := take 5 d ++ take n values ++ drop (5 + n) d in
    (0, mk_modbus_pdu MODBUS_FC_WRITE_MULTIPLE_COILS d (wrap16 (5 + byte_count))).

Definition modbus_is_exception (p : modbus_pdu) : bool :=
  negb (Z.land (pdu_function_code p) 128 =? 0).

(** The exception code byte; 0 is [MODBUS_EX_NONE]. *)
Definition modbus_get_exception (p : modbus_pdu) : Z :=
  if modbus_is_exception p then byte_at (pdu_data p) 0 else 0.

(** The bytes copied out, or [None] for the error return. *)
Definition modbus_parse_read_response (p : modbus_pdu) : option (list Z) :=
  if modbus_is_exception p then None
  else
    let byte_count := byte_at (pdu_data p) 0 in
    if pdu_data_len p - 1 <? byte_count then None
    else Some (take (Z.to_nat byte_count) (drop 1 (pdu_data p))).

Definition modbus_parse_write_response (p : modbus_pdu) : option (Z * Z) :=
  if modbus_is_exception p then None
  else Some (modbus_get_uint16_be (pdu_data p) 0, modbus_get_uint16_be (pdu_data p) 2).

(** ** Lemmas *)

Lemma byte_at_insert_eq l i v : (i < length l)%nat -> byte_at (<[i := v]> l) i = v.
Proof. intros Hi. unfold byte_at. rewrite nth_lookup, list_lookup_insert_eq; done. Qed.
Lemma byte_at_insert_ne l i j v : i <> j -> byte_at (<[i := v]> l) j = byte_at l j.
Proof. intros Hne. unfold byte_at. by rewrite !nth_lookup, list_lookup_insert_ne. Qed.

(** Read back a byte through a chain of writes. *)
Ltac bytes :=
  repeat first [rewrite byte_at_insert_eq by (rewrite ?length_insert; lia)
               | rewrite byte_at_insert_ne by lia].

Lemma length_set16 l o v : length (modbus_set_uint16_be l o v) = length l.
Proof. unfold modbus_set_uint16_be. by rewrite !length_insert. Qed.

Lemma byte_at_set16 l o v i :
  (i < o \/ o + 1 < i)%nat -> byte_at (modbus_set_uint16_be l o v) i = byte_at l i.
Proof. intros Hi. unfold modbus_set_uint16_be. by bytes. Qed.

Lemma get16_set16 l o v :
  (o + 1 < length l)%nat -> is_u16 v -> modbus_get_uint16_be (modbus_set_uint16_be l o v) o = v.
Proof.
  intros Ho Hv. unfold modbus_get_uint16_be, modbus_set_uint16_be. bytes.
  apply (range_bits 16) in Hv as [H0 Hv]; [|lia]. unfold wrap16. rewrite <- Z.land_ones by lia.
  apply Z.bits_inj'. intros n Hn. change 255 with (Z.ones 8).
  rewrite Z.land_spec, Z.lor_spec, Z.land_spec, !Z.testbit_ones_nonneg by lia.
  destruct (Z.ltb_spec n 8).
  - rewrite Z.shiftl_spec_low by lia. destruct (Z.ltb_spec n 16); [|lia]. btauto.
  - rewrite Z.shiftl_spec_high, Z.land_spec, Z.shiftr_spec, Z.testbit_ones_nonneg by lia.
    rewrite Z.sub_add. destruct (Z.ltb_spec n 16), (Z.ltb_spec (n - 8) 8); try lia; [btauto|].
    rewrite Hv by lia. btauto.
Qed.

Lemma get16_set16_ne l o v i :
  (i + 1 < o \/ o + 1 < i)%nat ->
  modbus_get_uint16_be (modbus_set_uint16_be l o v) i = modbus_get_uint16_be l i.
Proof. intros Hi. unfold modbus_get_uint16_be. by rewrite !byte_at_set16 by lia. Qed.

Lemma get16_insert_ne l k v i :
  (i + 1 < k \/ k < i)%nat -> modbus_get_uint16_be (<[k := v]> l) i = modbus_get_uint16_be l i.
Proof. intros Hi. unfold modbus_get_uint16_be. by bytes. Qed.

Lemma get32_set32 l o v :
  (o + 3 < length l)%nat -> is_u32 v -> modbus_get_uint32_be (modbus_set_uint32_be l o v) o = v.
Proof.
  intros Ho Hv. unfold modbus_get_uint32_be, modbus_set_uint32_be. bytes. by apply lor_bytes32.
Qed.

(** ** Theorems *)

(** The table-driven Modbus CRC-16 equals the bit-by-bit CRC with the reflected
    polynomial 0xA001 from 0xFFFF. *)
Theorem modbus_crc16_correct data :
  bytes_ok data -> modbus_crc16 data = refl_update 40961 (* 0xA001 *) 65535 data.
Proof.
  intros Hd. unfold modbus_crc16, refl_update.
  assert (forall i, 0 <= i < 256 -> table_get modbus_crc16_table i = refl_bits 40961 8 i) as Ht.
  { intros i Hi. apply Z.eqb_eq. by apply (bytes_forall
      (fun i => table_get modbus_crc16_table i =? refl_bits 40961 8 i)); [vm_compute|]. }
  assert (forall i, 0 <= i < 256 -> 0 <= table_get modbus_crc16_table i) as Hpos.
  { intros i Hi. apply Z.leb_le. by apply (bytes_forall
      (fun i => 0 <=? table_get modbus_crc16_table i)); [vm_compute|]. }
  assert (0 <= 65535) as Hc by lia. revert Hc. generalize 65535 as crc.
  induction Hd as [|b data Hb _ IH]; intros crc Hc; [done|]. cbn [foldl].
  assert (modbus_crc16_step crc b = refl_byte 40961 crc b) as <-.
  { unfold modbus_crc16_step. rewrite Z.lxor_comm. by apply refl_table_step. }
  apply IH. unfold modbus_crc16_step. apply Z.lxor_nonneg. rewrite Z.shiftr_nonneg.
  pose proof (Hpos _ (land_255_range (Z.lxor crc b))). lia.
Qed.

(** Byte order round trip: what is stored big-endian at an offset is read back, for
    16-bit, 32-bit and float values. *)
Theorem modbus_be_roundtrip l o :
  (o + 3 < length l)%nat ->
  (forall v, is_u16 v -> modbus_get_uint16_be (modbus_set_uint16_be l o v) o = v) /\
  (forall v, is_u32 v -> modbus_get_uint32_be (modbus_set_uint32_be l o v) o = v) /\
  (forall x, valid32 x = true -> modbus_get_float32_be (modbus_set_float32_be l o x) o = x).
Proof.
  intros Ho. split_and!; intros v Hv.
  - apply get16_set16; [lia|done].
  - by apply get32_set32.
  - unfold modbus_get_float32_be, modbus_set_float32_be.
    rewrite get32_set32; [by apply f32_bits_roundtrip|done|by apply bits_of_f32_range].
Qed.

Definition store_registers (values : list Z) (d : list Z) (n : nat) : list Z :=
  foldl (fun d i => modbus_set_uint16_be d (5 + i * 2) (nth i values 0)) d (seq 0 n).

Lemma store_registers_spec values d n :
  (5 + n * 2 <= length d)%nat -> Forall is_u16 values ->
  let d' := store_registers values d n in
  length d' = length d /\
  (forall i, (i < n)%nat -> modbus_get_uint16_be d' (5 + i * 2) = nth i values 0) /\
  (forall k, (k < 5 \/ 5 + n * 2 <= k)%nat -> byte_at d' k = byte_at d k).
Proof.
  intros Hlen Hv. unfold store_registers. induction n as [|n IH]; [split_and!; done || lia|].
  rewrite seq_S, foldl_snoc. destruct IH as (H1 & H2 & H3); [lia|].
  set (d1 := foldl _ d (seq 0 n)) in *. rewrite Nat.add_0_l. cbn zeta. split_and!.
  - by rewrite length_set16.
  - intros i Hi. destruct (decide (i = n)) as [->|Hne].
    + apply get16_set16; [lia|]. apply (Forall_nth_default is_u16); [done|unfold is_u16; lia].
    + rewrite get16_set16_ne by lia. apply H2. lia.
  - intros k Hk. rewrite byte_at_set16 by lia. apply H3. lia.
Qed.

(** Writing multiple registers: up to 123 values the PDU fits its 252-byte array,
    and the start address, the quantity, the byte count and every register value
    are read back from it; more than 123 are refused and the PDU is untouched. *)
Theorem write_multiple_registers_encodes p start_addr quantity values :
  length (pdu_data p) = PDU_DATA -> is_u16 start_addr -> is_u16 quantity -> Forall is_u16 values ->
  let '(rc, p') := modbus_build_write_multiple_registers p start_addr quantity values in
  if MODBUS_MAX_WRITE_REGISTERS <? quantity then rc = -1 /\ p' = p
  else
    rc = 0 /\ length (pdu_data p') = PDU_DATA /\
    pdu_data_len p' = 5 + 2 * quantity /\ pdu_data_len p' <= Z.of_nat PDU_DATA /\
    modbus_get_uint16_be (pdu_data p') 0 = start_addr /\
    modbus_get_uint16_be (pdu_data p') 2 = quantity /\
    byte_at (pdu_data p') 4 = 2 * quantity /\
    forall i, Z.of_nat i < quantity ->
      modbus_get_uint16_be (pdu_data p') (5 + i * 2) = nth i values 0.
Proof.
  intros Hlen Ha Hq Hv. unfold modbus_build_write_multiple_registers.
  destruct (Z.ltb_spec MODBUS_MAX_WRITE_REGISTERS quantity) as [|Hle]; [done|].
  unfold MODBUS_MAX_WRITE_REGISTERS, PDU_DATA, is_u16 in *. cbn [pdu_data pdu_data_len].
  set (d0 := modbus_set_uint16_be (modbus_set_uint16_be (pdu_data p) 0 start_addr) 2 quantity).
  set (d1 := <[4%nat := wrap8 (quantity * 2)]> d0).
  assert (length d1 = 252%nat) as Hl1 by (unfold d1, d0; by rewrite length_insert, !length_set16).
  fold (store_registers values d1 (Z.to_nat quantity)).
  destruct (store_registers_spec values d1 (Z.to_nat quantity)) as (H1 & H2 & H3); [lia|done|].
  set (d2 := store_registers values d1 (Z.to_nat quantity)) in *. clearbody d2.
  unfold wrap16. rewrite Z.mod_small by lia.
  assert (forall o, (o + 1 < 5)%nat -> modbus_get_uint16_be d2 o = modbus_get_uint16_be d1 o) as Hget.
  { intros o Ho. unfold modbus_get_uint16_be. by rewrite !H3 by lia. }
  split_and!; try lia; try done.
  - rewrite Hget by lia. unfold d1, d0. rewrite get16_insert_ne, get16_set16_ne by lia.
    apply get16_set16; [lia|done].
  - rewrite Hget by lia. unfold d1, d0. rewrite get16_insert_ne by lia.
    apply get16_set16; [rewrite length_set16; lia|done].
  - rewrite H3 by lia. unfold d1. rewrite byte_at_insert_eq by (unfold d0; rewrite !length_set16; lia).
    unfold wrap8. rewrite Z.mod_small; lia.
  - intros i Hi. apply H2. lia.
Qed.

(** A read response is never copied from beyond what was received: the parser
    succeeds exactly when the PDU is no exception and its byte count fits the data
    received, and then returns that many of its bytes. *)
Theorem parse_read_response_bounded p :
  length (pdu_data p) = PDU_DATA -> pdu_data_len p <= Z.of_nat PDU_DATA -> bytes_ok (pdu_data p) ->
  match modbus_parse_read_response p with
  | Some bytes =>
      modbus_is_exception p = false /\ Z.of_nat (length bytes) = byte_at (pdu_data p) 0 /\
      Z.of_nat (length bytes) + 1 <= pdu_data_len p /\
      forall i, (i < length bytes)%nat -> bytes !! i = pdu_data p !! S i
  | None => modbus_is_exception p = true \/ pdu_data_len p <= byte_at (pdu_data p) 0
  end.
Proof.
  intros Hlen Hdl Hb. unfold modbus_parse_read_response. unfold PDU_DATA in *.
  destruct (modbus_is_exception p); [by left|].
  assert (0 <= byte_at (pdu_data p) 0 < 256) as Hb0.
  { unfold byte_at. apply (Forall_nth_default (fun b => 0 <= b < 256)); [done|lia]. }
  destruct (Z.ltb_spec (pdu_data_len p - 1) (byte_at (pdu_data p) 0)); [right; lia|].
  assert (length (take (Z.to_nat (byte_at (pdu_data p) 0)) (drop 1 (pdu_data p)))
          = Z.to_nat (byte_at (pdu_data p) 0)) as Hl by (rewrite length_take, length_drop; lia).
  rewrite Hl. split_and!; [done|lia|lia|]. intros i Hi.
  rewrite lookup_take_lt, lookup_drop by lia. done.
Qed.

Module ModbusDemo.
Definition blank : modbus_pdu := mk_modbus_pdu 0 (replicate 252 0) 0.

Lemma modbus_crc16_correct_witness : (* "123456789" *)
  refl_update 40961 65535 [49; 50; 51; 52; 53; 54; 55; 56; 57] = 19255 (* 0x4B37 *).
Proof.
  rewrite <- modbus_crc16_correct; [vm_compute; reflexivity|]. repeat constructor; lia.
Defined.

Lemma modbus_be_roundtrip_witness :
  modbus_get_float32_be (modbus_set_float32_be [0; 0; 0; 0; 0] 1 (f32_lit 5 2)) 1 = f32_lit 5 2.
Proof. apply (modbus_be_roundtrip [0; 0; 0; 0; 0] 1); [cbn; lia|reflexivity]. Defined.

Lemma write_multiple_registers_encodes_witness :
  let p := snd (modbus_build_write_multiple_registers blank 40001 3 [7; 258; 65535]) in
  modbus_get_uint16_be (pdu_data p) 7 = 258.
Proof.
  pose proof (write_multiple_registers_encodes blank 40001 3 [7; 258; 65535]) as H.
  destruct (modbus_build_write_multiple_registers blank 40001 3 [7; 258; 65535]) as [rc p].
  destruct H as (_ & _ & _ & _ & _ & _ & _ & H); [reflexivity|unfold is_u16; lia..| |].
  - repeat (apply Forall_cons; split; [unfold is_u16; lia|]). by apply Forall_nil.
  - exact (H 1%nat ltac:(lia)).
Defined.

Lemma parse_read_response_bounded_witness :
  exists bytes, modbus_parse_read_response (mk_modbus_pdu 3 (2 :: 1 :: 44 :: replicate 249 0) 3) = Some bytes
    /\ Z.of_nat (length bytes) = 2.
Proof.
  pose proof (parse_read_response_bounded (mk_modbus_pdu 3 (2 :: 1 :: 44 :: replicate 249 0) 3)
    ltac:(reflexivity) ltac:(vm_compute; discriminate)) as H.
  eexists. split; [vm_compute; reflexivity|]. apply H.
  repeat (apply Forall_cons; split; [lia|]). by apply Forall_nil.
Defined.
End ModbusDemo.
