(* ===== verification/Compression.v ===== *)
(** * Historian compression

    Model of [src/historian/compression.c]: deadband, boxcar and swinging-door
    compression of sample streams, and interpolation back to regular times.
    Samples are stored by the caller when [compression_should_store] says so. *)

From S2P Require Import Prelude Float32.

Inductive compression :=
| COMPRESSION_NONE | COMPRESSION_SWINGING_DOOR | COMPRESSION_BOXCAR | COMPRESSION_DEADBAND.

(** [historian_sample_t] *)
Record historian_sample := mk_historian_sample {
  hs_timestamp_ms : Z;
  hs_tag_id : Z;
  hs_value : float32;
  hs_quality : Z }.

(** [compression_state_t] *)
Record compression_state := mk_compression_state {
  cs_algorithm : compression;
  cs_deadband : float32;
  cs_last_stored_value : float32;
  cs_last_stored_time : Z;
  cs_slope_max : float32;
  cs_slope_min : float32;
  cs_first_sample : bool;
  cs_samples_in : Z;
  cs_samples_out : Z }.

#[export] Instance eta_compression_state : Eta compression_state := fun r =>
  mk_compression_state (cs_algorithm r) (cs_deadband r) (cs_last_stored_value r)
    (cs_last_stored_time r) (cs_slope_max r) (cs_slope_min r) (cs_first_sample r)
    (cs_samples_in r) (cs_samples_out r).

Definition compression_init (algorithm : compression) (deadband : float32) : compression_state :=
  mk_compression_state algorithm deadband f0 0 f0 f0 true 0 0.

Definition compression_reset (s : compression_state) : compression_state :=
  compression_init (cs_algorithm s) (cs_deadband s).

(** The counters, [uint64_t]. *)
Definition count_in (s : compression_state) : compression_state :=
  s <| cs_samples_in ::= fun n => wrap64 (n + 1) |>.
Definition count_out (s : compression_state) : compression_state :=
  s <| cs_samples_out ::= fun n => wrap64 (n + 1) |>.

(** Remember a stored sample. *)
Definition remember (value : float32) (t : Z) (s : compression_state) : compression_state :=
  s <| cs_last_stored_value := value |> <| cs_last_stored_time := t |>.

(** The first sample is stored by every algorithm. *)
Definition store_first (value : float32) (t : Z) (s : compression_state) : compression_state * bool :=
  (count_out (count_in ((remember value t s) <| cs_first_sample := false |>)), true).

Definition swinging_door_check (s : compression_state) (value : float32) (t : Z)
    : compression_state * bool :=
  if cs_first_sample s then store_first value t s
  else
    let dt := f32_of_Z (u64_sub t (cs_last_stored_time s)) in
    if fle dt f0 then (count_in s, false)
    else
      let slope_upper := fdiv (fsub (fadd value (cs_deadband s)) (cs_last_stored_value s)) dt in
      let slope_lower := fdiv (fsub (fsub value (cs_deadband s)) (cs_last_stored_value s)) dt in
      if feq (cs_slope_max s) f0 && feq (cs_slope_min s) f0 then
        (count_in (s <| cs_slope_max := slope_upper |> <| cs_slope_min := slope_lower |>), false)
      else
        let s := if flt slope_upper (cs_slope_max s) then s <| cs_slope_max := slope_upper |> else s in
        let s := if fgt slope_lower (cs_slope_min s) then s <| cs_slope_min := slope_lower |> else s in
        if fge (cs_slope_max s) (cs_slope_min s) then (count_in s, false)
        else (count_out (count_in ((remember value t s) <| cs_slope_max := f0 |>
                                     <| cs_slope_min := f0 |>)), true).

(** [fabsf(value - last_stored_value) > deadband] *)
Definition outside_deadband (s : compression_state) (value : float32) : bool :=
  fgt (fabsf (fsub value (cs_last_stored_value s))) (cs_deadband s).

Definition deadband_check (s : compression_state) (value : float32) (t : Z)
    : compression_state * bool :=
  if cs_first_sample s then store_first value t s
  else
    let s := count_in s in
    if outside_deadband s value then (count_out (remember value t s), true) else (s, false).

Definition boxcar_check (s : compression_state) (value : float32) (t : Z)
    : compression_state * bool :=
  if cs_first_sample s then store_first value t s
  else
    let s := count_in s in
    let value_changed := outside_deadband s value in
    let time_exceeded := 60000 <=? u64_sub t (cs_last_stored_time s) in
    if value_changed || time_exceeded then (count_out (remember value t s), true) else (s, false).

Definition compression_should_store (s : compression_state) (value : float32) (t : Z)
    : compression_state * bool :=
  match cs_algorithm s with
  | COMPRESSION_NONE => (count_out (count_in s), true)
  | COMPRESSION_SWINGING_DOOR => swinging_door_check s value t
  | COMPRESSION_DEADBAND => deadband_check s value t
  | COMPRESSION_BOXCAR => boxcar_check s value t
  end.

Definition compression_force_store (s : compression_state) (value : float32) (t : Z)
    : compression_state :=
  count_out (count_in ((remember value t s) <| cs_slope_max := f0 |> <| cs_slope_min := f0 |>
                        <| cs_first_sample := false |>)).

Definition compression_get_ratio (s : compression_state) : float32 :=
  if cs_samples_in s =? 0 then f1
  else fdiv (f32_of_Z (cs_samples_out s)) (f32_of_Z (cs_samples_in s)).

(** The loop of [compression_compress_samples]: the samples stored. *)
Fixpoint compress_loop (s : compression_state) (input : list historian_sample)
    : list historian_sample :=
  match input with
  | [] => []
  | x :: input =>
      let '(s', stored) := compression_should_store s (hs_value x) (hs_timestamp_ms x) in
      if stored then x :: compress_loop s' input else compress_loop s' input
  end.

(** [compression_compress_samples] ([None]: an error return) *)
Definition compression_compress_samples (alloc_ok : bool) (input : list historian_sample)
    (algorithm : compression) (deadband : float32) : wtc_result * option (list historian_sample) :=
  match input with
  | [] => (WTC_ERROR_INVALID_PARAM, None)
  | _ => if negb alloc_ok then (WTC_ERROR_NO_MEMORY, None)
         else (WTC_OK, Some (compress_loop (compression_init algorithm deadband) input))
  end.

(** ** [compression_interpolate_samples] *)

(** [while (idx < n - 1 && input[idx + 1].timestamp_ms <= t) idx++;] with at most
    [fuel] iterations; [length input] is enough, as [idx] stays below it
    ([advance_idx_spec]). *)
Fixpoint advance_idx (fuel : nat) (input : list historian_sample) (t : Z) (idx : nat) : nat :=
  match fuel with
  | O => idx
  | S fuel =>
      match input !! S idx with
      | Some x => if hs_timestamp_ms x <=? t then advance_idx fuel input t (S idx) else idx
      | None => idx
      end
  end.

(** One output sample at time [t] with [idx] advanced. *)
Definition interpolate_at (input : list historian_sample) (first : historian_sample) (t : Z)
    (idx : nat) : historian_sample :=
  match input !! idx, input !! S idx with
  | Some s1, Some s2 =>
      if hs_timestamp_ms s1 =? t then
        mk_historian_sample t (hs_tag_id first) (hs_value s1) (hs_quality s1)
      else
        let dt := f32_of_Z (u64_sub (hs_timestamp_ms s2) (hs_timestamp_ms s1)) in
        let t_offset := f32_of_Z (u64_sub t (hs_timestamp_ms s1)) in
        let v := if fgt dt f0
                 then fadd (hs_value s1) (fmul (fdiv t_offset dt) (fsub (hs_value s2) (hs_value s1)))
                 else hs_value s1 in
        mk_historian_sample t (hs_tag_id first) v (Z.min (hs_quality s1) (hs_quality s2))
  | _, _ =>
      let l := default first (last input) in
      mk_historian_sample t (hs_tag_id first) (hs_value l) (hs_quality l)
  end.

(** The outer loop, at most [n] outputs ([*output_count < count]). *)
Fixpoint interpolate_loop (n : nat) (input : list historian_sample) (first : historian_sample)
    (t end_time interval_ms : Z) (idx : nat) : list historian_sample :=
  match n with
  | O => []
  | S n =>
      if t <=? end_time then
        let idx := advance_idx (length input) input t idx in
        interpolate_at input first t idx
          :: interpolate_loop n input first (wrap64 (t + interval_ms)) end_time interval_ms idx
      else []
  end.

(** [(int)x] of a 64-bit value *)
Definition to_int (x : Z) : Z :=
  let y := wrap32 x in if y <? 2 ^ 31 then y else y - 2 ^ 32.

(** [compression_interpolate_samples]: a negative [count] is an unsatisfiable
    request to [calloc], which then returns NULL. *)
Definition compression_interpolate_samples (alloc_ok : bool) (input : list historian_sample)
    (start_time end_time interval_ms : Z) : wtc_result * option (list historian_sample) :=
  match input with
  | [] => (WTC_ERROR_INVALID_PARAM, None)
  | first :: _ =>
      if interval_ms =? 0 then (WTC_ERROR_INVALID_PARAM, None)
      else
        let count := to_int (u64_sub end_time start_time / interval_ms) + 1 in
        if negb alloc_ok || (count <? 0) then (WTC_ERROR_NO_MEMORY, None)
        else
          (WTC_OK, Some (interpolate_loop (Z.to_nat count) input first start_time end_time interval_ms 0))
  end.

(** ** What deadband compression keeps *)

(** Whether each sample of a stream is stored. *)
Fixpoint decisions (s : compression_state) (input : list historian_sample) : list bool :=
  match input with
  | [] => []
  | x :: input =>
      let '(s', stored) := compression_should_store s (hs_value x) (hs_timestamp_ms x) in
      stored :: decisions s' input
  end.

(** The kept samples are those decided for, in order. *)
Lemma compress_loop_decisions s input :
  compress_loop s input = fst <$> filter (fun p => snd p = true) (zip input (decisions s input)).
Proof.
  revert s. induction input as [|x input IH]; intros s; [done|].
  cbn [compress_loop decisions].
  destruct (compression_should_store s (hs_value x) (hs_timestamp_ms x)) as [s' stored].
  cbn [zip_with]. destruct stored.
  - by rewrite filter_cons_True, fmap_cons, IH.
  - by rewrite filter_cons_False, IH.
Qed.

Definition holds_value (algorithm : compression) : Prop :=
  algorithm = COMPRESSION_DEADBAND \/ algorithm = COMPRESSION_BOXCAR.

(** Sample [x] may be left out while [ref] is the last one kept. *)
Definition covered_by (algorithm : compression) (deadband : float32) (ref x : historian_sample) : Prop :=
  fgt (fabsf (fsub (hs_value x) (hs_value ref))) deadband = false /\
  (algorithm = COMPRESSION_BOXCAR -> u64_sub (hs_timestamp_ms x) (hs_timestamp_ms ref) < 60000).

(** The state remembers the last sample kept. *)
Definition remembers (s : compression_state) (ref : historian_sample) : Prop :=
  cs_first_sample s = false /\ cs_last_stored_value s = hs_value ref /\
  cs_last_stored_time s = hs_timestamp_ms ref.

Lemma should_store_covered s ref x :
  holds_value (cs_algorithm s) -> remembers s ref ->
  let '(s', stored) := compression_should_store s (hs_value x) (hs_timestamp_ms x) in
  cs_algorithm s' = cs_algorithm s /\ cs_deadband s' = cs_deadband s /\
  if stored then remembers s' x
  else remembers s' ref /\ covered_by (cs_algorithm s) (cs_deadband s) ref x.
Proof.
  intros Halg (Hf & Hv & Ht). unfold compression_should_store, remembers, covered_by.
  destruct Halg as [Halg|Halg]; rewrite Halg.
  - unfold deadband_check. rewrite Hf. unfold outside_deadband. cbn. rewrite Hv.
    destruct (fgt _ _) eqn:E; cbn; split_and!; done || congruence.
  - unfold boxcar_check. rewrite Hf. unfold outside_deadband. cbn. rewrite Hv, Ht.
    destruct (fgt _ _) eqn:E; cbn; [split_and!; done || congruence|].
    destruct (Z.leb_spec 60000 (u64_sub (hs_timestamp_ms x) (hs_timestamp_ms ref))); cbn;
      split_and!; done || congruence || (intros; lia).
Qed.

(** Sample [k] is kept, or the last sample kept before it covers it. *)
Definition represented (algorithm : compression) (deadband : float32)
    (input : list historian_sample) (d : list bool) (k : nat) : Prop :=
  exists j ref x, (j <= k)%nat /\ input !! j = Some ref /\ input !! k = Some x /\
    d !! j = Some true /\ (forall i, (j < i <= k)%nat -> d !! i = Some false) /\
    (j = k \/ covered_by algorithm deadband ref x).

Lemma decisions_represented s ref input :
  holds_value (cs_algorithm s) -> remembers s ref ->
  forall k, (k < length input)%nat ->
  represented (cs_algorithm s) (cs_deadband s) (ref :: input) (true :: decisions s input) (S k).
Proof.
  revert s ref. induction input as [|x input IH]; intros s ref Halg Href k Hk; cbn in Hk; [lia|].
  pose proof (should_store_covered s ref x Halg Href) as Hstep. cbn [decisions].
  destruct (compression_should_store s (hs_value x) (hs_timestamp_ms x)) as [s' stored].
  destruct Hstep as (Ha & Hd & Hstep). rewrite <- Ha, <- Hd. rewrite <- Ha in Halg.
  destruct stored.
  - destruct k as [|k].
    + exists 1%nat, x, x. split_and!; try done; try lia; try (intros; lia); by left.
    + destruct (IH s' x Halg Hstep k ltac:(lia)) as (j & r & y & Hj & Hr & Hy & Hdj & Hno & Hc).
      exists (S j), r, y. split_and!; try done; [lia| |].
      * intros [|i] Hi; [lia|]. apply Hno. lia.
      * destruct Hc as [->|Hc]; auto.
  - destruct Hstep as [Href' Hcov]. destruct k as [|k].
    + exists 0%nat, ref, x. split_and!; try done; [lia| |right; by rewrite Ha, Hd].
      intros [|[|i]] Hi; try lia. done.
    + destruct (IH s' ref Halg Href' k ltac:(lia)) as (j & r & y & Hj & Hr & Hy & Hdj & Hno & Hc).
      destruct j as [|j].
      * exists 0%nat, r, y. split_and!; try done; [lia| |].
        -- intros [|[|i]] Hi; [lia|done|]. apply (Hno (S i)). lia.
        -- destruct Hc as [Hc|Hc]; [lia|by right].
      * exists (S (S j)), r, y. split_and!; try done; [lia| |].
        -- intros [|[|i]] Hi; [lia..|]. apply (Hno (S i)). lia.
        -- destruct Hc as [Hc|Hc]; [left; lia|by right].
Qed.

Lemma first_sample_stored algorithm deadband x :
  holds_value algorithm ->
  let '(s', stored) := compression_should_store (compression_init algorithm deadband)
                         (hs_value x) (hs_timestamp_ms x) in
  stored = true /\ cs_algorithm s' = algorithm /\ cs_deadband s' = deadband /\ remembers s' x.
Proof. by intros [->| ->]. Qed.

(** Deadband and boxcar compression keep the first sample of a stream, and every
    sample is kept or stays within the deadband of the last one kept (and, for
    boxcar, within a minute of it). *)
Theorem deadband_compression_faithful algorithm deadband input :
  holds_value algorithm -> input <> [] ->
  exists kept, compression_compress_samples true input algorithm deadband = (WTC_OK, Some kept) /\
  let d := decisions (compression_init algorithm deadband) input in
  kept = fst <$> filter (fun p => snd p = true) (zip input d) /\
  forall k, (k < length input)%nat -> represented algorithm deadband input d k.
Proof.
  intros Halg Hne. destruct input as [|x input]; [done|].
  eexists. split; [reflexivity|]. split; [apply compress_loop_decisions|].
  pose proof (first_sample_stored algorithm deadband x Halg) as Hf. cbn [decisions].
  destruct (compression_should_store _ _ _) as [s' stored].
  destruct Hf as (-> & <- & <- & Hrem). intros [|k] Hk.
  - exists 0%nat, x, x. split_and!; try done; try lia; try (intros; lia); by left.
  - apply decisions_represented; [done|done|]. cbn in Hk. lia.
Qed.

(** ** What interpolation reproduces *)

(** Timestamps in increasing order. *)
Definition ordered (input : list historian_sample) : Prop :=
  forall i j a b, (i < j)%nat -> input !! i = Some a -> input !! j = Some b ->
  hs_timestamp_ms a < hs_timestamp_ms b.

Lemma advance_idx_spec fuel input t idx :
  (idx < length input)%nat -> (length input <= idx + fuel)%nat ->
  let r := advance_idx fuel input t idx in
  (idx <= r < length input)%nat /\
  (forall i x, (idx < i <= r)%nat -> input !! i = Some x -> hs_timestamp_ms x <= t) /\
  (forall x, input !! S r = Some x -> t < hs_timestamp_ms x).
Proof.
  revert idx. induction fuel as [|fuel IH]; intros idx Hi Hf; cbn; [lia|].
  destruct (input !! S idx) as [x|] eqn:E.
  - destruct (Z.leb_spec (hs_timestamp_ms x) t) as [Hle|Hgt].
    + pose proof (lookup_lt_Some _ _ _ E).
      destruct (IH (S idx) ltac:(lia) ltac:(lia)) as (H1 & H2 & H3).
      split_and!; [lia|lia| |done].
      intros i y Hir Hy. destruct (decide (i = S idx)) as [->|]; [congruence|].
      apply (H2 i); [lia|done].
    + split_and!; [lia|lia|intros; lia|intros y Hy; congruence].
  - split_and!; [lia|lia|intros; lia|congruence].
Qed.

(** Output [y] shows sample [x]. *)
Definition shows (y x : historian_sample) : Prop :=
  hs_value y = hs_value x /\ hs_quality y = hs_quality x.

Lemma interpolate_at_time input first t idx : hs_timestamp_ms (interpolate_at input first t idx) = t.
Proof.
  unfold interpolate_at. destruct (input !! idx), (input !! S idx); try done.
  by case_match.
Qed.

(** At the time of an input sample the output is that sample. *)
Lemma interpolate_at_exact input first t idx k x :
  ordered input -> (idx < length input)%nat ->
  (forall i y, (0 < i <= idx)%nat -> input !! i = Some y -> hs_timestamp_ms y <= t) ->
  (forall y, input !! S idx = Some y -> t < hs_timestamp_ms y) ->
  input !! k = Some x -> hs_timestamp_ms x = t ->
  shows (interpolate_at input first t idx) x.
Proof.
  intros Hord Hidx Hbelow Hnext Hk Ht.
  assert (idx = k) as ->.
  { destruct (lt_eq_lt_dec idx k) as [[Hlt|]|Hgt]; [|done|].
    - destruct (lookup_lt_is_Some_2 input (S idx)) as [y Hy].
      { apply lookup_lt_Some in Hk. lia. }
      pose proof (Hnext y Hy). destruct (decide (S idx = k)) as [<-|]; [simplify_eq; lia|].
      pose proof (Hord (S idx) k y x ltac:(lia) Hy Hk). lia.
    - destruct (lookup_lt_is_Some_2 input idx Hidx) as [y Hy].
      pose proof (Hord k idx x y Hgt Hk Hy). pose proof (Hbelow idx y ltac:(lia) Hy). lia. }
  unfold interpolate_at, shows. rewrite Hk. destruct (input !! S k) as [y|] eqn:E.
  - by rewrite Ht, Z.eqb_refl.
  - rewrite last_lookup.
    assert (pred (length input) = k) as ->; [|by rewrite Hk].
    apply lookup_ge_None_1 in E. apply lookup_lt_Some in Hk. lia.
Qed.

Lemma interpolate_loop_spec n input first t end_time iv idx :
  ordered input -> (idx < length input)%nat -> 0 < iv -> 0 <= t ->
  end_time + iv < 2 ^ 64 -> t + (Z.of_nat n - 1) * iv <= end_time ->
  (forall i y, (0 < i <= idx)%nat -> input !! i = Some y -> hs_timestamp_ms y <= t) ->
  let out := interpolate_loop n input first t end_time iv idx in
  length out = n /\
  forall i y, out !! i = Some y -> hs_timestamp_ms y = t + Z.of_nat i * iv /\
    forall x, x ∈ input -> hs_timestamp_ms x = hs_timestamp_ms y -> shows y x.
Proof.
  intros Hord. revert t idx. induction n as [|n IH]; intros t idx Hidx Hiv Ht Hend Hn Hbelow;
    cbn -[Z.of_nat]; [done|].
  assert (t <= end_time) as Hte by nia. rewrite (proj2 (Z.leb_le _ _) Hte).
  destruct (advance_idx_spec (length input) input t idx Hidx ltac:(lia)) as (Hr & Hle & Hgt).
  set (r := advance_idx (length input) input t idx) in *.
  assert (forall i y, (0 < i <= r)%nat -> input !! i = Some y -> hs_timestamp_ms y <= t) as Hbelow'.
  { intros i y Hi Hy. destruct (decide (i <= idx)%nat); [eapply Hbelow|eapply Hle]; eauto; lia. }
  destruct (decide (n = O)) as [->|Hn0].
  { cbn. split; [done|]. intros [|i] y Hy; cbn in Hy; simplify_eq.
    rewrite interpolate_at_time. split; [lia|]. intros x [k Hk]%list_elem_of_lookup_1 Hx.
    eapply interpolate_at_exact; eauto; lia. }
  assert (wrap64 (t + iv) = t + iv) as Hw by (apply Z.mod_small; nia). rewrite Hw.
  destruct (IH (t + iv) r) as [Hlen Hout]; [lia|lia|lia|lia|lia| |].
  { intros i y Hi Hy. pose proof (Hbelow' i y Hi Hy). lia. }
  split; [cbn; by rewrite Hlen|].
  intros [|i] y Hy; cbn in Hy; simplify_eq.
  - rewrite interpolate_at_time. split; [lia|]. intros x [k Hk]%list_elem_of_lookup_1 Hx.
    eapply interpolate_at_exact; eauto; lia.
  - destruct (Hout i y Hy) as [Hy1 Hy2]. split; [lia|done].
Qed.

(** Interpolating an ordered stream gives one sample per interval from the start to
    the end, and the sample itself wherever an output falls on its timestamp. *)
Theorem interpolation_reproduces_samples input start_time end_time interval_ms :
  ordered input -> input <> [] -> 0 < interval_ms ->
  0 <= start_time <= end_time -> end_time + interval_ms < 2 ^ 64 ->
  (end_time - start_time) / interval_ms < 2 ^ 31 - 1 ->
  exists out, compression_interpolate_samples true input start_time end_time interval_ms
              = (WTC_OK, Some out) /\
  Z.of_nat (length out) = (end_time - start_time) / interval_ms + 1 /\
  forall i y, out !! i = Some y -> hs_timestamp_ms y = start_time + Z.of_nat i * interval_ms /\
    forall x, x ∈ input -> hs_timestamp_ms x = hs_timestamp_ms y -> shows y x.
Proof.
  intros Hord Hne Hiv Hse Hend Hcount. destruct input as [|first input]; [done|].
  unfold compression_interpolate_samples. rewrite (proj2 (Z.eqb_neq _ _)) by lia.
  unfold u64_sub, wrap64. rewrite (Z.mod_small (end_time - start_time)) by lia.
  pose proof (Z.div_pos (end_time - start_time) interval_ms ltac:(lia) ltac:(lia)) as Hpos.
  set (q := (end_time - start_time) / interval_ms) in *.
  assert (to_int q = q) as ->.
  { unfold to_int, wrap32. rewrite Z.mod_small by lia. by rewrite (proj2 (Z.ltb_lt _ _)) by lia. }
  rewrite (proj2 (Z.ltb_ge _ _)) by lia. cbn [negb orb].
  eexists. split; [reflexivity|].
  assert (q * interval_ms <= end_time - start_time).
  { rewrite Z.mul_comm. apply Z.mul_div_le. lia. }
  destruct (interpolate_loop_spec (Z.to_nat (q + 1)) (first :: input) first start_time end_time
              interval_ms 0) as [Hl Ho]; cbn; try done; try lia.
  split; [rewrite Hl; lia|done].
Qed.

(** ** Concrete streams *)

Module CompressionDemo.

(** One sample per second. *)
Definition stream (values : list Z) : list historian_sample :=
  imap (fun i v => mk_historian_sample (1000 * Z.of_nat i) 7 (f32_of_Z v) 192) values.

Definition compressed (algorithm : compression) (deadband : Z) (values : list Z)
    : list historian_sample :=
  default [] (snd (compression_compress_samples true (stream values) algorithm (f32_of_Z deadband))).

Definition reconstructed (kept : list historian_sample) (start_time end_time interval_ms : Z)
    : list historian_sample :=
  default [] (snd (compression_interpolate_samples true kept start_time end_time interval_ms)).

(** A step after a flat stretch: with a deadband of 1 the value kept is the one after
    the step and not the one before it, so the stretch is reconstructed as a ramp
    (7.5 where the value was 0); and the end of a stream is not kept at all. *)
Theorem swinging_door_exceeds_deadband :
  (hs_timestamp_ms <$> compressed COMPRESSION_SWINGING_DOOR 1 [0; 0; 0; 0; 10]) = [0; 4000] /\
  (hs_value <$> reconstructed (compressed COMPRESSION_SWINGING_DOOR 1 [0; 0; 0; 0; 10]) 3000 3000 1000)
    = [f32_lit 15 2] /\
  (hs_timestamp_ms <$> compressed COMPRESSION_SWINGING_DOOR 1 [0; 10; 20; 30]) = [0].
Proof. vm_compute. auto. Qed.

(** Before the first sample the offset wraps around: at 500 ms, with samples 20 and 21
    at 1 s and 2 s, the output is around 10^16. *)
Theorem interpolation_before_start_wraps :
  fge (default f0 (hs_value <$> reconstructed
         [mk_historian_sample 1000 7 (f32_of_Z 20) 192; mk_historian_sample 2000 7 (f32_of_Z 21) 192]
         500 500 1000 !! 0%nat)) (f32_of_Z (10 ^ 16)) = true.
Proof. vm_compute. reflexivity. Qed.

Lemma stream_ordered values : ordered (stream values).
Proof.
  intros i j a b Hij Ha Hb. unfold stream in *.
  rewrite list_lookup_imap in Ha, Hb.
  destruct (values !! i), (values !! j); cbn in *; simplify_eq; cbn; lia.
Qed.

Lemma deadband_compression_faithful_witness :
  exists kept, compression_compress_samples true (stream [20; 21; 22; 25]) COMPRESSION_DEADBAND f1
               = (WTC_OK, Some kept) /\
  (hs_timestamp_ms <$> kept) = [0; 2000; 3000] /\
  represented COMPRESSION_DEADBAND f1 (stream [20; 21; 22; 25])
    (decisions (compression_init COMPRESSION_DEADBAND f1) (stream [20; 21; 22; 25])) 1.
Proof.
  destruct (deadband_compression_faithful COMPRESSION_DEADBAND f1 (stream [20; 21; 22; 25]))
    as (kept & H1 & H2 & H3); [by left|done|].
  exists kept. split; [exact H1|]. split; [|apply H3; cbn; lia].
  rewrite H2. vm_compute. reflexivity.
Defined.

Lemma interpolation_reproduces_samples_witness :
  exists out, compression_interpolate_samples true (stream [20; 21; 25]) 0 2000 500
              = (WTC_OK, Some out) /\ length out = 5%nat.
Proof.
  destruct (interpolation_reproduces_samples (stream [20; 21; 25]) 0 2000 500)
    as (out & H1 & H2 & _); [apply stream_ordered|done|lia|lia|lia|by vm_compute|].
  exists out. split; [exact H1|].
  assert (Z.of_nat (length out) = 5) by (rewrite H2; reflexivity). lia.
Defined.
End CompressionDemo.
