(* ===== verification/Failover.v ===== *)
(** * Failover between RTUs

    Model of [src/coordination/failover.c]: the health table, the primary/backup
    mappings and the periodic [failover_process].  The manager is polled with the
    registry of [Registry.v]; its callback is recorded in [fm_trace]. *)

From S2P Require Import Prelude Float32 Types Registry.

Inductive failover_mode := FAILOVER_MODE_MANUAL | FAILOVER_MODE_AUTO | FAILOVER_MODE_HOT_STANDBY.

#[export] Instance failover_mode_eq_dec : EqDecision failover_mode.
Proof. solve_decision. Defined.

Definition MAX_MONITORED_RTUS : nat := 256.

(** [failover_config_t] *)
Record failover_config := mk_failover_config {
  fc_mode : failover_mode;
  fc_heartbeat_interval_ms : Z;
  fc_timeout_ms : Z;
  fc_max_retries : Z }.

(** [rtu_health_t] *)
Record rtu_health := mk_rtu_health {
  rh_station_name : string;
  rh_healthy : bool;
  rh_last_heartbeat_ms : Z;
  rh_consecutive_failures : Z;
  rh_packet_loss : float32;
  rh_in_failover : bool;
  rh_backup_station : string }.

(** [failover_status_t] *)
Record failover_status := mk_failover_status {
  fs_healthy_count : Z;
  fs_failed_count : Z;
  fs_in_failover_count : Z;
  fs_last_failover_ms : Z;
  fs_last_failed_station : string }.

(** [backup_mapping_t] *)
Record backup_mapping := mk_backup_mapping {
  bm_primary : string;
  bm_backup : string;
  bm_active : bool }.

(** [struct failover_manager]; [fm_trace] lists the callback invocations. *)
Record failover_manager := mk_failover_manager {
  fm_config : failover_config;
  fm_running : bool;
  fm_registry : bool;
  fm_health : list rtu_health;
  fm_backups : list backup_mapping;
  fm_status : failover_status;
  fm_callback : bool;
  fm_last_process_ms : Z;
  fm_trace : list (string * string * bool) }.

#[export] Instance eta_rtu_health : Eta rtu_health := fun r =>
  mk_rtu_health (rh_station_name r) (rh_healthy r) (rh_last_heartbeat_ms r)
    (rh_consecutive_failures r) (rh_packet_loss r) (rh_in_failover r) (rh_backup_station r).
#[export] Instance eta_failover_status : Eta failover_status := fun r =>
  mk_failover_status (fs_healthy_count r) (fs_failed_count r) (fs_in_failover_count r)
    (fs_last_failover_ms r) (fs_last_failed_station r).
#[export] Instance eta_backup_mapping : Eta backup_mapping := fun r =>
  mk_backup_mapping (bm_primary r) (bm_backup r) (bm_active r).
#[export] Instance eta_failover_manager : Eta failover_manager := fun r =>
  mk_failover_manager (fm_config r) (fm_running r) (fm_registry r) (fm_health r) (fm_backups r)
    (fm_status r) (fm_callback r) (fm_last_process_ms r) (fm_trace r).

Definition failover_init (alloc_ok : bool) (config : failover_config)
    : wtc_result * option failover_manager :=
  if alloc_ok then
    (WTC_OK, Some (mk_failover_manager config false false [] [] (mk_failover_status 0 0 0 0 "")
                     false 0 []))
  else (WTC_ERROR_NO_MEMORY, None).

Definition failover_start (now : Z) (fm : failover_manager) : wtc_result * failover_manager :=
  (WTC_OK, fm <| fm_running := true |> <| fm_last_process_ms := now |>).

Definition failover_stop (fm : failover_manager) : wtc_result * failover_manager :=
  (WTC_OK, fm <| fm_running := false |>).

Definition failover_set_registry (fm : failover_manager) (registry : bool)
    : wtc_result * failover_manager :=
  (WTC_OK, fm <| fm_registry := registry |>).

Definition failover_set_callback (fm : failover_manager) (callback : bool)
    : wtc_result * failover_manager :=
  (WTC_OK, fm <| fm_callback := callback |>).

Definition has_station (n : string) (h : rtu_health) : Prop := rh_station_name h = n.
#[export] Instance has_station_dec n h : Decision (has_station n h).
Proof. unfold has_station. apply _. Defined.

Definition has_primary (n : string) (m : backup_mapping) : Prop := bm_primary m = n.
#[export] Instance has_primary_dec n m : Decision (has_primary n m).
Proof. unfold has_primary. apply _. Defined.

(** A new entry of the health table; names are cut to the array. *)
Definition fresh_health (now : Z) (station_name : string) : rtu_health :=
  mk_rtu_health (strncpy (WTC_MAX_STATION_NAME - 1) station_name) true now 0 f0 false "".

(** [get_health_entry]: the pointer returned is the index of the entry. *)
Definition get_health_entry (now : Z) (fm : failover_manager) (station_name : string)
    : option nat * failover_manager :=
  match list_find (has_station station_name) (fm_health fm) with
  | Some (i, _) => (Some i, fm)
  | None =>
      if (MAX_MONITORED_RTUS <=? length (fm_health fm))%nat then (None, fm)
      else (Some (length (fm_health fm)),
            fm <| fm_health ::= fun l => l ++ [fresh_health now station_name] |>)
  end.

(** [h->field = ...] through a pointer into the health table. *)
Definition upd_health (i : nat) (f : rtu_health -> rtu_health) (fm : failover_manager)
    : failover_manager :=
  fm <| fm_health ::= alter f i |>.

Definition failover_set_backup (fm : failover_manager) (primary_station backup_station : string)
    : wtc_result * failover_manager :=
  match find_update (has_primary primary_station)
          (fun m => m <| bm_backup := strncpy (WTC_MAX_STATION_NAME - 1) backup_station |>)
          (fm_backups fm) with
  | Some l => (WTC_OK, fm <| fm_backups := l |>)
  | None =>
      if (MAX_MONITORED_RTUS <=? length (fm_backups fm))%nat then (WTC_ERROR_FULL, fm)
      else (WTC_OK, fm <| fm_backups ::= fun l =>
              l ++ [mk_backup_mapping (strncpy (WTC_MAX_STATION_NAME - 1) primary_station)
                      (strncpy (WTC_MAX_STATION_NAME - 1) backup_station) false] |>)
  end.

(** [failover_remove_backup]: the entries behind the match move down ([memmove]). *)
Definition failover_remove_backup (fm : failover_manager) (primary_station : string)
    : wtc_result * failover_manager :=
  match find_remove (has_primary primary_station) (fm_backups fm) with
  | Some l => (WTC_OK, fm <| fm_backups := l |>)
  | None => (WTC_ERROR_NOT_FOUND, fm)
  end.

Definition failover_get_health (fm : failover_manager) (station_name : string)
    : wtc_result * option rtu_health :=
  match find_entry (has_station station_name) (fm_health fm) with
  | Some h => (WTC_OK, Some h)
  | None => (WTC_ERROR_NOT_FOUND, None)
  end.

Definition failover_get_status (fm : failover_manager) : wtc_result * failover_status :=
  (WTC_OK, fm_status fm).

(** The callback, when one is set. *)
Definition notify (primary backup : string) (active : bool) (fm : failover_manager)
    : failover_manager :=
  if fm_callback fm then fm <| fm_trace ::= fun l => l ++ [(primary, backup, active)] |> else fm.

(** [h = get_health_entry(mgr, name); if (h) { ... }] *)
Definition mark_entry (now : Z) (n : string) (f : rtu_health -> rtu_health) (fm : failover_manager)
    : failover_manager :=
  let '(e, fm) := get_health_entry now fm n in
  match e with Some k => upd_health k f fm | None => fm end.

(** [execute_failover] on mapping [i]; [now] is its own clock reading, [now'] the one of
    [get_health_entry]. *)
Definition execute_failover (now now' : Z) (i : nat) (m : backup_mapping) (fm : failover_manager)
    : failover_manager :=
  if bm_active m then fm
  else
    let fm := fm <| fm_backups ::= alter (fun m => m <| bm_active := true |>) i |>
                 <| fm_status ::= fun s => s <| fs_last_failover_ms := now |>
                      <| fs_last_failed_station := strncpy (WTC_MAX_STATION_NAME - 1) (bm_primary m) |> |> in
    let fm := mark_entry now' (bm_primary m) (fun h => h <| rh_in_failover := true |>
                <| rh_backup_station := strncpy (WTC_MAX_STATION_NAME - 1) (bm_backup m) |>) fm in
    notify (bm_primary m) (bm_backup m) true fm.

Definition has_active_primary (n : string) (m : backup_mapping) : Prop :=
  bm_primary m = n /\ bm_active m = true.
#[export] Instance has_active_primary_dec n m : Decision (has_active_primary n m).
Proof. unfold has_active_primary. apply _. Defined.

Definition failover_restore (now : Z) (fm : failover_manager) (station_name : string)
    : wtc_result * failover_manager :=
  match list_find (has_active_primary station_name) (fm_backups fm) with
  | Some (i, m) =>
      let fm := fm <| fm_backups ::= alter (fun m => m <| bm_active := false |>) i |> in
      let fm := mark_entry now station_name (fun h => h <| rh_in_failover := false |>
                                                        <| rh_backup_station := "" |>) fm in
      (WTC_OK, notify (bm_primary m) (bm_backup m) false fm)
  | None => (WTC_ERROR_NOT_FOUND, fm)
  end.

Definition failover_force (now now' : Z) (fm : failover_manager) (station_name : string)
    : wtc_result * failover_manager :=
  match list_find (has_primary station_name) (fm_backups fm) with
  | Some (i, m) => (WTC_OK, execute_failover now now' i m fm)
  | None => (WTC_ERROR_NOT_FOUND, fm)
  end.

(** The clock readings of one [failover_process] call. *)
Inductive reading :=
| at_start
| at_device (i : nat) | at_restore (i : nat)
| at_primary (i : nat) | at_backup (i : nat) | at_execute (i : nat) | at_execute_entry (i : nat).

(** The connection check of one device, whose health entry is number [k]. *)
Definition check_state (clk : reading -> Z) (now : Z) (i k : nat) (d : rtu_device)
    (fm : failover_manager) : failover_manager :=
  let in_failover fm := default false (rh_in_failover <$> fm_health fm !! k) in
  if decide (dev_connection_state d = PROFINET_STATE_RUNNING) then
    let fm := upd_health k (fun h => h <| rh_healthy := true |>
                <| rh_last_heartbeat_ms := now |> <| rh_consecutive_failures := 0 |>) fm in
    let fm := fm <| fm_status ::= fun s => s <| fs_healthy_count ::= Z.succ |> |> in
    if in_failover fm && bool_decide (fc_mode (fm_config fm) = FAILOVER_MODE_AUTO)
    then snd (failover_restore (clk (at_restore i)) fm
                (default ""%string (rh_station_name <$> fm_health fm !! k)))
    else fm
  else if fc_timeout_ms (fm_config fm)
            <=? u64_sub now (default 0 (rh_last_heartbeat_ms <$> fm_health fm !! k)) then
    let fm := upd_health k (fun h => h <| rh_healthy := false |>
                              <| rh_consecutive_failures ::= Z.succ |>) fm in
    fm <| fm_status ::= fun s => s <| fs_failed_count ::= Z.succ |> |>
  else fm.

(** One device of the registry listing. *)
Definition check_device (clk : reading -> Z) (now : Z) (i : nat) (d : rtu_device)
    (fm : failover_manager) : failover_manager :=
  let '(e, fm) := get_health_entry (clk (at_device i)) fm (dev_station_name d) in
  match e with
  | None => fm
  | Some k =>
      let fm := check_state clk now i k d fm in
      let fm := upd_health k (fun h => h <| rh_packet_loss := dev_packet_loss_percent d |>) fm in
      if default false (rh_in_failover <$> fm_health fm !! k)
      then fm <| fm_status ::= fun s => s <| fs_in_failover_count ::= Z.succ |> |>
      else fm
  end.

(** The device loop, from index [i]. *)
Fixpoint check_devices (clk : reading -> Z) (now : Z) (i : nat) (devices : list rtu_device)
    (fm : failover_manager) : failover_manager :=
  match devices with
  | [] => fm
  | d :: devices => check_devices clk now (S i) devices (check_device clk now i d fm)
  end.

(** Mapping [i] of the failover loop. *)
Definition check_mapping (clk : reading -> Z) (fm : failover_manager) (i : nat) : failover_manager :=
  match fm_backups fm !! i with
  | None => fm
  | Some m =>
      let '(p, fm) := get_health_entry (clk (at_primary i)) fm (bm_primary m) in
      let healthy fm k := default true (rh_healthy <$> fm_health fm !! k) in
      match p with
      | Some k =>
          if negb (healthy fm k) && negb (bm_active m) then
            let '(b, fm) := get_health_entry (clk (at_backup i)) fm (bm_backup m) in
            match b with
            | Some k' =>
                if healthy fm k'
                then execute_failover (clk (at_execute i)) (clk (at_execute_entry i)) i m fm
                else fm
            | None => fm
            end
          else fm
      | None => fm
      end
  end.

(** The registry part of [failover_process]: an empty registry gives a NULL list. *)
Definition update_health (clk : reading -> Z) (alloc_ok : bool) (r : registry) (now : Z)
    (fm : failover_manager) : failover_manager :=
  if fm_registry fm then
    match rtu_registry_list_devices alloc_ok r (Z.of_nat MAX_MONITORED_RTUS) with
    | (WTC_OK, Some (d :: devices)) =>
        let fm := fm <| fm_status ::= fun s => s <| fs_healthy_count := 0 |> <| fs_failed_count := 0 |>
                                               <| fs_in_failover_count := 0 |> |> in
        check_devices clk now 0 (d :: devices) fm
    | _ => fm
    end
  else fm.

Definition failover_process (clk : reading -> Z) (alloc_ok : bool) (r : registry)
    (fm : failover_manager) : wtc_result * failover_manager :=
  if negb (fm_running fm) then (WTC_ERROR_NOT_INITIALIZED, fm)
  else
    let now := clk at_start in
    let fm := update_health clk alloc_ok r now fm in
    let fm := if decide (fc_mode (fm_config fm) = FAILOVER_MODE_MANUAL) then fm
              else foldl (check_mapping clk) fm (seq 0 (length (fm_backups fm))) in
    (WTC_OK, fm <| fm_last_process_ms := now |>).

(** ** Lookups by station *)

Definition health_of (fm : failover_manager) (n : string) : option rtu_health :=
  find_entry (has_station n) (fm_health fm).

(** A station without an entry gets a healthy one when it is first asked for. *)
Definition healthy_of (fm : failover_manager) (n : string) : bool :=
  default true (rh_healthy <$> health_of fm n).

Definition short (n : string) : Prop := (String.length n < WTC_MAX_STATION_NAME)%nat.

Lemma strncpy_short n : short n -> strncpy (WTC_MAX_STATION_NAME - 1) n = n.
Proof. intros H. apply strncpy_fits. unfold short, WTC_MAX_STATION_NAME in *. lia. Qed.

Lemma short_strncpy n : short (strncpy (WTC_MAX_STATION_NAME - 1) n).
Proof.
  unfold short. pose proof (strncpy_length (WTC_MAX_STATION_NAME - 1) n) as H.
  unfold WTC_MAX_STATION_NAME in *. lia.
Qed.
#[export] Hint Resolve short_strncpy : wtc.

(** An update through the pointer found for [n] is an update of station [n]. *)
Lemma upd_health_of fm n k h f :
  list_find (has_station n) (fm_health fm) = Some (k, h) ->
  rh_station_name (f h) = rh_station_name h ->
  let fm' := upd_health k f fm in
  list_find (has_station n) (fm_health fm') = Some (k, f h) /\
  length (fm_health fm') = length (fm_health fm) /\
  (forall n', health_of fm' n' = if decide (n' = n) then Some (f h) else health_of fm n').
Proof.
  intros H Hf. unfold upd_health, health_of. cbn [fm_health set eta_failover_manager].
  apply list_find_split in H as (Hl & Hn & Hno & Hk).
  assert (k = length (take k (fm_health fm))) as Hk' by (rewrite length_take; lia).
  set (l1 := take k (fm_health fm)) in *. set (l2 := drop (S k) (fm_health fm)) in *.
  clearbody l1 l2. rewrite Hl, Hk'. clear Hl Hk Hk'. rewrite alter_middle.
  unfold has_station in *. split_and!.
  - rewrite list_find_app_r by (by apply list_find_None_iff). cbn.
    rewrite decide_True by congruence. cbn. repeat f_equal; lia.
  - by rewrite !length_app.
  - intros n'. destruct (decide (n' = n)) as [->|Hne].
    + apply find_entry_app; [done|]. cbn. congruence.
    + apply find_entry_replace; cbn; congruence.
Qed.

(** What [get_health_entry] gives, and that a new entry only adds a healthy station. *)
Lemma get_health_entry_spec now fm n :
  short n ->
  let '(e, fm') := get_health_entry now fm n in
  match e with
  | None => fm' = fm /\ health_of fm n = None /\ (MAX_MONITORED_RTUS <= length (fm_health fm))%nat
  | Some k => exists h, list_find (has_station n) (fm_health fm') = Some (k, h) /\
      (fm' = fm /\ health_of fm n = Some h \/
       fm' = fm <| fm_health ::= fun l => l ++ [fresh_health now n] |> /\
       h = fresh_health now n /\ health_of fm n = None /\
       (length (fm_health fm) < MAX_MONITORED_RTUS)%nat)
  end.
Proof.
  intros Hs. unfold get_health_entry, health_of, find_entry.
  destruct (list_find (has_station n) (fm_health fm)) as [[k h]|] eqn:E; [by eauto 10|].
  destruct (Nat.leb_spec MAX_MONITORED_RTUS (length (fm_health fm))); [done|].
  eexists. split; [|right; split_and!; done].
  cbn [fm_health set eta_failover_manager]. rewrite list_find_app_r by done. cbn.
  rewrite decide_True by (unfold has_station; cbn; by rewrite strncpy_short). cbn.
  repeat f_equal; lia.
Qed.

(** ** Invariant *)

Definition known (fm : failover_manager) (n : string) : Prop := is_Some (health_of fm n).

(** What failover decisions are based on: health and last heartbeat of a station. *)
Definition vital_of (fm : failover_manager) (n : string) : option (bool * Z) :=
  (fun h => (rh_healthy h, rh_last_heartbeat_ms h)) <$> health_of fm n.

(** Tables within their arrays, one mapping per primary, and an active mapping is shown
    by the health entry of its primary (which is missing only if the table is full). *)
Record fo_inv (fm : failover_manager) : Prop := {
  inv_primaries : NoDup (bm_primary <$> fm_backups fm);
  inv_backups_len : (length (fm_backups fm) <= MAX_MONITORED_RTUS)%nat;
  inv_health_len : (length (fm_health fm) <= MAX_MONITORED_RTUS)%nat;
  inv_short : Forall (fun m => short (bm_primary m) /\ short (bm_backup m)) (fm_backups fm);
  inv_active : forall m, m ∈ fm_backups fm -> bm_active m = true ->
    match health_of fm (bm_primary m) with
    | Some h => rh_in_failover h = true
    | None => (MAX_MONITORED_RTUS <= length (fm_health fm))%nat
    end }.

(** Only the two tables matter. *)
Lemma fo_inv_ext fm fm' :
  fm_health fm' = fm_health fm -> fm_backups fm' = fm_backups fm -> fo_inv fm -> fo_inv fm'.
Proof.
  intros Hh Hb [H1 H2 H3 H4 H5]. unfold health_of in *.
  constructor; unfold health_of; rewrite ?Hh, ?Hb; done.
Qed.

Lemma health_of_append fm now n n' :
  short n -> health_of fm n = None ->
  health_of (fm <| fm_health ::= fun l => l ++ [fresh_health now n] |>) n'
  = if decide (n' = n) then Some (fresh_health now n) else health_of fm n'.
Proof.
  intros Hs Hnone. unfold health_of in *. cbn [fm_health set eta_failover_manager].
  assert (rh_station_name (fresh_health now n) = n) as Hname by (cbn; by apply strncpy_short).
  destruct (decide (n' = n)) as [->|Hne].
  - apply find_entry_app; [by apply (find_entry_None (has_station n))|done].
  - unfold find_entry. destruct (list_find (has_station n') (fm_health fm)) as [[i h]|] eqn:E.
    + by erewrite list_find_app_l.
    + rewrite list_find_app_r by done. cbn. rewrite decide_False; [done|].
      unfold has_station. congruence.
Qed.

(** A pointer into the health table: what is known of a station after it was asked for. *)
Lemma get_health_entry_frame now fm n :
  short n -> fo_inv fm ->
  let '(e, fm') := get_health_entry now fm n in
  fo_inv fm' /\ fm_backups fm' = fm_backups fm /\ fm_config fm' = fm_config fm /\
  fm_running fm' = fm_running fm /\
  (forall n', known fm n' -> health_of fm' n' = health_of fm n') /\
  (forall n', n' <> n -> health_of fm' n' = health_of fm n') /\
  (forall n', healthy_of fm' n' = healthy_of fm n').
Proof.
  intros Hs Hinv. pose proof (get_health_entry_spec now fm n Hs) as H.
  destruct (get_health_entry now fm n) as [[k|] fm']; [|by destruct H as [-> _]].
  destruct H as (h & _ & [[-> _]|(-> & _ & Hnone & Hroom)]); [done|].
  pose proof (fun n' => health_of_append fm now n n' Hs Hnone) as Hof.
  split_and!; try done.
  - destruct Hinv as [H1 H2 H3 H4 H5]. constructor; cbn [fm_backups set eta_failover_manager]; try done.
    + cbn [fm_health set eta_failover_manager]. rewrite length_app. cbn. lia.
    + intros m Hm Ha. rewrite Hof. specialize (H5 m Hm Ha).
      destruct (decide (bm_primary m = n)) as [Hp|Hp].
      * rewrite Hp, Hnone in H5. lia.
      * destruct (health_of fm (bm_primary m)); [done|]. lia.
  - intros n' [x Hx]. rewrite Hof. destruct (decide (n' = n)); [congruence|done].
  - intros n' Hne. rewrite Hof. by rewrite decide_False.
  - intros n'. unfold healthy_of. rewrite Hof. destruct (decide (n' = n)) as [->|]; [|done].
    by rewrite Hnone.
Qed.

(** Updates of an entry that keep its failover flag, or that lower it when no mapping of
    the station is active. *)
Lemma fo_inv_upd fm n k h f :
  list_find (has_station n) (fm_health fm) = Some (k, h) ->
  rh_station_name (f h) = rh_station_name h ->
  (rh_in_failover (f h) = rh_in_failover h \/ rh_in_failover (f h) = true \/
   (forall m, m ∈ fm_backups fm -> bm_primary m = n -> bm_active m = false)) ->
  fo_inv fm -> fo_inv (upd_health k f fm).
Proof.
  intros Hk Hname Hflag [H1 H2 H3 H4 H5].
  destruct (upd_health_of fm n k h f Hk Hname) as (_ & Hlen & Hof).
  constructor; [done|done|by rewrite Hlen|done|].
  intros m Hm Ha. rewrite Hof, Hlen. cbn [fm_backups upd_health set eta_failover_manager] in Hm.
  specialize (H5 m Hm Ha). destruct (decide (bm_primary m = n)) as [Hp|]; [|done].
  rewrite Hp in H5. unfold health_of, find_entry in H5. rewrite Hk in H5. cbn in H5.
  destruct Hflag as [->|[->|Hno]]; [done|done|]. specialize (Hno m Hm Hp). congruence.
Qed.

(** Changing only the [bm_active] flags. *)
Lemma fo_inv_active fm l :
  bm_primary <$> l = bm_primary <$> fm_backups fm ->
  bm_backup <$> l = bm_backup <$> fm_backups fm ->
  (forall m, m ∈ l -> bm_active m = true ->
     match health_of fm (bm_primary m) with
     | Some h => rh_in_failover h = true
     | None => (MAX_MONITORED_RTUS <= length (fm_health fm))%nat
     end) ->
  fo_inv fm -> fo_inv (fm <| fm_backups := l |>).
Proof.
  intros Hp Hb Ha [H1 H2 H3 H4 H5].
  constructor; cbn [fm_backups fm_health set eta_failover_manager]; try done.
  - by rewrite Hp.
  - by rewrite <- (length_fmap bm_primary), Hp, length_fmap.
  - apply Forall_forall. intros m (i & Hi)%list_elem_of_lookup_1.
    assert ((bm_primary <$> fm_backups fm) !! i = Some (bm_primary m)) as Hi1
      by (rewrite <- Hp, list_lookup_fmap, Hi; done).
    assert ((bm_backup <$> fm_backups fm) !! i = Some (bm_backup m)) as Hi2
      by (rewrite <- Hb, list_lookup_fmap, Hi; done).
    rewrite list_lookup_fmap in Hi1, Hi2. destruct (fm_backups fm !! i) as [m'|] eqn:E; [|done].
    cbn in *. simplify_eq. apply list_elem_of_lookup_2 in E.
    rewrite Forall_forall in H4. destruct (H4 m' E). split; congruence.
Qed.

(** ** Restore and execute *)

Definition deactivate (n : string) (m : backup_mapping) : backup_mapping :=
  if decide (bm_primary m = n) then m <| bm_active := false |> else m.

(** With one mapping per primary, deactivating the active one found is deactivating
    all mappings of the station. *)
Lemma deactivate_found (l : list backup_mapping) n i m :
  NoDup (bm_primary <$> l) -> list_find (has_active_primary n) l = Some (i, m) ->
  alter (fun m => m <| bm_active := false |>) i l = deactivate n <$> l.
Proof.
  intros Hnd (Hi & [Hp Ha] & _)%list_find_Some. apply list_eq. intros j.
  rewrite list_lookup_fmap. destruct (decide (j = i)) as [->|Hne].
  - rewrite list_lookup_alter_eq, Hi. cbn. unfold deactivate. by rewrite decide_True.
  - rewrite list_lookup_alter_ne by done. destruct (l !! j) as [m'|] eqn:Hj; [|done].
    cbn. unfold deactivate. rewrite decide_False; [done|]. intros Hp'. apply Hne.
    eapply NoDup_lookup; [exact Hnd|..]; rewrite list_lookup_fmap.
    + rewrite Hj. cbn. by rewrite Hp'.
    + rewrite Hi. cbn. by rewrite Hp.
Qed.

Lemma deactivate_none (l : list backup_mapping) n :
  (forall m, m ∈ l -> bm_primary m = n -> bm_active m = false) -> deactivate n <$> l = l.
Proof.
  intros H. rewrite <- (list_fmap_id l) at 2. apply list_fmap_ext.
  intros i m Hi%list_elem_of_lookup_2. unfold deactivate. case_decide as Hp; [|done].
  specialize (H m Hi Hp). destruct m; cbn in *. by rewrite H.
Qed.

Lemma deactivate_keeps n (l : list backup_mapping) :
  bm_primary <$> (deactivate n <$> l) = bm_primary <$> l /\
  bm_backup <$> (deactivate n <$> l) = bm_backup <$> l.
Proof.
  split; rewrite <- list_fmap_compose; apply list_fmap_ext; intros i m _; cbn; unfold deactivate;
    by case_decide.
Qed.

Lemma elem_of_deactivate n (l : list backup_mapping) m :
  m ∈ deactivate n <$> l -> bm_active m = true -> m ∈ l /\ bm_primary m <> n.
Proof.
  intros (m' & -> & Hm)%list_elem_of_fmap. unfold deactivate. case_decide; [done|by split].
Qed.

(** Nothing that decisions are based on differs, for stations already known. *)
Definition same_health (fm fm' : failover_manager) : Prop :=
  fm_config fm' = fm_config fm /\ fm_running fm' = fm_running fm /\
  (forall n, known fm n -> vital_of fm' n = vital_of fm n) /\
  (forall n, healthy_of fm' n = healthy_of fm n).

Lemma same_health_known fm fm' n : same_health fm fm' -> known fm n -> known fm' n.
Proof.
  intros (_ & _ & H & _) Hn. specialize (H n Hn). destruct Hn as [h Hh].
  unfold vital_of in H. rewrite Hh in H. unfold known. destruct (health_of fm' n); [eauto|done].
Qed.

#[export] Instance same_health_preorder : PreOrder same_health.
Proof.
  split; [done|]. intros x y z (H1 & H2 & H3 & H4) (H5 & H6 & H7 & H8).
  split_and!; try congruence.
  intros n Hn. rewrite <- H3 by done. apply H7. by apply (same_health_known x).
Qed.

Lemma notify_frame p b a fm :
  fm_health (notify p b a fm) = fm_health fm /\ fm_backups (notify p b a fm) = fm_backups fm /\
  fm_config (notify p b a fm) = fm_config fm /\ fm_running (notify p b a fm) = fm_running fm.
Proof. unfold notify. by destruct (fm_callback fm). Qed.

(** Only the health table counts. *)
Lemma same_health_ext fm fm' :
  fm_health fm' = fm_health fm -> fm_config fm' = fm_config fm -> fm_running fm' = fm_running fm ->
  same_health fm fm'.
Proof.
  intros Hh Hc Hr. unfold same_health, vital_of, healthy_of, health_of. by rewrite Hh.
Qed.

(** [f] only touches the failover fields of an entry. *)
Definition marks (f : rtu_health -> rtu_health) (flag : bool) : Prop :=
  forall h, rh_station_name (f h) = rh_station_name h /\ rh_healthy (f h) = rh_healthy h /\
    rh_last_heartbeat_ms (f h) = rh_last_heartbeat_ms h /\ rh_in_failover (f h) = flag.

Lemma mark_entry_spec now n f flag fm :
  short n -> marks f flag -> fo_inv fm ->
  (flag = true \/ forall m, m ∈ fm_backups fm -> bm_primary m = n -> bm_active m = false) ->
  let fm' := mark_entry now n f fm in
  fo_inv fm' /\ fm_backups fm' = fm_backups fm /\ same_health fm fm' /\
  match health_of fm' n with
  | Some h => rh_in_failover h = flag
  | None => (MAX_MONITORED_RTUS <= length (fm_health fm'))%nat
  end.
Proof.
  intros Hs Hf Hinv Hflag. unfold mark_entry.
  pose proof (get_health_entry_spec now fm n Hs) as He.
  pose proof (get_health_entry_frame now fm n Hs Hinv) as Hfr.
  destruct (get_health_entry now fm n) as [[k|] fm1].
  2:{ destruct He as (-> & Hnone & Hfull). by rewrite Hnone. }
  destruct He as (h & Hk & _). destruct Hfr as (Hinv1 & Hb & Hc & Hr & Hkn & _ & Hhe).
  destruct (Hf h) as (Hf1 & Hf2 & Hf3 & Hf4).
  destruct (upd_health_of fm1 n k h f Hk Hf1) as (_ & _ & Hof).
  assert (health_of fm1 n = Some h) as Hn by (unfold health_of, find_entry; by rewrite Hk).
  split_and!; [|done| |by rewrite Hof, decide_True by done].
  - eapply fo_inv_upd; [done|done| |done]. right. rewrite Hb, Hf4. done.
  - split_and!; [done|done|..].
    + intros n' Hn'. unfold vital_of. rewrite Hof, <- (Hkn n' Hn').
      destruct (decide (n' = n)) as [->|]; [|done]. rewrite Hn. cbn. congruence.
    + intros n'. rewrite <- Hhe. unfold healthy_of. rewrite Hof.
      destruct (decide (n' = n)) as [->|]; [|done]. rewrite Hn. cbn. congruence.
Qed.

(** [failover_restore] deactivates the station's mapping, keeps the invariant and does
    not touch what decisions are based on. *)
Lemma failover_restore_spec now fm n :
  short n -> fo_inv fm ->
  let fm' := snd (failover_restore now fm n) in
  fo_inv fm' /\ fm_backups fm' = deactivate n <$> fm_backups fm /\ same_health fm fm'.
Proof.
  intros Hs Hinv. unfold failover_restore.
  destruct (list_find (has_active_primary n) (fm_backups fm)) as [[i m]|] eqn:E; cbn [snd].
  2:{ split_and!; try done. symmetry. apply deactivate_none. intros m Hm Hp.
      apply list_find_None_iff in E. rewrite Forall_forall in E. specialize (E m Hm).
      destruct (bm_active m) eqn:Ha; [|done]. by destruct E. }
  assert (fm <| fm_backups ::= alter (fun m => m <| bm_active := false |>) i |>
          = fm <| fm_backups := deactivate n <$> fm_backups fm |>) as ->.
  { unfold set; cbn. by rewrite <- (deactivate_found _ n i m (inv_primaries fm Hinv) E). }
  destruct (deactivate_keeps n (fm_backups fm)) as [Hkp Hkb].
  assert (fo_inv (fm <| fm_backups := deactivate n <$> fm_backups fm |>)) as Hinv1.
  { apply fo_inv_active; [done|done| |done]. intros m' Hm' Ha'.
    destruct (elem_of_deactivate _ _ _ Hm' Ha'). by apply inv_active. }
  set (fm1 := fm <| fm_backups := deactivate n <$> fm_backups fm |>) in *. set (f := fun h => _).
  destruct (mark_entry_spec now n f false fm1 Hs) as (Hi & Hb & Hsame & _); [done|done| |].
  { right. intros m' Hm' Hp'. destruct (bm_active m') eqn:Ha'; [|done].
    by destruct (elem_of_deactivate _ _ _ Hm' Ha'). }
  destruct (notify_frame (bm_primary m) (bm_backup m) false (mark_entry now n f fm1))
    as (Hn1 & Hn2 & Hn3 & Hn4).
  split_and!; [by eapply fo_inv_ext|by rewrite Hn2, Hb|].
  transitivity fm1; [by apply same_health_ext|]. etransitivity; [exact Hsame|].
  by apply same_health_ext.
Qed.

(** The health update does not depend on the mappings. *)
Lemma mark_entry_frame now n f g s fm :
  mark_entry now n f (fm <| fm_backups ::= g |> <| fm_status ::= s |>)
  = (mark_entry now n f fm) <| fm_backups ::= g |> <| fm_status ::= s |>.
Proof.
  unfold mark_entry, get_health_entry. cbn [fm_health set eta_failover_manager].
  destruct (list_find (has_station n) (fm_health fm)) as [[k h]|]; [done|].
  by destruct (_ <=? _)%nat.
Qed.

Lemma alter_insert_lookup {A} (f : A -> A) (l : list A) i x :
  l !! i = Some x -> alter f i l = <[i := f x]> l.
Proof.
  intros Hi. apply list_eq. intros j. destruct (decide (i = j)) as [<-|Hne].
  - rewrite list_lookup_alter_eq, Hi, list_lookup_insert_eq; [done|by eapply lookup_lt_Some].
  - by rewrite list_lookup_alter_ne, list_lookup_insert_ne.
Qed.

Definition activate (m : backup_mapping) : backup_mapping := m <| bm_active := true |>.

Lemma fmap_alter_keeps {A} (g : backup_mapping -> A) (i : nat) (l : list backup_mapping) :
  (forall m, g (activate m) = g m) -> g <$> alter activate i l = g <$> l.
Proof.
  intros H. apply list_eq. intros j. rewrite !list_lookup_fmap. destruct (decide (i = j)) as [->|].
  - rewrite list_lookup_alter_eq. destruct (l !! j); cbn; [by rewrite H|done].
  - by rewrite list_lookup_alter_ne.
Qed.

Lemma execute_failover_spec now now' i m fm :
  fo_inv fm -> fm_backups fm !! i = Some m -> bm_active m = false ->
  let fm' := execute_failover now now' i m fm in
  fo_inv fm' /\ fm_backups fm' = alter activate i (fm_backups fm) /\ same_health fm fm'.
Proof.
  intros Hinv Hi Ha. unfold execute_failover. rewrite Ha, mark_entry_frame.
  pose proof (list_elem_of_lookup_2 _ _ _ Hi) as Hm.
  destruct (proj1 (Forall_forall _ _) (inv_short fm Hinv) m Hm) as [Hs _].
  set (f := fun h : rtu_health => _).
  destruct (mark_entry_spec now' (bm_primary m) f true fm Hs) as (Hi1 & Hb & Hsame & Hflag);
    [done|done|by left|].
  set (fm1 := mark_entry now' (bm_primary m) f fm) in *.
  destruct (notify_frame (bm_primary m) (bm_backup m) true
              (fm1 <| fm_backups ::= alter activate i |> <| fm_status ::= fun s =>
                 s <| fs_last_failover_ms := now |> <| fs_last_failed_station :=
                   strncpy (WTC_MAX_STATION_NAME - 1) (bm_primary m) |> |>)) as (Hn1 & Hn2 & Hn3 & Hn4).
  split_and!.
  - eapply (fo_inv_ext (fm1 <| fm_backups := alter activate i (fm_backups fm) |>)).
    + exact Hn1.
    + rewrite <- Hb. exact Hn2.
    + apply fo_inv_active; [by rewrite Hb; apply fmap_alter_keeps..| |done].
      intros m' (j & Hj)%list_elem_of_lookup_1 Ha'. destruct (decide (i = j)) as [<-|Hne].
      * rewrite list_lookup_alter_eq, Hi in Hj. cbn in Hj. simplify_eq. exact Hflag.
      * rewrite list_lookup_alter_ne in Hj by done. apply inv_active; [done| |done].
        rewrite Hb. by eapply list_elem_of_lookup_2.
  - rewrite <- Hb. exact Hn2.
  - etransitivity; [exact Hsame|]. by apply same_health_ext.
Qed.

(** ** One device of the listing *)

(** Health and heartbeat of a listed device after the check. *)
Definition next_vital (c : failover_config) (now : Z) (d : rtu_device) (v : bool * Z) : bool * Z :=
  if decide (dev_connection_state d = PROFINET_STATE_RUNNING) then (true, now)
  else if fc_timeout_ms c <=? u64_sub now (snd v) then (false, snd v) else v.

(** A running primary ends its failover in automatic mode. *)
Definition restores (c : failover_config) (d : rtu_device) : bool :=
  bool_decide (dev_connection_state d = PROFINET_STATE_RUNNING) &&
  bool_decide (fc_mode c = FAILOVER_MODE_AUTO).

Lemma entry_fields fm n k h :
  list_find (has_station n) (fm_health fm) = Some (k, h) ->
  fm_health fm !! k = Some h /\ health_of fm n = Some h /\ rh_station_name h = n.
Proof.
  intros H. pose proof H as (Hk & Hn & _)%list_find_Some. unfold health_of, find_entry. by rewrite H.
Qed.

Lemma vital_known fm n v : vital_of fm n = Some v -> known fm n.
Proof. unfold vital_of, known. destruct (health_of fm n); [eauto|done]. Qed.

(** An update through a pointer that keeps name and failover flag. *)
Lemma upd_vital fm n k h f :
  list_find (has_station n) (fm_health fm) = Some (k, h) ->
  rh_station_name (f h) = rh_station_name h -> rh_in_failover (f h) = rh_in_failover h ->
  fo_inv fm ->
  let fm' := upd_health k f fm in
  fo_inv fm' /\ list_find (has_station n) (fm_health fm') = Some (k, f h) /\
  forall n', vital_of fm' n' = if decide (n' = n) then Some (rh_healthy (f h), rh_last_heartbeat_ms (f h))
                               else vital_of fm n'.
Proof.
  intros Hk Hn Hfl Hinv. destruct (upd_health_of fm n k h f Hk Hn) as (H1 & _ & Hof).
  split_and!; [|done|].
  - eapply fo_inv_upd; eauto.
  - intros n'. unfold vital_of. rewrite Hof. by case_decide.
Qed.

(** The flag of an entry tells whether the station's mapping may be active. *)
Lemma not_in_failover fm n h :
  fo_inv fm -> health_of fm n = Some h -> rh_in_failover h = false ->
  deactivate n <$> fm_backups fm = fm_backups fm.
Proof.
  intros Hinv Hh Hf. apply deactivate_none. intros m Hm Hp.
  destruct (bm_active m) eqn:Ha; [|done].
  pose proof (inv_active fm Hinv m Hm Ha) as H. rewrite Hp, Hh in H. congruence.
Qed.

Lemma check_state_spec clk now i k d h fm :
  short (dev_station_name d) -> fo_inv fm ->
  list_find (has_station (dev_station_name d)) (fm_health fm) = Some (k, h) ->
  let n := dev_station_name d in
  let fm' := check_state clk now i k d fm in
  fo_inv fm' /\ fm_config fm' = fm_config fm /\ fm_running fm' = fm_running fm /\
  (forall n', n' <> n -> known fm n' -> vital_of fm' n' = vital_of fm n') /\
  vital_of fm' n = Some (next_vital (fm_config fm) now d (rh_healthy h, rh_last_heartbeat_ms h)) /\
  fm_backups fm' = if restores (fm_config fm) d then deactivate n <$> fm_backups fm
                   else fm_backups fm.
Proof.
  intros Hs Hinv Hk n. unfold check_state, next_vital, restores. cbv zeta. fold n in Hk |- *.
  destruct (entry_fields fm n k h Hk) as (Hkh & Hh & Hn).
  destruct (decide (dev_connection_state d = PROFINET_STATE_RUNNING)) as [Hrun|Hrun].
  - set (f := fun h => h <| rh_healthy := true |> <| rh_last_heartbeat_ms := now |>
                         <| rh_consecutive_failures := 0 |>).
    destruct (upd_vital fm n k h f Hk) as (Hinv1 & Hk1 & Hv1); [done|done|done|].
    set (fm1 := (upd_health k f fm) <| fm_status ::= fun s => s <| fs_healthy_count ::= Z.succ |> |>).
    assert (fo_inv fm1) as Hinv1' by (by apply (fo_inv_ext (upd_health k f fm))).
    destruct (entry_fields fm1 n k (f h) Hk1) as (Hkh1 & Hh1 & Hn1). rewrite Hkh1.
    assert (forall n', n' <> n -> vital_of fm1 n' = vital_of fm n') as Hother.
    { intros n' Hne. etransitivity; [apply Hv1|]. by rewrite decide_False. }
    assert (vital_of fm1 n = Some (true, now)) as Hself.
    { etransitivity; [apply Hv1|]. by rewrite decide_True. }
    rewrite (bool_decide_eq_true_2 (dev_connection_state d = PROFINET_STATE_RUNNING)) by done.
    cbn [fmap option_fmap option_map default].
    change (fm_config fm1) with (fm_config fm). rewrite Hn1. cbn [andb].
    destruct (rh_in_failover (f h)) eqn:Hfl; cbn [andb].
    2:{ split_and!; try done; [by auto|].
        pose proof (not_in_failover fm n h Hinv Hh Hfl) as Hd. rewrite Hd. by destruct (bool_decide (fc_mode (fm_config fm) = FAILOVER_MODE_AUTO)). }
    destruct (bool_decide (fc_mode (fm_config fm) = FAILOVER_MODE_AUTO)).
    2:{ split_and!; try done. by auto. }
    destruct (failover_restore_spec (clk (at_restore i)) fm1 n Hs Hinv1')
      as (Hi2 & Hb2 & Hc2 & Hr2 & Hv2 & _).
    split_and!; [done|done|done| | |done].
    + intros n' Hne Hkn. rewrite Hv2, Hother; [done..|].
      destruct Hkn as [x Hx]. eapply vital_known. rewrite Hother by done. unfold vital_of. by rewrite Hx.
    + rewrite Hv2; [done|]. by eapply vital_known.
  - rewrite (bool_decide_eq_false_2 (dev_connection_state d = PROFINET_STATE_RUNNING)) by done.
    rewrite Hkh. cbn [fmap option_fmap option_map default from_option id snd andb].
    destruct (fc_timeout_ms (fm_config fm) <=? u64_sub now (rh_last_heartbeat_ms h)).
    + set (f := fun h => h <| rh_healthy := false |> <| rh_consecutive_failures ::= Z.succ |>).
      destruct (upd_vital fm n k h f Hk) as (Hinv1 & Hk1 & Hv1); [done|done|done|].
      split_and!; [by apply (fo_inv_ext (upd_health k f fm))|done|done| | |done].
      * intros n' Hne _. etransitivity; [apply Hv1|]. by rewrite decide_False.
      * etransitivity; [apply Hv1|]. by rewrite decide_True.
    + split_and!; try done. unfold vital_of. by rewrite Hh.
Qed.

(** The fields of an entry that the theorems look at. *)
Definition essentials (h : rtu_health) : string * bool * Z * bool :=
  (rh_station_name h, rh_healthy h, rh_last_heartbeat_ms h, rh_in_failover h).

Lemma essentials_find (l l' : list rtu_health) n :
  essentials <$> l' = essentials <$> l ->
  essentials <$> find_entry (has_station n) l' = essentials <$> find_entry (has_station n) l.
Proof.
  unfold find_entry. revert l'. induction l as [|x l IH]; intros [|y l'] H; try done.
  rewrite !fmap_cons in H. injection H as H1 H2 H3 H4 Hl. specialize (IH l' Hl). cbn [list_find].
  destruct (decide (has_station n y)) as [Hy|Hy], (decide (has_station n x)) as [Hx|Hx];
    unfold has_station in Hx, Hy; try congruence.
  - cbn. unfold essentials. congruence.
  - destruct (list_find _ l') as [[]|], (list_find _ l) as [[]|]; cbn in *; congruence.
Qed.

(** An update of other fields changes nothing. *)
Lemma upd_inessential fm k f :
  (forall h, essentials (f h) = essentials h) -> fo_inv fm ->
  let fm' := upd_health k f fm in
  fo_inv fm' /\ forall n, vital_of fm' n = vital_of fm n.
Proof.
  intros Hf [H1 H2 H3 H4 H5].
  assert (essentials <$> alter f k (fm_health fm) = essentials <$> fm_health fm) as He.
  { apply list_eq. intros j. rewrite !list_lookup_fmap. destruct (decide (k = j)) as [->|].
    - rewrite list_lookup_alter_eq. destruct (_ !! j); cbn; [by rewrite Hf|done].
    - by rewrite list_lookup_alter_ne. }
  assert (forall n, essentials <$> health_of (upd_health k f fm) n = essentials <$> health_of fm n) as Hof.
  { intros n. by apply essentials_find. }
  split.
  - constructor; try done; cbn [fm_backups fm_health upd_health set eta_failover_manager];
      rewrite ?length_alter; [done|].
    intros m Hm Ha. specialize (H5 m Hm Ha). specialize (Hof (bm_primary m)).
    destruct (health_of (upd_health k f fm) (bm_primary m)), (health_of fm (bm_primary m));
      cbn in Hof; try done. unfold essentials in Hof. congruence.
  - intros n. specialize (Hof n). unfold vital_of.
    destruct (health_of (upd_health k f fm) n), (health_of fm n); cbn in *; try done.
    unfold essentials in Hof. congruence.
Qed.

Lemma check_device_spec clk now i d fm :
  short (dev_station_name d) -> fo_inv fm ->
  let n := dev_station_name d in
  let fm' := check_device clk now i d fm in
  fo_inv fm' /\ fm_config fm' = fm_config fm /\ fm_running fm' = fm_running fm /\
  (forall n', n' <> n -> known fm n' -> vital_of fm' n' = vital_of fm n') /\
  (forall v, vital_of fm n = Some v -> vital_of fm' n = Some (next_vital (fm_config fm) now d v)) /\
  (exists on, fm_backups fm' = (if on : bool then deactivate n else id) <$> fm_backups fm /\
     (known fm n -> on = restores (fm_config fm) d)).
Proof.
  intros Hs Hinv n. unfold check_device. fold n.
  pose proof (get_health_entry_spec (clk (at_device i)) fm n Hs) as He.
  pose proof (get_health_entry_frame (clk (at_device i)) fm n Hs Hinv) as Hfr.
  destruct (get_health_entry (clk (at_device i)) fm n) as [[k|] fm1].
  2:{ destruct He as (-> & Hnone & _). split_and!; try done.
      - intros v Hv. unfold vital_of in Hv. by rewrite Hnone in Hv.
      - exists false. rewrite list_fmap_id. split; [done|]. intros [x Hx]. congruence. }
  destruct He as (h & Hk & _). destruct Hfr as (Hinv1 & Hb1 & Hc1 & Hr1 & Hkn & Hne & _).
  destruct (check_state_spec clk now i k d h fm1 Hs Hinv1 Hk) as (Hinv2 & Hc2 & Hr2 & Ho2 & Hv2 & Hb2).
  set (fm2 := check_state clk now i k d fm1) in *. fold n in Ho2, Hv2, Hb2.
  set (g := fun h => h <| rh_packet_loss := dev_packet_loss_percent d |>).
  destruct (upd_inessential fm2 k g) as [Hinv3 Hv3]; [done|done|].
  assert (forall fm', fm_health fm' = fm_health (upd_health k g fm2) ->
            forall n', vital_of fm' n' = vital_of fm2 n') as Hv.
  { intros fm' Hh n'. unfold vital_of, health_of at 1. rewrite Hh. apply Hv3. }
  assert (forall v, vital_of fm n = Some v -> v = (rh_healthy h, rh_last_heartbeat_ms h)) as Hold.
  { intros v Hvn. destruct (entry_fields fm1 n k h Hk) as (_ & Hh & _).
    pose proof (vital_known _ _ _ Hvn) as Hkno. rewrite Hkn in Hh by done.
    unfold vital_of in Hvn. rewrite Hh in Hvn. cbn in Hvn. congruence. }
  rewrite Hb1, Hc1 in *. cbv zeta.
  set (fm3 := upd_health k g fm2) in *.
  set (fm4 := if default false _ then _ else fm3).
  assert (fm_health fm4 = fm_health fm3 /\ fm_backups fm4 = fm_backups fm2 /\
          fm_config fm4 = fm_config fm2 /\ fm_running fm4 = fm_running fm2) as (Hh4 & Hb4 & Hc4 & Hr4)
    by (unfold fm4; by destruct (default false _)).
  split_and!; [by apply (fo_inv_ext fm3)|congruence|congruence|..].
  - intros n' Hn' [x Hx]. rewrite (Hv _ Hh4), Ho2; [|done|].
    + unfold vital_of. by rewrite (Hne n' Hn').
    + exists x. by rewrite (Hne n' Hn').
  - intros v Hvn. rewrite (Hv _ Hh4), Hv2. by rewrite (Hold v Hvn).
  - exists (restores (fm_config fm) d). rewrite Hb4, Hb2. split; [|done].
    destruct (restores _ _); [done|by rewrite list_fmap_id].
Qed.

(** ** The device loop *)

(** Mapping [j] after the listing was checked: its names, and its flag when the primary is
    a known listed device or not listed at all. *)
Definition mapping_after (c : failover_config) (devices : list rtu_device)
    (fm : failover_manager) (m m' : backup_mapping) : Prop :=
  bm_primary m' = bm_primary m /\ bm_backup m' = bm_backup m /\
  (bm_active m' = true -> bm_active m = true) /\
  (forall d, d ∈ devices -> dev_station_name d = bm_primary m -> known fm (bm_primary m) ->
     bm_active m' = bm_active m && negb (restores c d)) /\
  (bm_primary m ∉ (dev_station_name <$> devices) -> bm_active m' = bm_active m).

Lemma mapping_after_cons c d devices fm fm1 on m m' :
  dev_station_name d ∉ (dev_station_name <$> devices) ->
  (forall n, n <> dev_station_name d -> known fm n -> known fm1 n) ->
  (known fm (dev_station_name d) -> on = restores c d) ->
  mapping_after c devices fm1 ((if on : bool then deactivate (dev_station_name d) else id) m) m' ->
  mapping_after c (d :: devices) fm m m'.
Proof.
  intros Hnot Hkeep Hon Hm. set (g := if on then deactivate (dev_station_name d) else id) in Hm.
  assert (bm_primary (g m) = bm_primary m /\ bm_backup (g m) = bm_backup m /\
          bm_active (g m) = bm_active m && negb (on && bool_decide (bm_primary m = dev_station_name d)))
    as (Hp & Hb & Ha).
  { unfold g, deactivate. destruct on; cbn; [|by rewrite andb_true_r].
    case_decide; case_bool_decide; try done; cbn; by rewrite ?andb_false_r, ?andb_true_r. }
  unfold mapping_after in *. rewrite Hp, Hb, Ha in Hm. destruct Hm as (H1 & H2 & H3 & H4 & H5).
  split_and!; [done|done|..].
  - intros H. apply H3, andb_true_iff in H as [? _]. done.
  - intros d' [->|Hd']%elem_of_cons Hn Hkn.
    + rewrite H5 by congruence. rewrite bool_decide_eq_true_2, andb_true_r by done.
      rewrite Hon; [done|]. by rewrite Hn.
    + assert (bm_primary m <> dev_station_name d) as Hne.
      { intros Heq. apply Hnot. rewrite <- Heq, <- Hn. by apply list_elem_of_fmap_2. }
      rewrite (H4 d') by auto. rewrite bool_decide_eq_false_2, andb_false_r, andb_true_r by done. done.
  - rewrite fmap_cons. intros [Hne Hn]%not_elem_of_cons. rewrite H5 by done.
    by rewrite bool_decide_eq_false_2, andb_false_r, andb_true_r.
Qed.

Lemma check_devices_spec clk now i devices fm :
  Forall (fun d => short (dev_station_name d)) devices ->
  NoDup (dev_station_name <$> devices) -> fo_inv fm ->
  let fm' := check_devices clk now i devices fm in
  fo_inv fm' /\ fm_config fm' = fm_config fm /\ fm_running fm' = fm_running fm /\
  (forall n, n ∉ (dev_station_name <$> devices) -> known fm n -> vital_of fm' n = vital_of fm n) /\
  (forall d v, d ∈ devices -> vital_of fm (dev_station_name d) = Some v ->
     vital_of fm' (dev_station_name d) = Some (next_vital (fm_config fm) now d v)) /\
  Forall2 (mapping_after (fm_config fm) devices fm) (fm_backups fm) (fm_backups fm').
Proof.
  revert i fm. induction devices as [|d devices IH]; intros i fm Hs Hnd Hinv; cbn [check_devices].
  { split_and!; try done; [intros d v Hd; inversion Hd|].
    apply Forall_Forall2_diag, Forall_true. intros m. unfold mapping_after.
    split_and!; try done. intros d Hd. inversion Hd. }
  apply Forall_cons in Hs as [Hsd Hs]. rewrite fmap_cons in Hnd. apply NoDup_cons in Hnd as [Hnot Hnd].
  destruct (check_device_spec clk now i d fm Hsd Hinv)
    as (Hinv1 & Hc1 & Hr1 & Ho1 & Hv1 & on & Hb1 & Hon).
  set (fm1 := check_device clk now i d fm) in *.
  destruct (IH (S i) fm1 Hs Hnd Hinv1) as (Hinv2 & Hc2 & Hr2 & Ho2 & Hv2 & Hb2).
  set (fm2 := check_devices clk now (S i) devices fm1) in *. rewrite Hc1 in *.
  assert (forall n v, vital_of fm1 n = Some v -> known fm1 n) as Hk1 by apply vital_known.
  assert (forall n, n <> dev_station_name d -> known fm n -> known fm1 n) as Hkeep.
  { intros n Hne Hn. destruct Hn as [x Hx]. eapply Hk1. rewrite Ho1; [|done|by exists x].
    unfold vital_of. by rewrite Hx. }
  split_and!; [done|congruence|congruence|..].
  - intros n Hn Hkn. rewrite fmap_cons in Hn. apply not_elem_of_cons in Hn as [Hne Hn].
    rewrite Ho2; [by apply Ho1|done|by apply Hkeep].
  - intros d' v [->|Hd']%elem_of_cons Hv.
    + specialize (Hv1 v Hv). rewrite Ho2; [done|done|by eapply Hk1].
    + apply Hv2; [done|]. rewrite Ho1; [done| |by eapply vital_known].
      intros Heq. apply Hnot. rewrite <- Heq. by apply list_elem_of_fmap_2.
  - rewrite Hb1, (Forall2_fmap_l (if on then deactivate (dev_station_name d) else id)) in Hb2.
    eapply Forall2_impl; [exact Hb2|].
    intros m m' Hm. by eapply mapping_after_cons.
Qed.

(** ** The failover loop *)

(** Failover decision: the mapping stays active, or becomes active when its primary is
    unhealthy and its backup healthy (a backup never seen before needs a free entry). *)
Definition decided (fm : failover_manager) (m m' : backup_mapping) : Prop :=
  bm_primary m' = bm_primary m /\ bm_backup m' = bm_backup m /\
  (bm_active m = true -> bm_active m' = true) /\
  (bm_active m' = true -> bm_active m = true \/
     healthy_of fm (bm_primary m) = false /\ healthy_of fm (bm_backup m) = true) /\
  (healthy_of fm (bm_primary m) = false -> healthy_of fm (bm_backup m) = true ->
     known fm (bm_backup m) -> bm_active m' = true).

Lemma healthy_entry fm n k h :
  list_find (has_station n) (fm_health fm) = Some (k, h) ->
  default true (rh_healthy <$> fm_health fm !! k) = healthy_of fm n.
Proof.
  intros H. destruct (entry_fields fm n k h H) as (-> & Hh & _). unfold healthy_of. by rewrite Hh.
Qed.

Lemma decided_refl fm m :
  (bm_active m = true \/ ~ (healthy_of fm (bm_primary m) = false /\
     healthy_of fm (bm_backup m) = true /\ known fm (bm_backup m))) -> decided fm m m.
Proof. unfold decided. intros H. split_and!; try done; [tauto|]. intros. destruct H; tauto. Qed.

Lemma get_health_entry_same now fm n :
  short n -> fo_inv fm ->
  let '(e, fm') := get_health_entry now fm n in
  fo_inv fm' /\ fm_backups fm' = fm_backups fm /\ same_health fm fm' /\
  match e with
  | Some k => exists h, list_find (has_station n) (fm_health fm') = Some (k, h)
  | None => ~ known fm n
  end.
Proof.
  intros Hs Hinv. pose proof (get_health_entry_spec now fm n Hs) as He.
  pose proof (get_health_entry_frame now fm n Hs Hinv) as Hfr.
  destruct (get_health_entry now fm n) as [e fm'].
  destruct Hfr as (H1 & H2 & H3 & H4 & H5 & _ & H7). split_and!; [done|done| |].
  - split_and!; [done|done| |done]. intros n' Hn'. unfold vital_of. by rewrite H5.
  - destruct e; [by destruct He as (h & ? & _); eauto|].
    destruct He as (_ & Hnone & _). intros [x Hx]. congruence.
Qed.

Lemma check_mapping_spec clk fm i m :
  fo_inv fm -> fm_backups fm !! i = Some m ->
  let fm' := check_mapping clk fm i in
  fo_inv fm' /\ same_health fm fm' /\
  exists m', fm_backups fm' = <[i := m']> (fm_backups fm) /\ decided fm m m'.
Proof.
  intros Hinv Hi. unfold check_mapping. rewrite Hi.
  assert (<[i := m]> (fm_backups fm) = fm_backups fm) as Hid by by apply list_insert_id.
  destruct (proj1 (Forall_forall _ _) (inv_short fm Hinv) m (list_elem_of_lookup_2 _ _ _ Hi)) as [Hsp Hsb].
  pose proof (get_health_entry_same (clk (at_primary i)) fm (bm_primary m) Hsp Hinv) as H1.
  destruct (get_health_entry (clk (at_primary i)) fm (bm_primary m)) as [p fm1].
  destruct H1 as (Hinv1 & Hb1 & Hs1 & Hp). pose proof Hs1 as (_ & _ & _ & Hh1).
  destruct p as [k|].
  2:{ split_and!; [done|done|]. exists m. rewrite Hid. split; [done|]. apply decided_refl. right.
      intros (Hu & _). apply Hp. unfold healthy_of in Hu. unfold known.
      destruct (health_of fm (bm_primary m)); [eauto|done]. }
  destruct Hp as (h & Hk). rewrite (healthy_entry _ _ _ _ Hk), Hh1.
  destruct (negb (healthy_of fm (bm_primary m)) && negb (bm_active m)) eqn:Hcond.
  2:{ split_and!; [done|done|]. exists m. rewrite Hid. split; [done|]. apply decided_refl.
      destruct (bm_active m); [by left|]. right. intros (Hu & _). by rewrite Hu in Hcond. }
  apply andb_true_iff in Hcond as [Hu%negb_true_iff Hna%negb_true_iff].
  pose proof (get_health_entry_same (clk (at_backup i)) fm1 (bm_backup m) Hsb Hinv1) as H2.
  destruct (get_health_entry (clk (at_backup i)) fm1 (bm_backup m)) as [b fm2].
  destruct H2 as (Hinv2 & Hb2 & Hs2 & Hb). pose proof Hs2 as (_ & _ & _ & Hh2).
  assert (same_health fm fm2) as Hs12 by by etransitivity.
  assert (fm_backups fm2 = fm_backups fm) as Hb12 by congruence.
  destruct b as [k'|].
  2:{ split_and!; [done|done|]. exists m. rewrite Hid. split; [done|]. apply decided_refl. right.
      intros (_ & _ & Hkn). apply Hb. by eapply same_health_known. }
  destruct Hb as (h' & Hk'). rewrite (healthy_entry _ _ _ _ Hk'), Hh2, Hh1.
  destruct (healthy_of fm (bm_backup m)) eqn:Hbk.
  2:{ split_and!; [done|done|]. exists m. rewrite Hid. split; [done|]. apply decided_refl. right.
      intros (_ & ? & _). congruence. }
  destruct (execute_failover_spec (clk (at_execute i)) (clk (at_execute_entry i)) i m fm2)
    as (Hinv3 & Hb3 & Hs3); [done|congruence|done|].
  split_and!; [done|by etransitivity|]. exists (activate m). split.
  - rewrite Hb3, Hb12. by apply alter_insert_lookup.
  - unfold decided. rewrite Hu, Hbk. split_and!; auto.
Qed.

Lemma decided_same fm fm1 m m' : same_health fm fm1 -> decided fm1 m m' -> decided fm m m'.
Proof.
  intros Hs. pose proof Hs as (_ & _ & _ & Hh). unfold decided. rewrite !Hh.
  intros (H1 & H2 & H3 & H4 & H5). split_and!; try done.
  intros Hp Hb Hk. apply H5; [done|done|]. by eapply same_health_known.
Qed.

(** The whole loop decides every mapping on the health it started from. *)
Lemma check_mappings_spec clk fm :
  fo_inv fm ->
  let fm' := foldl (check_mapping clk) fm (seq 0 (length (fm_backups fm))) in
  fo_inv fm' /\ same_health fm fm' /\ Forall2 (decided fm) (fm_backups fm) (fm_backups fm').
Proof.
  intros Hinv. cbv zeta.
  cut (forall n k fm1, (k + n = length (fm_backups fm))%nat -> fo_inv fm1 -> same_health fm fm1 ->
         drop k (fm_backups fm1) = drop k (fm_backups fm) ->
         Forall2 (decided fm) (take k (fm_backups fm)) (take k (fm_backups fm1)) ->
         length (fm_backups fm1) = length (fm_backups fm) ->
         let fm' := foldl (check_mapping clk) fm1 (seq k n) in
         fo_inv fm' /\ same_health fm fm' /\ Forall2 (decided fm) (fm_backups fm) (fm_backups fm')).
  { intros H. by apply (H _ 0%nat fm). }
  induction n as [|n IH]; intros k fm1 Hkn Hinv1 Hs1 Hdrop Htake Hlen; cbn [seq foldl].
  { rewrite Nat.add_0_r in Hkn. subst k. rewrite <- Hlen in Htake at 2.
    rewrite !firstn_all in Htake. done. }
  destruct (lookup_lt_is_Some_2 (fm_backups fm) k) as [m Hm]; [lia|].
  assert (fm_backups fm1 !! k = Some m) as Hm1.
  { rewrite <- (Nat.add_0_r k), <- lookup_drop, Hdrop, lookup_drop. by rewrite Nat.add_0_r. }
  destruct (check_mapping_spec clk fm1 k m Hinv1 Hm1) as (Hinv2 & Hs2 & m' & Hb2 & Hdec).
  apply IH; [lia|done|by etransitivity|..].
  - rewrite Hb2, drop_insert_lt by lia.
    replace (S k) with (k + 1)%nat by lia.
    rewrite <- (drop_drop (fm_backups fm1)), Hdrop. apply drop_drop.
  - rewrite (take_S_r _ k m) by done. rewrite Hb2, (take_S_r _ k m') by (apply list_lookup_insert_eq; lia).
    rewrite take_insert_ge by lia. apply Forall2_app; [done|]. constructor; [|done].
    by eapply decided_same.
  - by rewrite Hb2, length_insert.
Qed.

Lemma decided_known fm m m' :
  decided fm m m' -> known fm (bm_backup m) ->
  bm_active m' = bm_active m || (negb (healthy_of fm (bm_primary m)) && healthy_of fm (bm_backup m)).
Proof.
  intros (_ & _ & Hst & Hsound & Hcomplete) Hk.
  destruct (bm_active m'), (bm_active m), (healthy_of fm (bm_primary m)),
    (healthy_of fm (bm_backup m)); naive_solver.
Qed.

Lemma vital_healthy fm n v : vital_of fm n = Some v -> healthy_of fm n = fst v.
Proof.
  unfold vital_of, healthy_of. destruct (health_of fm n) as [h|]; [|done]. by intros [= <-].
Qed.

(** ** The periodic process *)

(** What [failover_process] needs of the registry: station names that fit and are unique
    (see [station_names_unique]) in a table no larger than the health table. *)
Definition listing_ok (r : registry) : Prop :=
  (length (reg_devices r) <= MAX_MONITORED_RTUS)%nat /\
  NoDup (dev_station_name <$> reg_devices r) /\
  Forall (fun d => short (dev_station_name d)) (reg_devices r).

Lemma list_devices_all r :
  listing_ok r -> rtu_registry_list_devices true r (Z.of_nat MAX_MONITORED_RTUS) = (WTC_OK, Some (reg_devices r)).
Proof.
  intros (Hlen & _). unfold rtu_registry_list_devices. rewrite Z.min_l by lia.
  destruct (Z.eqb_spec (Z.of_nat (length (reg_devices r))) 0) as [H0|H0].
  - destruct (reg_devices r); [done|]. cbn in H0. lia.
  - destruct (Z.ltb_spec (Z.of_nat (length (reg_devices r))) 0); [lia|]. cbn [negb orb].
    by rewrite Nat2Z.id, firstn_all.
Qed.

Lemma list_devices_cases alloc_ok r :
  listing_ok r -> rtu_registry_list_devices alloc_ok r (Z.of_nat MAX_MONITORED_RTUS)
    = (WTC_OK, Some (reg_devices r)) \/
  rtu_registry_list_devices alloc_ok r (Z.of_nat MAX_MONITORED_RTUS) = (WTC_ERROR_NO_MEMORY, None).
Proof.
  intros Hr. destruct alloc_ok; [left; by apply list_devices_all|].
  pose proof (list_devices_all r Hr) as H. revert H. unfold rtu_registry_list_devices.
  destruct (_ =? 0); [by left|]. by right.
Qed.

(** The registry part with a listing: as the device loop, also for an empty one. *)
Lemma update_health_spec clk alloc_ok r now fm :
  listing_ok r -> fo_inv fm ->
  let fm' := update_health clk alloc_ok r now fm in
  fo_inv fm' /\ fm_config fm' = fm_config fm /\ fm_running fm' = fm_running fm /\
  (alloc_ok = true -> fm_registry fm = true ->
    (forall d v, d ∈ reg_devices r -> vital_of fm (dev_station_name d) = Some v ->
       vital_of fm' (dev_station_name d) = Some (next_vital (fm_config fm) now d v)) /\
    Forall2 (mapping_after (fm_config fm) (reg_devices r) fm) (fm_backups fm) (fm_backups fm')).
Proof.
  intros Hr Hinv. pose proof Hr as (Hlen & Hnd & Hs). unfold update_health.
  destruct (fm_registry fm); [|by split_and!].
  assert (alloc_ok = true -> rtu_registry_list_devices alloc_ok r (Z.of_nat MAX_MONITORED_RTUS)
            = (WTC_OK, Some (reg_devices r))) as Hall by (intros ->; by apply list_devices_all).
  destruct (list_devices_cases alloc_ok r Hr) as [Hl|Hl]; rewrite Hl.
  2:{ split_and!; try done. intros Ha. specialize (Hall Ha). congruence. }
  destruct (reg_devices r) as [|d devices].
  - destruct (check_devices_spec clk now 0 [] fm) as (H1 & H2 & H3 & H4 & H5 & H6); done.
  - set (fm1 := fm <| fm_status ::= _ |>).
    destruct (check_devices_spec clk now 0 (d :: devices) fm1) as (H1 & H2 & H3 & _ & H5 & H6);
      [done|done|by apply (fo_inv_ext fm)|]. done.
Qed.

(** C32: One period of [failover_process] with both stations of a mapping known: the mapping
    is active afterwards exactly if it was and its primary was not restored, or if
    failover is automatic, the primary is down (not RUNNING, and without a
    heartbeat for the timeout) and the backup is not.  This holds whatever
    [fc_max_retries] is: the code never reads the number of reconnection attempts that
    the configuration documents. *)
Theorem failover_decision clk r fm j m dp db vp vb :
  fo_inv fm -> listing_ok r -> fm_running fm = true -> fm_registry fm = true ->
  fm_backups fm !! j = Some m ->
  dp ∈ reg_devices r -> dev_station_name dp = bm_primary m -> vital_of fm (bm_primary m) = Some vp ->
  db ∈ reg_devices r -> dev_station_name db = bm_backup m -> vital_of fm (bm_backup m) = Some vb ->
  let c := fm_config fm in
  let now := clk at_start in
  exists fm' m', failover_process clk true r fm = (WTC_OK, fm') /\
  fm_backups fm' !! j = Some m' /\ bm_primary m' = bm_primary m /\ bm_backup m' = bm_backup m /\
  bm_active m' =
    (bm_active m && negb (restores c dp)) ||
    (bool_decide (fc_mode c <> FAILOVER_MODE_MANUAL) &&
     negb (fst (next_vital c now dp vp)) && fst (next_vital c now db vb)).
Proof.
  intros Hinv Hr Hrun Hreg Hj Hdp Hnp Hvp Hdb Hnb Hvb c now. unfold failover_process. rewrite Hrun.
  cbn [negb]. fold now.
  destruct (update_health_spec clk true r now fm Hr Hinv) as (Hinv1 & Hc1 & Hr1 & H).
  destruct (H eq_refl Hreg) as (Hv1 & Hb1). set (fm1 := update_health clk true r now fm) in *.
  destruct (Forall2_lookup_l _ _ _ _ _ Hb1 Hj) as (m1 & Hj1 & Hp1 & Hk1 & _ & Hact1 & _).
  specialize (Hact1 dp Hdp Hnp (vital_known _ _ _ Hvp)).
  rewrite <- Hnp in Hvp. rewrite <- Hnb in Hvb.
  pose proof (Hv1 dp vp Hdp Hvp) as Hvp1. pose proof (Hv1 db vb Hdb Hvb) as Hvb1.
  rewrite Hnp, <- Hp1 in Hvp1. rewrite Hnb, <- Hk1 in Hvb1.
  rewrite Hc1. destruct (decide (fc_mode (fm_config fm) = FAILOVER_MODE_MANUAL)) as [Hman|Hman].
  - eexists _, m1. split_and!; [reflexivity|done|done|done|]. unfold c.
    rewrite (bool_decide_eq_false_2 (fc_mode (fm_config fm) <> FAILOVER_MODE_MANUAL)) by tauto.
    cbn [andb]. by rewrite orb_false_r.
  - destruct (check_mappings_spec clk fm1 Hinv1) as (_ & _ & Hb2).
    destruct (Forall2_lookup_l _ _ _ _ _ Hb2 Hj1) as (m2 & Hj2 & Hd2).
    pose proof Hd2 as (Hp2 & Hk2 & _).
    eexists _, m2. split_and!; [reflexivity|done|congruence|congruence|]. unfold c.
    rewrite (bool_decide_eq_true_2 (fc_mode (fm_config fm) <> FAILOVER_MODE_MANUAL)) by done.
    rewrite (decided_known fm1 m1 m2 Hd2 (vital_known _ _ _ Hvb1)), Hact1.
    by rewrite (vital_healthy _ _ _ Hvp1), (vital_healthy _ _ _ Hvb1).
Qed.

(** ** Every run keeps the invariant *)

Inductive fo_op :=
| FoStart (now : Z) | FoStop
| FoSetRegistry (b : bool) | FoSetCallback (b : bool)
| FoSetBackup (primary backup : string) | FoRemoveBackup (primary : string)
| FoRestore (now : Z) (station : string) | FoForce (now now' : Z) (station : string)
| FoProcess (clk : reading -> Z) (alloc_ok : bool) (r : registry).

Definition fo_exec (fm : failover_manager) (op : fo_op) : failover_manager :=
  match op with
  | FoStart now => snd (failover_start now fm)
  | FoStop => snd (failover_stop fm)
  | FoSetRegistry b => snd (failover_set_registry fm b)
  | FoSetCallback b => snd (failover_set_callback fm b)
  | FoSetBackup p b => snd (failover_set_backup fm p b)
  | FoRemoveBackup p => snd (failover_remove_backup fm p)
  | FoRestore now st => snd (failover_restore now fm st)
  | FoForce now now' st => snd (failover_force now now' fm st)
  | FoProcess clk alloc_ok r => snd (failover_process clk alloc_ok r fm)
  end.

(** Station names given to the manager fit their arrays, and registries are well formed. *)
Definition fo_op_ok (op : fo_op) : Prop :=
  match op with
  | FoSetBackup p _ => short p
  | FoRestore _ st => short st
  | FoProcess _ _ r => listing_ok r
  | _ => True
  end.

Lemma fo_inv_set_backup fm p b :
  short p -> fo_inv fm -> fo_inv (snd (failover_set_backup fm p b)).
Proof.
  intros Hp [H1 H2 H3 H4 H5]. unfold failover_set_backup.
  destruct (find_update _ _ _) as [l|] eqn:E; cbn [snd].
  - apply find_update_Some in E as (l1 & x & l2 & Hl & Hx & _ & ->). rewrite Hl in *.
    apply Forall_middle in H4 as (? & [? ?] & ?).
    constructor; cbn [fm_backups fm_health set eta_failover_manager]; try done.
    + rewrite fmap_app, fmap_cons in *. done.
    + rewrite length_app in *. done.
    + apply Forall_middle. split_and!; [done|done|cbn; auto with wtc|done].
    + intros m [Hm|[->|Hm]%elem_of_cons]%elem_of_app Ha; [apply H5; set_solver| |apply H5; set_solver].
      apply (H5 x); [set_solver|done].
  - destruct (Nat.leb_spec MAX_MONITORED_RTUS (length (fm_backups fm))); [by constructor|].
    apply find_update_None in E. rewrite strncpy_short by done.
    constructor; cbn [snd fm_backups fm_health set eta_failover_manager]; try done.
    + rewrite fmap_app. apply NoDup_app. split_and!; [done| |apply NoDup_singleton].
      intros n (m & -> & Hm)%list_elem_of_fmap Hn%list_elem_of_singleton.
      rewrite Forall_forall in E. by apply (E m Hm).
    + rewrite length_app. cbn. lia.
    + apply Forall_app. split; [done|]. apply Forall_singleton. cbn. auto with wtc.
    + intros m [Hm|Hm%list_elem_of_singleton]%elem_of_app Ha; [by apply H5|]. by subst m.
Qed.

Lemma fo_inv_remove_backup fm p : fo_inv fm -> fo_inv (snd (failover_remove_backup fm p)).
Proof.
  intros [H1 H2 H3 H4 H5]. unfold failover_remove_backup.
  destruct (find_remove _ _) as [l|] eqn:E; [|by constructor].
  apply find_remove_Some in E as (l1 & x & l2 & Hl & _ & _ & ->). rewrite Hl in *.
  apply Forall_middle in H4 as (? & _ & ?).
  constructor; cbn [snd fm_backups fm_health set eta_failover_manager]; try done.
  - rewrite fmap_app in *. rewrite fmap_cons in H1. apply NoDup_app in H1 as (? & ? & [? ?]%NoDup_cons).
    apply NoDup_app. set_solver.
  - rewrite length_app in *. cbn in H2. lia.
  - by apply Forall_app.
  - intros m Hm Ha. apply H5; [set_solver|done].
Qed.

Lemma fo_inv_force now now' fm st : fo_inv fm -> fo_inv (snd (failover_force now now' fm st)).
Proof.
  intros Hinv. unfold failover_force. destruct (list_find _ _) as [[i m]|] eqn:E; [|done].
  apply list_find_Some in E as (Hi & _). cbn [snd]. destruct (bm_active m) eqn:Ha.
  - unfold execute_failover. by rewrite Ha.
  - by apply execute_failover_spec.
Qed.

Lemma fo_inv_process clk alloc_ok r fm :
  listing_ok r -> fo_inv fm -> fo_inv (snd (failover_process clk alloc_ok r fm)).
Proof.
  intros Hr Hinv. unfold failover_process. destruct (negb (fm_running fm)); [done|]. cbn [snd].
  destruct (update_health_spec clk alloc_ok r (clk at_start) fm Hr Hinv) as (Hinv1 & _).
  match goal with |- fo_inv (set _ _ ?x) => apply (fo_inv_ext x); [done|done|] end.
  case_decide; [done|]. by apply check_mappings_spec.
Qed.

Lemma fo_inv_init config fm : failover_init true config = (WTC_OK, Some fm) -> fo_inv fm.
Proof.
  intros [= <-]. constructor; cbn; try (constructor; fail); try lia. intros m Hm. inversion Hm.
Qed.

Lemma fo_inv_run ops fm : fo_inv fm -> Forall fo_op_ok ops -> fo_inv (foldl fo_exec fm ops).
Proof.
  intros Hinv Hops. revert fm Hinv.
  induction Hops as [|op ops Hop _ IH]; intros fm Hinv; [done|]. cbn [foldl]. apply IH.
  destruct op; cbn [fo_exec fo_op_ok] in *.
  1-4: by apply (fo_inv_ext fm).
  - by apply fo_inv_set_backup.
  - by apply fo_inv_remove_backup.
  - by apply failover_restore_spec.
  - by apply fo_inv_force.
  - by apply fo_inv_process.
Qed.

(** Whatever the manager is asked to do, its tables stay within their arrays, a
    primary has at most one mapping, and the health entry of a station whose mapping is
    active says so. *)
Theorem failover_invariant (ops : list fo_op) config fm :
  failover_init true config = (WTC_OK, Some fm) -> Forall fo_op_ok ops ->
  fo_inv (foldl fo_exec fm ops).
Proof.
  intros Hinit Hops. apply fo_inv_run; [by eapply fo_inv_init|done].
Qed.

(** ** Scenarios *)

Module FailoverDemo.

Definition ok (_ : nat) : bool := true.
Definition config : failover_config := mk_failover_config FAILOVER_MODE_AUTO 1000 5000 3.
Definition at_time (t : Z) : reading -> Z := fun _ => t.

(** A pump station and its spare, each with a connection state. *)
Definition plant (pump spare : profinet_state) : registry :=
  let r := rtu_registry_init false false false in
  let '(_, r, _) := rtu_registry_add_device ok 0 r "pump-1" None None 0 in
  let '(_, r, _) := rtu_registry_add_device ok 0 r "pump-2" None None 0 in
  let '(_, r, _) := rtu_registry_set_device_state 0 r "pump-1" pump in
  let '(_, r, _) := rtu_registry_set_device_state 0 r "pump-2" spare in
  r.

Definition manager (ops : list fo_op) : failover_manager :=
  match failover_init true config with
  | (_, Some fm) => foldl fo_exec fm ([FoStart 0; FoSetRegistry true; FoSetCallback true] ++ ops)
  | (_, None) => mk_failover_manager config false false [] [] (mk_failover_status 0 0 0 0 "") false 0 []
  end.

(** Both stations seen running at 1 s. *)
Definition seen : list fo_op :=
  [FoSetBackup "pump-1" "pump-2";
   FoProcess (at_time 1000) true (plant PROFINET_STATE_RUNNING PROFINET_STATE_RUNNING)].

(** The pump is lost at 6 s, taken over, and restored when it is back. *)
Definition lost_and_back : list fo_op :=
  seen ++ [FoProcess (at_time 6000) true (plant PROFINET_STATE_ERROR PROFINET_STATE_RUNNING);
           FoProcess (at_time 7000) true (plant PROFINET_STATE_RUNNING PROFINET_STATE_RUNNING)].

Theorem takeover_and_return :
  fm_trace (manager lost_and_back) = [("pump-1", "pump-2", true); ("pump-1", "pump-2", false)]%string.
Proof. vm_compute. reflexivity. Qed.

(** A backup station that is not in the registry counts as healthy: the failover goes
    to a station that does not exist. *)
Theorem failover_to_missing_backup :
  let r := plant PROFINET_STATE_ERROR PROFINET_STATE_RUNNING in
  let fm := manager [FoSetBackup "pump-1" "pump-9"; FoProcess (at_time 0) true r;
                     FoProcess (at_time 9000) true r] in
  find_device_locked r "pump-9" = None /\
  fm_trace fm = [("pump-1", "pump-9", true)]%string /\
  failover_get_health fm "pump-9" = (WTC_OK, Some (fresh_health 9000 "pump-9")).
Proof. vm_compute. auto. Qed.

(** Removing the mapping of a station in failover leaves the station in failover for good:
    it cannot be restored, not even by coming back. *)
Theorem removed_mapping_stays_in_failover :
  let fm := manager (seen ++
    [FoProcess (at_time 6000) true (plant PROFINET_STATE_ERROR PROFINET_STATE_RUNNING);
     FoRemoveBackup "pump-1";
     FoProcess (at_time 7000) true (plant PROFINET_STATE_RUNNING PROFINET_STATE_RUNNING)]) in
  fst (failover_restore 8000 fm "pump-1") = WTC_ERROR_NOT_FOUND /\
  rh_in_failover <$> snd (failover_get_health fm "pump-1") = Some true /\
  fs_in_failover_count (snd (failover_get_status fm)) = 1.
Proof. vm_compute. auto. Qed.

Lemma plant_ok a b : listing_ok (plant a b).
Proof.
  assert (dev_station_name <$> reg_devices (plant a b) = ["pump-1"; "pump-2"]%string) as Hn
    by (destruct a, b; reflexivity).
  split_and!.
  - rewrite <- (length_fmap dev_station_name), Hn. vm_compute. lia.
  - rewrite Hn. by repeat (apply NoDup_cons; split; [set_solver|]); apply NoDup_nil.
  - apply (Forall_fmap dev_station_name short). rewrite Hn.
    repeat (constructor; [vm_compute; lia|]). constructor.
Qed.

Lemma failover_invariant_witness : fo_inv (manager lost_and_back).
Proof.
  refine (failover_invariant _ config _ _ _); [reflexivity|].
  repeat (constructor; [first [exact I | apply plant_ok | vm_compute; lia]|]). constructor.
Defined.

Lemma failover_decision_witness :
  exists fm' m', failover_process (at_time 6000) true
    (plant PROFINET_STATE_ERROR PROFINET_STATE_RUNNING) (manager seen) = (WTC_OK, fm') /\
  fm_backups fm' !! 0%nat = Some m' /\ bm_active m' = true.
Proof.
  pose (d := fun k => default (mk_rtu_device 0 "" "" 0 0 PROFINET_STATE_ERROR 0 [] 0 [] 0 [] 0 f0 false)
    (reg_devices (plant PROFINET_STATE_ERROR PROFINET_STATE_RUNNING) !! k)).
  destruct (failover_decision (at_time 6000) (plant PROFINET_STATE_ERROR PROFINET_STATE_RUNNING)
    (manager seen) 0 (mk_backup_mapping "pump-1" "pump-2" false) (d 0%nat) (d 1%nat)
    (true, 1000) (true, 1000)) as (fm' & m' & H1 & H2 & _ & _ & H3).
  - refine (fo_inv_run _ _ (fo_inv_init config _ eq_refl) _).
    repeat (constructor; [first [exact I | apply plant_ok | vm_compute; lia]|]). constructor.
  - apply plant_ok.
  - reflexivity.
  - reflexivity.
  - reflexivity.
  - apply (list_elem_of_lookup_2 _ 0). reflexivity.
  - reflexivity.
  - reflexivity.
  - apply (list_elem_of_lookup_2 _ 1). reflexivity.
  - reflexivity.
  - reflexivity.
  - exists fm', m'. split; [exact H1|]. split; [exact H2|]. rewrite H3. reflexivity.
Defined.
End FailoverDemo.
