(* ===== verification/AlarmRules.v ===== *)
(** * The stand-alone alarm rule evaluator

    Model of [src/alarms/alarm_rules.c]: a table of rules, each with the start of the
    current condition, the last value and whether it is in alarm.  [alarm_rule] and
    [alarm_condition] are those of the alarm manager. *)

From S2P Require Import Prelude Float32 Types AlarmManager.

(** [rule_state_t] *)
Record rule_state := mk_rule_state {
  rs_rule : alarm_rule;
  rs_condition_start_ms : Z;
  rs_last_value : float32;
  rs_in_alarm : bool }.

(** [struct alarm_rules_engine] *)
Record alarm_rules_engine := mk_alarm_rules_engine {
  re_rules : list rule_state;
  re_max_rules : Z }.

#[export] Instance eta_rule_state : Eta rule_state := fun r =>
  mk_rule_state (rs_rule r) (rs_condition_start_ms r) (rs_last_value r) (rs_in_alarm r).
#[export] Instance eta_alarm_rules_engine : Eta alarm_rules_engine := fun r =>
  mk_alarm_rules_engine (re_rules r) (re_max_rules r).

Definition rs_id (s : rule_state) : Z := ar_rule_id (rs_rule s).

Definition has_rule_id (id : Z) (s : rule_state) : Prop := rs_id s = id.
#[export] Instance has_rule_id_dec id s : Decision (has_rule_id id s).
Proof. unfold has_rule_id. apply _. Defined.

Definition alarm_rules_init (alloc_ok : bool) (max_rules : Z)
    : wtc_result * option alarm_rules_engine :=
  if max_rules <=? 0 then (WTC_ERROR_INVALID_PARAM, None)
  else if negb alloc_ok then (WTC_ERROR_NO_MEMORY, None)
  else (WTC_OK, Some (mk_alarm_rules_engine [] max_rules)).

Definition alarm_rules_add (e : alarm_rules_engine) (rule : alarm_rule)
    : wtc_result * alarm_rules_engine :=
  match find_update (has_rule_id (ar_rule_id rule)) (fun s => s <| rs_rule := rule |>) (re_rules e) with
  | Some l => (WTC_OK, e <| re_rules := l |>)
  | None =>
      if re_max_rules e <=? Z.of_nat (length (re_rules e)) then (WTC_ERROR_FULL, e)
      else (WTC_OK, e <| re_rules ::= fun l => l ++ [mk_rule_state rule 0 f0 false] |>)
  end.

Definition alarm_rules_remove (e : alarm_rules_engine) (rule_id : Z)
    : wtc_result * alarm_rules_engine :=
  match find_remove (has_rule_id rule_id) (re_rules e) with
  | Some l => (WTC_OK, e <| re_rules := l |>)
  | None => (WTC_ERROR_NOT_FOUND, e)
  end.

Definition alarm_rules_get (e : alarm_rules_engine) (rule_id : Z) : wtc_result * option alarm_rule :=
  match find_entry (has_rule_id rule_id) (re_rules e) with
  | Some s => (WTC_OK, Some (rs_rule s))
  | None => (WTC_ERROR_NOT_FOUND, None)
  end.

Definition alarm_rules_enable (e : alarm_rules_engine) (rule_id : Z) (enabled : bool)
    : wtc_result * alarm_rules_engine :=
  match find_update (has_rule_id rule_id)
          (fun s => s <| rs_rule ::= fun r => r <| ar_enabled := enabled |> |>) (re_rules e) with
  | Some l => (WTC_OK, e <| re_rules := l |>)
  | None => (WTC_ERROR_NOT_FOUND, e)
  end.

Definition alarm_rules_check_condition (condition : alarm_condition) (value threshold last_value : float32)
    : bool :=
  match condition with
  | ALARM_CONDITION_HIGH | ALARM_CONDITION_HIGH_HIGH => fgt value threshold
  | ALARM_CONDITION_LOW | ALARM_CONDITION_LOW_LOW => flt value threshold
  | ALARM_CONDITION_RATE_OF_CHANGE => fgt (fabsf (fsub value last_value)) threshold
  | ALARM_CONDITION_DEVIATION =>
      fgt (fabsf (fsub value threshold)) (fmul threshold (f32_lit 1 10))
  | ALARM_CONDITION_BAD_QUALITY => false
  end.

(** The body of [alarm_rules_evaluate] for the rule found: new state and [*triggered]. *)
Definition evaluate_rule (s : rule_state) (value : float32) (t : Z) : rule_state * bool :=
  let rule := rs_rule s in
  if negb (ar_enabled rule) then
    (s <| rs_condition_start_ms := 0 |> <| rs_in_alarm := false |>, false)
  else
    let condition_met := alarm_rules_check_condition (ar_condition rule) value
                           (ar_threshold rule) (rs_last_value s) in
    let s := s <| rs_last_value := value |> in
    if condition_met then
      let s := if rs_condition_start_ms s =? 0 then s <| rs_condition_start_ms := t |> else s in
      let elapsed := u64_sub t (rs_condition_start_ms s) in
      if (ar_delay_ms rule <=? elapsed) && negb (rs_in_alarm s)
      then (s <| rs_in_alarm := true |>, true)
      else (s, false)
    else (s <| rs_condition_start_ms := 0 |> <| rs_in_alarm := false |>, false).

Definition alarm_rules_evaluate (e : alarm_rules_engine) (rule_id : Z) (value : float32) (t : Z)
    : wtc_result * alarm_rules_engine * bool :=
  match list_find (has_rule_id rule_id) (re_rules e) with
  | Some (i, s) =>
      let '(s', triggered) := evaluate_rule s value t in
      (WTC_OK, e <| re_rules ::= <[i := s']> |>, triggered)
  | None => (WTC_ERROR_NOT_FOUND, e, false)
  end.

(** Whether a rule watches the point. *)
Definition watches (rtu_station : string) (slot : Z) (s : rule_state) : bool :=
  bool_decide (ar_rtu_station (rs_rule s) = rtu_station) && (ar_slot (rs_rule s) =? slot).

(** Iteration [i] of [alarm_rules_evaluate_point], with the ids reported so far. *)
Definition evaluate_point_step (rtu_station : string) (slot : Z) (value : float32) (t max_triggered : Z)
    (acc : alarm_rules_engine * list Z) (i : nat) : alarm_rules_engine * list Z :=
  let '(e, ids) := acc in
  match re_rules e !! i with
  | None => acc
  | Some s =>
      if negb (watches rtu_station slot s) then acc
      else
        let '(result, e, triggered) := alarm_rules_evaluate e (rs_id s) value t in
        if bool_decide (result = WTC_OK) && triggered && (Z.of_nat (length ids) <? max_triggered)
        then (e, ids ++ [rs_id s]) else (e, ids)
  end.

Definition alarm_rules_evaluate_point (e : alarm_rules_engine) (rtu_station : string) (slot : Z)
    (value : float32) (t max_triggered : Z) : alarm_rules_engine * list Z :=
  foldl (evaluate_point_step rtu_station slot value t max_triggered) (e, [])
    (seq 0 (length (re_rules e))).

Definition alarm_rules_list (alloc_ok : bool) (e : alarm_rules_engine) (max_count : Z)
    : wtc_result * option (list alarm_rule) :=
  let copy_count := Z.min (Z.of_nat (length (re_rules e))) max_count in
  if negb alloc_ok || (copy_count <? 0) then (WTC_ERROR_NO_MEMORY, None)
  else (WTC_OK, Some (rs_rule <$> take (Z.to_nat copy_count) (re_rules e))).

Definition alarm_rules_count (e : alarm_rules_engine) : Z := Z.of_nat (length (re_rules e)).

(** ** One rule over time

    A history lists, oldest first, whether the condition was met at each evaluation and
    when.  [stretch h] is the start of the stretch of met evaluations at its end. *)

Definition stretch_step (start : option Z) (x : bool * Z) : option Z :=
  let '(met, t) := x in
  if met then Some (default t start) else None.

Definition stretch (h : list (bool * Z)) : option Z := foldl stretch_step None h.

(** The condition has been met for the delay at the end of [h]. *)
Definition due (delay : Z) (h : list (bool * Z)) : bool :=
  match stretch h, last h with
  | Some start, Some (_, t) => delay <=? t - start
  | _, _ => false
  end.

(** Timestamps: positive (0 is the mark for "no condition"), within range, in order. *)
Fixpoint clocked (t0 : Z) (ts : list Z) : Prop :=
  match ts with
  | [] => True
  | t :: ts => 0 < t /\ t0 <= t < 2 ^ 64 /\ clocked t ts
  end.

(** Evaluations of one rule, in order: the state after them and what they triggered. *)
Fixpoint evaluations (s : rule_state) (inputs : list (float32 * Z)) : list bool :=
  match inputs with
  | [] => []
  | (v, t) :: inputs =>
      let '(s', triggered) := evaluate_rule s v t in triggered :: evaluations s' inputs
  end.

(** Whether the condition was met at each input. *)
Fixpoint conditions (rule : alarm_rule) (last_value : float32) (inputs : list (float32 * Z))
    : list (bool * Z) :=
  match inputs with
  | [] => []
  | (v, t) :: inputs =>
      (alarm_rules_check_condition (ar_condition rule) v (ar_threshold rule) last_value, t)
      :: conditions rule v inputs
  end.

Lemma stretch_snoc h x : stretch (h ++ [x]) = stretch_step (stretch h) x.
Proof. unfold stretch. by rewrite foldl_app. Qed.

(** The state of an enabled rule says which stretch it is in and whether that is due. *)
Definition tracks (h : list (bool * Z)) (t0 : Z) (s : rule_state) : Prop :=
  rs_condition_start_ms s = default 0 (stretch h) /\
  rs_in_alarm s = due (ar_delay_ms (rs_rule s)) h /\
  (forall start, stretch h = Some start -> 0 < start <= t0) /\
  (forall x, last h = Some x -> snd x <= t0).

Lemma due_snoc delay h met t :
  due delay (h ++ [(met, t)])
  = met && (delay <=? t - default t (stretch h)).
Proof. unfold due. rewrite stretch_snoc, last_snoc. by destruct met. Qed.

(** A stretch that was due stays due as time goes on. *)
Lemma due_later delay h t0 t start :
  due delay h = true -> stretch h = Some start -> (forall x, last h = Some x -> snd x <= t0) ->
  t0 <= t -> delay <=? t - start = true.
Proof.
  unfold due. intros Hd Hs Hl Ht. rewrite Hs in Hd. destruct (last h) as [[b tl]|]; [|done].
  specialize (Hl _ eq_refl). cbn in Hl. apply Z.leb_le in Hd. apply Z.leb_le. lia.
Qed.

Lemma evaluate_rule_tracks h t0 s v t :
  ar_enabled (rs_rule s) = true -> tracks h t0 s -> 0 < t -> t0 <= t < 2 ^ 64 ->
  let met := alarm_rules_check_condition (ar_condition (rs_rule s)) v (ar_threshold (rs_rule s))
               (rs_last_value s) in
  let '(s', triggered) := evaluate_rule s v t in
  let h' := h ++ [(met, t)] in
  tracks h' t s' /\ rs_rule s' = rs_rule s /\ rs_last_value s' = v /\
  triggered = due (ar_delay_ms (rs_rule s)) h' && negb (due (ar_delay_ms (rs_rule s)) h).
Proof.
  intros Hen (Hst & Hal & Hpos & Hlast) Ht Hrange met. unfold evaluate_rule. rewrite Hen. cbn [negb].
  fold met. destruct met eqn:Hmet.
  2:{ split_and!; try done; [|by rewrite due_snoc]. unfold tracks. rewrite stretch_snoc.
      split_and!; cbn; [done|by rewrite due_snoc|done|].
      rewrite last_snoc. intros x [= <-]. cbn. lia. }
  set (start := default t (stretch h)).
  assert (0 < start <= t) as Hstart.
  { unfold start. destruct (stretch h) as [st|]; cbn; [|lia]. specialize (Hpos st eq_refl). lia. }
  set (s1 := if _ =? 0 then _ else _).
  assert (s1 = s <| rs_last_value := v |> <| rs_condition_start_ms := start |>) as ->.
  { unfold s1, start. cbn. rewrite Hst. destruct (stretch h) as [st|]; cbn; [|done].
    specialize (Hpos st eq_refl). destruct (Z.eqb_spec st 0); [lia|]. destruct s; cbn in *. by subst. }
  cbn [rs_condition_start_ms rs_in_alarm set eta_rule_state].
  rewrite u64_sub_le by (unfold is_u64; lia). rewrite Hal, due_snoc. cbn [andb].
  fold start. set (delay := ar_delay_ms (rs_rule s)).
  assert (due delay h = true -> delay <=? t - start = true) as Hmono.
  { intros Hd. unfold start. destruct (stretch h) as [st|] eqn:E; [|unfold due in Hd; by rewrite E in Hd].
    cbn. eapply due_later; eauto. lia. }
  destruct (delay <=? t - start) eqn:Hdue; cbn [andb].
  - destruct (due delay h) eqn:Hd; cbn [negb]; (split_and!; try done); unfold tracks;
      rewrite stretch_snoc; cbn; fold start delay; rewrite ?due_snoc; cbn; fold start;
      rewrite ?Hal, ?Hdue; (split_and!; try done);
      rewrite ?last_snoc; intros x [= <-]; cbn; lia.
  - destruct (due delay h) eqn:Hd; [by specialize (Hmono eq_refl)|].
    split_and!; try done. unfold tracks. rewrite stretch_snoc. cbn. fold start delay.
    rewrite due_snoc. cbn. fold start. rewrite ?Hal, ?Hdue.
    split_and!; try done; rewrite ?last_snoc; intros x [= <-]; cbn; lia.
Qed.

Lemma evaluations_tracks h t0 s inputs :
  ar_enabled (rs_rule s) = true -> tracks h t0 s -> clocked t0 (snd <$> inputs) ->
  let h' := conditions (rs_rule s) (rs_last_value s) inputs in
  let d k := due (ar_delay_ms (rs_rule s)) (h ++ take k h') in
  evaluations s inputs = (fun k => d (S k) && negb (d k)) <$> seq 0 (length inputs).
Proof.
  revert h t0 s. induction inputs as [|[v t] inputs IH]; intros h t0 s Hen Htr Hc; [done|].
  destruct Hc as (Hpos & Hrange & Hc). cbv zeta.
  cbn [evaluations conditions length seq].
  pose proof (evaluate_rule_tracks h t0 s v t Hen Htr Hpos ltac:(cbn in *; lia)) as Hstep.
  set (met := alarm_rules_check_condition _ _ _ _) in *.
  destruct (evaluate_rule s v t) as [s' triggered].
  destruct Hstep as (Htr' & Hrule & Hlv & ->). rewrite fmap_cons, <- fmap_S_seq, <- list_fmap_compose.
  f_equal; [by rewrite take_0, app_nil_r|].
  rewrite (IH (h ++ [(met, t)]) t s'); [|by rewrite Hrule|done|done]. rewrite Hrule, Hlv.
  apply list_fmap_ext. intros i k _. cbn. by rewrite <- !app_assoc.
Qed.

(** C39: A rule triggers exactly when its condition becomes due: at the first evaluation at
    which the condition has been met without a break for at least the delay, and never
    again within the same stretch. *)
Theorem rule_triggers_on_due_edge rule inputs :
  ar_enabled rule = true -> clocked 0 (snd <$> inputs) ->
  let h := conditions rule f0 inputs in
  evaluations (mk_rule_state rule 0 f0 false) inputs
  = (fun k => due (ar_delay_ms rule) (take (S k) h) && negb (due (ar_delay_ms rule) (take k h)))
      <$> seq 0 (length inputs).
Proof.
  intros Hen Hc. by apply (evaluations_tracks [] 0 (mk_rule_state rule 0 f0 false)).
Qed.

(** ** The table *)

Definition rules_inv (e : alarm_rules_engine) : Prop :=
  NoDup (rs_id <$> re_rules e) /\ Z.of_nat (length (re_rules e)) <= re_max_rules e.

Lemma evaluate_rule_id s v t : rs_rule (fst (evaluate_rule s v t)) = rs_rule s.
Proof.
  unfold evaluate_rule. destruct (negb _); [done|].
  destruct (alarm_rules_check_condition _ _ _ _); [|done].
  cbn. destruct (rs_condition_start_ms s =? 0); cbn; by destruct (_ && _).
Qed.

(** What one call of [alarm_rules_evaluate_point] does to a rule. *)
Definition evaluate_watched (st : string) (slot : Z) (v : float32) (t : Z) (s : rule_state)
    : rule_state * bool :=
  if watches st slot s then evaluate_rule s v t else (s, false).

(** The ids of the rules that trigger, in table order. *)
Definition triggered_ids (st : string) (slot : Z) (v : float32) (t : Z) (l : list rule_state) : list Z :=
  rs_id <$> filter (fun s => snd (evaluate_watched st slot v t s) = true) l.

Lemma triggered_ids_snoc st slot v t mx l s :
  (if snd (evaluate_watched st slot v t s) &&
      (Z.of_nat (length (take (Z.to_nat mx) (triggered_ids st slot v t l))) <? mx)
   then take (Z.to_nat mx) (triggered_ids st slot v t l) ++ [rs_id s]
   else take (Z.to_nat mx) (triggered_ids st slot v t l))
  = take (Z.to_nat mx) (triggered_ids st slot v t (l ++ [s])).
Proof.
  unfold triggered_ids. rewrite filter_app, fmap_app. set (ids := rs_id <$> _).
  rewrite filter_cons. destruct (snd (evaluate_watched st slot v t s)) eqn:E.
  - rewrite decide_True by done. rewrite filter_nil, fmap_cons, fmap_nil, length_take. cbn [andb].
    destruct (Z.ltb_spec (Z.of_nat (Z.to_nat mx `min` length ids)) mx) as [Hlt|Hge].
    + rewrite take_app_ge by lia. rewrite (take_ge ids) by lia.
      by rewrite (take_ge [rs_id s]) by (cbn; lia).
    + by rewrite take_app_le by lia.
  - rewrite decide_False by done. by rewrite filter_nil, fmap_nil, app_nil_r.
Qed.

Lemma evaluate_point_step_spec st slot v t mx e done_ s todo ids :
  NoDup (rs_id <$> re_rules e) -> re_rules e = done_ ++ s :: todo ->
  evaluate_point_step st slot v t mx (e, ids) (length done_)
  = (e <| re_rules := done_ ++ fst (evaluate_watched st slot v t s) :: todo |>,
     if snd (evaluate_watched st slot v t s) && (Z.of_nat (length ids) <? mx)
     then ids ++ [rs_id s] else ids).
Proof.
  intros Hnd Hl. unfold evaluate_point_step, evaluate_watched. rewrite Hl, list_lookup_middle by done.
  destruct (watches st slot s); cbn [negb fst snd andb].
  2:{ f_equal. destruct e; cbn in *. by rewrite Hl. }
  unfold alarm_rules_evaluate.
  assert (list_find (has_rule_id (rs_id s)) (re_rules e) = Some (length done_, s)) as ->.
  { rewrite Hl. apply list_find_Some. split_and!; [by apply list_lookup_middle|done|].
    intros j y Hj Hlt Hy. rewrite Hl, fmap_app, fmap_cons in Hnd.
    apply NoDup_app in Hnd as (_ & Hd & _). apply (Hd (rs_id s)); [|set_solver].
    rewrite lookup_app_l in Hj by done. apply list_elem_of_lookup_2 in Hj.
    unfold has_rule_id in Hy. rewrite <- Hy. by apply list_elem_of_fmap_2. }
  destruct (evaluate_rule s v t) as [s' b]. cbn [fst snd].
  rewrite bool_decide_eq_true_2 by done. cbn [andb].
  assert (e <| re_rules ::= <[length done_:=s']> |> = e <| re_rules := done_ ++ s' :: todo |>) as ->.
  { unfold set; cbn. rewrite Hl. by rewrite insert_app_r_alt, Nat.sub_diag by lia. }
  by destruct (b && _).
Qed.

(** Evaluating a point evaluates each rule that watches it exactly once and no other
    rule, and reports the rules that trigger, in table order, up to the number asked for. *)
Theorem evaluate_point_each_once e st slot v t mx :
  rules_inv e ->
  let '(e', ids) := alarm_rules_evaluate_point e st slot v t mx in
  re_rules e' = (fun s => fst (evaluate_watched st slot v t s)) <$> re_rules e /\
  ids = take (Z.to_nat mx) (triggered_ids st slot v t (re_rules e)) /\ rules_inv e'.
Proof.
  intros [Hnd Hlen]. unfold alarm_rules_evaluate_point.
  set (f := fun s => fst (evaluate_watched st slot v t s)).
  assert (forall s, rs_id (f s) = rs_id s) as Hid.
  { intros s. unfold f, evaluate_watched. destruct (watches st slot s); [|done].
    unfold rs_id. by rewrite evaluate_rule_id. }
  assert (forall l : list rule_state, rs_id <$> (f <$> l) = rs_id <$> l) as Hids.
  { intros l. rewrite <- list_fmap_compose. apply list_fmap_ext. intros i x _. apply Hid. }
  cut (forall (todo done_ : list rule_state) e1 ids, re_rules e1 = (f <$> done_) ++ todo -> re_rules e = done_ ++ todo ->
         re_max_rules e1 = re_max_rules e ->
         ids = take (Z.to_nat mx) (triggered_ids st slot v t done_) ->
         let '(e', ids') := foldl (evaluate_point_step st slot v t mx) (e1, ids)
                              (seq (length done_) (length todo)) in
         re_rules e' = f <$> re_rules e /\
         ids' = take (Z.to_nat mx) (triggered_ids st slot v t (re_rules e)) /\
         re_max_rules e' = re_max_rules e).
  { intros H. specialize (H (re_rules e) [] e [] eq_refl eq_refl eq_refl).
    cbn [length] in H. specialize (H ltac:(by destruct (Z.to_nat mx))).
    destruct (foldl _ _ _) as [e' ids']. destruct H as (H1 & H2 & H3). split_and!; [done|done|].
    split; rewrite H1; [by rewrite Hids|]. rewrite length_fmap. lia. }
  induction todo as [|s todo IH]; intros done_ e1 ids He1 He Hmx Hidseq; cbn [length seq foldl].
  { rewrite app_nil_r in *. rewrite He1, He. done. }
  assert (NoDup (rs_id <$> re_rules e1)) as Hnd1.
  { rewrite He1, fmap_app, Hids, <- fmap_app, <- He. done. }
  rewrite <- (length_fmap f done_).
  rewrite (evaluate_point_step_spec st slot v t mx e1 (f <$> done_) s todo ids Hnd1 He1).
  rewrite length_fmap.
  specialize (IH (done_ ++ [s])). rewrite length_app in IH. cbn [length] in IH.
  replace (length done_ + 1)%nat with (S (length done_)) in IH by lia. apply IH.
  - cbn. rewrite fmap_app. by rewrite <- app_assoc.
  - rewrite He. by rewrite <- app_assoc.
  - done.
  - subst ids. apply triggered_ids_snoc.
Qed.

(** The table operations keep ids unique and the table within its size. *)
Lemma rules_inv_add e rule : rules_inv e -> rules_inv (snd (alarm_rules_add e rule)).
Proof.
  intros [Hnd Hlen]. unfold alarm_rules_add. destruct (find_update _ _ _) as [l|] eqn:E.
  - apply find_update_Some in E as (l1 & x & l2 & Hl & Hx & _ & ->). unfold rules_inv.
    cbn [snd re_rules re_max_rules set eta_alarm_rules_engine]. rewrite Hl in *.
    rewrite (keys_update rs_id l1 x) by (symmetry; exact Hx). rewrite length_app in *. done.
  - destruct (Z.leb_spec (re_max_rules e) (Z.of_nat (length (re_rules e)))); [done|].
    apply find_update_None in E. unfold rules_inv.
    cbn [snd re_rules re_max_rules set eta_alarm_rules_engine]. rewrite length_app, fmap_app.
    split; [|cbn; lia]. apply NoDup_app. split_and!; [done| |apply NoDup_singleton].
    intros k (y & -> & Hy)%list_elem_of_fmap Hk%list_elem_of_singleton.
    rewrite Forall_forall in E. by apply (E y Hy).
Qed.

Lemma rules_inv_remove e id : rules_inv e -> rules_inv (snd (alarm_rules_remove e id)).
Proof.
  intros [Hnd Hlen]. unfold alarm_rules_remove. destruct (find_remove _ _) as [l|] eqn:E; [|done].
  apply find_remove_Some in E as (l1 & x & l2 & Hl & _ & _ & ->). unfold rules_inv.
  cbn [snd re_rules re_max_rules set eta_alarm_rules_engine]. rewrite Hl in *.
  split; [by eapply keys_remove|]. rewrite length_app in *. cbn in Hlen. lia.
Qed.

Lemma rules_inv_enable e id b : rules_inv e -> rules_inv (snd (alarm_rules_enable e id b)).
Proof.
  intros [Hnd Hlen]. unfold alarm_rules_enable. destruct (find_update _ _ _) as [l|] eqn:E; [|done].
  apply find_update_Some in E as (l1 & x & l2 & Hl & _ & _ & ->). unfold rules_inv.
  cbn [snd re_rules re_max_rules set eta_alarm_rules_engine]. rewrite Hl in *.
  rewrite (keys_update rs_id l1 x) by done. rewrite length_app in *. done.
Qed.

(** ** Scenarios *)

Module AlarmRulesDemo.

Definition rule (id : Z) (c : alarm_condition) (threshold delay_ms : Z) : alarm_rule :=
  mk_alarm_rule id "level" true "rtu-1" 3 c (f32_of_Z threshold) delay_ms ALARM_SEVERITY_HIGH
    "" "" "" 0 false "" "" 0 false 0.

Definition engine (rules : list alarm_rule) : alarm_rules_engine :=
  match alarm_rules_init true 8 with
  | (_, Some e) => foldl (fun e r => snd (alarm_rules_add e r)) e rules
  | (_, None) => mk_alarm_rules_engine [] 0
  end.

(** Readings at the given times. *)
Definition readings (l : list (Z * Z)) : list (float32 * Z) := (fun '(v, t) => (f32_of_Z v, t)) <$> l.

(** High level with a delay of 2 s: one trigger per stretch. *)
Lemma rule_triggers_on_due_edge_witness :
  evaluations (mk_rule_state (rule 1 ALARM_CONDITION_HIGH 80 2000) 0 f0 false)
    (readings [(90, 1000); (91, 2000); (92, 3000); (93, 4000); (70, 5000); (90, 6000); (90, 8000)])
  = [false; false; true; false; false; false; true].
Proof.
  rewrite (rule_triggers_on_due_edge (rule 1 ALARM_CONDITION_HIGH 80 2000)
    (readings [(90, 1000); (91, 2000); (92, 3000); (93, 4000); (70, 5000); (90, 6000); (90, 8000)]));
    [vm_compute; reflexivity|reflexivity|cbn; lia].
Defined.

Lemma evaluate_point_each_once_witness :
  let e := engine [rule 1 ALARM_CONDITION_HIGH 80 0; rule 2 ALARM_CONDITION_LOW 10 0;
                   rule 3 ALARM_CONDITION_HIGH_HIGH 95 0] in
  snd (alarm_rules_evaluate_point e "rtu-1" 3 (f32_of_Z 99) 1000 8) = [1; 3].
Proof.
  intros e.
  pose proof (evaluate_point_each_once e "rtu-1" 3 (f32_of_Z 99) 1000 8) as H.
  destruct (alarm_rules_evaluate_point e "rtu-1" 3 (f32_of_Z 99) 1000 8) as [e' ids].
  destruct H as (_ & H & _); [|cbn [snd]; rewrite H; vm_compute; reflexivity].
  repeat (apply rules_inv_add || (split; [constructor|cbn; lia])).
Defined.

(** A rule that triggers when the report is full is marked in alarm all the same: no
    later evaluation reports it. *)
Theorem unreported_trigger_lost :
  let e := engine [rule 1 ALARM_CONDITION_HIGH 80 0; rule 2 ALARM_CONDITION_HIGH 80 0] in
  let '(e1, ids1) := alarm_rules_evaluate_point e "rtu-1" 3 (f32_of_Z 99) 1000 1 in
  let '(e2, ids2) := alarm_rules_evaluate_point e1 "rtu-1" 3 (f32_of_Z 99) 2000 1 in
  ids1 = [1] /\ ids2 = [] /\ (rs_in_alarm <$> re_rules e2) = [true; true].
Proof. vm_compute. auto. Qed.

(** The first reading of a rate-of-change rule is compared with 0. *)
Theorem rate_of_change_first_reading :
  evaluations (mk_rule_state (rule 1 ALARM_CONDITION_RATE_OF_CHANGE 5 0) 0 f0 false)
    (readings [(50, 1000); (50, 2000)]) = [true; false].
Proof. vm_compute. reflexivity. Qed.
End AlarmRulesDemo.
