(* ===== verification/Wire.v ===== *)
(** * Byte buffers with a cursor

    The PROFINET code reads and writes network frames through a buffer, a limit
    (the capacity or length it was told) and a position.  [wire A] is a small
    state-and-error monad for such code: an operation ends normally ([Ok]), returns
    an error code ([Fail]), or touches memory outside the buffer ([Oob], undefined
    behaviour in C).  Memory safety of a routine is that it never ends in [Oob]. *)

From S2P Require Import Prelude.

(** Bytes of a C string. *)
Definition string_bytes (s : string) : list Z :=
  (fun c => Z.of_N (Ascii.N_of_ascii c)) <$> String.list_ascii_of_string s.

(** The C string in a byte array: up to the first NUL. *)
Fixpoint cstring (l : list Z) : string :=
  match l with
  | [] => ""
  | b :: l => if b =? 0 then "" else String (Ascii.ascii_of_N (Z.to_N b)) (cstring l)
  end.

Record cursor := mk_cursor {
  cu_buffer : list Z;
  cu_limit : Z;
  cu_pos : Z }.

#[export] Instance eta_cursor : Eta cursor := fun c =>
  mk_cursor (cu_buffer c) (cu_limit c) (cu_pos c).

Inductive outcome (A : Type) :=
| Ok (a : A) (c : cursor)
| Fail (e : wtc_result) (c : cursor)
| Oob.
Arguments Ok {A}.
Arguments Fail {A}.
Arguments Oob {A}.

Definition wire (A : Type) : Type := cursor -> outcome A.

Definition wret {A} (a : A) : wire A := fun c => Ok a c.
Definition wbind {A B} (m : wire A) (k : A -> wire B) : wire B := fun c =>
  match m c with
  | Ok a c' => k a c'
  | Fail e c' => Fail e c'
  | Oob => Oob
  end.
Definition wfail {A} (e : wtc_result) : wire A := fun c => Fail e c.

Declare Scope wire_scope.
Delimit Scope wire_scope with wire.
Notation "x <-- m ;; k" := (wbind m (fun x => k))
  (at level 80, m at next level, right associativity) : wire_scope.
Notation "' p <-- m ;; k" := (wbind m (fun x => let p := x in k))
  (at level 80, p strict pattern, m at next level, right associativity) : wire_scope.
Notation "m ;;; k" := (wbind m (fun _ => k))
  (at level 80, right associativity) : wire_scope.
#[global] Open Scope wire_scope.

(** [memcpy(dst, buf + pos, n); pos += n;] *)
Definition fetch (n : nat) : wire (list Z) := fun c =>
  if (0 <=? cu_pos c) && (cu_pos c + Z.of_nat n <=? Z.of_nat (length (cu_buffer c))) then
    Ok (take n (drop (Z.to_nat (cu_pos c)) (cu_buffer c)))
       (c <| cu_pos ::= fun p => p + Z.of_nat n |>)
  else Oob.

(** [memcpy(buf + pos, bs, n); pos += n;] *)
Definition emit (bs : list Z) : wire unit := fun c =>
  if (0 <=? cu_pos c) && (cu_pos c + Z.of_nat (length bs) <=? Z.of_nat (length (cu_buffer c))) then
    Ok tt (c <| cu_buffer ::= fun b => take (Z.to_nat (cu_pos c)) b ++ bs ++
                 drop (Z.to_nat (cu_pos c) + length bs) b |>
             <| cu_pos ::= fun p => p + Z.of_nat (length bs) |>)
  else Oob.

(** [memcpy(dst, buf + pos, n)] for an explicit offset [pos]. *)
Definition peek (pos : Z) (n : nat) : wire (list Z) := fun c =>
  if (0 <=? pos) && (pos + Z.of_nat n <=? Z.of_nat (length (cu_buffer c))) then
    Ok (take n (drop (Z.to_nat pos) (cu_buffer c))) c
  else Oob.

(** A call whose return code is ignored. *)
Definition attempt (m : wire unit) : wire unit := fun c =>
  match m c with
  | Ok _ c' | Fail _ c' => Ok tt c'
  | Oob => Oob
  end.

Definition skip (n : Z) : wire unit := fun c => Ok tt (c <| cu_pos ::= fun p => p + n |>).
Definition get_pos : wire Z := fun c => Ok (cu_pos c) c.
(** [length - position] on two [size_t]. *)
Definition remaining : wire Z := fun c => Ok (u64_sub (cu_limit c) (cu_pos c)) c.

Definition fetch_u8 : wire Z := bs <-- fetch 1;; wret (of_be 0 bs).
Definition fetch_u16 : wire Z := bs <-- fetch 2;; wret (of_be 0 bs).
Definition fetch_u32 : wire Z := bs <-- fetch 4;; wret (of_be 0 bs).
Definition emit_u8 (v : Z) : wire unit := emit [wrap8 v].
Definition emit_u16 (v : Z) : wire unit := emit (be16 v).
Definition emit_u32 (v : Z) : wire unit := emit (be32 v).

(** ** Big-endian numbers *)

Definition is_bytes (l : list Z) : Prop := Forall is_u8 l.

Lemma of_be_app acc l l' : of_be acc (l ++ l') = of_be (of_be acc l) l'.
Proof. revert acc. induction l as [|b l IH]; intros acc; [done|]. cbn. apply IH. Qed.

Lemma of_be_range acc l :
  0 <= acc -> is_bytes l -> 0 <= of_be acc l < (acc + 1) * 2 ^ (8 * Z.of_nat (length l)).
Proof.
  revert acc. induction l as [|b l IH]; intros acc Hacc Hl.
  - cbn. lia.
  - apply Forall_cons in Hl as [Hb Hl]. unfold is_u8 in Hb. cbn [of_be length].
    specialize (IH (acc * 2 ^ 8 + b) ltac:(nia) Hl).
    replace (8 * Z.of_nat (S (length l))) with (8 + 8 * Z.of_nat (length l)) by lia.
    rewrite Z.pow_add_r by lia.
    assert (0 < 2 ^ (8 * Z.of_nat (length l))) by (apply Z.pow_pos_nonneg; lia). nia.
Qed.

Lemma length_be16 v : length (be16 v) = 2%nat. Proof. done. Qed.
Lemma length_be32 v : length (be32 v) = 4%nat. Proof. done. Qed.

Lemma be16_bytes v : is_bytes (be16 v).
Proof. repeat constructor; cbn; try (apply Z.mod_pos_bound; lia). Qed.
Lemma be32_bytes v : is_bytes (be32 v).
Proof. repeat constructor; cbn; try (apply Z.mod_pos_bound; lia). Qed.
#[export] Hint Resolve be16_bytes be32_bytes : wtc.

Lemma length_string_bytes s : length (string_bytes s) = String.length s.
Proof. unfold string_bytes. rewrite length_fmap. induction s; [done|]. cbn. f_equal. done. Qed.

Lemma string_bytes_range s : is_bytes (string_bytes s).
Proof.
  unfold string_bytes. apply Forall_fmap, Forall_true. intros c.
  pose proof (Ascii.N_ascii_bounded c). unfold compose, is_u8. lia.
Qed.

(** A string without NUL is read back from its bytes. *)
Lemma cstring_string_bytes s rest :
  Forall (fun b => b <> 0) (string_bytes s) -> cstring (string_bytes s ++ 0 :: rest) = s.
Proof.
  induction s as [|c s IH]; [done|]. cbn. intros [Hc Hs]%Forall_cons.
  rewrite (proj2 (Z.eqb_neq _ _) Hc). rewrite N2Z.id, Ascii.ascii_N_embedding. f_equal. by apply IH.
Qed.

(** ** Well-formed cursors

    The limit is the size of the buffer, which holds bytes, and the position within it. *)

Definition wf (c : cursor) : Prop :=
  0 <= cu_pos c <= cu_limit c /\ cu_limit c = Z.of_nat (length (cu_buffer c)) /\
  cu_limit c < 2 ^ 63 /\ is_bytes (cu_buffer c).

(** What is left to read, and what has been written. *)
Definition pending (c : cursor) : list Z := drop (Z.to_nat (cu_pos c)) (cu_buffer c).
Definition content (c : cursor) : list Z := take (Z.to_nat (cu_pos c)) (cu_buffer c).

(** Never outside the buffer, and the cursor stays well formed. *)
Definition safe {A} (m : wire A) : Prop := forall c, wf c ->
  match m c with
  | Ok _ c' | Fail _ c' => wf c' /\ cu_buffer c' = cu_buffer c /\ cu_pos c <= cu_pos c'
  | Oob => False
  end.

Lemma pending_length c : wf c -> Z.of_nat (length (pending c)) = cu_limit c - cu_pos c.
Proof. intros (Hp & Hl & _ & _). unfold pending. rewrite length_drop. lia. Qed.

Lemma pending_bytes c : wf c -> is_bytes (pending c).
Proof. intros (_ & _ & _ & H). by apply Forall_drop. Qed.

Lemma length_content c : wf c -> Z.of_nat (length (content c)) = cu_pos c.
Proof. intros (Hp & Hl & _ & _). unfold content. rewrite length_take. lia. Qed.

Lemma remaining_ok c : wf c -> remaining c = Ok (Z.of_nat (length (pending c))) c.
Proof.
  intros H. rewrite pending_length by done. destruct H as (Hp & Hl & Hm & _). unfold remaining.
  rewrite u64_sub_le by (unfold is_u64; lia). done.
Qed.

(** Advancing over what was pending. *)
Definition advance (n : nat) (c : cursor) : cursor := c <| cu_pos ::= fun p => p + Z.of_nat n |>.

Lemma wf_advance n c : wf c -> (n <= length (pending c))%nat -> wf (advance n c).
Proof.
  intros H Hn. pose proof (pending_length c H). destruct H as (Hp & Hl & Hm & Hb).
  unfold wf, advance. cbn. split_and!; try done; lia.
Qed.

Lemma pending_advance n c : wf c -> pending (advance n c) = drop n (pending c).
Proof.
  intros ((Hp & _) & _). unfold pending, advance. cbn. rewrite drop_drop. f_equal. lia.
Qed.

Lemma fetch_ok n c :
  wf c -> (n <= length (pending c))%nat -> fetch n c = Ok (take n (pending c)) (advance n c).
Proof.
  intros H Hn. pose proof (pending_length c H). destruct H as (Hp & Hl & Hm & _). unfold fetch.
  rewrite (proj2 (Z.leb_le _ _)) by lia. rewrite (proj2 (Z.leb_le _ _)) by lia. done.
Qed.

(** The same with the bytes named: [fetch] splits what is pending. *)
Lemma fetch_app bs rest c :
  wf c -> pending c = bs ++ rest ->
  exists c', fetch (length bs) c = Ok bs c' /\ wf c' /\ pending c' = rest /\
    cu_buffer c' = cu_buffer c /\ cu_pos c' = cu_pos c + Z.of_nat (length bs) /\ cu_limit c' = cu_limit c.
Proof.
  intros H Hp. exists (advance (length bs) c).
  assert (length bs <= length (pending c))%nat by (rewrite Hp, length_app; lia).
  rewrite fetch_ok by done. rewrite pending_advance by done. rewrite Hp.
  rewrite take_app_length, drop_app_length. split_and!; try done. by apply wf_advance.
Qed.

Lemma emit_ok bs c :
  wf c -> is_bytes bs -> cu_pos c + Z.of_nat (length bs) <= cu_limit c ->
  exists c', emit bs c = Ok tt c' /\ wf c' /\ content c' = content c ++ bs /\
    cu_limit c' = cu_limit c /\ cu_pos c' = cu_pos c + Z.of_nat (length bs) /\
    pending c' = drop (length bs) (pending c).
Proof.
  intros (Hp & Hl & Hm & Hby) Hbs Hfit. unfold emit.
  rewrite (proj2 (Z.leb_le _ _)) by lia. rewrite (proj2 (Z.leb_le _ _)) by lia.
  eexists. split; [reflexivity|]. unfold wf, content, pending. cbn.
  set (p := Z.to_nat (cu_pos c)).
  assert (p + length bs <= length (cu_buffer c))%nat by lia.
  assert (Z.to_nat (cu_pos c + Z.of_nat (length bs)) = p + length bs)%nat as -> by lia.
  assert (length (take p (cu_buffer c)) = p) as Htl by (rewrite length_take; lia).
  split_and!; try done; try lia.
  - rewrite !length_app, Htl, length_drop. lia.
  - apply Forall_app; split; [by apply Forall_take|]. apply Forall_app; split; [done|by apply Forall_drop].
  - rewrite app_assoc, take_app_length'; [done|]. rewrite length_app. lia.
  - rewrite app_assoc, drop_app_length'; [|rewrite length_app; lia]. by rewrite drop_drop.
Qed.

(** Binds associate. *)
Lemma wbind_assoc {A B C} (m : wire A) (f : A -> wire B) (g : B -> wire C) c :
  wbind (wbind m f) g c = wbind m (fun a => wbind (f a) g) c.
Proof. unfold wbind. by destruct (m c). Qed.

(** ** Memory safety by composition

    [need n m]: with [n] bytes pending, [m] stays within the buffer and moves forward. *)

Definition need {A} (n : nat) (m : wire A) : Prop := forall c, wf c -> (n <= length (pending c))%nat ->
  match m c with
  | Ok _ c' | Fail _ c' => wf c' /\ cu_buffer c' = cu_buffer c /\ cu_pos c <= cu_pos c'
  | Oob => False
  end.

Lemma need_safe {A} (m : wire A) : need 0 m -> safe m.
Proof. intros H c Hc. apply H; [done|lia]. Qed.

Lemma safe_need {A} n (m : wire A) : safe m -> need n m.
Proof. intros H c Hc _. by apply H. Qed.

Lemma need_weaken {A} n n' (m : wire A) : (n' <= n)%nat -> need n' m -> need n m.
Proof. intros Hle H c Hc Hn. apply H; [done|lia]. Qed.

Lemma need_ret {A} n (a : A) : need n (wret a).
Proof. intros c Hc _. cbn. by split_and!. Qed.

Lemma need_fail {A} n e : need n (@wfail A e).
Proof. intros c Hc _. cbn. by split_and!. Qed.

Lemma need_bind {A B} n (m : wire A) (k : A -> wire B) :
  need n m -> (forall a, safe (k a)) -> need n (wbind m k).
Proof.
  intros Hm Hk c Hc Hn. unfold wbind. specialize (Hm c Hc Hn).
  destruct (m c) as [a c'|e c'|]; [|done|done]. destruct Hm as (Hc' & Hb & Hp).
  specialize (Hk a c' Hc'). destruct (k a c') as [x c''|x c''|]; [|..|done];
    destruct Hk as (? & ? & ?); (split_and!; [done|congruence|lia]).
Qed.

Lemma need_fetch {A} n j (k : list Z -> wire A) :
  (j <= n)%nat -> (forall bs, length bs = j -> is_bytes bs -> need (n - j) (k bs)) ->
  need n (wbind (fetch j) k).
Proof.
  intros Hj Hk c Hc Hn. unfold wbind. rewrite fetch_ok by (done || lia).
  assert (wf (advance j c)) as Hc' by (apply wf_advance; [done|lia]).
  assert (length (take j (pending c)) = j) as Hlen by (rewrite length_take; lia).
  specialize (Hk (take j (pending c)) Hlen (Forall_take _ _ _ (pending_bytes c Hc)) (advance j c) Hc').
  rewrite pending_advance, length_drop in Hk by done. specialize (Hk ltac:(lia)).
  destruct (k _ (advance j c)) as [x c''|x c''|]; [|..|done]; destruct Hk as (? & ? & ?);
    (split_and!; [done|done|]); cbn in *; lia.
Qed.

Lemma need_skip {A} n j (k : unit -> wire A) :
  0 <= j <= Z.of_nat n -> need (n - Z.to_nat j) (k tt) -> need n (wbind (skip j) k).
Proof.
  intros Hj Hk c Hc Hn. unfold wbind, skip. specialize (Hk (advance (Z.to_nat j) c)).
  assert (wf (advance (Z.to_nat j) c)) as Hc' by (apply wf_advance; [done|lia]).
  rewrite pending_advance, length_drop in Hk by done. specialize (Hk Hc' ltac:(lia)).
  unfold advance in Hk. rewrite Z2Nat.id in Hk by lia.
  destruct (k tt _) as [x c''|x c''|]; [|..|done]; destruct Hk as (? & ? & ?);
    (split_and!; [done|done|]); cbn in *; lia.
Qed.

Lemma need_u8 {A} n (k : Z -> wire A) :
  (1 <= n)%nat -> (forall v, is_u8 v -> need (n - 1) (k v)) -> need n (wbind fetch_u8 k).
Proof.
  intros Hn Hk c. unfold fetch_u8. rewrite wbind_assoc. revert c.
  apply need_fetch; [done|]. intros bs Hlen Hbs. apply Hk.
  pose proof (of_be_range 0 bs ltac:(lia) Hbs) as H. rewrite Hlen in H. unfold is_u8. lia.
Qed.
Lemma need_u16 {A} n (k : Z -> wire A) :
  (2 <= n)%nat -> (forall v, is_u16 v -> need (n - 2) (k v)) -> need n (wbind fetch_u16 k).
Proof.
  intros Hn Hk c. unfold fetch_u16. rewrite wbind_assoc. revert c.
  apply need_fetch; [done|]. intros bs Hlen Hbs. apply Hk.
  pose proof (of_be_range 0 bs ltac:(lia) Hbs) as H. rewrite Hlen in H. unfold is_u16. lia.
Qed.
Lemma need_u32 {A} n (k : Z -> wire A) :
  (4 <= n)%nat -> (forall v, is_u32 v -> need (n - 4) (k v)) -> need n (wbind fetch_u32 k).
Proof.
  intros Hn Hk c. unfold fetch_u32. rewrite wbind_assoc. revert c.
  apply need_fetch; [done|]. intros bs Hlen Hbs. apply Hk.
  pose proof (of_be_range 0 bs ltac:(lia) Hbs) as H. rewrite Hlen in H. unfold is_u32. lia.
Qed.

(** [if (remaining < n) return e;] before a read. *)
Lemma safe_guard {A} (n : Z) e (m : wire A) :
  0 <= n -> need (Z.to_nat n) m -> safe (r <-- remaining;; if r <? n then wfail e else m).
Proof.
  intros Hn Hm c Hc. unfold wbind. rewrite remaining_ok by done.
  destruct (Z.ltb_spec (Z.of_nat (length (pending c))) n); [cbn; by split_and!|].
  apply Hm; [done|lia].
Qed.

Create HintDb wire.
#[export] Hint Resolve need_ret need_fail : wire.

Lemma safe_bind {A B} (m : wire A) (k : A -> wire B) :
  safe m -> (forall a, safe (k a)) -> safe (wbind m k).
Proof. intros Hm Hk. apply need_safe, need_bind; [by apply safe_need|done]. Qed.

Lemma safe_ret {A} (a : A) : safe (wret a).
Proof. apply need_safe, need_ret. Qed.
Lemma safe_fail {A} e : safe (@wfail A e).
Proof. apply need_safe, need_fail. Qed.
#[export] Hint Resolve safe_ret safe_fail : wire.

(** Memory safety of a chain of reads under a guard. *)
Ltac wire_safe :=
  repeat first
    [ done
    | progress auto with wire
    | match goal with
      | |- safe (wbind remaining _) => apply safe_guard; [lia|]
      | |- safe (wbind _ _) => apply safe_bind; [|intros ?]
      | |- safe (if ?b then _ else _) => destruct b
      | |- need _ (wbind fetch_u8 _) => apply need_u8; [cbn; lia|intros ? ?; cbn [Nat.sub]]
      | |- need _ (wbind fetch_u16 _) => apply need_u16; [cbn; lia|intros ? ?; cbn [Nat.sub]]
      | |- need _ (wbind fetch_u32 _) => apply need_u32; [cbn; lia|intros ? ?; cbn [Nat.sub]]
      | |- need _ (wbind (fetch _) _) => apply need_fetch; [cbn; lia|intros ? ? ?; cbn [Nat.sub]]
      | |- need _ (wbind (skip _) _) => apply need_skip; [cbn; lia|cbn [Nat.sub]]
      | |- need _ (wbind remaining _) => apply safe_need
      | |- need _ (if ?b then _ else _) => destruct b
      end ].

(** ** Exact effect of readers and writers

    [reads m bs a]: on input that starts with [bs], [m] consumes exactly [bs] and
    returns [a].  [writes m bs]: where [bs] fits, [m] appends exactly [bs]. *)

Definition reads {A} (m : wire A) (bs : list Z) (a : A) : Prop := forall c rest,
  wf c -> pending c = bs ++ rest ->
  exists c', m c = Ok a c' /\ wf c' /\ pending c' = rest /\ cu_buffer c' = cu_buffer c /\
    cu_pos c' = cu_pos c + Z.of_nat (length bs) /\ cu_limit c' = cu_limit c.

Definition writes {A} (m : wire A) (bs : list Z) (a : A) : Prop := forall c,
  wf c -> cu_pos c + Z.of_nat (length bs) <= cu_limit c ->
  exists c', m c = Ok a c' /\ wf c' /\ content c' = content c ++ bs /\
    cu_limit c' = cu_limit c /\ cu_pos c' = cu_pos c + Z.of_nat (length bs).

Lemma reads_ret {A} (a : A) : reads (wret a) [] a.
Proof. intros c rest Hc Hp. exists c. cbn in *. split_and!; try done. lia. Qed.

Lemma reads_bind {A B} (m : wire A) (k : A -> wire B) bs1 bs2 a b :
  reads m bs1 a -> reads (k a) bs2 b -> reads (wbind m k) (bs1 ++ bs2) b.
Proof.
  intros Hm Hk c rest Hc Hp. rewrite <- app_assoc in Hp. unfold wbind.
  destruct (Hm c _ Hc Hp) as (c1 & -> & Hc1 & Hp1 & Hb1 & Hpos1 & Hl1).
  destruct (Hk c1 _ Hc1 Hp1) as (c2 & -> & Hc2 & Hp2 & Hb2 & Hpos2 & Hl2).
  exists c2. rewrite length_app. split_and!; try done; try congruence. lia.
Qed.

(** The last step returns what it computes. *)
Lemma reads_bind_ret {A B} (m : wire A) (f : A -> B) bs a :
  reads m bs a -> reads (wbind m (fun x => wret (f x))) bs (f a).
Proof.
  intros Hm. rewrite <- (app_nil_r bs). eapply reads_bind; [exact Hm|apply reads_ret].
Qed.

Lemma reads_fetch bs : reads (fetch (length bs)) bs bs.
Proof. intros c rest Hc Hp. by destruct (fetch_app bs rest c Hc Hp) as (c' & ? & ? & ? & ? & ? & ?); eauto 10. Qed.

Lemma reads_u8 b : reads fetch_u8 [b] b.
Proof. apply (reads_bind_ret (fetch 1) (of_be 0) [b] [b]), (reads_fetch [b]). Qed.

Lemma reads_u16 v : is_u16 v -> reads fetch_u16 (be16 v) v.
Proof.
  intros Hv. rewrite <- (of_be16 v Hv) at 2.
  apply (reads_bind_ret (fetch 2) (of_be 0) (be16 v) (be16 v)), (reads_fetch (be16 v)).
Qed.

Lemma reads_u32 v : is_u32 v -> reads fetch_u32 (be32 v) v.
Proof.
  intros Hv. rewrite <- (of_be32 v Hv) at 2.
  apply (reads_bind_ret (fetch 4) (of_be 0) (be32 v) (be32 v)), (reads_fetch (be32 v)).
Qed.

(** A guard on the remaining length passes when that much is there. *)
Lemma reads_guard {A} n e (m : wire A) bs a :
  n <= Z.of_nat (length bs) -> reads m bs a ->
  reads (r <-- remaining;; if r <? n then wfail e else m) bs a.
Proof.
  intros Hn Hm c rest Hc Hp. unfold wbind. rewrite remaining_ok by done.
  rewrite (proj2 (Z.ltb_ge _ _)); [by apply Hm|]. rewrite Hp, length_app. lia.
Qed.

(** Where there is too little, the guard refuses and leaves the cursor alone. *)
Lemma guard_fails {A} n e (m : wire A) c :
  wf c -> Z.of_nat (length (pending c)) < n ->
  (r <-- remaining;; if r <? n then wfail e else m) c = Fail e c.
Proof.
  intros Hc Hn. unfold wbind. rewrite remaining_ok by done. by rewrite (proj2 (Z.ltb_lt _ _)).
Qed.

Lemma writes_ret {A} (a : A) : writes (wret a) [] a.
Proof. intros c Hc _. exists c. cbn. rewrite app_nil_r. split_and!; try done. lia. Qed.

Lemma writes_emit bs : is_bytes bs -> writes (emit bs) bs tt.
Proof. intros Hbs c Hc Hfit. destruct (emit_ok bs c Hc Hbs Hfit) as (c' & ? & ? & ? & ? & ? & _). eauto 10. Qed.

Lemma writes_bind {A B} (m : wire A) (k : A -> wire B) bs1 bs2 a b :
  writes m bs1 a -> writes (k a) bs2 b -> writes (wbind m k) (bs1 ++ bs2) b.
Proof.
  intros Hm Hk c Hc Hfit. rewrite length_app in Hfit. unfold wbind.
  destruct (Hm c Hc ltac:(lia)) as (c1 & -> & Hc1 & Hp1 & Hl1 & Hpos1).
  destruct (Hk c1 Hc1 ltac:(lia)) as (c2 & -> & Hc2 & Hp2 & Hl2 & Hpos2).
  exists c2. rewrite length_app, Hp2, Hp1, <- app_assoc. split_and!; try done; try congruence. lia.
Qed.

(** [if (position + n > capacity) return e;] before a write. *)
Definition check_space {A} (n : Z) (e : wtc_result) (m : wire A) : wire A := fun c =>
  if cu_limit c <? cu_pos c + n then Fail e c else m c.

Lemma writes_check {A} n e (m : wire A) bs a :
  n <= Z.of_nat (length bs) -> writes m bs a -> writes (check_space n e m) bs a.
Proof.
  intros Hn Hm c Hc Hfit. unfold check_space. rewrite (proj2 (Z.ltb_ge _ _)) by lia. by apply Hm.
Qed.

Lemma check_space_fails {A} n e (m : wire A) c :
  cu_limit c < cu_pos c + n -> check_space n e m c = Fail e c.
Proof. intros H. unfold check_space. by rewrite (proj2 (Z.ltb_lt _ _)). Qed.

#[export] Hint Resolve reads_ret reads_u8 reads_u16 reads_u32 reads_fetch
  writes_ret writes_emit : wire.

(** A cursor at the start of a received frame. *)
Definition frame_cursor (frame : list Z) : cursor := mk_cursor frame (Z.of_nat (length frame)) 0.

Lemma wf_frame_cursor frame :
  is_bytes frame -> Z.of_nat (length frame) < 2 ^ 63 -> wf (frame_cursor frame).
Proof. unfold wf, frame_cursor. cbn. intros. split_and!; try done; lia. Qed.
Lemma pending_frame_cursor frame : pending (frame_cursor frame) = frame.
Proof. done. Qed.
