(* ===== verification/Frame.v ===== *)
(** * PROFINET frames

    Model of [src/profinet/profinet_frame.c]: the frame builder and the frame parser,
    and the conversions of IP and MAC addresses.  A [frame_builder_t] is a cursor
    whose limit is the capacity, with the source MAC as an argument; a
    [frame_parser_t] is a cursor whose limit is the frame length. *)

From Stdlib Require Import Ascii.
From S2P Require Import Prelude Wire.

Definition ETH_ADDR_LEN : nat := 6.
Definition ETH_HEADER_LEN : Z := 14.
Definition ETH_MIN_FRAME_LEN : Z := 60.
Definition PROFINET_ETHERTYPE : Z := 0x8892.
Definition PROFINET_ETHERTYPE_VLAN : Z := 0x8100.
Definition PROFINET_FRAME_ID_DCP : Z := 0xFEFC.
Definition PROFINET_FRAME_ID_DCP_GETSET : Z := 0xFEFD.
Definition PROFINET_FRAME_ID_DCP_IDENT : Z := 0xFEFE.
Definition PROFINET_FRAME_ID_DCP_IDENT_RESP : Z := 0xFEFF.
Definition DCP_SERVICE_SET : Z := 4.
Definition DCP_SERVICE_IDENTIFY : Z := 5.
Definition DCP_SERVICE_TYPE_REQUEST : Z := 0.
Definition DCP_SERVICE_TYPE_RESPONSE_OK : Z := 1.
Definition DCP_OPTION_IP : Z := 1.
Definition DCP_OPTION_DEVICE : Z := 2.
Definition DCP_OPTION_CONTROL : Z := 5.
Definition DCP_OPTION_ALL : Z := 255.
Definition DCP_SUBOPTION_DEVICE_NAME : Z := 2.

(** ** The builder *)

(** [frame_builder_init]: the cursor and the source MAC. *)
Definition frame_builder_init (buffer : list Z) (capacity : Z) (src_mac : option (list Z))
    : cursor * list Z :=
  (mk_cursor buffer capacity 0, default (replicate ETH_ADDR_LEN 0) src_mac).

Definition frame_builder_reset (c : cursor) : cursor := c <| cu_pos := 0 |>.
Definition frame_builder_length (c : cursor) : Z := cu_pos c.

Definition frame_build_ethernet (src_mac dst_mac : list Z) (ethertype : Z) : wire unit :=
  check_space ETH_HEADER_LEN WTC_ERROR_FULL
    (emit dst_mac;;; emit src_mac;;; emit_u16 ethertype).

Definition frame_build_rt_header (frame_id : Z) : wire unit :=
  check_space 2 WTC_ERROR_FULL (emit_u16 frame_id).

(** The padding byte of a block whose data has odd length. *)
Definition emit_padding (len : nat) : wire unit :=
  if Z.odd (Z.of_nat len) then emit [0] else wret tt.

(** [uint16_t data_length] of the identify request. *)
Definition identify_data_length (station_name : option string) : Z :=
  match station_name with
  | None => 4
  | Some s =>
      let n := Z.of_nat (String.length s) in
      let d := wrap16 (4 + 4 + n) in
      if Z.odd n then wrap16 (d + 1) else d
  end.

Definition frame_build_dcp_identify (xid : Z) (station_name : option string) : wire unit :=
  let data_length := identify_data_length station_name in
  check_space (2 + 10 + data_length) WTC_ERROR_FULL (
    emit_u16 PROFINET_FRAME_ID_DCP_IDENT;;;
    emit_u8 DCP_SERVICE_IDENTIFY;;;
    emit_u8 DCP_SERVICE_TYPE_REQUEST;;;
    emit_u32 xid;;;
    emit_u16 0x0080;;;
    emit_u16 data_length;;;
    match station_name with
    | Some s =>
        emit_u8 DCP_OPTION_DEVICE;;;
        emit_u8 DCP_SUBOPTION_DEVICE_NAME;;;
        emit_u16 (Z.of_nat (String.length s));;;
        emit (string_bytes s);;;
        emit_padding (String.length s)
    | None =>
        emit_u8 DCP_OPTION_ALL;;;
        emit_u8 0xFF;;;
        emit_u16 0
    end).

(** [uint16_t total_data_len] of the set request. *)
Definition set_data_length (data_len : Z) : Z :=
  let d := wrap16 (4 + data_len) in
  if Z.odd data_len then wrap16 (d + 1) else d.

Definition frame_build_dcp_set (xid option suboption : Z) (data : list Z) : wire unit :=
  let data_len := Z.of_nat (length data) in
  let total_data_len := set_data_length data_len in
  check_space (2 + 10 + total_data_len) WTC_ERROR_FULL (
    emit_u16 PROFINET_FRAME_ID_DCP_GETSET;;;
    emit_u8 DCP_SERVICE_SET;;;
    emit_u8 DCP_SERVICE_TYPE_REQUEST;;;
    emit_u32 xid;;;
    emit_u16 0x0001;;;
    emit_u16 total_data_len;;;
    emit_u8 option;;;
    emit_u8 suboption;;;
    emit_u16 data_len;;;
    emit data;;;
    emit_padding (length data)).

Definition frame_append_data (data : list Z) : wire unit :=
  check_space (Z.of_nat (length data)) WTC_ERROR_FULL (emit data).

(** [while (position < min_length && position < capacity) buffer[position++] = 0;]
    runs at most [min_length - position] times, the fuel of the model. *)
Fixpoint padding_loop (fuel : nat) (min_length : Z) : wire unit := fun c =>
  if (cu_pos c <? min_length) && (cu_pos c <? cu_limit c) then
    match fuel with
    | O => Ok tt c
    | S fuel => (emit [0];;; padding_loop fuel min_length) c
    end
  else Ok tt c.

Definition frame_append_padding (min_length : Z) : wire unit := fun c =>
  padding_loop (Z.to_nat (min_length - cu_pos c)) min_length c.

(** ** The parser *)

Definition frame_parser_init (buffer : list Z) (length : Z) : cursor := mk_cursor buffer length 0.

(** Destination MAC, source MAC and ethertype; a VLAN tag is skipped. *)
Definition frame_parse_ethernet : wire (list Z * list Z * Z) :=
  r <-- remaining;;
  if r <? ETH_HEADER_LEN then wfail WTC_ERROR_INVALID_PARAM
  else
    dst_mac <-- fetch ETH_ADDR_LEN;;
    src_mac <-- fetch ETH_ADDR_LEN;;
    etype <-- fetch_u16;;
    if etype =? PROFINET_ETHERTYPE_VLAN then
      r <-- remaining;;
      if r <? 4 then wfail WTC_ERROR_PROTOCOL
      else
        skip 2;;;
        etype <-- fetch_u16;;
        wret (dst_mac, src_mac, etype)
    else wret (dst_mac, src_mac, etype).

Definition frame_parse_rt_header : wire Z :=
  r <-- remaining;;
  if r <? 2 then wfail WTC_ERROR_INVALID_PARAM else fetch_u16.

(** [profinet_dcp_header_t] *)
Record profinet_dcp_header := mk_profinet_dcp_header {
  dcp_service_id : Z;
  dcp_service_type : Z;
  dcp_xid : Z;
  dcp_response_delay : Z;
  dcp_data_length : Z }.

Definition frame_parse_dcp_header : wire profinet_dcp_header :=
  r <-- remaining;;
  if r <? 10 then wfail WTC_ERROR_INVALID_PARAM
  else
    service_id <-- fetch_u8;;
    service_type <-- fetch_u8;;
    xid <-- fetch_u32;;
    response_delay <-- fetch_u16;;
    data_length <-- fetch_u16;;
    wret (mk_profinet_dcp_header service_id service_type xid response_delay data_length).

(** [dcp_block_header_t] *)
Record dcp_block_header := mk_dcp_block_header {
  db_option : Z;
  db_suboption : Z;
  db_length : Z }.

(** The header and the position of the block's data. *)
Definition frame_parse_dcp_block : wire (dcp_block_header * Z) :=
  r <-- remaining;;
  if r <? 4 then wfail WTC_ERROR_INVALID_PARAM
  else
    option <-- fetch_u8;;
    suboption <-- fetch_u8;;
    length <-- fetch_u16;;
    r <-- remaining;;
    if r <? length then wfail WTC_ERROR_PROTOCOL
    else
      data <-- get_pos;;
      skip length;;;
      wret (mk_dcp_block_header option suboption length, data).

Definition frame_read_bytes (len : nat) : wire (list Z) :=
  r <-- remaining;;
  if r <? Z.of_nat len then wfail WTC_ERROR_INVALID_PARAM else fetch len.

Definition frame_skip_bytes (len : Z) : wire unit :=
  r <-- remaining;;
  if r <? len then wfail WTC_ERROR_INVALID_PARAM else skip len.

Definition frame_read_u8 : wire Z :=
  r <-- remaining;;
  if r <? 1 then wfail WTC_ERROR_INVALID_PARAM else fetch_u8.

Definition frame_read_u16 : wire Z :=
  r <-- remaining;;
  if r <? 2 then wfail WTC_ERROR_INVALID_PARAM else fetch_u16.

Definition frame_read_u32 : wire Z :=
  r <-- remaining;;
  if r <? 4 then wfail WTC_ERROR_INVALID_PARAM else fetch_u32.

(** ** The parser stays within the frame *)

Lemma safe_parse_dcp_block : safe frame_parse_dcp_block.
Proof.
  unfold frame_parse_dcp_block. apply safe_guard; [lia|].
  apply need_u8; [cbn; lia|]. intros option _. apply need_u8; [cbn; lia|]. intros suboption _.
  apply need_u16; [cbn; lia|]. intros length [Hlen _]. apply safe_need, safe_guard; [done|].
  intros c Hc Hn. cbn [wbind get_pos].
  apply (need_skip (Z.to_nat length) length (fun _ => wret (mk_dcp_block_header option suboption length, cu_pos c)));
    [lia|apply need_ret|done|done].
Qed.

Lemma safe_parse_ethernet : safe frame_parse_ethernet.
Proof. unfold frame_parse_ethernet, ETH_HEADER_LEN, ETH_ADDR_LEN. wire_safe. Qed.

Lemma need_fetch_u16 : need 2 fetch_u16.
Proof. unfold fetch_u16. wire_safe. Qed.
#[export] Hint Resolve need_fetch_u16 : wire.

Lemma safe_parse_rt_header : safe frame_parse_rt_header.
Proof. unfold frame_parse_rt_header. wire_safe. Qed.

Lemma safe_parse_dcp_header : safe frame_parse_dcp_header.
Proof. unfold frame_parse_dcp_header. wire_safe. Qed.

Lemma safe_read_u8 : safe frame_read_u8.
Proof. unfold frame_read_u8, fetch_u8. wire_safe. Qed.
Lemma safe_read_u16 : safe frame_read_u16.
Proof. unfold frame_read_u16. wire_safe. Qed.
Lemma safe_read_u32 : safe frame_read_u32.
Proof. unfold frame_read_u32, fetch_u32. wire_safe. Qed.

Lemma safe_read_bytes len : safe (frame_read_bytes len).
Proof.
  unfold frame_read_bytes. apply safe_guard; [lia|]. rewrite Nat2Z.id. intros c Hc Hn.
  rewrite fetch_ok by done. split_and!; [by apply wf_advance|done|cbn; lia].
Qed.

Lemma safe_skip_bytes len : 0 <= len -> safe (frame_skip_bytes len).
Proof.
  intros Hl. unfold frame_skip_bytes. apply safe_guard; [done|]. intros c Hc Hn.
  pose proof (wf_advance (Z.to_nat len) c Hc Hn) as H. unfold advance in H.
  rewrite Z2Nat.id in H by done. unfold skip. split_and!; [done|done|cbn; lia].
Qed.
#[export] Hint Resolve safe_parse_dcp_block safe_parse_ethernet safe_parse_rt_header
  safe_parse_dcp_header safe_read_u8 safe_read_u16 safe_read_u32 safe_read_bytes safe_skip_bytes : wire.

(** The operations a frame can be read with. *)
Inductive frame_op :=
| FrEthernet | FrRtHeader | FrDcpHeader | FrDcpBlock | FrBytes (n : nat) | FrSkip (n : Z)
| FrU8 | FrU16 | FrU32.

Definition ignore {A} (m : wire A) : wire unit := m;;; wret tt.

Definition frame_exec (op : frame_op) : wire unit :=
  match op with
  | FrEthernet => ignore frame_parse_ethernet
  | FrRtHeader => ignore frame_parse_rt_header
  | FrDcpHeader => ignore frame_parse_dcp_header
  | FrDcpBlock => ignore frame_parse_dcp_block
  | FrBytes n => ignore (frame_read_bytes n)
  | FrSkip n => frame_skip_bytes n
  | FrU8 => ignore frame_read_u8
  | FrU16 => ignore frame_read_u16
  | FrU32 => ignore frame_read_u32
  end.

(** A call whose error the caller ignores, as [parse_dcp_blocks] does with [frame_skip_bytes]. *)
Definition frame_ignored (op : frame_op) : wire unit := fun c =>
  match frame_exec op c with Ok _ c | Fail _ c => Ok tt c | Oob => Oob end.

(** Operations one after the other, in a caller that goes on after an error: the parser keeps no
    error state, so a caller that stops at an error makes a shorter list of calls. *)
Fixpoint frame_run (ops : list frame_op) : wire unit :=
  match ops with
  | [] => wret tt
  | op :: ops => frame_ignored op;;; frame_run ops
  end.

Definition frame_op_ok (op : frame_op) : Prop := match op with FrSkip n => 0 <= n | _ => True end.

Lemma safe_ignored op : frame_op_ok op -> safe (frame_ignored op).
Proof.
  intros Hop c Hc. assert (safe (frame_exec op)) as Hs.
  { destruct op; cbn [frame_exec]; unfold ignore;
      try (apply safe_bind; [|intros _; apply safe_ret]); auto with wire. }
  specialize (Hs c Hc). unfold frame_ignored. by destruct (frame_exec op c).
Qed.

(** C40: Whatever bytes are received and in whatever order the parser's operations are
    called, no read leaves the frame. *)
Theorem frame_parser_memory_safe frame ops :
  is_bytes frame -> Z.of_nat (length frame) < 2 ^ 63 -> Forall frame_op_ok ops ->
  match frame_run ops (frame_parser_init frame (Z.of_nat (length frame))) with
  | Ok _ c | Fail _ c => 0 <= cu_pos c <= Z.of_nat (length frame) /\ cu_buffer c = frame
  | Oob => False
  end.
Proof.
  intros Hb Hl Hops. assert (safe (frame_run ops)) as Hsafe.
  { induction Hops as [|op ops Hop _ IH]; cbn [frame_run]; [apply safe_ret|].
    apply safe_bind; [by apply safe_ignored|done]. }
  specialize (Hsafe (frame_cursor frame) (wf_frame_cursor frame Hb Hl)).
  unfold frame_cursor in Hsafe. unfold frame_parser_init.
  destruct (frame_run ops _) as [a c|e c|]; [..|done];
    destruct Hsafe as ((Hp & Hlim & _) & Hbuf & _); cbn in Hbuf; rewrite Hbuf in Hlim; (split; [lia|done]).
Qed.

(** ** The builder writes exactly its frame *)

Lemma emit_u8_byte v : is_u8 v -> writes (emit_u8 v) [v] tt.
Proof.
  intros Hv. unfold emit_u8, wrap8. rewrite Z.mod_small by done. apply writes_emit. by constructor.
Qed.
Lemma emit_u16_bytes v : writes (emit_u16 v) (be16 v) tt.
Proof. apply writes_emit, be16_bytes. Qed.
Lemma emit_u32_bytes v : writes (emit_u32 v) (be32 v) tt.
Proof. apply writes_emit, be32_bytes. Qed.

(** The zero byte after data of odd length. *)
Definition padding (n : nat) : list Z := if Z.odd (Z.of_nat n) then [0] else [].

Lemma emit_padding_bytes n : writes (emit_padding n) (padding n) tt.
Proof.
  unfold emit_padding, padding. destruct (Z.odd _); [apply writes_emit|apply writes_ret].
  repeat constructor; done.
Qed.
#[export] Hint Resolve emit_u8_byte emit_u16_bytes emit_u32_bytes emit_padding_bytes
  string_bytes_range : wire.

#[export] Hint Extern 3 (is_u8 _) => first [assumption | by vm_compute] : wire.

(** Chains of writes. *)
Ltac wire_writes :=
  repeat first
    [ apply writes_bind with (a := tt)
    | solve [auto with wire wtc]
    | solve [apply writes_emit; auto with wire wtc] ].

Definition eth_bytes (src_mac dst_mac : list Z) (ethertype : Z) : list Z :=
  dst_mac ++ src_mac ++ be16 ethertype.

Lemma build_ethernet_writes src dst et :
  is_bytes src -> is_bytes dst -> length src = ETH_ADDR_LEN -> length dst = ETH_ADDR_LEN ->
  writes (frame_build_ethernet src dst et) (eth_bytes src dst et) tt.
Proof.
  intros Hs Hd Hls Hld. unfold frame_build_ethernet, eth_bytes. apply writes_check.
  - rewrite !length_app, Hls, Hld. unfold ETH_HEADER_LEN, ETH_ADDR_LEN. cbn. lia.
  - wire_writes.
Qed.

(** The DCP header and block of a set request. *)
Definition dcp_header_bytes (frame_id : Z) (h : profinet_dcp_header) : list Z :=
  be16 frame_id ++ [dcp_service_id h] ++ [dcp_service_type h] ++ be32 (dcp_xid h) ++
  be16 (dcp_response_delay h) ++ be16 (dcp_data_length h).
Definition dcp_block_bytes (option suboption : Z) (data : list Z) : list Z :=
  [option] ++ [suboption] ++ be16 (Z.of_nat (length data)) ++ data ++ padding (length data).

Definition set_header (xid : Z) (data : list Z) : profinet_dcp_header :=
  mk_profinet_dcp_header DCP_SERVICE_SET DCP_SERVICE_TYPE_REQUEST xid 1
    (set_data_length (Z.of_nat (length data))).

Lemma length_padding n : Z.of_nat (length (padding n)) = Z.of_nat n mod 2.
Proof. unfold padding. rewrite Zmod_odd. by destruct (Z.odd _). Qed.

Lemma set_data_length_exact option suboption (data : list Z) :
  Z.of_nat (length data) < 65531 ->
  set_data_length (Z.of_nat (length data)) = Z.of_nat (length (dcp_block_bytes option suboption data)).
Proof.
  intros Hd. unfold dcp_block_bytes. rewrite !length_app, !Nat2Z.inj_add, length_padding, Zmod_odd.
  unfold set_data_length, wrap16. cbn [length be16]. destruct (Z.odd _);
    rewrite ?(Z.mod_small (4 + _)) by lia; rewrite ?Z.mod_small by lia; lia.
Qed.

Lemma build_dcp_set_writes xid option suboption data :
  is_u8 option -> is_u8 suboption -> is_bytes data -> Z.of_nat (length data) < 65531 ->
  writes (frame_build_dcp_set xid option suboption data)
    (dcp_header_bytes PROFINET_FRAME_ID_DCP_GETSET (set_header xid data) ++
     dcp_block_bytes option suboption data) tt.
Proof.
  intros Ho Hs Hd Hlen. unfold frame_build_dcp_set. apply writes_check.
  - rewrite (set_data_length_exact option suboption) by done.
    rewrite length_app, Nat2Z.inj_add. cbn. lia.
  - unfold dcp_header_bytes, dcp_block_bytes, set_header.
    cbn [dcp_service_id dcp_service_type dcp_xid dcp_response_delay dcp_data_length].
    rewrite <- !app_assoc. wire_writes.
Qed.

Lemma parse_ethernet_reads src dst et :
  length src = ETH_ADDR_LEN -> length dst = ETH_ADDR_LEN -> is_u16 et -> et <> PROFINET_ETHERTYPE_VLAN ->
  reads frame_parse_ethernet (eth_bytes src dst et) (dst, src, et).
Proof.
  intros Hs Hd Het Hv. unfold frame_parse_ethernet, eth_bytes. apply reads_guard.
  { rewrite !length_app, Hs, Hd. unfold ETH_HEADER_LEN, ETH_ADDR_LEN. cbn. lia. }
  apply reads_bind with dst; [rewrite <- Hd; apply reads_fetch|].
  apply reads_bind with src; [rewrite <- Hs; apply reads_fetch|].
  rewrite <- (app_nil_r (be16 et)). apply reads_bind with et; [by apply reads_u16|].
  rewrite (proj2 (Z.eqb_neq _ _) Hv). apply reads_ret.
Qed.

Definition dcp_header_ok (h : profinet_dcp_header) : Prop :=
  is_u32 (dcp_xid h) /\ is_u16 (dcp_response_delay h) /\ is_u16 (dcp_data_length h).

Lemma parse_dcp_header_reads frame_id h :
  is_u16 frame_id -> dcp_header_ok h ->
  reads (id <-- frame_read_u16;; h <-- frame_parse_dcp_header;; wret (id, h))
    (dcp_header_bytes frame_id h) (frame_id, h).
Proof.
  intros Hid (Hx & Hr & Hl). unfold dcp_header_bytes.
  apply reads_bind with frame_id; [apply reads_guard; [cbn; lia|by apply reads_u16]|].
  apply (reads_bind_ret frame_parse_dcp_header (fun h => (frame_id, h)) _ h).
  unfold frame_parse_dcp_header. apply reads_guard; [rewrite !length_app; cbn; lia|].
  do 2 (eapply reads_bind; [apply reads_u8|]).
  eapply reads_bind; [by apply reads_u32|]. eapply reads_bind; [by apply reads_u16|].
  destruct h as [a b x r l].
  exact (reads_bind_ret fetch_u16 (fun dl => mk_profinet_dcp_header a b x r dl) _ l (reads_u16 l Hl)).
Qed.

(** Read a block and its data. *)
Definition read_block : wire (dcp_block_header * list Z) :=
  '(h, pos) <-- frame_parse_dcp_block;;
  (fun c => Ok (h, take (Z.to_nat (db_length h)) (drop (Z.to_nat pos) (cu_buffer c))) c).

Lemma parse_dcp_block_reads option suboption data c rest :
  Z.of_nat (length data) < 65536 -> wf c ->
  pending c = [option] ++ [suboption] ++ be16 (Z.of_nat (length data)) ++ data ++ rest ->
  exists c', frame_parse_dcp_block c
      = Ok (mk_dcp_block_header option suboption (Z.of_nat (length data)), cu_pos c + 4) c' /\
    drop (Z.to_nat (cu_pos c + 4)) (cu_buffer c) = data ++ rest /\
    wf c' /\ pending c' = rest /\ cu_buffer c' = cu_buffer c /\
    cu_pos c' = cu_pos c + 4 + Z.of_nat (length data) /\ cu_limit c' = cu_limit c.
Proof.
  intros Hlen Hc Hp. unfold frame_parse_dcp_block. set (len := Z.of_nat (length data)) in *.
  assert (is_u16 len) as Hu by (unfold is_u16, len; lia).
  unfold wbind at 1. rewrite remaining_ok by done.
  rewrite (proj2 (Z.ltb_ge _ _)) by (rewrite Hp; cbn; lia).
  destruct (reads_u8 option c _ Hc Hp) as (c1 & E1 & Hc1 & Hp1 & Hb1 & Hpos1 & Hl1).
  destruct (reads_u8 suboption c1 _ Hc1 Hp1) as (c2 & E2 & Hc2 & Hp2 & Hb2 & Hpos2 & Hl2).
  destruct (reads_u16 len Hu c2 _ Hc2 Hp2) as (c3 & E3 & Hc3 & Hp3 & Hb3 & Hpos3 & Hl3).
  unfold wbind. rewrite E1, E2, E3, remaining_ok by done.
  rewrite (proj2 (Z.ltb_ge _ _)) by (rewrite Hp3, length_app; unfold len; lia).
  cbn [get_pos skip wret]. cbn [length be16] in *.
  assert (cu_pos c3 = cu_pos c + 4) as Hpos by lia. rewrite Hpos.
  eexists. split; [reflexivity|]. unfold len. fold (advance (length data) c3).
  assert (length data <= length (pending c3))%nat by (rewrite Hp3, length_app; lia).
  split_and!.
  - rewrite <- Hpos, <- Hb1, <- Hb2, <- Hb3. exact Hp3.
  - by apply wf_advance.
  - rewrite pending_advance, Hp3 by done. apply drop_app_length.
  - cbn. congruence.
  - cbn. lia.
  - cbn. congruence.
Qed.

Lemma read_block_reads option suboption data :
  Z.of_nat (length data) < 65536 ->
  reads read_block ([option] ++ [suboption] ++ be16 (Z.of_nat (length data)) ++ data)
    (mk_dcp_block_header option suboption (Z.of_nat (length data)), data).
Proof.
  intros Hlen c rest Hc Hp. rewrite <- !app_assoc in Hp.
  destruct (parse_dcp_block_reads option suboption data c rest Hlen Hc Hp)
    as (c' & Hrun & Hd & Hc' & Hp' & Hb & Hpos & Hl).
  exists c'. unfold read_block, wbind. rewrite Hrun. cbn [db_length]. rewrite Hb, Hd, Nat2Z.id, take_app_length.
  rewrite !length_app. cbn [length be16]. split_and!; try done. lia.
Qed.

(** The frame of a set request, built and read back. *)
Definition build_set_frame (src dst : list Z) (xid option suboption : Z) (data : list Z) : wire unit :=
  frame_build_ethernet src dst PROFINET_ETHERTYPE;;; frame_build_dcp_set xid option suboption data.

Definition read_set_frame
    : wire (list Z * list Z * Z * (Z * profinet_dcp_header) * (dcp_block_header * list Z)) :=
  eth <-- frame_parse_ethernet;;
  hdr <-- (id <-- frame_read_u16;; h <-- frame_parse_dcp_header;; wret (id, h));;
  block <-- read_block;;
  wret (eth, hdr, block).

(** A DCP set request that fits its buffer is read back field by field: addresses,
    ethertype, frame id, service, transaction id, announced length (the length of the
    block with its padding) and the block with its data. *)
Theorem dcp_set_roundtrip buffer src dst xid option suboption data :
  is_bytes buffer -> Z.of_nat (length buffer) < 2 ^ 63 ->
  is_bytes src -> length src = ETH_ADDR_LEN -> is_bytes dst -> length dst = ETH_ADDR_LEN ->
  is_u32 xid -> is_u8 option -> is_u8 suboption -> is_bytes data ->
  Z.of_nat (length data) < 65531 ->
  14 + 12 + Z.of_nat (length (dcp_block_bytes option suboption data)) <= Z.of_nat (length buffer) ->
  exists c, build_set_frame src dst xid option suboption data
      (fst (frame_builder_init buffer (Z.of_nat (length buffer)) (Some src))) = Ok tt c /\
  exists c', read_set_frame (frame_parser_init (content c) (frame_builder_length c)) =
    Ok (dst, src, PROFINET_ETHERTYPE,
        (PROFINET_FRAME_ID_DCP_GETSET,
         mk_profinet_dcp_header DCP_SERVICE_SET DCP_SERVICE_TYPE_REQUEST xid 1
           (Z.of_nat (length (dcp_block_bytes option suboption data)))),
        (mk_dcp_block_header option suboption (Z.of_nat (length data)), data)) c' /\
  pending c' = padding (length data).
Proof.
  intros Hbuf Hsize Hs Hls Hd Hld Hx Ho Hso Hdata Hlen Hfit.
  assert (writes (build_set_frame src dst xid option suboption data)
            (eth_bytes src dst PROFINET_ETHERTYPE ++
             dcp_header_bytes PROFINET_FRAME_ID_DCP_GETSET (set_header xid data) ++
             dcp_block_bytes option suboption data) tt) as Hw.
  { eapply writes_bind; [by apply build_ethernet_writes|by apply build_dcp_set_writes]. }
  destruct (Hw (frame_cursor buffer) (wf_frame_cursor buffer Hbuf Hsize)) as (c & Hrun & Hc & Hcont & Hl & Hpos).
  { rewrite !length_app, !Nat2Z.inj_add. set (n := Z.of_nat (length (dcp_block_bytes _ _ _))) in *.
    unfold eth_bytes. rewrite !length_app, Hls, Hld. cbn. lia. }
  exists c. split; [exact Hrun|].
  set (bs := eth_bytes src dst PROFINET_ETHERTYPE ++ _) in *.
  assert (content c = bs) as Hbs by (rewrite Hcont; done).
  assert (frame_parser_init (content c) (frame_builder_length c) = frame_cursor bs) as ->.
  { unfold frame_parser_init, frame_cursor, frame_builder_length. rewrite Hbs, Hpos. done. }
  assert (is_bytes bs) as Hbb.
  { rewrite <- Hbs. unfold content. apply Forall_take. apply Hc. }
  assert (Z.of_nat (length bs) < 2 ^ 63) as Hbl.
  { rewrite <- Hbs, length_content by done. destruct Hc as (? & ? & ? & _). lia. }
  assert (reads read_set_frame (eth_bytes src dst PROFINET_ETHERTYPE ++
            dcp_header_bytes PROFINET_FRAME_ID_DCP_GETSET (set_header xid data) ++
            [option] ++ [suboption] ++ be16 (Z.of_nat (length data)) ++ data)
          (dst, src, PROFINET_ETHERTYPE, (PROFINET_FRAME_ID_DCP_GETSET, set_header xid data),
           (mk_dcp_block_header option suboption (Z.of_nat (length data)), data))) as Hr.
  { eapply reads_bind; [by apply parse_ethernet_reads|]. eapply reads_bind.
    - apply parse_dcp_header_reads; [done|]. split_and!; [done|done|].
      cbn. rewrite (set_data_length_exact option suboption) by done.
      unfold dcp_block_bytes, is_u16. rewrite !length_app, !Nat2Z.inj_add, length_padding. cbn.
      Z.div_mod_to_equations. lia.
    - apply (reads_bind_ret read_block (fun b => (dst, src, PROFINET_ETHERTYPE, _, b))).
      apply read_block_reads. lia. }
  destruct (Hr (frame_cursor bs) (padding (length data)) (wf_frame_cursor bs Hbb Hbl))
    as (c' & Hrd & _ & Hpend & _).
  { rewrite pending_frame_cursor. unfold bs, dcp_block_bytes. by rewrite <- !app_assoc. }
  exists c'. split; [|done]. rewrite Hrd. unfold set_header.
  by rewrite (set_data_length_exact option suboption).
Qed.

(** ** Lengths that do not fit *)

(** The identify request announces four bytes more than it carries when a name is given,
    and asks for as much more space. *)
Theorem identify_length_overstated xid s c :
  Z.of_nat (String.length s) < 65527 -> wf c ->
  let block := dcp_block_bytes DCP_OPTION_DEVICE DCP_SUBOPTION_DEVICE_NAME (string_bytes s) in
  cu_pos c + 12 + Z.of_nat (length block) + 4 <= cu_limit c ->
  exists c', frame_build_dcp_identify xid (Some s) c = Ok tt c' /\
  content c' = content c ++ dcp_header_bytes PROFINET_FRAME_ID_DCP_IDENT
     (mk_profinet_dcp_header DCP_SERVICE_IDENTIFY DCP_SERVICE_TYPE_REQUEST xid 0x80
        (Z.of_nat (length block) + 4)) ++ block.
Proof.
  intros Hlen Hc block Hfit. unfold frame_build_dcp_identify.
  assert (identify_data_length (Some s) = Z.of_nat (length block) + 4) as ->.
  { unfold identify_data_length, block, dcp_block_bytes, wrap16.
    rewrite !length_app, !Nat2Z.inj_add, length_padding, length_string_bytes, Zmod_odd.
    cbn [length be16]. destruct (Z.odd _);
      cbn [length app]; set (n := Z.of_nat (String.length s)) in *;
      rewrite ?(Z.mod_small (4 + 4 + n)) by lia; rewrite ?Z.mod_small by lia; lia. }
  unfold check_space. rewrite (proj2 (Z.ltb_ge _ _)) by lia.
  set (h := mk_profinet_dcp_header _ _ _ _ _).
  match goal with |- exists c', ?m c = _ /\ _ =>
    assert (writes m (dcp_header_bytes PROFINET_FRAME_ID_DCP_IDENT h ++ block) tt) as Hw end.
  { unfold dcp_header_bytes, h, block, dcp_block_bytes. rewrite length_string_bytes, <- !app_assoc.
    cbn [dcp_service_id dcp_service_type dcp_xid dcp_response_delay dcp_data_length]. wire_writes. }
  clearbody block. destruct (Hw c Hc) as (c' & Hrun & _ & Hcont & _); [|by eauto].
  rewrite length_app, Nat2Z.inj_add. cbn. lia.
Qed.

(** The announced length of a set request is a [uint16_t]: data of 65532 bytes or more wraps
    it, the capacity check passes, and the data is copied past the end of the buffer. *)
Theorem dcp_set_overflow :
  let buffer := replicate 64 0 in
  frame_build_dcp_set 1 DCP_OPTION_CONTROL 3 (replicate 65532 0)
    (fst (frame_builder_init buffer 64 None)) = Oob.
Proof. vm_compute. reflexivity. Qed.

(** ** Padding *)

Lemma padding_loop_spec fuel min_length c :
  wf c -> min_length - cu_pos c <= Z.of_nat fuel ->
  exists c', padding_loop fuel min_length c = Ok tt c' /\ wf c' /\ cu_limit c' = cu_limit c /\
    content c' = content c ++ replicate (Z.to_nat (Z.min min_length (cu_limit c) - cu_pos c)) 0.
Proof.
  revert c. induction fuel as [|fuel IH]; intros c Hc Hf.
  - cbn. rewrite (proj2 (Z.ltb_ge _ _)) by lia. cbn [andb]. exists c. split_and!; try done.
    replace (Z.to_nat (Z.min min_length (cu_limit c) - cu_pos c)) with 0%nat by lia.
    by rewrite app_nil_r.
  - cbn [padding_loop]. destruct (Z.ltb_spec (cu_pos c) min_length), (Z.ltb_spec (cu_pos c) (cu_limit c));
      cbn [andb]; try (exists c; split_and!; try done;
        replace (Z.to_nat (Z.min min_length (cu_limit c) - cu_pos c)) with 0%nat by lia;
        by rewrite app_nil_r).
    assert (is_bytes [0]) as Hz by (repeat constructor; done).
    destruct (emit_ok [0] c Hc Hz) as (c1 & He & Hc1 & Hcont & Hl & Hp & _); [cbn; lia|].
    unfold wbind. rewrite He. cbn [length] in Hp.
    destruct (IH c1 Hc1 ltac:(lia)) as (c2 & Hrun & Hc2 & Hl2 & Hcont2).
    exists c2. split_and!; [done|done|congruence|].
    rewrite Hcont2, Hcont, <- app_assoc, Hl, Hp. f_equal.
    replace (Z.to_nat (Z.min min_length (cu_limit c) - cu_pos c))
      with (S (Z.to_nat (Z.min min_length (cu_limit c) - (cu_pos c + 1)))) by lia. done.
Qed.

(** Padding terminates with the frame filled with zeros up to the minimum length, or to the
    capacity if that is smaller. *)
Lemma append_padding_spec min_length c :
  wf c ->
  exists c', frame_append_padding min_length c = Ok tt c' /\ wf c' /\ cu_limit c' = cu_limit c /\
    content c' = content c ++ replicate (Z.to_nat (Z.min min_length (cu_limit c) - cu_pos c)) 0.
Proof. intros Hc. apply padding_loop_spec; [done|lia]. Qed.

(** ** Addresses as text

    [sscanf] conversions [%u] and [%x] as in glibc: white space and a sign are skipped,
    [%x] takes an optional [0x], the digits are converted by [strtoul] (saturating at
    [ULONG_MAX]) and the result is cut to [unsigned int]. *)

Definition is_space (c : Ascii.ascii) : bool :=
  let n := Ascii.nat_of_ascii c in ((9 <=? n) && (n <=? 13) || (n =? 32))%nat.

Fixpoint skip_spaces (s : string) : string :=
  match s with
  | String c s' => if is_space c then skip_spaces s' else s
  | EmptyString => s
  end.

Definition digit_val (base : Z) (c : Ascii.ascii) : option Z :=
  let n := Z.of_nat (Ascii.nat_of_ascii c) in
  let v := if (48 <=? n) && (n <=? 57) then n - 48
           else if (65 <=? n) && (n <=? 70) then n - 55
           else if (97 <=? n) && (n <=? 102) then n - 87
           else 255 in
  if v <? base then Some v else None.

Fixpoint scan_digits (base acc : Z) (s : string) : Z * string :=
  match s with
  | String c s' => match digit_val base c with
                   | Some d => scan_digits base (acc * base + d) s'
                   | None => (acc, s)
                   end
  | EmptyString => (acc, s)
  end.

Definition starts_with_digit (base : Z) (s : string) : bool :=
  match s with String c _ => bool_decide (is_Some (digit_val base c)) | EmptyString => false end.

(** The sign, and for [%x] the prefix. *)
Definition scan_sign (s : string) : bool * string :=
  match s with
  | String c s' => if bool_decide (c = "-"%char) then (true, s')
                   else if bool_decide (c = "+"%char) then (false, s') else (false, s)
  | EmptyString => (false, s)
  end.
Definition scan_prefix (base : Z) (s : string) : string :=
  match s with
  | String c (String c' s') =>
      if (base =? 16) && bool_decide (c = "0"%char) &&
         (bool_decide (c' = "x"%char) || bool_decide (c' = "X"%char)) then s' else s
  | _ => s
  end.

Definition scan_unsigned (base : Z) (s : string) : option (Z * string) :=
  let '(neg, s) := scan_sign (skip_spaces s) in
  let s := scan_prefix base s in
  if starts_with_digit base s then
    let '(v, rest) := scan_digits base 0 s in
    let v := if 2 ^ 64 <=? v then 2 ^ 64 - 1 else if neg then wrap64 (- v) else v in
    Some (wrap32 v, rest)
  else None.

(** [n + 1] numbers with [sep] between them; what follows the last is ignored. *)
Fixpoint scan_list (base : Z) (sep : Ascii.ascii) (n : nat) (s : string) : option (list Z) :=
  match scan_unsigned base s with
  | None => None
  | Some (v, rest) =>
      match n, rest with
      | O, _ => Some [v]
      | S n, String c rest =>
          if bool_decide (c = sep) then (cons v) <$> scan_list base sep n rest else None
      | S _, EmptyString => None
      end
  end.

Definition string_to_ip (str : option string) : Z :=
  match str with
  | None => 0
  | Some s =>
      match scan_list 10 "."%char 3 s with
      | Some [a; b; c; d] =>
          Z.lor (Z.lor (Z.lor (wrap32 (Z.shiftl a 24)) (wrap32 (Z.shiftl b 16)))
                   (wrap32 (Z.shiftl c 8))) d
      | _ => 0
      end
  end.

(** [snprintf] with [%u.%u.%u.%u]; [None]: the buffer is too small and not written. *)
Definition ip_to_string (ip : Z) (buf_len : Z) : option string :=
  if buf_len <? 16 then None
  else Some (pretty (Z.land (Z.shiftr ip 24) 255) +:+ "." +:+ pretty (Z.land (Z.shiftr ip 16) 255)
               +:+ "." +:+ pretty (Z.land (Z.shiftr ip 8) 255) +:+ "." +:+ pretty (Z.land ip 255)).

Definition hex_digit (v : Z) : Ascii.ascii :=
  Ascii.ascii_of_nat (Z.to_nat (if v <? 10 then 48 + v else 55 + v)).
(** [%02X] of a byte *)
Definition hex_byte (b : Z) : string :=
  String (hex_digit (b / 16)) (String (hex_digit (b mod 16)) "").

Definition mac_to_string (mac : list Z) (buf_len : Z) : option string :=
  if buf_len <? 18 then None else Some (String.concat ":" (hex_byte <$> take 6 mac)).

Definition string_to_mac (str : string) : option (list Z) :=
  match scan_list 16 ":"%char 5 str with
  | Some m => Some (wrap8 <$> m)
  | None => None
  end.

(** Text made of digits. *)
Definition all_digits (base : Z) (text : string) : bool :=
  forallb (fun c => bool_decide (is_Some (digit_val base c))) (String.list_ascii_of_string text).

Lemma scan_digits_app base acc text rest :
  all_digits base text = true -> starts_with_digit base rest = false ->
  scan_digits base acc (text +:+ rest) = (fst (scan_digits base acc text), rest).
Proof.
  intros Ht Hr. revert acc. induction text as [|c text IH]; intros acc.
  - change ("" +:+ rest) with rest. destruct rest as [|c rest]; [done|]. cbn in *.
    destruct (digit_val base c); [|done]. by case_bool_decide; [|exfalso; eauto].
  - change (String c text +:+ rest) with (String c (text +:+ rest)). cbn in *.
    apply andb_true_iff in Ht as [Hc Ht]. apply bool_decide_eq_true in Hc as [d Hd].
    rewrite Hd. by apply IH.
Qed.

(** Texts checked by evaluation. *)
Definition scans_as (base : Z) (text : string) (v : Z) : bool :=
  all_digits base text && (fst (scan_digits base 0 text) =? v) && (0 <=? v) && (v <? 256) &&
  match text with
  | String c t => negb (is_space c) && negb (bool_decide (c = "-"%char)) && negb (bool_decide (c = "+"%char))
                  && (negb (base =? 16) || match t with String c' _ => bool_decide (is_Some (digit_val 16 c')) | EmptyString => false end)
  | EmptyString => false
  end.

Lemma scan_prefix_none base c c' s :
  is_Some (digit_val 16 c') -> scan_prefix base (String c (String c' s)) = String c (String c' s).
Proof.
  intros [v Hv]. unfold scan_prefix. rewrite !(bool_decide_eq_false_2 (c' = _)) by (intros ->; done).
  by rewrite andb_false_r.
Qed.

Lemma scans_as_number base text v rest :
  scans_as base text v = true -> starts_with_digit base rest = false ->
  scan_unsigned base (text +:+ rest) = Some (v, rest).
Proof.
  unfold scans_as. intros H Hr. destruct text as [|c t]; [by rewrite andb_false_r in H|].
  rewrite !andb_true_iff in H.
  destruct H as ((((Hd & Hv%Z.eqb_eq) & Hlo%Z.leb_le) & Hhi%Z.ltb_lt) &
                 (((Hs%negb_true_iff & Hm) & Hp) & Hx)).
  apply negb_true_iff, bool_decide_eq_false in Hm, Hp. unfold scan_unsigned.
  change (String c t +:+ rest) with (String c (t +:+ rest)). cbn [skip_spaces]. rewrite Hs.
  cbn [scan_sign]. rewrite !bool_decide_eq_false_2 by done.
  assert (scan_prefix base (String c (t +:+ rest)) = String c t +:+ rest) as ->.
  { change (String c t +:+ rest) with (String c (t +:+ rest)).
    apply orb_true_iff in Hx as [Hx%negb_true_iff|Hx].
    - unfold scan_prefix. rewrite Hx. by destruct (t +:+ rest).
    - destruct t as [|c' t]; [done|]. apply scan_prefix_none. by apply bool_decide_eq_true in Hx. }
  assert (starts_with_digit base (String c t +:+ rest) = true) as ->.
  { cbn in Hd |- *. by apply andb_true_iff in Hd as [? _]. }
  rewrite scan_digits_app, Hv by done. rewrite (proj2 (Z.leb_gt _ _)) by lia.
  unfold wrap32. by rewrite Z.mod_small by lia.
Qed.

(** Every byte is printed as a number that is scanned as that byte. *)
Lemma pretty_byte_scans b : is_u8 b -> scans_as 10 (pretty b) b = true.
Proof.
  intros Hb. apply (proj1 (forallb_forall (fun b => scans_as 10 (pretty b) b) (seqZ 0 256))).
  - vm_compute. reflexivity.
  - apply list_elem_of_In, elem_of_seqZ. unfold is_u8 in Hb. lia.
Qed.
Lemma hex_byte_scans b : is_u8 b -> scans_as 16 (hex_byte b) b = true.
Proof.
  intros Hb. apply (proj1 (forallb_forall (fun b => scans_as 16 (hex_byte b) b) (seqZ 0 256))).
  - vm_compute. reflexivity.
  - apply list_elem_of_In, elem_of_seqZ. unfold is_u8 in Hb. lia.
Qed.

(** Numbers printed with a separator are scanned back. *)
Lemma scan_list_join base sep (f : Z -> string) bs b :
  digit_val base sep = None -> (forall b, is_u8 b -> scans_as base (f b) b = true) ->
  Forall is_u8 (bs ++ [b]) ->
  scan_list base sep (length bs) (foldr (fun b s => f b +:+ String sep s) (f b) bs) = Some (bs ++ [b]).
Proof.
  intros Hsep Hf. induction bs as [|x bs IH]; intros Hbs; cbn [foldr length scan_list app].
  - apply Forall_cons in Hbs as [Hb _].
    assert (forall s : string, s +:+ "" = s) as Hnil
      by (intros s; induction s as [|ch s IH]; [done|]; change (String ch s +:+ "") with (String ch (s +:+ "")); by rewrite IH).
    rewrite <- (Hnil (f b)).
    by rewrite (scans_as_number base (f b) b "") by auto.
  - apply Forall_cons in Hbs as [Hx Hbs].
    rewrite (scans_as_number base (f x) x) by (auto || (cbn; by rewrite Hsep)).
    rewrite bool_decide_eq_true_2 by done. by rewrite IH.
Qed.

(** An IPv4 address printed by [ip_to_string] is read back by [string_to_ip], and a MAC
    address printed by [mac_to_string] by [string_to_mac]. *)
Theorem address_text_roundtrip ip mac :
  is_u32 ip -> is_bytes mac -> length mac = ETH_ADDR_LEN ->
  string_to_ip (ip_to_string ip 16) = ip /\
  (mac_to_string mac 18 ≫= string_to_mac) = Some mac.
Proof.
  intros Hip Hmac Hlen. split.
  - unfold ip_to_string, string_to_ip. cbn [Z.ltb Z.compare Pos.compare Pos.compare_cont].
    set (a := Z.land (Z.shiftr ip 24) 255). set (b := Z.land (Z.shiftr ip 16) 255).
    set (c := Z.land (Z.shiftr ip 8) 255). set (d := Z.land ip 255).
    pose proof (scan_list_join 10 "."%char pretty [a; b; c] d eq_refl pretty_byte_scans) as H.
    specialize (H ltac:(repeat constructor; apply land_255_byte)).
    match type of H with _ = ?r => match goal with |- context [scan_list 10 ?sep 3 ?t] =>
      assert (scan_list 10 sep 3 t = r) as -> by exact H end end.
    by apply lor_bytes32.
  - do 6 (destruct mac as [|? mac]; [done|]). destruct mac; [|done].
    unfold mac_to_string, string_to_mac. cbn [Z.ltb Z.compare Pos.compare Pos.compare_cont mbind option_bind].
    match goal with |- context [hex_byte <$> take 6 [?a; ?b; ?c; ?d; ?e; ?f]] =>
      pose proof (scan_list_join 16 ":"%char hex_byte [a; b; c; d; e] f eq_refl hex_byte_scans Hmac) as H end.
    match type of H with _ = ?r => match goal with |- context [scan_list 16 ?sep 5 ?t] =>
      assert (scan_list 16 sep 5 t = r) as -> by exact H end end.
    f_equal. cbn. repeat (apply Forall_cons in Hmac as [? Hmac]).
    unfold wrap8. by rewrite !Z.mod_small by done.
Qed.

(** ** Concrete frames *)

Module FrameDemo.

Definition src : list Z := [2; 0; 0; 0; 0; 1].
Definition dst : list Z := [2; 0; 0; 0; 0; 9].

Lemma frame_parser_memory_safe_witness :
  match frame_run [FrEthernet; FrU16; FrDcpHeader]
          (frame_parser_init (replicate 20 7) (Z.of_nat (length (replicate 20 7)))) with
  | Ok _ c | Fail _ c => 0 <= cu_pos c <= 20 /\ cu_buffer c = replicate 20 7
  | Oob => False
  end.
Proof.
  apply (frame_parser_memory_safe (replicate 20 7) [FrEthernet; FrU16; FrDcpHeader]).
  - repeat constructor; done.
  - vm_compute. reflexivity.
  - repeat constructor.
Defined.

Lemma dcp_set_roundtrip_witness :
  exists c, build_set_frame src dst 77 DCP_OPTION_CONTROL 3 [0; 0; 1]
      (fst (frame_builder_init (replicate 64 0) (Z.of_nat (length (replicate 64 0))) (Some src))) = Ok tt c /\
  exists c', read_set_frame (frame_parser_init (content c) (frame_builder_length c)) =
    Ok (dst, src, PROFINET_ETHERTYPE,
        (PROFINET_FRAME_ID_DCP_GETSET, mk_profinet_dcp_header DCP_SERVICE_SET DCP_SERVICE_TYPE_REQUEST 77 1
           (Z.of_nat (length (dcp_block_bytes DCP_OPTION_CONTROL 3 [0; 0; 1])))),
        (mk_dcp_block_header DCP_OPTION_CONTROL 3 3, [0; 0; 1])) c' /\ pending c' = [0].
Proof.
  apply (dcp_set_roundtrip (replicate 64 0) src dst 77 DCP_OPTION_CONTROL 3 [0; 0; 1]);
    try (by vm_compute); try (repeat constructor; done).
Defined.

Lemma address_text_roundtrip_witness :
  string_to_ip (ip_to_string 3232235786 16) = 3232235786 /\
  (mac_to_string [2; 0; 94; 16; 255; 1] 18 ≫= string_to_mac) = Some [2; 0; 94; 16; 255; 1].
Proof.
  apply (address_text_roundtrip 3232235786 [2; 0; 94; 16; 255; 1]); [done|repeat constructor; done|done].
Defined.
End FrameDemo.
