(* ===== verification/Dcp.v ===== *)
(** * DCP discovery

    Model of [src/profinet/dcp_discovery.c]: the cache of discovered devices, the requests
    it sends and the identify responses it processes.  Sockets are left out: a request is
    the frame handed to [sendto], whose success is an argument. *)

From Stdlib Require Import Ascii.
From S2P Require Import Prelude Wire Frame.

Definition MAX_DISCOVERED_DEVICES : nat := 256.
Definition DCP_DEFAULT_TIMEOUT_MS : Z := 1280.
Definition DCP_MULTICAST_ADDR : list Z := [0x01; 0x0E; 0xCF; 0x00; 0x00; 0x00].
Definition DCP_SUBOPTION_IP_MAC : Z := 1.
Definition DCP_SUBOPTION_IP_PARAMETER : Z := 2.
Definition DCP_SUBOPTION_DEVICE_VENDOR : Z := 1.
Definition DCP_SUBOPTION_DEVICE_ID : Z := 3.
Definition DCP_SUBOPTION_DEVICE_ROLE : Z := 4.
Definition DCP_SUBOPTION_CONTROL_SIGNAL : Z := 3.
Definition DCP_SUBOPTION_CONTROL_RESET_TO_FACTORY : Z := 5.

(** [dcp_device_info_t] *)
Record dcp_device_info := mk_dcp_device_info {
  dd_mac_address : list Z;
  dd_ip_address : Z;
  dd_subnet_mask : Z;
  dd_gateway : Z;
  dd_station_name : string;
  dd_vendor_name : string;
  dd_vendor_id : Z;
  dd_device_id : Z;
  dd_device_role : Z;
  dd_ip_set : bool;
  dd_name_set : bool;
  dd_discovered_time_ms : Z }.

#[export] Instance eta_dcp_device_info : Eta dcp_device_info := fun r =>
  mk_dcp_device_info (dd_mac_address r) (dd_ip_address r) (dd_subnet_mask r) (dd_gateway r)
    (dd_station_name r) (dd_vendor_name r) (dd_vendor_id r) (dd_device_id r) (dd_device_role r)
    (dd_ip_set r) (dd_name_set r) (dd_discovered_time_ms r).

(** [struct dcp_discovery]; [dc_callback]: a callback is set; [dc_trace]: the devices it
    was called with. *)
Record dcp_discovery := mk_dcp_discovery {
  dc_mac_address : list Z;
  dc_callback : bool;
  dc_running : bool;
  dc_devices : list dcp_device_info;
  dc_xid_counter : Z;
  dc_discovery_timeout_ms : Z;
  dc_trace : list dcp_device_info }.

#[export] Instance eta_dcp_discovery : Eta dcp_discovery := fun r =>
  mk_dcp_discovery (dc_mac_address r) (dc_callback r) (dc_running r) (dc_devices r)
    (dc_xid_counter r) (dc_discovery_timeout_ms r) (dc_trace r).

Definition tolower (c : ascii) : ascii :=
  let n := nat_of_ascii c in if ((65 <=? n) && (n <=? 90))%nat then ascii_of_nat (n + 32) else c.

Fixpoint normalize_station_name (s : string) : string :=
  match s with
  | String c s => String (tolower c) (normalize_station_name s)
  | EmptyString => ""
  end.

Definition has_mac (mac : list Z) (d : dcp_device_info) : Prop := dd_mac_address d = mac.
#[export] Instance has_mac_dec mac d : Decision (has_mac mac d).
Proof. unfold has_mac. apply _. Defined.

Definition find_device (dcp : dcp_discovery) (mac : list Z) : option (nat * dcp_device_info) :=
  list_find (has_mac mac) (dc_devices dcp).

(** [add_or_update_device]: the index of the entry. *)
Definition add_or_update_device (now : Z) (dcp : dcp_discovery) (mac : list Z)
    : option nat * dcp_discovery :=
  match find_device dcp mac with
  | Some (i, _) => (Some i, dcp)
  | None =>
      if (MAX_DISCOVERED_DEVICES <=? length (dc_devices dcp))%nat then (None, dcp)
      else (Some (length (dc_devices dcp)),
            dcp <| dc_devices ::= fun l => l ++ [mk_dcp_device_info mac 0 0 0 "" "" 0 0 0 false false now] |>)
  end.

(** A name of [n] bytes at [pos], cut to a 64-byte array. *)
Definition block_name (pos n : Z) : wire string :=
  bs <-- peek pos (Z.to_nat (Z.min n 63));; wret (cstring bs).

Definition peek_u16 (pos : Z) : wire Z := bs <-- peek pos 2;; wret (of_be 0 bs).
Definition peek_u32 (pos : Z) : wire Z := bs <-- peek pos 4;; wret (of_be 0 bs).

(** The [switch] of [parse_dcp_blocks]: what one block changes in the device entry. *)
Definition apply_block (block : dcp_block_header) (data : Z) (d : dcp_device_info)
    : wire dcp_device_info :=
  let sub := db_suboption block in
  let len := db_length block in
  if db_option block =? DCP_OPTION_IP then
    if (sub =? DCP_SUBOPTION_IP_PARAMETER) && (12 <=? len) then
      ip <-- peek_u32 (data + 2);;
      mask <-- peek_u32 (data + 6);;
      gw <-- peek_u32 (data + 10);;
      wret (d <| dd_ip_address := ip |> <| dd_subnet_mask := mask |> <| dd_gateway := gw |>
              <| dd_ip_set := true |>)
    else if (sub =? DCP_SUBOPTION_IP_MAC) && (6 <=? len) then
      mac <-- peek data 6;; wret (d <| dd_mac_address := mac |>)
    else wret d
  else if db_option block =? DCP_OPTION_DEVICE then
    if (sub =? DCP_SUBOPTION_DEVICE_VENDOR) && (2 <? len) then
      name <-- block_name (data + 2) (len - 2);; wret (d <| dd_vendor_name := name |>)
    else if (sub =? DCP_SUBOPTION_DEVICE_NAME) && (2 <? len) then
      name <-- block_name (data + 2) (len - 2);;
      wret (d <| dd_station_name := normalize_station_name name |> <| dd_name_set := true |>)
    else if (sub =? DCP_SUBOPTION_DEVICE_ID) && (6 <=? len) then
      vendor <-- peek_u16 (data + 2);;
      device <-- peek_u16 (data + 4);;
      wret (d <| dd_vendor_id := vendor |> <| dd_device_id := device |>)
    else if (sub =? DCP_SUBOPTION_DEVICE_ROLE) && (4 <=? len) then
      role <-- peek_u16 (data + 2);; wret (d <| dd_device_role := role |>)
    else wret d
  else wret d.

(** The loop of [parse_dcp_blocks]; an iteration consumes at least four bytes, so a fuel of
    the bytes pending is enough ([parse_blocks_fuel]). *)
Fixpoint parse_blocks (fuel : nat) (end_pos : Z) (d : dcp_device_info) : wire dcp_device_info :=
  match fuel with
  | O => wret d
  | S fuel =>
      fun c =>
        if (cu_pos c <? end_pos) && (4 <=? u64_sub (cu_limit c) (cu_pos c)) then
          match frame_parse_dcp_block c with
          | Oob => Oob
          | Fail _ c' => Ok d c'
          | Ok (block, data) c' =>
              (d' <-- apply_block block data d;;
               (if Z.odd (db_length block) then attempt (frame_skip_bytes 1) else wret tt);;;
               parse_blocks fuel end_pos d') c'
          end
        else Ok d c
  end.

Definition parse_dcp_blocks (d : dcp_device_info) (data_length : Z) : wire dcp_device_info := fun c =>
  parse_blocks (length (cu_buffer c)) (cu_pos c + data_length) d c.

(** The header part of [dcp_process_frame]: source MAC and DCP header. *)
Definition parse_dcp_frame : wire (list Z * profinet_dcp_header) :=
  '(_, src_mac, ethertype) <-- frame_parse_ethernet;;
  if negb (ethertype =? PROFINET_ETHERTYPE) then wfail WTC_ERROR_PROTOCOL
  else
    frame_id <-- frame_read_u16;;
    if (frame_id <? PROFINET_FRAME_ID_DCP) || (PROFINET_FRAME_ID_DCP_IDENT_RESP <? frame_id)
    then wfail WTC_ERROR_PROTOCOL
    else h <-- frame_parse_dcp_header;; wret (src_mac, h).

(** [dcp_process_frame]; [None]: memory outside the frame was read. *)
Definition dcp_process_frame (now : Z) (dcp : dcp_discovery) (frame : list Z)
    : option (wtc_result * dcp_discovery) :=
  match parse_dcp_frame (frame_parser_init frame (Z.of_nat (length frame))) with
  | Oob => None
  | Fail _ _ => Some (WTC_ERROR_PROTOCOL, dcp)
  | Ok (src_mac, h) c =>
      if negb (dcp_service_id h =? DCP_SERVICE_IDENTIFY) ||
         negb (dcp_service_type h =? DCP_SERVICE_TYPE_RESPONSE_OK) then Some (WTC_OK, dcp)
      else
        let '(e, dcp) := add_or_update_device now dcp src_mac in
        match e with
        | None => Some (WTC_ERROR_FULL, dcp)
        | Some i =>
            match dc_devices dcp !! i with
            | None => Some (WTC_ERROR_FULL, dcp)
            | Some d =>
                match parse_dcp_blocks d (dcp_data_length h) c with
                | Ok d' _ =>
                    let dcp := dcp <| dc_devices ::= <[i := d']> |> in
                    Some (WTC_OK, if dc_running dcp && dc_callback dcp
                                  then dcp <| dc_trace ::= fun l => l ++ [d'] |> else dcp)
                | Fail _ _ => Some (WTC_OK, dcp)
                | Oob => None
                end
            end
        end
  end.

(** ** Requests *)

(** The frame built by the steps of a request, padded to the minimum length; the errors of
    the steps are ignored. *)
Definition request_frame (size : nat) (src dst : list Z) (body : wire unit) : option (list Z) :=
  match (attempt (frame_build_ethernet src dst PROFINET_ETHERTYPE);;; attempt body;;;
         attempt (frame_append_padding ETH_MIN_FRAME_LEN))
          (mk_cursor (replicate size 0) (Z.of_nat size) 0) with
  | Ok _ c | Fail _ c => Some (content c)
  | Oob => None
  end.

(** [++discovery->xid_counter], then the frame is handed to [sendto]. *)
Definition send_request (send_ok : bool) (size : nat) (dst : list Z) (body : Z -> wire unit)
    (dcp : dcp_discovery) : option (wtc_result * dcp_discovery * list Z) :=
  let xid := wrap32 (dc_xid_counter dcp + 1) in
  let dcp := dcp <| dc_xid_counter := xid |> in
  match request_frame size (dc_mac_address dcp) dst (body xid) with
  | None => None
  | Some frame => Some (if send_ok then WTC_OK else WTC_ERROR_IO, dcp, frame)
  end.

Definition dcp_discovery_identify_all (send_ok : bool) (dcp : dcp_discovery) :=
  send_request send_ok 128 DCP_MULTICAST_ADDR (fun xid => frame_build_dcp_identify xid None) dcp.

Definition dcp_discovery_identify_name (send_ok : bool) (dcp : dcp_discovery) (station_name : string) :=
  send_request send_ok 256 DCP_MULTICAST_ADDR
    (fun xid => frame_build_dcp_identify xid (Some station_name)) dcp.

Definition dcp_signal_device (send_ok : bool) (dcp : dcp_discovery) (mac : list Z) :=
  send_request send_ok 128 mac (fun xid => frame_build_dcp_set xid DCP_OPTION_CONTROL
    DCP_SUBOPTION_CONTROL_SIGNAL (be16 0 ++ be16 0x0100)) dcp.

Definition dcp_reset_to_factory (send_ok : bool) (dcp : dcp_discovery) (mac : list Z) :=
  send_request send_ok 128 mac (fun xid => frame_build_dcp_set xid DCP_OPTION_CONTROL
    DCP_SUBOPTION_CONTROL_RESET_TO_FACTORY (be16 0 ++ be16 0x0002)) dcp.

(** ** The cache *)

(** [dcp_discovery_init] after the socket was opened. *)
Definition dcp_discovery_init (mac : list Z) : dcp_discovery :=
  mk_dcp_discovery mac false false [] 0 DCP_DEFAULT_TIMEOUT_MS [].

Definition dcp_discovery_start (dcp : dcp_discovery) (callback : bool) : dcp_discovery :=
  dcp <| dc_callback := callback |> <| dc_running := true |>.

Definition dcp_discovery_stop (dcp : dcp_discovery) : dcp_discovery :=
  dcp <| dc_running := false |> <| dc_callback := false |>.

(** [copy_count * sizeof] as a [size_t]: a negative [max_count] would be a huge copy. *)
Definition dcp_get_devices (dcp : dcp_discovery) (max_count : Z) : option (list dcp_device_info) :=
  let copy_count := Z.min (Z.of_nat (length (dc_devices dcp))) max_count in
  if copy_count <? 0 then None else Some (take (Z.to_nat copy_count) (dc_devices dcp)).

Definition dcp_clear_cache (dcp : dcp_discovery) : dcp_discovery := dcp <| dc_devices := [] |>.

Definition dcp_set_discovery_timeout (dcp : dcp_discovery) (timeout_ms : Z) : dcp_discovery :=
  dcp <| dc_discovery_timeout_ms :=
    if timeout_ms <? 100 then 100 else if 10000 <? timeout_ms then 10000 else timeout_ms |>.

Definition dcp_get_discovery_timeout (dcp : option dcp_discovery) : Z :=
  match dcp with Some d => dc_discovery_timeout_ms d | None => DCP_DEFAULT_TIMEOUT_MS end.

(** ** Reading a block *)

Lemma peek_ok pos n c :
  0 <= pos -> pos + Z.of_nat n <= Z.of_nat (length (cu_buffer c)) ->
  peek pos n c = Ok (take n (drop (Z.to_nat pos) (cu_buffer c))) c.
Proof.
  intros H0 Hn. unfold peek. by rewrite (proj2 (Z.leb_le _ _)), (proj2 (Z.leb_le _ _)) by lia.
Qed.

(** A block that is read starts at the cursor and lies within the frame. *)
Lemma parse_dcp_block_cases c :
  wf c ->
  match frame_parse_dcp_block c with
  | Oob => False
  | Fail _ c' => wf c' /\ cu_buffer c' = cu_buffer c
  | Ok (block, data) c' =>
      wf c' /\ cu_buffer c' = cu_buffer c /\ data = cu_pos c + 4 /\
      0 <= db_length block /\ cu_pos c' = data + db_length block /\
      exists x y, take 4 (pending c) = [db_option block; db_suboption block; x; y] /\
        db_length block = of_be 0 [x; y]
  end.
Proof.
  intros Hc. unfold frame_parse_dcp_block.
  destruct (Z.ltb_spec (Z.of_nat (length (pending c))) 4) as [Hlt|Hge].
  { rewrite guard_fails by done. done. }
  destruct (pending c) as [|a [|b [|x [|y rest]]]] eqn:Hp; cbn in Hge; try lia.
  unfold wbind at 1. rewrite remaining_ok, Hp by done.
  rewrite (proj2 (Z.ltb_ge _ _)) by (cbn; lia).
  destruct (reads_u8 a c (b :: x :: y :: rest) Hc Hp) as (c1 & E1 & Hc1 & Hp1 & Hb1 & Hpos1 & Hl1).
  destruct (reads_u8 b c1 (x :: y :: rest) Hc1 Hp1) as (c2 & E2 & Hc2 & Hp2 & Hb2 & Hpos2 & Hl2).
  destruct (reads_bind_ret (fetch 2) (of_be 0) [x; y] [x; y] (reads_fetch [x; y]) c2 rest Hc2 Hp2)
    as (c3 & E3 & Hc3 & Hp3 & Hb3 & Hpos3 & Hl3).
  fold fetch_u16 in E3. unfold wbind. rewrite E1, E2, E3, remaining_ok by done.
  assert (0 <= of_be 0 [x; y]) as Hlen.
  { apply of_be_range; [lia|]. pose proof (pending_bytes c Hc) as Hby. rewrite Hp in Hby.
    exact (Forall_take is_u8 2 _ (Forall_drop is_u8 2 _ Hby)). }
  destruct (Z.ltb_spec (Z.of_nat (length (pending c3))) (of_be 0 [x; y])) as [Hsh|Hok].
  { cbn. split; [done|congruence]. }
  cbn [get_pos skip wret db_length]. set (len := of_be 0 [x; y]) in *.
  assert (wf (advance (Z.to_nat len) c3)) as Hadv by (apply wf_advance; [done|lia]).
  unfold advance in Hadv. rewrite Z2Nat.id in Hadv by done.
  cbn [length] in *. split_and!; [done|cbn; congruence|lia|done|cbn; lia|].
  exists x, y. done.
Qed.

(** ** The only way out of the frame *)

(** At offset [p] an IP parameter block announces 12 or 13 bytes of data, with the frame
    ending before the 14 bytes that are read. *)
Definition short_ip_block (frame : list Z) (p : nat) : Prop :=
  exists x y, take 4 (drop p frame) = [DCP_OPTION_IP; DCP_SUBOPTION_IP_PARAMETER; x; y] /\
    12 <= of_be 0 [x; y] < 14 /\ (length frame < p + 4 + 14)%nat.

Lemma apply_block_cases block data d c :
  0 <= data -> 0 <= db_length block -> data + db_length block <= Z.of_nat (length (cu_buffer c)) ->
  (exists d', apply_block block data d c = Ok d' c) \/
  (apply_block block data d c = Oob /\ db_option block = DCP_OPTION_IP /\
   db_suboption block = DCP_SUBOPTION_IP_PARAMETER /\ 12 <= db_length block < 14 /\
   Z.of_nat (length (cu_buffer c)) < data + 14).
Proof.
  intros Hd Hl Hfit. unfold apply_block, block_name, peek_u16, peek_u32, wbind.
  destruct (Z.eqb_spec (db_option block) DCP_OPTION_IP) as [Ho|Ho].
  - destruct ((db_suboption block =? DCP_SUBOPTION_IP_PARAMETER) && (12 <=? db_length block)) eqn:E.
    + reflect. destruct (Z_lt_dec (Z.of_nat (length (cu_buffer c))) (data + 14)) as [Hs|Hs].
      * right. split_and!; try done; try lia. rewrite (peek_ok (data + 2)) by lia. unfold wret.
        rewrite (peek_ok (data + 6)) by lia. unfold peek.
        by rewrite (proj2 (Z.leb_gt (data + 10 + _) _)), andb_false_r by lia.
      * left. unfold wret. repeat (rewrite peek_ok by lia). by eexists.
    + left. destruct ((db_suboption block =? DCP_SUBOPTION_IP_MAC) && (6 <=? db_length block)) eqn:E2; [|by eexists].
      reflect. rewrite peek_ok by lia. by eexists.
  - left. destruct (db_option block =? DCP_OPTION_DEVICE); [|by eexists].
    repeat match goal with |- context [if ?b then _ else _] => destruct b eqn:? end; reflect;
      try (by eexists); unfold wret; repeat (rewrite peek_ok by lia); by eexists.
Qed.

Lemma parse_blocks_cases fuel end_pos d c :
  wf c ->
  match parse_blocks fuel end_pos d c with
  | Ok _ c' => wf c' /\ cu_buffer c' = cu_buffer c
  | Fail _ _ => False
  | Oob => exists p, short_ip_block (cu_buffer c) p
  end.
Proof.
  revert d c. induction fuel as [|fuel IH]; intros d c Hc; [done|]. cbn [parse_blocks].
  destruct ((cu_pos c <? end_pos) && _); [|done].
  pose proof (parse_dcp_block_cases c Hc) as Hb.
  destruct (frame_parse_dcp_block c) as [[block data] c1|e c1|]; [|done|done].
  destruct Hb as (Hc1 & Hbuf & -> & Hlen & Hpos & x & y & Hp & Hxy).
  pose proof Hc as ((Hp0 & _) & _).
  assert (cu_pos c + 4 + db_length block <= Z.of_nat (length (cu_buffer c1))) as Hfit.
  { destruct Hc1 as ((_ & ?) & ? & _). lia. }
  unfold wbind. destruct (apply_block_cases block (cu_pos c + 4) d c1 ltac:(lia) Hlen Hfit)
    as [[d' ->]|(-> & Ho & Hs & Hl & Hshort)].
  - destruct (Z.odd (db_length block)).
    + unfold attempt. pose proof (safe_skip_bytes 1 ltac:(lia) c1 Hc1) as Hs.
      destruct (frame_skip_bytes 1 c1) as [u c2|e c2|]; [| |done];
        destruct Hs as (Hc2 & Hb2 & _); specialize (IH d' c2 Hc2); rewrite Hb2, Hbuf in IH; exact IH.
    + cbn [wret]. specialize (IH d' c1 Hc1). rewrite Hbuf in IH. exact IH.
  - exists (Z.to_nat (cu_pos c)). exists x, y. unfold pending in Hp. rewrite Hp, Ho, Hs.
    rewrite Hbuf in Hshort. split_and!; try done; try lia.
Qed.

Lemma parse_dcp_frame_safe : safe parse_dcp_frame.
Proof.
  unfold parse_dcp_frame. apply safe_bind; [auto with wire|]. intros [[dst src] et].
  destruct (negb _); [auto with wire|]. apply safe_bind; [auto with wire|]. intros fid.
  destruct (_ || _); [auto with wire|]. apply safe_bind; auto with wire.
Qed.

(** C35: Processing a received DCP frame never reads outside it, except for an IP parameter
    block that announces 12 or 13 bytes at the very end of the frame. *)
Theorem dcp_reads_within_frame now dcp frame :
  is_bytes frame -> Z.of_nat (length frame) < 2 ^ 63 ->
  (forall p, ~ short_ip_block frame p) -> dcp_process_frame now dcp frame <> None.
Proof.
  intros Hb Hl Hno. unfold dcp_process_frame.
  pose proof (parse_dcp_frame_safe (frame_cursor frame) (wf_frame_cursor frame Hb Hl)) as Hsafe.
  change (frame_parser_init frame (Z.of_nat (length frame))) with (frame_cursor frame).
  destruct (parse_dcp_frame (frame_cursor frame)) as [[src h] c|e c|]; [|done|done].
  destruct Hsafe as (Hc & Hbuf & _). destruct (_ || _); [done|].
  destruct (add_or_update_device now dcp src) as [[i|] dcp1]; [|done].
  destruct (dc_devices dcp1 !! i) as [d|]; [|done].
  pose proof (parse_blocks_cases (length (cu_buffer c)) (cu_pos c + dcp_data_length h) d c Hc) as Hp.
  unfold parse_dcp_blocks. destruct (parse_blocks _ _ d c); [done|done|].
  destruct Hp as [p Hp]. rewrite Hbuf in Hp. by destruct (Hno p).
Qed.

(** ** Decoding a response

    A block as sent: option, suboption and data.  [apply_data] is its meaning. *)

Definition dcp_block : Type := Z * Z * list Z.

(** Bytes [a, a + n) of a block's data. *)
Definition sub_bytes (a n : nat) (data : list Z) : list Z := take n (drop a data).

Definition apply_data (b : dcp_block) (d : dcp_device_info) : dcp_device_info :=
  let '(option, sub, data) := b in
  let len := Z.of_nat (length data) in
  if option =? DCP_OPTION_IP then
    if (sub =? DCP_SUBOPTION_IP_PARAMETER) && (12 <=? len) then
      d <| dd_ip_address := of_be 0 (sub_bytes 2 4 data) |>
        <| dd_subnet_mask := of_be 0 (sub_bytes 6 4 data) |>
        <| dd_gateway := of_be 0 (sub_bytes 10 4 data) |> <| dd_ip_set := true |>
    else if (sub =? DCP_SUBOPTION_IP_MAC) && (6 <=? len) then
      d <| dd_mac_address := sub_bytes 0 6 data |>
    else d
  else if option =? DCP_OPTION_DEVICE then
    if (sub =? DCP_SUBOPTION_DEVICE_VENDOR) && (2 <? len) then
      d <| dd_vendor_name := cstring (sub_bytes 2 63 data) |>
    else if (sub =? DCP_SUBOPTION_DEVICE_NAME) && (2 <? len) then
      d <| dd_station_name := normalize_station_name (cstring (sub_bytes 2 63 data)) |>
        <| dd_name_set := true |>
    else if (sub =? DCP_SUBOPTION_DEVICE_ID) && (6 <=? len) then
      d <| dd_vendor_id := of_be 0 (sub_bytes 2 2 data) |>
        <| dd_device_id := of_be 0 (sub_bytes 4 2 data) |>
    else if (sub =? DCP_SUBOPTION_DEVICE_ROLE) && (4 <=? len) then
      d <| dd_device_role := of_be 0 (sub_bytes 2 2 data) |>
    else d
  else d.

(** Blocks that can be sent; an IP parameter block is complete. *)
Definition block_ok (b : dcp_block) : Prop :=
  let '(option, sub, data) := b in
  Z.of_nat (length data) < 65536 /\
  (option = DCP_OPTION_IP -> sub = DCP_SUBOPTION_IP_PARAMETER -> 14 <= Z.of_nat (length data)).

Definition block_bytes (b : dcp_block) : list Z :=
  let '(option, sub, data) := b in dcp_block_bytes option sub data.

(** Reading inside the data that starts at [pos]. *)
Lemma peek_data (buf data : list Z) pos a n c rest :
  cu_buffer c = buf -> drop (Z.to_nat pos) buf = data ++ rest ->
  0 <= pos <= Z.of_nat (length buf) -> (a + n <= length data)%nat ->
  peek (pos + Z.of_nat a) n c = Ok (sub_bytes a n data) c.
Proof.
  intros <- Hd Hp Hn. pose proof (f_equal length Hd) as Hlen. rewrite length_drop, length_app in Hlen.
  rewrite peek_ok by lia. f_equal. rewrite Z2Nat.inj_add, Nat2Z.id, <- drop_drop, Hd by lia.
  unfold sub_bytes. rewrite drop_app_le by lia. rewrite take_app_le by (rewrite length_drop; lia). done.
Qed.

Lemma sub_bytes_cut a n m (data : list Z) :
  (length data - a <= n)%nat -> (length data - a <= m)%nat -> sub_bytes a n data = sub_bytes a m data.
Proof. intros. unfold sub_bytes. rewrite !take_ge by (rewrite length_drop; lia). done. Qed.

Lemma apply_block_data option sub data pos c rest d :
  block_ok (option, sub, data) -> 0 <= pos <= Z.of_nat (length (cu_buffer c)) -> drop (Z.to_nat pos) (cu_buffer c) = data ++ rest ->
  apply_block (mk_dcp_block_header option sub (Z.of_nat (length data))) pos d c
  = Ok (apply_data (option, sub, data) d) c.
Proof.
  intros [Hlen Hip] Hpos Hd. unfold apply_block, apply_data. cbn [db_option db_suboption db_length].
  assert (forall a n k, pos + Z.of_nat a = k -> (a + n <= length data)%nat ->
            peek k n c = Ok (sub_bytes a n data) c) as Hpk.
  { intros a n k <- Hn. by eapply peek_data. }
  unfold peek_u16, peek_u32, block_name, wbind, wret.
  destruct (Z.eqb_spec option DCP_OPTION_IP) as [Ho|Ho].
  - destruct ((sub =? DCP_SUBOPTION_IP_PARAMETER) && (12 <=? Z.of_nat (length data))) eqn:E.
    + reflect. assert (14 <= Z.of_nat (length data)) by (by apply Hip).
      rewrite (Hpk 2%nat 4%nat) by lia. rewrite (Hpk 6%nat 4%nat) by lia.
      by rewrite (Hpk 10%nat 4%nat) by lia.
    + clear E. destruct ((sub =? DCP_SUBOPTION_IP_MAC) && (6 <=? Z.of_nat (length data))) eqn:E2; [|done].
      reflect. by rewrite (Hpk 0%nat 6%nat) by lia.
  - destruct (option =? DCP_OPTION_DEVICE); [|done].
    assert (forall k, 2 < Z.of_nat (length data) -> k = pos + 2 ->
      peek k (Z.to_nat (Z.min (Z.of_nat (length data) - 2) 63)) c = Ok (sub_bytes 2 63 data) c) as Hname.
    { intros k H2 ->. rewrite (Hpk 2%nat) by lia. f_equal.
      destruct (Z_le_dec (Z.of_nat (length data) - 2) 63).
      - apply sub_bytes_cut; lia.
      - rewrite Z.min_r by lia. done. }
    destruct ((sub =? DCP_SUBOPTION_DEVICE_VENDOR) && _) eqn:E1; [reflect; by rewrite Hname by lia|].
    destruct ((sub =? DCP_SUBOPTION_DEVICE_NAME) && _) eqn:E2; [reflect; by rewrite Hname by lia|].
    destruct ((sub =? DCP_SUBOPTION_DEVICE_ID) && _) eqn:E3.
    { clear E1 E2. reflect. rewrite (Hpk 2%nat 2%nat) by lia. by rewrite (Hpk 4%nat 2%nat) by lia. }
    destruct ((sub =? DCP_SUBOPTION_DEVICE_ROLE) && _) eqn:E4; [|done].
    clear E1 E2 E3. reflect. by rewrite (Hpk 2%nat 2%nat) by lia.
Qed.

Definition blocks_bytes (blocks : list dcp_block) : list Z := concat (block_bytes <$> blocks).

(** The padding after a block is skipped. *)
Lemma skip_padding_ok n c rest :
  wf c -> pending c = padding n ++ rest ->
  exists c', (if Z.odd (Z.of_nat n) then attempt (frame_skip_bytes 1) else wret tt) c = Ok tt c' /\
    wf c' /\ pending c' = rest /\ cu_buffer c' = cu_buffer c /\
    cu_pos c' = cu_pos c + Z.of_nat (length (padding n)).
Proof.
  intros Hc Hp. unfold padding in *. destruct (Z.odd (Z.of_nat n)).
  - unfold attempt, frame_skip_bytes, wbind. rewrite remaining_ok, Hp by done. cbn [length app].
    rewrite (proj2 (Z.ltb_ge _ _)) by lia. eexists. split; [reflexivity|].
    change (c <| cu_pos ::= fun p => p + 1 |>) with (advance 1 c).
    split_and!; [apply wf_advance; [done|rewrite Hp; cbn; lia]|by rewrite pending_advance, Hp|done|done].
  - exists c. cbn. split_and!; try done. lia.
Qed.

Lemma parse_blocks_fold fuel end_pos blocks d c rest :
  wf c -> Forall block_ok blocks -> pending c = blocks_bytes blocks ++ rest ->
  cu_pos c + Z.of_nat (length (blocks_bytes blocks)) = end_pos -> (length blocks <= fuel)%nat ->
  exists c', parse_blocks fuel end_pos d c = Ok (foldl (fun d b => apply_data b d) d blocks) c'.
Proof.
  revert fuel d c. induction blocks as [|[[o s] data] blocks IH]; intros fuel d c Hc Hok Hp Hend Hf.
  - exists c. destruct fuel; [done|]. cbn in Hend |- *. by rewrite (proj2 (Z.ltb_ge _ _)) by lia.
  - destruct fuel as [|fuel]; [cbn in Hf; lia|].
    apply Forall_cons in Hok as [Hb Hok]. pose proof Hb as [Hlen _].
    unfold blocks_bytes in Hp, Hend. cbn [fmap list_fmap concat block_bytes] in Hp, Hend.
    fold (blocks_bytes blocks) in Hp, Hend. rewrite length_app in Hend.
    unfold dcp_block_bytes in Hp. rewrite <- !app_assoc in Hp.
    destruct (parse_dcp_block_reads o s data c _ Hlen Hc Hp)
      as (c1 & Hrun & Hd & Hc1 & Hp1 & Hb1 & Hpos1 & Hl1).
    destruct (skip_padding_ok (length data) c1 _ Hc1 Hp1) as (c2 & Hskip & Hc2 & Hp2 & Hb2 & Hpos2).
    assert (Z.of_nat (length (dcp_block_bytes o s data))
            = 4 + Z.of_nat (length data) + Z.of_nat (length (padding (length data)))) as Hdl.
    { unfold dcp_block_bytes. rewrite !length_app. cbn. lia. }
    pose proof (pending_length c Hc) as Hpl. rewrite Hp in Hpl. cbn in Hpl.
    pose proof Hc as ((Hpos & _) & Hlim & Hmax & _).
    cbn [parse_blocks]. rewrite (proj2 (Z.ltb_lt _ _)) by lia.
    rewrite u64_sub_le by (unfold is_u64; lia). rewrite (proj2 (Z.leb_le _ _)) by lia. cbn [andb].
    rewrite Hrun. unfold wbind. erewrite apply_block_data; [|done| |rewrite Hb1; exact Hd].
    2:{ destruct Hc1 as (? & ? & _). rewrite Hb1 in *. lia. }
    cbn [db_length]. rewrite Hskip. cbn [foldl].
    apply IH; [done|done|done|lia|cbn in Hf; lia].
Qed.

(** An identify response of station [src] with the given blocks; [tail] is what follows
    (padding to the minimum frame length). *)
Definition identify_response (dst src : list Z) (xid delay : Z) (blocks : list dcp_block)
    (tail : list Z) : list Z :=
  eth_bytes src dst PROFINET_ETHERTYPE ++
  dcp_header_bytes PROFINET_FRAME_ID_DCP_IDENT_RESP
    (mk_profinet_dcp_header DCP_SERVICE_IDENTIFY DCP_SERVICE_TYPE_RESPONSE_OK xid delay
       (Z.of_nat (length (blocks_bytes blocks)))) ++
  blocks_bytes blocks ++ tail.

Definition blank_device (now : Z) (mac : list Z) : dcp_device_info :=
  mk_dcp_device_info mac 0 0 0 "" "" 0 0 0 false false now.

Lemma parse_dcp_frame_reads dst src frame_id h :
  length dst = ETH_ADDR_LEN -> length src = ETH_ADDR_LEN ->
  PROFINET_FRAME_ID_DCP <= frame_id <= PROFINET_FRAME_ID_DCP_IDENT_RESP -> dcp_header_ok h ->
  reads parse_dcp_frame (eth_bytes src dst PROFINET_ETHERTYPE ++ dcp_header_bytes frame_id h) (src, h).
Proof.
  intros Hd Hs Hid Hh. unfold parse_dcp_frame. eapply reads_bind; [by apply parse_ethernet_reads|].
  cbv beta iota. rewrite Z.eqb_refl. cbn [negb].
  assert (is_u16 frame_id) as Hu by (unfold is_u16, PROFINET_FRAME_ID_DCP, PROFINET_FRAME_ID_DCP_IDENT_RESP in *; lia).
  intros c rest Hc Hp. pose proof (parse_dcp_header_reads frame_id h Hu Hh c rest Hc Hp)
    as (c' & Hrun & Hrest). exists c'. split; [|done]. revert Hrun. unfold wbind.
  destruct (frame_read_u16 c) as [v c1|e c1|]; [|done..].
  destruct (frame_parse_dcp_header c1) as [h' c2|e c2|] eqn:E; [|done..]. intros [= -> -> ->].
  rewrite (proj2 (Z.ltb_ge _ _)), (proj2 (Z.ltb_ge _ _)) by lia. cbn [orb]. by rewrite E.
Qed.

(** An identify response is decoded into the cache: the entry of its sender (an existing
    one, or a new one while there is room) takes the meaning of each block in turn, and no
    other entry changes. *)
Theorem identify_response_decoded now dcp dst src xid delay blocks tail :
  is_bytes (identify_response dst src xid delay blocks tail) ->
  Z.of_nat (length (identify_response dst src xid delay blocks tail)) < 2 ^ 63 ->
  length dst = ETH_ADDR_LEN -> length src = ETH_ADDR_LEN -> is_u32 xid -> is_u16 delay ->
  Forall block_ok blocks -> is_u16 (Z.of_nat (length (blocks_bytes blocks))) ->
  (length (dc_devices dcp) < MAX_DISCOVERED_DEVICES)%nat ->
  let decode := fun d => foldl (fun d b => apply_data b d) d blocks in
  exists dcp', dcp_process_frame now dcp (identify_response dst src xid delay blocks tail)
               = Some (WTC_OK, dcp') /\
  dc_devices dcp' =
    match find_device dcp src with
    | Some (i, d) => <[i := decode d]> (dc_devices dcp)
    | None => dc_devices dcp ++ [decode (blank_device now src)]
    end.
Proof.
  intros Hb Hl Hdst Hsrc Hxid Hdel Hok Hlen Hroom decode. unfold dcp_process_frame.
  set (frame := identify_response dst src xid delay blocks tail) in *.
  set (h := mk_profinet_dcp_header DCP_SERVICE_IDENTIFY DCP_SERVICE_TYPE_RESPONSE_OK xid delay
              (Z.of_nat (length (blocks_bytes blocks)))).
  change (frame_parser_init frame (Z.of_nat (length frame))) with (frame_cursor frame).
  destruct (parse_dcp_frame_reads dst src PROFINET_FRAME_ID_DCP_IDENT_RESP h Hdst Hsrc
    ltac:(vm_compute; split; discriminate) ltac:(done)
    (frame_cursor frame) (blocks_bytes blocks ++ tail) (wf_frame_cursor frame Hb Hl))
    as (c & -> & Hc & Hp & Hbuf & _).
  { rewrite pending_frame_cursor. unfold frame, identify_response. by rewrite <- app_assoc. }
  cbn [dcp_service_id dcp_service_type dcp_data_length h].
  replace (negb (DCP_SERVICE_IDENTIFY =? DCP_SERVICE_IDENTIFY) ||
           negb (DCP_SERVICE_TYPE_RESPONSE_OK =? DCP_SERVICE_TYPE_RESPONSE_OK)) with false by done.
  assert (forall d, exists c', parse_dcp_blocks d (Z.of_nat (length (blocks_bytes blocks))) c
            = Ok (decode d) c') as Hparse.
  { intros d. unfold parse_dcp_blocks. eapply parse_blocks_fold; [done|done|done|done|].
    pose proof (pending_length c Hc) as Hpl. destruct Hc as (? & ? & _). rewrite Hp, length_app in Hpl.
    assert (length blocks <= length (blocks_bytes blocks))%nat; [|lia].
    clear. unfold blocks_bytes. induction blocks as [|[[o s] data] bl IH]; [done|].
    rewrite fmap_cons. cbn [concat length]. rewrite length_app. unfold block_bytes at 1, dcp_block_bytes.
    cbn [length app]. lia. }
  unfold add_or_update_device. destruct (find_device dcp src) as [[i d]|] eqn:Hf.
  - pose proof Hf as (Hi & _)%list_find_Some. rewrite Hi. destruct (Hparse d) as [c' ->].
    eexists. split; [reflexivity|]. by destruct (_ && _).
  - rewrite (proj2 (Nat.leb_gt _ _)) by done. cbn [dc_devices set eta_dcp_discovery].
    rewrite list_lookup_middle by done. destruct (Hparse (blank_device now src)) as [c' Hpc].
    fold (blank_device now src). rewrite Hpc. eexists. split; [reflexivity|].
    assert (forall (l : list dcp_device_info) x y, <[length l := y]> (l ++ [x]) = l ++ [y]) as Hins
      by (intros l x y; by rewrite insert_app_r_alt, Nat.sub_diag by lia).
    destruct (_ && _); cbn; apply Hins.
Qed.

(** The loop needs no more fuel than there are bytes pending. *)
Lemma parse_blocks_fuel n m end_pos d c :
  wf c -> cu_limit c - cu_pos c <= Z.of_nat n -> (n <= m)%nat ->
  parse_blocks m end_pos d c = parse_blocks n end_pos d c.
Proof.
  revert m d c. induction n as [|n IH]; intros m d c Hc Hn Hm.
  - destruct m as [|m]; [done|]. cbn. pose proof Hc as ((? & ?) & ? & ? & _).
    rewrite u64_sub_le by (unfold is_u64; lia).
    rewrite (proj2 (Z.leb_gt 4 _)) by lia. by rewrite andb_false_r.
  - destruct m as [|m]; [lia|]. cbn [parse_blocks]. destruct (_ && _); [|done].
    pose proof (parse_dcp_block_cases c Hc) as Hb.
    destruct (frame_parse_dcp_block c) as [[block data] c1|e c1|]; [|done..].
    destruct Hb as (Hc1 & Hbuf & -> & Hlen & Hpos & _). pose proof Hc as ((? & ?) & Hl & _).
    pose proof Hc1 as (_ & Hl1 & _). rewrite Hbuf in Hl1.
    assert (cu_pos c + 4 + db_length block <= Z.of_nat (length (cu_buffer c1))) as Hfit
      by (destruct Hc1 as ((_ & ?) & ? & _); lia).
    unfold wbind. destruct (apply_block_cases block (cu_pos c + 4) d c1 ltac:(lia) Hlen Hfit)
      as [[d' ->]|(-> & _)]; [|done].
    destruct (Z.odd (db_length block)).
    + unfold attempt. pose proof (safe_skip_bytes 1 ltac:(lia) c1 Hc1) as Hs.
      destruct (frame_skip_bytes 1 c1) as [u c2|e c2|]; [| |done]; destruct Hs as (Hc2 & Hb2 & Hp2);
        pose proof Hc2 as (_ & Hl2 & _); rewrite Hb2, Hbuf in Hl2; (apply IH; [done|lia|lia]).
    + cbn [wret]. apply IH; [done|lia|lia].
Qed.

(** [parse_dcp_blocks] terminates on every frame: its loop ends within as many
    iterations as the frame has bytes, whatever lengths the blocks announce. *)
Theorem parse_dcp_blocks_terminates c d data_length extra :
  wf c ->
  parse_blocks (length (cu_buffer c) + extra) (cu_pos c + data_length) d c
  = parse_dcp_blocks d data_length c.
Proof.
  intros Hc. unfold parse_dcp_blocks. apply parse_blocks_fuel; [done| |lia].
  destruct Hc as (? & ? & _). lia.
Qed.

(** ** Concrete frames *)

Module DcpDemo.

Definition me : list Z := [2; 0; 0; 0; 0; 1].
Definition rtu : list Z := [2; 0; 0; 0; 0; 9].

Definition name_block : dcp_block :=
  (DCP_OPTION_DEVICE, DCP_SUBOPTION_DEVICE_NAME, [0; 0] ++ string_bytes "RTU-Tank-1").
Definition ip_block : dcp_block :=
  (DCP_OPTION_IP, DCP_SUBOPTION_IP_PARAMETER, [0; 0] ++ be32 3232235786 ++ be32 4294967040 ++ be32 0).
Definition id_block : dcp_block :=
  (DCP_OPTION_DEVICE, DCP_SUBOPTION_DEVICE_ID, [0; 0] ++ be16 1171 ++ be16 1).
Definition mac_block (mac : list Z) : dcp_block := (DCP_OPTION_IP, DCP_SUBOPTION_IP_MAC, mac).

(** Process the given frames one after the other. *)
Definition after (frames : list (list Z)) : option dcp_discovery :=
  foldl (fun s f => dcp ← s; snd <$> dcp_process_frame 5 dcp f) (Some (dcp_discovery_init me)) frames.

Lemma identify_response_decoded_witness :
  exists dcp', dcp_process_frame 5 (dcp_discovery_init me)
      (identify_response me rtu 1 0 [name_block; ip_block; id_block] []) = Some (WTC_OK, dcp') /\
  dc_devices dcp' =
    [mk_dcp_device_info rtu 3232235786 4294967040 0 "rtu-tank-1" "" 1171 1 0 true true 5].
Proof.
  destruct (identify_response_decoded 5 (dcp_discovery_init me) me rtu 1 0
    [name_block; ip_block; id_block] []) as (dcp' & H1 & H2).
  - vm_compute. repeat constructor; intros H; discriminate H.
  - vm_compute. reflexivity.
  - reflexivity.
  - reflexivity.
  - by vm_compute.
  - by vm_compute.
  - by repeat constructor; vm_compute; intros; try done.
  - by vm_compute.
  - vm_compute. lia.
  - exists dcp'. split; [exact H1|]. rewrite H2. vm_compute. reflexivity.
Defined.

Lemma dcp_reads_within_frame_witness :
  dcp_process_frame 5 (dcp_discovery_init me) (identify_response me rtu 1 0 [name_block] []) <> None.
Proof.
  apply (dcp_reads_within_frame 5 (dcp_discovery_init me)
           (identify_response me rtu 1 0 [name_block] [])).
  - vm_compute. repeat constructor; intros H; discriminate H.
  - vm_compute. reflexivity.
  - intros p (x & y & H & [Hxy _] & _). assert (p < 42)%nat.
    { apply (f_equal length) in H. rewrite length_take, length_drop in H.
      replace (length (identify_response me rtu 1 0 [name_block] [])) with 42%nat in H by reflexivity.
      cbn [length] in H. lia. }
    do 42 (destruct p as [|p]; [vm_compute in H; first [discriminate H | injection H as <- <-; vm_compute in Hxy; by destruct Hxy]|]). lia.
Defined.

Lemma parse_dcp_blocks_terminates_witness :
  parse_blocks (length (blocks_bytes [name_block]) + 1000) (0 + 65535) (blank_device 5 rtu)
    (frame_cursor (blocks_bytes [name_block]))
  = parse_dcp_blocks (blank_device 5 rtu) 65535 (frame_cursor (blocks_bytes [name_block])).
Proof.
  apply (parse_dcp_blocks_terminates (frame_cursor (blocks_bytes [name_block])) (blank_device 5 rtu) 65535 1000).
  apply wf_frame_cursor; [vm_compute; repeat constructor; intros H; discriminate H|by vm_compute].
Defined.

(** An IP parameter block of 12 bytes at the end of a frame: two bytes beyond the frame are
    read. *)
Theorem short_ip_block_read_outside :
  dcp_process_frame 5 (dcp_discovery_init me)
    (identify_response me rtu 1 0
       [(DCP_OPTION_IP, DCP_SUBOPTION_IP_PARAMETER, [0; 0] ++ be32 3232235786 ++ be32 4294967040 ++ [0; 0])] [])
  = None.
Proof. vm_compute. reflexivity. Qed.

(** A MAC block replaces the key of the entry: the next response of the same sender gets an
    entry of its own. *)
Theorem mac_block_duplicates_device :
  let response := identify_response me rtu 1 0 [mac_block [2; 0; 0; 0; 0; 8]; name_block] [] in
  length <$> (dc_devices <$> after [response; response]) = Some 2%nat.
Proof. vm_compute. reflexivity. Qed.

(** A station name too long for the request: the DCP part is dropped, the padded Ethernet
    header is sent and the call succeeds. *)
Theorem long_name_sends_empty_request :
  (fun '(res, _, frame) => (res, frame)) <$>
    dcp_discovery_identify_name true (dcp_discovery_init me)
      (String.concat "" (replicate 24 "station-00"%string))
  = Some (WTC_OK, eth_bytes me DCP_MULTICAST_ADDR PROFINET_ETHERTYPE ++ replicate 46 0).
Proof. vm_compute. reflexivity. Qed.
End DcpDemo.
