(* ===== verification/Cyclic.v ===== *)
(** * Cyclic data exchange: [src/profinet/cyclic_exchange.c]

    The application relationship ([profinet_ar_t] of [src/profinet/profinet_controller.h]),
    its IO data buffers, the parser of cyclic input frames, and the access to the sensor and
    actuator slots in the buffers. *)

From S2P Require Import Prelude Float32 Types Wire Frame.

(** ** Data *)

Inductive ar_state :=
| AR_STATE_INIT | AR_STATE_CONNECT_REQ | AR_STATE_CONNECT_CNF | AR_STATE_PRMSRV
| AR_STATE_READY | AR_STATE_RUN | AR_STATE_CLOSE | AR_STATE_ABORT.
#[export] Instance ar_state_eq_dec : EqDecision ar_state.
Proof. solve_decision. Defined.

Inductive ar_type := AR_TYPE_IOCAR | AR_TYPE_SUPERVISOR | AR_TYPE_SINGLE.

Inductive iocr_type := IOCR_TYPE_INPUT | IOCR_TYPE_OUTPUT | IOCR_TYPE_MULTICAST.
#[export] Instance iocr_type_eq_dec : EqDecision iocr_type.
Proof. solve_decision. Defined.

(** An entry of [profinet_ar_t.iocr]; [data_buffer] is [None] when it is NULL. *)
Record iocr := mk_iocr {
  cr_type : iocr_type;
  cr_frame_id : Z;
  cr_send_clock_factor : Z;
  cr_reduction_ratio : Z;
  cr_data_length : Z;
  cr_user_data_length : Z;
  cr_iodata_count : Z;
  cr_iocs_count : Z;
  cr_data_buffer : option (list Z);
  cr_last_frame_time_us : Z;
  cr_cycle_counter : Z }.

#[export] Instance eta_iocr : Eta iocr := fun r =>
  mk_iocr (cr_type r) (cr_frame_id r) (cr_send_clock_factor r) (cr_reduction_ratio r)
    (cr_data_length r) (cr_user_data_length r) (cr_iodata_count r) (cr_iocs_count r)
    (cr_data_buffer r) (cr_last_frame_time_us r) (cr_cycle_counter r).

(** [ar_slot_info_t] *)
Record ar_slot_info := mk_ar_slot_info {
  si_slot : Z;
  si_subslot : Z;
  si_type : slot_type;
  si_measurement_type : measurement_type;
  si_actuator_type : actuator_type }.

(** An entry of [discovered_modules]. *)
Record ar_module := mk_ar_module {
  md_slot : Z;
  md_subslot : Z;
  md_module_ident : Z;
  md_submodule_ident : Z }.

(** [profinet_ar_t]; the authority context is the subject of Authority.v. *)
Record profinet_ar := mk_profinet_ar {
  ar_uuid : list Z;
  ar_session_key : Z;
  ar_kind : ar_type;
  ar_st : ar_state;
  ar_device_station_name : string;
  ar_device_mac : list Z;
  ar_device_ip : Z;
  ar_device_vendor_id : Z;
  ar_device_device_id : Z;
  ar_iocr : list iocr;
  ar_slots : list ar_slot_info;
  ar_last_activity_ms : Z;
  ar_watchdog_ms : Z;
  ar_retry_count : Z;
  ar_last_error : wtc_result;
  ar_has_discovered_modules : bool;
  ar_discovered : list ar_module;
  ar_missed_cycles : Z;
  ar_connecting : bool }.

#[export] Instance eta_profinet_ar : Eta profinet_ar := fun r =>
  mk_profinet_ar (ar_uuid r) (ar_session_key r) (ar_kind r) (ar_st r) (ar_device_station_name r)
    (ar_device_mac r) (ar_device_ip r) (ar_device_vendor_id r) (ar_device_device_id r) (ar_iocr r)
    (ar_slots r) (ar_last_activity_ms r) (ar_watchdog_ms r) (ar_retry_count r) (ar_last_error r)
    (ar_has_discovered_modules r) (ar_discovered r) (ar_missed_cycles r) (ar_connecting r).

(** [calloc(1, sizeof(profinet_ar_t))] *)
Definition zero_ar : profinet_ar :=
  mk_profinet_ar (replicate 16 0) 0 AR_TYPE_IOCAR AR_STATE_INIT "" (replicate 6 0) 0 0 0 [] [] 0 0 0
    WTC_OK false [] 0 false.

Definition PROFINET_MAX_IOCR : nat := 64.
Definition SENSOR_SLOT_SIZE : Z := 5.
Definition SENSOR_SLOT_SIZE_LEGACY : Z := 4.
Definition ACTUATOR_SLOT_SIZE : Z := 4.
Definition IOCR_MIN_DATA_LENGTH : Z := 40.
Definition DAP_SUBMODULE_COUNT : Z := 3.

(** The values of [data_quality_t] on the wire; a received byte can be any other value. *)
Definition quality_byte (q : data_quality) : Z :=
  match q with
  | QUALITY_GOOD => 0x00 | QUALITY_UNCERTAIN => 0x40
  | QUALITY_BAD => 0x80 | QUALITY_NOT_CONNECTED => 0xC0
  end.

Definition has_type (t : iocr_type) (cr : iocr) : Prop := cr_type cr = t.
#[export] Instance has_type_dec t cr : Decision (has_type t cr).
Proof. unfold has_type. apply _. Defined.

(** The first IOCR of a type. *)
Definition find_iocr (t : iocr_type) (ar : profinet_ar) : option (nat * iocr) :=
  list_find (has_type t) (ar_iocr ar).

Definition upd_iocr (i : nat) (f : iocr -> iocr) (ar : profinet_ar) : profinet_ar :=
  ar <| ar_iocr ::= alter f i |>.

(** ** Cyclic input frames *)

(** [last_cycle_counters] and [cycle_counter_initialized]: one entry per IOCR index, for all
    ARs together; [None]: not initialised. *)
Definition replay_state : Type := list (option Z).
Definition no_replay : replay_state := replicate PROFINET_MAX_IOCR None.

(** The window test of the counter. *)
Definition counter_in_window (last received : Z) : bool :=
  let expected_min := wrap16 (last + 1) in
  let expected_max := wrap16 (last + 100) in
  if expected_min <=? expected_max
  then (expected_min <=? received) && (received <=? expected_max)
  else (expected_min <=? received) || (received <=? expected_max).

Definition is_replay (last : option Z) (received : Z) : bool :=
  match last with
  | Some last => negb (counter_in_window last received) && (received =? last)
  | None => false
  end.

(** The frame ID; the local variable keeps its value [junk] when the frame ends before it. *)
Definition read_frame_id (junk : Z) : wire Z := fun c =>
  match frame_read_u16 c with
  | Ok v c' => Ok v c'
  | Fail _ c' => Ok junk c'
  | Oob => Oob
  end.

(** The bytes of the C-SDU, when the IOCR has a buffer and the frame is long enough. *)
Definition read_csdu (cr : iocr) : wire (option (list Z)) := fun c =>
  match cr_data_buffer cr with
  | Some _ =>
      if 0 <? cr_data_length cr then
        (r <-- remaining;;
         if cr_data_length cr <=? r
         then bs <-- frame_read_bytes (Z.to_nat (cr_data_length cr));; wret (Some bs)
         else wret None) c
      else wret None c
  | None => wret None c
  end.

(** The cycle counter of the trailer, when it is there. *)
Definition read_counter : wire (option Z) :=
  r <-- remaining;;
  if 2 <=? r then v <-- frame_read_u16;; wret (Some v) else wret None.

Definition read_status (want : bool) : wire (option Z) :=
  r <-- remaining;;
  if want && (1 <=? r) then v <-- frame_read_u8;; wret (Some v) else wret None.

Definition check_replay (rp : replay_state) (i : nat) (counter : option Z) : bool :=
  match counter with
  | Some received => (i <? PROFINET_MAX_IOCR)%nat && is_replay (mjoin (rp !! i)) received
  | None => false
  end.

Definition record_counter (rp : replay_state) (i : nat) (counter : option Z) : replay_state :=
  match counter with
  | Some _ => if (i <? PROFINET_MAX_IOCR)%nat then <[i := counter]> rp else rp
  | None => rp
  end.

(** What [parse_input_frame] returns and stores: the AR, the replay table, [*cycle_counter] and
    [*data_status] when they were assigned. *)
Record input_result := mk_input_result {
  ir_code : wtc_result;
  ir_ar : profinet_ar;
  ir_replay : replay_state;
  ir_counter : option Z;
  ir_status : option Z }.

(** [memcpy] of [bs] to the start of the buffer. *)
Definition store_data (bs : option (list Z)) (cr : iocr) : iocr :=
  match bs with
  | Some bs => cr <| cr_data_buffer ::= fmap (fun b => bs ++ drop (length bs) b) |>
  | None => cr
  end.

(** [parse_input_frame]; [None]: memory outside the frame was read. *)
Definition parse_input_frame (junk now_us : Z) (want_status : bool) (rp : replay_state)
    (ar : profinet_ar) (frame : list Z) : option input_result :=
  match find_iocr IOCR_TYPE_INPUT ar with
  | None => Some (mk_input_result WTC_ERROR_NOT_FOUND ar rp None None)
  | Some (i, cr) =>
      let c := (frame_parser_init frame (Z.of_nat (length frame))) <| cu_pos := ETH_HEADER_LEN |> in
      match read_frame_id junk c with
      | Ok frame_id c =>
          if negb (frame_id =? cr_frame_id cr)
          then Some (mk_input_result WTC_ERROR_PROTOCOL ar rp None None)
          else
            match (bs <-- read_csdu cr;; k <-- read_counter;; wret (bs, k)) c with
            | Ok (bs, counter) c =>
                let ar := upd_iocr i (store_data bs) ar in
                if check_replay rp i counter
                then Some (mk_input_result WTC_ERROR_PROTOCOL ar rp counter None)
                else
                  match read_status want_status c with
                  | Ok st _ => Some (mk_input_result WTC_OK
                      (upd_iocr i (fun cr => cr <| cr_last_frame_time_us := now_us |>) ar)
                      (record_counter rp i counter) counter st)
                  | _ => None
                  end
            | _ => None
            end
      | _ => None
      end
  end.

(** ** Slots *)

(** [sensor_reading_t] *)
Record sensor_reading := mk_sensor_reading {
  sr_value : float32;
  sr_quality : Z;
  sr_timestamp_us : Z }.

(** [unpack_sensor_from_profinet] of [len] bytes; [data] is the memory from the pointer on. *)
Definition unpack_sensor_from_profinet (now_us : Z) (data : list Z) (len : Z)
    : wtc_result * option sensor_reading :=
  if len <? SENSOR_SLOT_SIZE_LEGACY then (WTC_ERROR_INVALID_PARAM, None)
  else
    let raw := of_be 0 (take 4 data) in
    let quality := if SENSOR_SLOT_SIZE <=? len then nth 4 data 0
                   else quality_byte QUALITY_UNCERTAIN in
    (WTC_OK, Some (mk_sensor_reading (f32_of_bits raw) quality now_us)).

(** The search loop of [get_slot_input_float]: the first input IOCR that holds the slot. *)
Definition holds_slot (t : iocr_type) (size slot_index : Z) (cr : iocr) : Prop :=
  cr_type cr = t /\ slot_index * size + size <= cr_user_data_length cr /\
  is_Some (cr_data_buffer cr).
#[export] Instance holds_slot_dec t size k cr : Decision (holds_slot t size k cr).
Proof. unfold holds_slot. apply _. Defined.

(** [get_slot_input_float]: result, [*value], [*status] and [*quality]. *)
Definition get_slot_input_float (now_us : Z) (ar : profinet_ar) (slot_index : Z)
    : wtc_result * option float32 * option iops * option Z :=
  if slot_index <? 0 then (WTC_ERROR_INVALID_PARAM, None, None, None)
  else
    match list_find (holds_slot IOCR_TYPE_INPUT SENSOR_SLOT_SIZE slot_index) (ar_iocr ar) with
    | Some (_, cr) =>
        let buffer := default [] (cr_data_buffer cr) in
        match unpack_sensor_from_profinet now_us
                (drop (Z.to_nat (slot_index * SENSOR_SLOT_SIZE)) buffer) SENSOR_SLOT_SIZE with
        | (_, Some reading) =>
            (WTC_OK, Some (sr_value reading),
             Some (if sr_quality reading =? quality_byte QUALITY_GOOD then IOPS_GOOD else IOPS_BAD),
             Some (sr_quality reading))
        | (res, None) => (res, None, None, None)
        end
    | None => (WTC_ERROR_NOT_FOUND, None, Some IOPS_BAD, Some (quality_byte QUALITY_NOT_CONNECTED))
    end.

(** [memcpy] of [bs] into the buffer at [off]. *)
Definition write_at (off : nat) (bs buffer : list Z) : list Z :=
  take off buffer ++ bs ++ drop (off + length bs) buffer.

(** [set_slot_output]: command, PWM duty and two reserved bytes. *)
Definition set_slot_output (ar : profinet_ar) (slot_index command pwm_duty : Z)
    : wtc_result * profinet_ar :=
  if slot_index <? 0 then (WTC_ERROR_INVALID_PARAM, ar)
  else
    match list_find (holds_slot IOCR_TYPE_OUTPUT 4 slot_index) (ar_iocr ar) with
    | Some (i, _) =>
        (WTC_OK, upd_iocr i (fun cr => cr <| cr_data_buffer ::=
           fmap (write_at (Z.to_nat (slot_index * 4)) [command; pwm_duty; 0; 0]) |>) ar)
    | None => (WTC_ERROR_NOT_FOUND, ar)
    end.

(** ** Buffers *)

(** [calloc(1, n)]; [ok]: the allocation succeeds. *)
Definition calloc_bytes (ok : bool) (n : Z) : option (list Z) :=
  if ok then Some (replicate (Z.to_nat n) 0) else None.

(** One of the two blocks of [allocate_iocr_buffers]: an IOCR for [data_slots] slots of [size]
    bytes that acknowledges [ack_slots] slots of the other direction. *)
Definition new_iocr (ok : bool) (t : iocr_type) (frame_id size data_slots ack_slots : Z) : iocr :=
  let user_data := wrap16 (data_slots * size) in
  let iodata := wrap16 (DAP_SUBMODULE_COUNT + wrap16 data_slots) in
  let iocs := wrap16 (DAP_SUBMODULE_COUNT + wrap16 ack_slots) in
  let c_sdu := user_data + iodata + iocs in
  let c_sdu := if c_sdu <? IOCR_MIN_DATA_LENGTH then IOCR_MIN_DATA_LENGTH else c_sdu in
  mk_iocr t frame_id 0 0 c_sdu user_data iodata iocs (calloc_bytes ok c_sdu) 0 0.

(** Appending to [iocr] when there is room, and whether to go on.  An entry behind the count
    is still zero: [iocr_count] only grows until the AR is freed. *)
Definition append_iocr (cr : iocr) (ar : profinet_ar) : bool * profinet_ar :=
  if (length (ar_iocr ar) <? PROFINET_MAX_IOCR)%nat
  then (bool_decide (is_Some (cr_data_buffer cr)), ar <| ar_iocr ::= fun l => l ++ [cr] |>)
  else (true, ar).

(** [allocate_iocr_buffers]; [ok k]: the [k]-th allocation succeeds. *)
Definition allocate_iocr_buffers (ok : nat -> bool) (input_slots output_slots : Z) (ar : profinet_ar)
    : wtc_result * profinet_ar :=
  let '(go, ar) := append_iocr (new_iocr (ok 0%nat) IOCR_TYPE_INPUT 0xC001 SENSOR_SLOT_SIZE
                                  input_slots output_slots) ar in
  if negb go then (WTC_ERROR_NO_MEMORY, ar)
  else
    let '(go, ar) := append_iocr (new_iocr (ok 1%nat) IOCR_TYPE_OUTPUT 0xFFFF ACTUATOR_SLOT_SIZE
                                    output_slots input_slots) ar in
    if negb go then (WTC_ERROR_NO_MEMORY, ar) else (WTC_OK, ar).

Definition free_iocr_buffers (ar : profinet_ar) : profinet_ar := ar <| ar_iocr := [] |>.

(** ** The layout invariant of a buffer *)

(** User data, provider and consumer status fit in the C-SDU, and the buffer has its length. *)
Record iocr_ok (cr : iocr) : Prop := mk_iocr_ok {
  io_user : 0 <= cr_user_data_length cr;
  io_iodata : 0 <= cr_iodata_count cr;
  io_iocs : 0 <= cr_iocs_count cr;
  io_fits : cr_user_data_length cr + cr_iodata_count cr + cr_iocs_count cr <= cr_data_length cr;
  io_buffer : forall b, cr_data_buffer cr = Some b ->
    Z.of_nat (length b) = cr_data_length cr /\ is_bytes b }.

Definition ar_buffers_ok (ar : profinet_ar) : Prop :=
  (length (ar_iocr ar) <= PROFINET_MAX_IOCR)%nat /\ Forall iocr_ok (ar_iocr ar).

Lemma new_iocr_ok ok t frame_id size data_slots ack_slots :
  iocr_ok (new_iocr ok t frame_id size data_slots ack_slots).
Proof.
  unfold new_iocr. cbv zeta.
  pose proof (wrap16_range (data_slots * size)) as H1.
  pose proof (wrap16_range (DAP_SUBMODULE_COUNT + wrap16 data_slots)) as H2.
  pose proof (wrap16_range (DAP_SUBMODULE_COUNT + wrap16 ack_slots)) as H3.
  unfold is_u16 in *.
  set (n := if _ <? IOCR_MIN_DATA_LENGTH then _ else _).
  assert (wrap16 (data_slots * size) + wrap16 (DAP_SUBMODULE_COUNT + wrap16 data_slots)
          + wrap16 (DAP_SUBMODULE_COUNT + wrap16 ack_slots) <= n) as Hn.
  { unfold n. destruct (Z.ltb_spec (wrap16 (data_slots * size) +
      wrap16 (DAP_SUBMODULE_COUNT + wrap16 data_slots) +
      wrap16 (DAP_SUBMODULE_COUNT + wrap16 ack_slots)) IOCR_MIN_DATA_LENGTH); lia. }
  clearbody n. split; cbn; try lia. intros b. unfold calloc_bytes. destruct ok; [|done]. intros [= <-].
  rewrite length_replicate. split; [rewrite Z2Nat.id; lia|]. apply Forall_replicate. unfold is_u8. lia.
Qed.

Lemma append_iocr_ok cr ar :
  iocr_ok cr -> ar_buffers_ok ar -> ar_buffers_ok (append_iocr cr ar).2.
Proof.
  intros Hcr [Hn Hok]. unfold append_iocr.
  destruct (Nat.ltb_spec (length (ar_iocr ar)) PROFINET_MAX_IOCR); [|done].
  split; cbn; [rewrite length_app; cbn; lia|]. by apply Forall_app_2; [|constructor].
Qed.

Lemma allocate_iocr_buffers_ok ok n m ar :
  ar_buffers_ok ar -> ar_buffers_ok (allocate_iocr_buffers ok n m ar).2.
Proof.
  intros Har. unfold allocate_iocr_buffers.
  set (cr1 := new_iocr (ok 0%nat) _ _ _ _ _). set (cr2 := new_iocr (ok 1%nat) _ _ _ _ _).
  pose proof (append_iocr_ok cr1 ar (new_iocr_ok _ _ _ _ _ _) Har) as H1.
  destruct (append_iocr cr1 ar) as [go1 ar1]. destruct go1; [cbn|done].
  pose proof (append_iocr_ok cr2 ar1 (new_iocr_ok _ _ _ _ _ _) H1) as H2.
  by destruct (append_iocr cr2 ar1) as [[] ar2].
Qed.

Lemma upd_iocr_ok i f ar :
  (forall cr, ar_iocr ar !! i = Some cr -> iocr_ok cr -> iocr_ok (f cr)) ->
  ar_buffers_ok ar -> ar_buffers_ok (upd_iocr i f ar).
Proof.
  intros Hf [Hn Hok]. split; cbn; [by rewrite length_alter|].
  apply Forall_lookup. intros j cr Hj. rewrite Forall_lookup in Hok.
  destruct (decide (i = j)) as [<-|Hij].
  - rewrite list_lookup_alter_eq in Hj. destruct (ar_iocr ar !! i) as [cr0|] eqn:E; [|done].
    injection Hj as <-. eauto.
  - rewrite list_lookup_alter_ne in Hj by done. eauto.
Qed.

(** Writing inside a buffer keeps its length. *)
Lemma length_write_at off bs b :
  (off + length bs <= length b)%nat -> length (write_at off bs b) = length b.
Proof. intros H. unfold write_at. rewrite !length_app, length_take, length_drop. lia. Qed.

Lemma write_at_bytes off bs b : is_bytes bs -> is_bytes b -> is_bytes (write_at off bs b).
Proof. intros. unfold write_at, is_bytes. repeat apply Forall_app_2; auto using Forall_take, Forall_drop. Qed.

Lemma write_at_lookup off bs b j :
  (off + length bs <= length b)%nat ->
  write_at off bs b !! j =
    if decide (off <= j < off + length bs)%nat then bs !! (j - off)%nat else b !! j.
Proof.
  intros H. unfold write_at. destruct (decide (j < off)%nat) as [Hj|Hj].
  { rewrite lookup_app_l by (rewrite length_take; lia). rewrite lookup_take_lt by done.
    rewrite decide_False by lia. done. }
  rewrite lookup_app_r by (rewrite length_take; lia). rewrite length_take, Nat.min_l by lia.
  case_decide.
  - rewrite lookup_app_l by lia. done.
  - rewrite lookup_app_r by lia. rewrite lookup_drop. f_equal. lia.
Qed.

(** ** Arrays of fixed-size records *)

Section Chunks.
Context {A : Type} (enc : A -> list Z) (size : nat).
Hypothesis enc_length : forall x, length (enc x) = size.
Implicit Types l : list A.

Definition image l : list Z := concat (enc <$> l).

Lemma length_image l : length (image l) = (length l * size)%nat.
Proof. unfold image. induction l as [|x l IH]; cbn; [done|]. rewrite length_app, enc_length, IH. lia. Qed.

Lemma image_app l l' : image (l ++ l') = image l ++ image l'.
Proof. unfold image. by rewrite fmap_app, concat_app. Qed.

Lemma image_split l k x : l !! k = Some x ->
  image l = image (take k l) ++ enc x ++ image (drop (S k) l).
Proof.
  intros H. rewrite <- (take_drop_middle l k x H) at 1. by rewrite image_app.
Qed.

Lemma length_image_take l k : (k <= length l)%nat -> length (image (take k l)) = (k * size)%nat.
Proof. intros H. rewrite length_image, length_take. f_equal. lia. Qed.

(** Record [k] is found at its offset, *)
Lemma image_drop l k x rest : l !! k = Some x ->
  drop (k * size) (image l ++ rest) = enc x ++ image (drop (S k) l) ++ rest.
Proof.
  intros H. assert (k < length l)%nat as Hk by by eapply lookup_lt_Some.
  rewrite (image_split l k x H), <- !app_assoc.
  rewrite <- (length_image_take l k) by lia. apply drop_app_length.
Qed.

(** and writing it changes that record alone. *)
Lemma image_write l k y rest : (k < length l)%nat ->
  write_at (k * size) (enc y) (image l ++ rest) = image (<[k := y]> l) ++ rest.
Proof.
  intros Hk. destruct (lookup_lt_is_Some_2 l k Hk) as [x Hx].
  unfold write_at. rewrite enc_length.
  replace (k * size + size)%nat with (S k * size)%nat by lia.
  rewrite (image_split (<[k := y]> l) k y) by by apply list_lookup_insert_eq.
  rewrite take_insert_ge, drop_insert_lt by lia. rewrite <- !app_assoc. f_equal; [|f_equal].
  - rewrite (image_split l k x Hx), <- !app_assoc, <- (length_image_take l k) by lia. apply take_app_length.
  - rewrite <- (take_drop (S k) l) at 1. rewrite image_app, <- !app_assoc.
    rewrite <- (length_image_take l (S k)) by lia. apply drop_app_length.
Qed.
End Chunks.

(** Sensor values and actuator commands in the layout of the slots. *)
Definition sensor_bytes (r : float32 * Z) : list Z := be32 (bits_of_f32 r.1) ++ [r.2].
Definition output_bytes (o : Z * Z) : list Z := [o.1; o.2; 0; 0].

Lemma length_sensor_bytes r : length (sensor_bytes r) = 5%nat. Proof. done. Qed.
Lemma length_output_bytes o : length (output_bytes o) = 4%nat. Proof. done. Qed.

Lemma unpack_sensor_bytes now v q rest : valid32 v = true ->
  unpack_sensor_from_profinet now (sensor_bytes (v, q) ++ rest) SENSOR_SLOT_SIZE
    = (WTC_OK, Some (mk_sensor_reading v q now)).
Proof.
  intros Hv. unfold unpack_sensor_from_profinet.
  change (take 4 (sensor_bytes (v, q) ++ rest)) with (be32 (bits_of_f32 v)).
  change (nth 4 (sensor_bytes (v, q) ++ rest) 0) with q.
  rewrite of_be32 by by apply bits_of_f32_range. by rewrite f32_bits_roundtrip.
Qed.

(** The AR carries the readings [rs] in its (only) input IOCR. *)
Definition carries_inputs (ar : profinet_ar) (rs : list (float32 * Z)) : Prop :=
  exists i cr rest, find_iocr IOCR_TYPE_INPUT ar = Some (i, cr) /\
    (forall j cr', ar_iocr ar !! j = Some cr' -> cr_type cr' = IOCR_TYPE_INPUT -> j = i) /\
    cr_user_data_length cr = 5 * Z.of_nat (length rs) /\
    cr_data_buffer cr = Some (image sensor_bytes rs ++ rest).

Definition carries_outputs (ar : profinet_ar) (os : list (Z * Z)) : Prop :=
  exists i cr rest, find_iocr IOCR_TYPE_OUTPUT ar = Some (i, cr) /\
    (forall j cr', ar_iocr ar !! j = Some cr' -> cr_type cr' = IOCR_TYPE_OUTPUT -> j = i) /\
    cr_user_data_length cr = 4 * Z.of_nat (length os) /\
    cr_data_buffer cr = Some (image output_bytes os ++ rest).

(** With one IOCR of the type the slot search is a bound check. *)
Lemma find_slot_unique t size k ar i cr b :
  find_iocr t ar = Some (i, cr) ->
  (forall j cr', ar_iocr ar !! j = Some cr' -> cr_type cr' = t -> j = i) ->
  cr_data_buffer cr = Some b ->
  list_find (holds_slot t size k) (ar_iocr ar) =
    if k * size + size <=? cr_user_data_length cr then Some (i, cr) else None.
Proof.
  intros Hf Hu Hb. apply list_find_Some in Hf as (Hi & Ht & _).
  destruct (Z.leb_spec (k * size + size) (cr_user_data_length cr)) as [Hle|Hgt].
  - apply list_find_Some. split_and!; [done|by split_and!; [..|eexists]|].
    intros j y Hj Hji (Hty & _). rewrite (Hu j y Hj Hty) in Hji. lia.
  - apply list_find_None, Forall_lookup. intros j y Hj (Hty & Hle & _).
    assert (j = i) as -> by eauto. rewrite Hj in Hi. injection Hi as ->. lia.
Qed.

(** What the device put into the input image is what the controller reads: slot [k] yields
    the value and the quality byte of reading [k] (status good exactly for quality good), and
    a slot outside the image yields bad status and "not connected". *)
Theorem input_slot_read now ar rs k :
  carries_inputs ar rs -> Forall (fun r => valid32 r.1 = true) rs -> 0 <= k ->
  get_slot_input_float now ar k =
    match rs !! Z.to_nat k with
    | Some (v, q) => (WTC_OK, Some v, Some (if q =? 0 then IOPS_GOOD else IOPS_BAD), Some q)
    | None => (WTC_ERROR_NOT_FOUND, None, Some IOPS_BAD, Some (quality_byte QUALITY_NOT_CONNECTED))
    end.
Proof.
  intros (i & cr & rest & Hf & Hu & Hlen & Hb) Hv Hk. unfold get_slot_input_float.
  rewrite (proj2 (Z.ltb_ge k 0)) by done.
  rewrite (find_slot_unique _ _ _ _ _ _ _ Hf Hu Hb), Hlen.
  destruct (rs !! Z.to_nat k) as [[v q]|] eqn:E.
  - assert (Z.to_nat k < length rs)%nat by by eapply lookup_lt_Some.
    rewrite (proj2 (Z.leb_le _ _)) by (unfold SENSOR_SLOT_SIZE; lia).
    rewrite Hb. cbn [from_option id default].
    replace (Z.to_nat (k * SENSOR_SLOT_SIZE)) with (Z.to_nat k * 5)%nat by (unfold SENSOR_SLOT_SIZE; lia).
    rewrite (image_drop sensor_bytes 5 length_sensor_bytes rs _ (v, q)) by done.
    rewrite Forall_lookup in Hv. by rewrite unpack_sensor_bytes by exact (Hv _ _ E).
  - apply lookup_ge_None in E.
    rewrite (proj2 (Z.leb_gt _ _)) by (unfold SENSOR_SLOT_SIZE; lia). done.
Qed.

(** Setting slot [k] sets entry [k] of the output image and nothing else; a slot outside the
    image is refused. *)
Lemma set_slot_output_image ar os k command duty :
  carries_outputs ar os -> 0 <= k ->
  if k <? Z.of_nat (length os)
  then exists ar', set_slot_output ar k command duty = (WTC_OK, ar') /\
    carries_outputs ar' (<[Z.to_nat k := (command, duty)]> os)
  else set_slot_output ar k command duty = (WTC_ERROR_NOT_FOUND, ar).
Proof.
  intros (i & cr & rest & Hf & Hu & Hlen & Hb) Hk. unfold set_slot_output.
  rewrite (proj2 (Z.ltb_ge k 0)) by done.
  rewrite (find_slot_unique _ _ _ _ _ _ _ Hf Hu Hb), Hlen.
  destruct (Z.ltb_spec k (Z.of_nat (length os))) as [Hlt|Hge].
  2:{ rewrite (proj2 (Z.leb_gt _ _)) by lia. done. }
  rewrite (proj2 (Z.leb_le _ _)) by lia. eexists. split; [reflexivity|].
  apply list_find_Some in Hf as (Hi & Ht & Hfirst).
  eexists i, _, rest. split_and!.
  - apply list_find_Some. split_and!.
    + cbn. rewrite list_lookup_alter_eq, Hi. reflexivity.
    + exact Ht.
    + intros j y Hj Hji Hy. cbn in Hj. rewrite list_lookup_alter_ne in Hj by lia. by eapply Hfirst.
  - intros j cr' Hj Hty. destruct (decide (j = i)) as [|Hne]; [done|].
    cbn in Hj. rewrite list_lookup_alter_ne in Hj by done. eauto.
  - cbn. by rewrite length_insert.
  - cbn. rewrite Hb. cbn.
    replace (Z.to_nat (k * 4)) with (Z.to_nat k * 4)%nat by lia.
    by rewrite <- (image_write output_bytes 4 length_output_bytes) by lia.
Qed.

(** ** Bounds of the input parser *)

(** A reader that returns on every cursor inside its buffer. *)
Definition total {A} (m : wire A) : Prop := forall c, wf c -> exists a c', m c = Ok a c' /\ wf c'.

Lemma total_ret {A} (a : A) : total (wret a).
Proof. intros c Hc. eexists _, _. by split. Qed.

Lemma total_bind {A B} (m : wire A) (k : A -> wire B) :
  total m -> (forall a, total (k a)) -> total (wbind m k).
Proof.
  intros Hm Hk c Hc. destruct (Hm c Hc) as (a & c1 & E & Hc1). unfold wbind. rewrite E. by apply Hk.
Qed.

(** The readers succeed where their bytes are pending. *)
Lemma read_bytes_ok n c : wf c -> (n <= length (pending c))%nat ->
  frame_read_bytes n c = Ok (take n (pending c)) (advance n c).
Proof.
  intros Hc Hn. unfold frame_read_bytes, wbind. rewrite remaining_ok by done.
  rewrite (proj2 (Z.ltb_ge _ _)) by lia. by apply fetch_ok.
Qed.

Lemma read_u16_ok c : wf c -> (2 <= length (pending c))%nat ->
  frame_read_u16 c = Ok (of_be 0 (take 2 (pending c))) (advance 2 c).
Proof.
  intros Hc Hn. unfold frame_read_u16, fetch_u16, wbind. rewrite remaining_ok by done.
  rewrite (proj2 (Z.ltb_ge _ _)) by lia. by rewrite fetch_ok.
Qed.

Lemma read_u8_ok c : wf c -> (1 <= length (pending c))%nat ->
  frame_read_u8 c = Ok (of_be 0 (take 1 (pending c))) (advance 1 c).
Proof.
  intros Hc Hn. unfold frame_read_u8, fetch_u8, wbind. rewrite remaining_ok by done.
  rewrite (proj2 (Z.ltb_ge _ _)) by lia. by rewrite fetch_ok.
Qed.

Lemma total_frame_id junk : total (read_frame_id junk).
Proof.
  intros c Hc. unfold read_frame_id. destruct (decide (2 <= length (pending c))%nat) as [H|H].
  - rewrite read_u16_ok by done. eauto using wf_advance.
  - unfold frame_read_u16. rewrite guard_fails by (done || lia). eauto.
Qed.

Lemma total_csdu cr : total (read_csdu cr).
Proof.
  intros c Hc. unfold read_csdu. destruct (cr_data_buffer cr); [|by apply total_ret].
  destruct (Z.ltb_spec 0 (cr_data_length cr)); [|by apply total_ret].
  unfold wbind at 1. rewrite remaining_ok by done.
  destruct (Z.leb_spec (cr_data_length cr) (Z.of_nat (length (pending c)))); [|by apply total_ret].
  unfold wbind. rewrite read_bytes_ok by (done || lia). eexists _, _. split; [done|].
  apply wf_advance; [done|lia].
Qed.

Lemma total_counter : total read_counter.
Proof.
  intros c Hc. unfold read_counter, wbind. rewrite remaining_ok by done.
  destruct (Z.leb_spec 2 (Z.of_nat (length (pending c)))); [|by apply total_ret].
  rewrite read_u16_ok by (done || lia). eexists _, _. split; [done|]. apply wf_advance; [done|lia].
Qed.

Lemma total_status want : total (read_status want).
Proof.
  intros c Hc. unfold read_status, wbind. rewrite remaining_ok by done.
  destruct want; [rewrite andb_true_l|by apply total_ret].
  destruct (Z.leb_spec 1 (Z.of_nat (length (pending c)))); [|by apply total_ret].
  rewrite read_u8_ok by (done || lia). eexists _, _. split; [done|]. apply wf_advance; [done|lia].
Qed.

(** The input parser reads outside the received frame exactly when the frame is shorter
    than an Ethernet header (and the AR has an input IOCR): the position is set behind the
    header without a check, and the remaining length wraps. *)
Theorem input_frame_bounds junk now want rp ar frame :
  is_bytes frame -> Z.of_nat (length frame) < 2 ^ 63 ->
  parse_input_frame junk now want rp ar frame = None <->
    is_Some (find_iocr IOCR_TYPE_INPUT ar) /\ (length frame < 14)%nat.
Proof.
  intros Hby Hlen. unfold parse_input_frame.
  destruct (find_iocr IOCR_TYPE_INPUT ar) as [[i cr]|]; [|by split; [|intros [[] _]]].
  set (c := (frame_parser_init _ _) <| cu_pos := ETH_HEADER_LEN |>).
  destruct (decide (length frame < 14)%nat) as [Hs|Hs].
  - assert (read_frame_id junk c = Oob) as ->; [|by split; eauto].
    unfold read_frame_id, frame_read_u16, fetch_u16, wbind, remaining, fetch. cbn -[Z.pow].
    rewrite u64_sub_wrap by (unfold is_u64, ETH_HEADER_LEN; lia).
    rewrite (proj2 (Z.ltb_ge _ _)) by (unfold ETH_HEADER_LEN; lia).
    rewrite (proj2 (Z.leb_gt (cu_pos c + _) _)) by (cbn; unfold ETH_HEADER_LEN; lia).
    by rewrite andb_false_r.
  - split; [|by intros [_ ?]].
    assert (wf c) as Hc by (unfold c, wf, ETH_HEADER_LEN; cbn; split_and!; try done; lia).
    destruct (total_frame_id junk c Hc) as (id & c1 & -> & Hc1). destruct (negb _); [done|].
    assert (total (bs <-- read_csdu cr;; k <-- read_counter;; wret (bs, k))) as Ht.
    { repeat (apply total_bind; [apply total_csdu || apply total_counter|intros ?]). apply total_ret. }
    destruct (Ht c1 Hc1) as ([bs k] & c2 & -> & Hc2). cbv zeta. destruct (check_replay rp i k); [done|].
    by destruct (total_status want c2 Hc2) as (st & c3 & -> & _).
Qed.

(** ** Accepted and replayed frames *)

(** The window test never matters: only the last counter itself is refused. *)
Lemma is_replay_exact last received :
  is_u16 received -> (forall l, last = Some l -> is_u16 l) ->
  is_replay last received = bool_decide (last = Some received).
Proof.
  intros Hr Hl. destruct last as [l|]; cbn; [|by rewrite bool_decide_false].
  specialize (Hl l eq_refl). unfold is_u16 in *.
  destruct (Z.eqb_spec received l) as [->|Hne].
  - rewrite bool_decide_true, andb_true_r by done. unfold counter_in_window, wrap16.
    destruct (decide (l = 65535)) as [->|]; [done|].
    rewrite (Z.mod_small (l + 1)) by lia. destruct (Z.leb_spec (l + 1) ((l + 100) mod 2 ^ 16)).
    + rewrite (proj2 (Z.leb_gt (l + 1) l)) by lia. done.
    + rewrite (proj2 (Z.leb_gt (l + 1) l)) by lia.
      pose proof (Z.mod_pos_bound (l + 100) (2 ^ 16) ltac:(lia)).
      assert ((l + 100) mod 2 ^ 16 < l).
      { destruct (decide (l + 100 < 2 ^ 16)).
        - rewrite Z.mod_small in * by lia. lia.
        - replace (l + 100) with ((l + 100 - 2 ^ 16) + 1 * 2 ^ 16) by lia.
          rewrite Z_mod_plus_full, Z.mod_small by lia. lia. }
      rewrite (proj2 (Z.leb_gt l _)) by lia. done.
  - rewrite andb_false_r. symmetry. apply bool_decide_eq_false. congruence.
Qed.

Definition input_frame (eth : list Z) (frame_id : Z) (csdu : list Z) (counter status : Z)
    (rest : list Z) : list Z :=
  eth ++ be16 frame_id ++ csdu ++ be16 counter ++ [status] ++ rest.

Lemma read_frame_id_reads junk v : is_u16 v -> reads (read_frame_id junk) (be16 v) v.
Proof.
  intros Hv c rest Hc Hp. unfold read_frame_id.
  destruct (reads_guard 2 WTC_ERROR_INVALID_PARAM fetch_u16 (be16 v) v ltac:(cbn; lia) (reads_u16 v Hv)
              c rest Hc Hp) as (c' & E & H). unfold frame_read_u16. rewrite E. eauto.
Qed.

Lemma read_csdu_reads cr b csdu :
  cr_data_buffer cr = Some b -> csdu <> [] -> Z.of_nat (length csdu) = cr_data_length cr ->
  reads (read_csdu cr) csdu (Some csdu).
Proof.
  intros Hb Hne Hlen c rest Hc Hp. unfold read_csdu. rewrite Hb.
  assert (0 < length csdu)%nat by (destruct csdu; [done|cbn; lia]).
  rewrite (proj2 (Z.ltb_lt _ _)) by lia. unfold wbind at 1. rewrite remaining_ok by done.
  rewrite (proj2 (Z.leb_le _ _)) by (rewrite Hp, length_app; lia).
  rewrite <- Hlen, Nat2Z.id.
  apply (reads_bind_ret (frame_read_bytes (length csdu)) Some csdu csdu); [|done|exact Hp].
  apply reads_guard; [done|apply reads_fetch].
Qed.

Lemma read_counter_reads v : is_u16 v -> reads read_counter (be16 v) (Some v).
Proof.
  intros Hv c rest Hc Hp. unfold read_counter, wbind at 1. rewrite remaining_ok by done.
  rewrite (proj2 (Z.leb_le _ _)) by (rewrite Hp; cbn; lia).
  apply (reads_bind_ret frame_read_u16 Some (be16 v) v); [|done|exact Hp].
  apply reads_guard; [cbn; lia|by apply reads_u16].
Qed.

Lemma read_status_reads v : reads (read_status true) [v] (Some v).
Proof.
  intros c rest Hc Hp. unfold read_status, wbind at 1. rewrite remaining_ok by done.
  rewrite (proj2 (Z.leb_le _ _)) by (rewrite Hp; cbn; lia).
  apply (reads_bind_ret frame_read_u8 Some [v] v); [|done|exact Hp].
  apply reads_guard; [cbn; lia|by apply reads_u8].
Qed.

(** A complete cyclic frame is stored and its counter and status are returned, unless its
    counter is the last one recorded for the IOCR index; then the frame is refused, but its
    data is already in the buffer.  Every other counter, older ones included, is accepted. *)
Theorem input_frame_accepted junk now rp ar i cr b eth csdu counter status rest :
  find_iocr IOCR_TYPE_INPUT ar = Some (i, cr) -> (i < PROFINET_MAX_IOCR)%nat ->
  iocr_ok cr -> cr_data_buffer cr = Some b -> is_u16 (cr_frame_id cr) ->
  length eth = 14%nat -> csdu <> [] -> Z.of_nat (length csdu) = cr_data_length cr ->
  is_u16 counter -> (forall l, mjoin (rp !! i) = Some l -> is_u16 l) ->
  let frame := input_frame eth (cr_frame_id cr) csdu counter status rest in
  is_bytes frame -> Z.of_nat (length frame) < 2 ^ 63 ->
  let stored := upd_iocr i (fun cr => cr <| cr_data_buffer := Some csdu |>) ar in
  parse_input_frame junk now true rp ar frame = Some
    (if decide (mjoin (rp !! i) = Some counter)
     then mk_input_result WTC_ERROR_PROTOCOL stored rp (Some counter) None
     else mk_input_result WTC_OK
            (upd_iocr i (fun cr => cr <| cr_last_frame_time_us := now |>) stored)
            (<[i := Some counter]> rp) (Some counter) (Some status)).
Proof.
  intros Hf Hi Hok Hb Hid Heth Hne Hlen Hc Hrp frame Hby Hfl stored.
  unfold parse_input_frame. rewrite Hf.
  set (c0 := (frame_parser_init _ _) <| cu_pos := ETH_HEADER_LEN |>).
  assert (wf c0) as Hc0.
  { unfold c0, wf, ETH_HEADER_LEN. cbn. split_and!; try done; try lia.
    unfold frame, input_frame. rewrite length_app, Heth. lia. }
  assert (pending c0 = be16 (cr_frame_id cr) ++ csdu ++ be16 counter ++ [status] ++ rest) as Hp0.
  { unfold pending, c0. cbn [cu_pos cu_buffer set frame_parser_init]. unfold frame, input_frame.
    change (Z.to_nat ETH_HEADER_LEN) with 14%nat. rewrite <- Heth. apply drop_app_length. }
  destruct (read_frame_id_reads junk _ Hid c0 _ Hc0 Hp0) as (c1 & -> & Hc1 & Hp1 & _).
  rewrite Z.eqb_refl. cbn [negb].
  assert (reads (bs <-- read_csdu cr;; k <-- read_counter;; wret (bs, k)) (csdu ++ be16 counter)
            (Some csdu, Some counter)) as Hr.
  { apply reads_bind with (Some csdu); [by eapply read_csdu_reads|].
    apply (reads_bind_ret read_counter (fun k => (Some csdu, k)) (be16 counter) (Some counter)).
    by apply read_counter_reads. }
  rewrite app_assoc in Hp1. destruct (Hr c1 _ Hc1 Hp1) as (c2 & -> & Hc2 & Hp2 & _).
  cbv zeta. unfold check_replay, record_counter.
  rewrite (proj2 (Nat.ltb_lt _ _)) by done. cbn [andb]. rewrite is_replay_exact by done.
  assert (upd_iocr i (store_data (Some csdu)) ar = stored) as ->.
  { unfold stored, upd_iocr. apply list_find_Some in Hf as (Hl & _). cbn.
    destruct ar as [? ? ? ? ? ? ? ? ? l]; cbn in *. f_equal. apply list_eq. intros j.
    destruct (decide (i = j)) as [<-|]; [|by rewrite !list_lookup_alter_ne].
    rewrite !list_lookup_alter_eq, Hl. cbn. do 2 f_equal. rewrite Hb. cbn. f_equal.
    rewrite drop_ge, app_nil_r; [done|]. destruct (io_buffer _ Hok _ Hb). lia. }
  destruct (decide _) as [E|E]; [by rewrite bool_decide_true|]. rewrite bool_decide_false by done.
  by destruct (read_status_reads status c2 rest Hc2 Hp2) as (c3 & -> & _).
Qed.

(** ** A station with two sensors and one actuator *)

Module CyclicDemo.

Definition station : profinet_ar := (allocate_iocr_buffers (fun _ => true) 2 1 zero_ar).2.

Definition mac_header : list Z := replicate 12 2 ++ be16 PROFINET_ETHERTYPE.
Definition readings : list (float32 * Z) := [(f32_lit 715 100, 0); (f32_of_Z 21, 0x40)].
Definition csdu : list Z := image sensor_bytes readings ++ replicate 30 128.
Definition frame_of (counter : Z) : list Z := input_frame mac_header 0xC001 csdu counter 53 [0].

Definition input_cr : iocr := new_iocr true IOCR_TYPE_INPUT 0xC001 5 2 1.

Lemma find_input : find_iocr IOCR_TYPE_INPUT station = Some (0%nat, input_cr).
Proof. reflexivity. Qed.

Lemma bytes_dec l : forallb (fun b => (0 <=? b) && (b <? 256)) l = true -> is_bytes l.
Proof.
  intros H. apply Forall_forall. intros b Hb. rewrite forallb_forall in H.
  apply list_elem_of_In in Hb. specialize (H b Hb). unfold is_u8. lia.
Qed.

Lemma input_frame_accepted_witness :
  parse_input_frame 0 7 true no_replay station (frame_of 9) = Some
    (mk_input_result WTC_OK
       (upd_iocr 0 (fun cr => cr <| cr_last_frame_time_us := 7 |>)
          (upd_iocr 0 (fun cr => cr <| cr_data_buffer := Some csdu |>) station))
       (<[0%nat := Some 9]> no_replay) (Some 9) (Some 53)).
Proof.
  refine (input_frame_accepted 0 7 no_replay station 0 input_cr (replicate 40 0) mac_header csdu 9 53 [0]
    find_input _ (new_iocr_ok _ _ _ _ _ _) eq_refl _ eq_refl _ eq_refl _ _ _ _).
  all: first [by apply bytes_dec | by intros ? [=] | vm_compute; by split | vm_compute; lia | done].
Defined.

Lemma input_frame_bounds_witness : parse_input_frame 0 7 true no_replay station [1; 2; 3] = None.
Proof.
  apply (input_frame_bounds 0 7 true no_replay station [1; 2; 3]); [by apply bytes_dec|cbn; lia|].
  split; [rewrite find_input; by eexists|cbn; lia].
Defined.

(** The station after the frame. *)
Definition updated : profinet_ar :=
  match parse_input_frame 0 7 true no_replay station (frame_of 9) with
  | Some r => ir_ar r
  | None => station
  end.

Definition updated_cr : iocr :=
  (input_cr <| cr_data_buffer := Some csdu |>) <| cr_last_frame_time_us := 7 |>.
Definition output_cr : iocr := new_iocr true IOCR_TYPE_OUTPUT 0xFFFF 4 1 2.

Lemma updated_iocrs : ar_iocr updated = [updated_cr; output_cr].
Proof. vm_compute. reflexivity. Qed.

Lemma updated_carries : carries_inputs updated readings.
Proof.
  exists 0%nat, updated_cr, (replicate 30 128). unfold find_iocr. rewrite updated_iocrs.
  split; [reflexivity|]. split; [|by split].
  intros [|[|j]] cr' H Ht; [done| |]; simplify_eq/=.
Qed.

Lemma input_slot_read_witness :
  get_slot_input_float 8 updated 1 =
    (WTC_OK, Some (f32_of_Z 21), Some IOPS_BAD, Some (quality_byte QUALITY_UNCERTAIN)).
Proof. rewrite (input_slot_read 8 updated readings 1 updated_carries); [reflexivity|by repeat constructor|lia]. Defined.

(** Frames with the given counters, each to a station of its own; the result codes. *)
Fixpoint codes (rp : replay_state) (counters : list Z) : list wtc_result :=
  match counters with
  | [] => []
  | k :: counters =>
      match parse_input_frame 0 7 true rp station (frame_of k) with
      | Some r => ir_code r :: codes (ir_replay r) counters
      | None => []
      end
  end.

(** The counters are kept per IOCR index and not per AR: a frame of a second station that
    happens to carry the counter last received from the first is refused as a replay; and an
    old frame is accepted again as soon as another one came in between. *)
Theorem replay_table_shared :
  codes no_replay [9; 9] = [WTC_OK; WTC_ERROR_PROTOCOL] /\
  codes no_replay [9; 10; 9] = [WTC_OK; WTC_OK; WTC_OK].
Proof. split; vm_compute; reflexivity. Qed.
End CyclicDemo.
