(* ===== verification/Rpc.v ===== *)
(** * PROFINET RPC: [src/profinet/profinet_rpc.c] and [src/profinet/rpc_strategy.c]

    The PDUs exchanged with a device to open, run and close an application relationship:
    RPC and NDR headers, the blocks of the connect request, the control, release and read
    requests, and the parsers of the answers.  A request is built into a buffer of fixed
    size; the source reserves a header and fills it in when its contents are known, which
    leaves the same bytes as writing header and contents in order.  The answers are read with
    the cursor of Wire.v, so that a read behind the received bytes is an outcome of its own. *)

From S2P Require Import Prelude Types Wire Frame Cyclic.

(** ** Little-endian bytes *)

Fixpoint le_bytes (n : nat) (v : Z) : list Z :=
  match n with O => [] | S n => v mod 2 ^ 8 :: le_bytes n (v / 2 ^ 8) end.
Definition le16 (v : Z) : list Z := le_bytes 2 v.
Definition le32 (v : Z) : list Z := le_bytes 4 v.
Fixpoint of_le (l : list Z) : Z :=
  match l with [] => 0 | b :: l => b + 2 ^ 8 * of_le l end.

(** ** Constants *)

Definition RPC_MAX_PDU_SIZE : Z := 1464.
Definition RPC_HEADER_SIZE : nat := 80.
Definition NDR_REQUEST_HEADER_SIZE : Z := 20.
Definition RPC_PACKET_TYPE_REQUEST : Z := 0.
Definition RPC_PACKET_TYPE_RESPONSE : Z := 2.
Definition RPC_PACKET_TYPE_FAULT : Z := 3.
Definition RPC_OPNUM_CONNECT : Z := 0.
Definition RPC_OPNUM_RELEASE : Z := 1.
Definition RPC_OPNUM_READ : Z := 2.
Definition RPC_OPNUM_CONTROL : Z := 4.
Definition RPC_DREP_LITTLE_ENDIAN : Z := 0x10.
Definition BLOCK_TYPE_AR_BLOCK_REQ : Z := 0x0101.
Definition BLOCK_TYPE_IOCR_BLOCK_REQ : Z := 0x0102.
Definition BLOCK_TYPE_ALARM_CR_BLOCK_REQ : Z := 0x0103.
Definition BLOCK_TYPE_EXPECTED_SUBMOD_BLOCK : Z := 0x0104.
Definition BLOCK_TYPE_AR_BLOCK_RES : Z := 0x8101.
Definition BLOCK_TYPE_IOCR_BLOCK_RES : Z := 0x8102.
Definition BLOCK_TYPE_ALARM_CR_BLOCK_RES : Z := 0x8103.
Definition BLOCK_TYPE_MODULE_DIFF_BLOCK : Z := 0x8104.
Definition BLOCK_TYPE_IOD_CONTROL_REQ : Z := 0x0110.
Definition BLOCK_TYPE_IOD_CONTROL_RES : Z := 0x8110.
Definition BLOCK_TYPE_IOX_CONTROL_REQ : Z := 0x0112.
Definition BLOCK_TYPE_IOX_CONTROL_RES : Z := 0x8112.
Definition BLOCK_TYPE_RELEASE_BLOCK_REQ : Z := 0x0114.
Definition BLOCK_TYPE_RELEASE_BLOCK_RES : Z := 0x8114.
Definition BLOCK_TYPE_IOD_READ_REQ_HEADER : Z := 0x0009.
Definition BLOCK_TYPE_IOD_READ_RES_HEADER : Z := 0x8009.
Definition BLOCK_TYPE_REAL_IDENT_DATA : Z := 0x0013.
Definition IOCR_PROP_RT_CLASS_1 : Z := 1.
Definition IOCR_TAG_HEADER_HIGH : Z := 0xC000.
Definition IOCR_TAG_HEADER_LOW : Z := 0xA000.
Definition CONTROL_CMD_PRM_END : Z := 0x0001.
Definition CONTROL_CMD_APP_READY : Z := 0x0002.
Definition CONTROL_CMD_RELEASE : Z := 0x0004.
Definition CONTROL_CMD_DONE : Z := 0x0008.
Definition PNIO_ERR_CODE_CONNECT : Z := 0xC0.
Definition PNIO_ERR_CODE_READ : Z := 0xC2.
Definition WTC_MAX_SLOTS : nat := 247.
Definition RPC_MAX_DISCOVERED_MODULES : nat := 64.

Definition PNIO_DEVICE_INTERFACE_UUID : list Z :=
  [0xDE; 0xA0; 0x00; 0x01; 0x6C; 0x97; 0x11; 0xD1; 0x82; 0x71; 0x00; 0xA0; 0x24; 0x42; 0xDF; 0x7D].

(** ** Timing profiles and UUIDs ([rpc_strategy.c]) *)

Record timing_params := mk_timing_params {
  tp_send_clock_factor : Z;
  tp_reduction_ratio : Z;
  tp_watchdog_factor : Z;
  tp_data_hold_factor : Z;
  tp_rta_timeout_factor : Z;
  tp_rta_retries : Z }.

Inductive timing_profile := TIMING_DEFAULT | TIMING_AGGRESSIVE | TIMING_CONSERVATIVE.

Definition rpc_strategy_get_timing (profile : timing_profile) : timing_params :=
  match profile with
  | TIMING_DEFAULT => mk_timing_params 32 32 3 3 100 3
  | TIMING_AGGRESSIVE => mk_timing_params 32 16 1 3 60 3
  | TIMING_CONSERVATIVE => mk_timing_params 64 128 10 5 100 5
  end.

Definition uuid_swap_fields (uuid : list Z) : list Z :=
  match uuid with
  | a :: b :: c :: d :: e :: f :: g :: h :: rest => d :: c :: b :: a :: f :: e :: h :: g :: rest
  | _ => uuid
  end.

(** [rpc_generate_uuid] with the time and the two random numbers it draws. *)
Definition rpc_generate_uuid (now rand1 rand2 : Z) : list Z :=
  let uuid := le_bytes 8 now ++ le32 rand1 ++ le32 rand2 in
  let uuid := <[6%nat := Z.lor (Z.land (nth 6 uuid 0) 0x0F) 0x40]> uuid in
  <[8%nat := Z.lor (Z.land (nth 8 uuid 0) 0x3F) 0x80]> uuid.

(** ** The RPC context *)

(** [rpc_context_t]; [rc_open]: the socket is open. *)
Record rpc_context := mk_rpc_context {
  rc_open : bool;
  rc_controller_ip : Z;
  rc_controller_port : Z;
  rc_sequence_number : Z;
  rc_activity_uuid : list Z }.

#[export] Instance eta_rpc_context : Eta rpc_context := fun r =>
  mk_rpc_context (rc_open r) (rc_controller_ip r) (rc_controller_port r) (rc_sequence_number r)
    (rc_activity_uuid r).

(** ** Headers *)

Definition rpc_header_bytes (packet_type : Z) (object_uuid interface_uuid activity_uuid : list Z)
    (sequence_number opnum fragment_length : Z) : list Z :=
  [4; packet_type; 0x22; 0; RPC_DREP_LITTLE_ENDIAN; 0; 0; 0] ++ object_uuid ++ interface_uuid ++
  activity_uuid ++ le32 0 ++ le32 1 ++ le32 sequence_number ++ le16 opnum ++ le16 0xFFFF ++
  le16 0xFFFF ++ le16 fragment_length ++ le16 0 ++ [0; 0].

Definition build_rpc_header (ctx : rpc_context) (object_uuid : list Z) (opnum fragment_length : Z)
    : list Z * rpc_context :=
  (rpc_header_bytes RPC_PACKET_TYPE_REQUEST (uuid_swap_fields object_uuid)
     (uuid_swap_fields PNIO_DEVICE_INTERFACE_UUID) (uuid_swap_fields (rc_activity_uuid ctx))
     (rc_sequence_number ctx) opnum fragment_length,
   ctx <| rc_sequence_number ::= fun n => wrap32 (n + 1) |>).

(** A block: type, length of what follows it, version 1.0 and the body. *)
Definition block (type : Z) (body : list Z) : list Z :=
  be16 type ++ be16 (wrap16 (Z.of_nat (length body) + 2)) ++ [1; 0] ++ body.

Definition write_ndr_request_header (args_maximum args_length : Z) : list Z :=
  le32 args_maximum ++ le32 args_length ++ le32 args_length ++ le32 0 ++ le32 args_length.

Definition args_maximum : Z := RPC_MAX_PDU_SIZE - 80.

(** The result of building a PDU in a buffer: the bytes and the new context, a refusal, or a
    write behind the end of the buffer. *)
Inductive build_result :=
| Built (pdu : list Z) (ctx : rpc_context)
| Refused (e : wtc_result)
| Overflowed.

(** The end of every builder: NDR header and RPC header in front of the blocks. *)
Definition finish_request (ctx : rpc_context) (object_uuid : list Z) (opnum : Z) (blocks : list Z)
    : list Z * rpc_context :=
  let pnio_len := Z.of_nat (length blocks) in
  let '(hdr, ctx) := build_rpc_header ctx object_uuid opnum (wrap16 (20 + pnio_len)) in
  (hdr ++ write_ndr_request_header args_maximum pnio_len ++ blocks, ctx).

(** ** The connect request *)

Record iocr_params := mk_iocr_params {
  ip_type : iocr_type;
  ip_reference : Z;
  ip_frame_id : Z;
  ip_data_length : Z;
  ip_send_clock_factor : Z;
  ip_reduction_ratio : Z;
  ip_watchdog_factor : Z }.

(** An entry of [expected_config]. *)
Record expected_submodule := mk_expected_submodule {
  ex_slot : Z;
  ex_module_ident : Z;
  ex_subslot : Z;
  ex_submodule_ident : Z;
  ex_data_length : Z;
  ex_is_input : bool }.

(** [connect_request_params_t] *)
Record connect_request_params := mk_connect_request_params {
  cp_ar_uuid : list Z;
  cp_session_key : Z;
  cp_ar_type : ar_type;
  cp_ar_properties : Z;
  cp_station_name : string;
  cp_controller_mac : list Z;
  cp_controller_uuid : list Z;
  cp_controller_port : Z;
  cp_activity_timeout : Z;
  cp_iocr : list iocr_params;
  cp_expected : list expected_submodule;
  cp_max_alarm_data_length : Z;
  cp_rta_timeout_factor : Z;
  cp_rta_retries : Z;
  cp_data_hold_factor : Z }.

Definition ar_type_code (t : ar_type) : Z :=
  match t with AR_TYPE_IOCAR => 1 | AR_TYPE_SUPERVISOR => 6 | AR_TYPE_SINGLE => 0x10 end.
Definition iocr_type_code (t : iocr_type) : Z :=
  match t with IOCR_TYPE_INPUT => 1 | IOCR_TYPE_OUTPUT => 2 | IOCR_TYPE_MULTICAST => 3 end.

Definition ar_block (ctx : rpc_context) (p : connect_request_params) : list Z :=
  block BLOCK_TYPE_AR_BLOCK_REQ
    (be16 (ar_type_code (cp_ar_type p)) ++ cp_ar_uuid p ++ be16 (cp_session_key p) ++
     cp_controller_mac p ++ cp_controller_uuid p ++ be32 (cp_ar_properties p) ++
     be16 (cp_activity_timeout p) ++ be16 (rc_controller_port ctx) ++
     be16 (wrap16 (Z.of_nat (String.length (cp_station_name p)))) ++ string_bytes (cp_station_name p)).

(** Whether a submodule has an IO data object in the input (output) IOCR, and whether it has
    a consumer status there. *)
Definition has_iodata (input_iocr : bool) (e : expected_submodule) : bool :=
  if ex_data_length e =? 0 then input_iocr else Bool.eqb (ex_is_input e) input_iocr.
Definition has_iocs (input_iocr : bool) (e : expected_submodule) : bool :=
  if ex_data_length e =? 0 then negb input_iocr else negb (Bool.eqb (ex_is_input e) input_iocr).

(** The IO data objects with their frame offsets, from [offset] on, and the offset behind. *)
Fixpoint iodata_objects (input_iocr : bool) (offset : Z) (es : list expected_submodule)
    : list (expected_submodule * Z) * Z :=
  match es with
  | [] => ([], offset)
  | e :: es =>
      if has_iodata input_iocr e then
        let '(l, final) := iodata_objects input_iocr (wrap16 (offset + ex_data_length e + 1)) es in
        ((e, offset) :: l, final)
      else iodata_objects input_iocr offset es
  end.

Fixpoint iocs_objects (input_iocr : bool) (offset : Z) (es : list expected_submodule)
    : list (expected_submodule * Z) :=
  match es with
  | [] => []
  | e :: es =>
      if has_iocs input_iocr e then (e, offset) :: iocs_objects input_iocr (wrap16 (offset + 1)) es
      else iocs_objects input_iocr offset es
  end.

Definition object_bytes (o : expected_submodule * Z) : list Z :=
  be16 (ex_slot o.1) ++ be16 (ex_subslot o.1) ++ be16 o.2.

Definition objects_bytes (l : list (expected_submodule * Z)) : list Z :=
  be16 (wrap16 (Z.of_nat (length l))) ++ concat (object_bytes <$> l).

Definition iocr_block (p : connect_request_params) (cr : iocr_params) : list Z :=
  let input_iocr := bool_decide (ip_type cr = IOCR_TYPE_INPUT) in
  let '(iodata, offset) := iodata_objects input_iocr 0 (cp_expected p) in
  let iocs := iocs_objects input_iocr offset (cp_expected p) in
  block BLOCK_TYPE_IOCR_BLOCK_REQ
    (be16 (iocr_type_code (ip_type cr)) ++ be16 (ip_reference cr) ++ be16 PROFINET_ETHERTYPE ++
     be32 IOCR_PROP_RT_CLASS_1 ++ be16 (ip_data_length cr) ++ be16 (ip_frame_id cr) ++
     be16 (ip_send_clock_factor cr) ++ be16 (ip_reduction_ratio cr) ++ be16 1 ++ be16 0 ++
     be32 0xFFFFFFFF ++ be16 (ip_watchdog_factor cr) ++
     be16 (if cp_data_hold_factor p =? 0 then 3 else cp_data_hold_factor p) ++
     be16 IOCR_TAG_HEADER_HIGH ++ replicate 6 0 ++ be16 1 ++ be32 0 ++
     objects_bytes iodata ++ objects_bytes iocs).

Definition alarm_cr_block (p : connect_request_params) : list Z :=
  let tf := if cp_rta_timeout_factor p =? 0 then 100 else cp_rta_timeout_factor p in
  block BLOCK_TYPE_ALARM_CR_BLOCK_REQ
    (be16 1 ++ be16 PROFINET_ETHERTYPE ++ be32 0 ++ be16 (if 100 <? tf then 100 else tf) ++
     be16 (if cp_rta_retries p =? 0 then 3 else cp_rta_retries p) ++ be16 1 ++
     be16 (cp_max_alarm_data_length p) ++ be16 IOCR_TAG_HEADER_HIGH ++ be16 IOCR_TAG_HEADER_LOW).

(** The slots of the expected configuration, each once, in order of appearance. *)
Definition unique_slots (es : list expected_submodule) : list Z :=
  foldl (fun seen e => if bool_decide (ex_slot e ∈ seen) || (WTC_MAX_SLOTS <=? length seen)%nat
                       then seen else seen ++ [ex_slot e]) [] es.

Definition in_slot (slot : Z) (es : list expected_submodule) : list expected_submodule :=
  filter (fun e => ex_slot e = slot) es.

Definition submodule_bytes (e : expected_submodule) : list Z :=
  let no_io := ex_data_length e =? 0 in
  be16 (ex_subslot e) ++ be32 (ex_submodule_ident e) ++
  be16 (if no_io then 0 else if ex_is_input e then 1 else 2) ++
  be16 (if no_io then 1 else if ex_is_input e then 1 else 2) ++
  be16 (if no_io then 0 else ex_data_length e) ++ [1; 1].

Definition slot_bytes (es : list expected_submodule) (slot : Z) : list Z :=
  be32 0 ++ be16 slot ++
  be32 (match in_slot slot es with e :: _ => ex_module_ident e | [] => 0 end) ++ be16 0 ++
  be16 (wrap16 (Z.of_nat (length (in_slot slot es)))) ++
  concat (submodule_bytes <$> in_slot slot es).

Definition expected_block (p : connect_request_params) : list Z :=
  let slots := unique_slots (cp_expected p) in
  block BLOCK_TYPE_EXPECTED_SUBMOD_BLOCK
    (be16 (wrap16 (Z.of_nat (length slots))) ++ concat (slot_bytes (cp_expected p) <$> slots)).

Definition connect_blocks (ctx : rpc_context) (p : connect_request_params) : list Z :=
  ar_block ctx p ++ concat (iocr_block p <$> cp_iocr p) ++ alarm_cr_block p ++ expected_block p.

(** [rpc_build_connect_request] in a buffer of [buf_len] bytes; [uuid] is the new activity
    UUID.  The size is checked when everything has been written. *)
Definition rpc_build_connect_request (uuid : list Z) (ctx : rpc_context)
    (p : connect_request_params) (buf_len : Z) : build_result :=
  if buf_len <? RPC_MAX_PDU_SIZE then Refused WTC_ERROR_NO_MEMORY
  else
    let blocks := connect_blocks ctx p in
    let pos := 100 + Z.of_nat (length blocks) in
    if buf_len <? pos then Overflowed
    else if RPC_MAX_PDU_SIZE <? pos then Refused WTC_ERROR_NO_MEMORY
    else
      let '(pdu, ctx) := finish_request (ctx <| rc_activity_uuid := uuid |>) (cp_ar_uuid p)
                           RPC_OPNUM_CONNECT blocks in
      Built pdu ctx.

(** ** Control, release and read requests *)

Definition control_body (ar_uuid : list Z) (session_key command : Z) : list Z :=
  be16 0 ++ ar_uuid ++ be16 session_key ++ be16 0 ++ be16 command ++ be16 0.

Definition build_request (ctx : rpc_context) (ar_uuid : list Z) (opnum : Z) (blocks : list Z)
    (buf_len : Z) : build_result :=
  if buf_len <? RPC_MAX_PDU_SIZE then Refused WTC_ERROR_NO_MEMORY
  else let '(pdu, ctx) := finish_request ctx ar_uuid opnum blocks in Built pdu ctx.

Definition rpc_build_control_request (ctx : rpc_context) (ar_uuid : list Z)
    (session_key control_command buf_len : Z) : build_result :=
  build_request ctx ar_uuid RPC_OPNUM_CONTROL
    (block BLOCK_TYPE_IOD_CONTROL_REQ (control_body ar_uuid session_key control_command)) buf_len.

Definition rpc_build_release_request (ctx : rpc_context) (ar_uuid : list Z)
    (session_key buf_len : Z) : build_result :=
  build_request ctx ar_uuid RPC_OPNUM_RELEASE
    (block BLOCK_TYPE_RELEASE_BLOCK_REQ (control_body ar_uuid session_key CONTROL_CMD_RELEASE)) buf_len.

(** [read_request_params_t] *)
Record read_request_params := mk_read_request_params {
  rp_ar_uuid : list Z;
  rp_session_key : Z;
  rp_api : Z;
  rp_slot : Z;
  rp_subslot : Z;
  rp_index : Z;
  rp_max_record_length : Z }.

Definition rpc_build_read_request (ctx : rpc_context) (p : read_request_params) (buf_len : Z)
    : build_result :=
  build_request ctx (rp_ar_uuid p) RPC_OPNUM_READ
    (block BLOCK_TYPE_IOD_READ_REQ_HEADER
       (be16 1 ++ rp_ar_uuid p ++ be32 (rp_api p) ++ be16 (rp_slot p) ++ be16 (rp_subslot p) ++
        be16 0 ++ be16 (rp_index p) ++ be32 (rp_max_record_length p) ++
        replicate 16 0 ++ replicate 8 0)) buf_len.

(** ** Received headers *)

Definition sub (off n : nat) (buf : list Z) : list Z := take n (drop off buf).

(** [profinet_rpc_header_t] of a received PDU; multi-byte fields as their raw bytes. *)
Record rpc_header := mk_rpc_header {
  rh_packet_type : Z;
  rh_drep0 : Z;
  rh_interface_uuid : list Z;
  rh_activity_uuid : list Z;
  rh_sequence_number : list Z;
  rh_opnum : list Z }.

Definition rpc_header_of (buf : list Z) : rpc_header :=
  mk_rpc_header (nth 1 buf 0) (nth 4 buf 0) (sub 24 16 buf) (sub 40 16 buf) (sub 64 4 buf)
    (sub 68 2 buf).

(** [rpc_hdr_u16], [rpc_hdr_u32] and [read_ndr_u32]: the byte order is the sender's. *)
Definition by_drep (h : rpc_header) (raw : list Z) : Z :=
  if Z.testbit (rh_drep0 h) 4 then of_le raw else of_be 0 raw.

Definition response_has_ndr_header (buf : list Z) (pos : nat) : bool :=
  if (length buf <? pos + 6)%nat then false
  else
    let maybe_type := nth pos buf 0 * 2 ^ 8 + nth (S pos) buf 0 in
    negb ((0x0001 <=? maybe_type) && (maybe_type <=? 0x02FF)) &&
    negb ((0x8001 <=? maybe_type) && (maybe_type <=? 0x81FF)).

(** The cursor behind the RPC header. *)
Definition after_header (buf : list Z) : cursor := mk_cursor buf (Z.of_nat (length buf)) 80.

(** [pos = n] *)
Definition seek (n : Z) : wire unit := fun c => Ok tt (c <| cu_pos := n |>).
(** [if (pos + n > limit) fail] *)
Definition require (n : Z) (e : wtc_result) : wire unit := fun c =>
  if cu_limit c <? cu_pos c + n then Fail e c else Ok tt c.

(** ** Control responses *)

(** The NDR header of an answer, if there is one: the PNIO status and the actual count. *)
Definition ndr_response (h : rpc_header) : wire (Z * Z) :=
  require 20 WTC_ERROR_PROTOCOL;;;
  status <-- fetch 4;;
  skip 12;;;
  count <-- fetch 4;;
  wret (by_drep h status, by_drep h count).

Definition control_response_body : wire unit :=
  require 6 WTC_ERROR_PROTOCOL;;;
  block_type <-- fetch_u16;;
  if negb (block_type =? BLOCK_TYPE_IOD_CONTROL_RES) &&
     negb (block_type =? BLOCK_TYPE_RELEASE_BLOCK_RES) then wfail WTC_ERROR_PROTOCOL
  else
    _ <-- fetch_u16;;
    skip (2 + 2 + 16 + 2 + 2);;;
    _ <-- fetch_u16;;
    wret tt.

(** [rpc_parse_control_response]: the result and [*success]; [None]: memory behind the received
    bytes was read. *)
Definition rpc_parse_control_response (buf : list Z) : option (wtc_result * bool) :=
  if (length buf <? RPC_HEADER_SIZE)%nat then Some (WTC_ERROR_INVALID_PARAM, false)
  else
    let h := rpc_header_of buf in
    if negb (rh_packet_type h =? RPC_PACKET_TYPE_RESPONSE) then Some (WTC_ERROR_PROTOCOL, false)
    else
      match (if response_has_ndr_header buf 80
             then '(status, _) <-- ndr_response h;;
                  (if negb (status =? 0) then wfail WTC_ERROR_PROTOCOL else control_response_body)
             else control_response_body) (after_header buf) with
      | Ok _ _ => Some (WTC_OK, true)
      | Fail e _ => Some (e, false)
      | Oob => None
      end.

(** ** The connect response *)

(** [connect_response_t]; [frame_ids] as pairs (requested, assigned). *)
Record connect_response := mk_connect_response {
  cs_success : bool;
  cs_ar_uuid : list Z;
  cs_session_key : Z;
  cs_device_mac : list Z;
  cs_device_port : Z;
  cs_frame_ids : list (Z * Z);
  cs_device_alarm_ref : Z;
  cs_has_diff : bool;
  cs_diff_count : Z;
  cs_discovered : list ar_module;
  cs_error_code : Z }.

#[export] Instance eta_connect_response : Eta connect_response := fun r =>
  mk_connect_response (cs_success r) (cs_ar_uuid r) (cs_session_key r) (cs_device_mac r)
    (cs_device_port r) (cs_frame_ids r) (cs_device_alarm_ref r) (cs_has_diff r) (cs_diff_count r)
    (cs_discovered r) (cs_error_code r).

Definition zero_response : connect_response :=
  mk_connect_response false (replicate 16 0) 0 (replicate 6 0) 0 [] 0 false 0 [] 0.

(** The loops over submodules, modules and APIs of a module difference block that ends at
    [block_end]; [n]: iterations left. *)
Fixpoint diff_submodules (n : nat) (block_end slot ident : Z) (ms : list ar_module)
    : wire (list ar_module) :=
  match n with
  | O => wret ms
  | S n =>
      pos <-- get_pos;;
      if (block_end <? pos + 8) || (WTC_MAX_SLOTS <=? length ms)%nat then wret ms
      else
        subslot <-- fetch_u16;;
        submodule_ident <-- fetch_u32;;
        _ <-- fetch_u16;;
        diff_submodules n block_end slot ident
          (ms ++ [mk_ar_module slot subslot ident submodule_ident])
  end.

Fixpoint diff_modules (n : nat) (block_end : Z) (ms : list ar_module) : wire (list ar_module) :=
  match n with
  | O => wret ms
  | S n =>
      pos <-- get_pos;;
      if block_end <? pos + 8 then wret ms
      else
        slot <-- fetch_u16;;
        ident <-- fetch_u32;;
        _ <-- fetch_u16;;
        count <-- fetch_u16;;
        ms <-- diff_submodules (Z.to_nat (Z.min count 16)) block_end slot ident ms;;
        diff_modules n block_end ms
  end.

Fixpoint diff_apis (n : nat) (block_end : Z) (ms : list ar_module) : wire (list ar_module) :=
  match n with
  | O => wret ms
  | S n =>
      pos <-- get_pos;;
      if block_end <? pos + 6 then wret ms
      else
        _ <-- fetch_u32;;
        count <-- fetch_u16;;
        ms <-- diff_modules (Z.to_nat (Z.min count 64)) block_end ms;;
        diff_apis n block_end ms
  end.

(** The [switch] over the block type. *)
Definition response_block (type block_end : Z) (r : connect_response) : wire connect_response :=
  if type =? BLOCK_TYPE_AR_BLOCK_RES then
    skip 2;;;
    uuid <-- fetch 16;;
    key <-- fetch_u16;;
    mac <-- fetch 6;;
    port <-- fetch_u16;;
    wret (r <| cs_ar_uuid := uuid |> <| cs_session_key := key |> <| cs_device_mac := mac |>
            <| cs_device_port := port |> <| cs_success := true |>)
  else if type =? BLOCK_TYPE_IOCR_BLOCK_RES then
    if (length (cs_frame_ids r) <? 4)%nat then
      skip 2;;;
      iocr_ref <-- fetch_u16;;
      frame_id <-- fetch_u16;;
      wret (r <| cs_frame_ids ::= fun l => l ++ [(iocr_ref, frame_id)] |>)
    else wret r
  else if type =? BLOCK_TYPE_ALARM_CR_BLOCK_RES then
    skip 2;;;
    ref <-- fetch_u16;;
    wret (r <| cs_device_alarm_ref := ref |>)
  else if type =? BLOCK_TYPE_MODULE_DIFF_BLOCK then
    api_count <-- fetch_u16;;
    ms <-- diff_apis (Z.to_nat (Z.min api_count 4)) block_end [];;
    wret (r <| cs_has_diff := true |> <| cs_diff_count := api_count |> <| cs_discovered := ms |>)
  else wret r.

(** The block loop; each round advances by the block, at least six bytes. *)
Fixpoint response_blocks (fuel : nat) (r : connect_response) : wire connect_response :=
  match fuel with
  | O => wret r
  | S fuel => fun c =>
      if cu_pos c + 6 <=? cu_limit c then
        (type <-- fetch_u16;;
         length <-- fetch_u16;;
         _ <-- fetch 2;;
         pos <-- get_pos;;
         let block_end := pos + length - 2 in
         if (length <? 2) || (cu_limit c <? block_end) then wret r
         else
           r <-- response_block type block_end r;;
           seek block_end;;;
           response_blocks fuel r) c
      else Ok r c
  end.

(** [rpc_parse_connect_response]; the response of a too short PDU is left alone. *)
Definition rpc_parse_connect_response (buf : list Z) : option (wtc_result * connect_response) :=
  if (length buf <? RPC_HEADER_SIZE)%nat then Some (WTC_ERROR_INVALID_PARAM, zero_response)
  else
    let h := rpc_header_of buf in
    if rh_packet_type h =? RPC_PACKET_TYPE_FAULT
    then Some (WTC_ERROR_PROTOCOL, zero_response <| cs_error_code := PNIO_ERR_CODE_CONNECT |>)
    else if negb (rh_packet_type h =? RPC_PACKET_TYPE_RESPONSE)
    then Some (WTC_ERROR_PROTOCOL, zero_response)
    else
      let blocks := response_blocks (length buf) zero_response in
      match (if response_has_ndr_header buf 80
             then '(status, count) <-- ndr_response h;;
                  (if negb (status =? 0)
                   then wret (inl (wrap8 status))
                   else if count =? 0 then wfail WTC_ERROR_PROTOCOL
                   else r <-- blocks;; wret (inr r))
             else r <-- blocks;; wret (inr r)) (after_header buf) with
      | Ok (inl code) _ => Some (WTC_ERROR_PROTOCOL, zero_response <| cs_error_code := code |>)
      | Ok (inr r) _ => Some (if cs_success r then WTC_OK else WTC_ERROR_PROTOCOL, r)
      | Fail e _ => Some (e, zero_response)
      | Oob => None
      end.

(** ** Requests of the device *)

(** [incoming_control_request_t]; source address and port are filled in by the caller. *)
Record incoming_control_request := mk_incoming_control_request {
  iq_ar_uuid : list Z;
  iq_session_key : Z;
  iq_control_command : Z;
  iq_activity_uuid : list Z;
  iq_sequence_number : Z;
  iq_interface_uuid : list Z;
  iq_block_type : Z;
  iq_drep0 : Z }.

Definition control_request_body (h : rpc_header) : wire incoming_control_request :=
  require 6 WTC_ERROR_PROTOCOL;;;
  block_type <-- fetch_u16;;
  if negb (block_type =? BLOCK_TYPE_IOD_CONTROL_REQ) &&
     negb (block_type =? BLOCK_TYPE_IOX_CONTROL_REQ) then wfail WTC_ERROR_PROTOCOL
  else
    _ <-- fetch_u16;;
    skip (2 + 2);;;
    require 16 WTC_ERROR_PROTOCOL;;;
    uuid <-- fetch 16;;
    require 2 WTC_ERROR_PROTOCOL;;;
    key <-- fetch_u16;;
    skip 2;;;
    require 2 WTC_ERROR_PROTOCOL;;;
    command <-- fetch_u16;;
    wret (mk_incoming_control_request uuid key command (rh_activity_uuid h)
            (by_drep h (rh_sequence_number h)) (rh_interface_uuid h) block_type (rh_drep0 h)).

(** [rpc_parse_incoming_control_request]: the request, or the error. *)
Definition rpc_parse_incoming_control_request (buf : list Z)
    : option (wtc_result + incoming_control_request) :=
  if (length buf <? RPC_HEADER_SIZE)%nat then Some (inl WTC_ERROR_INVALID_PARAM)
  else
    let h := rpc_header_of buf in
    if negb (rh_packet_type h =? RPC_PACKET_TYPE_REQUEST) then Some (inl WTC_ERROR_PROTOCOL)
    else if negb (by_drep h (rh_opnum h) =? RPC_OPNUM_CONTROL) then Some (inl WTC_ERROR_PROTOCOL)
    else
      match (if response_has_ndr_header buf 80
             then require NDR_REQUEST_HEADER_SIZE WTC_ERROR_PROTOCOL;;;
                  skip NDR_REQUEST_HEADER_SIZE;;; control_request_body h
             else control_request_body h) (after_header buf) with
      | Ok q _ => Some (inr q)
      | Fail e _ => Some (inl e)
      | Oob => None
      end.

(** [rpc_build_control_response]; the context is not changed. *)
Definition rpc_build_control_response (q : incoming_control_request) (buf_len : Z)
    : wtc_result + list Z :=
  if buf_len <? RPC_MAX_PDU_SIZE then inl WTC_ERROR_NO_MEMORY
  else
    let swap := if negb (iq_drep0 q =? RPC_DREP_LITTLE_ENDIAN) then uuid_swap_fields else id in
    let type := if iq_block_type q =? BLOCK_TYPE_IOX_CONTROL_REQ
                then BLOCK_TYPE_IOX_CONTROL_RES else BLOCK_TYPE_IOD_CONTROL_RES in
    let blocks := block type (control_body (iq_ar_uuid q) (iq_session_key q) CONTROL_CMD_DONE) in
    let len := Z.of_nat (length blocks) in
    inr (rpc_header_bytes RPC_PACKET_TYPE_RESPONSE (uuid_swap_fields (iq_ar_uuid q))
           (swap (iq_interface_uuid q)) (swap (iq_activity_uuid q)) (iq_sequence_number q)
           RPC_OPNUM_CONTROL (wrap16 (20 + len)) ++
         write_ndr_request_header 0 len ++ blocks).

(** ** The read response *)

(** [read_response_t] *)
Record read_response := mk_read_response {
  rr_success : bool;
  rr_index : Z;
  rr_record_data_length : Z;
  rr_modules : list ar_module;
  rr_error_code : Z }.

#[export] Instance eta_read_response : Eta read_response := fun r =>
  mk_read_response (rr_success r) (rr_index r) (rr_record_data_length r) (rr_modules r)
    (rr_error_code r).

Definition zero_read_response : read_response := mk_read_response false 0 0 [] 0.

(** The loops of [parse_real_identification_data] over subslots, slots and APIs. *)
Fixpoint ident_subslots (n : nat) (slot ident : Z) (ms : list ar_module) : wire (list ar_module) :=
  match n with
  | O => wret ms
  | S n => fun c =>
      if cu_pos c + 6 <=? cu_limit c then
        (subslot <-- fetch_u16;;
         submodule_ident <-- fetch_u32;;
         ident_subslots n slot ident
           (if (length ms <? RPC_MAX_DISCOVERED_MODULES)%nat
            then ms ++ [mk_ar_module slot subslot ident submodule_ident] else ms)) c
      else Ok ms c
  end.

Fixpoint ident_slots (n : nat) (ms : list ar_module) : wire (list ar_module) :=
  match n with
  | O => wret ms
  | S n => fun c =>
      if cu_pos c + 8 <=? cu_limit c then
        (slot <-- fetch_u16;;
         ident <-- fetch_u32;;
         count <-- fetch_u16;;
         ms <-- ident_subslots (Z.to_nat count) slot ident ms;;
         ident_slots n ms) c
      else Ok ms c
  end.

Fixpoint ident_apis (n : nat) (ms : list ar_module) : wire (list ar_module) :=
  match n with
  | O => wret ms
  | S n => fun c =>
      if cu_pos c + 6 <=? cu_limit c then
        (_ <-- fetch_u32;;
         count <-- fetch_u16;;
         ms <-- ident_slots (Z.to_nat count) ms;;
         ident_apis n ms) c
      else Ok ms c
  end.

(** The optional block header of the record. *)
Definition ident_header : wire unit := fun c =>
  if cu_pos c + 6 <=? cu_limit c then
    (type <-- fetch_u16;;
     if type =? BLOCK_TYPE_REAL_IDENT_DATA then skip 4 else seek 0) c
  else Ok tt c.

Definition parse_real_identification_data (data : list Z) : outcome (list ar_module) :=
  (ident_header;;;
   require 2 WTC_ERROR_PROTOCOL;;;
   api_count <-- fetch_u16;;
   ident_apis (Z.to_nat api_count) []) (frame_cursor data).

Definition read_response_body : wire (Z * Z) :=
  require 6 WTC_ERROR_PROTOCOL;;;
  block_type <-- fetch_u16;;
  block_length <-- fetch_u16;;
  if negb (block_type =? BLOCK_TYPE_IOD_READ_RES_HEADER) || (block_length <? 2)
  then wfail WTC_ERROR_PROTOCOL
  else
    skip (2 + 2 + 16 + 4 + 2 + 2 + 2);;;
    require 6 WTC_ERROR_PROTOCOL;;;
    index <-- fetch_u16;;
    record_length <-- fetch_u32;;
    (fun c => if cu_pos c + 24 <=? cu_limit c then skip 24 c else Ok tt c);;;
    wret (index, record_length).

(** [rpc_parse_read_response] *)
Definition rpc_parse_read_response (buf : list Z) : option (wtc_result * read_response) :=
  if (length buf <? RPC_HEADER_SIZE)%nat then Some (WTC_ERROR_INVALID_PARAM, zero_read_response)
  else
    let h := rpc_header_of buf in
    if rh_packet_type h =? RPC_PACKET_TYPE_FAULT
    then Some (WTC_ERROR_PROTOCOL, zero_read_response <| rr_error_code := PNIO_ERR_CODE_READ |>)
    else if negb (rh_packet_type h =? RPC_PACKET_TYPE_RESPONSE)
    then Some (WTC_ERROR_PROTOCOL, zero_read_response)
    else
      match (if response_has_ndr_header buf 80
             then '(status, _) <-- ndr_response h;;
                  (if negb (status =? 0) then wret (inl (wrap8 status))
                   else r <-- read_response_body;; wret (inr r))
             else r <-- read_response_body;; wret (inr r)) (after_header buf) with
      | Ok (inl code) _ => Some (WTC_ERROR_PROTOCOL, zero_read_response <| rr_error_code := code |>)
      | Ok (inr (index, len)) c =>
          let r := mk_read_response true index len [] 0 in
          let available := Z.min (u64_sub (cu_limit c) (cu_pos c)) len in
          if (0 <? len) && (cu_pos c <? cu_limit c) &&
             ((index =? 0xE001) || (index =? 0xF000)) then
            match parse_real_identification_data
                    (sub (Z.to_nat (cu_pos c)) (Z.to_nat available) buf) with
            | Ok ms _ => Some (WTC_OK, r <| rr_modules := ms |>)
            | Fail _ _ => Some (WTC_OK, r)
            | Oob => None
            end
          else Some (WTC_OK, r)
      | Fail e _ => Some (e, zero_read_response)
      | Oob => None
      end.

(** ** The calls

    [send]: what [rpc_send_and_receive] returns for a request, the received bytes or an error
    ([WTC_ERROR_IO], [WTC_ERROR_TIMEOUT]). *)

Definition transport : Type := list Z -> wtc_result + list Z.

(** [rpc_send_and_receive] on the context. *)
Definition rpc_send_and_receive (send : transport) (ctx : rpc_context) (request : list Z)
    : wtc_result + list Z :=
  if rc_open ctx then send request else inl WTC_ERROR_IO.

(** The outcome of a call: the result, the value and the new context; [None]: memory outside a
    buffer was accessed. *)
Definition call_result (A : Type) : Type := option (wtc_result * A * rpc_context).

Definition rpc_connect (send : transport) (uuid : list Z) (ctx : rpc_context)
    (p : connect_request_params) : call_result connect_response :=
  match rpc_build_connect_request uuid ctx p RPC_MAX_PDU_SIZE with
  | Overflowed => None
  | Refused e => Some (e, zero_response, ctx)
  | Built pdu ctx =>
      match rpc_send_and_receive send ctx pdu with
      | inl e => Some (e, zero_response, ctx)
      | inr resp => (fun '(e, r) => (e, r, ctx)) <$> rpc_parse_connect_response resp
      end
  end.

(** A request answered by a control response. *)
Definition control_call (send : transport) (ctx : rpc_context) (b : build_result)
    : call_result unit :=
  match b with
  | Overflowed => None
  | Refused e => Some (e, tt, ctx)
  | Built pdu ctx =>
      match rpc_send_and_receive send ctx pdu with
      | inl e => Some (e, tt, ctx)
      | inr resp =>
          (fun '(e, success) =>
             (if bool_decide (e = WTC_OK) && negb success then WTC_ERROR_PROTOCOL else e, tt, ctx))
          <$> rpc_parse_control_response resp
      end
  end.

Definition rpc_parameter_end (send : transport) (ctx : rpc_context) (ar_uuid : list Z)
    (session_key : Z) : call_result unit :=
  control_call send ctx
    (rpc_build_control_request ctx ar_uuid session_key CONTROL_CMD_PRM_END RPC_MAX_PDU_SIZE).

Definition rpc_application_ready (send : transport) (ctx : rpc_context) (ar_uuid : list Z)
    (session_key : Z) : call_result unit :=
  control_call send ctx
    (rpc_build_control_request ctx ar_uuid session_key CONTROL_CMD_APP_READY RPC_MAX_PDU_SIZE).

(** [rpc_release]: a missing or unreadable answer is a success. *)
Definition rpc_release (send : transport) (ctx : rpc_context) (ar_uuid : list Z)
    (session_key : Z) : call_result unit :=
  match rpc_build_release_request ctx ar_uuid session_key RPC_MAX_PDU_SIZE with
  | Refused e => Some (e, tt, ctx)
  | b => (fun '(_, v, ctx) => (WTC_OK, v, ctx)) <$> control_call send ctx b
  end.

Definition rpc_read_record (send : transport) (ctx : rpc_context) (p : read_request_params)
    : call_result read_response :=
  match rpc_build_read_request ctx p RPC_MAX_PDU_SIZE with
  | Overflowed => None
  | Refused e => Some (e, zero_read_response, ctx)
  | Built pdu ctx =>
      match rpc_send_and_receive send ctx pdu with
      | inl e => Some (e, zero_read_response, ctx)
      | inr resp => (fun '(e, r) => (e, r, ctx)) <$> rpc_parse_read_response resp
      end
  end.

(** ** Basic facts *)

Lemma length_le_bytes n v : length (le_bytes n v) = n.
Proof. revert v. induction n as [|n IH]; intros v; cbn; [done|]. by rewrite IH. Qed.

Lemma of_le_bytes n v : 0 <= v < 2 ^ (8 * Z.of_nat n) -> of_le (le_bytes n v) = v.
Proof.
  revert v. induction n as [|n IH]; intros v Hv.
  { cbn in *. lia. }
  cbn [le_bytes of_le]. rewrite IH.
  - pose proof (Z.div_mod v (2 ^ 8) ltac:(lia)). lia.
  - split; [apply Z.div_pos; lia|]. apply Z.div_lt_upper_bound; [lia|].
    rewrite <- Z.pow_add_r by lia. replace (8 + 8 * Z.of_nat n) with (8 * Z.of_nat (S n)) by lia. apply Hv.
Qed.

Lemma le_bytes_bytes n v : is_bytes (le_bytes n v).
Proof.
  revert v. induction n as [|n IH]; intros v; [constructor|].
  constructor; [apply Z.mod_pos_bound; lia|apply IH].
Qed.

Lemma of_le16 v : is_u16 v -> of_le (le16 v) = v.
Proof. intros H. by apply (of_le_bytes 2). Qed.
Lemma of_le32 v : is_u32 v -> of_le (le32 v) = v.
Proof. intros H. by apply (of_le_bytes 4). Qed.

Definition is_uuid (u : list Z) : Prop := length u = 16%nat /\ is_bytes u.

Lemma uuid_list u : is_uuid u ->
  exists a b c d e f g h rest, u = a :: b :: c :: d :: e :: f :: g :: h :: rest.
Proof.
  intros [Hl _]. do 8 (destruct u as [|? u]; [done|]). by eexists _, _, _, _, _, _, _, _, _.
Qed.

Lemma uuid_swap_involutive u : uuid_swap_fields (uuid_swap_fields u) = u.
Proof. by do 8 (destruct u as [|? u]; [done|]). Qed.

Lemma uuid_swap_is_uuid u : is_uuid u -> is_uuid (uuid_swap_fields u).
Proof.
  intros Hu. destruct (uuid_list u Hu) as (a & b & c & d & e & f & g & h & rest & ->).
  destruct Hu as [Hl Hb]. split; [exact Hl|]. cbn. unfold is_bytes in *.
  do 8 (apply Forall_cons in Hb as [? Hb]). by repeat (constructor; [done|]).
Qed.

(** The header of a built PDU, as the receiver sees it. *)
Lemma rpc_header_of_bytes ptype obj iface act seq opnum frag rest :
  length obj = 16%nat -> length iface = 16%nat -> length act = 16%nat ->
  rpc_header_of (rpc_header_bytes ptype obj iface act seq opnum frag ++ rest)
    = mk_rpc_header ptype RPC_DREP_LITTLE_ENDIAN iface act (le32 seq) (le16 opnum).
Proof.
  intros Ho Hi Ha. unfold rpc_header_of, rpc_header_bytes, sub. rewrite <- !app_assoc.
  set (l8 := [4; ptype; 0x22; 0; RPC_DREP_LITTLE_ENDIAN; 0; 0; 0]).
  set (tail := le32 0 ++ _).
  assert (forall n (a b : list Z), length a = n -> drop n (a ++ b) = b) as D.
  { intros n a b <-. apply drop_app_length. }
  assert (drop 24 (l8 ++ obj ++ iface ++ act ++ tail) = iface ++ act ++ tail) as D24.
  { rewrite (app_assoc l8), (D 24%nat); [done|]. rewrite length_app, Ho. done. }
  assert (drop 40 (l8 ++ obj ++ iface ++ act ++ tail) = act ++ tail) as D40.
  { change 40%nat with (24 + 16)%nat. rewrite <- drop_drop, D24. by apply D. }
  assert (drop 56 (l8 ++ obj ++ iface ++ act ++ tail) = tail) as D56.
  { change 56%nat with (40 + 16)%nat. rewrite <- drop_drop, D40. by apply D. }
  f_equal.
  - rewrite D24, <- Hi. apply take_app_length.
  - rewrite D40, <- Ha. apply take_app_length.
  - change 64%nat with (56 + 8)%nat. rewrite <- drop_drop, D56. reflexivity.
  - change 68%nat with (56 + 12)%nat. rewrite <- drop_drop, D56. reflexivity.
Qed.

Lemma length_rpc_header ptype obj iface act seq opnum frag :
  length obj = 16%nat -> length iface = 16%nat -> length act = 16%nat ->
  length (rpc_header_bytes ptype obj iface act seq opnum frag) = 80%nat.
Proof. intros Ho Hi Ha. unfold rpc_header_bytes. rewrite !length_app, Ho, Hi, Ha. done. Qed.

Lemma rpc_header_is_bytes ptype obj iface act seq opnum frag :
  is_u8 ptype -> is_bytes obj -> is_bytes iface -> is_bytes act ->
  is_bytes (rpc_header_bytes ptype obj iface act seq opnum frag).
Proof.
  intros Hp Ho Hi Ha. unfold rpc_header_bytes, is_bytes.
  repeat apply Forall_app_2; try done; try apply le_bytes_bytes;
    repeat constructor; unfold is_u8, RPC_DREP_LITTLE_ENDIAN in *; lia.
Qed.

(** The cursor behind the header of a PDU. *)
Lemma after_header_wf buf :
  is_bytes buf -> (80 <= length buf)%nat -> Z.of_nat (length buf) < 2 ^ 63 -> wf (after_header buf).
Proof. intros. unfold wf, after_header. cbn. split_and!; try done; lia. Qed.

Lemma after_header_pending hdr rest : length hdr = 80%nat -> pending (after_header (hdr ++ rest)) = rest.
Proof.
  intros H. unfold pending, after_header. cbn [cu_pos cu_buffer].
  change (Z.to_nat 80) with 80%nat. rewrite <- H. apply drop_app_length.
Qed.

(** Guards on the position and relative skips. *)
Lemma reads_require {A} n e (m : wire A) bs a :
  n <= Z.of_nat (length bs) -> reads m bs a -> reads (require n e;;; m) bs a.
Proof.
  intros Hn Hm c rest Hc Hp. unfold wbind, require.
  rewrite (proj2 (Z.ltb_ge _ _)); [by apply Hm|].
  pose proof (pending_length c Hc) as Hl. rewrite Hp, length_app in Hl. lia.
Qed.

Lemma reads_skip n bs : n = Z.of_nat (length bs) -> reads (skip n) bs tt.
Proof.
  intros -> c rest Hc Hp. exists (advance (length bs) c).
  assert (length bs <= length (pending c))%nat by (rewrite Hp, length_app; lia).
  split; [done|]. rewrite pending_advance, Hp, drop_app_length by done.
  split_and!; try done. by apply wf_advance.
Qed.

Lemma reads_seq {A B} (m : wire A) (k : wire B) bs1 bs2 a b :
  reads m bs1 a -> reads k bs2 b -> reads (m;;; k) (bs1 ++ bs2) b.
Proof. intros Hm Hk. by apply (reads_bind m (fun _ => k) bs1 bs2 a b). Qed.

Lemma reads_if_false {A} (g : bool) (m1 m2 : wire A) bs a :
  g = false -> reads m2 bs a -> reads (if g then m1 else m2) bs a.
Proof. by intros ->. Qed.

Lemma reads_if_true {A} (g : bool) (m1 m2 : wire A) bs a :
  g = true -> reads m1 bs a -> reads (if g then m1 else m2) bs a.
Proof. by intros ->. Qed.

(** ** Control requests and their answers *)

(** Whether an NDR header is assumed depends on the first two bytes behind the header. *)
Lemma has_ndr_app hdr b0 b1 rest :
  length hdr = 80%nat -> (4 <= length rest)%nat ->
  response_has_ndr_header (hdr ++ b0 :: b1 :: rest) 80 =
    (let t := b0 * 2 ^ 8 + b1 in
     negb ((0x0001 <=? t) && (t <=? 0x02FF)) && negb ((0x8001 <=? t) && (t <=? 0x81FF))).
Proof.
  intros Hh Hr. unfold response_has_ndr_header. rewrite length_app, Hh. cbn [length].
  rewrite (proj2 (Nat.ltb_ge _ _)) by lia.
  rewrite !app_nth2, Hh by (rewrite Hh; lia). done.
Qed.

Lemma control_request_body_reads h type uuid key command len :
  (type = BLOCK_TYPE_IOD_CONTROL_REQ \/ type = BLOCK_TYPE_IOX_CONTROL_REQ) ->
  length uuid = 16%nat -> is_u16 key -> is_u16 command -> is_u16 len ->
  reads (control_request_body h)
    (be16 type ++ be16 len ++ ([1; 0] ++ be16 0) ++ uuid ++ be16 key ++ be16 0 ++ be16 command)
    (mk_incoming_control_request uuid key command (rh_activity_uuid h)
       (by_drep h (rh_sequence_number h)) (rh_interface_uuid h) type (rh_drep0 h)).
Proof.
  intros Ht Hu Hk Hc Hl. unfold control_request_body.
  assert (is_u16 type) by (destruct Ht as [-> | ->]; by vm_compute).
  apply reads_require; [rewrite !length_app; cbn; lia|].
  eapply reads_bind; [by apply reads_u16|]. apply reads_if_false; [by destruct Ht as [-> | ->]|].
  eapply reads_bind; [by apply reads_u16|].
  eapply reads_seq; [by apply reads_skip|].
  apply reads_require; [rewrite !length_app, Hu; cbn; lia|].
  eapply reads_bind; [rewrite <- Hu; apply reads_fetch|].
  apply reads_require; [rewrite !length_app; cbn; lia|].
  eapply reads_bind; [by apply reads_u16|]. eapply reads_seq; [by apply reads_skip|].
  apply reads_require; [cbn; lia|].
  exact (reads_bind_ret fetch_u16 (fun command => mk_incoming_control_request uuid key command _ _ _ _ _)
           _ command (reads_u16 _ Hc)).
Qed.

Lemma control_response_body_reads type uuid key command len :
  (type = BLOCK_TYPE_IOD_CONTROL_RES \/ type = BLOCK_TYPE_RELEASE_BLOCK_RES) ->
  length uuid = 16%nat -> is_u16 command -> is_u16 len ->
  reads control_response_body
    (be16 type ++ be16 len ++ ([1; 0] ++ be16 0 ++ uuid ++ be16 key ++ be16 0) ++ be16 command) tt.
Proof.
  intros Ht Hu Hc Hl. unfold control_response_body.
  assert (is_u16 type) by (destruct Ht as [-> | ->]; by vm_compute).
  apply reads_require; [rewrite !length_app; cbn; lia|].
  eapply reads_bind; [by apply reads_u16|]. apply reads_if_false; [by destruct Ht as [-> | ->]|].
  eapply reads_bind; [by apply reads_u16|].
  eapply reads_seq; [apply reads_skip; rewrite !length_app, Hu; done|].
  exact (reads_bind_ret fetch_u16 (fun _ => tt) _ command (reads_u16 _ Hc)).
Qed.

(** Bytes of the requests. *)
Lemma block_bytes type body : is_bytes body -> is_bytes (block type body).
Proof.
  intros H. unfold block, is_bytes. repeat apply Forall_app_2; try apply be16_bytes; try done.
  repeat constructor; unfold is_u8; lia.
Qed.

Lemma control_body_bytes uuid key command : is_bytes uuid -> is_bytes (control_body uuid key command).
Proof. intros H. unfold control_body, is_bytes. repeat apply Forall_app_2; try apply be16_bytes; done. Qed.

Lemma ndr_header_bytes a b : is_bytes (write_ndr_request_header a b).
Proof. unfold write_ndr_request_header, is_bytes. repeat apply Forall_app_2; apply le_bytes_bytes. Qed.

Lemma length_control_block type uuid key command : length uuid = 16%nat ->
  length (block type (control_body uuid key command)) = 32%nat.
Proof. intros H. unfold block, control_body. rewrite !length_app, H. done. Qed.

(** A control request as it is sent, and as the receiver decodes it. *)
Definition control_pdu (ctx : rpc_context) (uuid : list Z) (key command : Z) : list Z :=
  rpc_header_bytes RPC_PACKET_TYPE_REQUEST (uuid_swap_fields uuid)
    (uuid_swap_fields PNIO_DEVICE_INTERFACE_UUID) (uuid_swap_fields (rc_activity_uuid ctx))
    (rc_sequence_number ctx) RPC_OPNUM_CONTROL 52 ++
  write_ndr_request_header args_maximum 32 ++
  block BLOCK_TYPE_IOD_CONTROL_REQ (control_body uuid key command).

Lemma build_control_request_pdu ctx uuid key command : is_uuid uuid ->
  rpc_build_control_request ctx uuid key command RPC_MAX_PDU_SIZE =
    Built (control_pdu ctx uuid key command) (ctx <| rc_sequence_number ::= fun n => wrap32 (n + 1) |>).
Proof.
  intros [Hu _]. unfold rpc_build_control_request, build_request, finish_request.
  rewrite length_control_block by done. done.
Qed.

Definition decoded_request (ctx : rpc_context) (uuid : list Z) (key command : Z)
    : incoming_control_request :=
  mk_incoming_control_request uuid key command (uuid_swap_fields (rc_activity_uuid ctx))
    (rc_sequence_number ctx) (uuid_swap_fields PNIO_DEVICE_INTERFACE_UUID)
    BLOCK_TYPE_IOD_CONTROL_REQ RPC_DREP_LITTLE_ENDIAN.

Lemma device_interface_uuid : is_uuid PNIO_DEVICE_INTERFACE_UUID.
Proof. split; [done|]. unfold PNIO_DEVICE_INTERFACE_UUID. repeat constructor; unfold is_u8; lia. Qed.

(** A PDU: header, NDR header and blocks. *)
Lemma pdu_cursor hdr rest :
  length hdr = 80%nat -> is_bytes hdr -> is_bytes rest -> Z.of_nat (length rest) < 2 ^ 62 ->
  (length (hdr ++ rest) <? RPC_HEADER_SIZE)%nat = false /\
  wf (after_header (hdr ++ rest)) /\ pending (after_header (hdr ++ rest)) = rest.
Proof.
  intros Hh Hb Hr Hl. rewrite length_app, Hh. split_and!.
  - apply Nat.ltb_ge. unfold RPC_HEADER_SIZE. lia.
  - apply after_header_wf; [by apply Forall_app_2|rewrite length_app; lia|rewrite length_app; lia].
  - by apply after_header_pending.
Qed.

(** The requests and answers built here announce their NDR header by its first field, which
    is no block type. *)
Lemma built_has_ndr hdr amax len blk :
  length hdr = 80%nat -> amax = 0 \/ amax = args_maximum ->
  response_has_ndr_header (hdr ++ write_ndr_request_header amax len ++ blk) 80 = true.
Proof.
  intros Hh Ha. destruct Ha as [-> | ->].
  all: match goal with |- context [write_ndr_request_header ?a ?n] =>
    change (write_ndr_request_header a n ++ blk) with
      (nth 0 (le32 a) 0 :: nth 1 (le32 a) 0 :: drop 2 (write_ndr_request_header a n) ++ blk) end.
  all: rewrite has_ndr_app; [done|exact Hh|rewrite length_app; cbn; lia].
Qed.

Lemma parse_control_pdu ctx uuid key command :
  is_uuid uuid -> is_uuid (rc_activity_uuid ctx) -> is_u32 (rc_sequence_number ctx) ->
  is_u16 key -> is_u16 command ->
  rpc_parse_incoming_control_request (control_pdu ctx uuid key command)
    = Some (inr (decoded_request ctx uuid key command)).
Proof.
  intros Hu Ha Hs Hk Hc. unfold control_pdu.
  pose proof (uuid_swap_is_uuid _ Hu) as [Lu Bu]. pose proof (uuid_swap_is_uuid _ Ha) as [La Ba].
  pose proof (uuid_swap_is_uuid _ device_interface_uuid) as [Li Bi].
  set (hdr := rpc_header_bytes _ _ _ _ _ _ _). set (ndr := write_ndr_request_header _ _).
  set (blk := block _ _).
  assert (length hdr = 80%nat) as HL by by apply length_rpc_header.
  unfold rpc_parse_incoming_control_request.
  destruct (pdu_cursor hdr (ndr ++ blk) HL) as (-> & Hwf & Hp).
  { by apply rpc_header_is_bytes. }
  { apply Forall_app_2; [apply ndr_header_bytes|apply block_bytes, control_body_bytes, Hu]. }
  { unfold blk. rewrite length_app, length_control_block by apply Hu. cbn. lia. }
  assert (rpc_header_of (hdr ++ ndr ++ blk) = _) as -> by by apply rpc_header_of_bytes.
  assert (response_has_ndr_header (hdr ++ ndr ++ blk) 80 = true) as Hn by (apply built_has_ndr; eauto).
  set (h := mk_rpc_header _ _ _ _ _ _). cbv zeta.
  change (rh_packet_type h =? RPC_PACKET_TYPE_REQUEST) with true.
  change (by_drep h (rh_opnum h) =? RPC_OPNUM_CONTROL) with true. cbn [negb]. rewrite Hn.
  assert (reads (require NDR_REQUEST_HEADER_SIZE WTC_ERROR_PROTOCOL;;;
                 skip NDR_REQUEST_HEADER_SIZE;;; control_request_body h)
            (ndr ++ be16 BLOCK_TYPE_IOD_CONTROL_REQ ++ be16 28 ++ ([1; 0] ++ be16 0) ++ uuid ++
             be16 key ++ be16 0 ++ be16 command) (decoded_request ctx uuid key command)) as Hr.
  { apply reads_require.
    { rewrite length_app. change (length ndr) with 20%nat. unfold NDR_REQUEST_HEADER_SIZE. lia. }
    eapply reads_seq; [by apply reads_skip|].
    unfold decoded_request. rewrite <- (of_le32 (rc_sequence_number ctx) Hs).
    apply (control_request_body_reads h); [by left|apply Hu|done|done|by vm_compute]. }
  destruct (Hr (after_header (hdr ++ ndr ++ blk)) (be16 0) Hwf) as (c' & -> & _); [|done].
  rewrite Hp. unfold blk, block, control_body. rewrite !length_app, (proj1 Hu), <- !app_assoc. done.
Qed.

(** The answer to a request is read as a success, unless the request was a CControl block. *)
Lemma control_response_accepted q :
  is_uuid (iq_ar_uuid q) -> is_uuid (iq_activity_uuid q) -> is_uuid (iq_interface_uuid q) ->
  iq_block_type q = BLOCK_TYPE_IOD_CONTROL_REQ ->
  exists pdu, rpc_build_control_response q RPC_MAX_PDU_SIZE = inr pdu /\
    rpc_parse_control_response pdu = Some (WTC_OK, true).
Proof.
  intros Hu Ha Hi Ht. unfold rpc_build_control_response. rewrite Ht.
  change (RPC_MAX_PDU_SIZE <? RPC_MAX_PDU_SIZE) with false. cbv zeta.
  eexists. split; [reflexivity|].
  set (swap := if negb _ then _ else _).
  assert (forall u, is_uuid u -> is_uuid (swap u)) as Hsw
    by (intros u H; unfold swap; destruct (negb _); [by apply uuid_swap_is_uuid|done]).
  pose proof (uuid_swap_is_uuid _ Hu) as [Lu Bu]. destruct (Hsw _ Ha) as [La Ba]. destruct (Hsw _ Hi) as [Li Bi].
  change (BLOCK_TYPE_IOD_CONTROL_REQ =? BLOCK_TYPE_IOX_CONTROL_REQ) with false. cbn iota.
  rewrite length_control_block by apply Hu.
  set (hdr := rpc_header_bytes _ _ _ _ _ _ _). set (ndr := write_ndr_request_header _ _).
  set (blk := block _ _).
  assert (length hdr = 80%nat) as HL by by apply length_rpc_header.
  unfold rpc_parse_control_response.
  destruct (pdu_cursor hdr (ndr ++ blk) HL) as (-> & Hwf & Hp).
  { by apply rpc_header_is_bytes. }
  { apply Forall_app_2; [apply ndr_header_bytes|apply block_bytes, control_body_bytes, Hu]. }
  { unfold blk. rewrite length_app, length_control_block by apply Hu. cbn. lia. }
  assert (rpc_header_of (hdr ++ ndr ++ blk) = _) as -> by by apply rpc_header_of_bytes.
  assert (response_has_ndr_header (hdr ++ ndr ++ blk) 80 = true) as -> by (apply built_has_ndr; eauto).
  set (h := mk_rpc_header _ _ _ _ _ _).
  change (rh_packet_type h =? RPC_PACKET_TYPE_RESPONSE) with true. cbn [negb].
  assert (reads ('(status, _) <-- ndr_response h;;
                 (if negb (status =? 0) then wfail WTC_ERROR_PROTOCOL else control_response_body))
            ((le32 0 ++ (le32 32 ++ le32 32 ++ le32 0) ++ le32 32) ++
             be16 BLOCK_TYPE_IOD_CONTROL_RES ++ be16 28 ++
             ([1; 0] ++ be16 0 ++ iq_ar_uuid q ++ be16 (iq_session_key q) ++ be16 0) ++
             be16 CONTROL_CMD_DONE) tt) as Hr.
  { eapply reads_bind with (a := (0, 32)).
    - unfold ndr_response. apply reads_require; [rewrite !length_app; cbn; lia|].
      eapply reads_bind; [apply (reads_fetch (le32 0))|]. eapply reads_seq; [by apply reads_skip|].
      exact (reads_bind_ret (fetch 4) (fun count => (by_drep h (le32 0), by_drep h count)) _ _ (reads_fetch (le32 32))).
    - cbn [Z.eqb negb]. apply control_response_body_reads; [by left|apply Hu|by vm_compute|by vm_compute]. }
  destruct (Hr (after_header (hdr ++ ndr ++ blk)) (be16 0) Hwf) as (c' & -> & _); [|done].
  rewrite Hp. unfold ndr, write_ndr_request_header, blk, block, control_body.
  rewrite !length_app, (proj1 Hu), <- !app_assoc. done.
Qed.

(** A control request (parameter end, application ready) that is sent reaches the other
    side as it was meant: the receiver decodes AR, session key, command, sequence number and
    activity, its answer is accepted by the sender, the PDU fits and the sequence number has
    advanced. *)
Theorem control_exchange ctx uuid key command :
  is_uuid uuid -> is_uuid (rc_activity_uuid ctx) -> is_u32 (rc_sequence_number ctx) ->
  is_u16 key -> is_u16 command ->
  exists pdu answer q,
    rpc_build_control_request ctx uuid key command RPC_MAX_PDU_SIZE =
      Built pdu (ctx <| rc_sequence_number ::= fun n => wrap32 (n + 1) |>) /\
    Z.of_nat (length pdu) <= RPC_MAX_PDU_SIZE /\
    rpc_parse_incoming_control_request pdu = Some (inr q) /\
    iq_ar_uuid q = uuid /\ iq_session_key q = key /\ iq_control_command q = command /\
    iq_sequence_number q = rc_sequence_number ctx /\
    uuid_swap_fields (iq_activity_uuid q) = rc_activity_uuid ctx /\
    rpc_build_control_response q RPC_MAX_PDU_SIZE = inr answer /\
    rpc_parse_control_response answer = Some (WTC_OK, true).
Proof.
  intros Hu Ha Hs Hk Hc.
  destruct (control_response_accepted (decoded_request ctx uuid key command)) as (answer & Hb & Hp);
    [done|by apply uuid_swap_is_uuid|apply uuid_swap_is_uuid, device_interface_uuid|done|].
  exists (control_pdu ctx uuid key command), answer, (decoded_request ctx uuid key command).
  split_and!; try done; [by apply build_control_request_pdu| |by apply parse_control_pdu|apply uuid_swap_involutive].
  unfold control_pdu. pose proof (uuid_swap_is_uuid _ Hu) as [Lu _]. pose proof (uuid_swap_is_uuid _ Ha) as [La _].
  rewrite !length_app, length_rpc_header, length_control_block by (done || apply Hu). by vm_compute.
Qed.

(** ** The size of a connect request *)

Lemma has_iocs_negb b e : has_iocs b e = negb (has_iodata b e).
Proof. unfold has_iocs, has_iodata. by destruct (ex_data_length e =? 0). Qed.

(** Every submodule has exactly one object in an IOCR block. *)
Lemma iocr_object_count b off off' es :
  (length (iodata_objects b off es).1 + length (iocs_objects b off' es) = length es)%nat.
Proof.
  revert off off'. induction es as [|e es IH]; intros off off'; cbn; [done|].
  rewrite has_iocs_negb. destruct (has_iodata b e); cbn.
  - specialize (IH (wrap16 (off + ex_data_length e + 1)) off').
    destruct (iodata_objects b _ es). cbn in *. lia.
  - specialize (IH off (wrap16 (off' + 1))). destruct (iodata_objects b off es). cbn in *. lia.
Qed.

Lemma length_concat_fmap {A} (f : A -> list Z) k (l : list A) :
  (forall x, length (f x) = k) -> length (concat (f <$> l)) = (length l * k)%nat.
Proof. intros H. induction l as [|x l IH]; cbn; [done|]. rewrite length_app, H, IH. lia. Qed.

Lemma length_block type body : length (block type body) = (6 + length body)%nat.
Proof. unfold block. rewrite !length_app. done. Qed.

Lemma length_iocr_block p cr : length (iocr_block p cr) = (54 + 6 * length (cp_expected p))%nat.
Proof.
  unfold iocr_block. set (b := bool_decide _).
  pose proof (fun off' => iocr_object_count b 0 off' (cp_expected p)) as H.
  destruct (iodata_objects b 0 (cp_expected p)) as [l off]. specialize (H off). cbn in H.
  rewrite length_block, !length_app. unfold objects_bytes.
  rewrite !length_app, !(length_concat_fmap object_bytes 6) by done.
  cbn [length be16 be32 replicate]. lia.
Qed.

Definition seen_step (seen : list Z) (e : expected_submodule) : list Z :=
  if bool_decide (ex_slot e ∈ seen) || (WTC_MAX_SLOTS <=? length seen)%nat
  then seen else seen ++ [ex_slot e].

Lemma unique_slots_step es : unique_slots es = foldl seen_step [] es.
Proof. done. Qed.

Lemma seen_step_cases seen e :
  (seen_step seen e = seen /\ (ex_slot e ∈ seen \/ (WTC_MAX_SLOTS <= length seen)%nat)) \/
  (seen_step seen e = seen ++ [ex_slot e] /\ ex_slot e ∉ seen).
Proof.
  unfold seen_step. case_bool_decide; [left; split; [done|by left]|]. rewrite orb_false_l.
  destruct (Nat.leb_spec WTC_MAX_SLOTS (length seen)); [left; split; [done|by right]|by right].
Qed.

Lemma seen_step_mono seen es : (length seen <= length (foldl seen_step seen es))%nat.
Proof.
  revert seen. induction es as [|e es IH]; intros seen; cbn; [done|]. etrans; [|apply IH].
  destruct (seen_step_cases seen e) as [[-> _]|[-> _]]; [done|]. rewrite length_app. lia.
Qed.

Lemma seen_step_NoDup seen es : NoDup seen -> NoDup (foldl seen_step seen es).
Proof.
  revert seen. induction es as [|e es IH]; intros seen H; cbn; [done|]. apply IH.
  destruct (seen_step_cases seen e) as [[-> _]|[-> Hn]]; [done|].
  apply NoDup_app. split_and!; [done| |apply NoDup_singleton].
  intros x Hx Hx'. apply list_elem_of_singleton in Hx' as ->. done.
Qed.

Lemma seen_step_covers seen es :
  (length (foldl seen_step seen es) < WTC_MAX_SLOTS)%nat ->
  forall s, s ∈ seen \/ s ∈ (ex_slot <$> es) -> s ∈ foldl seen_step seen es.
Proof.
  revert seen. induction es as [|e es IH]; intros seen Hl s Hs; cbn in *.
  { destruct Hs as [|Hs]; [done|]. by apply elem_of_nil in Hs. }
  apply IH; [done|]. pose proof (seen_step_mono (seen_step seen e) es) as Hm.
  rewrite elem_of_cons in Hs. destruct (seen_step_cases seen e) as [[E Hc]|[E _]]; rewrite E in *.
  - destruct Hc as [Hc|Hc]; [|lia]. destruct Hs as [?|[->|?]]; eauto.
  - rewrite elem_of_app, list_elem_of_singleton. naive_solver.
Qed.

Lemma in_slot_cons s e es :
  in_slot s (e :: es) = if decide (ex_slot e = s) then e :: in_slot s es else in_slot s es.
Proof. done. Qed.

(** Grouping by slot keeps every entry once. *)
Lemma group_length (slots : list Z) es :
  NoDup slots -> (forall e, e ∈ es -> ex_slot e ∈ slots) ->
  sum_list_with (fun s => length (in_slot s es)) slots = length es.
Proof.
  intros Hnd Hin. induction es as [|e es IH] in Hin |- *.
  { clear. induction slots as [|s l IH]; cbn; [done|exact IH]. }
  cbn [length]. rewrite <- IH by (intros x Hx; apply Hin, elem_of_cons; eauto). clear IH.
  assert (ex_slot e ∈ slots) as He by (apply Hin, elem_of_cons; eauto). clear Hin.
  induction slots as [|s l IHl]; [by apply elem_of_nil in He|].
  apply NoDup_cons in Hnd as [Hs Hnd]. cbn [sum_list_with]. rewrite in_slot_cons.
  apply elem_of_cons in He as [<-|He].
  - rewrite decide_True by done. cbn [length].
    enough (sum_list_with (fun s => length (in_slot s (e :: es))) l =
            sum_list_with (fun s => length (in_slot s es)) l) by lia.
    clear IHl Hnd. induction l as [|s l IHl]; [done|]. cbn [sum_list_with].
    apply not_elem_of_cons in Hs as [Hne Hs]. rewrite IHl, in_slot_cons, decide_False by done. done.
  - rewrite decide_False by (intros <-; done). rewrite IHl by done. lia.
Qed.

Lemma length_slot_bytes es s : length (slot_bytes es s) = (14 + 14 * length (in_slot s es))%nat.
Proof.
  unfold slot_bytes. rewrite !length_app, (length_concat_fmap submodule_bytes 14) by done.
  cbn [length be16 be32]. lia.
Qed.

Lemma length_expected_block p :
  (length (unique_slots (cp_expected p)) < WTC_MAX_SLOTS)%nat ->
  length (expected_block p) =
    (8 + 14 * length (unique_slots (cp_expected p)) + 14 * length (cp_expected p))%nat.
Proof.
  intros Hu. unfold expected_block. rewrite length_block, length_app. cbn [length be16].
  rewrite <- (group_length (unique_slots (cp_expected p)) (cp_expected p)).
  - generalize (unique_slots (cp_expected p)). intros l.
    induction l as [|s l IH]; [done|]. rewrite fmap_cons.
    cbn [concat length sum_list_with] in *. rewrite length_app, length_slot_bytes. lia.
  - apply seen_step_NoDup, NoDup_nil_2.
  - intros e He. apply seen_step_covers; [done|]. right. by apply list_elem_of_fmap_2.
Qed.

(** The size: 192 bytes and the station name, a block per IOCR with an object for each
    submodule, and the expected configuration. *)
Lemma connect_request_length ctx p :
  is_uuid (cp_ar_uuid p) -> is_uuid (cp_controller_uuid p) -> length (cp_controller_mac p) = 6%nat ->
  (length (unique_slots (cp_expected p)) < WTC_MAX_SLOTS)%nat ->
  (100 + length (connect_blocks ctx p) =
   192 + String.length (cp_station_name p) + length (cp_iocr p) * (54 + 6 * length (cp_expected p)) +
   14 * length (unique_slots (cp_expected p)) + 14 * length (cp_expected p))%nat.
Proof.
  intros [Hu _] [Hc _] Hm Hs. unfold connect_blocks.
  rewrite !length_app, length_expected_block by done.
  rewrite (length_concat_fmap (iocr_block p) (54 + 6 * length (cp_expected p))) by apply length_iocr_block.
  unfold ar_block, alarm_cr_block. rewrite !length_block, !length_app, length_string_bytes, Hu, Hc, Hm.
  cbn [length be16 be32]. lia.
Qed.

(** The connect request is built inside its 1464-byte buffer exactly when its size, known
    from the number of IOCRs, submodules and slots, is at most 1464; the check against the
    limit comes after the last write, so a larger request is never refused but written behind
    the end of the buffer. *)
Theorem connect_request_fits_iff uuid ctx p :
  is_uuid (cp_ar_uuid p) -> is_uuid (cp_controller_uuid p) -> length (cp_controller_mac p) = 6%nat ->
  is_uuid uuid -> (length (unique_slots (cp_expected p)) < WTC_MAX_SLOTS)%nat ->
  let size := (192 + String.length (cp_station_name p) +
               length (cp_iocr p) * (54 + 6 * length (cp_expected p)) +
               14 * length (unique_slots (cp_expected p)) + 14 * length (cp_expected p))%nat in
  if Z.of_nat size <=? RPC_MAX_PDU_SIZE
  then exists pdu ctx', rpc_build_connect_request uuid ctx p RPC_MAX_PDU_SIZE = Built pdu ctx' /\
         length pdu = size
  else rpc_build_connect_request uuid ctx p RPC_MAX_PDU_SIZE = Overflowed.
Proof.
  intros Hu Hc Hm Hx Hs. cbv zeta. rewrite <- (connect_request_length ctx) by done.
  unfold rpc_build_connect_request. change (RPC_MAX_PDU_SIZE <? RPC_MAX_PDU_SIZE) with false. cbv zeta.
  replace (Z.of_nat (100 + length (connect_blocks ctx p))) with (100 + Z.of_nat (length (connect_blocks ctx p))) by lia.
  rewrite Z.ltb_antisym. destruct (Z.leb_spec (100 + Z.of_nat (length (connect_blocks ctx p))) RPC_MAX_PDU_SIZE) as [H|H]; [cbn [negb]|done].
  unfold finish_request, build_rpc_header. eexists _, _. split; [reflexivity|].
  pose proof (uuid_swap_is_uuid _ Hu) as [Lu _]. pose proof (uuid_swap_is_uuid _ Hx) as [Lx _].
  rewrite !length_app, length_rpc_header by done. done.
Qed.

(** ** The read response stays within the received bytes *)

(** Like [need], but nothing is said of the cursor after a failure: the source skips fields
    before it checks that they are there. *)
Definition bounded {A} (n : nat) (m : wire A) : Prop := forall c,
  wf c -> (n <= length (pending c))%nat ->
  match m c with
  | Ok _ c' => wf c' /\ cu_buffer c' = cu_buffer c /\ cu_pos c <= cu_pos c'
  | Fail _ _ => True
  | Oob => False
  end.

Lemma need_bounded {A} n (m : wire A) : need n m -> bounded n m.
Proof. intros H c Hc Hn. specialize (H c Hc Hn). by destruct (m c). Qed.

Lemma bounded_weaken {A} n (m : wire A) : bounded 0 m -> bounded n m.
Proof. intros H c Hc _. apply H; [done|lia]. Qed.

Lemma bounded_bind {A B} n (m : wire A) (k : A -> wire B) :
  bounded n m -> (forall a, bounded 0 (k a)) -> bounded n (wbind m k).
Proof.
  intros Hm Hk c Hc Hn. unfold wbind. specialize (Hm c Hc Hn).
  destruct (m c) as [a c'|e c'|]; [|done|done]. destruct Hm as (Hc' & Hb & Hp).
  specialize (Hk a c' Hc' ltac:(lia)). destruct (k a c') as [x c''|x c''|]; [|done|done].
  destruct Hk as (? & ? & ?). split_and!; [done|congruence|lia].
Qed.

Lemma bounded_fetch {A} n j (k : list Z -> wire A) :
  (j <= n)%nat -> (forall bs, length bs = j -> is_bytes bs -> bounded (n - j) (k bs)) ->
  bounded n (wbind (fetch j) k).
Proof.
  intros Hj Hk c Hc Hn. unfold wbind. rewrite fetch_ok by (done || lia).
  assert (wf (advance j c)) as Hc' by (apply wf_advance; [done|lia]).
  assert (length (take j (pending c)) = j) as Hlen by (rewrite length_take; lia).
  specialize (Hk _ Hlen (Forall_take _ _ _ (pending_bytes c Hc)) (advance j c) Hc').
  rewrite pending_advance, length_drop in Hk by done. specialize (Hk ltac:(lia)).
  destruct (k _ (advance j c)) as [x c''|x c''|]; [|done|done].
  destruct Hk as (? & ? & ?). split_and!; [done|done|]. cbn in *; lia.
Qed.

Lemma bounded_u16 {A} n (k : Z -> wire A) :
  (2 <= n)%nat -> (forall v, bounded (n - 2) (k v)) -> bounded n (wbind fetch_u16 k).
Proof.
  intros Hn Hk c. unfold fetch_u16. rewrite wbind_assoc. revert c.
  apply bounded_fetch; [done|]. intros bs _ _. apply Hk.
Qed.

Lemma bounded_u32 {A} n (k : Z -> wire A) :
  (4 <= n)%nat -> (forall v, bounded (n - 4) (k v)) -> bounded n (wbind fetch_u32 k).
Proof.
  intros Hn Hk c. unfold fetch_u32. rewrite wbind_assoc. revert c.
  apply bounded_fetch; [done|]. intros bs _ _. apply Hk.
Qed.

(** A check of the position, before or after a skip. *)
Lemma room_iff n c : wf c -> 0 <= n -> cu_pos c + n <= cu_limit c <-> (Z.to_nat n <= length (pending c))%nat.
Proof. intros Hc Hn. pose proof (pending_length c Hc). lia. Qed.

Lemma bounded_require {A} n e (m : wire A) :
  0 <= n -> bounded (Z.to_nat n) m -> bounded 0 (require n e;;; m).
Proof.
  intros Hn Hm c Hc _. unfold wbind, require. destruct (Z.ltb_spec (cu_limit c) (cu_pos c + n)); [done|].
  apply Hm; [done|]. apply room_iff; [done|done|lia].
Qed.

Lemma bounded_skip_require {A} a n e (m : wire A) :
  0 <= a -> 0 <= n -> bounded (Z.to_nat n) m -> bounded 0 (skip a;;; require n e;;; m).
Proof.
  intros Ha Hn Hm c Hc _. unfold wbind, skip, require. cbn [cu_limit cu_pos set].
  match goal with |- context [?x <? ?y] => destruct (Z.ltb_spec x y) as [|Hr] end; [done|]. cbn in Hr.
  assert (wf (advance (Z.to_nat a) c)) as Hc'
    by (apply wf_advance; [done|]; apply room_iff; [done|done|lia]).
  specialize (Hm (advance (Z.to_nat a) c) Hc'). unfold advance in *. rewrite Z2Nat.id in * by done.
  match type of Hm with ?P -> _ => assert P as Hp end.
  { apply (room_iff n) in Hc'; [|done]. apply Hc'. cbn. lia. }
  specialize (Hm Hp). destruct (m _) as [x c''|x c''|]; [|done|done].
  destruct Hm as (? & ? & ?). split_and!; [done|done|]. cbn in *. lia.
Qed.

Lemma bounded_room {A} n (m : wire A) (d : A) :
  0 <= n -> bounded (Z.to_nat n) m -> bounded 0 (fun c => if cu_pos c + n <=? cu_limit c then m c else Ok d c).
Proof.
  intros Hn Hm c Hc _. cbn beta. destruct (Z.leb_spec (cu_pos c + n) (cu_limit c)); [|by split_and!].
  apply Hm; [done|]. by apply room_iff.
Qed.

Lemma bounded_ret {A} n (a : A) : bounded n (wret a).
Proof. apply need_bounded, need_ret. Qed.
Lemma bounded_fail {A} n e : bounded n (@wfail A e).
Proof. apply need_bounded, need_fail. Qed.
#[export] Hint Resolve bounded_ret bounded_fail : wire.

Ltac wire_bounded :=
  repeat first
    [ done
    | progress auto with wire
    | match goal with
      | |- bounded 0 (require _ _;;; _) => apply bounded_require; [lia|]
      | |- bounded _ (wbind fetch_u16 _) => apply bounded_u16; [cbn; lia|intros ?; cbn [Nat.sub]]
      | |- bounded _ (wbind fetch_u32 _) => apply bounded_u32; [cbn; lia|intros ?; cbn [Nat.sub]]
      | |- bounded _ (wbind (fetch _) _) => apply bounded_fetch; [cbn; lia|intros ? ? ?; cbn [Nat.sub]]
      | |- bounded _ (if ?b then _ else _) => destruct b
      end ].

(** The module list stays within its array. *)
Definition short_list (ms : list ar_module) : Prop := (length ms <= RPC_MAX_DISCOVERED_MODULES)%nat.

Lemma ident_subslots_bounded n slot ident ms : bounded 0 (ident_subslots n slot ident ms).
Proof.
  revert ms. induction n as [|n IH]; intros ms; cbn [ident_subslots]; [auto with wire|].
  apply bounded_room; [lia|]. wire_bounded; apply IH.
Qed.

Lemma ident_slots_bounded n ms : bounded 0 (ident_slots n ms).
Proof.
  revert ms. induction n as [|n IH]; intros ms; cbn [ident_slots]; [auto with wire|].
  apply bounded_room; [lia|]. wire_bounded.
  apply bounded_bind; [apply ident_subslots_bounded|apply IH].
Qed.

Lemma ident_apis_bounded n ms : bounded 0 (ident_apis n ms).
Proof.
  revert ms. induction n as [|n IH]; intros ms; cbn [ident_apis]; [auto with wire|].
  apply bounded_room; [lia|]. wire_bounded.
  apply bounded_bind; [apply ident_slots_bounded|apply IH].
Qed.

Definition ensures {A} (m : wire A) (P : A -> Prop) : Prop := forall c a c', m c = Ok a c' -> P a.

Lemma ensures_bind {A B} (m : wire A) (k : A -> wire B) (Q : A -> Prop) (P : B -> Prop) :
  ensures m Q -> (forall a, Q a -> ensures (k a) P) -> ensures (wbind m k) P.
Proof.
  intros Hm Hk c b c'. unfold wbind. destruct (m c) as [a c1|e c1|] eqn:E; [|done|done].
  eapply Hk, Hm, E.
Qed.

Lemma ensures_any {A B} (m : wire A) (k : A -> wire B) (P : B -> Prop) :
  (forall a, ensures (k a) P) -> ensures (wbind m k) P.
Proof. intros H. eapply (ensures_bind m k (fun _ => True)); [done|eauto]. Qed.

Lemma ensures_ret {A} (a : A) (P : A -> Prop) : P a -> ensures (wret a) P.
Proof. by intros H c b c' [= <- _]. Qed.

Lemma ensures_room {A} n (m : wire A) (d : A) (P : A -> Prop) :
  P d -> ensures m P -> ensures (fun c => if cu_pos c + n <=? cu_limit c then m c else Ok d c) P.
Proof. intros Hd Hm c a c'. destruct (_ <=? _); [apply Hm|]. by intros [= <- _]. Qed.

Lemma ident_subslots_short n slot ident ms :
  short_list ms -> ensures (ident_subslots n slot ident ms) short_list.
Proof.
  revert ms. induction n as [|n IH]; intros ms H; cbn [ident_subslots]; [by apply ensures_ret|].
  apply ensures_room; [done|]. do 2 (apply ensures_any; intros ?). apply IH.
  destruct (Nat.ltb_spec (length ms) RPC_MAX_DISCOVERED_MODULES); [|done].
  unfold short_list in *. rewrite length_app. cbn. lia.
Qed.

Lemma ident_slots_short n ms : short_list ms -> ensures (ident_slots n ms) short_list.
Proof.
  revert ms. induction n as [|n IH]; intros ms H; cbn [ident_slots]; [by apply ensures_ret|].
  apply ensures_room; [done|]. do 3 (apply ensures_any; intros ?).
  eapply ensures_bind; [by apply ident_subslots_short|apply IH].
Qed.

Lemma ident_apis_short n ms : short_list ms -> ensures (ident_apis n ms) short_list.
Proof.
  revert ms. induction n as [|n IH]; intros ms H; cbn [ident_apis]; [by apply ensures_ret|].
  apply ensures_room; [done|]. do 2 (apply ensures_any; intros ?).
  eapply ensures_bind; [by apply ident_slots_short|apply IH].
Qed.

Lemma ident_header_ok data :
  is_bytes data -> Z.of_nat (length data) < 2 ^ 63 ->
  exists c, ident_header (frame_cursor data) = Ok tt c /\ wf c.
Proof.
  intros Hb Hl. pose proof (wf_frame_cursor data Hb Hl) as Hc. unfold ident_header.
  destruct (Z.leb_spec (cu_pos (frame_cursor data) + 6) (cu_limit (frame_cursor data))) as [H|H]; [|eauto].
  cbn in H. unfold fetch_u16, wbind. rewrite fetch_ok by (done || rewrite pending_frame_cursor; lia).
  cbn [wret]. destruct (_ =? _).
  - eexists. split; [done|]. unfold wf in *. cbn in *. split_and!; try done; lia.
  - eexists. split; [done|]. unfold wf in *. cbn in *. split_and!; try done; lia.
Qed.

Lemma parse_real_identification_bounded data :
  is_bytes data -> Z.of_nat (length data) < 2 ^ 63 ->
  match parse_real_identification_data data with
  | Ok ms _ => short_list ms
  | Fail _ _ => True
  | Oob => False
  end.
Proof.
  intros Hb Hl. unfold parse_real_identification_data.
  destruct (ident_header_ok data Hb Hl) as (c & E & Hc). unfold wbind at 1. rewrite E.
  set (m := require 2 _;;; _).
  assert (bounded 0 m) as Hm by (unfold m; wire_bounded; apply ident_apis_bounded).
  assert (ensures m short_list) as He.
  { unfold m. do 2 (apply ensures_any; intros ?). apply ident_apis_short. unfold short_list. cbn. lia. }
  specialize (Hm c Hc ltac:(lia)). destruct (m c) eqn:E'; [|done|done]. by eapply He.
Qed.

Lemma ndr_response_bounded h : bounded 0 (ndr_response h).
Proof.
  unfold ndr_response. wire_bounded.
  apply need_bounded, need_skip; [cbn; lia|]. cbn [Nat.sub Z.to_nat Pos.to_nat Pos.iter_op Nat.add].
  apply need_fetch; [cbn; lia|]. intros ? ? ?. auto with wire.
Qed.

Lemma read_response_body_bounded : bounded 0 read_response_body.
Proof.
  unfold read_response_body. wire_bounded. apply bounded_weaken, bounded_skip_require; [lia|lia|].
  wire_bounded. apply bounded_bind; [|intros ?; auto with wire].
  apply bounded_weaken, bounded_room; [lia|]. apply need_bounded.
  intros c Hc Hn. change (skip 24 c) with (Ok tt (advance 24 c)).
  split_and!; [by apply wf_advance|done|cbn; lia].
Qed.

Lemma sub_bytes_range off n buf : is_bytes buf -> is_bytes (sub off n buf).
Proof. intros H. by apply Forall_take, Forall_drop. Qed.

(** Whatever a device answers to a read request, the parser reads only received bytes and
    returns at most as many modules as the response can hold. *)
Theorem read_response_within_bounds buf :
  is_bytes buf -> Z.of_nat (length buf) < 2 ^ 62 ->
  exists e r, rpc_parse_read_response buf = Some (e, r) /\
    (length (rr_modules r) <= RPC_MAX_DISCOVERED_MODULES)%nat.
Proof.
  intros Hb Hl. unfold rpc_parse_read_response.
  destruct (Nat.ltb_spec (length buf) RPC_HEADER_SIZE) as [Hs|Hs]; [eexists _, _; split; [done|cbn; lia]|].
  unfold RPC_HEADER_SIZE in Hs. cbv zeta.
  destruct (_ =? _); [eexists _, _; split; [done|cbn; lia]|].
  destruct (negb (_ =? _)); [eexists _, _; split; [done|cbn; lia]|].
  set (h := rpc_header_of buf). set (m := if response_has_ndr_header buf 80 then _ else _).
  assert (bounded 0 m) as Hm.
  { assert (bounded 0 (r <-- read_response_body;; wret (@inr Z (Z * Z) r))) as Hr.
    { apply bounded_bind; [apply read_response_body_bounded|auto with wire]. }
    unfold m. destruct (response_has_ndr_header _ _); [|done].
    apply bounded_bind; [apply ndr_response_bounded|]. intros [status count]. destruct (negb _); [auto with wire|done]. }
  assert (wf (after_header buf)) as Hc by (apply after_header_wf; [done|lia|lia]).
  specialize (Hm _ Hc ltac:(lia)). destruct (m (after_header buf)) as [[code|[index len]] c|e c|];
    [eexists _, _; split; [done|cbn; lia]| |eexists _, _; split; [done|cbn; lia]|done].
  destruct (_ && _); [|eexists _, _; split; [done|cbn; lia]].
  match goal with |- context [parse_real_identification_data ?d] =>
    pose proof (parse_real_identification_bounded d) as Hp;
    assert (is_bytes d) as Hd by (by apply sub_bytes_range);
    assert (length d <= length buf)%nat by (unfold sub; rewrite length_take, length_drop; lia);
    specialize (Hp Hd ltac:(lia)); destruct (parse_real_identification_data d) end; [|..|done].
  - eexists _, _. split; [done|]. exact Hp.
  - eexists _, _. split; [done|]. cbn. lia.
Qed.

(** ** Decoding a connect response *)

Definition diff_submodule : Type := Z * Z * Z.
Definition diff_module : Type := Z * Z * Z * list diff_submodule.
Definition diff_api : Type := Z * list diff_module.

(** The blocks of a response. *)
Inductive response_item :=
| RiAr (type : Z) (uuid : list Z) (key : Z) (mac : list Z) (port : Z)
| RiIocr (type ref frame_id : Z)
| RiAlarm (type ref max_length : Z)
| RiDiff (apis : list diff_api)
| RiOther (type : Z) (body : list Z).

Definition count16 {A} (l : list A) : list Z := be16 (Z.of_nat (length l)).
Definition diff_submodule_bytes (s : diff_submodule) : list Z :=
  be16 s.1.1 ++ be32 s.1.2 ++ be16 s.2.
Definition diff_module_bytes (m : diff_module) : list Z :=
  (be16 m.1.1.1 ++ be32 m.1.1.2 ++ be16 m.1.2 ++ count16 m.2) ++ concat (diff_submodule_bytes <$> m.2).
Definition diff_api_bytes (a : diff_api) : list Z :=
  (be32 a.1 ++ count16 a.2) ++ concat (diff_module_bytes <$> a.2).

Definition item_type (i : response_item) : Z :=
  match i with
  | RiAr _ _ _ _ _ => BLOCK_TYPE_AR_BLOCK_RES
  | RiIocr _ _ _ => BLOCK_TYPE_IOCR_BLOCK_RES
  | RiAlarm _ _ _ => BLOCK_TYPE_ALARM_CR_BLOCK_RES
  | RiDiff _ => BLOCK_TYPE_MODULE_DIFF_BLOCK
  | RiOther t _ => t
  end.
Definition item_body (i : response_item) : list Z :=
  match i with
  | RiAr t uuid key mac port => be16 t ++ uuid ++ be16 key ++ mac ++ be16 port
  | RiIocr t ref fid => be16 t ++ be16 ref ++ be16 fid
  | RiAlarm t ref n => be16 t ++ be16 ref ++ be16 n
  | RiDiff apis => count16 apis ++ concat (diff_api_bytes <$> apis)
  | RiOther _ body => body
  end.
Definition item_bytes (i : response_item) : list Z := block (item_type i) (item_body i).

(** The modules a difference block names. *)
Definition diff_module_list (m : diff_module) : list ar_module :=
  (fun s : diff_submodule => mk_ar_module m.1.1.1 s.1.1 m.1.1.2 s.1.2) <$> m.2.
Definition diff_api_list (a : diff_api) : list ar_module := concat (diff_module_list <$> a.2).
Definition diff_list (apis : list diff_api) : list ar_module := concat (diff_api_list <$> apis).

(** What each block means for the response. *)
Definition apply_item (r : connect_response) (i : response_item) : connect_response :=
  match i with
  | RiAr _ uuid key mac port =>
      r <| cs_ar_uuid := uuid |> <| cs_session_key := key |> <| cs_device_mac := mac |>
        <| cs_device_port := port |> <| cs_success := true |>
  | RiIocr _ ref fid =>
      if (length (cs_frame_ids r) <? 4)%nat then r <| cs_frame_ids ::= fun l => l ++ [(ref, fid)] |> else r
  | RiAlarm _ ref _ => r <| cs_device_alarm_ref := ref |>
  | RiDiff apis =>
      r <| cs_has_diff := true |> <| cs_diff_count := Z.of_nat (length apis) |>
        <| cs_discovered := diff_list apis |>
  | RiOther _ _ => r
  end.

(** Field ranges, and the array sizes the parser knows of. *)
Definition submodule_ok (s : diff_submodule) : Prop := is_u16 s.1.1 /\ is_u32 s.1.2 /\ is_u16 s.2.
Definition module_ok (m : diff_module) : Prop :=
  is_u16 m.1.1.1 /\ is_u32 m.1.1.2 /\ is_u16 m.1.2 /\ (length m.2 <= 16)%nat /\ Forall submodule_ok m.2.
Definition api_ok (a : diff_api) : Prop :=
  is_u32 a.1 /\ (length a.2 <= 64)%nat /\ Forall module_ok a.2.
Definition item_ok (i : response_item) : Prop :=
  is_bytes (item_body i) /\ Z.of_nat (length (item_body i)) < 65534 /\
  match i with
  | RiAr t uuid key mac port => length uuid = 16%nat /\ length mac = 6%nat /\ is_u16 key /\ is_u16 port
  | RiIocr t ref fid => is_u16 ref /\ is_u16 fid
  | RiAlarm t ref n => is_u16 ref
  | RiDiff apis => (length apis <= 4)%nat /\ Forall api_ok apis /\ (length (diff_list apis) <= WTC_MAX_SLOTS)%nat
  | RiOther t body => is_u16 t /\
      t ∉ [BLOCK_TYPE_AR_BLOCK_RES; BLOCK_TYPE_IOCR_BLOCK_RES; BLOCK_TYPE_ALARM_CR_BLOCK_RES;
           BLOCK_TYPE_MODULE_DIFF_BLOCK]
  end.

(** Reading inside a block that ends at [e]. *)
Definition reads_to {A} (e : Z) (m : wire A) (bs : list Z) (a : A) : Prop := forall c rest,
  wf c -> pending c = bs ++ rest -> cu_pos c + Z.of_nat (length bs) <= e ->
  exists c', m c = Ok a c' /\ wf c' /\ pending c' = rest /\ cu_buffer c' = cu_buffer c /\
    cu_pos c' = cu_pos c + Z.of_nat (length bs) /\ cu_limit c' = cu_limit c.

Lemma reads_reads_to {A} e (m : wire A) bs a : reads m bs a -> reads_to e m bs a.
Proof. intros H c rest Hc Hp _. by apply H. Qed.

Lemma reads_to_bind {A B} e (m : wire A) (k : A -> wire B) bs1 bs2 a b :
  reads_to e m bs1 a -> reads_to e (k a) bs2 b -> reads_to e (wbind m k) (bs1 ++ bs2) b.
Proof.
  intros Hm Hk c rest Hc Hp He. rewrite length_app in He. rewrite <- app_assoc in Hp. unfold wbind.
  destruct (Hm c _ Hc Hp ltac:(lia)) as (c1 & -> & Hc1 & Hp1 & Hb1 & Hpos1 & Hl1).
  destruct (Hk c1 _ Hc1 Hp1 ltac:(lia)) as (c2 & -> & Hc2 & Hp2 & Hb2 & Hpos2 & Hl2).
  exists c2. rewrite length_app. split_and!; try done; try congruence. lia.
Qed.

(** The guard [pos + n > block_end] of a loop passes while [n] bytes of the block are left. *)
Lemma reads_to_guard {A} e n (b : Z -> bool) (stop : wire A) m bs a :
  n <= Z.of_nat (length bs) -> (forall p, b p = false) -> reads_to e m bs a ->
  reads_to e (pos <-- get_pos;; if (e <? pos + n) || b pos then stop else m) bs a.
Proof.
  intros Hn Hb Hm c rest Hc Hp He. unfold wbind, get_pos.
  rewrite Hb, orb_false_r, (proj2 (Z.ltb_ge _ _)) by lia. by apply Hm.
Qed.

Lemma reads_to_guard1 {A} e n (stop : wire A) m bs a :
  n <= Z.of_nat (length bs) -> reads_to e m bs a ->
  reads_to e (pos <-- get_pos;; if e <? pos + n then stop else m) bs a.
Proof.
  intros Hn Hm c rest Hc Hp He. unfold wbind, get_pos. rewrite (proj2 (Z.ltb_ge _ _)) by lia. by apply Hm.
Qed.

Ltac read_field := eapply reads_to_bind; [by apply reads_reads_to; first [apply reads_u16|apply reads_u32]|].

Lemma diff_submodules_read e slot ident subs ms :
  Forall submodule_ok subs -> (length ms + length subs <= WTC_MAX_SLOTS)%nat ->
  reads_to e (diff_submodules (length subs) e slot ident ms) (concat (diff_submodule_bytes <$> subs))
    (ms ++ ((fun s : diff_submodule => mk_ar_module slot s.1.1 ident s.1.2) <$> subs)).
Proof.
  revert ms. induction subs as [|[[ss sid] st] subs IH]; intros ms Hok Hl.
  { cbn. rewrite app_nil_r. apply reads_reads_to, reads_ret. }
  apply Forall_cons in Hok as [(H1 & H2 & H3) Hok]. cbn [length] in Hl.
  rewrite !fmap_cons. cbn [concat length diff_submodules].
  apply (reads_to_guard e 8 (fun _ => (WTC_MAX_SLOTS <=? length ms)%nat));
    [rewrite length_app; cbn; lia|intros _; apply Nat.leb_gt; lia|].
  unfold diff_submodule_bytes at 1. cbn [fst snd] in *. rewrite <- !app_assoc. do 3 read_field.
  match goal with |- reads_to _ _ _ (ms ++ ?x :: ?l) =>
    replace (ms ++ x :: l) with ((ms ++ [x]) ++ l) by by rewrite <- app_assoc end.
  apply IH; [done|]. rewrite length_app. cbn. lia.
Qed.

Lemma diff_modules_read e mods ms :
  Forall module_ok mods -> (length ms + length (concat (diff_module_list <$> mods)) <= WTC_MAX_SLOTS)%nat ->
  reads_to e (diff_modules (length mods) e ms) (concat (diff_module_bytes <$> mods))
    (ms ++ concat (diff_module_list <$> mods)).
Proof.
  revert ms. induction mods as [|[[[slot ident] st] subs] mods IH]; intros ms Hok Hl.
  { cbn. rewrite app_nil_r. apply reads_reads_to, reads_ret. }
  apply Forall_cons in Hok as [(H1 & H2 & H3 & H4 & H5) Hok]. rewrite !fmap_cons in *.
  cbn [concat length diff_modules] in *.
  assert (length (diff_module_list (slot, ident, st, subs)) = length subs) as HL by apply length_fmap.
  rewrite length_app, HL in Hl. cbn [fst snd] in *.
  apply reads_to_guard1; [rewrite length_app; cbn; lia|].
  unfold diff_module_bytes at 1. cbn [fst snd]. rewrite <- !app_assoc. do 3 read_field.
  eapply reads_to_bind; [apply reads_reads_to, reads_u16; unfold is_u16; lia|].
  rewrite Z.min_l, Nat2Z.id by lia. rewrite app_assoc.
  eapply reads_to_bind; [apply diff_submodules_read; [done|lia]|].
  apply IH; [done|]. rewrite length_app, HL. lia.
Qed.

Lemma diff_apis_read e apis ms :
  Forall api_ok apis -> (length ms + length (diff_list apis) <= WTC_MAX_SLOTS)%nat ->
  reads_to e (diff_apis (length apis) e ms) (concat (diff_api_bytes <$> apis)) (ms ++ diff_list apis).
Proof.
  unfold diff_list. revert ms. induction apis as [|[api mods] apis IH]; intros ms Hok Hl.
  { cbn. rewrite app_nil_r. apply reads_reads_to, reads_ret. }
  apply Forall_cons in Hok as [(H1 & H2 & H3) Hok]. rewrite !fmap_cons in *.
  cbn [concat length diff_apis] in *.
  assert (length (diff_api_list (api, mods)) = length (concat (diff_module_list <$> mods))) as HL by done.
  rewrite length_app, HL in Hl. cbn [fst snd] in *.
  apply reads_to_guard1; [rewrite length_app; cbn; lia|].
  unfold diff_api_bytes at 1. cbn [fst snd]. rewrite <- !app_assoc. read_field.
  eapply reads_to_bind; [apply reads_reads_to, reads_u16; unfold is_u16; lia|].
  rewrite Z.min_l, Nat2Z.id by lia. rewrite app_assoc.
  eapply reads_to_bind; [apply diff_modules_read; [done|lia]|].
  apply IH; [done|]. rewrite length_app, HL. lia.
Qed.

(** Decide the comparisons of block types. *)
Ltac eval_types :=
  repeat match goal with
  | |- context [?a =? ?b] =>
      let v := eval vm_compute in (a =? b) in
      lazymatch v with true => idtac | false => idtac end; change (a =? b) with v
  end; cbn iota.

(** One block: the switch stores what the block means, wherever it leaves the position. *)
Lemma response_block_applies i r c rest :
  item_ok i -> wf c -> pending c = item_body i ++ rest ->
  exists c', response_block (item_type i) (cu_pos c + Z.of_nat (length (item_body i))) r c
      = Ok (apply_item r i) c' /\ cu_buffer c' = cu_buffer c /\ cu_limit c' = cu_limit c.
Proof.
  intros (Hb & Hlen & Hi) Hc Hp. set (e := cu_pos c + _).
  enough (exists bs rest', pending c = bs ++ rest' /\ (length bs <= length (item_body i))%nat /\
            reads_to e (response_block (item_type i) e r) bs (apply_item r i)) as (bs & rest' & Hp' & Hl & Hr).
  { destruct (Hr c rest' Hc Hp' ltac:(unfold e; lia)) as (c' & ? & _ & _ & ? & _ & ?). eauto. }
  destruct i as [t uuid key mac port|t ref fid|t ref n|apis|t body]; cbn [item_type item_body] in *;
    unfold response_block.
  - destruct Hi as (H1 & H2 & H3 & H4).
    exists (be16 t ++ uuid ++ be16 key ++ mac ++ be16 port), rest. split; [done|]. split; [done|].
    eval_types. apply reads_reads_to. eapply reads_seq; [by apply reads_skip|].
    eapply reads_bind; [rewrite <- H1; apply reads_fetch|]. eapply reads_bind; [by apply reads_u16|].
    eapply reads_bind; [rewrite <- H2; apply reads_fetch|].
    apply (reads_bind_ret fetch_u16 (fun port => _)). by apply reads_u16.
  - destruct Hi as (H1 & H2). eval_types. unfold apply_item. destruct (Nat.ltb_spec (length (cs_frame_ids r)) 4).
    + exists (be16 t ++ be16 ref ++ be16 fid), rest. split; [done|]. split; [done|].
      apply reads_reads_to. eapply reads_seq; [by apply reads_skip|].
      eapply reads_bind; [by apply reads_u16|].
      apply (reads_bind_ret fetch_u16 (fun frame_id => _)). by apply reads_u16.
    + exists [], (pending c). split; [done|]. split; [cbn; lia|]. apply reads_reads_to, reads_ret.
  - exists (be16 t ++ be16 ref), (be16 n ++ rest). rewrite Hp, <- !app_assoc.
    split; [done|]. split; [rewrite !length_app; lia|]. eval_types.
    apply reads_reads_to. eapply reads_seq; [by apply reads_skip|].
    apply (reads_bind_ret fetch_u16 (fun ref => _)). by apply reads_u16.
  - destruct Hi as (H1 & H2 & H3). exists (count16 apis ++ concat (diff_api_bytes <$> apis)), rest.
    split; [done|]. split; [done|]. eval_types.
    eapply reads_to_bind; [apply reads_reads_to, reads_u16; unfold is_u16; lia|].
    rewrite Z.min_l, Nat2Z.id by lia. rewrite <- (app_nil_r (concat _)).
    eapply reads_to_bind; [apply (diff_apis_read e apis []); [done|cbn; lia]|]. apply reads_reads_to, reads_ret.
  - destruct Hi as (H1 & H2). rewrite !not_elem_of_cons in H2. destruct H2 as (N1 & N2 & N3 & N4 & _).
    rewrite !(proj2 (Z.eqb_neq _ _)) by done.
    exists [], (pending c). split; [done|]. split; [cbn; lia|]. apply reads_reads_to, reads_ret.
Qed.

Definition items_bytes (items : list response_item) : list Z := concat (item_bytes <$> items).

Lemma item_type_u16 i : item_ok i -> is_u16 (item_type i).
Proof. intros (_ & _ & H). destruct i; [by vm_compute..|apply H]. Qed.

Lemma response_blocks_fold fuel items r c tail :
  Forall item_ok items -> wf c -> pending c = items_bytes items ++ tail -> (length tail < 6)%nat ->
  (length items <= fuel)%nat ->
  exists c', response_blocks fuel r c = Ok (foldl apply_item r items) c'.
Proof.
  revert r c items. induction fuel as [|fuel IH]; intros r c items Hok Hc Hp Ht Hf.
  { destruct items; [|cbn in Hf; lia]. eexists. done. }
  cbn [response_blocks]. pose proof (pending_length c Hc) as Hpl.
  destruct items as [|i items].
  { rewrite (proj2 (Z.leb_gt _ _)) by (rewrite Hp in Hpl; cbn in Hpl; lia). eexists. done. }
  apply Forall_cons in Hok as [Hi Hok]. unfold items_bytes in Hp. rewrite fmap_cons in Hp. cbn [concat] in Hp.
  unfold item_bytes at 1, block in Hp. destruct Hi as (Hb & Hlen & Hi0). pose proof (conj Hb (conj Hlen Hi0) : item_ok i) as Hi.
  set (n := Z.of_nat (length (item_body i)) + 2) in *.
  assert (wrap16 n = n) as Hn by (apply Z.mod_small; unfold n; lia). rewrite Hn, <- !app_assoc in Hp.
  rewrite (proj2 (Z.leb_le _ _)) by (rewrite Hp, !length_app in Hpl; cbn in Hpl; lia).
  destruct (reads_u16 _ (item_type_u16 i Hi) c _ Hc Hp) as (c1 & E1 & Hc1 & Hp1 & Hb1 & Hpos1 & Hl1).
  destruct (reads_u16 n ltac:(unfold is_u16, n; lia) c1 _ Hc1 Hp1) as (c2 & E2 & Hc2 & Hp2 & Hb2 & Hpos2 & Hl2).
  destruct (reads_fetch [1; 0] c2 _ Hc2 Hp2) as (c3 & E3 & Hc3 & Hp3 & Hb3 & Hpos3 & Hl3).
  unfold wbind. rewrite E1, E2. cbn [length] in E3. rewrite E3. cbn [get_pos].
  pose proof (pending_length c3 Hc3) as Hpl3. rewrite Hp3, length_app in Hpl3.
  rewrite (proj2 (Z.ltb_ge n 2)) by (unfold n; lia). rewrite orb_false_l.
  rewrite (proj2 (Z.ltb_ge _ _)) by (unfold n; lia).
  replace (cu_pos c3 + n - 2) with (cu_pos c3 + Z.of_nat (length (item_body i))) by (unfold n; lia).
  destruct (response_block_applies i r c3 _ Hi Hc3 Hp3) as (c4 & -> & Hb4 & Hl4).
  unfold seek. cbn [foldl].
  assert ((c4 <| cu_pos := cu_pos c3 + Z.of_nat (length (item_body i)) |>) = advance (length (item_body i)) c3) as ->.
  { destruct c3, c4. cbn in *. unfold advance. cbn. congruence. }
  assert (length (item_body i) <= length (pending c3))%nat by (rewrite Hp3, length_app; lia).
  apply IH; [done|by apply wf_advance| |done|cbn in Hf; lia].
  rewrite pending_advance, Hp3 by done. apply drop_app_length.
Qed.

(** A connect response is decoded as its blocks say: each AR, IOCR, alarm and module
    difference block (within the sizes the parser allows) updates the response, other blocks
    are skipped, and the call succeeds exactly when there was an AR block. *)
Theorem connect_response_decoded hdr mid count items tail :
  length hdr = 80%nat -> nth 1 hdr 0 = RPC_PACKET_TYPE_RESPONSE ->
  length mid = 12%nat -> length count = 4%nat ->
  by_drep (rpc_header_of hdr) count <> 0 ->
  Forall item_ok items -> (length tail < 6)%nat ->
  let body := [0; 0; 0; 0] ++ mid ++ count ++ items_bytes items ++ tail in
  is_bytes hdr -> is_bytes body -> Z.of_nat (length body) < 2 ^ 62 ->
  let r := foldl apply_item zero_response items in
  rpc_parse_connect_response (hdr ++ body) =
    Some (if cs_success r then WTC_OK else WTC_ERROR_PROTOCOL, r).
Proof.
  intros Hh Hty Hm Hcn Hc0 Hok Ht body Hbh Hbb Hlen r. unfold rpc_parse_connect_response.
  destruct (pdu_cursor hdr body Hh Hbh Hbb Hlen) as (-> & Hwf & Hp).
  assert (rpc_header_of (hdr ++ body) = rpc_header_of hdr) as ->.
  { do 80 (destruct hdr as [|? hdr]; [done|]). done. }
  set (h := rpc_header_of hdr). change (rh_packet_type h) with (nth 1 hdr 0). rewrite Hty. cbv zeta.
  change (RPC_PACKET_TYPE_RESPONSE =? RPC_PACKET_TYPE_FAULT) with false.
  change (RPC_PACKET_TYPE_RESPONSE =? RPC_PACKET_TYPE_RESPONSE) with true. cbn [negb].
  assert (response_has_ndr_header (hdr ++ body) 80 = true) as ->.
  { unfold body. cbn [app]. rewrite has_ndr_app; [done|done|]. cbn [length]. rewrite length_app, Hm. lia. }
  assert (reads (ndr_response h) ([0; 0; 0; 0] ++ mid ++ count) (0, by_drep h count)) as Hr.
  { unfold ndr_response. apply reads_require; [rewrite !length_app, Hm, Hcn; cbn; lia|].
    replace 0 with (by_drep h [0; 0; 0; 0]) at 5 by (unfold by_drep; by destruct (Z.testbit _ _)).
    eapply reads_bind; [apply (reads_fetch [0; 0; 0; 0])|].
    eapply reads_seq; [apply reads_skip; by rewrite Hm|].
    refine (reads_bind_ret (fetch 4) (fun count => (by_drep h [0; 0; 0; 0], by_drep h count)) _ _ _).
    rewrite <- Hcn. apply reads_fetch. }
  destruct (Hr _ (items_bytes items ++ tail) Hwf) as (c1 & E1 & Hc1 & Hp1 & _).
  { rewrite Hp. unfold body. by rewrite <- !app_assoc. }
  destruct (response_blocks_fold (length (hdr ++ body)) items zero_response c1 tail Hok Hc1 Hp1 Ht) as (c2 & E2).
  { assert (length items <= length (items_bytes items))%nat as Hle.
    { clear. unfold items_bytes. induction items as [|i l IH]; [done|]. rewrite fmap_cons.
      cbn [concat length]. rewrite length_app. unfold item_bytes at 1. rewrite length_block. lia. }
    unfold body. rewrite !length_app. lia. }
  unfold wbind at 1. rewrite E1. change (0 =? 0) with true. cbn [negb].
  rewrite (proj2 (Z.eqb_neq _ _)) by done. unfold wbind. rewrite E2. done.
Qed.

(** ** Examples *)

Module RpcDemo.

Definition uuid0 : list Z := rpc_generate_uuid 1700000000000 12345 67890.
Definition ctx0 : rpc_context := mk_rpc_context true 0xC0A80101 34964 1 uuid0.

Lemma bytes_ok (l : list Z) : forallb (fun b => (0 <=? b) && (b <? 256)) l = true -> is_bytes l.
Proof.
  intros H. apply Forall_forall. intros b Hb. rewrite forallb_forall in H.
  apply list_elem_of_In in Hb. specialize (H b Hb). unfold is_u8. lia.
Qed.

Lemma uuid0_ok : is_uuid uuid0.
Proof. split; [done|by apply bytes_ok]. Qed.

Lemma control_exchange_witness :
  exists pdu answer q,
    rpc_build_control_request ctx0 uuid0 7 CONTROL_CMD_APP_READY RPC_MAX_PDU_SIZE =
      Built pdu (ctx0 <| rc_sequence_number := 2 |>) /\
    rpc_parse_incoming_control_request pdu = Some (inr q) /\ iq_session_key q = 7 /\
    rpc_build_control_response q RPC_MAX_PDU_SIZE = inr answer /\
    rpc_parse_control_response answer = Some (WTC_OK, true).
Proof.
  destruct (control_exchange ctx0 uuid0 7 CONTROL_CMD_APP_READY uuid0_ok uuid0_ok) as
    (pdu & answer & q & H1 & _ & H2 & _ & H3 & _ & _ & _ & H4 & H5); [by vm_compute..|].
  exists pdu, answer, q. by split_and!.
Defined.

(** The device access point and [n] sensor modules in slots of their own. *)
Definition dap : list expected_submodule :=
  [mk_expected_submodule 0 1 0x0001 1 0 true; mk_expected_submodule 0 1 0x8000 0x100 0 true;
   mk_expected_submodule 0 1 0x8001 0x200 0 true].
Definition sensors (n : nat) : list expected_submodule :=
  (fun i => mk_expected_submodule (Z.of_nat i) 0x10 1 0x11 5 true) <$> seq 1 n.
Definition params (n : nat) : connect_request_params :=
  mk_connect_request_params uuid0 7 AR_TYPE_IOCAR 0x11 "controller" [2; 0; 0; 0; 0; 1] uuid0 34964 100
    [mk_iocr_params IOCR_TYPE_INPUT 1 0xC001 40 64 128 10;
     mk_iocr_params IOCR_TYPE_OUTPUT 2 0xFFFF 40 64 128 10]
    (dap ++ sensors n) 200 100 5 5.

Lemma connect_request_fits_iff_witness :
  exists pdu ctx', rpc_build_connect_request uuid0 ctx0 (params 2) RPC_MAX_PDU_SIZE = Built pdu ctx' /\
    length pdu = 482%nat.
Proof.
  exact (connect_request_fits_iff uuid0 ctx0 (params 2) uuid0_ok uuid0_ok eq_refl uuid0_ok
           ltac:(vm_compute; lia)).
Defined.

(** 26 modules fit; one more and the request is written behind the end of [req_buf]. *)
Theorem many_modules_overflow :
  (exists pdu ctx', rpc_build_connect_request uuid0 ctx0 (params 26) RPC_MAX_PDU_SIZE = Built pdu ctx') /\
  rpc_build_connect_request uuid0 ctx0 (params 27) RPC_MAX_PDU_SIZE = Overflowed.
Proof. split; [eexists _, _|]; vm_compute; reflexivity. Qed.

Definition response_header (drep0 : Z) : list Z :=
  [4; RPC_PACKET_TYPE_RESPONSE; 0x22; 0; drep0] ++ replicate 75 0.

Lemma read_response_within_bounds_witness :
  exists e r, rpc_parse_read_response (response_header 0 ++ replicate 20 0) = Some (e, r) /\
    (length (rr_modules r) <= RPC_MAX_DISCOVERED_MODULES)%nat.
Proof. apply read_response_within_bounds; [by apply bytes_ok|by vm_compute]. Defined.

Definition mac9 : list Z := [2; 0; 0; 0; 0; 9].
Definition blocks : list response_item :=
  [RiAr 1 uuid0 7 mac9 34964; RiIocr 1 1 0xC001; RiIocr 2 2 0xC003; RiOther 0x8106 [1; 2];
   RiDiff [(0, [(1, 0x40, 2, [(1, 0x41, 1)])])]].
Definition counts : list Z := replicate 12 0.

Lemma blocks_ok : Forall item_ok blocks.
Proof.
  repeat (constructor; [split; [by apply bytes_ok|split; [by vm_compute|]]|]); [| | | | |constructor].
  - by vm_compute.
  - by vm_compute.
  - by vm_compute.
  - split; [by vm_compute|]. rewrite !not_elem_of_cons. split_and!; try done. apply not_elem_of_nil.
  - split; [cbn; lia|]. split; [|vm_compute; lia]. repeat constructor; by vm_compute.
Qed.

Lemma connect_response_decoded_witness :
  exists r, rpc_parse_connect_response (response_header 0 ++ [0; 0; 0; 0] ++ counts ++ be32 90 ++
              items_bytes blocks ++ []) = Some (WTC_OK, r) /\
    cs_session_key r = 7 /\ cs_frame_ids r = [(1, 0xC001); (2, 0xC003)] /\
    cs_discovered r = [mk_ar_module 1 1 0x40 0x41].
Proof.
  eexists. split.
  - apply (connect_response_decoded (response_header 0) counts (be32 90) blocks []);
      [done|done|done|done|by vm_compute|exact blocks_ok|cbn; lia|by apply bytes_ok|by apply bytes_ok|by vm_compute].
  - by split_and!.
Defined.

(** A short AR block, a short module entry and a short control answer are read behind the
    received bytes. *)
Theorem short_blocks_read_outside :
  rpc_parse_connect_response (response_header 0 ++ be16 BLOCK_TYPE_AR_BLOCK_RES ++ be16 2 ++ [1; 0]) = None /\
  rpc_parse_connect_response (response_header 0 ++ be16 BLOCK_TYPE_MODULE_DIFF_BLOCK ++ be16 18 ++ [1; 0] ++
    be16 1 ++ be32 0 ++ be16 1 ++ be16 1 ++ be32 0x40 ++ be16 0) = None /\
  rpc_parse_control_response (response_header 0 ++ be16 BLOCK_TYPE_IOD_CONTROL_RES ++ be16 28 ++ [1; 0]) = None.
Proof. split_and!; vm_compute; reflexivity. Qed.

(** A control answer is a success whatever command it carries. *)
Theorem control_command_not_checked :
  rpc_parse_control_response (response_header 0 ++
    block BLOCK_TYPE_IOD_CONTROL_RES (control_body uuid0 7 0xFFFF)) = Some (WTC_OK, true).
Proof. vm_compute. reflexivity. Qed.
End RpcDemo.
