(* ===== verification/ArManager.v ===== *)
(** * Application relationships: [src/profinet/ar_manager.c]

    The table of application relationships (ARs), one per connected station, and the state
    machine that takes each of them from the connect request over parameter end and
    application ready to cyclic operation, and recovers it after an abort.  The network and
    the discovery services around it are the environment of a call ([net]): what the device
    answers to a request, whether the RPC socket opens, which allocations succeed. *)

From S2P Require Import Prelude Types Wire Frame Cyclic Rpc.

(** ** GSDML identifiers ([src/profinet/gsdml_modules.h]) *)

Definition GSDML_MOD_DAP : Z := 0x01.
Definition GSDML_SUBMOD_DAP : Z := 0x01.
Definition GSDML_SUBMOD_INTERFACE : Z := 0x100.
Definition GSDML_SUBMOD_PORT : Z := 0x200.
Definition GSDML_MOD_PH : Z := 0x10.
Definition GSDML_MOD_TDS : Z := 0x20.
Definition GSDML_MOD_TURBIDITY : Z := 0x30.
Definition GSDML_MOD_TEMPERATURE : Z := 0x40.
Definition GSDML_MOD_FLOW : Z := 0x50.
Definition GSDML_MOD_LEVEL : Z := 0x60.
Definition GSDML_MOD_GENERIC_AI : Z := 0x70.
Definition GSDML_MOD_PUMP : Z := 0x100.
Definition GSDML_MOD_VALVE : Z := 0x110.
Definition GSDML_MOD_GENERIC_DO : Z := 0x120.
Definition GSDML_INPUT_DATA_SIZE : Z := 5.
Definition GSDML_OUTPUT_DATA_SIZE : Z := 4.

Definition gsdml_get_input_module_ident (t : measurement_type) : Z :=
  match t with
  | MEASUREMENT_PH => GSDML_MOD_PH
  | MEASUREMENT_TDS => GSDML_MOD_TDS
  | MEASUREMENT_TURBIDITY => GSDML_MOD_TURBIDITY
  | MEASUREMENT_TEMPERATURE => GSDML_MOD_TEMPERATURE
  | MEASUREMENT_FLOW_RATE => GSDML_MOD_FLOW
  | MEASUREMENT_LEVEL => GSDML_MOD_LEVEL
  | _ => GSDML_MOD_GENERIC_AI
  end.
Definition gsdml_get_input_submodule_ident (t : measurement_type) : Z :=
  gsdml_get_input_module_ident t + 1.
Definition gsdml_get_output_module_ident (t : actuator_type) : Z :=
  match t with
  | ACTUATOR_PUMP => GSDML_MOD_PUMP
  | ACTUATOR_VALVE => GSDML_MOD_VALVE
  | _ => GSDML_MOD_GENERIC_DO
  end.
Definition gsdml_get_output_submodule_ident (t : actuator_type) : Z :=
  gsdml_get_output_module_ident t + 1.

(** ** Data *)

Definition MAX_ARS : nat := 64.
Definition AR_CONNECT_TIMEOUT_MS : Z := 10000.
Definition AR_APP_READY_TIMEOUT_MS : Z := 30000.
Definition AR_MAX_RETRY_ATTEMPTS : Z := 3.
Definition IOCR_MIN_C_SDU_LENGTH : Z := 40.
Definition WATCHDOG_MISS_THRESHOLD : Z := 3.
Definition DEFAULT_WATCHDOG_MS : Z := 3000.
Definition AR_PROPERTIES : Z := Z.lor (Z.lor 0x01 0x10) 0.
Definition PROFINET_DATA_STATUS : Z := Z.lor (Z.lor (Z.lor 0x01 0x04) 0x10) 0x20.
Definition PN_INSTANCE_ID : Z := 1.

(** [ar_config_t]; the slots with the fields the manager uses. *)
Record ar_config := mk_ar_config {
  cf_station_name : string;
  cf_device_mac : list Z;
  cf_device_ip : Z;
  cf_vendor_id : Z;
  cf_device_id : Z;
  cf_slots : list ar_slot_info;
  cf_watchdog_ms : Z }.

(** [ar_manager]; [mg_rpc] is the RPC context once it is initialised, [mg_trace] the calls of
    the state callback. *)
Record ar_manager := mk_ar_manager {
  mg_controller_mac : list Z;
  mg_controller_ip : Z;
  mg_ars : list profinet_ar;
  mg_session_key_counter : Z;
  mg_rpc : option rpc_context;
  mg_controller_uuid : list Z;
  mg_controller_station_name : string;
  mg_callback : bool;
  mg_trace : list (string * ar_state * ar_state) }.

#[export] Instance eta_ar_manager : Eta ar_manager := fun r =>
  mk_ar_manager (mg_controller_mac r) (mg_controller_ip r) (mg_ars r) (mg_session_key_counter r)
    (mg_rpc r) (mg_controller_uuid r) (mg_controller_station_name r) (mg_callback r) (mg_trace r).

(** The environment of a call: the clock when it ends, the UUIDs it generates, the answer of
    the socket layer, the allocations, and the two sources of module lists. *)
Record net := mk_net {
  ne_now : Z;
  ne_rpc_init : Z -> wtc_result + rpc_context;
  ne_ar_uuid : list Z;
  ne_activity_uuid : list Z;
  ne_send : Z -> transport;
  ne_alloc : nat -> bool;
  ne_http : Z -> wtc_result * list ar_module;
  ne_cache_exists : string -> bool;
  ne_cache_load : string -> wtc_result * list ar_module }.

(** What an operation on one AR returns; [None]: memory outside a buffer was accessed. *)
Definition ar_result : Type := option (wtc_result * ar_manager * profinet_ar).

Definition notify_state_change (name : string) (old new : ar_state) (m : ar_manager) : ar_manager :=
  if mg_callback m && bool_decide (old <> new)
  then m <| mg_trace ::= fun l => l ++ [(name, old, new)] |> else m.

(** [pn_build_cm_initiator_uuid] *)
Definition pn_build_cm_initiator_uuid (vendor_id device_id instance_id : Z) : list Z :=
  [0xDE; 0xA0; 0x00; 0x00; 0x6C; 0x97; 0x11; 0xD1; 0x82; 0x71] ++
  be16 instance_id ++ be16 device_id ++ be16 vendor_id.

Definition ar_manager_init (mac : list Z) (station_name : string) (vendor_id device_id : Z) : ar_manager :=
  mk_ar_manager mac 0 [] 1 None (pn_build_cm_initiator_uuid vendor_id device_id PN_INSTANCE_ID)
    (strncpy 63 station_name) false [].

Definition ar_manager_set_controller_ip (ip : Z) (m : ar_manager) : ar_manager :=
  let m := m <| mg_controller_ip := ip |> in
  match mg_rpc m with
  | Some ctx => if rc_controller_ip ctx =? ip then m else m <| mg_rpc := None |>
  | None => m
  end.

Definition ar_manager_set_state_callback (callback : bool) (m : ar_manager) : ar_manager :=
  m <| mg_callback := callback |>.

(** ** The table *)

Definition has_name (name : string) (ar : profinet_ar) : Prop := ar_device_station_name ar = name.
#[export] Instance has_name_dec name ar : Decision (has_name name ar).
Proof. unfold has_name. apply _. Defined.

Definition count_slots (t : slot_type) (l : list ar_slot_info) : Z :=
  Z.of_nat (length (filter (fun s => si_type s = t) l)).

(** The AR of [ar_manager_create_ar] before its buffers are allocated. *)
Definition new_ar (uuid : list Z) (key : Z) (cfg : ar_config) : profinet_ar :=
  zero_ar <| ar_uuid := uuid |> <| ar_session_key := key |> <| ar_kind := AR_TYPE_IOCAR |>
    <| ar_st := AR_STATE_INIT |> <| ar_device_station_name := strncpy 63 (cf_station_name cfg) |>
    <| ar_device_mac := cf_device_mac cfg |> <| ar_device_ip := cf_device_ip cfg |>
    <| ar_device_vendor_id := cf_vendor_id cfg |> <| ar_device_device_id := cf_device_id cfg |>
    <| ar_watchdog_ms := if 0 <? cf_watchdog_ms cfg then cf_watchdog_ms cfg else DEFAULT_WATCHDOG_MS |>.

Definition slot_info_of (s : ar_slot_info) : ar_slot_info :=
  mk_ar_slot_info (wrap16 (si_slot s)) (wrap16 (si_subslot s)) (si_type s) (si_measurement_type s)
    (si_actuator_type s).

(** [ar_manager_create_ar]; [alloc]: the allocation of the AR and of its two buffers. *)
Definition ar_manager_create_ar (uuid : list Z) (alloc : bool) (allocs : nat -> bool)
    (cfg : ar_config) (m : ar_manager) : wtc_result * ar_manager :=
  if (MAX_ARS <=? length (mg_ars m))%nat then (WTC_ERROR_FULL, m)
  else if bool_decide (Exists (has_name (cf_station_name cfg)) (mg_ars m))
  then (WTC_ERROR_ALREADY_EXISTS, m)
  else if negb alloc then (WTC_ERROR_NO_MEMORY, m)
  else
    let key := mg_session_key_counter m in
    let m := m <| mg_session_key_counter := wrap16 (key + 1) |> in
    let '(res, ar) := allocate_iocr_buffers allocs (count_slots SLOT_TYPE_SENSOR (cf_slots cfg))
                        (count_slots SLOT_TYPE_ACTUATOR (cf_slots cfg)) (new_ar uuid key cfg) in
    if negb (bool_decide (res = WTC_OK)) then (res, m)
    else
      let ar := ar <| ar_slots := slot_info_of <$> take WTC_MAX_SLOTS (cf_slots cfg) |> in
      (WTC_OK, m <| mg_ars ::= fun l => l ++ [ar] |>).

Definition ar_manager_delete_ar (name : string) (m : ar_manager) : wtc_result * ar_manager :=
  match list_find (has_name name) (mg_ars m) with
  | Some (i, _) => (WTC_OK, m <| mg_ars ::= remove_shift i |>)
  | None => (WTC_ERROR_NOT_FOUND, m)
  end.

(** [ar_manager_get_ar]: the position and the AR. *)
Definition ar_manager_get_ar (name : string) (m : ar_manager) : option (nat * profinet_ar) :=
  list_find (has_name name) (mg_ars m).

Definition uses_frame_id (frame_id : Z) (ar : profinet_ar) : Prop :=
  Exists (fun cr => cr_frame_id cr = frame_id) (ar_iocr ar).
#[export] Instance uses_frame_id_dec fid ar : Decision (uses_frame_id fid ar).
Proof. unfold uses_frame_id. apply _. Defined.

Definition ar_manager_get_ar_by_frame_id (frame_id : Z) (m : ar_manager) : option (nat * profinet_ar) :=
  list_find (uses_frame_id frame_id) (mg_ars m).

Definition ar_manager_get_all (m : ar_manager) (max_count : nat) : list profinet_ar :=
  take max_count (mg_ars m).

Definition set_ar (i : nat) (ar : profinet_ar) (m : ar_manager) : ar_manager :=
  m <| mg_ars ::= <[i := ar]> |>.

(** ** Connecting *)

Definition default_ip (ar : profinet_ar) (m : ar_manager) : ar_manager :=
  if (mg_controller_ip m =? 0) && negb (ar_device_ip ar =? 0)
  then m <| mg_controller_ip := Z.lor (Z.land (ar_device_ip ar) 0xFFFFFF00) 1 |> else m.

Definition ensure_rpc_initialized (e : net) (m : ar_manager) : wtc_result * ar_manager :=
  match mg_rpc m with
  | Some _ => (WTC_OK, m)
  | None =>
      if mg_controller_ip m =? 0 then (WTC_ERROR_NOT_INITIALIZED, m)
      else match ne_rpc_init e (mg_controller_ip m) with
           | inl res => (res, m)
           | inr ctx => (WTC_OK, m <| mg_rpc := Some ctx |>)
           end
  end.

(** The three submodules of the device access point. *)
Definition dap_submodules : list expected_submodule :=
  [mk_expected_submodule 0 GSDML_MOD_DAP 0x0001 GSDML_SUBMOD_DAP 0 true;
   mk_expected_submodule 0 GSDML_MOD_DAP 0x8000 GSDML_SUBMOD_INTERFACE 0 true;
   mk_expected_submodule 0 GSDML_MOD_DAP 0x8001 GSDML_SUBMOD_PORT 0 true].

Definition expected_of_module (md : ar_module) : expected_submodule :=
  let sub := md_submodule_ident md in
  let '(len, input) :=
    if (0x11 <=? sub) && (sub <=? 0x71) then (5, true)
    else if (0x101 <=? sub) && (sub <=? 0x121) then (4, false) else (0, true) in
  mk_expected_submodule (md_slot md) (md_module_ident md) (md_subslot md) sub len input.

Definition expected_of_slot (s : ar_slot_info) : option expected_submodule :=
  let subslot := if 0 <? si_subslot s then si_subslot s else 1 in
  match si_type s with
  | SLOT_TYPE_SENSOR => Some (mk_expected_submodule (si_slot s)
      (gsdml_get_input_module_ident (si_measurement_type s)) subslot
      (gsdml_get_input_submodule_ident (si_measurement_type s)) GSDML_INPUT_DATA_SIZE true)
  | SLOT_TYPE_ACTUATOR => Some (mk_expected_submodule (si_slot s)
      (gsdml_get_output_module_ident (si_actuator_type s)) subslot
      (gsdml_get_output_submodule_ident (si_actuator_type s)) GSDML_OUTPUT_DATA_SIZE false)
  | SLOT_TYPE_DAP => None
  end.

(** Application modules: those outside slot 0. *)
Definition app_modules (l : list ar_module) : list ar_module := filter (fun md => md_slot md <> 0) l.

Definition expected_config (ar : profinet_ar) : list expected_submodule :=
  dap_submodules ++ take (WTC_MAX_SLOTS - 3)
    (if ar_has_discovered_modules ar then expected_of_module <$> app_modules (ar_discovered ar)
     else omap expected_of_slot (ar_slots ar)).

Definition iocr_params_of (tp : timing_params) (i : nat) (cr : iocr) : iocr_params :=
  let dl := wrap16 (cr_data_length cr) in
  mk_iocr_params (cr_type cr) (wrap16 (Z.of_nat i + 1)) (cr_frame_id cr)
    (if dl <? IOCR_MIN_C_SDU_LENGTH then IOCR_MIN_C_SDU_LENGTH else dl)
    (tp_send_clock_factor tp) (tp_reduction_ratio tp) (tp_watchdog_factor tp).

Definition build_connect_params (m : ar_manager) (ctx : rpc_context) (ar : profinet_ar)
    : connect_request_params :=
  let tp := rpc_strategy_get_timing TIMING_CONSERVATIVE in
  mk_connect_request_params (ar_uuid ar) (ar_session_key ar) (ar_kind ar) AR_PROPERTIES
    (strncpy 63 (mg_controller_station_name m)) (mg_controller_mac m) (mg_controller_uuid m)
    (rc_controller_port ctx) 100 (imap (iocr_params_of tp) (take 4 (ar_iocr ar)))
    (expected_config ar) 200 (tp_rta_timeout_factor tp) (tp_rta_retries tp) (tp_data_hold_factor tp).

(** The frame IDs assigned by the device. *)
Fixpoint assign_frame_ids (ids : list (Z * Z)) (l : list iocr) : list iocr :=
  match ids, l with
  | (_, assigned) :: ids, cr :: l => (cr <| cr_frame_id := assigned |>) :: assign_frame_ids ids l
  | _, l => l
  end.

Definition fail_ar (st : ar_state) (now : Z) (err : wtc_result) (ar : profinet_ar) : profinet_ar :=
  ar <| ar_st := st |> <| ar_last_activity_ms := now |> <| ar_last_error := err |>.

(** The handling of an accepted connect response. *)
Definition connect_accepted (now : Z) (r : connect_response) (ar : profinet_ar)
    : wtc_result * profinet_ar :=
  let ar := ar <| ar_device_mac := cs_device_mac r |> <| ar_session_key := cs_session_key r |>
               <| ar_iocr ::= assign_frame_ids (cs_frame_ids r) |> in
  if cs_has_diff r && existsb (fun md => 0 <? md_slot md) (cs_discovered r) &&
     (ar_retry_count ar <? AR_MAX_RETRY_ATTEMPTS)
  then (WTC_ERROR_CONNECTION_FAILED,
        fail_ar AR_STATE_ABORT now WTC_ERROR_CONNECTION_FAILED
          (ar <| ar_has_discovered_modules := true |>
              <| ar_discovered := take WTC_MAX_SLOTS (cs_discovered r) |>))
  else (WTC_OK, ar <| ar_st := AR_STATE_CONNECT_CNF |> <| ar_last_activity_ms := now |>
                   <| ar_retry_count := 0 |> <| ar_last_error := WTC_OK |> <| ar_missed_cycles := 0 |>).

Definition ar_send_connect_request (e : net) (m : ar_manager) (ar : profinet_ar) : ar_result :=
  let m := default_ip ar m in
  let '(res, m) := ensure_rpc_initialized e m in
  match mg_rpc m with
  | None => Some (res, m, ar <| ar_st := AR_STATE_ABORT |>)
  | Some ctx =>
      let ar := ar <| ar_st := AR_STATE_CONNECT_REQ |> <| ar_uuid := ne_ar_uuid e |>
                   <| ar_session_key := mg_session_key_counter m |> in
      let m := m <| mg_session_key_counter ::= fun k => wrap16 (k + 1) |> in
      match rpc_connect (ne_send e (ar_device_ip ar)) (ne_activity_uuid e) ctx
              (build_connect_params m ctx ar) with
      | None => None
      | Some (res, r, ctx) =>
          let m := m <| mg_rpc := Some ctx |> in
          if bool_decide (res = WTC_OK) && cs_success r
          then let '(res, ar) := connect_accepted (ne_now e) r ar in Some (res, m, ar)
          else Some (WTC_ERROR_CONNECTION_FAILED, m,
                 fail_ar AR_STATE_ABORT (ne_now e)
                   (if bool_decide (res = WTC_OK) then WTC_ERROR_CONNECTION_FAILED else res) ar)
      end
  end.

(** ** Parameter end, application ready, release *)

Definition ar_send_parameter_end (e : net) (m : ar_manager) (ar : profinet_ar) : ar_result :=
  match mg_rpc m with
  | None => Some (WTC_ERROR_NOT_INITIALIZED, m, ar)
  | Some ctx =>
      match rpc_parameter_end (ne_send e (ar_device_ip ar)) ctx (ar_uuid ar) (ar_session_key ar) with
      | None => None
      | Some (res, _, ctx) =>
          Some (res, m <| mg_rpc := Some ctx |>,
            ar <| ar_st := if bool_decide (res = WTC_OK) then AR_STATE_READY else AR_STATE_ABORT |>
               <| ar_last_activity_ms := ne_now e |>)
      end
  end.

Definition ar_send_application_ready (e : net) (m : ar_manager) (ar : profinet_ar) : ar_result :=
  match mg_rpc m with
  | None => Some (WTC_ERROR_NOT_INITIALIZED, m, ar)
  | Some ctx =>
      match rpc_application_ready (ne_send e (ar_device_ip ar)) ctx (ar_uuid ar) (ar_session_key ar) with
      | None => None
      | Some (res, _, ctx) =>
          let m := m <| mg_rpc := Some ctx |> in
          if bool_decide (res = WTC_OK)
          then Some (res, notify_state_change (ar_device_station_name ar) (ar_st ar) AR_STATE_RUN m,
                 ar <| ar_st := AR_STATE_RUN |> <| ar_last_activity_ms := ne_now e |>)
          else Some (res, m, ar <| ar_st := AR_STATE_ABORT |> <| ar_last_activity_ms := ne_now e |>)
      end
  end.

Definition ar_send_release_request (e : net) (m : ar_manager) (ar : profinet_ar) : ar_result :=
  let ar' := ar <| ar_st := AR_STATE_CLOSE |> <| ar_last_activity_ms := ne_now e |> in
  let closed := notify_state_change (ar_device_station_name ar) (ar_st ar) AR_STATE_CLOSE in
  match mg_rpc m with
  | None => Some (WTC_OK, closed m, ar')
  | Some ctx =>
      match rpc_release (ne_send e (ar_device_ip ar)) ctx (ar_uuid ar) (ar_session_key ar) with
      | None => None
      | Some (_, _, ctx) => Some (WTC_OK, closed (m <| mg_rpc := Some ctx |>), ar')
      end
  end.

(** ** Cyclic frames *)

(** [IOPS_GOOD] as a byte of the C-SDU. *)
Definition IOPS_GOOD_BYTE : Z := 0x80.
Definition MAX_CYCLIC_FRAME : Z := 1518.

(** The loop that stores [v] at [off], ..., [off + n - 1]; [None]: outside the buffer. *)
Definition fill_bytes (off n v : Z) (b : list Z) : option (list Z) :=
  if n <=? 0 then Some b
  else if off + n <=? Z.of_nat (length b)
  then Some (write_at (Z.to_nat off) (replicate (Z.to_nat n) v) b) else None.

(** Provider and consumer status bytes behind the user data. *)
Definition fill_status (cr : iocr) : option iocr :=
  match cr_data_buffer cr with
  | None => Some cr
  | Some b =>
      let iops_off := cr_user_data_length cr in
      let iocs_off := wrap16 (iops_off + cr_iodata_count cr) in
      b ← fill_bytes iops_off (cr_iodata_count cr) IOPS_GOOD_BYTE b;
      b ← fill_bytes iocs_off (cr_iocs_count cr) IOPS_GOOD_BYTE b;
      Some (cr <| cr_data_buffer := Some b |>)
  end.

(** The bytes copied into the frame; [None]: the buffer is shorter than [data_length]. *)
Definition csdu_of (cr : iocr) : option (list Z) :=
  match cr_data_buffer cr with
  | Some b =>
      if 0 <? cr_data_length cr
      then if cr_data_length cr <=? Z.of_nat (length b)
           then Some (take (Z.to_nat (cr_data_length cr)) b) else None
      else Some []
  | None => Some []
  end.

Definition cyclic_header (controller_mac device_mac : list Z) (frame_id : Z) : list Z :=
  device_mac ++ controller_mac ++ be16 PROFINET_ETHERTYPE_VLAN ++ be16 0xC000 ++
  be16 PROFINET_ETHERTYPE ++ be16 frame_id.

Definition pad_frame (frame : list Z) : list Z :=
  frame ++ replicate (Z.to_nat ETH_MIN_FRAME_LEN - length frame) 0.

(** [send_cyclic_frame]; [sent]: the socket took the frame.  The second component is the frame
    handed to it. *)
Definition send_cyclic_frame (sent : bool) (m : ar_manager) (ar : profinet_ar)
    : option (wtc_result * option (list Z) * profinet_ar) :=
  if negb (bool_decide (ar_st ar = AR_STATE_RUN)) then Some (WTC_ERROR_NOT_INITIALIZED, None, ar)
  else
    match find_iocr IOCR_TYPE_OUTPUT ar with
    | None => Some (WTC_ERROR_NOT_FOUND, None, ar)
    | Some (i, cr) =>
        cr ← fill_status cr;
        csdu ← csdu_of cr;
        let hdr := cyclic_header (mg_controller_mac m) (ar_device_mac ar) (cr_frame_id cr) in
        let frame := hdr ++ csdu ++ be16 (cr_cycle_counter cr) ++ [PROFINET_DATA_STATUS; 0] in
        if MAX_CYCLIC_FRAME <? Z.of_nat (length frame) then None
        else
          let cr := cr <| cr_cycle_counter ::= fun c => wrap16 (c + 1) |> in
          Some (if sent then WTC_OK else WTC_ERROR_IO, Some (pad_frame frame),
                upd_iocr i (fun _ => cr) ar)
    end.

(** [ar_send_output_data] at [now_us]. *)
Definition output_period_us (cr : iocr) : Z :=
  let p := wrap64 (cr_send_clock_factor cr * cr_reduction_ratio cr * 3125) / 100 in
  if p =? 0 then 256000 else p.

Definition ar_send_output_data (now_us : Z) (sent : bool) (m : ar_manager) (ar : profinet_ar)
    : option (wtc_result * option (list Z) * profinet_ar) :=
  if negb (bool_decide (ar_st ar = AR_STATE_RUN)) then Some (WTC_ERROR_NOT_INITIALIZED, None, ar)
  else
    match find_iocr IOCR_TYPE_OUTPUT ar with
    | None => Some (WTC_ERROR_NOT_FOUND, None, ar)
    | Some (i, cr) =>
        if output_period_us cr <=? u64_sub now_us (cr_last_frame_time_us cr)
        then
          match send_cyclic_frame sent m ar with
          | None => None
          | Some (rc, frame, ar) =>
              Some (rc, frame, if bool_decide (rc = WTC_OK)
                then upd_iocr i (fun cr => cr <| cr_last_frame_time_us := now_us |>) ar else ar)
          end
        else Some (WTC_OK, None, ar)
    end.

(** [ar_handle_rt_frame] *)
Definition takes_frame (frame_id : Z) (cr : iocr) : Prop :=
  cr_frame_id cr = frame_id /\ cr_type cr = IOCR_TYPE_INPUT.
#[export] Instance takes_frame_dec fid cr : Decision (takes_frame fid cr).
Proof. unfold takes_frame. apply _. Defined.

Definition rt_header_offset (frame : list Z) : Z :=
  if of_be 0 (sub 12 2 frame) =? PROFINET_ETHERTYPE_VLAN then ETH_HEADER_LEN + 4 else ETH_HEADER_LEN.

Definition store_csdu (now_us : Z) (frame : list Z) (off : Z) (cr : iocr) : option iocr :=
  match cr_data_buffer cr with
  | Some b =>
      if off + cr_data_length cr <=? Z.of_nat (length frame)
      then if cr_data_length cr <=? Z.of_nat (length b)
           then Some (cr <| cr_data_buffer := Some (write_at 0
                              (sub (Z.to_nat off) (Z.to_nat (cr_data_length cr)) frame) b) |>
                         <| cr_last_frame_time_us := now_us |>)
           else None
      else Some cr
  | None => Some cr
  end.

Definition ar_handle_rt_frame (now_ms now_us : Z) (frame : list Z) (m : ar_manager)
    : option (wtc_result * ar_manager) :=
  let len := Z.of_nat (length frame) in
  if len <? ETH_HEADER_LEN + 4 then Some (WTC_ERROR_INVALID_PARAM, m)
  else
    let hdr_offset := rt_header_offset frame in
    if len <? hdr_offset + 4 then Some (WTC_ERROR_INVALID_PARAM, m)
    else
      let frame_id := of_be 0 (sub (Z.to_nat hdr_offset) 2 frame) in
      match ar_manager_get_ar_by_frame_id frame_id m with
      | None => Some (WTC_ERROR_NOT_FOUND, m)
      | Some (i, ar) =>
          match list_find (takes_frame frame_id) (ar_iocr ar) with
          | None => Some (WTC_ERROR_NOT_FOUND, m)
          | Some (j, cr) =>
              cr ← store_csdu now_us frame (hdr_offset + 2) cr;
              Some (WTC_OK, set_ar i ((upd_iocr j (fun _ => cr) ar) <| ar_last_activity_ms := now_ms |>) m)
          end
      end.

(** ** Loops over the table *)

(** The loop body applied to entry [i], which is updated in place. *)
Definition at_ar (f : ar_manager -> profinet_ar -> option (ar_manager * profinet_ar)) (i : nat)
    (m : ar_manager) : option ar_manager :=
  match mg_ars m !! i with
  | None => Some m
  | Some ar => match f m ar with None => None | Some (m, ar) => Some (set_ar i ar m) end
  end.

Fixpoint each_ar (f : nat -> ar_manager -> profinet_ar -> option (ar_manager * profinet_ar))
    (idx : list nat) (m : ar_manager) : option ar_manager :=
  match idx with
  | [] => Some m
  | i :: idx => m ← at_ar (f i) i m; each_ar f idx m
  end.

Definition all_ars (m : ar_manager) : list nat := seq 0 (length (mg_ars m)).

(** ** Watchdog *)

Definition watchdog_expired (now : Z) (ar : profinet_ar) : bool :=
  ar_watchdog_ms ar <? u64_sub now (ar_last_activity_ms ar).

Definition check_health_ar (now : Z) (m : ar_manager) (ar : profinet_ar) : ar_manager * profinet_ar :=
  if negb (bool_decide (ar_st ar = AR_STATE_RUN)) || ar_connecting ar then (m, ar)
  else if watchdog_expired now ar then
    let missed := ar_missed_cycles ar + 1 in
    if WATCHDOG_MISS_THRESHOLD <=? missed
    then (notify_state_change (ar_device_station_name ar) (ar_st ar) AR_STATE_ABORT m,
          ar <| ar_missed_cycles := 0 |> <| ar_last_error := WTC_ERROR_TIMEOUT |>
             <| ar_st := AR_STATE_ABORT |> <| ar_has_discovered_modules := false |>
             <| ar_discovered := [] |> <| ar_slots := [] |>)
    else (m, ar <| ar_missed_cycles := missed |>)
  else (m, if 0 <? ar_missed_cycles ar then ar <| ar_missed_cycles := 0 |> else ar).

Definition ar_manager_check_health (now : Z) (m : ar_manager) : option ar_manager :=
  each_ar (fun _ m ar => Some (check_health_ar now m ar)) (all_ars m) m.

(** ** Discovery and the full connect *)

Definition AR_MAX_DISCOVERED_MODULES : nat := 64.

Definition build_dap_connect_params (m : ar_manager) (ctx : rpc_context) (ar : profinet_ar)
    : connect_request_params :=
  let tp := rpc_strategy_get_timing TIMING_CONSERVATIVE in
  let csdu (i : nat) := match ar_iocr ar !! i with
                        | Some cr => if IOCR_MIN_C_SDU_LENGTH <=? cr_data_length cr
                                     then wrap16 (cr_data_length cr) else IOCR_MIN_C_SDU_LENGTH
                        | None => IOCR_MIN_C_SDU_LENGTH
                        end in
  let cr (t : iocr_type) (i : nat) (frame_id : Z) :=
    mk_iocr_params t (Z.of_nat i + 1) frame_id (csdu i) (tp_send_clock_factor tp)
      (tp_reduction_ratio tp) (tp_watchdog_factor tp) in
  mk_connect_request_params (ar_uuid ar) (ar_session_key ar) (ar_kind ar) AR_PROPERTIES
    (strncpy 63 (mg_controller_station_name m)) (mg_controller_mac m) (mg_controller_uuid m)
    (rc_controller_port ctx) 100 [cr IOCR_TYPE_INPUT 0%nat 0xC001; cr IOCR_TYPE_OUTPUT 1%nat 0xFFFF]
    dap_submodules 200 (tp_rta_timeout_factor tp) (tp_rta_retries tp) (tp_data_hold_factor tp).

Definition ar_send_dap_connect_request (e : net) (m : ar_manager) (ar : profinet_ar) : ar_result :=
  let m := default_ip ar m in
  let '(res, m) := ensure_rpc_initialized e m in
  match mg_rpc m with
  | None => Some (res, m, ar)
  | Some ctx =>
      let ar := ar <| ar_uuid := ne_ar_uuid e |> <| ar_session_key := mg_session_key_counter m |> in
      let m := m <| mg_session_key_counter ::= fun k => wrap16 (k + 1) |> in
      match rpc_connect (ne_send e (ar_device_ip ar)) (ne_activity_uuid e) ctx
              (build_dap_connect_params m ctx ar) with
      | None => None
      | Some (res, r, ctx) =>
          let m := m <| mg_rpc := Some ctx |> in
          if bool_decide (res = WTC_OK) && cs_success r
          then Some (WTC_OK, m, ar <| ar_device_mac := cs_device_mac r |>
                 <| ar_session_key := cs_session_key r |> <| ar_st := AR_STATE_CONNECT_CNF |>
                 <| ar_last_activity_ms := ne_now e |>)
          else Some (WTC_ERROR_CONNECTION_FAILED, m, ar)
      end
  end.

(** [ar_read_real_identification]: the code, the module list and the manager.  The loop copies
    at most [AR_MAX_DISCOVERED_MODULES] modules and the stored count is that of the answer;
    both are the length of [rr_modules], since the parser stores no more than
    [RPC_MAX_DISCOVERED_MODULES], the same 64 ([read_response_within_bounds]). *)
Definition ar_read_real_identification (e : net) (m : ar_manager) (ar : profinet_ar)
    : option (wtc_result * list ar_module * ar_manager) :=
  match mg_rpc m with
  | None => Some (WTC_ERROR_NOT_INITIALIZED, [], m)
  | Some ctx =>
      match rpc_read_record (ne_send e (ar_device_ip ar)) ctx
              (mk_read_request_params (ar_uuid ar) (ar_session_key ar) 0 0 0 0xF000 RPC_MAX_PDU_SIZE) with
      | None => None
      | Some (res, r, ctx) =>
          let m := m <| mg_rpc := Some ctx |> in
          if negb (bool_decide (res = WTC_OK)) then Some (res, [], m)
          else if negb (rr_success r) then Some (WTC_ERROR_PROTOCOL, [], m)
          else Some (WTC_OK, take AR_MAX_DISCOVERED_MODULES (rr_modules r), m)
      end
  end.

Definition is_input_module (ident : Z) : bool := (GSDML_MOD_PH <=? ident) && (ident <=? GSDML_MOD_GENERIC_AI).
Definition get_module_data_size (ident : Z) : Z :=
  if is_input_module ident then GSDML_INPUT_DATA_SIZE else GSDML_OUTPUT_DATA_SIZE.

(** The four [uint16_t] counters of [ar_build_full_connect_params]. *)
Record io_totals := mk_io_totals {
  it_input_data : Z; it_input_count : Z; it_output_data : Z; it_output_count : Z }.

Definition count_module (t : io_totals) (md : ar_module) : io_totals :=
  if md_slot md =? 0 then t
  else
    let size := get_module_data_size (md_module_ident md) in
    if is_input_module (md_module_ident md)
    then mk_io_totals (wrap16 (it_input_data t + size)) (wrap16 (it_input_count t + 1))
           (it_output_data t) (it_output_count t)
    else mk_io_totals (it_input_data t) (it_input_count t)
           (wrap16 (it_output_data t + size)) (wrap16 (it_output_count t + 1)).

Definition count_modules (mods : list ar_module) : io_totals :=
  foldl count_module (mk_io_totals 0 0 0 0) mods.

(** One IOCR with its new layout and buffer; [ok]: the allocation succeeds. *)
Definition resize_iocr (ok : bool) (data iodata iocs : Z) (cr : iocr) : iocr :=
  let frame := wrap16 (data + iodata + iocs) in
  let csdu := if IOCR_MIN_C_SDU_LENGTH <? frame then frame else IOCR_MIN_C_SDU_LENGTH in
  cr <| cr_data_length := csdu |> <| cr_user_data_length := data |> <| cr_iodata_count := iodata |>
     <| cr_iocs_count := iocs |> <| cr_data_buffer := calloc_bytes ok csdu |>.

Definition measurement_of_ident (ident : Z) : measurement_type :=
  if ident =? GSDML_MOD_PH then MEASUREMENT_PH
  else if ident =? GSDML_MOD_TDS then MEASUREMENT_TDS
  else if ident =? GSDML_MOD_TURBIDITY then MEASUREMENT_TURBIDITY
  else if ident =? GSDML_MOD_TEMPERATURE then MEASUREMENT_TEMPERATURE
  else if ident =? GSDML_MOD_FLOW then MEASUREMENT_FLOW_RATE
  else if ident =? GSDML_MOD_LEVEL then MEASUREMENT_LEVEL else MEASUREMENT_CUSTOM.

Definition actuator_of_ident (ident : Z) : actuator_type :=
  if ident =? GSDML_MOD_PUMP then ACTUATOR_PUMP
  else if ident =? GSDML_MOD_VALVE then ACTUATOR_VALVE else ACTUATOR_RELAY.

(** The slot entry of a module.  The type field that does not apply is left as it was by the
    code and never read; it gets a fixed value here. *)
Definition slot_info_of_module (md : ar_module) : ar_slot_info :=
  let ident := md_module_ident md in
  mk_ar_slot_info (md_slot md) (md_subslot md)
    (if is_input_module ident then SLOT_TYPE_SENSOR else SLOT_TYPE_ACTUATOR)
    (if is_input_module ident then measurement_of_ident ident else MEASUREMENT_CUSTOM)
    (if is_input_module ident then ACTUATOR_RELAY else actuator_of_ident ident).

Definition store_modules (mods : list ar_module) (ar : profinet_ar) : profinet_ar :=
  ar <| ar_discovered := take WTC_MAX_SLOTS mods |>
     <| ar_slots := slot_info_of_module <$> take WTC_MAX_SLOTS (app_modules mods) |>.

Definition ar_build_full_connect_params (ok : nat -> bool) (mods : list ar_module) (ar : profinet_ar)
    : wtc_result * profinet_ar :=
  let t := count_modules mods in
  match ar_iocr ar with
  | c0 :: c1 :: rest =>
      let in_iodata := wrap16 (DAP_SUBMODULE_COUNT + it_input_count t) in
      let c0 := resize_iocr (ok 0%nat) (it_input_data t) in_iodata (it_output_count t) c0 in
      if negb (ok 0%nat) then (WTC_ERROR_NO_MEMORY, ar <| ar_iocr := c0 :: c1 :: rest |>)
      else
        let c1 := resize_iocr (ok 1%nat) (it_output_data t) (it_output_count t) in_iodata c1 in
        let ar := ar <| ar_iocr := c0 :: c1 :: rest |> in
        if negb (ok 1%nat) then (WTC_ERROR_NO_MEMORY, ar)
        else (WTC_OK, store_modules mods ar)
  | _ => (WTC_OK, store_modules mods ar)
  end.

(** The module list of the discovery pipeline: HTTP, then the GSDML cache, then none. *)
Definition usable (r : wtc_result * list ar_module) : bool :=
  bool_decide (r.1 = WTC_OK) && (0 <? length r.2)%nat.

Definition discover (e : net) (ar : profinet_ar) : list ar_module :=
  let http := ne_http e (ar_device_ip ar) in
  if usable http then http.2
  else if ne_cache_exists e (ar_device_station_name ar) then
    let cache := ne_cache_load e (ar_device_station_name ar) in
    if usable cache then cache.2 else []
  else [].

Definition ar_connect_with_discovery (e : net) (m : ar_manager) (ar : profinet_ar) : ar_result :=
  let '(res, ar) := ar_build_full_connect_params (ne_alloc e) (discover e ar) ar in
  if negb (bool_decide (res = WTC_OK)) then Some (res, m, ar)
  else ar_send_connect_request e m
         (ar <| ar_has_discovered_modules := true |> <| ar_st := AR_STATE_INIT |>).

(** ** The periodic state machine *)

(** ApplicationReady from a device; [respond]: what sending the answer returns. *)
Definition awaits (q : incoming_control_request) (ar : profinet_ar) : Prop :=
  ar_session_key ar = iq_session_key q /\ ar_uuid ar = iq_ar_uuid q.
#[export] Instance awaits_dec q ar : Decision (awaits q ar).
Proof. unfold awaits. apply _. Defined.

Definition handle_app_ready (now : Z) (respond : list Z -> wtc_result) (q : incoming_control_request)
    (m : ar_manager) : ar_manager :=
  match list_find (awaits q) (mg_ars m) with
  | None => m
  | Some (i, ar) =>
      if negb (bool_decide (ar_st ar = AR_STATE_READY)) then m
      else match rpc_build_control_response q RPC_MAX_PDU_SIZE with
           | inl _ => m
           | inr pdu =>
               if bool_decide (respond pdu = WTC_OK)
               then notify_state_change (ar_device_station_name ar) (ar_st ar) AR_STATE_RUN
                      (set_ar i (ar <| ar_st := AR_STATE_RUN |> <| ar_last_activity_ms := now |>) m)
               else m
           end
  end.

(** The poll of the RPC socket; [poll] is its result and the datagram. *)
Definition process_incoming (now : Z) (poll : wtc_result * list Z) (respond : list Z -> wtc_result)
    (m : ar_manager) : option ar_manager :=
  match mg_rpc m with
  | None => Some m
  | Some _ =>
      if negb (bool_decide (poll.1 = WTC_OK)) || (length poll.2 =? 0)%nat then Some m
      else match rpc_parse_incoming_control_request poll.2 with
           | None => None
           | Some (inl _) => Some m
           | Some (inr q) =>
               if iq_control_command q =? CONTROL_CMD_APP_READY
               then Some (handle_app_ready now respond q m) else Some m
           end
  end.

Definition permanent_error (err : wtc_result) : bool :=
  bool_decide (err = WTC_ERROR_PROTOCOL) || bool_decide (err = WTC_ERROR_PERMISSION).

Definition backoff_base (retry_count : Z) : Z :=
  let base := wrap32 (Z.shiftl 5000 (if 3 <? retry_count then 3 else retry_count)) in
  if 30000 <? base then 30000 else base.

Definition backoff_ms (now retry_count : Z) : Z :=
  let base := backoff_base retry_count in
  let jitter := base / 4 in
  wrap32 (base - jitter + wrap32 (now mod (2 * jitter + 1))).

(** The release sent before a retry. *)
Definition release_stale (e : net) (m : ar_manager) (ar : profinet_ar) : option ar_manager :=
  match mg_rpc m with
  | Some ctx =>
      if ar_device_ip ar =? 0 then Some m
      else match rpc_release (ne_send e (ar_device_ip ar)) ctx (ar_uuid ar) (ar_session_key ar) with
           | None => None
           | Some (_, _, ctx) => Some (m <| mg_rpc := Some ctx |>)
           end
  | None => Some m
  end.

(** The retry: with the modules known, rebuild and connect; otherwise discover first.  More
    modules than the local list holds are written behind it. *)
Definition reconnect (e : net) (m : ar_manager) (ar : profinet_ar) : ar_result :=
  if ar_has_discovered_modules ar && (0 <? length (ar_discovered ar))%nat then
    if (AR_MAX_DISCOVERED_MODULES <? length (ar_discovered ar))%nat then None
    else
      let '(_, ar) := ar_build_full_connect_params (ne_alloc e) (ar_discovered ar) ar in
      ar_send_connect_request e m ar
  else
    match ar_connect_with_discovery e m (ar <| ar_connecting := true |>) with
    | None => None
    | Some (res, m, ar) => Some (res, m, ar <| ar_connecting := false |>)
    end.

Definition recover_ar (now : Z) (e : net) (m : ar_manager) (ar : profinet_ar)
    : option (ar_manager * profinet_ar) :=
  let name := ar_device_station_name ar in
  if permanent_error (ar_last_error ar) || (AR_MAX_RETRY_ATTEMPTS <=? ar_retry_count ar)
  then Some (notify_state_change name (ar_st ar) AR_STATE_CLOSE m, ar <| ar_st := AR_STATE_CLOSE |>)
  else if wrap32 (u64_sub now (ar_last_activity_ms ar)) <? backoff_ms now (ar_retry_count ar)
  then Some (m, ar)
  else
    match release_stale e m ar with
    | None => None
    | Some m =>
        match reconnect e m (ar <| ar_retry_count ::= Z.succ |>) with
        | None => None
        | Some (_, m, ar') =>
            if bool_decide (ar_st ar' = ar_st ar)
            then Some (m, ar' <| ar_last_activity_ms := now |>)
            else Some (notify_state_change name (ar_st ar) (ar_st ar') m, ar')
        end
    end.

Definition timeout_ar (now limit : Z) (ar : profinet_ar) : profinet_ar :=
  if limit <? u64_sub now (ar_last_activity_ms ar)
  then ar <| ar_st := AR_STATE_ABORT |> <| ar_last_activity_ms := now |> else ar.

Definition process_ar (now : Z) (e : net) (m : ar_manager) (ar : profinet_ar)
    : option (ar_manager * profinet_ar) :=
  if ar_connecting ar then Some (m, ar)
  else
    match ar_st ar with
    | AR_STATE_INIT | AR_STATE_RUN | AR_STATE_CLOSE => Some (m, ar)
    | AR_STATE_CONNECT_REQ => Some (m, timeout_ar now AR_CONNECT_TIMEOUT_MS ar)
    | AR_STATE_CONNECT_CNF =>
        Some (m, ar <| ar_st := AR_STATE_PRMSRV |> <| ar_last_activity_ms := now |>)
    | AR_STATE_PRMSRV =>
        match ar_send_parameter_end e m ar with None => None | Some (_, m, ar) => Some (m, ar) end
    | AR_STATE_READY => Some (m, timeout_ar now AR_APP_READY_TIMEOUT_MS ar)
    | AR_STATE_ABORT => recover_ar now e m ar
    end.

(** [ar_manager_process] at [now]; [nets i] is the environment of the [i]-th AR. *)
Definition ar_manager_process (now : Z) (poll : wtc_result * list Z) (respond : list Z -> wtc_result)
    (nets : nat -> net) (m : ar_manager) : option ar_manager :=
  match process_incoming now poll respond m with
  | None => None
  | Some m => each_ar (fun i => process_ar now (nets i)) (all_ars m) m
  end.
