(* ===== verification/ArProtocol.v ===== *)
(** * The application relationships stay in order: theorems about ArManager.v

    The invariant of the AR table, the connection protocol that the periodic processing
    follows, the end of every recovery, the cyclic frames and the watchdog. *)

From S2P Require Import Prelude Types Wire Frame Cyclic Rpc ArManager.

(** ** The invariant *)

(** The largest C-SDU that leaves room for the headers and trailers of a frame. *)
Definition MAX_CSDU : Z := 1494.

Record cr_ok (t : iocr_type) (cr : iocr) : Prop := mk_cr_ok {
  co_type : cr_type cr = t;
  co_layout : iocr_ok cr;
  co_user : is_u16 (cr_user_data_length cr + cr_iodata_count cr);
  co_size : cr_data_length cr <= MAX_CSDU }.

(** One input and one output IOCR with their buffers, and the counters in range. *)
Record ar_ok (ar : profinet_ar) : Prop := mk_ar_ok {
  ao_iocr : exists c0 c1, ar_iocr ar = [c0; c1] /\ cr_ok IOCR_TYPE_INPUT c0 /\ cr_ok IOCR_TYPE_OUTPUT c1;
  ao_uuid : is_uuid (ar_uuid ar);
  ao_mac : length (ar_device_mac ar) = 6%nat;
  ao_slots : (length (ar_slots ar) <= WTC_MAX_SLOTS)%nat;
  ao_discovered : (length (ar_discovered ar) <= WTC_MAX_SLOTS)%nat;
  ao_retry : 0 <= ar_retry_count ar;
  ao_missed : 0 <= ar_missed_cycles ar < WATCHDOG_MISS_THRESHOLD }.

Record manager_ok (m : ar_manager) : Prop := mk_manager_ok {
  mo_count : (length (mg_ars m) <= MAX_ARS)%nat;
  mo_names : NoDup (ar_device_station_name <$> mg_ars m);
  mo_ars : Forall ar_ok (mg_ars m);
  mo_mac : length (mg_controller_mac m) = 6%nat;
  mo_uuid : is_uuid (mg_controller_uuid m) }.

(** The fixed part of the manager, which no operation on an AR touches. *)
Definition same_frame (m m' : ar_manager) : Prop :=
  mg_ars m' = mg_ars m /\ mg_controller_mac m' = mg_controller_mac m /\
  mg_controller_uuid m' = mg_controller_uuid m.

(** What the surroundings provide: 16-byte UUIDs, module lists that fit their array, and an
    error code when the RPC context cannot be set up. *)
Record net_ok (e : net) : Prop := mk_net_ok {
  no_uuid : is_uuid (ne_ar_uuid e);
  no_init : forall ip, ne_rpc_init e ip <> inl WTC_OK;
  no_http : forall ip, (length (ne_http e ip).2 <= AR_MAX_DISCOVERED_MODULES)%nat;
  no_cache : forall name, (length (ne_cache_load e name).2 <= AR_MAX_DISCOVERED_MODULES)%nat }.

Record config_ok (cfg : ar_config) : Prop := mk_config_ok {
  cfo_name : (String.length (cf_station_name cfg) <= 63)%nat;
  cfo_mac : length (cf_device_mac cfg) = 6%nat;
  cfo_slots : (length (cf_slots cfg) <= WTC_MAX_SLOTS)%nat }.

#[export] Instance same_frame_refl : Reflexive same_frame.
Proof. by intros m. Qed.
#[export] Instance same_frame_trans : Transitive same_frame.
Proof. intros m1 m2 m3 (H1&H2&H3) (H4&H5&H6). repeat split; congruence. Qed.

Lemma notify_same_frame name s s' m : same_frame m (notify_state_change name s s' m).
Proof. unfold notify_state_change. by case_match. Qed.
Lemma default_ip_same_frame ar m : same_frame m (default_ip ar m).
Proof. unfold default_ip. by case_match. Qed.
Lemma ensure_rpc_same_frame e m : same_frame m (ensure_rpc_initialized e m).2.
Proof. unfold ensure_rpc_initialized. repeat case_match; done. Qed.
Lemma rpc_same_frame ctx m : same_frame m (m <| mg_rpc := ctx |>).
Proof. done. Qed.
Lemma key_same_frame f m : same_frame m (m <| mg_session_key_counter ::= f |>).
Proof. done. Qed.
#[export] Hint Resolve notify_same_frame default_ip_same_frame ensure_rpc_same_frame
  rpc_same_frame key_same_frame : wtc.

(** ** Layouts *)

Lemma calloc_ok ok n b : 0 <= n -> calloc_bytes ok n = Some b -> Z.of_nat (length b) = n /\ is_bytes b.
Proof.
  intros Hn. unfold calloc_bytes. destruct ok; [|done]. intros [= <-]. rewrite length_replicate.
  split; [lia|]. apply Forall_replicate. unfold is_u8. lia.
Qed.

Definition input_modules (mods : list ar_module) : list ar_module :=
  filter (fun md => is_input_module (md_module_ident md) = true) (app_modules mods).
Definition output_modules (mods : list ar_module) : list ar_module :=
  filter (fun md => is_input_module (md_module_ident md) = false) (app_modules mods).

Lemma input_output_modules mods :
  (length (input_modules mods) + length (output_modules mods) <= length mods)%nat.
Proof.
  induction mods as [|md mods IH]; [done|]. unfold input_modules, output_modules, app_modules in *.
  rewrite filter_cons. case_decide; [|cbn; lia]. rewrite !filter_cons.
  destruct (is_input_module _); rewrite ?(decide_True (P := true = true)), ?(decide_False (P := true = false)),
    ?(decide_True (P := false = false)), ?(decide_False (P := false = true)) by done; cbn [length]; lia.
Qed.

Definition totals (a b : Z) : io_totals := mk_io_totals (5 * a) a (4 * b) b.

Lemma count_modules_from a b mods : 0 <= a -> 0 <= b ->
  a + b + Z.of_nat (length mods) <= 1000 ->
  foldl count_module (totals a b) mods =
    totals (a + Z.of_nat (length (input_modules mods))) (b + Z.of_nat (length (output_modules mods))).
Proof.
  revert a b. induction mods as [|md mods IH]; intros a b Ha Hb Hn; [cbn; f_equal; lia|].
  cbn [length] in Hn. unfold input_modules, output_modules, app_modules in *.
  cbn [foldl]. rewrite filter_cons. unfold count_module at 2.
  destruct (Z.eqb_spec (md_slot md) 0) as [E|E].
  { rewrite decide_False by lia. rewrite <- IH by lia. done. }
  rewrite decide_True by done. rewrite !filter_cons. unfold get_module_data_size.
  destruct (is_input_module (md_module_ident md)); cbn [totals it_input_data it_input_count it_output_data it_output_count].
  - rewrite decide_True, decide_False by done. cbn [length].
    rewrite Nat2Z.inj_succ, <- Z.add_succ_comm, <- IH by lia. f_equal.
    unfold totals, wrap16, GSDML_INPUT_DATA_SIZE. rewrite !Z.mod_small by lia. f_equal; lia.
  - rewrite decide_False, decide_True by done. cbn [length].
    rewrite Nat2Z.inj_succ, <- (Z.add_succ_comm b), <- IH by lia. f_equal.
    unfold totals, wrap16, GSDML_OUTPUT_DATA_SIZE. rewrite !Z.mod_small by lia. f_equal; lia.
Qed.

(** The counters of the discovered modules are exact. *)
Lemma count_modules_exact mods : (length mods <= WTC_MAX_SLOTS)%nat ->
  count_modules mods = totals (Z.of_nat (length (input_modules mods)))
                              (Z.of_nat (length (output_modules mods))).
Proof.
  intros H. unfold count_modules. replace (mk_io_totals 0 0 0 0) with (totals 0 0) by done.
  unfold WTC_MAX_SLOTS in H. rewrite count_modules_from by lia. f_equal; lia.
Qed.

Lemma resize_cr_ok ok data iodata iocs t cr :
  cr_type cr = t -> 0 <= data -> 0 <= iodata -> 0 <= iocs -> data + iodata + iocs <= MAX_CSDU ->
  cr_ok t (resize_iocr ok data iodata iocs cr).
Proof.
  intros Ht Hd Hi Hc Hs. unfold MAX_CSDU in *. unfold resize_iocr, wrap16.
  rewrite Z.mod_small by lia. cbv zeta. set (n := if _ <? _ then _ else _).
  assert (data + iodata + iocs <= n <= 1494) as Hn.
  { unfold n, IOCR_MIN_C_SDU_LENGTH. destruct (Z.ltb_spec 40 (data + iodata + iocs)); lia. }
  clearbody n. split; cbn; [done| |unfold is_u16; lia|unfold MAX_CSDU; lia].
  split; cbn; try lia. intros b. apply calloc_ok. lia.
Qed.

Lemma take_le {A} n (l : list A) : (length (take n l) <= n)%nat.
Proof. rewrite length_take. lia. Qed.

Lemma store_modules_ok mods ar : ar_ok ar -> ar_ok (store_modules mods ar).
Proof.
  intros [? ? ? ? ? ? ?]. split; try done; unfold store_modules.
  - change (length (slot_info_of_module <$> take WTC_MAX_SLOTS (app_modules mods)) <= WTC_MAX_SLOTS)%nat.
    rewrite length_fmap. apply take_le.
  - change (length (take WTC_MAX_SLOTS mods) <= WTC_MAX_SLOTS)%nat. apply take_le.
Qed.

Lemma set_iocr_ok c0 c1 ar : cr_ok IOCR_TYPE_INPUT c0 -> cr_ok IOCR_TYPE_OUTPUT c1 -> ar_ok ar ->
  ar_ok (ar <| ar_iocr := [c0; c1] |>).
Proof. intros H0 H1 [? ? ? ? ? ? ?]. split; try done. by exists c0, c1. Qed.

Lemma build_params_ok ok mods ar : (length mods <= AR_MAX_DISCOVERED_MODULES)%nat -> ar_ok ar ->
  ar_ok (ar_build_full_connect_params ok mods ar).2.
Proof.
  intros Hm Har. destruct (ao_iocr _ Har) as (c0 & c1 & E & H0 & H1). unfold ar_build_full_connect_params. rewrite E.
  pose proof (input_output_modules mods) as Hle. unfold AR_MAX_DISCOVERED_MODULES in *.
  rewrite count_modules_exact by (unfold WTC_MAX_SLOTS; lia).
  cbn [totals it_input_data it_input_count it_output_data it_output_count].
  set (a := length (input_modules mods)) in *. set (b := length (output_modules mods)) in *.
  unfold DAP_SUBMODULE_COUNT, wrap16. rewrite !Z.mod_small by lia. cbv zeta.
  assert (cr_ok IOCR_TYPE_INPUT (resize_iocr (ok 0%nat) (5 * Z.of_nat a) (3 + Z.of_nat a) (Z.of_nat b) c0)) as R0
    by (apply resize_cr_ok; [apply H0|..]; unfold MAX_CSDU; lia).
  assert (cr_ok IOCR_TYPE_OUTPUT (resize_iocr (ok 1%nat) (4 * Z.of_nat b) (Z.of_nat b) (3 + Z.of_nat a) c1)) as R1
    by (apply resize_cr_ok; [apply H1|..]; unfold MAX_CSDU; lia).
  destruct (ok 0%nat); cbn [negb snd]; [destruct (ok 1%nat); cbn [negb snd]|];
    auto using store_modules_ok, set_iocr_ok.
Qed.

(** ** The operations on one AR keep it in order *)

(** The new AR is in order, has the old name, and the fixed part of the manager is unchanged. *)
Definition keeps (m : ar_manager) (ar : profinet_ar) (m' : ar_manager) (ar' : profinet_ar) : Prop :=
  same_frame m m' /\ ar_device_station_name ar' = ar_device_station_name ar /\
  (ar_ok ar -> ar_ok ar').

Lemma keeps_refl m ar : keeps m ar m ar.
Proof. split; [done|]. by split. Qed.
Lemma keeps_trans m ar m1 ar1 m2 ar2 :
  keeps m ar m1 ar1 -> keeps m1 ar1 m2 ar2 -> keeps m ar m2 ar2.
Proof. intros (F1 & N1 & O1) (F2 & N2 & O2). split; [by etrans|]. split; [congruence|auto]. Qed.

Lemma keeps_manager m ar m' : same_frame m m' -> keeps m ar m' ar.
Proof. by split. Qed.

(** An AR whose table, buffers and counters are as before. *)
Lemma keeps_fields m ar ar' :
  ar_device_station_name ar' = ar_device_station_name ar -> ar_iocr ar' = ar_iocr ar ->
  ar_uuid ar' = ar_uuid ar -> ar_device_mac ar' = ar_device_mac ar -> ar_slots ar' = ar_slots ar ->
  ar_discovered ar' = ar_discovered ar -> 
  (0 <= ar_retry_count ar -> 0 <= ar_retry_count ar') ->
  (0 <= ar_missed_cycles ar < WATCHDOG_MISS_THRESHOLD ->
   0 <= ar_missed_cycles ar' < WATCHDOG_MISS_THRESHOLD) ->
  keeps m ar m ar'.
Proof.
  intros E1 E2 E3 E4 E5 E6 H1 H2. split; [done|]. split; [done|]. intros [? ? ? ? ? ? ?].
  split; rewrite ?E2, ?E3, ?E4, ?E5, ?E6; auto.
Qed.

Ltac keeps_fields := apply keeps_fields; cbn; auto; unfold WATCHDOG_MISS_THRESHOLD; lia.

Lemma assign_frame_ids_ok ids c0 c1 :
  cr_ok IOCR_TYPE_INPUT c0 -> cr_ok IOCR_TYPE_OUTPUT c1 ->
  exists c0' c1', assign_frame_ids ids [c0; c1] = [c0'; c1'] /\
    cr_ok IOCR_TYPE_INPUT c0' /\ cr_ok IOCR_TYPE_OUTPUT c1'.
Proof.
  assert (forall t cr id, cr_ok t cr -> cr_ok t (cr <| cr_frame_id := id |>)) as Hset.
  { intros t cr id [? [? ? ? ? ?] ? ?]. by split; [|split|..]. }
  intros H0 H1. destruct ids as [|[r0 a0] [|[r1 a1] [|[r2 a2] ids]]]; do 2 eexists;
    (split; [reflexivity|]); auto.
Qed.

(** A connect response carries a six-byte address. *)
Lemma ensures_fetch n : ensures (fetch n) (fun bs => length bs = n).
Proof.
  intros c a c'. unfold fetch. destruct (_ && _) eqn:E; [|done]. intros [= <- _].
  apply andb_prop in E as [E1 E2]. rewrite length_take, length_drop. lia.
Qed.

Lemma response_block_mac type block_end r : length (cs_device_mac r) = 6%nat ->
  ensures (response_block type block_end r) (fun r => length (cs_device_mac r) = 6%nat).
Proof.
  intros Hr. unfold response_block.
  destruct (_ =? _).
  { do 3 (apply ensures_any; intros ?). eapply ensures_bind; [apply ensures_fetch|]. intros mac Hmac.
    apply ensures_any. intros ?. by apply ensures_ret. }
  destruct (_ =? _); [destruct (_ <? _)%nat; [do 3 (apply ensures_any; intros ?)|]; by apply ensures_ret|].
  destruct (_ =? _); [do 2 (apply ensures_any; intros ?); by apply ensures_ret|].
  destruct (_ =? _); [do 2 (apply ensures_any; intros ?)|]; by apply ensures_ret.
Qed.

Lemma response_blocks_mac fuel r : length (cs_device_mac r) = 6%nat ->
  ensures (response_blocks fuel r) (fun r => length (cs_device_mac r) = 6%nat).
Proof.
  revert r. induction fuel as [|fuel IH]; intros r Hr; cbn [response_blocks]; [by apply ensures_ret|].
  intros c a c'. destruct (_ <=? _); [|by intros [= <- <-]].
  generalize (cu_limit c) as limit. intros limit. revert c a c'.
  do 4 (refine (ensures_any _ _ _ _); intros ?). cbv zeta.
  destruct (_ || _); [by apply ensures_ret|].
  eapply ensures_bind; [by apply response_block_mac|]. intros r' Hr'. apply ensures_any. auto.
Qed.

Lemma parse_response_mac buf res r : rpc_parse_connect_response buf = Some (res, r) ->
  length (cs_device_mac r) = 6%nat.
Proof.
  unfold rpc_parse_connect_response. destruct (_ <? _)%nat; [by intros [= _ <-]|]. cbv zeta.
  destruct (_ =? _); [by intros [= _ <-]|]. destruct (negb _); [by intros [= _ <-]|].
  match goal with |- match ?f (after_header buf) with _ => _ end = _ -> _ =>
    assert (ensures f (fun v => forall r, v = inr r -> length (cs_device_mac r) = 6%nat)) as Hf end.
  { pose proof (response_blocks_mac (length buf) zero_response eq_refl) as Hb.
    assert (ensures (r <-- response_blocks (length buf) zero_response;; wret (inr r))
              (fun v : Z + connect_response => forall r, v = inr r -> length (cs_device_mac r) = 6%nat)) as Hr.
    { eapply ensures_bind; [apply Hb|]. intros r1 Hr1. apply ensures_ret. by intros ? [= <-]. }
    destruct (response_has_ndr_header buf 80); [|done].
    apply ensures_any. intros [status count]. destruct (negb _); [by apply ensures_ret|].
    destruct (count =? 0); [by intros ? ? ?|done]. }
  destruct (_ (after_header buf)) as [[code|r1] c'|e c'|] eqn:E; intros [= _ <-]; try done.
  by eapply Hf.
Qed.

Lemma rpc_connect_mac send uuid ctx p res r ctx' :
  rpc_connect send uuid ctx p = Some (res, r, ctx') -> length (cs_device_mac r) = 6%nat.
Proof.
  unfold rpc_connect. destruct (rpc_build_connect_request _ _ _ _); [|by intros [= _ <- _]|done].
  destruct (rpc_send_and_receive _ _ _); [by intros [= _ <- _]|].
  destruct (rpc_parse_connect_response _) as [[e r']|] eqn:E; [|done].
  intros [= <- <- <-]. by eapply parse_response_mac.
Qed.

Lemma connect_accepted_keeps m now r ar : length (cs_device_mac r) = 6%nat ->
  keeps m ar m (connect_accepted now r ar).2.
Proof.
  intros Hr. split; [done|]. split; [unfold connect_accepted; by case_match|].
  intros [(c0 & c1 & E & H0 & H1) ? ? ? ? ? ?].
  destruct (assign_frame_ids_ok (cs_frame_ids r) c0 c1 H0 H1) as (c0' & c1' & E' & ?).
  unfold connect_accepted. cbv zeta.
  case_match; split; cbn -[WTC_MAX_SLOTS take]; rewrite ?E, ?E'; eauto using take_le.
  all: unfold WATCHDOG_MISS_THRESHOLD; lia.
Qed.

Lemma new_uuid_keeps e m m' ar ar' : net_ok e -> same_frame m m' -> ar_uuid ar' = ne_ar_uuid e ->
  ar_device_station_name ar' = ar_device_station_name ar -> ar_iocr ar' = ar_iocr ar ->
  ar_device_mac ar' = ar_device_mac ar -> ar_slots ar' = ar_slots ar ->
  ar_discovered ar' = ar_discovered ar -> ar_retry_count ar' = ar_retry_count ar ->
  ar_missed_cycles ar' = ar_missed_cycles ar -> keeps m ar m' ar'.
Proof.
  intros He Hf E1 E2 E3 E4 E5 E6 E7 E8. split; [done|]. split; [done|]. intros [? ? ? ? ? ? ?].
  split; rewrite ?E1, ?E3, ?E4, ?E5, ?E6, ?E7, ?E8; auto. apply He.
Qed.

Lemma send_connect_keeps e m ar res m' ar' : net_ok e ->
  ar_send_connect_request e m ar = Some (res, m', ar') -> keeps m ar m' ar'.
Proof.
  intros He. unfold ar_send_connect_request.
  pose proof (default_ip_same_frame ar m) as H1.
  pose proof (ensure_rpc_same_frame e (default_ip ar m)) as H2.
  destruct (ensure_rpc_initialized e (default_ip ar m)) as [res1 m1]. cbn in H2.
  assert (same_frame m m1) as H3 by by etrans. clear H1 H2.
  destruct (mg_rpc m1) as [ctx|]; cbv zeta.
  2: { intros [= <- <- <-]. eapply keeps_trans; [by apply keeps_manager|keeps_fields]. }
  destruct (rpc_connect _ _ _ _) as [[[res2 r] ctx']|] eqn:E; [|done]. apply rpc_connect_mac in E.
  destruct (bool_decide (res2 = WTC_OK) && cs_success r).
  - set (ar1 := ar <| ar_st := _ |> <| ar_uuid := _ |> <| ar_session_key := _ |>).
    pose proof (connect_accepted_keeps m1 (ne_now e) r ar1 E) as H4.
    destruct (connect_accepted (ne_now e) r ar1) as [res3 ar3]. intros [= <- <- <-].
    eapply keeps_trans; [by apply (new_uuid_keeps e m m1 ar ar1)|].
    eapply keeps_trans; [apply H4|]. by apply keeps_manager.
  - intros [= <- <- <-]. by apply (new_uuid_keeps e).
Qed.

Lemma parameter_end_keeps e m ar res m' ar' :
  ar_send_parameter_end e m ar = Some (res, m', ar') -> keeps m ar m' ar'.
Proof.
  unfold ar_send_parameter_end. destruct (mg_rpc m) as [ctx|].
  2: { intros [= <- <- <-]. apply keeps_refl. }
  destruct (rpc_parameter_end _ _ _ _) as [[[res1 v] ctx']|]; [|done]. intros [= <- <- <-].
  eapply keeps_trans; [by apply (keeps_manager m ar (m <| mg_rpc := Some ctx' |>))|keeps_fields].
Qed.

Lemma application_ready_keeps e m ar res m' ar' :
  ar_send_application_ready e m ar = Some (res, m', ar') -> keeps m ar m' ar'.
Proof.
  unfold ar_send_application_ready. destruct (mg_rpc m) as [ctx|].
  2: { intros [= <- <- <-]. apply keeps_refl. }
  destruct (rpc_application_ready _ _ _ _) as [[[res1 v] ctx']|]; [|done]. cbv zeta.
  case_match; intros [= <- <- <-]; (eapply keeps_trans; [|keeps_fields]); apply keeps_manager; [|done].
  etrans; [apply rpc_same_frame|apply notify_same_frame].
Qed.

Lemma release_keeps e m ar res m' ar' :
  ar_send_release_request e m ar = Some (res, m', ar') -> keeps m ar m' ar'.
Proof.
  unfold ar_send_release_request. cbv zeta. destruct (mg_rpc m) as [ctx|].
  2: { intros [= <- <- <-]. eapply keeps_trans; [apply keeps_manager, notify_same_frame|keeps_fields]. }
  destruct (rpc_release _ _ _ _) as [[[res1 v] ctx']|]; [|done]. intros [= <- <- <-].
  eapply keeps_trans; [|keeps_fields]. apply keeps_manager.
  etrans; [apply rpc_same_frame|apply notify_same_frame].
Qed.

Lemma discover_length e ar : net_ok e -> (length (discover e ar) <= AR_MAX_DISCOVERED_MODULES)%nat.
Proof.
  intros [_ _ H1 H2]. unfold discover. cbv zeta.
  repeat case_match; auto; unfold AR_MAX_DISCOVERED_MODULES; cbn; lia.
Qed.

Lemma build_params_name ok mods ar :
  ar_device_station_name (ar_build_full_connect_params ok mods ar).2 = ar_device_station_name ar.
Proof. unfold ar_build_full_connect_params. cbv zeta. repeat case_match; done. Qed.

Lemma build_params_keeps m ok mods ar : (length mods <= AR_MAX_DISCOVERED_MODULES)%nat ->
  keeps m ar m (ar_build_full_connect_params ok mods ar).2.
Proof. intros H. split; [done|]. split; [apply build_params_name|by apply build_params_ok]. Qed.

Lemma discovery_keeps e m ar res m' ar' : net_ok e ->
  ar_connect_with_discovery e m ar = Some (res, m', ar') -> keeps m ar m' ar'.
Proof.
  intros He. unfold ar_connect_with_discovery.
  pose proof (build_params_keeps m (ne_alloc e) _ ar (discover_length e ar He)) as H1.
  destruct (ar_build_full_connect_params _ _ _) as [res1 ar1]. cbn in H1.
  case_match; [by intros [= <- <- <-]|]. intros E%send_connect_keeps; [|done].
  eapply keeps_trans; [apply H1|]. eapply keeps_trans; [|apply E]. keeps_fields.
Qed.

Lemma reconnect_keeps e m ar res m' ar' : net_ok e ->
  reconnect e m ar = Some (res, m', ar') -> keeps m ar m' ar'.
Proof.
  intros He. unfold reconnect. destruct (_ && _).
  - destruct (Nat.ltb_spec AR_MAX_DISCOVERED_MODULES (length (ar_discovered ar))) as [H|H]; [done|].
    pose proof (build_params_keeps m (ne_alloc e) _ ar H) as H1.
    destruct (ar_build_full_connect_params _ _ _) as [res1 ar1].
    intros E%send_connect_keeps; [|done]. by eapply keeps_trans.
  - destruct (ar_connect_with_discovery _ _ _) as [[[res1 m1] ar1]|] eqn:E; [|done].
    apply discovery_keeps in E; [|done]. intros [= <- <- <-].
    eapply keeps_trans; [|eapply keeps_trans; [apply E|keeps_fields]]. keeps_fields.
Qed.

Lemma release_stale_same_frame e m ar m' : release_stale e m ar = Some m' -> same_frame m m'.
Proof.
  unfold release_stale. repeat case_match; try done; by intros [= <-].
Qed.

Lemma process_ar_keeps now e m ar m' ar' : net_ok e ->
  process_ar now e m ar = Some (m', ar') -> keeps m ar m' ar'.
Proof.
  intros He. unfold process_ar, timeout_ar.
  destruct (ar_connecting ar); [intros [= <- <-]; apply keeps_refl|].
  destruct (ar_st ar) eqn:Est; try (intros [= <- <-]; apply keeps_refl).
  - case_match; intros [= <- <-]; [keeps_fields|apply keeps_refl].
  - intros [= <- <-]. keeps_fields.
  - destruct (ar_send_parameter_end e m ar) as [[[res m1] ar1]|] eqn:E; [|done].
    intros [= <- <-]. by eapply parameter_end_keeps.
  - case_match; intros [= <- <-]; [keeps_fields|apply keeps_refl].
  - unfold recover_ar. rewrite Est. cbv zeta.
    case_match.
    { intros [= <- <-]. eapply keeps_trans; [apply keeps_manager, notify_same_frame|keeps_fields]. }
    case_match; [intros [= <- <-]; apply keeps_refl|].
    destruct (release_stale e m ar) as [m1|] eqn:E1; [|done]. apply release_stale_same_frame in E1.
    destruct (reconnect _ _ _) as [[[res m2] ar2]|] eqn:E2; [|done]. apply reconnect_keeps in E2; [|done].
    assert (keeps m ar m2 ar2) as K.
    { eapply keeps_trans; [apply (keeps_manager _ _ _ E1)|]. eapply keeps_trans; [|apply E2]. keeps_fields. }
    case_match; intros [= <- <-]; (eapply keeps_trans; [apply K|]); [keeps_fields|].
    apply keeps_manager, notify_same_frame.
Qed.

Lemma check_health_keeps now m ar :
  keeps m ar (check_health_ar now m ar).1 (check_health_ar now m ar).2.
Proof.
  unfold check_health_ar. case_match; [apply keeps_refl|].
  case_match; [|case_match; [keeps_fields|apply keeps_refl]].
  cbv zeta. destruct (Z.leb_spec WATCHDOG_MISS_THRESHOLD (ar_missed_cycles ar + 1)); cbn [fst snd].
  - split; [apply notify_same_frame|]. split; [done|]. intros [? ? ? ? ? ? ?].
    split; cbn; auto; unfold WATCHDOG_MISS_THRESHOLD, WTC_MAX_SLOTS; lia.
  - apply keeps_fields; cbn; auto. lia.
Qed.

(** ** From one AR to the table *)

(** [P i] relates the [i]-th AR before and after, for the positions in [idx]; the others are
    untouched. *)
Definition table_step (P : nat -> profinet_ar -> profinet_ar -> Prop) (idx : list nat)
    (m m' : ar_manager) : Prop :=
  length (mg_ars m') = length (mg_ars m) /\ mg_controller_mac m' = mg_controller_mac m /\
  mg_controller_uuid m' = mg_controller_uuid m /\
  forall i ar, mg_ars m !! i = Some ar -> exists ar', mg_ars m' !! i = Some ar' /\
    (i ∈ idx -> P i ar ar') /\ (i ∉ idx -> ar' = ar).

Lemma each_ar_step P f idx m m' : NoDup idx ->
  (forall i m ar m1 ar1, f i m ar = Some (m1, ar1) -> same_frame m m1 /\ P i ar ar1) ->
  each_ar f idx m = Some m' -> table_step P idx m m'.
Proof.
  intros Hnd Hf. revert m. induction Hnd as [|i idx Hi Hnd IH]; intros m; cbn [each_ar].
  { intros [= <-]. repeat split. intros i ar E. exists ar. split; [done|]. by split; [intros ?%not_elem_of_nil|]. }
  unfold at_ar. destruct (mg_ars m !! i) as [ar0|] eqn:Ei.
  2: { cbn. intros (H1 & H2 & H3 & H4)%IH. repeat split; try done. intros j ar E.
       destruct (H4 j ar E) as (ar' & E' & Hin & Hout). exists ar'. split; [done|].
       rewrite !elem_of_cons. split; [|naive_solver]. intros [->|?]; [congruence|auto]. }
  destruct (f i m ar0) as [[m1 ar1]|] eqn:Ef; [|done]. apply Hf in Ef as [(F1 & F2 & F3) HP].
  cbn. intros (H1 & H2 & H3 & H4)%IH. cbn in H1, H2, H3. rewrite length_insert, F1 in H1.
  repeat split; try congruence. intros j ar E. destruct (decide (i = j)) as [<-|Hij].
  - assert (ar = ar0) as -> by congruence.
    destruct (H4 i ar1) as (ar' & E' & _ & Hout).
    { cbn. rewrite F1. apply list_lookup_insert_eq. by eapply lookup_lt_Some. }
    exists ar'. split; [done|]. rewrite (Hout Hi), elem_of_cons. naive_solver.
  - destruct (H4 j ar) as (ar' & E' & Hin & Hout).
    { cbn. by rewrite F1, list_lookup_insert_ne. }
    exists ar'. split; [done|]. rewrite !elem_of_cons. naive_solver.
Qed.

Definition keeps_ar (ar ar' : profinet_ar) : Prop :=
  ar_device_station_name ar' = ar_device_station_name ar /\ (ar_ok ar -> ar_ok ar').

Lemma table_step_ok m m' P idx : (forall i ar ar', P i ar ar' -> keeps_ar ar ar') ->
  table_step P idx m m' -> manager_ok m -> manager_ok m'.
Proof.
  intros HP (H1 & H2 & H3 & H4) [? Hnd Hok ? ?].
  assert (forall i ar, mg_ars m !! i = Some ar ->
    exists ar', mg_ars m' !! i = Some ar' /\ keeps_ar ar ar') as Hk.
  { intros i ar E. destruct (H4 i ar E) as (ar' & E' & Hin & Hout). exists ar'. split; [done|].
    destruct (decide (i ∈ idx)); [by eapply HP, Hin|]. rewrite Hout by done. by split. }
  split; rewrite ?H1, ?H2, ?H3; try done.
  - replace (ar_device_station_name <$> mg_ars m') with (ar_device_station_name <$> mg_ars m); [done|].
    apply list_eq_same_length with (n := length (mg_ars m)); rewrite ?length_fmap; try done.
    intros i x y _. rewrite !list_lookup_fmap. destruct (mg_ars m !! i) as [ar|] eqn:E; [|done].
    destruct (Hk i ar E) as (ar' & -> & Hn & _). cbn. congruence.
  - apply Forall_lookup. intros i ar' E'.
    destruct (mg_ars m !! i) as [ar|] eqn:E.
    + destruct (Hk i ar E) as (ar1 & E1 & _ & Ho). simplify_eq. apply Ho.
      rewrite Forall_lookup in Hok. eauto.
    + apply lookup_ge_None in E. apply lookup_lt_Some in E'. lia.
Qed.

Lemma set_ar_step i ar ar' m : mg_ars m !! i = Some ar -> keeps_ar ar ar' ->
  table_step (fun _ => keeps_ar) [i] m (set_ar i ar' m).
Proof.
  intros E K. repeat split; cbn; [by rewrite length_insert|]. intros j a Ej.
  destruct (decide (i = j)) as [<-|Hij].
  - exists ar'. simplify_eq. split; [apply list_lookup_insert_eq; by eapply lookup_lt_Some|].
    rewrite list_elem_of_singleton. naive_solver.
  - exists a. rewrite list_lookup_insert_ne by done. rewrite list_elem_of_singleton. naive_solver.
Qed.

Lemma set_ar_ok i ar ar' m : mg_ars m !! i = Some ar -> keeps_ar ar ar' -> manager_ok m ->
  manager_ok (set_ar i ar' m).
Proof. intros E K. eapply table_step_ok; [|by eapply set_ar_step]. done. Qed.

Lemma same_frame_ok m m' : same_frame m m' -> manager_ok m -> manager_ok m'.
Proof. intros (E1 & E2 & E3) [? ? ? ? ?]. split; rewrite ?E1, ?E2, ?E3; done. Qed.

Lemma all_ars_NoDup m : NoDup (all_ars m).
Proof. apply NoDup_seq. Qed.

Lemma elem_of_all_ars m i ar : mg_ars m !! i = Some ar -> i ∈ all_ars m.
Proof. intros E%lookup_lt_Some. apply elem_of_seq. lia. Qed.

(** ** Creating and deleting *)

Lemma count_slots_le l :
  count_slots SLOT_TYPE_SENSOR l + count_slots SLOT_TYPE_ACTUATOR l <= Z.of_nat (length l).
Proof.
  unfold count_slots. induction l as [|s l IH]; [done|]. rewrite !filter_cons.
  destruct (si_type s) eqn:E; repeat case_decide; try congruence; cbn [length]; lia.
Qed.

Lemma new_cr_ok ok t frame_id size n k : 0 <= n -> 0 <= k -> n + k <= 247 -> 0 <= size <= 5 ->
  cr_ok t (new_iocr ok t frame_id size n k).
Proof.
  intros Hn Hk Hs Hz. split; [done|apply new_iocr_ok| |].
  all: unfold new_iocr, DAP_SUBMODULE_COUNT, wrap16; rewrite ?(Z.mod_small n), ?(Z.mod_small k) by lia;
    rewrite !Z.mod_small by nia; cbv zeta; cbn [cr_user_data_length cr_iodata_count cr_data_length].
  - unfold is_u16. nia.
  - unfold IOCR_MIN_DATA_LENGTH, MAX_CSDU. case_match; nia.
Qed.

Lemma allocate_two ok n k ar : ar_iocr ar = [] -> (allocate_iocr_buffers ok n k ar).1 = WTC_OK ->
  (allocate_iocr_buffers ok n k ar).2 =
    ar <| ar_iocr := [new_iocr (ok 0%nat) IOCR_TYPE_INPUT 0xC001 SENSOR_SLOT_SIZE n k;
                      new_iocr (ok 1%nat) IOCR_TYPE_OUTPUT 0xFFFF ACTUATOR_SLOT_SIZE k n] |>.
Proof.
  destruct ar. cbn. intros ->. unfold allocate_iocr_buffers, append_iocr. cbn.
  destruct (ok 0%nat), (ok 1%nat); cbn; done.
Qed.

Lemma append_ar_ok m ar : manager_ok m -> (length (mg_ars m) < MAX_ARS)%nat ->
  (forall a, a ∈ mg_ars m -> ar_device_station_name a <> ar_device_station_name ar) -> ar_ok ar ->
  manager_ok (m <| mg_ars ::= fun l => l ++ [ar] |>).
Proof.
  intros [? Hnd Hok ? ?] Hlt Hno Har. split; try done; cbn.
  - rewrite length_app. cbn. lia.
  - rewrite fmap_app. apply NoDup_app. split; [done|]. split; [|apply NoDup_singleton].
    intros x (a & -> & Ha)%list_elem_of_fmap. cbn. rewrite list_elem_of_singleton. by apply Hno.
  - apply Forall_app. auto.
Qed.

Lemma create_ok uuid alloc allocs cfg m : is_uuid uuid -> config_ok cfg -> manager_ok m ->
  manager_ok (ar_manager_create_ar uuid alloc allocs cfg m).2.
Proof.
  intros Hu [Hn Hmac Hs] Hm. unfold ar_manager_create_ar.
  destruct (Nat.leb_spec MAX_ARS (length (mg_ars m))) as [|Hlt]; [done|].
  destruct (bool_decide_reflect (Exists (has_name (cf_station_name cfg)) (mg_ars m))) as [|Hno]; [done|].
  destruct (negb alloc); [done|]. cbv zeta.
  set (ar0 := new_ar uuid _ cfg). set (n := count_slots SLOT_TYPE_SENSOR _). set (k := count_slots SLOT_TYPE_ACTUATOR _).
  pose proof (allocate_two allocs n k ar0 eq_refl) as Ha.
  destruct (allocate_iocr_buffers allocs n k ar0) as [res ar1]. cbn [fst snd] in Ha.
  destruct (bool_decide_reflect (res = WTC_OK)) as [E|E]; cbn [negb snd].
  2: { by apply (same_frame_ok m). }
  rewrite (Ha E). apply (append_ar_ok (m <| mg_session_key_counter := _ |>)); [|done| |].
  { by apply (same_frame_ok m). }
  - intros ar Har. cbn. rewrite strncpy_fits by done. intros En. apply Hno.
    apply Exists_exists. by exists ar.
  - pose proof (count_slots_le (cf_slots cfg)) as Hle. unfold WTC_MAX_SLOTS in Hs.
    assert (0 <= n /\ 0 <= k) as [? ?] by (unfold n, k, count_slots; lia).
    split; cbn -[take WTC_MAX_SLOTS new_iocr]; try done; [| |unfold WATCHDOG_MISS_THRESHOLD; lia].
    + do 2 eexists. split; [reflexivity|].
      split; apply new_cr_ok; unfold SENSOR_SLOT_SIZE, ACTUATOR_SLOT_SIZE; lia.
    + rewrite length_fmap. apply take_le.
Qed.

Lemma delete_ok name m : manager_ok m -> manager_ok (ar_manager_delete_ar name m).2.
Proof.
  intros Hm. unfold ar_manager_delete_ar. destruct (list_find _ _) as [[i ar]|] eqn:E; [|done].
  apply list_find_split in E as (E & _ & _ & Hi). destruct Hm as [? Hnd Hok ? ?].
  split; try done; cbn -[take drop]; rewrite remove_shift_delete by done.
  - rewrite length_app, length_take, length_drop. lia.
  - rewrite E, fmap_app, fmap_cons in Hnd. rewrite fmap_app.
    apply NoDup_app in Hnd as (H1 & H2 & H3). apply NoDup_cons in H3 as [_ H3].
    apply NoDup_app. split; [done|]. split; [|done]. intros x Hx Hy. apply (H2 x Hx). by apply list_elem_of_further.
  - apply Forall_app. split; [by apply Forall_take|by apply Forall_drop].
Qed.

(** ** Cyclic frames *)

Lemma fill_bytes_ok off n b : 0 <= off -> 0 <= n -> off + n <= Z.of_nat (length b) ->
  fill_bytes off n IOPS_GOOD_BYTE b =
    Some (write_at (Z.to_nat off) (replicate (Z.to_nat n) IOPS_GOOD_BYTE) b).
Proof.
  intros Ho Hn Hb. unfold fill_bytes. destruct (Z.leb_spec n 0) as [H|H].
  - replace n with 0 by lia. unfold write_at. change (replicate (Z.to_nat 0) IOPS_GOOD_BYTE) with (@nil Z).
    cbn [length app]. by rewrite Nat.add_0_r, take_drop.
  - by rewrite (proj2 (Z.leb_le _ _)) by done.
Qed.

(** The status bytes, behind the user data; what follows is kept. *)
Definition with_status (cr : iocr) (b : list Z) : list Z :=
  take (Z.to_nat (cr_user_data_length cr)) b ++
  replicate (Z.to_nat (cr_iodata_count cr + cr_iocs_count cr)) IOPS_GOOD_BYTE ++
  drop (Z.to_nat (cr_user_data_length cr + cr_iodata_count cr + cr_iocs_count cr)) b.

Lemma length_with_status t cr b : cr_ok t cr -> cr_data_buffer cr = Some b ->
  Z.of_nat (length (with_status cr b)) = cr_data_length cr.
Proof.
  intros [_ [? ? ? ? Hb] _ _] E. destruct (Hb b E) as [Hl _]. unfold with_status.
  rewrite !length_app, length_take, length_replicate, length_drop. lia.
Qed.

Lemma with_status_bytes cr b : is_bytes b -> is_bytes (with_status cr b).
Proof.
  intros H. unfold with_status, is_bytes. repeat apply Forall_app_2; auto using Forall_take, Forall_drop.
  apply Forall_replicate. unfold is_u8, IOPS_GOOD_BYTE. lia.
Qed.

Lemma fill_status_ok t cr b : cr_ok t cr -> cr_data_buffer cr = Some b ->
  fill_status cr = Some (cr <| cr_data_buffer := Some (with_status cr b) |>).
Proof.
  intros [_ [H1 H2 H3 H4 Hb] Hu _] E. destruct (Hb b E) as [Hl _]. unfold fill_status. rewrite E.
  cbv zeta. unfold wrap16. rewrite (Z.mod_small (_ + _)) by done.
  rewrite fill_bytes_ok by lia. cbn [mbind option_bind].
  assert (length (write_at (Z.to_nat (cr_user_data_length cr))
    (replicate (Z.to_nat (cr_iodata_count cr)) IOPS_GOOD_BYTE) b) = length b) as Hw.
  { apply length_write_at. rewrite length_replicate. lia. }
  rewrite fill_bytes_ok by (rewrite ?Hw; lia). cbn [mbind option_bind].
  match goal with |- Some (set _ (fun _ => Some ?w) _) = _ =>
    assert (w = with_status cr b) as ->; [clear Hw|done] end. unfold with_status.
  set (u := cr_user_data_length cr) in *. set (n := cr_iodata_count cr) in *. set (k := cr_iocs_count cr) in *.
  unfold write_at at 1. rewrite length_replicate.
  unfold write_at. rewrite length_replicate.
  rewrite take_app_ge by (rewrite length_take; lia). rewrite length_take, Nat.min_l by lia.
  replace (Z.to_nat (u + n) - Z.to_nat u)%nat with (Z.to_nat n) by lia.
  rewrite take_app_length' by (by rewrite length_replicate).
  rewrite drop_app_ge by (rewrite length_take; lia). rewrite length_take, Nat.min_l by lia.
  rewrite drop_app_ge by (rewrite length_replicate; lia). rewrite length_replicate, drop_drop.
  replace (Z.to_nat (n + k)) with (Z.to_nat n + Z.to_nat k)%nat by lia.
  rewrite replicate_add, <- !app_assoc. do 4 f_equal. lia.
Qed.

(** The frame of a C-SDU: the tagged header, the bytes, counter and status, padding. *)
Definition cyclic_frame (m : ar_manager) (ar : profinet_ar) (cr : iocr) (csdu : list Z) : list Z :=
  pad_frame (cyclic_header (mg_controller_mac m) (ar_device_mac ar) (cr_frame_id cr) ++
             csdu ++ be16 (cr_cycle_counter cr) ++ [PROFINET_DATA_STATUS; 0]).

Lemma find_output ar c0 c1 : ar_iocr ar = [c0; c1] -> cr_ok IOCR_TYPE_INPUT c0 ->
  cr_ok IOCR_TYPE_OUTPUT c1 -> find_iocr IOCR_TYPE_OUTPUT ar = Some (1%nat, c1).
Proof.
  intros E [H0 _ _ _] [H1 _ _ _]. unfold find_iocr. rewrite E. cbn. unfold has_type.
  rewrite decide_False by (rewrite H0; done). by rewrite decide_True by done.
Qed.

(** The output IOCR after a frame was sent. *)
Definition sent_iocr (cr : iocr) (b : list Z) : iocr :=
  cr <| cr_data_buffer := Some (with_status cr b) |>
     <| cr_cycle_counter := wrap16 (cr_cycle_counter cr + 1) |>.

Lemma send_cyclic_some sent m ar c0 c1 b :
  ar_ok ar -> length (mg_controller_mac m) = 6%nat -> ar_st ar = AR_STATE_RUN ->
  ar_iocr ar = [c0; c1] -> cr_data_buffer c1 = Some b ->
  exists frame, send_cyclic_frame sent m ar =
      Some (if sent then WTC_OK else WTC_ERROR_IO, Some frame,
            ar <| ar_iocr := [c0; sent_iocr c1 b] |>) /\
    frame = cyclic_frame m ar c1 (with_status c1 b) /\
    60 <= Z.of_nat (length frame) <= MAX_CYCLIC_FRAME.
Proof.
  intros Hok Hmm Hst E Eb. destruct (ao_iocr _ Hok) as (c0' & c1' & E' & H0 & H1).
  rewrite E in E'. injection E' as <- <-.
  pose proof (find_output ar c0 c1 E H0 H1) as Hf.
  pose proof (length_with_status _ c1 b H1 Eb) as Hl. pose proof (co_size _ _ H1) as Hs.
  assert (0 <= cr_data_length c1) as Hnn by lia.
  assert (length (cyclic_header (mg_controller_mac m) (ar_device_mac ar) (cr_frame_id c1)) = 20%nat) as Hh.
  { unfold cyclic_header. rewrite !length_app, Hmm, (ao_mac _ Hok). done. }
  eexists. split; [|split; [reflexivity|]].
  - unfold send_cyclic_frame. rewrite bool_decide_eq_true_2 by done. cbn [negb]. rewrite Hf.
    rewrite (fill_status_ok IOCR_TYPE_OUTPUT c1 b) by done. cbn [mbind option_bind].
    assert (csdu_of (c1 <| cr_data_buffer := Some (with_status c1 b) |>) = Some (with_status c1 b)) as ->.
    { unfold csdu_of. cbn. rewrite <- Hl. destruct (Z.ltb_spec 0 (Z.of_nat (length (with_status c1 b)))) as [?|?].
      - rewrite Z.leb_refl. by rewrite take_ge by lia.
      - destruct (with_status c1 b); [done|]. cbn in *. lia. }
    cbn [mbind option_bind]. cbv zeta. destruct (MAX_CYCLIC_FRAME <? _) eqn:Hbig.
    + exfalso. apply Z.ltb_lt in Hbig. rewrite !length_app in Hbig.
      cbn [length be16] in Hbig. change (cr_frame_id (set _ _ c1)) with (cr_frame_id c1) in Hbig.
      rewrite Hh in Hbig. unfold MAX_CYCLIC_FRAME, MAX_CSDU in *. lia.
    + unfold upd_iocr. simpl. rewrite E. done.
  - unfold cyclic_frame, pad_frame. rewrite !length_app, length_replicate, ?length_app, Hh.
    cbn [length be16]. unfold ETH_MIN_FRAME_LEN, MAX_CYCLIC_FRAME, MAX_CSDU in *. lia.
Qed.

(** In the RUN state a frame goes to the device exactly when the output period has passed:
    the tagged header with the addresses and the frame ID, the C-SDU (user data, then one GOOD
    status byte for each IO data object and each consumer status), the cycle counter and the
    data status, padded to 60 bytes.  The frame buffer is never overrun; only the status bytes,
    the cycle counter and, if the socket took the frame, the time of the IOCR change. *)
Theorem cyclic_output_frame now sent m ar c0 c1 b :
  ar_ok ar -> length (mg_controller_mac m) = 6%nat -> ar_st ar = AR_STATE_RUN ->
  ar_iocr ar = [c0; c1] -> cr_data_buffer c1 = Some b ->
  let frame := cyclic_frame m ar c1 (with_status c1 b) in
  60 <= Z.of_nat (length frame) <= MAX_CYCLIC_FRAME /\
  ar_send_output_data now sent m ar =
    if output_period_us c1 <=? u64_sub now (cr_last_frame_time_us c1)
    then Some (if sent then WTC_OK else WTC_ERROR_IO, Some frame,
               ar <| ar_iocr := [c0; if sent then (sent_iocr c1 b) <| cr_last_frame_time_us := now |>
                                     else sent_iocr c1 b] |>)
    else Some (WTC_OK, None, ar).
Proof.
  intros Hok Hmm Hst E Eb. destruct (ao_iocr _ Hok) as (c0' & c1' & E' & H0 & H1).
  rewrite E in E'. injection E' as <- <-.
  destruct (send_cyclic_some sent m ar c0 c1 b) as (frame & Hs & -> & Hl); try done.
  cbv zeta. split; [done|]. unfold ar_send_output_data. rewrite bool_decide_eq_true_2 by done. cbn [negb].
  rewrite (find_output ar c0 c1) by done. destruct (_ <=? _); [|done]. rewrite Hs. by destruct sent.
Qed.

Lemma set_fields_cr_ok t cr cr' : cr_ok t cr -> cr_type cr' = cr_type cr ->
  cr_user_data_length cr' = cr_user_data_length cr -> cr_iodata_count cr' = cr_iodata_count cr ->
  cr_iocs_count cr' = cr_iocs_count cr -> cr_data_length cr' = cr_data_length cr ->
  (forall b', cr_data_buffer cr' = Some b' -> Z.of_nat (length b') = cr_data_length cr /\ is_bytes b') ->
  cr_ok t cr'.
Proof.
  intros [H1 [H2 H3 H4 H5 H6] H7 H8] E1 E2 E3 E4 E5 Hb.
  split; [|split|..]; rewrite ?E1, ?E2, ?E3, ?E4, ?E5; auto.
Qed.

Lemma sent_iocr_ok cr b : cr_ok IOCR_TYPE_OUTPUT cr -> cr_data_buffer cr = Some b ->
  cr_ok IOCR_TYPE_OUTPUT (sent_iocr cr b).
Proof.
  intros H E. apply (set_fields_cr_ok _ cr); [done..|]. intros b' [= <-].
  split; [by eapply length_with_status|]. eapply with_status_bytes, io_buffer; [apply H|done].
Qed.

Lemma upd_iocr_keeps i f ar :
  (forall t cr, ar_iocr ar !! i = Some cr -> cr_ok t cr -> cr_ok t (f cr)) ->
  keeps_ar ar (upd_iocr i f ar).
Proof.
  intros Hf. split; [done|]. intros Har. destruct (ao_iocr _ Har) as (c0 & c1 & E & H0 & H1).
  rewrite E in Hf. destruct Har as [_ ? ? ? ? ? ?]. split; try done. cbn. rewrite E.
  destruct i as [|[|i]]; cbn; do 2 eexists; (split; [reflexivity|]); auto.
Qed.

Lemma keeps_ar_trans ar1 ar2 ar3 : keeps_ar ar1 ar2 -> keeps_ar ar2 ar3 -> keeps_ar ar1 ar3.
Proof. intros [E1 H1] [E2 H2]. split; [congruence|auto]. Qed.

(** Sending is defined and keeps the AR in order, whatever its state. *)
Lemma send_cyclic_keeps sent m ar : ar_ok ar -> length (mg_controller_mac m) = 6%nat ->
  exists rc frame ar', send_cyclic_frame sent m ar = Some (rc, frame, ar') /\ keeps_ar ar ar'.
Proof.
  intros Hok Hm. destruct (ao_iocr _ Hok) as (c0 & c1 & E & H0 & H1).
  destruct (decide (ar_st ar = AR_STATE_RUN)) as [Hst|Hst].
  2: { unfold send_cyclic_frame. rewrite bool_decide_eq_false_2 by done. eexists _, _, _. split; [done|]. by split. }
  destruct (cr_data_buffer c1) as [b|] eqn:Eb.
  - destruct (send_cyclic_some sent m ar c0 c1 b) as (frame & -> & _ & _); try done.
    eexists _, _, _. split; [reflexivity|]. split; [done|]. intros _.
    apply set_iocr_ok; auto using sent_iocr_ok.
  - unfold send_cyclic_frame. rewrite bool_decide_eq_true_2 by done. cbn [negb].
    rewrite (find_output ar c0 c1) by done. unfold fill_status, csdu_of. rewrite Eb. cbn [mbind option_bind].
    rewrite Eb. cbn [mbind option_bind]. cbv zeta. destruct (MAX_CYCLIC_FRAME <? _) eqn:Hbig.
    { exfalso. apply Z.ltb_lt in Hbig. unfold cyclic_header in Hbig.
      rewrite !length_app, Hm, (ao_mac _ Hok) in Hbig. cbn in Hbig. unfold MAX_CYCLIC_FRAME in Hbig. lia. }
    eexists _, _, _. split; [reflexivity|]. apply upd_iocr_keeps. rewrite E. intros t cr [= <-] Hcr.
    apply (set_fields_cr_ok _ c1); try done. apply (co_layout _ _ Hcr).
Qed.

Lemma send_output_keeps now sent m ar : ar_ok ar -> length (mg_controller_mac m) = 6%nat ->
  exists rc frame ar', ar_send_output_data now sent m ar = Some (rc, frame, ar') /\ keeps_ar ar ar'.
Proof.
  intros Hok Hm. destruct (send_cyclic_keeps sent m ar Hok Hm) as (rc & frame & ar' & Hs & K).
  unfold ar_send_output_data. case_match; [eexists _, _, _; split; [done|]; by split|].
  destruct (find_iocr _ _) as [[i cr]|]; [|eexists _, _, _; split; [done|]; by split].
  case_match; [rewrite Hs|]; (eexists _, _, _; split; [reflexivity|]); [|by split].
  case_match; [|done]. eapply keeps_ar_trans; [apply K|]. apply upd_iocr_keeps. intros t cr' _ Hcr.
  apply (set_fields_cr_ok _ cr'); try done. apply (co_layout _ _ Hcr).
Qed.

(** Receiving reads and writes inside its buffers, whatever the bytes. *)
Lemma store_csdu_ok t now frame off cr : is_bytes frame -> 0 <= off -> cr_ok t cr ->
  exists cr', store_csdu now frame off cr = Some cr' /\ cr_ok t cr'.
Proof.
  intros Hf Ho Hcr. unfold store_csdu. destruct (cr_data_buffer cr) as [b|] eqn:E; [|eauto].
  destruct (io_buffer _ (co_layout _ _ Hcr) b E) as [Hl Hb].
  destruct (Z.leb_spec (off + cr_data_length cr) (Z.of_nat (length frame))) as [Hle|]; [|eauto].
  rewrite (proj2 (Z.leb_le _ _)) by lia. eexists. split; [done|].
  assert (length (sub (Z.to_nat off) (Z.to_nat (cr_data_length cr)) frame) = Z.to_nat (cr_data_length cr)) as Hs.
  { unfold sub. rewrite length_take, length_drop. lia. }
  apply (set_fields_cr_ok _ cr); try done. intros b' [= <-].
  rewrite length_write_at by lia. split; [done|]. apply write_at_bytes; [by apply sub_bytes_range|done].
Qed.

Lemma rt_frame_keeps now_ms now_us frame m : is_bytes frame -> manager_ok m ->
  exists res m', ar_handle_rt_frame now_ms now_us frame m = Some (res, m') /\ manager_ok m'.
Proof.
  intros Hf Hm. unfold ar_handle_rt_frame, ar_manager_get_ar_by_frame_id. cbv zeta.
  case_match; [eauto|]. case_match; [eauto|].
  destruct (list_find _ (mg_ars m)) as [[i ar]|] eqn:Ei; [|eauto].
  destruct (list_find _ (ar_iocr ar)) as [[j cr]|] eqn:Ej; [|eauto].
  apply list_find_Some in Ei as (Ei & _). apply list_find_Some in Ej as (Ej & _).
  assert (ar_ok ar) as Har by (eapply Forall_lookup_1; [apply (mo_ars _ Hm)|done]).
  destruct (ao_iocr _ Har) as (c0 & c1 & E & K0 & K1).
  assert (0 <= rt_header_offset frame + 2) as Hoff.
  { unfold rt_header_offset, ETH_HEADER_LEN. case_match; lia. }
  assert (exists t, cr_ok t cr) as [t Hcr].
  { rewrite E in Ej. destruct j as [|[|j]]; cbn in Ej; simplify_eq; eauto. }
  destruct (store_csdu_ok t now_us frame _ cr Hf Hoff Hcr) as (cr' & -> & Hcr').
  eexists _, _. split; [reflexivity|]. eapply set_ar_ok; [done| |done].
  eapply keeps_ar_trans; [apply (upd_iocr_keeps j (fun _ => cr'))|].
  - rewrite Ej. intros t' c [= <-] Hc. assert (t' = t) as -> by (rewrite <- (co_type _ _ Hc); apply Hcr). done.
  - split; [done|]. intros [? ? ? ? ? ? ?]. by split.
Qed.

(** ** The periodic processing *)

Lemma process_incoming_step now poll respond m m' : process_incoming now poll respond m = Some m' ->
  m' = m \/ exists q i ar,
    is_Some (mg_rpc m) /\ poll.1 = WTC_OK /\ rpc_parse_incoming_control_request poll.2 = Some (inr q) /\
    iq_control_command q = CONTROL_CMD_APP_READY /\ list_find (awaits q) (mg_ars m) = Some (i, ar) /\
    ar_st ar = AR_STATE_READY /\
    m' = notify_state_change (ar_device_station_name ar) AR_STATE_READY AR_STATE_RUN
           (set_ar i (ar <| ar_st := AR_STATE_RUN |> <| ar_last_activity_ms := now |>) m).
Proof.
  unfold process_incoming. destruct (mg_rpc m) as [ctx|]; [|intros [= <-]; auto].
  destruct (bool_decide_reflect (poll.1 = WTC_OK)) as [Ep|]; cbn [negb orb]; [|intros [= <-]; auto].
  destruct (_ =? _)%nat; [intros [= <-]; auto|].
  destruct (rpc_parse_incoming_control_request poll.2) as [[?|q]|]; [intros [= <-]; auto| |done].
  destruct (Z.eqb_spec (iq_control_command q) CONTROL_CMD_APP_READY) as [Eq|]; [|intros [= <-]; auto].
  unfold handle_app_ready. destruct (list_find _ _) as [[i ar]|] eqn:E; [|intros [= <-]; auto].
  destruct (bool_decide_reflect (ar_st ar = AR_STATE_READY)) as [Es|]; cbn [negb]; [|intros [= <-]; auto].
  destruct (rpc_build_control_response _ _); [intros [= <-]; auto|].
  destruct (bool_decide _); intros [= <-]; [|auto]. rewrite Es. right. exists q, i, ar. split_and!; eauto.
Qed.

Lemma process_incoming_ok now poll respond m m' :
  process_incoming now poll respond m = Some m' -> manager_ok m -> manager_ok m'.
Proof.
  intros [->|(q & i & ar & _ & _ & _ & _ & E & _ & ->)]%process_incoming_step; [done|]. intros Hm.
  apply list_find_Some in E as (E & _). eapply same_frame_ok; [apply notify_same_frame|].
  eapply set_ar_ok; [done| |done]. split; [done|]. intros [? ? ? ? ? ? ?]. by split.
Qed.

Lemma process_ok now poll respond nets m m' : (forall i, net_ok (nets i)) ->
  ar_manager_process now poll respond nets m = Some m' -> manager_ok m -> manager_ok m'.
Proof.
  intros He. unfold ar_manager_process.
  destruct (process_incoming now poll respond m) as [m1|] eqn:E1; [|done]. intros E2 Hm.
  apply process_incoming_ok in E1; [|done]. eapply table_step_ok; [|eapply each_ar_step, E2|done].
  - intros i ar ar' H. exact H.
  - apply all_ars_NoDup.
  - intros i m0 ar m2 ar2 H%process_ar_keeps; [|done]. destruct H as (F & N & O). by split.
Qed.

Lemma check_health_ok now m : exists m', ar_manager_check_health now m = Some m' /\
  (manager_ok m -> manager_ok m').
Proof.
  unfold ar_manager_check_health.
  assert (forall idx m0, exists m', each_ar (fun _ m ar => Some (check_health_ar now m ar)) idx m0 = Some m') as Hsome.
  { induction idx as [|i idx IH]; intros m0; cbn [each_ar]; [eauto|]. unfold at_ar.
    destruct (mg_ars m0 !! i); cbn; [|apply IH]. destruct (check_health_ar now m0 p). apply IH. }
  destruct (Hsome (all_ars m) m) as [m' E]. exists m'. split; [done|].
  eapply table_step_ok; [|eapply (each_ar_step (fun _ => keeps_ar)), E]; [done|apply all_ars_NoDup|].
  intros i m0 ar m1 ar1 [= H]. pose proof (check_health_keeps now m0 ar) as K. rewrite H in K.
  destruct K as (F & N & O). by split.
Qed.

(** ** Runs of the manager *)

Inductive ar_op :=
| OpCreate (uuid : list Z) (alloc : bool) (allocs : nat -> bool) (cfg : ar_config)
| OpDelete (name : string)
| OpSetControllerIp (ip : Z)
| OpSetCallback (callback : bool)
| OpConnect (i : nat) (e : net)
| OpDiscover (i : nat) (e : net)
| OpParameterEnd (i : nat) (e : net)
| OpApplicationReady (i : nat) (e : net)
| OpRelease (i : nat) (e : net)
| OpReceive (now_ms now_us : Z) (frame : list Z)
| OpOutput (i : nat) (now_us : Z) (sent : bool)
| OpHealth (now : Z)
| OpProcess (now : Z) (poll : wtc_result * list Z) (respond : list Z -> wtc_result) (nets : nat -> net).

Definition on_ar (f : ar_manager -> profinet_ar -> ar_result) (i : nat) : ar_manager -> option ar_manager :=
  at_ar (fun m ar => match f m ar with None => None | Some (_, m, ar) => Some (m, ar) end) i.

Definition ar_step (o : ar_op) (m : ar_manager) : option ar_manager :=
  match o with
  | OpCreate uuid alloc allocs cfg => Some (ar_manager_create_ar uuid alloc allocs cfg m).2
  | OpDelete name => Some (ar_manager_delete_ar name m).2
  | OpSetControllerIp ip => Some (ar_manager_set_controller_ip ip m)
  | OpSetCallback callback => Some (ar_manager_set_state_callback callback m)
  | OpConnect i e => on_ar (ar_send_connect_request e) i m
  | OpDiscover i e => on_ar (ar_connect_with_discovery e) i m
  | OpParameterEnd i e => on_ar (ar_send_parameter_end e) i m
  | OpApplicationReady i e => on_ar (ar_send_application_ready e) i m
  | OpRelease i e => on_ar (ar_send_release_request e) i m
  | OpReceive now_ms now_us frame =>
      match ar_handle_rt_frame now_ms now_us frame m with None => None | Some (_, m) => Some m end
  | OpOutput i now_us sent =>
      at_ar (fun m ar => match ar_send_output_data now_us sent m ar with
                         | None => None | Some (_, _, ar) => Some (m, ar) end) i m
  | OpHealth now => ar_manager_check_health now m
  | OpProcess now poll respond nets => ar_manager_process now poll respond nets m
  end.

Fixpoint ar_run (ops : list ar_op) (m : ar_manager) : option ar_manager :=
  match ops with [] => Some m | o :: ops => m ← ar_step o m; ar_run ops m end.

(** The arguments are what the types of the code and the array sizes allow. *)
Definition op_ok (o : ar_op) : Prop :=
  match o with
  | OpCreate uuid _ _ cfg => is_uuid uuid /\ config_ok cfg
  | OpConnect _ e | OpDiscover _ e => net_ok e
  | OpReceive _ _ frame => is_bytes frame
  | OpProcess _ _ _ nets => forall i, net_ok (nets i)
  | _ => True
  end.

(** The calls that send requests to a device. *)
Definition is_request (o : ar_op) : bool :=
  match o with
  | OpConnect _ _ | OpDiscover _ _ | OpParameterEnd _ _ | OpApplicationReady _ _ | OpRelease _ _
  | OpProcess _ _ _ _ => true
  | _ => false
  end.

Lemma on_ar_ok f i m m' :
  (forall m ar res m1 ar1, f m ar = Some (res, m1, ar1) -> keeps m ar m1 ar1) ->
  on_ar f i m = Some m' -> manager_ok m -> manager_ok m'.
Proof.
  intros Hf. unfold on_ar, at_ar. destruct (mg_ars m !! i) as [ar|] eqn:E; [|by intros [= <-]].
  destruct (f m ar) as [[[res m1] ar1]|] eqn:Ef; [|done]. apply Hf in Ef as (F & N & O).
  intros [= <-] Hm. eapply set_ar_ok; [by rewrite (proj1 F)|by split|by eapply same_frame_ok].
Qed.

Lemma ar_step_ok o m m' : op_ok o -> manager_ok m -> ar_step o m = Some m' -> manager_ok m'.
Proof.
  intros Ho Hm. destruct o; cbn in Ho |- *; try (intros [= <-]).
  - apply create_ok; naive_solver.
  - by apply delete_ok.
  - eapply same_frame_ok; [|done]. unfold ar_manager_set_controller_ip. cbv zeta. by repeat case_match.
  - by eapply (same_frame_ok m).
  - intros E. eapply on_ar_ok; [|done..]. intros. by eapply send_connect_keeps.
  - intros E. eapply on_ar_ok; [|done..]. intros. by eapply discovery_keeps.
  - intros E. eapply on_ar_ok; [|done..]. intros. by eapply parameter_end_keeps.
  - intros E. eapply on_ar_ok; [|done..]. intros. by eapply application_ready_keeps.
  - intros E. eapply on_ar_ok; [|done..]. intros. by eapply release_keeps.
  - destruct (rt_frame_keeps now_ms now_us frame m Ho Hm) as (res & m1 & -> & H). by intros [= <-].
  - unfold at_ar. destruct (mg_ars m !! i) as [ar|] eqn:E; [|by intros [= <-]].
    assert (ar_ok ar) as Har by (eapply Forall_lookup_1; [apply (mo_ars _ Hm)|done]).
    destruct (send_output_keeps now_us sent m ar Har (mo_mac _ Hm)) as (rc & fr & ar' & -> & K).
    intros [= <-]. by eapply set_ar_ok.
  - destruct (check_health_ok now m) as (m1 & -> & H). intros [= <-]. auto.
  - intros E. by eapply process_ok.
Qed.

Lemma ar_step_defined o m : op_ok o -> manager_ok m -> is_request o = false -> is_Some (ar_step o m).
Proof.
  intros Ho Hm. destruct o; cbn in Ho |- *; try done; intros _; eauto.
  - destruct (rt_frame_keeps now_ms now_us frame m Ho Hm) as (res & m1 & -> & H). eauto.
  - unfold at_ar. destruct (mg_ars m !! i) as [ar|] eqn:E; [|eauto].
    assert (ar_ok ar) as Har by (eapply Forall_lookup_1; [apply (mo_ars _ Hm)|done]).
    destruct (send_output_keeps now_us sent m ar Har (mo_mac _ Hm)) as (rc & fr & ar' & -> & K). eauto.
  - destruct (check_health_ok now m) as (m1 & -> & H). eauto.
Qed.

Lemma ar_run_ok ops m m' : Forall op_ok ops -> manager_ok m -> ar_run ops m = Some m' -> manager_ok m'.
Proof.
  intros Ho. revert m. induction Ho as [|o ops Ho _ IH]; intros m Hm; cbn; [by intros [= <-]|].
  destruct (ar_step o m) as [m1|] eqn:E; [|done]. cbn. intros Hr. eapply IH; [|done]. by eapply ar_step_ok.
Qed.

Lemma manager_init_ok mac name vendor device : length mac = 6%nat ->
  manager_ok (ar_manager_init mac name vendor device).
Proof.
  intros Hm. split; cbn; try done; [lia|constructor|]. split; [done|].
  repeat constructor; unfold is_u8; try lia; apply Z.mod_pos_bound; lia.
Qed.

(** C20: Whatever the sequence of creations, deletions, connects, received frames, outputs,
    health checks and processing, the table holds at most 64 ARs with different names, each
    with one input and one output IOCR whose layout fits its buffer and a frame, and counters
    in range; and receiving, sending, creating, deleting and checking never touch memory
    outside a buffer. *)
Theorem ar_table_invariant mac name vendor device ops m :
  length mac = 6%nat -> Forall op_ok ops -> ar_run ops (ar_manager_init mac name vendor device) = Some m ->
  manager_ok m /\ forall o, op_ok o -> is_request o = false -> is_Some (ar_step o m).
Proof.
  intros Hmac Hops Hrun. assert (manager_ok m) as Hm by (eapply ar_run_ok; eauto using manager_init_ok).
  split; [done|]. intros o Ho Hr. by apply ar_step_defined.
Qed.

(** ** The connection protocol *)

(** The moves of one AR in a call of [ar_manager_process]; [ready]: an ApplicationReady for it
    has arrived. *)
Inductive protocol_step (ready : Prop) : ar_state -> ar_state -> Prop :=
| ps_stay s : s <> AR_STATE_CONNECT_CNF -> protocol_step ready s s
| ps_connect_timeout : protocol_step ready AR_STATE_CONNECT_REQ AR_STATE_ABORT
| ps_parameterize : protocol_step ready AR_STATE_CONNECT_CNF AR_STATE_PRMSRV
| ps_parameter_end : protocol_step ready AR_STATE_PRMSRV AR_STATE_READY
| ps_parameter_fail : protocol_step ready AR_STATE_PRMSRV AR_STATE_ABORT
| ps_ready_timeout : protocol_step ready AR_STATE_READY AR_STATE_ABORT
| ps_run : ready -> protocol_step ready AR_STATE_READY AR_STATE_RUN
| ps_reconnect : protocol_step ready AR_STATE_ABORT AR_STATE_CONNECT_CNF
| ps_give_up : protocol_step ready AR_STATE_ABORT AR_STATE_CLOSE.

#[local] Hint Constructors protocol_step : core.

Lemma connect_ends e m ar res m' ar' : ar_send_connect_request e m ar = Some (res, m', ar') ->
  ar_st ar' = AR_STATE_ABORT \/ ar_st ar' = AR_STATE_CONNECT_CNF.
Proof.
  unfold ar_send_connect_request. destruct (ensure_rpc_initialized _ _) as [res1 m1].
  destruct (mg_rpc m1) as [ctx|]; [|intros [= <- <- <-]; auto].
  destruct (rpc_connect _ _ _ _) as [[[res2 r] ctx']|]; [|done]. cbv zeta.
  destruct (_ && _); [|intros [= <- <- <-]; auto].
  destruct (connect_accepted _ _ _) as [res3 ar3] eqn:E. intros [= <- <- <-]. revert E.
  unfold connect_accepted. cbv zeta. case_match; intros [= <- <-]; auto.
Qed.

Lemma build_params_st ok mods ar : ar_st (ar_build_full_connect_params ok mods ar).2 = ar_st ar.
Proof. unfold ar_build_full_connect_params. cbv zeta. repeat case_match; done. Qed.

Lemma reconnect_ends e m ar res m' ar' : ar_st ar = AR_STATE_ABORT ->
  reconnect e m ar = Some (res, m', ar') ->
  ar_st ar' = AR_STATE_ABORT \/ ar_st ar' = AR_STATE_CONNECT_CNF.
Proof.
  intros Hst. unfold reconnect. destruct (_ && _).
  - case_match; [done|]. destruct (ar_build_full_connect_params _ _ _) as [res1 ar1]. apply connect_ends.
  - unfold ar_connect_with_discovery.
    pose proof (build_params_st (ne_alloc e) (discover e (ar <| ar_connecting := true |>)) (ar <| ar_connecting := true |>)) as Hb.
    destruct (ar_build_full_connect_params _ _ _) as [res1 ar1]. cbn [snd] in Hb.
    destruct (negb _).
    + intros [= <- <- <-]. left. cbn. by rewrite Hb.
    + destruct (ar_send_connect_request _ _ _) as [[[res2 m2] ar2]|] eqn:E; [|done].
      intros [= <- <- <-]. apply connect_ends in E. exact E.
Qed.

Lemma process_ar_protocol ready now e m ar m' ar' : ar_connecting ar = false ->
  process_ar now e m ar = Some (m', ar') -> protocol_step ready (ar_st ar) (ar_st ar').
Proof.
  intros Hc. unfold process_ar, timeout_ar. rewrite Hc.
  destruct (ar_st ar) eqn:Est; try (intros [= <- <-]; rewrite Est; by auto).
  - case_match; intros [= <- <-]; cbn; rewrite ?Est; auto.
  - intros [= <- <-]. cbn. auto.
  - unfold ar_send_parameter_end. destruct (mg_rpc m); [|intros [= <- <-]; rewrite Est; by auto].
    destruct (rpc_parameter_end _ _ _ _) as [[[res1 v] ctx']|]; [|done]. intros [= <- <-]. cbn.
    case_match; auto.
  - case_match; intros [= <- <-]; cbn; rewrite ?Est; auto.
  - unfold recover_ar. rewrite Est. cbv zeta. case_match; [intros [= <- <-]; cbn; auto|].
    case_match; [intros [= <- <-]; rewrite Est; by auto|].
    destruct (release_stale e m ar) as [m1|]; [|done].
    destruct (reconnect _ _ _) as [[[res m2] ar2]|] eqn:E2; [|done]. apply reconnect_ends in E2; [|done].
    case_match; intros [= <- <-]; cbn; destruct E2 as [->| ->]; auto.
Qed.

Lemma process_table_protocol now nets m m' i ar : (forall j, net_ok (nets j)) ->
  each_ar (fun i => process_ar now (nets i)) (all_ars m) m = Some m' ->
  mg_ars m !! i = Some ar -> ar_connecting ar = false ->
  exists ar', mg_ars m' !! i = Some ar' /\ forall ready, protocol_step ready (ar_st ar) (ar_st ar').
Proof.
  intros He E Ei Hc.
  apply (each_ar_step (fun j a a' => ar_connecting a = false ->
    forall ready, protocol_step ready (ar_st a) (ar_st a'))) in E as (_ & _ & _ & H).
  - destruct (H i ar Ei) as (ar' & E' & Hin & _). eauto using elem_of_all_ars.
  - apply all_ars_NoDup.
  - intros j m0 a m2 a2 Hp. split; [by apply process_ar_keeps in Hp as [? _]|].
    intros Ha ready. by eapply process_ar_protocol.
Qed.

(** An ApplicationReady request for the [i]-th AR is in the received datagram. *)
Definition application_ready_for (poll : wtc_result * list Z) (m : ar_manager) (i : nat) : Prop :=
  exists q ar, is_Some (mg_rpc m) /\ poll.1 = WTC_OK /\
    rpc_parse_incoming_control_request poll.2 = Some (inr q) /\
    iq_control_command q = CONTROL_CMD_APP_READY /\
    mg_ars m !! i = Some ar /\ ar_session_key ar = iq_session_key q /\ ar_uuid ar = iq_ar_uuid q.

(** C19: One call of the periodic processing moves every AR along the connection protocol: a
    confirmed connect goes to parameterisation, that to READY or ABORT, a failed AR reconnects
    or is given up; and an AR enters RUN only from READY, in a call that received an
    ApplicationReady request with its session key and AR UUID. *)
Theorem process_follows_protocol now poll respond nets m m' i ar :
  (forall j, net_ok (nets j)) -> ar_manager_process now poll respond nets m = Some m' ->
  mg_ars m !! i = Some ar -> ar_connecting ar = false ->
  exists ar', mg_ars m' !! i = Some ar' /\
    protocol_step (application_ready_for poll m i) (ar_st ar) (ar_st ar').
Proof.
  unfold ar_manager_process.
  destruct (process_incoming now poll respond m) as [m1|] eqn:E1; [|done]. intros He E2 Ei Hc.
  apply process_incoming_step in E1 as [->|(q & k & a & Hr & Hp & Hq & Hcmd & Hf & Hst & ->)].
  { destruct (process_table_protocol now nets m m' i ar) as (ar' & E' & H); eauto. }
  apply list_find_Some in Hf as (Ek & [Hkey Huuid] & _).
  destruct (decide (k = i)) as [->|Hki].
  - assert (a = ar) as -> by congruence.
    destruct (process_table_protocol now nets _ m' i
      (ar <| ar_st := AR_STATE_RUN |> <| ar_last_activity_ms := now |>) He E2) as (ar' & E' & H); [|done|].
    { rewrite (proj1 (notify_same_frame _ _ _ _)). cbn. apply list_lookup_insert_eq. by eapply lookup_lt_Some. }
    exists ar'. split; [done|]. specialize (H False). cbn in H. rewrite Hst.
    inversion H; subst. apply ps_run. exists q, ar. by split_and!.
  - destruct (process_table_protocol now nets _ m' i ar He E2) as (ar' & E' & H); [|done|eauto].
    rewrite (proj1 (notify_same_frame _ _ _ _)). cbn. by rewrite list_lookup_insert_ne.
Qed.

(** ** The end of the recovery *)

(** A device that does not answer, and module lists that leave room in a connect request. *)
Definition MAX_FITTING_MODULES : nat := 24.

Record calm (e : net) : Prop := mk_calm {
  ca_net : net_ok e;
  ca_silent : forall ip request, exists err, ne_send e ip request = inl err;
  ca_http : forall ip, (length (ne_http e ip).2 <= MAX_FITTING_MODULES)%nat;
  ca_cache : forall name, (length (ne_cache_load e name).2 <= MAX_FITTING_MODULES)%nat }.

(** An AR that waits for its next attempt. *)
Record aborted (ar : profinet_ar) : Prop := mk_aborted {
  ab_ok : ar_ok ar;
  ab_state : ar_st ar = AR_STATE_ABORT;
  ab_idle : ar_connecting ar = false;
  ab_modules : (length (ar_discovered ar) <= MAX_FITTING_MODULES)%nat }.

Lemma silent_send e ip ctx request : calm e ->
  exists err, rpc_send_and_receive (ne_send e ip) ctx request = inl err.
Proof. intros H. unfold rpc_send_and_receive. destruct (rc_open ctx); [apply H|eauto]. Qed.

Lemma silent_release e m ar : calm e ->
  exists m', release_stale e m ar = Some m' /\ same_frame m m'.
Proof.
  intros He. unfold release_stale. destruct (mg_rpc m) as [ctx|]; [|by exists m].
  destruct (_ =? 0); [by exists m|]. unfold rpc_release, rpc_build_release_request, build_request.
  change (RPC_MAX_PDU_SIZE <? RPC_MAX_PDU_SIZE) with false.
  match goal with |- context [finish_request ?a ?b ?c ?d] =>
    destruct (finish_request a b c d) as [pdu ctx'] end. unfold control_call.
  destruct (silent_send e (ar_device_ip ar) ctx' pdu He) as [err ->]. by eexists.
Qed.

Lemma unique_slots_le es : (length (unique_slots es) <= length es)%nat.
Proof.
  rewrite unique_slots_step.
  assert (forall seen, (length (foldl seen_step seen es) <= length seen + length es)%nat) as H; [|apply (H [])].
  induction es as [|e es IH]; intros seen; cbn [foldl length]; [lia|].
  specialize (IH (seen_step seen e)).
  destruct (seen_step_cases seen e) as [[E _]|[E _]]; rewrite E in IH |- *; rewrite ?length_app in IH; cbn in IH; lia.
Qed.

(** The connect request of an AR with a fitting module list is built. *)
Lemma connect_request_built e m ctx ar : net_ok e -> ar_ok ar -> ar_uuid ar = ne_ar_uuid e ->
  length (mg_controller_mac m) = 6%nat -> is_uuid (mg_controller_uuid m) ->
  ar_has_discovered_modules ar = true -> (length (ar_discovered ar) <= MAX_FITTING_MODULES)%nat ->
  exists pdu ctx', rpc_build_connect_request (ne_activity_uuid e) ctx (build_connect_params m ctx ar)
    RPC_MAX_PDU_SIZE = Built pdu ctx'.
Proof.
  intros He Hok Hu Hm Hc Hd Hn. set (p := build_connect_params m ctx ar).
  destruct (ao_iocr _ Hok) as (c0 & c1 & E & _).
  assert (length (cp_iocr p) = 2%nat) as Hi by (unfold p; cbn; by rewrite E).
  assert ((length (cp_expected p) <= 27)%nat) as He'.
  { change (cp_expected p) with (expected_config ar). unfold expected_config. rewrite Hd, length_app, length_take, length_fmap.
    unfold app_modules. pose proof (length_filter (fun md => md_slot md <> 0) (ar_discovered ar)).
    unfold MAX_FITTING_MODULES in Hn. change (length dap_submodules) with 3%nat. lia. }
  pose proof (unique_slots_le (cp_expected p)) as Hs.
  assert (String.length (cp_station_name p) <= 63)%nat as Hname by apply strncpy_length.
  unfold rpc_build_connect_request. change (RPC_MAX_PDU_SIZE <? RPC_MAX_PDU_SIZE) with false. cbv zeta.
  assert (is_uuid (cp_ar_uuid p)) as Hu' by apply (ao_uuid _ Hok).
  pose proof (connect_request_length ctx p Hu' Hc Hm) as Hlen. rewrite Hi in Hlen.
  unfold WTC_MAX_SLOTS, RPC_MAX_PDU_SIZE in *.
  rewrite (proj2 (Z.ltb_ge 1464 (100 + Z.of_nat (length (connect_blocks ctx p))))) by lia.
  match goal with |- context [finish_request ?a ?b ?c ?d] =>
    destruct (finish_request a b c d) as [pdu ctx'] end. eauto.
Qed.

Definition controller_ok (m : ar_manager) : Prop :=
  length (mg_controller_mac m) = 6%nat /\ is_uuid (mg_controller_uuid m).

Lemma same_frame_controller m m' : same_frame m m' -> controller_ok m -> controller_ok m'.
Proof. intros (_ & E1 & E2) [? ?]. split; congruence. Qed.

(** What a failed attempt leaves as it was. *)
Definition same_plan (ar ar' : profinet_ar) : Prop :=
  ar_retry_count ar' = ar_retry_count ar /\ ar_connecting ar' = ar_connecting ar /\
  ar_discovered ar' = ar_discovered ar.

Lemma silent_connect e m ar : calm e -> controller_ok m -> ar_ok ar ->
  ar_has_discovered_modules ar = true -> (length (ar_discovered ar) <= MAX_FITTING_MODULES)%nat ->
  exists res m' ar', ar_send_connect_request e m ar = Some (res, m', ar') /\
    ar_st ar' = AR_STATE_ABORT /\ same_plan ar ar'.
Proof.
  intros He Hm Hok Hd Hn. unfold ar_send_connect_request.
  pose proof (default_ip_same_frame ar m) as H1.
  pose proof (ensure_rpc_same_frame e (default_ip ar m)) as H2.
  destruct (ensure_rpc_initialized e (default_ip ar m)) as [res1 m1]. cbn in H2.
  assert (controller_ok m1) as Hm1 by (apply (same_frame_controller m); [by etrans|done]).
  destruct (mg_rpc m1) as [ctx|]; [|eexists _, _, _; split; [reflexivity|]; by repeat split].
  cbv zeta. set (ar1 := ar <| ar_st := _ |> <| ar_uuid := _ |> <| ar_session_key := _ |>).
  set (m2 := m1 <| mg_session_key_counter ::= _ |>).
  assert (ar_ok ar1) as Hok1.
  { apply (new_uuid_keeps e m m ar ar1); try done. apply He. }
  unfold rpc_connect.
  destruct (connect_request_built e m2 ctx ar1) as (pdu & ctx' & ->); try done; try apply He; try apply Hm1.
  destruct (silent_send e (ar_device_ip ar1) ctx' pdu He) as [err ->].
  rewrite andb_false_r. eexists _, _, _. split; [reflexivity|]. by repeat split.
Qed.

Lemma build_params_plan ok mods ar : let ar' := (ar_build_full_connect_params ok mods ar).2 in
  ar_retry_count ar' = ar_retry_count ar /\ ar_connecting ar' = ar_connecting ar /\
  ar_has_discovered_modules ar' = ar_has_discovered_modules ar /\
  (ar_discovered ar' = ar_discovered ar \/ ar_discovered ar' = take WTC_MAX_SLOTS mods).
Proof. unfold ar_build_full_connect_params. cbv zeta. repeat case_match; auto. Qed.

(** A failed attempt: the AR is as before, with the modules it found. *)
Lemma silent_reconnect e m ar : calm e -> controller_ok m -> aborted ar ->
  exists res m' ar', reconnect e m ar = Some (res, m', ar') /\ ar_st ar' = AR_STATE_ABORT /\
    ar_retry_count ar' = ar_retry_count ar /\ ar_connecting ar' = false /\
    (length (ar_discovered ar') <= MAX_FITTING_MODULES)%nat.
Proof.
  intros He Hm [Hok Hst Hidle Hn]. unfold reconnect. unfold MAX_FITTING_MODULES in *.
  destruct (ar_has_discovered_modules ar && _) eqn:Ed.
  - apply andb_prop in Ed as [Ed _].
    destruct (Nat.ltb_spec AR_MAX_DISCOVERED_MODULES (length (ar_discovered ar))) as [H|H];
      [unfold AR_MAX_DISCOVERED_MODULES in H; lia|].
    pose proof (build_params_ok (ne_alloc e) _ ar H Hok) as Hok1.
    pose proof (build_params_plan (ne_alloc e) (ar_discovered ar) ar) as (E1 & E2 & E3 & E4).
    destruct (ar_build_full_connect_params _ _ _) as [res1 ar1]. cbn [snd] in *.
    assert ((length (ar_discovered ar1) <= 24)%nat) as Hn1.
    { destruct E4 as [-> | ->]; [done|]. rewrite length_take. lia. }
    destruct (silent_connect e m ar1) as (res & m' & ar' & E & ? & F1 & F2 & F3); try done; [congruence|].
    exists res, m', ar'. split_and!; congruence.
  - set (ar0 := ar <| ar_connecting := true |>).
    assert (ar_ok ar0) as Hok0 by (by apply (keeps_fields m ar ar0)).
    unfold ar_connect_with_discovery.
    assert (length (discover e ar0) <= 24)%nat as Hd.
    { unfold discover. cbv zeta. repeat case_match; solve [apply He | cbn; lia]. }
    assert (length (discover e ar0) <= AR_MAX_DISCOVERED_MODULES)%nat as Hd'
      by (unfold AR_MAX_DISCOVERED_MODULES; lia).
    pose proof (build_params_ok (ne_alloc e) _ ar0 Hd' Hok0) as Hok1.
    pose proof (build_params_plan (ne_alloc e) (discover e ar0) ar0) as (E1 & E2 & E3 & E4).
    pose proof (build_params_st (ne_alloc e) (discover e ar0) ar0) as E5.
    destruct (ar_build_full_connect_params _ _ _) as [res1 ar1]. cbn [snd] in *.
    assert ((length (ar_discovered ar1) <= 24)%nat) as Hn1.
    { destruct E4 as [-> | ->]; [done|]. rewrite length_take. lia. }
    destruct (negb _).
    + eexists _, _, _. split; [reflexivity|]. cbn. split_and!; try done; rewrite E5; done.
    + destruct (silent_connect e m (ar1 <| ar_has_discovered_modules := true |> <| ar_st := AR_STATE_INIT |>))
        as (res & m' & ar' & -> & ? & F1 & F2 & F3); try done.
      { by apply (keeps_fields m ar1). }
      eexists _, _, _. split; [reflexivity|]. cbn. split_and!; try done; cbn in *; congruence.
Qed.

Lemma backoff_bound now r : 0 <= r < AR_MAX_RETRY_ATTEMPTS -> 0 <= now -> backoff_ms now r <= 25000.
Proof.
  intros Hr Hn. unfold AR_MAX_RETRY_ATTEMPTS in Hr.
  assert (forall b j, 0 <= b <= 20000 -> 0 <= j <= 5000 -> 4 * j <= b ->
    wrap32 (b - j + wrap32 (now mod (2 * j + 1))) <= b + j) as H.
  { intros b j Hb Hj Hbj. pose proof (Z.mod_pos_bound now (2 * j + 1) ltac:(lia)).
    unfold wrap32. rewrite (Z.mod_small (now mod _)) by lia. rewrite Z.mod_small; lia. }
  assert (r = 0 \/ r = 1 \/ r = 2) as [-> | [-> | ->]] by lia.
  - etrans; [apply (H 5000 1250); lia|lia].
  - etrans; [apply (H 10000 2500); lia|lia].
  - etrans; [apply (H 20000 5000); lia|lia].
Qed.

Lemma aborted_step now e m ar : calm e -> controller_ok m -> aborted ar -> is_u64 now ->
  is_u64 (ar_last_activity_ms ar) -> 25000 <= now - ar_last_activity_ms ar < 2 ^ 32 ->
  exists m' ar', process_ar now e m ar = Some (m', ar') /\ controller_ok m' /\
    (ar_st ar' = AR_STATE_CLOSE \/
     ar_retry_count ar < AR_MAX_RETRY_ATTEMPTS /\ aborted ar' /\
     ar_retry_count ar' = ar_retry_count ar + 1 /\ ar_last_activity_ms ar' = now).
Proof.
  intros He Hm Hab Hnow Hlast Helapsed. pose proof Hab as [Hok Hst Hidle Hn].
  unfold process_ar. rewrite Hidle, Hst. unfold recover_ar. cbv zeta.
  destruct (permanent_error _) ; cbn [orb].
  { eexists _, _. split; [reflexivity|]. split; [by apply (same_frame_controller m); [apply notify_same_frame|]|auto]. }
  destruct (Z.leb_spec AR_MAX_RETRY_ATTEMPTS (ar_retry_count ar)) as [|Hr].
  { eexists _, _. split; [reflexivity|]. split; [by apply (same_frame_controller m); [apply notify_same_frame|]|auto]. }
  pose proof (ao_retry _ Hok). unfold is_u64 in *.
  pose proof (backoff_bound now (ar_retry_count ar)) as Hb.
  rewrite u64_sub_le by (unfold is_u64; lia).
  unfold wrap32 at 1. rewrite Z.mod_small by lia.
  rewrite (proj2 (Z.ltb_ge _ _)) by lia.
  destruct (silent_release e m ar He) as (m1 & -> & F1).
  assert (controller_ok m1) as Hm1 by by apply (same_frame_controller m).
  set (ar0 := ar <| ar_retry_count ::= Z.succ |>).
  assert (aborted ar0) as Hab0.
  { split; try done. apply (keeps_fields m ar ar0); try done. cbn. lia. }
  destruct (silent_reconnect e m1 ar0 He Hm1 Hab0) as (res & m2 & ar2 & E & S2 & R2 & C2 & D2).
  rewrite E. rewrite bool_decide_eq_true_2 by congruence.
  apply reconnect_keeps in E as (F2 & _ & O2); [|apply He].
  eexists _, _. split; [reflexivity|]. split; [by apply (same_frame_controller m1)|]. right.
  split; [done|]. split; [|done]. split; try done. by apply (keeps_fields m ar2), O2, Hab0.
Qed.

(** Periodic processing of one AR at the given times and environments. *)
Fixpoint process_run (l : list (Z * net)) (m : ar_manager) (ar : profinet_ar)
    : option (ar_manager * profinet_ar) :=
  match l with
  | [] => Some (m, ar)
  | (now, e) :: l => match process_ar now e m ar with None => None | Some (m, ar) => process_run l m ar end
  end.

(** Times at least 25 s and less than 49 days apart. *)
Fixpoint spaced (last : Z) (l : list (Z * net)) : Prop :=
  match l with
  | [] => True
  | (now, _) :: l => is_u64 now /\ 25000 <= now - last < 2 ^ 32 /\ spaced now l
  end.

Lemma process_run_closed l m ar : ar_st ar = AR_STATE_CLOSE -> process_run l m ar = Some (m, ar).
Proof.
  intros Hst. induction l as [|[now e] l IH]; [done|]. cbn. unfold process_ar. rewrite Hst.
  by destruct (ar_connecting ar).
Qed.

(** C21: The recovery of an AR ends: while the device does not answer, at most one call more
    than the attempts left, the calls at least 25 s apart (the longest backoff), closes the
    AR, whichever modules the discovery finds and whichever allocations fail. *)
Theorem recovery_gives_up l m ar :
  aborted ar -> controller_ok m -> is_u64 (ar_last_activity_ms ar) ->
  spaced (ar_last_activity_ms ar) l -> Forall (fun c => calm c.2) l ->
  (Z.to_nat (AR_MAX_RETRY_ATTEMPTS - ar_retry_count ar) < length l)%nat ->
  exists m' ar', process_run l m ar = Some (m', ar') /\ ar_st ar' = AR_STATE_CLOSE.
Proof.
  revert m ar. induction l as [|[now e] l IH]; intros m ar Hab Hm Hlast Hsp Hl Hn; [cbn in Hn; lia|].
  destruct Hsp as (Hnow & Hd & Hsp). apply Forall_cons in Hl as [He Hl]. cbn [process_run length] in *.
  destruct (aborted_step now e m ar) as (m1 & ar1 & -> & Hm1 & [Hc|(Hr & Hab1 & Er & Ea)]); try done.
  { exists m1, ar1. by rewrite process_run_closed. }
  apply IH; try done; rewrite ?Ea, ?Er; try done.
  pose proof (ao_retry _ (ab_ok _ Hab)). lia.
Qed.

(** ** The watchdog *)

(** Health checks and received frames of one AR. *)
Inductive wd_event := WdCheck (now : Z) | WdActivity (now : Z).

Definition wd_step (ar : profinet_ar) (ev : wd_event) : profinet_ar :=
  match ev with
  | WdCheck now => (check_health_ar now (ar_manager_init [] EmptyString 0 0) ar).2
  | WdActivity now => ar <| ar_last_activity_ms := now |>
  end.

(** The outcome of the checks: whether the watchdog time had passed. *)
Fixpoint checks (watchdog last : Z) (evs : list wd_event) : list bool :=
  match evs with
  | [] => []
  | WdCheck now :: evs => (watchdog <? u64_sub now last) :: checks watchdog last evs
  | WdActivity now :: evs => checks watchdog now evs
  end.

(** Three expired checks in a row. *)
Definition three_in_a_row (l : list bool) : Prop :=
  exists i, l !! i = Some true /\ l !! S i = Some true /\ l !! S (S i) = Some true.

Lemma three_cons_false l : three_in_a_row (false :: l) <-> three_in_a_row l.
Proof.
  split; intros [i H].
  - destruct i as [|i]; [by destruct H|by exists i].
  - by exists (S i).
Qed.

Lemma three_after_false k l : (k < 3)%nat ->
  three_in_a_row (replicate k true ++ false :: l) <-> three_in_a_row l.
Proof.
  intros Hk. rewrite <- (three_cons_false l). destruct k as [|[|[|k]]]; [done| | |lia]; cbn; split; intros [i H].
  - destruct i as [|i]; [by destruct H as (_ & ? & _)|by exists i].
  - by exists (S i).
  - destruct i as [|[|i]]; [by destruct H as (_ & _ & ?)|by destruct H as (_ & ? & _)|by exists i].
  - by exists (S (S i)).
Qed.

Lemma wd_stopped ar evs : ar_st ar <> AR_STATE_RUN -> ar_st (foldl wd_step ar evs) = ar_st ar.
Proof.
  revert ar. induction evs as [|ev evs IH]; intros ar H; [done|]. cbn [foldl].
  assert (ar_st (wd_step ar ev) = ar_st ar) as E.
  { destruct ev; [|done]. cbn. unfold check_health_ar. by rewrite bool_decide_eq_false_2 by done. }
  rewrite IH; congruence.
Qed.

Lemma watchdog_from (k : nat) ar evs :
  ar_st ar = AR_STATE_RUN -> ar_connecting ar = false -> ar_missed_cycles ar = Z.of_nat k -> (k < 3)%nat ->
  let ar' := foldl wd_step ar evs in
  let l := replicate k true ++ checks (ar_watchdog_ms ar) (ar_last_activity_ms ar) evs in
  (three_in_a_row l -> ar_st ar' = AR_STATE_ABORT) /\ (~ three_in_a_row l -> ar_st ar' = AR_STATE_RUN).
Proof.
  revert k ar. induction evs as [|[now|now] evs IH]; intros k ar Hst Hc Hm Hk; cbn [foldl checks].
  - cbv zeta. rewrite app_nil_r. split; [|done]. intros (i & _ & _ & H%lookup_replicate). lia.
  - cbv zeta. unfold wd_step at 2 4, check_health_ar. rewrite bool_decide_eq_true_2, Hc by done.
    cbn [negb orb]. unfold watchdog_expired.
    destruct (ar_watchdog_ms ar <? u64_sub now (ar_last_activity_ms ar)) eqn:Ew.
    + rewrite Hm. destruct (Z.leb_spec WATCHDOG_MISS_THRESHOLD (Z.of_nat k + 1)) as [H3|H3];
        unfold WATCHDOG_MISS_THRESHOLD in H3; cbn [snd].
      * assert (k = 2%nat) as -> by lia. rewrite wd_stopped by done. split; [done|].
        intros []. by exists 0%nat.
      * destruct (IH (S k) (ar <| ar_missed_cycles := Z.of_nat k + 1 |>)) as [A B]; try done; [cbn; lia|lia|].
        cbn [ar_watchdog_ms ar_last_activity_ms set] in A, B.
        rewrite replicate_S_end, <- app_assoc in A, B. done.
    + cbn [snd]. rewrite (three_after_false k _ Hk). set (ar1 := if _ <? _ then _ else ar).
      assert (ar_st ar1 = AR_STATE_RUN /\ ar_connecting ar1 = false /\ ar_missed_cycles ar1 = Z.of_nat 0 /\
        ar_watchdog_ms ar1 = ar_watchdog_ms ar /\ ar_last_activity_ms ar1 = ar_last_activity_ms ar) as (E1 & E2 & E3 & E4 & E5).
      { unfold ar1. destruct (Z.ltb_spec 0 (ar_missed_cycles ar)); [done|]. split_and!; try done. lia. }
      destruct (IH 0%nat ar1) as [A B]; [done|done|done|lia|]. rewrite E4, E5 in A, B. done.
  - pose (ar1 := ar <| ar_last_activity_ms := now |>). exact (IH k ar1 Hst Hc Hm Hk).
Qed.

(** The watchdog of a running AR aborts it exactly at the third health check in a row that
    finds more than the watchdog time since the last activity; one or two late checks change
    nothing, for any sequence of checks and received frames. *)
Theorem watchdog_aborts_iff ar evs :
  ar_st ar = AR_STATE_RUN -> ar_connecting ar = false -> ar_missed_cycles ar = 0 ->
  let late := checks (ar_watchdog_ms ar) (ar_last_activity_ms ar) evs in
  (three_in_a_row late -> ar_st (foldl wd_step ar evs) = AR_STATE_ABORT) /\
  (~ three_in_a_row late -> ar_st (foldl wd_step ar evs) = AR_STATE_RUN).
Proof. intros Hst Hc Hm. apply (watchdog_from 0); try done. lia. Qed.

(** ** A controller with two stations *)

Module ArDemo.

Definition mac0 : list Z := [2; 0; 0; 0; 0; 1].
Definition uuid_of (k : Z) : list Z := replicate 15 0 ++ [k].

Definition config (name : string) (mac : Z) : ar_config :=
  mk_ar_config name [2; 0; 0; 0; 0; mac] (0xC0A80100 + mac) 1 1
    [mk_ar_slot_info 1 1 SLOT_TYPE_SENSOR MEASUREMENT_PH ACTUATOR_RELAY;
     mk_ar_slot_info 2 1 SLOT_TYPE_ACTUATOR MEASUREMENT_CUSTOM ACTUATOR_PUMP] 3000.

Definition quiet (modules : list ar_module) : net :=
  mk_net 0 (fun ip => inr (mk_rpc_context true ip 34964 1 (uuid_of 7))) (uuid_of 9) (uuid_of 8)
    (fun _ _ => inl WTC_ERROR_TIMEOUT) (fun _ => true) (fun _ => (WTC_OK, modules))
    (fun _ => false) (fun _ => (WTC_ERROR, [])).

Definition no_poll : wtc_result * list Z := (WTC_OK, []).

Definition create (k : Z) (name : string) : ar_op :=
  OpCreate (uuid_of k) true (fun _ => true) (config name k).
Definition m0 : ar_manager := ar_manager_init mac0 "controller" 1 1.
Definition plant : ar_manager := default m0 (ar_run [create 2 "rtu-a"; create 3 "rtu-b"] m0).
Definition rtu_a : profinet_ar := default zero_ar (mg_ars plant !! 0%nat).
Definition rtu_b : profinet_ar := default zero_ar (mg_ars plant !! 1%nat).

Lemma uuid_of_ok k : is_u8 k -> is_uuid (uuid_of k).
Proof. intros H. split; [done|]. repeat constructor; unfold is_u8 in *; lia. Qed.

Lemma create_is_ok k name : is_u8 k -> (String.length name <= 63)%nat -> op_ok (create k name).
Proof. intros H Hn. split; [by apply uuid_of_ok|]. split; [done|done|]. unfold WTC_MAX_SLOTS. cbn. lia. Qed.

Lemma quiet_ok mods : (length mods <= MAX_FITTING_MODULES)%nat -> calm (quiet mods).
Proof.
  intros H. split; [split| | |]; intros.
  - apply uuid_of_ok. unfold is_u8. lia.
  - done.
  - unfold MAX_FITTING_MODULES, AR_MAX_DISCOVERED_MODULES in *. cbn [quiet ne_http snd]. lia.
  - cbn. lia.
  - by eexists.
  - done.
  - cbn. lia.
Qed.

Definition scenario : list ar_op :=
  [create 2 "rtu-a"; create 3 "rtu-b"; create 2 "rtu-a"; OpConnect 0 (quiet []); OpDelete "rtu-b";
   OpProcess 30000 no_poll (fun _ => WTC_OK) (fun _ => quiet [])].

Lemma scenario_ok : Forall op_ok scenario.
Proof.
  pose proof (quiet_ok [] ltac:(unfold MAX_FITTING_MODULES; cbn; lia)) as [Hn _ _ _].
  repeat constructor; try apply create_is_ok; try done; unfold is_u8; cbn; try lia; try apply Hn.
Qed.

Lemma ar_table_invariant_witness :
  match ar_run scenario m0 with
  | Some m => manager_ok m /\ is_Some (ar_step (OpHealth 5) m)
  | None => False
  end.
Proof.
  destruct (ar_run scenario m0) as [m|] eqn:E.
  - destruct (ar_table_invariant mac0 "controller" 1 1 scenario m eq_refl scenario_ok E) as [H1 H2].
    split; [exact H1|]. by apply H2.
  - exfalso. revert E. vm_compute. discriminate.
Defined.

Lemma two_stations_ok : manager_ok plant.
Proof.
  apply (ar_run_ok [create 2 "rtu-a"; create 3 "rtu-b"] m0); [|by apply manager_init_ok|vm_compute; reflexivity].
  repeat constructor; try apply create_is_ok; try done; unfold is_u8; cbn; lia.
Qed.

Lemma rtu_a_ok : ar_ok rtu_a.
Proof. apply (Forall_lookup_1 _ _ 0 rtu_a (mo_ars _ two_stations_ok)). vm_compute. reflexivity. Qed.

Definition in_state (st : ar_state) (ar : profinet_ar) : profinet_ar := ar <| ar_st := st |>.

Lemma in_state_ok st ar : ar_ok ar -> ar_ok (in_state st ar).
Proof. intros [? ? ? ? ? ? ?]. by split. Qed.

Lemma cyclic_output_frame_witness :
  match ar_send_output_data 300000 true plant (in_state AR_STATE_RUN rtu_a) with
  | Some (WTC_OK, Some frame, _) => length frame = 64%nat
  | _ => False
  end.
Proof.
  destruct (cyclic_output_frame 300000 true plant (in_state AR_STATE_RUN rtu_a)
              (new_iocr true IOCR_TYPE_INPUT 0xC001 5 1 1) (new_iocr true IOCR_TYPE_OUTPUT 0xFFFF 4 1 1)
              (replicate 40 0)) as [_ E];
    [apply in_state_ok, rtu_a_ok|vm_compute; reflexivity..|].
  rewrite E. vm_compute. reflexivity.
Defined.

Lemma process_follows_protocol_witness :
  match ar_manager_process 5 no_poll (fun _ => WTC_OK) (fun _ => quiet [])
          (set_ar 0 (in_state AR_STATE_CONNECT_CNF rtu_a) plant) with
  | Some m => exists ar', mg_ars m !! 0%nat = Some ar' /\
                protocol_step (application_ready_for no_poll
                   (set_ar 0 (in_state AR_STATE_CONNECT_CNF rtu_a) plant) 0) AR_STATE_CONNECT_CNF (ar_st ar')
  | None => False
  end.
Proof.
  destruct (ar_manager_process 5 no_poll (fun _ => WTC_OK) (fun _ => quiet [])
          (set_ar 0 (in_state AR_STATE_CONNECT_CNF rtu_a) plant)) as [m|] eqn:E.
  - refine (process_follows_protocol _ _ _ _ _ _ 0 (in_state AR_STATE_CONNECT_CNF rtu_a) _ E _ _);
      [|vm_compute; reflexivity..].
    intros j. apply quiet_ok. unfold MAX_FITTING_MODULES. cbn. lia.
  - exfalso. revert E. vm_compute. discriminate.
Defined.

(** Four processing calls half a minute apart close an AR whose device is gone. *)
Definition attempts : list (Z * net) :=
  (fun k => (30000 * k, quiet [mk_ar_module 1 1 GSDML_MOD_PH 0x11])) <$> [1; 2; 3; 4].

Lemma recovery_gives_up_witness :
  exists m' ar', process_run attempts plant (in_state AR_STATE_ABORT rtu_a) = Some (m', ar') /\
    ar_st ar' = AR_STATE_CLOSE.
Proof.
  apply recovery_gives_up.
  - split; [apply in_state_ok, rtu_a_ok|vm_compute; reflexivity..|].
    unfold MAX_FITTING_MODULES. vm_compute. lia.
  - split; [apply (mo_mac _ two_stations_ok)|apply (mo_uuid _ two_stations_ok)].
  - unfold is_u64. vm_compute. split; [discriminate|reflexivity].
  - replace (ar_last_activity_ms (in_state AR_STATE_ABORT rtu_a)) with 0 by (vm_compute; reflexivity).
    cbn. unfold is_u64. lia.
  - apply Forall_fmap, Forall_true. intros k. apply quiet_ok. unfold MAX_FITTING_MODULES. cbn. lia.
  - vm_compute. lia.
Defined.

Definition late_checks : list wd_event :=
  [WdCheck 4000; WdCheck 5000; WdActivity 5500; WdCheck 6000; WdCheck 9000; WdCheck 9500; WdCheck 10000].

Lemma watchdog_aborts_iff_witness :
  ar_st (foldl wd_step (in_state AR_STATE_RUN rtu_a) late_checks) = AR_STATE_ABORT.
Proof.
  apply (watchdog_aborts_iff (in_state AR_STATE_RUN rtu_a) late_checks); [vm_compute; reflexivity..|].
  exists 3%nat. vm_compute. auto.
Defined.

(** Both stations are created with the input frame ID 0xC001, and a received frame is assigned
    by its frame ID alone: the data of the second station is stored for the first. *)
Definition frame_of_b : list Z :=
  mac0 ++ [2; 0; 0; 0; 0; 3] ++ be16 PROFINET_ETHERTYPE ++ be16 0xC001 ++ replicate 40 77 ++ [0; 1; 53; 0].

Theorem frames_of_second_station_misassigned :
  match ar_handle_rt_frame 1 1 frame_of_b plant with
  | Some (WTC_OK, m) =>
      (default [] ((default zero_ar (mg_ars m !! 0%nat)).(ar_iocr) !! 0%nat ≫= cr_data_buffer) = replicate 40 77) /\
      mg_ars m !! 1%nat = mg_ars plant !! 1%nat
  | _ => False
  end.
Proof. vm_compute. split; reflexivity. Qed.

(** A module difference of more than 64 entries is stored by the connect, and the retry copies
    it into an array of 64. *)
Definition many : list ar_module := replicate 65 (mk_ar_module 1 1 GSDML_MOD_PH 0x11).

Theorem retry_copies_behind_its_list :
  process_ar 30000 (quiet []) plant
    ((in_state AR_STATE_ABORT rtu_a) <| ar_has_discovered_modules := true |> <| ar_discovered := many |>) = None.
Proof. vm_compute. reflexivity. Qed.

(** Without an RPC context an AR stays in PRMSRV for good. *)
Theorem parameterisation_without_rpc_stuck :
  mg_rpc plant = None /\
  process_ar 1000000 (quiet []) plant (in_state AR_STATE_PRMSRV rtu_a) =
    Some (plant, in_state AR_STATE_PRMSRV rtu_a).
Proof. vm_compute. split; reflexivity. Qed.

End ArDemo.
