(* ===== verification/PnController.v ===== *)
(** * The PROFINET controller: [src/profinet/profinet_controller.c]

    The part above discovery (Dcp.v) and application relationships (ArManager.v): the routing
    of received frames, the delivery of sensor data, the queue of discovered stations, connect
    and disconnect, the access to inputs and outputs, record requests, and the cycle. *)

From S2P Require Import Prelude Types Wire Frame Dcp Cyclic Rpc ArManager ArProtocol.

(** ** Data *)

Definition MAX_PENDING_CONNECTS : nat := 64.
Definition WTC_MAX_RTUS : nat := 256.
Definition PN_VENDOR_ID : Z := 626.
Definition PN_DEVICE_ID : Z := 3077.
Definition FRAME_HEADER_SIZE : Z := 16.
Definition PROFINET_FRAME_ID_RTC1_MIN : Z := 0xC000.
Definition PROFINET_FRAME_ID_RTC1_MAX : Z := 0xF7FF.

(** The calls of the application's callbacks. *)
Inductive app_event :=
| EvDeviceAdded (station ip : string) (vendor_id device_id : Z)
| EvDeviceRemoved (station : string)
| EvStateChanged (station : string) (state : profinet_state)
| EvDataReceived (station : string) (sensor_index : Z) (data : list Z)
| EvSlotsDiscovered (station : string) (slots : list ar_slot_info).

(** Which callbacks of [profinet_config_t] are set. *)
Record pn_callbacks := mk_pn_callbacks {
  on_device_added : bool;
  on_device_removed : bool;
  on_device_state_changed : bool;
  on_data_received : bool;
  on_slots_discovered : bool }.

(** [cycle_stats_t] *)
Record cycle_stats := mk_cycle_stats {
  cyc_count : Z;
  cyc_min : Z;
  cyc_max : Z;
  cyc_avg : Z;
  cyc_overruns : Z }.

(** The part of [profinet_config_t] that the code uses. *)
Record pn_config := mk_pn_config {
  pf_ip_address : Z;
  pf_vendor_id : Z;
  pf_device_id : Z;
  pf_station_name : string;
  pf_cycle_time_us : Z;
  pf_callbacks : pn_callbacks }.

(** [struct profinet_controller]; [pc_events] are the callback invocations so far. *)
Record profinet_controller := mk_profinet_controller {
  pc_callbacks : pn_callbacks;
  pc_cycle_time_us : Z;
  pc_dcp : dcp_discovery;
  pc_ar_manager : ar_manager;
  pc_running : bool;
  pc_stats : cycle_stats;
  pc_pending : list (string * string);
  pc_events : list app_event }.

#[export] Instance eta_profinet_controller : Eta profinet_controller := fun r =>
  mk_profinet_controller (pc_callbacks r) (pc_cycle_time_us r) (pc_dcp r) (pc_ar_manager r)
    (pc_running r) (pc_stats r) (pc_pending r) (pc_events r).

Definition emit_event (ev : app_event) (ctrl : profinet_controller) : profinet_controller :=
  ctrl <| pc_events ::= fun l => l ++ [ev] |>.

(** ** Callbacks *)

Definition ar_state_to_profinet_state (s : ar_state) : profinet_state :=
  match s with
  | AR_STATE_RUN => PROFINET_STATE_RUNNING
  | AR_STATE_INIT | AR_STATE_CONNECT_REQ | AR_STATE_CONNECT_CNF | AR_STATE_PRMSRV
  | AR_STATE_READY => PROFINET_STATE_CONNECTING
  | AR_STATE_CLOSE => PROFINET_STATE_OFFLINE
  | AR_STATE_ABORT => PROFINET_STATE_ERROR
  end.

Definition ar_state_change_callback (ctrl : profinet_controller) (change : string * ar_state * ar_state)
    : profinet_controller :=
  let '(station, old, new) := change in
  let ctrl := if on_device_state_changed (pc_callbacks ctrl)
              then emit_event (EvStateChanged station (ar_state_to_profinet_state new)) ctrl else ctrl in
  if bool_decide (new = AR_STATE_CLOSE) && bool_decide (old <> AR_STATE_CLOSE) &&
     on_device_removed (pc_callbacks ctrl)
  then emit_event (EvDeviceRemoved station) ctrl else ctrl.

(** An operation of the AR manager: its result is stored, and the state changes that it
    reported go through the callback. *)
Definition set_manager (m : ar_manager) (ctrl : profinet_controller) : profinet_controller :=
  let news := drop (length (mg_trace (pc_ar_manager ctrl))) (mg_trace m) in
  foldl ar_state_change_callback (ctrl <| pc_ar_manager := m |>) news.

Definition ip_text (ip : Z) : string := default EmptyString (ip_to_string ip 16).

Definition dcp_callback (ctrl : profinet_controller) (d : dcp_device_info) : profinet_controller :=
  let name := dd_station_name d in
  let ip_str := ip_text (dd_ip_address d) in
  let ctrl := if on_device_added (pc_callbacks ctrl)
              then emit_event (EvDeviceAdded (strncpy 63 name) (strncpy 15 ip_str)
                                 (dd_vendor_id d) (dd_device_id d)) ctrl else ctrl in
  match ar_manager_get_ar name (pc_ar_manager ctrl) with
  | Some _ => ctrl
  | None =>
      if negb (existsb (fun p => String.eqb p.1 name) (pc_pending ctrl)) &&
         (length (pc_pending ctrl) <? MAX_PENDING_CONNECTS)%nat
      then ctrl <| pc_pending ::= fun l => l ++ [(strncpy 63 name, strncpy 15 ip_str)] |>
      else ctrl
  end.

(** [dcp_process_frame] called by the receive thread: the callbacks it makes. *)
Definition set_dcp (dcp : dcp_discovery) (ctrl : profinet_controller) : profinet_controller :=
  let news := drop (length (dc_trace (pc_dcp ctrl))) (dc_trace dcp) in
  foldl dcp_callback (ctrl <| pc_dcp := dcp |>) news.

(** ** The receive thread *)

(** The sensor loop: 5 bytes of data and a status byte per sensor slot.  [None]: a read
    behind the buffer. *)
Fixpoint deliver_slots (station : string) (data_length : Z) (b : list Z) (slots : list ar_slot_info)
    (offset sensor_idx : Z) : option (list app_event) :=
  match slots with
  | [] => Some []
  | s :: slots =>
      if bool_decide (si_type s = SLOT_TYPE_SENSOR) then
        let rest := deliver_slots station data_length b slots
                      (wrap16 (offset + (GSDML_INPUT_DATA_SIZE + 1))) (sensor_idx + 1) in
        if offset + GSDML_INPUT_DATA_SIZE <=? data_length then
          if offset + GSDML_INPUT_DATA_SIZE <=? Z.of_nat (length b)
          then l ← rest;
               Some (EvDataReceived station sensor_idx
                       (sub (Z.to_nat offset) (Z.to_nat GSDML_INPUT_DATA_SIZE) b) :: l)
          else None
        else rest
      else deliver_slots station data_length b slots offset sensor_idx
  end.

Definition count_sensors (slots : list ar_slot_info) : Z :=
  Z.of_nat (length (filter (fun s => si_type s = SLOT_TYPE_SENSOR) slots)).

(** Where the data of the first sensor begins: behind the status bytes of the other objects. *)
Definition first_offset (cr : iocr) (slots : list ar_slot_info) : Z :=
  wrap16 (cr_iodata_count cr - count_sensors slots).

Definition delivers (frame_id : Z) (cr : iocr) : Prop :=
  cr_type cr = IOCR_TYPE_INPUT /\ cr_frame_id cr = frame_id /\ is_Some (cr_data_buffer cr).
#[export] Instance delivers_dec fid cr : Decision (delivers fid cr).
Proof. unfold delivers. apply _. Defined.

Definition deliver_inputs (frame_id : Z) (ar : profinet_ar) : option (list app_event) :=
  match list_find (delivers frame_id) (ar_iocr ar) with
  | Some (_, cr) =>
      match cr_data_buffer cr with
      | Some b => deliver_slots (ar_device_station_name ar) (cr_data_length cr) b (ar_slots ar)
                    (first_offset cr (ar_slots ar)) 0
      | None => Some []
      end
  | None => Some []
  end.

(** A frame of the cyclic range. *)
Definition recv_rt_frame (now_ms now_us frame_id : Z) (frame : list Z) (ctrl : profinet_controller)
    : option profinet_controller :=
  match ar_handle_rt_frame now_ms now_us frame (pc_ar_manager ctrl) with
  | None => None
  | Some (res, m) =>
      let ctrl := set_manager m ctrl in
      if bool_decide (res = WTC_OK) && on_data_received (pc_callbacks ctrl) then
        match ar_manager_get_ar_by_frame_id frame_id (pc_ar_manager ctrl) with
        | Some (_, ar) =>
            if bool_decide (ar_st ar = AR_STATE_RUN)
            then evs ← deliver_inputs frame_id ar; Some (ctrl <| pc_events ::= fun l => l ++ evs |>)
            else Some ctrl
        | None => Some ctrl
        end
      else Some ctrl
  end.

(** The body of the loop of [recv_thread_func] for a received frame. *)
Definition recv_frame (now_ms now_us : Z) (frame : list Z) (ctrl : profinet_controller)
    : option profinet_controller :=
  if Z.of_nat (length frame) <? FRAME_HEADER_SIZE then Some ctrl
  else
    match ('(dst, src, etype) <-- frame_parse_ethernet;;
           if negb (etype =? PROFINET_ETHERTYPE) then wfail WTC_ERROR_PROTOCOL
           else frame_read_u16) (frame_parser_init frame (Z.of_nat (length frame))) with
    | Oob => None
    | Fail _ _ => Some ctrl
    | Ok frame_id _ =>
        if (PROFINET_FRAME_ID_DCP <=? frame_id) && (frame_id <=? PROFINET_FRAME_ID_DCP_IDENT_RESP) then
          match dcp_process_frame now_ms (pc_dcp ctrl) frame with
          | None => None
          | Some (_, dcp) => Some (set_dcp dcp ctrl)
          end
        else if (PROFINET_FRAME_ID_RTC1_MIN <=? frame_id) && (frame_id <=? PROFINET_FRAME_ID_RTC1_MAX)
        then recv_rt_frame now_ms now_us frame_id frame ctrl
        else Some ctrl
    end.

(** ** The cycle *)

Definition update_stats (cycle_time elapsed : Z) (st : cycle_stats) : cycle_stats :=
  let count := wrap64 (cyc_count st + 1) in
  mk_cycle_stats count
    (if (elapsed <? cyc_min st) || (cyc_min st =? 0) then elapsed else cyc_min st)
    (if cyc_max st <? elapsed then elapsed else cyc_max st)
    (wrap64 (wrap64 (cyc_avg st * u64_sub count 1) + elapsed) / count)
    (if cycle_time <? elapsed then wrap64 (cyc_overruns st + 1) else cyc_overruns st).

(** The output loop: each running AR among the first [WTC_MAX_RTUS]. *)
Definition send_outputs (now_us : Z) (sent : nat -> bool) (m : ar_manager) : option ar_manager :=
  each_ar (fun i m ar =>
    if bool_decide (ar_st ar = AR_STATE_RUN) then
      match ar_send_output_data now_us (sent i) m ar with
      | None => None | Some (_, _, ar) => Some (m, ar) end
    else Some (m, ar)) (seq 0 (length (ar_manager_get_all m WTC_MAX_RTUS))) m.

(** One round of [cyclic_thread_func]; [elapsed] is what the timer measured. *)
Definition cyclic_round (now now_us elapsed : Z) (poll : wtc_result * list Z)
    (respond : list Z -> wtc_result) (nets : nat -> net) (sent : nat -> bool)
    (ctrl : profinet_controller) : option profinet_controller :=
  match ar_manager_process now poll respond nets (pc_ar_manager ctrl) with
  | None => None
  | Some m =>
      match ar_manager_check_health now m with
      | None => None
      | Some m =>
          match send_outputs now_us sent m with
          | None => None
          | Some m =>
              let ctrl := set_manager m ctrl in
              Some (ctrl <| pc_stats := update_stats (pc_cycle_time_us ctrl) elapsed (pc_stats ctrl) |>)
          end
      end
  end.

Definition profinet_controller_get_stats (ctrl : profinet_controller) : cycle_stats := pc_stats ctrl.

(** ** Life cycle *)

Definition hex_lower (b : Z) : string :=
  let digit v := Ascii.ascii_of_nat (Z.to_nat (if v <? 10 then 48 + v else 87 + v)) in
  String (digit (b / 16)) (String (digit (b mod 16)) EmptyString).

Definition controller_name (cfg : pn_config) (mac : list Z) : string :=
  match pf_station_name cfg with
  | EmptyString => "controller-" +:+ hex_lower (nth 4 mac 0) +:+ hex_lower (nth 5 mac 0)
  | s => strncpy 63 s
  end.

(** [profinet_controller_init] once the socket is there; [mac] and [interface_ip] are those of
    the interface. *)
Definition profinet_controller_init (cfg : pn_config) (mac : list Z) (interface_ip : Z)
    : profinet_controller :=
  let m := ar_manager_set_state_callback true
             (ar_manager_init mac (controller_name cfg mac) (pf_vendor_id cfg) (pf_device_id cfg)) in
  let ip := if (pf_ip_address cfg =? 0) && negb (interface_ip =? 0) then interface_ip
            else pf_ip_address cfg in
  let m := if ip =? 0 then m else ar_manager_set_controller_ip ip m in
  mk_profinet_controller (pf_callbacks cfg)
    (if pf_cycle_time_us cfg =? 0 then 1000000 else pf_cycle_time_us cfg)
    (dcp_discovery_init mac) m false (mk_cycle_stats 0 0 0 0 0) [] [].

(** [profinet_controller_discover_all]: a DCP identify request to all devices. *)
Definition profinet_controller_discover_all (send_ok : bool) (ctrl : profinet_controller)
    : option (wtc_result * profinet_controller) :=
  match dcp_discovery_identify_all send_ok (pc_dcp ctrl) with
  | None => None
  | Some (res, dcp, _) => Some (res, ctrl <| pc_dcp := dcp |>)
  end.

Definition profinet_controller_get_discovered_devices (max_devices : Z) (ctrl : profinet_controller)
    : option (list dcp_device_info) := dcp_get_devices (pc_dcp ctrl) max_devices.

(** [profinet_controller_start]; the two flags: the threads are created. *)
Definition profinet_controller_start (recv_ok cyclic_ok send_ok : bool) (ctrl : profinet_controller)
    : option (wtc_result * profinet_controller) :=
  if pc_running ctrl then Some (WTC_OK, ctrl)
  else
    let ctrl := (ctrl <| pc_running := true |>) <| pc_dcp ::= fun d => dcp_discovery_start d true |> in
    if negb recv_ok || negb cyclic_ok then Some (WTC_ERROR, ctrl <| pc_running := false |>)
    else match profinet_controller_discover_all send_ok ctrl with
         | None => None
         | Some (_, ctrl) => Some (WTC_OK, ctrl)
         end.

Definition profinet_controller_stop (ctrl : profinet_controller) : wtc_result * profinet_controller :=
  if negb (pc_running ctrl) then (WTC_OK, ctrl)
  else (WTC_OK, (ctrl <| pc_running := false |>) <| pc_dcp ::= dcp_discovery_stop |>).

(** ** Connecting *)

(** [inet_pton(AF_INET, ...)]: four decimal numbers up to 255 without leading zeros, in host
    byte order. *)
Definition digit_of (c : Ascii.ascii) : option Z :=
  let n := Z.of_nat (Ascii.nat_of_ascii c) in
  if (48 <=? n) && (n <=? 57) then Some (n - 48) else None.

Fixpoint pton_loop (s : string) (saw_digit : bool) (octets : nat) (cur acc : Z) : option Z :=
  match s with
  | EmptyString => if saw_digit && (octets =? 4)%nat then Some (acc * 256 + cur) else None
  | String c s =>
      match digit_of c with
      | Some d =>
          if saw_digit && (cur =? 0) then None
          else if 255 <? cur * 10 + d then None
          else if saw_digit then pton_loop s true octets (cur * 10 + d) acc
          else if (octets =? 4)%nat then None else pton_loop s true (S octets) d acc
      | None =>
          if Ascii.eqb c (Ascii.ascii_of_nat 46) && saw_digit && negb (octets =? 4)%nat
          then pton_loop s false octets 0 (acc * 256 + cur) else None
      end
  end.

Definition inet_pton (s : string) : option Z := pton_loop s false 0 0 0.

Definition target_ip (device_ip : option string) : Z :=
  match device_ip with
  | Some s => default 0 (inet_pton s)
  | None => 0
  end.

Definition named (name : string) (d : dcp_device_info) : Prop := dd_station_name d = name.
#[export] Instance named_dec name d : Decision (named name d).
Proof. unfold named. apply _. Defined.
Definition has_ip (ip : Z) (d : dcp_device_info) : Prop := dd_ip_address d = ip.
#[export] Instance has_ip_dec ip d : Decision (has_ip ip d).
Proof. unfold has_ip. apply _. Defined.

(** The three attempts to find MAC and IP address: by name, by IP, by ARP ([arp]). *)
Definition lookup_device (arp : Z -> option (list Z)) (devices : list dcp_device_info)
    (name : string) (ip : Z) : option (list Z * Z) :=
  let addresses (d : dcp_device_info) := (dd_mac_address d, dd_ip_address d) in
  match list_find (named name) devices with
  | Some (_, d) => Some (addresses d)
  | None =>
      if ip =? 0 then None
      else match list_find (has_ip ip) devices with
           | Some (_, d) => Some (addresses d)
           | None => mac ← arp ip; Some (mac, ip)
           end
  end.

Definition ar_config_for (name : string) (mac : list Z) (ip : Z) (slots : list ar_slot_info) : ar_config :=
  mk_ar_config (strncpy 63 name) mac ip PN_VENDOR_ID PN_DEVICE_ID slots DEFAULT_WATCHDOG_MS.

(** What surrounds a connect: the socket for the DCP request, ARP, the UUID and allocations
    of the AR, and the network. *)
Record connect_env := mk_connect_env {
  ce_send_ok : bool;
  ce_arp : Z -> option (list Z);
  ce_uuid : list Z;
  ce_alloc : bool;
  ce_allocs : nat -> bool;
  ce_net : net }.

(** The new AR after the blocking connect: [connecting] is off again, a failure leaves it in
    ABORT with one attempt counted. *)
Definition finish_connect (now : Z) (res : wtc_result) (ar : profinet_ar) : profinet_ar :=
  let ar := ar <| ar_connecting := false |> in
  if bool_decide (res = WTC_OK) then ar
  else ar <| ar_st := AR_STATE_ABORT |> <| ar_last_error := res |>
          <| ar_retry_count ::= Z.succ |> <| ar_last_activity_ms := now |>.

(** [profinet_controller_connect]; [None]: memory outside a buffer was accessed. *)
Definition profinet_controller_connect (env : connect_env) (name : string) (device_ip : option string)
    (slots : list ar_slot_info) (ctrl : profinet_controller) : option (wtc_result * profinet_controller) :=
  match ar_manager_get_ar name (pc_ar_manager ctrl) with
  | Some _ => Some (WTC_ERROR_ALREADY_EXISTS, ctrl)
  | None =>
      let ip := target_ip device_ip in
      match profinet_controller_discover_all (ce_send_ok env) ctrl with
      | None => None
      | Some (_, ctrl) =>
          match lookup_device (ce_arp env) (default [] (dcp_get_devices (pc_dcp ctrl) 64)) name ip with
          | None => Some (WTC_ERROR_NOT_FOUND, ctrl)
          | Some (mac, dev_ip) =>
              if (WTC_MAX_SLOTS <? length slots)%nat then None
              else
                let '(res, m) := ar_manager_create_ar (ce_uuid env) (ce_alloc env) (ce_allocs env)
                                   (ar_config_for name mac dev_ip slots) (pc_ar_manager ctrl) in
                if negb (bool_decide (res = WTC_OK)) then Some (res, set_manager m ctrl)
                else
                  let i := (length (mg_ars m) - 1)%nat in
                  match mg_ars m !! i with
                  | None => None
                  | Some ar =>
                      let ar := ar <| ar_connecting := true |> in
                      match (if (length slots =? 0)%nat then ar_connect_with_discovery (ce_net env) m ar
                             else ar_send_connect_request (ce_net env) m ar) with
                      | None => None
                      | Some (res, m, ar) =>
                          let ctrl := set_manager (set_ar i (finish_connect (ne_now (ce_net env)) res ar) m) ctrl in
                          if bool_decide (res = WTC_OK) && on_slots_discovered (pc_callbacks ctrl) &&
                             (0 <? length (ar_slots ar))%nat
                          then Some (res, emit_event (EvSlotsDiscovered name (ar_slots ar)) ctrl)
                          else Some (res, ctrl)
                      end
                  end
          end
      end
  end.

(** [profinet_controller_process]: the queue is emptied and each entry connected; [envs k] is
    the environment of the [k]-th connect. *)
Fixpoint connect_all (envs : nat -> connect_env) (k : nat) (l : list (string * string))
    (ctrl : profinet_controller) : option profinet_controller :=
  match l with
  | [] => Some ctrl
  | (name, ip) :: l =>
      match profinet_controller_connect (envs k) name (Some ip) [] ctrl with
      | None => None
      | Some (_, ctrl) => connect_all envs (S k) l ctrl
      end
  end.

Definition profinet_controller_process (envs : nat -> connect_env) (now : Z)
    (poll : wtc_result * list Z) (respond : list Z -> wtc_result) (nets : nat -> net)
    (ctrl : profinet_controller) : option (wtc_result * profinet_controller) :=
  match connect_all envs 0 (pc_pending ctrl) (ctrl <| pc_pending := [] |>) with
  | None => None
  | Some ctrl =>
      if pc_running ctrl then Some (WTC_OK, ctrl)
      else match ar_manager_process now poll respond nets (pc_ar_manager ctrl) with
           | None => None
           | Some m => Some (WTC_OK, set_manager m ctrl)
           end
  end.

Definition profinet_controller_disconnect (e : net) (name : string) (ctrl : profinet_controller)
    : option (wtc_result * profinet_controller) :=
  match ar_manager_get_ar name (pc_ar_manager ctrl) with
  | None => Some (WTC_ERROR_NOT_FOUND, ctrl)
  | Some (i, ar) =>
      match ar_send_release_request e (pc_ar_manager ctrl) ar with
      | None => None
      | Some (_, m, ar) =>
          let ctrl := set_manager (set_ar i ar m) ctrl in
          let '(res, m) := ar_manager_delete_ar name (pc_ar_manager ctrl) in
          Some (res, set_manager m ctrl)
      end
  end.

Definition profinet_controller_get_ar (name : string) (ctrl : profinet_controller) : option profinet_ar :=
  snd <$> ar_manager_get_ar name (pc_ar_manager ctrl).

(** ** Inputs and outputs *)

(** The first IOCR of a type that has a buffer. *)
Definition buffered (t : iocr_type) (cr : iocr) : Prop := cr_type cr = t /\ is_Some (cr_data_buffer cr).
#[export] Instance buffered_dec t cr : Decision (buffered t cr).
Proof. unfold buffered. apply _. Defined.

(** The loop over [slot_info]: the offset of the first entry of type [t] with slot number
    [slot], each entry of the type before it taking [size] bytes. *)
Fixpoint slot_offset (t : slot_type) (size slot : Z) (slots : list ar_slot_info) (offset : Z) : option Z :=
  match slots with
  | [] => None
  | s :: slots =>
      if bool_decide (si_type s = t) then
        if si_slot s =? wrap16 slot then Some offset
        else slot_offset t size slot slots (wrap16 (offset + size))
      else slot_offset t size slot slots offset
  end.

(** [profinet_controller_read_input]: code, bytes and status; [len] is the room given.
    [None]: a read behind the buffer. *)
Definition profinet_controller_read_input (ctrl : profinet_controller) (name : string) (slot len : Z)
    : option (wtc_result * list Z * iops) :=
  match ar_manager_get_ar name (pc_ar_manager ctrl) with
  | None => Some (WTC_ERROR_NOT_FOUND, [], IOPS_BAD)
  | Some (_, ar) =>
      if negb (bool_decide (ar_st ar = AR_STATE_RUN)) then Some (WTC_ERROR_NOT_INITIALIZED, [], IOPS_BAD)
      else
        match list_find (buffered IOCR_TYPE_INPUT) (ar_iocr ar) with
        | Some (_, cr) =>
            let b := default [] (cr_data_buffer cr) in
            match slot_offset SLOT_TYPE_SENSOR GSDML_INPUT_DATA_SIZE slot (ar_slots ar) 0 with
            | Some offset =>
                if offset + GSDML_INPUT_DATA_SIZE <=? cr_data_length cr then
                  let copy_len := if GSDML_INPUT_DATA_SIZE <=? len then GSDML_INPUT_DATA_SIZE else len in
                  if offset + copy_len <=? Z.of_nat (length b)
                  then Some (WTC_OK, sub (Z.to_nat offset) (Z.to_nat copy_len) b, IOPS_GOOD)
                  else None
                else Some (WTC_ERROR_NOT_FOUND, [], IOPS_BAD)
            | None => Some (WTC_ERROR_NOT_FOUND, [], IOPS_BAD)
            end
        | None => Some (WTC_ERROR_NOT_FOUND, [], IOPS_BAD)
        end
  end.

Definition profinet_controller_write_output (name : string) (slot : Z) (data : list Z)
    (ctrl : profinet_controller) : option (wtc_result * profinet_controller) :=
  match ar_manager_get_ar name (pc_ar_manager ctrl) with
  | None => Some (WTC_ERROR_NOT_FOUND, ctrl)
  | Some (i, ar) =>
      if negb (bool_decide (ar_st ar = AR_STATE_RUN)) then Some (WTC_ERROR_NOT_INITIALIZED, ctrl)
      else
        match list_find (buffered IOCR_TYPE_OUTPUT) (ar_iocr ar) with
        | Some (j, cr) =>
            let b := default [] (cr_data_buffer cr) in
            match slot_offset SLOT_TYPE_ACTUATOR GSDML_OUTPUT_DATA_SIZE slot (ar_slots ar) 0 with
            | Some offset =>
                let bytes := take (Z.to_nat GSDML_OUTPUT_DATA_SIZE) data in
                let write_len := Z.of_nat (length bytes) in
                if offset + write_len <=? cr_data_length cr then
                  if offset + write_len <=? Z.of_nat (length b)
                  then Some (WTC_OK, ctrl <| pc_ar_manager ::= set_ar i
                         (upd_iocr j (fun cr => cr <| cr_data_buffer :=
                            Some (write_at (Z.to_nat offset) bytes b) |>) ar) |>)
                  else None
                else Some (WTC_ERROR_NOT_FOUND, ctrl)
            | None => Some (WTC_ERROR_NOT_FOUND, ctrl)
            end
        | None => Some (WTC_ERROR_NOT_FOUND, ctrl)
        end
  end.

(** ** Records *)

Definition RPC_OPNUM_WRITE : Z := 3.
Definition BLOCK_TYPE_IOD_WRITE_REQ_HEADER : Z := 0x0008.

(** [build_rpc_record_request]; [write]: the data of a write request.  The header fields are
    zero where the code sets nothing; the fragment length is stored in network order. *)
Definition build_rpc_record_request (activity ar_uuid : list Z) (api slot subslot index : Z)
    (write : option (list Z)) (buf_len : Z) : wtc_result + option (list Z) :=
  if buf_len <? Z.of_nat RPC_HEADER_SIZE + 64 then inl WTC_ERROR_NO_MEMORY
  else
    let data := default [] write in
    let is_write := bool_decide (is_Some write) in
    let len := Z.of_nat (length data) in
    let body :=
      be16 (if is_write then BLOCK_TYPE_IOD_WRITE_REQ_HEADER else BLOCK_TYPE_IOD_READ_REQ_HEADER) ++
      be16 (if is_write then wrap16 (24 + len) else 24) ++ [1; 0] ++ be16 1 ++ ar_uuid ++
      be32 api ++ be16 slot ++ be16 subslot ++ [0; 0] ++ be16 index ++
      be32 (if is_write then wrap32 len else 0) ++ data in
    let header :=
      [4; RPC_PACKET_TYPE_REQUEST; 0x22; 0; RPC_DREP_LITTLE_ENDIAN; 0; 0; 0] ++
      uuid_swap_fields ar_uuid ++ uuid_swap_fields PNIO_DEVICE_INTERFACE_UUID ++
      uuid_swap_fields activity ++ le32 0 ++ le32 1 ++ le32 0 ++
      le16 (if is_write then RPC_OPNUM_WRITE else RPC_OPNUM_READ) ++ le16 0 ++ le16 0 ++
      be16 (wrap16 (Z.of_nat (length body))) ++ le16 0 ++ [0; 0] in
    let pdu := header ++ body in
    inr (if buf_len <? Z.of_nat (length pdu) then None else Some pdu).

(** The AR and the RPC context of a record request, or the error. *)
Definition record_target (ctrl : profinet_controller) (name : string) : wtc_result + profinet_ar :=
  match ar_manager_get_ar name (pc_ar_manager ctrl) with
  | None => inl WTC_ERROR_NOT_FOUND
  | Some (_, ar) =>
      if negb (bool_decide (ar_st ar = AR_STATE_RUN)) then inl WTC_ERROR_NOT_CONNECTED
      else match mg_rpc (pc_ar_manager ctrl) with
           | None => inl WTC_ERROR_NOT_CONNECTED
           | Some _ => inr ar
           end
  end.

(** The record in a read response of at most 2048 bytes; [len]: the room for it. *)
Definition extract_record (resp : list Z) (len : Z) : wtc_result * list Z :=
  let resp_len := Z.of_nat (length resp) in
  if resp_len <? Z.of_nat RPC_HEADER_SIZE + 40 then (WTC_ERROR_PROTOCOL, [])
  else if negb (nth 1 resp 0 =? RPC_PACKET_TYPE_RESPONSE) then (WTC_ERROR_PROTOCOL, [])
  else
    let data_offset := Z.of_nat RPC_HEADER_SIZE + 38 in
    let record_len := of_be 0 (sub (RPC_HEADER_SIZE + 34) 4 resp) in
    let record_len := if resp_len - data_offset <? record_len then resp_len - data_offset else record_len in
    let copy_len := if record_len <? len then record_len else len in
    (WTC_OK, sub (Z.to_nat data_offset) (Z.to_nat copy_len) resp).

(** [profinet_controller_read_record]; [send]: the answer of the device to a request. *)
Definition profinet_controller_read_record (send : Z -> transport) (activity : list Z)
    (ctrl : profinet_controller) (name : string) (api slot subslot index len : Z)
    : option (wtc_result * list Z) :=
  match record_target ctrl name with
  | inl e => Some (e, [])
  | inr ar =>
      match build_rpc_record_request activity (ar_uuid ar) api slot subslot index None 512 with
      | inl e => Some (e, [])
      | inr None => None
      | inr (Some pdu) =>
          match send (ar_device_ip ar) pdu with
          | inl e => Some (e, [])
          | inr resp => Some (extract_record (take 2048 resp) len)
          end
      end
  end.

Definition profinet_controller_write_record (send : Z -> transport) (activity : list Z)
    (ctrl : profinet_controller) (name : string) (api slot subslot index : Z) (data : list Z)
    : option wtc_result :=
  match record_target ctrl name with
  | inl e => Some e
  | inr ar =>
      match build_rpc_record_request activity (ar_uuid ar) api slot subslot index (Some data) 2048 with
      | inl e => Some e
      | inr None => None
      | inr (Some pdu) =>
          match send (ar_device_ip ar) pdu with
          | inl e => Some e
          | inr resp =>
              let resp := take 512 resp in
              Some (if (length resp <? RPC_HEADER_SIZE)%nat ||
                       negb (nth 1 resp 0 =? RPC_PACKET_TYPE_RESPONSE)
                    then WTC_ERROR_PROTOCOL else WTC_OK)
          end
      end
  end.

(** ** Callbacks leave the components alone *)

Lemma state_callbacks_frame news ctrl :
  pc_ar_manager (foldl ar_state_change_callback ctrl news) = pc_ar_manager ctrl /\
  pc_pending (foldl ar_state_change_callback ctrl news) = pc_pending ctrl /\
  pc_dcp (foldl ar_state_change_callback ctrl news) = pc_dcp ctrl /\
  pc_callbacks (foldl ar_state_change_callback ctrl news) = pc_callbacks ctrl.
Proof.
  revert ctrl. induction news as [|[[n o] s] news IH]; intros ctrl; [done|]. cbn [foldl].
  destruct (IH (ar_state_change_callback ctrl (n, o, s))) as (-> & -> & -> & ->).
  unfold ar_state_change_callback. by repeat case_match.
Qed.

Lemma set_manager_am m ctrl : pc_ar_manager (set_manager m ctrl) = m.
Proof. unfold set_manager. by rewrite (proj1 (state_callbacks_frame _ _)). Qed.
Lemma set_manager_pending m ctrl : pc_pending (set_manager m ctrl) = pc_pending ctrl.
Proof. unfold set_manager. by rewrite (proj1 (proj2 (state_callbacks_frame _ _))). Qed.

Lemma dcp_callbacks_frame news ctrl :
  pc_ar_manager (foldl dcp_callback ctrl news) = pc_ar_manager ctrl.
Proof.
  revert ctrl. induction news as [|d news IH]; intros ctrl; [done|]. cbn [foldl]. rewrite IH.
  unfold dcp_callback. by repeat case_match.
Qed.

(** ** Sensor data arrives from where the connect request put it *)

(** Identifiers of a module and its submodule that say the same. *)
Definition idents_agree (md : ar_module) : Prop :=
  if is_input_module (md_module_ident md) then 0x11 <= md_submodule_ident md <= 0x71
  else 0x101 <= md_submodule_ident md <= 0x121.

(** The offsets of the sensor data in the input C-SDU, as the connect request announces them. *)
Definition announced_inputs (offset : Z) (es : list expected_submodule) : list Z :=
  snd <$> filter (fun o => ex_data_length o.1 <> 0) (iodata_objects true offset es).1.

(** What is handed to the application: from each offset five bytes. *)
Definition deliveries (station : string) (b : list Z) (idx : Z) (offsets : list Z) : list app_event :=
  imap (fun k off => EvDataReceived station (idx + Z.of_nat k) (sub (Z.to_nat off) 5 b)) offsets.

Lemma deliveries_cons station b idx off offs :
  deliveries station b idx (off :: offs) =
    EvDataReceived station idx (sub (Z.to_nat off) 5 b) :: deliveries station b (idx + 1) offs.
Proof.
  unfold deliveries. rewrite imap_cons. f_equal; [f_equal; lia|]. apply imap_ext. intros k x _. cbn. f_equal. lia.
Qed.

Lemma expected_agrees md : idents_agree md ->
  ex_data_length (expected_of_module md) = (if is_input_module (md_module_ident md) then 5 else 4) /\
  ex_is_input (expected_of_module md) = is_input_module (md_module_ident md).
Proof.
  unfold idents_agree, expected_of_module. destruct (is_input_module _); intros H.
  - by rewrite (proj2 (Z.leb_le 0x11 _)), (proj2 (Z.leb_le _ 0x71)) by lia.
  - rewrite (proj2 (Z.leb_gt _ 0x71)), andb_false_r by lia.
    by rewrite (proj2 (Z.leb_le 0x101 _)), (proj2 (Z.leb_le _ 0x121)) by lia.
Qed.

Lemma announced_module offset md es :
  idents_agree md -> 0 <= offset < 2 ^ 16 - 6 ->
  announced_inputs offset (expected_of_module md :: es) =
    if is_input_module (md_module_ident md) then offset :: announced_inputs (offset + 6) es
    else announced_inputs offset es.
Proof.
  intros [E1 E2]%expected_agrees Ho. unfold announced_inputs. cbn [iodata_objects].
  set (e := expected_of_module md) in *. unfold has_iodata. rewrite E1, E2.
  destruct (is_input_module (md_module_ident md)); cbn [Z.eqb Pos.eqb Bool.eqb]; [|done].
  unfold wrap16. rewrite Z.mod_small by lia. replace (offset + 5 + 1) with (offset + 6) by lia.
  destruct (iodata_objects true (offset + 6) es) as [l fin]. cbn [fst]. rewrite filter_cons.
  by rewrite decide_True by (cbn [fst]; lia).
Qed.

Definition inputs_of (ms : list ar_module) : list ar_module :=
  filter (fun md => is_input_module (md_module_ident md) = true) ms.

Lemma deliver_modules station dl b ms offset idx :
  Forall idents_agree ms -> 0 <= offset -> Z.of_nat (length b) = dl ->
  offset + 6 * Z.of_nat (length (inputs_of ms)) <= dl -> dl <= MAX_CSDU ->
  deliver_slots station dl b (slot_info_of_module <$> ms) offset idx =
    Some (deliveries station b idx (announced_inputs offset (expected_of_module <$> ms))).
Proof.
  intros Hms. revert offset idx. induction Hms as [|md ms Hmd Hms IH]; intros offset idx Ho Hb Hfit Hdl; [done|].
  unfold MAX_CSDU in *. rewrite !fmap_cons. unfold inputs_of in *. rewrite filter_cons in Hfit.
  rewrite announced_module by (done || (case_decide; cbn [length] in *; lia)).
  cbn [deliver_slots]. change (si_type (slot_info_of_module md)) with
    (if is_input_module (md_module_ident md) then SLOT_TYPE_SENSOR else SLOT_TYPE_ACTUATOR).
  destruct (is_input_module (md_module_ident md)).
  - rewrite decide_True in Hfit by done. cbn [length] in Hfit. rewrite bool_decide_eq_true_2 by done.
    unfold GSDML_INPUT_DATA_SIZE. rewrite !(proj2 (Z.leb_le _ _)) by lia.
    unfold wrap16. rewrite Z.mod_small by lia. change (5 + 1) with 6.
    rewrite IH by lia. cbn [mbind option_bind]. by rewrite deliveries_cons.
  - rewrite decide_False in Hfit by done. rewrite bool_decide_eq_false_2 by done. by apply IH.
Qed.

Lemma count_sensors_modules ms : count_sensors (slot_info_of_module <$> ms) = Z.of_nat (length (inputs_of ms)).
Proof.
  unfold count_sensors, inputs_of. f_equal. induction ms as [|md ms IH]; [done|].
  rewrite fmap_cons, !filter_cons. change (si_type (slot_info_of_module md)) with
    (if is_input_module (md_module_ident md) then SLOT_TYPE_SENSOR else SLOT_TYPE_ACTUATOR).
  destruct (is_input_module _); repeat case_decide; try done; cbn [length]; lia.
Qed.

(** The three objects of the access point take a status byte each. *)
Lemma announced_after_dap es : announced_inputs 0 (dap_submodules ++ es) = announced_inputs 3 es.
Proof.
  unfold announced_inputs. cbn -[wrap16].
  change (wrap16 (wrap16 (wrap16 (0 + 0 + 1) + 0 + 1) + 0 + 1)) with 3.
  by destruct (iodata_objects true 3 es).
Qed.

Lemma input_modules_le mods : (length (input_modules mods) <= length mods)%nat.
Proof. pose proof (input_output_modules mods). lia. Qed.

Lemma build_params_result ok mods ar ar' :
  ar_ok ar -> (length mods <= AR_MAX_DISCOVERED_MODULES)%nat ->
  ar_build_full_connect_params ok mods ar = (WTC_OK, ar') ->
  ar_discovered ar' = mods /\ ar_slots ar' = slot_info_of_module <$> app_modules mods /\
  exists c0 c1, ar_iocr ar' = [c0; c1] /\ cr_ok IOCR_TYPE_INPUT c0 /\
    cr_user_data_length c0 = 5 * Z.of_nat (length (input_modules mods)) /\
    cr_iodata_count c0 = 3 + Z.of_nat (length (input_modules mods)).
Proof.
  intros Hok Hlen Hb. pose proof (build_params_ok ok mods ar Hlen Hok) as Hok'. rewrite Hb in Hok'. cbn in Hok'.
  pose proof (input_modules_le mods) as Hi. unfold AR_MAX_DISCOVERED_MODULES in Hlen.
  assert (length (app_modules mods) <= length mods)%nat as Happ by apply length_filter.
  destruct (ao_iocr _ Hok) as (c0 & c1 & E & _). destruct (ao_iocr _ Hok') as (d0 & d1 & E' & H0 & _).
  unfold ar_build_full_connect_params in Hb. rewrite E, count_modules_exact in Hb by (unfold WTC_MAX_SLOTS; lia).
  destruct (ok 0%nat), (ok 1%nat); cbn [negb] in Hb; try discriminate. injection Hb as <-.
  split; [apply (take_ge mods WTC_MAX_SLOTS); unfold WTC_MAX_SLOTS; lia|].
  split; [change (slot_info_of_module <$> take WTC_MAX_SLOTS (app_modules mods) = slot_info_of_module <$> app_modules mods);
          by rewrite take_ge by (unfold WTC_MAX_SLOTS; lia)|].
  exists d0, d1. split; [done|]. split; [done|]. cbn -[count_modules WTC_MAX_SLOTS take] in E'. injection E' as <- _.
  cbn. split; [done|]. unfold wrap16, DAP_SUBMODULE_COUNT. rewrite Z.mod_small; lia.
Qed.

(** C23: After the module layout of a station was built, each received input is delivered to
    the application from exactly the place where the connect request announced that sensor:
    for every list of modules with matching identifiers, the callbacks are one per announced
    sensor, numbered in order, each with the five bytes at the announced offset. *)
Theorem inputs_delivered_as_announced ok mods ar ar' frame_id cr b :
  ar_ok ar -> (length mods <= AR_MAX_DISCOVERED_MODULES)%nat ->
  Forall idents_agree (app_modules mods) ->
  ar_build_full_connect_params ok mods ar = (WTC_OK, ar') ->
  ar_has_discovered_modules ar' = true ->
  list_find (delivers frame_id) (ar_iocr ar') = Some (0%nat, cr) -> cr_data_buffer cr = Some b ->
  deliver_inputs frame_id ar' =
    Some (deliveries (ar_device_station_name ar') b 0 (announced_inputs 0 (expected_config ar'))).
Proof.
  intros Hok Hlen Hag Hb Hd Hf Ecb.
  destruct (build_params_result ok mods ar ar' Hok Hlen Hb) as (Ed & Es & c0 & c1 & E & Hc0 & Eu & Eio).
  unfold AR_MAX_DISCOVERED_MODULES in Hlen.
  assert (length (app_modules mods) <= length mods)%nat as Happ by apply length_filter.
  unfold deliver_inputs. rewrite Hf, Ecb. apply list_find_Some in Hf as (Ecr & _ & _).
  rewrite E in Ecr. injection Ecr as <-.
  unfold expected_config. rewrite Hd, announced_after_dap, Ed, Es. unfold WTC_MAX_SLOTS.
  rewrite take_ge by (rewrite length_fmap; lia).
  unfold first_offset. rewrite count_sensors_modules, Eio.
  change (inputs_of (app_modules mods)) with (input_modules mods).
  pose proof (input_modules_le mods). replace (3 + _ - _) with 3 by lia. change (wrap16 3) with 3.
  destruct Hc0 as [_ [? ? ? Hfit Hbuf] _ Hmax]. destruct (Hbuf b Ecb) as [Hl _].
  apply deliver_modules; try done. change (inputs_of (app_modules mods)) with (input_modules mods). lia.
Qed.

(** ** Connecting leaves no AR half way *)

Lemma ensure_ok e m m' : net_ok e -> ensure_rpc_initialized e m = (WTC_OK, m') -> is_Some (mg_rpc m').
Proof.
  intros He. unfold ensure_rpc_initialized. destruct (mg_rpc m) eqn:E; [intros [= <-]; eauto|].
  destruct (_ =? 0); [done|]. destruct (ne_rpc_init e _) as [r|] eqn:Ei; [|intros [= <-]; eauto].
  intros [= -> <-]. by apply (no_init _ He) in Ei.
Qed.

Lemma connect_ok_state e m ar m' ar' : net_ok e -> ar_send_connect_request e m ar = Some (WTC_OK, m', ar') ->
  ar_st ar' = AR_STATE_CONNECT_CNF.
Proof.
  intros He. unfold ar_send_connect_request. destruct (ensure_rpc_initialized _ _) as [res1 m1] eqn:E1.
  destruct (mg_rpc m1) as [ctx|] eqn:Er.
  - destruct (rpc_connect _ _ _ _) as [[[res2 r] ctx']|]; [|done]. cbv zeta.
    destruct (_ && _); [|done]. destruct (connect_accepted _ _ _) as [res3 ar3] eqn:E3.
    intros [= -> <- <-]. revert E3. unfold connect_accepted. cbv zeta. case_match; [done|]. by intros [= <-].
  - intros [= -> <- <-]. apply ensure_ok in E1 as [ctx E1]; [congruence|done].
Qed.

Lemma discovery_ok_state e m ar m' ar' : net_ok e -> ar_connect_with_discovery e m ar = Some (WTC_OK, m', ar') ->
  ar_st ar' = AR_STATE_CONNECT_CNF.
Proof.
  intros He. unfold ar_connect_with_discovery. destruct (ar_build_full_connect_params _ _ _) as [res ar1].
  destruct (bool_decide_reflect (res = WTC_OK)) as [|Hr]; cbn [negb]; [by apply connect_ok_state|].
  by intros [= -> <- <-].
Qed.

Lemma create_appends uuid alloc allocs cfg m m' :
  ar_manager_create_ar uuid alloc allocs cfg m = (WTC_OK, m') ->
  exists ar, mg_ars m' = mg_ars m ++ [ar] /\ ar_device_station_name ar = strncpy 63 (cf_station_name cfg) /\
    ar_retry_count ar = 0 /\ ar_connecting ar = false.
Proof.
  unfold ar_manager_create_ar. repeat (case_match; [done|]). cbv zeta.
  set (ar0 := new_ar _ _ _). set (n := count_slots SLOT_TYPE_SENSOR _). set (k := count_slots SLOT_TYPE_ACTUATOR _).
  pose proof (allocate_two allocs n k ar0 eq_refl) as Ha.
  destruct (allocate_iocr_buffers allocs n k ar0) as [res ar1]. cbn [fst snd] in Ha.
  destruct (bool_decide_reflect (res = WTC_OK)) as [E|E]; cbn [negb]; [|by intros [= -> <-]].
  rewrite (Ha E). intros [= <-]. eexists. split; [reflexivity|]. done.
Qed.

Lemma create_refused uuid alloc allocs cfg m res m' : res <> WTC_OK ->
  ar_manager_create_ar uuid alloc allocs cfg m = (res, m') -> mg_ars m' = mg_ars m.
Proof.
  intros Hr. unfold ar_manager_create_ar. repeat (case_match; [by intros [= <- <-]|]). cbv zeta.
  destruct (allocate_iocr_buffers _ _ _ _) as [res1 ar1].
  destruct (bool_decide_reflect (res1 = WTC_OK)) as [E|E]; cbn [negb]; [|by intros [= <- <-]].
  intros [= <- <-]. done.
Qed.

(** The AR of a connect. *)
Definition settled (res : wtc_result) (ar : profinet_ar) : Prop :=
  ar_connecting ar = false /\
  if bool_decide (res = WTC_OK) then ar_st ar = AR_STATE_CONNECT_CNF
  else ar_st ar = AR_STATE_ABORT /\ ar_last_error ar = res.

Lemma finish_settled now res ar : (res = WTC_OK -> ar_st ar = AR_STATE_CONNECT_CNF) ->
  settled res (finish_connect now res ar).
Proof. intros H. unfold settled, finish_connect. case_bool_decide; split; auto. Qed.

Lemma finish_name now res ar : ar_device_station_name (finish_connect now res ar) = ar_device_station_name ar.
Proof. unfold finish_connect. cbv zeta. by case_bool_decide. Qed.

Lemma set_last_ar (ars : list profinet_ar) (ar ar' : profinet_ar) :
  <[(length (ars ++ [ar]) - 1)%nat := ar']> (ars ++ [ar]) = ars ++ [ar'].
Proof.
  rewrite length_app. cbn. replace (length ars + 1 - 1)%nat with (length ars + 0)%nat by lia.
  by rewrite insert_app_r.
Qed.

(** A connect either leaves the table as it was (the station is connected already, not
    found, or the AR cannot be created), or adds exactly one AR with the name of the station,
    which is not marked as connecting any more and is confirmed when the call succeeded and
    otherwise in ABORT with the error recorded, so that the recovery takes it up. *)
Theorem connect_outcome env name ip slots ctrl res ctrl' :
  net_ok (ce_net env) ->
  profinet_controller_connect env name ip slots ctrl = Some (res, ctrl') ->
  (res <> WTC_OK /\ mg_ars (pc_ar_manager ctrl') = mg_ars (pc_ar_manager ctrl)) \/
  exists ar, mg_ars (pc_ar_manager ctrl') = mg_ars (pc_ar_manager ctrl) ++ [ar] /\
    ar_device_station_name ar = strncpy 63 name /\ settled res ar.
Proof.
  intros He. unfold profinet_controller_connect.
  destruct (ar_manager_get_ar name _) as [[i0 a0]|]; [intros [= <- <-]; by left|].
  unfold profinet_controller_discover_all.
  destruct (dcp_discovery_identify_all _ _) as [[[r1 dcp] fr]|]; [|done].
  destruct (lookup_device _ _ _ _) as [[mac dip]|]; [|intros [= <- <-]; by left].
  destruct (_ <? _)%nat; [done|]. cbn [pc_ar_manager set].
  destruct (ar_manager_create_ar _ _ _ _ _) as [res1 m1] eqn:Ec.
  destruct (bool_decide_reflect (res1 = WTC_OK)) as [->|Hr]; cbn [negb].
  2: { intros [= <- <-]. left. split; [done|]. rewrite set_manager_am. eapply create_refused; [|exact Ec]. done. }
  apply create_appends in Ec as (ar & Ea & En & _).
  destruct (mg_ars m1 !! (length (mg_ars m1) - 1)%nat) as [a1|] eqn:El; [|done].
  assert (a1 = ar) as ->.
  { rewrite Ea, length_app in El. cbn in El. rewrite Nat.add_sub in El.
    rewrite lookup_app_r, Nat.sub_diag in El by lia. by injection El. }
  set (ar1 := ar <| ar_connecting := true |>).
  set (attempt := if (length slots =? 0)%nat then _ else _).
  destruct attempt as [[[res2 m2] ar2]|] eqn:Eat; [|done].
  assert (keeps m1 ar1 m2 ar2 /\ (res2 = WTC_OK -> ar_st ar2 = AR_STATE_CONNECT_CNF)) as [(F & N & _) Hst].
  { unfold attempt in Eat. destruct (_ =? _)%nat.
    - split; [by eapply discovery_keeps|]. intros ->. by eapply discovery_ok_state.
    - split; [by eapply send_connect_keeps|]. intros ->. by eapply connect_ok_state. }
  intros H. right. exists (finish_connect (ne_now (ce_net env)) res2 ar2).
  assert (res = res2 /\ pc_ar_manager ctrl' = set_ar (length (mg_ars m1) - 1) (finish_connect (ne_now (ce_net env)) res2 ar2) m2) as [-> ->].
  { revert H. case_match; intros [= <- <-]; (split; [done|]); unfold emit_event; cbn [pc_ar_manager set]; apply set_manager_am. }
  cbn [mg_ars set_ar set]. rewrite (proj1 F), Ea, set_last_ar. split; [done|].
  split; [|by apply finish_settled]. rewrite finish_name, N.
  transitivity (ar_device_station_name ar); [done|]. rewrite En. apply (strncpy_idem 63 name).
Qed.

(** ** The device cache holds six-byte addresses and names that fit *)

Definition dev_ok (d : dcp_device_info) : Prop :=
  length (dd_mac_address d) = 6%nat /\ (String.length (dd_station_name d) <= 63)%nat.
Definition devices_ok (dcp : dcp_discovery) : Prop :=
  Forall dev_ok (dc_devices dcp) /\ Forall dev_ok (dc_trace dcp).

Lemma cstring_length l : (String.length (cstring l) <= length l)%nat.
Proof. induction l as [|b l IH]; cbn; [lia|]. destruct (b =? 0); cbn; lia. Qed.

Lemma normalize_length s : String.length (normalize_station_name s) = String.length s.
Proof. induction s as [|c s IH]; cbn; congruence. Qed.

Lemma ensures_peek pos n : ensures (peek pos n) (fun bs => length bs = n).
Proof.
  intros c a c'. unfold peek. destruct (_ && _) eqn:E; [|done]. intros [= <- _].
  apply andb_prop in E as [E1 E2]. rewrite length_take, length_drop. lia.
Qed.

Lemma block_name_short pos n : ensures (block_name pos n) (fun s => String.length s <= 63)%nat.
Proof.
  unfold block_name. eapply ensures_bind; [apply ensures_peek|]. intros bs Hbs. apply ensures_ret.
  pose proof (cstring_length bs). cbv beta in *. lia.
Qed.

Lemma apply_block_ok block data d : dev_ok d -> ensures (apply_block block data d) dev_ok.
Proof.
  intros [Hm Hn]. unfold apply_block. cbv zeta.
  repeat case_match; try (by apply ensures_ret);
    try (repeat (apply ensures_any; intros ?); by apply ensures_ret).
  - eapply ensures_bind; [apply ensures_peek|]. intros mac Hmac. by apply ensures_ret.
  - eapply ensures_bind; [apply block_name_short|]. intros name Hname. apply ensures_ret.
    split; [done|]. cbn. by rewrite normalize_length.
Qed.

Lemma parse_blocks_ok fuel end_pos d : dev_ok d -> ensures (parse_blocks fuel end_pos d) dev_ok.
Proof.
  revert d. induction fuel as [|fuel IH]; intros d Hd; cbn [parse_blocks]; [by apply ensures_ret|].
  intros c a c'. destruct (_ && _); [|by intros [= <- _]].
  destruct (frame_parse_dcp_block c) as [[block data] c1|e c1|]; [|by intros [= <- _]|done].
  revert c1 a c'. refine (ensures_bind _ _ dev_ok _ (apply_block_ok block data d Hd) _).
  intros d' Hd'. apply ensures_any. intros _. by apply IH.
Qed.

Lemma parse_ethernet_src : ensures frame_parse_ethernet (fun v => length v.1.2 = 6%nat).
Proof.
  unfold frame_parse_ethernet. apply ensures_any. intros r. case_match; [by intros ? ? ?|].
  apply ensures_any. intros dst. eapply ensures_bind; [apply ensures_fetch|]. intros src Hsrc.
  apply ensures_any. intros etype. case_match; [|by apply ensures_ret].
  apply ensures_any. intros r'. case_match; [by intros ? ? ?|]. do 2 (apply ensures_any; intros ?).
  by apply ensures_ret.
Qed.

Lemma parse_dcp_frame_src : ensures parse_dcp_frame (fun v => length v.1 = 6%nat).
Proof.
  unfold parse_dcp_frame. eapply ensures_bind; [apply parse_ethernet_src|]. intros [[dst src] etype] Hs.
  case_match; [by intros ? ? ?|]. apply ensures_any. intros fid. case_match; [by intros ? ? ?|].
  apply ensures_any. intros h. by apply ensures_ret.
Qed.

Lemma dcp_frame_ok now dcp frame res dcp' : devices_ok dcp ->
  dcp_process_frame now dcp frame = Some (res, dcp') -> devices_ok dcp'.
Proof.
  intros Hd. unfold dcp_process_frame.
  destruct (parse_dcp_frame _) as [[src h] c|e c|] eqn:Ep; [|by intros [= <- <-]|done].
  apply parse_dcp_frame_src in Ep. cbn in Ep. case_match; [by intros [= <- <-]|].
  assert (devices_ok (add_or_update_device now dcp src).2) as Ha.
  { unfold add_or_update_device. repeat case_match; try done. split; [|apply Hd].
    cbn. apply Forall_app_2; [apply Hd|]. constructor; [|done]. split; [done|]. cbn. lia. }
  destruct (add_or_update_device now dcp src) as [[i|] dcp1]; cbn [snd] in Ha; [|by intros [= <- <-]].
  destruct (dc_devices dcp1 !! i) as [d|] eqn:Ei; [|by intros [= <- <-]].
  destruct (parse_dcp_blocks d _ c) as [d' c1|e c1|] eqn:Eb; [|by intros [= <- <-]|done]. destruct Ha as [Hdev Htr].
  apply parse_blocks_ok in Eb; [|exact (Forall_lookup_1 _ _ _ _ Hdev Ei)].
  intros [= <- <-]. case_match; split; cbn; auto using Forall_insert, Forall_app_2.
Qed.

(** ** The invariant of the controller *)

(** The AR table, the device cache, and the queue of stations to connect: each at most once. *)
Record controller_inv (ctrl : profinet_controller) : Prop := mk_controller_inv {
  ci_manager : manager_ok (pc_ar_manager ctrl);
  ci_devices : devices_ok (pc_dcp ctrl);
  ci_pending : (length (pc_pending ctrl) <= MAX_PENDING_CONNECTS)%nat;
  ci_once : NoDup (pc_pending ctrl).*1 }.

Lemma set_manager_inv m ctrl : manager_ok m -> controller_inv ctrl -> controller_inv (set_manager m ctrl).
Proof.
  intros Hm [_ Hd Hp Hq]. unfold set_manager.
  destruct (state_callbacks_frame (drop (length (mg_trace (pc_ar_manager ctrl))) (mg_trace m))
    (ctrl <| pc_ar_manager := m |>)) as (E1 & E2 & E3 & _). split; by rewrite ?E1, ?E2, ?E3.
Qed.

Lemma dcp_callback_inv ctrl d : dev_ok d -> controller_inv ctrl -> controller_inv (dcp_callback ctrl d).
Proof.
  intros [_ Hn] Hc. unfold dcp_callback. cbv zeta.
  set (ctrl1 := if on_device_added _ then _ else ctrl).
  assert (controller_inv ctrl1) as Hc1 by (unfold ctrl1; case_match; [destruct Hc; by split|done]).
  clearbody ctrl1. case_match; [done|]. destruct (existsb _ _) eqn:Ex; cbn [negb andb]; [done|].
  destruct (Nat.ltb_spec (length (pc_pending ctrl1)) MAX_PENDING_CONNECTS) as [H1|]; [|done].
  destruct Hc1 as [? ? ? Hq]. split; try done; cbn [pc_pending set].
  - rewrite length_app. cbn [length]. lia.
  - rewrite fmap_app. apply NoDup_app. split; [done|]. split; [|apply NoDup_singleton].
    intros x ([n ip] & -> & Hin)%list_elem_of_fmap. rewrite strncpy_fits by done.
    intros He%list_elem_of_singleton. apply not_true_iff_false in Ex. apply Ex.
    apply existsb_exists. exists (n, ip). split; [by apply list_elem_of_In|]. cbn in *. by apply String.eqb_eq.
Qed.

Lemma set_dcp_inv dcp ctrl : devices_ok dcp -> controller_inv ctrl -> controller_inv (set_dcp dcp ctrl).
Proof.
  intros Hd [? ? ? ?]. unfold set_dcp.
  assert (Forall dev_ok (drop (length (dc_trace (pc_dcp ctrl))) (dc_trace dcp))) as Hn by apply Forall_drop, Hd.
  assert (controller_inv (ctrl <| pc_dcp := dcp |>)) as H by by split.
  revert H. generalize (ctrl <| pc_dcp := dcp |>) as c. induction Hn as [|d news Hd1 Hn IH]; intros c H'; [done|].
  cbn [foldl]. by apply IH, dcp_callback_inv.
Qed.

Lemma recv_rt_inv now_ms now_us fid frame ctrl ctrl' : is_bytes frame -> controller_inv ctrl ->
  recv_rt_frame now_ms now_us fid frame ctrl = Some ctrl' -> controller_inv ctrl'.
Proof.
  intros Hf Hc. unfold recv_rt_frame.
  destruct (rt_frame_keeps now_ms now_us frame (pc_ar_manager ctrl) Hf (ci_manager _ Hc)) as (res & m & -> & Hm).
  cbv zeta. assert (controller_inv (set_manager m ctrl)) as H by by apply set_manager_inv.
  destruct (_ && _); [|by intros [= <-]].
  destruct (ar_manager_get_ar_by_frame_id _ _) as [[i ar]|]; [|by intros [= <-]].
  destruct (bool_decide _); [|by intros [= <-]]. destruct (deliver_inputs fid ar) as [evs|]; [|done].
  cbn [mbind option_bind]. intros [= <-]. by destruct H; split.
Qed.

Lemma recv_frame_inv now_ms now_us frame ctrl ctrl' : is_bytes frame -> controller_inv ctrl ->
  recv_frame now_ms now_us frame ctrl = Some ctrl' -> controller_inv ctrl'.
Proof.
  intros Hf Hc. unfold recv_frame. case_match; [by intros [= <-]|].
  match goal with |- context [?m (frame_parser_init frame ?n)] =>
    destruct (m (frame_parser_init frame n)) as [fid c|e c|] end; [|by intros [= <-]|done].
  case_match.
  - destruct (dcp_process_frame _ _ _) as [[r dcp]|] eqn:Ed; [|done]. intros [= <-]. apply set_dcp_inv; [|done].
    eapply dcp_frame_ok; [apply Hc|done].
  - case_match; [|by intros [= <-]]. by apply recv_rt_inv.
Qed.

Lemma each_ar_inv (I : ar_manager -> Prop) f idx m m' :
  (forall i m m1, I m -> at_ar (f i) i m = Some m1 -> I m1) -> I m -> each_ar f idx m = Some m' -> I m'.
Proof.
  intros Hf. revert m. induction idx as [|i idx IH]; intros m Hm; cbn [each_ar]; [by intros [= <-]|].
  destruct (at_ar (f i) i m) as [m1|] eqn:E; [|done]. cbn [mbind option_bind]. eauto.
Qed.

Lemma send_outputs_ok now_us sent m m' : manager_ok m -> send_outputs now_us sent m = Some m' -> manager_ok m'.
Proof.
  intros Hm. unfold send_outputs. apply (each_ar_inv manager_ok); [|done].
  intros i m0 m1 H0. unfold at_ar. destruct (mg_ars m0 !! i) as [ar|] eqn:E; [|by intros [= <-]].
  assert (ar_ok ar) as Har by (eapply Forall_lookup_1; [apply (mo_ars _ H0)|done]).
  destruct (send_output_keeps now_us (sent i) m0 ar Har (mo_mac _ H0)) as (rc & fr & ar' & -> & K).
  destruct (bool_decide _); intros [= <-]; (eapply set_ar_ok; [done| |done]); [done|]. by split.
Qed.

Lemma cyclic_round_inv now now_us elapsed poll respond nets sent ctrl ctrl' :
  (forall i, net_ok (nets i)) -> controller_inv ctrl ->
  cyclic_round now now_us elapsed poll respond nets sent ctrl = Some ctrl' -> controller_inv ctrl'.
Proof.
  intros Hn Hc. unfold cyclic_round.
  destruct (ar_manager_process _ _ _ _ _) as [m1|] eqn:E1; [|done].
  apply process_ok in E1; [|done|apply Hc].
  destruct (check_health_ok now m1) as (m2 & -> & H2). specialize (H2 E1).
  destruct (send_outputs now_us sent m2) as [m3|] eqn:E3; [|done]. apply send_outputs_ok in E3; [|done].
  intros [= <-]. by destruct (set_manager_inv m3 ctrl E3 Hc); split.
Qed.

(** The environment of a connect: also the addresses ARP returns have six bytes. *)
Record env_ok (env : connect_env) : Prop := mk_env_ok {
  eo_net : net_ok (ce_net env);
  eo_uuid : is_uuid (ce_uuid env);
  eo_arp : forall ip mac, ce_arp env ip = Some mac -> length mac = 6%nat }.

Lemma identify_devices b dcp res dcp' fr :
  dcp_discovery_identify_all b dcp = Some (res, dcp', fr) -> devices_ok dcp -> devices_ok dcp'.
Proof.
  unfold dcp_discovery_identify_all, send_request. cbv zeta.
  destruct (request_frame _ _ _ _); [|done]. by intros [= <- <- <-].
Qed.

Lemma lookup_device_mac arp devices name ip mac dip :
  (forall ip mac, arp ip = Some mac -> length mac = 6%nat) ->
  Forall dev_ok devices ->
  lookup_device arp devices name ip = Some (mac, dip) -> length mac = 6%nat.
Proof.
  intros Ha Hd. rewrite Forall_lookup in Hd. unfold lookup_device. cbv zeta.
  destruct (list_find (named name) devices) as [[i d]|] eqn:E1.
  { apply list_find_Some in E1 as (E1 & _). intros [= <- <-]. by eapply Hd. }
  destruct (ip =? 0); [done|]. destruct (list_find (has_ip ip) devices) as [[i d]|] eqn:E2.
  { apply list_find_Some in E2 as (E2 & _). intros [= <- <-]. by eapply Hd. }
  destruct (arp ip) as [m|] eqn:E3; [|done]. cbn. intros [= <- <-]. eauto.
Qed.

Lemma finish_keeps now res ar : keeps_ar ar (finish_connect now res ar).
Proof.
  unfold finish_connect. cbv zeta. case_bool_decide; (split; [done|]); intros [? ? ? ? ? ? ?]; split; cbn; auto; lia.
Qed.

Lemma connect_inv env name ip slots ctrl res ctrl' :
  env_ok env -> controller_inv ctrl ->
  profinet_controller_connect env name ip slots ctrl = Some (res, ctrl') -> controller_inv ctrl'.
Proof.
  intros He Hc. unfold profinet_controller_connect.
  destruct (ar_manager_get_ar name _) as [[i0 a0]|]; [by intros [= <- <-]|].
  unfold profinet_controller_discover_all.
  destruct (dcp_discovery_identify_all _ _) as [[[r1 dcp] fr]|] eqn:Ei; [|done]. apply identify_devices in Ei; [|apply Hc].
  set (ctrl1 := ctrl <| pc_dcp := dcp |>). assert (controller_inv ctrl1) as Hc1 by (destruct Hc; by split).
  destruct (lookup_device _ _ _ _) as [[mac dip]|] eqn:El; [|by intros [= <- <-]].
  apply lookup_device_mac in El; [|apply He|].
  2: { unfold dcp_get_devices. destruct (_ <? 0); [by constructor|]. cbn [default]. apply Forall_take, Ei. }
  destruct (Nat.ltb_spec WTC_MAX_SLOTS (length slots)) as [|Hs]; [done|].
  assert (config_ok (ar_config_for name mac dip slots)) as Hcfg.
  { split; cbn -[strncpy WTC_MAX_SLOTS]; [apply strncpy_length|done|lia]. }
  pose proof (create_ok (ce_uuid env) (ce_alloc env) (ce_allocs env) _ (pc_ar_manager ctrl1) (eo_uuid _ He) Hcfg (ci_manager _ Hc1)) as Hm.
  destruct (ar_manager_create_ar _ _ _ _ _) as [res1 m1]. cbn [snd] in Hm.
  destruct (negb _); [intros [= <- <-]; by apply set_manager_inv|].
  destruct (mg_ars m1 !! _) as [ar|] eqn:Ea; [|done].
  set (attempt := if (length slots =? 0)%nat then _ else _).
  destruct attempt as [[[res2 m2] ar2]|] eqn:Eat; [|done].
  assert (keeps m1 (ar <| ar_connecting := true |>) m2 ar2) as (F & N & O).
  { unfold attempt in Eat. destruct (_ =? _)%nat; [by eapply discovery_keeps; [apply He|]|by eapply send_connect_keeps; [apply He|]]. }
  set (m3 := set_ar _ _ m2). assert (manager_ok m3) as Hm3.
  { unfold m3. eapply set_ar_ok; [rewrite (proj1 F); exact Ea| |by eapply same_frame_ok].
    eapply keeps_ar_trans; [|apply finish_keeps]. split; [done|]. intros Ho. apply O.
    by apply (keeps_fields m1 ar). }
  assert (controller_inv (set_manager m3 ctrl1)) as [? ? ? ?] by by apply set_manager_inv.
  case_match; intros [= <- <-]; by split.
Qed.

Lemma connect_all_inv envs k l ctrl ctrl' : (forall k, env_ok (envs k)) -> controller_inv ctrl ->
  connect_all envs k l ctrl = Some ctrl' -> controller_inv ctrl'.
Proof.
  intros He. revert k ctrl. induction l as [|[name ip] l IH]; intros k ctrl Hc; cbn [connect_all]; [by intros [= <-]|].
  destruct (profinet_controller_connect _ _ _ _ _) as [[res c1]|] eqn:E; [|done].
  intros H. eapply IH, H. by eapply connect_inv.
Qed.

Lemma pn_process_inv envs now poll respond nets ctrl res ctrl' :
  (forall k, env_ok (envs k)) -> (forall i, net_ok (nets i)) -> controller_inv ctrl ->
  profinet_controller_process envs now poll respond nets ctrl = Some (res, ctrl') -> controller_inv ctrl'.
Proof.
  intros He Hn Hc. unfold profinet_controller_process.
  destruct (connect_all _ _ _ _) as [c1|] eqn:E1; [|done].
  assert (controller_inv c1) as Hc1.
  { eapply connect_all_inv; [done| |exact E1]. destruct Hc. split; try done; cbn; [lia|constructor]. }
  destruct (pc_running c1); [by intros [= <- <-]|].
  destruct (ar_manager_process _ _ _ _ _) as [m|] eqn:E2; [|done]. intros [= <- <-].
  apply set_manager_inv; [|done]. eapply process_ok; [done|exact E2|apply Hc1].
Qed.

Lemma disconnect_inv e name ctrl res ctrl' : controller_inv ctrl ->
  profinet_controller_disconnect e name ctrl = Some (res, ctrl') -> controller_inv ctrl'.
Proof.
  intros Hc. unfold profinet_controller_disconnect, ar_manager_get_ar.
  destruct (list_find _ _) as [[i ar]|] eqn:Ef; [|by intros [= <- <-]]. apply list_find_Some in Ef as (Ei & _).
  destruct (ar_send_release_request _ _ _) as [[[r m] ar1]|] eqn:Er; [|done].
  apply release_keeps in Er as (F & N & O). cbv zeta. set (c1 := set_manager _ ctrl).
  assert (controller_inv c1) as Hc1.
  { apply set_manager_inv; [|done]. eapply set_ar_ok; [by rewrite (proj1 F)|by split|].
    eapply same_frame_ok; [exact F|apply Hc]. }
  pose proof (delete_ok name _ (ci_manager _ Hc1)) as Hd.
  destruct (ar_manager_delete_ar name (pc_ar_manager c1)) as [r2 m2]. intros [= <- <-].
  by apply set_manager_inv.
Qed.

Lemma slot_offset_nonneg t size slot slots off o : 0 <= off ->
  slot_offset t size slot slots off = Some o -> 0 <= o.
Proof.
  revert off. induction slots as [|s slots IH]; intros off H; cbn; [done|].
  repeat case_match; try (by intros [= <-]); apply IH; [apply Z.mod_pos_bound; lia|done].
Qed.

Lemma write_output_inv name slot data ctrl res ctrl' : is_bytes data -> controller_inv ctrl ->
  profinet_controller_write_output name slot data ctrl = Some (res, ctrl') -> controller_inv ctrl'.
Proof.
  intros Hb Hc. unfold profinet_controller_write_output, ar_manager_get_ar. cbv zeta.
  destruct (list_find (has_name name) _) as [[i ar]|] eqn:Ef; [|by intros [= <- <-]]. apply list_find_Some in Ef as (Ei & _).
  case_match; [by intros [= <- <-]|].
  destruct (list_find (buffered _) _) as [[j cr]|] eqn:Ec; [|by intros [= <- <-]].
  apply list_find_Some in Ec as (Ej & [_ [b Eb]] & _).
  destruct (slot_offset _ _ _ _ _) as [off|] eqn:Eo; [|by intros [= <- <-]]. apply slot_offset_nonneg in Eo; [|lia].
  case_match; [|by intros [= <- <-]]. rewrite Eb. cbn [from_option id].
  set (bytes := take _ data). destruct (Z.leb_spec (off + Z.of_nat (length bytes)) (Z.of_nat (length b))) as [Hle|]; [|done].
  intros [= <- <-]. destruct Hc as [Hm ? ? ?]. split; try done. cbn [pc_ar_manager set].
  eapply set_ar_ok; [done| |done]. apply upd_iocr_keeps. intros t cr' Ej' Hcr. simplify_eq.
  destruct (io_buffer _ (co_layout _ _ Hcr) b Eb) as [Hl Hby].
  apply (set_fields_cr_ok _ cr); try done. intros b' [= <-]. rewrite length_write_at by lia.
  split; [done|]. apply write_at_bytes; [by apply Forall_take|done].
Qed.

(** Runs of the controller. *)
Inductive pn_op :=
| PnStart (recv_ok cyclic_ok send_ok : bool)
| PnStop
| PnReceive (now_ms now_us : Z) (frame : list Z)
| PnCycle (now now_us elapsed : Z) (poll : wtc_result * list Z) (respond : list Z -> wtc_result)
    (nets : nat -> net) (sent : nat -> bool)
| PnProcess (envs : nat -> connect_env) (now : Z) (poll : wtc_result * list Z)
    (respond : list Z -> wtc_result) (nets : nat -> net)
| PnConnect (env : connect_env) (name : string) (ip : option string) (slots : list ar_slot_info)
| PnDisconnect (e : net) (name : string)
| PnWriteOutput (name : string) (slot : Z) (data : list Z)
| PnDiscoverAll (send_ok : bool).

Definition pn_step (o : pn_op) (ctrl : profinet_controller) : option profinet_controller :=
  match o with
  | PnStart r c s => snd <$> profinet_controller_start r c s ctrl
  | PnStop => Some (profinet_controller_stop ctrl).2
  | PnReceive now_ms now_us frame => recv_frame now_ms now_us frame ctrl
  | PnCycle now now_us elapsed poll respond nets sent =>
      cyclic_round now now_us elapsed poll respond nets sent ctrl
  | PnProcess envs now poll respond nets =>
      snd <$> profinet_controller_process envs now poll respond nets ctrl
  | PnConnect env name ip slots => snd <$> profinet_controller_connect env name ip slots ctrl
  | PnDisconnect e name => snd <$> profinet_controller_disconnect e name ctrl
  | PnWriteOutput name slot data => snd <$> profinet_controller_write_output name slot data ctrl
  | PnDiscoverAll s => snd <$> profinet_controller_discover_all s ctrl
  end.

Fixpoint pn_run (ops : list pn_op) (ctrl : profinet_controller) : option profinet_controller :=
  match ops with [] => Some ctrl | o :: ops => ctrl ← pn_step o ctrl; pn_run ops ctrl end.

Definition pn_op_ok (o : pn_op) : Prop :=
  match o with
  | PnReceive _ _ frame => is_bytes frame
  | PnCycle _ _ _ _ _ nets _ => forall i, net_ok (nets i)
  | PnProcess envs _ _ _ nets => (forall k, env_ok (envs k)) /\ forall i, net_ok (nets i)
  | PnConnect env _ _ _ => env_ok env
  | PnWriteOutput _ _ data => is_bytes data
  | _ => True
  end.

Lemma discover_all_inv s ctrl res ctrl' : controller_inv ctrl ->
  profinet_controller_discover_all s ctrl = Some (res, ctrl') -> controller_inv ctrl'.
Proof.
  intros Hc. unfold profinet_controller_discover_all.
  destruct (dcp_discovery_identify_all _ _) as [[[r dcp] fr]|] eqn:E; [|done]. intros [= <- <-].
  apply identify_devices in E; [|apply Hc]. by destruct Hc; split.
Qed.

Lemma pn_step_inv o ctrl ctrl' : pn_op_ok o -> controller_inv ctrl -> pn_step o ctrl = Some ctrl' -> controller_inv ctrl'.
Proof.
  intros Ho Hc. destruct o; cbn [pn_step pn_op_ok] in *.
  - unfold profinet_controller_start. case_match; [by intros [= <-]|]. cbv zeta.
    set (c1 := (set pc_dcp _ _)). assert (controller_inv c1) as Hc1 by (destruct Hc; by split).
    case_match; [intros [= <-]; by destruct Hc1; split|].
    destruct (profinet_controller_discover_all send_ok c1) as [[r c2]|] eqn:E; [|done]. intros [= <-].
    by eapply discover_all_inv.
  - unfold profinet_controller_stop. intros [= <-]. case_match; [done|]. by destruct Hc; split.
  - by apply recv_frame_inv.
  - by apply cyclic_round_inv.
  - destruct (profinet_controller_process _ _ _ _ _ _) as [[r c]|] eqn:E; [|done]. intros [= <-].
    destruct Ho. by eapply pn_process_inv.
  - destruct (profinet_controller_connect _ _ _ _ _) as [[r c]|] eqn:E; [|done]. intros [= <-]. by eapply connect_inv.
  - destruct (profinet_controller_disconnect _ _ _) as [[r c]|] eqn:E; [|done]. intros [= <-]. by eapply disconnect_inv.
  - destruct (profinet_controller_write_output _ _ _ _) as [[r c]|] eqn:E; [|done]. intros [= <-]. by eapply write_output_inv.
  - destruct (profinet_controller_discover_all _ _) as [[r c]|] eqn:E; [|done]. intros [= <-]. by eapply discover_all_inv.
Qed.

Lemma pn_init_inv cfg mac ip : length mac = 6%nat -> controller_inv (profinet_controller_init cfg mac ip).
Proof.
  intros Hm. unfold profinet_controller_init. cbv zeta. split; cbn [pc_ar_manager pc_dcp pc_pending].
  - set (m := ar_manager_set_state_callback true _).
    assert (manager_ok m) as H by (eapply same_frame_ok; [|by apply manager_init_ok]; done).
    case_match; [done|]. eapply same_frame_ok; [|exact H]. unfold ar_manager_set_controller_ip. cbv zeta. by repeat case_match.
  - by split.
  - cbn. lia.
  - constructor.
Qed.

(** Whatever frames arrive and whatever connects, disconnects, cycles and outputs run, the
    AR table keeps its invariant, the device cache holds six-byte addresses and names that fit,
    and the queue of discovered stations holds each station at most once and at most 64. *)
Theorem pn_controller_invariant cfg mac ip ops ctrl :
  length mac = 6%nat -> Forall pn_op_ok ops ->
  pn_run ops (profinet_controller_init cfg mac ip) = Some ctrl -> controller_inv ctrl.
Proof.
  intros Hm Hops. pose proof (pn_init_inv cfg mac ip Hm) as Hi. revert Hi.
  generalize (profinet_controller_init cfg mac ip) as c. induction Hops as [|o ops Ho _ IH]; intros c Hc; cbn [pn_run].
  - by intros [= <-].
  - destruct (pn_step o c) as [c1|] eqn:E; [|done]. cbn [mbind option_bind]. apply IH. by eapply pn_step_inv.
Qed.

(** ** Cycle statistics *)

(** The statistics of measured cycles, each of at least one microsecond: count, extreme values
    and overruns are exact, and the running average stays between the extremes. *)
Record stats_of (cycle_time : Z) (l : list Z) (st : cycle_stats) : Prop := mk_stats_of {
  so_fresh : l = [] -> cyc_min st = 0 /\ cyc_max st = 0 /\ cyc_avg st = 0;
  so_count : cyc_count st = Z.of_nat (length l);
  so_min : l <> [] -> cyc_min st ∈ l /\ Forall (fun e => cyc_min st <= e) l;
  so_max : l <> [] -> cyc_max st ∈ l /\ Forall (fun e => e <= cyc_max st) l;
  so_avg : l <> [] -> cyc_min st <= cyc_avg st <= cyc_max st;
  so_overruns : cyc_overruns st = Z.of_nat (length (filter (fun e => cycle_time < e) l)) }.

Lemma running_average avg n e lo hi : 0 <= n -> 0 <= lo -> lo <= e <= hi -> (0 < n -> lo <= avg <= hi) ->
  lo <= (avg * n + e) / (n + 1) <= hi.
Proof.
  intros Hn Hlo He Ha. split.
  - apply Z.div_le_lower_bound; [lia|]. destruct (Z.eq_dec n 0) as [->|]; nia.
  - apply Z.div_le_upper_bound; [lia|]. destruct (Z.eq_dec n 0) as [->|]; nia.
Qed.

Lemma update_stats_step cycle_time l e st :
  Forall (fun e => 0 < e < 2 ^ 32) (l ++ [e]) -> Z.of_nat (length (l ++ [e])) < 2 ^ 31 ->
  stats_of cycle_time l st -> stats_of cycle_time (l ++ [e]) (update_stats cycle_time e st).
Proof.
  intros Hl Hn [Hf Hc Hmin Hmax Havg Hov]. rewrite length_app in Hn. cbn [length] in Hn.
  apply Forall_app in Hl as [Hl He]. apply Forall_cons in He as [He _]. rewrite Forall_forall in Hl.
  assert (0 <= cyc_avg st < 2 ^ 32 /\ (l <> [] -> 0 < cyc_min st)) as [Ha Hp].
  { destruct (decide (l = [])) as [->|Hne]; [split; [destruct (Hf eq_refl); lia|done]|].
    pose proof (Hl _ (proj1 (Hmin Hne))). pose proof (Hl _ (proj1 (Hmax Hne))). specialize (Havg Hne). lia. }
  pose proof (length_filter (fun e => cycle_time < e) l) as Hfl.
  unfold update_stats. rewrite Hc.
  assert (forall z, 0 <= z < 2 ^ 64 -> wrap64 z = z) as Hw by apply wrap64_small.
  rewrite (Hw (Z.of_nat (length l) + 1)), u64_sub_le by (unfold is_u64; lia).
  replace (Z.of_nat (length l) + 1 - 1) with (Z.of_nat (length l)) by lia.
  rewrite (Hw (cyc_avg st * _)), Hw, Hw by nia.
  set (mn := if _ || _ then e else _). set (mx := if _ <? e then e else _).
  assert (mn ∈ l ++ [e] /\ Forall (fun x => mn <= x) (l ++ [e]) /\ (l <> [] -> mn <= cyc_min st)) as (M1 & M2 & M3).
  { unfold mn. rewrite elem_of_app, list_elem_of_singleton, Forall_app, Forall_singleton.
    destruct (decide (l = [])) as [->|Hne]; [destruct (Hf eq_refl) as [-> _]; rewrite orb_true_r;
      split; [by right|]; split; [split; [constructor|lia]|done]|].
    specialize (Hp Hne). destruct (Hmin Hne) as [Hin Hall]. rewrite Forall_forall in Hall.
    rewrite (proj2 (Z.eqb_neq (cyc_min st) 0)), orb_false_r by lia. rewrite Forall_forall.
    destruct (Z.ltb_spec e (cyc_min st)); split_and!; auto; try lia. intros x Hx. specialize (Hall x Hx). lia. }
  assert (mx ∈ l ++ [e] /\ Forall (fun x => x <= mx) (l ++ [e]) /\ (l <> [] -> cyc_max st <= mx)) as (X1 & X2 & X3).
  { unfold mx. rewrite elem_of_app, list_elem_of_singleton, Forall_app, Forall_singleton.
    destruct (decide (l = [])) as [->|Hne].
    { destruct (Hf eq_refl) as (_ & -> & _). rewrite (proj2 (Z.ltb_lt 0 e)) by lia.
      split; [by right|]. split; [split; [constructor|lia]|done]. }
    destruct (Hmax Hne) as [Hin Hall]. rewrite Forall_forall in Hall. rewrite Forall_forall.
    destruct (Z.ltb_spec (cyc_max st) e); split_and!; auto; try lia. intros x Hx. specialize (Hall x Hx). lia. }
  clearbody mn mx. pose proof (proj1 (Forall_forall _ _) M2) as M2'. pose proof (proj1 (Forall_forall _ _) X2) as X2'.
  assert (e ∈ l ++ [e]) as Hine by (rewrite elem_of_app, list_elem_of_singleton; auto).
  assert (0 <= mn) as Hmn.
  { rewrite elem_of_app, list_elem_of_singleton in M1. destruct M1 as [M1%Hl| ->]; lia. }
  split; cbn [cyc_count cyc_min cyc_max cyc_avg cyc_overruns]; try done.
  - by destruct l.
  - rewrite length_app. cbn. lia.
  - intros _. apply running_average; [lia|done|split; auto|]. intros Hpos.
    assert (l <> []) as Hne by (destruct l; [cbn in Hpos; lia|done]). specialize (Havg Hne). specialize (M3 Hne). specialize (X3 Hne). lia.
  - rewrite filter_app, length_app, filter_cons, filter_nil, Hov.
    destruct (Z.ltb_spec cycle_time e); case_decide; try lia; cbn [length]; try lia.
Qed.

Theorem cycle_statistics cycle_time l :
  Forall (fun e => 0 < e < 2 ^ 32) l -> Z.of_nat (length l) < 2 ^ 31 ->
  stats_of cycle_time l (foldl (fun st e => update_stats cycle_time e st) (mk_cycle_stats 0 0 0 0 0) l).
Proof.
  intros Hl Hn. induction l as [|e l IH] using rev_ind; [by split|].
  rewrite foldl_app. cbn [foldl]. apply update_stats_step; [done|done|]. apply IH.
  - by apply Forall_app in Hl as [? _].
  - rewrite length_app in Hn. lia.
Qed.

(** ** Record requests *)

(** A record request takes 120 bytes and the data; it is built inside its buffer exactly when
    that fits, and otherwise written behind it: only the fixed part is checked. *)
Theorem record_request_fits_iff activity ar_uuid api slot subslot index write buf_len :
  is_uuid activity -> is_uuid ar_uuid -> 144 <= buf_len ->
  let size := 120 + Z.of_nat (length (default [] write)) in
  if size <=? buf_len
  then exists pdu, build_rpc_record_request activity ar_uuid api slot subslot index write buf_len = inr (Some pdu) /\
         Z.of_nat (length pdu) = size
  else build_rpc_record_request activity ar_uuid api slot subslot index write buf_len = inr None.
Proof.
  intros Ha Hu Hb. cbv zeta. unfold build_rpc_record_request.
  rewrite (proj2 (Z.ltb_ge buf_len _)) by (unfold RPC_HEADER_SIZE; lia). cbv zeta.
  match goal with |- context [inr (if buf_len <? Z.of_nat (length ?p) then None else Some ?p)] => set (pdu := p) end.
  assert (Z.of_nat (length pdu) = 120 + Z.of_nat (length (default [] write))) as Hl.
  { pose proof (uuid_swap_is_uuid _ Ha) as [La _]. pose proof (uuid_swap_is_uuid _ Hu) as [Lu _].
    pose proof (uuid_swap_is_uuid _ device_interface_uuid) as [Li _].
    unfold pdu. rewrite !length_app, La, Lu, Li, (proj1 Hu). unfold le32, le16. rewrite !length_le_bytes.
    cbn [length be16 be32]. lia. }
  rewrite <- Hl. clearbody pdu.
  destruct (Z.leb_spec (Z.of_nat (length pdu)) buf_len).
  - rewrite (proj2 (Z.ltb_ge _ _)) by lia. eauto.
  - by rewrite (proj2 (Z.ltb_lt _ _)) by lia.
Qed.

(** ** A plant with a station of two sensors and two actuators *)

Module PnDemo.
Import ArDemo.

Definition all_callbacks : pn_callbacks := mk_pn_callbacks true true true true true.
Definition cfg : pn_config := mk_pn_config 0xC0A80101 PN_VENDOR_ID PN_DEVICE_ID "" 0 all_callbacks.
Definition ctrl0 : profinet_controller := profinet_controller_init cfg mac0 0.

Definition plugged : list ar_module :=
  [mk_ar_module 0 1 GSDML_MOD_DAP 1; mk_ar_module 1 1 GSDML_MOD_PH 0x11;
   mk_ar_module 2 1 GSDML_MOD_PUMP 0x101; mk_ar_module 3 1 GSDML_MOD_VALVE 0x111;
   mk_ar_module 4 1 GSDML_MOD_LEVEL 0x61].

Definition env : connect_env :=
  mk_connect_env true (fun _ => Some [2; 0; 0; 0; 0; 9]) (uuid_of 2) true (fun _ => true) (quiet plugged).

Lemma env_is_ok : env_ok env.
Proof.
  split; cbn.
  - apply quiet_ok. unfold MAX_FITTING_MODULES. cbn. lia.
  - apply uuid_of_ok. unfold is_u8. lia.
  - by intros _ mac [= <-].
Qed.

Definition connect_op : pn_op := PnConnect env "rtu-a" (Some "192.168.1.9") [].
Definition after_connect : profinet_controller := default ctrl0 (pn_run [connect_op] ctrl0).

(** The device does not answer: the station stays in the table in ABORT. *)
Lemma connect_outcome_witness :
  exists ar, mg_ars (pc_ar_manager after_connect) = [ar] /\ ar_device_station_name ar = "rtu-a"%string /\
    settled WTC_ERROR_CONNECTION_FAILED ar.
Proof.
  destruct (profinet_controller_connect env "rtu-a" (Some "192.168.1.9"%string) [] ctrl0) as [[res c]|] eqn:E.
  - assert (res = WTC_ERROR_CONNECTION_FAILED /\ c = after_connect) as [-> ->].
    { split; [revert E; vm_compute; by intros [= <- _]|].
      unfold after_connect, pn_run, pn_step, connect_op. rewrite E. reflexivity. }
    destruct (connect_outcome env "rtu-a" (Some "192.168.1.9"%string) [] ctrl0 _ _ (eo_net _ env_is_ok) E)
      as [[_ H]|(ar & H1 & H2 & H3)].
    + exfalso. revert H. vm_compute. discriminate.
    + exists ar. split; [exact H1|]. split; [exact H2|exact H3].
  - exfalso. revert E. vm_compute. discriminate.
Defined.

Definition visit : list pn_op :=
  [PnStart true true true; connect_op; PnReceive 5 5000 frame_of_b; PnWriteOutput "rtu-a" 2 [1; 50];
   PnDisconnect (quiet []) "rtu-a"; connect_op; PnStop].

Lemma pn_controller_invariant_witness :
  match pn_run visit ctrl0 with Some c => controller_inv c | None => False end.
Proof.
  destruct (pn_run visit ctrl0) as [c|] eqn:E.
  - apply (pn_controller_invariant cfg mac0 0 visit); [reflexivity| |exact E].
    do 7 (apply Forall_cons_2; [first [exact I|exact env_is_ok|by apply CyclicDemo.bytes_dec]|]). constructor.
  - exfalso. revert E. vm_compute. discriminate.
Defined.

(** The station with its modules, running. *)
Definition planned (ar : profinet_ar) : profinet_ar :=
  ar <| ar_has_discovered_modules := true |> <| ar_st := AR_STATE_RUN |>.
Definition station : profinet_ar :=
  (ar_build_full_connect_params (fun _ => true) plugged (planned rtu_a)).2.

Lemma planned_ok ar : ar_ok ar -> ar_ok (planned ar).
Proof. intros [? ? ? ? ? ? ?]. by split. Qed.

Lemma inputs_delivered_as_announced_witness :
  match ar_iocr station with
  | cr :: _ =>
      deliver_inputs 0xC001 station =
        Some (deliveries "rtu-a" (default [] (cr_data_buffer cr)) 0 [3; 9])
  | [] => False
  end.
Proof.
  destruct (ar_iocr station) as [|cr l] eqn:E; [revert E; vm_compute; discriminate|].
  assert (announced_inputs 0 (expected_config station) = [3; 9]) as Ea by (vm_compute; reflexivity).
  rewrite <- Ea. apply (inputs_delivered_as_announced (fun _ => true) plugged (planned rtu_a) station 0xC001 cr).
  - apply planned_ok, rtu_a_ok.
  - unfold AR_MAX_DISCOVERED_MODULES. cbn. lia.
  - vm_compute. repeat constructor; discriminate.
  - vm_compute. reflexivity.
  - vm_compute. reflexivity.
  - revert E. vm_compute. intros [= <- _]. reflexivity.
  - revert E. vm_compute. intros [= <- _]. reflexivity.
Defined.

(** The controller with that station. *)
Definition running : profinet_controller :=
  ctrl0 <| pc_ar_manager ::= fun m => m <| mg_ars := [station] |> |>.

Definition output_buffer (c : profinet_controller) : list Z :=
  default [] (mg_ars (pc_ar_manager c) !! 0%nat ≫= fun ar => ar_iocr ar !! 1%nat ≫= cr_data_buffer).

(** The command of the second actuator is written at offset 4, where the connect request
    announced its data at offset 5 (behind data and status of the first). *)
Theorem second_output_misplaced :
  match profinet_controller_write_output "rtu-a" 3 [1; 50; 0; 0] running with
  | Some (WTC_OK, c) => take 10 (output_buffer c) = [0; 0; 0; 0; 1; 50; 0; 0; 0; 0]
  | _ => False
  end /\
  ((iodata_objects false 0 (expected_config station)).1).*2 = [0; 5].
Proof. vm_compute. split; reflexivity. Qed.

(** [read_input] begins at offset 0 with steps of 5, the delivery at 3 with steps of 6. *)
Definition with_inputs : profinet_controller :=
  running <| pc_ar_manager ::= fun m => m <| mg_ars :=
    [upd_iocr 0 (fun cr => cr <| cr_data_buffer := Some (Z.of_nat <$> seq 0 40) |>) station] |> |>.

Theorem read_input_misplaced :
  profinet_controller_read_input with_inputs "rtu-a" 1 5 = Some (WTC_OK, [0; 1; 2; 3; 4], IOPS_GOOD) /\
  (mg_ars (pc_ar_manager with_inputs) !! 0%nat ≫= deliver_inputs 0xC001) =
    Some [EvDataReceived "rtu-a" 0 [3; 4; 5; 6; 7]; EvDataReceived "rtu-a" 1 [9; 10; 11; 12; 13]].
Proof. vm_compute. split; reflexivity. Qed.

(** A read response with the block layout of the request (two version bytes behind type and
    length): the code takes the index for the length and begins two bytes early. *)
Definition read_answer (record : list Z) : list Z :=
  4 :: 2 :: replicate 78 0 ++ be16 0x8009 ++ be16 60 ++ [1; 0] ++ be16 1 ++ uuid_of 2 ++ be32 0 ++
  be16 0 ++ be16 0 ++ [0; 0] ++ be16 0xF844 ++ be32 (Z.of_nat (length record)) ++ record.

Theorem record_read_shifted :
  extract_record (read_answer [11; 22; 33; 44]) 100 = (WTC_OK, [0; 4; 11; 22; 33; 44]).
Proof. vm_compute. reflexivity. Qed.

(** A record of 1929 bytes overruns the request buffer of [profinet_controller_write_record]. *)
Theorem write_record_overruns :
  build_rpc_record_request (uuid_of 1) (uuid_of 2) 0 0 0 0xF841 (Some (replicate 1929 0)) 2048 = inr None.
Proof. vm_compute. reflexivity. Qed.

End PnDemo.
