(* ===== verification/RegisterMap.v ===== *)
(** * The Modbus register map: [src/modbus/register_map.c]

    Which process value or output stands behind which Modbus register and coil:
    the two tables with their lookups, generation from the RTU registry, the JSON
    file reader and writer, and the linear scaling.

    The enumerations [modbus_register_type_t], [modbus_data_type_t] and
    [data_source_t] are integers, since the file reader stores any number in them.
    [realloc_ok n] is the allocator's answer to a request for [n] entries.  The file
    is its content; a pointer into the read buffer is the text from there to the end
    of the buffer, and the terminating NUL follows that text. *)

From Stdlib Require Import Ascii.
From stdpp Require Import gmap.
From S2P Require Import Prelude Float32 Types Registry.

(** [modbus_register_type_t] *)
Definition MODBUS_REG_COIL : Z := 0.
Definition MODBUS_REG_DISCRETE_INPUT : Z := 1.
Definition MODBUS_REG_HOLDING : Z := 2.
Definition MODBUS_REG_INPUT : Z := 3.

(** [modbus_data_type_t] (the values the code compares with) *)
Definition MODBUS_DTYPE_UINT16 : Z := 0.
Definition MODBUS_DTYPE_INT16 : Z := 1.
Definition MODBUS_DTYPE_UINT32_BE : Z := 2.
Definition MODBUS_DTYPE_INT32_BE : Z := 4.
Definition MODBUS_DTYPE_INT32_LE : Z := 5.
Definition MODBUS_DTYPE_FLOAT32_BE : Z := 6.
Definition MODBUS_DTYPE_FLOAT32_LE : Z := 7.

(** [data_source_t] *)
Definition DATA_SOURCE_PROFINET_SENSOR : Z := 0.
Definition DATA_SOURCE_PROFINET_ACTUATOR : Z := 1.
Definition DATA_SOURCE_PID_SETPOINT : Z := 2.
Definition DATA_SOURCE_PID_PV : Z := 3.
Definition DATA_SOURCE_PID_CV : Z := 4.
Definition DATA_SOURCE_MODBUS_CLIENT : Z := 8.

(** [scaling_t] *)
Record scaling := mk_scaling {
  sca_enabled : bool;
  sca_raw_min : float32;
  sca_raw_max : float32;
  sca_eng_min : float32;
  sca_eng_max : float32;
  sca_offset : float32 }.
Definition no_scaling : scaling := mk_scaling false f0 f0 f0 f0 f0.

(** [register_mapping_t] *)
Record register_mapping := mk_register_mapping {
  rm_modbus_addr : Z;
  rm_reg_type : Z;
  rm_data_type : Z;
  rm_register_count : Z;
  rm_source : Z;
  rm_rtu_station : string;
  rm_slot : Z;
  rm_pid_loop_id : Z;
  rm_alarm_id : Z;
  rm_src_slave_addr : Z;
  rm_src_remote_addr : Z;
  rm_src_transport : Z;
  rm_scaling : scaling;
  rm_read_only : bool;
  rm_enabled : bool;
  rm_description : string }.

(** [coil_mapping_t] *)
Record coil_mapping := mk_coil_mapping {
  cm_modbus_addr : Z;
  cm_reg_type : Z;
  cm_source : Z;
  cm_rtu_station : string;
  cm_slot : Z;
  cm_bit_offset : Z;
  cm_command_on_value : Z;
  cm_command_off_value : Z;
  cm_read_only : bool;
  cm_enabled : bool;
  cm_description : string }.

(** [register_map_config_t] *)
Record register_map_config := mk_register_map_config {
  rmc_holding_base_addr : Z;
  rmc_input_base_addr : Z;
  rmc_coil_base_addr : Z;
  rmc_discrete_base_addr : Z }.

(** [struct register_map] *)
Record register_map := mk_register_map {
  map_config : register_map_config;
  map_registers : list register_mapping;
  map_register_capacity : Z;
  map_coils : list coil_mapping;
  map_coil_capacity : Z }.
#[export] Instance eta_register_map : Eta register_map := fun r =>
  mk_register_map (map_config r) (map_registers r) (map_register_capacity r)
    (map_coils r) (map_coil_capacity r).

(** [register_map_init] ([alloc k]: the [k]-th allocation succeeds) *)
Definition register_map_init (alloc : nat -> bool) (config : option register_map_config)
    : wtc_result * option register_map :=
  if negb (alloc 0%nat && alloc 1%nat && alloc 2%nat) then (WTC_ERROR_NO_MEMORY, None)
  else (WTC_OK, Some (mk_register_map (default (mk_register_map_config 0 0 0 0) config)
                        [] 256 [] 256)).

(** ** The two tables *)

Definition reg_key (m : register_mapping) : Z * Z := (rm_reg_type m, rm_modbus_addr m).
Definition coil_key (m : coil_mapping) : Z * Z := (cm_reg_type m, cm_modbus_addr m).

Section Tables.
Context (realloc_ok : Z -> bool).

(** [register_map_add_register] *)
Definition register_map_add_register (map : register_map) (mapping : register_mapping)
    : wtc_result * register_map :=
  if bool_decide (Exists (fun m => rm_modbus_addr m = rm_modbus_addr mapping /\
                                   rm_reg_type m = rm_reg_type mapping) (map_registers map))
  then (WTC_ERROR_ALREADY_EXISTS, map)
  else
    let cap := map_register_capacity map in
    if (cap <=? Z.of_nat (length (map_registers map))) && negb (realloc_ok (cap * 2))
    then (WTC_ERROR_NO_MEMORY, map)
    else
      (WTC_OK, map <| map_register_capacity :=
                        if cap <=? Z.of_nat (length (map_registers map)) then cap * 2 else cap |>
                   <| map_registers := map_registers map ++ [mapping] |>).

(** [register_map_add_coil] *)
Definition register_map_add_coil (map : register_map) (mapping : coil_mapping)
    : wtc_result * register_map :=
  if bool_decide (Exists (fun m => cm_modbus_addr m = cm_modbus_addr mapping /\
                                   cm_reg_type m = cm_reg_type mapping) (map_coils map))
  then (WTC_ERROR_ALREADY_EXISTS, map)
  else
    let cap := map_coil_capacity map in
    if (cap <=? Z.of_nat (length (map_coils map))) && negb (realloc_ok (cap * 2))
    then (WTC_ERROR_NO_MEMORY, map)
    else
      (WTC_OK, map <| map_coil_capacity :=
                        if cap <=? Z.of_nat (length (map_coils map)) then cap * 2 else cap |>
                   <| map_coils := map_coils map ++ [mapping] |>).

End Tables.

(** [register_map_remove_register]: by address alone. *)
Definition register_map_remove_register (map : register_map) (addr : Z)
    : wtc_result * register_map :=
  match find_remove (fun m => rm_modbus_addr m = addr) (map_registers map) with
  | Some l => (WTC_OK, map <| map_registers := l |>)
  | None => (WTC_ERROR_NOT_FOUND, map)
  end.

(** [register_map_remove_coil] *)
Definition register_map_remove_coil (map : register_map) (addr : Z)
    : wtc_result * register_map :=
  match find_remove (fun m => cm_modbus_addr m = addr) (map_coils map) with
  | Some l => (WTC_OK, map <| map_coils := l |>)
  | None => (WTC_ERROR_NOT_FOUND, map)
  end.

(** [register_map_get_register], [register_map_get_coil] *)
Definition register_map_get_register (map : register_map) (type addr : Z)
    : option register_mapping :=
  find_entry (fun m => rm_modbus_addr m = addr /\ rm_reg_type m = type /\ rm_enabled m = true)
    (map_registers map).

Definition register_map_get_coil (map : register_map) (type addr : Z) : option coil_mapping :=
  find_entry (fun m => cm_modbus_addr m = addr /\ cm_reg_type m = type /\ cm_enabled m = true)
    (map_coils map).

(** The scan of [register_map_get_register_range]: stops when [max_mappings]
    entries are found.  [start_addr + count] is computed in [int]. *)
Fixpoint register_range (type start_addr count : Z) (max_mappings : nat)
    (l : list register_mapping) : list register_mapping :=
  match max_mappings, l with
  | O, _ | _, [] => []
  | S max', m :: l' =>
      if (rm_reg_type m =? type) && rm_enabled m &&
         (start_addr <=? rm_modbus_addr m) && (rm_modbus_addr m <? start_addr + count)
      then m :: register_range type start_addr count max' l'
      else register_range type start_addr count max_mappings l'
  end.

(** [register_map_get_register_range]: the entries stored through [mappings]. *)
Definition register_map_get_register_range (map : register_map) (type start_addr count : Z)
    (max_mappings : Z) : list register_mapping :=
  register_range type start_addr count (Z.to_nat max_mappings) (map_registers map).

(** [register_map_get_coil_range] *)
Fixpoint coil_range (type start_addr count : Z) (max_mappings : nat)
    (l : list coil_mapping) : list coil_mapping :=
  match max_mappings, l with
  | O, _ | _, [] => []
  | S max', m :: l' =>
      if (cm_reg_type m =? type) && cm_enabled m &&
         (start_addr <=? cm_modbus_addr m) && (cm_modbus_addr m <? start_addr + count)
      then m :: coil_range type start_addr count max' l'
      else coil_range type start_addr count max_mappings l'
  end.

Definition register_map_get_coil_range (map : register_map) (type start_addr count : Z)
    (max_mappings : Z) : list coil_mapping :=
  coil_range type start_addr count (Z.to_nat max_mappings) (map_coils map).

(** [register_map_stats_t], [register_map_get_stats] *)
Record register_map_stats := mk_register_map_stats {
  rst_total_register_mappings : Z;
  rst_total_coil_mappings : Z;
  rst_holding_registers : Z;
  rst_input_registers : Z;
  rst_coils : Z;
  rst_discrete_inputs : Z }.
#[export] Instance eta_register_map_stats : Eta register_map_stats := fun r =>
  mk_register_map_stats (rst_total_register_mappings r) (rst_total_coil_mappings r)
    (rst_holding_registers r) (rst_input_registers r) (rst_coils r) (rst_discrete_inputs r).

Definition register_map_get_stats (map : register_map) : register_map_stats :=
  let stats := mk_register_map_stats (Z.of_nat (length (map_registers map)))
                 (Z.of_nat (length (map_coils map))) 0 0 0 0 in
  let stats := foldl (fun s m =>
      if rm_reg_type m =? MODBUS_REG_HOLDING then s <| rst_holding_registers ::= Z.add 1 |>
      else if rm_reg_type m =? MODBUS_REG_INPUT then s <| rst_input_registers ::= Z.add 1 |>
      else s) stats (map_registers map) in
  foldl (fun s m =>
      if cm_reg_type m =? MODBUS_REG_COIL then s <| rst_coils ::= Z.add 1 |>
      else if cm_reg_type m =? MODBUS_REG_DISCRETE_INPUT then s <| rst_discrete_inputs ::= Z.add 1 |>
      else s) stats (map_coils map).

(** ** Scaling *)

(** [register_map_scale_value], [register_map_unscale_value] *)
Definition register_map_scale_value (sc : scaling) (raw_value : float32) : float32 :=
  if negb (sca_enabled sc) then raw_value
  else
    let raw_range := fsub (sca_raw_max sc) (sca_raw_min sc) in
    if feq raw_range f0 then fadd raw_value (sca_offset sc)
    else
      let eng_range := fsub (sca_eng_max sc) (sca_eng_min sc) in
      let normalized := fdiv (fsub raw_value (sca_raw_min sc)) raw_range in
      fadd (fadd (fmul normalized eng_range) (sca_eng_min sc)) (sca_offset sc).

Definition register_map_unscale_value (sc : scaling) (eng_value : float32) : float32 :=
  if negb (sca_enabled sc) then eng_value
  else
    let eng_range := fsub (sca_eng_max sc) (sca_eng_min sc) in
    if feq eng_range f0 then fsub eng_value (sca_offset sc)
    else
      let raw_range := fsub (sca_raw_max sc) (sca_raw_min sc) in
      let normalized := fdiv (fsub (fsub eng_value (sca_offset sc)) (sca_eng_min sc)) eng_range in
      fadd (fmul normalized raw_range) (sca_raw_min sc).

(** ** Generation from the RTU registry *)

(** The entry made for sensor [s] of device [dev] at [addr]. *)
Definition sensor_register (dev : rtu_device) (s addr : Z) : register_mapping := {|
  rm_modbus_addr := addr; rm_reg_type := MODBUS_REG_INPUT;
  rm_data_type := MODBUS_DTYPE_FLOAT32_BE; rm_register_count := 2;
  rm_source := DATA_SOURCE_PROFINET_SENSOR;
  rm_rtu_station := strncpy 63 (dev_station_name dev); rm_slot := s + 1;
  rm_pid_loop_id := 0; rm_alarm_id := 0; rm_src_slave_addr := 0; rm_src_remote_addr := 0;
  rm_src_transport := 0; rm_scaling := no_scaling; rm_read_only := true; rm_enabled := true;
  rm_description := strncpy 63 (strncpy 45 (dev_station_name dev) +:+ " Sensor "
                                  +:+ pretty (s + 1)) |}.

(** The entries made for actuator [a] of device [dev]. *)
Definition actuator_register (dev : rtu_device) (a addr : Z) : register_mapping := {|
  rm_modbus_addr := addr; rm_reg_type := MODBUS_REG_HOLDING;
  rm_data_type := MODBUS_DTYPE_UINT16; rm_register_count := 1;
  rm_source := DATA_SOURCE_PROFINET_ACTUATOR;
  rm_rtu_station := strncpy 63 (dev_station_name dev); rm_slot := a + 1;
  rm_pid_loop_id := 0; rm_alarm_id := 0; rm_src_slave_addr := 0; rm_src_remote_addr := 0;
  rm_src_transport := 0; rm_scaling := no_scaling; rm_read_only := false; rm_enabled := true;
  rm_description := strncpy 63 (strncpy 43 (dev_station_name dev) +:+ " Actuator "
                                  +:+ pretty (a + 1)) |}.

Definition actuator_coil (dev : rtu_device) (a addr : Z) : coil_mapping := {|
  cm_modbus_addr := addr; cm_reg_type := MODBUS_REG_COIL;
  cm_source := DATA_SOURCE_PROFINET_ACTUATOR;
  cm_rtu_station := strncpy 63 (dev_station_name dev); cm_slot := a + 1; cm_bit_offset := 0;
  cm_command_on_value := 1; cm_command_off_value := 0; cm_read_only := false;
  cm_enabled := true;
  cm_description := strncpy 63 (strncpy 36 (dev_station_name dev) +:+ " Act "
                                  +:+ pretty (a + 1) +:+ " On/Off") |}.

(** The map and the three 16-bit address counters of [register_map_auto_generate]. *)
Record gen_state := mk_gen_state {
  gs_map : register_map;
  gs_sensor_addr : Z;
  gs_actuator_addr : Z;
  gs_coil_addr : Z }.

Section Generate.
Context (realloc_ok : Z -> bool).

Definition gen_sensor (dev : rtu_device) (st : gen_state) (s : nat) : gen_state :=
  let '(mk_gen_state map sa aa ca) := st in
  mk_gen_state (snd (register_map_add_register realloc_ok map (sensor_register dev (Z.of_nat s) sa)))
    (wrap16 (sa + 2)) aa ca.

Definition gen_actuator (dev : rtu_device) (st : gen_state) (a : nat) : gen_state :=
  let '(mk_gen_state map sa aa ca) := st in
  let map := snd (register_map_add_register realloc_ok map (actuator_register dev (Z.of_nat a) aa)) in
  let map := snd (register_map_add_coil realloc_ok map (actuator_coil dev (Z.of_nat a) ca)) in
  mk_gen_state map sa (wrap16 (aa + 1)) (wrap16 (ca + 1)).

Definition gen_device (st : gen_state) (dev : rtu_device) : gen_state :=
  let st := foldl (gen_sensor dev) st (seq 0 (Z.to_nat (dev_sensor_count dev))) in
  foldl (gen_actuator dev) st (seq 0 (Z.to_nat (dev_actuator_count dev))).

(** [register_map_auto_generate] *)
Definition register_map_auto_generate (alloc_ok : bool) (map : register_map) (r : registry)
    (sensor_base actuator_base : Z) : wtc_result * register_map :=
  match rtu_registry_list_devices alloc_ok r 64 with
  | (WTC_OK, Some devices) =>
      (WTC_OK, gs_map (foldl gen_device (mk_gen_state map sensor_base actuator_base 0) devices))
  | _ => (WTC_ERROR_INTERNAL, map)
  end.

End Generate.

(** ** The JSON file *)

Definition quote : ascii := "034"%char.
Definition NUL : ascii := "000"%char.
Definition newline : string := String "010"%char EmptyString.
Definition quoted (s : string) : string := String quote (s +:+ String quote EmptyString).

(** [strstr(p, key)] and [strchr(p, c)]: the text from the first match on. *)
Fixpoint find_sub (key p : string) : option string :=
  if String.prefix key p then Some p
  else match p with
       | String c p' => if decide (c = NUL) then None else find_sub key p'
       | EmptyString => None
       end.

Fixpoint find_char (ch : ascii) (p : string) : option string :=
  match p with
  | String c p' =>
      if decide (c = ch) then Some p else if decide (c = NUL) then None else find_char ch p'
  | EmptyString => None
  end.

(** [p + n]; [None] when that lies behind the terminating NUL. *)
Fixpoint advance (n : nat) (p : string) : option string :=
  match n, p with
  | O, _ => Some p
  | S n', String _ p' => advance n' p'
  | S _, EmptyString => None
  end.

Definition is_digit (c : ascii) : bool := (48 <=? Z.of_nat (nat_of_ascii c)) && (Z.of_nat (nat_of_ascii c) <=? 57).

(** [while ( *p && ( *p < '0' || *p > '9')) p++;] *)
Fixpoint skip_to_digit (p : string) : string :=
  match p with
  | String c p' =>
      if bool_decide (c <> NUL) && negb (is_digit c) then skip_to_digit p' else p
  | EmptyString => EmptyString
  end.

(** [atoi] at a digit or at a NUL (a number beyond [int] is undefined in C; here it
    keeps its value). *)
Fixpoint atoi_from (acc : Z) (p : string) : Z :=
  match p with
  | String c p' =>
      if is_digit c then atoi_from (acc * 10 + (Z.of_nat (nat_of_ascii c) - 48)) p' else acc
  | EmptyString => acc
  end.
Definition atoi (p : string) : Z := atoi_from 0 p.

(** The text before the first [ch], when there is one. *)
Definition text_before (ch : ascii) (p : string) : option string :=
  match find_char ch p with
  | Some e => Some (String.substring 0 (String.length p - String.length e) p)
  | None => None
  end.

(** The number that follows [key] (with its quotes), 0 when [key] does not occur;
    [None] when the reader runs past the end of the buffer. *)
Definition number_field (key p : string) : option Z :=
  match find_sub key p with
  | None => Some 0
  | Some k =>
      match advance (String.length key + 1) k with
      | Some k => Some (atoi (skip_to_digit k))
      | None => None
      end
  end.

(** The quoted text that follows [key], cut to [n] characters. *)
Definition string_field (n : nat) (key p : string) : string :=
  match find_sub key p with
  | None => ""
  | Some k =>
      match find_char quote (default "" (advance (String.length key) k)) with
      | Some (String _ k1) =>
          match text_before quote k1 with
          | Some t => strncpy n t
          | None => ""
          end
      | _ => ""
      end
  end%string.

(** What a reading loop returns. *)
Inductive loaded (A : Type) :=
| Loaded (a : A)
| ReadPastEnd       (* a read behind the terminating NUL *)
| OutOfFuel.
Arguments Loaded {A} a.
Arguments ReadPastEnd {A}.
Arguments OutOfFuel {A}.

Definition two_registers (data_type : Z) : bool :=
  (data_type =? MODBUS_DTYPE_FLOAT32_BE) || (data_type =? MODBUS_DTYPE_FLOAT32_LE) ||
  (data_type =? MODBUS_DTYPE_INT32_BE) || (data_type =? MODBUS_DTYPE_INT32_LE).

(** The entry read behind the ["address"] key; [num_start] is where its number starts. *)
Definition parse_register (num_start : string) : option register_mapping :=
  type ← number_field (quoted "type") num_start;
  data_type ← number_field (quoted "data_type") num_start;
  source ← number_field (quoted "source") num_start;
  slot ← number_field (quoted "slot") num_start;
  Some {|
    rm_modbus_addr := wrap16 (atoi num_start); rm_reg_type := type; rm_data_type := data_type;
    rm_register_count := if two_registers data_type then 2 else 1;
    rm_source := source;
    rm_rtu_station := string_field 63 (quoted "rtu_station") num_start;
    rm_slot := slot; rm_pid_loop_id := 0; rm_alarm_id := 0; rm_src_slave_addr := 0;
    rm_src_remote_addr := 0; rm_src_transport := 0; rm_scaling := no_scaling;
    rm_read_only := false; rm_enabled := true;
    rm_description := string_field 63 (quoted "description") num_start |}.

Definition parse_coil (num_start : string) : option coil_mapping :=
  type ← number_field (quoted "type") num_start;
  source ← number_field (quoted "source") num_start;
  slot ← number_field (quoted "slot") num_start;
  Some {|
    cm_modbus_addr := wrap16 (atoi num_start); cm_reg_type := type; cm_source := source;
    cm_rtu_station := string_field 63 (quoted "rtu_station") num_start;
    cm_slot := slot; cm_bit_offset := 0; cm_command_on_value := 1; cm_command_off_value := 0;
    cm_read_only := false; cm_enabled := true; cm_description := "" |}.

(** The loop over the ["address"] keys from [p] on, shared by the two sections:
    [while ((addr_key = strstr(addr_key, key)) != NULL) { ...; addr_key = num_start; }] *)
Section Reader.
Context {E S : Type} (parse : string -> option E) (add : S -> E -> S).

Fixpoint read_entries (fuel : nat) (p : string) (map : S) : loaded S :=
  match find_sub (quoted "address") p with
  | None => Loaded map
  | Some k =>
      match fuel with
      | O => OutOfFuel
      | Datatypes.S fuel' =>
          match advance (String.length (quoted "address") + 1) k with
          | None => ReadPastEnd
          | Some k =>
              let num_start := skip_to_digit k in
              match parse num_start with
              | None => ReadPastEnd
              | Some e => read_entries fuel' num_start (add map e)
              end
          end
      end
  end.
End Reader.

Section Json.
Context (realloc_ok : Z -> bool).

Definition add_register (map : register_map) (m : register_mapping) : register_map :=
  snd (register_map_add_register realloc_ok map m).
Definition add_coil (map : register_map) (m : coil_mapping) : register_map :=
  snd (register_map_add_coil realloc_ok map m).

(** The two parsing sections of [register_map_load_json] on the buffer [p]. *)
Definition load_registers (p : string) (map : register_map) : loaded register_map :=
  match find_sub (quoted "registers") p with
  | Some reg_section =>
      read_entries parse_register add_register (String.length reg_section) reg_section map
  | None => Loaded map
  end.

Definition load_coils (p : string) (map : register_map) : loaded register_map :=
  match find_sub (quoted "coils") p with
  | Some coil_section =>
      read_entries parse_coil add_coil (String.length coil_section) coil_section map
  | None => Loaded map
  end.

(** [register_map_load_json]: [file] is the content ([None]: it does not open),
    [alloc_ok] the buffer's allocation, [read_ok] a complete [fread]. *)
Definition register_map_load_json (alloc_ok read_ok : bool) (file : option string)
    (map : register_map) : loaded (wtc_result * register_map) :=
  match file with
  | None => Loaded (WTC_ERROR_IO, map)
  | Some text =>
      let size := Z.of_nat (String.length text) in
      if (size <=? 0) || (1024 * 1024 <? size) then Loaded (WTC_ERROR_INVALID_PARAM, map)
      else if negb alloc_ok then Loaded (WTC_ERROR_NO_MEMORY, map)
      else if negb read_ok then Loaded (WTC_ERROR_IO, map)
      else
        match load_registers text map with
        | Loaded map1 =>
            match load_coils text map1 with
            | Loaded map2 => Loaded (WTC_OK, map2)
            | ReadPastEnd => ReadPastEnd
            | OutOfFuel => OutOfFuel
            end
        | ReadPastEnd => ReadPastEnd
        | OutOfFuel => OutOfFuel
        end
  end.

End Json.

(** ["      \"key\": %d,\n"] and ["      \"key\": \"%s\",\n"] *)
Definition number_line (key : string) (v : Z) : string :=
  "      " +:+ quoted key +:+ ": " +:+ pretty v +:+ "," +:+ newline.
Definition string_line (key v : string) : string :=
  "      " +:+ quoted key +:+ ": " +:+ quoted v +:+ "," +:+ newline.
Definition enabled_line (b : bool) : string :=
  "      " +:+ quoted "enabled" +:+ ": " +:+ (if b then "true" else "false") +:+ newline.

Definition save_register (r : register_mapping) : string :=
  "    {" +:+ newline +:+
  number_line "address" (rm_modbus_addr r) +:+
  number_line "type" (rm_reg_type r) +:+
  number_line "data_type" (rm_data_type r) +:+
  number_line "source" (rm_source r) +:+
  string_line "rtu_station" (rm_rtu_station r) +:+
  number_line "slot" (rm_slot r) +:+
  string_line "description" (rm_description r) +:+
  enabled_line (rm_enabled r) +:+ "    }".

Definition save_coil (c : coil_mapping) : string :=
  "    {" +:+ newline +:+
  number_line "address" (cm_modbus_addr c) +:+
  number_line "type" (cm_reg_type c) +:+
  number_line "source" (cm_source c) +:+
  string_line "rtu_station" (cm_rtu_station c) +:+
  number_line "slot" (cm_slot c) +:+
  string_line "description" (cm_description c) +:+
  enabled_line (cm_enabled c) +:+ "    }".

(** The entries, a comma after each but the last, one newline after each. *)
Fixpoint save_entries (entries : list string) : string :=
  match entries with
  | [] => ""
  | [e] => e +:+ newline
  | e :: l => e +:+ "," +:+ newline +:+ save_entries l
  end.

(** The text [register_map_save_json] writes. *)
Definition register_map_save_json (map : register_map) : string :=
  "{" +:+ newline +:+ "  " +:+ quoted "registers" +:+ ": [" +:+ newline +:+
  save_entries (save_register <$> map_registers map) +:+
  "  ]," +:+ newline +:+ "  " +:+ quoted "coils" +:+ ": [" +:+ newline +:+
  save_entries (save_coil <$> map_coils map) +:+
  "  ]" +:+ newline +:+ "}" +:+ newline.

(** ** Lemmas on text *)

#[local] Arguments String.append !_ _ : simpl nomatch.

Lemma sapp_assoc (a b c : string) : (a +:+ b) +:+ c = a +:+ (b +:+ c).
Proof. induction a as [|x a IH]; [done|]. cbn. by f_equal. Qed.
Lemma sapp_nil_r (a : string) : a +:+ "" = a.
Proof. induction a as [|x a IH]; [done|]. cbn. by f_equal. Qed.
Lemma slength_app (a b : string) :
  String.length (a +:+ b) = (String.length a + String.length b)%nat.
Proof. induction a as [|x a IH]; [done|]. cbn. by f_equal. Qed.

Lemma prefix_app (a b : string) : String.prefix a (a +:+ b) = true.
Proof. induction a as [|x a IH]; [by destruct b|]. cbn. by destruct (ascii_dec x x). Qed.

(** Text without quotes and NULs, and text of digits. *)
Fixpoint plain (t : string) : bool :=
  match t with
  | String c t' => bool_decide (c <> quote) && bool_decide (c <> NUL) && plain t'
  | EmptyString => true
  end.
Fixpoint digits (t : string) : bool :=
  match t with
  | String c t' => is_digit c && digits t'
  | EmptyString => true
  end.
Definition head_is (f : ascii -> bool) (t : string) : bool :=
  match t with String c _ => f c | EmptyString => false end.

Lemma digits_plain t : digits t = true -> plain t = true.
Proof.
  induction t as [|c t IH]; [done|]. cbn. intros H. apply andb_true_iff in H as [Hc Ht].
  rewrite (IH Ht), andb_true_r. by destruct c as [[] [] [] [] [] [] [] []].
Qed.

Lemma plain_cons c t : plain (String c t) = true -> c <> quote /\ c <> NUL /\ plain t = true.
Proof.
  cbn. intros H. apply andb_true_iff in H as [H Ht]. apply andb_true_iff in H as [H1 H2].
  by apply bool_decide_eq_true in H1, H2.
Qed.

Lemma find_sub_skip a c p :
  c <> quote -> c <> NUL -> find_sub (quoted a) (String c p) = find_sub (quoted a) p.
Proof.
  intros Hq Hn. unfold quoted. cbn [find_sub String.prefix].
  destruct (ascii_dec quote c) as [<-|_]; [done|]. by destruct (decide (c = NUL)).
Qed.

Lemma find_sub_plain a t p :
  plain t = true -> find_sub (quoted a) (t +:+ p) = find_sub (quoted a) p.
Proof.
  induction t as [|c t IH]; [done|]. intros (Hq & Hn & Ht)%plain_cons.
  change (String c t +:+ p) with (String c (t +:+ p)). rewrite find_sub_skip by done. auto.
Qed.

Lemma find_sub_hit a p : find_sub (quoted a) (quoted a +:+ p) = Some (quoted a +:+ p).
Proof.
  assert (find_sub (quoted a) (quoted a +:+ p)
          = if String.prefix (quoted a) (quoted a +:+ p) then Some (quoted a +:+ p)
            else find_sub (quoted a) ((a +:+ String quote "") +:+ p)) as -> by done.
  by rewrite prefix_app.
Qed.

(** A key does not match at another quoted text. *)
Lemma prefix_quote_ne a b p :
  plain a = true -> plain b = true -> a <> b ->
  String.prefix (a +:+ String quote "") ((b +:+ String quote "") +:+ p) = false.
Proof.
  revert b. induction a as [|x a IH]; intros [|y b] Ha Hb Hne; [done| | |].
  - apply plain_cons in Hb as [Hy _]. cbn -[quote]. by destruct (ascii_dec quote y).
  - apply plain_cons in Ha as [Hx _]. cbn -[quote]. by destruct (ascii_dec x quote).
  - apply plain_cons in Ha as (_ & _ & Ha). apply plain_cons in Hb as (_ & _ & Hb).
    cbn. destruct (ascii_dec x y) as [->|]; [|done].
    apply IH; [done..|]. by intros ->.
Qed.

(** A search key: not empty, plain, and not starting with the punctuation that
    follows a quoted text in the file. *)
Definition key_ok (a : string) : bool :=
  plain a && head_is (fun c => bool_decide (c <> ":"%char /\ c <> ","%char)) a.

Definition punct (c : ascii) : bool := bool_decide (c = ":"%char) || bool_decide (c = ","%char).

Lemma find_sub_other a b p :
  key_ok a = true -> plain b = true -> a <> b -> head_is punct p = true ->
  find_sub (quoted a) (quoted b +:+ p) = find_sub (quoted a) p.
Proof.
  intros [Ha Hh]%andb_true_iff Hb Hne Hc.
  assert (find_sub (quoted a) (quoted b +:+ p)
          = if String.prefix (a +:+ String quote "") ((b +:+ String quote "") +:+ p)
            then Some (quoted b +:+ p)
            else find_sub (quoted a) ((b +:+ String quote "") +:+ p)) as ->.
  { unfold quoted. cbn -[String.append]. by destruct (ascii_dec quote quote). }
  rewrite prefix_quote_ne by done. rewrite sapp_assoc, find_sub_plain by done.
  destruct a as [|x a]; [done|]. destruct p as [|c p]; [done|]. cbn [head_is] in *.
  apply bool_decide_eq_true in Hh as [H1 H2].
  unfold quoted. cbn. destruct (ascii_dec quote quote) as [_|]; [|done].
  destruct (ascii_dec x c) as [->|]; [|done].
  unfold punct in Hc. by rewrite !bool_decide_eq_false_2 in Hc.
Qed.

(** ** Numbers *)

Lemma pretty_char_digit n : (n < 10)%N -> is_digit (pretty_N_char n) = true /\
  Z.of_nat (nat_of_ascii (pretty_N_char n)) - 48 = Z.of_N n.
Proof.
  intros Hn. assert (n ∈ [0;1;2;3;4;5;6;7;8;9]%N) as H.
  { rewrite !elem_of_cons. lia. }
  clear Hn. revert n H. apply Forall_forall. by repeat constructor.
Qed.

Lemma atoi_pretty_go x s : atoi_from 0 (pretty_N_go x s) = atoi_from (Z.of_N x) s.
Proof.
  revert s. induction (N.lt_wf_0 x) as [x _ IH]; intros s.
  destruct (decide (x = 0)%N) as [->|Hx]; [done|].
  rewrite pretty_N_go_step by lia. rewrite IH by (apply N.div_lt; lia). cbn [atoi_from].
  destruct (pretty_char_digit (x `mod` 10)) as [-> ->]; [by apply N.mod_lt|].
  f_equal. pose proof (N.div_mod x 10). lia.
Qed.

Lemma pretty_go_app x s p : pretty_N_go x s +:+ p = pretty_N_go x (s +:+ p).
Proof.
  revert s. induction (N.lt_wf_0 x) as [x _ IH]; intros s.
  destruct (decide (x = 0)%N) as [->|Hx]; [done|].
  rewrite !(pretty_N_go_step x) by lia. by rewrite IH by (apply N.div_lt; lia).
Qed.

Lemma digits_pretty_go x s :
  digits s = true ->
  digits (pretty_N_go x s) = true /\
  ((0 < x)%N \/ head_is is_digit s = true -> head_is is_digit (pretty_N_go x s) = true).
Proof.
  revert s. induction (N.lt_wf_0 x) as [x _ IH]; intros s Hs.
  destruct (decide (x = 0)%N) as [->|Hx].
  { split; [done|]. intros [?|?]; [lia|done]. }
  rewrite pretty_N_go_step by lia.
  destruct (pretty_char_digit (x `mod` 10)) as [Hd _]; [by apply N.mod_lt|].
  destruct (IH (x `div` 10)%N) with (s := String (pretty_N_char (x `mod` 10)) s) as [H1 H2].
  - apply N.div_lt; lia.
  - cbn. by rewrite Hd.
  - split; [done|]. intros _. apply H2. right. done.
Qed.

(** [%d] of a number that is not negative: digits, and [atoi] reads it back. *)
Lemma pretty_number v :
  0 <= v -> digits (pretty v) = true /\ head_is is_digit (pretty v) = true /\
  forall p, head_is is_digit p = false -> atoi (pretty v +:+ p) = v.
Proof.
  intros Hv. destruct v as [|v|v]; [|clear Hv|lia].
  - split_and!; [done..|]. intros [|c p] Hp; [done|]. cbn in *. by rewrite Hp.
  - change (pretty (Z.pos v)) with (pretty_N_go (N.pos v) "").
    destruct (digits_pretty_go (N.pos v) "") as [H1 H2]; [done|].
    split_and!; [done|apply H2; by left|]. intros p Hp.
    rewrite pretty_go_app. unfold atoi. rewrite atoi_pretty_go. cbn [String.append].
    destruct p as [|c p]; [done|]. cbn in *. by rewrite Hp.
Qed.

Lemma skip_to_digit_stop p : head_is is_digit p = true -> skip_to_digit p = p.
Proof. destruct p as [|c p]; [done|]. cbn. intros ->. by rewrite andb_false_r. Qed.

Lemma head_is_app f a b : head_is f a = true -> head_is f (a +:+ b) = true.
Proof. by destruct a. Qed.

Lemma advance_app a p : advance (String.length a) (a +:+ p) = Some p.
Proof. induction a as [|c a IH]; [done|exact IH]. Qed.

Lemma advance_more a n p : advance (String.length a + n) (a +:+ p) = advance n p.
Proof. induction a as [|c a IH]; [done|exact IH]. Qed.

(** ** Lines of the file *)

Lemma field_congr key p q :
  find_sub key p = find_sub key q ->
  number_field key p = number_field key q /\ forall n, string_field n key p = string_field n key q.
Proof. unfold number_field, string_field. by intros ->. Qed.

Lemma skip_number a key v p :
  key_ok a = true -> plain key = true -> a <> key -> 0 <= v ->
  find_sub (quoted a) (number_line key v +:+ p) = find_sub (quoted a) p.
Proof.
  intros Ha Hk Hne Hv. unfold number_line. rewrite !sapp_assoc, find_sub_plain by done.
  rewrite find_sub_other by done. rewrite !find_sub_plain; try done.
  by apply digits_plain, pretty_number.
Qed.

Lemma skip_string a key v p :
  key_ok a = true -> plain key = true -> a <> key -> plain v = true -> a <> v ->
  find_sub (quoted a) (string_line key v +:+ p) = find_sub (quoted a) p.
Proof.
  intros Ha Hk Hne Hv Hne'. unfold string_line. rewrite !sapp_assoc, find_sub_plain by done.
  rewrite find_sub_other, find_sub_plain by done.
  rewrite find_sub_other by done. by rewrite !find_sub_plain.
Qed.

Lemma skip_enabled a b p :
  key_ok a = true -> a <> "enabled"%string ->
  find_sub (quoted a) (enabled_line b +:+ p) = find_sub (quoted a) p.
Proof.
  intros Ha Hne. unfold enabled_line. rewrite !sapp_assoc, find_sub_plain by done.
  rewrite find_sub_other by done. rewrite !find_sub_plain; try done. by destruct b.
Qed.

Lemma find_number key v p :
  find_sub (quoted key) (number_line key v +:+ p)
  = Some (quoted key +:+ (": " +:+ (pretty v +:+ ("," +:+ (newline +:+ p))))).
Proof. unfold number_line. by rewrite !sapp_assoc, find_sub_plain, find_sub_hit. Qed.

(** The digit scan behind a key and its colon. *)
Lemma scan_number key v p :
  0 <= v ->
  exists k, advance (String.length (quoted key) + 1) (quoted key +:+ (": " +:+ (pretty v +:+ p))) = Some k /\
    skip_to_digit k = pretty v +:+ p.
Proof.
  intros Hv. exists (" " +:+ (pretty v +:+ p)). split; [by rewrite advance_more|].
  change (skip_to_digit (pretty v +:+ p) = pretty v +:+ p).
  apply skip_to_digit_stop, head_is_app, pretty_number, Hv.
Qed.

Lemma read_number key v p :
  0 <= v -> number_field (quoted key) (number_line key v +:+ p) = Some v.
Proof.
  intros Hv. unfold number_field. rewrite find_number.
  destruct (scan_number key v ("," +:+ (newline +:+ p)) Hv) as (k & -> & ->).
  f_equal. by apply pretty_number.
Qed.

Lemma find_char_plain t p : plain t = true -> find_char quote (t +:+ String quote p) = Some (String quote p).
Proof.
  induction t as [|c t IH]; [done|]. intros (Hq & Hn & Ht)%plain_cons. cbn -[quote NUL].
  destruct (decide (c = quote)); [done|]. destruct (decide (c = NUL)); [done|]. auto.
Qed.

Lemma substring_app (a b : string) : String.substring 0 (String.length a) (a +:+ b) = a.
Proof. induction a as [|c a IH]; [by destruct b|]. cbn. by rewrite IH. Qed.

Lemma text_before_plain t p : plain t = true -> text_before quote (t +:+ String quote p) = Some t.
Proof.
  intros Ht. unfold text_before. rewrite find_char_plain by done. rewrite slength_app.
  rewrite Nat.add_sub. by rewrite substring_app.
Qed.

Lemma read_string n key v p :
  plain v = true -> (String.length v <= n)%nat ->
  string_field n (quoted key) (string_line key v +:+ p) = v.
Proof.
  intros Hv Hn. unfold string_field, string_line. rewrite !sapp_assoc, find_sub_plain by done.
  rewrite find_sub_hit, advance_app.
  assert (quoted v +:+ ("," +:+ (newline +:+ p)) = String quote (v +:+ String quote ("," +:+ (newline +:+ p))))
    as ->.
  { change (quoted v +:+ ?t) with (String quote ((v +:+ String quote "") +:+ t)).
    by rewrite sapp_assoc. }
  change (match find_char quote (default "" (Some (": " +:+ String quote ?t))) with
          | Some (String _ k1) => match text_before quote k1 with Some u => strncpy n u | None => "" end
          | _ => "" end = v)%string
    with (match text_before quote t with Some u => strncpy n u | None => "" end = v)%string.
  rewrite text_before_plain by done. by rewrite strncpy_fits.
Qed.

(** ** Entries of the file *)

(** Texts the reader finds back: no quotes, short enough for their field, and none of
    the keys it searches for behind them. *)
Definition reserved : list string := ["address"; "data_type"; "slot"; "description"; "coils"]%string.
Definition text_ok (t : string) : bool :=
  plain t && (String.length t <=? 63)%nat && bool_decide (t ∉ reserved).

Definition register_saveable (r : register_mapping) : Prop :=
  is_u16 (rm_modbus_addr r) /\ 0 <= rm_reg_type r /\ 0 <= rm_data_type r /\ 0 <= rm_source r /\
  0 <= rm_slot r /\ text_ok (rm_rtu_station r) = true /\ text_ok (rm_description r) = true.
Definition coil_saveable (c : coil_mapping) : Prop :=
  is_u16 (cm_modbus_addr c) /\ 0 <= cm_reg_type c /\ 0 <= cm_source c /\
  0 <= cm_slot c /\ text_ok (cm_rtu_station c) = true /\ text_ok (cm_description c) = true.

(** What comes back of a saved register and of a saved coil, and the register the
    reader makes of a saved coil. *)
Definition reloaded_register (r : register_mapping) : register_mapping :=
  mk_register_mapping (rm_modbus_addr r) (rm_reg_type r) (rm_data_type r)
    (if two_registers (rm_data_type r) then 2 else 1) (rm_source r) (rm_rtu_station r) (rm_slot r)
    0 0 0 0 0 no_scaling false true (rm_description r).
Definition reloaded_coil (c : coil_mapping) : coil_mapping :=
  mk_coil_mapping (cm_modbus_addr c) (cm_reg_type c) (cm_source c) (cm_rtu_station c) (cm_slot c)
    0 1 0 false true "".
Definition coil_as_register (c : coil_mapping) : register_mapping :=
  mk_register_mapping (cm_modbus_addr c) (cm_reg_type c) MODBUS_DTYPE_UINT16 1 (cm_source c)
    (cm_rtu_station c) (cm_slot c) 0 0 0 0 0 no_scaling false true (cm_description c).

Lemma text_ok_spec t :
  text_ok t = true -> plain t = true /\ (String.length t <= 63)%nat /\ forall k, k ∈ reserved -> k <> t.
Proof.
  intros H. apply andb_true_iff in H as [H H3]. apply andb_true_iff in H as [H1 H2].
  apply Nat.leb_le in H2. apply bool_decide_eq_true in H3. split_and!; [done..|].
  by intros k Hk ->.
Qed.

(** The lines of an entry behind its address line. *)
Definition register_fields (r : register_mapping) : string :=
  number_line "type" (rm_reg_type r) +:+ number_line "data_type" (rm_data_type r) +:+
  number_line "source" (rm_source r) +:+ string_line "rtu_station" (rm_rtu_station r) +:+
  number_line "slot" (rm_slot r) +:+ string_line "description" (rm_description r) +:+
  enabled_line (rm_enabled r) +:+ "    }".
Definition coil_fields (c : coil_mapping) : string :=
  number_line "type" (cm_reg_type c) +:+
  number_line "source" (cm_source c) +:+ string_line "rtu_station" (cm_rtu_station c) +:+
  number_line "slot" (cm_slot c) +:+ string_line "description" (cm_description c) +:+
  enabled_line (cm_enabled c) +:+ "    }".
Definition entry (addr : Z) (fields : string) : string :=
  "    {" +:+ newline +:+ number_line "address" addr +:+ fields.

Lemma save_register_entry r : save_register r = entry (rm_modbus_addr r) (register_fields r).
Proof. done. Qed.
Lemma save_coil_entry c : save_coil c = entry (cm_modbus_addr c) (coil_fields c).
Proof. done. Qed.

Ltac saveable :=
  repeat match goal with
  | H : register_saveable _ |- _ => destruct H as (? & ? & ? & ? & ? & ? & ?)
  | H : coil_saveable _ |- _ => destruct H as (? & ? & ? & ? & ? & ?)
  | H : text_ok _ = true |- _ => apply text_ok_spec in H as (? & ? & ?)
  | H : is_u16 _ |- _ => unfold is_u16 in H
  end.

(** Discharge what the line lemmas ask of a key and a text. *)
Ltac line_side :=
  first [done | lia |
         match goal with H : forall k, k ∈ reserved -> k <> ?t |- _ <> ?t =>
           apply H, (bool_decide_unpack _); exact I end].
Ltac skip_lines :=
  rewrite ?sapp_assoc;
  repeat first [rewrite skip_number by line_side | rewrite skip_string by line_side
               | rewrite skip_enabled by line_side | rewrite find_sub_plain by done].

(** Keys that do not occur in a register entry, in a coil entry. *)
Lemma skip_register_fields a r p :
  register_saveable r -> a ∈ ["address"; "coils"]%string ->
  find_sub (quoted a) (register_fields r +:+ p) = find_sub (quoted a) p.
Proof.
  intros H Ha. saveable. unfold register_fields.
  rewrite !elem_of_cons, elem_of_nil in Ha. destruct Ha as [->|[->|[]]]; by skip_lines.
Qed.

Lemma skip_coil_fields a c p :
  coil_saveable c -> a ∈ ["address"; "data_type"]%string ->
  find_sub (quoted a) (coil_fields c +:+ p) = find_sub (quoted a) p.
Proof.
  intros H Ha. saveable. unfold coil_fields.
  rewrite !elem_of_cons, elem_of_nil in Ha. destruct Ha as [->|[->|[]]]; by skip_lines.
Qed.

(** The text from an entry's number on: a key is searched in the fields. *)
Definition from_number (addr : Z) (p : string) : string := pretty addr +:+ ("," +:+ (newline +:+ p)).

Lemma find_from_number a addr p :
  0 <= addr -> find_sub (quoted a) (from_number addr p) = find_sub (quoted a) p.
Proof.
  intros Ha. unfold from_number. rewrite !find_sub_plain; try done.
  by apply digits_plain, pretty_number.
Qed.

Lemma atoi_from_number addr p : is_u16 addr -> wrap16 (atoi (from_number addr p)) = addr.
Proof.
  intros Ha. unfold from_number. destruct (pretty_number addr) as (_ & _ & E); [apply Ha|].
  rewrite E by done. by apply Z.mod_small.
Qed.

(** A key's field, wherever lines before it are skipped. *)
Lemma number_at key v q p :
  0 <= v -> find_sub (quoted key) q = find_sub (quoted key) (number_line key v +:+ p) ->
  number_field (quoted key) q = Some v.
Proof. intros Hv H. apply field_congr in H as [-> _]. by apply read_number. Qed.

Lemma string_at key v q p :
  plain v = true -> (String.length v <= 63)%nat ->
  find_sub (quoted key) q = find_sub (quoted key) (string_line key v +:+ p) ->
  string_field 63 (quoted key) q = v.
Proof.
  intros Hp Hl H. apply field_congr in H as [_ ->]. by apply read_string.
Qed.

(** Read a field of an entry whose text starts at its number. *)
Ltac read_field fields :=
  first [eapply number_at; [done|] | eapply string_at; [done..|]];
  rewrite find_from_number by lia; unfold fields; by skip_lines.
Ltac known_number key v fields :=
  match goal with |- context [number_field (quoted key) ?q] =>
    let E := fresh in
    assert (number_field (quoted key) q = Some v) as E by read_field fields; rewrite E; clear E
  end.
Ltac known_string key v fields :=
  match goal with |- context [string_field 63 (quoted key) ?q] =>
    let E := fresh in
    assert (string_field 63 (quoted key) q = v) as E by read_field fields; rewrite E; clear E
  end.

Lemma parse_saved_register r p :
  register_saveable r ->
  parse_register (from_number (rm_modbus_addr r) (register_fields r +:+ p))
  = Some (reloaded_register r).
Proof.
  intros H. pose proof (atoi_from_number (rm_modbus_addr r) (register_fields r +:+ p)) as Ha.
  specialize (Ha ltac:(apply H)). saveable. unfold parse_register. rewrite Ha.
  known_number "type"%string (rm_reg_type r) register_fields.
  known_number "data_type"%string (rm_data_type r) register_fields.
  known_number "source"%string (rm_source r) register_fields.
  known_number "slot"%string (rm_slot r) register_fields.
  known_string "rtu_station"%string (rm_rtu_station r) register_fields.
  known_string "description"%string (rm_description r) register_fields.
  done.
Qed.

Lemma parse_saved_coil c p :
  coil_saveable c ->
  parse_coil (from_number (cm_modbus_addr c) (coil_fields c +:+ p)) = Some (reloaded_coil c).
Proof.
  intros H. pose proof (atoi_from_number (cm_modbus_addr c) (coil_fields c +:+ p)) as Ha.
  specialize (Ha ltac:(apply H)). saveable. unfold parse_coil. rewrite Ha.
  known_number "type"%string (cm_reg_type c) coil_fields.
  known_number "source"%string (cm_source c) coil_fields.
  known_number "slot"%string (cm_slot c) coil_fields.
  known_string "rtu_station"%string (cm_rtu_station c) coil_fields.
  done.
Qed.

(** A coil read by the register loop: its missing ["data_type"] is searched in the
    text that follows. *)
Lemma parse_coil_as_register c p :
  coil_saveable c -> find_sub (quoted "data_type") p = None ->
  parse_register (from_number (cm_modbus_addr c) (coil_fields c +:+ p)) = Some (coil_as_register c).
Proof.
  intros H Hp. pose proof (atoi_from_number (cm_modbus_addr c) (coil_fields c +:+ p)) as Ha.
  specialize (Ha ltac:(apply H)). unfold parse_register. rewrite Ha.
  assert (number_field (quoted "data_type") (from_number (cm_modbus_addr c) (coil_fields c +:+ p))
          = Some 0) as ->.
  { unfold number_field. rewrite find_from_number by apply H.
    rewrite skip_coil_fields; [by rewrite Hp|done|set_solver]. }
  saveable.
  known_number "type"%string (cm_reg_type c) coil_fields.
  known_number "source"%string (cm_source c) coil_fields.
  known_number "slot"%string (cm_slot c) coil_fields.
  known_string "rtu_station"%string (cm_rtu_station c) coil_fields.
  known_string "description"%string (cm_description c) coil_fields.
  done.
Qed.

(** ** Reading back a list of saved entries *)

Section Saved.
Context {T E S : Type} (addr : T -> Z) (fields : T -> string) (good : T -> Prop).
Let save (e : T) : string := entry (addr e) (fields e).

(** The text behind an entry that [es] follow. *)
Definition after (es : list T) (tail : string) : string :=
  match es with
  | [] => newline +:+ tail
  | _ => "," +:+ (newline +:+ (save_entries (save <$> es) +:+ tail))
  end.

Lemma save_entries_cons e es tail :
  save_entries (save <$> e :: es) +:+ tail = save e +:+ after es tail.
Proof.
  destruct es as [|e' es].
  { change (save_entries (save <$> [e])) with (save e +:+ newline). by rewrite sapp_assoc. }
  change (save_entries (save <$> e :: e' :: es))
    with (save e +:+ ("," +:+ (newline +:+ save_entries (save <$> e' :: es)))).
  by rewrite !sapp_assoc.
Qed.

Lemma find_entry_key key e p :
  find_sub (quoted key) (save e +:+ p)
  = find_sub (quoted key) (number_line "address" (addr e) +:+ (fields e +:+ p)).
Proof. unfold save, entry. rewrite !sapp_assoc. do 2 rewrite find_sub_plain by done. done. Qed.

Lemma find_after key es tail :
  find_sub (quoted key) (after es tail)
  = find_sub (quoted key) (save_entries (save <$> es) +:+ tail).
Proof. destruct es; cbn [after]; repeat rewrite find_sub_plain by done; done. Qed.

(** A key that no entry contains is searched in the text behind the list. *)
Lemma skip_entries key es tail :
  key_ok key = true -> key <> "address"%string ->
  Forall (fun e => 0 <= addr e /\
    forall p, find_sub (quoted key) (fields e +:+ p) = find_sub (quoted key) p) es ->
  find_sub (quoted key) (save_entries (save <$> es) +:+ tail) = find_sub (quoted key) tail.
Proof.
  intros Hk Hne. induction 1 as [|e es [Ha He] _ IH]; [done|].
  rewrite save_entries_cons, find_entry_key, skip_number by done.
  by rewrite He, find_after.
Qed.

Context (parse : string -> option E) (add : S -> E -> S) (out : T -> E).

Lemma read_entries_congr fuel p q map :
  find_sub (quoted "address") p = find_sub (quoted "address") q ->
  read_entries parse add fuel p map = read_entries parse add fuel q map.
Proof. intros H. destruct fuel; cbn -[find_sub quoted]; by rewrite H. Qed.

Lemma read_saved_entries es tail f map :
  Forall (fun e => is_u16 (addr e) /\
    (forall p, find_sub (quoted "address") (fields e +:+ p) = find_sub (quoted "address") p)) es ->
  (forall e es', suffix (e :: es') es ->
     parse (from_number (addr e) (fields e +:+ after es' tail)) = Some (out e)) ->
  read_entries parse add (length es + f) (save_entries (save <$> es) +:+ tail) map
  = read_entries parse add f tail (foldl add map (out <$> es)).
Proof.
  intros Hes. revert map. induction Hes as [|e es [Ha He] _ IH]; intros map Hparse; [done|].
  rewrite save_entries_cons. cbn [length Nat.add read_entries fmap list_fmap foldl].
  rewrite find_entry_key, find_number.
  destruct (scan_number "address" (addr e) ("," +:+ (newline +:+ (fields e +:+ after es tail))))
    as (k & -> & ->); [apply Ha|].
  change (pretty (addr e) +:+ _) with (from_number (addr e) (fields e +:+ after es tail)).
  rewrite Hparse by done. rewrite <- IH.
  - apply read_entries_congr. rewrite find_from_number by apply Ha. by rewrite He, find_after.
  - intros e' es' Hs. apply Hparse. by apply suffix_cons_r.
Qed.
End Saved.

(** Neither loop runs out of fuel: the text gets shorter. *)
Lemma find_sub_length key p q : find_sub key p = Some q -> (String.length q <= String.length p)%nat.
Proof.
  induction p as [|c p IH]; cbn [find_sub].
  - destruct (String.prefix _ _); [|done]. by intros [= <-].
  - destruct (String.prefix _ _); [by intros [= <-]|]. destruct (decide _); [done|].
    intros H%IH. cbn. lia.
Qed.

Lemma advance_length n p q : advance n p = Some q -> String.length p = (n + String.length q)%nat.
Proof.
  revert p. induction n as [|n IH]; intros p H; [by injection H as ->|].
  destruct p as [|c p]; [done|]. cbn. f_equal. by apply IH.
Qed.

Lemma skip_to_digit_length p : (String.length (skip_to_digit p) <= String.length p)%nat.
Proof. induction p as [|c p IH]; cbn; [done|]. destruct (_ && _); cbn; lia. Qed.

Lemma read_entries_fuel {E S} (parse : string -> option E) (add : S -> E -> S) fuel p map :
  (String.length p <= fuel)%nat -> read_entries parse add fuel p map <> OutOfFuel.
Proof.
  revert p map. induction fuel as [|fuel IH]; intros p map Hf.
  { by destruct p; [|cbn in Hf; lia]. }
  cbn -[find_sub quoted].
  destruct (find_sub (quoted "address") p) as [k|] eqn:Hk; [|done]. apply find_sub_length in Hk.
  destruct (advance _ k) as [k'|] eqn:Ha; [|done]. apply advance_length in Ha.
  destruct (parse _); [|done]. apply IH. pose proof (skip_to_digit_length k'). cbn in Ha. lia.
Qed.

(** ** The tables *)

Definition map_inv (m : register_map) : Prop :=
  NoDup (reg_key <$> map_registers m) /\ NoDup (coil_key <$> map_coils m) /\
  Z.of_nat (length (map_registers m)) <= map_register_capacity m /\
  Z.of_nat (length (map_coils m)) <= map_coil_capacity m /\
  256 <= map_register_capacity m /\ 256 <= map_coil_capacity m.

Lemma reg_key_exists (m : register_mapping) l :
  Exists (fun x => rm_modbus_addr x = rm_modbus_addr m /\ rm_reg_type x = rm_reg_type m) l <->
  reg_key m ∈ reg_key <$> l.
Proof.
  rewrite list_elem_of_fmap, Exists_exists. unfold reg_key.
  split; intros (x & H1 & H2); exists x.
  - destruct H2 as [-> ->]. done.
  - by injection H1 as -> ->.
Qed.

Lemma coil_key_exists (m : coil_mapping) l :
  Exists (fun x => cm_modbus_addr x = cm_modbus_addr m /\ cm_reg_type x = cm_reg_type m) l <->
  coil_key m ∈ coil_key <$> l.
Proof.
  rewrite list_elem_of_fmap, Exists_exists. unfold coil_key.
  split; intros (x & H1 & H2); exists x.
  - destruct H2 as [-> ->]. done.
  - by injection H1 as -> ->.
Qed.

(** The three outcomes of adding an entry. *)
Lemma add_register_cases realloc_ok map m :
  (reg_key m ∈ reg_key <$> map_registers map /\
   register_map_add_register realloc_ok map m = (WTC_ERROR_ALREADY_EXISTS, map)) \/
  (reg_key m ∉ reg_key <$> map_registers map /\
   ((map_register_capacity map <= Z.of_nat (length (map_registers map)) /\
     realloc_ok (map_register_capacity map * 2) = false /\
     register_map_add_register realloc_ok map m = (WTC_ERROR_NO_MEMORY, map)) \/
    (exists cap, register_map_add_register realloc_ok map m
       = (WTC_OK, map <| map_register_capacity := cap |>
                      <| map_registers := map_registers map ++ [m] |>) /\
       (cap = map_register_capacity map /\ Z.of_nat (length (map_registers map)) < cap \/
        cap = map_register_capacity map * 2 /\
        map_register_capacity map <= Z.of_nat (length (map_registers map)))))).
Proof.
  unfold register_map_add_register. destruct (bool_decide _) eqn:E.
  { left. apply bool_decide_eq_true, reg_key_exists in E. done. }
  right. apply bool_decide_eq_false in E. split; [by rewrite <- reg_key_exists|].
  destruct (Z.leb_spec (map_register_capacity map) (Z.of_nat (length (map_registers map)))); cbn [andb].
  - destruct (realloc_ok _) eqn:Er; cbn [negb]; [right|left; auto]. eexists. split; [done|]. auto.
  - right. eexists. split; [done|]. auto.
Qed.

Lemma add_coil_cases realloc_ok map m :
  (coil_key m ∈ coil_key <$> map_coils map /\
   register_map_add_coil realloc_ok map m = (WTC_ERROR_ALREADY_EXISTS, map)) \/
  (coil_key m ∉ coil_key <$> map_coils map /\
   ((map_coil_capacity map <= Z.of_nat (length (map_coils map)) /\
     realloc_ok (map_coil_capacity map * 2) = false /\
     register_map_add_coil realloc_ok map m = (WTC_ERROR_NO_MEMORY, map)) \/
    (exists cap, register_map_add_coil realloc_ok map m
       = (WTC_OK, map <| map_coil_capacity := cap |>
                      <| map_coils := map_coils map ++ [m] |>) /\
       (cap = map_coil_capacity map /\ Z.of_nat (length (map_coils map)) < cap \/
        cap = map_coil_capacity map * 2 /\
        map_coil_capacity map <= Z.of_nat (length (map_coils map)))))).
Proof.
  unfold register_map_add_coil. destruct (bool_decide _) eqn:E.
  { left. apply bool_decide_eq_true, coil_key_exists in E. done. }
  right. apply bool_decide_eq_false in E. split; [by rewrite <- coil_key_exists|].
  destruct (Z.leb_spec (map_coil_capacity map) (Z.of_nat (length (map_coils map)))); cbn [andb].
  - destruct (realloc_ok _) eqn:Er; cbn [negb]; [right|left; auto]. eexists. split; [done|]. auto.
  - right. eexists. split; [done|]. auto.
Qed.

Lemma NoDup_snoc {A B} (f : A -> B) l x :
  NoDup (f <$> l) -> f x ∉ f <$> l -> NoDup (f <$> l ++ [x]).
Proof.
  intros H1 H2. rewrite fmap_app. apply NoDup_app. split_and!; [done| |apply NoDup_singleton].
  intros y Hy. cbn. rewrite list_elem_of_singleton. by intros ->.
Qed.

(** Entries with new keys are appended. *)
Lemma add_registers_new realloc_ok map l :
  (forall n, realloc_ok n = true) -> NoDup (reg_key <$> map_registers map ++ l) ->
  let map' := foldl (add_register realloc_ok) map l in
  map_registers map' = map_registers map ++ l /\ map_coils map' = map_coils map.
Proof.
  intros Hr. revert map. induction l as [|m l IH]; intros map Hnd; cbn zeta.
  { by rewrite app_nil_r. }
  rewrite fmap_app, fmap_cons in Hnd. apply NoDup_app in Hnd as (H1 & H2 & H3).
  cbn [foldl]. unfold add_register at 2 4.
  destruct (add_register_cases realloc_ok map m) as [[H _]|[_ [(_ & H & _)|(cap & -> & _)]]].
  - destruct (H2 _ H). constructor.
  - by rewrite Hr in H.
  - cbn [snd]. destruct (IH (map <| map_register_capacity := cap |>
                          <| map_registers := map_registers map ++ [m] |>)) as [-> ->].
    + cbn. rewrite <- app_assoc. cbn. rewrite fmap_app, fmap_cons. by apply NoDup_app.
    + cbn. by rewrite <- app_assoc.
Qed.

Lemma add_coils_new realloc_ok map l :
  (forall n, realloc_ok n = true) -> NoDup (coil_key <$> map_coils map ++ l) ->
  let map' := foldl (add_coil realloc_ok) map l in
  map_coils map' = map_coils map ++ l /\ map_registers map' = map_registers map.
Proof.
  intros Hr. revert map. induction l as [|m l IH]; intros map Hnd; cbn zeta.
  { by rewrite app_nil_r. }
  rewrite fmap_app, fmap_cons in Hnd. apply NoDup_app in Hnd as (H1 & H2 & H3).
  cbn [foldl]. unfold add_coil at 2 4.
  destruct (add_coil_cases realloc_ok map m) as [[H _]|[_ [(_ & H & _)|(cap & -> & _)]]].
  - destruct (H2 _ H). constructor.
  - by rewrite Hr in H.
  - cbn [snd]. destruct (IH (map <| map_coil_capacity := cap |>
                          <| map_coils := map_coils map ++ [m] |>)) as [-> ->].
    + cbn. rewrite <- app_assoc. cbn. rewrite fmap_app, fmap_cons. by apply NoDup_app.
    + cbn. by rewrite <- app_assoc.
Qed.

(** ** The register table as a dictionary

    The abstract view: a finite map from (type, address) to the entry. *)

Definition reg_dict (m : register_map) : gmap (Z * Z) register_mapping :=
  list_to_map ((fun r => (reg_key r, r)) <$> map_registers m).

Lemma reg_dict_fst (l : list register_mapping) : ((fun r => (reg_key r, r)) <$> l).*1 = reg_key <$> l.
Proof. by rewrite <- list_fmap_compose. Qed.

Lemma reg_dict_lookup m k r :
  NoDup (reg_key <$> map_registers m) ->
  reg_dict m !! k = Some r <-> r ∈ map_registers m /\ reg_key r = k.
Proof.
  intros Hnd. unfold reg_dict. rewrite <- elem_of_list_to_map by by rewrite reg_dict_fst.
  rewrite list_elem_of_fmap. naive_solver.
Qed.

Lemma reg_dict_None m k :
  NoDup (reg_key <$> map_registers m) ->
  reg_dict m !! k = None <-> k ∉ reg_key <$> map_registers m.
Proof. intros Hnd. unfold reg_dict. by rewrite <- not_elem_of_list_to_map, reg_dict_fst. Qed.

Lemma reg_dict_snoc cap m r :
  reg_key r ∉ reg_key <$> map_registers m ->
  reg_dict (m <| map_register_capacity := cap |> <| map_registers := map_registers m ++ [r] |>)
  = <[reg_key r := r]> (reg_dict m).
Proof.
  intros Hk. unfold reg_dict. cbn. rewrite fmap_app, list_to_map_app. cbn.
  rewrite insert_empty. rewrite <- insert_union_singleton_r; [done|].
  apply not_elem_of_list_to_map. by rewrite reg_dict_fst.
Qed.

Lemma find_remove_NoDup {A B} (f : A -> B) (P : A -> Prop) `{forall x, Decision (P x)} l l' :
  find_remove P l = Some l' -> NoDup (f <$> l) -> NoDup (f <$> l') /\ (length l' <= length l)%nat.
Proof.
  intros (l1 & x & l2 & -> & _ & _ & ->)%find_remove_Some.
  rewrite !fmap_app, fmap_cons, !length_app. cbn [length]. intros (H1 & H2 & H3)%NoDup_app.
  apply NoDup_cons in H3 as [H3 H4]. split; [|lia]. apply NoDup_app. split_and!; [done| |done].
  intros y Hy Hy'. apply (H2 y Hy). by constructor.
Qed.

Lemma add_register_inv realloc_ok m r :
  map_inv m -> map_inv (snd (register_map_add_register realloc_ok m r)).
Proof.
  intros Hi. destruct (add_register_cases realloc_ok m r)
    as [[_ ->]|[Hk [(_ & _ & ->)|(cap & -> & Hc)]]]; [done..|].
  destruct Hi as (H1 & H2 & H3 & H4 & H5 & H6). cbn. split_and!; cbn; try done.
  - by apply NoDup_snoc.
  - rewrite length_app. cbn. lia.
  - lia.
Qed.

Lemma add_coil_inv realloc_ok m c :
  map_inv m -> map_inv (snd (register_map_add_coil realloc_ok m c)).
Proof.
  intros Hi. destruct (add_coil_cases realloc_ok m c)
    as [[_ ->]|[Hk [(_ & _ & ->)|(cap & -> & Hc)]]]; [done..|].
  destruct Hi as (H1 & H2 & H3 & H4 & H5 & H6). cbn. split_and!; cbn; try done.
  - by apply NoDup_snoc.
  - rewrite length_app. cbn. lia.
  - lia.
Qed.

Lemma remove_register_inv m a : map_inv m -> map_inv (snd (register_map_remove_register m a)).
Proof.
  intros Hi. unfold register_map_remove_register.
  destruct (find_remove _ _) as [l|] eqn:E; [|done].
  destruct Hi as (H1 & H2 & H3 & H4 & H5 & H6).
  apply (find_remove_NoDup reg_key) in E as [? ?]; [|done]. split_and!; cbn; try done. lia.
Qed.

Lemma remove_coil_inv m a : map_inv m -> map_inv (snd (register_map_remove_coil m a)).
Proof.
  intros Hi. unfold register_map_remove_coil.
  destruct (find_remove _ _) as [l|] eqn:E; [|done].
  destruct Hi as (H1 & H2 & H3 & H4 & H5 & H6).
  apply (find_remove_NoDup coil_key) in E as [? ?]; [|done]. split_and!; cbn; try done. lia.
Qed.

(** A property kept by [add] is kept by a fold of it. *)
Lemma foldl_keeps {A B} (P : A -> Prop) (f : A -> B -> A) l a :
  (forall a b, P a -> P (f a b)) -> P a -> P (foldl f a l).
Proof. intros Hf. revert a. induction l as [|b l IH]; intros a Ha; [done|]. apply IH, Hf, Ha. Qed.

Lemma read_entries_keeps {E S} (P : S -> Prop) (parse : string -> option E) (add : S -> E -> S)
    fuel p map map' :
  (forall m e, P m -> P (add m e)) -> P map ->
  read_entries parse add fuel p map = Loaded map' -> P map'.
Proof.
  intros Hadd. revert p map. induction fuel as [|fuel IH]; intros p map Hm; cbn -[find_sub quoted].
  { destruct (find_sub _ p); [done|]. by intros [= <-]. }
  destruct (find_sub _ p); [|by intros [= <-]]. destruct (advance _ _); [|done]. destruct (parse _); [|done]. apply IH, Hadd, Hm.
Qed.

Lemma load_json_inv realloc_ok alloc_ok read_ok file map res map' :
  map_inv map ->
  register_map_load_json realloc_ok alloc_ok read_ok file map = Loaded (res, map') -> map_inv map'.
Proof.
  intros Hm. unfold register_map_load_json. destruct file as [text|]; [|by intros [= _ <-]].
  destruct (_ || _); [by intros [= _ <-]|]. destruct (negb alloc_ok); [by intros [= _ <-]|].
  destruct (negb read_ok); [by intros [= _ <-]|].
  destruct (load_registers realloc_ok text map) as [map1| |] eqn:E1; [|done..].
  destruct (load_coils realloc_ok text map1) as [map2| |] eqn:E2; [|done..]. intros [= _ <-].
  assert (map_inv map1) as H1.
  { unfold load_registers in E1. destruct (find_sub _ text); [|by injection E1 as <-].
    eapply read_entries_keeps; [|exact Hm|exact E1]. intros m e. apply add_register_inv. }
  unfold load_coils in E2. destruct (find_sub _ text); [|by injection E2 as <-].
  eapply read_entries_keeps; [|exact H1|exact E2]. intros m e. apply add_coil_inv.
Qed.

(** The register table is a dictionary from (type, address) to entries: adding
    inserts a new key and refuses an existing one, a lookup finds the enabled entry of
    its key, removal succeeds exactly when some entry has the address and deletes one
    key with that address, and the other keys keep their entries. *)
Theorem register_table_refines_dictionary realloc_ok m :
  map_inv m ->
  (forall r, (forall n, realloc_ok n = true) ->
     match register_map_add_register realloc_ok m r with
     | (WTC_OK, m') => reg_dict m !! reg_key r = None /\ reg_dict m' = <[reg_key r := r]> (reg_dict m)
     | (e, m') => e = WTC_ERROR_ALREADY_EXISTS /\ is_Some (reg_dict m !! reg_key r) /\ m' = m
     end) /\
  (forall type addr, register_map_get_register m type addr
     = r ← reg_dict m !! (type, addr); if rm_enabled r then Some r else None) /\
  (forall addr,
     match register_map_remove_register m addr with
     | (WTC_OK, m') => exists type, is_Some (reg_dict m !! (type, addr)) /\
                         reg_dict m' = delete (type, addr) (reg_dict m)
     | (e, m') => e = WTC_ERROR_NOT_FOUND /\ m' = m /\ forall type, reg_dict m !! (type, addr) = None
     end).
Proof.
  intros (Hnd & _). split_and!.
  - intros r Halloc. destruct (add_register_cases realloc_ok m r)
      as [[Hk ->]|[Hk [(_ & H & _)|(cap & -> & _)]]].
    + split_and!; [done| |done]. apply not_eq_None_Some. by intros H%reg_dict_None.
    + by rewrite Halloc in H.
    + split; [by apply reg_dict_None|by apply reg_dict_snoc].
  - intros type addr. unfold register_map_get_register.
    destruct (find_entry _ _) as [r|] eqn:E.
    + apply find_entry_Some in E as (l1 & l2 & E & (<- & <- & Hen) & _).
      rewrite (proj2 (reg_dict_lookup m (rm_reg_type r, rm_modbus_addr r) r Hnd)); [by cbn; rewrite Hen|].
      split; [rewrite E; apply elem_of_app; right; constructor|done].
    + apply find_entry_None in E. destruct (reg_dict m !! (type, addr)) as [r|] eqn:Er; [|done].
      apply reg_dict_lookup in Er as [Hin Hk]; [|done]. injection Hk as <- <-. cbn.
      destruct (rm_enabled r) eqn:Hen; [|done]. rewrite Forall_forall in E. by destruct (E r Hin).
  - intros addr. unfold register_map_remove_register. destruct (find_remove _ _) as [l|] eqn:E.
    + apply find_remove_Some in E as (l1 & r & l2 & E & <- & _ & ->).
      exists (rm_reg_type r). change (rm_reg_type r, rm_modbus_addr r) with (reg_key r).
      rewrite E, fmap_app, fmap_cons in Hnd. split.
      { exists r. apply reg_dict_lookup; [by rewrite E, fmap_app, fmap_cons|].
        split; [rewrite E; apply elem_of_app; right; constructor|done]. }
      apply NoDup_app in Hnd as (H1 & H2 & H3). apply NoDup_cons in H3 as [H3 H4].
      unfold reg_dict. cbn. rewrite E, !fmap_app, fmap_cons, !list_to_map_app. cbn.
      rewrite delete_union, delete_insert_eq, !delete_id; [done| |].
      * apply not_elem_of_list_to_map. by rewrite reg_dict_fst.
      * apply not_elem_of_list_to_map. rewrite reg_dict_fst. intros H. destruct (H2 _ H). constructor.
    + apply find_remove_None in E. split_and!; [done..|]. intros type.
      apply reg_dict_None; [done|]. intros (r & Hk & Hin)%list_elem_of_fmap.
      rewrite Forall_forall in E. apply (E r Hin). by injection Hk.
Qed.

(** ** Reading a saved file *)

Definition file_tail : string := "  ]" +:+ (newline +:+ ("}" +:+ newline)).
Definition coils_part (cs : list coil_mapping) : string :=
  "  " +:+ (quoted "coils" +:+ (": [" +:+ (newline +:+ (save_entries (save_coil <$> cs) +:+ file_tail)))).
Definition registers_tail (cs : list coil_mapping) : string :=
  "  ]," +:+ (newline +:+ coils_part cs).

Lemma save_json_shape map :
  register_map_save_json map
  = "{" +:+ (newline +:+ ("  " +:+ (quoted "registers" +:+ (": [" +:+ (newline +:+
      (save_entries (save_register <$> map_registers map) +:+ registers_tail (map_coils map))))))).
Proof. done. Qed.

Lemma file_tail_no_key a : find_sub (quoted a) file_tail = None.
Proof. unfold file_tail. rewrite <- (sapp_nil_r newline) at 2. by rewrite !find_sub_plain. Qed.

Lemma save_register_map (l : list register_mapping) : save_register <$> l = (fun r => entry (rm_modbus_addr r) (register_fields r)) <$> l.
Proof. done. Qed.
Lemma save_coil_map (l : list coil_mapping) : save_coil <$> l = (fun c => entry (cm_modbus_addr c) (coil_fields c)) <$> l.
Proof. done. Qed.

Lemma saveable_registers l a :
  Forall register_saveable l -> a ∈ ["address"; "coils"]%string ->
  Forall (fun r => is_u16 (rm_modbus_addr r) /\
    forall p, find_sub (quoted a) (register_fields r +:+ p) = find_sub (quoted a) p) l.
Proof.
  intros H Ha. eapply Forall_impl; [done|]. intros r Hr. split; [apply Hr|].
  intros p. by apply skip_register_fields.
Qed.

Lemma saveable_coils l a :
  Forall coil_saveable l -> a ∈ ["address"; "data_type"]%string ->
  Forall (fun c => is_u16 (cm_modbus_addr c) /\
    forall p, find_sub (quoted a) (coil_fields c +:+ p) = find_sub (quoted a) p) l.
Proof.
  intros H Ha. eapply Forall_impl; [done|]. intros c Hc. split; [apply Hc|].
  intros p. by apply skip_coil_fields.
Qed.

Lemma suffix_head {A} (P : A -> Prop) e es l : Forall P l -> suffix (e :: es) l -> P e /\ Forall P es.
Proof. intros H [l1 ->]. apply Forall_app in H as [_ H]. by apply Forall_cons in H. Qed.

(** Behind any coil entry no ["data_type"] follows. *)
Lemma no_data_type cs :
  Forall coil_saveable cs ->
  find_sub (quoted "data_type") (after cm_modbus_addr coil_fields cs file_tail) = None.
Proof.
  intros H. rewrite find_after, skip_entries; [apply file_tail_no_key|done..|].
  eapply Forall_impl; [apply (saveable_coils _ "data_type"); [done|set_solver]|].
  intros c [Hc Hp]. split; [apply Hc|done].
Qed.

Lemma save_entries_length l :
  Forall (fun e => 0 < String.length e)%nat l -> (length l <= String.length (save_entries l))%nat.
Proof.
  induction 1 as [|e l He Hl IH]; [done|]. destruct l as [|e' l]; cbn [save_entries length] in *;
    rewrite !slength_app; cbn [length] in *; lia.
Qed.

Lemma entries_fuel {T} (addr : T -> Z) (fields : T -> string) es :
  (length es <= String.length (save_entries ((fun e => entry (addr e) (fields e)) <$> es)))%nat.
Proof.
  rewrite <- (length_fmap (fun e => entry (addr e) (fields e)) es) at 1. apply save_entries_length.
  apply Forall_fmap, Forall_true. intros e. cbn. unfold entry. rewrite slength_app. cbn. lia.
Qed.

Lemma load_saved_coils realloc_ok cs map0 p :
  Forall coil_saveable cs -> find_sub (quoted "coils") p = find_sub (quoted "coils") (coils_part cs) ->
  load_coils realloc_ok p map0
  = Loaded (foldl (add_coil realloc_ok) map0 (reloaded_coil <$> cs)).
Proof.
  intros Hcs Hp. unfold load_coils. rewrite Hp. unfold coils_part.
  rewrite find_sub_plain, find_sub_hit by done.
  set (text := save_entries _ +:+ file_tail).
  pose proof (entries_fuel cm_modbus_addr coil_fields cs) as Hf.
  set (n := String.length _) in |- *. assert (length cs <= n)%nat as Hn.
  { subst n text. rewrite save_coil_map, !slength_app. lia. }
  replace n with (length cs + (n - length cs))%nat by lia.
  rewrite (read_entries_congr _ _ _ _ text).
  2:{ rewrite find_sub_other by done. do 2 rewrite find_sub_plain by done. done. }
  subst text. rewrite save_coil_map, (read_saved_entries _ _ _ _ reloaded_coil).
  - destruct (n - length cs)%nat; cbn [read_entries]; by rewrite file_tail_no_key.
  - apply saveable_coils; [done|set_solver].
  - intros c cs' Hs. apply parse_saved_coil. by eapply suffix_head.
Qed.

Lemma load_saved_registers realloc_ok map map0 :
  Forall register_saveable (map_registers map) -> Forall coil_saveable (map_coils map) ->
  load_registers realloc_ok (register_map_save_json map) map0
  = Loaded (foldl (add_register realloc_ok) map0
              ((reloaded_register <$> map_registers map) ++ (coil_as_register <$> map_coils map))).
Proof.
  intros Hrs Hcs. unfold load_registers. rewrite save_json_shape.
  do 3 rewrite find_sub_plain by done. rewrite find_sub_hit.
  set (rs := map_registers map) in *. set (cs := map_coils map) in *.
  set (text := save_entries _ +:+ registers_tail cs).
  pose proof (entries_fuel rm_modbus_addr register_fields rs) as Hf.
  pose proof (entries_fuel cm_modbus_addr coil_fields cs) as Hg.
  set (n := String.length _) in |- *. assert (length rs + length cs <= n)%nat as Hn.
  { subst n text. unfold registers_tail, coils_part. rewrite save_register_map, save_coil_map, !slength_app. lia. }
  replace n with (length rs + (length cs + (n - length rs - length cs)))%nat by lia.
  rewrite (read_entries_congr _ _ _ _ text).
  2:{ rewrite find_sub_other by done. do 2 rewrite find_sub_plain by done. done. }
  subst text. rewrite save_register_map, (read_saved_entries _ _ _ _ reloaded_register).
  2: apply saveable_registers; [done|set_solver].
  2:{ intros r rs' Hs. apply parse_saved_register. by eapply suffix_head. }
  rewrite (read_entries_congr _ _ _ _ (save_entries (save_coil <$> cs) +:+ file_tail)).
  2:{ unfold registers_tail, coils_part. do 3 rewrite find_sub_plain by done.
      rewrite find_sub_other by done. do 2 rewrite find_sub_plain by done. done. }
  rewrite save_coil_map, (read_saved_entries _ _ _ _ coil_as_register).
  - rewrite foldl_app.
    destruct (n - length rs - length cs)%nat; cbn [read_entries]; by rewrite file_tail_no_key.
  - apply saveable_coils; [done|set_solver].
  - intros c cs' Hs. destruct (suffix_head _ _ _ _ Hcs Hs) as [Hc Hcs'].
    apply parse_coil_as_register; [done|]. by apply no_data_type.
Qed.

(** What a saved register map is after being read back into an empty map, for
    unique addresses and texts that can be found again: every register and every coil
    is there with its address, type, source, station and slot, in order.  Everything
    else is lost: scaling and PID loop are gone, a read-only entry becomes writable and
    a disabled one enabled; and each coil appears once more as a register. *)
Theorem register_map_file_roundtrip realloc_ok map map0 :
  map_inv map -> (forall n, realloc_ok n = true) ->
  Forall register_saveable (map_registers map) -> Forall coil_saveable (map_coils map) ->
  (forall r c, r ∈ map_registers map -> c ∈ map_coils map -> rm_reg_type r <> cm_reg_type c) ->
  Z.of_nat (String.length (register_map_save_json map)) <= 1024 * 1024 ->
  map_registers map0 = [] -> map_coils map0 = [] ->
  exists map',
    register_map_load_json realloc_ok true true (Some (register_map_save_json map)) map0
    = Loaded (WTC_OK, map') /\
    map_registers map' = (reloaded_register <$> map_registers map)
                           ++ (coil_as_register <$> map_coils map) /\
    map_coils map' = reloaded_coil <$> map_coils map.
Proof.
  intros (Hr & Hc & _) Halloc Hrs Hcs Htypes Hsize H0r H0c.
  unfold register_map_load_json.
  destruct (Z.leb_spec (Z.of_nat (String.length (register_map_save_json map))) 0) as [Hz|_].
  { rewrite save_json_shape, !slength_app in Hz. cbn [String.length] in Hz. lia. }
  destruct (Z.ltb_spec (1024 * 1024) (Z.of_nat (String.length (register_map_save_json map)))); [lia|].
  cbn [orb negb]. rewrite load_saved_registers by done.
  rewrite load_saved_coils with (cs := map_coils map); [|done|].
  2:{ rewrite save_json_shape. do 3 rewrite find_sub_plain by done. rewrite find_sub_other by done.
      do 2 rewrite find_sub_plain by done. rewrite save_register_map, skip_entries; [|done..|].
      - unfold registers_tail. by do 2 rewrite find_sub_plain by done.
      - eapply Forall_impl; [apply (saveable_registers _ "coils"); [done|set_solver]|].
        intros r [Ha Hp]. split; [apply Ha|done]. }
  eexists. split; [done|].
  destruct (add_registers_new realloc_ok map0
              ((reloaded_register <$> map_registers map) ++ (coil_as_register <$> map_coils map)))
    as [E1 E2]; [done| |].
  { rewrite H0r. cbn [app]. rewrite fmap_app, <- !list_fmap_compose.
    apply NoDup_app. split_and!; [exact Hr| |exact Hc].
    intros k (r & -> & Hin)%list_elem_of_fmap (c & Hk & Hcin)%list_elem_of_fmap.
    cbn in Hk. injection Hk as Hk _. by apply (Htypes r c). }
  destruct (add_coils_new realloc_ok
      (foldl (add_register realloc_ok) map0
         ((reloaded_register <$> map_registers map) ++ (coil_as_register <$> map_coils map)))
      (reloaded_coil <$> map_coils map)) as [E3 E4]; [done| |].
  { rewrite E2, H0c. cbn [app]. rewrite <- list_fmap_compose. exact Hc. }
  rewrite E3, E4, E1, E2, H0r, H0c. done.
Qed.

(** Reading a file always comes to an end: the two loops never use up the fuel
    given by the length of the text, whatever the file contains. *)
Theorem register_map_load_terminates realloc_ok alloc_ok read_ok file map :
  register_map_load_json realloc_ok alloc_ok read_ok file map <> OutOfFuel.
Proof.
  unfold register_map_load_json. destruct file as [text|]; [|done].
  destruct (_ || _); [done|]. destruct (negb alloc_ok); [done|]. destruct (negb read_ok); [done|].
  assert (load_registers realloc_ok text map <> OutOfFuel) as H1.
  { unfold load_registers. destruct (find_sub _ text); [|done]. by apply read_entries_fuel. }
  destruct (load_registers realloc_ok text map) as [map1| |]; [|done..].
  assert (load_coils realloc_ok text map1 <> OutOfFuel) as H2.
  { unfold load_coils. destruct (find_sub _ text); [|done]. by apply read_entries_fuel. }
  by destruct (load_coils realloc_ok text map1).
Qed.

(** ** Generation *)

(** How many sensors (actuators) the devices before the [d]-th have. *)
Definition points (count : rtu_device -> Z) (devs : list rtu_device) : Z :=
  foldr (fun dev n => Z.max 0 (count dev) + n) 0 devs.

Lemma points_app count l1 l2 : points count (l1 ++ l2) = points count l1 + points count l2.
Proof. unfold points. induction l1 as [|x l IH]; cbn; [done|]. rewrite IH. lia. Qed.
Lemma points_nonneg count l : 0 <= points count l.
Proof. unfold points. induction l as [|x l IH]; cbn; lia. Qed.

(** All generated addresses lie below the counters. *)
Definition gen_ok (st : gen_state) : Prop :=
  map_inv (gs_map st) /\
  (forall r, r ∈ map_registers (gs_map st) ->
     (rm_reg_type r = MODBUS_REG_INPUT -> rm_modbus_addr r < gs_sensor_addr st) /\
     (rm_reg_type r = MODBUS_REG_HOLDING -> rm_modbus_addr r < gs_actuator_addr st)) /\
  (forall c, c ∈ map_coils (gs_map st) ->
     cm_reg_type c = MODBUS_REG_COIL -> cm_modbus_addr c < gs_coil_addr st) /\
  0 <= gs_sensor_addr st /\ 0 <= gs_actuator_addr st /\ 0 <= gs_coil_addr st.

(** [st'] has the entries of [st], and its counters have moved on. *)
Definition gen_extends (ns na : Z) (st st' : gen_state) : Prop :=
  gen_ok st' /\ map_registers (gs_map st) ⊆ map_registers (gs_map st') /\
  map_coils (gs_map st) ⊆ map_coils (gs_map st') /\
  gs_sensor_addr st' = gs_sensor_addr st + 2 * ns /\
  gs_actuator_addr st' = gs_actuator_addr st + na /\
  gs_coil_addr st' = gs_coil_addr st + na.

Lemma gen_extends_trans ns na ns' na' a b c :
  gen_extends ns na a b -> gen_extends ns' na' b c -> gen_extends (ns + ns') (na + na') a c.
Proof.
  intros (_ & H1 & H2 & H3 & H4 & H5) (Hok & H1' & H2' & H3' & H4' & H5').
  split_and!; [done|by etrans|by etrans|lia..].
Qed.

Section Generated.
Context (realloc_ok : Z -> bool) (Halloc : forall n, realloc_ok n = true).

Lemma gen_add_register m r :
  (forall x, x ∈ map_registers m -> rm_reg_type x = rm_reg_type r -> rm_modbus_addr x < rm_modbus_addr r) ->
  exists cap, snd (register_map_add_register realloc_ok m r)
    = m <| map_register_capacity := cap |> <| map_registers := map_registers m ++ [r] |>.
Proof using Halloc.
  intros Hlt. destruct (add_register_cases realloc_ok m r)
    as [[Hk _]|[_ [(_ & H & _)|(cap & -> & _)]]].
  - apply list_elem_of_fmap in Hk as (x & Hk & Hin). injection Hk as H1 H2.
    specialize (Hlt x Hin). lia.
  - by rewrite Halloc in H.
  - by exists cap.
Qed.

Lemma gen_add_coil m c :
  (forall x, x ∈ map_coils m -> cm_reg_type x = cm_reg_type c -> cm_modbus_addr x < cm_modbus_addr c) ->
  exists cap, snd (register_map_add_coil realloc_ok m c)
    = m <| map_coil_capacity := cap |> <| map_coils := map_coils m ++ [c] |>.
Proof using Halloc.
  intros Hlt. destruct (add_coil_cases realloc_ok m c)
    as [[Hk _]|[_ [(_ & H & _)|(cap & -> & _)]]].
  - apply list_elem_of_fmap in Hk as (x & Hk & Hin). injection Hk as H1 H2.
    specialize (Hlt x Hin). lia.
  - by rewrite Halloc in H.
  - by exists cap.
Qed.

Lemma gen_sensor_step dev st s :
  gen_ok st -> gs_sensor_addr st + 2 < 2 ^ 16 ->
  gen_extends 1 0 st (gen_sensor realloc_ok dev st s) /\
  sensor_register dev (Z.of_nat s) (gs_sensor_addr st)
    ∈ map_registers (gs_map (gen_sensor realloc_ok dev st s)).
Proof using Halloc.
  destruct st as [m sa aa ca]. intros (Hinv & Hr & Hc & H1 & H2 & H3) Hlt. cbn in *.
  pose proof (add_register_inv realloc_ok m (sensor_register dev (Z.of_nat s) sa) Hinv) as Hinv'.
  destruct (gen_add_register m (sensor_register dev (Z.of_nat s) sa)) as [cap E].
  { cbn. intros x Hx. apply Hr, Hx. }
  rewrite E in *. unfold wrap16. rewrite Z.mod_small by lia. split.
  2:{ cbn. set_solver. }
  split_and!; cbn; try lia; [|set_solver|done]. split_and!; cbn; try done; try lia.
  intros r [Hin|Hin]%elem_of_app; [|apply list_elem_of_singleton in Hin as ->]; cbn.
  - destruct (Hr r Hin). split; intros; [|auto]. assert (rm_modbus_addr r < sa) by auto. lia.
  - split; [lia|done].
Qed.

Lemma gen_actuator_step dev st a :
  gen_ok st -> gs_actuator_addr st + 1 < 2 ^ 16 -> gs_coil_addr st + 1 < 2 ^ 16 ->
  gen_extends 0 1 st (gen_actuator realloc_ok dev st a) /\
  actuator_register dev (Z.of_nat a) (gs_actuator_addr st)
    ∈ map_registers (gs_map (gen_actuator realloc_ok dev st a)) /\
  actuator_coil dev (Z.of_nat a) (gs_coil_addr st)
    ∈ map_coils (gs_map (gen_actuator realloc_ok dev st a)).
Proof using Halloc.
  destruct st as [m sa aa ca]. intros (Hinv & Hr & Hc & H1 & H2 & H3) Hlt Hlt'. cbn in *.
  pose proof (add_register_inv realloc_ok m (actuator_register dev (Z.of_nat a) aa) Hinv) as Hinv'.
  destruct (gen_add_register m (actuator_register dev (Z.of_nat a) aa)) as [cap E].
  { cbn. intros x Hx. apply Hr, Hx. }
  rewrite E in *.
  pose proof (add_coil_inv realloc_ok _ (actuator_coil dev (Z.of_nat a) ca) Hinv') as Hinv2.
  match goal with H : map_inv (snd (register_map_add_coil _ ?m1 ?c)) |- _ =>
    destruct (gen_add_coil m1 c) as [cap' E'] end.
  { cbn. intros x Hx. apply Hc, Hx. }
  rewrite E' in *. unfold wrap16. rewrite !Z.mod_small by lia. cbn [gs_map]. split_and!.
  2-3: cbn; set_solver.
  split_and!; cbn; try lia; [|set_solver..]. split_and!; cbn; try done; try lia.
  - intros r [Hin|Hin]%elem_of_app; [|apply list_elem_of_singleton in Hin as ->]; cbn.
    + destruct (Hr r Hin). split; intros; [auto|]. assert (rm_modbus_addr r < aa) by auto. lia.
    + split; [done|lia].
  - intros c [Hin|Hin]%elem_of_app; [|apply list_elem_of_singleton in Hin as ->]; cbn; [|lia].
    intros Ht. specialize (Hc c Hin Ht). lia.
Qed.

Lemma gen_sensors dev st n :
  gen_ok st -> gs_sensor_addr st + 2 * Z.of_nat n < 2 ^ 16 ->
  let st' := foldl (gen_sensor realloc_ok dev) st (seq 0 n) in
  gen_extends (Z.of_nat n) 0 st st' /\
  forall s, (s < n)%nat ->
    sensor_register dev (Z.of_nat s) (gs_sensor_addr st + 2 * Z.of_nat s) ∈ map_registers (gs_map st').
Proof using Halloc.
  intros Hok Hn. induction n as [|n IH]; cbn zeta.
  { split; [|lia]. split_and!; try done; cbn; lia. }
  rewrite seq_S, foldl_snoc. cbn [Nat.add]. destruct IH as [IH1 IH2]; [lia|].
  set (st1 := foldl _ st (seq 0 n)) in *. assert (IH1' := IH1).
  destruct IH1' as (Hok1 & _ & _ & Hsa & _).
  destruct (gen_sensor_step dev st1 n Hok1) as [S1 S2]; [lia|].
  replace (Z.of_nat (S n)) with (Z.of_nat n + 1) by lia.
  split; [exact (gen_extends_trans _ _ _ _ _ _ _ IH1 S1)|]. intros s Hs.
  destruct (decide (s = n)) as [->|]; [by rewrite <- Hsa|].
  apply S1, IH2. lia.
Qed.

Lemma gen_actuators dev st n :
  gen_ok st -> gs_actuator_addr st + Z.of_nat n < 2 ^ 16 -> gs_coil_addr st + Z.of_nat n < 2 ^ 16 ->
  let st' := foldl (gen_actuator realloc_ok dev) st (seq 0 n) in
  gen_extends 0 (Z.of_nat n) st st' /\
  forall a, (a < n)%nat ->
    actuator_register dev (Z.of_nat a) (gs_actuator_addr st + Z.of_nat a) ∈ map_registers (gs_map st') /\
    actuator_coil dev (Z.of_nat a) (gs_coil_addr st + Z.of_nat a) ∈ map_coils (gs_map st').
Proof using Halloc.
  intros Hok Hn Hn'. induction n as [|n IH]; cbn zeta.
  { split; [|lia]. split_and!; try done; cbn; lia. }
  rewrite seq_S, foldl_snoc. cbn [Nat.add]. destruct IH as [IH1 IH2]; [lia..|].
  set (st1 := foldl _ st (seq 0 n)) in *. assert (IH1' := IH1).
  destruct IH1' as (Hok1 & _ & _ & _ & Haa & Hca).
  destruct (gen_actuator_step dev st1 n Hok1) as (S1 & S2 & S3); [lia..|].
  replace (Z.of_nat (S n)) with (Z.of_nat n + 1) by lia.
  split; [exact (gen_extends_trans _ _ _ _ _ _ _ IH1 S1)|]. intros a Ha.
  destruct (decide (a = n)) as [->|]; [by rewrite <- Haa, <- Hca|].
  destruct (IH2 a) as [I1 I2]; [lia|]. split; by apply S1.
Qed.

Lemma gen_device_step st dev :
  let ns := Z.max 0 (dev_sensor_count dev) in
  let na := Z.max 0 (dev_actuator_count dev) in
  let st' := gen_device realloc_ok st dev in
  gen_ok st -> gs_sensor_addr st + 2 * ns < 2 ^ 16 ->
  gs_actuator_addr st + na < 2 ^ 16 -> gs_coil_addr st + na < 2 ^ 16 ->
  gen_extends ns na st st' /\
  (forall s, 0 <= s < ns ->
     sensor_register dev s (gs_sensor_addr st + 2 * s) ∈ map_registers (gs_map st')) /\
  (forall a, 0 <= a < na ->
     actuator_register dev a (gs_actuator_addr st + a) ∈ map_registers (gs_map st') /\
     actuator_coil dev a (gs_coil_addr st + a) ∈ map_coils (gs_map st')).
Proof using Halloc.
  intros ns na st' Hok Hs Ha Hc. unfold st', gen_device.
  destruct (gen_sensors dev st (Z.to_nat (dev_sensor_count dev)) Hok) as [S1 S2]; [lia|].
  set (st1 := foldl _ st _) in *. assert (S1' := S1). destruct S1' as (Hok1 & _ & _ & _ & E2 & E3).
  destruct (gen_actuators dev st1 (Z.to_nat (dev_actuator_count dev)) Hok1) as [A1 A2]; [lia..|].
  split_and!.
  - pose proof (gen_extends_trans _ _ _ _ _ _ _ S1 A1) as H.
    replace (Z.of_nat (Z.to_nat (dev_sensor_count dev)) + 0) with ns in H by lia.
    by replace (0 + Z.of_nat (Z.to_nat (dev_actuator_count dev))) with na in H by lia.
  - intros s Hr. specialize (S2 (Z.to_nat s)). rewrite Z2Nat.id in S2 by lia.
    apply A1, S2. lia.
  - intros a Hr. specialize (A2 (Z.to_nat a)). rewrite Z2Nat.id, E2, E3 in A2 by lia.
    rewrite !Z.add_0_r in A2. apply A2. lia.
Qed.

(** Where the entries of the [d]-th device of [devs] are. *)
Definition placed (st st' : gen_state) (devs : list rtu_device) : Prop :=
  forall d dev, devs !! d = Some dev ->
  let s0 := points dev_sensor_count (take d devs) in
  let a0 := points dev_actuator_count (take d devs) in
  (forall s, 0 <= s < dev_sensor_count dev ->
     sensor_register dev s (gs_sensor_addr st + 2 * (s0 + s)) ∈ map_registers (gs_map st')) /\
  (forall a, 0 <= a < dev_actuator_count dev ->
     actuator_register dev a (gs_actuator_addr st + (a0 + a)) ∈ map_registers (gs_map st') /\
     actuator_coil dev a (gs_coil_addr st + (a0 + a)) ∈ map_coils (gs_map st')).

Lemma gen_devices st devs :
  gen_ok st ->
  gs_sensor_addr st + 2 * points dev_sensor_count devs < 2 ^ 16 ->
  gs_actuator_addr st + points dev_actuator_count devs < 2 ^ 16 ->
  gs_coil_addr st + points dev_actuator_count devs < 2 ^ 16 ->
  let st' := foldl (gen_device realloc_ok) st devs in
  gen_extends (points dev_sensor_count devs) (points dev_actuator_count devs) st st' /\
  placed st st' devs.
Proof using Halloc.
  revert st. induction devs as [|dev devs IH]; intros st Hok H1 H2 H3; cbn zeta.
  { split; [|by intros d dev Hd]. split_and!; try done; cbn; lia. }
  change (points ?f (dev :: devs)) with (Z.max 0 (f dev) + points f devs) in *.
  pose proof (points_nonneg dev_sensor_count devs). pose proof (points_nonneg dev_actuator_count devs).
  destruct (gen_device_step st dev Hok) as (D1 & D2 & D3); [lia..|].
  cbn [foldl]. set (st1 := gen_device realloc_ok st dev) in *.
  assert (D1' := D1). destruct D1' as (Hok1 & _ & _ & E1 & E2 & E3).
  destruct (IH st1 Hok1) as [I1 I2]; [lia..|].
  split; [exact (gen_extends_trans _ _ _ _ _ _ _ D1 I1)|].
  intros [|d] dv Hd.
  - injection Hd as ->. cbn [take]. change (points _ []) with 0. split.
    + intros s Hs. apply I1. apply D2. lia.
    + intros a Ha. rewrite Z.add_0_l. destruct (D3 a) as [? ?]; [lia|]. split; by apply I1.
  - destruct (I2 d dv Hd) as [J1 J2]. cbn [take].
    change (points ?f (dev :: ?l)) with (Z.max 0 (f dev) + points f l).
    rewrite E1, E2, E3 in *. split.
    + intros s Hs. specialize (J1 s Hs). by rewrite <- Z.add_assoc, <- Z.mul_add_distr_l, Z.add_assoc in J1.
    + intros a Ha. specialize (J2 a Ha). by rewrite !Z.add_assoc in *.
Qed.
End Generated.

Lemma get_register_in m r :
  NoDup (reg_key <$> map_registers m) -> r ∈ map_registers m -> rm_enabled r = true ->
  register_map_get_register m (rm_reg_type r) (rm_modbus_addr r) = Some r.
Proof.
  intros Hnd Hin Hen. unfold register_map_get_register. destruct (find_entry _ _) as [x|] eqn:E.
  - apply find_entry_Some in E as (l1 & l2 & E & (H1 & H2 & _) & _). f_equal.
    apply list_elem_of_lookup in Hin as [i Hi].
    assert (x ∈ map_registers m) as [j Hj]%list_elem_of_lookup.
    { rewrite E. apply elem_of_app. right. constructor. }
    assert (i = j) as <-; [|congruence].
    apply (NoDup_lookup _ i j (reg_key r) Hnd); rewrite list_lookup_fmap; [by rewrite Hi|].
    rewrite Hj. cbn. unfold reg_key. by rewrite H1, H2.
  - apply find_entry_None in E. rewrite Forall_forall in E. by destruct (E r Hin).
Qed.

Lemma get_coil_in m c :
  NoDup (coil_key <$> map_coils m) -> c ∈ map_coils m -> cm_enabled c = true ->
  register_map_get_coil m (cm_reg_type c) (cm_modbus_addr c) = Some c.
Proof.
  intros Hnd Hin Hen. unfold register_map_get_coil. destruct (find_entry _ _) as [x|] eqn:E.
  - apply find_entry_Some in E as (l1 & l2 & E & (H1 & H2 & _) & _). f_equal.
    apply list_elem_of_lookup in Hin as [i Hi].
    assert (x ∈ map_coils m) as [j Hj]%list_elem_of_lookup.
    { rewrite E. apply elem_of_app. right. constructor. }
    assert (i = j) as <-; [|congruence].
    apply (NoDup_lookup _ i j (coil_key c) Hnd); rewrite list_lookup_fmap; [by rewrite Hi|].
    rewrite Hj. cbn. unfold coil_key. by rewrite H1, H2.
  - apply find_entry_None in E. rewrite Forall_forall in E. by destruct (E c Hin).
Qed.

Definition empty_map : register_map := mk_register_map (mk_register_map_config 0 0 0 0) [] 256 [] 256.

Lemma empty_map_inv : map_inv empty_map.
Proof. split_and!; cbn; try lia; constructor. Qed.

(** Generation from the registry into an empty map, while the addresses fit 16 bits:
    the map stays well formed, and for each of the first 64 devices the [s]-th sensor is
    found at the input register [sensor_base + 2k], the [a]-th actuator at the holding
    register [actuator_base + l] and the coil [l], where [k] and [l] count the sensors
    and actuators before it over all devices. *)
Theorem auto_generate_places_points realloc_ok r sensor_base actuator_base :
  let devs := take 64 (reg_devices r) in
  (forall n, realloc_ok n = true) -> 0 <= sensor_base -> 0 <= actuator_base ->
  sensor_base + 2 * points dev_sensor_count devs < 2 ^ 16 ->
  actuator_base + points dev_actuator_count devs < 2 ^ 16 ->
  exists m, register_map_auto_generate realloc_ok true empty_map r sensor_base actuator_base = (WTC_OK, m) /\
  map_inv m /\
  forall d dev, devs !! d = Some dev ->
  let k s := points dev_sensor_count (take d devs) + s in
  let l a := points dev_actuator_count (take d devs) + a in
  (forall s, 0 <= s < dev_sensor_count dev ->
     register_map_get_register m MODBUS_REG_INPUT (sensor_base + 2 * k s)
     = Some (sensor_register dev s (sensor_base + 2 * k s))) /\
  (forall a, 0 <= a < dev_actuator_count dev ->
     register_map_get_register m MODBUS_REG_HOLDING (actuator_base + l a)
     = Some (actuator_register dev a (actuator_base + l a)) /\
     register_map_get_coil m MODBUS_REG_COIL (l a) = Some (actuator_coil dev a (l a))).
Proof.
  intros devs Halloc Hs0 Ha0 Hs Ha. unfold register_map_auto_generate.
  assert (rtu_registry_list_devices true r 64 = (WTC_OK, Some devs)) as ->.
  { unfold rtu_registry_list_devices, devs. destruct (reg_devices r) as [|x l]; [done|].
    destruct (Z.eqb_spec (Z.min (Z.of_nat (length (x :: l))) 64) 0); [cbn in *; lia|].
    destruct (Z.ltb_spec (Z.min (Z.of_nat (length (x :: l))) 64) 0); [cbn in *; lia|]. cbn [negb orb].
    do 2 f_equal. destruct (Z.le_gt_cases (Z.of_nat (length (x :: l))) 64).
    - rewrite Z.min_l by done. rewrite Nat2Z.id, firstn_all. symmetry. apply take_ge. lia.
    - rewrite Z.min_r by lia. done. }
  destruct (gen_devices realloc_ok Halloc (mk_gen_state empty_map sensor_base actuator_base 0) devs)
    as [H1 H2]; cbn [gs_sensor_addr gs_actuator_addr gs_coil_addr]; [|lia..|].
  { split_and!; cbn; try done; try lia; first [by intros x Hx%elem_of_nil | apply empty_map_inv]. }
  set (st' := foldl _ _ _) in *. destruct H1 as ((Hinv & _) & _).
  eexists. split; [done|]. split; [done|]. intros d dev Hd. destruct (H2 d dev Hd) as [P1 P2].
  split.
  - intros s Hr. by apply (get_register_in _ (sensor_register dev s _)); [apply Hinv|apply P1|].
  - intros a Hr. destruct (P2 a Hr) as [Q1 Q2]. split.
    + by apply (get_register_in _ (actuator_register dev a _)); [apply Hinv| |].
    + by apply (get_coil_in _ (actuator_coil dev a _)); [apply Hinv| |].
Qed.

(** Every operation on a map keeps it well formed. *)
Inductive map_op :=
| AddRegister (r : register_mapping)
| AddCoil (c : coil_mapping)
| RemoveRegister (addr : Z)
| RemoveCoil (addr : Z)
| AutoGenerate (alloc_ok : bool) (r : registry) (sensor_base actuator_base : Z)
| LoadJson (alloc_ok read_ok : bool) (file : option string).

Definition map_exec (realloc_ok : Z -> bool) (m : register_map) (op : map_op) : register_map :=
  match op with
  | AddRegister r => snd (register_map_add_register realloc_ok m r)
  | AddCoil c => snd (register_map_add_coil realloc_ok m c)
  | RemoveRegister a => snd (register_map_remove_register m a)
  | RemoveCoil a => snd (register_map_remove_coil m a)
  | AutoGenerate alloc_ok r sb ab => snd (register_map_auto_generate realloc_ok alloc_ok m r sb ab)
  | LoadJson alloc_ok read_ok file =>
      match register_map_load_json realloc_ok alloc_ok read_ok file m with
      | Loaded (_, m') => m'
      | _ => m
      end
  end.

Lemma auto_generate_inv realloc_ok alloc_ok m r sb ab :
  map_inv m -> map_inv (snd (register_map_auto_generate realloc_ok alloc_ok m r sb ab)).
Proof.
  intros Hm. unfold register_map_auto_generate.
  destruct (rtu_registry_list_devices _ _ _) as [[] [devs|]]; try done. cbn [snd].
  apply (foldl_keeps (fun st => map_inv (gs_map st))); [|done].
  intros st dev Hst. unfold gen_device.
  apply (foldl_keeps (fun st => map_inv (gs_map st))).
  { intros [m1 sa aa ca] a H1. cbn. by apply add_coil_inv, add_register_inv. }
  apply (foldl_keeps (fun st => map_inv (gs_map st))); [|done].
  intros [m1 sa aa ca] a H1. cbn. by apply add_register_inv.
Qed.

(** Whatever is done to a register map, files with arbitrary content included, no two
    registers and no two coils share type and address, and the entries fit the
    allocated tables. *)
Theorem register_map_invariant realloc_ok alloc config m ops :
  register_map_init alloc config = (WTC_OK, Some m) ->
  map_inv (foldl (map_exec realloc_ok) m ops).
Proof.
  intros Hinit. apply foldl_keeps.
  - intros m1 [r|c|a|a|ao r sb ab|ao ro file] H1; cbn [map_exec].
    + by apply add_register_inv.
    + by apply add_coil_inv.
    + by apply remove_register_inv.
    + by apply remove_coil_inv.
    + by apply auto_generate_inv.
    + destruct (register_map_load_json _ _ _ _ _) as [[res m2]| |] eqn:E; [|done..].
      by eapply load_json_inv.
  - unfold register_map_init in Hinit. destruct (negb _); [done|]. injection Hinit as <-.
    apply empty_map_inv.
Qed.

(** ** Concrete maps *)

Module RegisterMapDemo.

Definition level_register : register_mapping :=
  mk_register_mapping 100 MODBUS_REG_INPUT MODBUS_DTYPE_FLOAT32_BE 2 DATA_SOURCE_PROFINET_SENSOR
    "tank-1" 3 0 0 0 0 0 no_scaling true true "level".
(** A read-only, disabled holding register. *)
Definition locked_register : register_mapping :=
  mk_register_mapping 100 MODBUS_REG_HOLDING MODBUS_DTYPE_UINT32_BE 2 DATA_SOURCE_PROFINET_ACTUATOR
    "tank-1" 9 0 0 0 0 0 no_scaling true false "pump".
Definition pump_coil : coil_mapping :=
  mk_coil_mapping 7 MODBUS_REG_COIL DATA_SOURCE_PROFINET_ACTUATOR "tank-1" 9 0 2 5 true true "pump".
Definition two_registers_map : register_map :=
  empty_map <| map_registers := [level_register; locked_register] |> <| map_coils := [pump_coil] |>.

Lemma demo_map_inv : map_inv two_registers_map.
Proof.
  split_and!; cbn; try lia.
  - apply (bool_decide_unpack _). vm_compute. exact I.
  - apply NoDup_singleton.
Qed.

Lemma demo_saveable :
  Forall register_saveable (map_registers two_registers_map) /\
  Forall coil_saveable (map_coils two_registers_map).
Proof.
  split; (apply Forall_cons; split; [split_and!; try (vm_compute; done); done|]);
    [apply Forall_cons; split; [split_and!; try (vm_compute; done); done|]|]; apply Forall_nil; done.
Qed.

Lemma register_map_file_roundtrip_witness :
  exists map',
    register_map_load_json (fun _ => true) true true
      (Some (register_map_save_json two_registers_map)) empty_map = Loaded (WTC_OK, map') /\
    map_registers map' = [reloaded_register level_register; reloaded_register locked_register;
                          coil_as_register pump_coil] /\
    map_coils map' = [reloaded_coil pump_coil].
Proof.
  apply (register_map_file_roundtrip (fun _ => true) two_registers_map empty_map).
  - exact demo_map_inv.
  - done.
  - apply demo_saveable.
  - apply demo_saveable.
  - intros r c [->|[->|[]%elem_of_nil]%elem_of_cons]%elem_of_cons ->%list_elem_of_singleton; done.
  - vm_compute. done.
  - done.
  - done.
Defined.

(** The file keeps neither the read-only nor the disabled mark: after a save and a load
    the locked register can be looked up and written. *)
Theorem save_load_unlocks :
  register_map_get_register two_registers_map MODBUS_REG_HOLDING 100 = None /\
  match register_map_load_json (fun _ => true) true true
          (Some (register_map_save_json two_registers_map)) empty_map with
  | Loaded (_, m) => rm_read_only <$> register_map_get_register m MODBUS_REG_HOLDING 100 = Some false
  | _ => False
  end.
Proof. split; vm_compute; reflexivity. Qed.

(** A file that ends with the key makes the reader step over the terminating NUL. *)
Theorem truncated_file_read_past_end :
  register_map_load_json (fun _ => true) true true
    (Some (quoted "registers" +:+ ": [{" +:+ quoted "address")) empty_map = ReadPastEnd.
Proof. vm_compute. reflexivity. Qed.

(** Removal looks at the address only: the caller that wants the holding register at 100
    gone loses the input register at 100. *)
Theorem remove_takes_first_type :
  let m := snd (register_map_remove_register two_registers_map 100) in
  register_map_get_register m MODBUS_REG_INPUT 100 = None /\ map_registers m = [locked_register].
Proof. split; vm_compute; reflexivity. Qed.

(** A 32-bit unsigned register spans two registers; read from a file it gets one. *)
Theorem uint32_loaded_as_one_register :
  rm_register_count (reloaded_register locked_register) = 1 /\ rm_register_count locked_register = 2.
Proof. done. Qed.

Lemma register_table_witness :
  match register_map_remove_register two_registers_map 100 with
  | (WTC_OK, m') => exists type, is_Some (reg_dict two_registers_map !! (type, 100)) /\
                      reg_dict m' = delete (type, 100) (reg_dict two_registers_map)
  | (e, m') => e = WTC_ERROR_NOT_FOUND /\ m' = two_registers_map /\
               forall type, reg_dict two_registers_map !! (type, 100) = None
  end.
Proof. exact (proj2 (proj2 (register_table_refines_dictionary (fun _ => true) _ demo_map_inv)) 100). Defined.

(** A station with a sensor in slot 1 and an actuator in slot 9. *)
Definition plant_slot (slot : Z) (t : slot_type) : slot_config :=
  mk_slot_config slot 1 t "" "" MEASUREMENT_PH ACTUATOR_PUMP f0 f0 f0 f0 f0 f0 f0 f0 f0 true.
Definition plant : registry :=
  snd (fst (rtu_registry_add_device (fun _ => true) 0 (rtu_registry_init false false false) "tank-1" None
    (Some [plant_slot 1 SLOT_TYPE_SENSOR; plant_slot 9 SLOT_TYPE_ACTUATOR]) 2)).

Lemma auto_generate_witness :
  exists m, register_map_auto_generate (fun _ => true) true empty_map plant 0 0 = (WTC_OK, m) /\
    map_inv m /\
    forall d dev, take 64 (reg_devices plant) !! d = Some dev ->
    let k s := points dev_sensor_count (take d (take 64 (reg_devices plant))) + s in
    let l a := points dev_actuator_count (take d (take 64 (reg_devices plant))) + a in
    (forall s, 0 <= s < dev_sensor_count dev ->
       register_map_get_register m MODBUS_REG_INPUT (0 + 2 * k s)
       = Some (sensor_register dev s (0 + 2 * k s))) /\
    (forall a, 0 <= a < dev_actuator_count dev ->
       register_map_get_register m MODBUS_REG_HOLDING (0 + l a)
       = Some (actuator_register dev a (0 + l a)) /\
       register_map_get_coil m MODBUS_REG_COIL (l a) = Some (actuator_coil dev a (l a))).
Proof.
  apply (auto_generate_places_points (fun _ => true) plant 0 0); try done; vm_compute; done.
Defined.

(** The generated entry of the actuator in slot 9 addresses slot 1. *)
Theorem generated_actuator_wrong_slot :
  match register_map_auto_generate (fun _ => true) true empty_map plant 0 0 with
  | (_, m) => rm_slot <$> register_map_get_register m MODBUS_REG_HOLDING 0 = Some 1
  end /\ sc_slot <$> (dev_slots <$> head (reg_devices plant)) ≫= (fun l => l !! 1%nat) = Some 9.
Proof. split; vm_compute; reflexivity. Qed.

End RegisterMapDemo.
