(* ===== verification/ModbusGateway.v ===== *)
(** * The Modbus gateway: [src/modbus/modbus_gateway.c]

    The server side answers Modbus requests from the register map, the RTU registry
    and the control engine; the client side polls downstream Modbus devices.  The
    two transports ([modbus_tcp.c], [modbus_rtu.c]) are reached through the interface
    [ModbusLinks]: a context is a handle, and [W] is whatever the transports keep.

    [ub] stands for the result of a float conversion outside the range of the integer
    type, and [clk k] is the clock reading of the [k]-th access of a request.  The
    static array [downstream_cache] is a field of the gateway (one gateway runs). *)

From S2P Require Import Prelude Float32 Types Registry Pid ControlEngine Crc Modbus RegisterMap.

Definition MAX_MODBUS_CLIENTS : nat := 247.
Definition MODBUS_MAX_READ_REGISTERS : Z := 125.
Definition MODBUS_MAX_READ_BITS : Z := 2000.

Definition MODBUS_FC_READ_COILS : Z := 1.
Definition MODBUS_FC_READ_DISCRETE_INPUTS : Z := 2.
Definition MODBUS_FC_READ_HOLDING_REGISTERS : Z := 3.
Definition MODBUS_FC_READ_INPUT_REGISTERS : Z := 4.

(** [modbus_exception_t] (the values the gateway returns) *)
Definition MODBUS_EX_NONE : Z := 0.
Definition MODBUS_EX_ILLEGAL_FUNCTION : Z := 1.
Definition MODBUS_EX_ILLEGAL_DATA_ADDRESS : Z := 2.
Definition MODBUS_EX_ILLEGAL_DATA_VALUE : Z := 3.
Definition MODBUS_EX_SLAVE_DEVICE_FAILURE : Z := 4.

(** [modbus_transport_t] *)
Inductive modbus_transport := MODBUS_TRANSPORT_TCP | MODBUS_TRANSPORT_RTU | MODBUS_TRANSPORT_ASCII.

(** [modbus_stats_t] *)
Record modbus_stats := mk_modbus_stats {
  ms_requests_sent : Z; ms_requests_received : Z; ms_responses_sent : Z;
  ms_responses_received : Z; ms_exceptions : Z; ms_timeouts : Z; ms_crc_errors : Z;
  ms_bytes_sent : Z; ms_bytes_received : Z }.

(** The configurations the gateway builds: [modbus_tcp_config_t] in the server and the
    client role, [modbus_rtu_config_t] in the server and the client role. *)
Inductive link_config :=
| TcpServer (port max_connections timeout_ms : Z) (bind_address : string)
| TcpClient (timeout_ms : Z)
| RtuServer (device : string) (baud_rate slave_addr timeout_ms : Z)
| RtuClient (device : string) (baud_rate data_bits parity stop_bits timeout_ms : Z).

(** The transports as the gateway calls them; a NULL context is no handle. *)
Class ModbusLinks (W : Type) := {
  link_init : W -> link_config -> W * option nat;
  tcp_connect : W -> nat -> string -> Z -> W * wtc_result;
  rtu_open : W -> nat -> W * wtc_result;
  link_read_holding : W -> nat -> Z -> Z -> Z -> W * wtc_result * list Z;
  link_write_single : W -> nat -> Z -> Z -> Z -> W * wtc_result;
  link_write_multiple : W -> nat -> Z -> Z -> list Z -> W * wtc_result;
  link_server_start : W -> nat -> W * wtc_result;
  link_server_stop : W -> nat -> W;
  link_disconnect : W -> nat -> W;
  link_cleanup : W -> nat -> W;
  link_stats : W -> nat -> modbus_stats;
  link_connections : W -> nat -> Z }.

(** [downstream_device_t]; of the union, the code reads the part [transport] selects. *)
Record downstream_device := mk_downstream_device {
  dd_name : string;
  dd_transport : modbus_transport;
  dd_enabled : bool;
  dd_host : string; dd_port : Z;
  dd_device : string; dd_baud_rate : Z; dd_data_bits : Z; dd_parity : Z; dd_stop_bits : Z;
  dd_slave_addr : Z;
  dd_poll_interval_ms : Z;
  dd_timeout_ms : Z }.

(** [downstream_client_t] *)
Record downstream_client := mk_downstream_client {
  dc_config : downstream_device;
  dc_tcp : option nat;
  dc_rtu : option nat;
  dc_connected : bool;
  dc_last_poll_ms : Z;
  dc_last_error_ms : Z;
  dc_consecutive_errors : Z }.

(** [downstream_cache_entry_t] *)
Record downstream_cache_entry := mk_downstream_cache_entry {
  ce_start_addr : Z;
  ce_count : Z;
  ce_values : list Z;
  ce_last_update_ms : Z;
  ce_valid : bool }.

(** [modbus_gateway_config_t] *)
Record modbus_gateway_config := mk_modbus_gateway_config {
  gc_tcp_enabled : bool; gc_tcp_port : Z; gc_tcp_bind_address : string;
  gc_rtu_enabled : bool; gc_rtu_device : string; gc_rtu_baud_rate : Z; gc_rtu_slave_addr : Z;
  gc_downstream : list downstream_device;
  gc_register_map_file : string;
  gc_auto_generate_map : bool; gc_sensor_base_addr : Z; gc_actuator_base_addr : Z }.

(** [struct modbus_gateway]: [gw_clients] is the whole array, of which the first
    [gw_client_count] entries are in use; the three pointers as "is set". *)
Record modbus_gateway := mk_modbus_gateway {
  gw_config : modbus_gateway_config;
  gw_server_tcp : option nat;
  gw_server_rtu : option nat;
  gw_clients : list downstream_client;
  gw_client_count : nat;
  gw_register_map : register_map;
  gw_registry : bool;
  gw_control : bool;
  gw_alarms : bool;
  gw_running : bool;
  gw_total_requests : Z;
  gw_total_errors : Z;
  gw_cache : list downstream_cache_entry }.

#[export] Instance eta_downstream_client : Eta downstream_client := fun r =>
  mk_downstream_client (dc_config r) (dc_tcp r) (dc_rtu r) (dc_connected r) (dc_last_poll_ms r)
    (dc_last_error_ms r) (dc_consecutive_errors r).
#[export] Instance eta_cache_entry : Eta downstream_cache_entry := fun r =>
  mk_downstream_cache_entry (ce_start_addr r) (ce_count r) (ce_values r) (ce_last_update_ms r)
    (ce_valid r).
#[export] Instance eta_modbus_gateway : Eta modbus_gateway := fun r =>
  mk_modbus_gateway (gw_config r) (gw_server_tcp r) (gw_server_rtu r) (gw_clients r)
    (gw_client_count r) (gw_register_map r) (gw_registry r) (gw_control r) (gw_alarms r)
    (gw_running r) (gw_total_requests r) (gw_total_errors r) (gw_cache r).

(** What a request can change: registry, control engine and the transports. *)
Record plant (W : Type) := mk_plant {
  p_registry : registry;
  p_control : control_engine;
  p_links : W }.
Arguments mk_plant {W} _ _ _.
Arguments p_registry {W} _.
Arguments p_control {W} _.
Arguments p_links {W} _.
#[export] Instance eta_plant W : Eta (plant W) := fun r =>
  mk_plant (p_registry r) (p_control r) (p_links r).

Definition used_clients (gw : modbus_gateway) : list downstream_client :=
  take (gw_client_count gw) (gw_clients gw).

(** The context a client uses: TCP first. *)
Definition client_link (cli : downstream_client) : option nat :=
  match dc_tcp cli with Some h => Some h | None => dc_rtu cli end.

(** ** Conversions *)

(** [(uint16_t)x] and [(uint16_t)(int16_t)x] *)
Definition f32_to_u16 (x : float32) : option Z :=
  match f32_trunc x with
  | Some z => if (0 <=? z) && (z <? 2 ^ 16) then Some z else None
  | None => None
  end.
Definition f32_to_i16 (x : float32) : option Z :=
  match f32_trunc x with
  | Some z => if (- 2 ^ 15 <=? z) && (z <? 2 ^ 15) then Some z else None
  | None => None
  end.

Section Gateway.
Context {W : Type} `{ModbusLinks W} (ub : float32 -> Z).

Definition cast_u16 (x : float32) : Z := wrap16 (default (ub x) (f32_to_u16 x)).
Definition cast_i16_u16 (x : float32) : Z := wrap16 (default (ub x) (f32_to_i16 x)).

(** ** Data sources *)

(** The loop over the downstream clients of [read_register_value]: the first connected
    client whose read succeeds. *)
Fixpoint read_downstream_clients (links : W) (slave addr : Z) (clients : list downstream_client)
    : W * option Z :=
  match clients with
  | [] => (links, None)
  | cli :: rest =>
      match dc_connected cli, client_link cli with
      | true, Some h =>
          match link_read_holding links h slave addr 1 with
          | (links, WTC_OK, values) => (links, Some (nth 0 values 0))
          | (links, _, _) => read_downstream_clients links slave addr rest
          end
      | _, _ => read_downstream_clients links slave addr rest
      end
  end.

(** The [switch] on the source: the raw value. *)
Definition read_raw_value (now : Z) (gw : modbus_gateway) (p : plant W) (mapping : register_mapping)
    : plant W * float32 :=
  let source := rm_source mapping in
  if source =? DATA_SOURCE_PROFINET_SENSOR then
    (p, if gw_registry gw then
          match rtu_registry_get_sensor now (p_registry p) (rm_rtu_station mapping)
                  (rm_slot mapping) zero_sensor with
          | (WTC_OK, data) => sd_value data
          | _ => f0
          end
        else f0)
  else if source =? DATA_SOURCE_PROFINET_ACTUATOR then
    (p, if gw_registry gw then
          match rtu_registry_get_actuator (p_registry p) (rm_rtu_station mapping) (rm_slot mapping) with
          | (WTC_OK, Some state) => f32_of_Z (ao_pwm_duty (as_output state))
          | _ => f0
          end
        else f0)
  else if (source =? DATA_SOURCE_PID_SETPOINT) || (source =? DATA_SOURCE_PID_PV) ||
          (source =? DATA_SOURCE_PID_CV) then
    (p, if gw_control gw then
          match control_engine_get_pid_loop (p_control p) (rm_pid_loop_id mapping) with
          | Some loop =>
              if source =? DATA_SOURCE_PID_SETPOINT then pl_setpoint loop
              else if source =? DATA_SOURCE_PID_PV then pl_pv loop
              else pl_cv loop
          | None => f0
          end
        else f0)
  else if source =? DATA_SOURCE_MODBUS_CLIENT then
    let '(links, v) := read_downstream_clients (p_links p) (rm_src_slave_addr mapping)
                         (rm_src_remote_addr mapping) (used_clients gw) in
    (p <| p_links := links |>, match v with Some v => f32_of_Z v | None => f0 end)
  else (p, f0).

(** [read_register_value] *)
Definition read_register_value (now : Z) (gw : modbus_gateway) (p : plant W)
    (mapping : register_mapping) : plant W * Z :=
  let '(p, raw_value) := read_raw_value now gw p mapping in
  let scaled := register_map_scale_value (rm_scaling mapping) raw_value in
  (p, if rm_data_type mapping =? MODBUS_DTYPE_INT16 then cast_i16_u16 scaled else cast_u16 scaled).

(** The loop over the downstream clients of [write_register_value]: the first connected
    client that has a context decides. *)
Fixpoint write_downstream_clients (links : W) (slave addr value : Z)
    (clients : list downstream_client) : W * wtc_result :=
  match clients with
  | [] => (links, WTC_OK)
  | cli :: rest =>
      match dc_connected cli, client_link cli with
      | true, Some h => link_write_single links h slave addr value
      | _, _ => write_downstream_clients links slave addr value rest
      end
  end.

(** [write_register_value] *)
Definition write_register_value (now : Z) (gw : modbus_gateway) (p : plant W)
    (mapping : register_mapping) (value : Z) : plant W * wtc_result :=
  if rm_read_only mapping then (p, WTC_ERROR_INVALID_PARAM)
  else
    let raw_value := register_map_unscale_value (rm_scaling mapping) (f32_of_Z value) in
    let source := rm_source mapping in
    if source =? DATA_SOURCE_PROFINET_ACTUATOR then
      if gw_registry gw then
        let output := mk_actuator_output (if fgt raw_value f0 then 1 else 0)
                        (wrap8 (cast_u8 ub raw_value)) 0 0 in
        let '(res, r) := rtu_registry_update_actuator now (p_registry p) (rm_rtu_station mapping)
                           (rm_slot mapping) output in
        (p <| p_registry := r |>, res)
      else (p, WTC_OK)
    else if source =? DATA_SOURCE_PID_SETPOINT then
      if gw_control gw then
        let '(res, e) := control_engine_set_setpoint (p_control p) (rm_pid_loop_id mapping) raw_value in
        (p <| p_control := e |>, res)
      else (p, WTC_OK)
    else if source =? DATA_SOURCE_MODBUS_CLIENT then
      let '(links, res) := write_downstream_clients (p_links p) (rm_src_slave_addr mapping)
                             (rm_src_remote_addr mapping) (cast_u16 raw_value) (used_clients gw) in
      (p <| p_links := links |>, res)
    else (p, WTC_ERROR_INVALID_PARAM).

(** ** The server *)

(** One iteration of the register read loop: the response data with register [i] stored. *)
Definition read_one (clk : nat -> Z) (gw : modbus_gateway) (reg_type start_addr : Z)
    (st : plant W * list Z) (i : nat) : plant W * list Z :=
  let '(p, data) := st in
  let '(p, value) :=
    match register_map_get_register (gw_register_map gw) reg_type (wrap16 (start_addr + Z.of_nat i)) with
    | Some mapping => read_register_value (clk i) gw p mapping
    | None => (p, 0)
    end in
  (p, modbus_set_uint16_be data (1 + i * 2) value).

(** The write loop of [MODBUS_FC_WRITE_MULTIPLE_REGISTERS] from register [i] on. *)
Fixpoint write_loop (clk : nat -> Z) (gw : modbus_gateway) (request : list Z) (start_addr : Z)
    (n i : nat) (p : plant W) : plant W * Z :=
  match n with
  | O => (p, MODBUS_EX_NONE)
  | S n' =>
      let value := modbus_get_uint16_be request (5 + i * 2) in
      match register_map_get_register (gw_register_map gw) MODBUS_REG_HOLDING
              (wrap16 (start_addr + Z.of_nat i)) with
      | None => (p, MODBUS_EX_ILLEGAL_DATA_ADDRESS)
      | Some mapping =>
          if rm_read_only mapping then (p, MODBUS_EX_ILLEGAL_FUNCTION)
          else
            match write_register_value (clk i) gw p mapping value with
            | (p, WTC_OK) => write_loop clk gw request start_addr n' (S i) p
            | (p, _) => (p, MODBUS_EX_SLAVE_DEVICE_FAILURE)
            end
      end
  end.

(** Whether coil [i] of a read request is on. *)
Definition coil_on (gw : modbus_gateway) (p : plant W) (coil_type start_addr : Z) (i : nat) : bool :=
  match register_map_get_coil (gw_register_map gw) coil_type (wrap16 (start_addr + Z.of_nat i)) with
  | Some mapping =>
      if gw_registry gw && (cm_source mapping =? DATA_SOURCE_PROFINET_ACTUATOR) then
        match rtu_registry_get_actuator (p_registry p) (cm_rtu_station mapping) (cm_slot mapping) with
        | (WTC_OK, Some state) => ao_command (as_output state) =? cm_command_on_value mapping
        | _ => false
        end
      else false
  | None => false
  end.

Definition coil_one (gw : modbus_gateway) (p : plant W) (coil_type start_addr : Z)
    (data : list Z) (i : nat) : list Z :=
  if coil_on gw p coil_type start_addr i then
    let k := (1 + i / 8)%nat in
    <[k := Z.lor (byte_at data k) (Z.shiftl 1 (Z.of_nat (i mod 8)))]> data
  else data.

Definition set_data (d : list Z) (len : Z) (r : modbus_pdu) : modbus_pdu :=
  mk_modbus_pdu (pdu_function_code r) d len.

(** The first [n] bytes of the request copied to the response ([memcpy]). *)
Definition copy_bytes (n : nat) (src dst : list Z) : list Z := take n src ++ drop n dst.

(** [handle_server_request]: the exception code, the response, and the changed gateway
    and plant; [response] is what the caller passed. *)
Definition handle_server_request (clk : nat -> Z) (gw : modbus_gateway) (p : plant W)
    (request response : modbus_pdu) : Z * modbus_pdu * modbus_gateway * plant W :=
  let gw := gw <| gw_total_requests := wrap64 (gw_total_requests gw + 1) |> in
  let start_addr := modbus_get_uint16_be (pdu_data request) 0 in
  let quantity := modbus_get_uint16_be (pdu_data request) 2 in
  let fc := pdu_function_code request in
  let response := mk_modbus_pdu fc (pdu_data response) (pdu_data_len response) in
  if (fc =? MODBUS_FC_READ_HOLDING_REGISTERS) || (fc =? MODBUS_FC_READ_INPUT_REGISTERS) then
    if MODBUS_MAX_READ_REGISTERS <? quantity then
      (MODBUS_EX_ILLEGAL_DATA_VALUE, response, gw, p)
    else
      let reg_type := if fc =? MODBUS_FC_READ_HOLDING_REGISTERS then MODBUS_REG_HOLDING
                      else MODBUS_REG_INPUT in
      let d := <[0%nat := wrap8 (quantity * 2)]> (pdu_data response) in
      let '(p, d) := foldl (read_one clk gw reg_type start_addr) (p, d) (seq 0 (Z.to_nat quantity)) in
      (MODBUS_EX_NONE, set_data d (wrap16 (1 + quantity * 2)) response, gw, p)
  else if fc =? MODBUS_FC_WRITE_SINGLE_REGISTER then
    let value := modbus_get_uint16_be (pdu_data request) 2 in
    match register_map_get_register (gw_register_map gw) MODBUS_REG_HOLDING start_addr with
    | None => (MODBUS_EX_ILLEGAL_DATA_ADDRESS, response, gw, p)
    | Some mapping =>
        if rm_read_only mapping then (MODBUS_EX_ILLEGAL_FUNCTION, response, gw, p)
        else
          match write_register_value (clk 0%nat) gw p mapping value with
          | (p, WTC_OK) =>
              (MODBUS_EX_NONE,
               set_data (copy_bytes 4 (pdu_data request) (pdu_data response)) 4 response, gw, p)
          | (p, _) => (MODBUS_EX_SLAVE_DEVICE_FAILURE, response, gw, p)
          end
    end
  else if fc =? MODBUS_FC_WRITE_MULTIPLE_REGISTERS then
    if MODBUS_MAX_WRITE_REGISTERS <? quantity then
      (MODBUS_EX_ILLEGAL_DATA_VALUE, response, gw, p)
    else
      let '(p, ex) := write_loop clk gw (pdu_data request) start_addr (Z.to_nat quantity) 0 p in
      if ex =? MODBUS_EX_NONE then
        (MODBUS_EX_NONE,
         set_data (modbus_set_uint16_be (modbus_set_uint16_be (pdu_data response) 0 start_addr)
                     2 quantity) 4 response, gw, p)
      else (ex, response, gw, p)
  else if (fc =? MODBUS_FC_READ_COILS) || (fc =? MODBUS_FC_READ_DISCRETE_INPUTS) then
    if MODBUS_MAX_READ_BITS <? quantity then
      (MODBUS_EX_ILLEGAL_DATA_VALUE, response, gw, p)
    else
      let coil_type := if fc =? MODBUS_FC_READ_COILS then MODBUS_REG_COIL
                       else MODBUS_REG_DISCRETE_INPUT in
      let byte_count := wrap8 ((quantity + 7) / 8) in
      let n := Z.to_nat byte_count in
      let d := <[0%nat := byte_count]> (pdu_data response) in
      let d := take 1 d ++ replicate n 0 ++ drop (1 + n) d in
      let d := foldl (coil_one gw p coil_type start_addr) d (seq 0 (Z.to_nat quantity)) in
      (MODBUS_EX_NONE, set_data d (wrap16 (1 + byte_count)) response, gw, p)
  else if fc =? MODBUS_FC_WRITE_SINGLE_COIL then
    let value := modbus_get_uint16_be (pdu_data request) 2 in
    let on := value =? 65280 (* 0xFF00 *) in
    match register_map_get_coil (gw_register_map gw) MODBUS_REG_COIL start_addr with
    | None => (MODBUS_EX_ILLEGAL_DATA_ADDRESS, response, gw, p)
    | Some mapping =>
        if cm_read_only mapping then (MODBUS_EX_ILLEGAL_FUNCTION, response, gw, p)
        else
          let p := if gw_registry gw && (cm_source mapping =? DATA_SOURCE_PROFINET_ACTUATOR) then
                     let output := mk_actuator_output
                       (wrap8 (if on then cm_command_on_value mapping
                               else cm_command_off_value mapping)) 0 0 0 in
                     p <| p_registry := snd (rtu_registry_update_actuator (clk 0%nat) (p_registry p)
                                               (cm_rtu_station mapping) (cm_slot mapping) output) |>
                   else p in
          (MODBUS_EX_NONE,
           set_data (copy_bytes 4 (pdu_data request) (pdu_data response)) 4 response, gw, p)
    end
  else (MODBUS_EX_ILLEGAL_FUNCTION, response, gw, p).

(** [handle_rtu_request] *)
Definition handle_rtu_request := handle_server_request.

(** ** Downstream clients *)

(** The body of the loop of [connect_downstream_clients]. *)
Definition connect_client (links : W) (cli : downstream_client) : W * downstream_client :=
  let cfg := dc_config cli in
  if negb (dd_enabled cfg) || dc_connected cli then (links, cli)
  else
    match dd_transport cfg with
    | MODBUS_TRANSPORT_TCP =>
        let '(links, tcp) :=
          match dc_tcp cli with
          | Some h => (links, Some h)
          | None => link_init links (TcpClient (dd_timeout_ms cfg))
          end in
        let cli := cli <| dc_tcp := tcp |> in
        match tcp with
        | None => (links, cli)
        | Some h =>
            match tcp_connect links h (dd_host cfg) (dd_port cfg) with
            | (links, WTC_OK) => (links, cli <| dc_connected := true |>)
            | (links, _) => (links, cli)
            end
        end
    | MODBUS_TRANSPORT_RTU =>
        let '(links, rtu) :=
          match dc_rtu cli with
          | Some h => (links, Some h)
          | None => link_init links (RtuClient (strncpy 63 (dd_device cfg)) (dd_baud_rate cfg)
                      (dd_data_bits cfg) (dd_parity cfg) (dd_stop_bits cfg) (dd_timeout_ms cfg))
          end in
        let cli := cli <| dc_rtu := rtu |> in
        match rtu with
        | None => (links, cli)
        | Some h =>
            match rtu_open links h with
            | (links, WTC_OK) => (links, cli <| dc_connected := true |>)
            | (links, _) => (links, cli)
            end
        end
    | MODBUS_TRANSPORT_ASCII => (links, cli)
    end.

(** Store a client back into the array. *)
Definition put_client (gw : modbus_gateway) (i : nat) (cli : downstream_client) : modbus_gateway :=
  gw <| gw_clients ::= <[i := cli]> |>.

Definition connect_step (st : W * modbus_gateway) (i : nat) : W * modbus_gateway :=
  let '(links, gw) := st in
  match gw_clients gw !! i with
  | Some cli => let '(links, cli) := connect_client links cli in (links, put_client gw i cli)
  | None => (links, gw)
  end.

(** [connect_downstream_clients] *)
Definition connect_downstream_clients (links : W) (gw : modbus_gateway) : W * modbus_gateway :=
  foldl connect_step (links, gw) (seq 0 (gw_client_count gw)).

Definition update_cache (i : nat) (f : downstream_cache_entry -> downstream_cache_entry)
    (gw : modbus_gateway) : modbus_gateway := gw <| gw_cache ::= alter f i |>.

(** [poll_downstream_client]: ten holding registers from address 0; [now] is the clock
    reading after the exchange. *)
Definition poll_downstream_client (now : Z) (st : W * modbus_gateway) (client_idx : nat)
    : W * modbus_gateway :=
  let '(links, gw) := st in
  match gw_clients gw !! client_idx with
  | None => (links, gw)
  | Some cli =>
      let '(links, res, values) :=
        match dc_connected cli, client_link cli with
        | true, Some h => link_read_holding links h (dd_slave_addr (dc_config cli)) 0 10
        | _, _ => (links, WTC_ERROR_NOT_FOUND, [])
        end in
      if bool_decide (res = WTC_OK) then
        let gw := update_cache client_idx (fun e =>
          mk_downstream_cache_entry 0 10 (take 10 values ++ drop 10 (ce_values e)) now true) gw in
        (links, put_client gw client_idx (cli <| dc_consecutive_errors := 0 |>))
      else
        let n := dc_consecutive_errors cli + 1 in
        let cli := cli <| dc_consecutive_errors := n |> <| dc_last_error_ms := now |> in
        if 3 <=? n then
          (links, put_client (update_cache client_idx (fun e => e <| ce_valid := false |>) gw)
                    client_idx (cli <| dc_connected := false |>))
        else (links, put_client gw client_idx cli)
  end.

(** One iteration of the loop of [modbus_gateway_process]. *)
Definition process_client (now : Z) (clk : nat -> Z) (st : W * modbus_gateway) (i : nat)
    : W * modbus_gateway :=
  let '(links, gw) := st in
  match gw_clients gw !! i with
  | None => (links, gw)
  | Some cli =>
      if negb (dd_enabled (dc_config cli)) then (links, gw)
      else if negb (dc_connected cli) then
        if 5000 <? u64_sub now (dc_last_error_ms cli) then connect_downstream_clients links gw
        else (links, gw)
      else if (0 <? dd_poll_interval_ms (dc_config cli)) &&
              (dd_poll_interval_ms (dc_config cli) <=? u64_sub now (dc_last_poll_ms cli)) then
        poll_downstream_client (clk i) (links, put_client gw i (cli <| dc_last_poll_ms := now |>)) i
      else (links, gw)
  end.

(** [modbus_gateway_process] *)
Definition modbus_gateway_process (now : Z) (clk : nat -> Z) (links : W) (gw : modbus_gateway)
    : wtc_result * (W * modbus_gateway) :=
  if negb (gw_running gw) then (WTC_ERROR_INVALID_PARAM, (links, gw))
  else (WTC_OK, foldl (process_client now clk) (links, gw) (seq 0 (gw_client_count gw))).

(** [modbus_gateway_add_downstream]: only the configuration is copied. *)
Definition modbus_gateway_add_downstream (gw : modbus_gateway) (device : downstream_device)
    : wtc_result * modbus_gateway :=
  if (MAX_MODBUS_CLIENTS <=? gw_client_count gw)%nat then (WTC_ERROR_INVALID_PARAM, gw)
  else
    let n := gw_client_count gw in
    (WTC_OK, gw <| gw_clients ::= alter (fun c => mk_downstream_client device (dc_tcp c) (dc_rtu c)
                     (dc_connected c) (dc_last_poll_ms c) (dc_last_error_ms c)
                     (dc_consecutive_errors c)) n |>
                <| gw_client_count := S n |>).

Definition has_device (name : string) (c : downstream_client) : Prop := dd_name (dc_config c) = name.
#[export] Instance has_device_dec name c : Decision (has_device name c).
Proof. unfold has_device. apply _. Defined.

Definition cleanup_links (links : W) (cli : downstream_client) : W :=
  let links := match dc_tcp cli with Some h => link_cleanup links h | None => links end in
  match dc_rtu cli with Some h => link_cleanup links h | None => links end.

(** [modbus_gateway_remove_downstream]: the shift leaves the last array entry as it was. *)
Definition modbus_gateway_remove_downstream (links : W) (gw : modbus_gateway) (name : string)
    : wtc_result * (W * modbus_gateway) :=
  match list_find (has_device name) (used_clients gw) with
  | Some (i, cli) =>
      let n := gw_client_count gw in
      (WTC_OK, (cleanup_links links cli,
                gw <| gw_clients ::= shift_loop (n - 1 - i) i |> <| gw_client_count := (n - 1)%nat |>))
  | None => (WTC_ERROR_NOT_FOUND, (links, gw))
  end.

(** The search loop of the two manual accesses: a found client without a context lets
    the loop go on. *)
Fixpoint find_downstream (name : string) (clients : list downstream_client)
    : wtc_result + downstream_client * nat :=
  match clients with
  | [] => inl WTC_ERROR_NOT_FOUND
  | cli :: rest =>
      if decide (has_device name cli) then
        if negb (dc_connected cli) then inl WTC_ERROR_NOT_CONNECTED
        else match client_link cli with
             | Some h => inr (cli, h)
             | None => find_downstream name rest
             end
      else find_downstream name rest
  end.

(** [modbus_gateway_read_downstream], [modbus_gateway_write_downstream] *)
Definition modbus_gateway_read_downstream (links : W) (gw : modbus_gateway) (device_name : string)
    (start_addr quantity : Z) : W * wtc_result * list Z :=
  match find_downstream device_name (used_clients gw) with
  | inl e => (links, e, [])
  | inr (cli, h) => link_read_holding links h (dd_slave_addr (dc_config cli)) start_addr quantity
  end.

Definition modbus_gateway_write_downstream (links : W) (gw : modbus_gateway) (device_name : string)
    (start_addr : Z) (values : list Z) : W * wtc_result :=
  match find_downstream device_name (used_clients gw) with
  | inl e => (links, e)
  | inr (cli, h) => link_write_multiple links h (dd_slave_addr (dc_config cli)) start_addr values
  end.

(** ** Life cycle *)

Definition zero_device : downstream_device :=
  mk_downstream_device "" MODBUS_TRANSPORT_TCP false "" 0 "" 0 0 0 0 0 0 0.
Definition zero_client : downstream_client := mk_downstream_client zero_device None None false 0 0 0.
Definition zero_cache : downstream_cache_entry :=
  mk_downstream_cache_entry 0 0 (replicate 128 0) 0 false.

(** [modbus_gateway_init]: [file name] is the content of a file, [alloc] answers the
    gateway's allocation and those of the register map, [cache] is the static array.
    [None] in the result is a read past the end of the map file. *)
Definition modbus_gateway_init (realloc_ok : Z -> bool) (alloc : nat -> bool)
    (file : string -> option string) (cache : list downstream_cache_entry) (links : W)
    (config : modbus_gateway_config) : option (wtc_result * option (W * modbus_gateway)) :=
  if negb (alloc 0%nat) then Some (WTC_ERROR_NO_MEMORY, None)
  else
    match register_map_init (fun k => alloc (S k)) (Some (mk_register_map_config 0 0 0 0)) with
    | (WTC_OK, Some map) =>
        let loaded_map :=
          if bool_decide (gc_register_map_file config = EmptyString) then Loaded (WTC_OK, map)
          else register_map_load_json realloc_ok (alloc 4%nat) true
                 (file (gc_register_map_file config)) map in
        match loaded_map with
        | Loaded (_, map) =>
            let '(links, tcp) :=
              if gc_tcp_enabled config then
                link_init links (TcpServer (if gc_tcp_port config =? 0 then 502 else gc_tcp_port config)
                                   32 5000 (strncpy 63 (gc_tcp_bind_address config)))
              else (links, None) in
            let '(links, rtu) :=
              if gc_rtu_enabled config && negb (bool_decide (gc_rtu_device config = EmptyString)) then
                link_init links (RtuServer (strncpy 63 (gc_rtu_device config))
                  (if gc_rtu_baud_rate config =? 0 then 9600 else gc_rtu_baud_rate config)
                  (if gc_rtu_slave_addr config =? 0 then 1 else gc_rtu_slave_addr config) 1000)
              else (links, None) in
            let devices := take MAX_MODBUS_CLIENTS (gc_downstream config) in
            let clients := (fun d => mk_downstream_client d None None false 0 0 0) <$> devices in
            Some (WTC_OK, Some (links, mk_modbus_gateway config tcp rtu
              (clients ++ replicate (MAX_MODBUS_CLIENTS - length clients) zero_client)
              (length clients) map false false false false 0 0 cache))
        | _ => None
        end
    | _ => Some (WTC_ERROR_NO_MEMORY, None)
    end.

(** [modbus_gateway_set_registry]; [r] is the registry behind a pointer that is set. *)
Definition modbus_gateway_set_registry (realloc_ok : Z -> bool) (alloc_ok : bool)
    (gw : modbus_gateway) (r : option registry) : modbus_gateway :=
  let gw := gw <| gw_registry := bool_decide (is_Some r) |> in
  match r with
  | Some r =>
      if gc_auto_generate_map (gw_config gw) then
        gw <| gw_register_map := snd (register_map_auto_generate realloc_ok alloc_ok
                (gw_register_map gw) r (gc_sensor_base_addr (gw_config gw))
                (gc_actuator_base_addr (gw_config gw))) |>
      else gw
  | None => gw
  end.

Definition modbus_gateway_set_control_engine (gw : modbus_gateway) (set_ : bool) : modbus_gateway :=
  gw <| gw_control := set_ |>.
Definition modbus_gateway_set_alarm_manager (gw : modbus_gateway) (set_ : bool) : modbus_gateway :=
  gw <| gw_alarms := set_ |>.

Definition on_handle {A} (f : A -> nat -> A) (h : option nat) (a : A) : A :=
  match h with Some h => f a h | None => a end.

(** [modbus_gateway_start] *)
Definition modbus_gateway_start (links : W) (gw : modbus_gateway) : W * modbus_gateway :=
  let gw := gw <| gw_running := true |> in
  let links := on_handle (fun l h => fst (link_server_start l h)) (gw_server_tcp gw) links in
  let links := on_handle (fun l h => fst (link_server_start l h)) (gw_server_rtu gw) links in
  connect_downstream_clients links gw.

(** [modbus_gateway_stop] *)
Definition stop_step (st : W * modbus_gateway) (i : nat) : W * modbus_gateway :=
  let '(links, gw) := st in
  match gw_clients gw !! i with
  | Some cli =>
      (on_handle link_disconnect (dc_rtu cli) (on_handle link_disconnect (dc_tcp cli) links),
       put_client gw i (cli <| dc_connected := false |>))
  | None => (links, gw)
  end.

Definition modbus_gateway_stop (links : W) (gw : modbus_gateway) : W * modbus_gateway :=
  let gw := gw <| gw_running := false |> in
  let links := on_handle link_server_stop (gw_server_tcp gw) links in
  let links := on_handle link_server_stop (gw_server_rtu gw) links in
  foldl stop_step (links, gw) (seq 0 (gw_client_count gw)).

(** [modbus_gateway_cleanup]: what is left of the transports. *)
Definition modbus_gateway_cleanup (links : W) (gw : modbus_gateway) : W :=
  let '(links, gw) := modbus_gateway_stop links gw in
  let links := foldl cleanup_links links (used_clients gw) in
  on_handle link_cleanup (gw_server_rtu gw) (on_handle link_cleanup (gw_server_tcp gw) links).

(** [modbus_gateway_stats_t], [modbus_gateway_get_stats] *)
Record modbus_gateway_stats := mk_modbus_gateway_stats {
  gst_server_tcp_stats : modbus_stats;
  gst_server_rtu_stats : modbus_stats;
  gst_client_stats : list modbus_stats;
  gst_active_tcp_connections : Z;
  gst_downstream_devices_online : Z;
  gst_total_requests_processed : Z;
  gst_total_errors : Z }.

Definition zero_stats : modbus_stats := mk_modbus_stats 0 0 0 0 0 0 0 0 0.

Definition modbus_gateway_get_stats (links : W) (gw : modbus_gateway) : modbus_gateway_stats :=
  let of_handle h := match h with Some h => link_stats links h | None => zero_stats end in
  let clients := used_clients gw in
  mk_modbus_gateway_stats (of_handle (gw_server_tcp gw)) (of_handle (gw_server_rtu gw))
    ((fun c => match dc_rtu c with
               | Some h => link_stats links h
               | None => of_handle (dc_tcp c)
               end) <$> clients)
    (match gw_server_tcp gw with Some h => link_connections links h | None => 0 end)
    (Z.of_nat (length (filter (fun c => dc_connected c = true) clients)))
    (gw_total_requests gw) (gw_total_errors gw).

End Gateway.

(** ** What a request may change *)

Definition writable_register (gw : modbus_gateway) (P : register_mapping -> Prop) : Prop :=
  exists m, m ∈ map_registers (gw_register_map gw) /\ rm_reg_type m = MODBUS_REG_HOLDING /\
    rm_enabled m = true /\ rm_read_only m = false /\ P m.
Definition writable_coil (gw : modbus_gateway) (P : coil_mapping -> Prop) : Prop :=
  exists c, c ∈ map_coils (gw_register_map gw) /\ cm_reg_type c = MODBUS_REG_COIL /\
    cm_enabled c = true /\ cm_read_only c = false /\ P c.

Definition writable_point (gw : modbus_gateway) (station : string) (slot : Z) : Prop :=
  writable_register gw (fun m => rm_source m = DATA_SOURCE_PROFINET_ACTUATOR /\
    rm_rtu_station m = station /\ rm_slot m = slot) \/
  writable_coil gw (fun c => cm_source c = DATA_SOURCE_PROFINET_ACTUATOR /\
    cm_rtu_station c = station /\ cm_slot c = slot).
Definition writable_loop (gw : modbus_gateway) (id : Z) : Prop :=
  writable_register gw (fun m => rm_source m = DATA_SOURCE_PID_SETPOINT /\ rm_pid_loop_id m = id).

(** From [p] to [p'] only outputs and set points behind writable entries differ. *)
Definition allowed_change {W} (gw : modbus_gateway) (p p' : plant W) : Prop :=
  (forall now st sl out, rtu_registry_get_sensor now (p_registry p') st sl out
                       = rtu_registry_get_sensor now (p_registry p) st sl out) /\
  (forall st sl, rtu_registry_get_actuator (p_registry p') st sl
               = rtu_registry_get_actuator (p_registry p) st sl \/
               (gw_registry gw = true /\ writable_point gw st sl)) /\
  (forall id, control_engine_get_pid_loop (p_control p') id
            = control_engine_get_pid_loop (p_control p) id \/
            (gw_control gw = true /\ writable_loop gw id)).

Lemma allowed_same {W} gw (p p' : plant W) :
  p_registry p' = p_registry p -> p_control p' = p_control p -> allowed_change gw p p'.
Proof. intros H1 H2. unfold allowed_change. rewrite H1, H2. auto. Qed.

Lemma allowed_trans {W} gw (p q r : plant W) :
  allowed_change gw p q -> allowed_change gw q r -> allowed_change gw p r.
Proof.
  intros (A1 & A2 & A3) (B1 & B2 & B3). split_and!.
  - intros. by rewrite B1.
  - intros st sl. destruct (B2 st sl) as [->|]; auto.
  - intros id. destruct (B3 id) as [->|]; auto.
Qed.

Lemma allowed_output {W} gw (p : plant W) now st sl o :
  gw_registry gw = true -> writable_point gw st sl ->
  allowed_change gw p (p <| p_registry := snd (rtu_registry_update_actuator now (p_registry p) st sl o) |>).
Proof.
  intros Hg Hw. split_and!; cbn.
  - intros now' st' sl' out. exact (update_actuator_sensor (p_registry p) now st sl o now' st' sl' out).
  - intros st' sl'. destruct (decide ((st, sl) = (st', sl'))) as [[= <- <-]|Hne]; [by right|].
    left. exact (update_actuator_frame (p_registry p) now st sl o st' sl' Hne).
  - auto.
Qed.

Lemma set_setpoint_frame e id v id' :
  id' <> id ->
  control_engine_get_pid_loop (snd (control_engine_set_setpoint e id v)) id'
  = control_engine_get_pid_loop e id'.
Proof.
  intros Hne. unfold control_engine_set_setpoint, with_loop, control_engine_get_pid_loop.
  destruct (find_update _ _ _) as [l|] eqn:E; [|done].
  apply find_update_Some in E as (l1 & x & l2 & E & HP & _ & ->). cbn. rewrite E.
  unfold has_loop in HP. apply find_entry_replace; unfold has_loop; cbn; congruence.
Qed.

Lemma allowed_setpoint {W} gw (p : plant W) id v :
  gw_control gw = true -> writable_loop gw id ->
  allowed_change gw p (p <| p_control := snd (control_engine_set_setpoint (p_control p) id v) |>).
Proof.
  intros Hg Hw. split_and!; cbn; [done|auto|].
  intros id'. destruct (decide (id' = id)) as [->|Hne]; [by right|].
  left. by apply set_setpoint_frame.
Qed.

Section Requests.
Context {W : Type} `{ModbusLinks W} (ub : float32 -> Z).

Lemma write_register_allowed now gw (p : plant W) m v :
  writable_register gw (eq m) -> allowed_change gw p (fst (write_register_value ub now gw p m v)).
Proof.
  intros (m' & Hin & Ht & He & Hro & <-). unfold write_register_value. rewrite Hro.
  destruct (Z.eqb_spec (rm_source m) DATA_SOURCE_PROFINET_ACTUATOR) as [Hs|_].
  { destruct (gw_registry gw) eqn:Hg; [|by apply allowed_same].
    match goal with |- context [rtu_registry_update_actuator now ?r ?st ?sl ?o] =>
      pose proof (allowed_output gw p now st sl o Hg) as Ha;
      destruct (rtu_registry_update_actuator now r st sl o) as [res r'] eqn:E end.
    cbn [fst snd] in *. apply Ha. left. exists m. auto 10. }
  destruct (Z.eqb_spec (rm_source m) DATA_SOURCE_PID_SETPOINT) as [Hs|_].
  { destruct (gw_control gw) eqn:Hg; [|by apply allowed_same].
    match goal with |- context [control_engine_set_setpoint ?e ?id ?x] =>
      pose proof (allowed_setpoint gw p id x Hg) as Ha;
      destruct (control_engine_set_setpoint e id x) as [res e'] eqn:E end.
    cbn [fst snd] in *. apply Ha. exists m. auto 10. }
  destruct (Z.eqb_spec (rm_source m) DATA_SOURCE_MODBUS_CLIENT) as [Hs|_].
  - destruct (write_downstream_clients _ _ _ _ _). by apply allowed_same.
  - by apply allowed_same.
Qed.

Lemma get_register_spec map type addr m :
  register_map_get_register map type addr = Some m ->
  m ∈ map_registers map /\ rm_reg_type m = type /\ rm_modbus_addr m = addr /\ rm_enabled m = true.
Proof.
  intros (l1 & l2 & E & (H1 & H2 & H3) & _)%find_entry_Some. split_and!; [|done..].
  rewrite E. apply elem_of_app. right. constructor.
Qed.

Lemma get_coil_spec map type addr c :
  register_map_get_coil map type addr = Some c ->
  c ∈ map_coils map /\ cm_reg_type c = type /\ cm_modbus_addr c = addr /\ cm_enabled c = true.
Proof.
  intros (l1 & l2 & E & (H1 & H2 & H3) & _)%find_entry_Some. split_and!; [|done..].
  rewrite E. apply elem_of_app. right. constructor.
Qed.

Lemma write_loop_allowed clk gw request start_addr n i (p : plant W) :
  allowed_change gw p (fst (write_loop ub clk gw request start_addr n i p)).
Proof.
  revert i p. induction n as [|n IH]; intros i p; [by apply allowed_same|]. cbn [write_loop].
  destruct (register_map_get_register _ _ _) as [m|] eqn:Em; [|by apply allowed_same].
  destruct (rm_read_only m) eqn:Hro; [by apply allowed_same|].
  apply get_register_spec in Em as (Hin & Ht & _ & He).
  pose proof (write_register_allowed (clk i) gw p m (modbus_get_uint16_be request (5 + i * 2)))
    as Ha. specialize (Ha ltac:(by exists m)).
  destruct (write_register_value _ _ _ _ _ _) as [p' []]; try exact Ha.
  eapply allowed_trans; [exact Ha|]. apply IH.
Qed.

(** Reading a value changes nothing but the transports. *)
Lemma read_register_same now gw (p : plant W) m :
  p_registry (fst (read_register_value ub now gw p m)) = p_registry p /\
  p_control (fst (read_register_value ub now gw p m)) = p_control p /\
  is_u16 (snd (read_register_value ub now gw p m)).
Proof.
  unfold read_register_value, cast_u16, cast_i16_u16. destruct (read_raw_value now gw p m) as [p' x] eqn:E.
  cbn [fst snd]. assert (p_registry p' = p_registry p /\ p_control p' = p_control p) as [-> ->].
  { revert E. unfold read_raw_value.
    repeat (destruct (_ =? _); [cbn [orb]; try by intros [= <- _]|]); cbn [orb]; try by intros [= <- _].
    destruct (read_downstream_clients _ _ _ _). by intros [= <- _]. }
  split_and!; [done..|]. destruct (_ =? _); auto with wtc.
Qed.

Lemma read_one_same clk gw type start_addr (st : plant W * list Z) i :
  p_registry (fst (read_one ub clk gw type start_addr st i)) = p_registry (fst st) /\
  p_control (fst (read_one ub clk gw type start_addr st i)) = p_control (fst st).
Proof.
  destruct st as [p d]. unfold read_one. destruct (register_map_get_register _ _ _) as [m|]; [|done].
  pose proof (read_register_same (clk i) gw p m) as (H1 & H2 & _).
  by destruct (read_register_value _ _ _ _ _) as [p' v].
Qed.

(** The register [i] of a read, in the plant [p] the loop has reached. *)
Definition register_reading (clk : nat -> Z) (gw : modbus_gateway) (type start_addr : Z)
    (p : plant W) (i : nat) : Z :=
  match register_map_get_register (gw_register_map gw) type (wrap16 (start_addr + Z.of_nat i)) with
  | Some m => snd (read_register_value ub (clk i) gw p m)
  | None => 0
  end.

Lemma read_loop_spec clk gw type start_addr (p : plant W) d n :
  (1 + n * 2 <= length d)%nat ->
  let '(p', d') := foldl (read_one ub clk gw type start_addr) (p, d) (seq 0 n) in
  p_registry p' = p_registry p /\ p_control p' = p_control p /\ length d' = length d /\
  byte_at d' 0 = byte_at d 0 /\
  forall i, (i < n)%nat -> exists q, p_registry q = p_registry p /\ p_control q = p_control p /\
    modbus_get_uint16_be d' (1 + i * 2) = register_reading clk gw type start_addr q i.
Proof.
  intros Hlen. induction n as [|n IH]; [by split_and!; [..|lia]|].
  rewrite seq_S, foldl_snoc. cbn [Nat.add]. specialize (IH ltac:(lia)).
  destruct (foldl _ _ (seq 0 n)) as [p1 d1]. destruct IH as (E1 & E2 & E3 & E4 & E5).
  pose proof (read_one_same clk gw type start_addr (p1, d1) n) as [S1 S2].
  destruct (read_one ub clk gw type start_addr (p1, d1) n) as [p2 d2] eqn:E. cbn [fst] in *.
  assert (d2 = modbus_set_uint16_be d1 (1 + n * 2) (register_reading clk gw type start_addr p1 n)) as ->.
  { unfold read_one in E. unfold register_reading.
    destruct (register_map_get_register _ _ _) as [m|]; [|by injection E].
    by destruct (read_register_value _ _ _ _ _); injection E. }
  assert (is_u16 (register_reading clk gw type start_addr p1 n)) as Hu.
  { unfold register_reading. destruct (register_map_get_register _ _ _); [|done].
    apply read_register_same. }
  split_and!; [congruence..|by rewrite length_set16| |].
  - rewrite byte_at_set16 by lia. done.
  - intros i Hi. destruct (decide (i = n)) as [->|].
    + exists p1. split_and!; [done..|]. apply get16_set16; [lia|done].
    + rewrite get16_set16_ne by lia. apply E5. lia.
Qed.

(** C14: A Modbus request reaches the plant only through the register map.  Sensor values
    never change; an actuator output changes only if the map has an enabled, writable
    holding register or coil for that station and slot; a PID loop changes only if the
    map has an enabled, writable set point register for it; and the read functions
    change neither registry nor control engine. *)
Theorem modbus_writes_authorised clk gw (p : plant W) request response :
  let '(ex, resp, gw', p') := handle_server_request ub clk gw p request response in
  allowed_change gw p p' /\
  (pdu_function_code request
     ∉ [MODBUS_FC_WRITE_SINGLE_COIL; MODBUS_FC_WRITE_SINGLE_REGISTER; MODBUS_FC_WRITE_MULTIPLE_REGISTERS] ->
   p_registry p' = p_registry p /\ p_control p' = p_control p).
Proof.
  unfold handle_server_request. set (gw1 := gw <| gw_total_requests := _ |>).
  assert (forall q : plant W, allowed_change gw1 p q -> allowed_change gw p q) as Hgw by done.
  destruct (_ || _) eqn:F1.
  { destruct (_ <? _); [by split; [apply allowed_same|]|]. cbv zeta.
    match goal with |- context [foldl ?f ?a ?l] =>
      pose proof (foldl_keeps (fun st : plant W * list Z =>
        p_registry (fst st) = p_registry p /\ p_control (fst st) = p_control p) f l a) as Hk;
      destruct (foldl f a l) as [p' d'] end.
    destruct Hk as [H1 H2]; [|done|split; [by apply allowed_same|done]].
    intros st i [H1 H2]. rewrite <- H1, <- H2. apply read_one_same. }
  destruct (Z.eqb_spec (pdu_function_code request) MODBUS_FC_WRITE_SINGLE_REGISTER) as [E6|_].
  { destruct (register_map_get_register _ _ _) as [m|] eqn:Em; [|by split; [apply allowed_same|]].
    destruct (rm_read_only m) eqn:Hro; [by split; [apply allowed_same|]|].
    apply get_register_spec in Em as (Hin & Ht & _ & He).
    pose proof (write_register_allowed (clk 0%nat) gw1 p m (modbus_get_uint16_be (pdu_data request) 2)) as Ha.
    specialize (Ha ltac:(by exists m)).
    destruct (write_register_value _ _ _ _ _ _) as [p' []];
      (split; [by apply Hgw|rewrite E6; intros []; set_solver]). }
  destruct (Z.eqb_spec (pdu_function_code request) MODBUS_FC_WRITE_MULTIPLE_REGISTERS) as [E16|_].
  { destruct (_ <? _); [by split; [apply allowed_same|]|].
    match goal with |- context [write_loop ub clk gw1 ?d ?a ?n 0 p] =>
      pose proof (write_loop_allowed clk gw1 d a n 0 p) as Ha;
      destruct (write_loop ub clk gw1 d a n 0 p) as [p' ex] end.
    destruct (ex =? MODBUS_EX_NONE); (split; [by apply Hgw|rewrite E16; intros []; set_solver]). }
  destruct ((pdu_function_code request =? MODBUS_FC_READ_COILS) || _) eqn:F2.
  { destruct (MODBUS_MAX_READ_BITS <? _); (split; [by apply allowed_same|done]). }
  destruct (Z.eqb_spec (pdu_function_code request) MODBUS_FC_WRITE_SINGLE_COIL) as [E5|_];
    [|by split; [apply allowed_same|]].
  destruct (register_map_get_coil _ _ _) as [c|] eqn:Ec; [|by split; [apply allowed_same|]].
  destruct (cm_read_only c) eqn:Hro; [by split; [apply allowed_same|]|].
  apply get_coil_spec in Ec as (Hin & Ht & _ & He).
  split; [|rewrite E5; intros []; set_solver].
  destruct (gw_registry gw1 && _) eqn:Eg; [|by apply allowed_same].
  apply andb_true_iff in Eg as [Eg Es]. apply Z.eqb_eq in Es.
  apply Hgw, allowed_output; [done|]. right. exists c. auto 10.
Qed.

Lemma read_registers_spec clk gw (p : plant W) request response fc type start n :
  (fc, type) ∈ [(MODBUS_FC_READ_HOLDING_REGISTERS, MODBUS_REG_HOLDING);
                (MODBUS_FC_READ_INPUT_REGISTERS, MODBUS_REG_INPUT)] ->
  pdu_function_code request = fc -> length (pdu_data response) = PDU_DATA ->
  modbus_get_uint16_be (pdu_data request) 0 = start ->
  modbus_get_uint16_be (pdu_data request) 2 = n -> 0 <= n ->
  let '(ex, resp, gw', p') := handle_server_request ub clk gw p request response in
  if 125 <? n then ex = MODBUS_EX_ILLEGAL_DATA_VALUE
  else
    ex = MODBUS_EX_NONE /\ pdu_function_code resp = fc /\
    pdu_data_len resp = 1 + 2 * n /\ length (pdu_data resp) = PDU_DATA /\
    1 + 2 * n <= Z.of_nat PDU_DATA /\ byte_at (pdu_data resp) 0 = 2 * n /\
    forall i, Z.of_nat i < n -> exists q, p_registry q = p_registry p /\ p_control q = p_control p /\
      modbus_get_uint16_be (pdu_data resp) (1 + i * 2) = register_reading clk gw type start q i.
Proof.
  intros Hin Hfc Hlen Hstart Hn H0. unfold handle_server_request. rewrite Hstart, Hn, Hfc.
  assert ((fc =? MODBUS_FC_READ_HOLDING_REGISTERS) || (fc =? MODBUS_FC_READ_INPUT_REGISTERS) = true /\
    (if fc =? MODBUS_FC_READ_HOLDING_REGISTERS then MODBUS_REG_HOLDING else MODBUS_REG_INPUT) = type)
    as [-> ->].
  { rewrite elem_of_cons, list_elem_of_singleton in Hin. by destruct Hin as [[= -> ->]|[= -> ->]]. }
  unfold MODBUS_MAX_READ_REGISTERS, PDU_DATA in *. destruct (Z.ltb_spec 125 n); [done|]. cbn [pdu_data].
  match goal with |- context [foldl (read_one ub clk ?g type start) (p, ?d) ?l] =>
    pose proof (read_loop_spec clk g type start p d (Z.to_nat n)) as Hl;
    destruct (foldl (read_one ub clk g type start) (p, d) l) as [p' d'] end.
  destruct Hl as (_ & _ & E3 & E4 & E5); [rewrite length_insert; lia|].
  rewrite byte_at_insert_eq in E4 by lia. rewrite length_insert, Hlen in E3.
  cbn [set_data pdu_function_code pdu_data pdu_data_len].
  unfold wrap16, wrap8 in *. rewrite Z.mod_small in E4 |- * by lia.
  rewrite E4. split_and!; try done; try lia. intros i Hi. apply E5. lia.
Qed.

(** The answer to a register read (functions 3 and 4) of at most 125 registers: no
    exception; the response is 1 + 2n bytes, which fits the data array, and starts with
    the byte count 2n; register [i] holds the value behind the enabled mapping of the
    type at address [start + i] modulo 2^16, and 0 where there is none.  More than 125
    registers are refused with ILLEGAL_DATA_VALUE. *)
Theorem read_registers_response clk gw (p : plant W) request response fc type start n :
  (fc, type) ∈ [(MODBUS_FC_READ_HOLDING_REGISTERS, MODBUS_REG_HOLDING);
                (MODBUS_FC_READ_INPUT_REGISTERS, MODBUS_REG_INPUT)] ->
  pdu_function_code request = fc -> length (pdu_data response) = PDU_DATA ->
  modbus_get_uint16_be (pdu_data request) 0 = start ->
  modbus_get_uint16_be (pdu_data request) 2 = n -> 0 <= n ->
  let '(ex, resp, gw', p') := handle_server_request ub clk gw p request response in
  if 125 <? n then ex = MODBUS_EX_ILLEGAL_DATA_VALUE
  else
    ex = MODBUS_EX_NONE /\ pdu_function_code resp = fc /\
    pdu_data_len resp = 1 + 2 * n /\ length (pdu_data resp) = PDU_DATA /\
    1 + 2 * n <= Z.of_nat PDU_DATA /\ byte_at (pdu_data resp) 0 = 2 * n /\
    forall i, Z.of_nat i < n -> exists q, p_registry q = p_registry p /\ p_control q = p_control p /\
      modbus_get_uint16_be (pdu_data resp) (1 + i * 2) = register_reading clk gw type start q i.
Proof. exact (read_registers_spec clk gw p request response fc type start n). Qed.

Lemma small_conversions v :
  0 <= v < 256 ->
  f32_to_u8 (f32_of_Z v) = Some v /\ f32_to_u16 (f32_of_Z v) = Some v.
Proof.
  set (check v := bool_decide (f32_to_u8 (f32_of_Z v) = Some v) && bool_decide (f32_to_u16 (f32_of_Z v) = Some v)).
  assert (forallb (fun i => check (Z.of_nat i)) (seq 0 256) = true) as Hall by (vm_compute; reflexivity).
  intros Hv. apply (bytes_forall check Hall) in Hv. subst check. cbn beta in Hv.
  apply andb_true_iff in Hv as [H1 H2].
  exact (conj (bool_decide_eq_true_1 _ H1) (bool_decide_eq_true_1 _ H2)).
Qed.

(** A single-register write to an unscaled actuator register. *)
Lemma write_actuator_register now gw (p : plant W) m v :
  rm_read_only m = false -> rm_source m = DATA_SOURCE_PROFINET_ACTUATOR ->
  sca_enabled (rm_scaling m) = false -> gw_registry gw = true -> 0 <= v < 256 ->
  fst (rtu_registry_update_actuator now (p_registry p) (rm_rtu_station m) (rm_slot m) zero_output) = WTC_OK ->
  exists r, write_register_value ub now gw p m v = (p <| p_registry := r |>, WTC_OK) /\
    exists a, rtu_registry_get_actuator r (rm_rtu_station m) (rm_slot m) = (WTC_OK, Some a) /\
      ao_pwm_duty (as_output a) = v.
Proof.
  intros Hro Hsrc Hsc Hreg Hv Hok. unfold write_register_value. rewrite Hro, Hsrc, Hreg.
  unfold register_map_unscale_value. rewrite Hsc. cbn [negb Z.eqb DATA_SOURCE_PROFINET_ACTUATOR].
  destruct (small_conversions v Hv) as [Hu8 _].
  unfold cast_u8. rewrite Hu8. cbn [default]. unfold wrap8. rewrite (Z.mod_small v) by lia.
  set (o := mk_actuator_output _ v 0 0).
  assert (fst (rtu_registry_update_actuator now (p_registry p) (rm_rtu_station m) (rm_slot m) o) = WTC_OK) as Hok'.
  { by rewrite update_actuator_result in Hok |- *. }
  pose proof (update_actuator_read (p_registry p) now (rm_rtu_station m) (rm_slot m) o Hok')
    as (a & Hread & Hout). cbn in Hread.
  destruct (rtu_registry_update_actuator _ _ _ _ o) as [res r1]. cbn [fst snd] in *. subst res.
  exists r1. split; [done|]. exists a. split; [done|]. by rewrite Hout.
Qed.

(** Through the gateway and the registry: after a single-register write of a duty
    between 0 and 255 to an enabled, writable, unscaled holding register of an existing
    actuator, the write is acknowledged by the echo of the request, and reading that
    register returns the duty written. *)
Theorem modbus_write_read_roundtrip clk clk' gw (p : plant W) m v req resp req' resp' :
  register_map_get_register (gw_register_map gw) MODBUS_REG_HOLDING (rm_modbus_addr m) = Some m ->
  rm_read_only m = false -> rm_source m = DATA_SOURCE_PROFINET_ACTUATOR ->
  sca_enabled (rm_scaling m) = false -> rm_data_type m = MODBUS_DTYPE_UINT16 ->
  gw_registry gw = true -> 0 <= v < 256 -> is_u16 (rm_modbus_addr m) ->
  fst (rtu_registry_update_actuator (clk 0%nat) (p_registry p) (rm_rtu_station m) (rm_slot m) zero_output) = WTC_OK ->
  length (pdu_data req) = PDU_DATA -> length (pdu_data resp') = PDU_DATA ->
  length (pdu_data req') = PDU_DATA ->
  let '(_, write) := modbus_build_write_single_register req (rm_modbus_addr m) v in
  let '(_, read) := modbus_build_read_request req' MODBUS_FC_READ_HOLDING_REGISTERS (rm_modbus_addr m) 1 in
  let '(ex1, resp1, gw1, p1) := handle_server_request ub clk gw p write resp in
  let '(ex2, resp2, gw2, p2) := handle_server_request ub clk' gw1 p1 read resp' in
  ex1 = MODBUS_EX_NONE /\ take 4 (pdu_data resp1) = take 4 (pdu_data write) /\
  ex2 = MODBUS_EX_NONE /\ modbus_get_uint16_be (pdu_data resp2) 1 = v.
Proof.
  intros Hget Hro Hsrc Hsc Hdt Hreg Hv Ha Hok Hlen Hlen' Hlenr.
  unfold modbus_build_write_single_register, modbus_build_read_request, PDU_DATA in *.
  set (write := mk_modbus_pdu _ _ 4). set (read := mk_modbus_pdu _ _ 4).
  assert (is_u16 v) as Hv16 by (unfold is_u16; lia).
  set (gw1 := gw <| gw_total_requests := wrap64 (gw_total_requests gw + 1) |>).
  destruct (write_actuator_register (clk 0%nat) gw1 p m v) as (r & Hw & a & Hread & Hduty); [done..|].
  assert (handle_server_request ub clk gw p write resp
    = (MODBUS_EX_NONE, set_data (copy_bytes 4 (pdu_data write) (pdu_data resp)) 4
         (mk_modbus_pdu MODBUS_FC_WRITE_SINGLE_REGISTER (pdu_data resp) (pdu_data_len resp)),
       gw1, p <| p_registry := r |>)) as ->.
  { unfold handle_server_request.
    assert (modbus_get_uint16_be (pdu_data write) 0 = rm_modbus_addr m) as ->.
    { subst write. cbn [pdu_data]. rewrite get16_set16_ne, get16_set16 by (rewrite ?length_set16; done || lia). done. }
    assert (modbus_get_uint16_be (pdu_data write) 2 = v) as ->.
    { subst write. cbn [pdu_data]. rewrite get16_set16 by (rewrite ?length_set16; done || lia). done. }
    fold gw1. change (gw_register_map gw1) with (gw_register_map gw).
    change (pdu_function_code write) with MODBUS_FC_WRITE_SINGLE_REGISTER. cbn [Z.eqb Pos.eqb orb].
    cbn -[gw1 write_register_value copy_bytes register_map_get_register].
    rewrite Hget, Hro, Hw. done. }
  pose proof (read_registers_spec clk' gw1 (p <| p_registry := r |>) read resp'
    MODBUS_FC_READ_HOLDING_REGISTERS MODBUS_REG_HOLDING (rm_modbus_addr m) 1) as Hr.
  destruct (handle_server_request ub clk' gw1 _ read resp') as [[[ex2 resp2] gw2] p2].
  destruct Hr as (-> & _ & _ & _ & _ & _ & Hr).
  - constructor.
  - done.
  - done.
  - subst read. cbn [pdu_data]. rewrite get16_set16_ne, get16_set16 by (rewrite ?length_set16; done || lia). done.
  - subst read. cbn [pdu_data]. rewrite get16_set16 by (rewrite ?length_set16; done || lia). done.
  - lia.
  - split_and!; [done| |done|].
    + cbn [set_data pdu_data]. unfold copy_bytes. rewrite take_app_le, take_take by (rewrite length_take; subst write; cbn [pdu_data]; rewrite !length_set16; lia). done.
    + destruct (Hr 0%nat) as (q & Hq & _ & E); [lia|]. cbn [Nat.mul Nat.add] in E. rewrite E.
      unfold register_reading. rewrite Z.add_0_r. unfold wrap16. rewrite Z.mod_small by apply Ha.
      change (gw_register_map gw1) with (gw_register_map gw). rewrite Hget.
      unfold read_register_value, read_raw_value. rewrite Hsrc, Hdt, Hq.
      cbn -[rtu_registry_get_actuator register_map_scale_value cast_u16 f32_of_Z]. rewrite Hreg, Hread, Hduty.
      unfold register_map_scale_value. rewrite Hsc. cbn [negb].
      destruct (small_conversions v Hv) as [_ Hu16].
      unfold cast_u16. rewrite Hu16. by apply Z.mod_small.
Qed.
End Requests.

(** ** The client array *)

Definition clients_ok (gw : modbus_gateway) : Prop :=
  length (gw_clients gw) = MAX_MODBUS_CLIENTS /\ (gw_client_count gw <= MAX_MODBUS_CLIENTS)%nat /\
  gw_total_errors gw = 0.

Lemma length_shift_loop {A} n j (l : list A) : length (shift_loop n j l) = length l.
Proof.
  revert j l. induction n as [|n IH]; intros j l; cbn; [done|].
  destruct (l !! S j); [|done]. by rewrite IH, length_insert.
Qed.

Section Clients.
Context {W : Type} `{ModbusLinks W} (ub : float32 -> Z).

Lemma put_client_ok gw i c : clients_ok gw -> clients_ok (put_client gw i c).
Proof. intros (H1 & H2 & H3). split_and!; cbn; [by rewrite length_insert|done..]. Qed.

Lemma connect_step_ok (st : W * modbus_gateway) i : clients_ok (snd st) -> clients_ok (snd (connect_step st i)).
Proof.
  destruct st as [links gw]. cbn. intros Hok. destruct (gw_clients gw !! i) as [cli|]; [|done].
  destruct (connect_client links cli) as [links' cli']. by apply put_client_ok.
Qed.

Lemma connect_ok links gw : clients_ok gw -> clients_ok (snd (connect_downstream_clients (W := W) links gw)).
Proof.
  intros Hok. apply (foldl_keeps (fun st : W * modbus_gateway => clients_ok (snd st))); [|done].
  intros st i. apply connect_step_ok.
Qed.

Lemma poll_ok now (st : W * modbus_gateway) i :
  clients_ok (snd st) -> clients_ok (snd (poll_downstream_client now st i)).
Proof.
  destruct st as [links gw]. cbn [snd]. intros Hok. unfold poll_downstream_client.
  destruct (gw_clients gw !! i) as [cli|]; [|done].
  destruct (match dc_connected cli with true => _ | false => _ end) as [[links' res] values].
  destruct (bool_decide _); [by apply put_client_ok|].
  destruct (_ <=? _); by apply put_client_ok.
Qed.

Lemma process_client_ok now clk (st : W * modbus_gateway) i :
  clients_ok (snd st) -> clients_ok (snd (process_client now clk st i)).
Proof.
  destruct st as [links gw]. cbn [snd]. intros Hok. unfold process_client.
  destruct (gw_clients gw !! i) as [cli|]; [|done]. destruct (negb _); [done|].
  destruct (negb _).
  - destruct (_ <? _); [by apply connect_ok|done].
  - destruct (_ && _); [|done]. by apply poll_ok, put_client_ok.
Qed.

(** The gateway's own operations. *)
Inductive gateway_op :=
| GwRequest (clk : nat -> Z) (p : plant W) (request response : modbus_pdu)
| GwProcess (now : Z) (clk : nat -> Z) (links : W)
| GwAddDownstream (device : downstream_device)
| GwRemoveDownstream (links : W) (name : string)
| GwStart (links : W)
| GwStop (links : W)
| GwSetRegistry (realloc_ok : Z -> bool) (alloc_ok : bool) (r : option registry)
| GwSetControl (set_ : bool)
| GwSetAlarms (set_ : bool).

Definition gateway_exec (gw : modbus_gateway) (op : gateway_op) : modbus_gateway :=
  match op with
  | GwRequest clk p req resp => let '(_, _, gw', _) := handle_server_request ub clk gw p req resp in gw'
  | GwProcess now clk links => snd (snd (modbus_gateway_process now clk links gw))
  | GwAddDownstream d => snd (modbus_gateway_add_downstream gw d)
  | GwRemoveDownstream links name => snd (snd (modbus_gateway_remove_downstream links gw name))
  | GwStart links => snd (modbus_gateway_start links gw)
  | GwStop links => snd (modbus_gateway_stop links gw)
  | GwSetRegistry realloc_ok alloc_ok r => modbus_gateway_set_registry realloc_ok alloc_ok gw r
  | GwSetControl b => modbus_gateway_set_control_engine gw b
  | GwSetAlarms b => modbus_gateway_set_alarm_manager gw b
  end.

Lemma request_gateway clk gw (p : plant W) req resp :
  let '(_, _, gw', _) := handle_server_request ub clk gw p req resp in
  gw' = gw <| gw_total_requests := wrap64 (gw_total_requests gw + 1) |>.
Proof.
  unfold handle_server_request.
  destruct (_ || _); [destruct (_ <? _); [done|]; cbv zeta; by destruct (foldl _ _ _)|].
  destruct (pdu_function_code req =? MODBUS_FC_WRITE_SINGLE_REGISTER).
  { destruct (register_map_get_register _ _ _); [|done]. destruct (rm_read_only _); [done|].
    by destruct (write_register_value _ _ _ _ _ _) as [? []]. }
  destruct (pdu_function_code req =? MODBUS_FC_WRITE_MULTIPLE_REGISTERS).
  { destruct (_ <? _); [done|]. destruct (write_loop _ _ _ _ _ _ _ _). by destruct (_ =? _). }
  destruct ((pdu_function_code req =? MODBUS_FC_READ_COILS) || _).
  { by destruct (MODBUS_MAX_READ_BITS <? _). }
  destruct (_ =? MODBUS_FC_WRITE_SINGLE_COIL); [|done].
  destruct (register_map_get_coil _ _ _); [|done]. by destruct (cm_read_only _).
Qed.

(** Over any sequence of operations the client count stays within the array, and the
    statistics report no error, whatever happened. *)
Theorem gateway_invariant gw ops :
  clients_ok gw -> clients_ok (foldl gateway_exec gw ops).
Proof.
  apply foldl_keeps. intros g op Hok. destruct op as [clk p req resp|now clk links|d|links name|links|links|ra ao r|b|b];
    cbn [gateway_exec].
  - pose proof (request_gateway clk g p req resp) as Hg.
    destruct (handle_server_request _ _ _ _ _ _) as [[[? ?] ?] ?]. by rewrite Hg.
  - unfold modbus_gateway_process. destruct (negb _); [done|]. cbn [snd].
    apply (foldl_keeps (fun st : W * modbus_gateway => clients_ok (snd st))); [|done].
    intros st i. apply process_client_ok.
  - unfold modbus_gateway_add_downstream. destruct (Nat.leb_spec MAX_MODBUS_CLIENTS (gw_client_count g)) as [|Hlt]; [done|].
    destruct Hok as (H1 & H2 & H3). split_and!; cbn -[MAX_MODBUS_CLIENTS]; [by rewrite length_alter|lia|done].
  - unfold modbus_gateway_remove_downstream. destruct (list_find _ _) as [[i cli]|]; [|done]. cbn [snd].
    destruct Hok as (H1 & H2 & H3). split_and!; cbn -[MAX_MODBUS_CLIENTS]; [by rewrite length_shift_loop|lia|done].
  - unfold modbus_gateway_start. by apply connect_ok.
  - unfold modbus_gateway_stop.
    apply (foldl_keeps (fun st : W * modbus_gateway => clients_ok (snd st))); [|done].
    intros [l g'] i H'. cbn in *. destruct (gw_clients g' !! i); [|done]. by apply put_client_ok.
  - unfold modbus_gateway_set_registry. destruct r; [|done]. by destruct (gc_auto_generate_map _).
  - done.
  - done.
Qed.

(** Supervision of a downstream device: a failed poll counts one error, the device is
    taken offline and its cached values invalidated exactly when the count reaches
    three, and a successful poll resets the count and stores the ten registers read. *)
Theorem poll_supervision now links gw i cli links' res values :
  gw_clients gw !! i = Some cli ->
  match dc_connected cli, client_link cli with
  | true, Some h => link_read_holding (W := W) links h (dd_slave_addr (dc_config cli)) 0 10
  | _, _ => (links, WTC_ERROR_NOT_FOUND, [])
  end = (links', res, values) ->
  exists cli', let gw' := snd (poll_downstream_client now (links, gw) i) in
  gw_clients gw' !! i = Some cli' /\
  (res = WTC_OK -> dc_consecutive_errors cli' = 0 /\ dc_connected cli' = dc_connected cli /\
     forall e, gw_cache gw !! i = Some e -> length values = 10%nat ->
       exists e', gw_cache gw' !! i = Some e' /\ take 10 (ce_values e') = values /\
         ce_valid e' = true /\ ce_last_update_ms e' = now) /\
  (res <> WTC_OK -> dc_consecutive_errors cli' = dc_consecutive_errors cli + 1 /\
     dc_last_error_ms cli' = now /\
     (dc_connected cli' = dc_connected cli /\ dc_consecutive_errors cli' < 3 \/
      dc_connected cli' = false /\ 3 <= dc_consecutive_errors cli' /\
      forall e, gw_cache gw' !! i = Some e -> ce_valid e = false)).
Proof.
  intros Hi Hread. unfold poll_downstream_client. rewrite Hi, Hread.
  assert (i < length (gw_clients gw))%nat as Hlt by by eapply lookup_lt_Some.
  destruct (bool_decide _) eqn:Eres.
  - apply bool_decide_eq_true in Eres as ->. eexists. cbn zeta. split; [|split; [|done]].
    + cbn. by rewrite list_lookup_insert_eq.
    + intros _. split_and!; [done..|]. intros e He Hv. cbn. rewrite list_lookup_alter_eq, He. cbn.
      eexists. split; [done|]. cbn [ce_values ce_valid ce_last_update_ms]. split_and!; [|done..].
      rewrite (take_ge values) by lia. by rewrite <- Hv, take_app_length.
  - apply bool_decide_eq_false in Eres. destruct (Z.leb_spec 3 (dc_consecutive_errors cli + 1)).
    + eexists. cbn zeta. split; [cbn; by rewrite list_lookup_insert_eq|]. split; [done|].
      intros _. split_and!; [done..|]. right. split_and!; [done|done|].
      cbn. intros e. rewrite list_lookup_alter_eq. destruct (gw_cache gw !! i); [|done]. by intros [= <-].
    + eexists. cbn zeta. split; [cbn; by rewrite list_lookup_insert_eq|]. split; [done|].
      intros _. split_and!; [done..|]. left. split; [done|]. done.
Qed.
End Clients.

(** ** A concrete gateway *)

Module GatewayDemo.

(** Transports that hand out numbered contexts; [dl_up] says whether the devices answer. *)
Record demo_links := mk_demo_links {
  dl_next : nat;
  dl_up : bool;
  dl_freed : list nat;
  dl_attempts : Z }.
#[export] Instance eta_demo_links : Eta demo_links := fun r =>
  mk_demo_links (dl_next r) (dl_up r) (dl_freed r) (dl_attempts r).

Definition answer (w : demo_links) : wtc_result := if dl_up w then WTC_OK else WTC_ERROR_TIMEOUT.

#[export] Instance demo_modbus_links : ModbusLinks demo_links := {|
  link_init w _ := (w <| dl_next ::= S |>, Some (dl_next w));
  tcp_connect w _ _ _ := (w <| dl_attempts ::= Z.add 1 |>, answer w);
  rtu_open w _ := (w <| dl_attempts ::= Z.add 1 |>, answer w);
  link_read_holding w _ _ _ q := (w, answer w, replicate (Z.to_nat q) 7);
  link_write_single w _ _ _ _ := (w, answer w);
  link_write_multiple w _ _ _ _ := (w, answer w);
  link_server_start w _ := (w, WTC_OK);
  link_server_stop w _ := w;
  link_disconnect w _ := w;
  link_cleanup w h := w <| dl_freed ::= cons h |>;
  link_stats _ _ := zero_stats;
  link_connections _ _ := 0 |}.

Definition demo_config : modbus_gateway_config :=
  mk_modbus_gateway_config true 0 "" false "" 0 0 [] "" true 0 0.
Definition device (name : string) : downstream_device :=
  mk_downstream_device name MODBUS_TRANSPORT_TCP true "10.0.0.1" 502 "" 0 0 0 0 1 1000 500.

Definition links0 (up : bool) : demo_links := mk_demo_links 0 up [] 0.
Definition pump_registry : registry :=
  snd (rtu_registry_update_sensor 0 RegisterMapDemo.plant "tank-1" 1 (f32_lit 217 10) IOPS_GOOD QUALITY_GOOD).
Definition gw0 : modbus_gateway :=
  match modbus_gateway_init (fun _ => true) (fun _ => true) (fun _ => None) (replicate 247 zero_cache)
          (links0 true) demo_config with
  | Some (_, Some (_, gw)) =>
      modbus_gateway_set_registry (fun _ => true) true gw (Some pump_registry)
  | _ => mk_modbus_gateway demo_config None None [] 0 empty_map false false false false 0 0 []
  end.
Definition plant0 : plant demo_links :=
  mk_plant pump_registry (control_engine_init 100 false false) (links0 true).
Definition blank : modbus_pdu := mk_modbus_pdu 0 (replicate PDU_DATA 0) 0.
Definition no_clk : nat -> Z := fun _ => 0.
Definition no_ub : float32 -> Z := fun _ => 0.

Lemma blank_length : length (pdu_data blank) = PDU_DATA.
Proof. vm_compute. reflexivity. Qed.

Definition pump_register : register_mapping :=
  actuator_register (match reg_devices pump_registry with d :: _ => d | [] => mk_rtu_device 0 "" "" 0 0
    PROFINET_STATE_OFFLINE 0 [] 0 [] 0 [] 0 f0 false end) 0 0.

Lemma modbus_write_read_roundtrip_witness :
  let '(_, write) := modbus_build_write_single_register blank (rm_modbus_addr pump_register) 80 in
  let '(_, read) := modbus_build_read_request blank MODBUS_FC_READ_HOLDING_REGISTERS
                      (rm_modbus_addr pump_register) 1 in
  let '(ex1, resp1, gw1, p1) := handle_server_request no_ub no_clk gw0 plant0 write blank in
  let '(ex2, resp2, gw2, p2) := handle_server_request no_ub no_clk gw1 p1 read blank in
  ex1 = MODBUS_EX_NONE /\ take 4 (pdu_data resp1) = take 4 (pdu_data write) /\
  ex2 = MODBUS_EX_NONE /\ modbus_get_uint16_be (pdu_data resp2) 1 = 80.
Proof.
  apply (modbus_write_read_roundtrip no_ub no_clk no_clk gw0 plant0 pump_register 80 blank blank blank blank);
    try (vm_compute; reflexivity); try exact blank_length; try lia.
  vm_compute. done.
Defined.

Definition read_input_request : modbus_pdu :=
  snd (modbus_build_read_request blank MODBUS_FC_READ_INPUT_REGISTERS 0 2).

Lemma read_registers_response_witness :
  let '(ex, resp, gw', p') := handle_server_request no_ub no_clk gw0 plant0 read_input_request blank in
  if 125 <? 2 then ex = MODBUS_EX_ILLEGAL_DATA_VALUE
  else
    ex = MODBUS_EX_NONE /\ pdu_function_code resp = MODBUS_FC_READ_INPUT_REGISTERS /\
    pdu_data_len resp = 1 + 2 * 2 /\ length (pdu_data resp) = PDU_DATA /\
    1 + 2 * 2 <= Z.of_nat PDU_DATA /\ byte_at (pdu_data resp) 0 = 2 * 2 /\
    forall i, Z.of_nat i < 2 -> exists q, p_registry q = p_registry plant0 /\ p_control q = p_control plant0 /\
      modbus_get_uint16_be (pdu_data resp) (1 + i * 2)
      = register_reading no_ub no_clk gw0 MODBUS_REG_INPUT 0 q i.
Proof.
  apply (read_registers_response no_ub no_clk gw0 plant0 read_input_request blank
           MODBUS_FC_READ_INPUT_REGISTERS MODBUS_REG_INPUT 0 2);
    [by constructor; constructor|vm_compute; reflexivity|exact blank_length|vm_compute; reflexivity..|lia].
Defined.

(** A sensor value of 21.7, mapped as a two-register float: the first register reads 21
    and the second 0. *)
Theorem float_register_truncated :
  let '(_, resp, _, _) := handle_server_request no_ub no_clk gw0 plant0 read_input_request blank in
  rm_data_type <$> register_map_get_register (gw_register_map gw0) MODBUS_REG_INPUT 0
    = Some MODBUS_DTYPE_FLOAT32_BE /\
  modbus_get_uint16_be (pdu_data resp) 1 = 21 /\ modbus_get_uint16_be (pdu_data resp) 3 = 0.
Proof. vm_compute. auto. Qed.

(** A write of two registers of which only the first exists: the exception says
    "illegal address", and the first output has been changed. *)
Theorem failed_write_applied_in_part :
  let request := snd (modbus_build_write_multiple_registers blank 0 2 [80; 80]) in
  let '(ex, _, _, p') := handle_server_request no_ub no_clk gw0 plant0 request blank in
  ex = MODBUS_EX_ILLEGAL_DATA_ADDRESS /\
  ao_pwm_duty ∘ as_output <$> snd (rtu_registry_get_actuator (p_registry p') "tank-1" 1) = Some 80.
Proof. vm_compute. auto. Qed.

(** Switching the coil of a running output on sets its duty to 0. *)
Theorem coil_on_clears_duty :
  let '(_, _, gw1, p1) := handle_server_request no_ub no_clk gw0 plant0
    (snd (modbus_build_write_single_register blank 0 80)) blank in
  let '(ex, _, _, p2) := handle_server_request no_ub no_clk gw1 p1
    (snd (modbus_build_write_single_coil blank 0 true)) blank in
  ex = MODBUS_EX_NONE /\
  as_output <$> snd (rtu_registry_get_actuator (p_registry p2) "tank-1" 1) = Some (mk_actuator_output 1 0 0 0).
Proof. vm_compute. auto. Qed.

(** Device "a" is connected and removed, its context is freed; device "b" added
    afterwards is taken as connected and owns the freed context. *)
Theorem freed_context_reused :
  let '(links, gw) := modbus_gateway_start (links0 true) (snd (modbus_gateway_add_downstream gw0 (device "a"))) in
  let '(_, (links, gw)) := modbus_gateway_remove_downstream links gw "a" in
  let gw := snd (modbus_gateway_add_downstream gw (device "b")) in
  match used_clients gw with
  | [c] => dd_name (dc_config c) = "b"%string /\ dc_connected c = true /\
           exists h, dc_tcp c = Some h /\ h ∈ dl_freed links
  | _ => False
  end.
Proof. vm_compute. split; [done|]. split; [done|]. eexists. split; [done|]. constructor. Qed.

(** A device that does not answer is dialled again on every call, not after five
    seconds: a failed connection does not move the time of the last error. *)
Theorem reconnect_without_delay :
  let '(links, gw) := modbus_gateway_start (links0 false) (snd (modbus_gateway_add_downstream gw0 (device "a"))) in
  let '(_, (links, gw)) := modbus_gateway_process 10000 no_clk links gw in
  let '(_, (links, gw)) := modbus_gateway_process 10100 no_clk links gw in
  let '(_, (links, gw)) := modbus_gateway_process 10200 no_clk links gw in
  dl_attempts links = 4.
Proof. vm_compute. reflexivity. Qed.

Definition polled : demo_links * modbus_gateway :=
  modbus_gateway_start (links0 true) (snd (modbus_gateway_add_downstream gw0 (device "a"))).
Definition polled_client : downstream_client :=
  mk_downstream_client (device "a") (Some 0%nat) None true 0 0 0.

Lemma poll_supervision_witness :
  exists cli', let gw' := snd (poll_downstream_client 5 (links0 false, snd polled) 0) in
  gw_clients gw' !! 0%nat = Some cli' /\
  (WTC_ERROR_TIMEOUT = WTC_OK -> dc_consecutive_errors cli' = 0 /\ dc_connected cli' = dc_connected polled_client /\
     forall e, gw_cache (snd polled) !! 0%nat = Some e -> length (replicate 10 7) = 10%nat ->
       exists e', gw_cache gw' !! 0%nat = Some e' /\ take 10 (ce_values e') = replicate 10 7 /\
         ce_valid e' = true /\ ce_last_update_ms e' = 5) /\
  (WTC_ERROR_TIMEOUT <> WTC_OK -> dc_consecutive_errors cli' = dc_consecutive_errors polled_client + 1 /\
     dc_last_error_ms cli' = 5 /\
     (dc_connected cli' = dc_connected polled_client /\ dc_consecutive_errors cli' < 3 \/
      dc_connected cli' = false /\ 3 <= dc_consecutive_errors cli' /\
      forall e, gw_cache gw' !! 0%nat = Some e -> ce_valid e = false)).
Proof.
  apply (poll_supervision 5 (links0 false) (snd polled) 0%nat polled_client (links0 false)
           WTC_ERROR_TIMEOUT (replicate 10 7)); vm_compute; reflexivity.
Defined.

End GatewayDemo.
