(* ===== verification/UserSync.v ===== *)
(** * User synchronisation: wire format and controller side

    Model of [shared/include/user_sync_protocol.h] (hash, checksum, records) and of
    [src/user/user_sync.c]: the controller packs its operators' accounts into a
    payload and writes it to every running RTU as a PROFINET record.  The RTU side is
    UserStore.v.

    The payload structs are packed and little-endian.  Writing a record is the
    interface [RecordLink], which PnController.v's [profinet_controller_write_record]
    has in the program; [clk k] is the [k]-th clock reading in milliseconds. *)

From Stdlib Require Import Ascii.
From S2P Require Import Prelude Float32 Types Registry Crc Wire.

Definition USER_SYNC_PROTOCOL_VERSION : Z := 2.
Definition USER_SYNC_MAGIC : Z := 1431520594. (* 0x55534552 *)
Definition USER_SYNC_RECORD_INDEX : Z := 63552. (* 0xF840 *)
Definition USER_SYNC_MAX_USERS : nat := 16.
Definition USER_SYNC_USERNAME_LEN : nat := 32.
Definition USER_SYNC_HASH_LEN : nat := 24.
Definition USER_SYNC_SALT : string := "NaCl4Life".
Definition DJB2_INIT : Z := 5381.

Definition USER_SYNC_OP_FULL_SYNC : Z := 0.
Definition USER_SYNC_OP_DELETE : Z := 2.

Definition USER_FLAG_ACTIVE : Z := 1.
Definition USER_FLAG_SYNC_TO_RTUS : Z := 2.

(** [user_sync_result_t] *)
Inductive user_sync_result :=
| USER_SYNC_OK | USER_SYNC_ERR_INVALID_PARAM | USER_SYNC_ERR_VERSION_MISMATCH
| USER_SYNC_ERR_CHECKSUM | USER_SYNC_ERR_REPLAY | USER_SYNC_ERR_STORAGE_FULL
| USER_SYNC_ERR_STORAGE_WRITE | USER_SYNC_ERR_USER_NOT_FOUND | USER_SYNC_ERR_AUTH_FAILED
| USER_SYNC_ERR_INACTIVE | USER_SYNC_ERR_INSUFFICIENT_ROLE | USER_SYNC_ERR_BAD_MAGIC
| USER_SYNC_ERR_BAD_OPERATION.
#[export] Instance user_sync_result_eq_dec : EqDecision user_sync_result.
Proof. solve_decision. Defined.

(** [wtc_user_sync_result_t] (the values returned) *)
Inductive wtc_user_sync_result :=
| WTC_USER_SYNC_OK | WTC_USER_SYNC_ERROR_INVALID_PARAM | WTC_USER_SYNC_ERROR_CHECKSUM
| WTC_USER_SYNC_ERROR_VERSION | WTC_USER_SYNC_ERROR_SEND | WTC_USER_SYNC_ERROR_RTU_NOT_CONNECTED.
#[export] Instance wtc_user_sync_result_eq_dec : EqDecision wtc_user_sync_result.
Proof. solve_decision. Defined.

(** ** Password hash *)

(** [hash = ((hash << 5) + hash) + c] on [uint32_t]. *)
Definition djb2_step (hash c : Z) : Z := wrap32 (wrap32 (wrap32 (Z.shiftl hash 5) + hash) + c).
Definition user_sync_djb2 (str : string) : Z := foldl djb2_step DJB2_INIT (string_bytes str).

(** [user_sync_hash_with_salt]: the salt's hash and the password's. *)
Definition user_sync_hash_with_salt (password : string) : Z * Z :=
  let salt_hash := user_sync_djb2 USER_SYNC_SALT in
  (salt_hash, foldl djb2_step salt_hash (string_bytes password)).

Definition hex_digit (d : Z) : Ascii.ascii :=
  match String.get (Z.to_nat d) "0123456789ABCDEF" with Some c => c | None => "0"%char end.

(** ["%08X"] of a 32-bit number: [n] digits, the most significant first. *)
Fixpoint fmt_hex (n : nat) (v : Z) (rest : string) : string :=
  match n with
  | O => rest
  | S n' => fmt_hex n' (v / 16) (String (hex_digit (v mod 16)) rest)
  end.

(** [snprintf(out, 24, "DJB2:%08X:%08X", ...)], used by [user_sync_hash_password] and by
    the RTU's [format_password_hash]. *)
Definition format_password_hash (password : string) : string :=
  let '(salt_hash, pass_hash) := user_sync_hash_with_salt password in
  strncpy (USER_SYNC_HASH_LEN - 1)
    ("DJB2:" +:+ fmt_hex 8 salt_hash "" +:+ ":" +:+ fmt_hex 8 pass_hash "").
Definition user_sync_hash_password (password : string) : string := format_password_hash password.

(** [hex[(v >> (28 - i*4)) & 0xF]] for [i] from 0 to 7. *)
Definition hex8 (v : Z) : string :=
  String.string_of_list_ascii
    ((fun i => hex_digit (Z.land (Z.shiftr v (28 - Z.of_nat i * 4)) 15)) <$> seq 0 8).
(** [user_sync_format_hash] *)
Definition user_sync_format_hash (password : string) : string :=
  let '(salt_hash, pass_hash) := user_sync_hash_with_salt password in
  "DJB2:" +:+ hex8 salt_hash +:+ ":" +:+ hex8 pass_hash.

(** [secure_strcmp]: all characters of the longer string are looked at. *)
Definition secure_strcmp (a b : string) : bool :=
  let la := string_bytes a in
  let lb := string_bytes b in
  let init := if (length la =? length lb)%nat then 0 else 1 in
  foldl (fun result i => Z.lor result (Z.lxor (nth i la 0) (nth i lb 0))) init
    (seq 0 (Nat.max (length la) (length lb))) =? 0.

(** [user_sync_constant_time_compare] on two arrays. *)
Fixpoint constant_time_loop (result : Z) (a b : list Z) (len : nat) : Z :=
  match len with
  | O => result
  | S len' =>
      let x := nth 0 a 0 in
      let y := nth 0 b 0 in
      let result := Z.lor result (Z.lxor x y) in
      if (x =? 0) || (y =? 0) then result else constant_time_loop result (tail a) (tail b) len'
  end.
Definition user_sync_constant_time_compare (a b : list Z) (len : nat) : bool :=
  constant_time_loop 0 a b len =? 0.

(** [user_sync_verify_password] *)
Definition user_sync_verify_password (password stored_hash : string) : bool :=
  secure_strcmp (user_sync_hash_password password) stored_hash.

(** ** Checksum *)

(** [if (crc & 0x8000) crc = (crc << 1) ^ 0x1021; else crc <<= 1;] on [uint16_t]. *)
Definition crc_bit (crc : Z) : Z :=
  if Z.land crc 32768 =? 0 then wrap16 (Z.shiftl crc 1)
  else wrap16 (Z.lxor (Z.shiftl crc 1) 4129).
Definition crc_byte (crc b : Z) : Z :=
  foldl (fun crc _ => crc_bit crc) (Z.lxor crc (wrap16 (Z.shiftl b 8))) (seq 0 8).
Definition user_sync_crc16_ccitt (data : list Z) : Z := foldl crc_byte 65535 data.
Definition user_sync_crc16 (data : list Z) : Z := user_sync_crc16_ccitt data.

(** ** Records on the wire *)

Definition le16 (v : Z) : list Z := rev (be16 v).
Definition le32 (v : Z) : list Z := rev (be32 v).
Definition of_le (l : list Z) : Z := of_be 0 (rev l).

(** [user_sync_record_t]; the character arrays are whole. *)
Record user_sync_record := mk_user_sync_record {
  ur_user_id : Z;
  ur_username : list Z;
  ur_password_hash : list Z;
  ur_role : Z;
  ur_flags : Z;
  ur_reserved : list Z }.

(** [user_sync_header_t] *)
Record user_sync_header := mk_user_sync_header {
  uh_magic : Z;
  uh_version : Z;
  uh_operation : Z;
  uh_user_count : Z;
  uh_reserved : Z;
  uh_timestamp : Z;
  uh_nonce : Z;
  uh_checksum : Z;
  uh_reserved2 : Z }.

(** [user_sync_payload_t] *)
Record user_sync_payload := mk_user_sync_payload {
  up_header : user_sync_header;
  up_users : list user_sync_record }.

Definition RECORD_SIZE : nat := 64.
Definition HEADER_SIZE : nat := 20.

Definition record_bytes (r : user_sync_record) : list Z :=
  le32 (ur_user_id r) ++ ur_username r ++ ur_password_hash r ++ [ur_role r; ur_flags r] ++ ur_reserved r.
Definition header_bytes (h : user_sync_header) : list Z :=
  le32 (uh_magic h) ++ [uh_version h; uh_operation h; uh_user_count h; uh_reserved h] ++
  le32 (uh_timestamp h) ++ le32 (uh_nonce h) ++ le16 (uh_checksum h) ++ le16 (uh_reserved2 h).
Definition records_bytes (l : list user_sync_record) : list Z := concat (record_bytes <$> l).

(** The structs in memory, read from their bytes. *)
Definition record_at (l : list Z) : user_sync_record :=
  mk_user_sync_record (of_le (take 4 l)) (take 32 (drop 4 l)) (take 24 (drop 36 l))
    (nth 60 l 0) (nth 61 l 0) (take 2 (drop 62 l)).
Definition header_at (l : list Z) : user_sync_header :=
  mk_user_sync_header (of_le (take 4 l)) (nth 4 l 0) (nth 5 l 0) (nth 6 l 0) (nth 7 l 0)
    (of_le (take 4 (drop 8 l))) (of_le (take 4 (drop 12 l)))
    (of_le (take 2 (drop 16 l))) (of_le (take 2 (drop 18 l))).
Fixpoint records_at (n : nat) (l : list Z) : list user_sync_record :=
  match n with
  | O => []
  | S n' => record_at (take RECORD_SIZE l) :: records_at n' (drop RECORD_SIZE l)
  end.

(** [user_sync_validate_header], [user_sync_validate_payload] *)
Definition user_sync_validate_header (h : user_sync_header) : user_sync_result :=
  if negb (uh_magic h =? USER_SYNC_MAGIC) then USER_SYNC_ERR_BAD_MAGIC
  else if negb (uh_version h =? USER_SYNC_PROTOCOL_VERSION) then USER_SYNC_ERR_VERSION_MISMATCH
  else if USER_SYNC_OP_DELETE <? uh_operation h then USER_SYNC_ERR_BAD_OPERATION
  else if Z.of_nat USER_SYNC_MAX_USERS <? uh_user_count h then USER_SYNC_ERR_INVALID_PARAM
  else USER_SYNC_OK.

Definition user_sync_validate_payload (p : user_sync_payload) : user_sync_result :=
  match user_sync_validate_header (up_header p) with
  | USER_SYNC_OK =>
      let data := records_bytes (take (Z.to_nat (uh_user_count (up_header p))) (up_users p)) in
      if uh_checksum (up_header p) =? user_sync_crc16_ccitt data then USER_SYNC_OK
      else USER_SYNC_ERR_CHECKSUM
  | e => e
  end.

(** [user_sync_init_header] *)
Definition user_sync_init_header (operation user_count timestamp : Z) : user_sync_header :=
  mk_user_sync_header USER_SYNC_MAGIC USER_SYNC_PROTOCOL_VERSION operation user_count 0 timestamp 0 0 0.

Definition user_sync_role_sufficient (user_role required_role : Z) : bool := required_role <=? user_role.

(** [user_sync_payload_size] *)
Definition user_sync_payload_size (user_count : Z) : Z :=
  Z.of_nat HEADER_SIZE + user_count * Z.of_nat RECORD_SIZE.

(** ** The controller *)

(** [user_t] *)
Record user := mk_user {
  u_user_id : Z;
  u_username : string;
  u_password_hash : string;
  u_role : Z;
  u_created_at_ms : Z;
  u_last_login_ms : Z;
  u_active : bool }.

(** [strncpy] of [n - 1] characters into a zeroed array of [n] bytes. *)
Definition char_array (n : nat) (s : string) : list Z :=
  let l := take (n - 1) (string_bytes s) in l ++ replicate (n - length l) 0.

Definition zero_record : user_sync_record :=
  mk_user_sync_record 0 (replicate USER_SYNC_USERNAME_LEN 0) (replicate USER_SYNC_HASH_LEN 0) 0 0 [0; 0].

Definition user_record (u : user) : user_sync_record :=
  mk_user_sync_record (wrap32 (u_user_id u)) (char_array USER_SYNC_USERNAME_LEN (u_username u))
    (char_array USER_SYNC_HASH_LEN (u_password_hash u)) (wrap8 (u_role u))
    (Z.lor (if u_active u then USER_FLAG_ACTIVE else 0) USER_FLAG_SYNC_TO_RTUS) [0; 0].

(** [user_sync_serialize] ([now], [now']: its two clock readings). *)
Definition user_sync_serialize (now now' : Z) (users : list user) : user_sync_payload :=
  let users := take USER_SYNC_MAX_USERS users in
  let records := user_record <$> users in
  let n := length users in
  mk_user_sync_payload
    (mk_user_sync_header USER_SYNC_MAGIC USER_SYNC_PROTOCOL_VERSION USER_SYNC_OP_FULL_SYNC
       (Z.of_nat n) 0 (wrap32 (now / 1000)) (wrap32 now')
       (user_sync_crc16 (records_bytes records)) 0)
    (records ++ replicate (USER_SYNC_MAX_USERS - n) zero_record).

(** The bytes of a payload that are sent. *)
Definition payload_bytes (p : user_sync_payload) : list Z :=
  take (Z.to_nat (user_sync_payload_size (uh_user_count (up_header p))))
    (header_bytes (up_header p) ++ records_bytes (up_users p)).

(** [(int)x] of a [uint32_t] *)
Definition to_i32 (x : Z) : Z := if x <? 2 ^ 31 then x else x - 2 ^ 32.

Definition record_user (r : user_sync_record) : user :=
  mk_user (to_i32 (ur_user_id r)) (strncpy (WTC_MAX_USERNAME - 1) (cstring (ur_username r)))
    (strncpy 255 (cstring (ur_password_hash r))) (ur_role r) 0 0
    (negb (Z.land (ur_flags r) USER_FLAG_ACTIVE =? 0)).

(** [user_sync_deserialize] *)
Definition user_sync_deserialize (p : user_sync_payload) (max_users : Z)
    : wtc_user_sync_result * list user :=
  if max_users <=? 0 then (WTC_USER_SYNC_ERROR_INVALID_PARAM, [])
  else
    let h := up_header p in
    match user_sync_validate_header h with
    | USER_SYNC_OK =>
        let count := Z.min (Z.min (uh_user_count h) max_users) (Z.of_nat USER_SYNC_MAX_USERS) in
        let data := records_bytes (take (Z.to_nat (uh_user_count h)) (up_users p)) in
        if negb (user_sync_crc16 data =? uh_checksum h) then (WTC_USER_SYNC_ERROR_CHECKSUM, [])
        else (WTC_USER_SYNC_OK, record_user <$> take (Z.to_nat count) (up_users p))
    | USER_SYNC_ERR_VERSION_MISMATCH => (WTC_USER_SYNC_ERROR_VERSION, [])
    | _ => (WTC_USER_SYNC_ERROR_INVALID_PARAM, [])
    end.

(** Writing a record: [profinet_controller_write_record] with API, slot, subslot, index. *)
Class RecordLink (P : Type) := {
  write_record : P -> string -> Z -> Z -> Z -> Z -> list Z -> P * wtc_result }.

(** [user_sync_config_t] *)
Record user_sync_config := mk_user_sync_config {
  uc_auto_sync_on_connect : bool;
  uc_auto_sync_on_change : bool;
  uc_sync_timeout_ms : Z;
  uc_retry_count : Z;
  uc_retry_delay_ms : Z }.
Definition default_config : user_sync_config := mk_user_sync_config true true 5000 3 1000.

(** [user_sync_stats_t] *)
Record user_sync_stats := mk_user_sync_stats {
  st_total_syncs : Z;
  st_successful_syncs : Z;
  st_failed_syncs : Z;
  st_last_sync_time_ms : Z;
  st_last_sync_rtu : string }.

(** [struct user_sync_manager]; pointers as "is set", [um_trace] the callbacks made. *)
Record user_sync_manager := mk_user_sync_manager {
  um_config : user_sync_config;
  um_profinet : bool;
  um_registry : bool;
  um_callback : bool;
  um_stats : user_sync_stats;
  um_cached_users : list user;
  um_trace : list (string * wtc_user_sync_result) }.

#[export] Instance eta_user_sync_stats : Eta user_sync_stats := fun r =>
  mk_user_sync_stats (st_total_syncs r) (st_successful_syncs r) (st_failed_syncs r)
    (st_last_sync_time_ms r) (st_last_sync_rtu r).
#[export] Instance eta_user_sync_manager : Eta user_sync_manager := fun r =>
  mk_user_sync_manager (um_config r) (um_profinet r) (um_registry r) (um_callback r) (um_stats r)
    (um_cached_users r) (um_trace r).

(** [user_sync_manager_init] *)
Definition user_sync_manager_init (alloc_ok : bool) (config : option user_sync_config)
    : wtc_result * option user_sync_manager :=
  if alloc_ok then
    (WTC_OK, Some (mk_user_sync_manager (default default_config config) false false false
                     (mk_user_sync_stats 0 0 0 0 "") [] []))
  else (WTC_ERROR_NO_MEMORY, None).

Definition user_sync_set_profinet (m : user_sync_manager) (b : bool) : user_sync_manager :=
  m <| um_profinet := b |>.
Definition user_sync_set_registry (m : user_sync_manager) (b : bool) : user_sync_manager :=
  m <| um_registry := b |>.
Definition user_sync_set_callback (m : user_sync_manager) (b : bool) : user_sync_manager :=
  m <| um_callback := b |>.

Section Manager.
Context {P : Type} `{RecordLink P}.

(** [user_sync_to_rtu] ([clk 0], [clk 1] in the serialisation, [clk 2] for the statistics). *)
Definition user_sync_to_rtu (clk : nat -> Z) (m : user_sync_manager) (net : P) (station : string)
    (users : list user) : wtc_user_sync_result * user_sync_manager * P :=
  if negb (um_profinet m) then (WTC_USER_SYNC_ERROR_SEND, m, net)
  else
    let payload := user_sync_serialize (clk 0%nat) (clk 1%nat) users in
    let '(net, send_result) :=
      write_record net station 0 0 1 USER_SYNC_RECORD_INDEX (payload_bytes payload) in
    let m := m <| um_stats ::= fun s => s <| st_total_syncs ::= fun n => wrap32 (n + 1) |> |> in
    let '(m, result) :=
      match send_result with
      | WTC_OK =>
          (m <| um_stats ::= fun s =>
             s <| st_successful_syncs ::= fun n => wrap32 (n + 1) |>
               <| st_last_sync_time_ms := clk 2%nat |>
               <| st_last_sync_rtu := strncpy (WTC_MAX_STATION_NAME - 1) station |> |>,
           WTC_USER_SYNC_OK)
      | WTC_ERROR_NOT_CONNECTED =>
          (m <| um_stats ::= fun s => s <| st_failed_syncs ::= fun n => wrap32 (n + 1) |> |>,
           WTC_USER_SYNC_ERROR_RTU_NOT_CONNECTED)
      | _ =>
          (m <| um_stats ::= fun s => s <| st_failed_syncs ::= fun n => wrap32 (n + 1) |> |>,
           WTC_USER_SYNC_ERROR_SEND)
      end in
    (result,
     if um_callback m then m <| um_trace ::= fun t => t ++ [(station, result)] |> else m, net).

(** One device of [user_sync_to_all_rtus]. *)
Definition sync_device (clk : nat -> nat -> Z) (users : list user)
    (st : Z * user_sync_manager * P) (dev : nat * rtu_device) : Z * user_sync_manager * P :=
  let '(success_count, m, net) := st in
  let '(i, d) := dev in
  if bool_decide (dev_connection_state d = PROFINET_STATE_RUNNING) then
    let '(result, m, net) := user_sync_to_rtu (clk i) m net (dev_station_name d) users in
    (if bool_decide (result = WTC_USER_SYNC_OK) then success_count + 1 else success_count, m, net)
  else (success_count, m, net).

(** [user_sync_to_all_rtus] *)
Definition user_sync_to_all_rtus (clk : nat -> nat -> Z) (alloc_ok : bool) (m : user_sync_manager)
    (net : P) (r : registry) (users : list user) : Z * user_sync_manager * P :=
  if negb (um_registry m) then (0, m, net)
  else
    match rtu_registry_list_devices alloc_ok r (Z.of_nat WTC_MAX_RTUS) with
    | (WTC_OK, Some devices) =>
        foldl (sync_device clk users) (0, m, net) (imap (fun i d => (i, d)) devices)
    | _ => (0, m, net)
    end.

(** [user_sync_on_rtu_connect] ([users = []] is a missing or empty list). *)
Definition user_sync_on_rtu_connect (clk : nat -> Z) (m : user_sync_manager) (net : P)
    (station : string) (users : list user) : user_sync_manager * P :=
  if negb (uc_auto_sync_on_connect (um_config m)) then (m, net)
  else
    match (match users with [] => um_cached_users m | _ => users end) with
    | [] => (m, net)
    | us => let '(_, m, net) := user_sync_to_rtu clk m net station us in (m, net)
    end.

(** [user_sync_on_user_change] *)
Definition user_sync_on_user_change (clk : nat -> nat -> Z) (alloc_ok : bool)
    (m : user_sync_manager) (net : P) (r : registry) (users : list user) : user_sync_manager * P :=
  if negb (uc_auto_sync_on_change (um_config m)) then (m, net)
  else let '(_, m, net) := user_sync_to_all_rtus clk alloc_ok m net r users in (m, net).

End Manager.

(** [user_sync_cache_users] *)
Definition user_sync_cache_users (m : user_sync_manager) (users : list user) : user_sync_manager :=
  match users with
  | [] => m
  | _ => m <| um_cached_users := take USER_SYNC_MAX_USERS users |>
  end.

Definition user_sync_get_stats (m : user_sync_manager) : user_sync_stats := um_stats m.

(** ** Lemmas on bytes *)

Lemma le32_back v : is_u32 v -> of_le (le32 v) = v.
Proof. unfold of_le, le32. rewrite rev_involutive. apply of_be32. Qed.
Lemma le16_back v : is_u16 v -> of_le (le16 v) = v.
Proof. unfold of_le, le16. rewrite rev_involutive. apply of_be16. Qed.

Definition record_ok (r : user_sync_record) : Prop :=
  is_u32 (ur_user_id r) /\ length (ur_username r) = USER_SYNC_USERNAME_LEN /\
  length (ur_password_hash r) = USER_SYNC_HASH_LEN /\ length (ur_reserved r) = 2%nat.

Lemma length_record_bytes r : record_ok r -> length (record_bytes r) = RECORD_SIZE.
Proof. intros (_ & H1 & H2 & H3). unfold record_bytes. rewrite !length_app, H1, H2, H3. done. Qed.

Lemma record_at_bytes r : record_ok r -> record_at (record_bytes r) = r.
Proof.
  intros (H0 & H1 & H2 & H3). destruct r as [id name hash role flags res].
  cbn [ur_user_id ur_username ur_password_hash ur_role ur_flags ur_reserved] in *.
  unfold record_at, record_bytes. cbn [ur_user_id ur_username ur_password_hash ur_role ur_flags ur_reserved].
  change USER_SYNC_USERNAME_LEN with 32%nat in H1. change USER_SYNC_HASH_LEN with 24%nat in H2.
  f_equal.
  - rewrite take_app_length' by done. by apply le32_back.
  - rewrite drop_app_length' by done. by apply take_app_length'.
  - change 36%nat with (4 + 32)%nat. rewrite <- drop_drop, drop_app_length', drop_app_length' by done. by apply take_app_length'.
  - rewrite !nth_lookup. rewrite lookup_app_r by (cbn; lia). rewrite lookup_app_r by (cbn; lia).
    rewrite lookup_app_r by (cbn; lia). rewrite H1, H2. done.
  - rewrite !nth_lookup. rewrite lookup_app_r by (cbn; lia). rewrite lookup_app_r by (cbn; lia).
    rewrite lookup_app_r by (cbn; lia). rewrite H1, H2. done.
  - change 62%nat with (4 + 32 + 24 + 2)%nat. rewrite <- !drop_drop, drop_app_length', drop_app_length', drop_app_length' by done.
    cbn [drop app]. apply take_ge. lia.
Qed.

Lemma records_at_bytes l rest :
  Forall record_ok l -> records_at (length l) (records_bytes l ++ rest) = l.
Proof.
  induction 1 as [|r l Hr _ IH]; [done|]. unfold records_bytes. rewrite fmap_cons. cbn [concat length records_at].
  rewrite <- app_assoc. rewrite take_app_length', drop_app_length' by (symmetry; by apply length_record_bytes).
  rewrite record_at_bytes by done. f_equal. exact IH.
Qed.

Lemma length_records_bytes l :
  Forall record_ok l -> length (records_bytes l) = (length l * RECORD_SIZE)%nat.
Proof.
  induction 1 as [|r l Hr _ IH]; [done|]. unfold records_bytes in *. rewrite fmap_cons. cbn [concat].
  rewrite length_app, IH, length_record_bytes by done. cbn [length]. lia.
Qed.

Definition header_ok (h : user_sync_header) : Prop :=
  is_u32 (uh_magic h) /\ is_u32 (uh_timestamp h) /\ is_u32 (uh_nonce h) /\
  is_u16 (uh_checksum h) /\ is_u16 (uh_reserved2 h).

Lemma length_header_bytes h : length (header_bytes h) = HEADER_SIZE.
Proof. done. Qed.

Lemma header_at_bytes h rest : header_ok h -> header_at (header_bytes h ++ rest) = h.
Proof.
  intros (H1 & H2 & H3 & H4 & H5). destruct h as [m v o c r ts n cs r2]. cbn in *.
  unfold header_at, header_bytes. cbn [uh_magic uh_version uh_operation uh_user_count uh_reserved
    uh_timestamp uh_nonce uh_checksum uh_reserved2].
  f_equal; try done.
  - exact (le32_back m H1).
  - exact (le32_back ts H2).
  - exact (le32_back n H3).
  - exact (le16_back cs H4).
  - exact (le16_back r2 H5).
Qed.

(** ** The two checksums of the repository agree *)

Lemma crc_bit_ccitt x : is_u16 x -> crc_bit x = ccitt_bit x.
Proof.
  intros Hx. unfold crc_bit, ccitt_bit, wrap16. rewrite <- !Z.land_ones by lia.
  change 65535 with (Z.ones 16).
  assert (Z.land x 32768 = 0 <-> Z.testbit x 15 = false) as Hb.
  { change 32768 with (2 ^ 15). split.
    - intros H. assert (Z.testbit (Z.land x (2 ^ 15)) 15 = false) as E by (rewrite H; apply Z.bits_0).
      rewrite Z.land_spec, Z.pow2_bits_true in E by lia. by rewrite andb_true_r in E.
    - intros H. apply Z.bits_inj'. intros n Hn. rewrite Z.land_spec, Z.bits_0.
      destruct (decide (n = 15)) as [->|]; [by rewrite H|]. rewrite Z.pow2_bits_false by lia. apply andb_false_r. }
  destruct (Z.eqb_spec (Z.land x 32768) 0) as [E|E].
  - apply Hb in E. rewrite E. by rewrite Z.lxor_0_r.
  - destruct (Z.testbit x 15) eqn:Et; [|by destruct E; apply Hb].
    apply Z.bits_inj'. intros n Hn. rewrite Z.lxor_spec, !Z.land_spec, Z.lxor_spec, Z.testbit_ones_nonneg by lia.
    destruct (Z.ltb_spec n 16); [by rewrite !andb_true_r|]. rewrite !andb_false_r. cbn [xorb].
    symmetry. apply Z.bits_above_log2; [lia|]. change (Z.log2 4129) with 12. lia.
Qed.

Lemma ccitt_bit_range x : is_u16 (ccitt_bit x).
Proof.
  unfold ccitt_bit, is_u16. apply (lxor_range 16); [lia| |destruct (Z.testbit x 15); lia].
  change 65535 with (Z.ones 16). rewrite Z.land_ones by lia. apply Z.mod_pos_bound. lia.
Qed.

Lemma crc_byte_ccitt crc b :
  is_u16 crc -> 0 <= b < 256 -> crc_byte crc b = ccitt_byte crc b /\ is_u16 (crc_byte crc b).
Proof.
  intros Hc Hb. unfold crc_byte, ccitt_byte.
  assert (wrap16 (Z.shiftl b 8) = Z.shiftl b 8) as ->.
  { apply Z.mod_small. rewrite Z.shiftl_mul_pow2 by lia. lia. }
  set (x := Z.lxor crc (Z.shiftl b 8)). assert (is_u16 x) as Hx.
  { apply (lxor_range 16); [lia|done|]. rewrite Z.shiftl_mul_pow2 by lia. lia. }
  clearbody x. clear Hc Hb.
  assert (forall n, foldl (fun crc (_ : nat) => crc_bit crc) x (seq 0 n) = ccitt_bits n x /\
                    is_u16 (ccitt_bits n x)) as H.
  { induction n as [|n [IH Hr]]; [done|]. rewrite seq_S, foldl_snoc, IH. cbn [ccitt_bits].
    split; [by apply crc_bit_ccitt|apply ccitt_bit_range]. }
  destruct (H 8%nat) as [-> Hr]. done.
Qed.

(** The bit-by-bit checksum of the shared header is the table-driven one of
    [utils/crc.c]. *)
Theorem user_sync_crc_agrees data :
  bytes_ok data -> user_sync_crc16_ccitt data = crc16_ccitt data /\ is_u16 (user_sync_crc16_ccitt data).
Proof.
  intros Hd. unfold crc16_ccitt. assert (is_u16 65535) as Hc by (unfold is_u16; lia).
  rewrite (proj1 (crc16_ccitt_correct 65535 data Hc Hd)).
  unfold user_sync_crc16_ccitt, ccitt_update. revert Hc. generalize 65535 as crc.
  induction Hd as [|b data Hb _ IH]; intros crc Hc; [done|]. cbn [foldl].
  destruct (crc_byte_ccitt crc b Hc Hb) as [<- Hr]. by apply IH.
Qed.

(** ** Password hashes *)

Lemma string_bytes_inj a b : string_bytes a = string_bytes b -> a = b.
Proof.
  revert b. induction a as [|x a IH]; intros [|y b] Hab; try done. unfold string_bytes in Hab. cbn in Hab.
  injection Hab as Hx Hl. f_equal; [|by apply IH].
  apply N2Z.inj in Hx. by rewrite <- (Ascii.ascii_N_embedding x), Hx, Ascii.ascii_N_embedding.
Qed.

Lemma lor_fold_zero (f : nat -> Z) init l :
  0 <= init -> (forall i, 0 <= f i) ->
  foldl (fun result i => Z.lor result (f i)) init l = 0 <-> init = 0 /\ Forall (fun i => f i = 0) l.
Proof.
  intros Hi Hf. revert init Hi. induction l as [|i l IH]; intros init Hi; cbn [foldl].
  { split; [done|]. by intros [H _]. }
  rewrite IH by (apply Z.lor_nonneg; auto). rewrite Forall_cons, Z.lor_eq_0_iff. tauto.
Qed.

(** The constant-time comparison decides equality. *)
Lemma secure_strcmp_spec a b : secure_strcmp a b = true <-> a = b.
Proof.
  unfold secure_strcmp. rewrite Z.eqb_eq.
  assert (forall s i, 0 <= nth i (string_bytes s) 0) as Hpos.
  { intros s i. apply (Forall_nth_default (fun b => 0 <= b)); [|lia].
    eapply Forall_impl; [apply string_bytes_range|]. unfold is_u8. cbn. lia. }
  rewrite lor_fold_zero; [|by destruct (_ =? _)%nat|intros i; apply Z.lxor_nonneg; by split].
  split.
  - intros [Hlen Hall]. destruct (Nat.eqb_spec (length (string_bytes a)) (length (string_bytes b))) as [El|]; [|done].
    apply string_bytes_inj. apply (nth_ext _ _ 0 0 El). intros i Hi.
    rewrite Forall_forall in Hall. apply Z.lxor_eq, Hall. apply elem_of_seq. lia.
  - intros ->. rewrite Nat.eqb_refl. split; [done|]. apply Forall_forall. intros i _. apply Z.lxor_nilpotent.
Qed.

Lemma djb2_step_range h c : is_u32 (djb2_step h c).
Proof. apply wrap32_range. Qed.

(** The hand-written formatting of the shared header and the [snprintf] of the two
    users of it give the same text. *)
Lemma fmt_hex_digits v :
  is_u32 v -> fmt_hex 8 v "" = hex8 v.
Proof.
  intros Hv. unfold hex8. cbn [seq fmap list_fmap String.string_of_list_ascii fmt_hex].
  assert (forall i, (i < 8)%nat -> Z.land (Z.shiftr v (28 - Z.of_nat i * 4)) 15 = (v / 16 ^ (7 - Z.of_nat i)) mod 16) as E.
  { intros i Hi. change 15 with (Z.ones 4). rewrite Z.land_ones, Z.shiftr_div_pow2 by lia.
    change 16 with (2 ^ 4). rewrite <- Z.pow_mul_r by lia. do 3 f_equal. lia. }
  rewrite !E by lia. cbn [Z.of_nat Z.sub Z.add Z.opp Z.pos_sub Pos.of_succ_nat Pos.succ].
  rewrite !Z.div_div by lia. cbn [Z.mul Pos.mul]. rewrite Z.pow_0_r, Z.div_1_r. reflexivity.
Qed.

Theorem format_hash_agrees password :
  user_sync_format_hash password = format_password_hash password.
Proof.
  unfold user_sync_format_hash, format_password_hash, user_sync_hash_with_salt.
  set (s := user_sync_djb2 USER_SYNC_SALT). set (h := foldl djb2_step s (string_bytes password)).
  assert (is_u32 s) as Hs by (vm_compute; done).
  assert (is_u32 h) as Hh.
  { unfold h. generalize (string_bytes password). intros l.
    assert (forall x, is_u32 x -> is_u32 (foldl djb2_step x l)) as G; [|by apply G].
    induction l as [|c l IH]; intros x Hx; [done|]. apply IH, djb2_step_range. }
  rewrite !fmt_hex_digits by done. symmetry. apply strncpy_fits. vm_compute. lia.
Qed.

(** ** Packing and unpacking *)

Definition no_nul (s : string) : Prop := Forall (fun b => b <> 0) (string_bytes s).

Lemma char_array_length n s : (0 < n)%nat -> length (char_array n s) = n.
Proof.
  intros Hn. unfold char_array. rewrite length_app, length_replicate.
  pose proof (length_take_le (string_bytes s) (n - 1)). rewrite !length_take. lia.
Qed.

Lemma char_array_cstring n s rest :
  (String.length s < n)%nat -> no_nul s -> cstring (char_array n s ++ rest) = s.
Proof.
  intros Hn Hs. unfold char_array.
  rewrite take_ge by (rewrite length_string_bytes; lia). rewrite length_string_bytes.
  destruct (n - String.length s)%nat eqn:E; [lia|]. cbn [replicate]. rewrite <- app_assoc.
  by apply cstring_string_bytes.
Qed.

(** An account that fits the wire format. *)
Definition user_ok (u : user) : Prop :=
  - 2 ^ 31 <= u_user_id u < 2 ^ 31 /\ (String.length (u_username u) < USER_SYNC_USERNAME_LEN)%nat /\
  no_nul (u_username u) /\ (String.length (u_password_hash u) < USER_SYNC_HASH_LEN)%nat /\
  no_nul (u_password_hash u) /\ is_u8 (u_role u).

(** What the wire carries of an account. *)
Definition carried (u : user) : user :=
  mk_user (u_user_id u) (u_username u) (u_password_hash u) (u_role u) 0 0 (u_active u).

Lemma user_record_ok u : record_ok (user_record u).
Proof.
  split_and!; cbn [user_record ur_user_id ur_username ur_password_hash ur_reserved].
  - apply wrap32_range.
  - apply char_array_length. cbv. lia.
  - apply char_array_length. cbv. lia.
  - done.
Qed.

Lemma record_user_roundtrip u : user_ok u -> record_user (user_record u) = carried u.
Proof.
  intros (H1 & H2 & H3 & H4 & H5 & H6). unfold record_user, carried, user_record.
  cbn [ur_user_id ur_username ur_password_hash ur_role ur_flags].
  rewrite <- (app_nil_r (char_array USER_SYNC_USERNAME_LEN _)), <- (app_nil_r (char_array USER_SYNC_HASH_LEN _)).
  rewrite !char_array_cstring by done. change USER_SYNC_USERNAME_LEN with 32%nat in *.
  change USER_SYNC_HASH_LEN with 24%nat in *. f_equal.
  - unfold to_i32, wrap32. destruct (Z.ltb_spec (u_user_id u mod 2 ^ 32) (2 ^ 31)) as [Hlt|Hge];
      Z.div_mod_to_equations; lia.
  - apply strncpy_fits. change WTC_MAX_USERNAME with 64%nat. lia.
  - apply strncpy_fits. lia.
  - by apply Z.mod_small.
  - by destruct (u_active u).
Qed.

Lemma records_bytes_ok l : Forall record_ok l -> Forall (fun r => is_bytes (record_bytes r)) l ->
  bytes_ok (records_bytes l).
Proof.
  intros _ H. unfold records_bytes. induction H as [|r l Hr _ IH]; [constructor|].
  rewrite fmap_cons. cbn [concat]. apply Forall_app. split; [exact Hr|exact IH].
Qed.

Lemma char_array_bytes n s : is_bytes (char_array n s).
Proof.
  unfold char_array. apply Forall_app. split.
  - apply Forall_take, string_bytes_range.
  - apply Forall_replicate. unfold is_u8. lia.
Qed.

Lemma le32_bytes v : is_bytes (le32 v).
Proof. apply Forall_rev, be32_bytes. Qed.

Lemma user_record_bytes u : is_bytes (record_bytes (user_record u)).
Proof.
  unfold record_bytes. cbn [user_record ur_user_id ur_username ur_password_hash ur_role ur_flags ur_reserved].
  apply Forall_app. split; [apply le32_bytes|]. apply Forall_app. split; [apply char_array_bytes|].
  apply Forall_app. split; [apply char_array_bytes|].
  repeat (apply Forall_cons; split); try apply wrap8_range; try (by destruct (u_active u); vm_compute).
Qed.

Lemma serialized_crc users :
  is_u16 (user_sync_crc16 (records_bytes (user_record <$> users))).
Proof.
  apply user_sync_crc_agrees. apply records_bytes_ok; apply Forall_fmap, Forall_true; intros u.
  - apply user_record_ok.
  - apply user_record_bytes.
Qed.

Lemma serialized_records users :
  let p := user_sync_serialize 0 0 users in
  take (length (take USER_SYNC_MAX_USERS users)) (up_users p) = user_record <$> take USER_SYNC_MAX_USERS users.
Proof. cbn zeta. unfold user_sync_serialize. cbn [up_users]. apply take_app_length'. by rewrite length_fmap. Qed.

(** The controller's packing is undone by its unpacking: any list of accounts that fit
    the format comes back, the first 16 or [max] of them, with name, hash, role, id and
    active flag; only the two time stamps are not carried. *)
Theorem user_sync_pack_unpack now now' users max :
  Forall user_ok users -> 0 < max ->
  user_sync_deserialize (user_sync_serialize now now' users) max
  = (WTC_USER_SYNC_OK, carried <$> take (Nat.min USER_SYNC_MAX_USERS (Z.to_nat max)) users).
Proof.
  intros Hok Hmax. unfold user_sync_deserialize.
  destruct (Z.leb_spec max 0); [lia|]. cbv zeta.
  pose proof (serialized_records users) as Htake. unfold user_sync_serialize in *. cbn [up_users up_header uh_user_count uh_checksum] in *.
  set (us := take USER_SYNC_MAX_USERS users) in *.
  assert (length us <= USER_SYNC_MAX_USERS)%nat as Hlen by (unfold us; rewrite length_take; lia).
  unfold user_sync_validate_header. cbn [uh_magic uh_version uh_operation uh_user_count].
  rewrite !Z.eqb_refl. change (USER_SYNC_OP_DELETE <? USER_SYNC_OP_FULL_SYNC) with false. cbn [negb].
  destruct (Z.ltb_spec (Z.of_nat USER_SYNC_MAX_USERS) (Z.of_nat (length us))); [lia|].
  rewrite Nat2Z.id, Htake, Z.eqb_refl. cbn [negb]. f_equal.
  assert (Z.to_nat (Z.min (Z.min (Z.of_nat (length us)) max) (Z.of_nat USER_SYNC_MAX_USERS))
          = Nat.min (length us) (Z.to_nat max)) as -> by lia.
  rewrite take_app_le by (rewrite length_fmap; lia).
  rewrite <- fmap_take, <- list_fmap_compose.
  assert (take (length us `min` Z.to_nat max) us = take (USER_SYNC_MAX_USERS `min` Z.to_nat max) users) as ->.
  { unfold us. rewrite take_take. rewrite length_take.
    destruct (Nat.le_gt_cases (length users) (USER_SYNC_MAX_USERS `min` Z.to_nat max)).
    - rewrite !take_ge by lia. done.
    - f_equal. lia. }
  apply list_fmap_ext. intros i u Hu. cbn. apply record_user_roundtrip.
  rewrite Forall_forall in Hok. apply Hok. eapply subseteq_take, list_elem_of_lookup_2, Hu.
Qed.

(** ** The manager *)

Section Accounting.
Context {P : Type} `{RecordLink P}.

(** The counters moved on by [k] attempts of which [s] succeeded. *)
Definition counted (k s : Z) (m m' : user_sync_manager) : Prop :=
  let a := um_stats m in let b := um_stats m' in
  st_total_syncs b = wrap32 (st_total_syncs a + k) /\
  st_successful_syncs b = wrap32 (st_successful_syncs a + s) /\
  st_failed_syncs b = wrap32 (st_failed_syncs a + (k - s)) /\
  um_profinet m' = um_profinet m.

Lemma counted_trans k s k' s' a b c :
  counted k s a b -> counted k' s' b c -> counted (k + k') (s + s') a c.
Proof.
  intros (H1 & H2 & H3 & H4) (G1 & G2 & G3 & G4). unfold counted. cbv zeta in *.
  rewrite G1, G2, G3, G4, H1, H2, H3, H4. unfold wrap32.
  rewrite !Zplus_mod_idemp_l. split_and!; [f_equal; lia..|done].
Qed.

Definition counters_ok (m : user_sync_manager) : Prop :=
  is_u32 (st_total_syncs (um_stats m)) /\ is_u32 (st_successful_syncs (um_stats m)) /\
  is_u32 (st_failed_syncs (um_stats m)).

Lemma counted_refl m : counters_ok m -> counted 0 0 m m.
Proof.
  intros (H1 & H2 & H3). unfold counted, wrap32. cbv zeta. rewrite !Z.add_0_r.
  by rewrite !Z.mod_small.
Qed.

Lemma sync_to_rtu_counted clk m (net : P) station users :
  um_profinet m = true -> counters_ok m ->
  let '(result, m', net') := user_sync_to_rtu clk m net station users in
  counted 1 (if bool_decide (result = WTC_USER_SYNC_OK) then 1 else 0) m m' /\ counters_ok m'.
Proof.
  intros Hp (H1 & H2 & H3). unfold user_sync_to_rtu. rewrite Hp. cbn [negb].
  destruct (write_record _ _ _ _ _ _ _) as [net' res].
  destruct res; cbn [um_callback set]; destruct (um_callback m) eqn:Hc; cbn;
    unfold counted, counters_ok; cbn; rewrite ?Z.add_0_r; unfold wrap32;
    rewrite ?(Z.mod_small (st_successful_syncs _)), ?(Z.mod_small (st_failed_syncs _)) by done;
    (split; [split_and!; done|split_and!; try done; apply Z.mod_pos_bound; lia]).
Qed.

Definition running (devs : list rtu_device) : Z :=
  Z.of_nat (length (filter (fun d => dev_connection_state d = PROFINET_STATE_RUNNING) devs)).

Lemma sync_devices_counted clk users n0 devs k (m : user_sync_manager) (net : P) :
  um_profinet m = true -> counters_ok m ->
  let '(s, m', net') := foldl (sync_device clk users) (k, m, net) (imap (fun i d => ((n0 + i)%nat, d)) devs) in
  counted (running devs) (s - k) m m' /\ counters_ok m' /\ 0 <= s - k <= running devs.
Proof.
  revert n0 k m net. induction devs as [|d devs IH]; intros n0 k m net Hp Hok.
  { cbn. rewrite Z.sub_diag. split_and!; [by apply counted_refl|apply Hok..|done|done]. }
  rewrite imap_cons. cbn [foldl sync_device]. unfold running. rewrite filter_cons.
  assert (imap ((fun i d => ((n0 + i)%nat, d)) ∘ S) devs = imap (fun i d => ((S n0 + i)%nat, d)) devs) as ->.
  { apply imap_ext. intros i x _. cbn. f_equal. lia. }
  destruct (decide (dev_connection_state d = PROFINET_STATE_RUNNING)) as [Hr|Hr].
  - rewrite bool_decide_eq_true_2 by done.
    pose proof (sync_to_rtu_counted (clk (n0 + 0)%nat) m net (dev_station_name d) users Hp Hok) as Hc.
    destruct (user_sync_to_rtu _ _ _ _ _) as [[res m1] net1]. destruct Hc as [Hc Hok1].
    assert (um_profinet m1 = true) as Hp1 by (destruct Hc as (_ & _ & _ & ->); done).
    set (k1 := if bool_decide (res = WTC_USER_SYNC_OK) then k + 1 else k).
    specialize (IH (S n0) k1 m1 net1 Hp1 Hok1).
    destruct (foldl _ _ _) as [[s m'] net']. destruct IH as (I1 & I2 & I3).
    pose proof (counted_trans _ _ _ _ _ _ _ Hc I1) as Ht. unfold running in *. cbn [length].
    split_and!; [|apply I2..| |]; [|destruct (bool_decide _); subst k1; lia..].
    replace (Z.of_nat (S _)) with (1 + Z.of_nat (length (filter (λ d0, dev_connection_state d0 = PROFINET_STATE_RUNNING) devs))) by lia.
    destruct (bool_decide (res = WTC_USER_SYNC_OK)); subst k1.
    + by replace (1 + (s - (k + 1))) with (s - k) in Ht by lia.
    + by replace (0 + (s - k)) with (s - k) in Ht by lia.
  - rewrite bool_decide_eq_false_2 by done. apply (IH (S n0) k m net Hp Hok).
Qed.

(** Synchronising all RTUs attempts exactly the running ones: the three counters move
    on by the attempts, the successes returned, and the rest as failures. *)
Theorem user_sync_all_accounting clk alloc_ok m (net : P) r users devs :
  um_profinet m = true -> um_registry m = true -> counters_ok m ->
  rtu_registry_list_devices alloc_ok r (Z.of_nat WTC_MAX_RTUS) = (WTC_OK, Some devs) ->
  let '(s, m', net') := user_sync_to_all_rtus clk alloc_ok m net r users in
  counted (running devs) s m m' /\ 0 <= s <= running devs.
Proof.
  intros Hp Hreg Hok Hdevs. unfold user_sync_to_all_rtus. rewrite Hreg, Hdevs. cbn [negb].
  pose proof (sync_devices_counted clk users 0 devs 0 m net Hp Hok) as Hc. cbn [Nat.add] in Hc.
  destruct (foldl _ _ _) as [[s m'] net']. rewrite Z.sub_0_r in Hc. destruct Hc as (H1 & _ & H2). done.
Qed.
End Accounting.
