(* ===== verification/UserStore.v ===== *)
(** * The user store of the RTU

    Model of [shared/rtu/user_store.c], [user_store_nv_ram.c] and
    [profinet_user_handler.c]: the RTU receives the accounts packed by UserSync.v,
    keeps them in RAM and non-volatile memory, and authenticates local logins.

    The non-volatile memory is the interface [NvOps] (the function table
    [user_store_nv_ops_t]); the RAM backend is an instance.  The static [g_store] and
    [g_handler] are passed as state.  A stored hash that fills its field is read on
    into the bytes behind it, as [strlen] does, up to the end of the user array. *)

From Stdlib Require Import Sorted.
From S2P Require Import Prelude Float32 Types Registry Crc Wire UserSync.

Definition NV_MAGIC : Z := 1431523923. (* 0x55535253 *)
Definition NV_VERSION : Z := 1.
Definition NV_HEADER_SIZE : Z := 16.
Definition NV_USER_OFFSET : Z := NV_HEADER_SIZE.

(** [user_store_nv_ops_t]: [read(offset, data, len)] and [write(offset, data, len)];
    [None] and [false] are the error return. *)
Class NvOps (N : Type) := {
  nv_read : N -> Z -> Z -> N * option (list Z);
  nv_write : N -> Z -> list Z -> N * bool;
  nv_flush : N -> N }.

(** [user_store_config_t]; which functions of the table are set. *)
Record user_store_config := mk_user_store_config {
  sc_has_read : bool;
  sc_has_write : bool;
  sc_has_flush : bool;
  sc_enable_replay_protection : bool;
  sc_max_sync_age_sec : Z }.
Definition null_config : user_store_config := mk_user_store_config false false false false 0.

(** [user_store_state_t]; [us_users] is the whole array. *)
Record user_store := mk_user_store {
  us_initialized : bool;
  us_config : user_store_config;
  us_users : list user_sync_record;
  us_user_count : Z;
  us_last_nonce : Z;
  us_last_sync_time : Z;
  us_sync_count : Z;
  us_auth_attempts : Z;
  us_auth_successes : Z;
  us_auth_failures : Z }.
#[export] Instance eta_user_store : Eta user_store := fun r =>
  mk_user_store (us_initialized r) (us_config r) (us_users r) (us_user_count r) (us_last_nonce r)
    (us_last_sync_time r) (us_sync_count r) (us_auth_attempts r) (us_auth_successes r)
    (us_auth_failures r).

Definition zero_users : list user_sync_record := replicate USER_SYNC_MAX_USERS zero_record.
Definition zero_store : user_store := mk_user_store false null_config zero_users 0 0 0 0 0 0 0.

(** [nv_header_t] *)
Record nv_header := mk_nv_header {
  nh_magic : Z;
  nh_version : Z;
  nh_user_count : Z;
  nh_reserved : Z;
  nh_last_nonce : Z;
  nh_last_sync : Z }.
Definition nv_header_bytes (h : nv_header) : list Z :=
  le32 (nh_magic h) ++ [nh_version h; nh_user_count h] ++ le16 (nh_reserved h) ++
  le32 (nh_last_nonce h) ++ le32 (nh_last_sync h).
Definition nv_header_at (l : list Z) : nv_header :=
  mk_nv_header (of_le (take 4 l)) (nth 4 l 0) (nth 5 l 0) (of_le (take 2 (drop 6 l)))
    (of_le (take 4 (drop 8 l))) (of_le (take 4 (drop 12 l))).

(** ** Lookup *)

(** [strncmp(a, b, n) == 0] *)
Fixpoint strncmp_eq (n : nat) (a b : list Z) : bool :=
  match n with
  | O => true
  | S n' =>
      let x := nth 0 a 0 in
      let y := nth 0 b 0 in
      if negb (x =? y) then false else if x =? 0 then true else strncmp_eq n' (tail a) (tail b)
  end.

(** [find_user]: the index of the first account with the name. *)
Fixpoint find_user_from (i : nat) (name : list Z) (users : list user_sync_record) : option nat :=
  match users with
  | [] => None
  | u :: rest =>
      if strncmp_eq USER_SYNC_USERNAME_LEN (ur_username u) name then Some i
      else find_user_from (S i) name rest
  end.
Definition find_user (s : user_store) (username : string) : option nat :=
  find_user_from 0 (string_bytes username ++ [0]) (take (Z.to_nat (us_user_count s)) (us_users s)).

Definition get_user (s : user_store) (i : nat) : user_sync_record := nth i (us_users s) zero_record.
Definition is_active_record (u : user_sync_record) : bool := negb (Z.land (ur_flags u) USER_FLAG_ACTIVE =? 0).

(** The text [strlen] and the comparison see at [users[i].password_hash]. *)
Definition stored_hash (s : user_store) (i : nat) : string :=
  let u := get_user s i in
  cstring (ur_password_hash u ++ [ur_role u; ur_flags u] ++ ur_reserved u ++
           records_bytes (drop (S i) (us_users s))).

Section Store.
Context {N : Type} `{NvOps N}.

(** ** Non-volatile memory *)

(** [load_from_nv] *)
Definition load_from_nv (s : user_store) (nv : N) : user_sync_result * user_store * N :=
  if negb (sc_has_read (us_config s)) then (USER_SYNC_OK, s, nv)
  else
    match nv_read nv 0 NV_HEADER_SIZE with
    | (nv, None) => (USER_SYNC_OK, s, nv)
    | (nv, Some hb) =>
        let h := nv_header_at hb in
        if negb (nh_magic h =? NV_MAGIC) || negb (nh_version h =? NV_VERSION) then (USER_SYNC_OK, s, nv)
        else
          let count := Z.min (nh_user_count h) (Z.of_nat USER_SYNC_MAX_USERS) in
          let finish s := s <| us_user_count := count |> <| us_last_nonce := nh_last_nonce h |>
                            <| us_last_sync_time := nh_last_sync h |> in
          if 0 <? count then
            match nv_read nv NV_USER_OFFSET (count * Z.of_nat RECORD_SIZE) with
            | (nv, None) => (USER_SYNC_ERR_STORAGE_WRITE, s, nv)
            | (nv, Some data) =>
                let n := Z.to_nat count in
                (USER_SYNC_OK, finish (s <| us_users := records_at n data ++ drop n (us_users s) |>), nv)
            end
          else (USER_SYNC_OK, finish s, nv)
    end.

(** [save_to_nv] *)
Definition save_to_nv (s : user_store) (nv : N) : user_sync_result * N :=
  if negb (sc_has_write (us_config s)) then (USER_SYNC_OK, nv)
  else
    let header := mk_nv_header NV_MAGIC NV_VERSION (us_user_count s) 0 (us_last_nonce s)
                    (us_last_sync_time s) in
    match nv_write nv 0 (nv_header_bytes header) with
    | (nv, false) => (USER_SYNC_ERR_STORAGE_WRITE, nv)
    | (nv, true) =>
        let '(nv, ok) :=
          if 0 <? us_user_count s then
            nv_write nv NV_USER_OFFSET (records_bytes (take (Z.to_nat (us_user_count s)) (us_users s)))
          else (nv, true) in
        if ok then (USER_SYNC_OK, if sc_has_flush (us_config s) then nv_flush nv else nv)
        else (USER_SYNC_ERR_STORAGE_WRITE, nv)
    end.

(** ** Public interface *)

(** [user_store_init] *)
Definition user_store_init (config : option user_store_config) (nv : N)
    : user_sync_result * user_store * N :=
  let s := zero_store <| us_config := default null_config config |> in
  let '(res, s, nv) := load_from_nv s nv in
  if bool_decide (res = USER_SYNC_OK) then (USER_SYNC_OK, s <| us_initialized := true |>, nv)
  else (res, s, nv).

(** [user_store_shutdown] *)
Definition user_store_shutdown (s : user_store) (nv : N) : user_store * N :=
  (zero_store, if us_initialized s then snd (save_to_nv s nv) else nv).

(** [user_store_receive_sync] on the bytes of the record. *)
Definition user_store_receive_sync (s : user_store) (nv : N) (payload : list Z)
    : user_sync_result * user_store * N :=
  let len := Z.of_nat (length payload) in
  if negb (us_initialized s) then (USER_SYNC_ERR_INVALID_PARAM, s, nv)
  else if len <? Z.of_nat HEADER_SIZE then (USER_SYNC_ERR_INVALID_PARAM, s, nv)
  else
    let h := header_at payload in
    if negb (uh_version h =? USER_SYNC_PROTOCOL_VERSION) then (USER_SYNC_ERR_VERSION_MISMATCH, s, nv)
    else if Z.of_nat USER_SYNC_MAX_USERS <? uh_user_count h then (USER_SYNC_ERR_INVALID_PARAM, s, nv)
    else if len <? user_sync_payload_size (uh_user_count h) then (USER_SYNC_ERR_INVALID_PARAM, s, nv)
    else
      let n := Z.to_nat (uh_user_count h) in
      let data := take (n * RECORD_SIZE) (drop HEADER_SIZE payload) in
      if negb (user_sync_crc16_ccitt data =? uh_checksum h) then (USER_SYNC_ERR_CHECKSUM, s, nv)
      else if sc_enable_replay_protection (us_config s) && (uh_nonce h <=? us_last_nonce s)
      then (USER_SYNC_ERR_REPLAY, s, nv)
      else
        let s := s <| us_users := records_at n data ++ drop n (us_users s) |>
                   <| us_user_count := uh_user_count h |>
                   <| us_last_nonce := uh_nonce h |>
                   <| us_last_sync_time := uh_timestamp h |>
                   <| us_sync_count ::= fun c => wrap32 (c + 1) |> in
        let '(res, nv) := save_to_nv s nv in
        (res, s, nv).

(** [user_store_clear] *)
Definition user_store_clear (s : user_store) (nv : N) : user_sync_result * user_store * N :=
  if negb (us_initialized s) then (USER_SYNC_ERR_INVALID_PARAM, s, nv)
  else
    let s := s <| us_users := zero_users |> <| us_user_count := 0 |> in
    let '(res, nv) := save_to_nv s nv in
    (res, s, nv).

End Store.

Definition auth_failed (s : user_store) : user_store :=
  s <| us_auth_failures ::= fun c => wrap32 (c + 1) |>.

(** [user_store_authenticate]: the result, the role on success, the state. *)
Definition user_store_authenticate (s : user_store) (username password : string)
    : user_sync_result * option Z * user_store :=
  if negb (us_initialized s) then (USER_SYNC_ERR_INVALID_PARAM, None, s)
  else
    let s := s <| us_auth_attempts ::= fun c => wrap32 (c + 1) |> in
    match find_user s username with
    | None => (USER_SYNC_ERR_USER_NOT_FOUND, None, auth_failed s)
    | Some idx =>
        if negb (is_active_record (get_user s idx)) then (USER_SYNC_ERR_INACTIVE, None, auth_failed s)
        else if negb (secure_strcmp (format_password_hash password) (stored_hash s idx))
        then (USER_SYNC_ERR_AUTH_FAILED, None, auth_failed s)
        else (USER_SYNC_OK, Some (ur_role (get_user s idx)),
              s <| us_auth_successes ::= fun c => wrap32 (c + 1) |>)
    end.

(** [user_store_check_access] *)
Definition user_store_check_access (s : user_store) (username : string) (required_role : Z) : bool :=
  us_initialized s &&
  match find_user s username with
  | None => false
  | Some idx => is_active_record (get_user s idx) &&
                user_sync_role_sufficient (ur_role (get_user s idx)) required_role
  end.

Definition user_store_count (s : user_store) : Z := if us_initialized s then us_user_count s else 0.
Definition user_store_exists (s : user_store) (username : string) : bool :=
  us_initialized s && bool_decide (is_Some (find_user s username)).

(** [user_store_get_role], [user_store_is_active] *)
Definition user_store_get_role (s : user_store) (username : string) : user_sync_result * option Z :=
  if negb (us_initialized s) then (USER_SYNC_ERR_INVALID_PARAM, None)
  else match find_user s username with
       | None => (USER_SYNC_ERR_USER_NOT_FOUND, None)
       | Some idx => (USER_SYNC_OK, Some (ur_role (get_user s idx)))
       end.
Definition user_store_is_active (s : user_store) (username : string) : bool :=
  us_initialized s &&
  match find_user s username with None => false | Some idx => is_active_record (get_user s idx) end.

(** [user_store_stats_t], [user_store_get_stats] *)
Record user_store_stats := mk_user_store_stats {
  ust_user_count : Z;
  ust_active_count : Z;
  ust_sync_count : Z;
  ust_last_sync_time : Z;
  ust_last_sync_nonce : Z;
  ust_auth_attempts : Z;
  ust_auth_successes : Z;
  ust_auth_failures : Z }.

Definition user_store_get_stats (s : user_store) : user_store_stats :=
  if negb (us_initialized s) then mk_user_store_stats 0 0 0 0 0 0 0 0
  else
    mk_user_store_stats (us_user_count s)
      (wrap8 (Z.of_nat (length (filter (fun u => is_active_record u = true)
                                  (take (Z.to_nat (us_user_count s)) (us_users s))))))
      (us_sync_count s) (us_last_sync_time s) (us_last_nonce s)
      (us_auth_attempts s) (us_auth_successes s) (us_auth_failures s).

(** [user_store_reset_auth_stats] *)
Definition user_store_reset_auth_stats (s : user_store) : user_store :=
  s <| us_auth_attempts := 0 |> <| us_auth_successes := 0 |> <| us_auth_failures := 0 |>.

(** ** The RAM backend: [user_store_nv_ram.c] *)

Definition RAM_STORAGE_SIZE : Z := 2048.

Record ram_nv := mk_ram_nv {
  g_ram_storage : list Z;
  g_ram_used : Z }.

Definition ram_read (nv : ram_nv) (offset len : Z) : ram_nv * option (list Z) :=
  if RAM_STORAGE_SIZE <? offset + len then (nv, None)
  else (mk_ram_nv (g_ram_storage nv) (Z.max (g_ram_used nv) (offset + len)),
        Some (take (Z.to_nat len) (drop (Z.to_nat offset) (g_ram_storage nv)))).

Definition ram_write (nv : ram_nv) (offset : Z) (data : list Z) : ram_nv * bool :=
  let len := Z.of_nat (length data) in
  if RAM_STORAGE_SIZE <? offset + len then (nv, false)
  else
    let o := Z.to_nat offset in
    (mk_ram_nv (take o (g_ram_storage nv) ++ data ++ drop (o + length data) (g_ram_storage nv))
       (Z.max (g_ram_used nv) (offset + len)), true).

#[export] Instance ram_ops : NvOps ram_nv := {|
  nv_read := ram_read;
  nv_write := ram_write;
  nv_flush nv := nv |}.

Definition user_store_nv_ram_reset : ram_nv := mk_ram_nv (replicate (Z.to_nat RAM_STORAGE_SIZE) 0) 0.
Definition user_store_nv_ram_usage (nv : ram_nv) : Z := g_ram_used nv.

(** ** The record handler: [profinet_user_handler.c] *)

(** [profinet_user_handler_stats_t] and the handler's state *)
Record user_handler := mk_user_handler {
  hd_initialized : bool;
  hd_write_requests : Z;
  hd_write_successes : Z;
  hd_write_failures : Z;
  hd_read_requests : Z;
  hd_last_error : user_sync_result }.
#[export] Instance eta_user_handler : Eta user_handler := fun r =>
  mk_user_handler (hd_initialized r) (hd_write_requests r) (hd_write_successes r)
    (hd_write_failures r) (hd_read_requests r) (hd_last_error r).

Definition profinet_user_handler_init (s : user_store) (g : user_handler) : Z * user_handler :=
  if us_initialized s then (0, mk_user_handler true 0 0 0 0 USER_SYNC_OK) else (-1, g).
Definition profinet_user_handler_shutdown (g : user_handler) : user_handler := g <| hd_initialized := false |>.

(** The PROFINET response for an error. *)
Definition handler_code (res : user_sync_result) : Z :=
  match res with
  | USER_SYNC_OK => 0
  | USER_SYNC_ERR_VERSION_MISMATCH => -2
  | USER_SYNC_ERR_REPLAY | USER_SYNC_ERR_STORAGE_FULL | USER_SYNC_ERR_STORAGE_WRITE => -3
  | _ => -1
  end.

(** [profinet_user_handler_write] *)
Definition profinet_user_handler_write {N} `{NvOps N} (g : user_handler) (s : user_store) (nv : N)
    (data : list Z) : Z * user_handler * user_store * N :=
  if negb (hd_initialized g) then (-3, g, s, nv)
  else if (length data =? 0)%nat then
    (-1, g <| hd_write_requests ::= fun c => wrap32 (c + 1) |>
           <| hd_write_failures ::= fun c => wrap32 (c + 1) |>
           <| hd_last_error := USER_SYNC_ERR_INVALID_PARAM |>, s, nv)
  else
    let g := g <| hd_write_requests ::= fun c => wrap32 (c + 1) |> in
    let '(res, s, nv) := user_store_receive_sync s nv data in
    if bool_decide (res = USER_SYNC_OK) then
      (0, g <| hd_write_successes ::= fun c => wrap32 (c + 1) |>, s, nv)
    else
      (handler_code res,
       g <| hd_write_failures ::= fun c => wrap32 (c + 1) |> <| hd_last_error := res |>, s, nv).

(** [profinet_user_handler_read]: the status record ([user_sync_status_t], 28 bytes). *)
Definition status_bytes (st : user_store_stats) : list Z :=
  [USER_SYNC_PROTOCOL_VERSION; ust_user_count st; ust_active_count st; 0] ++
  le32 (ust_last_sync_time st) ++ le32 (ust_last_sync_nonce st) ++ le32 (ust_sync_count st) ++
  le32 (ust_auth_attempts st) ++ le32 (ust_auth_successes st) ++ le32 (ust_auth_failures st).

Definition profinet_user_handler_read (g : user_handler) (s : user_store) (max_length : Z)
    : Z * option (list Z) * user_handler :=
  if negb (hd_initialized g) then (-3, None, g)
  else
    let g := g <| hd_read_requests ::= fun c => wrap32 (c + 1) |> in
    if max_length <? 28 then (-1, None, g)
    else (0, Some (status_bytes (user_store_get_stats s)), g).

Definition profinet_user_handler_reset_stats (g : user_handler) : user_handler :=
  mk_user_handler (hd_initialized g) 0 0 0 0 USER_SYNC_OK.

(** ** Looking up an account *)

Lemma strncmp_eq_cons n x a y b :
  strncmp_eq (S n) (x :: a) (y :: b) = (x =? y) && ((x =? 0) || strncmp_eq n a b).
Proof. cbn. by destruct (x =? y), (x =? 0). Qed.

(** A name kept in its zero-filled field matches exactly itself. *)
Lemma strncmp_eq_name n a b :
  (length a < n)%nat -> Forall (fun x => x <> 0) a -> Forall (fun x => x <> 0) b ->
  strncmp_eq n (a ++ replicate (n - length a) 0) (b ++ [0]) = bool_decide (a = b).
Proof.
  intros Hn Ha. revert n b Hn. induction Ha as [|x a Hx _ IH]; intros n b Hn Hb.
  - destruct n as [|n]; [cbn in Hn; lia|]. cbn [app length Nat.sub replicate].
    destruct Hb as [|y b Hy _]; [done|]. cbn [app]. rewrite strncmp_eq_cons.
    rewrite (proj2 (Z.eqb_neq 0 y)) by done. by rewrite bool_decide_eq_false_2.
  - destruct n as [|n]; [cbn in Hn; lia|]. cbn [length] in Hn. cbn [app length Nat.sub].
    destruct Hb as [|y b Hy Hb]; cbn [app]; rewrite strncmp_eq_cons, (proj2 (Z.eqb_neq x 0)) by done.
    { by rewrite bool_decide_eq_false_2. }
    cbn [orb]. rewrite (IH n b) by (lia || done).
    destruct (Z.eqb_spec x y) as [->|Hxy]; cbn [andb].
    + apply bool_decide_ext. split; congruence.
    + rewrite bool_decide_eq_false_2; congruence.
Qed.

Lemma user_record_matches u name :
  user_ok u -> no_nul name ->
  strncmp_eq USER_SYNC_USERNAME_LEN (ur_username (user_record u)) (string_bytes name ++ [0])
  = bool_decide (u_username u = name).
Proof.
  intros (_ & Hl & Hn & _) Hname. cbn [user_record ur_username]. unfold char_array.
  rewrite take_ge by (rewrite length_string_bytes; lia).
  rewrite strncmp_eq_name; [|by rewrite length_string_bytes|exact Hn|exact Hname].
  apply bool_decide_ext. split; [apply string_bytes_inj|congruence].
Qed.

(** [find_user] on packed accounts is the first account of the name. *)
Lemma find_user_from_records i name us :
  Forall user_ok us -> no_nul name ->
  find_user_from i (string_bytes name ++ [0]) (user_record <$> us)
  = (fun p => (i + p.1)%nat) <$> list_find (fun u => u_username u = name) us.
Proof.
  intros Hus Hname. revert i. induction Hus as [|u us Hu _ IH]; intros i; [done|].
  cbn [fmap list_fmap find_user_from list_find]. rewrite user_record_matches by done.
  destruct (decide (u_username u = name)) as [E|E].
  - rewrite bool_decide_eq_true_2 by done. cbn. f_equal. lia.
  - rewrite bool_decide_eq_false_2 by done. unfold fmap in IH. rewrite IH.
    destruct (list_find _ us) as [[k v]|]; [|done]. cbn. f_equal. lia.
Qed.

(** ** From the controller's accounts to a login on the RTU *)

(** The store after an accepted record. *)
Definition synced (s : user_store) (h : user_sync_header) (records : list user_sync_record) : user_store :=
  s <| us_users := records ++ drop (length records) (us_users s) |>
    <| us_user_count := Z.of_nat (length records) |>
    <| us_last_nonce := uh_nonce h |>
    <| us_last_sync_time := uh_timestamp h |>
    <| us_sync_count ::= fun c => wrap32 (c + 1) |>.

Lemma serialized_payload now now' users :
  (length users <= USER_SYNC_MAX_USERS)%nat ->
  let p := user_sync_serialize now now' users in
  let records := user_record <$> users in
  header_ok (up_header p) /\ uh_user_count (up_header p) = Z.of_nat (length users) /\
  uh_checksum (up_header p) = user_sync_crc16 (records_bytes records) /\
  payload_bytes p = header_bytes (up_header p) ++ records_bytes records.
Proof.
  intros Hl. cbv zeta. unfold user_sync_serialize. rewrite (take_ge users) by done.
  unfold payload_bytes. cbn [up_header up_users uh_user_count uh_checksum].
  split_and!; try done.
  - split_and!; cbn; try done; try apply wrap32_range. apply serialized_crc.
  - set (h := mk_user_sync_header _ _ _ _ _ _ _ _ _). unfold records_bytes. rewrite fmap_app.
    rewrite concat_app, app_assoc. apply take_app_length'.
    assert (Forall record_ok (user_record <$> users)) as Hr
      by (apply Forall_fmap, Forall_true; intros u; apply user_record_ok).
    rewrite length_app, length_header_bytes. pose proof (length_records_bytes _ Hr) as E.
    unfold records_bytes in E. rewrite E, length_fmap. unfold user_sync_payload_size.
    change HEADER_SIZE with 20%nat. change RECORD_SIZE with 64%nat. lia.
Qed.

Definition fresh (s : user_store) (nonce : Z) : Prop :=
  sc_enable_replay_protection (us_config s) = true -> us_last_nonce s < nonce.

Lemma receive_serialized {N} `{NvOps N} s (nv : N) now now' users :
  us_initialized s = true -> (length users <= USER_SYNC_MAX_USERS)%nat -> fresh s (wrap32 now') ->
  let p := user_sync_serialize now now' users in
  let s' := synced s (up_header p) (user_record <$> users) in
  user_store_receive_sync s nv (payload_bytes p)
  = let '(res, nv) := save_to_nv s' nv in (res, s', nv).
Proof.
  intros Hi Hl Hf p s'. destruct (serialized_payload now now' users Hl) as (Hok & Hc & Hk & Hb).
  fold p in Hok, Hc, Hk, Hb. set (records := user_record <$> users) in *.
  assert (Forall record_ok records) as Hr by (apply Forall_fmap, Forall_true; intros u; apply user_record_ok).
  pose proof (length_records_bytes _ Hr) as El.
  assert (length records = length users) as Elr by apply length_fmap.
  unfold user_store_receive_sync. rewrite Hi, Hb, header_at_bytes by done. cbn [negb].
  rewrite length_app, length_header_bytes, El, Hc, Hk, Elr, Nat2Z.id. unfold user_sync_payload_size.
  change (uh_version (up_header p)) with USER_SYNC_PROTOCOL_VERSION. rewrite Z.eqb_refl. cbn [negb].
  destruct (Z.ltb_spec (Z.of_nat (HEADER_SIZE + length users * RECORD_SIZE)) (Z.of_nat HEADER_SIZE)); [lia|].
  destruct (Z.ltb_spec (Z.of_nat USER_SYNC_MAX_USERS) (Z.of_nat (length users))); [lia|].
  match goal with |- context [if ?a <? ?b then _ else _] => destruct (Z.ltb_spec a b); [lia|] end.
  rewrite drop_app_length' by done. rewrite take_ge by lia.
  change (user_sync_crc16_ccitt (records_bytes records)) with (user_sync_crc16 (records_bytes records)).
  rewrite Z.eqb_refl. cbn [negb]. change (uh_nonce (up_header p)) with (wrap32 now').
  assert (sc_enable_replay_protection (us_config s) && (wrap32 now' <=? us_last_nonce s) = false) as ->.
  { destruct (sc_enable_replay_protection _) eqn:E; [|done]. specialize (Hf E). apply Z.leb_gt. lia. }
  rewrite <- Elr, <- (app_nil_r (records_bytes records)), records_at_bytes by done. reflexivity.
Qed.

(** What a login answers for a list of accounts. *)
Definition login (users : list user) (username password : string) : user_sync_result * option Z :=
  match list_find (fun u => u_username u = username) users with
  | None => (USER_SYNC_ERR_USER_NOT_FOUND, None)
  | Some (_, u) =>
      if negb (u_active u) then (USER_SYNC_ERR_INACTIVE, None)
      else if bool_decide (format_password_hash password = u_password_hash u)
      then (USER_SYNC_OK, Some (u_role u))
      else (USER_SYNC_ERR_AUTH_FAILED, None)
  end.

Lemma authenticate_synced s h users username password :
  us_initialized s = true -> Forall user_ok users -> no_nul username ->
  fst (user_store_authenticate (synced s h (user_record <$> users)) username password)
  = login users username password.
Proof.
  intros Hi Hus Hname. unfold user_store_authenticate.
  change (us_initialized (synced s h (user_record <$> users))) with (us_initialized s). rewrite Hi. cbn [negb].
  set (s1 := (synced s h (user_record <$> users)) <| us_auth_attempts ::= fun c => wrap32 (c + 1) |>). cbv zeta.
  assert (find_user s1 username = fst <$> list_find (fun u => u_username u = username) users) as Ef.
  { unfold find_user. cbn [s1 us_users us_user_count synced set]. rewrite Nat2Z.id, take_app_length.
    rewrite find_user_from_records by done. by destruct (list_find _ _) as [[? ?]|]. }
  rewrite Ef. unfold login. destruct (list_find _ users) as [[i u]|] eqn:El; [|done]. cbn [fmap option_fmap option_map fst].
  apply list_find_Some in El. destruct El as (Hu & _ & _).
  assert (us_users s1 !! i = Some (user_record u)) as Hr.
  { cbn [s1 us_users synced set]. apply lookup_app_l_Some. by rewrite list_lookup_fmap, Hu. }
  assert (get_user s1 i = user_record u) as Eg by (unfold get_user; by rewrite nth_lookup, Hr).
  assert (user_ok u) as Hok by (rewrite Forall_forall in Hus; eapply Hus, list_elem_of_lookup_2, Hu).
  assert (is_active_record (user_record u) = u_active u) as Ea.
  { unfold is_active_record, user_record. cbn [ur_flags]. by destruct (u_active u). }
  rewrite Eg, Ea. destruct (u_active u); [|done]. cbn [negb].
  assert (stored_hash s1 i = u_password_hash u) as ->.
  { unfold stored_hash. rewrite Eg. destruct Hok as (_ & _ & _ & H4 & H5 & _). by apply char_array_cstring. }
  case_bool_decide as E.
  - rewrite (proj2 (secure_strcmp_spec _ _) E). cbn [negb fst]. do 2 f_equal.
    apply Z.mod_small. apply Hok.
  - destruct (secure_strcmp _ _) eqn:E2; [|done]. by apply secure_strcmp_spec in E2.
Qed.

(** C15: End to end: when the RTU gets the record the controller packed, a login on the RTU
    answers exactly what the controller's list says - the role of the first account with
    that name when it is active and the password hashes to the stored hash, and the
    matching error otherwise - whatever the non-volatile memory does. *)
Theorem sync_then_authenticate {N} `{NvOps N} s (nv : N) now now' users username password :
  us_initialized s = true -> (length users <= USER_SYNC_MAX_USERS)%nat -> Forall user_ok users ->
  fresh s (wrap32 now') -> no_nul username ->
  let '(_, s', _) := user_store_receive_sync s nv (payload_bytes (user_sync_serialize now now' users)) in
  fst (user_store_authenticate s' username password) = login users username password.
Proof.
  intros Hi Hl Hus Hf Hname. rewrite receive_serialized by done. cbv zeta.
  destruct (save_to_nv _ _) as [res nv']. by apply authenticate_synced.
Qed.

(** ** Persistence *)

(** What the store relies on in a memory: [nv_size] bytes, enough for all accounts, of which
    a read within the size returns and a write within the size replaces a part. *)
Class NvLaws (N : Type) `{NvOps N} := {
  nv_mem : N -> list Z;
  nv_size : Z;
  nv_size_enough : NV_HEADER_SIZE + Z.of_nat (USER_SYNC_MAX_USERS * RECORD_SIZE) <= nv_size;
  nv_read_law nv offset len :
    length (nv_mem nv) = Z.to_nat nv_size -> 0 <= offset -> 0 <= len -> offset + len <= nv_size ->
    exists nv', nv_read nv offset len
                = (nv', Some (take (Z.to_nat len) (drop (Z.to_nat offset) (nv_mem nv)))) /\
      nv_mem nv' = nv_mem nv;
  nv_write_law nv offset data :
    length (nv_mem nv) = Z.to_nat nv_size -> 0 <= offset -> offset + Z.of_nat (length data) <= nv_size ->
    exists nv', nv_write nv offset data = (nv', true) /\
      nv_mem nv' = take (Z.to_nat offset) (nv_mem nv) ++ data ++
                   drop (Z.to_nat offset + length data) (nv_mem nv);
  nv_flush_law nv : nv_mem (nv_flush nv) = nv_mem nv }.

(** What a power cycle does to a memory, and the memories that keep their contents. *)
Class NvPower (N : Type) := { nv_power_cycle : N -> N }.
Class NvPersistent (N : Type) `{NvLaws N} `{NvPower N} := {
  nv_persistent nv : nv_mem (nv_power_cycle nv) = nv_mem nv }.

(** The RAM backend is such a memory while it has power; it loses its contents in a power
    cycle, as its header says. *)
#[export, refine] Instance ram_laws : NvLaws ram_nv := {| nv_mem := g_ram_storage; nv_size := RAM_STORAGE_SIZE |}.
Proof.
  - vm_compute. discriminate.
  - intros nv offset len _ _ _ Hle. cbn [nv_read ram_ops]. unfold ram_read.
    destruct (Z.ltb_spec RAM_STORAGE_SIZE (offset + len)); [lia|]. eexists. by split.
  - intros nv offset data _ _ Hle. cbn [nv_write ram_ops]. unfold ram_write.
    destruct (Z.ltb_spec RAM_STORAGE_SIZE (offset + Z.of_nat (length data))); [lia|]. eexists. by split.
  - done.
Defined.
#[export] Instance ram_power : NvPower ram_nv := {| nv_power_cycle _ := user_store_nv_ram_reset |}.

Definition store_ok (s : user_store) : Prop :=
  length (us_users s) = USER_SYNC_MAX_USERS /\ Forall record_ok (us_users s) /\
  0 <= us_user_count s <= Z.of_nat USER_SYNC_MAX_USERS /\
  is_u32 (us_last_nonce s) /\ is_u32 (us_last_sync_time s) /\
  us_auth_attempts s = wrap32 (us_auth_successes s + us_auth_failures s).

Definition live_users (s : user_store) : list user_sync_record :=
  take (Z.to_nat (us_user_count s)) (us_users s).
Definition store_header (s : user_store) : nv_header :=
  mk_nv_header NV_MAGIC NV_VERSION (us_user_count s) 0 (us_last_nonce s) (us_last_sync_time s).

(** The memory holds the accounts and the synchronisation marks of the store. *)
Definition store_image {N} `{NvLaws N} (s : user_store) (nv : N) : Prop :=
  length (nv_mem nv) = Z.to_nat nv_size /\
  exists rest, nv_mem nv = nv_header_bytes (store_header s) ++ records_bytes (live_users s) ++ rest.

Lemma store_ok_live s : store_ok s ->
  length (live_users s) = Z.to_nat (us_user_count s) /\ Forall record_ok (live_users s).
Proof.
  intros (H1 & H2 & H3 & _). unfold live_users. split; [|by apply Forall_take].
  rewrite length_take, H1. lia.
Qed.

Lemma length_live_bytes s : store_ok s ->
  length (records_bytes (live_users s)) = (Z.to_nat (us_user_count s) * 64)%nat.
Proof. intros Hok. destruct (store_ok_live s Hok) as [Hl Hr]. by rewrite length_records_bytes, Hl. Qed.

Lemma nv_header_roundtrip s rest :
  store_ok s -> nv_header_at (take 16 (nv_header_bytes (store_header s) ++ rest)) = store_header s.
Proof.
  intros (_ & _ & _ & Hn & Ht & _). rewrite take_app_length' by done.
  unfold nv_header_at, nv_header_bytes, store_header.
  cbn [nh_magic nh_version nh_user_count nh_reserved nh_last_nonce nh_last_sync]. f_equal; try done.
  - exact (le32_back _ Hn).
  - exact (le32_back _ Ht).
Qed.

Section Persistence.
Context {N : Type} `{NvLaws N}.
Implicit Types (nv : N).

Lemma save_image s nv :
  store_ok s -> sc_has_write (us_config s) = true -> length (nv_mem nv) = Z.to_nat nv_size ->
  exists nv', save_to_nv s nv = (USER_SYNC_OK, nv') /\ store_image s nv'.
Proof.
  intros Hok Hw Hlen. unfold save_to_nv. rewrite Hw. cbn [negb].
  fold (store_header s). fold (live_users s). pose proof nv_size_enough as Hsz.
  change (NV_HEADER_SIZE + Z.of_nat (USER_SYNC_MAX_USERS * RECORD_SIZE)) with 1040 in Hsz.
  destruct (nv_write_law nv 0 (nv_header_bytes (store_header s)) Hlen) as (nv1 & -> & Hm1);
    [lia|change (length (nv_header_bytes (store_header s))) with 16%nat; lia|].
  change (length (nv_header_bytes (store_header s))) with 16%nat in Hm1.
  change (Z.to_nat 0) with 0%nat in Hm1. rewrite take_0 in Hm1. cbn [app Nat.add] in Hm1.
  assert (length (nv_mem nv1) = Z.to_nat nv_size) as Hlen1.
  { rewrite Hm1, length_app, length_drop, Hlen. change (length (nv_header_bytes (store_header s))) with 16%nat. lia. }
  assert (forall nv', store_image s nv' -> exists nv'', (USER_SYNC_OK,
            if sc_has_flush (us_config s) then nv_flush nv' else nv') = (USER_SYNC_OK, nv'')
            /\ store_image s nv'') as Hfin.
  { intros nv' Hi. destruct (sc_has_flush _); [|by exists nv'].
    exists (nv_flush nv'). unfold store_image. by rewrite nv_flush_law. }
  pose proof (length_live_bytes s Hok) as Hlb. pose proof Hok as (_ & _ & Hc & _).
  change (Z.of_nat USER_SYNC_MAX_USERS) with 16 in Hc.
  destruct (Z.ltb_spec 0 (us_user_count s)) as [Hpos|Hz].
  - destruct (nv_write_law nv1 NV_USER_OFFSET (records_bytes (live_users s)) Hlen1) as (nv2 & -> & Hm2);
      [done|rewrite Hlb; change NV_USER_OFFSET with 16; lia|].
    apply Hfin. change (Z.to_nat NV_USER_OFFSET) with 16%nat in Hm2. split.
    + rewrite Hm2, !length_app, length_take, length_drop, Hlen1, Hlb. lia.
    + rewrite Hm2, Hm1. eexists. rewrite take_app_length' by done. reflexivity.
  - apply Hfin. split; [done|]. exists (drop 16 (nv_mem nv)). rewrite Hm1.
    assert (us_user_count s = 0) as E by lia. unfold live_users. by rewrite E.
Qed.

(** What a restart brings back. *)
Definition restored (s : user_store) : user_store :=
  mk_user_store true (us_config s) (live_users s ++ drop (length (live_users s)) zero_users)
    (us_user_count s) (us_last_nonce s) (us_last_sync_time s) 0 0 0 0.

Lemma init_from_image s nv :
  store_ok s -> sc_has_read (us_config s) = true -> store_image s nv ->
  exists nv', user_store_init (Some (us_config s)) nv = (USER_SYNC_OK, restored s, nv') /\ store_image s nv'.
Proof.
  intros Hok Hr [Hlen [rest Him]]. unfold user_store_init.
  change (default null_config (Some (us_config s))) with (us_config s). cbv zeta. unfold load_from_nv.
  set (s0 := zero_store <| us_config := us_config s |>).
  change (sc_has_read (us_config s0)) with (sc_has_read (us_config s)). rewrite Hr. cbn [negb].
  pose proof nv_size_enough as Hsz.
  change (NV_HEADER_SIZE + Z.of_nat (USER_SYNC_MAX_USERS * RECORD_SIZE)) with 1040 in Hsz.
  destruct (nv_read_law nv 0 NV_HEADER_SIZE Hlen) as (nv1 & -> & Hm1);
    [done|done|change NV_HEADER_SIZE with 16; lia|].
  change (Z.to_nat NV_HEADER_SIZE) with 16%nat. change (Z.to_nat 0) with 0%nat.
  rewrite drop_0, Him, nv_header_roundtrip by done.
  cbn [store_header nh_magic nh_version nh_user_count nh_last_nonce nh_last_sync].
  rewrite !Z.eqb_refl. cbn [negb orb].
  pose proof (length_live_bytes s Hok) as Hlb. destruct (store_ok_live s Hok) as [Hll Hlr].
  pose proof Hok as (_ & _ & Hc & _). change (Z.of_nat USER_SYNC_MAX_USERS) with 16 in *.
  rewrite Z.min_l by lia.
  assert (store_image s nv1) as Him1 by (unfold store_image; rewrite Hm1; split; [done|by exists rest]).
  destruct (Z.ltb_spec 0 (us_user_count s)) as [Hpos|Hz].
  - destruct (nv_read_law nv1 NV_USER_OFFSET (us_user_count s * Z.of_nat RECORD_SIZE)) as (nv2 & -> & Hm2);
      [by rewrite Hm1|done|change (Z.of_nat RECORD_SIZE) with 64; lia
      |change (Z.of_nat RECORD_SIZE) with 64; change NV_USER_OFFSET with 16; lia|].
    rewrite Hm1, Him. change (Z.of_nat RECORD_SIZE) with 64. change (Z.to_nat NV_USER_OFFSET) with 16%nat.
    rewrite drop_app_length' by done. rewrite take_app_length' by (rewrite Hlb; lia).
    assert (records_at (Z.to_nat (us_user_count s)) (records_bytes (live_users s)) = live_users s) as ->.
    { rewrite <- Hll, <- (app_nil_r (records_bytes _)). by apply records_at_bytes. }
    eexists. split; [unfold restored; rewrite Hll; reflexivity|]. unfold store_image. rewrite Hm2, Hm1.
    split; [done|by exists rest].
  - exists nv1. split; [|done]. unfold restored, live_users. assert (us_user_count s = 0) as -> by lia. reflexivity.
Qed.

(** Persistence: a store saved to a memory that keeps its contents - the save never fails
    there, 16 accounts fit - comes back from [user_store_init] after a power cycle with the
    same accounts, count, replay mark and time stamp; the statistics start again at zero. *)
Theorem user_store_survives_restart `{!NvPower N} `{!NvPersistent N} s nv :
  store_ok s -> sc_has_write (us_config s) = true -> sc_has_read (us_config s) = true ->
  length (nv_mem nv) = Z.to_nat nv_size ->
  exists nv' nv'', save_to_nv s nv = (USER_SYNC_OK, nv') /\
    user_store_init (Some (us_config s)) (nv_power_cycle nv') = (USER_SYNC_OK, restored s, nv'').
Proof.
  intros Hok Hw Hr Hlen. destruct (save_image s nv Hok Hw Hlen) as (nv' & Hs & Him).
  destruct (init_from_image s (nv_power_cycle nv') Hok Hr) as (nv'' & Hi & _); [|by exists nv', nv''].
  unfold store_image. by rewrite nv_persistent.
Qed.
End Persistence.

(** ** Sequences of operations *)

Inductive store_op :=
| ReceiveSync (payload : list Z)
| Authenticate (username password : string)
| ClearUsers
| ResetAuthStats
| Restart (* power cycle, then [user_store_init] with the same configuration *).

Section StoreRuns.
Context {N : Type} `{NvOps N} `{!NvPower N}.

(** One operation; the nonce of the record when one was taken over. *)
Definition run_store_op (st : user_store * N) (op : store_op) : option Z * (user_store * N) :=
  let '(s, nv) := st in
  match op with
  | ReceiveSync payload =>
      let '(res, s, nv) := user_store_receive_sync s nv payload in
      (if bool_decide (res = USER_SYNC_OK) then Some (uh_nonce (header_at payload)) else None, (s, nv))
  | Authenticate u p => (None, (snd (user_store_authenticate s u p), nv))
  | ClearUsers => let '(_, s, nv) := user_store_clear s nv in (None, (s, nv))
  | ResetAuthStats => (None, (user_store_reset_auth_stats s, nv))
  | Restart => let '(_, s, nv) := user_store_init (Some (us_config s)) (nv_power_cycle nv) in (None, (s, nv))
  end.

(** The nonces of the records taken over, in order. *)
Fixpoint accepted_nonces (st : user_store * N) (ops : list store_op) : list Z :=
  match ops with
  | [] => []
  | op :: ops =>
      let '(n, st) := run_store_op st op in
      match n with Some n => n :: accepted_nonces st ops | None => accepted_nonces st ops end
  end.

End StoreRuns.

Definition op_ok (op : store_op) : Prop :=
  match op with ReceiveSync payload => is_bytes payload | _ => True end.

(** The protected store: well formed, memory in step, protection on. *)
Definition store_inv {N} `{NvLaws N} (st : user_store * N) : Prop :=
  let '(s, nv) := st in
  us_initialized s = true /\ store_ok s /\ store_image s nv /\
  sc_has_read (us_config s) = true /\ sc_has_write (us_config s) = true /\
  sc_enable_replay_protection (us_config s) = true.

Lemma le32_value_range l : is_bytes l -> (length l <= 4)%nat -> is_u32 (of_le l).
Proof.
  intros Hl Hn. unfold is_u32, of_le. pose proof (of_be_range 0 (rev l) ltac:(lia) (Forall_rev Hl)) as H.
  rewrite length_rev in H. pose proof (Z.pow_le_mono_r 2 (8 * Z.of_nat (length l)) 32). lia.
Qed.

Lemma records_at_ok n l :
  is_bytes l -> length l = (n * RECORD_SIZE)%nat ->
  Forall record_ok (records_at n l) /\ length (records_at n l) = n.
Proof.
  revert l. induction n as [|n IH]; intros l Hb Hl; [done|]. cbn [records_at length].
  change RECORD_SIZE with 64%nat in *.
  destruct (IH (drop 64 l)) as [H1 H2]; [by apply Forall_drop|rewrite length_drop; lia|].
  split; [|by rewrite H2]. constructor; [|done]. unfold record_at.
  split_and!; cbn [ur_user_id ur_username ur_password_hash ur_reserved];
    rewrite ?length_take, ?length_drop, ?length_take; try (cbv [USER_SYNC_USERNAME_LEN USER_SYNC_HASH_LEN]; lia).
  apply le32_value_range; [by apply Forall_take, Forall_take|rewrite length_take; lia].
Qed.

Lemma synced_ok s h records :
  store_ok s -> Forall record_ok records -> (length records <= USER_SYNC_MAX_USERS)%nat ->
  is_u32 (uh_nonce h) -> is_u32 (uh_timestamp h) -> store_ok (synced s h records).
Proof.
  intros (H1 & H2 & _ & _ & _ & H6) Hr Hl Hn Ht. split_and!; try done; cbn [us_users us_user_count synced set].
  - cbn. rewrite length_app, length_drop, H1. lia.
  - cbn. apply Forall_app. split; [done|by apply Forall_drop].
  - cbn. lia.
  - cbn. lia.
Qed.

Lemma restored_live s : store_ok s -> live_users (restored s) = live_users s.
Proof.
  intros Hok. destruct (store_ok_live s Hok) as [Hl _].
  unfold restored, live_users at 1. cbn [us_users us_user_count]. by rewrite <- Hl, take_app_length.
Qed.

Lemma restored_ok s : store_ok s -> store_ok (restored s).
Proof.
  intros Hok. destruct (store_ok_live s Hok) as [Hl Hr]. destruct Hok as (H1 & H2 & H3 & H4 & H5 & H6).
  split_and!; try done; try apply H3; cbn [us_users restored].
  - rewrite length_app, length_drop, Hl. change (length zero_users) with 16%nat.
    change USER_SYNC_MAX_USERS with 16%nat in *. lia.
  - apply Forall_app. split; [done|]. apply Forall_drop, Forall_replicate. by split_and!.
Qed.

Lemma restored_image {N} `{K0 : NvOps N} `{!NvLaws N} s (nv : N) : store_ok s -> store_image s nv -> store_image (restored s) nv.
Proof. intros Hok [Hl Hm]. split; [done|]. by rewrite restored_live. Qed.

Lemma authenticate_keeps s u p : us_last_nonce (snd (user_store_authenticate s u p)) = us_last_nonce s.
Proof.
  unfold user_store_authenticate. repeat case_match; done.
Qed.

(** A login moves the counters only: one attempt, one success or failure. *)
Lemma authenticate_inv {N} `{K0 : NvOps N} `{!NvLaws N} s (nv : N) u p :
  store_inv (s, nv) -> store_inv (snd (user_store_authenticate s u p), nv).
Proof.
  intros (Hi & (H1 & H2 & H3 & H4 & H5 & H6) & Him & Hr & Hw & Hp).
  assert (forall s', us_initialized s' = us_initialized s -> us_users s' = us_users s ->
    us_user_count s' = us_user_count s -> us_last_nonce s' = us_last_nonce s ->
    us_last_sync_time s' = us_last_sync_time s -> us_config s' = us_config s ->
    us_auth_attempts s' = wrap32 (us_auth_successes s' + us_auth_failures s') -> store_inv (s', nv)) as Hk.
  { intros s' E1 E2 E3 E4 E5 E6 E7. cbn [store_inv]. unfold store_ok, store_image, store_header, live_users in *.
    rewrite E1, E2, E3, E4, E5, E6. done. }
  unfold user_store_authenticate. rewrite Hi. cbn [negb].
  repeat case_match; cbn [snd]; apply Hk; try done; cbn; rewrite H6; unfold wrap32;
    rewrite ?Zplus_mod_idemp_l, ?Zplus_mod_idemp_r; f_equal; lia.
Qed.

(** A record that is taken over: its nonce is newer, the store is well formed again and
    differs from the old one in the accounts and the marks only. *)
Lemma receive_accepted {N} `{K0 : NvOps N} `{!NvLaws N} s (nv : N) payload :
  store_inv (s, nv) -> is_bytes payload ->
  let '(res, s', nv') := user_store_receive_sync s nv payload in
  (res <> USER_SYNC_OK /\ s' = s /\ nv' = nv) \/
  (res = USER_SYNC_OK /\ store_inv (s', nv') /\ us_last_nonce s < us_last_nonce s' /\
   us_last_nonce s' = uh_nonce (header_at payload)).
Proof.
  intros (Hi & Hok & Him & Hr & Hw & Hp) Hb. unfold user_store_receive_sync. rewrite Hi, Hp. cbn [negb andb].
  destruct (Z.ltb_spec (Z.of_nat (length payload)) (Z.of_nat HEADER_SIZE)); [by left|].
  set (h := header_at payload).
  destruct (negb (uh_version h =? USER_SYNC_PROTOCOL_VERSION)); [by left|].
  destruct (Z.ltb_spec (Z.of_nat USER_SYNC_MAX_USERS) (uh_user_count h)) as [|Hc]; [by left|].
  destruct (Z.ltb_spec (Z.of_nat (length payload)) (user_sync_payload_size (uh_user_count h))) as [|Hl]; [by left|].
  set (n := Z.to_nat (uh_user_count h)). set (data := take _ _).
  destruct (negb (user_sync_crc16_ccitt data =? uh_checksum h)); [by left|].
  destruct (Z.leb_spec (uh_nonce h) (us_last_nonce s)); [by left|].
  assert (is_u8 (uh_user_count h)) as Hcb by (apply (Forall_nth_default is_u8); [done|unfold is_u8; lia]).
  unfold is_u8 in Hcb. unfold user_sync_payload_size in Hl.
  change (Z.of_nat HEADER_SIZE) with 20 in *. change (Z.of_nat RECORD_SIZE) with 64 in *.
  change (Z.of_nat USER_SYNC_MAX_USERS) with 16 in *.
  assert (is_bytes data) as Hd by (by apply Forall_take, Forall_drop).
  assert (length data = n * RECORD_SIZE)%nat as Hld.
  { unfold data. rewrite length_take, length_drop. change HEADER_SIZE with 20%nat. change RECORD_SIZE with 64%nat. lia. }
  destruct (records_at_ok n data Hd Hld) as [Hro Hrl].
  set (records := records_at n data) in *.
  match goal with |- context [save_to_nv ?x nv] => assert (x = synced s h records) as -> end.
  { unfold synced. rewrite Hrl. unfold n at 2. rewrite Z2Nat.id by lia. reflexivity. }
  assert (store_ok (synced s h records)) as Hok'.
  { apply synced_ok; try done; [change USER_SYNC_MAX_USERS with 16%nat; lia|..]; apply le32_value_range;
      try (by apply Forall_take, Forall_drop); rewrite length_take; lia. }
  destruct (save_image (synced s h records) nv Hok' Hw (proj1 Him)) as (nv' & -> & Him').
  right.
  done.
Qed.

(** Every operation keeps the protected store, and never lowers the replay mark. *)
Lemma run_store_op_inv {N} `{K0 : NvOps N} `{K1 : !NvLaws N} `{K2 : NvPower N} `{K3 : !NvPersistent N} (st : user_store * N) op :
  store_inv st -> op_ok op ->
  let '(n, st') := run_store_op st op in
  store_inv st' /\
  match n with
  | Some n => us_last_nonce (fst st) < n /\ us_last_nonce (fst st') = n
  | None => us_last_nonce (fst st') = us_last_nonce (fst st)
  end.
Proof.
  destruct st as [s nv]. intros Hinv Hop. pose proof Hinv as (Hi & Hok & Him & Hr & Hw & Hp).
  destruct op as [payload|u p| | |]; cbn [run_store_op].
  - pose proof (receive_accepted s nv payload Hinv Hop) as Hrec.
    destruct (user_store_receive_sync _ _ _) as [[res s'] nv'].
    destruct Hrec as [(Hres & -> & ->)|(-> & H1 & H2 & H3)].
    + by rewrite bool_decide_eq_false_2.
    + rewrite bool_decide_eq_true_2 by done. cbn [fst]. rewrite <- H3. done.
  - split; [|apply authenticate_keeps]. by apply authenticate_inv.
  - unfold user_store_clear. rewrite Hi. cbn [negb].
    set (s1 := s <| us_users := zero_users |> <| us_user_count := 0 |>).
    assert (store_ok s1) as Hok1.
    { destruct Hok as (_ & _ & _ & H4 & H5 & H6). split_and!; try done.
      apply Forall_replicate. by split_and!. }
    destruct (save_image s1 nv Hok1 Hw (proj1 Him)) as (nv' & -> & Him'). done.
  - split; [|done]. cbn [store_inv]. split_and!; try done.
    destruct Hok as (H1 & H2 & H3 & H4 & H5 & H6). done.
  - destruct (init_from_image s (nv_power_cycle nv) Hok Hr) as (nv' & -> & Him').
    { unfold store_image. by rewrite nv_persistent. }
    split; [|done].
    cbn [store_inv]. split_and!; try done.
    + by apply restored_ok.
    + by apply restored_image.
Qed.

(** C18: Replay protection: with replay protection enabled, and read and write functions of a
    memory that keeps its contents without power and does not fail, over any sequence of
    received records, logins, clears and power cycles the nonces of the records taken over
    strictly increase, the first above the mark the store started with - no record is taken
    over twice, and a restart does not reopen the window.  (The RAM backend loses its
    contents: see [ram_replay].) *)
Theorem replay_protection {N} `{K0 : NvOps N} `{K1 : !NvLaws N} `{K2 : NvPower N} `{K3 : !NvPersistent N} (st : user_store * N) ops :
  store_inv st -> Forall op_ok ops ->
  StronglySorted Z.lt (us_last_nonce (fst st) :: accepted_nonces st ops).
Proof.
  intros Hinv Hops. revert st Hinv. induction Hops as [|op ops Hop _ IH]; intros st Hinv.
  { repeat constructor. }
  cbn [accepted_nonces]. pose proof (run_store_op_inv st op Hinv Hop) as Hstep.
  destruct (run_store_op st op) as [[n|] st']; destruct Hstep as [Hinv' Hn]; specialize (IH st' Hinv').
  - destruct Hn as [Hlt Hn]. rewrite Hn in IH. constructor; [done|].
    apply StronglySorted_inv in IH as [_ Hall]. constructor; [done|].
    eapply Forall_impl; [exact Hall|]. cbn. intros x Hx. lia.
  - by rewrite Hn in IH.
Qed.

(** ** Concrete runs *)

Module UserDemo.

Definition operator : user :=
  mk_user 7 "operator" (format_password_hash "H2O!") 2 0 0 true.
Definition retired : user :=
  mk_user 8 "retired" (format_password_hash "gone") 1 0 0 false.
Definition accounts : list user := [operator; retired].

Definition config : user_store_config := mk_user_store_config true true true true 0.
(** The store after [user_store_init] on erased memory, saved once. *)
Definition booted_store : user_store := mk_user_store true config zero_users 0 0 0 0 0 0 0.
Definition booted : user_store * ram_nv :=
  (booted_store, snd (save_to_nv booted_store user_store_nv_ram_reset)).
Example booted_by_init :
  fst (user_store_init (Some config) user_store_nv_ram_reset) = (USER_SYNC_OK, booted_store).
Proof. vm_compute. reflexivity. Qed.

Definition record : list Z := payload_bytes (user_sync_serialize 5000 5001 accounts).

Lemma accounts_ok : Forall user_ok accounts.
Proof.
  repeat constructor; cbn; try (vm_compute; lia); unfold no_nul;
    apply (bool_decide_unpack _); vm_compute; exact I.
Qed.

Lemma booted_store_ok : store_ok booted_store.
Proof.
  split; [reflexivity|]. split; [|split; [|split; [|split]]].
  - apply Forall_replicate. split_and!; vm_compute; done.
  - vm_compute. split; discriminate.
  - vm_compute. split; [discriminate|reflexivity].
  - vm_compute. split; [discriminate|reflexivity].
  - reflexivity.
Qed.

(** A flash memory of 2048 bytes, which keeps its contents *)
Record flash := mk_flash { fl_bytes : list Z }.
#[export] Instance flash_ops : NvOps flash := {|
  nv_read f offset len :=
    (f, if offset + len <=? 2048 then Some (take (Z.to_nat len) (drop (Z.to_nat offset) (fl_bytes f))) else None);
  nv_write f offset data :=
    if offset + Z.of_nat (length data) <=? 2048
    then (mk_flash (take (Z.to_nat offset) (fl_bytes f) ++ data ++ drop (Z.to_nat offset + length data) (fl_bytes f)), true)
    else (f, false);
  nv_flush f := f |}.
#[export, refine] Instance flash_laws : NvLaws flash := {| nv_mem := fl_bytes; nv_size := 2048 |}.
Proof.
  - vm_compute. discriminate.
  - intros nv offset len _ _ _ Hle. cbn [nv_read flash_ops].
    destruct (Z.leb_spec (offset + len) 2048); [|lia]. eexists. by split.
  - intros nv offset data _ _ Hle. cbn [nv_write flash_ops].
    destruct (Z.leb_spec (offset + Z.of_nat (length data)) 2048); [|lia]. eexists. by split.
  - done.
Defined.
#[export] Instance flash_power : NvPower flash := {| nv_power_cycle f := f |}.
#[export] Instance flash_persistent : NvPersistent flash.
Proof. by constructor. Qed.
Definition erased : flash := mk_flash (replicate 2048 255).
Definition booted_flash : user_store * flash := (booted_store, snd (save_to_nv booted_store erased)).

Lemma booted_flash_inv : store_inv booted_flash.
Proof.
  destruct (save_image booted_store erased booted_store_ok) as (nv & E & Him).
  - reflexivity.
  - vm_compute. reflexivity.
  - unfold booted_flash. rewrite E. cbn [snd store_inv].
    split; [reflexivity|]. split; [exact booted_store_ok|]. split; [exact Him|]. repeat split.
Qed.

Lemma booted_inv : store_inv booted.
Proof.
  destruct (save_image booted_store user_store_nv_ram_reset booted_store_ok) as (nv & E & Him).
  - reflexivity.
  - vm_compute. reflexivity.
  - unfold booted. rewrite E. cbn [snd store_inv].
    split; [reflexivity|]. split; [exact booted_store_ok|]. split; [exact Him|]. repeat split.
Qed.

Lemma record_bytes_ok : is_bytes record.
Proof. apply (bool_decide_unpack _). vm_compute. exact I. Qed.

Lemma user_sync_pack_unpack_witness :
  user_sync_deserialize (user_sync_serialize 5000 5001 accounts) 16
  = (WTC_USER_SYNC_OK, carried <$> accounts).
Proof. apply (user_sync_pack_unpack 5000 5001 accounts 16); [apply accounts_ok|lia]. Defined.

Lemma sync_then_authenticate_witness :
  let '(_, s', _) := user_store_receive_sync (fst booted) (snd booted) record in
  fst (user_store_authenticate s' "operator" "H2O!") = (USER_SYNC_OK, Some 2).
Proof.
  apply (sync_then_authenticate (fst booted) (snd booted) 5000 5001 accounts "operator" "H2O!").
  - reflexivity.
  - vm_compute. lia.
  - apply accounts_ok.
  - intros _. vm_compute. reflexivity.
  - unfold no_nul. apply (bool_decide_unpack _). vm_compute. exact I.
Defined.

(** The states a wrong name, a wrong password and an inactive account lead to. *)
Example logins :
  let '(_, s, _) := user_store_receive_sync (fst booted) (snd booted) record in
  (fst (fst (user_store_authenticate s "operator" "h2o")),
   fst (fst (user_store_authenticate s "retired" "gone")),
   fst (fst (user_store_authenticate s "nobody" "")),
   user_store_check_access s "operator" 2, user_store_check_access s "operator" 3)
  = (USER_SYNC_ERR_AUTH_FAILED, USER_SYNC_ERR_INACTIVE, USER_SYNC_ERR_USER_NOT_FOUND, true, false).
Proof. vm_compute. reflexivity. Qed.

Definition synced_store : user_store :=
  let '(_, s, _) := user_store_receive_sync (fst booted) (snd booted) record in s.

Lemma user_store_survives_restart_witness :
  exists nv' nv'', save_to_nv synced_store erased = (USER_SYNC_OK, nv') /\
    user_store_init (Some (us_config synced_store)) (nv_power_cycle nv') = (USER_SYNC_OK, restored synced_store, nv'').
Proof.
  apply (user_store_survives_restart synced_store erased);
    [|vm_compute; reflexivity..].
  pose proof (receive_accepted (fst booted) (snd booted) record) as H.
  unfold synced_store. destruct (user_store_receive_sync _ _ _) as [[res s'] nv'] eqn:E.
  destruct H as [(Hres & _)|(_ & Hinv & _)].
  - exact booted_inv.
  - exact record_bytes_ok.
  - exfalso. apply Hres. transitivity (fst (fst (user_store_receive_sync (fst booted) (snd booted) record))).
    + by rewrite E.
    + vm_compute. reflexivity.
  - apply Hinv.
Defined.

(** The same record twice, with a power cycle between: the second is refused. *)
Definition record' : list Z := payload_bytes (user_sync_serialize 6000 6001 accounts).
Definition attack : list store_op :=
  [ReceiveSync record; ReceiveSync record; Restart; ReceiveSync record; ClearUsers; ReceiveSync record'].

Lemma record'_bytes_ok : is_bytes record'.
Proof. apply (bool_decide_unpack _). vm_compute. exact I. Qed.

Lemma attack_ok : is_bytes record -> is_bytes record' -> Forall op_ok attack.
Proof. intros H H'. unfold attack. repeat (apply List.Forall_cons; [first [exact I|exact H|exact H']|]). apply List.Forall_nil. Qed.

Lemma replay_protection_witness :
  StronglySorted Z.lt (us_last_nonce (fst booted_flash) :: accepted_nonces booted_flash attack) /\
  accepted_nonces booted_flash attack = [5001; 6001].
Proof.
  split; [|vm_compute; reflexivity]. apply (replay_protection booted_flash attack); [exact booted_flash_inv|].
  exact (attack_ok record_bytes_ok record'_bytes_ok).
Defined.

(** On the RAM backend a power cycle forgets accounts and nonce: the old record is taken
    over again. *)
Example ram_replay : accepted_nonces booted [ReceiveSync record; Restart; ReceiveSync record] = [5001; 5001].
Proof. vm_compute. reflexivity. Qed.

(** The store takes over a record whose magic number is wrong and which asks for a
    deletion: neither field is looked at. *)
Example magic_and_operation_ignored :
  let h := mk_user_sync_header 0 USER_SYNC_PROTOCOL_VERSION USER_SYNC_OP_DELETE 1 0 5 5
             (user_sync_crc16_ccitt (record_bytes (user_record operator))) 0 in
  user_sync_validate_header h = USER_SYNC_ERR_BAD_MAGIC /\
  let '(res, s, _) := user_store_receive_sync (fst booted) (snd booted)
                        (header_bytes h ++ record_bytes (user_record operator)) in
  res = USER_SYNC_OK /\ user_store_exists s "operator" = true.
Proof. vm_compute. done. Qed.

(** The nonce is the low half of the clock: 49.7 days on, a fresh record of the
    controller is refused as a replay. *)
Example nonce_wraps :
  let '(_, s, nv) := user_store_receive_sync (fst booted) (snd booted) record in
  let later := 5000 + 2 ^ 32 in
  fst (fst (user_store_receive_sync s nv (payload_bytes (user_sync_serialize later later accounts))))
  = USER_SYNC_ERR_REPLAY.
Proof. vm_compute. reflexivity. Qed.

(** Two passwords with the same stored hash. *)
Example hash_collision : format_password_hash "pump1A" = format_password_hash "pump0b".
Proof. vm_compute. reflexivity. Qed.

End UserDemo.
