(* ===== verification/Presets.v ===== *)
(** * Preset slots, loops and interlocks; auto-tuning

    Model of [src/registry/slot_manager.c] (Module [Slots]), [src/control/pid_loop.c]
    (Module [Loops]: preset loops, relay auto-tuning, performance figures) and
    [src/control/interlock_manager.c] (Module [Interlocks]).  They build entries for
    Registry.v, Pid.v and ControlEngine.v. *)

From S2P Require Import Prelude Float32 Types Registry Pid ControlEngine.

Definition WTC_MAX_NAME : nat := 64.
Definition WTC_MAX_UNIT : nat := 16.
Definition name_field (s : string) : string := strncpy (WTC_MAX_NAME - 1) s.
Definition station_field (s : string) : string := strncpy (WTC_MAX_STATION_NAME - 1) s.

(** [x > 0 ? x : d] *)
Definition positive_or (x d : float32) : float32 := if fgt x f0 then x else d.

Lemma positive_or_positive x d : fgt d f0 = true -> fgt (positive_or x d) f0 = true.
Proof. unfold positive_or. destruct (fgt x f0) eqn:E; done. Qed.

Module Slots.

(** [measurement_info_t] *)
Record measurement_info := mk_measurement_info {
  mi_type : measurement_type;
  mi_name : string;
  mi_unit : string;
  mi_default_min : float32;
  mi_default_max : float32;
  mi_default_alarm_low : float32;
  mi_default_alarm_high : float32 }.

(** [measurement_info[]] *)
Definition measurement_table : list measurement_info :=
  let z := f32_of_Z in
  [ mk_measurement_info MEASUREMENT_PH "pH" "pH" (z 0) (z 14) (f32_lit 65 10) (f32_lit 85 10);
    mk_measurement_info MEASUREMENT_TEMPERATURE "Temperature" "C" (z (-20)) (z 100) (z 0) (z 50);
    mk_measurement_info MEASUREMENT_TURBIDITY "Turbidity" "NTU" (z 0) (z 1000) (z 0) (z 4);
    mk_measurement_info MEASUREMENT_TDS "TDS" "ppm" (z 0) (z 5000) (z 0) (z 500);
    mk_measurement_info MEASUREMENT_DISSOLVED_OXYGEN "Dissolved Oxygen" "mg/L" (z 0) (z 20) (z 2) (z 20);
    mk_measurement_info MEASUREMENT_FLOW_RATE "Flow Rate" "L/min" (z 0) (z 10000) (z 0) (z 0);
    mk_measurement_info MEASUREMENT_LEVEL "Level" "%" (z 0) (z 100) (z 10) (z 90);
    mk_measurement_info MEASUREMENT_PRESSURE "Pressure" "bar" (z 0) (z 100) (z 0) (z 0);
    mk_measurement_info MEASUREMENT_CONDUCTIVITY "Conductivity" "uS/cm" (z 0) (z 100000) (z 0) (z 0);
    mk_measurement_info MEASUREMENT_ORP "ORP" "mV" (z (-2000)) (z 2000) (z 0) (z 0);
    mk_measurement_info MEASUREMENT_CHLORINE "Chlorine" "ppm" (z 0) (z 10) (f32_lit 2 10) (z 4);
    mk_measurement_info MEASUREMENT_CUSTOM "Custom" "" (z 0) (z 100) (z 0) (z 0) ].

Definition custom_info : measurement_info :=
  mk_measurement_info MEASUREMENT_CUSTOM "Custom" "" (f32_of_Z 0) (f32_of_Z 100) (f32_of_Z 0) (f32_of_Z 0).

(** [get_measurement_info]: the entry of the type, the last one when there is none. *)
Definition get_measurement_info (type : measurement_type) : measurement_info :=
  match list_find (fun i => mi_type i = type) measurement_table with
  | Some (_, i) => i
  | None => default custom_info (last measurement_table)
  end.

(** The configuration after [memset]. *)
Definition zero_slot : slot_config :=
  mk_slot_config 0 0 SLOT_TYPE_DAP "" "" MEASUREMENT_PH ACTUATOR_RELAY f0 f0 f0 f0 f0 f0 f0 f0 f0 false.

(** [create_sensor_slot_config]; a missing name is the empty one. *)
Definition create_sensor_slot_config (slot_number : Z) (type : measurement_type) (name : string)
    : wtc_result * option slot_config :=
  if slot_number <? 0 then (WTC_ERROR_INVALID_PARAM, None)
  else
    let info := get_measurement_info type in
    let low := mi_default_alarm_low info in
    let high := mi_default_alarm_high info in
    (WTC_OK, Some (mk_slot_config slot_number 1 SLOT_TYPE_SENSOR
       (name_field (if (String.length name =? 0)%nat then (mi_name info +:+ " " +:+ pretty slot_number)%string
                    else name))
       (strncpy (WTC_MAX_UNIT - 1) (mi_unit info)) type ACTUATOR_RELAY
       (mi_default_min info) (mi_default_max info) low high f0 f0
       (if fgt low f0 then fmul low (f32_lit 11 10) else f0)
       (if fgt high f0 then fmul high (f32_lit 9 10) else f0) f0 true)).

(** [actuator_names[]] *)
Definition actuator_name (type : actuator_type) : string :=
  match type with
  | ACTUATOR_RELAY => "Relay" | ACTUATOR_PWM => "PWM" | ACTUATOR_PUMP => "Pump"
  | ACTUATOR_VALVE => "Valve" | ACTUATOR_LATCHING => "Latching" | ACTUATOR_MOMENTARY => "Momentary"
  end.

(** [create_actuator_slot_config] *)
Definition create_actuator_slot_config (slot_number : Z) (type : actuator_type) (name : string)
    : wtc_result * option slot_config :=
  if slot_number <? 0 then (WTC_ERROR_INVALID_PARAM, None)
  else
    (WTC_OK, Some (mk_slot_config slot_number 1 SLOT_TYPE_ACTUATOR
       (name_field (if (String.length name =? 0)%nat
                    then (actuator_name type +:+ " (slot " +:+ pretty slot_number +:+ ")")%string else name))
       "" MEASUREMENT_PH type f0 f0 f0 f0 f0 f0 f0 f0 f0 true)).

(** [create_water_treatment_rtu_config]: what the calls leave in [slots]. *)
Definition create_water_treatment_rtu_config : wtc_result * list slot_config :=
  let sensor n t s := default zero_slot (snd (create_sensor_slot_config n t s)) in
  let actuator n t s := default zero_slot (snd (create_actuator_slot_config n t s)) in
  (WTC_OK,
   [ sensor 0 MEASUREMENT_PH "pH Sensor"; sensor 1 MEASUREMENT_TEMPERATURE "Temperature";
     sensor 2 MEASUREMENT_TURBIDITY "Turbidity"; sensor 3 MEASUREMENT_TDS "TDS";
     sensor 4 MEASUREMENT_DISSOLVED_OXYGEN "DO"; sensor 5 MEASUREMENT_FLOW_RATE "Flow Rate";
     sensor 6 MEASUREMENT_LEVEL "Tank Level"; sensor 7 MEASUREMENT_PRESSURE "Pressure";
     actuator 8 ACTUATOR_PUMP "Main Pump"; actuator 9 ACTUATOR_VALVE "Inlet Valve";
     actuator 10 ACTUATOR_VALVE "Outlet Valve"; actuator 11 ACTUATOR_PWM "Dosing Pump";
     actuator 12 ACTUATOR_RELAY "Aerator"; actuator 13 ACTUATOR_RELAY "Heater";
     actuator 14 ACTUATOR_RELAY "Mixer"; actuator 15 ACTUATOR_RELAY "Spare" ]).

(** The table has one entry per type, so the fallback is never used. *)
Lemma get_measurement_info_type type : mi_type (get_measurement_info type) = type.
Proof. destruct type; reflexivity. Qed.

(** Where the thresholds of a preset sensor lie: the warning band inside the alarm band,
    the alarm band inside the scale, each limit only where it is set. *)
Theorem sensor_thresholds_nested slot type name c :
  create_sensor_slot_config slot type name = (WTC_OK, Some c) ->
  (fgt (sc_alarm_low c) f0 = true -> fgt (sc_warning_low c) (sc_alarm_low c) = true /\
                                     fge (sc_alarm_low c) (sc_scale_min c) = true) /\
  (fgt (sc_alarm_high c) f0 = true -> flt (sc_warning_high c) (sc_alarm_high c) = true /\
                                      fle (sc_alarm_high c) (sc_scale_max c) = true) /\
  (fgt (sc_alarm_low c) f0 = true -> fgt (sc_alarm_high c) f0 = true ->
   flt (sc_warning_low c) (sc_warning_high c) = true).
Proof.
  unfold create_sensor_slot_config. destruct (slot <? 0); [done|]. intros E. injection E as <-.
  cbn [sc_alarm_low sc_alarm_high sc_warning_low sc_warning_high sc_scale_min sc_scale_max].
  destruct type; vm_compute; (split; [|split]); intros; try discriminate; try (split; reflexivity); reflexivity.
Qed.

End Slots.

Module Loops.

(** The configuration the six functions share; they differ in the constants. *)
Definition preset_loop (name : string) (kp ki kd default_setpoint deadband integral_limit filter : float32)
    (input_rtu : string) (input_slot : Z) (output_rtu : string) (output_slot : Z) (setpoint : float32)
    : pid_loop :=
  mk_pid_loop 0 (name_field name) true (station_field input_rtu) input_slot
    (station_field output_rtu) output_slot kp ki kd (positive_or setpoint default_setpoint)
    f0 (f32_of_Z 100) deadband integral_limit filter f0 f0 f0 f0 f0 f0 PID_MODE_AUTO 0.

Definition create_ph_control_loop :=
  preset_loop "pH Control" (f32_of_Z 2) (f32_lit 1 10) (f32_lit 1 2) (f32_of_Z 7) (f32_lit 1 10)
    (f32_of_Z 50) (f32_lit 8 10).
Definition create_level_control_loop :=
  preset_loop "Level Control" (f32_of_Z 5) (f32_lit 1 2) (f32_of_Z 1) (f32_of_Z 50) (f32_of_Z 2)
    (f32_of_Z 100) (f32_lit 1 2).
Definition create_pressure_control_loop :=
  preset_loop "Pressure Control" (f32_of_Z 3) (f32_lit 3 10) (f32_lit 8 10) (f32_of_Z 5) (f32_lit 2 10)
    (f32_of_Z 75) (f32_lit 6 10).
Definition create_temperature_control_loop :=
  preset_loop "Temperature Control" (f32_of_Z 4) (f32_lit 2 10) (f32_of_Z 2) (f32_of_Z 25) (f32_lit 1 2)
    (f32_of_Z 100) (f32_lit 9 10).
Definition create_do_control_loop :=
  preset_loop "DO Control" (f32_of_Z 3) (f32_lit 15 100) (f32_lit 15 10) (f32_of_Z 6) (f32_lit 2 10)
    (f32_of_Z 80) (f32_lit 7 10).
Definition create_chlorine_control_loop :=
  preset_loop "Chlorine Control" (f32_lit 15 10) (f32_lit 5 100) (f32_lit 3 10) (f32_of_Z 1) (f32_lit 5 100)
    (f32_of_Z 40) (f32_lit 85 100).

Definition presets : list (string -> Z -> string -> Z -> float32 -> pid_loop) :=
  [create_ph_control_loop; create_level_control_loop; create_pressure_control_loop;
   create_temperature_control_loop; create_do_control_loop; create_chlorine_control_loop].

(** ** Relay auto-tuning *)

(** [autotune_state_t] *)
Record autotune_state := mk_autotune_state {
  at_active : bool;
  at_relay_amplitude : float32;
  at_crossing_count : Z;
  at_period_sum : float32;
  at_amplitude_max : float32;
  at_amplitude_min : float32;
  at_last_error : float32 }.
#[export] Instance eta_autotune_state : Eta autotune_state := fun r =>
  mk_autotune_state (at_active r) (at_relay_amplitude r) (at_crossing_count r) (at_period_sum r)
    (at_amplitude_max r) (at_amplitude_min r) (at_last_error r).
Definition zero_autotune : autotune_state := mk_autotune_state false f0 0 f0 f0 f0 f0.

(** [autotune_states] *)
Definition autotune_init : list autotune_state := replicate WTC_MAX_PID_LOOPS zero_autotune.
Definition loop_index (loop_id : Z) : option nat :=
  if (loop_id <? 0) || (Z.of_nat WTC_MAX_PID_LOOPS <=? loop_id) then None else Some (Z.to_nat loop_id).

Definition f1e30 : float32 := f32_of_Z (10 ^ 30).

(** [pid_start_autotune] *)
Definition pid_start_autotune (states : list autotune_state) (loop_id : Z) (relay_amplitude : float32)
    : wtc_result * list autotune_state :=
  match loop_index loop_id with
  | None => (WTC_ERROR_INVALID_PARAM, states)
  | Some i =>
      (WTC_OK, <[i := mk_autotune_state true (positive_or relay_amplitude (f32_of_Z 10)) 0 f0
                        (fopp f1e30) f1e30 f0]> states)
  end.

(** What one call of [pid_process_autotune] answers: [*output], [*complete] and the
    gains when they are written (the three pointers being set). *)
Record autotune_answer := mk_autotune_answer {
  aa_output : float32;
  aa_complete : bool;
  aa_gains : option (float32 * float32 * float32) }.

(** The tuning at the end: Ziegler-Nichols from amplitude and period. *)
Definition autotune_gains (st : autotune_state) : option (float32 * float32 * float32) :=
  let Tu := fdiv (at_period_sum st) (f32_of_Z (at_crossing_count st - 1)) in
  let amplitude := fdiv (fsub (at_amplitude_max st) (at_amplitude_min st)) (f32_of_Z 2) in
  if flt amplitude (f32_lit 1 1000) || flt Tu (f32_lit 1 1000) then None
  else
    let Ku := fdiv (fmul (f32_of_Z 4) (at_relay_amplitude st)) (fmul (f32_lit 314159 100000) amplitude) in
    let kp := fmul (f32_lit 6 10) Ku in
    Some (kp, fdiv (fmul (f32_of_Z 2) kp) Tu, fdiv (fmul kp Tu) (f32_of_Z 8)).

(** One sample on the state of one loop; the period added is the constant 0 of the
    source. *)
Definition autotune_step (st : autotune_state) (pv setpoint : float32) : autotune_state * autotune_answer :=
  let error := fsub setpoint pv in
  let st := if fgt pv (at_amplitude_max st) then st <| at_amplitude_max := pv |> else st in
  let st := if flt pv (at_amplitude_min st) then st <| at_amplitude_min := pv |> else st in
  let output := if fgt error f0 then at_relay_amplitude st else fopp (at_relay_amplitude st) in
  if (fle (at_last_error st) f0 && fgt error f0) || (fge (at_last_error st) f0 && flt error f0) then
    let st := st <| at_crossing_count ::= Z.succ |> in
    let st := if 2 <=? at_crossing_count st then st <| at_period_sum ::= fun p => fadd p f0 |> else st in
    if 6 <=? at_crossing_count st then
      match autotune_gains st with
      | None => (st <| at_active := false |>, mk_autotune_answer output true None)
      | Some g => (st <| at_active := false |> <| at_last_error := error |>, mk_autotune_answer output true (Some g))
      end
    else (st <| at_last_error := error |>, mk_autotune_answer output false None)
  else (st <| at_last_error := error |>, mk_autotune_answer output false None).

(** [pid_process_autotune] *)
Definition pid_process_autotune (states : list autotune_state) (loop_id : Z) (pv setpoint : float32)
    : wtc_result * list autotune_state * option autotune_answer :=
  match loop_index loop_id with
  | None => (WTC_ERROR_INVALID_PARAM, states, None)
  | Some i =>
      let st := nth i states zero_autotune in
      if negb (at_active st) then (WTC_ERROR_NOT_INITIALIZED, states, None)
      else let '(st, a) := autotune_step st pv setpoint in (WTC_OK, <[i := st]> states, Some a)
  end.

(** [pid_stop_autotune] *)
Definition pid_stop_autotune (states : list autotune_state) (loop_id : Z) : wtc_result * list autotune_state :=
  match loop_index loop_id with
  | None => (WTC_ERROR_INVALID_PARAM, states)
  | Some i => (WTC_OK, alter (fun st => st <| at_active := false |>) i states)
  end.

(** ** Performance figures *)

(** [pid_performance_t] *)
Record pid_performance := mk_pid_performance {
  pp_iae : float32;
  pp_ise : float32;
  pp_overshoot : float32;
  pp_settling_time : float32;
  pp_rise_time : float32 }.
Definition zero_performance : pid_performance := mk_pid_performance f0 f0 f0 f0 f0.
Definition performance_init : list pid_performance := replicate WTC_MAX_PID_LOOPS zero_performance.

Definition pid_reset_performance_metrics (ps : list pid_performance) (loop_id : Z) : list pid_performance :=
  match loop_index loop_id with None => ps | Some i => <[i := zero_performance]> ps end.

Definition performance_step (p : pid_performance) (pv setpoint error dt : float32) : pid_performance :=
  let overshoot :=
    if fgt (fabsf setpoint) (f32_lit 1 10000) then
      let pct := fmul (fdiv (fsub pv setpoint) setpoint) (f32_of_Z 100) in
      if fgt pct (pp_overshoot p) then pct else pp_overshoot p
    else pp_overshoot p in
  mk_pid_performance (fadd (pp_iae p) (fmul (fabsf error) dt))
    (fadd (pp_ise p) (fmul (fmul error error) dt)) overshoot (pp_settling_time p) (pp_rise_time p).

Definition pid_update_performance_metrics (ps : list pid_performance) (loop_id : Z)
    (pv setpoint error dt : float32) : list pid_performance :=
  match loop_index loop_id with
  | None => ps
  | Some i => alter (fun p => performance_step p pv setpoint error dt) i ps
  end.

Definition pid_get_performance_metrics (ps : list pid_performance) (loop_id : Z)
    : wtc_result * option pid_performance :=
  match loop_index loop_id with
  | None => (WTC_ERROR_INVALID_PARAM, None)
  | Some i => (WTC_OK, Some (nth i ps zero_performance))
  end.

(** ** Theorems on the presets *)

(** Every preset is an enabled automatic loop with limits 0 to 100 and a positive set
    point: a set point that is not positive, NaN included, is replaced. *)
Lemma preset_configured f in_rtu in_slot out_rtu out_slot sp :
  f ∈ presets ->
  let loop := f in_rtu in_slot out_rtu out_slot sp in
  pl_enabled loop = true /\ automatic loop /\ pl_output_min loop = f0 /\
  pl_output_max loop = f32_of_Z 100 /\ fgt (pl_setpoint loop) f0 = true.
Proof.
  unfold presets. intros Hf. cbv zeta.
  repeat (apply elem_of_cons in Hf as [->|Hf]); [..|by apply elem_of_nil in Hf];
    (split_and!; [reflexivity|by left|reflexivity|reflexivity|by apply positive_or_positive]).
Qed.

(** A preset loop commands its actuator between 0 and 100 percent or off, whatever the
    sensor says, from any state of the loop that keeps its configuration. *)
Theorem preset_loop_output f in_rtu in_slot out_rtu out_slot sp loop pv dt_ms :
  f ∈ presets -> pl_mode loop = PID_MODE_AUTO ->
  pl_output_min loop = pl_output_min (f in_rtu in_slot out_rtu out_slot sp) ->
  pl_output_max loop = pl_output_max (f in_rtu in_slot out_rtu out_slot sp) ->
  let o := snd (calculate_pid loop pv dt_ms) in
  (is_nan o = true /\ forall ub, drive_output ub o = zero_output) \/
  (fle f0 o = true /\ fle o (f32_of_Z 100) = true).
Proof.
  intros Hf Hm Hlo Hhi. destruct (preset_configured f in_rtu in_slot out_rtu out_slot sp Hf) as (_ & _ & E1 & E2 & _).
  rewrite E1 in Hlo. rewrite E2 in Hhi. cbv zeta. rewrite calculate_pid_automatic by (by left). cbn [snd].
  set (raw := fadd _ _). destruct (is_nan raw) eqn:Hn.
  - left. rewrite pid_clamp_nan by done. split; [done|]. intros ub. by apply drive_output_nan.
  - right. rewrite <- Hlo, <- Hhi. apply pid_clamp_range; [by rewrite Hlo, Hhi|done].
Qed.

(** ** Auto-tuning never delivers gains *)

(** Samples of one loop, and the answers given while it is active. *)
Fixpoint autotune_run (st : autotune_state) (samples : list (float32 * float32))
    : autotune_state * list autotune_answer :=
  match samples with
  | [] => (st, [])
  | (pv, sp) :: samples =>
      if at_active st then
        let '(st, a) := autotune_step st pv sp in
        let '(st, l) := autotune_run st samples in (st, a :: l)
      else (st, [])
  end.

(** While it runs, fewer than six crossings were seen and no period was summed up. *)
Definition untuned (st : autotune_state) : Prop :=
  at_period_sum st = f0 /\ (at_active st = true -> 0 <= at_crossing_count st < 6).

Lemma autotune_step_untuned st pv sp :
  untuned st -> at_active st = true ->
  untuned (fst (autotune_step st pv sp)) /\ aa_gains (snd (autotune_step st pv sp)) = None /\
  at_active (fst (autotune_step st pv sp)) = negb (aa_complete (snd (autotune_step st pv sp))).
Proof.
  intros [Hp Hc] Ha. specialize (Hc Ha). unfold autotune_step.
  set (st1 := if fgt pv (at_amplitude_max st) then _ else _).
  set (st2 := if flt pv (at_amplitude_min st1) then _ else _).
  assert (at_period_sum st2 = f0 /\ at_crossing_count st2 = at_crossing_count st /\ at_active st2 = true) as (H1 & H2 & H3).
  { unfold st2, st1. by destruct (fgt pv _), (flt pv _). }
  clearbody st2. destruct (_ || _); [|cbn; rewrite H1, H2, H3; done].
  set (st3 := set at_crossing_count _ _).
  assert (at_crossing_count st3 = at_crossing_count st + 1 /\ at_period_sum st3 = f0 /\ at_active st3 = true) as (G1 & G2 & G3).
  { unfold st3. cbn. rewrite H1, H2, H3. done. }
  clearbody st3. set (st4 := if 2 <=? at_crossing_count st3 then _ else _).
  assert (at_crossing_count st4 = at_crossing_count st + 1 /\ at_period_sum st4 = f0 /\ at_active st4 = true) as (K1 & K2 & K3).
  { unfold st4. destruct (2 <=? _); [|done]. cbn. rewrite G1, G2, G3. done. }
  clearbody st4. rewrite K1. destruct (Z.leb_spec 6 (at_crossing_count st + 1)).
  - assert (at_crossing_count st = 5) as E by lia. rewrite E in K1.
    assert (autotune_gains st4 = None) as ->.
    { unfold autotune_gains. rewrite K1, K2. replace (flt (fdiv f0 _) _) with true by reflexivity.
      by rewrite orb_true_r. }
    cbn. rewrite K2. split_and!; try done.
  - cbn. rewrite K2, K3. split; [|done]. split; [done|]. intros _. cbn. rewrite K1. lia.
Qed.

(** Whatever the process does, a tuning run ends without gains at its sixth crossing:
    the period is never measured and its guard always fails. *)
Theorem autotune_never_tunes amplitude samples :
  let st0 := mk_autotune_state true (positive_or amplitude (f32_of_Z 10)) 0 f0 (fopp f1e30) f1e30 f0 in
  let '(st, answers) := autotune_run st0 samples in
  Forall (fun a => aa_gains a = None) answers /\
  (at_active st = false <-> exists a, last answers = Some a /\ aa_complete a = true).
Proof.
  cbv zeta. set (st0 := mk_autotune_state _ _ _ _ _ _ _).
  assert (untuned st0 /\ at_active st0 = true) as [Hu Ha] by (split; [split; [done|cbn; lia]|done]).
  clearbody st0. revert st0 Hu Ha. induction samples as [|[pv sp] samples IH]; intros st Hu Ha.
  { cbn. rewrite Ha. split; [done|]. split; [done|]. intros (a & E & _). done. }
  cbn [autotune_run]. rewrite Ha. destruct (autotune_step_untuned st pv sp Hu Ha) as (H1 & H2 & H3).
  destruct (autotune_step st pv sp) as [st1 a]. cbn [fst snd] in *.
  destruct (at_active st1) eqn:Ha1.
  - specialize (IH st1 H1 Ha1). destruct (autotune_run st1 samples) as [st' l] eqn:E. destruct IH as [I1 I2].
    split; [by constructor|]. destruct l as [|b l]; [|by rewrite last_cons_cons].
    rewrite I2. split; [by intros (x & Hx & _)|]. intros (x & Hx & Hc). cbn in Hx. injection Hx as <-.
    by rewrite Hc in H3.
  - assert (autotune_run st1 samples = (st1, [])) as ->.
    { destruct samples as [|[? ?] ?]; [done|]. cbn. by rewrite Ha1. }
    split; [by constructor|]. rewrite Ha1. split; [|done]. intros _. exists a. split; [done|].
    by destruct (aa_complete a).
Qed.

End Loops.

Module Interlocks.

(** The configuration the functions share. *)
Definition preset_interlock (name : string) (condition : interlock_condition) (threshold : float32)
    (delay_ms : Z) (condition_rtu : string) (condition_slot : Z) (action_rtu : string) (action_slot : Z)
    : interlock :=
  mk_interlock 0 (name_field name) true (station_field condition_rtu) condition_slot condition threshold
    delay_ms (station_field action_rtu) action_slot INTERLOCK_ACTION_FORCE_OFF f0 false 0 0.

Section Create.
Variables (rtu : string) (slot : Z) (out_rtu : string) (out_slot : Z).

Definition create_low_level_interlock (low_level_threshold : float32) : interlock :=
  preset_interlock "Low Level Pump Protect" INTERLOCK_CONDITION_BELOW
    (positive_or low_level_threshold (f32_of_Z 10)) 5000 rtu slot out_rtu out_slot.
Definition create_high_level_interlock (high_level_threshold : float32) : interlock :=
  preset_interlock "High Level Overflow Protect" INTERLOCK_CONDITION_ABOVE
    (positive_or high_level_threshold (f32_of_Z 90)) 2000 rtu slot out_rtu out_slot.
Definition create_high_pressure_interlock (high_pressure_threshold : float32) : interlock :=
  preset_interlock "High Pressure Relief" INTERLOCK_CONDITION_ABOVE
    (positive_or high_pressure_threshold (f32_of_Z 10)) 1000 rtu slot out_rtu out_slot.
Definition create_overtemp_interlock (max_temperature : float32) : interlock :=
  preset_interlock "Over-temperature Shutdown" INTERLOCK_CONDITION_ABOVE
    (positive_or max_temperature (f32_of_Z 50)) 3000 rtu slot out_rtu out_slot.
Definition create_ph_interlock (low_ph high_ph : float32) (check_low : bool) : interlock :=
  if check_low then
    preset_interlock "Low pH Interlock" INTERLOCK_CONDITION_BELOW
      (positive_or low_ph (f32_lit 55 10)) 10000 rtu slot out_rtu out_slot
  else
    preset_interlock "High pH Interlock" INTERLOCK_CONDITION_ABOVE
      (positive_or high_ph (f32_of_Z 9)) 10000 rtu slot out_rtu out_slot.
Definition create_low_flow_interlock (min_flow : float32) : interlock :=
  preset_interlock "Low Flow Pump Protect" INTERLOCK_CONDITION_BELOW
    (positive_or min_flow (f32_of_Z 10)) 30000 rtu slot out_rtu out_slot.
End Create.

(** The interlocks [create_water_treatment_interlocks] builds, in its order. *)
Definition standard_interlocks (rtu : string) : list interlock :=
  [ create_low_level_interlock rtu 7 rtu 9 (f32_of_Z 10);
    create_high_level_interlock rtu 7 rtu 10 (f32_of_Z 90);
    create_high_pressure_interlock rtu 8 rtu 9 (f32_of_Z 10);
    create_overtemp_interlock rtu 2 rtu 14 (f32_of_Z 50);
    create_ph_interlock rtu 1 rtu 12 (f32_lit 55 10) f0 true;
    create_ph_interlock rtu 1 rtu 12 f0 (f32_of_Z 9) false ].

(** [create_water_treatment_interlocks]: the results of the additions are not looked at. *)
Definition create_water_treatment_interlocks (e : control_engine) (rtu : string)
    : wtc_result * control_engine :=
  (WTC_OK, foldl (fun e il => snd (control_engine_add_interlock e il)) e (standard_interlocks rtu)).

(** [interlock_priority_t] *)
Inductive interlock_priority :=
| INTERLOCK_PRIORITY_SAFETY | INTERLOCK_PRIORITY_EQUIPMENT | INTERLOCK_PRIORITY_PROCESS
| INTERLOCK_PRIORITY_QUALITY.
#[export] Instance interlock_priority_eq_dec : EqDecision interlock_priority.
Proof. solve_decision. Defined.

(** [get_interlock_priority] *)
Definition get_interlock_priority (il : interlock) : interlock_priority :=
  let has := strstr (il_name il) in
  if has "Pressure" || has "Emergency" then INTERLOCK_PRIORITY_SAFETY
  else if has "Pump" || has "Motor" || has "temperature" then INTERLOCK_PRIORITY_EQUIPMENT
  else if has "Level" || has "Flow" then INTERLOCK_PRIORITY_PROCESS
  else if has "pH" || has "Chlorine" || has "Turbidity" then INTERLOCK_PRIORITY_QUALITY
  else INTERLOCK_PRIORITY_PROCESS.

(** [interlock_can_bypass] *)
Definition interlock_can_bypass (il : interlock) : bool :=
  negb (bool_decide (get_interlock_priority il = INTERLOCK_PRIORITY_SAFETY)).

(** [format_interlock_status] into a buffer of [size] bytes; nothing below 64. *)
Definition format_interlock_status (il : interlock) (size : nat) : option string :=
  if (size <? 64)%nat then None
  else
    let status := if il_tripped il then "TRIPPED" else if il_enabled il then "ENABLED" else "DISABLED" in
    let condition := match il_condition il with
                     | INTERLOCK_CONDITION_ABOVE => ">" | INTERLOCK_CONDITION_BELOW => "<"
                     | INTERLOCK_CONDITION_EQUAL => "=" | INTERLOCK_CONDITION_NOT_EQUAL => "!=" end in
    Some (strncpy (size - 1)
      (il_name il +:+ " [" +:+ status +:+ "]: " +:+ il_condition_rtu il +:+ " slot " +:+
       pretty (il_condition_slot il) +:+ " " +:+ condition +:+ " " +:+ fmt_fixed 2 (il_threshold il) +:+
       " -> " +:+ il_action_rtu il +:+ " slot " +:+ pretty (il_action_slot il)))%string.

(** ** Theorems *)

Definition numbered (ils : list interlock) (first : Z) : list interlock :=
  imap (fun i il => il <| il_interlock_id := first + Z.of_nat i |>) ils.

Lemma add_interlocks_room ils e :
  (length (ce_interlocks e) + length ils <= WTC_MAX_INTERLOCKS)%nat ->
  let e' := foldl (fun e il => snd (control_engine_add_interlock e il)) e ils in
  ce_interlocks e' = ce_interlocks e ++ numbered ils (ce_next_interlock_id e) /\
  ce_next_interlock_id e' = ce_next_interlock_id e + Z.of_nat (length ils) /\
  ce_pid_loops e' = ce_pid_loops e.
Proof.
  revert e. induction ils as [|il ils IH]; intros e Hl; cbv zeta.
  { cbn. rewrite app_nil_r, Z.add_0_r. done. }
  cbn [foldl length] in *. unfold control_engine_add_interlock at 2 4 6.
  destruct (Nat.leb_spec WTC_MAX_INTERLOCKS (length (ce_interlocks e))); [lia|]. cbn [snd].
  set (e1 := e <| ce_interlocks ::= _ |> <| ce_next_interlock_id ::= Z.succ |>).
  destruct (IH e1) as (H1 & H2 & H3); [cbn; rewrite length_app; cbn; lia|].
  rewrite H1, H2, H3. split_and!; [|cbn; lia|done]. unfold numbered. rewrite imap_cons.
  change (ce_interlocks e1) with (ce_interlocks e ++ [il <| il_interlock_id := ce_next_interlock_id e |>]).
  change (ce_next_interlock_id e1) with (Z.succ (ce_next_interlock_id e)).
  rewrite <- app_assoc. cbn [app Z.of_nat]. rewrite Z.add_0_r. do 2 f_equal.
  apply imap_ext. intros i x _. cbn [compose]. f_equal. unfold compose. by rewrite Nat2Z.inj_succ, Z.add_succ_comm.
Qed.

(** With room for six, the standard interlocks are appended in order with the next ids,
    enabled and not tripped; nothing else of the engine changes its tables. *)
Theorem standard_interlocks_installed e rtu :
  (length (ce_interlocks e) + 6 <= WTC_MAX_INTERLOCKS)%nat ->
  let '(res, e') := create_water_treatment_interlocks e rtu in
  res = WTC_OK /\
  ce_interlocks e' = ce_interlocks e ++ numbered (standard_interlocks rtu) (ce_next_interlock_id e) /\
  Forall (fun il => il_enabled il = true /\ il_tripped il = false /\
                    il_action il = INTERLOCK_ACTION_FORCE_OFF /\ fgt (il_threshold il) f0 = true)
    (numbered (standard_interlocks rtu) (ce_next_interlock_id e)) /\
  ce_pid_loops e' = ce_pid_loops e.
Proof.
  intros Hl. destruct (add_interlocks_room (standard_interlocks rtu) e Hl) as (H1 & _ & H3).
  split_and!; [done|done| |done]. repeat constructor.
Qed.

(** A full table: the call still answers [WTC_OK] and installs nothing. *)
Theorem standard_interlocks_full e rtu :
  (WTC_MAX_INTERLOCKS <= length (ce_interlocks e))%nat -> create_water_treatment_interlocks e rtu = (WTC_OK, e).
Proof.
  intros Hl. unfold create_water_treatment_interlocks. f_equal. generalize (standard_interlocks rtu).
  intros l. induction l as [|il l IH]; [done|]. cbn [foldl]. unfold control_engine_add_interlock at 2.
  by rewrite (proj2 (Nat.leb_le _ _) Hl).
Qed.

(** Of the preset interlocks exactly the pressure relief is refused a bypass. *)
Theorem preset_bypass rtu :
  interlock_can_bypass <$> standard_interlocks rtu = [true; true; false; true; true; true].
Proof. reflexivity. Qed.

(** The two templates of the repository do not agree on the slots: the standard
    interlocks watch and switch the neighbours of the points they are meant for in the
    default RTU layout, and the pressure interlock watches an actuator slot. *)
Definition slot_name (slot : Z) : string :=
  match list_find (fun c => sc_slot c = slot) (snd Slots.create_water_treatment_rtu_config) with
  | Some (_, c) => sc_name c
  | None => ""
  end.
Example standard_interlocks_misaddressed :
  (fun il => (il_name il, slot_name (il_condition_slot il), slot_name (il_action_slot il)))
    <$> standard_interlocks "rtu"
  = [ ("Low Level Pump Protect", "Pressure", "Inlet Valve");
      ("High Level Overflow Protect", "Pressure", "Outlet Valve");
      ("High Pressure Relief", "Main Pump", "Inlet Valve");
      ("Over-temperature Shutdown", "Turbidity", "Mixer");
      ("Low pH Interlock", "Temperature", "Aerator");
      ("High pH Interlock", "Temperature", "Aerator") ]%string.
Proof. vm_compute. reflexivity. Qed.

Example status_line :
  format_interlock_status (create_low_flow_interlock "rtu" 5 "rtu" 8 f0) 128
  = Some "Low Flow Pump Protect [ENABLED]: rtu slot 5 < 10.00 -> rtu slot 8"%string.
Proof. vm_compute. reflexivity. Qed.

End Interlocks.
