(* ===== verification/Version.v ===== *)
(** * Version negotiation

    Model of [shared/src/version_negotiation.c] and its header: the version record each
    side announces and the check of a remote one against the local one. *)

From S2P Require Import Prelude Types Wire UserSync.

Definition WTC_PROTOCOL_VERSION : Z := 256. (* (1 << 8) | 0 *)
Definition WTC_CAPABILITIES_CURRENT : Z := 255.
Definition WTC_CAP_5BYTE_SENSOR : Z := 4.
Definition WTC_CAPABILITIES_REQUIRED : Z := WTC_CAP_5BYTE_SENSOR.

(** [wtc_version_info_t] *)
Record wtc_version_info := mk_wtc_version_info {
  vi_protocol_version : Z;
  vi_shm_version : Z;
  vi_cyclic_version : Z;
  vi_state_version : Z;
  vi_alarm_version : Z;
  vi_capabilities : Z;
  vi_build_version : string;
  vi_build_timestamp : Z }.

(** [version_compat_t] *)
Inductive version_compat :=
| VERSION_COMPATIBLE | VERSION_MINOR_MISMATCH | VERSION_MAJOR_MISMATCH
| VERSION_CAPABILITY_MISSING | VERSION_FORMAT_MISMATCH.
#[export] Instance version_compat_eq_dec : EqDecision version_compat.
Proof. solve_decision. Defined.

(** [version_check_result_t] *)
Record version_check_result := mk_version_check_result {
  vc_result : version_compat;
  vc_protocol_ok : bool;
  vc_shm_ok : bool;
  vc_cyclic_ok : bool;
  vc_state_ok : bool;
  vc_alarm_ok : bool;
  vc_missing_caps : Z;
  vc_message : string }.

(** [wtc_get_version_info] with the version and time stamp of the build. *)
Definition wtc_get_version_info (build_version : string) (build_timestamp : Z) : wtc_version_info :=
  mk_wtc_version_info WTC_PROTOCOL_VERSION 1 1 1 1 WTC_CAPABILITIES_CURRENT
    (strncpy 31 build_version) build_timestamp.

Definition wtc_has_capability (info : wtc_version_info) (cap : Z) : bool :=
  Z.land (vi_capabilities info) cap =? cap.
Definition wtc_protocol_major (version : Z) : Z := wrap8 (Z.shiftr version 8).
Definition wtc_protocol_minor (version : Z) : Z := wrap8 (Z.land version 255).

(** [snprintf(message, 128, ...)] *)
Definition message (s : string) : string := strncpy 127 s.
Definition mismatch_message (what : string) (a b : Z) : string :=
  message (what +:+ " version mismatch: local=" +:+ pretty a +:+ " remote=" +:+ pretty b)%string.

(** [wtc_check_compatibility] *)
Definition wtc_check_compatibility (local remote : wtc_version_info) : bool * version_check_result :=
  let lmaj := wtc_protocol_major (vi_protocol_version local) in
  let rmaj := wtc_protocol_major (vi_protocol_version remote) in
  let lmin := wtc_protocol_minor (vi_protocol_version local) in
  let rmin := wtc_protocol_minor (vi_protocol_version remote) in
  if negb (lmaj =? rmaj) then
    (false, mk_version_check_result VERSION_MAJOR_MISMATCH false false false false false 0
              (mismatch_message "Protocol major" lmaj rmaj))
  else
    let result := if negb (lmin =? rmin) then VERSION_MINOR_MISMATCH else VERSION_COMPATIBLE in
    let shm_ok := vi_shm_version local =? vi_shm_version remote in
    if negb shm_ok then
      (false, mk_version_check_result VERSION_FORMAT_MISMATCH true false false false false 0
                (mismatch_message "Shared memory" (vi_shm_version local) (vi_shm_version remote)))
    else
    let cyclic_ok := vi_cyclic_version local =? vi_cyclic_version remote in
    if negb cyclic_ok then
      (false, mk_version_check_result VERSION_FORMAT_MISMATCH true true false false false 0
                (mismatch_message "Cyclic data" (vi_cyclic_version local) (vi_cyclic_version remote)))
    else
    let state_ok := vi_state_version local =? vi_state_version remote in
    if negb state_ok then
      (false, mk_version_check_result VERSION_FORMAT_MISMATCH true true true false false 0
                (mismatch_message "State format" (vi_state_version local) (vi_state_version remote)))
    else
    let alarm_ok := vi_alarm_version local =? vi_alarm_version remote in
    if negb alarm_ok then
      (false, mk_version_check_result VERSION_FORMAT_MISMATCH true true true true false 0
                (mismatch_message "Alarm format" (vi_alarm_version local) (vi_alarm_version remote)))
    else
    let missing := Z.land WTC_CAPABILITIES_REQUIRED (Z.lnot (vi_capabilities remote)) in
    if negb (missing =? 0) then
      (false, mk_version_check_result VERSION_CAPABILITY_MISSING true true true true true missing
                (message ("Missing required capabilities: 0x" +:+ fmt_hex 8 missing "")%string))
    else
      (true, mk_version_check_result result true true true true true 0
         (message (match result with
                   | VERSION_COMPATIBLE =>
                       ("Compatible: protocol " +:+ pretty lmaj +:+ "." +:+ pretty lmin +:+ ", all formats match")%string
                   | _ => ("Compatible with minor version difference: " +:+ pretty lmaj +:+ "." +:+ pretty lmin +:+
                           " vs " +:+ pretty rmaj +:+ "." +:+ pretty rmin)%string
                   end))).

(** [wtc_version_to_string] into a buffer of [size] bytes: the text written. *)
Definition wtc_version_to_string (info : wtc_version_info) (size : nat) : string :=
  strncpy (size - 1)
    ("Protocol: " +:+ pretty (wtc_protocol_major (vi_protocol_version info)) +:+ "." +:+
     pretty (wtc_protocol_minor (vi_protocol_version info)) +:+
     ", SHM: " +:+ pretty (vi_shm_version info) +:+ ", Cyclic: " +:+ pretty (vi_cyclic_version info) +:+
     ", State: " +:+ pretty (vi_state_version info) +:+ ", Alarm: " +:+ pretty (vi_alarm_version info) +:+
     ", Caps: 0x" +:+ fmt_hex 8 (vi_capabilities info) "" +:+ ", Build: " +:+ vi_build_version info)%string.

(** [wtc_capability_name] *)
Definition wtc_capability_name (cap : Z) : string :=
  if cap =? 1 then "AUTHORITY_HANDOFF" else if cap =? 2 then "STATE_RECONCILE"
  else if cap =? 4 then "5BYTE_SENSOR" else if cap =? 8 then "ALARM_ISA18"
  else if cap =? 16 then "FAILOVER" else if cap =? 32 then "CASCADE_PID"
  else if cap =? 64 then "ACYCLIC_RECORDS" else if cap =? 128 then "USER_SYNC" else "UNKNOWN".

(** ** Theorems *)

(** When two sides may talk: same major version and data formats, and the other side
    has the five-byte sensor format. *)
Definition may_talk (local remote : wtc_version_info) : Prop :=
  wtc_protocol_major (vi_protocol_version local) = wtc_protocol_major (vi_protocol_version remote) /\
  vi_shm_version local = vi_shm_version remote /\ vi_cyclic_version local = vi_cyclic_version remote /\
  vi_state_version local = vi_state_version remote /\ vi_alarm_version local = vi_alarm_version remote /\
  wtc_has_capability remote WTC_CAPABILITIES_REQUIRED = true.

Lemma missing_caps_iff caps c : Z.land c (Z.lnot caps) = 0 <-> Z.land caps c = c.
Proof.
  rewrite <- Z.ldiff_land, (Z.land_comm caps c). pose proof (Z.lor_ldiff_and c caps) as H. split; intros E.
  - by rewrite E, Z.lor_0_l in H.
  - rewrite <- E, Z.ldiff_land, <- Z.land_assoc, Z.land_lnot_diag. apply Z.land_0_r.
Qed.

(** Two sides are declared compatible exactly when they may talk; the verdict then tells
    a minor difference from none, and otherwise names the first check that failed, with
    the flags of the checks passed before it and the missing capabilities. *)
Theorem compatibility_decided local remote :
  let '(ok, r) := wtc_check_compatibility local remote in
  (ok = true <-> may_talk local remote) /\
  (ok = true -> vc_missing_caps r = 0 /\
     (vc_result r = VERSION_COMPATIBLE \/ vc_result r = VERSION_MINOR_MISMATCH) /\
     (vc_result r = VERSION_COMPATIBLE <->
      wtc_protocol_minor (vi_protocol_version local) = wtc_protocol_minor (vi_protocol_version remote))) /\
  (vc_result r = VERSION_MAJOR_MISMATCH <-> vc_protocol_ok r = false) /\
  (vc_result r = VERSION_CAPABILITY_MISSING <-> vc_missing_caps r <> 0) /\
  (vc_result r = VERSION_FORMAT_MISMATCH <-> vc_protocol_ok r = true /\ vc_alarm_ok r = false).
Proof.
  pose proof (missing_caps_iff (vi_capabilities remote) WTC_CAPABILITIES_REQUIRED) as Hcap.
  rewrite <- (Z.eqb_eq (Z.land (vi_capabilities remote) _)) in Hcap. fold (wtc_has_capability remote WTC_CAPABILITIES_REQUIRED) in Hcap.
  unfold wtc_check_compatibility, may_talk.
  destruct (Z.eqb_spec (wtc_protocol_major (vi_protocol_version local))
              (wtc_protocol_major (vi_protocol_version remote))); cbn [negb]; [|cbn; naive_solver].
  destruct (Z.eqb_spec (vi_shm_version local) (vi_shm_version remote)); cbn [negb]; [|cbn; naive_solver].
  destruct (Z.eqb_spec (vi_cyclic_version local) (vi_cyclic_version remote)); cbn [negb]; [|cbn; naive_solver].
  destruct (Z.eqb_spec (vi_state_version local) (vi_state_version remote)); cbn [negb]; [|cbn; naive_solver].
  destruct (Z.eqb_spec (vi_alarm_version local) (vi_alarm_version remote)); cbn [negb]; [|cbn; naive_solver].
  revert Hcap. generalize (Z.land WTC_CAPABILITIES_REQUIRED (Z.lnot (vi_capabilities remote))). intros missing Hcap.
  destruct (Z.eqb_spec missing 0); cbn [negb]; [|cbn; naive_solver].
  destruct (Z.eqb_spec (wtc_protocol_minor (vi_protocol_version local))
              (wtc_protocol_minor (vi_protocol_version remote))); cbn; naive_solver.
Qed.

(** Two builds of this version always understand each other. *)
Theorem same_version_compatible build build' t t' :
  fst (wtc_check_compatibility (wtc_get_version_info build t) (wtc_get_version_info build' t')) = true.
Proof. reflexivity. Qed.

(** The check is not symmetric: only the other side's capabilities are looked at. *)
Example compatibility_not_symmetric :
  let a := wtc_get_version_info "a" 0 in
  let b := mk_wtc_version_info WTC_PROTOCOL_VERSION 1 1 1 1 0 "b" 0 in
  (fst (wtc_check_compatibility b a), fst (wtc_check_compatibility a b)) = (true, false).
Proof. reflexivity. Qed.

Example version_text :
  wtc_version_to_string (wtc_get_version_info "1.0.0-dev" 0) 128
  = "Protocol: 1.0, SHM: 1, Cyclic: 1, State: 1, Alarm: 1, Caps: 0x000000FF, Build: 1.0.0-dev"%string.
Proof. vm_compute. reflexivity. Qed.
