(* ===== verification/Coordination.v ===== *)
(** * Coordination: cascade control, load balancing and the manager above them

    Model of [src/coordination/cascade_control.c] (Module [Cascade]),
    [load_balance.c] (Module [Balance]) and [coordination.c] (Module [Coord]).  The
    cascade controller works on the control engine of ControlEngine.v, the load
    balancer on the registry, and the manager runs them after the failover manager
    of Failover.v.

    Pointers to engine and registry are "is set" fields; the objects are passed.  In the
    load balancer [None] is a run that leaves the members' array, divides by zero or
    does not return. *)

From S2P Require Import Prelude Float32 Types Registry Pid ControlEngine Failover Presets.

(** ** Tables with integer keys: "update the entry with the id, else append" *)

Section Keyed.
Context {A : Type} (key : A -> Z).

Definition keyed (id : Z) (x : A) : Prop := key x = id.
#[local] Instance keyed_dec id x : Decision (keyed id x).
Proof. unfold keyed. apply _. Defined.

(** The add operation of both tables ([fix] is applied to a new entry only). *)
Definition put_keyed (max : Z) (fix_new : A -> A) (x : A) (l : list A) : wtc_result * list A :=
  match find_update (keyed (key x)) (fun _ => x) l with
  | Some l' => (WTC_OK, l')
  | None => if max <=? Z.of_nat (length l) then (WTC_ERROR_FULL, l) else (WTC_OK, l ++ [fix_new x])
  end.
Definition remove_keyed (id : Z) (l : list A) : wtc_result * list A :=
  match find_remove (keyed id) l with Some l' => (WTC_OK, l') | None => (WTC_ERROR_NOT_FOUND, l) end.
Definition update_keyed (id : Z) (f : A -> A) (l : list A) : wtc_result * list A :=
  match find_update (keyed id) f l with Some l' => (WTC_OK, l') | None => (WTC_ERROR_NOT_FOUND, l) end.
Definition get_keyed (id : Z) (l : list A) : option A := find_entry (keyed id) l.
End Keyed.
#[export] Existing Instance keyed_dec.

Module Cascade.

(** [cascade_loop_t] *)
Record cascade_loop := mk_cascade_loop {
  cl_cascade_id : Z;
  cl_name : string;
  cl_enabled : bool;
  cl_primary_loop_id : Z;
  cl_secondary_loop_id : Z;
  cl_output_scale : float32;
  cl_output_offset : float32;
  cl_min_setpoint : float32;
  cl_max_setpoint : float32;
  cl_current_cascade_sp : float32;
  cl_cascade_active : bool }.
#[export] Instance eta_cascade_loop : Eta cascade_loop := fun r =>
  mk_cascade_loop (cl_cascade_id r) (cl_name r) (cl_enabled r) (cl_primary_loop_id r)
    (cl_secondary_loop_id r) (cl_output_scale r) (cl_output_offset r) (cl_min_setpoint r)
    (cl_max_setpoint r) (cl_current_cascade_sp r) (cl_cascade_active r).

(** [struct cascade_controller] *)
Record cascade_controller := mk_cascade_controller {
  cc_max_cascades : Z;
  cc_update_interval_ms : Z;
  cc_loops : list cascade_loop;
  cc_running : bool;
  cc_last_process_ms : Z;
  cc_control : bool }.
#[export] Instance eta_cascade_controller : Eta cascade_controller := fun r =>
  mk_cascade_controller (cc_max_cascades r) (cc_update_interval_ms r) (cc_loops r) (cc_running r)
    (cc_last_process_ms r) (cc_control r).

Definition cascade_init (alloc_ok : bool) (max_cascades update_interval_ms : Z)
    : wtc_result * option cascade_controller :=
  if alloc_ok then (WTC_OK, Some (mk_cascade_controller max_cascades update_interval_ms [] false 0 false))
  else (WTC_ERROR_NO_MEMORY, None).
Definition cascade_start (now : Z) (cc : cascade_controller) : cascade_controller :=
  cc <| cc_running := true |> <| cc_last_process_ms := now |>.
Definition cascade_stop (cc : cascade_controller) : cascade_controller := cc <| cc_running := false |>.
Definition cascade_set_control_engine (cc : cascade_controller) (engine : bool) : cascade_controller :=
  cc <| cc_control := engine |>.

Definition cascade_add_loop (cc : cascade_controller) (loop : cascade_loop)
    : wtc_result * cascade_controller :=
  let '(res, l) := put_keyed cl_cascade_id (cc_max_cascades cc) id loop (cc_loops cc) in
  (res, cc <| cc_loops := l |>).
Definition cascade_remove_loop (cc : cascade_controller) (cascade_id : Z)
    : wtc_result * cascade_controller :=
  let '(res, l) := remove_keyed cl_cascade_id cascade_id (cc_loops cc) in
  (res, cc <| cc_loops := l |>).
Definition cascade_get_loop (cc : cascade_controller) (cascade_id : Z) : option cascade_loop :=
  get_keyed cl_cascade_id cascade_id (cc_loops cc).

(** [cascade_enable] *)
Definition cascade_enable (cc : cascade_controller) (e : control_engine) (cascade_id : Z) (enabled : bool)
    : wtc_result * cascade_controller * control_engine :=
  match get_keyed cl_cascade_id cascade_id (cc_loops cc) with
  | None => (WTC_ERROR_NOT_FOUND, cc, e)
  | Some loop =>
      let '(_, l) := update_keyed cl_cascade_id cascade_id
                       (fun c => c <| cl_enabled := enabled |> <| cl_cascade_active := false |>) (cc_loops cc) in
      (WTC_OK, cc <| cc_loops := l |>,
       if negb enabled && cc_control cc
       then snd (control_engine_set_pid_mode e (cl_secondary_loop_id loop) PID_MODE_MANUAL) else e)
  end.

(** The set point handed to the secondary loop. *)
Definition cascade_setpoint (loop : cascade_loop) (cv : float32) : float32 :=
  let sp := fadd (fmul cv (cl_output_scale loop)) (cl_output_offset loop) in
  let sp := if flt sp (cl_min_setpoint loop) then cl_min_setpoint loop else sp in
  if fgt sp (cl_max_setpoint loop) then cl_max_setpoint loop else sp.

(** The body of the loop in [cascade_process]. *)
Definition cascade_step (e : control_engine) (loop : cascade_loop) : control_engine * cascade_loop :=
  if negb (cl_enabled loop) then (e, loop)
  else match control_engine_get_pid_loop e (cl_primary_loop_id loop) with
  | None => (e, loop)
  | Some primary =>
      if negb (bool_decide (pl_mode primary = PID_MODE_AUTO)) && negb (bool_decide (pl_mode primary = PID_MODE_CASCADE))
      then
        if cl_cascade_active loop then
          (snd (control_engine_set_pid_mode e (cl_secondary_loop_id loop) PID_MODE_MANUAL),
           loop <| cl_cascade_active := false |>)
        else (e, loop)
      else
        let sp := cascade_setpoint loop (pl_cv primary) in
        let loop := loop <| cl_current_cascade_sp := sp |> in
        let e := snd (control_engine_set_setpoint e (cl_secondary_loop_id loop) sp) in
        if cl_cascade_active loop then (e, loop)
        else (snd (control_engine_set_pid_mode e (cl_secondary_loop_id loop) PID_MODE_CASCADE),
              loop <| cl_cascade_active := true |>)
  end.

Fixpoint cascade_steps (e : control_engine) (loops : list cascade_loop) : control_engine * list cascade_loop :=
  match loops with
  | [] => (e, [])
  | loop :: rest =>
      let '(e, loop) := cascade_step e loop in
      let '(e, rest) := cascade_steps e rest in (e, loop :: rest)
  end.

(** [cascade_process] *)
Definition cascade_process (now : Z) (cc : cascade_controller) (e : control_engine)
    : wtc_result * cascade_controller * control_engine :=
  if negb (cc_running cc) then (WTC_ERROR_NOT_INITIALIZED, cc, e)
  else if u64_sub now (cc_last_process_ms cc) <? cc_update_interval_ms cc then (WTC_OK, cc, e)
  else
    let cc := cc <| cc_last_process_ms := now |> in
    if negb (cc_control cc) then (WTC_ERROR_NOT_INITIALIZED, cc, e)
    else let '(e, l) := cascade_steps e (cc_loops cc) in (WTC_OK, cc <| cc_loops := l |>, e).

(** ** Theorems *)

(** The set point handed on lies within its limits, unless it is NaN. *)
Lemma cascade_setpoint_range c cv :
  fle (cl_min_setpoint c) (cl_max_setpoint c) = true ->
  is_nan (cascade_setpoint c cv) = true \/
  (fle (cl_min_setpoint c) (cascade_setpoint c cv) = true /\
   fle (cascade_setpoint c cv) (cl_max_setpoint c) = true).
Proof.
  intros Hm. pose proof Hm as (Hmin & Hmax & _)%fle_spec. unfold cascade_setpoint, fgt. set (x := fadd _ _).
  destruct (is_nan x) eqn:Hx; [left; by rewrite (flt_nan_l x), (flt_nan_r _ x) by done|right].
  destruct (flt x (cl_min_setpoint c)) eqn:E1.
  - rewrite fle_not_flt by done. split; [by apply fle_refl|done].
  - destruct (flt (cl_max_setpoint c) x) eqn:E2; split; auto with wtc; try (by apply fle_refl);
      apply flt_false; assumption.
Qed.

Lemma with_loop_get e id f id' :
  (forall l, pl_loop_id (f l) = pl_loop_id l) ->
  control_engine_get_pid_loop (snd (with_loop e id f)) id'
  = if decide (id' = id) then f <$> control_engine_get_pid_loop e id else control_engine_get_pid_loop e id'.
Proof.
  intros Hf. unfold with_loop, control_engine_get_pid_loop.
  destruct (find_update (has_loop id) f (ce_pid_loops e)) as [l'|] eqn:E; cbn [snd].
  - apply find_update_Some in E as (l1 & x & l2 & E1 & Hx & Hno & ->). cbn [ce_pid_loops set]. rewrite E1.
    destruct (decide (id' = id)) as [->|Hne].
    + rewrite !find_entry_app; try done. unfold has_loop in *. by rewrite Hf.
    + apply find_entry_replace; unfold has_loop in *; [congruence|rewrite Hf; congruence].
  - destruct (decide (id' = id)) as [->|]; [|done]. apply find_update_None in E.
    by rewrite (proj2 (find_entry_None _ _) E).
Qed.

Lemma set_setpoint_get e id sp id' :
  control_engine_get_pid_loop (snd (control_engine_set_setpoint e id sp)) id'
  = if decide (id' = id) then (fun l => l <| pl_setpoint := sp |>) <$> control_engine_get_pid_loop e id
    else control_engine_get_pid_loop e id'.
Proof. by apply with_loop_get. Qed.

Lemma set_pid_mode_get e id mode id' :
  control_engine_get_pid_loop (snd (control_engine_set_pid_mode e id mode)) id'
  = if decide (id' = id) then switch_mode mode <$> control_engine_get_pid_loop e id
    else control_engine_get_pid_loop e id'.
Proof. apply with_loop_get. intros l. unfold switch_mode. by destruct (decide _). Qed.

(** A cascade touches its secondary loop only. *)
Lemma cascade_step_frame e c id :
  id <> cl_secondary_loop_id c ->
  control_engine_get_pid_loop (fst (cascade_step e c)) id = control_engine_get_pid_loop e id.
Proof.
  intros Hne. unfold cascade_step. destruct (cl_enabled c); [|done].
  destruct (control_engine_get_pid_loop e (cl_primary_loop_id c)) as [p|]; [|done]. cbn [negb].
  destruct (_ && _).
  - destruct (cl_cascade_active c); [|done]. cbn [fst]. rewrite set_pid_mode_get. by rewrite decide_False.
  - cbv zeta. cbn [cl_cascade_active cl_secondary_loop_id set].
    destruct (cl_cascade_active c); cbn [fst]; rewrite ?set_pid_mode_get, ?set_setpoint_get;
      by rewrite !decide_False.
Qed.

Definition driven (p : pid_loop) : bool :=
  bool_decide (pl_mode p = PID_MODE_AUTO) || bool_decide (pl_mode p = PID_MODE_CASCADE).

(** What the secondary loop [s] becomes under a working cascade. *)
Definition commanded (c : cascade_loop) (p s : pid_loop) : pid_loop :=
  let s := s <| pl_setpoint := cascade_setpoint c (pl_cv p) |> in
  if cl_cascade_active c then s else switch_mode PID_MODE_CASCADE s.

Lemma cascade_step_drives e c p s :
  cl_enabled c = true -> control_engine_get_pid_loop e (cl_primary_loop_id c) = Some p -> driven p = true ->
  control_engine_get_pid_loop e (cl_secondary_loop_id c) = Some s ->
  control_engine_get_pid_loop (fst (cascade_step e c)) (cl_secondary_loop_id c) = Some (commanded c p s) /\
  cl_cascade_active (snd (cascade_step e c)) = true.
Proof.
  intros He Hp Hd Hs. unfold cascade_step, commanded. rewrite He, Hp. cbn [negb].
  rewrite <- negb_orb. fold (driven p). rewrite Hd. cbn [negb]. cbv zeta.
  cbn [cl_cascade_active cl_secondary_loop_id set].
  destruct (cl_cascade_active c) eqn:Ha; cbn [fst snd]; rewrite ?set_pid_mode_get, ?set_setpoint_get;
    rewrite !decide_True by done; rewrite Hs; split; done.
Qed.

Lemma cascade_steps_frame e cs id :
  Forall (fun c => id <> cl_secondary_loop_id c) cs ->
  control_engine_get_pid_loop (fst (cascade_steps e cs)) id = control_engine_get_pid_loop e id.
Proof.
  intros H. revert e. induction H as [|c cs Hc _ IH]; intros e; [done|]. cbn [cascade_steps].
  pose proof (cascade_step_frame e c id Hc) as Hf. destruct (cascade_step e c) as [e1 c1]. cbn [fst] in Hf.
  specialize (IH e1). destruct (cascade_steps e1 cs) as [e2 cs2]. cbn [fst] in *. congruence.
Qed.

Lemma cascade_process_frame now cc e id :
  id ∉ cl_secondary_loop_id <$> cc_loops cc ->
  control_engine_get_pid_loop (snd (cascade_process now cc e)) id = control_engine_get_pid_loop e id.
Proof.
  intros Hid. unfold cascade_process. destruct (negb (cc_running cc)); [done|].
  destruct (_ <? _); [done|]. cbn [cc_control cc_loops set]. destruct (negb (cc_control cc)); [done|].
  pose proof (cascade_steps_frame e (cc_loops cc) id) as H. destruct (cascade_steps e (cc_loops cc)) as [e' l].
  cbn [fst snd] in *. apply H. apply Forall_forall. intros c Hc ->. apply Hid. by apply list_elem_of_fmap_2.
Qed.

(** Cascade control: when no two cascades share a secondary loop and no primary is
    itself a secondary, one processing gives the secondary of every enabled cascade whose
    primary runs automatically the scaled and clamped output of that primary as set point
    (in CASCADE mode from the activation on), and leaves every other loop as it was. *)
Theorem cascade_drives_secondary now cc e :
  cc_running cc = true -> cc_control cc = true ->
  cc_update_interval_ms cc <= u64_sub now (cc_last_process_ms cc) ->
  NoDup (cl_secondary_loop_id <$> cc_loops cc) ->
  (forall c c', c ∈ cc_loops cc -> c' ∈ cc_loops cc -> cl_primary_loop_id c <> cl_secondary_loop_id c') ->
  let '(res, _, e') := cascade_process now cc e in
  res = WTC_OK /\
  (forall id, id ∉ cl_secondary_loop_id <$> cc_loops cc ->
     control_engine_get_pid_loop e' id = control_engine_get_pid_loop e id) /\
  (forall c p s, c ∈ cc_loops cc -> cl_enabled c = true ->
     control_engine_get_pid_loop e (cl_primary_loop_id c) = Some p -> driven p = true ->
     control_engine_get_pid_loop e (cl_secondary_loop_id c) = Some s ->
     control_engine_get_pid_loop e' (cl_secondary_loop_id c) = Some (commanded c p s)).
Proof.
  intros Hr Hc Hi Hnd Hps. unfold cascade_process. rewrite Hr. cbn [negb].
  destruct (Z.ltb_spec (u64_sub now (cc_last_process_ms cc)) (cc_update_interval_ms cc)); [lia|].
  cbn [cc_control cc_loops set]. rewrite Hc. cbn [negb].
  destruct (cascade_steps e (cc_loops cc)) as [e' l] eqn:E.
  assert (e' = fst (cascade_steps e (cc_loops cc))) as -> by (by rewrite E). clear E l.
  split; [done|]. split.
  { intros id Hid. apply cascade_steps_frame. apply Forall_forall. intros c Hcin ->. apply Hid.
    by apply list_elem_of_fmap_2. }
  intros c p s Hin He Hp Hd Hs. clear Hr Hc Hi. revert e Hp Hs.
  generalize dependent (cc_loops cc). intros cs. induction cs as [|c0 cs IH]; intros Hnd Hps Hin e Hp Hs;
    [by apply elem_of_nil in Hin|].
  rewrite fmap_cons in Hnd. apply NoDup_cons in Hnd as [Hnew Hnd]. cbn [cascade_steps].
  destruct (cascade_step e c0) as [e1 c1] eqn:E1. assert (e1 = fst (cascade_step e c0)) as He1 by (by rewrite E1).
  assert (fst (let '(e2, rest) := cascade_steps e1 cs in (e2, c1 :: rest)) = fst (cascade_steps e1 cs)) as ->
    by (by destruct (cascade_steps e1 cs)).
  apply elem_of_cons in Hin as [->|Hin].
  - rewrite cascade_steps_frame.
    + rewrite He1. by apply cascade_step_drives.
    + apply Forall_forall. intros c2 H2 Heq. apply Hnew. rewrite Heq. by apply list_elem_of_fmap_2.
  - apply IH; [done|intros a b Ha Hb; apply Hps; by right|done| |].
    + rewrite He1, cascade_step_frame; [done|]. apply Hps; [by right|by left].
    + rewrite He1, cascade_step_frame; [done|]. intros Heq. apply Hnew. rewrite <- Heq. by apply list_elem_of_fmap_2.
Qed.

End Cascade.

Module Balance.

(** The members' struct *)
Record member := mk_member {
  mb_rtu_station : string;
  mb_slot : Z;
  mb_capacity : float32;
  mb_current_load : float32;
  mb_runtime_ms : Z;
  mb_available : bool }.
#[export] Instance eta_member : Eta member := fun r =>
  mk_member (mb_rtu_station r) (mb_slot r) (mb_capacity r) (mb_current_load r) (mb_runtime_ms r)
    (mb_available r).

(** [load_balance_group_t]; [lg_members] is the whole array. *)
Record group := mk_group {
  lg_group_id : Z;
  lg_name : string;
  lg_enabled : bool;
  lg_members : list member;
  lg_member_count : Z;
  lg_total_demand : float32;
  lg_wear_leveling : bool;
  lg_rotation_interval_ms : Z;
  lg_last_rotation_ms : Z;
  lg_lead_member : Z }.
#[export] Instance eta_group : Eta group := fun r =>
  mk_group (lg_group_id r) (lg_name r) (lg_enabled r) (lg_members r) (lg_member_count r)
    (lg_total_demand r) (lg_wear_leveling r) (lg_rotation_interval_ms r) (lg_last_rotation_ms r)
    (lg_lead_member r).

(** [struct load_balancer] *)
Record load_balancer := mk_load_balancer {
  lb_max_groups : Z;
  lb_rebalance_interval_ms : Z;
  lb_groups : list group;
  lb_running : bool;
  lb_last_process_ms : Z;
  lb_registry : bool }.
#[export] Instance eta_load_balancer : Eta load_balancer := fun r =>
  mk_load_balancer (lb_max_groups r) (lb_rebalance_interval_ms r) (lb_groups r) (lb_running r)
    (lb_last_process_ms r) (lb_registry r).

Definition load_balance_init (alloc_ok : bool) (max_groups interval : Z)
    : wtc_result * option load_balancer :=
  if alloc_ok then (WTC_OK, Some (mk_load_balancer max_groups interval [] false 0 false))
  else (WTC_ERROR_NO_MEMORY, None).
Definition load_balance_start (now : Z) (lb : load_balancer) : load_balancer :=
  lb <| lb_running := true |> <| lb_last_process_ms := now |>.
Definition load_balance_stop (lb : load_balancer) : load_balancer := lb <| lb_running := false |>.
Definition load_balance_set_registry (lb : load_balancer) (registry : bool) : load_balancer :=
  lb <| lb_registry := registry |>.

Definition load_balance_add_group (now : Z) (lb : load_balancer) (g : group) : wtc_result * load_balancer :=
  let '(res, l) := put_keyed lg_group_id (lb_max_groups lb) (fun g => g <| lg_last_rotation_ms := now |>) g
                     (lb_groups lb) in
  (res, lb <| lb_groups := l |>).
Definition load_balance_remove_group (lb : load_balancer) (group_id : Z) : wtc_result * load_balancer :=
  let '(res, l) := remove_keyed lg_group_id group_id (lb_groups lb) in (res, lb <| lb_groups := l |>).
Definition load_balance_set_demand (lb : load_balancer) (group_id : Z) (demand : float32)
    : wtc_result * load_balancer :=
  let '(res, l) := update_keyed lg_group_id group_id (fun g => g <| lg_total_demand := demand |>) (lb_groups lb) in
  (res, lb <| lb_groups := l |>).
Definition load_balance_get_group (lb : load_balancer) (group_id : Z) : option group :=
  get_keyed lg_group_id group_id (lb_groups lb).

Definition zero_member : member := mk_member "" 0 f0 f0 0 false.
(** [members[i]] *)
Definition member_at (g : group) (i : Z) : option member :=
  if i <? 0 then None else lg_members g !! Z.to_nat i.
(** The members in use. *)
Definition members (g : group) : list member := take (Z.to_nat (lg_member_count g)) (lg_members g).

(** [find_lowest_runtime_member]: the index, -1 when there is none. *)
Fixpoint lowest_runtime (i lowest_idx lowest : Z) (ms : list member) : Z :=
  match ms with
  | [] => lowest_idx
  | m :: ms =>
      if mb_available m && (mb_runtime_ms m <? lowest)
      then lowest_runtime (i + 1) i (mb_runtime_ms m) ms
      else lowest_runtime (i + 1) lowest_idx lowest ms
  end.
Definition find_lowest_runtime_member (g : group) : Z := lowest_runtime 0 (-1) (2 ^ 64 - 1) (members g).

(** The [while] of the round robin, from candidate [new]. *)
Fixpoint next_available (fuel : nat) (g : group) (new : Z) : option Z :=
  match fuel with
  | O => None
  | S fuel =>
      match member_at g new with
      | None => None
      | Some m =>
          if negb (mb_available m) && negb (new =? lg_lead_member g)
          then next_available fuel g (Z.rem (new + 1) (lg_member_count g))
          else Some new
      end
  end.

(** The rotation of one group; the search passes each member at most once. *)
Definition rotate_group (now : Z) (g : group) : option group :=
  if lg_wear_leveling g then
    let new_lead := find_lowest_runtime_member g in
    Some (if (0 <=? new_lead) && negb (new_lead =? lg_lead_member g)
          then g <| lg_lead_member := new_lead |> <| lg_last_rotation_ms := now |> else g)
  else if lg_member_count g =? 0 then None (* division by zero *)
  else
    match next_available (S (Z.to_nat (lg_member_count g))) g
            (Z.rem (lg_lead_member g + 1) (lg_member_count g)) with
    | None => None
    | Some new_lead => Some (g <| lg_lead_member := new_lead |> <| lg_last_rotation_ms := now |>)
    end.

(** [load_balance_rotate] *)
Definition load_balance_rotate (now : Z) (lb : load_balancer) (group_id : Z)
    : option (wtc_result * load_balancer) :=
  match list_find (keyed lg_group_id group_id) (lb_groups lb) with
  | None => Some (WTC_ERROR_NOT_FOUND, lb)
  | Some (i, g) =>
      match rotate_group now g with
      | None => None
      | Some g => Some (WTC_OK, lb <| lb_groups ::= <[i := g]> |>)
      end
  end.

Section Process.
Variable ub : float32 -> Z.

(** The output written for a share. *)
Definition share_output (share capacity : float32) : actuator_output :=
  mk_actuator_output (if fgt share f0 then ACTUATOR_CMD_PWM else ACTUATOR_CMD_OFF)
    (cast_u8 ub (fmul (fdiv share capacity) (f32_of_Z 100))) 0 0.
Definition member_share (g : group) (total : float32) (m : member) : float32 :=
  let share := fmul (fdiv (mb_capacity m) total) (lg_total_demand g) in
  if fgt share (mb_capacity m) then mb_capacity m else share.

(** The distribution loop: [n] iterations left, [clk] the clock of the writes. *)
Fixpoint distribute (clk : nat -> Z) (n : nat) (current : Z) (remaining total : float32) (g : group)
    (r : registry) : option (group * registry) :=
  match n with
  | O => Some (g, r)
  | S n' =>
      if negb (fgt remaining f0) then Some (g, r)
      else match member_at g current with
      | None => None
      | Some m =>
          let next := Z.rem (current + 1) (lg_member_count g) in
          if negb (mb_available m) then distribute clk n' next remaining total g r
          else
            let share := member_share g total m in
            let g := g <| lg_members ::= <[Z.to_nat current := m <| mb_current_load := share |>]> |> in
            let r := snd (rtu_registry_update_actuator (clk n') r (mb_rtu_station m) (mb_slot m)
                            (share_output share (mb_capacity m))) in
            distribute clk n' next (fsub remaining share) total g r
      end
  end.

Definition total_capacity (g : group) : float32 :=
  foldl (fun c m => if mb_available m then fadd c (mb_capacity m) else c) f0 (members g).

(** [distribute_load] *)
Definition distribute_load (clk : nat -> Z) (registry_set : bool) (g : group) (r : registry)
    : option (group * registry) :=
  if negb registry_set || (lg_member_count g =? 0) then Some (g, r)
  else
    let total := total_capacity g in
    if negb (existsb mb_available (members g)) || fle total f0 then Some (g, r)
    else distribute clk (Z.to_nat (lg_member_count g)) (lg_lead_member g) (lg_total_demand g) total g r.

(** Availability from the registry ([alloc j]: the allocations of the [j]-th device copy). *)
Definition refresh_member (alloc : nat -> nat -> bool) (r : registry) (j : nat) (m : member) : member :=
  match rtu_registry_get_device (alloc j) r (mb_rtu_station m) with
  | Some d => m <| mb_available := bool_decide (dev_connection_state d = PROFINET_STATE_RUNNING) |>
  | None => m
  end.

(** Apply [f] to the members in use. *)
Definition on_members (f : nat -> member -> member) (g : group) : group :=
  g <| lg_members := imap f (members g) ++ drop (Z.to_nat (lg_member_count g)) (lg_members g) |>.

(** One group of [load_balance_process]; [clk 0] is the clock of the rotation. *)
Definition process_group (alloc : nat -> nat -> bool) (clk : nat -> Z) (now : Z) (i : nat)
    (st : load_balancer * registry) : option (load_balancer * registry) :=
  let '(lb, r) := st in
  match lb_groups lb !! i with
  | None => Some (lb, r)
  | Some g =>
      if negb (lg_enabled g) then Some (lb, r)
      else
        let g := if lb_registry lb then on_members (refresh_member alloc r) g else g in
        let lb := lb <| lb_groups ::= <[i := g]> |> in
        let lb :=
          if (0 <? lg_rotation_interval_ms g) &&
             (lg_rotation_interval_ms g <=? u64_sub now (lg_last_rotation_ms g))
          then snd <$> load_balance_rotate (clk 0%nat) lb (lg_group_id g)
          else Some lb in
        match lb with
        | None => None
        | Some lb =>
            let g := default g (lb_groups lb !! i) in
            let dt := u64_sub now (lb_last_process_ms lb) in
            let g := on_members (fun _ m => if fgt (mb_current_load m) f0
                                            then m <| mb_runtime_ms ::= fun t => wrap64 (t + dt) |> else m) g in
            match distribute_load (fun k => clk (S k)) (lb_registry lb) g r with
            | None => None
            | Some (g, r) => Some (lb <| lb_groups ::= <[i := g]> |>, r)
            end
        end
  end.

Fixpoint process_groups (alloc : nat -> nat -> nat -> bool) (clk : nat -> nat -> Z) (now : Z)
    (todo : list nat) (st : load_balancer * registry) : option (load_balancer * registry) :=
  match todo with
  | [] => Some st
  | i :: todo =>
      match process_group (alloc i) (clk i) now i st with
      | None => None
      | Some st => process_groups alloc clk now todo st
      end
  end.

(** [load_balance_process] *)
Definition load_balance_process (alloc : nat -> nat -> nat -> bool) (clk : nat -> nat -> Z) (now : Z)
    (lb : load_balancer) (r : registry) : option (wtc_result * load_balancer * registry) :=
  if negb (lb_running lb) then Some (WTC_ERROR_NOT_INITIALIZED, lb, r)
  else
    match process_groups alloc clk now (seq 0 (length (lb_groups lb))) (lb, r) with
    | None => None
    | Some (lb, r) => Some (WTC_OK, lb <| lb_last_process_ms := now |>, r)
    end.
End Process.

(** ** Rotation *)

(** A group the code can work with: members inside the array, the lead one of them. *)
Definition group_ok (g : group) : Prop :=
  0 < lg_member_count g <= Z.of_nat (length (lg_members g)) /\
  0 <= lg_lead_member g < lg_member_count g.

Lemma member_at_ok g i :
  group_ok g -> 0 <= i < lg_member_count g -> exists m, member_at g i = Some m /\ m ∈ members g.
Proof.
  intros [Hc _] Hi. unfold member_at. destruct (Z.ltb_spec i 0); [lia|].
  destruct (lookup_lt_is_Some_2 (lg_members g) (Z.to_nat i)) as [m Hm]; [lia|].
  exists m. split; [done|]. apply list_elem_of_lookup. exists (Z.to_nat i).
  unfold members. rewrite lookup_take_lt by lia. done.
Qed.

(** The [k]-th member after the lead. *)
Definition after_lead (g : group) (k : Z) : Z := (lg_lead_member g + k) mod lg_member_count g.

Lemma after_lead_range g k : group_ok g -> 0 <= after_lead g k < lg_member_count g.
Proof. intros [Hc _]. apply Z.mod_pos_bound. lia. Qed.

Lemma after_lead_next g k :
  group_ok g -> Z.rem (after_lead g k + 1) (lg_member_count g) = after_lead g (k + 1).
Proof.
  intros Hok. pose proof (after_lead_range g k Hok). rewrite Z.rem_mod_nonneg by lia.
  unfold after_lead. rewrite Zplus_mod_idemp_l. f_equal. lia.
Qed.

Definition available (g : group) (i : Z) : bool :=
  match member_at g i with Some m => mb_available m | None => false end.

Lemma next_available_spec g n k fuel :
  group_ok g -> 1 <= k <= lg_member_count g -> Z.of_nat n = lg_member_count g - k -> (n < fuel)%nat ->
  exists j, k <= j <= lg_member_count g /\
    next_available fuel g (after_lead g k) = Some (after_lead g j) /\
    (forall i, k <= i < j -> available g (after_lead g i) = false) /\
    (j < lg_member_count g -> available g (after_lead g j) = true).
Proof.
  intros Hok. revert k fuel. induction n as [|n IH]; intros k fuel Hk Hn Hf; (destruct fuel as [|fuel]; [lia|]);
    cbn [next_available]; destruct (member_at_ok g (after_lead g k) Hok (after_lead_range g k Hok)) as (m & Hm & _);
    rewrite Hm.
  - assert (k = lg_member_count g) as -> by lia.
    assert (after_lead g (lg_member_count g) = lg_lead_member g) as E.
    { unfold after_lead. destruct Hok as [_ Hl]. rewrite <- (Z.mul_1_l (lg_member_count g)) at 1.
      rewrite Z.mod_add by lia. by apply Z.mod_small. }
    rewrite E, Z.eqb_refl. rewrite andb_false_r. exists (lg_member_count g).
    split_and!; [lia..|by rewrite E|intros; lia|intros; lia].
  - destruct (mb_available m) eqn:Ha; cbn [negb andb].
    + exists k. split_and!; [lia..|done|intros; lia|]. intros _. unfold available. by rewrite Hm.
    + destruct (Z.eqb_spec (after_lead g k) (lg_lead_member g)) as [E|E]; cbn [negb].
      { exfalso. unfold after_lead in E. destruct Hok as [Hc Hl].
        pose proof (Z.div_mod (lg_lead_member g + k) (lg_member_count g) ltac:(lia)) as D. rewrite E in D.
        revert D. generalize ((lg_lead_member g + k) / lg_member_count g). intros q D.
        assert (q <= 0 \/ 1 <= q) as [|] by lia; nia. }
      rewrite after_lead_next by done. destruct (IH (k + 1) fuel) as (j & Hj & H1 & H2 & H3); [lia..|].
      exists j. split_and!; [lia..|done| |done]. intros i Hi. destruct (decide (i = k)) as [->|].
      * unfold available. by rewrite Hm.
      * apply H2. lia.
Qed.

(** Round-robin rotation ends and makes the next available member after the lead the
    new lead; when no other member is available the lead stays. *)
Theorem rotation_round_robin now g :
  group_ok g -> lg_wear_leveling g = false ->
  exists j, 1 <= j <= lg_member_count g /\
    rotate_group now g = Some (g <| lg_lead_member := after_lead g j |> <| lg_last_rotation_ms := now |>) /\
    (forall i, 1 <= i < j -> available g (after_lead g i) = false) /\
    (j < lg_member_count g -> available g (after_lead g j) = true) /\
    (j = lg_member_count g -> after_lead g j = lg_lead_member g).
Proof.
  intros Hok Hw. unfold rotate_group. rewrite Hw.
  destruct (Z.eqb_spec (lg_member_count g) 0); [destruct Hok; lia|].
  assert (Z.rem (lg_lead_member g + 1) (lg_member_count g) = after_lead g 1) as ->.
  { destruct Hok. by rewrite Z.rem_mod_nonneg by lia. }
  destruct (next_available_spec g (Z.to_nat (lg_member_count g - 1)) 1 (S (Z.to_nat (lg_member_count g))))
    as (j & Hj & -> & H2 & H3); [done|destruct Hok; lia..|].
  exists j. split_and!; [lia..|done|done|done|]. intros ->. destruct Hok as [_ Hl]. unfold after_lead.
  rewrite <- (Z.mul_1_l (lg_member_count g)) at 1. rewrite Z.mod_add by lia. by apply Z.mod_small.
Qed.

Lemma lowest_runtime_spec i li low ms :
  let k := lowest_runtime i li low ms in
  (k = li /\ Forall (fun m => mb_available m = true -> low <= mb_runtime_ms m) ms) \/
  (exists m, i <= k /\ ms !! Z.to_nat (k - i) = Some m /\ mb_available m = true /\ mb_runtime_ms m < low /\
     Forall (fun m' => mb_available m' = true -> mb_runtime_ms m <= mb_runtime_ms m') ms).
Proof.
  revert i li low. induction ms as [|m ms IH]; intros i li low; cbn [lowest_runtime]; cbv zeta; [by left|].
  destruct (mb_available m) eqn:Ha; cbn [andb]; [destruct (Z.ltb_spec (mb_runtime_ms m) low) as [Hlt|Hge]|].
  - right. destruct (IH (i + 1) i (mb_runtime_ms m)) as [[-> Hall]|(m' & H1 & H2 & H3 & H4 & H5)].
    + exists m. rewrite Z.sub_diag. split_and!; [lia|done..|]. constructor; [lia|done].
    + exists m'. split_and!; [lia| |done|lia|].
      * replace (Z.to_nat (lowest_runtime (i + 1) i (mb_runtime_ms m) ms - i))
          with (S (Z.to_nat (lowest_runtime (i + 1) i (mb_runtime_ms m) ms - (i + 1)))) by lia. done.
      * constructor; [lia|done].
  - destruct (IH (i + 1) li low) as [[-> Hall]|(m' & H1 & H2 & H3 & H4 & H5)].
    + left. split; [done|]. constructor; [lia|done].
    + right. exists m'. split_and!; [lia| |done|lia|constructor; [lia|done]].
      replace (Z.to_nat (lowest_runtime (i + 1) li low ms - i))
        with (S (Z.to_nat (lowest_runtime (i + 1) li low ms - (i + 1)))) by lia. done.
  - destruct (IH (i + 1) li low) as [[-> Hall]|(m' & H1 & H2 & H3 & H4 & H5)].
    + left. split; [done|]. constructor; [congruence|done].
    + right. exists m'. split_and!; [lia| |done|lia|constructor; [congruence|done]].
      replace (Z.to_nat (lowest_runtime (i + 1) li low ms - i))
        with (S (Z.to_nat (lowest_runtime (i + 1) li low ms - (i + 1)))) by lia. done.
Qed.

(** Wear levelling makes an available member with the least run time the lead, when one
    has run less than the largest count. *)
Theorem rotation_wear_levelling g :
  let k := find_lowest_runtime_member g in
  (k = -1 /\ Forall (fun m => mb_available m = true -> 2 ^ 64 - 1 <= mb_runtime_ms m) (members g)) \/
  (exists m, 0 <= k < Z.of_nat (length (members g)) /\ members g !! Z.to_nat k = Some m /\ mb_available m = true /\
     Forall (fun m' => mb_available m' = true -> mb_runtime_ms m <= mb_runtime_ms m') (members g)).
Proof.
  cbv zeta. unfold find_lowest_runtime_member.
  destruct (lowest_runtime_spec 0 (-1) (2 ^ 64 - 1) (members g)) as [H|(m & H1 & H2 & H3 & H4 & H5)]; [by left|].
  right. exists m. rewrite Z.sub_0_r in H2. pose proof (lookup_lt_Some _ _ _ H2). split_and!; [lia|lia|done..].
Qed.

(** ** Processing *)

Section Safe.
Variable ub : float32 -> Z.

Lemma imap_fmap_keeps {A B} (f : nat -> A -> A) (k : A -> B) l :
  (forall j x, k (f j x) = k x) -> k <$> imap f l = k <$> l.
Proof.
  revert f. induction l as [|m l IH]; intros f Hf; [done|].
  rewrite imap_cons, !fmap_cons, Hf. f_equal. apply IH. intros j x. apply Hf.
Qed.

(** What the registry is compared with: the links as before and the point untouched. *)
Definition untouched (r0 : registry) (st : string) (sl : Z) (r : registry) : Prop :=
  rtu_registry_get_actuator r st sl = rtu_registry_get_actuator r0 st sl.
Definition same_links (r0 r : registry) : Prop :=
  forall st, dev_connection_state <$> find_device_locked r st = dev_connection_state <$> find_device_locked r0 st.

Lemma update_actuator_links now r st sl o :
  same_links r (snd (rtu_registry_update_actuator now r st sl o)).
Proof.
  destruct (update_actuator_devices now r st sl o) as [[-> _]|(d & Hd & _ & _ & H)]; [by intros ?|].
  intros st'. rewrite H. destruct (decide (st' = st)) as [->|]; [by rewrite Hd|done].
Qed.

Lemma same_links_trans a b c : same_links a b -> same_links b c -> same_links a c.
Proof. intros H1 H2 st. by rewrite H2, H1. Qed.

(** [g'] differs from [g] in the loads of its members only. *)
Definition point_of (m : member) : string * Z * bool := (mb_rtu_station m, mb_slot m, mb_available m).
Definition same_points (g g' : group) : Prop :=
  point_of <$> lg_members g' = point_of <$> lg_members g /\ lg_member_count g' = lg_member_count g /\
  lg_lead_member g' = lg_lead_member g /\ lg_group_id g' = lg_group_id g /\ lg_enabled g' = lg_enabled g.

Lemma same_points_trans a b c : same_points a b -> same_points b c -> same_points a c.
Proof. intros (A1&A2&A3&A4&A5) (B1&B2&B3&B4&B5). unfold same_points. by rewrite B1, B2, B3, B4, B5. Qed.

Lemma same_points_ok g g' : same_points g g' -> group_ok g -> group_ok g'.
Proof.
  intros (H1 & H2 & H3 & _) Hok. unfold group_ok. rewrite H2, H3.
  assert (length (lg_members g') = length (lg_members g)) as -> by (by rewrite <- (length_fmap point_of), H1, length_fmap).
  done.
Qed.

(** A point none of whose members is available. *)
Definition no_member (st : string) (sl : Z) (g : group) : Prop :=
  Forall (fun p => p <> (st, sl, true)) (point_of <$> members g).

Lemma same_points_members g g' : same_points g g' -> point_of <$> members g' = point_of <$> members g.
Proof. intros (H1 & H2 & _). unfold members. by rewrite !fmap_take, H1, H2. Qed.

Lemma distribute_total clk n current remaining total g r :
  group_ok g -> 0 <= current < lg_member_count g ->
  exists g' r', distribute ub clk n current remaining total g r = Some (g', r') /\ same_points g g' /\
    same_links r r' /\ forall st sl, no_member st sl g -> untouched r st sl r'.
Proof.
  revert current remaining g r. induction n as [|n IH]; intros current remaining g r Hok Hc; cbn [distribute].
  { exists g, r. split_and!; done. }
  destruct (fgt remaining f0); cbn [negb]; [|exists g, r; split_and!; done].
  destruct (member_at_ok g current Hok Hc) as (m & Hm & Hin). rewrite Hm.
  assert (0 <= Z.rem (current + 1) (lg_member_count g) < lg_member_count g) as Hn.
  { rewrite Z.rem_mod_nonneg by lia. apply Z.mod_pos_bound. lia. }
  destruct (mb_available m) eqn:Ha; cbn [negb]; [|by apply IH].
  set (share := member_share g total m). set (m' := m <| mb_current_load := share |>).
  set (g1 := g <| lg_members ::= <[Z.to_nat current := m']> |>).
  set (r1 := snd (rtu_registry_update_actuator _ _ _ _ _)).
  assert (same_points g g1) as Hs.
  { split; [|done]. cbn [lg_members g1 set]. rewrite list_fmap_insert. apply list_insert_id.
    rewrite list_lookup_fmap. unfold member_at in Hm. destruct (current <? 0); [done|]. by rewrite Hm. }
  destruct (IH (Z.rem (current + 1) (lg_member_count g)) (fsub remaining share) g1 r1)
    as (g' & r' & E & H1 & H2 & H3); [by eapply same_points_ok|done|].
  exists g', r'. split_and!; [exact E|by eapply same_points_trans| |].
  - eapply same_links_trans; [apply update_actuator_links|done].
  - intros st sl Hno. unfold untouched. rewrite H3.
    + refine (update_actuator_frame r (clk n) (mb_rtu_station m) (mb_slot m) _ st sl _). intros [= Est Esl].
      unfold no_member in Hno. rewrite Forall_forall in Hno.
      apply (Hno (point_of m)); [by apply list_elem_of_fmap_2|]. unfold point_of. by rewrite Ha, Est, Esl.
    + unfold no_member. by rewrite same_points_members with (g := g).
Qed.
Lemma distribute_load_total clk set_ g r :
  group_ok g ->
  exists g' r', distribute_load ub clk set_ g r = Some (g', r') /\ same_points g g' /\
    same_links r r' /\ forall st sl, no_member st sl g -> untouched r st sl r'.
Proof.
  intros Hok. unfold distribute_load. destruct (_ || _); [by exists g, r|].
  destruct (_ || _); [by exists g, r|]. apply distribute_total; [done|apply Hok].
Qed.

Lemma on_members_points f g :
  (forall j m, point_of (f j m) = point_of m) -> point_of <$> lg_members (on_members f g) = point_of <$> lg_members g.
Proof.
  intros Hf. unfold on_members. cbn [lg_members set].
  transitivity (point_of <$> (members g ++ drop (Z.to_nat (lg_member_count g)) (lg_members g)));
    [|unfold members; by rewrite take_drop].
  rewrite !fmap_app. f_equal. by apply imap_fmap_keeps.
Qed.

(** What processing never changes of a group. *)
Definition address_of (m : member) : string * Z := (mb_rtu_station m, mb_slot m).
Definition static (g : group) : Z * bool * Z * list (string * Z) :=
  (lg_group_id g, lg_enabled g, lg_member_count g, address_of <$> lg_members g).

Lemma same_points_static g g' : same_points g g' -> static g' = static g.
Proof.
  intros (H1 & H2 & _ & H4 & H5). unfold static. rewrite H2, H4, H5. f_equal.
  assert (forall l, address_of <$> l = fst <$> (point_of <$> l)) as E by (intros l; by rewrite <- list_fmap_compose).
  by rewrite !E, H1.
Qed.

Lemma on_members_static f g :
  (forall j m, address_of (f j m) = address_of m) -> static (on_members f g) = static g.
Proof.
  intros Hf. unfold static, on_members. cbn [lg_group_id lg_enabled lg_member_count lg_members set]. f_equal.
  transitivity (address_of <$> (members g ++ drop (Z.to_nat (lg_member_count g)) (lg_members g)));
    [|unfold members; by rewrite take_drop].
  rewrite !fmap_app. f_equal. by apply imap_fmap_keeps.
Qed.

Lemma on_members_ok f g : group_ok g -> group_ok (on_members f g).
Proof.
  intros [H1 H2]. split; [|done]. cbn [on_members lg_member_count lg_members set].
  rewrite length_app, length_imap, length_drop. unfold members. rewrite length_take. lia.
Qed.

Definition stopped (r : registry) (st : string) : Prop :=
  exists d, find_device_locked r st = Some d /\ dev_connection_state d <> PROFINET_STATE_RUNNING.

Lemma same_links_stopped r r' st : same_links r r' -> stopped r st -> stopped r' st.
Proof.
  intros H (d & Hd & Hs). specialize (H st). rewrite Hd in H.
  destruct (find_device_locked r' st) as [d'|] eqn:E; [|done]. cbn in H. injection H as H. exists d'.
  split; [done|]. congruence.
Qed.

(** Every enabled member at the point belongs to an RTU that does not run. *)
Definition idle_at (r : registry) (st : string) (sl : Z) (x : Z * bool * Z * list (string * Z)) : Prop :=
  let '(_, enabled, count, addresses) := x in
  enabled = true -> (st, sl) ∈ take (Z.to_nat count) addresses -> stopped r st.

(** After the refresh such a member is not available. *)
Lemma refreshed_no_member alloc r st sl g :
  (forall j, alloc j 0%nat = true) -> group_ok g -> lg_enabled g = true -> idle_at r st sl (static g) ->
  no_member st sl (on_members (refresh_member alloc r) g).
Proof.
  intros Ha [Hcount _] He Hidle. unfold no_member. apply Forall_forall. intros p (m & -> & Hm)%list_elem_of_fmap Heq.
  apply list_elem_of_lookup in Hm as [j Hj]. unfold members, on_members in Hj.
  cbn [lg_members lg_member_count set] in Hj.
  rewrite take_app_le in Hj by (rewrite length_imap; unfold members; rewrite length_take; lia).
  apply lookup_take_Some in Hj as [Hj _]. rewrite list_lookup_imap in Hj.
  destruct (members g !! j) as [m0|] eqn:Hm0; [|done]. cbn in Hj. injection Hj as <-.
  assert (address_of m0 = (st, sl)) as Had.
  { unfold point_of, refresh_member in Heq. destruct (rtu_registry_get_device _ _ _); cbn in Heq; unfold address_of; congruence. }
  assert (stopped r st) as (d & Hd & Hs).
  { apply Hidle; [done|]. unfold static. rewrite <- Had. rewrite <- fmap_take. apply list_elem_of_fmap_2.
    by eapply list_elem_of_lookup_2. }
  unfold refresh_member, rtu_registry_get_device in Heq. injection Had as Hst _. rewrite Hst, Hd in Heq.
  unfold deep_copy_device in Heq. rewrite Ha in Heq. cbn in Heq. injection Heq as _ _ E.
  apply bool_decide_eq_true in E. apply Hs. rewrite <- E. by repeat case_match.
Qed.

Definition lb_ok (lb : load_balancer) : Prop :=
  Forall group_ok (lb_groups lb) /\ NoDup (lg_group_id <$> lb_groups lb).

Lemma rotate_group_ok now g :
  group_ok g -> exists g', rotate_group now g = Some g' /\ group_ok g' /\ static g' = static g /\
    lg_members g' = lg_members g.
Proof.
  intros Hok. destruct (lg_wear_leveling g) eqn:Hw.
  - unfold rotate_group. rewrite Hw. eexists. split; [reflexivity|].
    destruct (Z.leb_spec 0 (find_lowest_runtime_member g)) as [H0|]; cbn [andb]; [|done].
    destruct (negb _); [|done]. split; [|done]. destruct Hok as [H1 H2]. split; [done|]. cbn [lg_lead_member lg_member_count set].
    destruct (lowest_runtime_spec 0 (-1) (2 ^ 64 - 1) (members g)) as [[E _]|(m & E1 & E2 & _)];
      fold (find_lowest_runtime_member g) in *; [lia|].
    apply lookup_lt_Some in E2. unfold members in E2. rewrite length_take in E2. lia.
  - unfold rotate_group. rewrite Hw. destruct (Z.eqb_spec (lg_member_count g) 0); [destruct Hok; lia|].
    assert (Z.rem (lg_lead_member g + 1) (lg_member_count g) = after_lead g 1) as ->.
    { destruct Hok. by rewrite Z.rem_mod_nonneg by lia. }
    destruct (next_available_spec g (Z.to_nat (lg_member_count g - 1)) 1 (S (Z.to_nat (lg_member_count g))))
      as (j & _ & -> & _); [done|destruct Hok; lia..|].
    eexists. split; [reflexivity|]. split; [|done]. split; [apply Hok|exact (after_lead_range g j Hok)].
Qed.

Lemma list_find_keyed (l : list group) i g :
  NoDup (lg_group_id <$> l) -> l !! i = Some g -> list_find (keyed lg_group_id (lg_group_id g)) l = Some (i, g).
Proof.
  intros Hnd Hi. apply list_find_Some. split_and!; [done|done|]. intros k g' Hk Hlt Heq.
  assert (k = i); [|lia]. eapply NoDup_lookup; [exact Hnd| |].
  - by rewrite list_lookup_fmap, Hk.
  - rewrite list_lookup_fmap, Hi. cbn. by rewrite <- Heq.
Qed.

Lemma insert_static (l : list group) i g g' :
  l !! i = Some g -> static g' = static g -> static <$> <[i := g']> l = static <$> l.
Proof.
  intros Hi Hs. rewrite list_fmap_insert. apply list_insert_id. by rewrite list_lookup_fmap, Hi, Hs.
Qed.

Lemma insert_ok lb i g g' :
  lb_ok lb -> lb_groups lb !! i = Some g -> group_ok g' -> static g' = static g ->
  lb_ok (lb <| lb_groups ::= <[i := g']> |>).
Proof.
  intros [H1 H2] Hi Hg Hs. split; cbn [lb_groups set]; [by apply Forall_insert|].
  assert (forall l, lg_group_id <$> l = (fun x => fst (fst (fst x))) <$> (static <$> l)) as E
    by (intros l; by rewrite <- list_fmap_compose).
  rewrite E, (insert_static _ _ g) by done. by rewrite <- E.
Qed.

Lemma rotate_known now lb i g :
  lb_ok lb -> lb_groups lb !! i = Some g ->
  exists g', load_balance_rotate now lb (lg_group_id g) = Some (WTC_OK, lb <| lb_groups ::= <[i := g']> |>) /\
    group_ok g' /\ static g' = static g /\ lg_members g' = lg_members g.
Proof.
  intros [H1 H2] Hi. unfold load_balance_rotate. rewrite (list_find_keyed _ i g) by done.
  destruct (rotate_group_ok now g) as (g' & -> & H); [by eapply Forall_lookup_1|]. by exists g'.
Qed.

(** One group: the run comes to an end, keeps the invariant and all addresses, and
    leaves idle points alone. *)
Lemma process_group_total alloc clk now i lb r :
  lb_ok lb -> lb_registry lb = true -> (forall j, alloc j 0%nat = true) ->
  exists lb' r', process_group ub alloc clk now i (lb, r) = Some (lb', r') /\ lb_ok lb' /\
    static <$> lb_groups lb' = static <$> lb_groups lb /\ lb_registry lb' = true /\ same_links r r' /\
    forall st sl, Forall (idle_at r st sl) (static <$> lb_groups lb) -> untouched r st sl r'.
Proof.
  intros Hok Hreg Ha. unfold process_group.
  destruct (lb_groups lb !! i) as [g|] eqn:Hi; [|by exists lb, r].
  destruct (lg_enabled g) eqn:He; cbn [negb]; [|by exists lb, r]. rewrite Hreg.
  set (g1 := on_members (refresh_member alloc r) g). set (lb1 := lb <| lb_groups ::= <[i := g1]> |>).
  assert (group_ok g) as Hg by (destruct Hok as [H _]; by eapply Forall_lookup_1).
  assert (group_ok g1) as Hg1 by (by apply on_members_ok).
  assert (static g1 = static g) as Hs1.
  { apply on_members_static. intros j m. unfold refresh_member. by destruct (rtu_registry_get_device _ _ _). }
  assert (lb_ok lb1) as Hok1 by (by eapply insert_ok).
  assert (lb_groups lb1 !! i = Some g1) as Hi1.
  { cbn [lb1 lb_groups set]. apply list_lookup_insert_eq. by eapply lookup_lt_Some. }
  assert (exists lb2 g2, (if (0 <? lg_rotation_interval_ms g1) &&
             (lg_rotation_interval_ms g1 <=? u64_sub now (lg_last_rotation_ms g1))
          then snd <$> load_balance_rotate (clk 0%nat) lb1 (lg_group_id g1) else Some lb1) = Some lb2 /\
          lb_ok lb2 /\ lb_groups lb2 = <[i := g2]> (lb_groups lb1) /\ lb_registry lb2 = true /\
          group_ok g2 /\ static g2 = static g1 /\ lg_members g2 = lg_members g1) as (lb2 & g2 & -> & Hok2 & El2 & Hreg2 & Hg2 & Hs2 & Hm2).
  { destruct (_ && _).
    - destruct (rotate_known (clk 0%nat) lb1 i g1 Hok1 Hi1) as (g2 & -> & H1 & H2 & H3).
      exists (lb1 <| lb_groups ::= <[i := g2]> |>), g2. split_and!; try done. by eapply insert_ok.
    - exists lb1, g1. split_and!; try done. by rewrite list_insert_id. }
  assert (lb_groups lb2 !! i = Some g2) as Hi2.
  { rewrite El2. apply list_lookup_insert_eq. by eapply lookup_lt_Some. }
  rewrite Hi2. change (default g1 (Some g2)) with g2. cbv zeta.
  match goal with |- context [on_members ?f g2] => set (g3 := on_members f g2) end.
  assert (same_points g2 g3) as Hp3.
  { split_and!; try done. apply on_members_points. intros j m. by destruct (fgt _ _). }
  destruct (distribute_load_total (fun k => clk (S k)) (lb_registry lb2) g3 r) as (g4 & r' & -> & Hp4 & Hl & Hu);
    [by eapply same_points_ok|].
  assert (same_points g2 g4) as Hp by (by eapply same_points_trans).
  exists (lb2 <| lb_groups ::= <[i := g4]> |>), r'. split_and!; try done.
  - eapply insert_ok; [done|done|by eapply same_points_ok|by apply same_points_static].
  - cbn [lb_groups set]. rewrite (insert_static _ _ g2), El2 by (done || by apply same_points_static).
    rewrite (insert_static _ _ g1) by done. by apply (insert_static _ _ g).
  - intros st sl Hidle. apply Hu. unfold no_member. rewrite (same_points_members g2 g3) by done.
    assert (lg_member_count g2 = lg_member_count g1) as En by (unfold static in Hs2; congruence).
    assert (members g2 = members g1) as -> by (unfold members; by rewrite Hm2, En).
    apply (refreshed_no_member alloc r st sl g); try done.
    rewrite Forall_fmap in Hidle. by eapply (Forall_lookup_1 _ _ _ _ Hidle).
Qed.

Lemma process_groups_total alloc clk now todo lb r :
  lb_ok lb -> lb_registry lb = true -> (forall i j, alloc i j 0%nat = true) ->
  exists lb' r', process_groups ub alloc clk now todo (lb, r) = Some (lb', r') /\ lb_ok lb' /\
    static <$> lb_groups lb' = static <$> lb_groups lb /\ same_links r r' /\
    forall st sl, Forall (idle_at r st sl) (static <$> lb_groups lb) -> untouched r st sl r'.
Proof.
  intros Hok Hreg Ha. revert lb r Hok Hreg. induction todo as [|i todo IH]; intros lb r Hok Hreg; cbn [process_groups].
  { by exists lb, r. }
  destruct (process_group_total (alloc i) (clk i) now i lb r Hok Hreg (Ha i))
    as (lb1 & r1 & -> & H1 & H2 & H3 & H4 & H5).
  destruct (IH lb1 r1 H1 H3) as (lb' & r' & -> & I1 & I2 & I3 & I4).
  exists lb', r'. split_and!; [done|done|by rewrite I2|by eapply same_links_trans|].
  intros st sl Hidle. unfold untouched. rewrite I4; [by apply H5|]. rewrite H2.
  eapply Forall_impl; [exact Hidle|]. intros [[[id en] n] l] Hx He Hin. eapply same_links_stopped; [done|by apply Hx].
Qed.

(** Load balancing always comes to an end on well-formed groups and keeps them so -
    lead and members inside their array, ids distinct, no group's addresses changed -
    and it writes only to members of enabled groups whose RTU runs: any other output of
    the plant stays as it was, and no link state changes. *)
Lemma load_balance_safe alloc clk now lb r :
  lb_ok lb -> lb_running lb = true -> lb_registry lb = true -> (forall i j, alloc i j 0%nat = true) ->
  exists lb' r', load_balance_process ub alloc clk now lb r = Some (WTC_OK, lb', r') /\ lb_ok lb' /\
    static <$> lb_groups lb' = static <$> lb_groups lb /\ same_links r r' /\
    forall st sl, Forall (idle_at r st sl) (static <$> lb_groups lb) -> untouched r st sl r'.
Proof.
  intros Hok Hrun Hreg Ha. unfold load_balance_process. rewrite Hrun. cbn [negb].
  destruct (process_groups_total alloc clk now (seq 0 (length (lb_groups lb))) lb r Hok Hreg Ha)
    as (lb' & r' & -> & H). by exists (lb' <| lb_last_process_ms := now |>), r'.
Qed.

(** Without demand nothing is written: the members keep their last output. *)
Theorem no_demand_no_write clk g r :
  fgt (lg_total_demand g) f0 = false -> distribute_load ub clk true g r = Some (g, r).
Proof.
  intros Hd. unfold distribute_load. cbn [negb orb]. destruct (lg_member_count g =? 0); [done|].
  destruct (_ || _); [done|]. destruct (Z.to_nat (lg_member_count g)); [done|]. cbn [distribute]. by rewrite Hd.
Qed.
End Safe.

End Balance.

Module Coord.
Import Cascade Balance.

(** [coordination_config_t] *)
Record coordination_config := mk_coordination_config {
  co_failover_mode : failover_mode;
  co_heartbeat_interval_ms : Z;
  co_failover_timeout_ms : Z;
  co_enable_load_balancing : bool;
  co_enable_cascade_control : bool }.

(** [coordination_status_t] *)
Record coordination_status := mk_coordination_status {
  cs_active : bool;
  cs_managed_rtus : Z;
  cs_healthy_rtus : Z;
  cs_failed_rtus : Z;
  cs_load_balancing_active : bool;
  cs_cascade_active : bool;
  cs_last_failover_ms : Z }.
#[export] Instance eta_coordination_status : Eta coordination_status := fun r =>
  mk_coordination_status (cs_active r) (cs_managed_rtus r) (cs_healthy_rtus r) (cs_failed_rtus r)
    (cs_load_balancing_active r) (cs_cascade_active r) (cs_last_failover_ms r).

(** [struct coordination_manager] *)
Record coordination_manager := mk_coordination_manager {
  cm_config : coordination_config;
  cm_running : bool;
  cm_registry : bool;
  cm_control : bool;
  cm_cascade : option cascade_controller;
  cm_load_balancer : option load_balancer;
  cm_failover : option failover_manager;
  cm_status : coordination_status }.
#[export] Instance eta_coordination_manager : Eta coordination_manager := fun r =>
  mk_coordination_manager (cm_config r) (cm_running r) (cm_registry r) (cm_control r) (cm_cascade r)
    (cm_load_balancer r) (cm_failover r) (cm_status r).

(** [coordination_init] ([alloc k]: the [k]-th of its four allocations). *)
Definition coordination_init (alloc : nat -> bool) (config : coordination_config)
    : wtc_result * option coordination_manager :=
  if negb (alloc 0%nat) then (WTC_ERROR_NO_MEMORY, None)
  else
    let cascade := if co_enable_cascade_control config then snd (cascade_init (alloc 1%nat) 32 100) else None in
    let balancer := if co_enable_load_balancing config
                    then snd (load_balance_init (alloc 2%nat) 16 5000) else None in
    let failover := snd (failover_init (alloc 3%nat)
                           (mk_failover_config (co_failover_mode config) (co_heartbeat_interval_ms config)
                              (co_failover_timeout_ms config) 0)) in
    (WTC_OK, Some (mk_coordination_manager config false false false cascade balancer failover
                     (mk_coordination_status false 0 0 0 false false 0))).

(** [coordination_start] ([clk]: cascade, balancer, failover). *)
Definition coordination_start (clk : nat -> Z) (cm : coordination_manager) : coordination_manager :=
  if cm_running cm then cm
  else cm <| cm_cascade ::= fmap (cascade_start (clk 0%nat)) |>
          <| cm_load_balancer ::= fmap (load_balance_start (clk 1%nat)) |>
          <| cm_failover ::= fmap (fun f => snd (failover_start (clk 2%nat) f)) |>
          <| cm_running := true |>
          <| cm_status ::= fun s => s <| cs_active := true |> |>.

Definition coordination_stop (cm : coordination_manager) : coordination_manager :=
  if negb (cm_running cm) then cm
  else cm <| cm_cascade ::= fmap cascade_stop |>
          <| cm_load_balancer ::= fmap load_balance_stop |>
          <| cm_failover ::= fmap (fun f => snd (failover_stop f)) |>
          <| cm_running := false |>
          <| cm_status ::= fun s => s <| cs_active := false |> |>.

Definition coordination_set_registry (cm : coordination_manager) (registry : bool) : coordination_manager :=
  cm <| cm_registry := registry |>
     <| cm_failover ::= fmap (fun f => snd (failover_set_registry f registry)) |>
     <| cm_load_balancer ::= fmap (fun l => load_balance_set_registry l registry) |>.

Definition coordination_set_control_engine (cm : coordination_manager) (engine : bool)
    : coordination_manager :=
  cm <| cm_control := engine |> <| cm_cascade ::= fmap (fun c => cascade_set_control_engine c engine) |>.

(** The clock readings and allocations of one processing. *)
Record coord_inputs := mk_coord_inputs {
  ci_failover_clk : reading -> Z;
  ci_failover_alloc : bool;
  ci_balance_alloc : nat -> nat -> nat -> bool;
  ci_balance_clk : nat -> nat -> Z;
  ci_balance_now : Z;
  ci_cascade_now : Z }.

(** [coordination_process]: failover, load balancing, cascade, in this order. *)
Definition coordination_process (ub : float32 -> Z) (inp : coord_inputs) (cm : coordination_manager)
    (r : registry) (e : control_engine)
    : option (wtc_result * coordination_manager * registry * control_engine) :=
  if negb (cm_running cm) then Some (WTC_ERROR_NOT_INITIALIZED, cm, r, e)
  else
    let cm :=
      match cm_failover cm with
      | None => cm
      | Some f =>
          let f := snd (failover_process (ci_failover_clk inp) (ci_failover_alloc inp) r f) in
          let st := snd (failover_get_status f) in
          cm <| cm_failover := Some f |>
             <| cm_status ::= fun s => s <| cs_healthy_rtus := fs_healthy_count st |>
                                         <| cs_failed_rtus := fs_failed_count st |>
                                         <| cs_last_failover_ms := fs_last_failover_ms st |> |>
      end in
    let balanced :=
      match cm_load_balancer cm with
      | None => Some (cm, r)
      | Some l =>
          match load_balance_process ub (ci_balance_alloc inp) (ci_balance_clk inp) (ci_balance_now inp) l r with
          | None => None
          | Some (_, l, r) =>
              Some (cm <| cm_load_balancer := Some l |>
                       <| cm_status ::= fun s => s <| cs_load_balancing_active := true |> |>, r)
          end
      end in
    match balanced with
    | None => None
    | Some (cm, r) =>
        let '(cm, e) :=
          match cm_cascade cm with
          | None => (cm, e)
          | Some c =>
              let '(_, c, e) := cascade_process (ci_cascade_now inp) c e in
              (cm <| cm_cascade := Some c |>
                  <| cm_status ::= fun s => s <| cs_cascade_active := true |> |>, e)
          end in
        Some (WTC_OK, cm, r, e)
    end.

Definition coordination_get_status (cm : coordination_manager) : coordination_status := cm_status cm.

Lemma post_cascade (cm : coordination_manager) r e now :
  forall P : option (wtc_result * coordination_manager * registry * control_engine) -> Prop,
  (forall cm' e', cm_load_balancer cm' = cm_load_balancer cm -> cm_failover cm' = cm_failover cm ->
     (forall id, id ∉ from_option (fun c => cl_secondary_loop_id <$> cc_loops c) [] (cm_cascade cm) ->
        control_engine_get_pid_loop e' id = control_engine_get_pid_loop e id) ->
     P (Some (WTC_OK, cm', r, e'))) ->
  P (let '(cm, e) := match cm_cascade cm with
          | None => (cm, e)
          | Some c =>
              let '(_, c, e) := cascade_process now c e in
              (cm <| cm_cascade := Some c |>
                  <| cm_status ::= fun s => s <| cs_cascade_active := true |> |>, e)
          end in Some (WTC_OK, cm, r, e)).
Proof.
  intros P H. destruct (cm_cascade cm) as [c|] eqn:Ec; [|by apply H].
  pose proof (cascade_process_frame now c e) as Hf. destruct (cascade_process now c e) as [[res c'] e'].
  apply H; [done|done|]. intros id Hid. by apply Hf.
Qed.

(** C30: One pass of the coordination manager over well-formed groups always returns.  The
    failover manager does exactly its own processing on the registry as it found it; of
    the plant's outputs only those of running members of enabled groups are written, no
    link state changes, and of the control loops only the secondaries of cascades. *)
Theorem coordination_process_safe ub inp cm r e lb f :
  cm_running cm = true -> cm_load_balancer cm = Some lb -> cm_failover cm = Some f ->
  lb_ok lb -> lb_running lb = true -> lb_registry lb = true ->
  (forall i j, ci_balance_alloc inp i j 0%nat = true) ->
  exists cm' r' e', coordination_process ub inp cm r e = Some (WTC_OK, cm', r', e') /\
    cm_failover cm' = Some (snd (failover_process (ci_failover_clk inp) (ci_failover_alloc inp) r f)) /\
    from_option lb_ok False (cm_load_balancer cm') /\ same_links r r' /\
    (forall st sl, Forall (idle_at r st sl) (static <$> lb_groups lb) ->
       rtu_registry_get_actuator r' st sl = rtu_registry_get_actuator r st sl) /\
    (forall id, id ∉ from_option (fun c => cl_secondary_loop_id <$> cc_loops c) [] (cm_cascade cm) ->
       control_engine_get_pid_loop e' id = control_engine_get_pid_loop e id).
Proof.
  intros Hrun Hlb Hfo Hok Hbr Hreg Ha. unfold coordination_process. rewrite Hrun, Hfo. cbn [negb].
  set (f' := snd (failover_process _ _ _ _)).
  match goal with |- context [match cm_load_balancer ?x with _ => _ end] => set (cm1 := x) end.
  change (cm_load_balancer cm1) with (cm_load_balancer cm). rewrite Hlb.
  destruct (load_balance_safe ub (ci_balance_alloc inp) (ci_balance_clk inp) (ci_balance_now inp) lb r Hok Hbr Hreg Ha)
    as (lb' & r' & -> & H1 & H2 & H3 & H4).
  set (cm2 := cm1 <| cm_load_balancer := Some lb' |>
                  <| cm_status ::= fun s => s <| cs_load_balancing_active := true |> |>).
  apply (post_cascade cm2 r' e (ci_cascade_now inp)
    (fun o => exists cm' r' e', o = Some (WTC_OK, cm', r', e') /\ _ /\ _ /\ _ /\ _ /\ _)).
  intros cm' e' E1 E2 Hl. exists cm', r', e'. split; [done|]. split; [by rewrite E2|].
  split; [by rewrite E1|]. split; [done|]. split; [exact H4|exact Hl].
Qed.

End Coord.

(** ** Concrete runs *)

Module CoordDemo.
Import Cascade Balance Coord.

Definition pump (name : string) (state : profinet_state) : rtu_device :=
  mk_rtu_device 0 name "" 0 0 state 0 [] 0 [] 0 (replicate 4 zero_actuator) 4 f0 false.
Definition plant : registry :=
  mk_registry false false false [pump "p1" PROFINET_STATE_RUNNING; pump "p2" PROFINET_STATE_RUNNING;
                                 pump "p3" PROFINET_STATE_OFFLINE].
Definition unit_of (name : string) : member := mk_member name 1 (f32_of_Z 50) f0 0 true.
Definition pumps (demand : Z) : group :=
  mk_group 1 "pumps" true ([unit_of "p1"; unit_of "p2"; unit_of "p3"] ++ replicate 13 zero_member) 3
    (f32_of_Z demand) false 60000 0 0.
Definition balancer (demand : Z) : load_balancer := mk_load_balancer 16 5000 [pumps demand] true 0 true.
Definition alloc (_ _ _ : nat) : bool := true.
Definition run (lb : load_balancer) (r : registry) (now : Z) : option (wtc_result * load_balancer * registry) :=
  load_balance_process (fun _ => 0) alloc (fun _ _ => now) now lb r.
Definition duty (r : registry) (st : string) : option Z :=
  (fun a => ao_pwm_duty (as_output a)) <$> snd (rtu_registry_get_actuator r st 1).

(** A demand of 60 over two running pumps of 50: 60 percent each, the dead one untouched. *)
Example shares :
  match run (balancer 60) plant 1000 with
  | Some (_, _, r) => (duty r "p1", duty r "p2", duty r "p3") = (Some 60, Some 60, Some 0)
  | None => False
  end.
Proof. vm_compute. reflexivity. Qed.

(** When the demand goes back to zero the pumps keep running. *)
Example pumps_run_on_without_demand :
  match run (balancer 60) plant 1000 with
  | Some (_, lb, r) =>
      match run (snd (load_balance_set_demand lb 1 f0)) r 2000 with
      | Some (_, _, r') => (duty r' "p1", duty r' "p2") = (Some 60, Some 60)
      | None => False
      end
  | None => False
  end.
Proof. vm_compute. reflexivity. Qed.

(** A group without members and with a rotation interval divides by zero. *)
Example empty_group_crashes :
  run (mk_load_balancer 16 5000 [mk_group 1 "none" true (replicate 16 zero_member) 0 f0 false 1000 0 0] true 0 true)
    plant 2000 = None.
Proof. vm_compute. reflexivity. Qed.

Lemma pumps_ok demand : group_ok (pumps demand).
Proof. unfold group_ok. cbn. lia. Qed.

Lemma balancer_ok demand : lb_ok (balancer demand).
Proof. split; [by repeat constructor; apply pumps_ok|]. apply NoDup_singleton. Qed.

Lemma rotation_round_robin_witness :
  exists j, 1 <= j <= 3 /\
    rotate_group 5 (pumps 60) = Some ((pumps 60) <| lg_lead_member := after_lead (pumps 60) j |> <| lg_last_rotation_ms := 5 |>).
Proof.
  destruct (rotation_round_robin 5 (pumps 60) (pumps_ok 60) eq_refl) as (j & Hj & E & _).
  exists j. split; [exact Hj|exact E].
Defined.

(** *** A level loop over a flow loop *)
Definition level : pid_loop :=
  (Loops.create_level_control_loop "r" 1 "r" 2 (f32_of_Z 50)) <| pl_loop_id := 1 |> <| pl_cv := f32_of_Z 80 |>.
Definition flow : pid_loop := (Loops.create_pressure_control_loop "r" 3 "r" 4 (f32_of_Z 5)) <| pl_loop_id := 2 |>.
Definition engine : control_engine := (control_engine_init 100 false false) <| ce_pid_loops := [level; flow] |>.
Definition casc : cascade_loop :=
  mk_cascade_loop 1 "level-flow" true 1 2 (f32_lit 1 10) f0 f0 (f32_of_Z 6) f0 false.
Definition controller : cascade_controller := mk_cascade_controller 32 100 [casc] true 0 true.

Lemma cascade_drives_secondary_witness :
  let '(res, _, e') := cascade_process 1000 controller engine in
  control_engine_get_pid_loop e' 2 = Some (commanded casc level flow) /\
  pl_setpoint (commanded casc level flow) = f32_of_Z 6.
Proof.
  pose proof (cascade_drives_secondary 1000 controller engine) as H.
  destruct (cascade_process 1000 controller engine) as [[res cc] e'].
  destruct H as (_ & _ & H).
  - reflexivity.
  - reflexivity.
  - vm_compute. discriminate.
  - apply NoDup_singleton.
  - intros c c' Hc Hc'. apply list_elem_of_singleton in Hc, Hc'. subst c c'. discriminate.
  - split; [|vm_compute; reflexivity].
    apply (H casc level flow); [by left|vm_compute; reflexivity..].
Defined.

(** An operator who takes the secondary out of cascade is not noticed: the mode is set
    only at the activation. *)
Example secondary_mode_not_enforced :
  let '(_, cc, e) := cascade_process 1000 controller engine in
  let e := snd (control_engine_set_pid_mode e 2 PID_MODE_MANUAL) in
  let '(_, cc, e) := cascade_process 2000 cc e in
  (cl_cascade_active <$> cc_loops cc, pl_mode <$> control_engine_get_pid_loop e 2)
  = ([true], Some PID_MODE_MANUAL).
Proof. vm_compute. reflexivity. Qed.

Definition manager : coordination_manager :=
  mk_coordination_manager (mk_coordination_config FAILOVER_MODE_AUTO 1000 5000 true true) true true true
    (Some controller) (Some (balancer 60))
    (snd (failover_init true (mk_failover_config FAILOVER_MODE_AUTO 1000 5000 0)))
    (mk_coordination_status true 0 0 0 false false 0).
Definition inputs : coord_inputs := mk_coord_inputs (fun _ => 1000) true alloc (fun _ _ => 1000) 1000 1000.

Lemma coordination_process_safe_witness :
  exists cm' r' e', coordination_process (fun _ => 0) inputs manager plant engine = Some (WTC_OK, cm', r', e') /\
    rtu_registry_get_actuator r' "p3" 1 = rtu_registry_get_actuator plant "p3" 1 /\
    control_engine_get_pid_loop e' 1 = Some level.
Proof.
  destruct (coordination_process_safe (fun _ => 0) inputs manager plant engine (balancer 60)
    (mk_failover_manager (mk_failover_config FAILOVER_MODE_AUTO 1000 5000 0) false false [] []
       (mk_failover_status 0 0 0 0 "") false 0 []))
    as (cm' & r' & e' & E & _ & _ & _ & H1 & H2); [reflexivity..|apply balancer_ok|reflexivity|reflexivity|reflexivity|].
  exists cm', r', e'. split; [exact E|]. split.
  - apply H1. apply List.Forall_cons; [|apply List.Forall_nil]. intros _ _.
    exists (pump "p3" PROFINET_STATE_OFFLINE). split; [reflexivity|discriminate].
  - transitivity (control_engine_get_pid_loop engine 1); [|reflexivity].
    apply H2. intros H. apply (elem_of_nil (A := Z) 1). by apply elem_of_cons in H as [H|H].
Defined.

End CoordDemo.
