(* ===== verification/Health.v ===== *)
(** * Component health and circuit breakers

    Model of [src/core/component_health.c]: the health entry of each component of the
    controller, its circuit breaker, the periodic checks and the summary that decides
    whether the plant may be controlled and observed.

    The check functions the components register are an argument of the processing: what
    the [i]-th one answers.  Times are milliseconds; differences wrap as [uint64_t]. *)

From S2P Require Import Prelude Types.

Definition DEFAULT_FAILURE_THRESHOLD : Z := 3.
Definition DEFAULT_RECOVERY_TIMEOUT_MS : Z := 30000.
Definition HEALTH_CHECK_INTERVAL_MS : Z := 5000.

(** [component_id_t] as the index, [COMPONENT_COUNT] and the names. *)
Definition COMPONENT_COUNT : nat := 9.
Definition component_names : list string :=
  ["PROFINET"; "Registry"; "ControlEngine"; "AlarmManager"; "Historian"; "IPCServer"; "Database";
   "Modbus"; "Failover"]%string.

(** [health_state_t], [circuit_state_t] *)
Inductive health_state := HEALTH_UNKNOWN | HEALTH_HEALTHY | HEALTH_DEGRADED | HEALTH_UNHEALTHY | HEALTH_FAILED.
#[export] Instance health_state_eq_dec : EqDecision health_state.
Proof. solve_decision. Defined.
Inductive circuit_state := CIRCUIT_CLOSED | CIRCUIT_OPEN | CIRCUIT_HALF_OPEN.
#[export] Instance circuit_state_eq_dec : EqDecision circuit_state.
Proof. solve_decision. Defined.

(** The enumeration's numbers. *)
Definition health_rank (h : health_state) : Z :=
  match h with
  | HEALTH_UNKNOWN => 0 | HEALTH_HEALTHY => 1 | HEALTH_DEGRADED => 2 | HEALTH_UNHEALTHY => 3
  | HEALTH_FAILED => 4
  end.

(** [component_health_t] with the presence of the check function of its entry; the id is
    the index in the table. *)
Record component_health := mk_component_health {
  ch_name : string;
  ch_health : health_state;
  ch_circuit : circuit_state;
  ch_success_count : Z;
  ch_failure_count : Z;
  ch_consecutive_failures : Z;
  ch_last_success_ms : Z;
  ch_last_failure_ms : Z;
  ch_last_check_ms : Z;
  ch_failure_threshold : Z;
  ch_recovery_timeout_ms : Z;
  ch_critical : bool;
  ch_initialized : bool;
  ch_last_error : string;
  ch_last_result : wtc_result;
  ch_check_fn : bool }.
#[export] Instance eta_component_health : Eta component_health := fun r =>
  mk_component_health (ch_name r) (ch_health r) (ch_circuit r) (ch_success_count r) (ch_failure_count r)
    (ch_consecutive_failures r) (ch_last_success_ms r) (ch_last_failure_ms r) (ch_last_check_ms r)
    (ch_failure_threshold r) (ch_recovery_timeout_ms r) (ch_critical r) (ch_initialized r)
    (ch_last_error r) (ch_last_result r) (ch_check_fn r).

(** [struct health_monitor] *)
Record health_monitor := mk_health_monitor {
  hm_components : list component_health;
  hm_start_time_ms : Z;
  hm_last_check_ms : Z }.
#[export] Instance eta_health_monitor : Eta health_monitor := fun r =>
  mk_health_monitor (hm_components r) (hm_start_time_ms r) (hm_last_check_ms r).

(** [health_monitor_init]: the first four components are critical. *)
Definition health_monitor_init (alloc_ok : bool) (now : Z) : wtc_result * option health_monitor :=
  if alloc_ok then
    (WTC_OK, Some (mk_health_monitor
       (imap (fun i name => mk_component_health name HEALTH_UNKNOWN CIRCUIT_CLOSED 0 0 0 0 0 0
                DEFAULT_FAILURE_THRESHOLD DEFAULT_RECOVERY_TIMEOUT_MS (i <? 4)%nat false "" WTC_OK false)
          component_names) now 0))
  else (WTC_ERROR_NO_MEMORY, None).

(** An operation on one component; ids from [COMPONENT_COUNT] on are refused. *)
Definition on_component (hm : health_monitor) (i : nat) (f : component_health -> component_health)
    : health_monitor :=
  hm <| hm_components ::= alter f i |>.

(** [health_register_component] ([None]: no name given). *)
Definition register_entry (name : option string) (critical : bool) (failure_threshold recovery_timeout_ms : Z)
    (c : component_health) : component_health :=
  c <| ch_name := default (ch_name c) name |>
    <| ch_critical := critical |>
    <| ch_failure_threshold := if 0 <? failure_threshold then failure_threshold else DEFAULT_FAILURE_THRESHOLD |>
    <| ch_recovery_timeout_ms :=
         if 0 <? recovery_timeout_ms then recovery_timeout_ms else DEFAULT_RECOVERY_TIMEOUT_MS |>.
Definition health_register_component (hm : health_monitor) (i : nat) (name : option string) (critical : bool)
    (failure_threshold recovery_timeout_ms : Z) : wtc_result * health_monitor :=
  if (COMPONENT_COUNT <=? i)%nat then (WTC_ERROR_INVALID_PARAM, hm)
  else (WTC_OK, on_component hm i (register_entry name critical failure_threshold recovery_timeout_ms)).

Definition health_set_check_fn (hm : health_monitor) (i : nat) (fn : bool) : wtc_result * health_monitor :=
  if (COMPONENT_COUNT <=? i)%nat then (WTC_ERROR_INVALID_PARAM, hm)
  else (WTC_OK, on_component hm i (fun c => c <| ch_check_fn := fn |>)).

(** [health_report_success] *)
Definition report_success (now : Z) (c : component_health) : component_health :=
  let c := c <| ch_success_count ::= fun n => wrap32 (n + 1) |>
             <| ch_consecutive_failures := 0 |> <| ch_last_success_ms := now |> in
  let c := if bool_decide (ch_health c = HEALTH_UNHEALTHY) || bool_decide (ch_health c = HEALTH_UNKNOWN)
           then c <| ch_health := HEALTH_HEALTHY |> else c in
  if bool_decide (ch_circuit c = CIRCUIT_HALF_OPEN) then c <| ch_circuit := CIRCUIT_CLOSED |> else c.
Definition health_report_success (now : Z) (hm : health_monitor) (i : nat) : health_monitor :=
  on_component hm i (report_success now).

(** [health_report_failure] ([None]: no message). *)
Definition report_failure (now : Z) (result : wtc_result) (error_msg : option string) (c : component_health)
    : component_health :=
  let c := c <| ch_failure_count ::= fun n => wrap32 (n + 1) |>
             <| ch_consecutive_failures ::= fun n => wrap32 (n + 1) |>
             <| ch_last_failure_ms := now |> <| ch_last_result := result |> in
  let c := match error_msg with Some m => c <| ch_last_error := strncpy 127 m |> | None => c end in
  if ch_failure_threshold c <=? ch_consecutive_failures c then
    if bool_decide (ch_health c = HEALTH_FAILED) then c
    else
      let c := c <| ch_health := HEALTH_UNHEALTHY |> in
      if bool_decide (ch_circuit c = CIRCUIT_CLOSED) then c <| ch_circuit := CIRCUIT_OPEN |> else c
  else if bool_decide (ch_health c = HEALTH_HEALTHY) then c <| ch_health := HEALTH_DEGRADED |> else c.
Definition health_report_failure (now : Z) (result : wtc_result) (error_msg : option string)
    (hm : health_monitor) (i : nat) : health_monitor :=
  on_component hm i (report_failure now result error_msg).

Definition health_set_state (hm : health_monitor) (i : nat) (state : health_state) : health_monitor :=
  on_component hm i (fun c => c <| ch_health := state |>).

(** [health_mark_initialized] *)
Definition mark_initialized (c : component_health) : component_health :=
  let c := c <| ch_initialized := true |> in
  if bool_decide (ch_health c = HEALTH_UNKNOWN) then c <| ch_health := HEALTH_HEALTHY |> else c.
Definition health_mark_initialized (hm : health_monitor) (i : nat) : health_monitor :=
  on_component hm i mark_initialized.

(** ** Circuit breaker *)

(** [health_circuit_allow] *)
Definition circuit_allow (now : Z) (c : component_health) : bool * component_health :=
  match ch_circuit c with
  | CIRCUIT_CLOSED => (true, c)
  | CIRCUIT_OPEN =>
      if ch_recovery_timeout_ms c <=? u64_sub now (ch_last_failure_ms c)
      then (true, c <| ch_circuit := CIRCUIT_HALF_OPEN |>) else (false, c)
  | CIRCUIT_HALF_OPEN => (false, c)
  end.
Definition health_circuit_allow (now : Z) (hm : health_monitor) (i : nat) : bool * health_monitor :=
  match hm_components hm !! i with
  | None => (false, hm)
  | Some c => (fst (circuit_allow now c), on_component hm i (fun c => snd (circuit_allow now c)))
  end.

Definition health_get_circuit (hm : health_monitor) (i : nat) : circuit_state :=
  match hm_components hm !! i with None => CIRCUIT_OPEN | Some c => ch_circuit c end.

Definition circuit_reset (c : component_health) : component_health :=
  c <| ch_circuit := CIRCUIT_CLOSED |> <| ch_consecutive_failures := 0 |>.
Definition health_circuit_reset (hm : health_monitor) (i : nat) : health_monitor :=
  on_component hm i circuit_reset.

Definition health_get_component (hm : health_monitor) (i : nat) : wtc_result * option component_health :=
  match hm_components hm !! i with None => (WTC_ERROR_INVALID_PARAM, None) | Some c => (WTC_OK, Some c) end.

(** ** Summary *)

(** [system_health_t] *)
Record system_health := mk_system_health {
  sh_overall : health_state;
  sh_healthy_count : Z;
  sh_degraded_count : Z;
  sh_unhealthy_count : Z;
  sh_failed_count : Z;
  sh_uptime_seconds : Z;
  sh_can_control : bool;
  sh_can_observe : bool;
  sh_message : string }.
#[export] Instance eta_system_health : Eta system_health := fun r =>
  mk_system_health (sh_overall r) (sh_healthy_count r) (sh_degraded_count r) (sh_unhealthy_count r)
    (sh_failed_count r) (sh_uptime_seconds r) (sh_can_control r) (sh_can_observe r) (sh_message r).

(** One component of the loop in [health_get_system]. *)
Definition add_component (h : system_health) (c : component_health) : system_health :=
  if negb (ch_initialized c) then h
  else match ch_health c with
  | HEALTH_HEALTHY => h <| sh_healthy_count ::= Z.succ |>
  | HEALTH_DEGRADED =>
      let h := h <| sh_degraded_count ::= Z.succ |> in
      if bool_decide (sh_overall h = HEALTH_HEALTHY) then h <| sh_overall := HEALTH_DEGRADED |> else h
  | HEALTH_UNHEALTHY =>
      let h := h <| sh_unhealthy_count ::= Z.succ |> in
      let h := if ch_critical c then h <| sh_can_control := false |> else h in
      if health_rank (sh_overall h) <? health_rank HEALTH_UNHEALTHY
      then h <| sh_overall := HEALTH_UNHEALTHY |> else h
  | HEALTH_FAILED =>
      let h := h <| sh_failed_count ::= Z.succ |> in
      let h := if ch_critical c then h <| sh_can_control := false |> <| sh_can_observe := false |> else h in
      h <| sh_overall := HEALTH_FAILED |>
  | HEALTH_UNKNOWN => h
  end.

Definition health_state_name (s : health_state) : string :=
  match s with
  | HEALTH_UNKNOWN => "UNKNOWN" | HEALTH_HEALTHY => "HEALTHY" | HEALTH_DEGRADED => "DEGRADED"
  | HEALTH_UNHEALTHY => "UNHEALTHY" | HEALTH_FAILED => "FAILED"
  end.
Definition health_circuit_name (s : circuit_state) : string :=
  match s with CIRCUIT_CLOSED => "CLOSED" | CIRCUIT_OPEN => "OPEN" | CIRCUIT_HALF_OPEN => "HALF_OPEN" end.
Definition health_component_name (i : nat) : string := nth i component_names "Unknown"%string.

Definition summary_message (h : system_health) : string :=
  strncpy 255
    ("Health: " +:+ health_state_name (sh_overall h) +:+ " | Healthy: " +:+ pretty (sh_healthy_count h) +:+
     ", Degraded: " +:+ pretty (sh_degraded_count h) +:+ ", Unhealthy: " +:+ pretty (sh_unhealthy_count h) +:+
     ", Failed: " +:+ pretty (sh_failed_count h) +:+ " | " +:+
     "Control: " +:+ (if sh_can_control h then "OK" else "BLOCKED") +:+
     ", Observe: " +:+ (if sh_can_observe h then "OK" else "BLOCKED"))%string.

(** [health_get_system] *)
Definition health_get_system (now : Z) (hm : health_monitor) : system_health :=
  let h := mk_system_health HEALTH_HEALTHY 0 0 0 0 (wrap32 (u64_sub now (hm_start_time_ms hm) / 1000))
             true true "" in
  let h := foldl add_component h (hm_components hm) in
  h <| sh_message := summary_message h |>.

Definition health_can_control (now : Z) (hm : health_monitor) : bool := sh_can_control (health_get_system now hm).
Definition health_can_observe (now : Z) (hm : health_monitor) : bool := sh_can_observe (health_get_system now hm).

(** The check of one component, which answered a state and a message. *)
Definition run_check (now : Z) (answer : health_state * string) (c : component_health) : component_health :=
  if negb (ch_initialized c) || negb (ch_check_fn c) then c
  else
    let '(new_state, msg) := answer in
    let c := c <| ch_last_check_ms := now |> in
    if bool_decide (new_state = ch_health c) then c
    else
      let c := c <| ch_health := new_state |> in
      if (String.length msg =? 0)%nat then c else c <| ch_last_error := strncpy 127 msg |>.

(** [health_monitor_process] *)
Definition health_monitor_process (now : Z) (checks : nat -> health_state * string) (hm : health_monitor)
    : wtc_result * health_monitor :=
  if u64_sub now (hm_last_check_ms hm) <? HEALTH_CHECK_INTERVAL_MS then (WTC_OK, hm)
  else (WTC_OK, hm <| hm_last_check_ms := now |>
                   <| hm_components ::= imap (fun i c => run_check now (checks i) c) |>).

(** ** Theorems *)

Definition counted_health (cs : list component_health) : list health_state :=
  ch_health <$> filter (fun c => ch_initialized c = true) cs.
Definition count_state (s : health_state) (cs : list component_health) : Z :=
  Z.of_nat (length (filter (fun h => h = s) (counted_health cs))).
Definition blocks_control (c : component_health) : bool :=
  ch_initialized c && ch_critical c &&
  (bool_decide (ch_health c = HEALTH_UNHEALTHY) || bool_decide (ch_health c = HEALTH_FAILED)).
Definition blocks_observe (c : component_health) : bool :=
  ch_initialized c && ch_critical c && bool_decide (ch_health c = HEALTH_FAILED).

(** What the loop adds to a summary. *)
Definition summed (h : system_health) (cs : list component_health) (h' : system_health) : Prop :=
  health_rank (sh_overall h') = foldr Z.max (health_rank (sh_overall h)) (health_rank <$> counted_health cs) /\
  sh_healthy_count h' = sh_healthy_count h + count_state HEALTH_HEALTHY cs /\
  sh_degraded_count h' = sh_degraded_count h + count_state HEALTH_DEGRADED cs /\
  sh_unhealthy_count h' = sh_unhealthy_count h + count_state HEALTH_UNHEALTHY cs /\
  sh_failed_count h' = sh_failed_count h + count_state HEALTH_FAILED cs /\
  sh_can_control h' = sh_can_control h && negb (existsb blocks_control cs) /\
  sh_can_observe h' = sh_can_observe h && negb (existsb blocks_observe cs) /\
  sh_uptime_seconds h' = sh_uptime_seconds h.

Lemma foldr_max_comm a b l : foldr Z.max (Z.max a b) l = Z.max b (foldr Z.max a l).
Proof. induction l as [|x l IH]; cbn; lia. Qed.

Lemma add_component_rank h c :
  health_rank HEALTH_HEALTHY <= health_rank (sh_overall h) ->
  health_rank (sh_overall (add_component h c)) =
  Z.max (health_rank (sh_overall h)) (if ch_initialized c then health_rank (ch_health c) else 0).
Proof.
  intros Hh. unfold add_component. destruct (ch_initialized c); cbn [negb].
  - destruct (ch_health c), (ch_critical c), (sh_overall h) eqn:E; cbn in *; rewrite ?E; cbn; try done; lia.
  - rewrite Z.max_l; [done|]. cbn in Hh. lia.
Qed.

Lemma add_components_sum cs h :
  health_rank HEALTH_HEALTHY <= health_rank (sh_overall h) -> summed h cs (foldl add_component h cs).
Proof.
  revert h. induction cs as [|c cs IH]; intros h Hh.
  { unfold summed, count_state. cbn. rewrite !andb_true_r. split_and!; lia || done. }
  cbn [foldl]. pose proof (add_component_rank h c Hh) as Hr.
  destruct (IH (add_component h c)) as (H1 & H2 & H3 & H4 & H5 & H6 & H7 & H8); [cbn in *; lia|].
  unfold summed. rewrite H1, H2, H3, H4, H5, H6, H7, H8, Hr.
  unfold count_state, counted_health. rewrite filter_cons. cbn [existsb]. unfold add_component, blocks_control, blocks_observe.
  destruct (ch_initialized c) eqn:Hi; cbn [negb].
  - rewrite decide_True by done. rewrite fmap_cons, fmap_cons. cbn [foldr]. rewrite !filter_cons.
    split; [apply foldr_max_comm|].
    destruct (ch_health c); repeat (first [rewrite decide_True by done|rewrite decide_False by done]);
      destruct (ch_critical c); cbn -[filter]; repeat case_bool_decide; try destruct (_ <? _); cbn -[filter];
      rewrite ?andb_false_r; split_and!; done || lia.
  - rewrite decide_False by done. split_and!; try done.
    rewrite Z.max_l; [done|]. destruct (sh_overall h); cbn; lia.
Qed.

(** The system summary: the overall state is the worst of the initialised components
    (healthy when there is none worse), every count is the number of components in that
    state, control is allowed exactly when no initialised critical component is unhealthy
    or failed, and observation exactly when none of them has failed. *)
Theorem system_health_spec now hm :
  let h := health_get_system now hm in
  let cs := hm_components hm in
  health_rank (sh_overall h) = foldr Z.max 1 (health_rank <$> counted_health cs) /\
  (sh_healthy_count h, sh_degraded_count h, sh_unhealthy_count h, sh_failed_count h)
  = (count_state HEALTH_HEALTHY cs, count_state HEALTH_DEGRADED cs, count_state HEALTH_UNHEALTHY cs,
     count_state HEALTH_FAILED cs) /\
  health_can_control now hm = negb (existsb blocks_control cs) /\
  health_can_observe now hm = negb (existsb blocks_observe cs).
Proof.
  cbv zeta. unfold health_can_control, health_can_observe, health_get_system. cbv zeta.
  set (h0 := mk_system_health _ _ _ _ _ _ _ _ _).
  destruct (add_components_sum (hm_components hm) h0) as (H1 & H2 & H3 & H4 & H5 & H6 & H7 & _); [done|].
  cbn [sh_overall sh_healthy_count sh_degraded_count sh_unhealthy_count sh_failed_count sh_can_control sh_can_observe set].
  rewrite H1, H2, H3, H4, H5, H6, H7. done.
Qed.

(** *** The breaker over a run of events of one component *)

Inductive breaker_event := EvSuccess (now : Z) | EvFailure (now : Z) | EvAsk (now : Z) | EvReset.

(** One event: whether a call was let through, and the component. *)
Definition breaker_step (c : component_health) (ev : breaker_event) : bool * component_health :=
  match ev with
  | EvSuccess now => (false, report_success now c)
  | EvFailure now => (false, report_failure now WTC_ERROR None c)
  | EvAsk now => circuit_allow now c
  | EvReset => (false, circuit_reset c)
  end.
Fixpoint breaker_run (c : component_health) (evs : list breaker_event) : list bool * component_health :=
  match evs with
  | [] => ([], c)
  | ev :: evs =>
      let '(b, c) := breaker_step c ev in
      let '(bs, c) := breaker_run c evs in (b :: bs, c)
  end.

Definition breaks (c : component_health) (now : Z) : component_health := report_failure now WTC_ERROR None c.

Lemma breaks_fields d t :
  ch_health d <> HEALTH_FAILED ->
  ch_consecutive_failures (breaks d t) = wrap32 (ch_consecutive_failures d + 1) /\
  ch_failure_threshold (breaks d t) = ch_failure_threshold d /\ ch_health (breaks d t) <> HEALTH_FAILED /\
  ch_recovery_timeout_ms (breaks d t) = ch_recovery_timeout_ms d /\ ch_last_failure_ms (breaks d t) = t /\
  ch_circuit (breaks d t)
  = if ch_failure_threshold d <=? wrap32 (ch_consecutive_failures d + 1)
    then match ch_circuit d with CIRCUIT_CLOSED => CIRCUIT_OPEN | x => x end else ch_circuit d.
Proof.
  intros Hh. destruct d as [n h cir sc fc cf ls lf lc ft rt cr ini le lr ck].
  unfold breaks, report_failure. cbn -[wrap32 Z.leb] in *.
  destruct (ft <=? wrap32 (cf + 1)); destruct h, cir; try done; by split_and!.
Qed.

(** The breaker after [n] failures in a row of a working component. *)
Theorem breaker_opens_at_threshold c times :
  ch_circuit c = CIRCUIT_CLOSED -> ch_health c <> HEALTH_FAILED -> ch_consecutive_failures c = 0 ->
  0 < ch_failure_threshold c -> Z.of_nat (length times) < 2 ^ 32 ->
  let c' := foldl breaks c times in
  ch_consecutive_failures c' = Z.of_nat (length times) /\
  (ch_circuit c' = CIRCUIT_CLOSED <-> Z.of_nat (length times) < ch_failure_threshold c) /\
  (ch_circuit c' = CIRCUIT_OPEN <-> ch_failure_threshold c <= Z.of_nat (length times)).
Proof.
  intros Hc Hh H0 Ht Hn. cbv zeta.
  cut (ch_consecutive_failures (foldl breaks c times) = Z.of_nat (length times) /\
       ch_circuit (foldl breaks c times)
       = (if ch_failure_threshold c <=? Z.of_nat (length times) then CIRCUIT_OPEN else CIRCUIT_CLOSED) /\
       ch_health (foldl breaks c times) <> HEALTH_FAILED /\
       ch_failure_threshold (foldl breaks c times) = ch_failure_threshold c).
  { intros (H1 & H2 & _). rewrite H1, H2.
    destruct (Z.leb_spec (ch_failure_threshold c) (Z.of_nat (length times))); split_and!; try done; split; done || lia. }
  induction times as [|t times IH] using rev_ind.
  { cbn [length foldl]. change (Z.of_nat 0) with 0. rewrite H0, (proj2 (Z.leb_gt _ 0)) by lia. by split_and!. }
  rewrite length_app, foldl_app in *. cbn [foldl length] in *.
  destruct IH as (I1 & I2 & I3 & I4); [lia|]. set (d := foldl breaks c times) in *.
  destruct (breaks_fields d t I3) as (B1 & B2 & B3 & _ & _ & B4). rewrite B1, B2, B4, I1, I2, I4.
  assert (wrap32 (Z.of_nat (length times) + 1) = Z.of_nat (length times + 1)) as ->.
  { unfold wrap32. rewrite Z.mod_small by lia. lia. }
  split_and!; [done| |done|done].
  destruct (Z.leb_spec (ch_failure_threshold c) (Z.of_nat (length times + 1))),
    (Z.leb_spec (ch_failure_threshold c) (Z.of_nat (length times))); done || lia.
Qed.

(** Events while the component is in trouble: failures and calls asked for. *)
Definition troubled (ev : breaker_event) : Prop :=
  match ev with EvFailure _ | EvAsk _ => True | _ => False end.

(** Half open, with only failures and requests, the breaker stays half open and lets
    nothing through: a failed probe does not open it again for a later one. *)
Theorem half_open_stuck c evs :
  ch_circuit c = CIRCUIT_HALF_OPEN -> ch_health c <> HEALTH_FAILED -> Forall troubled evs ->
  let '(bs, c') := breaker_run c evs in
  Forall (fun b => b = false) bs /\ ch_circuit c' = CIRCUIT_HALF_OPEN.
Proof.
  intros Hc Hh Hevs. revert c Hc Hh. induction Hevs as [|ev evs Hev _ IH]; intros c Hc Hh; [done|].
  cbn [breaker_run].
  assert (fst (breaker_step c ev) = false /\ ch_circuit (snd (breaker_step c ev)) = CIRCUIT_HALF_OPEN /\
          ch_health (snd (breaker_step c ev)) <> HEALTH_FAILED) as (H1 & H2 & H3).
  { destruct ev as [t|t|t|]; try done; cbn [breaker_step fst snd].
    - destruct (breaks_fields c t Hh) as (_ & _ & B3 & _ & _ & B). split; [done|]. split; [|exact B3].
      unfold breaks in B. rewrite B, Hc. by destruct (_ <=? _).
    - unfold circuit_allow. rewrite Hc. done. }
  destruct (breaker_step c ev) as [b c1]. cbn [fst snd] in *. specialize (IH c1 H2 H3).
  destruct (breaker_run c1 evs) as [bs c']. destruct IH as [I1 I2]. split; [by constructor|done].
Qed.

(** An open circuit breaker: whatever failures and requests follow, it lets at most one
    call through, and only when the recovery time has passed since the last failure
    before that call. *)
Theorem open_breaker_lets_one_through c evs :
  ch_circuit c = CIRCUIT_OPEN -> ch_health c <> HEALTH_FAILED -> Forall troubled evs ->
  (length (filter (fun b => b = true) (fst (breaker_run c evs))) <= 1)%nat /\
  (forall i now, evs !! i = Some (EvAsk now) -> fst (breaker_run c evs) !! i = Some true ->
     let c' := snd (breaker_run c (take i evs)) in
     ch_circuit c' = CIRCUIT_OPEN /\ ch_recovery_timeout_ms c' = ch_recovery_timeout_ms c /\
     ch_recovery_timeout_ms c <= u64_sub now (ch_last_failure_ms c')).
Proof.
  intros Hc Hh Hevs. revert c Hc Hh. induction Hevs as [|ev evs Hev Hevs IH]; intros c Hc Hh.
  { cbn. split; [lia|]. intros i now Hi. done. }
  destruct ev as [t|t|t|]; try done; cbn [breaker_run breaker_step].
  - destruct (breaks_fields c t Hh) as (_ & _ & B3 & B4 & _ & B). fold (breaks c t).
    assert (ch_circuit (breaks c t) = CIRCUIT_OPEN) as Ho by (rewrite B, Hc; by destruct (_ <=? _)).
    destruct (IH (breaks c t) Ho B3) as [I1 I2].
    destruct (breaker_run (breaks c t) evs) as [bs c'] eqn:E. cbn [fst] in *. split.
    { rewrite filter_cons, decide_False by done. done. }
    intros [|i] now Hi Hb; [done|]. cbn in Hi, Hb. specialize (I2 i now Hi Hb).
    cbn [take breaker_run breaker_step]. fold (breaks c t). destruct (breaker_run (breaks c t) (take i evs)) as [bs2 c2].
    cbn [snd] in *. by rewrite <- B4.
  - unfold circuit_allow. rewrite Hc.
    destruct (Z.leb_spec (ch_recovery_timeout_ms c) (u64_sub t (ch_last_failure_ms c))) as [Hle|Hgt].
    + pose proof (half_open_stuck (c <| ch_circuit := CIRCUIT_HALF_OPEN |>) evs eq_refl Hh Hevs) as Hs.
      destruct (breaker_run (c <| ch_circuit := CIRCUIT_HALF_OPEN |>) evs) as [bs c'] eqn:E.
      destruct Hs as [Hs _]. cbn [fst]. split.
      * rewrite filter_cons, decide_True by done. cbn [length].
        assert (filter (fun b => b = true) bs = []) as ->; [|cbn; lia].
        clear E. induction Hs as [|b bs -> _ IHb]; [done|]. by rewrite filter_cons, decide_False.
      * intros [|i] now Hi Hb; cbn in Hi, Hb.
        -- injection Hi as <-. cbn. done.
        -- rewrite Forall_lookup in Hs. specialize (Hs _ _ Hb). done.
    + destruct (IH c Hc Hh) as [I1 I2]. destruct (breaker_run c evs) as [bs c'] eqn:E. cbn [fst] in *. split.
      { rewrite filter_cons, decide_False by done. done. }
      intros [|i] now Hi Hb; [done|]. cbn in Hi, Hb. specialize (I2 i now Hi Hb).
      cbn [take breaker_run breaker_step]. unfold circuit_allow. rewrite Hc, (proj2 (Z.leb_gt _ _)) by lia.
      by destruct (breaker_run c (take i evs)).
Qed.

Module HealthDemo.

Definition broken : component_health :=
  mk_component_health "Modbus" HEALTH_UNHEALTHY CIRCUIT_OPEN 0 3 3 0 1000 0 3 30000 false true "" WTC_ERROR false.
Definition events : list breaker_event := [EvAsk 2000; EvAsk 31000; EvFailure 31001; EvAsk 32000; EvAsk 90000].

Lemma open_breaker_lets_one_through_witness :
  (length (filter (fun b => b = true) (fst (breaker_run broken events))) <= 1)%nat /\
  fst (breaker_run broken events) = [false; true; false; false; false].
Proof.
  split; [|reflexivity]. apply (open_breaker_lets_one_through broken events); [reflexivity|discriminate|].
  repeat constructor.
Defined.

(** One failure below the threshold marks a healthy component degraded; successes do not
    make it healthy again. *)
Example degraded_stays_degraded :
  let c := mk_component_health "Modbus" HEALTH_HEALTHY CIRCUIT_CLOSED 0 0 0 0 0 0 3 30000 false true "" WTC_OK false in
  let c := breaks c 1000 in
  ch_health (report_success 3000 (report_success 2000 c)) = HEALTH_DEGRADED.
Proof. reflexivity. Qed.

End HealthDemo.
