(* ===== verification/Time.v ===== *)
(** * Time utilities

    Model of [src/utils/time_utils.c]: conversions between milliseconds and [timespec],
    ISO 8601 texts and the stop-watch.  Reading the clock and sleeping are system calls;
    clock readings are arguments.

    Of the C library the model has [gmtime] (Gregorian calendar), [timegm] (the formula
    of POSIX for broken-down times in range), the conversions of [strftime] used here
    and [sscanf] with [%d] and literal characters. *)

From Stdlib Require Import Ascii.
From S2P Require Import Prelude.

(** [struct timespec] *)
Record timespec := mk_timespec {
  tv_sec : Z;
  tv_nsec : Z }.

Definition time_ms_to_timespec (ms : Z) : timespec := mk_timespec (ms / 1000) (ms mod 1000 * 1000000).
Definition time_timespec_to_ms (ts : timespec) : Z := wrap64 (tv_sec ts * 1000 + tv_nsec ts / 1000000).

(** The [while] of [time_add_ms]. *)
Fixpoint carry (fuel : nat) (ts : timespec) : option timespec :=
  match fuel with
  | O => None
  | S fuel =>
      if 1000000000 <=? tv_nsec ts
      then carry fuel (mk_timespec (tv_sec ts + 1) (tv_nsec ts - 1000000000)) else Some ts
  end.
Definition time_add_ms (fuel : nat) (ts : timespec) (ms : Z) : option timespec :=
  carry fuel (mk_timespec (tv_sec ts + ms / 1000) (tv_nsec ts + ms mod 1000 * 1000000)).

Definition time_compare (a b : timespec) : Z :=
  if tv_sec a <? tv_sec b then -1 else if tv_sec b <? tv_sec a then 1
  else if tv_nsec a <? tv_nsec b then -1 else if tv_nsec b <? tv_nsec a then 1 else 0.

(** The arithmetic of [time_get_ms] and [time_get_us] on a clock reading. *)
Definition clock_ms (ts : timespec) : Z := wrap64 (tv_sec ts * 1000 + tv_nsec ts / 1000000).
Definition clock_us (ts : timespec) : Z := wrap64 (tv_sec ts * 1000000 + tv_nsec ts / 1000).

(** ** Calendar *)

(** The fields of [struct tm] used ([tm_mon] from 0, [tm_year] from 1900 in the source;
    here the month from 1 and the full year). *)
Record tm := mk_tm {
  tm_year : Z;
  tm_mon : Z;
  tm_mday : Z;
  tm_hour : Z;
  tm_min : Z;
  tm_sec : Z }.

Definition leap (y : Z) : bool := (y mod 4 =? 0) && (negb (y mod 100 =? 0) || (y mod 400 =? 0)).

(** Days before the month in the year. *)
Definition month_days (y m : Z) : Z :=
  nth (Z.to_nat (m - 1)) [0; 31; 59; 90; 120; 151; 181; 212; 243; 273; 304; 334] 0 +
  (if leap y && (2 <? m) then 1 else 0).

(** Days since 1970-01-01, by the formula of POSIX. *)
Definition days_of (y m d : Z) : Z :=
  365 * (y - 1970) + (y - 1969) / 4 - (y - 1901) / 100 + (y - 1601) / 400 + month_days y m + (d - 1).
Definition timegm (t : tm) : Z :=
  days_of (tm_year t) (tm_mon t) (tm_mday t) * 86400 + tm_hour t * 3600 + tm_min t * 60 + tm_sec t.

(** Year, month and day of a day number: the last year and the last month that begin on
    or before the day. *)
Fixpoint year_from (fuel : nat) (y days : Z) : Z :=
  match fuel with
  | O => y
  | S fuel => if days_of (y + 1) 1 1 <=? days then year_from fuel (y + 1) days else y
  end.
Fixpoint month_from (m : nat) (y yday : Z) : Z :=
  match m with
  | O => 1
  | S m' => if month_days y (Z.of_nat m) <=? yday then Z.of_nat m else month_from m' y yday
  end.
Definition civil (days : Z) : Z * Z * Z :=
  let y := year_from (S (Z.to_nat (days / 365))) 1970 days in
  let yday := days - days_of y 1 1 in
  let m := month_from 12 y yday in
  (y, m, yday - month_days y m + 1).
Definition gmtime (secs : Z) : tm :=
  let '(y, m, d) := civil (secs / 86400) in
  let r := secs mod 86400 in
  mk_tm y m d (r / 3600) (r mod 3600 / 60) (r mod 60).

(** ** Texts *)

Definition digit (d : Z) : ascii := ascii_of_N (Z.to_N (48 + d)).

(** The last [n] decimal digits of [v], before [rest]. *)
Fixpoint dec (n : nat) (v : Z) (rest : string) : string :=
  match n with
  | O => rest
  | S n' => dec n' (v / 10) (String (digit (v mod 10)) rest)
  end.
(** [%Y] *)
Definition fmt_year (y : Z) (rest : string) : string :=
  if (1000 <=? y) && (y <? 10000) then dec 4 y rest else (pretty y +:+ rest)%string.

(** [strftime] with ["%Y-%m-%d"] and with ["%Y-%m-%dT%H:%M:%S"]. *)
Definition strftime_date (t : tm) (rest : string) : string :=
  fmt_year (tm_year t) (String "-" (dec 2 (tm_mon t) (String "-" (dec 2 (tm_mday t) rest)))).
Definition strftime_datetime (t : tm) (rest : string) : string :=
  strftime_date t (String "T" (dec 2 (tm_hour t) (String ":" (dec 2 (tm_min t) (String ":" (dec 2 (tm_sec t) rest)))))).

(** [time_format_date] into a buffer of [size] bytes ([None]: not written). *)
Definition time_format_date (ms : Z) (size : Z) : option string :=
  if size <? 11 then None else Some (strftime_date (gmtime (ms / 1000)) "").

(** [time_format_iso8601]: the milliseconds are written from offset 19. *)
Definition time_format_iso8601 (ms : Z) (size : Z) : option string :=
  if size <? 25 then None
  else Some (String.substring 0 19 (strftime_datetime (gmtime (ms / 1000)) "") +:+
             strncpy (Z.to_nat (size - 20)) (String "." (dec 3 (ms mod 1000) "Z")))%string.

(** [%d] of [sscanf]: white space, a sign, digits. *)
Definition is_dec (c : ascii) : bool := (48 <=? N_of_ascii c)%N && (N_of_ascii c <=? 57)%N.
Definition is_space (c : ascii) : bool := (N_of_ascii c =? 32)%N || ((9 <=? N_of_ascii c)%N && (N_of_ascii c <=? 13)%N).
Fixpoint skip_space (s : string) : string :=
  match s with
  | String c s' => if is_space c then skip_space s' else s
  | EmptyString => s
  end.
Fixpoint scan_digits (acc : Z) (s : string) : Z * string :=
  match s with
  | String c s' =>
      if is_dec c then scan_digits (acc * 10 + (Z.of_N (N_of_ascii c) - 48)) s' else (acc, s)
  | EmptyString => (acc, s)
  end.
Definition scan_unsigned (s : string) : option (Z * string) :=
  match s with
  | String c _ => if is_dec c then Some (scan_digits 0 s) else None
  | EmptyString => None
  end.
Definition scan_d (s : string) : option (Z * string) :=
  match skip_space s with
  | String c s' =>
      if bool_decide (c = "-"%char) then (fun p => (- p.1, p.2)) <$> scan_unsigned s'
      else if bool_decide (c = "+"%char) then scan_unsigned s'
      else scan_unsigned (String c s')
  | EmptyString => None
  end.

(** [sscanf] with a format of [%d] ([None]) and literal characters: the numbers read. *)
Fixpoint sscanf (fmt : list (option ascii)) (s : string) : list Z :=
  match fmt with
  | [] => []
  | None :: fmt =>
      match scan_d s with Some (v, s) => v :: sscanf fmt s | None => [] end
  | Some c :: fmt =>
      match s with
      | String c' s => if bool_decide (c' = c) then sscanf fmt s else []
      | EmptyString => []
      end
  end.
Definition iso_format (millis : bool) : list (option ascii) :=
  [None; Some "-"%char; None; Some "-"%char; None; Some "T"%char; None; Some ":"%char; None;
   Some ":"%char; None] ++ (if millis then [Some "."%char; None] else []).

(** [time_parse_iso8601]: the second format is tried when the first gives fewer than six
    numbers. *)
Definition time_parse_iso8601 (s : string) : Z :=
  match sscanf (iso_format true) s with
  | y :: mo :: d :: h :: mi :: se :: rest =>
      wrap64 (timegm (mk_tm y mo d h mi se) * 1000 + match rest with ms :: _ => ms | [] => 0 end)
  | _ =>
      match sscanf (iso_format false) s with
      | [y; mo; d; h; mi; se] => wrap64 (timegm (mk_tm y mo d h mi se) * 1000)
      | _ => 0
      end
  end.

(** ** Stop-watch *)

(** [wtc_timer_t] *)
Record wtc_timer := mk_wtc_timer {
  tr_start_us : Z;
  tr_accumulated_us : Z;
  tr_running : bool }.

Definition timer_init : wtc_timer := mk_wtc_timer 0 0 false.
Definition timer_start (now : Z) (t : wtc_timer) : wtc_timer :=
  if tr_running t then t else mk_wtc_timer now (tr_accumulated_us t) true.
Definition timer_stop (now : Z) (t : wtc_timer) : wtc_timer :=
  if tr_running t
  then mk_wtc_timer (tr_start_us t) (wrap64 (tr_accumulated_us t + u64_sub now (tr_start_us t))) false
  else t.
Definition timer_reset (t : wtc_timer) : wtc_timer := mk_wtc_timer 0 0 false.
Definition timer_elapsed_us (now : Z) (t : wtc_timer) : Z :=
  if tr_running t then wrap64 (tr_accumulated_us t + u64_sub now (tr_start_us t)) else tr_accumulated_us t.
Definition timer_elapsed_ms (now : Z) (t : wtc_timer) : Z := timer_elapsed_us now t / 1000.

(** ** Calendar: day numbers and dates *)

Lemma year_length y : days_of (y + 1) 1 1 = days_of y 1 1 + 365 + (if leap y then 1 else 0).
Proof.
  unfold days_of, month_days. replace (2 <? 1) with false by done. rewrite !andb_false_r. cbn [nth Z.to_nat Z.sub Z.add Z.opp Z.pos_sub].
  unfold leap. destruct (Z.eqb_spec (y mod 4) 0), (Z.eqb_spec (y mod 100) 0), (Z.eqb_spec (y mod 400) 0); cbn [andb orb negb];
    Z.div_mod_to_equations; lia.
Qed.

Lemma year_from_spec fuel y days :
  days_of y 1 1 <= days < days_of y 1 1 + 365 * Z.of_nat fuel ->
  let y' := year_from fuel y days in y <= y' /\ days_of y' 1 1 <= days < days_of (y' + 1) 1 1.
Proof.
  revert y. induction fuel as [|fuel IH]; intros y H; [lia|]. cbn [year_from].
  pose proof (year_length y) as Hy.
  destruct (Z.leb_spec (days_of (y + 1) 1 1) days); [|cbn; lia].
  destruct (IH (y + 1)) as [I1 I2]; [destruct (leap y); lia|]. cbn zeta. split; [lia|exact I2].
Qed.

Lemma month_days_first y : month_days y 1 = 0.
Proof. unfold month_days. by rewrite andb_false_r. Qed.

Lemma month_from_last n y yday :
  (0 < n)%nat -> 0 <= yday ->
  let m := month_from n y yday in
  1 <= m <= Z.of_nat n /\ month_days y m <= yday /\ (m < Z.of_nat n -> yday < month_days y (m + 1)).
Proof.
  intros Hn Hy. induction n as [|n IH]; [lia|]. cbn [month_from].
  destruct (Z.leb_spec (month_days y (Z.of_nat (S n))) yday) as [Hle|Hgt]; [cbv zeta; lia|].
  destruct n as [|n]; [change (Z.of_nat 1) with 1 in Hgt; rewrite month_days_first in Hgt; lia|].
  destruct IH as (I1 & I2 & I3); [lia|]. cbv zeta. split_and!; [lia..|]. intros _.
  destruct (decide (month_from (S n) y yday = Z.of_nat (S n))) as [E|]; [|apply I3; lia].
  rewrite E. by replace (Z.of_nat (S n) + 1) with (Z.of_nat (S (S n))) by lia.
Qed.

Lemma month_length y m :
  1 <= m <= 12 ->
  (if m =? 12 then 365 + (if leap y then 1 else 0) else month_days y (m + 1)) - month_days y m <= 31.
Proof.
  intros Hm. assert (exists k, m = Z.of_nat k + 1 /\ (k < 12)%nat) as (k & -> & Hk)
    by (exists (Z.to_nat (m - 1)); lia).
  unfold month_days.
  do 12 (destruct k as [|k]; [destruct (leap y); vm_compute; discriminate|]). lia.
Qed.

Lemma month_from_spec y yday :
  0 <= yday < 365 + (if leap y then 1 else 0) ->
  let m := month_from 12 y yday in 1 <= m <= 12 /\ 0 <= yday - month_days y m < 31.
Proof.
  intros H. destruct (month_from_last 12 y yday) as (H1 & H2 & H3); [lia..|]. cbv zeta.
  change (Z.of_nat 12) with 12 in *. pose proof (month_length y _ H1) as Hl.
  destruct (Z.eqb_spec (month_from 12 y yday) 12); lia.
Qed.

(** A day number is its date's day number, and the date is in range. *)
Lemma civil_days days :
  0 <= days ->
  let '(y, m, d) := civil days in
  days_of y m d = days /\ 1970 <= y /\ 1 <= m <= 12 /\ 1 <= d <= 31 /\ days_of y 1 1 <= days.
Proof.
  intros Hd. unfold civil.
  destruct (year_from_spec (S (Z.to_nat (days / 365))) 1970 days) as [H1 H2].
  { change (days_of 1970 1 1) with 0. Z.div_mod_to_equations. lia. }
  set (y := year_from _ _ _) in *. pose proof (year_length y) as Hy.
  destruct (month_from_spec y (days - days_of y 1 1)) as [H3 H4]; [lia|].
  set (m := month_from _ _ _) in *. cbv zeta. split_and!; try lia.
  assert (forall d, days_of y m d = days_of y 1 1 + month_days y m + (d - 1)) as ->.
  { intros d. unfold days_of. assert (month_days y 1 = 0) as ->; [|lia]. unfold month_days. cbn.
    by rewrite andb_false_r. }
  lia.
Qed.

Lemma timegm_gmtime secs : 0 <= secs -> timegm (gmtime secs) = secs.
Proof.
  intros Hs. unfold gmtime, timegm. pose proof (civil_days (secs / 86400)) as H.
  destruct (civil (secs / 86400)) as [[y m] d]. destruct H as [H _]; [apply Z.div_pos; lia|].
  cbn [tm_year tm_mon tm_mday tm_hour tm_min tm_sec].
  rewrite H. Z.div_mod_to_equations. lia.
Qed.

(** ** Texts: what is written is read back *)

#[local] Arguments String.append !_ _ : simpl nomatch.

Lemma digit_dec d : 0 <= d < 10 -> is_dec (digit d) = true /\ Z.of_N (N_of_ascii (digit d)) - 48 = d /\
  is_space (digit d) = false /\ digit d <> "-"%char /\ digit d <> "+"%char.
Proof.
  intros Hd. assert (d = 0 \/ d = 1 \/ d = 2 \/ d = 3 \/ d = 4 \/ d = 5 \/ d = 6 \/ d = 7 \/ d = 8 \/ d = 9)
    as H by lia.
  repeat (destruct H as [->|H]); [vm_compute; repeat split; discriminate..|]. subst d. vm_compute. repeat split; discriminate.
Qed.

Lemma dec_app n v a b : (dec n v a +:+ b)%string = dec n v (a +:+ b)%string.
Proof. revert v a. induction n as [|n IH]; intros v a; [done|]. cbn [dec]. by rewrite IH. Qed.

Lemma length_dec n v rest : String.length (dec n v rest) = (n + String.length rest)%nat.
Proof. revert v rest. induction n as [|n IH]; intros v rest; [done|]. cbn [dec]. rewrite IH. cbn. lia. Qed.

Lemma scan_digits_dec n v acc rest :
  0 <= v < 10 ^ Z.of_nat n -> scan_digits acc (dec n v rest) = scan_digits (acc * 10 ^ Z.of_nat n + v) rest.
Proof.
  revert v rest. induction n as [|n IH]; intros v rest Hv.
  { cbn [dec]. change (10 ^ Z.of_nat 0) with 1 in *. f_equal. lia. }
  rewrite Nat2Z.inj_succ, Z.pow_succ_r in * by lia. cbn [dec].
  pose proof (Z.div_mod v 10 ltac:(lia)) as D. pose proof (Z.mod_pos_bound v 10 ltac:(lia)) as M.
  rewrite IH by nia. cbn [scan_digits]. destruct (digit_dec (v mod 10) M) as (-> & -> & _). f_equal. nia.
Qed.

(** The head of a text written by [dec]. *)
Lemma dec_head n v rest : exists d s, 0 <= d < 10 /\ dec (S n) v rest = String (digit d) s.
Proof.
  revert v rest. induction n as [|n IH]; intros v rest.
  - exists (v mod 10), rest. split; [apply Z.mod_pos_bound; lia|done].
  - destruct (IH (v / 10) (String (digit (v mod 10)) rest)) as (d & s & Hd & E). exists d, s. split; [done|exact E].
Qed.

Definition no_digit (s : string) : Prop := match s with String c _ => is_dec c = false | EmptyString => True end.

Lemma scan_digits_stop acc s : no_digit s -> scan_digits acc s = (acc, s).
Proof. destruct s as [|c s]; [done|]. cbn. by intros ->. Qed.

Lemma scan_d_dec n v rest :
  0 <= v < 10 ^ Z.of_nat (S n) -> no_digit rest -> scan_d (dec (S n) v rest) = Some (v, rest).
Proof.
  intros Hv Hr. destruct (dec_head n v rest) as (d & s & Hd & E). pose proof (scan_digits_dec (S n) v 0 rest Hv) as H.
  rewrite (scan_digits_stop _ rest), Z.mul_0_l, Z.add_0_l in H by done. rewrite E in *.
  destruct (digit_dec d Hd) as (H1 & _ & H3 & H4 & H5).
  unfold scan_d. cbn [skip_space]. rewrite H3. rewrite !bool_decide_eq_false_2 by done.
  unfold scan_unsigned. rewrite H1. by rewrite H.
Qed.

Lemma scan_d_2 v rest : 0 <= v < 100 -> no_digit rest -> scan_d (dec 2 v rest) = Some (v, rest).
Proof. apply (scan_d_dec 1). Qed.
Lemma scan_d_3 v rest : 0 <= v < 1000 -> no_digit rest -> scan_d (dec 3 v rest) = Some (v, rest).
Proof. apply (scan_d_dec 2). Qed.
Lemma scan_d_4 v rest : 0 <= v < 10000 -> no_digit rest -> scan_d (dec 4 v rest) = Some (v, rest).
Proof. apply (scan_d_dec 3). Qed.

Lemma year_bound y days : days_of y 1 1 <= days < 2932897 -> y < 10000.
Proof.
  intros H. apply Z.nle_gt. intros Hy. revert H. unfold days_of. rewrite month_days_first.
  Z.div_mod_to_equations. lia.
Qed.

Lemma gmtime_range secs :
  0 <= secs < 253402300800 ->
  let t := gmtime secs in
  1970 <= tm_year t < 10000 /\ 0 <= tm_mon t < 100 /\ 0 <= tm_mday t < 100 /\ 0 <= tm_hour t < 100 /\
  0 <= tm_min t < 100 /\ 0 <= tm_sec t < 100.
Proof.
  intros Hs. unfold gmtime. pose proof (civil_days (secs / 86400)) as H.
  destruct (civil (secs / 86400)) as [[y m] d]. destruct H as (_ & H1 & H2 & H3 & H4); [apply Z.div_pos; lia|].
  cbn [tm_year tm_mon tm_mday tm_hour tm_min tm_sec].
  assert (y < 10000).
  { apply (year_bound y (secs / 86400)). split; [done|]. apply Z.div_lt_upper_bound; lia. }
  split_and!; try lia; Z.div_mod_to_equations; lia.
Qed.

Lemma strftime_datetime_app t a b :
  1000 <= tm_year t < 10000 -> (strftime_datetime t a +:+ b)%string = strftime_datetime t (a +:+ b)%string.
Proof.
  intros Hy. unfold strftime_datetime, strftime_date, fmt_year.
  rewrite (proj2 (Z.leb_le _ _)), (proj2 (Z.ltb_lt _ _)) by lia. cbn [andb].
  do 6 (rewrite dec_app; cbn [String.append]). reflexivity.
Qed.

Lemma sscanf_iso t ms :
  1000 <= tm_year t < 10000 -> 0 <= tm_mon t < 100 -> 0 <= tm_mday t < 100 -> 0 <= tm_hour t < 100 ->
  0 <= tm_min t < 100 -> 0 <= tm_sec t < 100 -> 0 <= ms < 1000 ->
  sscanf (iso_format true) (strftime_datetime t (String "." (dec 3 ms "Z")))
  = [tm_year t; tm_mon t; tm_mday t; tm_hour t; tm_min t; tm_sec t; ms].
Proof.
  intros Hy H1 H2 H3 H4 H5 H6. unfold strftime_datetime, strftime_date, fmt_year.
  rewrite (proj2 (Z.leb_le _ _)), (proj2 (Z.ltb_lt _ _)) by lia. cbn [andb].
  unfold iso_format. cbn [app sscanf]. rewrite scan_d_4 by (lia || done). cbn [sscanf].
  do 5 (rewrite bool_decide_eq_true_2 by done; rewrite scan_d_2 by done).
  rewrite bool_decide_eq_true_2 by done. by rewrite scan_d_3.
Qed.

(** ISO 8601: every time up to the year 9999 that is written is read back to the
    millisecond. *)
Theorem iso8601_roundtrip ms size :
  0 <= ms < 253402300800000 -> 25 <= size ->
  exists text, time_format_iso8601 ms size = Some text /\ String.length text = 24%nat /\
    time_parse_iso8601 text = ms.
Proof.
  intros Hms Hsz. unfold time_format_iso8601. destruct (Z.ltb_spec size 25); [lia|].
  destruct (gmtime_range (ms / 1000)) as (Hy & H1 & H2 & H3 & H4 & H5); [Z.div_mod_to_equations; lia|].
  set (t := gmtime (ms / 1000)) in *. pose proof (Z.mod_pos_bound ms 1000 ltac:(lia)) as Hm.
  assert (String.length (strftime_datetime t "") = 19%nat) as Hl.
  { unfold strftime_datetime, strftime_date, fmt_year.
    rewrite (proj2 (Z.leb_le _ _)), (proj2 (Z.ltb_lt _ _)) by lia. cbn [andb].
    repeat (rewrite length_dec; cbn [String.length]). lia. }
  change (String.substring 0 19) with (strncpy 19). rewrite (strncpy_fits 19) by lia.
  rewrite (strncpy_fits (Z.to_nat (size - 20))) by (cbn [String.length]; rewrite length_dec; cbn [String.length]; lia).
  rewrite strftime_datetime_app by lia. change ("" +:+ ?x)%string with x. eexists. split; [reflexivity|]. split.
  - cbn [String.append]. unfold strftime_datetime, strftime_date, fmt_year.
    rewrite (proj2 (Z.leb_le _ _)), (proj2 (Z.ltb_lt _ _)) by lia. cbn [andb].
    repeat (rewrite length_dec; cbn [String.length]). lia.
  - unfold time_parse_iso8601. cbn [String.append]. rewrite sscanf_iso by lia.
    assert (mk_tm (tm_year t) (tm_mon t) (tm_mday t) (tm_hour t) (tm_min t) (tm_sec t) = t) as -> by (by destruct t).
    unfold t. rewrite timegm_gmtime by (apply Z.div_pos; lia).
    rewrite wrap64_small by (unfold is_u64; Z.div_mod_to_equations; lia). Z.div_mod_to_equations. lia.
Qed.

Lemma iso8601_roundtrip_witness :
  time_format_iso8601 1709210096789 32 = Some "2024-02-29T12:34:56.789Z"%string /\
  exists text, time_format_iso8601 1709210096789 32 = Some text /\ String.length text = 24%nat /\
    time_parse_iso8601 text = 1709210096789.
Proof. split; [vm_compute; reflexivity|]. apply (iso8601_roundtrip 1709210096789 32); lia. Defined.

(** The fraction is read as a number of milliseconds, whatever its length, and an offset
    from UTC is ignored. *)
Example short_fraction_misread : time_parse_iso8601 "1970-01-01T00:00:01.5Z" = 1005.
Proof. vm_compute. reflexivity. Qed.
Example offset_ignored :
  time_parse_iso8601 "2024-02-29T12:34:56+02:00" = time_parse_iso8601 "2024-02-29T12:34:56Z".
Proof. vm_compute. reflexivity. Qed.

(** ** [timespec] and stop-watch *)

Definition normal (ts : timespec) : Prop := 0 <= tv_nsec ts < 1000000000.
Definition nanos (ts : timespec) : Z := tv_sec ts * 1000000000 + tv_nsec ts.

(** Adding milliseconds to a normal time ends after at most one carry, gives a normal
    time and adds exactly. *)
Theorem time_add_ms_exact ts ms :
  normal ts -> 0 <= ms ->
  exists ts', time_add_ms 2 ts ms = Some ts' /\ normal ts' /\ nanos ts' = nanos ts + ms * 1000000.
Proof.
  intros Hn Hm. unfold time_add_ms, normal, nanos in *. cbn [carry tv_sec tv_nsec].
  pose proof (Z.div_mod ms 1000 ltac:(lia)) as D. pose proof (Z.mod_pos_bound ms 1000 ltac:(lia)) as M.
  destruct (Z.leb_spec 1000000000 (tv_nsec ts + ms mod 1000 * 1000000)); cbn [tv_sec tv_nsec].
  - destruct (Z.leb_spec 1000000000 (tv_nsec ts + ms mod 1000 * 1000000 - 1000000000)); [lia|].
    eexists. split; [reflexivity|]. cbn [tv_sec tv_nsec]. lia.
  - eexists. split; [reflexivity|]. cbn [tv_sec tv_nsec]. lia.
Qed.

Theorem ms_timespec_roundtrip ms : is_u64 ms -> time_timespec_to_ms (time_ms_to_timespec ms) = ms.
Proof.
  intros Hm. unfold time_timespec_to_ms, time_ms_to_timespec. cbn [tv_sec tv_nsec].
  rewrite Z.div_mul by lia. pose proof (Z.div_mod ms 1000 ltac:(lia)).
  rewrite wrap64_small; [lia|]. unfold is_u64 in *. lia.
Qed.

(** The stop-watch adds up the running times. *)
Theorem timer_accumulates t a b :
  tr_running t = false -> is_u64 a -> is_u64 b -> a <= b -> tr_accumulated_us t + (b - a) < 2 ^ 64 ->
  0 <= tr_accumulated_us t ->
  let t' := timer_stop b (timer_start a t) in
  tr_running t' = false /\ timer_elapsed_us b t' = timer_elapsed_us a t + (b - a) /\
  timer_elapsed_us b (timer_start a t) = timer_elapsed_us b t'.
Proof.
  intros Hr Ha Hb Hab Hs Hz. unfold timer_stop, timer_start, timer_elapsed_us. rewrite Hr. cbn [tr_running tr_start_us tr_accumulated_us].
  assert (u64_sub b a = b - a) as ->.
  { unfold u64_sub. apply wrap64_small. unfold is_u64 in *. lia. }
  rewrite wrap64_small by (unfold is_u64; lia). split_and!; lia || done.
Qed.
