(* ===== verification/Historian.v ===== *)
(** * Historian: tags, sampling, ring buffers and files

    Model of [src/historian/tag_manager.c] (Module [Tags]) and [historian.c].  The
    compression states of the tag manager are those of Compression.v; the historian
    itself applies a deadband of its own.

    Sensors are read through the registry interface [RegistryOps]; [clk i] is the clock
    reading inside the [i]-th read.  The files are a map from names to bytes; whether a
    file can be opened is an argument.  Threads and the mutex are left out: the
    operations run under the lock. *)

From stdpp Require Import strings gmap.
From S2P Require Import Prelude Float32 Types Compression Coordination Time.

Definition WTC_MAX_HISTORIAN_TAGS : Z := 1024.
Definition DEFAULT_BUFFER_SIZE : Z := 1000.

(** [historian_tag_t] *)
Record historian_tag := mk_historian_tag {
  ht_tag_id : Z;
  ht_rtu_station : string;
  ht_slot : Z;
  ht_tag_name : string;
  ht_unit : string;
  ht_sample_rate_ms : Z;
  ht_deadband : float32;
  ht_compression : compression;
  ht_total_samples : Z;
  ht_compressed_samples : Z;
  ht_compression_ratio : float32;
  ht_last_value : float32;
  ht_last_sample_ms : Z }.
#[export] Instance eta_historian_tag : Eta historian_tag := fun r =>
  mk_historian_tag (ht_tag_id r) (ht_rtu_station r) (ht_slot r) (ht_tag_name r) (ht_unit r)
    (ht_sample_rate_ms r) (ht_deadband r) (ht_compression r) (ht_total_samples r)
    (ht_compressed_samples r) (ht_compression_ratio r) (ht_last_value r) (ht_last_sample_ms r).
#[export] Instance compression_eq_dec : EqDecision compression.
Proof. solve_decision. Defined.

Module Tags.

(** [managed_tag_t] *)
Record managed_tag := mk_managed_tag {
  mt_config : historian_tag;
  mt_compression : compression_state;
  mt_next_sample_time : Z;
  mt_enabled : bool }.
#[export] Instance eta_managed_tag : Eta managed_tag := fun r =>
  mk_managed_tag (mt_config r) (mt_compression r) (mt_next_sample_time r) (mt_enabled r).

(** [struct tag_manager] *)
Record tag_manager := mk_tag_manager {
  tg_tags : list managed_tag;
  tg_max_tags : Z;
  tg_next_tag_id : Z }.
#[export] Instance eta_tag_manager : Eta tag_manager := fun r =>
  mk_tag_manager (tg_tags r) (tg_max_tags r) (tg_next_tag_id r).

Definition tag_id_of (m : managed_tag) : Z := ht_tag_id (mt_config m).

Definition tag_manager_init (alloc_ok : bool) (max_tags : Z) : wtc_result * option tag_manager :=
  if max_tags <=? 0 then (WTC_ERROR_INVALID_PARAM, None)
  else if alloc_ok then (WTC_OK, Some (mk_tag_manager [] max_tags 1)) else (WTC_ERROR_NO_MEMORY, None).

(** [tag_manager_add] *)
Definition tag_manager_add (tg : tag_manager) (tag : historian_tag) : wtc_result * tag_manager :=
  let fresh := compression_init (ht_compression tag) (ht_deadband tag) in
  match find_update (keyed tag_id_of (ht_tag_id tag))
          (fun m => m <| mt_config := tag |> <| mt_compression := fresh |>) (tg_tags tg) with
  | Some l => (WTC_OK, tg <| tg_tags := l |>)
  | None =>
      if tg_max_tags tg <=? Z.of_nat (length (tg_tags tg)) then (WTC_ERROR_FULL, tg)
      else
        let '(id, next) :=
          if ht_tag_id tag =? 0 then (tg_next_tag_id tg, tg_next_tag_id tg + 1)
          else if tg_next_tag_id tg <=? ht_tag_id tag then (ht_tag_id tag, ht_tag_id tag + 1)
          else (ht_tag_id tag, tg_next_tag_id tg) in
        (WTC_OK, tg <| tg_tags ::= fun l => l ++ [mk_managed_tag (tag <| ht_tag_id := id |>) fresh 0 true] |>
                    <| tg_next_tag_id := next |>)
  end.

Definition tag_manager_remove (tg : tag_manager) (tag_id : Z) : wtc_result * tag_manager :=
  let '(res, l) := remove_keyed tag_id_of tag_id (tg_tags tg) in (res, tg <| tg_tags := l |>).
Definition tag_manager_get (tg : tag_manager) (tag_id : Z) : option managed_tag :=
  get_keyed tag_id_of tag_id (tg_tags tg).

Definition at_point (st : string) (sl : Z) (t : historian_tag) : Prop :=
  ht_rtu_station t = st /\ ht_slot t = sl.
#[export] Instance at_point_dec st sl t : Decision (at_point st sl t).
Proof. unfold at_point. apply _. Defined.

Definition tag_manager_find (tg : tag_manager) (rtu_station : string) (slot : Z) : option Z :=
  tag_id_of <$> find_entry (fun m => at_point rtu_station slot (mt_config m)) (tg_tags tg).

(** [tag_manager_update], [tag_manager_enable] *)
Definition tag_manager_update (tg : tag_manager) (tag_id sample_rate_ms : Z) (deadband : float32)
    (algorithm : compression) : wtc_result * tag_manager :=
  let '(res, l) := update_keyed tag_id_of tag_id
      (fun m => m <| mt_config ::= fun c => c <| ht_sample_rate_ms := sample_rate_ms |>
                                              <| ht_deadband := deadband |> <| ht_compression := algorithm |> |>
                  <| mt_compression := compression_init algorithm deadband |>) (tg_tags tg) in
  (res, tg <| tg_tags := l |>).
Definition tag_manager_enable (tg : tag_manager) (tag_id : Z) (enabled : bool) : wtc_result * tag_manager :=
  let '(res, l) := update_keyed tag_id_of tag_id (fun m => m <| mt_enabled := enabled |>) (tg_tags tg) in
  (res, tg <| tg_tags := l |>).

Definition tag_manager_list (alloc_ok : bool) (tg : tag_manager) (max_count : Z)
    : wtc_result * option (list historian_tag) :=
  if alloc_ok then (WTC_OK, Some (mt_config <$> take (Z.to_nat max_count) (tg_tags tg)))
  else (WTC_ERROR_NO_MEMORY, None).
Definition tag_manager_count (tg : tag_manager) : Z := Z.of_nat (length (tg_tags tg)).

Definition due (now : Z) (m : managed_tag) : bool := mt_enabled m && (mt_next_sample_time m <=? now).
Definition tag_manager_needs_sample (tg : tag_manager) (tag_id now : Z) : bool :=
  match get_keyed tag_id_of tag_id (tg_tags tg) with Some m => due now m | None => false end.

(** [tag_manager_record_sample] *)
Definition tag_manager_record_sample (tg : tag_manager) (tag_id : Z) (value : float32) (timestamp_ms : Z)
    : tag_manager :=
  let '(_, l) := update_keyed tag_id_of tag_id
      (fun m => m <| mt_config ::= fun c => c <| ht_last_value := value |> <| ht_last_sample_ms := timestamp_ms |>
                                              <| ht_total_samples ::= fun n => wrap64 (n + 1) |> |>
                  <| mt_next_sample_time := wrap64 (timestamp_ms + ht_sample_rate_ms (mt_config m)) |>)
      (tg_tags tg) in
  tg <| tg_tags := l |>.

(** [tag_manager_get_due_tags] *)
Definition tag_manager_get_due_tags (tg : tag_manager) (now max_count : Z) : list Z :=
  take (Z.to_nat max_count) (tag_id_of <$> filter (fun m => due now m = true) (tg_tags tg)).

End Tags.

(** ** Ring buffer of a tag *)

(** [tag_buffer_t] with its array. *)
Record tag_buffer := mk_tag_buffer {
  tb_samples : list historian_sample;
  tb_capacity : Z;
  tb_count : Z;
  tb_write_pos : Z }.
#[export] Instance eta_tag_buffer : Eta tag_buffer := fun r =>
  mk_tag_buffer (tb_samples r) (tb_capacity r) (tb_count r) (tb_write_pos r).

Definition zero_sample : historian_sample := mk_historian_sample 0 0 f0 0.
(** [init_tag_buffer] (an array of negative size cannot be allocated). *)
Definition init_tag_buffer (alloc_ok : bool) (capacity : Z) : wtc_result * tag_buffer :=
  if alloc_ok && (0 <=? capacity)
  then (WTC_OK, mk_tag_buffer (replicate (Z.to_nat capacity) zero_sample) capacity 0 0)
  else (WTC_ERROR_NO_MEMORY, mk_tag_buffer [] 0 0 0).

(** [buffer_add_sample] *)
Definition buffer_add_sample (b : tag_buffer) (s : historian_sample) : tag_buffer :=
  let b := b <| tb_samples ::= <[Z.to_nat (tb_write_pos b) := s]> |>
             <| tb_write_pos := Z.rem (tb_write_pos b + 1) (tb_capacity b) |> in
  if tb_count b <? tb_capacity b then b <| tb_count ::= Z.succ |> else b.

(** The walk over the samples kept, oldest first, that flush, query and export share. *)
Definition buffer_index (b : tag_buffer) (i : Z) : Z :=
  Z.rem (tb_write_pos b - tb_count b + i + tb_capacity b) (tb_capacity b).
Definition buffer_contents (b : tag_buffer) : list historian_sample :=
  (fun i => nth (Z.to_nat (buffer_index b (Z.of_nat i))) (tb_samples b) zero_sample) <$> seq 0 (Z.to_nat (tb_count b)).

(** ** The historian *)

(** [historian_tag_internal_t] *)
Record htag := mk_htag {
  tg_info : historian_tag;
  tg_buffer : tag_buffer;
  tg_last_stored_value : float32;
  tg_last_sample_time_ms : Z;
  tg_enabled : bool }.
#[export] Instance eta_htag : Eta htag := fun r =>
  mk_htag (tg_info r) (tg_buffer r) (tg_last_stored_value r) (tg_last_sample_time_ms r) (tg_enabled r).

(** [historian_config_t] (the fields used) *)
Record historian_config := mk_historian_config {
  hc_database_path : option string;
  hc_max_tags : Z;
  hc_buffer_size : Z;
  hc_default_sample_rate_ms : Z;
  hc_default_deadband : float32;
  hc_retention_days : Z }.

(** [struct historian]; [next_tag_id] is an [int] that grows by one for each tag added. *)
Record historian := mk_historian {
  hi_config : historian_config;
  hi_registry : bool;
  hi_tags : list htag;
  hi_tag_capacity : Z;
  hi_next_tag_id : Z;
  hi_running : bool;
  hi_total_samples : Z;
  hi_samples_in_buffer : Z;
  hi_samples_flushed : Z }.
#[export] Instance eta_historian : Eta historian := fun r =>
  mk_historian (hi_config r) (hi_registry r) (hi_tags r) (hi_tag_capacity r) (hi_next_tag_id r)
    (hi_running r) (hi_total_samples r) (hi_samples_in_buffer r) (hi_samples_flushed r).

Definition or_default (x d : Z) : Z := if x =? 0 then d else x.

(** [historian_init] ([None]: no configuration given, all fields zero). *)
Definition historian_init (alloc_ok : bool) (config : option historian_config)
    : wtc_result * option historian :=
  let c := default (mk_historian_config None 0 0 0 f0 0) config in
  let c := mk_historian_config (hc_database_path c) (or_default (hc_max_tags c) WTC_MAX_HISTORIAN_TAGS)
             (or_default (hc_buffer_size c) DEFAULT_BUFFER_SIZE)
             (or_default (hc_default_sample_rate_ms c) 1000) (hc_default_deadband c)
             (or_default (hc_retention_days c) 365) in
  if alloc_ok then (WTC_OK, Some (mk_historian c false [] (hc_max_tags c) 1 false 0 0 0))
  else (WTC_ERROR_NO_MEMORY, None).

Definition historian_set_registry (h : historian) (registry : bool) : historian := h <| hi_registry := registry |>.

(** [historian_start] ([thread_ok]: the thread is created). *)
Definition historian_start (thread_ok : bool) (h : historian) : wtc_result * historian :=
  if hi_running h then (WTC_OK, h)
  else if thread_ok then (WTC_OK, h <| hi_running := true |>) else (WTC_ERROR, h).

Definition tag_at (st : string) (sl : Z) (t : htag) : Prop := Tags.at_point st sl (tg_info t).
#[export] Instance tag_at_dec st sl t : Decision (tag_at st sl t).
Proof. unfold tag_at. apply _. Defined.
Definition htag_id (t : htag) : Z := ht_tag_id (tg_info t).

(** [historian_add_tag]: the result, the id on success.  A buffer that cannot be
    allocated has used up the id. *)
Definition historian_add_tag (alloc_ok : bool) (h : historian) (rtu_station : string) (slot : Z)
    (tag_name : option string) (sample_rate_ms : Z) (deadband : float32) (algorithm : compression)
    : wtc_result * option Z * historian :=
  if hi_tag_capacity h <=? Z.of_nat (length (hi_tags h)) then (WTC_ERROR_FULL, None, h)
  else if bool_decide (is_Some (find_entry (tag_at rtu_station slot) (hi_tags h)))
  then (WTC_ERROR_ALREADY_EXISTS, None, h)
  else
    let id := hi_next_tag_id h in
    let name := match tag_name with
                | Some n => n
                | None => (rtu_station +:+ ".slot" +:+ pretty slot)%string
                end in
    let info := mk_historian_tag id (strncpy (WTC_MAX_STATION_NAME - 1) rtu_station) slot (strncpy 127 name) ""
                  (if 0 <? sample_rate_ms then sample_rate_ms else hc_default_sample_rate_ms (hi_config h))
                  (if fge deadband f0 then deadband else hc_default_deadband (hi_config h)) algorithm
                  0 0 f0 f0 0 in
    let h := h <| hi_next_tag_id ::= Z.succ |> in
    let '(res, b) := init_tag_buffer alloc_ok (hc_buffer_size (hi_config h)) in
    if bool_decide (res = WTC_OK)
    then (WTC_OK, Some id, h <| hi_tags ::= fun l => l ++ [mk_htag info b f0 0 true] |>)
    else (res, None, h).

Definition historian_remove_tag (h : historian) (tag_id : Z) : wtc_result * historian :=
  let '(res, l) := remove_keyed htag_id tag_id (hi_tags h) in (res, h <| hi_tags := l |>).
Definition historian_get_tag (h : historian) (tag_id : Z) : option historian_tag :=
  tg_info <$> get_keyed htag_id tag_id (hi_tags h).

(** A sample goes into the buffer and the statistics of its tag. *)
Definition store_sample (t : htag) (s : historian_sample) : htag :=
  t <| tg_buffer ::= fun b => buffer_add_sample b s |>
    <| tg_info ::= fun i => i <| ht_total_samples ::= fun n => wrap64 (n + 1) |>
                              <| ht_last_value := hs_value s |> <| ht_last_sample_ms := hs_timestamp_ms s |> |>
    <| tg_last_stored_value := hs_value s |>.

(** [historian_record_sample] *)
Definition historian_record_sample (h : historian) (tag_id timestamp_ms : Z) (value : float32) (quality : Z)
    : wtc_result * historian :=
  let s := mk_historian_sample timestamp_ms tag_id value quality in
  match find_update (keyed htag_id tag_id) (fun t => store_sample t s) (hi_tags h) with
  | None => (WTC_ERROR_NOT_FOUND, h)
  | Some l => (WTC_OK, h <| hi_tags := l |> <| hi_total_samples ::= fun n => wrap64 (n + 1) |>)
  end.

(** Whether a reading is kept. *)
Definition stores_reading (t : htag) (value : float32) : bool :=
  match ht_compression (tg_info t) with
  | COMPRESSION_DEADBAND | COMPRESSION_SWINGING_DOOR =>
      fge (fabsf (fsub value (tg_last_stored_value t))) (ht_deadband (tg_info t))
  | _ => true
  end.
Definition tag_due (now : Z) (t : htag) : bool :=
  wrap64 (ht_sample_rate_ms (tg_info t)) <=? u64_sub now (tg_last_sample_time_ms t).

(** A reading of a tag that is due; the flag tells that it was stored. *)
Definition take_reading (now : Z) (sensor : sensor_data) (t : htag) : htag * bool :=
  let stored := stores_reading t (sd_value sensor) || (ht_total_samples (tg_info t) =? 0) in
  let t := if stored
           then store_sample t (mk_historian_sample now (ht_tag_id (tg_info t)) (sd_value sensor)
                                  (if bool_decide (sd_status sensor = IOPS_GOOD) then 192 else 0))
           else t <| tg_info ::= fun i => i <| ht_compressed_samples ::= fun n => wrap64 (n + 1) |> |> in
  let t := t <| tg_last_sample_time_ms := now |> in
  (if 0 <? ht_total_samples (tg_info t)
   then t <| tg_info ::= fun i => i <| ht_compression_ratio :=
            fdiv (f32_of_Z (wrap64 (ht_total_samples i + ht_compressed_samples i))) (f32_of_Z (ht_total_samples i)) |> |>
   else t, stored).

Section Process.
Context {R : Type} `{RegistryOps R}.

(** One tag of [historian_process]. *)
Definition process_tag (now : Z) (r : R) (clk : Z) (t : htag) : htag * bool :=
  if negb (tg_enabled t) || negb (tag_due now t) then (t, false)
  else
    let '(res, sensor) := reg_get_sensor r clk (ht_rtu_station (tg_info t)) (ht_slot (tg_info t)) zero_sensor in
    if bool_decide (res = WTC_OK) then take_reading now sensor t else (t, false).

(** [historian_process] *)
Definition historian_process (now : Z) (r : R) (clk : nat -> Z) (h : historian) : wtc_result * historian :=
  if negb (hi_registry h) then (WTC_ERROR_INVALID_PARAM, h)
  else
    let results := imap (fun i t => process_tag now r (clk i) t) (hi_tags h) in
    let tags := fst <$> results in
    (WTC_OK, h <| hi_tags := tags |>
               <| hi_total_samples ::= fun n => wrap64 (n + Z.of_nat (length (filter (fun b => b = true) (snd <$> results)))) |>
               <| hi_samples_in_buffer := foldl (fun n t => wrap64 (n + tb_count (tg_buffer t))) 0 tags |>).
End Process.

(** ** Files *)

Definition files := gmap string (list Z).

(** The bytes of an integer, least significant first, as in memory. *)
Fixpoint mem_bytes (n : nat) (v : Z) : list Z :=
  match n with O => [] | S n' => v mod 256 :: mem_bytes n' (v / 256) end.
(** A record of the file: time stamp, value, quality. *)
Definition sample_bytes (s : historian_sample) : list Z :=
  mem_bytes 8 (hs_timestamp_ms s) ++ mem_bytes 4 (bits_of_f32 (hs_value s)) ++ [hs_quality s].

Definition data_dir (h : historian) : string :=
  default "/var/lib/water-controller/historian"%string (hc_database_path (hi_config h)).
(** [snprintf(filename, 256, "%s/%s_%d.dat", ...)] *)
Definition file_name (dir : string) (now tag_id : Z) : string :=
  strncpy 255 (dir +:+ "/" +:+ default "" (time_format_date now 16) +:+ "_" +:+ pretty tag_id +:+ ".dat")%string.

(** One tag of [historian_flush] ([open_ok]: the file can be opened, at once or after
    [mkdir]); the number of samples written. *)
Definition flush_tag (dir : string) (now : Z) (open_ok : bool) (t : htag) (fs : files) : htag * files * Z :=
  if tb_count (tg_buffer t) =? 0 then (t, fs, 0)
  else if negb open_ok then (t, fs, 0)
  else
    let name := file_name dir now (ht_tag_id (tg_info t)) in
    let contents := buffer_contents (tg_buffer t) in
    (t <| tg_buffer ::= fun b => b <| tb_count := 0 |> <| tb_write_pos := 0 |> |>,
     <[name := default [] (fs !! name) ++ concat (sample_bytes <$> contents)]> fs,
     Z.of_nat (length contents)).

Fixpoint flush_tags (dir : string) (now : Z) (open_ok : Z -> bool) (ts : list htag) (fs : files)
    : list htag * files * Z :=
  match ts with
  | [] => ([], fs, 0)
  | t :: ts =>
      let '(t, fs, n) := flush_tag dir now (open_ok (htag_id t)) t fs in
      let '(ts, fs, m) := flush_tags dir now open_ok ts fs in (t :: ts, fs, n + m)
  end.

(** [historian_flush] *)
Definition historian_flush (now : Z) (open_ok : Z -> bool) (h : historian) (fs : files)
    : wtc_result * historian * files :=
  let '(ts, fs, n) := flush_tags (data_dir h) now open_ok (hi_tags h) fs in
  (WTC_OK, h <| hi_tags := ts |> <| hi_samples_in_buffer := 0 |>
             <| hi_samples_flushed ::= fun k => wrap64 (k + n) |>, fs).

(** [historian_stop] *)
Definition historian_stop (now : Z) (open_ok : Z -> bool) (h : historian) (fs : files)
    : wtc_result * historian * files :=
  if negb (hi_running h) then (WTC_OK, h, fs)
  else let '(_, h, fs) := historian_flush now open_ok (h <| hi_running := false |>) fs in (WTC_OK, h, fs).

(** ** Queries *)

Definition in_range (start_ms end_ms : Z) (s : historian_sample) : Prop :=
  start_ms <= hs_timestamp_ms s <= end_ms.
#[export] Instance in_range_dec a b s : Decision (in_range a b s).
Proof. unfold in_range. apply _. Defined.

(** The loop of [historian_query]: stops when the output is full. *)
Fixpoint query_loop (room : nat) (start_ms end_ms : Z) (l : list historian_sample) : list historian_sample :=
  match room, l with
  | S room', s :: l' =>
      if decide (in_range start_ms end_ms s) then s :: query_loop room' start_ms end_ms l'
      else query_loop room start_ms end_ms l'
  | _, _ => []
  end.
Definition historian_query (h : historian) (tag_id start_ms end_ms max_count : Z)
    : wtc_result * option (list historian_sample) :=
  match get_keyed htag_id tag_id (hi_tags h) with
  | None => (WTC_ERROR_NOT_FOUND, None)
  | Some t => (WTC_OK, Some (query_loop (Z.to_nat max_count) start_ms end_ms (buffer_contents (tg_buffer t))))
  end.

(** [historian_get_current]: value, time and the constant quality. *)
Definition historian_get_current (h : historian) (tag_id : Z) : wtc_result * option (float32 * Z * Z) :=
  match get_keyed htag_id tag_id (hi_tags h) with
  | None => (WTC_ERROR_NOT_FOUND, None)
  | Some t => (WTC_OK, Some (ht_last_value (tg_info t), ht_last_sample_ms (tg_info t), 192))
  end.

Definition NL : string := String (Ascii.ascii_of_nat 10) "".
Definition csv_row (s : historian_sample) : string :=
  (default "" (time_format_iso8601 (hs_timestamp_ms s) 32) +:+ "," +:+ fmt_fixed 4 (hs_value s) +:+ NL)%string.

(** [historian_export_csv]: the text of the file ([None]: it cannot be opened). *)
Definition historian_export_csv (open_ok : bool) (h : historian) (tag_ids : list Z) (start_ms end_ms : Z)
    : wtc_result * option string :=
  if negb open_ok then (WTC_ERROR_IO, None)
  else
    let header := String.concat "" ("timestamp"%string ::
      ((fun id => match historian_get_tag h id with Some t => ("," +:+ ht_tag_name t)%string | None => ""%string end)
        <$> tag_ids)) in
    let rows id := match get_keyed htag_id id (hi_tags h) with
                   | Some t => csv_row <$> filter (in_range start_ms end_ms) (buffer_contents (tg_buffer t))
                   | None => []
                   end in
    (WTC_OK, Some (header +:+ NL +:+ String.concat "" (concat (rows <$> tag_ids)))%string).

(** [historian_get_stats]: tags, samples, samples in the buffers, average ratio. *)
Definition historian_get_stats (h : historian) : Z * Z * Z * float32 :=
  let n := Z.of_nat (length (hi_tags h)) in
  (n, hi_total_samples h, hi_samples_in_buffer h,
   if 0 <? n then fdiv (foldl (fun x t => fadd x (ht_compression_ratio (tg_info t))) f0 (hi_tags h)) (f32_of_Z n) else f1).

(** ** Theorems: the ring buffer *)

Definition buffer_ok (b : tag_buffer) : Prop :=
  0 < tb_capacity b /\ Z.of_nat (length (tb_samples b)) = tb_capacity b /\
  0 <= tb_count b <= tb_capacity b /\ 0 <= tb_write_pos b < tb_capacity b.

Lemma buffer_index_mod b i :
  buffer_ok b -> 0 <= i -> buffer_index b i = (tb_write_pos b - tb_count b + i) mod tb_capacity b.
Proof.
  intros (H1 & _ & H3 & H4) Hi. unfold buffer_index. rewrite Z.rem_mod_nonneg by lia.
  replace (tb_write_pos b - tb_count b + i + tb_capacity b) with (tb_write_pos b - tb_count b + i + 1 * tb_capacity b) by lia.
  apply Z.mod_add. lia.
Qed.

Lemma length_contents b : length (buffer_contents b) = Z.to_nat (tb_count b).
Proof. unfold buffer_contents. by rewrite length_fmap, length_seq. Qed.

Lemma contents_lookup b i :
  (i < Z.to_nat (tb_count b))%nat ->
  buffer_contents b !! i = Some (nth (Z.to_nat (buffer_index b (Z.of_nat i))) (tb_samples b) zero_sample).
Proof. intros Hi. unfold buffer_contents. rewrite list_lookup_fmap, lookup_seq_lt by done. done. Qed.

Lemma add_sample_ok b s : buffer_ok b -> buffer_ok (buffer_add_sample b s).
Proof.
  intros (H1 & H2 & H3 & H4). unfold buffer_add_sample. cbn [tb_count tb_capacity set].
  assert (0 <= Z.rem (tb_write_pos b + 1) (tb_capacity b) < tb_capacity b) as Hr.
  { rewrite Z.rem_mod_nonneg by lia. apply Z.mod_pos_bound. lia. }
  destruct (Z.ltb_spec (tb_count b) (tb_capacity b)); unfold buffer_ok;
    cbn [tb_samples tb_capacity tb_count tb_write_pos set]; rewrite length_insert; lia.
Qed.

Lemma mod_shift_ne w k c : 0 <= w < c -> - c < k < 0 -> (w + k) mod c <> w.
Proof.
  intros Hw Hk E. pose proof (Z.div_mod (w + k) c ltac:(lia)) as D. rewrite E in D.
  revert D. generalize ((w + k) / c). intros q D. assert (q <= -1 \/ 0 <= q) as [|] by lia; nia.
Qed.

(** The kept samples after an addition: the new one last, the oldest dropped when full. *)
Definition ring_add (capacity : Z) (l : list historian_sample) (s : historian_sample) : list historian_sample :=
  if Z.of_nat (length l) <? capacity then l ++ [s] else drop 1 l ++ [s].

Lemma contents_add b s :
  buffer_ok b -> buffer_contents (buffer_add_sample b s) = ring_add (tb_capacity b) (buffer_contents b) s.
Proof.
  intros Hok. pose proof (add_sample_ok b s Hok) as Hok'. pose proof Hok as (H1 & H2 & H3 & H4).
  set (b' := buffer_add_sample b s) in *.
  assert (tb_samples b' = <[Z.to_nat (tb_write_pos b) := s]> (tb_samples b)) as Es.
  { unfold b', buffer_add_sample. cbn [tb_count tb_capacity set]. by destruct (_ <? _). }
  assert (tb_write_pos b' = (tb_write_pos b + 1) mod tb_capacity b) as Ew.
  { unfold b', buffer_add_sample. cbn [tb_count tb_capacity set].
    destruct (_ <? _); cbn [tb_write_pos set]; by rewrite Z.rem_mod_nonneg by lia. }
  assert (tb_capacity b' = tb_capacity b) as Ec.
  { unfold b', buffer_add_sample. cbn [tb_count tb_capacity set]. by destruct (_ <? _). }
  assert (tb_count b' = if tb_count b <? tb_capacity b then tb_count b + 1 else tb_count b) as En.
  { unfold b', buffer_add_sample. cbn [tb_count tb_capacity set]. by destruct (_ <? _). }
  assert (forall i, 0 <= i -> buffer_index b' i = (tb_write_pos b + (1 - tb_count b' + i)) mod tb_capacity b) as Ei.
  { intros i Hi. rewrite buffer_index_mod by done. rewrite Ew, Ec.
    replace ((tb_write_pos b + 1) mod tb_capacity b - tb_count b' + i)
      with ((tb_write_pos b + 1) mod tb_capacity b + (i - tb_count b')) by lia.
    rewrite Zplus_mod_idemp_l. f_equal. lia. }
  assert (forall i, 0 <= i < tb_count b' - 1 ->
    nth (Z.to_nat (buffer_index b' i)) (tb_samples b') zero_sample
    = nth (Z.to_nat (buffer_index b (i + (1 + tb_count b - tb_count b')))) (tb_samples b) zero_sample) as Hold.
  { intros i Hi. rewrite Ei, (buffer_index_mod b) by (done || destruct (_ <? _) eqn:?; lia || done).
    replace (tb_write_pos b - tb_count b + (i + (1 + tb_count b - tb_count b'))) with (tb_write_pos b + (1 - tb_count b' + i)) by lia.
    pose proof (Z.mod_pos_bound (tb_write_pos b + (1 - tb_count b' + i)) (tb_capacity b) ltac:(lia)) as Hm.
    assert ((tb_write_pos b + (1 - tb_count b' + i)) mod tb_capacity b <> tb_write_pos b) as Hne.
    { apply mod_shift_ne; [lia|]. destruct Hok' as (_ & _ & Hc & _). lia. }
    rewrite Es, !nth_lookup, list_lookup_insert_ne by lia. done. }
  assert (0 < tb_count b' -> nth (Z.to_nat (buffer_index b' (tb_count b' - 1))) (tb_samples b') zero_sample = s) as Hnew.
  { intros Hp. rewrite Ei by lia. replace (tb_write_pos b + (1 - tb_count b' + (tb_count b' - 1))) with (tb_write_pos b) by lia.
    rewrite Z.mod_small by lia. rewrite Es, nth_lookup, list_lookup_insert_eq by lia. done. }
  unfold ring_add. rewrite length_contents, Z2Nat.id by lia.
  apply list_eq. intros i. destruct (decide (i < Z.to_nat (tb_count b'))%nat) as [Hi|Hi].
  - rewrite contents_lookup by done. destruct (Z.ltb_spec (tb_count b) (tb_capacity b)) as [Hlt|Hge].
    + destruct (decide (i < Z.to_nat (tb_count b))%nat) as [Hi'|Hi'].
      * rewrite lookup_app_l by (by rewrite length_contents). rewrite contents_lookup by done.
        rewrite Hold by lia. do 3 f_equal. f_equal. lia.
      * rewrite lookup_app_r by (rewrite length_contents; lia). rewrite length_contents.
        replace (i - Z.to_nat (tb_count b))%nat with 0%nat by lia. cbn. f_equal.
        replace (Z.of_nat i) with (tb_count b' - 1) by lia. apply Hnew. lia.
    + assert (length (drop 1 (buffer_contents b)) = Z.to_nat (tb_count b) - 1)%nat as El.
      { rewrite length_drop, length_contents. lia. }
      destruct (decide (i < Z.to_nat (tb_count b) - 1)%nat) as [Hi'|Hi'].
      * rewrite lookup_app_l by lia. rewrite lookup_drop, contents_lookup by lia.
        rewrite Hold by lia. do 3 f_equal. f_equal. lia.
      * rewrite lookup_app_r by lia. rewrite El. replace (i - _)%nat with 0%nat by lia. cbn. f_equal.
        replace (Z.of_nat i) with (tb_count b' - 1) by lia. apply Hnew. lia.
  - rewrite !lookup_ge_None_2; [done| |rewrite length_contents; lia].
    destruct (Z.ltb_spec (tb_count b) (tb_capacity b)); rewrite length_app, ?length_drop, length_contents; cbn [length]; lia.
Qed.

(** ** Recording and querying *)

Lemma find_update_get {A} (key : A -> Z) id f (l : list A) :
  (forall x, key (f x) = key x) ->
  match find_update (keyed key id) f l with
  | Some l' => forall id', get_keyed key id' l' = if decide (id' = id) then f <$> get_keyed key id l else get_keyed key id' l
  | None => get_keyed key id l = None
  end.
Proof.
  intros Hf. unfold get_keyed. destruct (find_update (keyed key id) f l) as [l'|] eqn:E.
  - apply find_update_Some in E as (l1 & x & l2 & -> & Hx & Hno & ->). intros id'.
    destruct (decide (id' = id)) as [->|Hne].
    + rewrite !find_entry_app; try done. unfold keyed in *. by rewrite Hf.
    + apply find_entry_replace; unfold keyed in *; [congruence|rewrite Hf; congruence].
  - apply find_update_None in E. by apply find_entry_None.
Qed.

(** The last [n] of a list. *)
Definition lastn {A} (n : nat) (l : list A) : list A := drop (length l - n) l.

Lemma ring_add_lastn capacity l s l0 :
  0 < capacity -> l = lastn (Z.to_nat capacity) l0 ->
  ring_add capacity l s = lastn (Z.to_nat capacity) (l0 ++ [s]).
Proof.
  intros Hc ->. unfold ring_add, lastn. rewrite length_drop, length_app. cbn [length].
  destruct (Z.ltb_spec (Z.of_nat (length l0 - (length l0 - Z.to_nat capacity))) capacity) as [Hlt|Hge].
  - replace (length l0 - Z.to_nat capacity)%nat with 0%nat by lia.
    replace (length l0 + 1 - Z.to_nat capacity)%nat with 0%nat by lia. by rewrite !drop_0.
  - rewrite drop_drop. replace (length l0 + 1 - Z.to_nat capacity)%nat with (length l0 - Z.to_nat capacity + 1)%nat by lia.
    rewrite drop_app_le by lia. done.
Qed.

Lemma query_loop_spec room a b l : query_loop room a b l = take room (filter (in_range a b) l).
Proof.
  revert room. induction l as [|s l IH]; intros room; [by destruct room|].
  destruct room as [|room]; [by rewrite take_0|]. cbn [query_loop]. rewrite filter_cons.
  destruct (decide (in_range a b s)); [cbn [take]; by rewrite IH|by rewrite IH].
Qed.

Lemma store_sample_id t s : htag_id (store_sample t s) = htag_id t.
Proof. done. Qed.

Lemma record_get h id ts v q t :
  get_keyed htag_id id (hi_tags h) = Some t ->
  get_keyed htag_id id (hi_tags (snd (historian_record_sample h id ts v q)))
  = Some (store_sample t (mk_historian_sample ts id v q)).
Proof.
  intros Ht. unfold historian_record_sample.
  pose proof (find_update_get htag_id id (fun t => store_sample t (mk_historian_sample ts id v q)) (hi_tags h)
    (fun t => store_sample_id t _)) as H.
  destruct (find_update _ _ _) as [l|]; [|congruence]. cbn [snd hi_tags set]. rewrite H, decide_True by done. by rewrite Ht.
Qed.

(** A sample given by hand: time, value, quality. *)
Definition record_all (h : historian) (id : Z) (samples : list (Z * float32 * Z)) : historian :=
  foldl (fun h '(ts, v, q) => snd (historian_record_sample h id ts v q)) h samples.
Definition as_sample (id : Z) (x : Z * float32 * Z) : historian_sample :=
  let '(ts, v, q) := x in mk_historian_sample ts id v q.

(** C33: Recording and querying: after any samples recorded for a tag, a query answers
    exactly those of its time range among the last [capacity] samples of the tag, oldest
    first, as many as the caller has room for. *)
Theorem record_query_roundtrip h id t samples a b max :
  get_keyed htag_id id (hi_tags h) = Some t -> buffer_ok (tg_buffer t) ->
  historian_query (record_all h id samples) id a b max
  = (WTC_OK, Some (take (Z.to_nat max) (filter (in_range a b)
       (lastn (Z.to_nat (tb_capacity (tg_buffer t)))
          (buffer_contents (tg_buffer t) ++ (as_sample id <$> samples)))))).
Proof.
  intros Ht Hok.
  assert (exists t', get_keyed htag_id id (hi_tags (record_all h id samples)) = Some t' /\ buffer_ok (tg_buffer t') /\
            tb_capacity (tg_buffer t') = tb_capacity (tg_buffer t) /\
            buffer_contents (tg_buffer t')
            = lastn (Z.to_nat (tb_capacity (tg_buffer t))) (buffer_contents (tg_buffer t) ++ (as_sample id <$> samples)))
    as (t' & H1 & _ & _ & H4).
  { induction samples as [|[[ts v] q] samples IH] using rev_ind.
    - exists t. split_and!; try done. rewrite app_nil_r. unfold lastn. rewrite length_contents.
      destruct Hok as (_ & _ & Hc & _). replace (_ - _)%nat with 0%nat by lia. done.
    - destruct IH as (t1 & I1 & I2 & I3 & I4). unfold record_all. rewrite foldl_snoc.
      fold (record_all h id samples). exists (store_sample t1 (mk_historian_sample ts id v q)).
      split_and!; [by apply record_get|by apply add_sample_ok| |].
      + rewrite <- I3. unfold store_sample. cbn [tg_buffer set]. unfold buffer_add_sample.
        cbn [tb_count tb_capacity set]. by destruct (_ <? _).
      + change (tg_buffer (store_sample t1 (mk_historian_sample ts id v q)))
          with (buffer_add_sample (tg_buffer t1) (mk_historian_sample ts id v q)).
        rewrite contents_add by done. rewrite fmap_app, app_assoc, I3. cbn [fmap list_fmap as_sample].
        apply ring_add_lastn; [apply Hok|done]. }
  unfold historian_query. rewrite H1, query_loop_spec, H4. done.
Qed.

(** ** Persistence *)

(** A reader of the files. *)
Fixpoint of_mem_bytes (l : list Z) : Z := match l with [] => 0 | b :: l => b + 256 * of_mem_bytes l end.
Fixpoint read_file (fuel : nat) (l : list Z) : list (Z * float32 * Z) :=
  match fuel, l with
  | S fuel, _ :: _ =>
      (of_mem_bytes (take 8 l), f32_of_bits (of_mem_bytes (take 4 (drop 8 l))), nth 12 l 0)
        :: read_file fuel (drop 13 l)
  | _, _ => []
  end.

Lemma of_mem_bytes_value n v : 0 <= v < 256 ^ Z.of_nat n -> of_mem_bytes (mem_bytes n v) = v.
Proof.
  revert v. induction n as [|n IH]; intros v Hv; [cbn in *; lia|].
  rewrite Nat2Z.inj_succ, Z.pow_succ_r in Hv by lia. cbn [mem_bytes of_mem_bytes].
  pose proof (Z.div_mod v 256 ltac:(lia)). pose proof (Z.mod_pos_bound v 256 ltac:(lia)).
  rewrite IH by nia. lia.
Qed.

Lemma length_mem_bytes n v : length (mem_bytes n v) = n.
Proof. revert v. induction n as [|n IH]; intros v; [done|]. cbn. by rewrite IH. Qed.

Definition sample_ok (s : historian_sample) : Prop :=
  is_u64 (hs_timestamp_ms s) /\ valid32 (hs_value s) = true.
Definition on_disk (s : historian_sample) : Z * float32 * Z := (hs_timestamp_ms s, hs_value s, hs_quality s).

Lemma read_file_samples l fuel :
  Forall sample_ok l -> (length l <= fuel)%nat -> read_file fuel (concat (sample_bytes <$> l)) = on_disk <$> l.
Proof.
  intros Hl. revert fuel. induction Hl as [|s l [H1 H2] _ IH]; intros fuel Hf; [by destruct fuel|].
  destruct fuel as [|fuel]; [cbn in Hf; lia|]. rewrite !fmap_cons. cbn [concat].
  set (rest := concat (sample_bytes <$> l)) in *.
  assert (exists b bs, sample_bytes s ++ rest = b :: bs) as (b & bs & E) by (unfold sample_bytes; cbn [mem_bytes app]; eauto).
  assert (read_file (S fuel) (sample_bytes s ++ rest)
    = (of_mem_bytes (take 8 (sample_bytes s ++ rest)), f32_of_bits (of_mem_bytes (take 4 (drop 8 (sample_bytes s ++ rest)))),
       nth 12 (sample_bytes s ++ rest) 0) :: read_file fuel (drop 13 (sample_bytes s ++ rest))) as ->
    by (by rewrite E).
  unfold sample_bytes. rewrite <- !app_assoc. f_equal.
  - unfold on_disk. f_equal. f_equal.
    + rewrite take_app_length' by (by rewrite length_mem_bytes). apply of_mem_bytes_value. exact H1.
    + rewrite drop_app_length' by (by rewrite length_mem_bytes). rewrite take_app_length' by (by rewrite length_mem_bytes).
      rewrite of_mem_bytes_value; [by apply f32_bits_roundtrip|]. by apply bits_of_f32_range.
  - rewrite (app_assoc (mem_bytes 8 _)), (app_assoc _ [_]). rewrite drop_app_length' by done.
    apply IH. cbn in Hf. lia.
Qed.

(** The effect of one tag's flush. *)
Definition flushed (dir : string) (now : Z) (t : htag) (fs : files) : option (list Z) :=
  let name := file_name dir now (htag_id t) in
  if tb_count (tg_buffer t) =? 0 then fs !! name
  else Some (default [] (fs !! name) ++ concat (sample_bytes <$> buffer_contents (tg_buffer t))).

Lemma flush_tag_effect dir now ok t fs :
  let '(t', fs', n) := flush_tag dir now ok t fs in
  fs' !! file_name dir now (htag_id t) = (if ok then flushed dir now t fs else fs !! file_name dir now (htag_id t)) /\
  (forall name, name <> file_name dir now (htag_id t) -> fs' !! name = fs !! name) /\
  htag_id t' = htag_id t /\ (ok = false -> t' = t) /\ (ok = true -> buffer_contents (tg_buffer t') = []).
Proof.
  unfold flush_tag, flushed, htag_id. destruct (Z.eqb_spec (tb_count (tg_buffer t)) 0) as [E|E].
  { split_and!; try done; try (by destruct ok). intros _. unfold buffer_contents. by rewrite E. }
  destruct ok; cbn [negb].
  - split; [apply lookup_insert_eq|]. split; [intros name Hne; by apply lookup_insert_ne|]. done.
  - by split_and!.
Qed.

Lemma flush_tags_effect dir now open_ok ts fs :
  NoDup (file_name dir now <$> (htag_id <$> ts)) ->
  let '(ts', fs', n) := flush_tags dir now open_ok ts fs in
  htag_id <$> ts' = htag_id <$> ts /\
  (forall i t, ts !! i = Some t -> exists t', ts' !! i = Some t' /\
     (open_ok (htag_id t) = false -> t' = t) /\
     (open_ok (htag_id t) = true -> buffer_contents (tg_buffer t') = []) /\
     fs' !! file_name dir now (htag_id t)
     = if open_ok (htag_id t) then flushed dir now t fs else fs !! file_name dir now (htag_id t)) /\
  (forall name, name ∉ file_name dir now <$> (htag_id <$> ts) -> fs' !! name = fs !! name).
Proof.
  revert fs. induction ts as [|t ts IH]; intros fs Hnd; [by cbn|].
  rewrite !fmap_cons in Hnd. apply NoDup_cons in Hnd as [Hnew Hnd]. cbn [flush_tags].
  pose proof (flush_tag_effect dir now (open_ok (htag_id t)) t fs) as He.
  destruct (flush_tag _ _ _ _ _) as [[t1 fs1] n1]. destruct He as (E1 & E2 & E3 & E4 & E5).
  specialize (IH fs1 Hnd). destruct (flush_tags _ _ _ ts fs1) as [[ts' fs'] m]. destruct IH as (I1 & I2 & I3).
  split_and!.
  - rewrite !fmap_cons. by rewrite E3, I1.
  - intros [|i] x Hx; cbn in Hx.
    + injection Hx as <-. exists t1. split_and!; try done. rewrite I3 by done. exact E1.
    + destruct (I2 i x Hx) as (t' & H1 & H2 & H3 & H4). exists t'. split_and!; try done. rewrite H4.
      assert (file_name dir now (htag_id x) <> file_name dir now (htag_id t)) as Hne.
      { intros Heq. apply Hnew. rewrite <- Heq. apply list_elem_of_fmap_2, list_elem_of_fmap_2.
        by eapply list_elem_of_lookup_2. }
      unfold flushed. by rewrite E2.
  - intros name Hname. rewrite !fmap_cons in Hname. rewrite not_elem_of_cons in Hname. destruct Hname as [H1 H2].
    rewrite I3 by done. by apply E2.
Qed.

(** File names of different tags differ, as long as they fit. *)
Lemma string_app_list a b :
  String.list_ascii_of_string (a +:+ b) = String.list_ascii_of_string a ++ String.list_ascii_of_string b.
Proof. induction a as [|c a IH]; [done|]. change (String c a +:+ b) with (String c (a +:+ b)). cbn. by rewrite IH. Qed.

Lemma file_name_inj dir now i j :
  (String.length (dir +:+ "/" +:+ default "" (time_format_date now 16) +:+ "_" +:+ pretty i +:+ ".dat") <= 255)%nat ->
  (String.length (dir +:+ "/" +:+ default "" (time_format_date now 16) +:+ "_" +:+ pretty j +:+ ".dat") <= 255)%nat ->
  file_name dir now i = file_name dir now j -> i = j.
Proof.
  intros Hi Hj. unfold file_name. rewrite !strncpy_fits by done. intros E.
  apply (f_equal String.list_ascii_of_string) in E. rewrite !string_app_list in E.
  repeat apply app_inv_head in E. apply app_inv_tail in E.
  apply (f_equal String.string_of_list_ascii) in E. rewrite !String.string_of_list_ascii_of_string in E.
  by apply (inj pretty).
Qed.

Definition name_fits (dir : string) (now : Z) (t : htag) : Prop :=
  (String.length (dir +:+ "/" +:+ default "" (time_format_date now 16) +:+ "_" +:+ pretty (htag_id t) +:+ ".dat") <= 255)%nat.

Lemma file_names_distinct dir now ts :
  NoDup (htag_id <$> ts) -> Forall (name_fits dir now) ts -> NoDup (file_name dir now <$> (htag_id <$> ts)).
Proof.
  intros Hnd Hf. induction Hf as [|t ts Ht Hts IH]; [constructor|].
  rewrite !fmap_cons in *. apply NoDup_cons in Hnd as [Hn Hnd]. apply NoDup_cons. split; [|by apply IH].
  intros (x & E & Hx)%list_elem_of_fmap. apply list_elem_of_fmap in Hx as (t' & -> & Ht').
  apply Hn. rewrite Forall_forall in Hts. specialize (Hts t' Ht').
  apply file_name_inj in E; [|exact Ht|exact Hts]. rewrite E. by apply list_elem_of_fmap_2.
Qed.

(** Flushing: the samples of every tag whose file can be opened are appended to that
    tag's own file, and reading the new part of the file back gives exactly the samples
    the buffer kept, oldest first; the buffer is then empty.  A tag whose file cannot be
    opened keeps its samples, and no other file is touched. *)
Theorem flush_persists now open_ok h fs :
  NoDup (htag_id <$> hi_tags h) -> Forall (name_fits (data_dir h) now) (hi_tags h) ->
  Forall (fun t => Forall sample_ok (buffer_contents (tg_buffer t))) (hi_tags h) ->
  let '(res, h', fs') := historian_flush now open_ok h fs in
  let name t := file_name (data_dir h) now (htag_id t) in
  res = WTC_OK /\
  (forall i t, hi_tags h !! i = Some t -> exists t', hi_tags h' !! i = Some t' /\
     if open_ok (htag_id t) then
       buffer_contents (tg_buffer t') = [] /\
       exists new, default [] (fs' !! name t) = default [] (fs !! name t) ++ new /\
         read_file (length (buffer_contents (tg_buffer t))) new = on_disk <$> buffer_contents (tg_buffer t)
     else t' = t /\ fs' !! name t = fs !! name t) /\
  (forall n, n ∉ name <$> hi_tags h -> fs' !! n = fs !! n).
Proof.
  intros Hnd Hfit Hok. unfold historian_flush.
  pose proof (flush_tags_effect (data_dir h) now open_ok (hi_tags h) fs (file_names_distinct _ _ _ Hnd Hfit)) as H.
  destruct (flush_tags _ _ _ _ _) as [[ts' fs'] n]. destruct H as (_ & H2 & H3).
  cbn [hi_tags set]. split; [done|]. split.
  - intros i t Hi. destruct (H2 i t Hi) as (t' & E1 & E2 & E3 & E4). exists t'. split; [exact E1|].
    destruct (open_ok (htag_id t)); [|by split; [apply E2|exact E4]]. split; [by apply E3|].
    exists (concat (sample_bytes <$> buffer_contents (tg_buffer t))). rewrite E4. unfold flushed. split.
    + destruct (Z.eqb_spec (tb_count (tg_buffer t)) 0) as [E|]; [|done].
      assert (buffer_contents (tg_buffer t) = []) as -> by (unfold buffer_contents; by rewrite E).
      by rewrite app_nil_r.
    + apply read_file_samples; [|done]. rewrite Forall_lookup in Hok. by eapply Hok.
  - intros name Hn. apply H3. by rewrite <- list_fmap_compose.
Qed.

(** ** The deadband *)

(** A due reading of a tag with deadband compression is dropped only when it is closer
    than the deadband to the value stored last, which it leaves; a dropped reading is
    counted and the next one is due a sampling period later. *)
Lemma dropped_reading now sensor t t' :
  take_reading now sensor t = (t', false) ->
  fge (fabsf (fsub (sd_value sensor) (tg_last_stored_value t))) (ht_deadband (tg_info t)) = false /\
  tg_buffer t' = tg_buffer t /\ tg_last_stored_value t' = tg_last_stored_value t /\
  tg_last_sample_time_ms t' = now /\
  ht_compressed_samples (tg_info t') = wrap64 (ht_compressed_samples (tg_info t) + 1).
Proof.
  unfold take_reading. destruct (stores_reading t (sd_value sensor) || _) eqn:E; [done|].
  apply orb_false_iff in E as [E _]. intros H. injection H as <-. split.
  - unfold stores_reading in E. by destruct (ht_compression (tg_info t)).
  - by destruct (0 <? _).
Qed.

(** Every operation on a tag keeps its buffer well formed. *)
Lemma take_reading_ok now sensor t :
  buffer_ok (tg_buffer t) -> buffer_ok (tg_buffer (fst (take_reading now sensor t))).
Proof.
  intros H. unfold take_reading. destruct (stores_reading t (sd_value sensor) || _);
    destruct (0 <? _); cbn [fst tg_buffer store_sample set]; by try apply add_sample_ok.
Qed.
Lemma flush_tag_ok dir now ok t fs :
  buffer_ok (tg_buffer t) -> buffer_ok (tg_buffer (flush_tag dir now ok t fs).1.1).
Proof.
  intros (H1 & H2 & H3 & H4). unfold flush_tag. destruct (_ =? _); [done|]. destruct ok; [|done].
  unfold buffer_ok. cbn [fst tg_buffer tb_samples tb_capacity tb_count tb_write_pos negb set]. lia.
Qed.

(** ** The invariant of the historian *)

(** The table is bounded, ids are different and below the next one, points are different,
    every ring is well formed and every sample it keeps carries the id of its tag. *)
Definition samples_own (t : htag) : Prop := Forall (fun s => hs_tag_id s = htag_id t) (buffer_contents (tg_buffer t)).
Definition tag_ok (next : Z) (t : htag) : Prop :=
  buffer_ok (tg_buffer t) /\ samples_own t /\ 1 <= htag_id t < next.
Record historian_wf (h : historian) : Prop := {
  wf_count : Z.of_nat (length (hi_tags h)) <= Z.max 0 (hi_tag_capacity h);
  wf_ids : NoDup (htag_id <$> hi_tags h);
  wf_buffer_size : hc_buffer_size (hi_config h) <> 0;
  wf_next : 1 <= hi_next_tag_id h;
  wf_tags : Forall (tag_ok (hi_next_tag_id h)) (hi_tags h) }.

(** A change of tags one by one that keeps ids and [tag_ok]. *)
Lemma wf_retag h h' :
  historian_wf h -> hi_tag_capacity h' = hi_tag_capacity h -> hi_config h' = hi_config h ->
  hi_next_tag_id h' = hi_next_tag_id h -> htag_id <$> hi_tags h' = htag_id <$> hi_tags h ->
  Forall (tag_ok (hi_next_tag_id h)) (hi_tags h') -> historian_wf h'.
Proof.
  intros [W1 W2 W3 W4 W5] E1 E2 E3 E4 HF. split; rewrite ?E1, ?E2, ?E3, ?E4; try done.
  rewrite <- (length_fmap htag_id), E4, length_fmap. exact W1.
Qed.

Lemma store_sample_ok next t s : tag_ok next t -> hs_tag_id s = htag_id t -> tag_ok next (store_sample t s).
Proof.
  intros (H1 & H2 & H3) Hs. split; [by apply add_sample_ok|]. split; [|exact H3].
  unfold samples_own. change (tg_buffer (store_sample t s)) with (buffer_add_sample (tg_buffer t) s).
  change (htag_id (store_sample t s)) with (htag_id t). rewrite contents_add by done. unfold ring_add.
  destruct (_ <? _); apply Forall_app; (split; [try apply Forall_drop; exact H2|by constructor]).
Qed.

Lemma take_reading_spec now sensor t :
  exists t0, (t0 = t \/ exists s, hs_tag_id s = htag_id t /\ t0 = store_sample t s) /\
    tg_buffer (fst (take_reading now sensor t)) = tg_buffer t0 /\ htag_id (fst (take_reading now sensor t)) = htag_id t0.
Proof.
  unfold take_reading. destruct (stores_reading t (sd_value sensor) || _).
  - set (s := mk_historian_sample _ _ _ _). exists (store_sample t s). split; [right; by exists s|].
    by destruct (0 <? _).
  - exists t. split; [by left|]. by destruct (0 <? _).
Qed.

Lemma tag_ok_ext next t t' : tg_buffer t' = tg_buffer t -> htag_id t' = htag_id t -> tag_ok next t -> tag_ok next t'.
Proof. unfold tag_ok, samples_own. by intros -> ->. Qed.

Lemma process_tag_ok `{RegistryOps R} now r clk next t :
  tag_ok next t -> tag_ok next (fst (process_tag now r clk t)) /\ htag_id (fst (process_tag now r clk t)) = htag_id t.
Proof.
  intros Ht. unfold process_tag. destruct (_ || _); [done|]. destruct (reg_get_sensor _ _ _ _ _) as [res sensor].
  case_bool_decide; [|done]. destruct (take_reading_spec now sensor t) as (t0 & H1 & H2 & H3).
  destruct H1 as [->|(s & Hs & ->)]; (split; [eapply tag_ok_ext; [exact H2|exact H3|]|done]).
  - done.
  - by apply store_sample_ok.
Qed.

Lemma flush_tags_ok dir now open_ok next ts fs :
  Forall (tag_ok next) ts ->
  Forall (tag_ok next) (flush_tags dir now open_ok ts fs).1.1 /\
  htag_id <$> (flush_tags dir now open_ok ts fs).1.1 = htag_id <$> ts.
Proof.
  intros HF. revert fs. induction HF as [|t ts (H1 & H2 & H3) HF IH]; intros fs; [by cbn|].
  pose proof (flush_tag_ok dir now (open_ok (htag_id t)) t fs H1) as Hb.
  pose proof (flush_tag_effect dir now (open_ok (htag_id t)) t fs) as He. cbn [flush_tags].
  destruct (flush_tag _ _ _ t fs) as [[t1 fs1] n]. destruct He as (_ & _ & E3 & E4 & E5).
  specialize (IH fs1). destruct (flush_tags _ _ _ ts fs1) as [[ts1 fs2] m]. cbn [fst] in *. destruct IH as [I1 I2].
  rewrite !fmap_cons, E3, I2. split; [|done]. constructor; [|done].
  split; [exact Hb|]. split; [|by rewrite E3]. unfold samples_own.
  destruct (open_ok (htag_id t)); [by rewrite E5|by rewrite E4].
Qed.

(** The calls of the historian's users and of its thread. *)
Inductive historian_op `{RegistryOps R} :=
  | OpStart (thread_ok : bool)
  | OpStop (now : Z) (open_ok : Z -> bool)
  | OpSetRegistry (registry : bool)
  | OpAddTag (alloc_ok : bool) (station : string) (slot : Z) (name : option string) (rate : Z) (deadband : float32)
      (algorithm : compression)
  | OpRemoveTag (id : Z)
  | OpRecord (id ts : Z) (value : float32) (quality : Z)
  | OpProcess (now : Z) (r : R) (clk : nat -> Z)
  | OpFlush (now : Z) (open_ok : Z -> bool).

Definition historian_exec `{RegistryOps R} (x : historian * files) (op : historian_op) : historian * files :=
  let '(h, fs) := x in
  match op with
  | OpStart ok => (snd (historian_start ok h), fs)
  | OpStop now ok => let '(_, h, fs) := historian_stop now ok h fs in (h, fs)
  | OpSetRegistry r => (historian_set_registry h r, fs)
  | OpAddTag ok st sl n rate d a => (snd (historian_add_tag ok h st sl n rate d a), fs)
  | OpRemoveTag id => (snd (historian_remove_tag h id), fs)
  | OpRecord id ts v q => (snd (historian_record_sample h id ts v q), fs)
  | OpProcess now r clk => (snd (historian_process now r clk h), fs)
  | OpFlush now ok => let '(_, h, fs) := historian_flush now ok h fs in (h, fs)
  end.

Lemma add_tag_wf ok h st sl n rate d a :
  historian_wf h -> historian_wf (snd (historian_add_tag ok h st sl n rate d a)).
Proof.
  intros [W1 W2 W3 W4 W5]. unfold historian_add_tag.
  destruct (Z.leb_spec (hi_tag_capacity h) (Z.of_nat (length (hi_tags h)))) as [|Hroom]; [by split|].
  case_bool_decide; [by split|]. unfold init_tag_buffer. cbn [hi_config set].
  assert (Forall (tag_ok (Z.succ (hi_next_tag_id h))) (hi_tags h)) as W5'.
  { eapply Forall_impl; [exact W5|]. intros t (H1 & H2 & H3). split_and!; try done; lia. }
  destruct (ok && (0 <=? hc_buffer_size (hi_config h))) eqn:E.
  - apply andb_true_iff in E as [_ E]. apply Z.leb_le in E. rewrite bool_decide_eq_true_2 by done.
    split; cbn [snd hi_tags hi_tag_capacity hi_config hi_next_tag_id set]; try done; try lia.
    + rewrite length_app. cbn [length]. lia.
    + rewrite fmap_app. apply NoDup_app. split; [exact W2|]. split; [|apply NoDup_singleton].
      intros x (t & -> & Ht)%list_elem_of_fmap Hx. cbn in Hx. apply list_elem_of_singleton in Hx.
      rewrite Forall_forall in W5. destruct (W5 t Ht) as (_ & _ & ?). unfold htag_id in *. cbn in Hx. lia.
    + apply Forall_app. split; [exact W5'|]. constructor; [|constructor]. split_and!; try (cbn; lia).
      * unfold buffer_ok. cbn [tg_buffer tb_capacity tb_samples tb_count tb_write_pos]. rewrite length_replicate. lia.
      * constructor.
  - rewrite bool_decide_eq_false_2 by done. split; cbn [snd hi_tags hi_tag_capacity hi_config hi_next_tag_id set]; try done. lia.
Qed.

Lemma remove_tag_wf h id : historian_wf h -> historian_wf (snd (historian_remove_tag h id)).
Proof.
  intros W. pose proof W as [W1 W2 W3 W4 W5]. unfold historian_remove_tag, remove_keyed.
  destruct (find_remove _ _) as [l|] eqn:E; [|by destruct W].
  apply find_remove_Some in E as (l1 & x & l2 & Hl & _ & _ & ->). rewrite Hl in *.
  split; cbn [snd hi_tags hi_tag_capacity hi_config hi_next_tag_id set]; try done.
  - rewrite !length_app in *. cbn [length] in W1. lia.
  - rewrite !fmap_app, fmap_cons in *. rewrite <- Permutation_middle in W2. by apply NoDup_cons in W2 as [_ W2].
  - apply Forall_app in W5 as [? W5]. apply Forall_cons in W5 as [_ ?]. by apply Forall_app.
Qed.

Lemma record_sample_wf h id ts v q : historian_wf h -> historian_wf (snd (historian_record_sample h id ts v q)).
Proof.
  intros W. unfold historian_record_sample. destruct (find_update _ _ _) as [l|] eqn:E; [|done].
  apply find_update_Some in E as (l1 & x & l2 & Hl & Hx & _ & ->). cbn [snd].
  eapply wf_retag; [exact W|done|done|done| |]; cbn [hi_tags set]; rewrite ?Hl.
  - by rewrite !fmap_app, !fmap_cons.
  - pose proof (wf_tags h W) as HF. rewrite Hl in HF. apply Forall_app in HF as [F1 F2]. apply Forall_cons in F2 as [F2 F3].
    apply Forall_app. split; [done|]. constructor; [by apply store_sample_ok|done].
Qed.

Lemma process_wf `{RegistryOps R} now r clk h : historian_wf h -> historian_wf (snd (historian_process now r clk h)).
Proof.
  intros W. unfold historian_process. destruct (hi_registry h); [|done]. cbn [negb snd].
  eapply wf_retag; [exact W|done|done|done| |]; cbn [hi_tags set].
  - apply list_eq. intros i. rewrite !list_lookup_fmap, list_lookup_imap.
    destruct (hi_tags h !! i) as [t|] eqn:Et; [|done]. cbn. f_equal.
    refine (proj2 (process_tag_ok now r (clk i) (hi_next_tag_id h) t _)).
    by eapply Forall_lookup_1; [apply wf_tags|].
  - apply Forall_lookup_2. intros i t. rewrite list_lookup_fmap, list_lookup_imap.
    destruct (hi_tags h !! i) as [t0|] eqn:Et; [|done]. intros [= <-].
    apply process_tag_ok. by eapply Forall_lookup_1; [apply wf_tags|].
Qed.

Lemma flush_wf now open_ok h fs : historian_wf h -> historian_wf (historian_flush now open_ok h fs).1.2.
Proof.
  intros W. unfold historian_flush.
  pose proof (flush_tags_ok (data_dir h) now open_ok _ (hi_tags h) fs (wf_tags h W)) as [H1 H2].
  destruct (flush_tags _ _ _ _ _) as [[ts fs'] n]. by eapply wf_retag; [exact W|done..| |].
Qed.

(** C31: Whatever calls the users and the thread of a historian make after a successful
    initialisation, with failing allocations and files, the tag table stays within its
    capacity, tag ids stay different and below the next one, every ring buffer is well
    formed and keeps only samples of its own tag. *)
Theorem historian_well_formed `{RegistryOps R} config (h0 : historian) fs ops :
  historian_init true config = (WTC_OK, Some h0) -> historian_wf (foldl historian_exec (h0, fs) ops).1.
Proof.
  intros H0. assert (historian_wf h0) as W.
  { injection H0 as <-. split; cbn; try lia; try constructor. unfold or_default. destruct (Z.eqb_spec (hc_buffer_size (default (mk_historian_config None 0 0 0 f0 0) config)) 0); done. }
  clear H0. revert h0 fs W. induction ops as [|op ops IH]; intros h fs W; [done|]. cbn [foldl].
  assert (historian_wf (historian_exec (h, fs) op).1) as W'.
  { destruct op; cbn [historian_exec fst].
    - unfold historian_start. destruct (hi_running h); [done|]. destruct thread_ok; [|done]. eapply wf_retag; [exact W|done..|apply W].
    - unfold historian_stop. destruct (hi_running h); [|done]. cbn [negb].
      assert (historian_wf (h <| hi_running := false |>)) as W1 by (eapply wf_retag; [exact W|done..|apply W]).
      pose proof (flush_wf now open_ok _ fs W1). by destruct (historian_flush _ _ _ _) as [[? ?] ?].
    - eapply wf_retag; [exact W|done..|apply W].
    - by apply add_tag_wf.
    - by apply remove_tag_wf.
    - by apply record_sample_wf.
    - by apply process_wf.
    - pose proof (flush_wf now open_ok h fs W). by destruct (historian_flush _ _ _ _) as [[? ?] ?]. }
  destruct (historian_exec (h, fs) op) as [h1 fs1]. by apply IH.
Qed.

Module HistorianDemo.

Definition start : historian :=
  default (mk_historian (mk_historian_config None 0 0 0 f0 0) false [] 0 0 false 0 0 0)
    (snd (historian_init true (Some (mk_historian_config (Some "/data"%string) 8 3 1000 f1 30)))).
(** A tag with a buffer of three samples. *)
Definition one_tag : historian :=
  snd (historian_add_tag true start "plant-a" 2 None 0 f1 COMPRESSION_DEADBAND).
Definition the_tag : htag :=
  mk_htag (mk_historian_tag 1 "plant-a" 2 "plant-a.slot2" "" 1000 f1 COMPRESSION_DEADBAND 0 0 f0 f0 0)
    (mk_tag_buffer (replicate 3 zero_sample) 3 0 0) f0 0 true.
Definition four : list (Z * float32 * Z) :=
  [(1000, f1, 192); (2000, f0, 192); (3000, f1, 0); (4000, f32_of_Z 7, 192)].

(** Four samples into a buffer of three, then a query for two of them. *)
Lemma record_query_roundtrip_witness :
  historian_query (record_all one_tag 1 four) 1 2500 9000 10
  = (WTC_OK, Some [mk_historian_sample 3000 1 f1 0; mk_historian_sample 4000 1 (f32_of_Z 7) 192]).
Proof.
  rewrite (record_query_roundtrip one_tag 1 the_tag four 2500 9000 10).
  - vm_compute; reflexivity.
  - vm_compute; reflexivity.
  - repeat split; cbn; lia.
Defined.

Definition recorded : historian := record_all one_tag 1 four.
Definition kept : list historian_sample :=
  [mk_historian_sample 2000 1 f0 192; mk_historian_sample 3000 1 f1 0; mk_historian_sample 4000 1 (f32_of_Z 7) 192].
Lemma recorded_ids : htag_id <$> hi_tags recorded = [1].
Proof. vm_compute. reflexivity. Qed.
Lemma recorded_contents : (fun t => buffer_contents (tg_buffer t)) <$> hi_tags recorded = [kept].
Proof. vm_compute. reflexivity. Qed.
Lemma kept_ok : Forall sample_ok kept.
Proof. repeat constructor; vm_compute; congruence. Qed.
Lemma recorded_fits : Forall (name_fits (data_dir recorded) 86400000) (hi_tags recorded).
Proof.
  apply (Forall_fmap htag_id (fun id => (String.length (data_dir recorded +:+ "/" +:+ default "" (time_format_date 86400000 16)
    +:+ "_" +:+ pretty id +:+ ".dat") <= 255)%nat)).
  rewrite recorded_ids. constructor; [|constructor]. apply Nat.leb_le. vm_compute. reflexivity.
Qed.

(** The three samples kept are written and read back. *)
Lemma flush_persists_witness :
  exists h' fs', historian_flush 86400000 (fun _ => true) recorded ∅ = (WTC_OK, h', fs') /\
    read_file 3 (default [] (fs' !! "/data/1970-01-02_1.dat"%string))
    = [(2000, f0, 192); (3000, f1, 0); (4000, f32_of_Z 7, 192)].
Proof.
  assert (NoDup (htag_id <$> hi_tags recorded)) as H1 by (rewrite recorded_ids; apply NoDup_singleton).
  assert (Forall (fun t => Forall sample_ok (buffer_contents (tg_buffer t))) (hi_tags recorded)) as H3.
  { apply (Forall_fmap (fun t => buffer_contents (tg_buffer t)) (Forall sample_ok)). rewrite recorded_contents.
    constructor; [exact kept_ok|constructor]. }
  pose proof (flush_persists 86400000 (fun _ => true) recorded ∅ H1 recorded_fits H3) as H.
  destruct (historian_flush 86400000 (fun _ => true) recorded ∅) as [[res h'] fs'].
  destruct H as (-> & H & _). exists h', fs'. split; [reflexivity|].
  assert (exists t, hi_tags recorded !! 0%nat = Some t /\ htag_id t = 1 /\ buffer_contents (tg_buffer t) = kept)
    as (t & E1 & E2 & E3).
  { pose proof recorded_ids as Hi. pose proof recorded_contents as Hc.
    destruct (hi_tags recorded) as [|t [|]]; try discriminate. exists t. injection Hi as Hi. injection Hc as Hc. done. }
  destruct (H 0%nat t E1) as (t' & _ & _ & new & E & Er). rewrite E2 in E. rewrite E3 in Er.
  assert (file_name (data_dir recorded) 86400000 1 = "/data/1970-01-02_1.dat"%string) as En by (vm_compute; reflexivity).
  rewrite En in E. rewrite E. exact Er.
Defined.

(** A reading that is not a number, once stored under deadband compression, keeps every
    later reading out: no difference to it reaches the deadband. *)
Example nan_blocks :
  let nan := fdiv f0 f0 in
  let t := (take_reading 1000 (mk_sensor_data nan IOPS_GOOD QUALITY_GOOD 0 false) the_tag).1 in
  (take_reading 2000 (mk_sensor_data (f32_of_Z 500) IOPS_GOOD QUALITY_GOOD 0 false) t).2 = false.
Proof. vm_compute. reflexivity. Qed.

(** The header of an export has one column for each tag, a row always two. *)
Example csv_columns :
  exists text, historian_export_csv true (record_all one_tag 1 [(0, f1, 192)]) [1; 1] 0 10 = (WTC_OK, Some text) /\
    text = String.concat "" ["timestamp,plant-a.slot2,plant-a.slot2"%string; NL;
                             "1970-01-01T00:00:00.000Z,1.0000"%string; NL;
                             "1970-01-01T00:00:00.000Z,1.0000"%string; NL].
Proof. eexists. split; [vm_compute; reflexivity|vm_compute; reflexivity]. Qed.

(** The current value is reported good whatever the sample recorded says. *)
Example current_quality :
  historian_get_current (record_all one_tag 1 [(5, f1, 0)]) 1 = (WTC_OK, Some (f1, 5, 192)).
Proof. vm_compute. reflexivity. Qed.

(** A registry without points, and a run with it. *)
#[local] Instance no_points : RegistryOps unit := {|
  reg_get_sensor := fun _ _ _ _ out => (WTC_ERROR_NOT_FOUND, out);
  reg_update_actuator := fun r _ _ _ _ => (WTC_ERROR_NOT_FOUND, r);
  reg_get_actuator := fun _ _ _ => (WTC_ERROR_NOT_FOUND, None) |}.
Definition calls : list (historian_op (R := unit)) :=
  [OpStart true; OpSetRegistry true; OpAddTag true "a" 1 None 0 f1 COMPRESSION_NONE; OpRecord 1 5 f1 192;
   OpProcess 10 tt (fun _ => 0); OpFlush 20 (fun _ => true); OpAddTag false "b" 1 None 0 f1 COMPRESSION_NONE;
   OpRemoveTag 1; OpAddTag true "b" 1 None 0 f1 COMPRESSION_NONE; OpStop 30 (fun _ => true)].
Lemma historian_well_formed_witness :
  historian_wf (foldl historian_exec (start, ∅) calls).1 /\
  htag_id <$> hi_tags (foldl historian_exec (start, ∅) calls).1 = [3].
Proof.
  split; [|vm_compute; reflexivity].
  apply (historian_well_formed (Some (mk_historian_config (Some "/data"%string) 8 3 1000 f1 30)) start ∅ calls).
  vm_compute. reflexivity.
Defined.

End HistorianDemo.
