(* ===== verification/ConfigSync.v ===== *)
(** * Transfer of the RTU configuration

    Model of [src/config_sync/config_sync.c] and of [shared/include/config_sync_protocol.h]:
    the controller describes an RTU's device, sensors and actuators in packed
    little-endian records and writes them to the RTU; the RTU checks version and CRC.

    Records are written through [RecordLink] (UserSync.v).  [rtu_registry_find_device] and
    the two clock functions the file calls exist nowhere in the sources: the device found
    and the clock readings are arguments. *)

From S2P Require Import Prelude Float32 Types Registry Crc Wire UserSync Presets.

Definition CONFIG_SYNC_PROTOCOL_VERSION : Z := 1.
Definition CONFIG_SYNC_DEVICE_INDEX : Z := 63553. (* 0xF841 *)
Definition CONFIG_SYNC_SENSOR_INDEX : Z := 63554.
Definition CONFIG_SYNC_ACTUATOR_INDEX : Z := 63555.
Definition CONFIG_SYNC_ENROLLMENT_INDEX : Z := 63557.
Definition CONFIG_SYNC_MAX_SENSORS : nat := 16.
Definition CONFIG_SYNC_MAX_ACTUATORS : nat := 8.
Definition CONFIG_SYNC_MAX_NAME_LEN : nat := 16.
Definition CONFIG_SYNC_MAX_UNIT_LEN : nat := 8.
Definition CONFIG_SYNC_MAX_STATION_NAME : nat := 32.
Definition CONFIG_SYNC_TOKEN_LEN : nat := 64.
Definition ENROLLMENT_MAGIC : Z := 1162760780. (* 0x454E524C *)
Definition AUTHORITY_MODE_SUPERVISED : Z := 1.
Definition SYNC_MAX_SLOTS : nat := 247.

(** [config_sync_result_t] (the values returned) *)
Inductive config_sync_result :=
| CONFIG_SYNC_OK | CONFIG_SYNC_ERROR_INVALID_PARAM | CONFIG_SYNC_ERROR_NO_MEMORY
| CONFIG_SYNC_ERROR_SEND | CONFIG_SYNC_ERROR_RTU_NOT_CONNECTED.
#[export] Instance config_sync_result_eq_dec : EqDecision config_sync_result.
Proof. solve_decision. Defined.

(** The codes of the enumerations. *)
Definition measurement_code (t : measurement_type) : Z :=
  match t with
  | MEASUREMENT_PH => 0 | MEASUREMENT_TEMPERATURE => 1 | MEASUREMENT_TURBIDITY => 2 | MEASUREMENT_TDS => 3
  | MEASUREMENT_DISSOLVED_OXYGEN => 4 | MEASUREMENT_FLOW_RATE => 5 | MEASUREMENT_LEVEL => 6
  | MEASUREMENT_PRESSURE => 7 | MEASUREMENT_CONDUCTIVITY => 8 | MEASUREMENT_ORP => 9
  | MEASUREMENT_CHLORINE => 10 | MEASUREMENT_CUSTOM => 11
  end.
Definition actuator_code (t : actuator_type) : Z :=
  match t with
  | ACTUATOR_RELAY => 0 | ACTUATOR_PWM => 1 | ACTUATOR_PUMP => 2 | ACTUATOR_VALVE => 3
  | ACTUATOR_LATCHING => 4 | ACTUATOR_MOMENTARY => 5
  end.

(** ** The records *)

(** [crc16_ccitt] of the protocol header is that of [user_sync_protocol.h]. *)
Definition sync_crc16 (data : list Z) : Z := user_sync_crc16_ccitt data.

(** [device_config_payload_t]; character arrays are whole. *)
Record device_config := mk_device_config {
  dc_version : Z;
  dc_flags : Z;
  dc_crc16 : Z;
  dc_config_timestamp : Z;
  dc_station_name : list Z;
  dc_sensor_count : Z;
  dc_actuator_count : Z;
  dc_authority_mode : Z;
  dc_reserved : Z;
  dc_watchdog_ms : Z }.
#[export] Instance eta_device_config : Eta device_config := fun r =>
  mk_device_config (dc_version r) (dc_flags r) (dc_crc16 r) (dc_config_timestamp r) (dc_station_name r)
    (dc_sensor_count r) (dc_actuator_count r) (dc_authority_mode r) (dc_reserved r) (dc_watchdog_ms r).
Definition device_body (p : device_config) : list Z :=
  le32 (dc_config_timestamp p) ++ dc_station_name p ++ le16 (dc_sensor_count p) ++ le16 (dc_actuator_count p) ++
  [dc_authority_mode p; dc_reserved p] ++ le32 (dc_watchdog_ms p).
Definition device_bytes (p : device_config) : list Z :=
  [dc_version p; dc_flags p] ++ le16 (dc_crc16 p) ++ device_body p.
Definition device_at (l : list Z) : device_config :=
  mk_device_config (nth 0 l 0) (nth 1 l 0) (of_le (take 2 (drop 2 l))) (of_le (take 4 (drop 4 l)))
    (take 32 (drop 8 l)) (of_le (take 2 (drop 40 l))) (of_le (take 2 (drop 42 l)))
    (nth 44 l 0) (nth 45 l 0) (of_le (take 4 (drop 46 l))).

(** [device_config_validate], [device_config_set_crc]: the CRC covers the bytes after it. *)
Definition device_config_validate (p : device_config) : bool :=
  (dc_version p =? CONFIG_SYNC_PROTOCOL_VERSION) && (dc_crc16 p =? sync_crc16 (drop 4 (device_bytes p))).
Definition device_config_set_crc (p : device_config) : device_config :=
  p <| dc_crc16 := sync_crc16 (drop 4 (device_bytes p)) |>.

(** [enrollment_payload_t] *)
Record enrollment := mk_enrollment {
  en_magic : Z;
  en_version : Z;
  en_operation : Z;
  en_crc16 : Z;
  en_token : list Z;
  en_controller_id : Z;
  en_reserved : Z }.
#[export] Instance eta_enrollment : Eta enrollment := fun r =>
  mk_enrollment (en_magic r) (en_version r) (en_operation r) (en_crc16 r) (en_token r) (en_controller_id r) (en_reserved r).
Definition enrollment_bytes (p : enrollment) : list Z :=
  le32 (en_magic p) ++ [en_version p; en_operation p] ++ le16 (en_crc16 p) ++
  en_token p ++ le32 (en_controller_id p) ++ le32 (en_reserved p).
Definition enrollment_at (l : list Z) : enrollment :=
  mk_enrollment (of_le (take 4 l)) (nth 4 l 0) (nth 5 l 0) (of_le (take 2 (drop 6 l))) (take 64 (drop 8 l))
    (of_le (take 4 (drop 72 l))) (of_le (take 4 (drop 76 l))).
Definition enrollment_validate (p : enrollment) : bool :=
  (en_magic p =? ENROLLMENT_MAGIC) && (en_version p =? CONFIG_SYNC_PROTOCOL_VERSION) &&
  (en_crc16 p =? sync_crc16 (drop 8 (enrollment_bytes p))).
Definition enrollment_set_crc (p : enrollment) : enrollment :=
  p <| en_crc16 := sync_crc16 (drop 8 (enrollment_bytes p)) |>.

(** [sensor_config_entry_t], [actuator_config_entry_t] *)
Record sensor_entry := mk_sensor_entry {
  se_slot : Z;
  se_type : Z;
  se_name : list Z;
  se_unit : list Z;
  se_scale_min : float32;
  se_scale_max : float32;
  se_alarm_low : float32;
  se_alarm_high : float32 }.
Definition sensor_entry_bytes (e : sensor_entry) : list Z :=
  [se_slot e; se_type e] ++ se_name e ++ se_unit e ++ le32 (bits_of_f32 (se_scale_min e)) ++
  le32 (bits_of_f32 (se_scale_max e)) ++ le32 (bits_of_f32 (se_alarm_low e)) ++ le32 (bits_of_f32 (se_alarm_high e)).
Definition f32_at (off : nat) (l : list Z) : float32 := f32_of_bits (of_le (take 4 (drop off l))).
Definition sensor_entry_at (l : list Z) : sensor_entry :=
  mk_sensor_entry (nth 0 l 0) (nth 1 l 0) (take 16 (drop 2 l)) (take 8 (drop 18 l))
    (f32_at 26 l) (f32_at 30 l) (f32_at 34 l) (f32_at 38 l).
Record actuator_entry := mk_actuator_entry {
  ae_slot : Z;
  ae_type : Z;
  ae_name : list Z;
  ae_default_state : Z;
  ae_reserved : Z;
  ae_interlock_mask : Z }.
Definition actuator_entry_bytes (e : actuator_entry) : list Z :=
  [ae_slot e; ae_type e] ++ ae_name e ++ [ae_default_state e; ae_reserved e] ++ le16 (ae_interlock_mask e).
Definition actuator_entry_at (l : list Z) : actuator_entry :=
  mk_actuator_entry (nth 0 l 0) (nth 1 l 0) (take 16 (drop 2 l)) (nth 18 l 0) (nth 19 l 0) (of_le (take 2 (drop 20 l))).
Definition SENSOR_ENTRY_SIZE : nat := 42.
Definition ACTUATOR_ENTRY_SIZE : nat := 22.
Definition ENTRY_HEADER_SIZE : nat := 4.

(** ** Building the packets *)

(** [build_enrollment_packet] *)
Definition build_enrollment_packet (token : string) (operation controller_id : Z) : enrollment :=
  enrollment_set_crc (mk_enrollment ENROLLMENT_MAGIC CONFIG_SYNC_PROTOCOL_VERSION operation 0
    (char_array CONFIG_SYNC_TOKEN_LEN token) controller_id 0).

Definition enabled_of (t : slot_type) (s : slot_config) : Prop := sc_enabled s = true /\ sc_type s = t.
#[export] Instance enabled_of_dec t s : Decision (enabled_of t s).
Proof. unfold enabled_of. apply _. Defined.
Definition count_enabled (t : slot_type) (slots : list slot_config) : Z :=
  Z.of_nat (length (filter (enabled_of t) slots)).

(** [build_device_config_packet] *)
Definition build_device_config_packet (unix_now : Z) (d : rtu_device) : device_config :=
  let slots := take SYNC_MAX_SLOTS (dev_slots d) in
  device_config_set_crc (mk_device_config CONFIG_SYNC_PROTOCOL_VERSION 1 0 (wrap32 unix_now)
    (char_array CONFIG_SYNC_MAX_STATION_NAME (dev_station_name d))
    (wrap16 (count_enabled SLOT_TYPE_SENSOR slots)) (wrap16 (count_enabled SLOT_TYPE_ACTUATOR slots))
    AUTHORITY_MODE_SUPERVISED 0 3000).

Definition sensor_entry_of (s : slot_config) : sensor_entry :=
  mk_sensor_entry (wrap8 (sc_slot s)) (measurement_code (sc_measurement_type s))
    (char_array CONFIG_SYNC_MAX_NAME_LEN (sc_name s)) (char_array CONFIG_SYNC_MAX_UNIT_LEN (sc_unit s))
    (sc_scale_min s) (sc_scale_max s) (sc_alarm_low s) (sc_alarm_high s).
Definition actuator_entry_of (s : slot_config) : actuator_entry :=
  mk_actuator_entry (wrap8 (sc_slot s)) (actuator_code (sc_actuator_type s))
    (char_array CONFIG_SYNC_MAX_NAME_LEN (sc_name s)) ACTUATOR_CMD_OFF 0 0.

(** The loop that fills the entries: [room] of them, from all slots. *)
Fixpoint fill_entries (t : slot_type) (entry : slot_config -> list Z) (room : nat) (slots : list slot_config)
    : list Z :=
  match room, slots with
  | S room', s :: slots' =>
      if decide (enabled_of t s) then entry s ++ fill_entries t entry room' slots'
      else fill_entries t entry room slots'
  | _, _ => []
  end.

(** [build_sensor_config_packet], [build_actuator_config_packet]: they differ in the type,
    the entry and the number of slots in which entries are counted. *)
Definition build_entries (t : slot_type) (entry : slot_config -> list Z) (size max : nat) (buffer_size : Z)
    (slots : list slot_config) : config_sync_result * list Z :=
  let n := length (filter (enabled_of t) (take max slots)) in
  if buffer_size <? Z.of_nat (ENTRY_HEADER_SIZE + n * size) then (CONFIG_SYNC_ERROR_NO_MEMORY, [])
  else
    let entries := fill_entries t entry n slots in
    (CONFIG_SYNC_OK, [CONFIG_SYNC_PROTOCOL_VERSION; wrap8 (Z.of_nat n)] ++ le16 (sync_crc16 entries) ++ entries).
Definition build_sensor_config_packet (buffer_size : Z) (slots : list slot_config) : config_sync_result * list Z :=
  build_entries SLOT_TYPE_SENSOR (fun s => sensor_entry_bytes (sensor_entry_of s)) SENSOR_ENTRY_SIZE
    CONFIG_SYNC_MAX_SENSORS buffer_size slots.
Definition build_actuator_config_packet (buffer_size : Z) (slots : list slot_config) : config_sync_result * list Z :=
  build_entries SLOT_TYPE_ACTUATOR (fun s => actuator_entry_bytes (actuator_entry_of s)) ACTUATOR_ENTRY_SIZE
    CONFIG_SYNC_MAX_ACTUATORS buffer_size slots.

(** ** The manager *)

(** [config_sync_config_t] *)
Record config_sync_config := mk_config_sync_config {
  cs_sync_on_connect : bool;
  cs_sync_enrollment : bool;
  cs_sync_device_config : bool;
  cs_sync_sensor_config : bool;
  cs_sync_actuator_config : bool;
  cs_sync_timeout_ms : Z;
  cs_retry_count : Z }.
Definition CONFIG_SYNC_DEFAULT_CONFIG : config_sync_config := mk_config_sync_config true true true true true 5000 2.

(** [config_sync_stats_t] *)
Record config_sync_stats := mk_config_sync_stats {
  cs_total_syncs : Z;
  cs_successful_syncs : Z;
  cs_failed_syncs : Z;
  cs_last_sync_time_ms : Z;
  cs_last_sync_rtu : string }.
#[export] Instance eta_config_sync_stats : Eta config_sync_stats := fun r =>
  mk_config_sync_stats (cs_total_syncs r) (cs_successful_syncs r) (cs_failed_syncs r) (cs_last_sync_time_ms r)
    (cs_last_sync_rtu r).

(** [struct config_sync_manager]; [cm_trace] lists the calls of the callback. *)
Record config_sync_manager := mk_config_sync_manager {
  cm_config : config_sync_config;
  cm_profinet : bool;
  cm_registry : bool;
  cm_callback : bool;
  cm_stats : config_sync_stats;
  cm_controller_id : Z;
  cm_trace : list (string * config_sync_result) }.
#[export] Instance eta_config_sync_manager : Eta config_sync_manager := fun r =>
  mk_config_sync_manager (cm_config r) (cm_profinet r) (cm_registry r) (cm_callback r) (cm_stats r)
    (cm_controller_id r) (cm_trace r).

Definition config_sync_manager_init (alloc_ok : bool) (unix_now : Z) (config : option config_sync_config)
    : wtc_result * option config_sync_manager :=
  if alloc_ok
  then (WTC_OK, Some (mk_config_sync_manager (default CONFIG_SYNC_DEFAULT_CONFIG config) false false false
          (mk_config_sync_stats 0 0 0 0 "") (Z.lxor (wrap32 unix_now) 49374) []))
  else (WTC_ERROR_NO_MEMORY, None).
Definition config_sync_set_profinet (m : config_sync_manager) (b : bool) := m <| cm_profinet := b |>.
Definition config_sync_set_registry (m : config_sync_manager) (b : bool) := m <| cm_registry := b |>.
Definition config_sync_set_callback (m : config_sync_manager) (b : bool) := m <| cm_callback := b |>.
Definition config_sync_get_stats (m : config_sync_manager) : config_sync_stats := cm_stats m.

Section Sending.
Context {P : Type} `{RecordLink P}.

(** [send_packet] *)
Definition send_packet (m : config_sync_manager) (net : P) (station : string) (index : Z) (data : list Z)
    : config_sync_result * P :=
  if negb (cm_profinet m) then (CONFIG_SYNC_ERROR_INVALID_PARAM, net)
  else
    let '(net, result) := write_record net station 0 0 1 index data in
    (if bool_decide (result = WTC_OK) then CONFIG_SYNC_OK else CONFIG_SYNC_ERROR_SEND, net).

Definition config_sync_send_enrollment (m : config_sync_manager) (net : P) (station token : string) (operation : Z)
    : config_sync_result * P :=
  send_packet m net station CONFIG_SYNC_ENROLLMENT_INDEX
    (enrollment_bytes (build_enrollment_packet token operation (cm_controller_id m))).

Definition config_sync_send_device_config (unix_now : Z) (m : config_sync_manager) (net : P) (station : string)
    (d : rtu_device) : config_sync_result * P :=
  send_packet m net station CONFIG_SYNC_DEVICE_INDEX (device_bytes (build_device_config_packet unix_now d)).

(** The buffer holds the header and the largest number of entries. *)
Definition config_sync_send_sensor_config (m : config_sync_manager) (net : P) (station : string)
    (slots : list slot_config) : config_sync_result * P :=
  match slots with
  | [] => (CONFIG_SYNC_ERROR_INVALID_PARAM, net)
  | _ =>
      match build_sensor_config_packet (Z.of_nat (ENTRY_HEADER_SIZE + CONFIG_SYNC_MAX_SENSORS * SENSOR_ENTRY_SIZE)) slots with
      | (CONFIG_SYNC_OK, packet) => send_packet m net station CONFIG_SYNC_SENSOR_INDEX packet
      | (e, _) => (e, net)
      end
  end.
Definition config_sync_send_actuator_config (m : config_sync_manager) (net : P) (station : string)
    (slots : list slot_config) : config_sync_result * P :=
  match slots with
  | [] => (CONFIG_SYNC_ERROR_INVALID_PARAM, net)
  | _ =>
      match build_actuator_config_packet (Z.of_nat (ENTRY_HEADER_SIZE + CONFIG_SYNC_MAX_ACTUATORS * ACTUATOR_ENTRY_SIZE)) slots with
      | (CONFIG_SYNC_OK, packet) => send_packet m net station CONFIG_SYNC_ACTUATOR_INDEX packet
      | (e, _) => (e, net)
      end
  end.

Definition sync_notify (station : string) (r : config_sync_result) (m : config_sync_manager) : config_sync_manager :=
  if cm_callback m then m <| cm_trace ::= fun t => t ++ [(station, r)] |> else m.
Definition sync_failed (station : string) (r : config_sync_result) (m : config_sync_manager) : config_sync_manager :=
  sync_notify station r (m <| cm_stats ::= fun s => s <| cs_failed_syncs ::= fun n => wrap32 (n + 1) |> |>).

(** The three transfers: each only if wanted, the rest only while they succeed. *)
Fixpoint transfers (net : P) (steps : list (bool * (P -> config_sync_result * P))) : config_sync_result * P :=
  match steps with
  | [] => (CONFIG_SYNC_OK, net)
  | (wanted, step) :: steps =>
      if wanted then
        match step net with
        | (CONFIG_SYNC_OK, net) => transfers net steps
        | (e, net) => (e, net)
        end
      else transfers net steps
  end.

(** [config_sync_to_rtu] ([find] looks a device up in the registry). *)
Definition config_sync_to_rtu (unix_now mono_now : Z) (find : string -> option rtu_device)
    (m : config_sync_manager) (net : P) (station : string) : config_sync_result * config_sync_manager * P :=
  if negb (cm_profinet m) then (CONFIG_SYNC_ERROR_RTU_NOT_CONNECTED, m, net)
  else if negb (cm_registry m) then (CONFIG_SYNC_ERROR_INVALID_PARAM, m, net)
  else
    match find station with
    | None => (CONFIG_SYNC_ERROR_INVALID_PARAM, m, net)
    | Some d =>
        if negb (bool_decide (dev_connection_state d = PROFINET_STATE_RUNNING))
        then (CONFIG_SYNC_ERROR_RTU_NOT_CONNECTED, m, net)
        else
          let m := m <| cm_stats ::= fun s => s <| cs_total_syncs ::= fun n => wrap32 (n + 1) |> |> in
          let some_slots := match dev_slots d with [] => false | _ => true end in
          match transfers net
            [ (cs_sync_device_config (cm_config m), fun net => config_sync_send_device_config unix_now m net station d);
              (cs_sync_sensor_config (cm_config m) && some_slots,
               fun net => config_sync_send_sensor_config m net station (dev_slots d));
              (cs_sync_actuator_config (cm_config m) && some_slots,
               fun net => config_sync_send_actuator_config m net station (dev_slots d)) ] with
          | (CONFIG_SYNC_OK, net) =>
              (CONFIG_SYNC_OK,
               sync_notify station CONFIG_SYNC_OK
                 (m <| cm_stats ::= fun s => s <| cs_successful_syncs ::= fun n => wrap32 (n + 1) |>
                                            <| cs_last_sync_time_ms := mono_now |>
                                            <| cs_last_sync_rtu := strncpy (WTC_MAX_STATION_NAME - 1) station |> |>),
               net)
          | (e, net) => (e, sync_failed station e m, net)
          end
    end.

(** [config_sync_on_rtu_connect] *)
Definition config_sync_on_rtu_connect (unix_now mono_now : Z) (find : string -> option rtu_device)
    (m : config_sync_manager) (net : P) (station : string) : config_sync_manager * P :=
  if cs_sync_on_connect (cm_config m)
  then let '(_, m, net) := config_sync_to_rtu unix_now mono_now find m net station in (m, net)
  else (m, net).

End Sending.

(** ** Theorems: what the packets carry *)

Lemma fill_entries_prefix t entry l1 l2 :
  fill_entries t entry (length (filter (enabled_of t) l1)) (l1 ++ l2) = concat (entry <$> filter (enabled_of t) l1).
Proof.
  induction l1 as [|s l1 IH]; [by destruct l2|]. rewrite filter_cons. destruct (decide (enabled_of t s)) as [Hs|Hs].
  - cbn [length app fill_entries]. rewrite decide_True by done. by rewrite IH.
  - destruct (length (filter (enabled_of t) l1)) as [|n] eqn:E.
    + apply nil_length_inv in E. by rewrite E.
    + cbn [app fill_entries]. rewrite decide_False by done. exact IH.
Qed.

(** A reader of entry packets: version, count, CRC of the entries, entries. *)
Fixpoint entries_at {A} (entry_at : list Z -> A) (size n : nat) (l : list Z) : list A :=
  match n with O => [] | S n' => entry_at (take size l) :: entries_at entry_at size n' (drop size l) end.
Definition read_packet {A} (entry_at : list Z -> A) (size : nat) (packet : list Z) : option (list A) :=
  let n := Z.to_nat (nth 1 packet 0) in
  let data := take (n * size) (drop 4 packet) in
  if (nth 0 packet 0 =? CONFIG_SYNC_PROTOCOL_VERSION) && (of_le (take 2 (drop 2 packet)) =? sync_crc16 data) &&
     (length packet =? 4 + n * size)%nat
  then Some (entries_at entry_at size n data) else None.

Lemma entries_at_concat {A} (entry_at : list Z -> A) size (bytes : list (list Z)) rest :
  Forall (fun b => length b = size) bytes ->
  entries_at entry_at size (length bytes) (concat bytes ++ rest) = entry_at <$> bytes.
Proof.
  induction 1 as [|b bytes Hb _ IH]; [done|]. cbn [length entries_at concat]. rewrite <- app_assoc.
  rewrite take_app_length', drop_app_length' by done. rewrite fmap_cons. by f_equal.
Qed.

Lemma length_concat_size (bytes : list (list Z)) size :
  Forall (fun b => length b = size) bytes -> length (concat bytes) = (length bytes * size)%nat.
Proof. induction 1 as [|b bytes Hb _ IH]; [done|]. cbn [concat length]. rewrite length_app, IH, Hb. lia. Qed.

Lemma sync_crc16_range data : is_bytes data -> is_u16 (sync_crc16 data).
Proof. intros Hd. exact (proj2 (user_sync_crc_agrees data Hd)). Qed.

(** What a reader finds in a packet built by [build_entries]. *)
Lemma build_entries_read {A} (entry_at : list Z -> A) t (entry : slot_config -> list Z) size max buffer_size slots :
  (forall s, length (entry s) = size) -> (forall s, is_bytes (entry s)) -> (max < 256)%nat ->
  Z.of_nat (4 + max * size) <= buffer_size ->
  exists packet, build_entries t entry size max buffer_size slots = (CONFIG_SYNC_OK, packet) /\
    read_packet entry_at size packet = Some ((fun s => entry_at (entry s)) <$> filter (enabled_of t) (take max slots)).
Proof.
  intros Hsize Hbytes Hmax Hroom. unfold build_entries.
  set (l := filter (enabled_of t) (take max slots)).
  assert (length l <= max)%nat as Hl.
  { pose proof (length_filter (enabled_of t) (take max slots)) as H1. fold l in H1. rewrite length_take in H1. lia. }
  rewrite (proj2 (Z.ltb_ge _ _)) by (unfold ENTRY_HEADER_SIZE; nia).
  assert (fill_entries t entry (length l) slots = concat (entry <$> l)) as ->.
  { unfold l at 1. rewrite <- (take_drop max slots) at 2. apply fill_entries_prefix. }
  eexists. split; [reflexivity|]. unfold read_packet. cbn [nth app].
  assert (is_bytes (concat (entry <$> l))) as Hb.
  { induction l as [|s l' IH]; [constructor|]. rewrite fmap_cons. cbn [concat]. apply Forall_app. split; [apply Hbytes|].
    apply IH. cbn in Hl. lia. }
  assert (Forall (fun b => length b = size) (entry <$> l)) as Hs by (apply Forall_fmap, Forall_forall; intros s _; apply Hsize).
  assert (Z.to_nat (wrap8 (Z.of_nat (length l))) = length l) as ->.
  { unfold wrap8. rewrite Z.mod_small by lia. lia. }
  set (data := concat (entry <$> l)) in *.
  assert (length data = (length l * size)%nat) as Hd by (unfold data; by rewrite (length_concat_size _ size), length_fmap).
  change (drop 4 (CONFIG_SYNC_PROTOCOL_VERSION :: wrap8 (Z.of_nat (length l)) :: le16 (sync_crc16 data) ++ data)) with data.
  change (take 2 (drop 2 (CONFIG_SYNC_PROTOCOL_VERSION :: wrap8 (Z.of_nat (length l)) :: le16 (sync_crc16 data) ++ data)))
    with (le16 (sync_crc16 data)).
  rewrite take_ge by lia. rewrite le16_back by (by apply sync_crc16_range). rewrite !Z.eqb_refl. cbn [andb].
  cbn [length]. rewrite length_app, Hd. change (length (le16 (sync_crc16 data))) with 2%nat.
  rewrite (proj2 (Nat.eqb_eq _ _)) by lia. f_equal.
  rewrite <- (app_nil_r data). unfold data. rewrite <- (length_fmap entry l), entries_at_concat by done.
  by rewrite <- list_fmap_compose.
Qed.

Lemma le16_bytes v : is_bytes (le16 v).
Proof. apply Forall_rev, be16_bytes. Qed.
Lemma is_bytes_app a b : is_bytes a -> is_bytes b -> is_bytes (a ++ b).
Proof. intros. by apply Forall_app. Qed.
Lemma is_bytes_cons x l : is_u8 x -> is_bytes l -> is_bytes (x :: l).
Proof. by constructor. Qed.
Lemma is_bytes_nil : is_bytes [].
Proof. constructor. Qed.
Create HintDb sync_bytes.
#[export] Hint Resolve is_bytes_app is_bytes_cons is_bytes_nil le16_bytes le32_bytes char_array_bytes wrap8_range : sync_bytes.

Lemma measurement_code_u8 t : is_u8 (measurement_code t).
Proof. unfold is_u8. destruct t; cbn; lia. Qed.
Lemma actuator_code_u8 t : is_u8 (actuator_code t).
Proof. unfold is_u8. destruct t; cbn; lia. Qed.
Lemma zero_u8 : is_u8 0.
Proof. unfold is_u8. lia. Qed.
#[export] Hint Resolve measurement_code_u8 actuator_code_u8 zero_u8 : sync_bytes.

Lemma sensor_entry_size s : length (sensor_entry_bytes (sensor_entry_of s)) = SENSOR_ENTRY_SIZE.
Proof. unfold sensor_entry_bytes. rewrite !length_app. cbn [se_name se_unit sensor_entry_of]. rewrite !char_array_length by (cbv; lia). done. Qed.
Lemma actuator_entry_size s : length (actuator_entry_bytes (actuator_entry_of s)) = ACTUATOR_ENTRY_SIZE.
Proof. unfold actuator_entry_bytes. rewrite !length_app. cbn [ae_name actuator_entry_of]. rewrite !char_array_length by (cbv; lia). done. Qed.
Lemma sensor_entry_is_bytes s : is_bytes (sensor_entry_bytes (sensor_entry_of s)).
Proof. unfold sensor_entry_bytes. cbn [sensor_entry_of se_slot se_type se_name se_unit]. auto 20 with sync_bytes. Qed.
Lemma actuator_entry_is_bytes s : is_bytes (actuator_entry_bytes (actuator_entry_of s)).
Proof. unfold actuator_entry_bytes. cbn [actuator_entry_of ae_slot ae_type ae_name ae_default_state ae_reserved ae_interlock_mask]. auto 20 with sync_bytes. Qed.

(** A list of known length, element by element. *)
Ltac explode l H := repeat (destruct l as [|? l]; [try discriminate H|try discriminate H]); clear H.

Lemma f32_back x : valid32 x = true -> f32_of_bits (of_le (le32 (bits_of_f32 x))) = x.
Proof. intros Hx. rewrite le32_back by (by apply bits_of_f32_range). by apply f32_bits_roundtrip. Qed.

Definition slot_floats_ok (s : slot_config) : Prop :=
  valid32 (sc_scale_min s) = true /\ valid32 (sc_scale_max s) = true /\
  valid32 (sc_alarm_low s) = true /\ valid32 (sc_alarm_high s) = true.

Lemma sensor_entry_back s : slot_floats_ok s -> sensor_entry_at (sensor_entry_bytes (sensor_entry_of s)) = sensor_entry_of s.
Proof.
  intros (H1 & H2 & H3 & H4). unfold sensor_entry_at, sensor_entry_bytes, sensor_entry_of.
  cbn [se_slot se_type se_name se_unit se_scale_min se_scale_max se_alarm_low se_alarm_high].
  pose proof (char_array_length CONFIG_SYNC_MAX_NAME_LEN (sc_name s) ltac:(cbv; lia)) as Hn.
  pose proof (char_array_length CONFIG_SYNC_MAX_UNIT_LEN (sc_unit s) ltac:(cbv; lia)) as Hu.
  generalize dependent (char_array CONFIG_SYNC_MAX_NAME_LEN (sc_name s)). intros name Hn.
  generalize dependent (char_array CONFIG_SYNC_MAX_UNIT_LEN (sc_unit s)). intros unit Hu.
  explode name Hn. explode unit Hu.
  f_equal; try reflexivity; by apply f32_back.
Qed.

Lemma actuator_entry_back s : actuator_entry_at (actuator_entry_bytes (actuator_entry_of s)) = actuator_entry_of s.
Proof.
  unfold actuator_entry_at, actuator_entry_bytes, actuator_entry_of.
  cbn [ae_slot ae_type ae_name ae_default_state ae_reserved ae_interlock_mask].
  pose proof (char_array_length CONFIG_SYNC_MAX_NAME_LEN (sc_name s) ltac:(cbv; lia)) as Hn.
  generalize dependent (char_array CONFIG_SYNC_MAX_NAME_LEN (sc_name s)). intros name Hn.
  explode name Hn. f_equal; reflexivity.
Qed.

(** What the RTU reads from the sensor and actuator records: exactly the enabled sensors
    of the first sixteen slots and the enabled actuators of the first eight. *)
Theorem entry_packets_decoded slots :
  Forall slot_floats_ok slots ->
  (exists packet, build_sensor_config_packet 676 slots = (CONFIG_SYNC_OK, packet) /\
     read_packet sensor_entry_at SENSOR_ENTRY_SIZE packet
     = Some (sensor_entry_of <$> filter (enabled_of SLOT_TYPE_SENSOR) (take 16 slots))) /\
  (exists packet, build_actuator_config_packet 180 slots = (CONFIG_SYNC_OK, packet) /\
     read_packet actuator_entry_at ACTUATOR_ENTRY_SIZE packet
     = Some (actuator_entry_of <$> filter (enabled_of SLOT_TYPE_ACTUATOR) (take 8 slots))).
Proof.
  intros Hs. split.
  - destruct (build_entries_read sensor_entry_at SLOT_TYPE_SENSOR (fun s => sensor_entry_bytes (sensor_entry_of s))
      SENSOR_ENTRY_SIZE CONFIG_SYNC_MAX_SENSORS 676 slots) as (p & H1 & H2);
      [apply sensor_entry_size|apply sensor_entry_is_bytes|cbv; lia|cbv; congruence|].
    exists p. split; [exact H1|]. rewrite H2. f_equal. apply list_fmap_ext. intros i s Hi. apply sensor_entry_back.
    rewrite Forall_forall in Hs. apply Hs. apply list_elem_of_lookup_2, list_elem_of_filter in Hi as [_ Hi].
    eapply (subseteq_take _ _ _ Hi).
  - destruct (build_entries_read actuator_entry_at SLOT_TYPE_ACTUATOR (fun s => actuator_entry_bytes (actuator_entry_of s))
      ACTUATOR_ENTRY_SIZE CONFIG_SYNC_MAX_ACTUATORS 180 slots) as (p & H1 & H2);
      [apply actuator_entry_size|apply actuator_entry_is_bytes|cbv; lia|cbv; congruence|].
    exists p. split; [exact H1|]. rewrite H2. f_equal. apply list_fmap_ext. intros i s _. apply actuator_entry_back.
Qed.

(** The device record survives the wire, and the RTU accepts it. *)
Definition device_ok (p : device_config) : Prop :=
  is_u16 (dc_crc16 p) /\ is_u32 (dc_config_timestamp p) /\ length (dc_station_name p) = 32%nat /\
  is_u16 (dc_sensor_count p) /\ is_u16 (dc_actuator_count p) /\ is_u32 (dc_watchdog_ms p).
Lemma device_at_bytes p : device_ok p -> device_at (device_bytes p) = p.
Proof.
  destruct p as [v fl crc ts name sc ac am rs wd]. intros (H1 & H2 & H3 & H4 & H5 & H6).
  cbn [dc_crc16 dc_config_timestamp dc_station_name dc_sensor_count dc_actuator_count dc_watchdog_ms] in *.
  explode name H3. unfold device_at, device_bytes, device_body.
  cbn [dc_version dc_flags dc_crc16 dc_config_timestamp dc_station_name dc_sensor_count dc_actuator_count
       dc_authority_mode dc_reserved dc_watchdog_ms].
  f_equal; try reflexivity; by first [apply le16_back|apply le32_back].
Qed.

Lemma device_set_crc p :
  device_config_set_crc p = p <| dc_crc16 := sync_crc16 (device_body p) |>.
Proof. by destruct p. Qed.

Lemma device_config_accepted unix_now d :
  let p := build_device_config_packet unix_now d in
  device_at (device_bytes p) = p /\ device_config_validate (device_at (device_bytes p)) = true.
Proof.
  unfold build_device_config_packet. rewrite device_set_crc. cbv zeta. set (q := mk_device_config _ _ _ _ _ _ _ _ _ _).
  assert (is_u16 (sync_crc16 (device_body q))) as Hcrc.
  { apply sync_crc16_range. unfold device_body, q. cbn [dc_authority_mode dc_reserved dc_station_name].
    apply is_bytes_app; [apply le32_bytes|]. apply is_bytes_app; [apply char_array_bytes|].
    do 2 (apply is_bytes_app; [apply le16_bytes|]). apply is_bytes_app; [|apply le32_bytes].
    apply is_bytes_cons; [unfold AUTHORITY_MODE_SUPERVISED, is_u8; lia|auto with sync_bytes]. }
  rewrite device_at_bytes.
  - split; [done|]. change (((1 =? 1) && (sync_crc16 (device_body q) =? sync_crc16 (device_body q))) = true). by rewrite !Z.eqb_refl.
  - split_and!; cbn [q set dc_crc16 dc_config_timestamp dc_station_name dc_sensor_count dc_actuator_count dc_watchdog_ms].
    + exact Hcrc.
    + apply wrap32_range.
    + apply char_array_length. cbv. lia.
    + apply wrap16_range.
    + apply wrap16_range.
    + unfold is_u32. lia.
Qed.

(** The enrolment record too. *)
Lemma enrollment_at_bytes p :
  is_u32 (en_magic p) -> is_u16 (en_crc16 p) -> length (en_token p) = 64%nat -> is_u32 (en_controller_id p) ->
  is_u32 (en_reserved p) -> enrollment_at (enrollment_bytes p) = p.
Proof.
  destruct p as [mg v op crc tok id rs]. cbn [en_magic en_crc16 en_token en_controller_id en_reserved].
  intros H1 H2 H3 H4 H5. explode tok H3. unfold enrollment_at, enrollment_bytes.
  cbn [en_magic en_version en_operation en_crc16 en_token en_controller_id en_reserved].
  f_equal; try reflexivity; by first [apply le16_back|apply le32_back].
Qed.

(** Enrolment: the RTU decodes and accepts the packet whatever the token, the operation
    and the controller, and finds the token in it when that fits. *)
Theorem enrollment_accepted token operation id :
  is_u32 id -> no_nul token -> (String.length token < CONFIG_SYNC_TOKEN_LEN)%nat ->
  let p := enrollment_at (enrollment_bytes (build_enrollment_packet token operation id)) in
  enrollment_validate p = true /\ cstring (en_token p) = token /\ en_operation p = operation /\ en_controller_id p = id.
Proof.
  intros Hid Hnul Hlen. unfold build_enrollment_packet, enrollment_set_crc. cbv zeta. set (q := mk_enrollment _ _ _ _ _ _ _).
  assert (is_u16 (sync_crc16 (drop 8 (enrollment_bytes q)))) as Hcrc.
  { apply sync_crc16_range. change (drop 8 (enrollment_bytes q)) with (en_token q ++ le32 (en_controller_id q) ++ le32 (en_reserved q)).
    cbn [q en_token]. auto with sync_bytes. }
  set (crc := sync_crc16 (drop 8 (enrollment_bytes q))) in *.
  rewrite enrollment_at_bytes.
  - cbn [q set en_token en_operation en_controller_id]. split_and!; try done.
    + change (((ENROLLMENT_MAGIC =? ENROLLMENT_MAGIC) && (1 =? 1) && (crc =? crc)) = true). by rewrite !Z.eqb_refl.
    + rewrite <- (app_nil_r (char_array _ _)). by apply char_array_cstring.
  - cbn. unfold ENROLLMENT_MAGIC, is_u32. lia.
  - exact Hcrc.
  - apply char_array_length. cbv. lia.
  - exact Hid.
  - cbn. unfold is_u32. lia.
Qed.

(** ** Theorem: what a synchronisation delivers *)

(** A link that notes every record and whose [n]-th answer is [answers n]. *)
Definition log := list (string * Z * list Z).
Definition log_link (answers : nat -> wtc_result) : RecordLink log := {|
  write_record := fun l station _ _ _ index data => (l ++ [(station, index, data)], answers (length l)) |}.

(** The records wanted, as far as they are acknowledged: the first refused one is the
    last sent. *)
Fixpoint sends (answers : nat -> wtc_result) (n : nat) (records : list (Z * list Z)) : bool * list (Z * list Z) :=
  match records with
  | [] => (true, [])
  | r :: records =>
      if bool_decide (answers n = WTC_OK)
      then let '(ok, sent) := sends answers (S n) records in (ok, r :: sent)
      else (false, [r])
  end.

Definition wanted_records (unix_now : Z) (c : config_sync_config) (d : rtu_device) : list (Z * list Z) :=
  (if cs_sync_device_config c then [(CONFIG_SYNC_DEVICE_INDEX, device_bytes (build_device_config_packet unix_now d))] else []) ++
  (if cs_sync_sensor_config c && negb (bool_decide (dev_slots d = []))
   then [(CONFIG_SYNC_SENSOR_INDEX, snd (build_sensor_config_packet 676 (dev_slots d)))] else []) ++
  (if cs_sync_actuator_config c && negb (bool_decide (dev_slots d = []))
   then [(CONFIG_SYNC_ACTUATOR_INDEX, snd (build_actuator_config_packet 180 (dev_slots d)))] else []).

Section Delivery.
Context (answers : nat -> wtc_result).
#[local] Instance the_link : RecordLink log := log_link answers.

(** One transfer: [r] is the record it writes. *)
Definition writes (station : string) (r : Z * list Z) (step : log -> config_sync_result * log) : Prop :=
  forall l, step l = (if bool_decide (answers (length l) = WTC_OK) then CONFIG_SYNC_OK else CONFIG_SYNC_ERROR_SEND,
                      l ++ [(station, r.1, r.2)]).

Lemma transfers_send station (steps : list (bool * (log -> config_sync_result * log))) (records : list (Z * list Z)) (l : log) :
  Forall2 (fun step r => writes station r step.2) steps records ->
  transfers l steps
  = let '(ok, sent) := sends answers (length l) (snd <$> filter (fun x => x.1.1 = true) (zip steps records)) in
    (if ok then CONFIG_SYNC_OK else CONFIG_SYNC_ERROR_SEND, l ++ ((fun r => (station, r.1, r.2)) <$> sent)).
Proof.
  intros HF. revert l. induction HF as [|[wanted step] r steps records Hw _ IH]; intros l; [cbn; by rewrite app_nil_r|].
  cbn [transfers zip zip_with]. rewrite filter_cons. cbn [fst]. destruct wanted.
  - rewrite decide_True by done. rewrite fmap_cons. cbn [sends snd]. change (writes station r step) in Hw. rewrite (Hw l).
    case_bool_decide; [|done]. rewrite IH, length_app. cbn [length]. rewrite Nat.add_1_r.
    destruct (sends _ _ _) as [ok sent]. rewrite fmap_cons, <- app_assoc. done.
  - rewrite decide_False by done. apply IH.
Qed.

Lemma send_packet_writes m station index data :
  cm_profinet m = true -> writes station (index, data) (fun net => send_packet m net station index data).
Proof. intros Hp l. unfold send_packet. rewrite Hp. done. Qed.

Lemma sensor_step_writes m station slots :
  cm_profinet m = true -> slots <> [] ->
  writes station (CONFIG_SYNC_SENSOR_INDEX, snd (build_sensor_config_packet 676 slots))
    (fun net => config_sync_send_sensor_config m net station slots).
Proof.
  intros Hp Hs l. unfold config_sync_send_sensor_config. destruct slots as [|s slots]; [done|].
  change (Z.of_nat (ENTRY_HEADER_SIZE + CONFIG_SYNC_MAX_SENSORS * SENSOR_ENTRY_SIZE)) with 676.
  destruct (build_entries_read sensor_entry_at SLOT_TYPE_SENSOR (fun s => sensor_entry_bytes (sensor_entry_of s))
    SENSOR_ENTRY_SIZE CONFIG_SYNC_MAX_SENSORS 676 (s :: slots) sensor_entry_size sensor_entry_is_bytes
    ltac:(cbv; lia) ltac:(cbv; congruence)) as (p & H1 & _).
  unfold build_sensor_config_packet. rewrite H1. by apply send_packet_writes.
Qed.

Lemma actuator_step_writes m station slots :
  cm_profinet m = true -> slots <> [] ->
  writes station (CONFIG_SYNC_ACTUATOR_INDEX, snd (build_actuator_config_packet 180 slots))
    (fun net => config_sync_send_actuator_config m net station slots).
Proof.
  intros Hp Hs l. unfold config_sync_send_actuator_config. destruct slots as [|s slots]; [done|].
  change (Z.of_nat (ENTRY_HEADER_SIZE + CONFIG_SYNC_MAX_ACTUATORS * ACTUATOR_ENTRY_SIZE)) with 180.
  destruct (build_entries_read actuator_entry_at SLOT_TYPE_ACTUATOR (fun s => actuator_entry_bytes (actuator_entry_of s))
    ACTUATOR_ENTRY_SIZE CONFIG_SYNC_MAX_ACTUATORS 180 (s :: slots) actuator_entry_size actuator_entry_is_bytes
    ltac:(cbv; lia) ltac:(cbv; congruence)) as (p & H1 & _).
  unfold build_actuator_config_packet. rewrite H1. by apply send_packet_writes.
Qed.

(** The three steps of a synchronisation in terms of the records wanted. *)
Lemma sync_transfers unix_now m station d (l : log) :
  cm_profinet m = true ->
  transfers l
    [ (cs_sync_device_config (cm_config m), fun net => config_sync_send_device_config unix_now m net station d);
      (cs_sync_sensor_config (cm_config m) && match dev_slots d with [] => false | _ => true end,
       fun net => config_sync_send_sensor_config m net station (dev_slots d));
      (cs_sync_actuator_config (cm_config m) && match dev_slots d with [] => false | _ => true end,
       fun net => config_sync_send_actuator_config m net station (dev_slots d)) ]
  = let '(ok, sent) := sends answers (length l) (wanted_records unix_now (cm_config m) d) in
    (if ok then CONFIG_SYNC_OK else CONFIG_SYNC_ERROR_SEND, l ++ ((fun r => (station, r.1, r.2)) <$> sent)).
Proof.
  intros Hp. set (dev := (CONFIG_SYNC_DEVICE_INDEX, device_bytes (build_device_config_packet unix_now d))).
  assert (writes station dev (fun net => config_sync_send_device_config unix_now m net station d)) as Hd
    by (by apply send_packet_writes).
  unfold wanted_records. fold dev. destruct (dev_slots d) as [|s slots] eqn:Es.
  - rewrite bool_decide_eq_true_2 by done. rewrite !andb_false_r.
    cbn [negb transfers app]. destruct (cs_sync_device_config (cm_config m)); [|cbn; by rewrite app_nil_r].
    cbn [app sends]. rewrite (Hd l). by case_bool_decide.
  - rewrite bool_decide_eq_false_2 by done. cbn [negb]. rewrite !andb_true_r.
    rewrite (transfers_send station _ [dev;
      (CONFIG_SYNC_SENSOR_INDEX, snd (build_sensor_config_packet 676 (s :: slots)));
      (CONFIG_SYNC_ACTUATOR_INDEX, snd (build_actuator_config_packet 180 (s :: slots)))]).
    + f_equal. by destruct (cs_sync_device_config (cm_config m)), (cs_sync_sensor_config (cm_config m)),
        (cs_sync_actuator_config (cm_config m)).
    + repeat constructor; [exact Hd|by apply sensor_step_writes|by apply actuator_step_writes].
Qed.

(** Synchronising a running RTU: the device, sensor and actuator records that are
    enabled are written in this order until one is refused; the answer is OK exactly
    when all were acknowledged, every attempt is counted once as success or failure, and
    the callback hears the same answer. *)
Theorem config_sync_delivers unix_now mono_now find m (l : log) station d :
  cm_profinet m = true -> cm_registry m = true -> find station = Some d ->
  dev_connection_state d = PROFINET_STATE_RUNNING ->
  let '(ok, sent) := sends answers (length l) (wanted_records unix_now (cm_config m) d) in
  let '(r, m', l') := config_sync_to_rtu unix_now mono_now find m l station in
  r = (if ok then CONFIG_SYNC_OK else CONFIG_SYNC_ERROR_SEND) /\
  l' = l ++ ((fun x => (station, x.1, x.2)) <$> sent) /\
  cs_total_syncs (cm_stats m') = wrap32 (cs_total_syncs (cm_stats m) + 1) /\
  cs_successful_syncs (cm_stats m') = (if ok then wrap32 (cs_successful_syncs (cm_stats m) + 1) else cs_successful_syncs (cm_stats m)) /\
  cs_failed_syncs (cm_stats m') = (if ok then cs_failed_syncs (cm_stats m) else wrap32 (cs_failed_syncs (cm_stats m) + 1)) /\
  cm_trace m' = (if cm_callback m then cm_trace m ++ [(station, r)] else cm_trace m).
Proof.
  intros Hp Hr Hf Hrun. unfold config_sync_to_rtu. rewrite Hp, Hr, Hf, bool_decide_eq_true_2 by done. cbn [negb].
  set (m1 := m <| cm_stats ::= fun s => s <| cs_total_syncs ::= fun n => wrap32 (n + 1) |> |>).
  pose proof (sync_transfers unix_now m1 station d l Hp) as Ht.
  change (cm_config m1) with (cm_config m) in Ht. change (cm_config m1) with (cm_config m).
  cbv zeta. rewrite Ht. clear Ht.
  destruct (sends answers (length l) (wanted_records unix_now (cm_config m) d)) as [[] sent].
  - unfold sync_notify. cbn [cm_callback set m1]. by destruct (cm_callback m).
  - unfold sync_failed, sync_notify. cbn [cm_callback set m1]. by destruct (cm_callback m).
Qed.
End Delivery.

Module SyncDemo.

Definition rtu : rtu_device :=
  mk_rtu_device 1 "rtu-1" "" 0 0 PROFINET_STATE_RUNNING 0 (snd Slots.create_water_treatment_rtu_config) 16 [] 0 [] 0 f0 false.
Definition manager : config_sync_manager :=
  mk_config_sync_manager CONFIG_SYNC_DEFAULT_CONFIG true true true (mk_config_sync_stats 4 3 1 0 "") 7 [].

(** The second record is refused: two were written, the answer is an error, counted once. *)
Lemma config_sync_delivers_witness :
  exists m' l', config_sync_to_rtu (H := log_link (fun n => if (n =? 1)%nat then WTC_ERROR_TIMEOUT else WTC_OK))
                  1000 2000 (fun _ => Some rtu) manager [] "rtu-1"
                = (CONFIG_SYNC_ERROR_SEND, m', l') /\
    (fun x => x.1.2) <$> l' = [CONFIG_SYNC_DEVICE_INDEX; CONFIG_SYNC_SENSOR_INDEX] /\
    cs_failed_syncs (cm_stats m') = 2 /\ cm_trace m' = [("rtu-1"%string, CONFIG_SYNC_ERROR_SEND)].
Proof.
  pose proof (config_sync_delivers (fun n => if (n =? 1)%nat then WTC_ERROR_TIMEOUT else WTC_OK) 1000 2000
    (fun _ => Some rtu) manager [] "rtu-1" rtu eq_refl eq_refl eq_refl eq_refl) as H.
  destruct (sends _ _ _) as [ok sent] eqn:Es.
  assert (ok = false /\ fst <$> sent = [CONFIG_SYNC_DEVICE_INDEX; CONFIG_SYNC_SENSOR_INDEX]) as [-> Hi].
  { revert Es. unfold wanted_records. cbn [manager cm_config CONFIG_SYNC_DEFAULT_CONFIG cs_sync_device_config
      cs_sync_sensor_config cs_sync_actuator_config]. rewrite bool_decide_eq_false_2 by done. cbn [negb andb app sends length Nat.eqb].
    rewrite bool_decide_eq_true_2 by done. rewrite bool_decide_eq_false_2 by done. intros Es. injection Es as <- <-. by cbn [fmap list_fmap fst]. }
  destruct (config_sync_to_rtu _ _ _ _ _ _) as [[r m'] l'].
  destruct H as (-> & -> & _ & _ & H5 & H6). exists m', ([] ++ ((fun x => ("rtu-1"%string, x.1, x.2)) <$> sent)).
  split; [reflexivity|]. split.
  - cbn [app]. rewrite <- list_fmap_compose. exact Hi.
  - split; [exact H5|exact H6].
Defined.

(** The default layout of [slot_manager.c] has its eight actuators in slots 8 to 15: the
    device record announces them, the actuator record, which looks at the first eight
    slots only, is empty. *)
Example no_actuator_sent :
  dc_actuator_count (build_device_config_packet 0 rtu) = 8 /\
  read_packet actuator_entry_at ACTUATOR_ENTRY_SIZE (snd (build_actuator_config_packet 180 (dev_slots rtu))) = Some [].
Proof. split; vm_compute; reflexivity. Qed.

(** The device record has fifty bytes. *)
Example device_record_size : length (device_bytes (build_device_config_packet 0 rtu)) = 50%nat.
Proof. vm_compute. reflexivity. Qed.

End SyncDemo.
