(* ===== verification/Reconcile.v ===== *)
(** * State reconciliation

    Model of [src/coordination/state_reconciliation.c]: the controller keeps a versioned,
    checksummed desired state for every RTU, saves it to a file, and compares it with what
    an RTU reports when it comes back.

    A state is kept as its fields; [state_bytes] is its memory image under the usual
    64-bit layout (little-endian, natural alignment, padding zero as [memset] leaves it),
    which the checksum and the file are made of.  [clk k] is the [k]-th clock reading of a
    call.  Entries are never given back, so the entries in use are a prefix of the table. *)

From stdpp Require Import strings gmap.
From S2P Require Import Prelude Float32 Types Crc Wire UserSync Historian.

Definition MAX_STATE_ENTRIES : nat := 256.
Definition MAX_DESIRED_ACTUATORS : nat := 64.
Definition WTC_MAX_PID_LOOPS : nat := 64.
Definition STATE_RECONCILIATION_VERSION : Z := 1.

(** [desired_actuator_state_t], [desired_pid_state_t]; the enumerations as numbers. *)
Record desired_actuator := mk_desired_actuator {
  da_slot : Z;
  da_command : Z;
  da_pwm_duty : Z;
  da_forced : bool;
  da_set_time_ms : Z;
  da_set_epoch : Z }.
#[export] Instance eta_desired_actuator : Eta desired_actuator := fun r =>
  mk_desired_actuator (da_slot r) (da_command r) (da_pwm_duty r) (da_forced r) (da_set_time_ms r) (da_set_epoch r).
Record desired_pid := mk_desired_pid {
  dp_loop_id : Z;
  dp_mode : Z;
  dp_setpoint : float32;
  dp_manual_output : float32;
  dp_set_time_ms : Z }.
#[export] Instance eta_desired_pid : Eta desired_pid := fun r =>
  mk_desired_pid (dp_loop_id r) (dp_mode r) (dp_setpoint r) (dp_manual_output r) (dp_set_time_ms r).

(** [desired_state_t]; the arrays are whole. *)
Record desired_state := mk_desired_state {
  ds_version : Z;
  ds_sequence : Z;
  ds_checksum : Z;
  ds_timestamp_ms : Z;
  ds_station_name : list Z;
  ds_actuators : list desired_actuator;
  ds_actuator_count : Z;
  ds_pid_loops : list desired_pid;
  ds_pid_loop_count : Z;
  ds_valid : bool;
  ds_dirty : bool }.
#[export] Instance eta_desired_state : Eta desired_state := fun r =>
  mk_desired_state (ds_version r) (ds_sequence r) (ds_checksum r) (ds_timestamp_ms r) (ds_station_name r)
    (ds_actuators r) (ds_actuator_count r) (ds_pid_loops r) (ds_pid_loop_count r) (ds_valid r) (ds_dirty r).

(** [reconciliation_result_t] *)
Record reconciliation_result := mk_reconciliation_result {
  rr_actuators_synced : Z;
  rr_actuators_conflicted : Z;
  rr_pid_loops_synced : Z;
  rr_pid_loops_conflicted : Z;
  rr_reconcile_time_ms : Z;
  rr_success : bool }.

(** [state_reconciler_config_t] *)
Record reconciler_config := mk_reconciler_config {
  rc_snapshot_interval_ms : Z;
  rc_sync_timeout_ms : Z;
  rc_persist_to_disk : bool;
  rc_persist_path : string;
  rc_auto_reconcile : bool }.

(** [state_entry_t], [struct state_reconciler] *)
Record state_entry := mk_state_entry {
  se_station_name : string;
  se_state : desired_state;
  se_last_snapshot_ms : Z }.
#[export] Instance eta_state_entry : Eta state_entry := fun r =>
  mk_state_entry (se_station_name r) (se_state r) (se_last_snapshot_ms r).
Record reconciler := mk_reconciler {
  re_config : reconciler_config;
  re_entries : list state_entry;
  re_callback : bool }.
#[export] Instance eta_reconciler : Eta reconciler := fun r =>
  mk_reconciler (re_config r) (re_entries r) (re_callback r).

(** ** Memory image and checksum *)

Definition int_bytes (v : Z) : list Z := mem_bytes 4 (wrap32 v).
Definition int_at (off : nat) (l : list Z) : Z := to_i32 (of_mem_bytes (take 4 (drop off l))).
Definition u32_at (off : nat) (l : list Z) : Z := of_mem_bytes (take 4 (drop off l)).
Definition u64_at (off : nat) (l : list Z) : Z := of_mem_bytes (take 8 (drop off l)).
Definition float_at (off : nat) (l : list Z) : float32 := f32_of_bits (u32_at off l).
Definition bool_byte (b : bool) : Z := if b then 1 else 0.
Definition bool_at (off : nat) (l : list Z) : bool := negb (nth off l 0 =? 0).

Definition actuator_image (a : desired_actuator) : list Z :=
  int_bytes (da_slot a) ++ int_bytes (da_command a) ++ [da_pwm_duty a; bool_byte (da_forced a); 0; 0; 0; 0; 0; 0] ++
  mem_bytes 8 (da_set_time_ms a) ++ mem_bytes 4 (da_set_epoch a) ++ [0; 0; 0; 0].
Definition actuator_of_image (l : list Z) : desired_actuator :=
  mk_desired_actuator (int_at 0 l) (int_at 4 l) (nth 8 l 0) (bool_at 9 l) (u64_at 16 l) (u32_at 24 l).
Definition pid_image (p : desired_pid) : list Z :=
  int_bytes (dp_loop_id p) ++ int_bytes (dp_mode p) ++ mem_bytes 4 (bits_of_f32 (dp_setpoint p)) ++
  mem_bytes 4 (bits_of_f32 (dp_manual_output p)) ++ mem_bytes 8 (dp_set_time_ms p).
Definition pid_of_image (l : list Z) : desired_pid :=
  mk_desired_pid (int_at 0 l) (int_at 4 l) (float_at 8 l) (float_at 12 l) (u64_at 16 l).

(** The header before and after the checksum, and the rest. *)
Definition state_head (s : desired_state) : list Z := mem_bytes 4 (ds_version s) ++ mem_bytes 4 (ds_sequence s).
Definition state_tail (s : desired_state) : list Z :=
  [0; 0; 0; 0] ++ mem_bytes 8 (ds_timestamp_ms s) ++ ds_station_name s ++
  concat (actuator_image <$> ds_actuators s) ++ int_bytes (ds_actuator_count s) ++ [0; 0; 0; 0] ++
  concat (pid_image <$> ds_pid_loops s) ++ int_bytes (ds_pid_loop_count s) ++
  [bool_byte (ds_valid s); bool_byte (ds_dirty s); 0; 0].
Definition state_bytes (s : desired_state) : list Z :=
  state_head s ++ mem_bytes 4 (ds_checksum s) ++ state_tail s.
Definition STATE_SIZE : nat := 3688.

(** An array of [n] structs of [size] bytes. *)
Fixpoint array_at {A} (elem : list Z -> A) (size n : nat) (l : list Z) : list A :=
  match n with O => [] | S n' => elem (take size l) :: array_at elem size n' (drop size l) end.
Definition state_of_bytes (l : list Z) : desired_state :=
  mk_desired_state (u32_at 0 l) (u32_at 4 l) (u32_at 8 l) (u64_at 16 l) (take 64 (drop 24 l))
    (array_at actuator_of_image 32 64 (drop 88 l)) (int_at 2136 l)
    (array_at pid_of_image 24 64 (drop 2144 l)) (int_at 3680 l) (bool_at 3684 l) (bool_at 3685 l).

(** [state_compute_checksum] and [state_validate_checksum], on the memory of a state:
    the checksum field counts as zero. *)
Definition image_checksum (l : list Z) : Z := crc32 (take 8 l ++ [0; 0; 0; 0] ++ drop 12 l).
Definition state_compute_checksum (s : desired_state) : Z := image_checksum (state_bytes s).
Definition state_validate_checksum (s : desired_state) : bool := ds_checksum s =? state_compute_checksum s.
Definition refresh_checksum (s : desired_state) : desired_state := s <| ds_checksum := state_compute_checksum s |>.

(** [state_is_stale] *)
Definition state_is_stale (now : Z) (s : desired_state) (threshold_ms : Z) : bool :=
  negb (ds_valid s) || (threshold_ms <? u64_sub now (ds_timestamp_ms s)).

Definition zero_actuator_state : desired_actuator := mk_desired_actuator 0 0 0 false 0 0.
Definition zero_pid_state : desired_pid := mk_desired_pid 0 0 f0 f0 0.
(** [desired_state_init], [desired_state_copy] *)
Definition desired_state_init (now : Z) (station : string) : desired_state :=
  refresh_checksum (mk_desired_state STATE_RECONCILIATION_VERSION 1 0 now (char_array WTC_MAX_STATION_NAME station)
    (replicate MAX_DESIRED_ACTUATORS zero_actuator_state) 0 (replicate WTC_MAX_PID_LOOPS zero_pid_state) 0 true false).
Definition desired_state_copy (src : desired_state) : desired_state := src.

(** ** The table *)

Definition state_reconciler_init (alloc_ok : bool) (config : option reconciler_config)
    : wtc_result * option reconciler :=
  if alloc_ok
  then (WTC_OK, Some (mk_reconciler (default (mk_reconciler_config 30000 5000 true "/var/lib/wtc/state" true) config) [] false))
  else (WTC_ERROR_NO_MEMORY, None).
Definition state_reconciler_set_conflict_callback (r : reconciler) (callback : bool) : reconciler :=
  r <| re_callback := callback |>.

Definition named (station : string) (e : state_entry) : Prop := se_station_name e = station.
#[export] Instance named_dec n e : Decision (named n e).
Proof. unfold named. apply _. Defined.

(** [find_entry] and [find_or_create_state]: the position of the entry. *)
Definition find_state (r : reconciler) (station : string) : option nat := fst <$> list_find (named station) (re_entries r).
Definition find_or_create_state (now : Z) (r : reconciler) (station : string) : option (nat * reconciler) :=
  match find_state r station with
  | Some i => Some (i, r)
  | None =>
      if (length (re_entries r) <? MAX_STATE_ENTRIES)%nat
      then Some (length (re_entries r),
                 r <| re_entries ::= fun l => l ++ [mk_state_entry (strncpy (WTC_MAX_STATION_NAME - 1) station)
                                                      (desired_state_init now station) 0] |>)
      else None
  end.
Definition on_entry (i : nat) (f : state_entry -> state_entry) (r : reconciler) : reconciler :=
  r <| re_entries ::= alter f i |>.
Definition on_state (f : desired_state -> desired_state) (e : state_entry) : state_entry := e <| se_state ::= f |>.
Definition state_at (r : reconciler) (i : nat) : option desired_state := se_state <$> re_entries r !! i.

(** The header fields of a change. *)
Definition touch (now : Z) (s : desired_state) : desired_state :=
  refresh_checksum (s <| ds_sequence ::= fun n => wrap32 (n + 1) |> <| ds_timestamp_ms := now |> <| ds_dirty := true |>).

(** The search loop over the first [count] elements of an array.  Outside the array:
    [None]. *)
Definition search {A} (P : A -> Prop) `{!forall x, Decision (P x)} (count : Z) (arr : list A) : option (option nat) :=
  match list_find P (take (Z.to_nat count) arr) with
  | Some (i, _) => Some (Some i)
  | None => if count <=? Z.of_nat (length arr) then Some None else None
  end.

(** The place of a keyed element: its own, or the next free one.  [Some None]: full;
    [None]: outside the array. *)
Definition place {A} (P : A -> Prop) `{!forall x, Decision (P x)} (count : Z) (arr : list A) (max : nat)
    : option (option (nat * Z)) :=
  match search P count arr with
  | None => None
  | Some (Some i) => Some (Some (i, count))
  | Some None => if Z.of_nat max <=? count then Some None
                 else if count <? 0 then None else Some (Some (Z.to_nat count, count + 1))
  end.

Definition at_slot (slot : Z) (a : desired_actuator) : Prop := da_slot a = slot.
#[export] Instance at_slot_dec n a : Decision (at_slot n a).
Proof. unfold at_slot. apply _. Defined.
Definition of_loop (id : Z) (p : desired_pid) : Prop := dp_loop_id p = id.
#[export] Instance of_loop_dec n a : Decision (of_loop n a).
Proof. unfold of_loop. apply _. Defined.

(** [state_set_actuator] ([None]: a read outside an array). *)
Definition state_set_actuator (clk : nat -> Z) (r : reconciler) (station : string) (slot command pwm_duty epoch : Z)
    : option (wtc_result * reconciler) :=
  if slot <? 0 then Some (WTC_ERROR_INVALID_PARAM, r)
  else
    match find_or_create_state (clk 0%nat) r station with
    | None => Some (WTC_ERROR_FULL, r)
    | Some (i, r) =>
        match state_at r i with
        | None => None
        | Some s =>
            match place (at_slot slot) (ds_actuator_count s) (ds_actuators s) MAX_DESIRED_ACTUATORS with
            | None => None
            | Some None => Some (WTC_ERROR_FULL, r)
            | Some (Some (k, count)) =>
                Some (WTC_OK, on_entry i (on_state (fun s =>
                  touch (clk 2%nat) (s <| ds_actuator_count := count |>
                    <| ds_actuators ::= alter (fun a => a <| da_slot := slot |> <| da_command := command |>
                         <| da_pwm_duty := pwm_duty |> <| da_set_time_ms := clk 1%nat |> <| da_set_epoch := epoch |>) k |>))) r)
            end
        end
    end.

(** [state_set_pid_loop] *)
Definition state_set_pid_loop (clk : nat -> Z) (r : reconciler) (station : string) (loop_id mode : Z) (setpoint : float32)
    : option (wtc_result * reconciler) :=
  if loop_id <? 0 then Some (WTC_ERROR_INVALID_PARAM, r)
  else
    match find_or_create_state (clk 0%nat) r station with
    | None => Some (WTC_ERROR_FULL, r)
    | Some (i, r) =>
        match state_at r i with
        | None => None
        | Some s =>
            match place (of_loop loop_id) (ds_pid_loop_count s) (ds_pid_loops s) WTC_MAX_PID_LOOPS with
            | None => None
            | Some None => Some (WTC_ERROR_FULL, r)
            | Some (Some (k, count)) =>
                Some (WTC_OK, on_entry i (on_state (fun s =>
                  touch (clk 2%nat) (s <| ds_pid_loop_count := count |>
                    <| ds_pid_loops ::= alter (fun p => p <| dp_loop_id := loop_id |> <| dp_mode := mode |>
                         <| dp_setpoint := setpoint |> <| dp_set_time_ms := clk 1%nat |>) k |>))) r)
            end
        end
    end.

Definition state_get_desired (r : reconciler) (station : string) : wtc_result * option desired_state :=
  match find_state r station with
  | Some i => (WTC_OK, state_at r i)
  | None => (WTC_ERROR_NOT_FOUND, None)
  end.
Definition state_get_sequence (r : reconciler) (station : string) : Z :=
  match find_state r station with
  | Some i => match state_at r i with Some s => ds_sequence s | None => 0 end
  | None => 0
  end.

(** [state_force_sync], [state_accept_rtu_state] *)
Definition state_force_sync (now : Z) (r : reconciler) (station : string) : wtc_result * reconciler :=
  match find_state r station with
  | Some i => (WTC_OK, on_entry i (on_state (fun s =>
      s <| ds_sequence ::= fun n => wrap32 (n + 1) |> <| ds_timestamp_ms := now |> <| ds_dirty := true |>)) r)
  | None => (WTC_ERROR_NOT_FOUND, r)
  end.
Definition state_accept_rtu_state (clk : nat -> Z) (r : reconciler) (station : string) (rtu : desired_state)
    : wtc_result * reconciler :=
  match find_or_create_state (clk 0%nat) r station with
  | None => (WTC_ERROR_FULL, r)
  | Some (i, r) => (WTC_OK, on_entry i (on_state (fun _ => touch (clk 1%nat) (desired_state_copy rtu))) r)
  end.

(** ** Files *)

(** [snprintf(filename, 512, "%s/%s.state", ...)] *)
Definition state_file (r : reconciler) (station : string) : string :=
  strncpy 511 (rc_persist_path (re_config r) +:+ "/" +:+ station +:+ ".state")%string.

(** What becomes of a write: the file cannot be opened; [fwrite] fails with [n] bytes in the
    file; [fwrite] takes all bytes but [fclose], whose result is ignored, gets only [n] of
    them to the file; or all bytes get there. *)
Inductive write_outcome := OpenFails | WritesOnly (n : nat) | FlushesOnly (n : nat) | WritesAll.

(** [state_snapshot] *)
Definition state_snapshot (now : Z) (w : write_outcome) (r : reconciler) (fs : files) (station : string)
    : wtc_result * reconciler * files :=
  if negb (rc_persist_to_disk (re_config r)) then (WTC_OK, r, fs)
  else
    match find_state r station with
    | None => (WTC_ERROR_NOT_FOUND, r, fs)
    | Some i =>
        let r := on_entry i (on_state refresh_checksum) r in
        let image := match state_at r i with Some s => state_bytes s | None => [] end in
        match w with
        | OpenFails => (WTC_ERROR_IO, r, fs)
        | WritesOnly n => (WTC_ERROR_IO, r, <[state_file r station := take n image]> fs)
        | FlushesOnly _ | WritesAll =>
            let stored := match w with FlushesOnly n => take n image | _ => image end in
            (WTC_OK, on_entry i (fun e => on_state (fun s => s <| ds_dirty := false |>) e <| se_last_snapshot_ms := now |>) r,
             <[state_file r station := stored]> fs)
        end
    end.

(** [state_restore] *)
Definition state_restore (now : Z) (r : reconciler) (fs : files) (station : string) : wtc_result * reconciler :=
  match fs !! state_file r station with
  | None => (WTC_ERROR_NOT_FOUND, r)
  | Some data =>
      if (length data <? STATE_SIZE)%nat then (WTC_ERROR_IO, r)
      else
        let image := take STATE_SIZE data in
        let loaded := state_of_bytes image in
        if negb (ds_checksum loaded =? image_checksum image) then (WTC_ERROR_PROTOCOL, r)
        else if negb (ds_version loaded =? STATE_RECONCILIATION_VERSION) then (WTC_ERROR_PROTOCOL, r)
        else
          match find_or_create_state now r station with
          | None => (WTC_ERROR_FULL, r)
          | Some (i, r) => (WTC_OK, on_entry i (on_state (fun _ => (desired_state_copy loaded) <| ds_dirty := false |>)) r)
          end
  end.

(** [state_reconciler_cleanup] takes the lock and calls [state_snapshot], which takes it
    again: [None] is the call that never returns. *)
Definition state_reconciler_cleanup (r : reconciler) : option unit :=
  if rc_persist_to_disk (re_config r) && existsb (fun e => ds_dirty (se_state e)) (re_entries r)
  then None else Some tt.

(** ** Reconciliation *)

(** One desired element against the elements reported: [Some true] is a conflict. *)
Definition compare_one {A} (same_key : A -> A -> Prop) `{!forall x y, Decision (same_key x y)} (differs : A -> A -> bool)
    (reported : option (Z * list A)) (d : A) : option bool :=
  match reported with
  | None => Some false
  | Some (count, arr) =>
      match search (same_key d) count arr with
      | None => None
      | Some None => Some false
      | Some (Some j) => match arr !! j with Some x => Some (differs x d) | None => None end
      end
  end.

(** A comparison loop: the desired elements in conflict, in order, with their number and
    that of the rest. *)
Fixpoint compare_all {A} (compare : A -> option bool) (l : list A) : option (list A * Z) :=
  match l with
  | [] => Some ([], 0)
  | d :: l =>
      match compare d, compare_all compare l with
      | Some true, Some (cs, n) => Some (d :: cs, n)
      | Some false, Some (cs, n) => Some (cs, n + 1)
      | _, _ => None
      end
  end.
Definition desired_part {A} (count : Z) (arr : list A) : option (list A) :=
  if count <=? Z.of_nat (length arr) then Some (take (Z.to_nat count) arr) else None.

Definition same_slot (d x : desired_actuator) : Prop := da_slot x = da_slot d.
#[export] Instance same_slot_dec d x : Decision (same_slot d x).
Proof. unfold same_slot. apply _. Defined.
Definition same_loop (d x : desired_pid) : Prop := dp_loop_id x = dp_loop_id d.
#[export] Instance same_loop_dec d x : Decision (same_loop d x).
Proof. unfold same_loop. apply _. Defined.
Definition actuator_differs (x d : desired_actuator) : bool :=
  negb (da_command x =? da_command d) || negb (da_pwm_duty x =? da_pwm_duty d).
Definition pid_differs (x d : desired_pid) : bool :=
  negb (dp_mode x =? dp_mode d) || negb (feq (dp_setpoint x) (dp_setpoint d)).

Definition reported_actuators (s : desired_state) : Z * list desired_actuator := (ds_actuator_count s, ds_actuators s).
Definition reported_loops (s : desired_state) : Z * list desired_pid := (ds_pid_loop_count s, ds_pid_loops s).

(** [state_reconcile]: the result and the slots the conflict callback is called with
    ([None]: a read outside an array). *)
Definition state_reconcile (clk : nat -> Z) (r : reconciler) (station : string) (actual : option desired_state)
    : option (wtc_result * reconciliation_result * list Z) :=
  match find_state r station with
  | None => Some (WTC_OK, mk_reconciliation_result 0 0 0 0 0 true, [])
  | Some i =>
      match state_at r i with
      | None => None
      | Some s =>
          match desired_part (ds_actuator_count s) (ds_actuators s), desired_part (ds_pid_loop_count s) (ds_pid_loops s) with
          | Some acts, Some pids =>
              match compare_all (compare_one same_slot actuator_differs (reported_actuators <$> actual)) acts,
                    compare_all (compare_one same_loop pid_differs (reported_loops <$> actual)) pids with
              | Some (ca, na), Some (cp, np) =>
                  let va := Z.of_nat (length ca) in
                  let vp := Z.of_nat (length cp) in
                  Some (WTC_OK, mk_reconciliation_result na va np vp (u64_sub (clk 1%nat) (clk 0%nat)) ((va =? 0) && (vp =? 0)),
                        if re_callback r then da_slot <$> ca else [])
              | _, _ => None
              end
          | _, _ => None
          end
      end
  end.

(** ** Theorems: the memory image *)

Definition actuator_wf (a : desired_actuator) : Prop :=
  - 2 ^ 31 <= da_slot a < 2 ^ 31 /\ - 2 ^ 31 <= da_command a < 2 ^ 31 /\ is_u64 (da_set_time_ms a) /\ is_u32 (da_set_epoch a).
Definition pid_wf (p : desired_pid) : Prop :=
  - 2 ^ 31 <= dp_loop_id p < 2 ^ 31 /\ - 2 ^ 31 <= dp_mode p < 2 ^ 31 /\ valid32 (dp_setpoint p) = true /\
  valid32 (dp_manual_output p) = true /\ is_u64 (dp_set_time_ms p).
Record state_wf (s : desired_state) : Prop := {
  sw_version : is_u32 (ds_version s);
  sw_sequence : is_u32 (ds_sequence s);
  sw_checksum : is_u32 (ds_checksum s);
  sw_timestamp : is_u64 (ds_timestamp_ms s);
  sw_name : length (ds_station_name s) = 64%nat;
  sw_actuators : length (ds_actuators s) = 64%nat;
  sw_actuators_wf : Forall actuator_wf (ds_actuators s);
  sw_actuator_count : 0 <= ds_actuator_count s <= 64;
  sw_pids : length (ds_pid_loops s) = 64%nat;
  sw_pids_wf : Forall pid_wf (ds_pid_loops s);
  sw_pid_count : 0 <= ds_pid_loop_count s <= 64 }.

Lemma int_back v : - 2 ^ 31 <= v < 2 ^ 31 -> to_i32 (of_mem_bytes (int_bytes v)) = v.
Proof.
  intros Hv. unfold int_bytes. rewrite of_mem_bytes_value by (apply wrap32_range).
  unfold to_i32, wrap32. destruct (Z.ltb_spec (v mod 2 ^ 32) (2 ^ 31)); Z.div_mod_to_equations; lia.
Qed.
Lemma u32_back v : is_u32 v -> of_mem_bytes (mem_bytes 4 v) = v.
Proof. intros Hv. by apply of_mem_bytes_value. Qed.
Lemma u64_back v : is_u64 v -> of_mem_bytes (mem_bytes 8 v) = v.
Proof. intros Hv. by apply of_mem_bytes_value. Qed.
Lemma float_back x : valid32 x = true -> f32_of_bits (of_mem_bytes (mem_bytes 4 (bits_of_f32 x))) = x.
Proof. intros Hx. rewrite u32_back by (by apply bits_of_f32_range). by apply f32_bits_roundtrip. Qed.

Lemma actuator_image_back a : actuator_wf a -> actuator_of_image (actuator_image a) = a.
Proof.
  destruct a as [sl c p f t e]. intros (H1 & H2 & H3 & H4). cbn in H1, H2, H3, H4.
  unfold actuator_of_image, actuator_image. cbn [da_slot da_command da_pwm_duty da_forced da_set_time_ms da_set_epoch]. f_equal.
  - exact (int_back sl H1).
  - exact (int_back c H2).
  - by destruct f.
  - exact (u64_back t H3).
  - exact (u32_back e H4).
Qed.
Lemma pid_image_back p : pid_wf p -> pid_of_image (pid_image p) = p.
Proof.
  destruct p as [id m sp mo t]. intros (H1 & H2 & H3 & H4 & H5). cbn in H1, H2, H3, H4, H5.
  unfold pid_of_image, pid_image. cbn [dp_loop_id dp_mode dp_setpoint dp_manual_output dp_set_time_ms]. f_equal.
  - exact (int_back id H1).
  - exact (int_back m H2).
  - exact (float_back sp H3).
  - exact (float_back mo H4).
  - exact (u64_back t H5).
Qed.

Lemma array_back {A} (image : A -> list Z) (back : list Z -> A) (wf : A -> Prop) size (l : list A) rest :
  (forall x, length (image x) = size) -> (forall x, wf x -> back (image x) = x) -> Forall wf l ->
  array_at back size (length l) (concat (image <$> l) ++ rest) = l.
Proof.
  intros Hs Hb. induction 1 as [|x l Hx _ IH]; [done|]. rewrite fmap_cons. cbn [length array_at concat].
  rewrite <- app_assoc, take_app_length', drop_app_length' by done. by rewrite Hb, IH.
Qed.
Lemma length_images {A} (image : A -> list Z) size (l : list A) :
  (forall x, length (image x) = size) -> length (concat (image <$> l)) = (length l * size)%nat.
Proof. intros Hs. induction l as [|x l IH]; [done|]. rewrite fmap_cons. cbn [concat length]. rewrite length_app, Hs, IH. lia. Qed.

(** The parts of the image in order; skipping the first ones. *)
Definition state_parts (s : desired_state) : list (list Z) :=
  [mem_bytes 4 (ds_version s); mem_bytes 4 (ds_sequence s); mem_bytes 4 (ds_checksum s); [0; 0; 0; 0];
   mem_bytes 8 (ds_timestamp_ms s); ds_station_name s; concat (actuator_image <$> ds_actuators s);
   int_bytes (ds_actuator_count s); [0; 0; 0; 0]; concat (pid_image <$> ds_pid_loops s); int_bytes (ds_pid_loop_count s);
   [bool_byte (ds_valid s); bool_byte (ds_dirty s); 0; 0]].
Lemma state_bytes_parts s : state_bytes s = concat (state_parts s).
Proof. unfold state_bytes, state_head, state_tail, state_parts. cbn [concat]. by rewrite <- !app_assoc, app_nil_r. Qed.

Lemma drop_parts (k off : nat) (parts : list (list Z)) :
  foldr (fun p n => length p + n)%nat 0%nat (take k parts) = off ->
  drop off (concat parts) = concat (drop k parts).
Proof.
  intros <-. revert k. induction parts as [|p parts IH]; intros [|k]; try done.
  cbn [take foldr concat drop]. rewrite <- drop_drop, drop_app_length. apply IH.
Qed.

Section Image.
Context (s : desired_state) (Hs : state_wf s).

Lemma part_lengths : length <$> state_parts s = [4; 4; 4; 4; 8; 64; 2048; 4; 4; 1536; 4; 4]%nat.
Proof.
  unfold state_parts. cbn [fmap list_fmap]. rewrite !(length_images _ 32), !(length_images _ 24) by done.
  by rewrite (sw_name s Hs), (sw_actuators s Hs), (sw_pids s Hs).
Qed.

Lemma parts_drop (k off : nat) :
  foldr Nat.add 0%nat (take k [4; 4; 4; 4; 8; 64; 2048; 4; 4; 1536; 4; 4]%nat) = off ->
  drop off (state_bytes s) = concat (drop k (state_parts s)).
Proof.
  intros <-. rewrite state_bytes_parts. apply drop_parts. rewrite <- part_lengths, <- fmap_take.
  generalize (take k (state_parts s)). intros l. induction l as [|p l IH]; [done|]. cbn. by rewrite IH.
Qed.

Lemma length_state_bytes : length (state_bytes s) = STATE_SIZE.
Proof.
  rewrite state_bytes_parts. transitivity (foldr Nat.add 0%nat (length <$> state_parts s)).
  - generalize (state_parts s). intros l. induction l as [|p l IH]; [done|]. cbn. by rewrite length_app, IH.
  - by rewrite part_lengths.
Qed.

Lemma bool_at_drop off l : bool_at off l = bool_at 0 (drop off l).
Proof. unfold bool_at. by rewrite !nth_lookup, lookup_drop, Nat.add_0_r. Qed.
Lemma bool_back b l : bool_at 0 (bool_byte b :: l) = b.
Proof. by destruct b. Qed.

Lemma state_image_back : state_of_bytes (state_bytes s) = s.
Proof.
  destruct Hs as [H1 H2 H3 H4 H5 H6 H7 H8 H9 H10 H11].
  transitivity (mk_desired_state (ds_version s) (ds_sequence s) (ds_checksum s) (ds_timestamp_ms s) (ds_station_name s)
    (ds_actuators s) (ds_actuator_count s) (ds_pid_loops s) (ds_pid_loop_count s) (ds_valid s) (ds_dirty s)); [|by destruct s].
  unfold state_of_bytes. f_equal.
  - unfold u32_at. rewrite (parts_drop 0 0) by reflexivity. by apply u32_back.
  - unfold u32_at. rewrite (parts_drop 1 4) by reflexivity. by apply u32_back.
  - unfold u32_at. rewrite (parts_drop 2 8) by reflexivity. by apply u32_back.
  - unfold u64_at. rewrite (parts_drop 4 16) by reflexivity. by apply u64_back.
  - rewrite (parts_drop 5 24) by reflexivity. by apply take_app_length'.
  - rewrite (parts_drop 6 88), <- H6 by reflexivity. apply (array_back _ _ actuator_wf); [done|apply actuator_image_back|done].
  - unfold int_at. rewrite (parts_drop 7 2136) by reflexivity. apply int_back. lia.
  - rewrite (parts_drop 9 2144), <- H9 by reflexivity. apply (array_back _ _ pid_wf); [done|apply pid_image_back|done].
  - unfold int_at. rewrite (parts_drop 10 3680) by reflexivity. apply int_back. lia.
  - rewrite bool_at_drop, (parts_drop 11 3684) by reflexivity. apply bool_back.
  - rewrite bool_at_drop. assert (drop 3685 (state_bytes s) = drop 1 (drop 3684 (state_bytes s))) as -> by (by rewrite drop_drop).
    rewrite (parts_drop 11 3684) by reflexivity. apply bool_back.
Qed.

(** The checksum field does not count. *)
Lemma checksum_of_image c :
  image_checksum (state_bytes (s <| ds_checksum := c |>)) = state_compute_checksum s.
Proof. done. Qed.
Lemma checksum_u32 : is_u32 (state_compute_checksum s).
Proof. unfold state_compute_checksum, image_checksum, crc32. apply (lxor_range 32); [lia| |lia]. apply crc32_update_range. unfold is_u32. lia. Qed.
Lemma refresh_wf : state_wf (refresh_checksum s).
Proof. destruct Hs. split; try done. cbn. apply checksum_u32. Qed.
Lemma refresh_valid : state_validate_checksum (refresh_checksum s) = true.
Proof. unfold state_validate_checksum. change (state_compute_checksum (refresh_checksum s)) with (state_compute_checksum s). apply Z.eqb_refl. Qed.
End Image.

(** ** Theorem: what is saved is restored *)

Lemma find_or_create_find now r station i r' :
  (String.length station < WTC_MAX_STATION_NAME)%nat ->
  find_or_create_state now r station = Some (i, r') ->
  find_state r' station = Some i /\ is_Some (re_entries r' !! i) /\ re_config r' = re_config r /\
  (r' = r \/ find_state r station = None /\
     re_entries r' = re_entries r ++ [mk_state_entry station (desired_state_init now station) 0]).
Proof.
  intros Hlen. unfold find_or_create_state. destruct (find_state r station) as [j|] eqn:E.
  - intros [= <- <-]. split_and!; try done; [|by left]. unfold find_state in E.
    destruct (list_find _ _) as [[k e]|] eqn:El; [|done]. injection E as <-.
    apply list_find_Some in El as (El & _). by rewrite El.
  - destruct (_ <? _)%nat; [|done]. intros [= <- <-]. rewrite strncpy_fits by (unfold WTC_MAX_STATION_NAME in *; lia).
    unfold find_state in E |- *. cbn [re_entries re_config set]. destruct (list_find _ (re_entries r)) eqn:El; [done|]. split_and!; try done.
    + rewrite list_find_app_r by done. cbn [list_find]. rewrite decide_True by done. cbn. f_equal; lia.
    + rewrite lookup_snoc_eq. done.
    + by right.
Qed.

Lemma find_state_lookup r station i :
  find_state r station = Some i -> exists e, re_entries r !! i = Some e /\ se_station_name e = station.
Proof.
  unfold find_state. destruct (list_find _ _) as [[k e]|] eqn:El; [|done]. intros [= <-].
  apply list_find_Some in El as (El & Hn & _). eauto.
Qed.

(** Changing the state of an entry moves no entry. *)
Lemma find_on_entry i f r station :
  (forall e, se_station_name (f e) = se_station_name e) ->
  find_state (on_entry i f r) station = find_state r station.
Proof.
  intros Hf. unfold find_state, on_entry. cbn [re_entries set]. generalize (re_entries r). intros l. revert i.
  induction l as [|e l IH]; intros i; [done|]. destruct i as [|i]; cbn [alter list_alter list_find].
  - destruct (decide (named station (f e))) as [H1|H1], (decide (named station e)) as [H2|H2];
      unfold named in H1, H2; rewrite Hf in H1; done || congruence.
  - destruct (decide (named station e)); [done|]. specialize (IH i). change (list_alter f i l) with (alter f i l).
    clear Hf. set (x := list_find (named station) (alter f i l)) in *. set (y := list_find (named station) l) in *. clearbody x y.
    destruct x as [[? ?]|], y as [[? ?]|]; cbn in *; congruence.
Qed.
Lemma state_at_on_entry i f r s :
  state_at r i = Some s -> state_at (on_entry i (on_state f) r) i = Some (f s).
Proof.
  unfold state_at, on_entry. cbn [re_entries set]. rewrite list_lookup_alter_eq.
  destruct (re_entries r !! i) as [e|]; [|done]. cbn. by intros [= <-].
Qed.

(** C34: Power loss: after a snapshot of a station whose bytes all reach the file (see
    [FlushesOnly] for the other case) any reconciler that uses the
    same directory and has room restores exactly the saved state, with a fresh checksum
    and no changes pending. *)
Theorem snapshot_restore_roundtrip now now' r r2 fs station i s :
  rc_persist_to_disk (re_config r) = true -> find_state r station = Some i -> state_at r i = Some s ->
  state_wf s -> ds_version s = STATE_RECONCILIATION_VERSION ->
  (String.length station < WTC_MAX_STATION_NAME)%nat ->
  rc_persist_path (re_config r2) = rc_persist_path (re_config r) -> (length (re_entries r2) < MAX_STATE_ENTRIES)%nat ->
  let '(res, _, fs') := state_snapshot now WritesAll r fs station in
  let '(res2, r2') := state_restore now' r2 fs' station in
  res = WTC_OK /\ res2 = WTC_OK /\
  state_get_desired r2' station = (WTC_OK, Some ((refresh_checksum s) <| ds_dirty := false |>)).
Proof.
  intros Hp Hf Hs Hwf Hv Hlen Hpath Hroom. unfold state_snapshot. rewrite Hp, Hf. cbn [negb].
  rewrite (state_at_on_entry i refresh_checksum r s Hs).
  assert (state_file (on_entry i (on_state refresh_checksum) r) station = state_file r2 station) as ->.
  { unfold state_file, on_entry. cbn [re_config set]. by rewrite Hpath. }
  cbv beta iota zeta. unfold state_restore.
  match goal with |- context [(<[?k := ?v]> fs) !! ?k] =>
    assert ((<[k := v]> fs) !! k = Some v) as -> by apply lookup_insert_eq end.
  pose proof (refresh_wf s Hwf) as Hwf'. pose proof (length_state_bytes _ Hwf') as Hl.
  rewrite (proj2 (Nat.ltb_ge _ _)) by lia. rewrite (take_ge (state_bytes _)) by lia.
  rewrite (state_image_back _ Hwf').
  assert (ds_checksum (refresh_checksum s) =? image_checksum (state_bytes (refresh_checksum s)) = true) as ->
    by (apply (refresh_valid s)).
  assert (ds_version (refresh_checksum s) =? STATE_RECONCILIATION_VERSION = true) as -> by (by apply Z.eqb_eq).
  cbn [negb].
  destruct (find_or_create_state now' r2 station) as [[j r3]|] eqn:Ec.
  - apply find_or_create_find in Ec as (Hj & [e He] & _ & _); [|done]. split_and!; try done.
    unfold state_get_desired. rewrite find_on_entry by done. rewrite Hj.
    by rewrite (state_at_on_entry j _ r3 (se_state e)) by (unfold state_at; by rewrite He).
  - unfold find_or_create_state in Ec. destruct (find_state r2 station); [done|].
    rewrite (proj2 (Nat.ltb_lt _ _)) in Ec by done. done.
Qed.

(** ** Theorems: conflicts *)

(** What an RTU reports under the key of [d]: the first element that has it. *)
Definition in_conflict {A} (same_key : A -> A -> Prop) `{!forall x y, Decision (same_key x y)} (differs : A -> A -> bool)
    (reported : option (list A)) (d : A) : bool :=
  match reported with
  | None => false
  | Some l => match find_entry (same_key d) l with Some x => differs x d | None => false end
  end.

Lemma search_find {A} (P : A -> Prop) `{!forall x, Decision (P x)} count arr :
  count <= Z.of_nat (length arr) ->
  search P count arr = Some (fst <$> list_find P (take (Z.to_nat count) arr)).
Proof.
  intros Hc. unfold search. destruct (list_find _ _) as [[i x]|]; [done|]. by rewrite (proj2 (Z.leb_le _ _)).
Qed.

Lemma compare_one_spec {A} (same_key : A -> A -> Prop) `{!forall x y, Decision (same_key x y)} differs count (arr : list A) d :
  count <= Z.of_nat (length arr) ->
  compare_one same_key differs (Some (count, arr)) d
  = Some (in_conflict same_key differs (Some (take (Z.to_nat count) arr)) d).
Proof.
  intros Hc. unfold compare_one, in_conflict, find_entry. rewrite search_find by done.
  destruct (list_find _ _) as [[j x]|] eqn:E; [|done]. cbn.
  apply list_find_Some in E as (E & _). apply lookup_take_Some in E as [E _]. by rewrite E.
Qed.

Lemma compare_all_spec {A} (compare : A -> option bool) (conflict : A -> bool) (l : list A) :
  (forall d, compare d = Some (conflict d)) ->
  compare_all compare l
  = Some (filter (fun d => conflict d = true) l, Z.of_nat (length (filter (fun d => conflict d = false) l))).
Proof.
  intros Hc. induction l as [|d l IH]; [done|]. cbn [compare_all]. rewrite Hc, IH, !filter_cons.
  destruct (conflict d).
  - rewrite (decide_True (P := true = true)), (decide_False (P := true = false)) by done. done.
  - rewrite (decide_False (P := false = true)), (decide_True (P := false = false)) by done. cbn [length]. do 2 f_equal. lia.
Qed.

Definition actuators_of (s : desired_state) : list desired_actuator := take (Z.to_nat (ds_actuator_count s)) (ds_actuators s).
Definition loops_of (s : desired_state) : list desired_pid := take (Z.to_nat (ds_pid_loop_count s)) (ds_pid_loops s).
Definition counts_ok (s : desired_state) : Prop :=
  ds_actuator_count s <= Z.of_nat (length (ds_actuators s)) /\ ds_pid_loop_count s <= Z.of_nat (length (ds_pid_loops s)).

(** Reconciliation: an actuator or loop is in conflict exactly when the RTU reports a
    different command, duty, mode or set point for it; the others count as synchronised,
    also those the RTU does not report; it succeeds exactly without conflicts, and the
    callback hears of every actuator in conflict, in order. *)
Theorem reconcile_conflicts clk r station i s actual :
  find_state r station = Some i -> state_at r i = Some s -> counts_ok s -> (forall t, actual = Some t -> counts_ok t) ->
  let act d := in_conflict same_slot actuator_differs (actuators_of <$> actual) d in
  let pid d := in_conflict same_loop pid_differs (loops_of <$> actual) d in
  exists res, state_reconcile clk r station actual
    = Some (WTC_OK, res, if re_callback r then da_slot <$> filter (fun d => act d = true) (actuators_of s) else []) /\
  rr_actuators_conflicted res = Z.of_nat (length (filter (fun d => act d = true) (actuators_of s))) /\
  rr_actuators_synced res = Z.of_nat (length (filter (fun d => act d = false) (actuators_of s))) /\
  rr_pid_loops_conflicted res = Z.of_nat (length (filter (fun d => pid d = true) (loops_of s))) /\
  rr_pid_loops_synced res = Z.of_nat (length (filter (fun d => pid d = false) (loops_of s))) /\
  (rr_success res = true <-> Forall (fun d => act d = false) (actuators_of s) /\ Forall (fun d => pid d = false) (loops_of s)).
Proof.
  intros Hf Hs [Hca Hcp] Ht act pid. unfold state_reconcile. rewrite Hf, Hs.
  unfold desired_part. rewrite !(proj2 (Z.leb_le _ _)) by done.
  rewrite (compare_all_spec _ act), (compare_all_spec _ pid).
  - eexists. split; [reflexivity|]. split_and!; try done. cbn [rr_success].
    rewrite andb_true_iff, !Z.eqb_eq. fold (actuators_of s) (loops_of s).
    assert (forall A (f : A -> bool) (l : list A), Z.of_nat (length (filter (fun d => f d = true) l)) = 0 <-> Forall (fun d => f d = false) l) as Hnone.
    { intros A f l. induction l as [|x l IH]; [split; [constructor|done]|]. rewrite filter_cons, Forall_cons.
      destruct (f x); [rewrite decide_True by done|rewrite decide_False by done]; cbn [length]; [|tauto].
      split; [lia|]. by intros [? _]. }
    by rewrite (Hnone _ act), (Hnone _ pid).
  - intros d. unfold pid. destruct actual as [t|]; [|done]. destruct (Ht t eq_refl) as [_ H2]. by apply compare_one_spec.
  - intros d. unfold act. destruct actual as [t|]; [|done]. destruct (Ht t eq_refl) as [H1 _]. by apply compare_one_spec.
Qed.

(** ** Theorems: recording desired values *)

Record reconciler_ok (r : reconciler) : Prop := {
  ro_count : (length (re_entries r) <= MAX_STATE_ENTRIES)%nat;
  ro_names : NoDup (se_station_name <$> re_entries r);
  ro_states : Forall (fun e => state_wf (se_state e)) (re_entries r) }.

Lemma init_state_wf now station : is_u64 now -> state_wf (desired_state_init now station).
Proof.
  intros Hn. unfold desired_state_init. set (s := mk_desired_state _ _ _ _ _ _ _ _ _ _ _).
  apply refresh_wf. split; cbn [s ds_version ds_sequence ds_checksum ds_timestamp_ms ds_station_name ds_actuators
    ds_actuator_count ds_pid_loops ds_pid_loop_count].
  - unfold is_u32, STATE_RECONCILIATION_VERSION. lia.
  - unfold is_u32. lia.
  - unfold is_u32. lia.
  - exact Hn.
  - apply char_array_length. unfold WTC_MAX_STATION_NAME. lia.
  - apply length_replicate.
  - apply Forall_replicate. unfold actuator_wf, is_u64, is_u32. cbn. lia.
  - lia.
  - apply length_replicate.
  - apply Forall_replicate. unfold pid_wf, is_u64. cbn. repeat split; lia || done.
  - lia.
Qed.

Lemma touch_wf now s : is_u64 now -> state_wf s -> state_wf (touch now s).
Proof. intros Hn [H1 H2 H3 H4 H5 H6 H7 H8 H9 H10 H11]. apply refresh_wf. split; try done. cbn. apply wrap32_range. Qed.
Lemma touch_valid now s : state_validate_checksum (touch now s) = true.
Proof. apply refresh_valid. Qed.

Lemma find_or_create_ok now r station i r' :
  is_u64 now -> reconciler_ok r -> (String.length station < WTC_MAX_STATION_NAME)%nat ->
  find_or_create_state now r station = Some (i, r') ->
  reconciler_ok r' /\ exists s, state_at r' i = Some s /\ state_wf s.
Proof.
  intros Hn [H1 H2 H3] Hlen Hc. pose proof (find_or_create_find now r station i r' Hlen Hc) as (Hi & [e He] & _ & Hr).
  assert (reconciler_ok r') as Hok.
  { destruct Hr as [->|[Hno Hr]]; [by split|]. unfold find_or_create_state in Hc. rewrite Hno in Hc.
    destruct (Nat.ltb_spec (length (re_entries r)) MAX_STATE_ENTRIES); [|done].
    split; rewrite Hr.
    - rewrite length_app. cbn. lia.
    - rewrite fmap_app. apply NoDup_app. split; [done|]. split; [|apply NoDup_singleton].
      intros x (e' & -> & He')%list_elem_of_fmap Hx. cbn in Hx. apply list_elem_of_singleton in Hx.
      unfold find_state in Hno. destruct (list_find _ _) eqn:El; [done|]. apply list_find_None_iff in El.
      rewrite Forall_forall in El. by apply (El e').
    - apply Forall_app. split; [done|]. constructor; [by apply init_state_wf|constructor]. }
  split; [done|]. exists (se_state e). unfold state_at. rewrite He. split; [done|].
  destruct Hok as [_ _ Hst]. rewrite Forall_lookup in Hst. by eapply Hst.
Qed.

Lemma on_entry_ok i f r s :
  reconciler_ok r -> state_at r i = Some s -> state_wf (f s) -> reconciler_ok (on_entry i (on_state f) r).
Proof.
  intros [H1 H2 H3] Hs Hw. unfold on_entry. split; cbn [re_entries set].
  - by rewrite length_alter.
  - assert (se_station_name <$> alter (on_state f) i (re_entries r) = se_station_name <$> re_entries r) as ->; [|done].
    apply list_eq. intros j. rewrite !list_lookup_fmap, list_lookup_alter. destruct (decide (i = j)) as [->|]; [|done].
    by destruct (re_entries r !! j).
  - apply Forall_lookup_2. intros j e. rewrite list_lookup_alter. destruct (decide (i = j)) as [->|Hne].
    + unfold state_at in Hs. destruct (re_entries r !! j) as [e0|]; [|done]. injection Hs as <-. by intros [= <-].
    + intros He. rewrite Forall_lookup in H3. by eapply H3.
Qed.

(** The place found is inside the array and, if new, just behind the elements used. *)
Lemma place_inside {A} (P : A -> Prop) `{!forall x, Decision (P x)} count arr max :
  0 <= count <= Z.of_nat max -> length arr = max ->
  (exists k x, place P count arr max = Some (Some (k, count)) /\ list_find P (take (Z.to_nat count) arr) = Some (k, x) /\
     (k < Z.to_nat count)%nat) \/
  (list_find P (take (Z.to_nat count) arr) = None /\
   place P count arr max = if count <? Z.of_nat max then Some (Some (Z.to_nat count, count + 1)) else Some None).
Proof.
  intros Hc Hl. unfold place. rewrite search_find by lia. destruct (list_find _ _) as [[k x]|] eqn:E; cbn [fmap option_fmap option_map fst].
  - left. exists k, x. split_and!; try done. apply list_find_Some in E as (E & _). apply lookup_take_Some in E as [_ E]. done.
  - right. split; [done|]. destruct (Z.leb_spec (Z.of_nat max) count), (Z.ltb_spec count (Z.of_nat max)); try lia; [done|].
    by rewrite (proj2 (Z.ltb_ge _ _)) by lia.
Qed.

(** After the write the element found under the key is the one written. *)
Lemma find_after_write {A} (P : A -> Prop) `{!forall x, Decision (P x)} (f : A -> A) k (count : nat) (arr : list A) x :
  (forall y, P (f y)) -> (k < count)%nat -> arr !! k = Some x ->
  (forall j y, (j < k)%nat -> arr !! j = Some y -> ~ P y) ->
  find_entry P (take count (alter f k arr)) = Some (f x).
Proof.
  intros Hf Hk Hx Hno. unfold find_entry.
  assert (list_find P (take count (alter f k arr)) = Some (k, f x)) as ->; [|done].
  apply list_find_Some. split_and!.
  - rewrite lookup_take_lt, list_lookup_alter_eq, Hx by lia. done.
  - apply Hf.
  - intros j y Hy Hj. apply lookup_take_Some in Hy as [Hy _]. rewrite list_lookup_alter_ne in Hy by lia. by eapply Hno.
Qed.

Lemma place_write {A} (P : A -> Prop) `{!forall x, Decision (P x)} (f : A -> A) count (arr : list A) max k count' :
  0 <= count <= Z.of_nat max -> length arr = max -> (forall y, P (f y)) ->
  place P count arr max = Some (Some (k, count')) ->
  0 <= count' <= Z.of_nat max /\
  exists x, arr !! k = Some x /\ find_entry P (take (Z.to_nat count') (alter f k arr)) = Some (f x).
Proof.
  intros Hc Hl Hf Hp.
  destruct (place_inside P count arr max Hc Hl) as [(k' & x & Hp' & Hfind & Hk)|[Hno Hp']]; rewrite Hp' in Hp.
  - injection Hp as <- <-. split; [done|]. exists x. apply list_find_Some in Hfind as (E & HP & Hb).
    apply lookup_take_Some in E as [E _]. split; [done|]. apply find_after_write; try done.
    intros j y Hj Hy. apply (Hb j y); [|done]. by rewrite lookup_take_lt by lia.
  - destruct (Z.ltb_spec count (Z.of_nat max)); [|done]. injection Hp as <- <-. split; [lia|].
    destruct (lookup_lt_is_Some_2 arr (Z.to_nat count)) as [x Hx]; [lia|]. exists x. split; [done|].
    apply find_after_write; try done; [lia|].
    intros j y Hj Hy. apply list_find_None_iff in Hno. rewrite Forall_lookup in Hno. apply (Hno j).
    by rewrite lookup_take_lt by lia.
Qed.

Lemma Forall_alter_wf {A} (Q : A -> Prop) f k (l : list A) :
  Forall Q l -> (forall x, Q x -> Q (f x)) -> Forall Q (alter f k l).
Proof.
  intros Hl Hf. apply Forall_lookup_2. intros j y. rewrite Forall_lookup in Hl. rewrite list_lookup_alter.
  destruct (decide (k = j)) as [->|]; [|by apply Hl].
  destruct (l !! j) as [x|] eqn:E; [|done]. intros [= <-]. apply Hf. by eapply Hl.
Qed.

(** An entry other than the one changed. *)
Lemma get_other i f r station other :
  find_state r station = Some i -> other <> station ->
  state_get_desired (on_entry i (on_state f) r) other = state_get_desired r other.
Proof.
  intros Hi Hne. unfold state_get_desired. rewrite find_on_entry by done.
  destruct (find_state r other) as [j|] eqn:Ej; [|done].
  apply find_state_lookup in Hi as (e & He & Hn). apply find_state_lookup in Ej as (e' & He' & Hn').
  assert (i <> j) as Hij by (intros ->; congruence).
  unfold state_at, on_entry. cbn [re_entries set]. by rewrite list_lookup_alter_ne.
Qed.

Lemma get_created now r station i r' other :
  (String.length station < WTC_MAX_STATION_NAME)%nat ->
  find_or_create_state now r station = Some (i, r') -> other <> station ->
  state_get_desired r' other = state_get_desired r other.
Proof.
  intros Hlen Hc Hne. apply find_or_create_find in Hc as (_ & _ & _ & [->|[_ He]]); [done| |done].
  unfold state_get_desired, find_state, state_at. rewrite He.
  destruct (list_find (named other) (re_entries r)) as [[j e]|] eqn:E.
  - rewrite (list_find_app_l _ _ _ _ _ E). cbn. apply list_find_Some in E as (E & _).
    rewrite lookup_app_l by (by eapply lookup_lt_Some). done.
  - rewrite list_find_app_r by done. cbn [list_find]. rewrite decide_False by (unfold named; cbn; congruence). done.
Qed.

(** A command recorded as desired: unless the tables are full it is stored under its
    slot in the state of its station, with a valid checksum and marked unsaved, no other
    station changes, and nothing is accessed outside an array. *)
Theorem set_actuator_stored clk r station slot command pwm epoch :
  reconciler_ok r -> (String.length station < WTC_MAX_STATION_NAME)%nat ->
  0 <= slot < 2 ^ 31 -> - 2 ^ 31 <= command < 2 ^ 31 -> is_u32 epoch -> (forall k, is_u64 (clk k)) ->
  exists res r', state_set_actuator clk r station slot command pwm epoch = Some (res, r') /\ reconciler_ok r' /\
    (forall other, other <> station -> state_get_desired r' other = state_get_desired r other) /\
    (res = WTC_OK \/ res = WTC_ERROR_FULL) /\
    (res = WTC_OK -> exists s a, state_get_desired r' station = (WTC_OK, Some s) /\
       find_entry (at_slot slot) (actuators_of s) = Some a /\
       da_command a = command /\ da_pwm_duty a = pwm /\ da_set_epoch a = epoch /\
       state_validate_checksum s = true /\ ds_dirty s = true).
Proof.
  intros Hok Hlen Hslot Hcmd Hep Hclk. unfold state_set_actuator. rewrite (proj2 (Z.ltb_ge _ _)) by lia.
  destruct (find_or_create_state (clk 0%nat) r station) as [[i r1]|] eqn:Ec.
  2:{ exists WTC_ERROR_FULL, r. split_and!; try done. by right. }
  destruct (find_or_create_ok _ _ _ _ _ (Hclk 0%nat) Hok Hlen Ec) as (Hok1 & s & Hs & Hw).
  pose proof (find_or_create_find _ _ _ _ _ Hlen Ec) as (Hi & _). rewrite Hs.
  pose proof (fun other => get_created _ _ _ _ _ other Hlen Ec) as Hother.
  set (f := fun a : desired_actuator => a <| da_slot := slot |> <| da_command := command |> <| da_pwm_duty := pwm |>
              <| da_set_time_ms := clk 1%nat |> <| da_set_epoch := epoch |>).
  destruct (place (at_slot slot) (ds_actuator_count s) (ds_actuators s) MAX_DESIRED_ACTUATORS) as [[[k count]|]|] eqn:Ep.
  - destruct (place_write (at_slot slot) f _ _ 64 _ _ (sw_actuator_count s Hw) (sw_actuators s Hw) (fun _ => eq_refl) Ep)
      as (Hc & x & Hx & Hfind).
    set (g := fun s : desired_state => touch (clk 2%nat) (s <| ds_actuator_count := count |> <| ds_actuators ::= alter f k |>)).
    exists WTC_OK, (on_entry i (on_state g) r1). split; [reflexivity|]. split; [|split; [|split; [by left|]]].
    + apply (on_entry_ok i g r1 s Hok1 Hs). unfold g. apply touch_wf; [apply Hclk|].
      destruct Hw as [H1 H2 H3 H4 H5 H6 H7 H8 H9 H10 H11].
      split; cbn [ds_version ds_sequence ds_checksum ds_timestamp_ms ds_station_name ds_actuators
        ds_actuator_count ds_pid_loops ds_pid_loop_count set]; try done; [by rewrite length_alter|].
      apply Forall_alter_wf; [done|]. intros a (A1 & A2 & A3 & A4). unfold actuator_wf, f.
      cbn [da_slot da_command da_set_time_ms da_set_epoch set]. split_and!; try apply Hclk; try done; lia.
    + intros other Hne. rewrite (get_other i g r1 station) by done. by apply Hother.
    + intros _. exists (g s), (f x). split.
      { unfold state_get_desired. rewrite find_on_entry, Hi by done. by rewrite (state_at_on_entry i g r1 s Hs). }
      split; [exact Hfind|]. split_and!; try done. unfold g. apply touch_valid.
  - exists WTC_ERROR_FULL, r1. split_and!; try done. by right.
  - destruct (place_inside (at_slot slot) _ _ 64 (sw_actuator_count s Hw) (sw_actuators s Hw)) as [(? & ? & Hp & _)|[_ Hp]];
      change MAX_DESIRED_ACTUATORS with 64%nat in Ep; rewrite Ep in Hp; [done|]. by destruct (_ <? _).
Qed.

Module ReconcileDemo.

Definition cfg : reconciler_config := mk_reconciler_config 30000 5000 true "/var/lib/wtc/state" true.
Definition saved : reconciler := mk_reconciler cfg [mk_state_entry "rtu-1" (desired_state_init 5000 "rtu-1") 0] false.
Definition empty : reconciler := mk_reconciler cfg [] false.

Lemma snapshot_restore_roundtrip_witness :
  let '(res, _, fs') := state_snapshot 6000 WritesAll saved ∅ "rtu-1" in
  let '(res2, r2') := state_restore 9000 empty fs' "rtu-1" in
  res = WTC_OK /\ res2 = WTC_OK /\
  state_get_desired r2' "rtu-1" = (WTC_OK, Some ((refresh_checksum (desired_state_init 5000 "rtu-1")) <| ds_dirty := false |>)).
Proof.
  apply (snapshot_restore_roundtrip 6000 9000 saved empty ∅ "rtu-1" 0 (desired_state_init 5000 "rtu-1")).
  - reflexivity.
  - reflexivity.
  - reflexivity.
  - apply init_state_wf. unfold is_u64. lia.
  - reflexivity.
  - cbn. unfold WTC_MAX_STATION_NAME. lia.
  - reflexivity.
  - cbn. unfold MAX_STATE_ENTRIES. lia.
Defined.

Lemma set_actuator_stored_witness :
  exists res r', state_set_actuator (fun _ => 7000) empty "rtu-1" 8 1 0 3 = Some (res, r') /\ reconciler_ok r'.
Proof.
  destruct (set_actuator_stored (fun _ => 7000) empty "rtu-1" 8 1 0 3) as (res & r' & H1 & H2 & _).
  - split; [cbn; lia|constructor|constructor].
  - cbn. unfold WTC_MAX_STATION_NAME. lia.
  - lia.
  - lia.
  - unfold is_u32. lia.
  - intros _. unfold is_u64. lia.
  - exists res, r'. split; [exact H1|exact H2].
Defined.

(** A state with one pump and one loop, and what an RTU reports. *)
Definition with_values (acts : list desired_actuator) (pids : list desired_pid) : desired_state :=
  mk_desired_state 1 1 0 0 [] acts (Z.of_nat (length acts)) pids (Z.of_nat (length pids)) true false.
Definition pump (command pwm : Z) : desired_actuator := mk_desired_actuator 8 command pwm false 0 0.
Definition loop (setpoint : float32) : desired_pid := mk_desired_pid 1 2 setpoint f0 0.
Definition wanted : reconciler := mk_reconciler cfg [mk_state_entry "rtu-1" (with_values [pump 1 0] [loop f1]) 0] true.

Lemma reconcile_conflicts_witness :
  exists res, state_reconcile (fun _ => 0) wanted "rtu-1" (Some (with_values [pump 0 0] [loop f1])) = Some (WTC_OK, res, [8]) /\
    rr_actuators_conflicted res = 1 /\ rr_pid_loops_synced res = 1 /\ rr_success res <> true.
Proof.
  destruct (reconcile_conflicts (fun _ => 0) wanted "rtu-1" 0 (with_values [pump 1 0] [loop f1])
    (Some (with_values [pump 0 0] [loop f1]))) as (res & H1 & H2 & _ & _ & H5 & H6).
  - reflexivity.
  - reflexivity.
  - split; cbn; lia.
  - intros t Ht. injection Ht as <-. split; cbn; lia.
  - exists res. split; [exact H1|]. split; [exact H2|]. split; [exact H5|]. intros Hs. apply H6 in Hs as [Hs _].
    inversion Hs as [|? ? Hx _]. vm_compute in Hx. discriminate Hx.
Defined.

(** An actuator that the RTU does not report counts as synchronised. *)
Example unreported_is_synced :
  exists res, state_reconcile (fun _ => 0) wanted "rtu-1" (Some (with_values [] [])) = Some (WTC_OK, res, []) /\ rr_success res = true.
Proof. eexists. split; [reflexivity|reflexivity]. Qed.

(** A loop whose set point is not a number conflicts with itself. *)
Example nan_conflicts :
  let nan := fdiv f0 f0 in
  let r := mk_reconciler cfg [mk_state_entry "rtu-1" (with_values [] [loop nan]) 0] true in
  exists res, state_reconcile (fun _ => 0) r "rtu-1" (Some (with_values [] [loop nan])) = Some (WTC_OK, res, []) /\ rr_success res = false.
Proof. eexists. split; [reflexivity|reflexivity]. Qed.

(** A restored or accepted state with a count beyond its array: the next command reads
    outside it. *)
Example count_not_checked :
  let s := (with_values (replicate 64 (pump 0 0)) []) <| ds_actuator_count := 65 |> in
  state_set_actuator (fun _ => 0) (mk_reconciler cfg [mk_state_entry "rtu-1" s 0] true) "rtu-1" 9 1 0 0 = None.
Proof. reflexivity. Qed.

(** Cleaning up with unsaved changes never returns. *)
Example cleanup_deadlocks :
  state_reconciler_cleanup (mk_reconciler cfg [mk_state_entry "rtu-1" ((with_values [] []) <| ds_dirty := true |>) 0] false) = None.
Proof. reflexivity. Qed.

(** The entry made for a name of 64 characters is not found under that name. *)
Definition long_name : string := String.string_of_list_ascii (replicate 64 (Ascii.ascii_of_nat 97)).
Example long_name_not_found :
  exists r, find_or_create_state 0 empty long_name = Some (0%nat, r) /\ find_state r long_name = None.
Proof. eexists. split; [reflexivity|reflexivity]. Qed.

End ReconcileDemo.
