(* ===== verification/ConfigFile.v ===== *)
(** * Configuration manager

    Model of [src/config/config_manager.c]: the flat key/value store, the reader of
    [key = value] files with its effect on the system configuration, and the writer.

    A text is a list of characters.  [atoi] of a number outside [int] is undefined in C;
    here it keeps its value and wraps.  [config_manager_get_float] (decimal to binary
    conversion) is left out. *)

From Stdlib Require Import Ascii.
From stdpp Require Import strings pretty.
From S2P Require Import Prelude Float32 Types Time.

Definition MAX_CONFIG_ENTRIES : nat := 256.
Definition MAX_KEY_LEN : nat := 64.
Definition MAX_VALUE_LEN : nat := 256.
Definition LINE_SIZE : nat := 512.

Definition chars := list ascii.
Definition to_string (l : chars) : string := String.string_of_list_ascii l.
Definition of_string (s : string) : chars := String.list_ascii_of_string s.

(** [system_config_t] *)
Record system_config := mk_system_config {
  sc_system_name : string;
  sc_log_level : Z;
  sc_log_file : string;
  sc_interface_name : string;
  sc_cycle_time_ms : Z;
  sc_vendor_id : Z;
  sc_device_id : Z;
  sc_db_host : string;
  sc_db_port : Z;
  sc_db_name : string;
  sc_db_user : string;
  sc_db_password : string;
  sc_scan_rate_ms : Z;
  sc_max_pid_loops : Z;
  sc_max_interlocks : Z;
  sc_default_sample_rate_ms : Z;
  sc_retention_days : Z;
  sc_api_host : string;
  sc_api_port : Z }.
#[export] Instance eta_system_config : Eta system_config := fun r =>
  mk_system_config (sc_system_name r) (sc_log_level r) (sc_log_file r) (sc_interface_name r) (sc_cycle_time_ms r)
    (sc_vendor_id r) (sc_device_id r) (sc_db_host r) (sc_db_port r) (sc_db_name r) (sc_db_user r) (sc_db_password r)
    (sc_scan_rate_ms r) (sc_max_pid_loops r) (sc_max_interlocks r) (sc_default_sample_rate_ms r) (sc_retention_days r)
    (sc_api_host r) (sc_api_port r).

(** [config_entry_t], [struct config_manager]; [cg_trace] lists the keys the callback heard. *)
Record config_entry := mk_config_entry { ce_key : string; ce_value : string }.
#[export] Instance eta_config_entry : Eta config_entry := fun r => mk_config_entry (ce_key r) (ce_value r).
Record config_manager := mk_config_manager {
  cg_config_path : string;
  cg_entries : list config_entry;
  cg_config : system_config;
  cg_callback : bool;
  cg_trace : list string }.
#[export] Instance eta_config_manager : Eta config_manager := fun r =>
  mk_config_manager (cg_config_path r) (cg_entries r) (cg_config r) (cg_callback r) (cg_trace r).

(** [config_manager_get_defaults] ([vendor], [device]: the identity of the generated
    configuration). *)
Definition config_manager_get_defaults (vendor device : Z) : system_config :=
  mk_system_config "Water Treatment Controller" 2 "/var/log/water-controller.log" "" 1000 vendor device
    "localhost" 5432 "water_treatment" "wtc" "" 100 64 128 1000 365 "0.0.0.0" 8080.

Definition config_manager_init (alloc_ok : bool) (vendor device : Z) (config_path : option string)
    : wtc_result * option config_manager :=
  if alloc_ok
  then (WTC_OK, Some (mk_config_manager (strncpy 255 (default "" config_path)) []
                        (config_manager_get_defaults vendor device) false []))
  else (WTC_ERROR_NO_MEMORY, None).

(** ** The store *)

Definition has_key (key : string) (e : config_entry) : Prop := ce_key e = key.
#[export] Instance has_key_dec k e : Decision (has_key k e).
Proof. unfold has_key. apply _. Defined.
Definition lookup_value (m : config_manager) (key : string) : option string :=
  ce_value <$> find_entry (has_key key) (cg_entries m).

(** [int] arithmetic *)
Definition to_int (x : Z) : Z := (x + 2 ^ 31) mod 2 ^ 32 - 2 ^ 31.
Definition atoi (s : string) : Z := match scan_d s with Some (v, _) => to_int v | None => 0 end.

(** The getters: the result and the output, which keeps its value when the key is
    missing. *)
Definition config_manager_get_string (m : config_manager) (key : string) (old : string) (max_len : nat)
    : wtc_result * string :=
  match lookup_value m key with
  | Some v => (WTC_OK, strncpy (max_len - 1) v)
  | None => (WTC_ERROR_NOT_FOUND, old)
  end.
Definition config_manager_get_int (m : config_manager) (key : string) (old : Z) : wtc_result * Z :=
  match lookup_value m key with
  | Some v => (WTC_OK, atoi v)
  | None => (WTC_ERROR_NOT_FOUND, old)
  end.
Definition config_manager_get_bool (m : config_manager) (key : string) (old : bool) : wtc_result * bool :=
  match lookup_value m key with
  | Some v => (WTC_OK, bool_decide (v ∈ ["true"; "1"; "yes"; "on"]%string))
  | None => (WTC_ERROR_NOT_FOUND, old)
  end.

Definition tell (key : string) (m : config_manager) : config_manager :=
  if cg_callback m then m <| cg_trace ::= fun t => t ++ [key] |> else m.

(** [config_manager_set_string] and the setters built on it *)
Definition config_manager_set_string (m : config_manager) (key value : string) : wtc_result * config_manager :=
  match find_update (has_key key) (fun e => e <| ce_value := strncpy (MAX_VALUE_LEN - 1) value |>) (cg_entries m) with
  | Some l => (WTC_OK, tell key (m <| cg_entries := l |>))
  | None =>
      if (MAX_CONFIG_ENTRIES <=? length (cg_entries m))%nat then (WTC_ERROR_FULL, m)
      else (WTC_OK, tell key (m <| cg_entries ::= fun l =>
              l ++ [mk_config_entry (strncpy (MAX_KEY_LEN - 1) key) (strncpy (MAX_VALUE_LEN - 1) value)] |>))
  end.
Definition config_manager_set_int (m : config_manager) (key : string) (value : Z) : wtc_result * config_manager :=
  config_manager_set_string m key (strncpy 31 (pretty value)).
Definition config_manager_set_float (m : config_manager) (key : string) (value : float32) : wtc_result * config_manager :=
  config_manager_set_string m key (strncpy 31 (fmt_fixed 6 value)).
Definition config_manager_set_bool (m : config_manager) (key : string) (value : bool) : wtc_result * config_manager :=
  config_manager_set_string m key (if value then "true" else "false").
Definition config_manager_watch (m : config_manager) (callback : bool) : config_manager := m <| cg_callback := callback |>.
Definition config_manager_get_config (m : config_manager) : system_config := cg_config m.
Definition config_manager_set_config (m : config_manager) (c : system_config) : config_manager := m <| cg_config := c |>.

(** ** Reading a file *)

Definition NL : ascii := "010".
(** [fgets(line, size, fp)]: up to [size - 1] characters, through the end of the line. *)
Fixpoint fgets (room : nat) (text : chars) : chars * chars :=
  match room, text with
  | S room', c :: text' =>
      if bool_decide (c = NL) then ([c], text')
      else let '(line, rest) := fgets room' text' in (c :: line, rest)
  | _, _ => ([], text)
  end.

(** A string ends at its first NUL. *)
Fixpoint c_str (l : chars) : chars :=
  match l with [] => [] | c :: l' => if bool_decide (c = "000"%char) then [] else c :: c_str l' end.

Fixpoint drop_space (l : chars) : chars :=
  match l with [] => [] | c :: l' => if is_space c then drop_space l' else l end.
(** [trim]: leading and trailing white space. *)
Definition trim (l : chars) : chars := rev (drop_space (rev (drop_space l))).

(** [strchr(s, '=')]: the text before and after. *)
Fixpoint split_at (ch : ascii) (l : chars) : option (chars * chars) :=
  match l with
  | [] => None
  | c :: l' => if bool_decide (c = ch) then Some ([], l')
               else match split_at ch l' with Some (a, b) => Some (c :: a, b) | None => None end
  end.

(** A value in quotes loses its first and its last character. *)
Definition unquote (v : chars) : chars :=
  match v with
  | c :: rest => if (2 <=? length v)%nat && (bool_decide (c = "034"%char) || bool_decide (c = "'"%char))
                 then take (length rest - 1) rest else v
  | [] => v
  end.

(** One line: the entry it makes, if any. *)
Definition parse_line (line : chars) : option config_entry :=
  let t := trim (c_str line) in
  match t with
  | [] => None
  | c :: _ =>
      if bool_decide (c = "#"%char) || bool_decide (c = ";"%char) then None
      else
        match split_at "=" t with
        | None => None
        | Some (k, v) =>
            Some (mk_config_entry (strncpy (MAX_KEY_LEN - 1) (to_string (trim k)))
                    (strncpy (MAX_VALUE_LEN - 1) (to_string (unquote (trim v)))))
        end
  end.

(** The reading loop: it ends with the text or the table; every round takes a character. *)
Fixpoint read_lines (fuel : nat) (text : chars) (entries : list config_entry) : list config_entry :=
  match fuel, text with
  | S fuel', _ :: _ =>
      let '(line, rest) := fgets (LINE_SIZE - 1) text in
      if (MAX_CONFIG_ENTRIES <=? length entries)%nat then entries
      else read_lines fuel' rest (match parse_line line with Some e => entries ++ [e] | None => entries end)
  | _, _ => entries
  end.

Definition applied_string (m : config_manager) (key : string) (n : nat) (old : string) : string :=
  snd (config_manager_get_string m key old n).
Definition applied_int (m : config_manager) (key : string) (old : Z) : Z := snd (config_manager_get_int m key old).
(** An unsigned field written through an [int *]. *)
Definition applied_uint (m : config_manager) (key : string) (old : Z) : Z :=
  match config_manager_get_int m key old with (WTC_OK, v) => wrap32 v | (_, v) => v end.

(** The values applied to the system configuration. *)
Definition apply_entries (m : config_manager) : config_manager :=
  m <| cg_config ::= fun c =>
    c <| sc_system_name ::= applied_string m "system.name" 64 |>
      <| sc_interface_name ::= applied_string m "profinet.interface" 32 |>
      <| sc_cycle_time_ms ::= applied_uint m "profinet.cycle_time_ms" |>
      <| sc_db_host ::= applied_string m "database.host" 64 |>
      <| sc_db_port ::= applied_int m "database.port" |>
      <| sc_db_name ::= applied_string m "database.name" 64 |>
      <| sc_db_user ::= applied_string m "database.user" 64 |>
      <| sc_db_password ::= applied_string m "database.password" 64 |>
      <| sc_scan_rate_ms ::= applied_uint m "control.scan_rate_ms" |>
      <| sc_default_sample_rate_ms ::= applied_uint m "historian.sample_rate_ms" |>
      <| sc_retention_days ::= applied_int m "historian.retention_days" |>
      <| sc_api_host ::= applied_string m "api.host" 64 |>
      <| sc_api_port ::= applied_int m "api.port" |> |>.

(** [config_manager_load] ([None]: the file cannot be opened). *)
Definition config_manager_load (m : config_manager) (file : option chars) : wtc_result * config_manager :=
  match file with
  | None => (WTC_ERROR_NOT_FOUND, m)
  | Some text => (WTC_OK, apply_entries (m <| cg_entries := read_lines (length text) text [] |>))
  end.

(** ** Writing a file *)

Definition q : string := String "034" "".
Definition string_setting (key value : string) : string := (key +:+ " = " +:+ q +:+ value +:+ q)%string.
Definition number_setting (key : string) (value : Z) : string := (key +:+ " = " +:+ pretty value)%string.

(** The lines of [config_manager_save]. *)
Definition saved_lines (c : system_config) : list string :=
  [ "# Water Treatment Controller Configuration"; "# Generated automatically"; "";
    "[system]"; string_setting "name" (sc_system_name c); number_setting "log_level" (sc_log_level c); "";
    "[profinet]"; string_setting "interface" (sc_interface_name c); number_setting "cycle_time_ms" (sc_cycle_time_ms c);
    number_setting "vendor_id" (sc_vendor_id c); number_setting "device_id" (sc_device_id c); "";
    "[database]"; string_setting "host" (sc_db_host c); number_setting "port" (sc_db_port c);
    string_setting "name" (sc_db_name c); string_setting "user" (sc_db_user c);
    "# password = " +:+ q +:+ "***" +:+ q; "";
    "[control]"; number_setting "scan_rate_ms" (sc_scan_rate_ms c); number_setting "max_pid_loops" (sc_max_pid_loops c);
    number_setting "max_interlocks" (sc_max_interlocks c); "";
    "[historian]"; number_setting "sample_rate_ms" (sc_default_sample_rate_ms c);
    number_setting "retention_days" (sc_retention_days c); "";
    "[api]"; string_setting "host" (sc_api_host c); number_setting "port" (sc_api_port c) ]%string.
Definition text_of_lines (lines : list string) : chars := concat ((fun l => of_string l ++ [NL]) <$> lines).
Definition config_manager_save (open_ok : bool) (m : config_manager) : wtc_result * option chars :=
  if open_ok then (WTC_OK, Some (text_of_lines (saved_lines (cg_config m)))) else (WTC_ERROR_IO, None).

(** ** Theorems: the reader *)

Definition no_nl (l : chars) : Prop := Forall (fun c => c <> NL) l.
Definition no_zero (l : chars) : Prop := Forall (fun c => c <> "000"%char) l.

Lemma fgets_line room l rest :
  no_nl l -> (length l < room)%nat -> fgets room (l ++ NL :: rest) = (l ++ [NL], rest).
Proof.
  intros Hl. revert room. induction Hl as [|c l Hc _ IH]; intros [|room] Hr; cbn [length] in Hr; try lia.
  - cbn [app fgets]. by rewrite bool_decide_eq_true_2.
  - cbn [app fgets]. rewrite bool_decide_eq_false_2 by done. by rewrite IH by lia.
Qed.

Lemma c_str_id l : no_zero l -> c_str l = l.
Proof. induction 1 as [|c l Hc _ IH]; [done|]. cbn [c_str]. by rewrite bool_decide_eq_false_2, IH. Qed.

Lemma drop_space_app s l : Forall (fun c => is_space c = true) s -> drop_space (s ++ l) = drop_space l.
Proof. induction 1 as [|c s Hc _ IH]; [done|]. cbn [app drop_space]. by rewrite Hc. Qed.

(** Text without white space at its ends. *)
Definition tight (l : chars) : Prop :=
  drop_space l = l /\ drop_space (rev l) = rev l.

Lemma drop_space_tight l s : l <> [] -> drop_space l = l -> drop_space (l ++ s) = l ++ s.
Proof.
  intros Hl. destruct l as [|c l]; [done|]. cbn [app drop_space]. destruct (is_space c) eqn:E; [|done].
  intros H. exfalso. assert (length (drop_space l) <= length l)%nat as Hlen.
  { clear. induction l as [|c l IH]; [done|]. cbn [drop_space]. destruct (is_space c); cbn [length]; lia. }
  rewrite H in Hlen. cbn in Hlen. lia.
Qed.

Lemma trim_pad s1 l s2 :
  Forall (fun c => is_space c = true) s1 -> Forall (fun c => is_space c = true) s2 -> tight l -> l <> [] ->
  trim (s1 ++ l ++ s2) = l.
Proof.
  intros H1 H2 [T1 T2] Hl. unfold trim. rewrite drop_space_app, drop_space_tight by done.
  rewrite rev_app_distr, drop_space_app by (by apply Forall_rev). rewrite T2. apply rev_involutive.
Qed.

Lemma split_at_app ch a b : Forall (fun c => c <> ch) a -> split_at ch (a ++ ch :: b) = Some (a, b).
Proof.
  induction 1 as [|c a Hc _ IH]; cbn [app split_at]; [by rewrite bool_decide_eq_true_2|].
  by rewrite bool_decide_eq_false_2, IH.
Qed.

(** A key as the reader expects it. *)
Record key_ok (k : chars) : Prop := {
  ko_nonempty : k <> [];
  ko_tight : tight k;
  ko_no_eq : Forall (fun c => c <> "="%char) k;
  ko_no_zero : no_zero k;
  ko_no_comment : match k with c :: _ => c <> "#"%char /\ c <> ";"%char | [] => True end }.

Lemma tight_app a b : a <> [] -> b <> [] -> drop_space a = a -> drop_space (rev b) = rev b -> tight (a ++ b).
Proof.
  intros Ha Hb H1 H2. split; [by apply drop_space_tight|]. rewrite rev_app_distr. apply drop_space_tight; [|done].
  intros E. apply Hb. by rewrite <- (rev_involutive b), E.
Qed.

(** A line [key = value] whose value ends in visible text. *)
Lemma parse_setting k v :
  key_ok k -> tight v -> v <> [] -> no_zero v ->
  parse_line (k ++ of_string " = " ++ v ++ [NL])
  = Some (mk_config_entry (strncpy (MAX_KEY_LEN - 1) (to_string k)) (strncpy (MAX_VALUE_LEN - 1) (to_string (unquote v)))).
Proof.
  intros [K1 K2 K3 K4 K5] V1 V2 V3. unfold parse_line.
  assert (no_zero (k ++ of_string " = " ++ v ++ [NL])) as Hz.
  { repeat (apply Forall_app; split); try done; by repeat constructor. }
  rewrite c_str_id by done. set (t := k ++ of_string " = " ++ v).
  assert (trim (k ++ of_string " = " ++ v ++ [NL]) = t) as ->.
  { replace (k ++ of_string " = " ++ v ++ [NL]) with ([] ++ t ++ [NL]) by (unfold t; by rewrite <- !app_assoc).
    apply trim_pad; [constructor|by repeat constructor| |].
    - apply tight_app; [done|by destruct v|apply K2|]. rewrite rev_app_distr. apply drop_space_tight; [|apply V1].
      intros E. apply V2. by rewrite <- (rev_involutive v), E.
    - unfold t. by destruct k. }
  destruct k as [|c k]; [done|]. destruct K5 as [H1 H2].
  change t with (c :: k ++ of_string " = " ++ v). cbv beta iota zeta. rewrite !bool_decide_eq_false_2 by done. cbn [orb].
  change (c :: k ++ of_string " = " ++ v) with ((c :: k) ++ " "%char :: "="%char :: " "%char :: v).
  rewrite (cons_middle " "%char (c :: k)), app_assoc, split_at_app by (apply Forall_app; split; [done|by repeat constructor]).
  do 2 f_equal.
  - do 2 f_equal. apply (trim_pad [] (c :: k) [" "%char]); try done; by repeat constructor.
  - do 3 f_equal. rewrite <- (app_nil_r v) at 1. apply (trim_pad [" "%char] v []); try done; by repeat constructor.
Qed.

Definition line_ok (l : chars) : Prop := no_nl l /\ (length l < LINE_SIZE - 1)%nat.
Definition line_entry (l : chars) : option config_entry := parse_line (l ++ [NL]).

(** The reader goes through the lines until the table is full. *)
Lemma read_lines_text (lines : list chars) fuel es :
  Forall line_ok lines -> (length (concat ((fun l => l ++ [NL]) <$> lines)) <= fuel)%nat ->
  (length es <= MAX_CONFIG_ENTRIES)%nat ->
  read_lines fuel (concat ((fun l => l ++ [NL]) <$> lines)) es = take MAX_CONFIG_ENTRIES (es ++ omap line_entry lines).
Proof.
  intros Hl. revert fuel es. induction Hl as [|l lines [Hn Hlen] _ IH]; intros fuel es Hf He.
  { cbn [fmap list_fmap concat]. rewrite app_nil_r, take_ge by done. by destruct fuel. }
  rewrite fmap_cons in *. cbn [concat] in *. set (rest := concat ((fun l => l ++ [NL]) <$> lines)) in *.
  rewrite <- app_assoc in *. cbn [app] in *.
  assert (exists c t, l ++ NL :: rest = c :: t) as (c & t & Ec) by (destruct l; eauto).
  destruct fuel as [|fuel]; [rewrite length_app in Hf; cbn in Hf; lia|].
  rewrite Ec. cbn [read_lines]. rewrite <- Ec. rewrite fgets_line by done.
  destruct (Nat.leb_spec MAX_CONFIG_ENTRIES (length es)) as [Hfull|Hroom].
  { replace MAX_CONFIG_ENTRIES with (length es) by lia. by rewrite take_app_length. }
  rewrite length_app in Hf. cbn [length] in Hf. cbn [omap list_omap]. fold (line_entry l).
  destruct (line_entry l) as [e|].
  - rewrite IH; [by rewrite <- app_assoc|lia|]. rewrite length_app. cbn [length]. lia.
  - apply IH; lia.
Qed.

Definition quoted_ok (v : string) : Prop := no_zero (of_string v) /\ no_nl (of_string v).

Lemma of_string_app a b : of_string (a +:+ b) = of_string a ++ of_string b.
Proof.
  unfold of_string. induction a as [|c a IH]; [done|]. change (String c a +:+ b) with (String c (a +:+ b)).
  cbn [String.list_ascii_of_string app]. by rewrite IH.
Qed.
Lemma length_of_string s : length (of_string s) = String.length s.
Proof. unfold of_string. induction s as [|c s IH]; cbn; congruence. Qed.
Lemma to_of_string s : to_string (of_string s) = s.
Proof. apply String.string_of_list_ascii_of_string. Qed.

Lemma string_setting_chars k v : of_string (string_setting k v) = of_string k ++ of_string " = " ++ ("034"%char :: of_string v ++ ["034"%char]).
Proof. unfold string_setting. by rewrite !of_string_app. Qed.

Lemma unquote_quoted v : unquote ("034"%char :: v ++ ["034"%char]) = v.
Proof.
  unfold unquote. cbn [length]. rewrite length_app. cbn [length].
  rewrite (proj2 (Nat.leb_le _ _)) by lia. rewrite bool_decide_eq_true_2 by done. cbn [andb orb].
  rewrite Nat.add_sub. apply take_app_length.
Qed.

Lemma string_setting_entry k v :
  key_ok (of_string k) -> quoted_ok v ->
  line_entry (of_string (string_setting k v)) = Some (mk_config_entry (strncpy (MAX_KEY_LEN - 1) k) (strncpy (MAX_VALUE_LEN - 1) v)).
Proof.
  intros Hk [Hz _]. unfold line_entry. rewrite string_setting_chars, <- !app_assoc.
  rewrite parse_setting; try done.
  - by rewrite unquote_quoted, !to_of_string.
  - split; [done|]. cbn [rev]. rewrite rev_app_distr. done.
  - constructor; [done|]. apply Forall_app. split; [done|by repeat constructor].
Qed.

(** A file of settings [key = "value"], one a line, is read as exactly these settings,
    cut to the sizes of the table, as many as the table holds. *)
Theorem settings_file_read m (settings : list (string * string)) :
  Forall (fun kv => key_ok (of_string kv.1) /\ no_nl (of_string kv.1) /\ quoted_ok kv.2 /\
                    (String.length (string_setting kv.1 kv.2) < LINE_SIZE - 1)%nat) settings ->
  let '(res, m') := config_manager_load m (Some (text_of_lines ((fun kv => string_setting kv.1 kv.2) <$> settings))) in
  res = WTC_OK /\
  cg_entries m' = take MAX_CONFIG_ENTRIES
    ((fun kv => mk_config_entry (strncpy (MAX_KEY_LEN - 1) kv.1) (strncpy (MAX_VALUE_LEN - 1) kv.2)) <$> settings).
Proof.
  intros Hs. unfold config_manager_load, text_of_lines. split; [done|]. cbn [apply_entries cg_entries set].
  rewrite (list_fmap_compose of_string (fun l => l ++ [NL])).
  rewrite read_lines_text; [|..|cbn; lia].
  - cbn [app]. f_equal. clear m. induction Hs as [|[k v] settings (H1 & _ & H3 & _) _ IH]; [done|].
    rewrite !fmap_cons. cbn [omap list_omap fst snd]. rewrite string_setting_entry by done. by rewrite IH.
  - apply Forall_fmap, Forall_fmap. eapply Forall_impl; [exact Hs|]. intros [k v] (_ & H2 & [H3 H4] & H5). cbn [fst snd] in *.
    split.
    + unfold compose. cbn [fst snd]. rewrite string_setting_chars. apply Forall_app. split; [done|]. apply Forall_app. split; [by repeat constructor|].
      constructor; [done|]. apply Forall_app. split; [done|by repeat constructor].
    + unfold compose. cbn [fst snd].
      by rewrite length_of_string.
  - apply le_n.
Qed.

(** ** Theorem: a saved configuration is not read back *)

Lemma pretty_go_length n x s :
  (x < 10 ^ N.of_nat n)%N -> (String.length (pretty_N_go x s) <= n + String.length s)%nat.
Proof.
  revert x s. induction n as [|n IH]; intros x s Hx.
  - cbn in Hx. assert (x = 0)%N as -> by lia. by rewrite pretty_N_go_0.
  - destruct (decide (x = 0)%N) as [->|Hne]; [rewrite pretty_N_go_0; lia|]. rewrite pretty_N_go_step by lia.
    rewrite Nat2N.inj_succ, N.pow_succ_r' in Hx.
    pose proof (IH (x `div` 10)%N (String (pretty_N_char (x `mod` 10)) s)) as H. cbn [String.length] in H.
    assert (x `div` 10 < 10 ^ N.of_nat n)%N by (apply N.Div0.div_lt_upper_bound; lia). specialize (H ltac:(done)). lia.
Qed.
Lemma pretty_length v : - 2 ^ 63 <= v < 2 ^ 63 -> (String.length (pretty v) <= 21)%nat.
Proof.
  intros Hv. destruct v as [|p|p]; [cbn; lia| |].
  - change (pretty (Z.pos p)) with (pretty_N_go (N.pos p) ""). pose proof (pretty_go_length 20 (N.pos p) "") as H.
    cbn [String.length] in H. assert (N.pos p < 10 ^ N.of_nat 20)%N by lia. specialize (H ltac:(done)). lia.
  - change (pretty (Z.neg p)) with ("-" +:+ pretty_N_go (N.pos p) "")%string. pose proof (pretty_go_length 20 (N.pos p) "") as H.
    cbn [String.length] in H. assert (N.pos p < 10 ^ N.of_nat 20)%N by lia. specialize (H ltac:(done)).
    change (String.length ("-" +:+ pretty_N_go (N.pos p) "")) with (S (String.length (pretty_N_go (N.pos p) ""))). lia.
Qed.

(** The characters of a number: visible, neither the end of a line nor of a string. *)
Definition visible (c : ascii) : Prop := c <> NL /\ c <> "000"%char /\ is_space c = false.
Lemma pretty_char_visible n : (n < 10)%N -> visible (pretty_N_char n).
Proof.
  intros Hn. assert (n ∈ [0;1;2;3;4;5;6;7;8;9]%N) as H by (rewrite !elem_of_cons; lia).
  clear Hn. revert n H. apply Forall_forall. by repeat (constructor; [done|]).
Qed.
Lemma pretty_go_visible x s : Forall visible (of_string s) -> Forall visible (of_string (pretty_N_go x s)).
Proof.
  revert s. induction (N.lt_wf_0 x) as [x _ IH]; intros s Hs. destruct (decide (x = 0)%N) as [->|Hx]; [done|].
  rewrite pretty_N_go_step by lia. apply IH; [apply N.div_lt; lia|]. constructor; [|done]. apply pretty_char_visible. by apply N.mod_lt.
Qed.
Lemma pretty_visible (v : Z) : Forall visible (of_string (pretty v)) /\ of_string (pretty v) <> [].
Proof.
  destruct v as [|p|p]; [by repeat constructor| |].
  - change (pretty (Z.pos p)) with (pretty_N_go (N.pos p) ""). split; [by apply pretty_go_visible|].
    rewrite pretty_N_go_step by lia. intros E. apply (f_equal length) in E. rewrite length_of_string in E. revert E.
    generalize (N.pos p `div` 10)%N (pretty_N_char (N.pos p `mod` 10)). intros x c.
    assert (forall x s, (String.length s <= String.length (pretty_N_go x s))%nat) as H.
    { clear. intros x. induction (N.lt_wf_0 x) as [x _ IH]; intros s. destruct (decide (x = 0)%N) as [->|Hx]; [done|].
      rewrite pretty_N_go_step by lia. etransitivity; [|apply IH, N.div_lt; lia]. cbn. lia. }
    intros E. specialize (H x (String c "")). cbn in *. lia.
  - change (pretty (Z.neg p)) with (String "-" (pretty_N_go (N.pos p) "")). split; [|done]. constructor; [done|by apply pretty_go_visible].
Qed.

Lemma visible_tight l : Forall visible l -> tight l.
Proof.
  intros H. split; [destruct H as [|c l (_ & _ & Hc)]; [done|]; cbn; by rewrite Hc|].
  apply Forall_rev in H. destruct H as [|c l' (_ & _ & Hc)]; [done|]. cbn. by rewrite Hc.
Qed.

Lemma number_setting_chars k v : of_string (number_setting k v) = of_string k ++ of_string " = " ++ of_string (pretty v).
Proof. unfold number_setting. by rewrite !of_string_app. Qed.
Lemma number_setting_entry k v :
  key_ok (of_string k) ->
  exists value, line_entry (of_string (number_setting k v)) = Some (mk_config_entry (strncpy (MAX_KEY_LEN - 1) k) value).
Proof.
  intros Hk. unfold line_entry. rewrite number_setting_chars, <- !app_assoc. destruct (pretty_visible v) as [H1 H2].
  rewrite parse_setting; try done; [by rewrite to_of_string; eauto|by apply visible_tight|].
  eapply Forall_impl; [exact H1|]. by intros c (_ & ? & _).
Qed.

(** What a line of the saved file contributes: its key, or nothing. *)
Definition line_key (key : option string) (l : string) : Prop :=
  line_ok (of_string l) /\ ce_key <$> line_entry (of_string l) = key.

Lemma keys_of_lines keys lines :
  Forall2 line_key keys lines ->
  Forall line_ok (of_string <$> lines) /\ ce_key <$> omap line_entry (of_string <$> lines) = omap id keys.
Proof.
  induction 1 as [|k l keys lines [Hl Hk] _ [IH1 IH2]]; [by split|]. split; [by constructor|].
  rewrite fmap_cons. cbn [omap list_omap]. destruct (line_entry (of_string l)) as [e|], k as [k|]; cbn in Hk; try done.
  injection Hk as <-. cbn. by f_equal.
Qed.

Ltac easy_key := split; [done|split; reflexivity|repeat constructor; discriminate|repeat constructor; discriminate|split; discriminate].

Lemma string_line_key k v :
  key_ok (of_string k) -> no_nl (of_string k) -> quoted_ok v -> (String.length k < 64)%nat -> (String.length v < 64)%nat ->
  line_key (Some k) (string_setting k v).
Proof.
  intros Hk Hn Hv Hl Hl'. split.
  - split; [|rewrite string_setting_chars, !length_app; cbn [length]; rewrite length_app, !length_of_string; cbn; lia].
    rewrite string_setting_chars. apply Forall_app. split; [done|]. apply Forall_app. split; [by repeat constructor|].
    constructor; [done|]. apply Forall_app. split; [apply Hv|by repeat constructor].
  - rewrite string_setting_entry by done. cbn. f_equal. apply strncpy_fits. unfold MAX_KEY_LEN. lia.
Qed.
Lemma number_line_key k v :
  key_ok (of_string k) -> no_nl (of_string k) -> (String.length k < 64)%nat -> - 2 ^ 63 <= v < 2 ^ 63 ->
  line_key (Some k) (number_setting k v).
Proof.
  intros Hk Hn Hl Hv. split.
  - split; [|rewrite number_setting_chars, !length_app, !length_of_string; pose proof (pretty_length v Hv); cbn; lia].
    rewrite number_setting_chars. apply Forall_app. split; [done|]. apply Forall_app. split; [by repeat constructor|].
    eapply Forall_impl; [apply pretty_visible|]. by intros c (? & _).
  - destruct (number_setting_entry k v Hk) as [value ->]. cbn. f_equal. apply strncpy_fits. unfold MAX_KEY_LEN. lia.
Qed.
Lemma other_line_key l : line_ok (of_string l) -> line_entry (of_string l) = None -> line_key None l.
Proof. intros H1 H2. split; [done|]. by rewrite H2. Qed.

(** The strings of a configuration are shorter than their arrays and of one line. *)
Definition config_ok (c : system_config) : Prop :=
  Forall (fun s => quoted_ok s /\ (String.length s < 64)%nat)
    [sc_system_name c; sc_interface_name c; sc_db_host c; sc_db_name c; sc_db_user c; sc_api_host c] /\
  Forall (fun v => - 2 ^ 63 <= v < 2 ^ 63)
    [sc_log_level c; sc_cycle_time_ms c; sc_vendor_id c; sc_device_id c; sc_db_port c; sc_scan_rate_ms c;
     sc_max_pid_loops c; sc_max_interlocks c; sc_default_sample_rate_ms c; sc_retention_days c; sc_api_port c].

Definition saved_keys : list (option string) :=
  [None; None; None; None; Some "name"; Some "log_level"; None; None; Some "interface"; Some "cycle_time_ms";
   Some "vendor_id"; Some "device_id"; None; None; Some "host"; Some "port"; Some "name"; Some "user"; None; None;
   None; Some "scan_rate_ms"; Some "max_pid_loops"; Some "max_interlocks"; None; None; Some "sample_rate_ms";
   Some "retention_days"; None; None; Some "host"; Some "port"]%string.

Lemma saved_lines_keys c : config_ok c -> Forall2 line_key saved_keys (saved_lines c).
Proof.
  intros [Hs Hn]. rewrite !Forall_cons in Hs. rewrite !Forall_cons in Hn.
  destruct Hs as ([? ?] & [? ?] & [? ?] & [? ?] & [? ?] & [? ?] & _).
  destruct Hn as (? & ? & ? & ? & ? & ? & ? & ? & ? & ? & ? & _).
  unfold saved_keys, saved_lines.
  repeat (apply Forall2_cons; split; [first
    [ apply string_line_key; [easy_key|repeat constructor; discriminate|done|cbn; lia|done]
    | apply number_line_key; [easy_key|repeat constructor; discriminate|cbn; lia|done]
    | apply other_line_key; [split; [vm_compute; repeat constructor; discriminate|apply Nat.ltb_lt; reflexivity]|reflexivity] ]|]).
  constructor.
Qed.

Lemma lookup_missing m key : Forall (fun k => k <> key) (ce_key <$> cg_entries m) -> lookup_value m key = None.
Proof.
  intros H. unfold lookup_value. assert (find_entry (has_key key) (cg_entries m) = None) as ->; [|done].
  apply find_entry_None. rewrite Forall_fmap in H. exact H.
Qed.

(** Loading what [config_manager_save] wrote changes no value of the configuration: the
    file groups plain keys under section headers, the reader looks for dotted keys. *)
Theorem saved_config_not_read m m0 :
  config_ok (cg_config m) ->
  exists text, config_manager_save true m = (WTC_OK, Some text) /\
    fst (config_manager_load m0 (Some text)) = WTC_OK /\
    cg_config (snd (config_manager_load m0 (Some text))) = cg_config m0.
Proof.
  intros Hc. eexists. split; [reflexivity|]. split; [reflexivity|].
  destruct (keys_of_lines _ _ (saved_lines_keys _ Hc)) as [Hl Hk].
  unfold config_manager_load. cbn [snd]. unfold text_of_lines.
  rewrite (list_fmap_compose of_string (fun l => l ++ [NL])).
  rewrite read_lines_text; [|done|apply le_n|cbn; lia]. cbn [app].
  set (es := take MAX_CONFIG_ENTRIES _).
  assert (ce_key <$> es = omap id saved_keys) as He.
  { unfold es. rewrite fmap_take, Hk. reflexivity. }
  clearbody es. unfold apply_entries. set (m1 := m0 <| cg_entries := es |>).
  assert (forall key, Forall (fun k => k <> key) (omap id saved_keys) -> lookup_value m1 key = None) as Hno.
  { intros key H. apply lookup_missing. change (cg_entries m1) with es. by rewrite He. }
  assert (forall key n old, Forall (fun k => k <> key) (omap id saved_keys) -> applied_string m1 key n old = old) as H1
    by (intros key n old H; unfold applied_string, config_manager_get_string; by rewrite Hno).
  assert (forall key old, Forall (fun k => k <> key) (omap id saved_keys) -> applied_int m1 key old = old) as H2
    by (intros key old H; unfold applied_int, config_manager_get_int; by rewrite Hno).
  assert (forall key old, Forall (fun k => k <> key) (omap id saved_keys) -> applied_uint m1 key old = old) as H3
    by (intros key old H; unfold applied_uint, config_manager_get_int; by rewrite Hno).
  assert (cg_config m1 = cg_config m0) as Hc1 by done. clearbody m1. clear Hno He. unfold set at 1. cbn [cg_config].
  rewrite Hc1. destruct (cg_config m0). cbn -[applied_string applied_int applied_uint].
  rewrite !H1, !H2, !H3 by (apply (bool_decide_unpack _); vm_compute; exact I). reflexivity.
Qed.

(** ** Theorem: the store *)

(** Setting a value: it succeeds unless the key is new and the table full; every getter
    then finds the value, cut to the size of its array, under its key, and every other key
    keeps its value. *)
Theorem set_then_get m key value :
  (String.length key < MAX_KEY_LEN)%nat ->
  let '(res, m') := config_manager_set_string m key value in
  res = (if bool_decide (lookup_value m key = None) && (MAX_CONFIG_ENTRIES <=? length (cg_entries m))%nat
         then WTC_ERROR_FULL else WTC_OK) /\
  (res = WTC_OK -> lookup_value m' key = Some (strncpy (MAX_VALUE_LEN - 1) value)) /\
  (forall other, other <> key -> lookup_value m' other = lookup_value m other) /\
  cg_config m' = cg_config m.
Proof.
  intros Hlen. unfold config_manager_set_string.
  set (f := fun e : config_entry => e <| ce_value := strncpy (MAX_VALUE_LEN - 1) value |>).
  destruct (find_update (has_key key) f (cg_entries m)) as [l|] eqn:E.
  - apply find_update_Some in E as (l1 & x & l2 & El & Hx & Hno & ->).
    assert (lookup_value m key = Some (ce_value x)) as Hv by (unfold lookup_value; by rewrite El, find_entry_app).
    rewrite bool_decide_eq_false_2 by congruence. split; [done|].
    assert (forall k, lookup_value (tell key (m <| cg_entries := l1 ++ f x :: l2 |>)) k
            = ce_value <$> find_entry (has_key k) (l1 ++ f x :: l2)) as Hl.
    { intros k. unfold lookup_value, tell. by destruct (cg_callback _). }
    split_and!.
    + intros _. rewrite Hl, find_entry_app by done. done.
    + intros other Hne. rewrite Hl. unfold lookup_value. rewrite El. f_equal. apply find_entry_replace; unfold has_key in *; cbn; congruence.
    + unfold tell. by destruct (cg_callback _).
  - apply find_update_None in E. assert (lookup_value m key = None) as Hv.
    { unfold lookup_value. by rewrite (proj2 (find_entry_None _ _) E). }
    rewrite bool_decide_eq_true_2 by done. cbn [andb]. destruct (_ <=? _)%nat; [done|]. split; [done|].
    set (e := mk_config_entry _ _).
    assert (forall k, lookup_value (tell key (m <| cg_entries ::= fun l => l ++ [e] |>)) k
            = ce_value <$> find_entry (has_key k) (cg_entries m ++ [e])) as Hl.
    { intros k. unfold lookup_value, tell. by destruct (cg_callback _). }
    assert (ce_key e = key) as Hk by (cbn; apply strncpy_fits; unfold MAX_KEY_LEN in *; lia).
    split_and!.
    + intros _. rewrite Hl, find_entry_app by done. done.
    + intros other Hne. rewrite Hl. unfold lookup_value. f_equal. unfold find_entry.
      destruct (list_find (has_key other) (cg_entries m)) as [[i y]|] eqn:Ef; [by rewrite (list_find_app_l _ _ _ _ _ Ef)|].
      rewrite list_find_app_r by done. cbn [list_find]. by rewrite decide_False by (unfold has_key; congruence).
    + unfold tell. by destruct (cg_callback _).
Qed.

(** A number is read back as it was set. *)
Lemma pretty_char_dec n : (n < 10)%N ->
  is_dec (pretty_N_char n) = true /\ Z.of_N (N_of_ascii (pretty_N_char n)) - 48 = Z.of_N n.
Proof.
  intros Hn. assert (n ∈ [0;1;2;3;4;5;6;7;8;9]%N) as H by (rewrite !elem_of_cons; lia).
  clear Hn. revert n H. apply Forall_forall. by repeat constructor.
Qed.
Lemma scan_pretty_go x s : scan_digits 0 (pretty_N_go x s) = scan_digits (Z.of_N x) s.
Proof.
  revert s. induction (N.lt_wf_0 x) as [x _ IH]; intros s. destruct (decide (x = 0)%N) as [->|Hx]; [done|].
  rewrite pretty_N_go_step by lia. rewrite IH by (apply N.div_lt; lia). cbn [scan_digits].
  destruct (pretty_char_dec (x `mod` 10)) as [-> ->]; [by apply N.mod_lt|].
  f_equal. pose proof (N.div_mod x 10). lia.
Qed.
Lemma pretty_go_head x s : (exists c t, s = String c t /\ is_dec c = true) \/ (0 < x)%N ->
  exists c t, pretty_N_go x s = String c t /\ is_dec c = true.
Proof.
  revert s. induction (N.lt_wf_0 x) as [x _ IH]; intros s Hs. destruct (decide (x = 0)%N) as [->|Hx].
  { destruct Hs as [Hs|]; [|lia]. by rewrite pretty_N_go_0. }
  rewrite pretty_N_go_step by lia. apply IH; [apply N.div_lt; lia|]. left. do 2 eexists. split; [reflexivity|].
  apply pretty_char_dec. by apply N.mod_lt.
Qed.
Lemma scan_unsigned_pretty p : scan_unsigned (pretty_N_go (N.pos p) "") = Some (Z.pos p, ""%string).
Proof.
  destruct (pretty_go_head (N.pos p) "") as (c & t & E & Hc); [right; lia|]. unfold scan_unsigned. rewrite E at 1. rewrite Hc.
  by rewrite scan_pretty_go.
Qed.
Lemma dec_no_sign c : is_dec c = true -> is_space c = false /\ c <> "-"%char /\ c <> "+"%char.
Proof.
  intros H. split_and!; [|by intros -> ..]. unfold is_dec, is_space in *. apply andb_true_iff in H as [H1 H2].
  apply N.leb_le in H1, H2. apply orb_false_iff. split; [apply N.eqb_neq; lia|]. apply andb_false_iff. right. apply N.leb_gt. lia.
Qed.
Lemma atoi_pretty v : - 2 ^ 31 <= v < 2 ^ 31 -> atoi (pretty v) = v.
Proof.
  intros Hv. assert (to_int v = v) as Hi by (unfold to_int; rewrite Z.mod_small by lia; lia).
  unfold atoi. enough (scan_d (pretty v) = Some (v, ""%string)) as -> by done.
  destruct v as [|p|p]; [done| |].
  - change (pretty (Z.pos p)) with (pretty_N_go (N.pos p) ""). pose proof (scan_unsigned_pretty p) as Hs.
    destruct (pretty_go_head (N.pos p) "") as (c & t & E & Hc); [right; lia|]. rewrite E in *.
    destruct (dec_no_sign c Hc) as (H1 & H2 & H3). unfold scan_d. cbn [skip_space]. rewrite H1.
    by rewrite !bool_decide_eq_false_2.
  - change (pretty (Z.neg p)) with (String "-" (pretty_N_go (N.pos p) "")). unfold scan_d. cbn [skip_space].
    change (is_space "-") with false. cbv iota. rewrite bool_decide_eq_true_2 by done. by rewrite scan_unsigned_pretty.
Qed.

Module ConfigDemo.

Definition fresh : config_manager := mk_config_manager "" [] (config_manager_get_defaults 626 3077) true [].

Lemma settings_file_read_witness :
  let '(res, m') := config_manager_load fresh (Some (text_of_lines
    [string_setting "system.name" "Plant A"; string_setting "api.port" "9000"])) in
  res = WTC_OK /\ cg_entries m' = [mk_config_entry "system.name" "Plant A"; mk_config_entry "api.port" "9000"].
Proof.
  apply (settings_file_read fresh [("system.name", "Plant A"); ("api.port", "9000")]%string).
  repeat (apply Forall_cons; split); [| |constructor]; cbn [fst snd].
  - split; [easy_key|]. split; [repeat constructor; discriminate|]. split; [split; repeat constructor; discriminate|].
    apply Nat.ltb_lt. reflexivity.
  - split; [easy_key|]. split; [repeat constructor; discriminate|]. split; [split; repeat constructor; discriminate|].
    apply Nat.ltb_lt. reflexivity.
Defined.

(** Dotted keys are applied. *)
Example settings_applied :
  let m := snd (config_manager_load fresh (Some (text_of_lines
             [string_setting "system.name" "Plant A"; "  api.port=9000  # web"%string; "; old"%string; "nonsense"%string]))) in
  (sc_system_name (cg_config m), sc_api_port (cg_config m), length (cg_entries m)) = ("Plant A"%string, 9000, 2%nat).
Proof. vm_compute. reflexivity. Qed.

Lemma set_then_get_witness :
  let '(res, m') := config_manager_set_string fresh "api.port" "81" in
  res = WTC_OK /\ lookup_value m' "api.port" = Some "81"%string /\ config_manager_get_int m' "api.port" 0 = (WTC_OK, 81).
Proof.
  pose proof (set_then_get fresh "api.port" "81" ltac:(cbn; unfold MAX_KEY_LEN; lia)) as H.
  destruct (config_manager_set_string fresh "api.port" "81") as [res m']. destruct H as (-> & H2 & _).
  specialize (H2 eq_refl). split; [reflexivity|]. split; [exact H2|]. unfold config_manager_get_int. rewrite H2. reflexivity.
Defined.

(** Set values are not written: the file is made from the structure alone, which the
    setters leave as it is. *)
Example set_values_not_saved :
  config_manager_save true (snd (config_manager_set_string fresh "system.name" "Plant B")) = config_manager_save true fresh.
Proof. reflexivity. Qed.

(** A defaults round trip: the changed port is lost. *)
Example save_load_loses :
  let m := config_manager_set_config fresh ((cg_config fresh) <| sc_api_port := 9000 |>) in
  match config_manager_save true m with
  | (_, Some text) => sc_api_port (cg_config (snd (config_manager_load fresh (Some text))))
  | _ => 0
  end = 8080.
Proof. vm_compute. reflexivity. Qed.

End ConfigDemo.
