(* ===== verification/Ipc.v ===== *)
(** * The shared-memory server

    Model of [src/ipc/ipc_server.c]: the web API writes commands into a shared structure,
    the controller carries them out and publishes its state there.

    The components are the ones of Registry.v, AlarmManager.v, ControlEngine.v, Dcp.v and
    UserSync.v; the PROFINET controller is reached through [NetOps].  A component that is
    not set is [None].  A command is one alternative of the C union.  [None] as the outcome
    of an operation is an access outside an object or the release of memory that was not
    allocated.  Creating and mapping the memory and the lock are left out; [clk k] is the
    [k]-th clock reading of a call. *)

From Stdlib Require Import Ascii.
From stdpp Require Import strings pretty.
From S2P Require Import Prelude Float32 Types Registry AlarmManager Pid ControlEngine Wire Frame Dcp UserSync.

Definition WTC_SHM_KEY : Z := 1465140993. (* 0x57544301 *)
Definition WTC_SHM_VERSION : Z := 3.
Definition WTC_MAX_SHM_RTUS : nat := 64.
Definition WTC_MAX_SHM_ALARMS : nat := 256.
Definition WTC_MAX_SHM_SENSORS : nat := 32.
Definition WTC_MAX_SHM_ACTUATORS : nat := 32.
Definition WTC_MAX_DISCOVERY_DEVICES : nat := 32.
Definition WTC_MAX_I2C_DEVICES : nat := 16.
Definition WTC_MAX_ONEWIRE_DEVICES : nat := 16.
Definition WTC_MAX_NOTIFICATIONS : nat := 32.
Definition IPC_USER_SYNC_MAX_USERS : nat := 32.
Definition SHM_PID_LOOPS : nat := 64.

(** The number of a result, as the API sees it. *)
Definition result_number (r : wtc_result) : Z :=
  match r with
  | WTC_OK => 0 | WTC_ERROR => -1 | WTC_ERROR_INVALID_PARAM => -2 | WTC_ERROR_NO_MEMORY => -3
  | WTC_ERROR_NOT_FOUND => -4 | WTC_ERROR_TIMEOUT => -5 | WTC_ERROR_BUSY => -6
  | WTC_ERROR_NOT_INITIALIZED => -7 | WTC_ERROR_ALREADY_EXISTS => -8 | WTC_ERROR_CONNECTION_FAILED => -9
  | WTC_ERROR_IO => -10 | WTC_ERROR_PROTOCOL => -11 | WTC_ERROR_PERMISSION => -12 | WTC_ERROR_FULL => -13
  | WTC_ERROR_EMPTY => -14 | WTC_ERROR_INTERNAL => -15 | WTC_ERROR_NOT_CONNECTED => -16
  end.

(** ** The shared structure *)

Record shm_sensor := mk_shm_sensor {
  ss_slot : Z; ss_value : float32; ss_status : iops; ss_quality : data_quality; ss_timestamp_ms : Z }.
Record shm_actuator := mk_shm_actuator { sa_slot : Z; sa_command : Z; sa_pwm_duty : Z; sa_forced : bool }.

(** [shm_rtu_t]; the arrays are whole. *)
Record shm_rtu := mk_shm_rtu {
  sr_station_name : string;
  sr_ip_address : string;
  sr_vendor_id : Z;
  sr_device_id : Z;
  sr_connection_state : profinet_state;
  sr_slot_count : Z;
  sr_sensors : list shm_sensor;
  sr_sensor_count : Z;
  sr_actuators : list shm_actuator;
  sr_actuator_count : Z;
  sr_packet_loss_percent : float32 }.
#[export] Instance eta_shm_rtu : Eta shm_rtu := fun r =>
  mk_shm_rtu (sr_station_name r) (sr_ip_address r) (sr_vendor_id r) (sr_device_id r) (sr_connection_state r)
    (sr_slot_count r) (sr_sensors r) (sr_sensor_count r) (sr_actuators r) (sr_actuator_count r) (sr_packet_loss_percent r).

(** [shm_alarm_t], [shm_pid_loop_t] *)
Record shm_alarm := mk_shm_alarm {
  sl_alarm_id : Z; sl_rule_id : Z; sl_rtu_station : string; sl_slot : Z; sl_severity : alarm_severity;
  sl_state : alarm_state; sl_message : string; sl_value : float32; sl_threshold : float32;
  sl_raise_time_ms : Z; sl_ack_time_ms : Z; sl_ack_user : string }.
Record shm_pid_loop := mk_shm_pid_loop {
  sp_loop_id : Z; sp_name : string; sp_enabled : bool; sp_input_rtu : string; sp_input_slot : Z;
  sp_output_rtu : string; sp_output_slot : Z; sp_kp : float32; sp_ki : float32; sp_kd : float32;
  sp_setpoint : float32; sp_pv : float32; sp_cv : float32; sp_mode : pid_mode }.

(** [shm_discovered_device_t], a notification *)
Record shm_discovered := mk_shm_discovered {
  sd_station_name : string; sd_ip_address : string; sd_mac_address : string;
  sd_vendor_id : Z; sd_device_id : Z; sd_reachable : bool }.
Record notification := mk_notification {
  no_event_type : Z; no_station_name : string; no_message : string; no_timestamp_ms : Z }.

(** A user of a synchronisation command *)
Record ipc_user := mk_ipc_user { iu_username : string; iu_password_hash : string; iu_role : Z; iu_flags : Z }.

(** [shm_command_t]: the alternative its type selects. *)
Inductive shm_command :=
| CMD_NONE
| CMD_ACTUATOR (rtu_station : string) (slot command pwm_duty : Z)
| CMD_SETPOINT (loop_id : Z) (setpoint : float32)
| CMD_PID_MODE (loop_id : Z) (mode : pid_mode)
| CMD_ACK_ALARM (alarm_id : Z) (user : string)
| CMD_RESET_INTERLOCK (interlock_id : Z)
| CMD_ADD_RTU (station_name ip_address : string)
| CMD_REMOVE_RTU (station_name : string)
| CMD_CONNECT_RTU (station_name : string)
| CMD_DISCONNECT_RTU (station_name : string)
| CMD_DCP_DISCOVER (timeout_ms : Z)
| CMD_I2C_DISCOVER (rtu_station : string)
| CMD_ONEWIRE_DISCOVER (rtu_station : string)
| CMD_CONFIGURE_SLOT (rtu_station : string) (slot : Z) (type : slot_type) (name unit_ : string)
    (measurement : measurement_type) (actuator : actuator_type)
| CMD_USER_SYNC (all : bool) (station_name : string) (user_count : Z) (users : list ipc_user)
| CMD_UNKNOWN (type : Z).

(** [wtc_shared_memory_t] *)
Record shared_memory := mk_shared_memory {
  sm_last_update_ms : Z;
  sm_controller_running : bool;
  sm_total_rtus : Z;
  sm_connected_rtus : Z;
  sm_active_alarms : Z;
  sm_unack_alarms : Z;
  sm_rtus : list shm_rtu;
  sm_rtu_count : Z;
  sm_alarms : list shm_alarm;
  sm_alarm_count : Z;
  sm_pid_loops : list shm_pid_loop;
  sm_pid_loop_count : Z;
  sm_command : shm_command;
  sm_command_sequence : Z;
  sm_command_ack : Z;
  sm_command_result : wtc_result;
  sm_command_error_msg : string;
  sm_discovered_devices : list shm_discovered;
  sm_discovered_device_count : Z;
  sm_discovery_in_progress : bool;
  sm_discovery_complete : bool;
  sm_i2c_devices : list (Z * Z);
  sm_i2c_device_count : Z;
  sm_i2c_discovery_complete : bool;
  (** the ROM code and the family code *)
  sm_onewire_devices : list (list Z * Z);
  sm_onewire_device_count : Z;
  sm_onewire_discovery_complete : bool;
  sm_notifications : list notification;
  sm_notification_write_idx : Z }.
#[export] Instance eta_shared_memory : Eta shared_memory := fun r =>
  mk_shared_memory (sm_last_update_ms r) (sm_controller_running r) (sm_total_rtus r) (sm_connected_rtus r)
    (sm_active_alarms r) (sm_unack_alarms r) (sm_rtus r) (sm_rtu_count r) (sm_alarms r) (sm_alarm_count r)
    (sm_pid_loops r) (sm_pid_loop_count r) (sm_command r) (sm_command_sequence r) (sm_command_ack r)
    (sm_command_result r) (sm_command_error_msg r) (sm_discovered_devices r) (sm_discovered_device_count r)
    (sm_discovery_in_progress r) (sm_discovery_complete r) (sm_i2c_devices r) (sm_i2c_device_count r)
    (sm_i2c_discovery_complete r) (sm_onewire_devices r) (sm_onewire_device_count r)
    (sm_onewire_discovery_complete r) (sm_notifications r) (sm_notification_write_idx r).

(** ** The server and the components it is given *)

(** What the server uses of the PROFINET controller. *)
Class NetOps (N : Type) := {
  net_record :: RecordLink N;
  net_connect : N -> string -> string -> list slot_config -> N * wtc_result;
  net_disconnect : N -> string -> N * wtc_result;
  net_discover_all : N -> N * wtc_result;
  net_discovered : N -> Z -> option (list dcp_device_info);
  (** the bytes received, at most the length offered *)
  net_read_record : N -> string -> Z -> Z -> Z -> Z -> nat -> N * wtc_result * list Z }.

Record components (N : Type) := mk_components {
  c_registry : option registry;
  c_alarms : option alarm_manager;
  c_control : option control_engine;
  c_profinet : option N;
  c_dcp : option dcp_discovery;
  c_user_sync : option user_sync_manager }.
Arguments mk_components {N}.
Arguments c_registry {N}.
Arguments c_alarms {N}.
Arguments c_control {N}.
Arguments c_profinet {N}.
Arguments c_dcp {N}.
Arguments c_user_sync {N}.
#[export] Instance eta_components N : Eta (components N) := fun r =>
  mk_components (c_registry r) (c_alarms r) (c_control r) (c_profinet r) (c_dcp r) (c_user_sync r).

(** [struct ipc_server] *)
Record ipc_server := mk_ipc_server {
  is_shm : shared_memory;
  is_running : bool;
  is_last_command_seq : Z;
  is_discovery_start_ms : Z;
  is_discovery_timeout_ms : Z }.
#[export] Instance eta_ipc_server : Eta ipc_server := fun r =>
  mk_ipc_server (is_shm r) (is_running r) (is_last_command_seq r) (is_discovery_start_ms r) (is_discovery_timeout_ms r).

Definition zero_shm_rtu : shm_rtu :=
  mk_shm_rtu "" "" 0 0 PROFINET_STATE_OFFLINE 0 (replicate WTC_MAX_SHM_SENSORS (mk_shm_sensor 0 f0 IOPS_BAD QUALITY_GOOD 0)) 0
    (replicate WTC_MAX_SHM_ACTUATORS (mk_shm_actuator 0 0 0 false)) 0 f0.
Definition zero_shm_alarm : shm_alarm :=
  mk_shm_alarm 0 0 "" 0 ALARM_SEVERITY_LOW ALARM_STATE_CLEARED "" f0 f0 0 0 "".
Definition zero_shm_loop : shm_pid_loop := mk_shm_pid_loop 0 "" false "" 0 "" 0 f0 f0 f0 f0 f0 f0 PID_MODE_OFF.
Definition zero_shared_memory : shared_memory :=
  mk_shared_memory 0 false 0 0 0 0 (replicate WTC_MAX_SHM_RTUS zero_shm_rtu) 0 (replicate WTC_MAX_SHM_ALARMS zero_shm_alarm) 0
    (replicate SHM_PID_LOOPS zero_shm_loop) 0 CMD_NONE 0 0 WTC_OK ""
    (replicate WTC_MAX_DISCOVERY_DEVICES (mk_shm_discovered "" "" "" 0 0 false)) 0 false false
    (replicate WTC_MAX_I2C_DEVICES (0, 0)) 0 false (replicate WTC_MAX_ONEWIRE_DEVICES (replicate 8 0, 0)) 0 false
    (replicate WTC_MAX_NOTIFICATIONS (mk_notification 0 "" "" 0)) 0.

(** [ipc_server_init] after the memory is mapped; [ipc_server_start], [ipc_server_stop] *)
Definition ipc_server_init : ipc_server := mk_ipc_server zero_shared_memory false 0 0 0.
Definition ipc_server_start (s : ipc_server) : ipc_server :=
  s <| is_running := true |> <| is_shm ::= fun m => m <| sm_controller_running := true |> |>.
Definition ipc_server_stop (s : ipc_server) : ipc_server :=
  s <| is_running := false |> <| is_shm ::= fun m => m <| sm_controller_running := false |> |>.

(** The setters: the component, or no component. *)
Definition ipc_server_set_registry {N} (c : components N) v : components N := c <| c_registry := v |>.
Definition ipc_server_set_alarm_manager {N} (c : components N) v : components N := c <| c_alarms := v |>.
Definition ipc_server_set_control_engine {N} (c : components N) v : components N := c <| c_control := v |>.
Definition ipc_server_set_profinet {N} (c : components N) v : components N := c <| c_profinet := v |>.
Definition ipc_server_set_dcp {N} (c : components N) v : components N := c <| c_dcp := v |>.
Definition ipc_server_set_user_sync {N} (c : components N) v : components N := c <| c_user_sync := v |>.

(** ** Publishing *)

(** The first elements of an array replaced. *)
Definition overwrite {A} (new old : list A) : list A := new ++ drop (length new) old.

Definition shm_sensor_of (j : nat) (s : sensor_data) : shm_sensor :=
  mk_shm_sensor (Z.of_nat j) (sd_value s) (sd_status s) (sd_quality s) (sd_timestamp_ms s).
Definition shm_actuator_of (j : nat) (a : actuator_state) : shm_actuator :=
  mk_shm_actuator (Z.of_nat j) (ao_command (as_output a)) (ao_pwm_duty (as_output a)) (as_forced a).

(** One RTU of [update_rtu_data].  [total_cycles], which is copied too, is assigned nowhere in the
    registry (it is 0 from [calloc]) and left out of both records. *)
Definition publish_rtu (d : rtu_device) (r : shm_rtu) : shm_rtu :=
  mk_shm_rtu (strncpy 63 (dev_station_name d)) (strncpy 15 (dev_ip_address d)) (dev_vendor_id d) (dev_device_id d)
    (dev_connection_state d) (Z.of_nat (length (dev_slots d)))
    (overwrite (imap shm_sensor_of (take (Nat.min (Z.to_nat (dev_sensor_count d)) WTC_MAX_SHM_SENSORS) (dev_sensors d)))
       (sr_sensors r)) (dev_sensor_count d)
    (overwrite (imap shm_actuator_of (take (Nat.min (Z.to_nat (dev_actuator_count d)) WTC_MAX_SHM_ACTUATORS) (dev_actuators d)))
       (sr_actuators r)) (dev_actuator_count d)
    (dev_packet_loss_percent d).
Definition is_running_rtu (d : rtu_device) : Prop := dev_connection_state d = PROFINET_STATE_RUNNING.
#[export] Instance is_running_rtu_dec d : Decision (is_running_rtu d).
Proof. unfold is_running_rtu. apply _. Defined.

(** [update_rtu_data] *)
Definition update_rtu_data (alloc_ok : bool) (reg : option registry) (m : shared_memory) : shared_memory :=
  match reg with
  | None => m
  | Some r =>
      match rtu_registry_list_devices alloc_ok r (Z.of_nat WTC_MAX_SHM_RTUS) with
      | (WTC_OK, Some devices) =>
          m <| sm_rtu_count := Z.of_nat (length devices) |> <| sm_total_rtus := Z.of_nat (length devices) |>
            <| sm_connected_rtus := Z.of_nat (length (filter is_running_rtu devices)) |>
            <| sm_rtus ::= fun old => overwrite (zip_with publish_rtu devices old) old |>
      | _ => m
      end
  end.

(** [alarm_manager_get_active] and [control_engine_list_pid_loops] store pointers to the
    first elements of the component's own array into the caller's array of [room]
    pointers ([None]: outside it); the indices pointed to. *)
Definition list_pointers {A} (room : nat) (l : list A) (max_count : nat) : option (list nat) :=
  let n := Nat.min (length l) max_count in
  if (n <=? room)%nat then Some (seq 0 n) else None.
Definition alarm_manager_get_active (room : nat) (m : alarm_manager) (max_count : nat) : option (list nat) :=
  list_pointers room (am_active_alarms m) max_count.
Definition control_engine_list_pid_loops (room : nat) (e : control_engine) (max_count : nat) : option (list nat) :=
  list_pointers room (ce_pid_loops e) max_count.

(** [free] of the pointer variable: only of the null pointer it had before. *)
Definition free_pointers (ptrs : list nat) : option unit := match ptrs with [] => Some tt | _ => None end.

Definition shm_alarm_of (a : alarm) : shm_alarm :=
  mk_shm_alarm (al_alarm_id a) (al_rule_id a) (strncpy 63 (al_rtu_station a)) (al_slot a) (al_severity a) (al_state a)
    (strncpy 255 (al_message a)) (al_value a) (al_threshold a) (al_raise_time_ms a) (al_ack_time_ms a)
    (strncpy 63 (al_ack_user a)).
Definition unacknowledged (a : alarm) : Prop :=
  al_state a = ALARM_STATE_ACTIVE_UNACK \/ al_state a = ALARM_STATE_CLEARED_UNACK.
#[export] Instance unacknowledged_dec a : Decision (unacknowledged a).
Proof. unfold unacknowledged. apply _. Defined.

(** [update_alarm_data]: the pointer array is the one variable [alarms]. *)
Definition update_alarm_data (mgr : option alarm_manager) (m : shared_memory) : option shared_memory :=
  match mgr with
  | None => Some m
  | Some mgr =>
      match alarm_manager_get_active 1 mgr WTC_MAX_SHM_ALARMS with
      | None => None
      | Some ptrs =>
          let alarms := take (length ptrs) (am_active_alarms mgr) in
          let m := m <| sm_alarm_count := Z.of_nat (length alarms) |> <| sm_active_alarms := Z.of_nat (length alarms) |>
                     <| sm_unack_alarms := Z.of_nat (length (filter unacknowledged alarms)) |>
                     <| sm_alarms ::= overwrite (shm_alarm_of <$> alarms) |> in
          match free_pointers ptrs with Some _ => Some m | None => None end
      end
  end.

Definition shm_loop_of (l : pid_loop) : shm_pid_loop :=
  mk_shm_pid_loop (pl_loop_id l) (strncpy 63 (pl_name l)) (pl_enabled l) (strncpy 63 (pl_input_rtu l)) (pl_input_slot l)
    (strncpy 63 (pl_output_rtu l)) (pl_output_slot l) (pl_kp l) (pl_ki l) (pl_kd l) (pl_setpoint l) (pl_pv l) (pl_cv l) (pl_mode l).

(** [update_pid_data] *)
Definition update_pid_data (eng : option control_engine) (m : shared_memory) : option shared_memory :=
  match eng with
  | None => Some m
  | Some e =>
      match control_engine_list_pid_loops 1 e SHM_PID_LOOPS with
      | None => None
      | Some ptrs =>
          let loops := take (length ptrs) (ce_pid_loops e) in
          let m := m <| sm_pid_loop_count := Z.of_nat (length loops) |>
                     <| sm_pid_loops ::= overwrite (shm_loop_of <$> loops) |> in
          match free_pointers ptrs with Some _ => Some m | None => None end
      end
  end.

Definition hex2 (v : Z) : string := fmt_hex 2 v "".
(** [format_mac_address], [format_ip_address] *)
Definition format_mac_address (mac : list Z) : string :=
  strncpy 17 (hex2 (nth 0 mac 0) +:+ ":" +:+ hex2 (nth 1 mac 0) +:+ ":" +:+ hex2 (nth 2 mac 0) +:+ ":" +:+
              hex2 (nth 3 mac 0) +:+ ":" +:+ hex2 (nth 4 mac 0) +:+ ":" +:+ hex2 (nth 5 mac 0))%string.
Definition format_ip_address (ip : Z) : string :=
  (pretty (ip / 2 ^ 24) +:+ "." +:+ pretty (ip / 2 ^ 16 mod 256) +:+ "." +:+ pretty (ip / 2 ^ 8 mod 256) +:+ "." +:+
   pretty (ip mod 256))%string.
Definition shm_discovered_of (d : dcp_device_info) : shm_discovered :=
  mk_shm_discovered (strncpy 63 (dd_station_name d)) (format_ip_address (dd_ip_address d))
    (format_mac_address (dd_mac_address d)) (dd_vendor_id d) (dd_device_id d) true.

(** [dcp_discovery_callback] *)
Definition dcp_discovery_callback (d : dcp_device_info) (m : shared_memory) : shared_memory :=
  if sm_discovered_device_count m <? Z.of_nat WTC_MAX_DISCOVERY_DEVICES
  then m <| sm_discovered_devices ::= <[Z.to_nat (sm_discovered_device_count m) := shm_discovered_of d]> |>
         <| sm_discovered_device_count ::= Z.succ |>
  else m.


(** The results of a discovery through the PROFINET controller. *)
Definition harvest (devices : list dcp_device_info) (m : shared_memory) : shared_memory :=
  let found := take WTC_MAX_DISCOVERY_DEVICES devices in
  m <| sm_discovered_devices ::= overwrite (shm_discovered_of <$> found) |>
    <| sm_discovered_device_count := Z.of_nat (length found) |>.

(** ** One cycle of the server *)

Section Server.
Context {N : Type} `{NetOps N}.

(** What a call meets: clock readings, allocations, whether a frame could be sent. *)
Record ipc_env := mk_ipc_env { ie_clk : nat -> Z; ie_alloc : nat -> bool; ie_alloc_ok : bool; ie_send_ok : bool }.

(** [ipc_server_update] *)
Definition ipc_server_update (e : ipc_env) (s : ipc_server) (c : components N) : option (wtc_result * ipc_server) :=
  if negb (is_running s) then Some (WTC_ERROR_NOT_INITIALIZED, s)
  else
    let m := (is_shm s) <| sm_last_update_ms := ie_clk e 0%nat |> in
    let m := update_rtu_data (ie_alloc_ok e) (c_registry c) m in
    match update_alarm_data (c_alarms c) m with
    | None => None
    | Some m =>
        match update_pid_data (c_control c) m with
        | None => None
        | Some m =>
            match c_profinet c with
            | Some net =>
                if sm_discovery_in_progress m && (0 <? is_discovery_start_ms s) &&
                   (is_discovery_timeout_ms s <=? wrap64 (ie_clk e 1%nat - is_discovery_start_ms s))
                then
                  let m := match net_discovered net (Z.of_nat WTC_MAX_DISCOVERY_DEVICES) with
                           | Some devices => harvest devices m
                           | None => m
                           end in
                  Some (WTC_OK, s <| is_shm := m <| sm_discovery_in_progress := false |> <| sm_discovery_complete := true |> |>
                                  <| is_discovery_start_ms := 0 |>)
                else Some (WTC_OK, s <| is_shm := m |>)
            | None => Some (WTC_OK, s <| is_shm := m |>)
            end
        end
    end.

(** ** Commands *)

Notation state := (ipc_server * components N)%type.

(** The result and the error text of a command. *)
Definition rtu_command_report (cmd_name : string) (result : wtc_result) (s : ipc_server) : ipc_server :=
  s <| is_shm ::= fun m => m <| sm_command_result := result |>
     <| sm_command_error_msg :=
          if bool_decide (result = WTC_OK) then ""
          else strncpy 255 (cmd_name +:+ " failed with error " +:+ pretty (result_number result))%string |> |>.
Definition set_command_result (result : wtc_result) (s : ipc_server) : ipc_server :=
  s <| is_shm ::= fun m => m <| sm_command_result := result |> |>.

(** [handle_rtu_command] *)
Definition handle_rtu_command (e : ipc_env) (cmd : shm_command) (st : state) : wtc_result * state :=
  let '(s, c) := st in
  match cmd with
  | CMD_ADD_RTU name ip =>
      let '(result, c) :=
        match c_registry c with
        | Some r =>
            let '(result, r, _) := rtu_registry_add_device (ie_alloc e) (ie_clk e 0%nat) r name (Some ip) None 0 in
            (result, c <| c_registry := Some r |>)
        | None => (WTC_OK, c)
        end in
      (result, (rtu_command_report "add_rtu" result s, c))
  | CMD_REMOVE_RTU name =>
      let '(result, c) :=
        match c_registry c with
        | Some r =>
            let c := match c_profinet c with
                     | Some net => c <| c_profinet := Some (fst (net_disconnect net name)) |>
                     | None => c
                     end in
            let '(result, r, _) := rtu_registry_remove_device r name in
            (result, c <| c_registry := Some r |>)
        | None => (WTC_OK, c)
        end in
      (result, (rtu_command_report "remove_rtu" result s, c))
  | CMD_CONNECT_RTU name =>
      let '(result, c) :=
        match c_profinet c with
        | None => (WTC_ERROR_NOT_INITIALIZED, c)
        | Some net =>
            match (match c_registry c with Some r => rtu_registry_get_device (ie_alloc e) r name | None => None end) with
            | Some d =>
                let '(net, result) := net_connect net name (dev_ip_address d) (dev_slots d) in
                (result, c <| c_profinet := Some net |>)
            | None => (WTC_ERROR_NOT_FOUND, c)
            end
        end in
      (result, (rtu_command_report "connect_rtu" result s, c))
  | CMD_DISCONNECT_RTU name =>
      let '(result, c) :=
        match c_profinet c with
        | Some net =>
            let '(net, result) := net_disconnect net name in (result, c <| c_profinet := Some net |>)
        | None => (WTC_OK, c)
        end in
      (result, (rtu_command_report "disconnect_rtu" result s, c))
  | _ => (WTC_OK, (s <| is_shm ::= fun m => m <| sm_command_result := WTC_OK |> <| sm_command_error_msg := "" |> |>, c))
  end.

(** Entries [0, 1, ...] of a scan record, each [size] bytes from offset 1, below [max] of
    them, the announced number and the received length. *)
Definition scan_entries (size max : nat) (buf : list Z) : list (list Z) :=
  (fun i => take size (drop (1 + i * size) buf)) <$>
  filter (fun i => (1 + i * size + (size - 1) < length buf)%nat) (seq 0 (Nat.min (Z.to_nat (nth 0 buf 0)) max)).

Definition i2c_entry (b : list Z) : Z * Z := (nth 0 b 0, Z.lor (Z.shiftl (nth 1 b 0) 8) (nth 2 b 0)).
Definition onewire_entry (b : list Z) : list Z * Z := (b, nth 0 b 0).

Definition I2C_SCAN_INDEX : Z := 32800. (* 0x8020 *)
Definition ONEWIRE_SCAN_INDEX : Z := 32801. (* 0x8021 *)
Definition SCAN_BUFFER_SIZE : nat := 256.

(** [handle_discovery_command] *)
Definition handle_discovery_command (e : ipc_env) (cmd : shm_command) (st : state) : option (wtc_result * state) :=
  let '(s, c) := st in
  let discovery_started m :=
    m <| sm_discovered_device_count := 0 |> <| sm_discovery_in_progress := true |> <| sm_discovery_complete := false |> in
  match cmd with
  | CMD_DCP_DISCOVER timeout_ms =>
      match c_profinet c, c_dcp c with
      | Some net, _ =>
          let s := s <| is_shm ::= discovery_started |> <| is_discovery_start_ms := ie_clk e 0%nat |>
                     <| is_discovery_timeout_ms := if 0 <? timeout_ms then timeout_ms else 5000 |> in
          let '(net, result) := net_discover_all net in
          Some (result, (set_command_result result s, c <| c_profinet := Some net |>))
      | None, Some dcp =>
          let s := s <| is_shm ::= discovery_started |> in
          match dcp_discovery_identify_all (ie_send_ok e) (dcp_discovery_start dcp true) with
          | None => None
          | Some (result, dcp, _) => Some (result, (set_command_result result s, c <| c_dcp := Some dcp |>))
          end
      | None, None => Some (WTC_ERROR_NOT_INITIALIZED, (set_command_result WTC_ERROR_NOT_INITIALIZED s, c))
      end
  | CMD_I2C_DISCOVER station =>
      match c_profinet c with
      | None => Some (WTC_OK, (set_command_result WTC_OK s, c))
      | Some net =>
          let '(net, result, buf) := net_read_record net station 0 0 1 I2C_SCAN_INDEX SCAN_BUFFER_SIZE in
          let found := match result with WTC_OK => i2c_entry <$> scan_entries 3 WTC_MAX_I2C_DEVICES buf | _ => [] end in
          Some (result, (set_command_result result
             (s <| is_shm ::= fun m => m <| sm_i2c_devices ::= overwrite found |>
                 <| sm_i2c_device_count := Z.of_nat (length found) |> <| sm_i2c_discovery_complete := true |> |>),
             c <| c_profinet := Some net |>))
      end
  | CMD_ONEWIRE_DISCOVER station =>
      match c_profinet c with
      | None => Some (WTC_OK, (set_command_result WTC_OK s, c))
      | Some net =>
          let '(net, result, buf) := net_read_record net station 0 0 1 ONEWIRE_SCAN_INDEX SCAN_BUFFER_SIZE in
          let found := match result with WTC_OK => onewire_entry <$> scan_entries 8 WTC_MAX_ONEWIRE_DEVICES buf | _ => [] end in
          Some (result, (set_command_result result
             (s <| is_shm ::= fun m => m <| sm_onewire_devices ::= overwrite found |>
                 <| sm_onewire_device_count := Z.of_nat (length found) |> <| sm_onewire_discovery_complete := true |> |>),
             c <| c_profinet := Some net |>))
      end
  | _ => Some (WTC_OK, (set_command_result WTC_OK s, c))
  end.

(** [handle_configure_slot] *)
Definition handle_configure_slot (e : ipc_env) (cmd : shm_command) (st : state) : wtc_result * state :=
  let '(s, c) := st in
  match c_registry c, cmd with
  | Some r, CMD_CONFIGURE_SLOT station slot type name unit_ measurement actuator =>
      let config := mk_slot_config slot 1 type (strncpy (WTC_MAX_NAME - 1) name) (strncpy (WTC_MAX_UNIT - 1) unit_)
                      measurement actuator f0 f0 f0 f0 f0 f0 f0 f0 f0 true in
      let '(result, r) := rtu_registry_set_device_config (ie_alloc_ok e) r station [config] in
      (result, (set_command_result result s, c <| c_registry := Some r |>))
  | _, _ => (WTC_ERROR_NOT_INITIALIZED, st)
  end.

Definition user_of_ipc (i : nat) (u : ipc_user) : user :=
  mk_user (Z.of_nat i + 1) (strncpy (WTC_MAX_USERNAME - 1) (iu_username u)) (strncpy 255 (iu_password_hash u))
    (iu_role u) 0 0 (negb (Z.land (iu_flags u) 1 =? 0)).

(** One write of the loop over the devices: those tried and those that succeeded. *)
Definition sync_write (payload : list Z) (st : N * (Z * Z)) (d : rtu_device) : N * (Z * Z) :=
  let '(net, (total_count, success_count)) := st in
  if bool_decide (is_running_rtu d) then
    let '(net, r) := write_record net (dev_station_name d) 0 0 1 USER_SYNC_RECORD_INDEX payload in
    (net, (total_count + 1, if bool_decide (r = WTC_OK) then success_count + 1 else success_count))
  else (net, (total_count, success_count)).

(** [handle_user_sync_command] *)
Definition handle_user_sync_command (e : ipc_env) (cmd : shm_command) (st : state) : wtc_result * state :=
  let '(s, c) := st in
  match c_profinet c, cmd with
  | Some net, CMD_USER_SYNC all station user_count users =>
      let user_count := Z.min user_count (Z.of_nat IPC_USER_SYNC_MAX_USERS) in
      let users := imap user_of_ipc (take (Z.to_nat user_count) users) in
      let payload := payload_bytes (user_sync_serialize (ie_clk e 0%nat) (ie_clk e 1%nat) users) in
      let c := c <| c_user_sync ::= fmap (fun m => user_sync_cache_users m users) |> in
      let '(net, result) :=
        if negb all && negb (bool_decide (station = ""))
        then write_record net station 0 0 1 USER_SYNC_RECORD_INDEX payload
        else
          let devices := match c_registry c with
                         | Some r => match rtu_registry_list_devices (ie_alloc_ok e) r (Z.of_nat WTC_MAX_RTUS) with
                                     | (WTC_OK, Some devices) => devices
                                     | _ => []
                                     end
                         | None => []
                         end in
          let '(net, (total_count, success_count)) := foldl (sync_write payload) (net, (0, 0)) devices in
          (net, if success_count =? total_count then WTC_OK else WTC_ERROR) in
      (result, (set_command_result result s, c <| c_profinet := Some net |>))
  | _, _ => (WTC_ERROR_NOT_INITIALIZED, (set_command_result WTC_ERROR_NOT_INITIALIZED s, c))
  end.

(** The switch of [ipc_server_process_commands]. *)
Definition execute_command (e : ipc_env) (cmd : shm_command) (st : state) : option state :=
  let '(s, c) := st in
  match cmd with
  | CMD_ACTUATOR station slot command pwm_duty =>
      Some match c_registry c with
           | Some r =>
               let '(_, r) := rtu_registry_update_actuator (ie_clk e 0%nat) r station slot
                                (mk_actuator_output command pwm_duty 0 0) in
               (set_command_result WTC_OK s, c <| c_registry := Some r |>)
           | None => st
           end
  | CMD_SETPOINT loop_id setpoint =>
      Some match c_control c with
           | Some g => (set_command_result WTC_OK s, c <| c_control := Some (snd (control_engine_set_setpoint g loop_id setpoint)) |>)
           | None => st
           end
  | CMD_PID_MODE loop_id mode =>
      Some match c_control c with
           | Some g => (set_command_result WTC_OK s, c <| c_control := Some (snd (control_engine_set_pid_mode g loop_id mode)) |>)
           | None => st
           end
  | CMD_ACK_ALARM alarm_id user =>
      Some match c_alarms c with
           | Some a => (set_command_result WTC_OK s,
                        c <| c_alarms := Some (snd (alarm_manager_acknowledge (ie_clk e 0%nat) a alarm_id user)) |>)
           | None => st
           end
  | CMD_RESET_INTERLOCK interlock_id =>
      Some match c_control c with
           | Some g => (set_command_result WTC_OK s, c <| c_control := Some (snd (control_engine_reset_interlock g interlock_id)) |>)
           | None => st
           end
  | CMD_ADD_RTU _ _ | CMD_REMOVE_RTU _ | CMD_CONNECT_RTU _ | CMD_DISCONNECT_RTU _ => Some (snd (handle_rtu_command e cmd st))
  | CMD_DCP_DISCOVER _ | CMD_I2C_DISCOVER _ | CMD_ONEWIRE_DISCOVER _ => snd <$> handle_discovery_command e cmd st
  | CMD_CONFIGURE_SLOT _ _ _ _ _ _ _ => Some (snd (handle_configure_slot e cmd st))
  | CMD_USER_SYNC _ _ _ _ => Some (snd (handle_user_sync_command e cmd st))
  | CMD_NONE | CMD_UNKNOWN _ => Some (set_command_result WTC_ERROR_INVALID_PARAM s, c)
  end.

(** [ipc_server_process_commands] *)
Definition acknowledge_command (s : ipc_server) : ipc_server :=
  s <| is_last_command_seq := sm_command_sequence (is_shm s) |>
    <| is_shm ::= fun m => m <| sm_command_ack := sm_command_sequence m |> <| sm_command := CMD_NONE |> |>.
Definition ipc_server_process_commands (e : ipc_env) (st : state) : option (wtc_result * state) :=
  let '(s, c) := st in
  if negb (is_running s) then Some (WTC_ERROR_NOT_INITIALIZED, st)
  else if (sm_command_sequence (is_shm s) =? is_last_command_seq s) ||
          match sm_command (is_shm s) with CMD_NONE => true | _ => false end
  then Some (WTC_OK, st)
  else match execute_command e (sm_command (is_shm s)) st with
       | None => None
       | Some (s, c) => Some (WTC_OK, (acknowledge_command s, c))
       end.

End Server.

(** [ipc_server_post_notification] *)
Definition ipc_server_post_notification (now : Z) (s : ipc_server) (event_type : Z) (station_name message : option string)
    : ipc_server :=
  s <| is_shm ::= fun m =>
    let idx := sm_notification_write_idx m in
    m <| sm_notifications ::= <[Z.to_nat idx :=
           mk_notification event_type (strncpy 63 (default "" station_name)) (strncpy 255 (default "" message)) now]> |>
      <| sm_notification_write_idx := (idx + 1) mod Z.of_nat WTC_MAX_NOTIFICATIONS |> |>.

(** ** The command mailbox *)

(** A request of the API: the command is stored and the sequence number advanced. *)
Definition post_command (cmd : shm_command) (s : ipc_server) : ipc_server :=
  s <| is_shm ::= fun m => m <| sm_command := cmd |> <| sm_command_sequence ::= fun n => wrap32 (n + 1) |> |>.

(** A history: requests of the API and calls of [ipc_server_process_commands]. *)
Inductive ipc_event := Post (cmd : shm_command) | Process (e : ipc_env).

(** The specification: a mailbox with room for one command, emptied by each call. *)
Fixpoint deliveries (pending : option shm_command) (h : list ipc_event) : list (ipc_env * shm_command) :=
  match h, pending with
  | [], _ => []
  | Post CMD_NONE :: h, _ => deliveries None h
  | Post cmd :: h, _ => deliveries (Some cmd) h
  | Process e :: h, Some cmd => (e, cmd) :: deliveries None h
  | Process e :: h, None => deliveries None h
  end.

Section Mailbox.
Context {N : Type} `{NetOps N}.
Implicit Types (s : ipc_server) (c : components N).

Definition ipc_step (st : ipc_server * components N) (ev : ipc_event) : option (ipc_server * components N) :=
  match ev with
  | Post cmd => Some (post_command cmd (fst st), snd st)
  | Process e => snd <$> ipc_server_process_commands e st
  end.
Fixpoint ipc_run (h : list ipc_event) (st : ipc_server * components N) : option (ipc_server * components N) :=
  match h with
  | [] => Some st
  | ev :: h => match ipc_step st ev with Some st' => ipc_run h st' | None => None end
  end.

(** What a command does to the components. *)
Definition command_effect (e : ipc_env) (cmd : shm_command) (c : components N) : option (components N) :=
  snd <$> execute_command e cmd (ipc_server_init, c).
Fixpoint effects (l : list (ipc_env * shm_command)) (c : components N) : option (components N) :=
  match l with
  | [] => Some c
  | (e, cmd) :: l => match command_effect e cmd c with Some c' => effects l c' | None => None end
  end.

(** The frame condition of the handlers: what the command protocol is about. *)
Definition same_protocol (s s' : ipc_server) : Prop :=
  is_running s' = is_running s /\ is_last_command_seq s' = is_last_command_seq s /\
  sm_command_sequence (is_shm s') = sm_command_sequence (is_shm s) /\ sm_command (is_shm s') = sm_command (is_shm s).

Ltac proto := unfold same_protocol; cbn; tauto.

Lemma rtu_command_frame e cmd s c :
  snd (snd (handle_rtu_command e cmd (s, c))) = snd (snd (handle_rtu_command e cmd (ipc_server_init, c))) /\
  same_protocol s (fst (snd (handle_rtu_command e cmd (s, c)))).
Proof.
  destruct cmd; cbn; try (split; [done | proto]).
  - destruct (c_registry c); [destruct (rtu_registry_add_device _ _ _ _ _ _ _) as [[??]?] |]; split; (done || proto).
  - destruct (c_registry c); [destruct (rtu_registry_remove_device _ _) as [[??]?] |]; split; (done || proto).
  - destruct (c_profinet c); [| split; [done | proto]].
    destruct (match c_registry c with Some r => _ | None => _ end); [| split; [done | proto]].
    destruct (net_connect _ _ _ _); split; (done || proto).
  - destruct (c_profinet c); [| split; [done | proto]]. destruct (net_disconnect _ _); split; (done || proto).
Qed.

Lemma discovery_command_frame e cmd s c :
  match handle_discovery_command e cmd (s, c), handle_discovery_command e cmd (ipc_server_init, c) with
  | Some (_, (s', c')), Some (_, (_, c'')) => c' = c'' /\ same_protocol s s'
  | None, None => True
  | _, _ => False
  end.
Proof.
  destruct cmd; cbn [handle_discovery_command]; try (split; [done | proto]).
  - destruct (c_profinet c), (c_dcp c); try destruct (net_discover_all _);
      try (destruct (dcp_discovery_identify_all _ _) as [[[??]?]|]; [| done]); split; (done || proto).
  - destruct (c_profinet c); [| split; [done | proto]].
    destruct (net_read_record _ _ _ _ _ _ _) as [[??]?]; split; (done || proto).
  - destruct (c_profinet c); [| split; [done | proto]].
    destruct (net_read_record _ _ _ _ _ _ _) as [[??]?]; split; (done || proto).
Qed.

Lemma configure_slot_frame e cmd s c :
  snd (snd (handle_configure_slot e cmd (s, c))) = snd (snd (handle_configure_slot e cmd (ipc_server_init, c))) /\
  same_protocol s (fst (snd (handle_configure_slot e cmd (s, c)))).
Proof.
  unfold handle_configure_slot. destruct (c_registry c), cmd; try (split; [done | proto]).
  destruct (rtu_registry_set_device_config _ _ _ _); split; (done || proto).
Qed.

Lemma user_sync_frame e cmd s c :
  snd (snd (handle_user_sync_command e cmd (s, c))) = snd (snd (handle_user_sync_command e cmd (ipc_server_init, c))) /\
  same_protocol s (fst (snd (handle_user_sync_command e cmd (s, c)))).
Proof.
  unfold handle_user_sync_command. destruct (c_profinet c), cmd; try (split; [done | proto]).
  cbv zeta. match goal with |- context [let '(_, _) := ?x in _] => destruct x end. split; (done || proto).
Qed.

Lemma execute_frame e cmd s c :
  match execute_command e cmd (s, c) with
  | Some (s', c') => command_effect e cmd c = Some c' /\ same_protocol s s'
  | None => command_effect e cmd c = None
  end.
Proof.
  unfold command_effect.
  assert (K : forall (a b : ipc_server * components N), snd a = snd b -> same_protocol s (fst a) ->
    let '(s', c') := a in snd <$> Some b = Some c' /\ same_protocol s s')
    by (intros [??] [??] E ?; cbn in *; by subst).
  destruct cmd;
    try (cbn [execute_command]; apply K; [apply rtu_command_frame | apply rtu_command_frame]);
    try (cbn [execute_command]; apply K; [apply configure_slot_frame | apply configure_slot_frame]);
    try (cbn [execute_command]; apply K; [apply user_sync_frame | apply user_sync_frame]);
    cbn [execute_command].
  all: try match goal with |- context [handle_discovery_command ?e ?cmd (?s, ?c)] =>
    pose proof (discovery_command_frame e cmd s c) as D;
    destruct (handle_discovery_command e cmd (s, c)) as [[? [??]]|],
      (handle_discovery_command e cmd (ipc_server_init, c)) as [[? [??]]|]; try done;
    destruct D as [-> ?]; done end.
  - split; [done | proto].
  - destruct (c_registry c); [destruct (rtu_registry_update_actuator _ _ _ _ _) |]; split; (done || proto).
  - destruct (c_control c); split; (done || proto).
  - destruct (c_control c); split; (done || proto).
  - destruct (c_alarms c); split; (done || proto).
  - destruct (c_control c); split; (done || proto).
  - split; [done | proto].
Qed.

Definition pending_of (s : ipc_server) : option shm_command :=
  match sm_command (is_shm s) with CMD_NONE => None | cmd => Some cmd end.
(** [k] requests were made since the last one that was carried out. *)
Definition protocol_ok (k : Z) (s : ipc_server) : Prop :=
  is_running s = true /\ sm_command_sequence (is_shm s) = wrap32 (is_last_command_seq s + k) /\
  is_u32 (is_last_command_seq s) /\ 0 <= k /\ (pending_of s <> None -> 1 <= k).

Lemma wrap32_add_inj a k : is_u32 a -> 0 <= k < 2 ^ 32 -> wrap32 (a + k) = a -> k = 0.
Proof. unfold wrap32, is_u32. intros. destruct (decide (a + k < 2 ^ 32)); [rewrite Z.mod_small in * by lia; lia |].
  assert (E : (a + k) mod 2 ^ 32 = a + k - 2 ^ 32) by (symmetry; apply Z.mod_unique with 1; lia). lia. Qed.

Lemma process_pending e s c k : protocol_ok k s -> k < 2 ^ 32 ->
  ipc_server_process_commands e (s, c) =
  match pending_of s with
  | None => Some (WTC_OK, (s, c))
  | Some cmd => match execute_command e cmd (s, c) with
                | None => None
                | Some (s', c') => Some (WTC_OK, (acknowledge_command s', c'))
                end
  end.
Proof.
  intros (Hr & Hs & Hu & Hk & Hp) Hlt. unfold ipc_server_process_commands. rewrite Hr. cbn [negb].
  unfold pending_of in *. destruct (sm_command (is_shm s)) eqn:Ec; rewrite ?orb_true_r; try done.
  all: rewrite orb_false_r; destruct (Z.eqb_spec (sm_command_sequence (is_shm s)) (is_last_command_seq s)) as [Eq|]; [| done].
  all: rewrite Hs in Eq; apply wrap32_add_inj in Eq; [| done | lia]; specialize (Hp ltac:(done)); lia.
Qed.

Lemma protocol_ok_post cmd k s : protocol_ok k s -> protocol_ok (k + 1) (post_command cmd s).
Proof.
  intros (Hr & Hs & Hu & Hk & Hp). unfold protocol_ok, post_command; cbn.
  split_and!; try done; try lia. rewrite Hs, Z.add_assoc. unfold wrap32. by rewrite Zplus_mod_idemp_l.
Qed.
Lemma protocol_ok_acknowledge k s s' : protocol_ok k s -> same_protocol s s' -> protocol_ok 0 (acknowledge_command s').
Proof.
  intros (Hr & Hs & Hu & Hk & Hp) (E1 & E2 & E3 & E4). unfold protocol_ok, acknowledge_command; cbn.
  assert (is_u32 (sm_command_sequence (is_shm s'))) by (rewrite E3, Hs; apply Z.mod_pos_bound; lia).
  split_and!; try done; try congruence. rewrite Z.add_0_r. unfold wrap32. by rewrite Z.mod_small.
Qed.

Lemma mailbox_run h s c k :
  protocol_ok k s -> k + Z.of_nat (length h) < 2 ^ 32 ->
  snd <$> ipc_run h (s, c) = effects (deliveries (pending_of s) h) c.
Proof.
  revert s c k. induction h as [|[cmd|e] h IH]; intros s c k Hok Hlen; cbn [length] in Hlen;
    [done | |]; assert (0 <= k) by apply Hok.
  - cbn [ipc_run ipc_step fst snd]. rewrite (IH _ c (k + 1)); [| by apply protocol_ok_post | lia].
    cbn. by destruct cmd.
  - cbn [ipc_run ipc_step]. rewrite (process_pending e s c k) by (done || lia).
    pose proof (execute_frame e (default CMD_NONE (pending_of s)) s c) as F.
    destruct (pending_of s) as [cmd|] eqn:Ep; cbn [from_option id] in F; cbn [fmap option_fmap option_map snd deliveries effects].
    + destruct (execute_command e cmd (s, c)) as [[s' c']|]; [destruct F as [-> F] | by rewrite F]; cbn.
      by rewrite (IH _ c' 0); [| eapply protocol_ok_acknowledge | lia].
    + by rewrite (IH s c k), Ep by (done || lia).
Qed.

(** C10: The shared memory is a mailbox with one place: whatever the order of the requests
    the API writes and of the controller's calls, the components end as if exactly the
    commands waiting at those calls had been carried out, each once and in order.  No
    command runs twice, none runs that was not written last; two requests without a call
    between them lose the first.  (At most [2^32 - 1] requests; [None] on both sides is a
    crash of the same command.) *)
Theorem command_mailbox_refinement (h : list ipc_event) (c : components N) :
  Z.of_nat (length h) < 2 ^ 32 ->
  snd <$> ipc_run h (ipc_server_start ipc_server_init, c) = effects (deliveries None h) c.
Proof.
  intros Hlen. apply (mailbox_run h (ipc_server_start ipc_server_init) c 0); [| lia].
  unfold protocol_ok, is_u32, wrap32; cbn. split_and!; try done; lia.
Qed.

(** A command that was carried out is acknowledged with its own number. *)
Theorem command_acknowledged e s c k r s' c' :
  protocol_ok k s -> k < 2 ^ 32 -> pending_of s <> None ->
  ipc_server_process_commands e (s, c) = Some (r, (s', c')) ->
  r = WTC_OK /\ sm_command_ack (is_shm s') = sm_command_sequence (is_shm s) /\ pending_of s' = None.
Proof.
  intros Hok Hk Hp. rewrite (process_pending e s c k) by done.
  pose proof (execute_frame e (default CMD_NONE (pending_of s)) s c) as F.
  destruct (pending_of s) as [cmd|]; [| done]. cbn [from_option id] in F.
  destruct (execute_command e cmd (s, c)) as [[s2 c2]|]; [| done]. intros [= <- <- <-].
  destruct F as (_ & _ & _ & E & _). done.
Qed.

(** The command result the API reads is [WTC_OK] for an actuator, setpoint, mode,
    acknowledge or reset command whatever the component answered: here an actuator command
    to a station or slot that does not exist, which leaves the registry as it was. *)
Theorem actuator_command_reports_ok e s c r station slot command duty result r' :
  c_registry c = Some r ->
  rtu_registry_update_actuator (ie_clk e 0%nat) r station slot (mk_actuator_output command duty 0 0) = (result, r') ->
  result <> WTC_OK ->
  exists s', execute_command e (CMD_ACTUATOR station slot command duty) (s, c) = Some (s', c <| c_registry := Some r |>) /\
    sm_command_result (is_shm s') = WTC_OK.
Proof.
  intros Hr Hu Hne. assert (r' = r) as ->
    by (revert Hu; unfold rtu_registry_update_actuator; repeat case_match; intros [= <- <-]; congruence).
  eexists. cbn [execute_command]. rewrite Hr, Hu. split; reflexivity.
Qed.
End Mailbox.

(** ** What is published *)

Lemma list_pointers_nil {A} max : list_pointers (A := A) 1 [] max = Some [].
Proof. unfold list_pointers. cbn. done. Qed.
Lemma list_pointers_cons {A} (x : A) l max : (0 < max)%nat ->
  match list_pointers 1 (x :: l) max with Some ptrs => free_pointers ptrs = None | None => True end.
Proof. intros. unfold list_pointers. destruct max; [lia|]. cbn [length Nat.min].
  cbv zeta. by destruct (_ <=? _)%nat. Qed.

Lemma update_alarm_data_crash o m :
  update_alarm_data o m = None <-> exists mgr, o = Some mgr /\ am_active_alarms mgr <> [].
Proof.
  unfold update_alarm_data, alarm_manager_get_active. destruct o as [mgr|]; [| naive_solver].
  destruct (am_active_alarms mgr) as [|x l] eqn:E; [rewrite list_pointers_nil; naive_solver |].
  pose proof (list_pointers_cons x l WTC_MAX_SHM_ALARMS ltac:(unfold WTC_MAX_SHM_ALARMS; lia)) as K.
  split; [intros _; exists mgr; by rewrite E | intros _].
  destruct (list_pointers _ _ _); by rewrite ?K.
Qed.
Lemma update_pid_data_crash o m :
  update_pid_data o m = None <-> exists g, o = Some g /\ ce_pid_loops g <> [].
Proof.
  unfold update_pid_data, control_engine_list_pid_loops. destruct o as [g|]; [| naive_solver].
  destruct (ce_pid_loops g) as [|x l] eqn:E; [rewrite list_pointers_nil; naive_solver |].
  pose proof (list_pointers_cons x l SHM_PID_LOOPS ltac:(unfold SHM_PID_LOOPS; lia)) as K.
  split; [intros _; exists g; by rewrite E | intros _].
  destruct (list_pointers _ _ _); by rewrite ?K.
Qed.

(** C22: A running server crashes in its periodic update exactly when an alarm is active
    or a PID loop exists: the list functions write one pointer per element into the single
    pointer variable of the caller, which then passes it to [free]. *)
Theorem update_crashes_iff {N} `{NetOps N} e s (c : components N) :
  is_running s = true ->
  (ipc_server_update e s c = None <->
   (exists mgr, c_alarms c = Some mgr /\ am_active_alarms mgr <> []) \/
   (exists g, c_control c = Some g /\ ce_pid_loops g <> [])).
Proof.
  intros Hr. unfold ipc_server_update. rewrite Hr. cbn [negb].
  match goal with |- context [update_alarm_data _ ?m] => pose proof (update_alarm_data_crash (c_alarms c) m) as KA;
    destruct (update_alarm_data (c_alarms c) m) as [m1|] end; [| naive_solver].
  pose proof (update_pid_data_crash (c_control c) m1) as KP.
  destruct (update_pid_data (c_control c) m1) as [m2|]; [| naive_solver].
  split; [repeat case_match; done |].
  intros [K|K]; [by apply KA in K | by apply KP in K].
Qed.

Lemma overwrite_lookup {A} (new old : list A) i x : new !! i = Some x -> overwrite new old !! i = Some x.
Proof. intros. unfold overwrite. by apply lookup_app_l_Some. Qed.

Lemma published_sensor d r j v :
  (j < WTC_MAX_SHM_SENSORS)%nat -> Z.of_nat j < dev_sensor_count d -> dev_sensors d !! j = Some v ->
  sr_sensors (publish_rtu d r) !! j = Some (shm_sensor_of j v).
Proof.
  intros. cbn [publish_rtu sr_sensors]. apply overwrite_lookup. rewrite list_lookup_imap, lookup_take_lt by lia.
  by simplify_option_eq.
Qed.
Lemma published_actuator d r j v :
  (j < WTC_MAX_SHM_ACTUATORS)%nat -> Z.of_nat j < dev_actuator_count d -> dev_actuators d !! j = Some v ->
  sr_actuators (publish_rtu d r) !! j = Some (shm_actuator_of j v).
Proof.
  intros. cbn [publish_rtu sr_actuators]. apply overwrite_lookup. rewrite list_lookup_imap, lookup_take_lt by lia.
  by simplify_option_eq.
Qed.

(** The parts of the memory the other updates leave alone. *)
Definition same_rtus (m m' : shared_memory) : Prop := sm_rtus m' = sm_rtus m /\ sm_rtu_count m' = sm_rtu_count m.
Lemma update_alarm_data_rtus o m m' : update_alarm_data o m = Some m' -> same_rtus m m'.
Proof. unfold update_alarm_data, same_rtus. repeat case_match; by intros [= <-]. Qed.
Lemma update_pid_data_rtus o m m' : update_pid_data o m = Some m' -> same_rtus m m'.
Proof. unfold update_pid_data, same_rtus. repeat case_match; by intros [= <-]. Qed.

Lemma update_publishes {N} `{NetOps N} e s (c : components N) r s' :
  is_running s = true -> ipc_server_update e s c = Some (r, s') ->
  r = WTC_OK /\
  same_rtus (update_rtu_data (ie_alloc_ok e) (c_registry c) ((is_shm s) <| sm_last_update_ms := ie_clk e 0%nat |>)) (is_shm s').
Proof.
  intros Hr. unfold ipc_server_update. rewrite Hr. cbn [negb]. cbv zeta.
  destruct (update_alarm_data _ _) as [m1|] eqn:E1; [| done].
  destruct (update_pid_data _ _) as [m2|] eqn:E2; [| done].
  apply update_alarm_data_rtus in E1 as [A1 A2]. apply update_pid_data_rtus in E2 as [B1 B2].
  unfold same_rtus. rewrite <- A1, <- A2, <- B1, <- B2.
  repeat case_match; intros [= <- <-]; done.
Qed.

(** After an update every listed RTU is published at its place: names and state, and
    for the first 32 sensors and actuators the values of the registry. *)
Theorem published_rtu_data {N} `{NetOps N} e s (c : components N) reg devices r s' i d :
  is_running s = true -> c_registry c = Some reg ->
  rtu_registry_list_devices (ie_alloc_ok e) reg (Z.of_nat WTC_MAX_SHM_RTUS) = (WTC_OK, Some devices) ->
  length (sm_rtus (is_shm s)) = WTC_MAX_SHM_RTUS ->
  ipc_server_update e s c = Some (r, s') -> devices !! i = Some d ->
  r = WTC_OK /\ sm_rtu_count (is_shm s') = Z.of_nat (length devices) /\
  exists p, sm_rtus (is_shm s') !! i = Some p /\
    sr_station_name p = strncpy 63 (dev_station_name d) /\ sr_ip_address p = strncpy 15 (dev_ip_address d) /\
    sr_connection_state p = dev_connection_state d /\
    (forall j v, (j < WTC_MAX_SHM_SENSORS)%nat -> Z.of_nat j < dev_sensor_count d -> dev_sensors d !! j = Some v ->
       sr_sensors p !! j = Some (shm_sensor_of j v)) /\
    (forall j a, (j < WTC_MAX_SHM_ACTUATORS)%nat -> Z.of_nat j < dev_actuator_count d -> dev_actuators d !! j = Some a ->
       sr_actuators p !! j = Some (shm_actuator_of j a)).
Proof.
  intros Hr Hreg Hl Hlen Hu Hd. apply update_publishes in Hu as (-> & E1 & E2); [| done].
  rewrite E1, E2. unfold update_rtu_data. rewrite Hreg, Hl. cbn [sm_rtus sm_rtu_count].
  assert (Hb : (length devices <= WTC_MAX_SHM_RTUS)%nat).
  { revert Hl. unfold rtu_registry_list_devices. cbv zeta. repeat case_match; intros [= <-]; cbn [length]; try lia.
    rewrite length_take. lia. }
  split_and!; [done | done |].
  destruct (lookup_lt_is_Some_2 (sm_rtus (is_shm s)) i) as [old Ho].
  { apply lookup_lt_Some in Hd. lia. }
  exists (publish_rtu d old). split.
  { apply overwrite_lookup. by rewrite lookup_zip_with, Hd; cbn; rewrite Ho. }
  split_and!; try done; eauto using published_sensor, published_actuator.
Qed.

(** ** The shape of the shared memory *)

(** An array of [cap] elements whose count stays within it. *)
Definition area_ok {A} (cap : nat) (l : list A) (count : Z) : Prop := length l = cap /\ 0 <= count <= Z.of_nat cap.
Definition rtu_area_ok (r : shm_rtu) : Prop :=
  length (sr_sensors r) = WTC_MAX_SHM_SENSORS /\ length (sr_actuators r) = WTC_MAX_SHM_ACTUATORS.
Record shm_ok (m : shared_memory) : Prop := mk_shm_ok {
  ok_rtus : area_ok WTC_MAX_SHM_RTUS (sm_rtus m) (sm_rtu_count m);
  ok_points : Forall rtu_area_ok (sm_rtus m);
  ok_alarms : area_ok WTC_MAX_SHM_ALARMS (sm_alarms m) (sm_alarm_count m);
  ok_loops : area_ok SHM_PID_LOOPS (sm_pid_loops m) (sm_pid_loop_count m);
  ok_discovered : area_ok WTC_MAX_DISCOVERY_DEVICES (sm_discovered_devices m) (sm_discovered_device_count m);
  ok_i2c : area_ok WTC_MAX_I2C_DEVICES (sm_i2c_devices m) (sm_i2c_device_count m);
  ok_onewire : area_ok WTC_MAX_ONEWIRE_DEVICES (sm_onewire_devices m) (sm_onewire_device_count m);
  ok_notifications : length (sm_notifications m) = WTC_MAX_NOTIFICATIONS;
  ok_write_idx : 0 <= sm_notification_write_idx m < Z.of_nat WTC_MAX_NOTIFICATIONS }.

Lemma length_overwrite {A} (new old : list A) : (length new <= length old)%nat -> length (overwrite new old) = length old.
Proof. intros. unfold overwrite. rewrite length_app, length_drop. lia. Qed.
Lemma area_ok_overwrite {A} cap (l new : list A) n :
  area_ok cap l n -> (length new <= cap)%nat -> area_ok cap (overwrite new l) (Z.of_nat (length new)).
Proof. intros [H1 H2] ?. split; [rewrite length_overwrite; lia | lia]. Qed.
Lemma area_ok_zero {A} cap (l : list A) n : area_ok cap l n -> area_ok cap l 0.
Proof. unfold area_ok. lia. Qed.
Lemma area_ok_overwrite_map {A B} (f : A -> B) cap (l : list B) (new : list A) n :
  area_ok cap l n -> (length new <= cap)%nat -> area_ok cap (overwrite (f <$> new) l) (Z.of_nat (length new)).
Proof. intros. rewrite <- (length_fmap f new). apply area_ok_overwrite with n; [done |]. by rewrite length_fmap. Qed.

Lemma list_devices_bounded ok r devices max :
  rtu_registry_list_devices ok r (Z.of_nat max) = (WTC_OK, Some devices) -> (length devices <= max)%nat.
Proof.
  unfold rtu_registry_list_devices. cbv zeta. repeat case_match; intros [= <-]; cbn [length]; try lia.
  rewrite length_take. lia.
Qed.
Lemma publish_rtu_ok d r : rtu_area_ok r -> rtu_area_ok (publish_rtu d r).
Proof.
  intros [H1 H2]. split; cbn [publish_rtu sr_sensors sr_actuators];
    rewrite length_overwrite; rewrite ?length_imap, ?length_take; lia.
Qed.
Lemma Forall_zip_publish devices old : Forall rtu_area_ok old -> Forall rtu_area_ok (zip_with publish_rtu devices old).
Proof. intros Hf. revert devices. induction Hf; intros [|d ds]; cbn; auto using publish_rtu_ok. Qed.

Lemma shm_ok_update_rtu ok reg m : shm_ok m -> shm_ok (update_rtu_data ok reg m).
Proof.
  intros Hok. unfold update_rtu_data. destruct reg as [r|]; [| done].
  destruct (rtu_registry_list_devices _ _ _) as [res [devices|]] eqn:E; [| by destruct res].
  destruct res; try done. apply list_devices_bounded in E. destruct Hok. constructor; cbn; try done.
  - destruct ok_rtus0 as [L ?]. split; [| lia]. rewrite length_overwrite; rewrite ?length_zip_with; lia.
  - unfold overwrite. apply Forall_app. split; [by apply Forall_zip_publish | by apply Forall_drop].
Qed.
Lemma shm_ok_update_alarm mgr m m' : shm_ok m -> update_alarm_data mgr m = Some m' -> shm_ok m'.
Proof.
  unfold update_alarm_data. intros Hok. repeat case_match; intros [= <-]; try done. destruct Hok. constructor; cbn; try done.
  eapply area_ok_overwrite_map; [done |]. rewrite length_take.
  match goal with E : alarm_manager_get_active _ _ _ = _ |- _ => revert E end.
  unfold alarm_manager_get_active, list_pointers. case_match; intros [= <-]. rewrite length_seq. lia.
Qed.
Lemma shm_ok_update_pid g m m' : shm_ok m -> update_pid_data g m = Some m' -> shm_ok m'.
Proof.
  unfold update_pid_data. intros Hok. repeat case_match; intros [= <-]; try done. destruct Hok. constructor; cbn; try done.
  eapply area_ok_overwrite_map; [done |]. rewrite length_take.
  match goal with E : control_engine_list_pid_loops _ _ _ = _ |- _ => revert E end.
  unfold control_engine_list_pid_loops, list_pointers. case_match; intros [= <-]. rewrite length_seq. lia.
Qed.
Lemma shm_ok_harvest devices m : shm_ok m -> shm_ok (harvest devices m).
Proof.
  intros Hok. destruct Hok. constructor; cbn -[WTC_MAX_DISCOVERY_DEVICES]; try done.
  eapply area_ok_overwrite_map; [done |]. rewrite length_take. lia.
Qed.
Lemma shm_ok_callback d m : shm_ok m -> shm_ok (dcp_discovery_callback d m).
Proof.
  intros Hok. unfold dcp_discovery_callback. destruct (Z.ltb_spec (sm_discovered_device_count m) (Z.of_nat WTC_MAX_DISCOVERY_DEVICES)); [| done].
  destruct Hok. constructor; cbn -[WTC_MAX_DISCOVERY_DEVICES]; try done.
  destruct ok_discovered0. split; [by rewrite length_insert | lia].
Qed.
Lemma shm_ok_notification now s ev st msg : shm_ok (is_shm s) -> shm_ok (is_shm (ipc_server_post_notification now s ev st msg)).
Proof.
  intros Hok. destruct Hok. constructor; cbn -[WTC_MAX_NOTIFICATIONS]; try done; [by rewrite length_insert |].
  apply Z.mod_pos_bound. unfold WTC_MAX_NOTIFICATIONS. lia.
Qed.

Lemma length_scan_entries size max buf : (length (scan_entries size max buf) <= max)%nat.
Proof.
  unfold scan_entries. rewrite length_fmap.
  etransitivity; [apply (length_filter _) |]. rewrite length_seq. lia.
Qed.

Section Shape.
Context {N : Type} `{NetOps N}.
Implicit Types (s : ipc_server) (c : components N).

Lemma shm_ok_result r s : shm_ok (is_shm s) -> shm_ok (is_shm (set_command_result r s)).
Proof. by intros []. Qed.
Lemma shm_ok_report n r s : shm_ok (is_shm s) -> shm_ok (is_shm (rtu_command_report n r s)).
Proof. by intros []. Qed.

Lemma shm_ok_rtu_command e cmd s c :
  shm_ok (is_shm s) -> shm_ok (is_shm (fst (snd (handle_rtu_command e cmd (s, c))))).
Proof.
  intros Hok. unfold handle_rtu_command.
  destruct cmd; try (by destruct Hok);
    match goal with |- context [let '(_, _) := ?x in _] => destruct x end; by apply shm_ok_report.
Qed.
Lemma shm_ok_discovery_command e cmd s c r s' c' :
  shm_ok (is_shm s) -> handle_discovery_command e cmd (s, c) = Some (r, (s', c')) -> shm_ok (is_shm s').
Proof.
  intros Hok. destruct cmd; cbn [handle_discovery_command]; try (intros [= <- <- <-]; by apply shm_ok_result).
  - destruct (c_profinet c), (c_dcp c); try destruct (net_discover_all _);
      try (destruct (dcp_discovery_identify_all _ _) as [[[??]?]|]; [| done]); intros [= <- <- <-];
      destruct Hok; constructor; cbn; eauto using area_ok_zero.
  - destruct (c_profinet c); [| intros [= <- <- <-]; by apply shm_ok_result].
    destruct (net_read_record _ _ _ _ _ _ _) as [[? res] buf]. intros [= <- <- <-].
    destruct Hok; constructor; cbn; try done. eapply area_ok_overwrite; [done |].
    destruct res; try (cbn; lia). rewrite length_fmap. apply length_scan_entries.
  - destruct (c_profinet c); [| intros [= <- <- <-]; by apply shm_ok_result].
    destruct (net_read_record _ _ _ _ _ _ _) as [[? res] buf]. intros [= <- <- <-].
    destruct Hok; constructor; cbn; try done. eapply area_ok_overwrite; [done |].
    destruct res; try (cbn; lia). rewrite length_fmap. apply length_scan_entries.
Qed.
Lemma shm_ok_execute e cmd s c s' c' :
  shm_ok (is_shm s) -> execute_command e cmd (s, c) = Some (s', c') -> shm_ok (is_shm s').
Proof.
  intros Hok. destruct cmd; cbn [execute_command].
  all: try (intros [= <- <-]; by apply shm_ok_result).
  all: try match goal with |- context [handle_rtu_command ?e ?cmd (?s, ?c)] =>
    pose proof (shm_ok_rtu_command e cmd s c) as K; destruct (handle_rtu_command e cmd (s, c)) as [? [??]];
    intros [= <- <-]; by apply K end.
  all: try match goal with |- context [handle_discovery_command ?e ?cmd (?s, ?c)] =>
    pose proof (shm_ok_discovery_command e cmd s c) as K; destruct (handle_discovery_command e cmd (s, c)) as [[? [??]]|];
    [| done]; intros [= <- <-]; by eapply K end.
  - destruct (c_registry c); [destruct (rtu_registry_update_actuator _ _ _ _ _) |]; intros [= <- <-]; by try apply shm_ok_result.
  - destruct (c_control c); intros [= <- <-]; by try apply shm_ok_result.
  - destruct (c_control c); intros [= <- <-]; by try apply shm_ok_result.
  - destruct (c_alarms c); intros [= <- <-]; by try apply shm_ok_result.
  - destruct (c_control c); intros [= <- <-]; by try apply shm_ok_result.
  - unfold handle_configure_slot. destruct (c_registry c); [destruct (rtu_registry_set_device_config _ _ _ _) |];
      intros [= <- <-]; by try apply shm_ok_result.
  - unfold handle_user_sync_command. destruct (c_profinet c); [| intros [= <- <-]; by apply shm_ok_result].
    cbv zeta. match goal with |- context [let '(_, _) := ?x in _] => destruct x end.
    intros [= <- <-]. by apply shm_ok_result.
Qed.

(** Everything that writes the shared memory, in any order. *)
Inductive ipc_op :=
| IpcPost (cmd : shm_command)
| IpcProcess (e : ipc_env)
| IpcUpdate (e : ipc_env)
| IpcDiscovered (d : dcp_device_info)
| IpcNotify (now event_type : Z) (station message : option string).
Definition ipc_exec (st : ipc_server * components N) (op : ipc_op) : option (ipc_server * components N) :=
  let '(s, c) := st in
  match op with
  | IpcPost cmd => Some (post_command cmd s, c)
  | IpcProcess e => snd <$> ipc_server_process_commands e st
  | IpcUpdate e => (fun r => (snd r, c)) <$> ipc_server_update e s c
  | IpcDiscovered d => Some (s <| is_shm ::= dcp_discovery_callback d |>, c)
  | IpcNotify now ev station message => Some (ipc_server_post_notification now s ev station message, c)
  end.
Fixpoint ipc_exec_all (ops : list ipc_op) (st : ipc_server * components N) : option (ipc_server * components N) :=
  match ops with
  | [] => Some st
  | op :: ops => match ipc_exec st op with Some st' => ipc_exec_all ops st' | None => None end
  end.

Lemma shm_ok_update e s c r s' : shm_ok (is_shm s) -> ipc_server_update e s c = Some (r, s') -> shm_ok (is_shm s').
Proof.
  intros Hok. unfold ipc_server_update. destruct (negb _); [intros [= <- <-]; done |]. cbv zeta.
  destruct (update_alarm_data _ _) as [m1|] eqn:E1; [| done]. apply shm_ok_update_alarm in E1;
    [| apply shm_ok_update_rtu; by destruct Hok].
  destruct (update_pid_data _ _) as [m2|] eqn:E2; [| done]. apply shm_ok_update_pid in E2; [| done].
  assert (K : forall o, shm_ok (match o with Some devices => harvest devices m2 | None => m2 end))
    by (intros [l|]; [by apply shm_ok_harvest | done]).
  destruct (c_profinet c) as [net|]; [case_match |]; intros [= <- <-]; try done.
  destruct (K (net_discovered net (Z.of_nat WTC_MAX_DISCOVERY_DEVICES))). by constructor.
Qed.

Lemma shm_ok_exec op s c s' c' : shm_ok (is_shm s) -> ipc_exec (s, c) op = Some (s', c') -> shm_ok (is_shm s').
Proof.
  intros Hok. destruct op as [cmd|e|e|d|now ev st msg]; cbn [ipc_exec].
  - intros [= <- <-]. by destruct Hok.
  - unfold ipc_server_process_commands. destruct (negb _); [by intros [= <- <-] |].
    destruct (_ || _); [by intros [= <- <-] |].
    destruct (execute_command _ _ _) as [[s2 c2]|] eqn:E; [| done]. intros [= <- <-].
    apply shm_ok_execute in E as []; [| done]. by constructor.
  - destruct (ipc_server_update e s c) as [[r s2]|] eqn:E; [| done]. intros [= <- <-]. by eapply shm_ok_update.
  - intros [= <- <-]. by apply shm_ok_callback.
  - intros [= <- <-]. by apply shm_ok_notification.
Qed.

Lemma shm_ok_init : shm_ok (is_shm (ipc_server_start ipc_server_init)).
Proof.
  constructor; unfold area_ok, rtu_area_ok; cbn -[replicate WTC_MAX_SHM_RTUS WTC_MAX_SHM_ALARMS];
    rewrite ?length_replicate; try (split; [done | lia]); try done; try (vm_compute; done).
  apply Forall_replicate. by split.
Qed.

(** The arrays of the shared memory have constant sizes and every published count stays
    within its array, whatever commands, updates, discovery answers and notifications come
    in whatever order. *)
Theorem shared_memory_shape (ops : list ipc_op) c s' c' :
  ipc_exec_all ops (ipc_server_start ipc_server_init, c) = Some (s', c') -> shm_ok (is_shm s').
Proof.
  generalize shm_ok_init. generalize (ipc_server_start ipc_server_init). intros s. revert s c.
  induction ops as [|op ops IH]; intros s c Hok; cbn [ipc_exec_all]; [by intros [= <- <-] |].
  destruct (ipc_exec (s, c) op) as [[s1 c1]|] eqn:E; [| done]. intros. eapply IH; [| done]. by eapply shm_ok_exec.
Qed.
End Shape.

(** ** Notifications *)

Definition stored_notification (n : Z * Z * option string * option string) : notification :=
  let '(now, ev, station, message) := n in
  mk_notification ev (strncpy 63 (default "" station)) (strncpy 255 (default "" message)) now.
Definition post_notifications (l : list (Z * Z * option string * option string)) (s : ipc_server) : ipc_server :=
  foldl (fun s '(now, ev, station, message) => ipc_server_post_notification now s ev station message) s l.

Lemma post_notifications_state l :
  let m := is_shm (post_notifications l ipc_server_init) in
  length (sm_notifications m) = WTC_MAX_NOTIFICATIONS /\
  sm_notification_write_idx m = Z.of_nat (length l) mod Z.of_nat WTC_MAX_NOTIFICATIONS /\
  forall i n, l !! i = Some n -> (length l <= i + WTC_MAX_NOTIFICATIONS)%nat ->
    sm_notifications m !! (i mod WTC_MAX_NOTIFICATIONS)%nat = Some (stored_notification n).
Proof.
  induction l as [|n l IH] using rev_ind; [by split_and! |]. cbv zeta in *.
  unfold post_notifications in *. rewrite foldl_snoc. destruct IH as (L & W & IH).
  destruct n as [[[now ev] st] msg]. set (s := foldl _ _ l) in *. clearbody s.
  cbn -[WTC_MAX_NOTIFICATIONS Nat.modulo Z.modulo]. rewrite length_insert, W, length_app. cbn [length].
  assert (Ew : Z.to_nat (Z.of_nat (length l) mod Z.of_nat WTC_MAX_NOTIFICATIONS) = (length l mod WTC_MAX_NOTIFICATIONS)%nat)
    by (rewrite <- Nat2Z.inj_mod, Nat2Z.id; done).
  rewrite Ew. split_and!; [done | |].
  - rewrite Zplus_mod_idemp_l. f_equal. lia.
  - intros i x Hi Hr. apply lookup_app_Some in Hi as [Hi | [Hge Hi]].
    + rewrite list_lookup_insert_ne; [apply IH; [done | lia] |].
      apply lookup_lt_Some in Hi. intros E.
      assert (W32 : WTC_MAX_NOTIFICATIONS = 32%nat) by done. rewrite W32 in *.
      pose proof (Nat.div_mod_eq (length l) 32). pose proof (Nat.div_mod_eq i 32). lia.
    + apply list_lookup_singleton_Some in Hi as [Hi <-]. assert (i = length l) as -> by lia.
      rewrite list_lookup_insert_eq; [done |]. rewrite L. apply Nat.mod_upper_bound. done.
Qed.

(** The notification area holds the latest 32 notifications: the [i]-th one posted is
    at place [i mod 32] until 32 more have come. *)
Theorem notification_ring_keeps_last l i n :
  l !! i = Some n -> (length l <= i + WTC_MAX_NOTIFICATIONS)%nat ->
  sm_notifications (is_shm (post_notifications l ipc_server_init)) !! (i mod WTC_MAX_NOTIFICATIONS)%nat =
    Some (stored_notification n).
Proof. apply post_notifications_state. Qed.

(** ** Examples *)

(** A network on which every request succeeds and every scan returns one device. *)
#[local] Instance quiet_record : RecordLink nat := {| write_record n _ _ _ _ _ _ := (S n, WTC_OK) |}.
#[local] Instance quiet_net : NetOps nat := {|
  net_connect n _ _ _ := (S n, WTC_OK);
  net_disconnect n _ := (n, WTC_OK);
  net_discover_all n := (n, WTC_OK);
  net_discovered _ _ := Some [];
  net_read_record n _ _ _ _ _ _ := (n, WTC_OK, [1; 72; 3; 9]) |}.

Definition demo_env : ipc_env := mk_ipc_env (fun _ => 1000) (fun _ => true) true true.
Definition demo_components (r : option registry) (g : option control_engine) : components nat :=
  mk_components r None g (Some 0%nat) None None.
Definition demo_registry : registry := mk_registry false false false [].
Definition demo_history : list ipc_event :=
  [Post (CMD_ADD_RTU "lost" "10.0.0.1"); Post (CMD_ADD_RTU "rtu-1" "10.0.0.2"); Process demo_env; Process demo_env;
   Post (CMD_CONNECT_RTU "rtu-1"); Process demo_env; Process demo_env].

(** Of two requests without a call between them the first is lost; the later ones run once. *)
Lemma command_mailbox_refinement_witness :
  deliveries None demo_history = [(demo_env, CMD_ADD_RTU "rtu-1" "10.0.0.2"); (demo_env, CMD_CONNECT_RTU "rtu-1")] /\
  snd <$> ipc_run demo_history (ipc_server_start ipc_server_init, demo_components (Some demo_registry) None) =
    effects (deliveries None demo_history) (demo_components (Some demo_registry) None).
Proof. split; [reflexivity |]. apply (command_mailbox_refinement demo_history). cbn. lia. Defined.

Example demo_history_result :
  (fun c => (c_profinet c, (fun r => dev_station_name <$> reg_devices r) <$> c_registry c)) <$>
    effects (deliveries None demo_history) (demo_components (Some demo_registry) None) = Some (Some 1%nat, Some ["rtu-1"%string]).
Proof. vm_compute. reflexivity. Qed.

Definition demo_ops : list ipc_op :=
  [IpcPost (CMD_I2C_DISCOVER "rtu-1"); IpcProcess demo_env; IpcNotify 5 1 None (Some "up"%string); IpcUpdate demo_env].
Definition is_some {A} (o : option A) : bool := match o with Some _ => true | None => false end.
Lemma shared_memory_shape_witness :
  match ipc_exec_all demo_ops (ipc_server_start ipc_server_init, demo_components None None) with
  | Some (s, _) => shm_ok (is_shm s)
  | None => False
  end.
Proof.
  assert (B : is_some (ipc_exec_all demo_ops (ipc_server_start ipc_server_init, demo_components None None)) = true) by reflexivity.
  destruct (ipc_exec_all demo_ops _) as [[s c]|] eqn:E; [| discriminate B].
  exact (shared_memory_shape demo_ops (demo_components None None) s c E).
Defined.

Example demo_scan :
  (fun st => (sm_i2c_device_count (is_shm (fst st)), take 1 (sm_i2c_devices (is_shm (fst st))))) <$>
    ipc_exec_all demo_ops (ipc_server_start ipc_server_init, demo_components None None) = Some (1, [(72, 777)]).
Proof. vm_compute. reflexivity. Qed.

(** One PID loop is enough for the update to crash, none and it returns. *)
Lemma update_crashes_iff_witness :
  ipc_server_update demo_env (ipc_server_start ipc_server_init)
    (demo_components None (Some (snd (control_engine_add_pid_loop (control_engine_init 0 false false) PidDemo.loop0)))) = None.
Proof.
  apply (update_crashes_iff demo_env (ipc_server_start ipc_server_init)); [reflexivity |].
  right. eexists. split; [reflexivity | discriminate].
Defined.
