(* ===== verification/ModbusTcp.v ===== *)
(** * The Modbus/TCP transport

    Model of [src/modbus/modbus_tcp.c]: frames with the MBAP header, the server thread with
    its table of clients, and the client that sends a request and waits for the answer.

    A socket is the bytes that will arrive on it; reading with [MSG_WAITALL] takes the
    bytes asked for, or whatever is there when the time is over.  What the operating
    system answers (an accepted connection, a peer that closed, the outcome of a connect)
    is an argument.  The lock is explicit: locking it twice is [None], as is an access
    outside an array.  [p0] is the content an uninitialised PDU happens to have. *)

From S2P Require Import Prelude Float32 Types Registry Pid ControlEngine Crc Modbus RegisterMap ModbusGateway.

Definition MODBUS_TCP_HEADER_LEN : nat := 7.
Definition MODBUS_TCP_MAX_ADU_LEN : nat := 260.
Definition MODBUS_TCP_MAX_CONNECTIONS : nat := 32.

#[export] Instance eta_modbus_stats : Eta modbus_stats := fun r =>
  mk_modbus_stats (ms_requests_sent r) (ms_requests_received r) (ms_responses_sent r) (ms_responses_received r)
    (ms_exceptions r) (ms_timeouts r) (ms_crc_errors r) (ms_bytes_sent r) (ms_bytes_received r).
Definition inc64 (n : Z) : Z := wrap64 (n + 1).

(** ** Frames *)

Definition u16_bytes (v : Z) : list Z := [Z.land (Z.shiftr v 8) 255; Z.land v 255].

(** [tcp_send_frame]: the bytes handed to [send]. *)
Definition tcp_send_frame (unit_id trans_id : Z) (pdu : modbus_pdu) : option (list Z) :=
  let n := Z.to_nat (pdu_data_len pdu) in
  if (PDU_DATA <? n)%nat then None
  else Some (u16_bytes trans_id ++ u16_bytes 0 ++ u16_bytes (wrap16 (2 + pdu_data_len pdu)) ++
             [unit_id; pdu_function_code pdu] ++ take n (pdu_data pdu)).

(** [recv] of [n] bytes with [MSG_WAITALL]. *)
Definition recv_all (n : nat) (sock : list Z) : option (list Z) * list Z :=
  (if (n <=? length sock)%nat then Some (take n sock) else None, drop n sock).

(** [tcp_recv_frame]: unit, transaction and PDU over the previous content [p0], and the
    bytes left in the socket. *)
Definition tcp_recv_frame (p0 : modbus_pdu) (sock : list Z) : option (Z * Z * modbus_pdu) * list Z :=
  match recv_all MODBUS_TCP_HEADER_LEN sock with
  | (None, sock) => (None, sock)
  | (Some h, sock) =>
      let trans_id := modbus_get_uint16_be h 0 in
      let protocol_id := modbus_get_uint16_be h 2 in
      let len := modbus_get_uint16_be h 4 in
      let unit_id := byte_at h 6 in
      if negb (protocol_id =? 0) || (len <? 2) || (Z.of_nat MODBUS_MAX_PDU_LEN + 1 <? len) then (None, sock)
      else
        match recv_all (Z.to_nat (len - 1)) sock with
        | (None, sock) => (None, sock)
        | (Some b, sock) =>
            (Some (unit_id, trans_id,
                   mk_modbus_pdu (byte_at b 0) (copy_bytes (Z.to_nat (len - 2)) (drop 1 b) (pdu_data p0)) (len - 2)), sock)
        end
  end.

(** ** The context *)

(** [tcp_client_t] *)
Record tcp_client := mk_tcp_client { tc_fd : Z; tc_ip : string; tc_last_activity_ms : Z; tc_active : bool }.
#[export] Instance eta_tcp_client : Eta tcp_client := fun r =>
  mk_tcp_client (tc_fd r) (tc_ip r) (tc_last_activity_ms r) (tc_active r).

(** [modbus_tcp_config_t] *)
Record modbus_tcp_config := mk_modbus_tcp_config {
  mc_server : bool;
  mc_bind_address : string;
  mc_port : Z;
  mc_timeout_ms : Z;
  mc_max_connections : Z;
  mc_has_handler : bool }.
#[export] Instance eta_modbus_tcp_config : Eta modbus_tcp_config := fun r =>
  mk_modbus_tcp_config (mc_server r) (mc_bind_address r) (mc_port r) (mc_timeout_ms r) (mc_max_connections r) (mc_has_handler r).

(** [struct modbus_tcp]; the sockets of server and client as "is open". *)
Record modbus_tcp := mk_modbus_tcp {
  mt_config : modbus_tcp_config;
  mt_server_open : bool;
  mt_client_open : bool;
  mt_running : bool;
  mt_clients : list tcp_client;
  mt_client_count : Z;
  mt_transaction_id : Z;
  mt_stats : modbus_stats;
  mt_locked : bool }.
#[export] Instance eta_modbus_tcp : Eta modbus_tcp := fun r =>
  mk_modbus_tcp (mt_config r) (mt_server_open r) (mt_client_open r) (mt_running r) (mt_clients r) (mt_client_count r)
    (mt_transaction_id r) (mt_stats r) (mt_locked r).

Definition zero_tcp_client : tcp_client := mk_tcp_client 0 "" 0 false.

(** [modbus_tcp_init] *)
Definition modbus_tcp_init (alloc_ok : bool) (config : modbus_tcp_config) : wtc_result * option modbus_tcp :=
  if negb alloc_ok then (WTC_ERROR_NO_MEMORY, None)
  else
    let config := if (mc_max_connections config =? 0) || (Z.of_nat MODBUS_TCP_MAX_CONNECTIONS <? mc_max_connections config)
                  then config <| mc_max_connections := Z.of_nat MODBUS_TCP_MAX_CONNECTIONS |> else config in
    let config := if mc_timeout_ms config =? 0 then config <| mc_timeout_ms := 5000 |> else config in
    (WTC_OK, Some (mk_modbus_tcp config false false false (replicate MODBUS_TCP_MAX_CONNECTIONS zero_tcp_client) 0 0 zero_stats false)).

(** [pthread_mutex_lock] by the thread that runs ([None]: it holds the lock already and
    waits for itself), [pthread_mutex_unlock]. *)
Definition lock (t : modbus_tcp) : option modbus_tcp := if mt_locked t then None else Some (t <| mt_locked := true |>).
Definition unlock (t : modbus_tcp) : modbus_tcp := t <| mt_locked := false |>.
(** A counter changed under the lock. *)
Definition with_lock (f : modbus_stats -> modbus_stats) (t : modbus_tcp) : option modbus_tcp :=
  match lock t with Some t => Some (unlock (t <| mt_stats ::= f |>)) | None => None end.
Definition bind_tcp {A B} (o : option A) (f : A -> option B) : option B := match o with Some a => f a | None => None end.
Notation "'let+' x := m 'in' k" := (bind_tcp m (fun x => k)) (at level 200, x name, k at level 200).

(** [modbus_tcp_server_start] ([socket_ok], [bind_ok], [listen_ok], [thread_ok]: what the
    system answers), [modbus_tcp_server_stop]. *)
Definition modbus_tcp_server_start (socket_ok bind_ok listen_ok thread_ok : bool) (t : modbus_tcp) : wtc_result * modbus_tcp :=
  if negb (mc_server (mt_config t)) then (WTC_ERROR_INVALID_PARAM, t)
  else if negb socket_ok then (WTC_ERROR_IO, t <| mt_server_open := false |>)
  else if negb bind_ok || negb listen_ok then (WTC_ERROR_IO, t <| mt_server_open := false |>)
  else if negb thread_ok then (WTC_ERROR_INTERNAL, t <| mt_server_open := false |> <| mt_running := false |>)
  else (WTC_OK, t <| mt_server_open := true |> <| mt_running := true |>).
Definition modbus_tcp_server_stop (t : modbus_tcp) : modbus_tcp :=
  if negb (mt_running t) then t
  else t <| mt_running := false |> <| mt_clients ::= fmap (fun c => c <| tc_active := false |>) |>
         <| mt_client_count := 0 |> <| mt_server_open := false |>.

(** ** The server *)

Section Server.
(** [config.request_handler] on its own state: exception code and response. *)
Context {T : Type} (request_handler : T -> Z -> modbus_pdu -> modbus_pdu -> T * modbus_pdu * Z).

Definition zero_pdu : modbus_pdu := mk_modbus_pdu 0 (replicate PDU_DATA 0) 0.

(** [handle_client_request]: the context, the handler's state, the bytes left in the
    socket and the bytes sent ([send_ok]: the peer takes them). *)
Definition handle_client_request (p0 : modbus_pdu) (send_ok : bool) (t : modbus_tcp) (st : T) (sock : list Z)
    : option (modbus_tcp * T * list Z * list Z) :=
  match tcp_recv_frame p0 sock with
  | (None, sock) => Some (t, st, sock, [])
  | (Some (unit_id, trans_id, request), sock) =>
      let+ t := with_lock (fun s => s <| ms_requests_received ::= inc64 |>) t in
      let '(st, response, ex) :=
        if mc_has_handler (mt_config t) then request_handler st unit_id request zero_pdu
        else (st, zero_pdu, MODBUS_EX_SLAVE_DEVICE_FAILURE) in
      let+ r :=
        if ex =? MODBUS_EX_NONE then Some (t, response)
        else let+ t := with_lock (fun s => s <| ms_exceptions ::= inc64 |>) t in
             Some (t, mk_modbus_pdu (Z.lor (pdu_function_code request) 128) (<[0%nat := ex]> (pdu_data response)) 1) in
      let '(t, response) := r in
      let+ frame := tcp_send_frame unit_id trans_id response in
      if send_ok then let+ t := with_lock (fun s => s <| ms_responses_sent ::= inc64 |>) t in Some (t, st, sock, frame)
      else Some (t, st, sock, [])
  end.

(** What [select] and [recv] report for one client. *)
Inductive client_event := Quiet | Closed | Data (sock : list Z) (send_ok : bool).

(** Accepting a connection. *)
Fixpoint free_slot (clients : list tcp_client) : option nat :=
  match clients with
  | [] => None
  | c :: rest => if tc_active c then S <$> free_slot rest else Some 0%nat
  end.
Definition accept_client (now fd : Z) (ip : string) (t : modbus_tcp) : option modbus_tcp :=
  let+ t := lock t in
  let t := match free_slot (mt_clients t) with
           | Some slot =>
               if mt_client_count t <? mc_max_connections (mt_config t)
               then t <| mt_clients ::= <[slot := mk_tcp_client fd (strncpy 63 ip) now true]> |> <| mt_client_count ::= Z.succ |>
               else t
           | None => t
           end in
  Some (unlock t).

(** One client of the loop over the table, with the lock held before and after. *)
Definition serve_client (now : Z) (p0 : modbus_pdu) (ev : client_event) (i : nat) (x : modbus_tcp * T) : option (modbus_tcp * T) :=
  let '(t, st) := x in
  match mt_clients t !! i with
  | None => None
  | Some c =>
      if negb (tc_active c) then Some (t, st)
      else
        match ev with
        | Quiet => Some (t, st)
        | Closed =>
            let t := unlock t in
            let+ t := lock t in
            let t := t <| mt_clients ::= alter (fun c => c <| tc_active := false |>) i |> <| mt_client_count ::= Z.pred |> in
            let t := unlock t in
            let+ t := lock t in
            Some (t, st)
        | Data sock send_ok =>
            let t := unlock t in
            let+ r := handle_client_request p0 send_ok t st sock in
            let '(t, st, _, _) := r in
            let+ t := lock t in
            let t := t <| mt_clients ::= alter (fun c => c <| tc_last_activity_ms := now |>) i |> in
            let+ t := lock t in
            Some (t, st)
        end
  end.
Fixpoint serve_clients (now : Z) (p0 : modbus_pdu) (evs : list client_event) (i : nat) (x : modbus_tcp * T) : option (modbus_tcp * T) :=
  match evs with
  | [] => Some x
  | ev :: evs => let+ x := serve_client now p0 ev i x in serve_clients now p0 evs (i + 1) x
  end.

(** One pass of [server_thread_func]: [select] reported something; a new connection, if
    any, and the events of the clients in the order of the table. *)
Definition server_pass (now : Z) (p0 : modbus_pdu) (conn : option (Z * string)) (evs : list client_event) (x : modbus_tcp * T)
    : option (modbus_tcp * T) :=
  let '(t, st) := x in
  let+ t := match conn with Some (fd, ip) => accept_client now fd ip t | None => Some t end in
  let+ t := lock t in
  let+ r := serve_clients now p0 (take MODBUS_TCP_MAX_CONNECTIONS evs) 0 (t, st) in
  let '(t, st) := r in
  Some (unlock t, st).

End Server.

(** ** The client *)

(** What the system answers to the steps of [modbus_tcp_connect]. *)
Inductive connect_answer := ConnectDone | ConnectRefused | ConnectPending (select_ready : bool) (error_set : bool) (so_error : bool).

(** [modbus_tcp_disconnect], [modbus_tcp_is_connected], [modbus_tcp_connect] *)
Definition modbus_tcp_disconnect (t : modbus_tcp) : modbus_tcp := t <| mt_client_open := false |>.
Definition modbus_tcp_is_connected (t : modbus_tcp) : bool := mt_client_open t.
Definition modbus_tcp_connect (socket_ok address_ok : bool) (answer : connect_answer) (t : modbus_tcp) : wtc_result * modbus_tcp :=
  if mc_server (mt_config t) then (WTC_ERROR_INVALID_PARAM, t)
  else
    let t := modbus_tcp_disconnect t in
    if negb socket_ok then (WTC_ERROR_IO, t)
    else if negb address_ok then (WTC_ERROR_INVALID_PARAM, t)
    else
      match answer with
      | ConnectRefused => (WTC_ERROR_IO, t)
      | ConnectPending false _ _ => (WTC_ERROR_TIMEOUT, t)
      | ConnectPending true true _ => (WTC_ERROR_IO, t)
      | ConnectPending true false true => (WTC_ERROR_IO, t)
      | ConnectPending true false false | ConnectDone => (WTC_OK, t <| mt_client_open := true |>)
      end.

(** [modbus_tcp_cleanup] frees the context after these. *)
Definition modbus_tcp_cleanup (t : modbus_tcp) : modbus_tcp := modbus_tcp_disconnect (modbus_tcp_server_stop t).

(** What the peer does with the bytes sent: the bytes that have arrived on the socket when
    the answer is awaited (after [sock], which was there before). *)
Definition peer := list Z -> list Z.

(** [modbus_tcp_transact]: [send_ok] says whether all bytes were taken.  The response PDU
    is [p0] as the caller has it; the socket follows. *)
Definition modbus_tcp_transact (send_ok : bool) (answer : peer) (t : modbus_tcp) (sock : list Z) (unit_id : Z)
    (request p0 : modbus_pdu) : option (wtc_result * modbus_tcp * list Z * modbus_pdu) :=
  if negb (mt_client_open t) then Some (WTC_ERROR_INVALID_PARAM, t, sock, p0)
  else
    let t := t <| mt_transaction_id ::= fun n => wrap16 (n + 1) |> in
    let trans_id := mt_transaction_id t in
    match tcp_send_frame unit_id trans_id request with
    | None => None
    | Some frame =>
        if negb send_ok then Some (WTC_ERROR_IO, t <| mt_stats ::= fun s => s <| ms_timeouts ::= inc64 |> |>, sock, p0)
        else
          let t := t <| mt_stats ::= fun s => s <| ms_requests_sent ::= inc64 |> |> in
          match tcp_recv_frame p0 (sock ++ answer frame) with
          | (None, sock) => Some (WTC_ERROR_TIMEOUT, t <| mt_stats ::= fun s => s <| ms_timeouts ::= inc64 |> |>, sock, p0)
          | (Some (_, resp_trans_id, response), sock) =>
              if negb (resp_trans_id =? trans_id) then Some (WTC_ERROR_PROTOCOL, t, sock, response)
              else
                let t := t <| mt_stats ::= fun s => s <| ms_responses_received ::= inc64 |> |> in
                let t := if modbus_is_exception response then t <| mt_stats ::= fun s => s <| ms_exceptions ::= inc64 |> |> else t in
                Some (WTC_OK, t, sock, response)
          end
    end.

(** [modbus_tcp_read_holding_registers], [modbus_tcp_read_input_registers]: the values on
    success ([p0], [p0']: the uninitialised request and response). *)
Definition read_registers (fc : Z) (send_ok : bool) (answer : peer) (t : modbus_tcp) (sock : list Z)
    (unit_id start_addr quantity : Z) (p0 p0' : modbus_pdu) : option (wtc_result * modbus_tcp * list Z * list Z) :=
  if MODBUS_MAX_READ_REGISTERS <? quantity then Some (WTC_ERROR_INVALID_PARAM, t, sock, [])
  else
    match modbus_tcp_transact send_ok answer t sock unit_id (snd (modbus_build_read_request p0 fc start_addr quantity)) p0' with
    | None => None
    | Some (WTC_OK, t, sock, response) =>
        if modbus_is_exception response then Some (WTC_ERROR_PROTOCOL, t, sock, [])
        else if negb (byte_at (pdu_data response) 0 =? quantity * 2) then Some (WTC_ERROR_PROTOCOL, t, sock, [])
        else Some (WTC_OK, t, sock, (fun i => modbus_get_uint16_be (pdu_data response) (1 + i * 2)) <$> seq 0 (Z.to_nat quantity))
    | Some (res, t, sock, _) => Some (res, t, sock, [])
    end.
Definition modbus_tcp_read_holding_registers := read_registers MODBUS_FC_READ_HOLDING_REGISTERS.
Definition modbus_tcp_read_input_registers := read_registers MODBUS_FC_READ_INPUT_REGISTERS.

(** [modbus_tcp_read_coils], [modbus_tcp_read_discrete_inputs] with a caller's array of
    [room] bytes: [None] when the copy reads after the PDU's array or writes after the
    caller's. *)
Definition read_bits (fc : Z) (send_ok : bool) (answer : peer) (t : modbus_tcp) (sock : list Z)
    (unit_id start_addr quantity : Z) (room : nat) (p0 p0' : modbus_pdu) : option (wtc_result * modbus_tcp * list Z * list Z) :=
  if MODBUS_MAX_READ_BITS <? quantity then Some (WTC_ERROR_INVALID_PARAM, t, sock, [])
  else
    match modbus_tcp_transact send_ok answer t sock unit_id (snd (modbus_build_read_request p0 fc start_addr quantity)) p0' with
    | None => None
    | Some (WTC_OK, t, sock, response) =>
        if modbus_is_exception response then Some (WTC_ERROR_PROTOCOL, t, sock, [])
        else
          let byte_count := Z.to_nat (byte_at (pdu_data response) 0) in
          if (PDU_DATA <? 1 + byte_count)%nat || (room <? byte_count)%nat then None
          else Some (WTC_OK, t, sock, take byte_count (drop 1 (pdu_data response)))
    | Some (res, t, sock, _) => Some (res, t, sock, [])
    end.
Definition modbus_tcp_read_coils := read_bits MODBUS_FC_READ_COILS.
Definition modbus_tcp_read_discrete_inputs := read_bits MODBUS_FC_READ_DISCRETE_INPUTS.

(** The writes: the result of the builder is not looked at. *)
Definition transact_write (send_ok : bool) (answer : peer) (t : modbus_tcp) (sock : list Z) (unit_id : Z)
    (request p0' : modbus_pdu) : option (wtc_result * modbus_tcp * list Z) :=
  match modbus_tcp_transact send_ok answer t sock unit_id request p0' with
  | None => None
  | Some (res, t, sock, _) => Some (res, t, sock)
  end.
Definition modbus_tcp_write_single_coil send_ok answer t sock unit_id addr value p0 p0' :=
  transact_write send_ok answer t sock unit_id (snd (modbus_build_write_single_coil p0 addr value)) p0'.
Definition modbus_tcp_write_single_register send_ok answer t sock unit_id addr value p0 p0' :=
  transact_write send_ok answer t sock unit_id (snd (modbus_build_write_single_register p0 addr value)) p0'.
Definition modbus_tcp_write_multiple_coils send_ok answer t sock unit_id start_addr quantity values p0 p0' :=
  transact_write send_ok answer t sock unit_id (snd (modbus_build_write_multiple_coils p0 start_addr quantity values)) p0'.
Definition modbus_tcp_write_multiple_registers send_ok answer t sock unit_id start_addr quantity values p0 p0' :=
  transact_write send_ok answer t sock unit_id (snd (modbus_build_write_multiple_registers p0 start_addr quantity values)) p0'.

Definition modbus_tcp_get_stats (t : modbus_tcp) : modbus_stats := mt_stats t.
Definition modbus_tcp_get_connection_count (t : modbus_tcp) : Z := mt_client_count t.

(** ** Frames are read back *)

Definition pdu_ok (p : modbus_pdu) : Prop :=
  length (pdu_data p) = PDU_DATA /\ 0 <= pdu_data_len p <= Z.of_nat PDU_DATA.

(** A PDU received over the previous content [p0]. *)
Definition received_pdu (p p0 : modbus_pdu) : modbus_pdu :=
  mk_modbus_pdu (pdu_function_code p)
    (copy_bytes (Z.to_nat (pdu_data_len p)) (pdu_data p) (pdu_data p0)) (pdu_data_len p).

Lemma u16_bytes_back v : is_u16 v -> wrap16 (Z.lor (Z.shiftl (Z.land (Z.shiftr v 8) 255) 8) (Z.land v 255)) = v.
Proof. intros. exact (get16_set16 [0; 0] 0 v ltac:(cbn; lia) H). Qed.

Lemma recv_all_app (a b : list Z) n : length a = n -> recv_all n (a ++ b) = (Some a, b).
Proof.
  intros <-. unfold recv_all. rewrite length_app, take_app_length, drop_app_length.
  by destruct (Nat.leb_spec (length a) (length a + length b)); [| lia].
Qed.

Lemma tcp_frame_back u t p p0 f rest :
  pdu_ok p -> is_u16 t -> tcp_send_frame u t p = Some f ->
  tcp_recv_frame p0 (f ++ rest) = (Some (u, t, received_pdu p p0), rest).
Proof.
  intros [Hl Hn] Ht Hf. unfold tcp_send_frame in Hf. cbv zeta in Hf.
  destruct (PDU_DATA <? Z.to_nat (pdu_data_len p))%nat; [done |]. apply (inj Some) in Hf as <-.
  set (n := pdu_data_len p) in *.
  assert (Hlen : wrap16 (2 + n) = 2 + n).
  { unfold wrap16. change PDU_DATA with 252%nat in *. apply Z.mod_small. lia. }
  rewrite Hlen.
  assert (Hu : is_u16 (2 + n)) by (change PDU_DATA with 252%nat in *; unfold is_u16; lia).
  assert (E : (u16_bytes t ++ u16_bytes 0 ++ u16_bytes (2 + n) ++ [u; pdu_function_code p] ++ take (Z.to_nat n) (pdu_data p)) ++ rest =
     (u16_bytes t ++ u16_bytes 0 ++ u16_bytes (2 + n) ++ [u]) ++ (pdu_function_code p :: take (Z.to_nat n) (pdu_data p)) ++ rest)
    by reflexivity.
  unfold tcp_recv_frame. rewrite E, recv_all_app by done.
  cbn [u16_bytes app modbus_get_uint16_be byte_at nth Nat.add]. unfold modbus_get_uint16_be, byte_at. cbn [nth Nat.add].
  rewrite (u16_bytes_back t), (u16_bytes_back (2 + n)) by done.
  change (wrap16 (Z.lor (Z.shiftl (Z.land (Z.shiftr 0 8) 255) 8) (Z.land 0 255)) =? 0) with true. cbn [negb orb].
  change PDU_DATA with 252%nat in *. unfold MODBUS_MAX_PDU_LEN.
  destruct (Z.ltb_spec (2 + n) 2); [lia |]. destruct (Z.ltb_spec (Z.of_nat 253 + 1) (2 + n)); [lia |]. cbn [orb].
  rewrite (recv_all_app (pdu_function_code p :: take (Z.to_nat n) (pdu_data p)) rest)
    by (cbn [length]; rewrite length_take, Hl; lia).
  change (drop 1 (pdu_function_code p :: take (Z.to_nat n) (pdu_data p))) with (take (Z.to_nat n) (pdu_data p)).
  cbn [nth]. do 2 f_equal. unfold received_pdu. fold n. replace (2 + n - 2) with n by lia. f_equal.
  unfold copy_bytes. by rewrite take_take, Nat.min_id.
Qed.

(** Whatever bytes arrive, a received PDU fits its array: at most 252 bytes of data,
    and the array has 252 bytes before and after. *)
Theorem tcp_received_pdu_fits p0 sock u t p rest :
  length (pdu_data p0) = PDU_DATA -> tcp_recv_frame p0 sock = (Some (u, t, p), rest) -> pdu_ok p.
Proof.
  intros Hl. unfold tcp_recv_frame, recv_all. destruct (_ <=? length sock)%nat; [| done]. cbv zeta.
  destruct (_ || _ || _) eqn:E; [done |]. rewrite !orb_false_iff in E. destruct E as [[_ ?%Z.ltb_ge] ?%Z.ltb_ge].
  match goal with |- context [(?n <=? length ?x)%nat] => destruct (Nat.leb_spec n (length x)); [| done] end.
  intros [= <- <- <- <-]. unfold pdu_ok, MODBUS_MAX_PDU_LEN, PDU_DATA in *. cbn [pdu_data pdu_data_len].
  split; [| lia]. unfold copy_bytes. rewrite length_app, !length_take, !length_drop, Hl, !length_take, length_drop in *. lia.
Qed.

(** ** The server *)

Section ServerTheorems.
Context {T : Type} (request_handler : T -> Z -> modbus_pdu -> modbus_pdu -> T * modbus_pdu * Z).

(** The answer to a request: the handler's response or the exception. *)
Definition answer_pdu (request response : modbus_pdu) (ex : Z) : modbus_pdu :=
  if ex =? MODBUS_EX_NONE then response
  else mk_modbus_pdu (Z.lor (pdu_function_code request) 128) (<[0%nat := ex]> (pdu_data response)) 1.

Lemma with_lock_free f t : mt_locked t = false -> with_lock f t = Some (t <| mt_stats ::= f |>).
Proof. intros E. unfold with_lock, lock. rewrite E. destruct t; cbn in *. by subst. Qed.

(** A request that arrives as a frame is answered by one frame with the same
    transaction and unit numbers, carrying the handler's response or its exception code
    with the function code's top bit set, and counted once. *)
Theorem request_answered p0 t st u tid request frame rest st' response ex :
  mt_locked t = false -> mc_has_handler (mt_config t) = true ->
  pdu_ok request -> is_u16 tid -> tcp_send_frame u tid request = Some frame ->
  request_handler st u (received_pdu request p0) zero_pdu = (st', response, ex) -> pdu_ok response ->
  exists t' out, handle_client_request request_handler p0 true t st (frame ++ rest) = Some (t', st', rest, out) /\
    tcp_send_frame u tid (answer_pdu request response ex) = Some out /\
    mt_clients t' = mt_clients t /\ mt_client_count t' = mt_client_count t /\ mt_config t' = mt_config t /\ mt_locked t' = false /\
    mt_stats t' = (mt_stats t) <| ms_requests_received ::= inc64 |>
      <| ms_exceptions ::= fun n => if ex =? MODBUS_EX_NONE then n else inc64 n |> <| ms_responses_sent ::= inc64 |>.
Proof.
  intros Hl Hh Hp Ht Hf Hr Hresp. unfold handle_client_request. rewrite (tcp_frame_back u tid request p0 frame rest) by done.
  rewrite with_lock_free by done. cbn [bind_tcp mt_config]. cbn. rewrite Hh, Hr.
  assert (Hok : exists out, tcp_send_frame u tid (answer_pdu request response ex) = Some out).
  { unfold tcp_send_frame, answer_pdu. destruct (ex =? MODBUS_EX_NONE); [| cbn; eauto].
    destruct Hresp. cbv zeta. destruct (Nat.ltb_spec PDU_DATA (Z.to_nat (pdu_data_len response))); [lia | eauto]. }
  destruct Hok as [out Hout]. unfold answer_pdu in *. destruct (ex =? MODBUS_EX_NONE).
  - cbn [bind_tcp]. rewrite Hout. cbn [bind_tcp]. rewrite with_lock_free by done. cbn [bind_tcp].
    eexists _, out. split; [reflexivity |]. by split_and!.
  - rewrite with_lock_free by done. cbn [bind_tcp]. rewrite Hout. cbn [bind_tcp]. rewrite with_lock_free by done. cbn [bind_tcp].
    eexists _, out. split; [reflexivity |]. by split_and!.
Qed.

Lemma handle_request_unlocked p0 ok t st sock t' st' rest out :
  mt_locked t = false -> handle_client_request request_handler p0 ok t st sock = Some (t', st', rest, out) ->
  mt_locked t' = false.
Proof.
  intros Hl. unfold handle_client_request. destruct (tcp_recv_frame p0 sock) as [[[[u tid] request]|] sock'];
    [| by intros [= <- <- <- <-]].
  rewrite with_lock_free by done. cbn [bind_tcp]. destruct (if mc_has_handler _ then _ else _) as [[st1 response] ex].
  destruct (ex =? MODBUS_EX_NONE); cbn [bind_tcp]; [| rewrite with_lock_free by done; cbn [bind_tcp]];
    (destruct (tcp_send_frame _ _ _); [| done]); cbn [bind_tcp];
    (destruct ok; [rewrite with_lock_free by done; cbn [bind_tcp] |]); by intros [= <- <- <- <-].
Qed.

Lemma serve_data_deadlocks now p0 sock ok i t st c :
  mt_clients t !! i = Some c -> tc_active c = true ->
  serve_client request_handler now p0 (Data sock ok) i (t, st) = None.
Proof.
  intros Hc Ha. unfold serve_client. rewrite Hc, Ha. cbn [negb].
  destruct (handle_client_request _ _ _ _ _ _) as [[[[t' st'] rest] out]|] eqn:E; [| done]. cbn [bind_tcp].
  apply handle_request_unlocked in E; [| done]. unfold lock. rewrite E. done.
Qed.

(** The other events do not touch the other clients. *)
Lemma serve_client_other now p0 ev i t st t' st' j :
  serve_client request_handler now p0 ev i (t, st) = Some (t', st') -> j <> i -> mt_clients t' !! j = mt_clients t !! j.
Proof.
  unfold serve_client. destruct (mt_clients t !! i) as [c|] eqn:Hc; [| done].
  destruct (tc_active c) eqn:Ha; cbn [negb]; [| by intros [= <- <-]].
  destruct ev as [| |sock ok]; [by intros [= <- <-] | |].
  - cbn. intros [= <- <-] ?. cbn. by rewrite list_lookup_alter_ne.
  - intros E. pose proof (serve_data_deadlocks now p0 sock ok i t st c Hc Ha) as K. unfold serve_client in K.
    rewrite Hc, Ha in K. cbn [negb] in K. rewrite K in E. done.
Qed.

Lemma serve_clients_no_request now p0 evs i t st r j sock ok c :
  serve_clients request_handler now p0 evs i (t, st) = Some r ->
  evs !! j = Some (Data sock ok) -> mt_clients t !! (i + j)%nat = Some c -> tc_active c = false.
Proof.
  revert i t st j. induction evs as [|ev evs IH]; intros i t st j; [done |]. cbn [serve_clients].
  destruct (serve_client _ _ _ ev i (t, st)) as [[t1 st1]|] eqn:E; [| done]. cbn [bind_tcp]. intros Hr Hj Hc.
  destruct j as [|j].
  - injection Hj as ->. rewrite Nat.add_0_r in Hc. destruct (tc_active c) eqn:Ha; [| done].
    by rewrite (serve_data_deadlocks now p0 sock ok i t st c Hc Ha) in E.
  - apply (IH (i + 1)%nat t1 st1 j); [done.. |]. rewrite (serve_client_other _ _ _ _ _ _ _ _ _ E) by lia.
    by replace (i + 1 + j)%nat with (i + S j)%nat by lia.
Qed.

(** C24: The server stops for ever at the first byte a client sends: after the request is
    handled the thread takes the lock it holds.  A pass of the server thread returns only
    if no connected client has sent anything. *)
Theorem server_serves_no_request now p0 evs t st r i sock ok c :
  server_pass request_handler now p0 None evs (t, st) = Some r ->
  (i < MODBUS_TCP_MAX_CONNECTIONS)%nat -> evs !! i = Some (Data sock ok) -> mt_clients t !! i = Some c ->
  tc_active c = false.
Proof.
  unfold server_pass. cbn [bind_tcp]. unfold lock. destruct (mt_locked t); [done |]. cbn [bind_tcp].
  intros Hr Hi He Hc. destruct (serve_clients _ _ _ _ _ _) as [r'|] eqn:E; [| done].
  eapply (serve_clients_no_request now p0 _ 0 _ st r' i); [exact E | by rewrite lookup_take_lt | done].
Qed.
End ServerTheorems.

(** ** The client *)

(** A server that answers every request with one frame of the same transaction. *)
Definition answers_in_order (answer : peer) : Prop :=
  forall u tid request frame, pdu_ok request -> is_u16 tid -> tcp_send_frame u tid request = Some frame ->
    exists u' response, pdu_ok response /\ tcp_send_frame u' tid response = Some (answer frame).

Lemma send_frame_some u tid p : pdu_ok p -> exists f, tcp_send_frame u tid p = Some f.
Proof.
  intros [? Hn]. unfold tcp_send_frame. cbv zeta.
  destruct (Nat.ltb_spec PDU_DATA (Z.to_nat (pdu_data_len p))); [lia | eauto].
Qed.

Lemma wrap16_is_u16 v : is_u16 (wrap16 v).
Proof. unfold is_u16, wrap16. apply Z.mod_pos_bound. lia. Qed.

(** With nothing left over in the socket the answer is the one to the request. *)
Lemma transact_answered answer t u request p0 frame u' response :
  mt_client_open t = true -> pdu_ok request -> pdu_ok response ->
  tcp_send_frame u (wrap16 (mt_transaction_id t + 1)) request = Some frame ->
  tcp_send_frame u' (wrap16 (mt_transaction_id t + 1)) response = Some (answer frame) ->
  exists t', modbus_tcp_transact true answer t [] u request p0 = Some (WTC_OK, t', [], received_pdu response p0) /\
    mt_client_open t' = true.
Proof.
  intros Ho Hq Hp Hf Ha. unfold modbus_tcp_transact. rewrite Ho. cbn -[tcp_recv_frame tcp_send_frame wrap16]. rewrite Hf. cbn [app].
  pose proof (tcp_frame_back u' (wrap16 (mt_transaction_id t + 1)) response p0 (answer frame) [] Hp (wrap16_is_u16 _) Ha) as K.
  rewrite app_nil_r in K. rewrite K, Z.eqb_refl. cbn [negb].
  eexists. split; [reflexivity |]. by destruct (modbus_is_exception _).
Qed.

(** An answer to the last request is still unread. *)
Definition answer_unread (t : modbus_tcp) (sock : list Z) : Prop :=
  mt_client_open t = true /\ is_u16 (mt_transaction_id t) /\
  exists u p, pdu_ok p /\ tcp_send_frame u (mt_transaction_id t) p = Some sock.

Lemma transact_late answer t sock u request p0 :
  answers_in_order answer -> answer_unread t sock -> pdu_ok request ->
  exists t' sock' p', modbus_tcp_transact true answer t sock u request p0 = Some (WTC_ERROR_PROTOCOL, t', sock', p') /\
    answer_unread t' sock'.
Proof.
  intros Hans (Ho & Hid & u0 & p & Hp & Hs) Hq.
  destruct (send_frame_some u (wrap16 (mt_transaction_id t + 1)) request Hq) as [frame Hf].
  destruct (Hans u _ request frame Hq (wrap16_is_u16 _) Hf) as (u' & resp & Hresp & Hra).
  unfold modbus_tcp_transact. rewrite Ho. cbn -[tcp_recv_frame tcp_send_frame wrap16]. rewrite Hf.
  rewrite (tcp_frame_back u0 (mt_transaction_id t) p p0 sock (answer frame)) by done.
  destruct (Z.eqb_spec (mt_transaction_id t) (wrap16 (mt_transaction_id t + 1))) as [E|].
  { unfold wrap16, is_u16 in *. destruct (decide (mt_transaction_id t = 65535)) as [E'|]; [rewrite E' in E; done |].
    rewrite Z.mod_small in E by lia. lia. }
  cbn [negb]. eexists _, _, _. split; [reflexivity |]. split_and!; [done | apply wrap16_is_u16 |]. exists u', resp. done.
Qed.

(** The results of a sequence of requests. *)
Fixpoint transact_all (answer : peer) (t : modbus_tcp) (sock : list Z) (p0 : modbus_pdu) (reqs : list (Z * modbus_pdu))
    : option (list wtc_result) :=
  match reqs with
  | [] => Some []
  | (u, request) :: reqs =>
      match modbus_tcp_transact true answer t sock u request p0 with
      | Some (res, t, sock, p0) => (fun l => res :: l) <$> transact_all answer t sock p0 reqs
      | None => None
      end
  end.

(** One answer that comes after its time-out disables the connection: when it is still
    in the socket every later request reads the answer before its own and fails, however
    many follow and although the server answers each of them. *)
Theorem late_answer_fails_all answer t sock p0 reqs :
  answers_in_order answer -> answer_unread t sock -> Forall (fun r => pdu_ok (snd r)) reqs ->
  transact_all answer t sock p0 reqs = Some (replicate (length reqs) WTC_ERROR_PROTOCOL).
Proof.
  intros Hans Hu Hr. revert t sock p0 Hu. induction Hr as [|[u request] reqs Hq _ IH]; intros t sock p0 Hu; [done |].
  cbn [transact_all]. destruct (transact_late answer t sock u request p0 Hans Hu Hq) as (t' & sock' & p' & -> & Hu').
  by rewrite (IH t' sock' p' Hu').
Qed.

(** ** A read through both ends *)

Section EndToEnd.
Context {W : Type} `{ModbusLinks W} (ub : float32 -> Z).

(** The gateway as the handler of the server. *)
Definition gateway_handler (clk : nat -> Z) (st : modbus_gateway * plant W) (unit_id : Z) (request response : modbus_pdu)
    : modbus_gateway * plant W * modbus_pdu * Z :=
  let '(ex, response, gw, p) := handle_server_request ub clk (fst st) (snd st) request response in
  ((gw, p), response, ex).

(** The server as the client's peer. *)
Definition server_peer (clk : nat -> Z) (p0 : modbus_pdu) (t : modbus_tcp) (st : modbus_gateway * plant W) : peer := fun frame =>
  match handle_client_request (gateway_handler clk) p0 true t st frame with Some (_, _, _, out) => out | None => [] end.

Lemma get16_received p p0 i :
  length (pdu_data p) = PDU_DATA -> (i + 1 < Z.to_nat (pdu_data_len p))%nat -> (Z.to_nat (pdu_data_len p) <= PDU_DATA)%nat ->
  modbus_get_uint16_be (pdu_data (received_pdu p p0)) i = modbus_get_uint16_be (pdu_data p) i.
Proof.
  intros Hl Hi Hn. unfold modbus_get_uint16_be, byte_at, received_pdu, copy_bytes. cbn [pdu_data].
  rewrite !nth_lookup, !lookup_app_l by (rewrite length_take; lia). by rewrite !lookup_take_lt by lia.
Qed.
Lemma byte_received p p0 i :
  length (pdu_data p) = PDU_DATA -> (i < Z.to_nat (pdu_data_len p))%nat -> (Z.to_nat (pdu_data_len p) <= PDU_DATA)%nat ->
  byte_at (pdu_data (received_pdu p p0)) i = byte_at (pdu_data p) i.
Proof.
  intros Hl Hi Hn. unfold byte_at, received_pdu, copy_bytes. cbn [pdu_data].
  rewrite !nth_lookup, !lookup_app_l by (rewrite length_take; lia). by rewrite !lookup_take_lt by lia.
Qed.

Lemma read_request_ok p0 fc start n :
  length (pdu_data p0) = PDU_DATA -> is_u16 start -> is_u16 n ->
  let r := snd (modbus_build_read_request p0 fc start n) in
  pdu_ok r /\ pdu_function_code r = fc /\
  forall p1, modbus_get_uint16_be (pdu_data (received_pdu r p1)) 0 = start /\
             modbus_get_uint16_be (pdu_data (received_pdu r p1)) 2 = n.
Proof.
  intros Hl Hs Hn. cbn [modbus_build_read_request snd]. cbv zeta.
  assert (L : length (modbus_set_uint16_be (modbus_set_uint16_be (pdu_data p0) 0 start) 2 n) = PDU_DATA) by by rewrite !length_set16.
  split_and!; [split; [done | cbn [pdu_data_len]; unfold PDU_DATA; lia] | done |]. intros p1.
  rewrite !get16_received by (try done; cbn [pdu_data_len]; unfold PDU_DATA; lia). cbn [pdu_data].
  change PDU_DATA with 252%nat in *. split.
  - rewrite get16_set16_ne by lia. apply get16_set16; [lia | done].
  - apply get16_set16; [rewrite length_set16; lia | done].
Qed.

(** The client gets, for each register, what the gateway's read loop computes. *)
Lemma holding_registers_read clk gw (p : plant W) ts t unit_id start n p0 p0' ps :
  mt_client_open t = true -> mt_locked ts = false -> mc_has_handler (mt_config ts) = true ->
  is_u16 start -> 0 <= n <= 125 ->
  length (pdu_data p0) = PDU_DATA -> length (pdu_data p0') = PDU_DATA ->
  exists t' values,
    modbus_tcp_read_holding_registers true (server_peer clk ps ts (gw, p)) t [] unit_id start n p0 p0' = Some (WTC_OK, t', [], values) /\
    length values = Z.to_nat n /\
    forall i, Z.of_nat i < n -> exists q, p_registry q = p_registry p /\ p_control q = p_control p /\
      values !! i = Some (register_reading ub clk gw MODBUS_REG_HOLDING start q i).
Proof.
  intros Ho Hlk Hh Hs Hn Hl Hl'. unfold modbus_tcp_read_holding_registers, read_registers.
  unfold MODBUS_MAX_READ_REGISTERS. destruct (Z.ltb_spec 125 n); [lia |].
  destruct (read_request_ok p0 MODBUS_FC_READ_HOLDING_REGISTERS start n Hl Hs ltac:(unfold is_u16; lia)) as (Hq & Hfc & Hget).
  set (request := snd (modbus_build_read_request p0 MODBUS_FC_READ_HOLDING_REGISTERS start n)) in *. clearbody request.
  set (tid := wrap16 (mt_transaction_id t + 1)).
  destruct (send_frame_some unit_id tid request Hq) as [frame Hf].
  pose proof (read_registers_spec ub clk gw p (received_pdu request ps) zero_pdu MODBUS_FC_READ_HOLDING_REGISTERS MODBUS_REG_HOLDING
    start n ltac:(set_solver) Hfc ltac:(done) (proj1 (Hget ps)) (proj2 (Hget ps)) ltac:(lia)) as R.
  destruct (handle_server_request ub clk gw p (received_pdu request ps) zero_pdu) as [[[ex resp] gw'] p'] eqn:Eh.
  destruct (Z.ltb_spec 125 n); [lia |]. destruct R as (-> & Rfc & Rlen & Rl & Rfit & Rcount & Rv).
  assert (Hresp : pdu_ok resp) by (split; [done | lia]).
  assert (Hx : gateway_handler clk (gw, p) unit_id (received_pdu request ps) zero_pdu = ((gw', p'), resp, MODBUS_EX_NONE))
    by (unfold gateway_handler; cbn [fst snd]; by rewrite Eh).
  destruct (request_answered (gateway_handler clk) ps ts (gw, p) unit_id tid request frame [] (gw', p') resp MODBUS_EX_NONE
    Hlk Hh Hq (wrap16_is_u16 _) Hf Hx Hresp) as (ts' & out & Eo & Hout & _).
  cbn [answer_pdu] in Hout. rewrite app_nil_r in Eo.
  assert (Ep : server_peer clk ps ts (gw, p) frame = out) by (unfold server_peer; by rewrite Eo).
  destruct (transact_answered (server_peer clk ps ts (gw, p)) t unit_id request p0' frame unit_id resp) as (t' & Et & _);
    [done | done | done | done | by rewrite Ep |].
  rewrite Et. unfold modbus_is_exception. cbn [received_pdu pdu_function_code]. rewrite Rfc.
  change (negb (Z.land MODBUS_FC_READ_HOLDING_REGISTERS 128 =? 0)) with false. cbn iota.
  rewrite byte_received by lia. rewrite Rcount, Z.mul_comm, Z.eqb_refl. cbn [negb].
  eexists t', _. split; [reflexivity |]. split; [by rewrite length_fmap, length_seq |].
  intros i Hi. destruct (Rv i Hi) as (q & Q1 & Q2 & Q3). exists q. split_and!; [done | done |].
  rewrite list_lookup_fmap, lookup_seq_lt by lia. cbn [fmap option_fmap option_map Nat.add]. f_equal.
  rewrite <- Q3. apply get16_received; lia.
Qed.
(** *** What a register stands for *)

(** The only enabled holding register of the map at an address *)
Definition entry_at (gw : modbus_gateway) (addr : Z) (m : register_mapping) : Prop :=
  let at_addr m := rm_modbus_addr m = addr /\ rm_reg_type m = MODBUS_REG_HOLDING /\ rm_enabled m = true in
  m ∈ map_registers (gw_register_map gw) /\ at_addr m /\
  forall m', m' ∈ map_registers (gw_register_map gw) -> at_addr m' -> m' = m.

(** The value in the plant it is mapped to, read at time [now] *)
Inductive source_value (now : Z) (gw : modbus_gateway) (p : plant W) (m : register_mapping) : float32 -> Prop :=
| value_of_sensor s :
    rm_source m = DATA_SOURCE_PROFINET_SENSOR -> gw_registry gw = true ->
    rtu_registry_get_sensor now (p_registry p) (rm_rtu_station m) (rm_slot m) zero_sensor = (WTC_OK, s) ->
    source_value now gw p m (sd_value s)
| value_of_actuator a :
    rm_source m = DATA_SOURCE_PROFINET_ACTUATOR -> gw_registry gw = true ->
    rtu_registry_get_actuator (p_registry p) (rm_rtu_station m) (rm_slot m) = (WTC_OK, Some a) ->
    source_value now gw p m (f32_of_Z (ao_pwm_duty (as_output a)))
| value_of_setpoint l :
    rm_source m = DATA_SOURCE_PID_SETPOINT -> gw_control gw = true ->
    control_engine_get_pid_loop (p_control p) (rm_pid_loop_id m) = Some l -> source_value now gw p m (pl_setpoint l)
| value_of_pv l :
    rm_source m = DATA_SOURCE_PID_PV -> gw_control gw = true ->
    control_engine_get_pid_loop (p_control p) (rm_pid_loop_id m) = Some l -> source_value now gw p m (pl_pv l)
| value_of_cv l :
    rm_source m = DATA_SOURCE_PID_CV -> gw_control gw = true ->
    control_engine_get_pid_loop (p_control p) (rm_pid_loop_id m) = Some l -> source_value now gw p m (pl_cv l).

(** Its scaling: none, or the line through (raw_min, eng_min) and (raw_max, eng_max) plus the
    offset, in single precision *)
Inductive scaled_value (sc : scaling) (x : float32) : float32 -> Prop :=
| unscaled : sca_enabled sc = false -> scaled_value sc x x
| on_the_line :
    sca_enabled sc = true -> feq (fsub (sca_raw_max sc) (sca_raw_min sc)) f0 = false ->
    scaled_value sc x
      (fadd (fadd (fmul (fdiv (fsub x (sca_raw_min sc)) (fsub (sca_raw_max sc) (sca_raw_min sc)))
                        (fsub (sca_eng_max sc) (sca_eng_min sc))) (sca_eng_min sc)) (sca_offset sc)).

(** Its 16-bit word: the integer part, in two's complement when the type is signed *)
Inductive word_of (data_type : Z) (y : float32) : Z -> Prop :=
| word_unsigned z : data_type = MODBUS_DTYPE_UINT16 -> f32_trunc y = Some z -> 0 <= z < 65536 -> word_of data_type y z
| word_signed z : data_type = MODBUS_DTYPE_INT16 -> f32_trunc y = Some z -> -32768 <= z < 32768 ->
    word_of data_type y (z mod 65536).

Lemma entry_at_found gw addr m :
  entry_at gw addr m -> register_map_get_register (gw_register_map gw) MODBUS_REG_HOLDING addr = Some m.
Proof.
  intros (Hin & Hm & Huniq). destruct (register_map_get_register _ _ _) as [m'|] eqn:E.
  - apply get_register_spec in E as (H1 & H2 & H3 & H4). f_equal. by apply Huniq.
  - unfold register_map_get_register in E. apply find_entry_None in E. rewrite Forall_forall in E.
    by destruct (E m Hin).
Qed.

Lemma source_value_read now gw p m x : source_value now gw p m x -> snd (read_raw_value now gw p m) = x.
Proof.
  intros [s E1 E2 E3|a E1 E2 E3|l E1 E2 E3|l E1 E2 E3|l E1 E2 E3]; unfold read_raw_value; rewrite E1, E2;
    cbn -[rtu_registry_get_sensor rtu_registry_get_actuator]; by rewrite E3.
Qed.

Lemma source_value_same now gw p q m x :
  p_registry q = p_registry p -> p_control q = p_control p -> source_value now gw p m x -> source_value now gw q m x.
Proof. intros Hr Hc [?|?|?|?|?]; [eapply value_of_sensor|eapply value_of_actuator|eapply value_of_setpoint
  |eapply value_of_pv|eapply value_of_cv]; by rewrite ?Hr, ?Hc. Qed.

Lemma scaled_value_scale sc x y : scaled_value sc x y -> register_map_scale_value sc x = y.
Proof. intros [E|E1 E2]; unfold register_map_scale_value; [by rewrite E|by rewrite E1, E2]. Qed.

Lemma register_reading_value clk gw start q i m x y z :
  entry_at gw (start + Z.of_nat i) m -> start + Z.of_nat i < 65536 -> is_u16 start ->
  source_value (clk i) gw q m x -> scaled_value (rm_scaling m) x y -> word_of (rm_data_type m) y z ->
  register_reading ub clk gw MODBUS_REG_HOLDING start q i = z.
Proof.
  intros He Hlt Hu Hx Hy Hz. unfold register_reading, wrap16, is_u16 in *.
  rewrite Z.mod_small by lia. rewrite (entry_at_found _ _ _ He). unfold read_register_value.
  apply source_value_read in Hx. destruct (read_raw_value _ _ _ _) as [p' raw]. cbn [snd] in Hx |- *. subst raw.
  rewrite (scaled_value_scale _ _ _ Hy). unfold cast_u16, cast_i16_u16, f32_to_u16, f32_to_i16, wrap16.
  destruct Hz as [z Ed Et Hz|z Ed Et Hz]; rewrite Ed, Et; cbn -[Z.pow Z.modulo].
  - destruct (Z.leb_spec 0 z), (Z.ltb_spec z (2 ^ 16)); try lia. apply Z.mod_small. lia.
  - destruct (Z.leb_spec (- 2 ^ 15) z), (Z.ltb_spec z (2 ^ 15)); try lia. done.
Qed.

(** C17: Through both ends of the connection: a client that reads up to 125 holding
    registers gets success and, for each register that the map gives to exactly one enabled
    16-bit entry (UINT16 or INT16) for a sensor, an actuator or a PID value that can be
    read, the word of that value: scaled on the line the entry describes and cut to an
    integer (which fits the type).  The requests are answered by [handle_client_request]
    called without the server's lock; what the server thread does with the lock is
    [server_serves_no_request].  Entries of 32 bits are not covered: the gateway answers them
    with one truncated word. *)
Theorem holding_registers_end_to_end clk gw (p : plant W) ts t unit_id start n p0 p0' ps :
  mt_client_open t = true -> mt_locked ts = false -> mc_has_handler (mt_config ts) = true ->
  is_u16 start -> 0 <= n <= 125 -> start + n <= 65536 ->
  length (pdu_data p0) = PDU_DATA -> length (pdu_data p0') = PDU_DATA ->
  exists t' values,
    modbus_tcp_read_holding_registers true (server_peer clk ps ts (gw, p)) t [] unit_id start n p0 p0' = Some (WTC_OK, t', [], values) /\
    length values = Z.to_nat n /\
    forall i m x y z, Z.of_nat i < n -> entry_at gw (start + Z.of_nat i) m ->
      source_value (clk i) gw p m x -> scaled_value (rm_scaling m) x y -> word_of (rm_data_type m) y z ->
      values !! i = Some z.
Proof.
  intros Ho Hlk Hh Hs Hn Hfit Hl Hl'.
  destruct (holding_registers_read clk gw p ts t unit_id start n p0 p0' ps) as (t' & values & E & Hlen & Hv); try done.
  exists t', values. split_and!; [done|done|]. intros i m x y z Hi He Hx Hy Hz.
  destruct (Hv i Hi) as (q & Hr & Hc & ->). f_equal.
  eapply register_reading_value; [exact He|lia|done|by eapply source_value_same|exact Hy|exact Hz].
Qed.
End EndToEnd.

(** ** The table of clients *)

Definition is_active (c : tcp_client) : Prop := tc_active c = true.
#[export] Instance is_active_dec c : Decision (is_active c).
Proof. unfold is_active. apply _. Defined.
Definition active_clients (l : list tcp_client) : nat := length (filter is_active l).
Definition table_ok (t : modbus_tcp) : Prop :=
  length (mt_clients t) = MODBUS_TCP_MAX_CONNECTIONS /\ mt_client_count t = Z.of_nat (active_clients (mt_clients t)) /\
  mt_client_count t <= mc_max_connections (mt_config t) <= Z.of_nat MODBUS_TCP_MAX_CONNECTIONS.

Lemma active_insert l i c c' :
  l !! i = Some c ->
  (active_clients (<[i := c']> l) + (if tc_active c then 1 else 0) = active_clients l + (if tc_active c' then 1 else 0))%nat.
Proof.
  intros Hi. rewrite insert_take_drop by (by apply lookup_lt_Some in Hi). unfold active_clients.
  rewrite <- (take_drop_middle l i c Hi) at 3. rewrite !filter_app, !filter_cons, !length_app.
  unfold is_active. repeat case_decide; destruct (tc_active c), (tc_active c'); try done; cbn [length]; lia.
Qed.
Lemma alter_insert_at {A} (f : A -> A) (l : list A) (i : nat) c : l !! i = Some c -> alter f i l = <[i := f c]> l.
Proof. revert i. induction l as [|x l IH]; intros [|i]; cbn; [done | done | by intros [= ->] | intros; f_equal; by apply IH]. Qed.
Lemma free_slot_inactive l i : free_slot l = Some i -> exists c, l !! i = Some c /\ tc_active c = false.
Proof.
  revert i. induction l as [|c l IH]; intros i; [done |]. cbn. destruct (tc_active c) eqn:E; [| intros [= <-]; eauto].
  destruct (free_slot l) as [j|]; [| done]. intros [= <-]. destruct (IH j eq_refl) as (c' & ? & ?). eauto.
Qed.

Lemma table_ok_accept now fd ip t t' : table_ok t -> accept_client now fd ip t = Some t' -> table_ok t' /\ mt_locked t' = false.
Proof.
  intros (H1 & H2 & H3 & H4). unfold accept_client, lock. destruct (mt_locked t); [done |]. cbn [bind_tcp].
  intros [= <-]. split; [| done]. cbn. destruct (free_slot (mt_clients t)) as [slot|] eqn:E; [| done].
  destruct (Z.ltb_spec (mt_client_count t) (mc_max_connections (mt_config t))); [| done]. cbn.
  destruct (free_slot_inactive _ _ E) as (c & Hc & Ha).
  pose proof (active_insert (mt_clients t) slot c (mk_tcp_client fd (strncpy 63 ip) now true) Hc) as K.
  rewrite Ha in K. cbn [tc_active] in K.
  set (l := <[slot := _]> _) in *. assert (Hl : length l = length (mt_clients t)) by apply length_insert. clearbody l.
  unfold table_ok; cbn -[MODBUS_TCP_MAX_CONNECTIONS active_clients]. split_and!; [congruence | lia | lia | lia].
Qed.

Lemma table_ok_serve {T} (h : T -> Z -> modbus_pdu -> modbus_pdu -> T * modbus_pdu * Z) now p0 evs i x x' :
  table_ok (fst x) -> mt_locked (fst x) = true -> serve_clients h now p0 evs i x = Some x' ->
  table_ok (fst x') /\ mt_locked (fst x') = true.
Proof.
  revert i x. induction evs as [|ev evs IH]; intros i [t st] Hok Hl; cbn [serve_clients]; [by intros [= <-] |].
  destruct (serve_client h now p0 ev i (t, st)) as [[t1 st1]|] eqn:E; [| done]. cbn [bind_tcp]. cbn [fst] in *.
  enough (table_ok t1 /\ mt_locked t1 = true) as [??] by by apply IH.
  unfold serve_client in E; destruct (mt_clients t !! i) as [c|] eqn:Hc; [| done].
  destruct (tc_active c) eqn:Ha; cbn [negb] in E; [| by injection E as <- <-].
  destruct ev as [| |sock ok]; [by injection E as <- <- | |
    pose proof (serve_data_deadlocks h now p0 sock ok i t st c Hc Ha) as K; unfold serve_client in K;
    rewrite Hc, Ha in K; cbn [negb] in K; by rewrite K in E].
  cbn in E; injection E as <- <-; split; [| done].
  destruct Hok as (H1 & H2 & H3 & H4).
  pose proof (active_insert (mt_clients t) i c (c <| tc_active := false |>) Hc) as K. rewrite Ha in K. cbn [tc_active] in K.
  assert (E : alter (fun c => c <| tc_active := false |>) i (mt_clients t) = <[i := c <| tc_active := false |>]> (mt_clients t))
    by (by rewrite (alter_insert_at _ _ _ c)).
  unfold table_ok; cbn -[MODBUS_TCP_MAX_CONNECTIONS active_clients]. cbn in E. rewrite E, length_insert.
  cbn -[MODBUS_TCP_MAX_CONNECTIONS active_clients] in K. split_and!; [done | lia | lia | lia].
Qed.

(** The table of clients is consistent: the count is the number of active entries and
    stays within the configured maximum, for every connection and disconnection. *)
Theorem client_table_invariant {T} (h : T -> Z -> modbus_pdu -> modbus_pdu -> T * modbus_pdu * Z) now p0 conn evs t st t' st' :
  table_ok t -> mt_locked t = false -> server_pass h now p0 conn evs (t, st) = Some (t', st') ->
  table_ok t' /\ mt_locked t' = false.
Proof.
  intros Hok Hl. unfold server_pass.
  assert (K : forall o, o = match conn with Some (fd, ip) => accept_client now fd ip t | None => Some t end ->
    match o with Some t1 => table_ok t1 /\ mt_locked t1 = false | None => True end).
  { intros o ->. destruct conn as [[fd ip]|]; [| done].
    destruct (accept_client now fd ip t) eqn:E; [| done]. by apply table_ok_accept in E. }
  specialize (K _ eq_refl). destruct (match conn with Some (fd, ip) => _ | None => _ end) as [t1|]; [| done]. cbn [bind_tcp].
  destruct K as [K1 K2]. unfold lock. rewrite K2. cbn [bind_tcp].
  destruct (serve_clients _ _ _ _ _ _) as [[t2 st2]|] eqn:E; [| done]. intros [= <- <-].
  apply table_ok_serve in E as [E _]; [| done | done]. split; [exact E | done].
Qed.

Lemma table_ok_init config t : modbus_tcp_init true config = (WTC_OK, Some t) -> 0 <= mc_max_connections config -> table_ok t.
Proof.
  unfold modbus_tcp_init. cbn [negb]. cbv zeta. intros Heq Hm.
  destruct (_ || _) eqn:E; destruct (mc_timeout_ms _ =? 0); injection Heq as <-; unfold table_ok;
    (split; [done |]; split; [done |]); cbn -[MODBUS_TCP_MAX_CONNECTIONS]; try lia.
  all: apply orb_false_iff in E as [_ E%Z.ltb_ge]; lia.
Qed.

(** ** Examples *)

Module TcpDemo.

Definition config (server : bool) : modbus_tcp_config := mk_modbus_tcp_config server "" 502 0 0 true.
Definition fresh (server : bool) : modbus_tcp := default (mk_modbus_tcp (config server) false false false [] 0 0 zero_stats false)
  (snd (modbus_tcp_init true (config server))).
Definition connected : modbus_tcp := snd (modbus_tcp_connect true true ConnectDone (fresh false)).
(** A handler that answers a read of one register with the value 7. *)
Definition seven (st : nat) (unit_id : Z) (request response : modbus_pdu) : nat * modbus_pdu * Z :=
  (S st, mk_modbus_pdu (pdu_function_code request) ([2; 0; 7] ++ drop 3 (pdu_data response)) 3, MODBUS_EX_NONE).
Definition request : modbus_pdu := snd (modbus_build_read_request zero_pdu MODBUS_FC_READ_HOLDING_REGISTERS 10 1).
Definition request_bytes : list Z := [0; 1; 0; 0; 0; 6; 17; 3; 0; 10; 0; 1].

Example request_frame_bytes : tcp_send_frame 17 1 request = Some request_bytes.
Proof. vm_compute. reflexivity. Qed.

Example served_once :
  (fun r => match r with (t, st, rest, out) => (st, rest, out, ms_responses_sent (mt_stats t)) end) <$>
    handle_client_request seven zero_pdu true (fresh true) 0%nat request_bytes =
  Some (1%nat, [], [0; 1; 0; 0; 0; 5; 17; 3; 2; 0; 7], 1).
Proof. vm_compute. reflexivity. Qed.

(** A pass with a new connection and one without input are fine, the first request ends
    the thread. *)
Example first_request_hangs :
  match server_pass seven 5 zero_pdu (Some (9, "10.0.0.7"%string)) (replicate 32 Quiet) (fresh true, 0%nat) with
  | Some x => (mt_client_count (fst x), server_pass seven 6 zero_pdu None [Data request_bytes true] x) = (1, None)
  | None => False
  end.
Proof. vm_compute. reflexivity. Qed.

Lemma server_serves_no_request_witness :
  exists r, server_pass seven 5 zero_pdu None [Data request_bytes true] (fresh true, 0%nat) = Some r /\
    tc_active zero_tcp_client = false.
Proof.
  eexists. split; [reflexivity |].
  apply (server_serves_no_request seven 5 zero_pdu [Data request_bytes true] (fresh true) 0%nat
    (fresh true, 0%nat) 0 request_bytes true zero_tcp_client); [reflexivity | | reflexivity | reflexivity].
  unfold MODBUS_TCP_MAX_CONNECTIONS. lia.
Defined.

(** An answer with the byte count 255: more than the PDU holds and than the caller asked
    room for. *)
Example coil_answer_overflows :
  modbus_tcp_read_coils true (fun _ => [0; 1; 0; 0; 0; 3; 17; 1; 255]) connected [] 17 0 8 1 zero_pdu zero_pdu = None.
Proof. vm_compute. reflexivity. Qed.

(** 124 registers: the builder refuses, what the variable held is sent. *)
Example long_write_sends_garbage answer t sock u start values p0 p0' :
  modbus_tcp_write_multiple_registers true answer t sock u start 124 values p0 p0' = transact_write true answer t sock u p0 p0'.
Proof. reflexivity. Qed.

Definition echo : peer := fun frame => frame.
Lemma request_pdu_ok : pdu_ok request.
Proof. split; [reflexivity | cbn; unfold PDU_DATA; lia]. Qed.
Lemma echo_in_order : answers_in_order echo.
Proof. intros u tid p f Hp _ Hf. by exists u, p. Qed.
Lemma late_answer_fails_all_witness :
  transact_all echo (connected <| mt_transaction_id := 1 |>) request_bytes zero_pdu [(17, request); (17, request)] =
    Some [WTC_ERROR_PROTOCOL; WTC_ERROR_PROTOCOL].
Proof.
  apply (late_answer_fails_all echo (connected <| mt_transaction_id := 1 |>) request_bytes zero_pdu [(17, request); (17, request)]).
  - apply echo_in_order.
  - split; [reflexivity |]. split; [unfold is_u16; cbn; lia |]. exists 17, request. split; [apply request_pdu_ok | reflexivity].
  - repeat constructor; apply request_pdu_ok.
Defined.

Import GatewayDemo.
(** The level 25 of "tank-1", 0 to 100 shown as 0 to 10000 in register 40: 2500 *)
Definition level_entry : register_mapping := {|
  rm_modbus_addr := 40; rm_reg_type := MODBUS_REG_HOLDING; rm_data_type := MODBUS_DTYPE_UINT16; rm_register_count := 1;
  rm_source := DATA_SOURCE_PROFINET_SENSOR; rm_rtu_station := "tank-1"; rm_slot := 1;
  rm_pid_loop_id := 0; rm_alarm_id := 0; rm_src_slave_addr := 0; rm_src_remote_addr := 0; rm_src_transport := 0;
  rm_scaling := mk_scaling true f0 (f32_of_Z 100) f0 (f32_of_Z 10000) f0; rm_read_only := true; rm_enabled := true;
  rm_description := "level" |}.
Definition level_gw : modbus_gateway := gw0 <| gw_register_map := empty_map <| map_registers := [pump_register; level_entry] |> |>.
Definition level_plant : plant demo_links := plant0 <| p_registry :=
  snd (rtu_registry_update_sensor 0 RegisterMapDemo.plant "tank-1" 1 (f32_of_Z 25) IOPS_GOOD QUALITY_GOOD) |>.

Lemma holding_registers_end_to_end_witness :
  exists t' values,
    modbus_tcp_read_holding_registers true (server_peer no_ub no_clk zero_pdu (fresh true) (level_gw, level_plant))
      connected [] 1 39 2 zero_pdu zero_pdu = Some (WTC_OK, t', [], values) /\ values !! 1%nat = Some 2500.
Proof.
  destruct (holding_registers_end_to_end no_ub no_clk level_gw level_plant (fresh true) connected 1 39 2 zero_pdu
    zero_pdu zero_pdu) as (t' & values & E & _ & Hv); [first [reflexivity | unfold is_u16; lia | lia]..|].
  exists t', values. split; [exact E|].
  refine (Hv 1%nat level_entry (f32_of_Z 25) (f32_of_Z 2500) 2500 _ _ _ _ _).
  - reflexivity.
  - split; [right; left|]. split; [split_and!; reflexivity|].
    intros m' Hm' (Ha & _). apply elem_of_cons in Hm' as [->|Hm']; [vm_compute in Ha; discriminate Ha|].
    apply list_elem_of_singleton in Hm'. exact Hm'.
  - refine (value_of_sensor 0 level_gw level_plant level_entry
      (snd (rtu_registry_get_sensor 0 (p_registry level_plant) "tank-1" 1 zero_sensor)) _ _ _); vm_compute; reflexivity.
  - refine (on_the_line (rm_scaling level_entry) (f32_of_Z 25) _ _); vm_compute; reflexivity.
  - apply word_unsigned; [reflexivity|vm_compute; reflexivity|lia].
Defined.

End TcpDemo.
