(* ===== verification/ModbusRtu.v ===== *)
(** * The Modbus RTU transport

    Model of [src/modbus/modbus_rtu.c]: frames on a serial line with their CRC, the server
    loop and the client.

    A serial line is the list of chunks [read] will return, each with the clock reading
    before it and whether more bytes follow within the inter-frame delay.  [None] is an
    access outside an array; [p0] is the content an uninitialised PDU happens to have.
    Client operations on registers and coils are the same as over TCP, on top of
    [modbus_rtu_transact]. *)

From Stdlib Require Import Btauto.
From S2P Require Import Prelude Float32 Types Registry ControlEngine Crc Modbus RegisterMap ModbusGateway ModbusTcp.

Definition MODBUS_RTU_MAX_ADU_LEN : nat := 256.

(** ** Line settings *)

(** [get_baud_constant]: the rate set for a rate asked for. *)
Definition get_baud_constant (baud : Z) : Z :=
  if bool_decide (baud ∈ [1200; 2400; 4800; 9600; 19200; 38400; 57600; 115200; 230400]) then baud else 9600.

(** [calc_inter_frame_delay] in microseconds, on [uint32_t] ([baud] is not 0). *)
Definition calc_inter_frame_delay (baud : Z) : Z :=
  let char_time_us := 11 * 1000000 / baud in
  let delay := wrap32 (char_time_us * 35) / 10 in
  if delay <? 1750 then 1750 else delay.

(** [modbus_rtu_config_t] *)
Record modbus_rtu_config := mk_modbus_rtu_config {
  rc_server : bool;
  rc_device : string;
  rc_baud_rate : Z;
  rc_data_bits : Z;
  rc_parity : Z;
  rc_stop_bits : Z;
  rc_slave_addr : Z;
  rc_timeout_ms : Z;
  rc_inter_frame_delay_us : Z;
  rc_has_handler : bool }.
#[export] Instance eta_modbus_rtu_config : Eta modbus_rtu_config := fun r =>
  mk_modbus_rtu_config (rc_server r) (rc_device r) (rc_baud_rate r) (rc_data_bits r) (rc_parity r) (rc_stop_bits r)
    (rc_slave_addr r) (rc_timeout_ms r) (rc_inter_frame_delay_us r) (rc_has_handler r).

(** The settings [configure_serial] gives the port. *)
Inductive parity := ParityNone | ParityEven | ParityOdd.
Record serial_settings := mk_serial_settings {
  ser_baud : Z; ser_data_bits : Z; ser_parity : parity; ser_stop_bits : Z;
  ser_raw : bool; ser_hw_flow : bool; ser_sw_flow : bool; ser_vmin : Z; ser_vtime : Z }.
Definition configure_serial (get_ok set_ok : bool) (c : modbus_rtu_config) : option serial_settings :=
  if negb get_ok || negb set_ok then None
  else Some (mk_serial_settings (get_baud_constant (rc_baud_rate c)) (if rc_data_bits c =? 7 then 7 else 8)
    (if rc_parity c =? 69 then ParityEven else if rc_parity c =? 79 then ParityOdd else ParityNone)
    (if rc_stop_bits c =? 2 then 2 else 1) true false false 0 1).

(** ** The context *)

(** [struct modbus_rtu]; the port as "is open". *)
Record modbus_rtu := mk_modbus_rtu {
  mr_config : modbus_rtu_config;
  mr_open : bool;
  mr_running : bool;
  mr_stats : modbus_stats }.
#[export] Instance eta_modbus_rtu : Eta modbus_rtu := fun r => mk_modbus_rtu (mr_config r) (mr_open r) (mr_running r) (mr_stats r).

Definition or_default (v d : Z) : Z := if v =? 0 then d else v.

(** [modbus_rtu_init] *)
Definition modbus_rtu_init (alloc_ok : bool) (c : modbus_rtu_config) : wtc_result * option modbus_rtu :=
  if bool_decide (rc_device c = "") then (WTC_ERROR_INVALID_PARAM, None)
  else if negb alloc_ok then (WTC_ERROR_NO_MEMORY, None)
  else
    let c := c <| rc_baud_rate ::= fun v => or_default v 9600 |> <| rc_data_bits ::= fun v => or_default v 8 |>
               <| rc_parity ::= fun v => or_default v 78 |> <| rc_stop_bits ::= fun v => or_default v 1 |>
               <| rc_timeout_ms ::= fun v => or_default v 1000 |> in
    let c := c <| rc_inter_frame_delay_us ::= fun v => or_default v (calc_inter_frame_delay (rc_baud_rate c)) |> in
    (WTC_OK, Some (mk_modbus_rtu c false false zero_stats)).

(** [modbus_rtu_open], [modbus_rtu_close], [modbus_rtu_is_open] *)
Definition modbus_rtu_open (open_ok get_ok set_ok : bool) (t : modbus_rtu) : wtc_result * modbus_rtu :=
  if mr_open t then (WTC_OK, t)
  else if negb open_ok then (WTC_ERROR_IO, t)
  else match configure_serial get_ok set_ok (mr_config t) with
       | None => (WTC_ERROR_IO, t)
       | Some _ => (WTC_OK, t <| mr_open := true |>)
       end.
Definition modbus_rtu_close (t : modbus_rtu) : modbus_rtu := t <| mr_open := false |>.
Definition modbus_rtu_is_open (t : modbus_rtu) : bool := mr_open t.

(** [modbus_rtu_server_start], [modbus_rtu_server_stop], [modbus_rtu_cleanup] *)
Definition modbus_rtu_server_start (open_ok get_ok set_ok thread_ok : bool) (t : modbus_rtu) : wtc_result * modbus_rtu :=
  if negb (rc_server (mr_config t)) then (WTC_ERROR_INVALID_PARAM, t)
  else match modbus_rtu_open open_ok get_ok set_ok t with
       | (WTC_OK, t) => if thread_ok then (WTC_OK, t <| mr_running := true |>)
                        else (WTC_ERROR_INTERNAL, t <| mr_running := false |>)
       | (_, t) => (WTC_ERROR_IO, t)
       end.
Definition modbus_rtu_server_stop (t : modbus_rtu) : modbus_rtu := t <| mr_running := false |>.
Definition modbus_rtu_cleanup (t : modbus_rtu) : modbus_rtu := modbus_rtu_close (modbus_rtu_server_stop t).

(** ** Frames *)

Definition crc_bytes (crc : Z) : list Z := [Z.land crc 255; Z.land (Z.shiftr crc 8) 255].

(** The bytes of [rtu_send_frame]. *)
Definition rtu_frame (slave_addr : Z) (pdu : modbus_pdu) : option (list Z) :=
  let n := Z.to_nat (pdu_data_len pdu) in
  if (PDU_DATA <? n)%nat then None
  else let body := slave_addr :: pdu_function_code pdu :: take n (pdu_data pdu) in
       Some (body ++ crc_bytes (modbus_crc16 body)).
(** [rtu_send_frame] ([write_ok]: all bytes were written). *)
Definition rtu_send_frame (write_ok : bool) (t : modbus_rtu) (slave_addr : Z) (pdu : modbus_pdu)
    : option (bool * modbus_rtu * list Z) :=
  match rtu_frame slave_addr pdu with
  | None => None
  | Some frame =>
      Some (if write_ok
            then (true, t <| mr_stats ::= fun s => s <| ms_bytes_sent ::= fun n => wrap64 (n + Z.of_nat (length frame)) |> |>, frame)
            else (false, t, frame))
  end.

(** One [read]: the clock before it, the bytes that have arrived ([[]]: none in time or an
    error), and whether more follow within the delay after it. *)
Record chunk := mk_chunk { ch_now : Z; ch_bytes : list Z; ch_more : bool }.

(** The loop of [rtu_recv_frame]: the bytes of the buffer. *)
Fixpoint recv_loop (start timeout_ms : Z) (buf : list Z) (line : list chunk) : list Z :=
  match line with
  | [] => buf
  | ch :: line =>
      if (MODBUS_RTU_MAX_ADU_LEN <=? length buf)%nat then buf
      else if timeout_ms <=? wrap64 (ch_now ch - start) then buf
      else
        match ch_bytes ch with
        | [] => buf
        | bytes =>
            let buf := take MODBUS_RTU_MAX_ADU_LEN (buf ++ bytes) in
            if ch_more ch then recv_loop start timeout_ms buf line else buf
        end
  end.

Definition le_pair (l : list Z) (i : nat) : Z := wrap16 (Z.lor (byte_at l i) (Z.shiftl (byte_at l (i + 1)) 8)).

(** [rtu_recv_frame] *)
Definition rtu_recv_frame (t : modbus_rtu) (p0 : modbus_pdu) (start timeout_ms : Z) (line : list chunk)
    : option (Z * modbus_pdu) * modbus_rtu :=
  let buf := recv_loop start timeout_ms [] line in
  let len := length buf in
  if (len <? 4)%nat then (None, t)
  else
    let t := t <| mr_stats ::= fun s => s <| ms_bytes_received ::= fun n => wrap64 (n + Z.of_nat len) |> |> in
    if negb (le_pair buf (len - 2) =? modbus_crc16 (take (len - 2) buf))
    then (None, t <| mr_stats ::= fun s => s <| ms_crc_errors ::= inc64 |> |>)
    else (Some (byte_at buf 0,
                mk_modbus_pdu (byte_at buf 1) (copy_bytes (len - 4) (drop 2 buf) (pdu_data p0)) (Z.of_nat (len - 4))), t).

(** ** The server *)

Section Server.
Context {T : Type} (request_handler : T -> Z -> modbus_pdu -> modbus_pdu -> T * modbus_pdu * Z).

(** One round of [server_thread_func], with the frame written. *)
Definition rtu_server_round (p0 : modbus_pdu) (write_ok : bool) (start : Z) (line : list chunk) (t : modbus_rtu) (st : T)
    : option (modbus_rtu * T * list Z) :=
  match rtu_recv_frame t p0 start 100 line with
  | (None, t) => Some (t, st, [])
  | (Some (slave_addr, request), t) =>
      if negb (slave_addr =? rc_slave_addr (mr_config t)) && negb (slave_addr =? 0) then Some (t, st, [])
      else
        let t := t <| mr_stats ::= fun s => s <| ms_requests_received ::= inc64 |> |> in
        let '(st, response, ex) :=
          if rc_has_handler (mr_config t) then request_handler st slave_addr request zero_pdu
          else (st, zero_pdu, MODBUS_EX_SLAVE_DEVICE_FAILURE) in
        let t := if ex =? MODBUS_EX_NONE then t else t <| mr_stats ::= fun s => s <| ms_exceptions ::= inc64 |> |> in
        if slave_addr =? 0 then Some (t, st, [])
        else
          match rtu_send_frame write_ok t (rc_slave_addr (mr_config t)) (answer_pdu request response ex) with
          | None => None
          | Some (true, t, frame) => Some (t <| mr_stats ::= fun s => s <| ms_responses_sent ::= inc64 |> |>, st, frame)
          | Some (false, t, _) => Some (t, st, [])
          end
  end.
End Server.

(** ** The client *)

(** What comes back on the line for the bytes written. *)
Definition rtu_peer := list Z -> list chunk.

(** [modbus_rtu_transact]; stale input is discarded first. *)
Definition modbus_rtu_transact (write_ok : bool) (start : Z) (answer : rtu_peer) (t : modbus_rtu) (slave_addr : Z)
    (request p0 : modbus_pdu) : option (wtc_result * modbus_rtu * modbus_pdu) :=
  if negb (mr_open t) then Some (WTC_ERROR_INVALID_PARAM, t, p0)
  else
    match rtu_send_frame write_ok t slave_addr request with
    | None => None
    | Some (false, t, _) => Some (WTC_ERROR_IO, t <| mr_stats ::= fun s => s <| ms_timeouts ::= inc64 |> |>, p0)
    | Some (true, t, frame) =>
        let t := t <| mr_stats ::= fun s => s <| ms_requests_sent ::= inc64 |> |> in
        match rtu_recv_frame t p0 start (rc_timeout_ms (mr_config t)) (answer frame) with
        | (None, t) => Some (WTC_ERROR_TIMEOUT, t <| mr_stats ::= fun s => s <| ms_timeouts ::= inc64 |> |>, p0)
        | (Some (resp_addr, response), t) =>
            if negb (resp_addr =? slave_addr) then Some (WTC_ERROR_PROTOCOL, t, response)
            else
              let t := t <| mr_stats ::= fun s => s <| ms_responses_received ::= inc64 |> |> in
              let t := if modbus_is_exception response then t <| mr_stats ::= fun s => s <| ms_exceptions ::= inc64 |> |> else t in
              Some (WTC_OK, t, response)
        end
    end.

(** The register reads. *)
Definition rtu_read_registers (fc : Z) (write_ok : bool) (start : Z) (answer : rtu_peer) (t : modbus_rtu)
    (slave_addr start_addr quantity : Z) (p0 p0' : modbus_pdu) : option (wtc_result * modbus_rtu * list Z) :=
  if MODBUS_MAX_READ_REGISTERS <? quantity then Some (WTC_ERROR_INVALID_PARAM, t, [])
  else
    match modbus_rtu_transact write_ok start answer t slave_addr (snd (modbus_build_read_request p0 fc start_addr quantity)) p0' with
    | None => None
    | Some (WTC_OK, t, response) =>
        if modbus_is_exception response then Some (WTC_ERROR_PROTOCOL, t, [])
        else if negb (byte_at (pdu_data response) 0 =? quantity * 2) then Some (WTC_ERROR_PROTOCOL, t, [])
        else Some (WTC_OK, t, (fun i => modbus_get_uint16_be (pdu_data response) (1 + i * 2)) <$> seq 0 (Z.to_nat quantity))
    | Some (res, t, _) => Some (res, t, [])
    end.
Definition modbus_rtu_read_holding_registers := rtu_read_registers MODBUS_FC_READ_HOLDING_REGISTERS.
Definition modbus_rtu_read_input_registers := rtu_read_registers MODBUS_FC_READ_INPUT_REGISTERS.

(** The coil reads, with a caller's array of [room] bytes. *)
Definition rtu_read_bits (fc : Z) (write_ok : bool) (start : Z) (answer : rtu_peer) (t : modbus_rtu)
    (slave_addr start_addr quantity : Z) (room : nat) (p0 p0' : modbus_pdu) : option (wtc_result * modbus_rtu * list Z) :=
  if MODBUS_MAX_READ_BITS <? quantity then Some (WTC_ERROR_INVALID_PARAM, t, [])
  else
    match modbus_rtu_transact write_ok start answer t slave_addr (snd (modbus_build_read_request p0 fc start_addr quantity)) p0' with
    | None => None
    | Some (WTC_OK, t, response) =>
        if modbus_is_exception response then Some (WTC_ERROR_PROTOCOL, t, [])
        else
          let byte_count := Z.to_nat (byte_at (pdu_data response) 0) in
          if (PDU_DATA <? 1 + byte_count)%nat || (room <? byte_count)%nat then None
          else Some (WTC_OK, t, take byte_count (drop 1 (pdu_data response)))
    | Some (res, t, _) => Some (res, t, [])
    end.
Definition modbus_rtu_read_coils := rtu_read_bits MODBUS_FC_READ_COILS.
Definition modbus_rtu_read_discrete_inputs := rtu_read_bits MODBUS_FC_READ_DISCRETE_INPUTS.

(** The writes. *)
Definition rtu_write (write_ok : bool) (start : Z) (answer : rtu_peer) (t : modbus_rtu) (slave_addr : Z)
    (request p0' : modbus_pdu) : option (wtc_result * modbus_rtu) :=
  match modbus_rtu_transact write_ok start answer t slave_addr request p0' with
  | None => None
  | Some (res, t, _) => Some (res, t)
  end.
Definition modbus_rtu_write_single_coil write_ok start answer t slave addr value p0 p0' :=
  rtu_write write_ok start answer t slave (snd (modbus_build_write_single_coil p0 addr value)) p0'.
Definition modbus_rtu_write_single_register write_ok start answer t slave addr value p0 p0' :=
  rtu_write write_ok start answer t slave (snd (modbus_build_write_single_register p0 addr value)) p0'.
Definition modbus_rtu_write_multiple_coils write_ok start answer t slave start_addr quantity values p0 p0' :=
  rtu_write write_ok start answer t slave (snd (modbus_build_write_multiple_coils p0 start_addr quantity values)) p0'.
Definition modbus_rtu_write_multiple_registers write_ok start answer t slave start_addr quantity values p0 p0' :=
  rtu_write write_ok start answer t slave (snd (modbus_build_write_multiple_registers p0 start_addr quantity values)) p0'.
Definition modbus_rtu_get_stats (t : modbus_rtu) : modbus_stats := mr_stats t.
(** [modbus_rtu_flush]: what had arrived is gone. *)
Definition modbus_rtu_flush (t : modbus_rtu) (line : list chunk) : list chunk := if mr_open t then [] else line.

(** ** Frames are read back *)

(** The bytes of a frame as they arrive in pieces: each in time, more following except
    after the last. *)
Inductive arrives (start timeout_ms : Z) : list chunk -> list Z -> Prop :=
| arrives_last now b l : wrap64 (now - start) < timeout_ms -> b <> [] -> arrives start timeout_ms (mk_chunk now b false :: l) b
| arrives_more now b l bs : wrap64 (now - start) < timeout_ms -> b <> [] -> arrives start timeout_ms l bs ->
    arrives start timeout_ms (mk_chunk now b true :: l) (b ++ bs).

Lemma recv_loop_arrives start timeout_ms line bytes buf :
  arrives start timeout_ms line bytes -> (length buf + length bytes <= MODBUS_RTU_MAX_ADU_LEN)%nat ->
  recv_loop start timeout_ms buf line = buf ++ bytes.
Proof.
  intros Ha. revert buf. induction Ha as [now b l Ht Hb | now b l bs Ht Hb Ha IH]; intros buf Hlen; cbn [recv_loop ch_now ch_bytes ch_more].
  - destruct b as [|x b]; [done |]. cbn [length] in Hlen.
    destruct (Nat.leb_spec MODBUS_RTU_MAX_ADU_LEN (length buf)); [lia |].
    destruct (Z.leb_spec timeout_ms (wrap64 (now - start))); [lia |].
    rewrite take_ge; [done |]. rewrite length_app. cbn [length]. lia.
  - destruct b as [|x b]; [done |]. rewrite length_app in Hlen. cbn [length] in Hlen.
    destruct (Nat.leb_spec MODBUS_RTU_MAX_ADU_LEN (length buf)); [lia |].
    destruct (Z.leb_spec timeout_ms (wrap64 (now - start))); [lia |].
    rewrite take_ge by (rewrite length_app; cbn [length]; lia). rewrite IH by (rewrite length_app; cbn [length]; lia).
    by rewrite <- app_assoc.
Qed.

Lemma crc_bytes_back crc : is_u16 crc -> wrap16 (Z.lor (Z.land crc 255) (Z.shiftl (Z.land (Z.shiftr crc 8) 255) 8)) = crc.
Proof. intros. rewrite Z.lor_comm. by apply u16_bytes_back. Qed.

(** ** The checksum detects a changed byte *)

(** The table entry with a given high byte. *)
Definition crc_index : list Z := Eval vm_compute in
  (fun h => Z.of_nat (default 0%nat (fst <$> list_find (fun e => Z.shiftr e 8 = Z.of_nat h) modbus_crc16_table))) <$> seq 0 256.

Lemma crc_table_ok i : 0 <= i < 256 ->
  is_u16 (table_get modbus_crc16_table i) /\ table_get crc_index (Z.shiftr (table_get modbus_crc16_table i) 8) = i.
Proof.
  intros Hi.
  assert (B : ((0 <=? table_get modbus_crc16_table i) && (table_get modbus_crc16_table i <? 65536) &&
    (table_get crc_index (Z.shiftr (table_get modbus_crc16_table i) 8) =? i)) = true).
  { apply (bytes_forall (fun i => (0 <=? table_get modbus_crc16_table i) && (table_get modbus_crc16_table i <? 65536) &&
      (table_get crc_index (Z.shiftr (table_get modbus_crc16_table i) 8) =? i))); [vm_compute; reflexivity | done]. }
  rewrite !andb_true_iff, Z.leb_le, Z.ltb_lt, Z.eqb_eq in B. unfold is_u16. change (2 ^ 16) with 65536. lia.
Qed.

Lemma crc_step_range crc b : is_u16 crc -> is_u16 (modbus_crc16_step crc b).
Proof.
  intros Hc. unfold modbus_crc16_step, is_u16 in *. apply (lxor_range 16); [lia | |].
  - rewrite Z.shiftr_div_pow2 by lia. change (2 ^ 8) with 256. split; [apply Z.div_pos; lia |].
    apply Z.div_lt_upper_bound; lia.
  - apply crc_table_ok, land_255_range.
Qed.
Lemma crc_range data : is_u16 (modbus_crc16 data).
Proof.
  unfold modbus_crc16. assert (H : is_u16 65535) by (unfold is_u16; lia). revert H. generalize 65535.
  induction data as [|b data IH]; intros crc Hc; [done |]. cbn [foldl]. by apply IH, crc_step_range.
Qed.

(** The high byte of the new value is that of the table entry, so the entry is known. *)
Lemma crc_step_index crc b : is_u16 crc ->
  table_get crc_index (Z.shiftr (modbus_crc16_step crc b) 8) = Z.land (Z.lxor crc b) 255.
Proof.
  intros Hc. unfold modbus_crc16_step. rewrite Z.shiftr_lxor, Z.shiftr_shiftr by lia.
  assert (E : Z.shiftr crc (8 + 8) = 0).
  { rewrite Z.shiftr_div_pow2 by lia. apply Z.div_small. exact Hc. }
  rewrite E, Z.lxor_0_l. apply crc_table_ok, land_255_range.
Qed.

Lemma lxor_cancel a b c : Z.lxor a b = Z.lxor a c -> b = c.
Proof.
  intros E. apply (f_equal (Z.lxor a)) in E. rewrite <- !Z.lxor_assoc, Z.lxor_nilpotent, !Z.lxor_0_l in E. done.
Qed.
Lemma land_lxor_255 x y : Z.land (Z.lxor x y) 255 = Z.lxor (Z.land x 255) (Z.land y 255).
Proof. apply Z.bits_inj'. intros n Hn. rewrite Z.land_spec, !Z.lxor_spec, !Z.land_spec. btauto. Qed.

Lemma crc_step_inj_byte crc b b' :
  is_u16 crc -> 0 <= b < 256 -> 0 <= b' < 256 -> modbus_crc16_step crc b = modbus_crc16_step crc b' -> b = b'.
Proof.
  intros Hc Hb Hb' E. pose proof (crc_step_index crc b Hc) as K. rewrite E, (crc_step_index crc b' Hc) in K.
  rewrite !land_lxor_255 in K. apply lxor_cancel in K. rewrite !land_255_small in K by done. done.
Qed.
Lemma crc_step_inj crc crc' b :
  is_u16 crc -> is_u16 crc' -> modbus_crc16_step crc b = modbus_crc16_step crc' b -> crc = crc'.
Proof.
  intros Hc Hc' E. pose proof (crc_step_index crc b Hc) as K. rewrite E, (crc_step_index crc' b Hc') in K.
  unfold modbus_crc16_step in E. rewrite <- K in E. rewrite !(Z.lxor_comm (Z.shiftr _ 8)) in E. apply lxor_cancel in E.
  rewrite !land_lxor_255, !(Z.lxor_comm _ (Z.land b 255)) in K. apply lxor_cancel in K.
  change 255 with (Z.ones 8) in K. rewrite !Z.land_ones in K by lia. rewrite !Z.shiftr_div_pow2 in E by lia.
  rewrite (Z.div_mod crc (2 ^ 8)), (Z.div_mod crc' (2 ^ 8)) by lia. congruence.
Qed.

(** Two messages that differ in one byte have different checksums. *)
Lemma crc_one_byte l x y l' :
  0 <= x < 256 -> 0 <= y < 256 -> modbus_crc16 (l ++ x :: l') = modbus_crc16 (l ++ y :: l') -> x = y.
Proof.
  intros Hx Hy. unfold modbus_crc16. rewrite !foldl_app. cbn [foldl].
  pose proof (crc_range l) as Hr. unfold modbus_crc16 in Hr. revert Hr. generalize (foldl modbus_crc16_step 65535 l). intros crc Hc E.
  apply (crc_step_inj_byte crc); [done.. |].
  assert (H1 : is_u16 (modbus_crc16_step crc x)) by by apply crc_step_range.
  assert (H2 : is_u16 (modbus_crc16_step crc y)) by by apply crc_step_range.
  revert E H1 H2. generalize (modbus_crc16_step crc x), (modbus_crc16_step crc y).
  induction l' as [|b l' IH]; intros a a' E Ha Ha'; cbn [foldl] in E; [done |].
  apply (crc_step_inj a a' b); [done.. |]. apply IH; [done | by apply crc_step_range..].
Qed.

(** ** Receiving a frame *)

Lemma pair_value lo hi : 0 <= lo < 256 -> 0 <= hi < 256 -> wrap16 (Z.lor lo (Z.shiftl hi 8)) = hi * 256 + lo.
Proof.
  intros Hl Hh. rewrite <- (crc_bytes_back (hi * 256 + lo)) by (unfold is_u16; lia).
  change 255 with (Z.ones 8). rewrite !Z.land_ones, Z.shiftr_div_pow2 by lia. change (2 ^ 8) with 256.
  rewrite Z.div_add_l, (Z.div_small lo), Z.add_0_r, (Z.mod_small hi), (Z.add_comm _ lo), Z.mod_add, (Z.mod_small lo) by lia. done.
Qed.

Lemma rtu_frame_shape addr p f : rtu_frame addr p = Some f -> pdu_ok p ->
  let body := addr :: pdu_function_code p :: take (Z.to_nat (pdu_data_len p)) (pdu_data p) in
  f = body ++ crc_bytes (modbus_crc16 body) /\ length body = (2 + Z.to_nat (pdu_data_len p))%nat /\
  (length f <= MODBUS_RTU_MAX_ADU_LEN)%nat.
Proof.
  unfold rtu_frame. cbv zeta. destruct (Nat.ltb_spec PDU_DATA (Z.to_nat (pdu_data_len p))); [done |].
  intros E [Hl Hn]. apply (inj Some) in E as <-. split; [done |].
  rewrite length_app. cbn [length crc_bytes]. rewrite length_take, Hl.
  unfold PDU_DATA, MODBUS_RTU_MAX_ADU_LEN in *. lia.
Qed.

(** What the end of [rtu_recv_frame] makes of a body and two more bytes. *)
Lemma recv_body t p0 start timeout_ms line body lo hi :
  recv_loop start timeout_ms [] line = body ++ [lo; hi] -> (2 <= length body)%nat ->
  fst (rtu_recv_frame t p0 start timeout_ms line) =
    if wrap16 (Z.lor lo (Z.shiftl hi 8)) =? modbus_crc16 body
    then Some (byte_at body 0, mk_modbus_pdu (byte_at body 1) (copy_bytes (length body - 2) (drop 2 body) (pdu_data p0))
                                (Z.of_nat (length body - 2)))
    else None.
Proof.
  intros E Hl. unfold rtu_recv_frame. rewrite E. cbv zeta. rewrite length_app. cbn [length].
  destruct (Nat.ltb_spec (length body + 2) 4); [lia |].
  replace (length body + 2 - 2)%nat with (length body) by lia. rewrite take_app_length.
  assert (P : le_pair (body ++ [lo; hi]) (length body) = wrap16 (Z.lor lo (Z.shiftl hi 8))).
  { unfold le_pair, byte_at. rewrite !app_nth2 by lia. rewrite Nat.sub_diag.
    replace (length body + 1 - length body)%nat with 1%nat by lia. done. }
  rewrite P. destruct (_ =? modbus_crc16 body); [| done]. cbn [negb fst].
  destruct body as [|a [|b body]]; cbn [length] in Hl; [lia | lia |]. cbn [length].
  replace (S (S (length body)) + 2 - 4)%nat with (length body) by lia.
  replace (S (S (length body)) - 2)%nat with (length body) by lia.
  unfold copy_bytes. change (drop 2 ((a :: b :: body) ++ [lo; hi])) with (body ++ [lo; hi]).
  change (drop 2 (a :: b :: body)) with body. by rewrite take_app_length, firstn_all.
Qed.

(** A frame is read back from the line, in whatever pieces it arrives. *)
Lemma rtu_frame_back t p0 start timeout_ms line addr p f :
  pdu_ok p -> rtu_frame addr p = Some f -> arrives start timeout_ms line f ->
  fst (rtu_recv_frame t p0 start timeout_ms line) = Some (addr, received_pdu p p0).
Proof.
  intros Hp Hf Ha. destruct (rtu_frame_shape addr p f Hf Hp) as (Ef & Hb & Hlen).
  rewrite (recv_body t p0 start timeout_ms line _ _ _
    ltac:(by rewrite (recv_loop_arrives _ _ _ _ [] Ha), Ef by (cbn [length]; lia))) by lia.
  rewrite crc_bytes_back by apply crc_range. rewrite Z.eqb_refl, Hb.
  replace (2 + Z.to_nat (pdu_data_len p) - 2)%nat with (Z.to_nat (pdu_data_len p)) by lia.
  destruct Hp as [Hl Hn]. unfold received_pdu. cbn [byte_at nth]. do 3 f_equal; [| lia].
  unfold copy_bytes. by rewrite skipn_cons, skipn_cons, drop_0, take_take, Nat.min_id.
Qed.

(** A frame is read back from the serial line, in whatever pieces it arrives, as the
    address and the PDU it was built from. *)
Theorem rtu_frame_roundtrip t p0 start timeout_ms line addr p f :
  pdu_ok p -> rtu_frame addr p = Some f -> arrives start timeout_ms line f ->
  fst (rtu_recv_frame t p0 start timeout_ms line) = Some (addr, received_pdu p p0).
Proof. apply rtu_frame_back. Qed.

(** C26: A frame with one changed byte, anywhere in it, is rejected: it is not delivered. *)
Theorem rtu_byte_error_detected t p0 start timeout_ms line addr p f i x y :
  pdu_ok p -> bytes_ok f -> rtu_frame addr p = Some f -> f !! i = Some x -> 0 <= y < 256 -> x <> y ->
  arrives start timeout_ms line (<[i := y]> f) ->
  fst (rtu_recv_frame t p0 start timeout_ms line) = None.
Proof.
  intros Hp Hbytes Hf Hi Hy Hne Ha. destruct (rtu_frame_shape addr p f Hf Hp) as (Ef & Hb & Hlen).
  set (body := addr :: _) in *. clearbody body.
  assert (R : recv_loop start timeout_ms [] line = <[i := y]> f)
    by (rewrite (recv_loop_arrives _ _ _ _ [] Ha); [done | rewrite length_insert; cbn [length]; lia]).
  pose proof (Forall_lookup_1 _ _ _ _ Hbytes Hi) as Hx.
  subst f. destruct (decide (i < length body)%nat) as [Hlt | Hge].
  - rewrite insert_app_l in R by done. unfold crc_bytes in R.
    rewrite (recv_body _ _ _ _ _ _ _ _ R) by (rewrite length_insert; lia).
    rewrite crc_bytes_back by apply crc_range. rewrite lookup_app_l in Hi by done.
    destruct (Z.eqb_spec (modbus_crc16 body) (modbus_crc16 (<[i := y]> body))) as [E|]; [| done]. exfalso. apply Hne.
    rewrite insert_take_drop in E by done. rewrite <- (take_drop_middle body i x Hi) in E at 1. by apply crc_one_byte in E.
  - rewrite insert_app_r_alt in R by lia. rewrite lookup_app_r in Hi by lia.
    set (k := (i - length body)%nat) in *. unfold crc_bytes in *.
    pose proof (crc_range body) as Hc. set (crc := modbus_crc16 body) in *.
    assert (Hk : k = 0%nat \/ k = 1%nat) by (apply lookup_lt_Some in Hi; cbn [length] in Hi; lia).
    pose proof (crc_bytes_back crc Hc) as Bk. pose proof (land_255_range crc). pose proof (land_255_range (Z.shiftr crc 8)).
    rewrite pair_value in Bk by done.
    destruct Hk as [Hk | Hk]; rewrite Hk in *; injection Hi as <-; cbn [insert list_insert] in R;
      rewrite (recv_body _ _ _ _ _ _ _ _ R) by lia; fold crc; rewrite pair_value by done;
      (destruct (_ =? crc) eqn:E; [apply Z.eqb_eq in E; lia | done]).
Qed.

Lemma recv_frame_config t p0 start timeout_ms line : mr_config (snd (rtu_recv_frame t p0 start timeout_ms line)) = mr_config t.
Proof. unfold rtu_recv_frame. cbv zeta. by repeat case_match. Qed.

(** One round of the serial server on a valid frame: for another address nothing
    happens, a broadcast runs the handler and is not answered, a request for the own
    address runs the handler once and is answered by one frame from that address with the
    handler's response or its exception. *)
Theorem rtu_server_answers {T} (h : T -> Z -> modbus_pdu -> modbus_pdu -> T * modbus_pdu * Z)
    p0 start line t st addr request f st' response ex :
  pdu_ok request -> rtu_frame addr request = Some f -> arrives start 100 line f ->
  rc_has_handler (mr_config t) = true ->
  h st addr (received_pdu request p0) zero_pdu = (st', response, ex) -> pdu_ok response ->
  exists t', rtu_server_round h p0 true start line t st =
    if negb (addr =? rc_slave_addr (mr_config t)) && negb (addr =? 0) then Some (t', st, [])
    else if addr =? 0 then Some (t', st', [])
    else match rtu_frame addr (answer_pdu (received_pdu request p0) response ex) with
         | Some out => Some (t', st', out)
         | None => None
         end.
Proof.
  intros Hq Hf Ha Hh Hx Hresp. unfold rtu_server_round.
  pose proof (rtu_frame_back t p0 start 100 line addr request f Hq Hf Ha) as R.
  pose proof (recv_frame_config t p0 start 100 line) as Ec.
  destruct (rtu_recv_frame t p0 start 100 line) as [o t1]. cbn [fst snd] in R, Ec. subst o. rewrite Ec.
  destruct (negb _ && negb _) eqn:E1; [by eexists |]. cbn. rewrite Ec, Hh, Hx.
  destruct (Z.eqb_spec addr 0) as [|Hne]; [by eexists |].
  assert (Ea : rc_slave_addr (mr_config t) = addr).
  { destruct (Z.eqb_spec addr (rc_slave_addr (mr_config t))); [done |]. destruct (Z.eqb_spec addr 0); done. }
  unfold rtu_send_frame. destruct (ex =? MODBUS_EX_NONE); cbn; rewrite ?Ec, Ea;
    
    (destruct (rtu_frame addr (answer_pdu _ _ _)) as [out|]; [eexists; reflexivity | by exists t1]).
Qed.

(** ** Examples *)

Module RtuDemo.
Definition config : modbus_rtu_config := mk_modbus_rtu_config true "/dev/ttyUSB0" 0 0 0 0 17 0 0 true.
Definition server : modbus_rtu := default (mk_modbus_rtu config false false zero_stats) (snd (modbus_rtu_init true config)).
Definition request : modbus_pdu := TcpDemo.request.
Definition request_bytes : list Z := [17; 3; 0; 10; 0; 1; 166; 152].
Definition pieces : list chunk := [mk_chunk 1 [17; 3; 0] true; mk_chunk 2 [10; 0; 1; 166; 152] false].

Example rtu_request_bytes : rtu_frame 17 request = Some request_bytes.
Proof. vm_compute. reflexivity. Qed.
Lemma pieces_arrive : arrives 0 100 pieces request_bytes.
Proof.
  change request_bytes with ([17; 3; 0] ++ [10; 0; 1; 166; 152]).
  apply arrives_more; [vm_compute; reflexivity | done |]. apply arrives_last; [vm_compute; reflexivity | done].
Qed.

Lemma rtu_frame_roundtrip_witness :
  fst (rtu_recv_frame server zero_pdu 0 100 pieces) = Some (17, received_pdu request zero_pdu).
Proof.
  apply (rtu_frame_roundtrip server zero_pdu 0 100 pieces 17 request request_bytes);
    [apply TcpDemo.request_pdu_ok | vm_compute; reflexivity | apply pieces_arrive].
Defined.

Definition spoiled : list chunk := [mk_chunk 1 [17; 3; 0; 11; 0; 1; 166; 152] false].
Lemma rtu_byte_error_detected_witness : fst (rtu_recv_frame server zero_pdu 0 100 spoiled) = None.
Proof.
  apply (rtu_byte_error_detected server zero_pdu 0 100 spoiled 17 request request_bytes 3 10 11);
    [apply TcpDemo.request_pdu_ok | | vm_compute; reflexivity | reflexivity | lia | lia |].
  - repeat constructor; lia.
  - apply arrives_last; [vm_compute; reflexivity | done].
Defined.

(** 9600 baud: 3.5 characters of 11 bits take 4007 microseconds by the integer division;
    from 19200 baud on the minimum applies. *)
Example default_delay : rc_inter_frame_delay_us (mr_config server) = 4007.
Proof. vm_compute. reflexivity. Qed.
(** An unknown rate is replaced for the port, not for the delay. *)
Example odd_rate : (get_baud_constant 14400, calc_inter_frame_delay 14400) = (9600, 2670).
Proof. vm_compute. reflexivity. Qed.
End RtuDemo.
