(* ===== verification/Simulator.v ===== *)
(** * The plant simulator

    Model of [src/simulation/simulator.c]: simulated RTUs with sensors that follow a
    sinusoidal trend with noise, the scenarios, and the values handed to the registry.

    [sinf] is the C library's function, [rnd k] the [k]-th value of [rand()] in a call and
    [clk] the clock.  The angle is computed in double precision, as in the source.  The
    arrays of an RTU are the used entries, so their counts are list lengths. *)

From Stdlib Require Import SpecFloat.
From S2P Require Import Prelude Float32 Types Registry Ipc.

Definition SIM_MAX_RTUS : nat := 16.
Definition SIM_MAX_SENSORS_PER_RTU : nat := 32.
Definition SIM_MAX_ACTUATORS_PER_RTU : nat := 16.

(** ** Double precision *)

(** [M_PI] *)
Definition M_PI : spec_float := S754_finite false 7074237752028440 (-51).
Definition RAND_MAX : Z := 2147483647.

(** ** Data *)

Inductive sim_scenario :=
| SIM_SCENARIO_NORMAL | SIM_SCENARIO_STARTUP | SIM_SCENARIO_ALARMS | SIM_SCENARIO_HIGH_LOAD
| SIM_SCENARIO_MAINTENANCE | SIM_SCENARIO_WATER_TREATMENT.
#[export] Instance sim_scenario_eq_dec : EqDecision sim_scenario.
Proof. solve_decision. Defined.

(** [sim_sensor_config_t], [sim_actuator_state_t] *)
Record sim_sensor := mk_sim_sensor {
  si_slot : Z; si_tag : string; si_base_value : float32; si_unit : string;
  si_noise_amplitude : float32; si_trend_amplitude : float32; si_trend_period_sec : float32;
  si_min_value : float32; si_max_value : float32; si_alarm_low : float32; si_alarm_high : float32 }.
#[export] Instance eta_sim_sensor : Eta sim_sensor := fun r =>
  mk_sim_sensor (si_slot r) (si_tag r) (si_base_value r) (si_unit r) (si_noise_amplitude r) (si_trend_amplitude r)
    (si_trend_period_sec r) (si_min_value r) (si_max_value r) (si_alarm_low r) (si_alarm_high r).
Record sim_actuator := mk_sim_actuator { sq_slot : Z; sq_tag : string; sq_command : Z; sq_pwm_duty : Z; sq_forced : bool }.
#[export] Instance eta_sim_actuator : Eta sim_actuator := fun r =>
  mk_sim_actuator (sq_slot r) (sq_tag r) (sq_command r) (sq_pwm_duty r) (sq_forced r).

(** [sim_rtu_t] with its [sim_rtu_config_t] *)
Record sim_rtu := mk_sim_rtu {
  sv_station_name : string;
  sv_ip_address : string;
  sv_vendor_id : Z;
  sv_device_id : Z;
  sv_state : profinet_state;
  sv_slot_count : Z;
  sv_total_cycles : Z;
  sv_sensors : list sim_sensor;
  sv_actuators : list sim_actuator;
  sv_values : list float32;
  sv_quality : list data_quality;
  sv_fault_injected : bool;
  sv_fault_type : Z }.
#[export] Instance eta_sim_rtu : Eta sim_rtu := fun r =>
  mk_sim_rtu (sv_station_name r) (sv_ip_address r) (sv_vendor_id r) (sv_device_id r) (sv_state r) (sv_slot_count r)
    (sv_total_cycles r) (sv_sensors r) (sv_actuators r) (sv_values r) (sv_quality r) (sv_fault_injected r) (sv_fault_type r).

(** [simulator_config_t], [struct simulator] (the registry is passed along) *)
Record simulator_config := mk_simulator_config {
  sg_scenario : sim_scenario; sg_update_rate_hz : float32; sg_enable_alarms : bool;
  sg_enable_pid_response : bool; sg_time_scale : float32 }.
#[export] Instance eta_simulator_config : Eta simulator_config := fun r =>
  mk_simulator_config (sg_scenario r) (sg_update_rate_hz r) (sg_enable_alarms r) (sg_enable_pid_response r) (sg_time_scale r).
Record simulator := mk_simulator {
  sim_config : simulator_config;
  sim_rtus : list sim_rtu;
  sim_running : bool;
  sim_start_time_ms : Z;
  sim_update_count : Z }.
#[export] Instance eta_simulator : Eta simulator := fun r =>
  mk_simulator (sim_config r) (sim_rtus r) (sim_running r) (sim_start_time_ms r) (sim_update_count r).

(** ** Scenarios *)

Definition scenarios : list (sim_scenario * string) :=
  [(SIM_SCENARIO_NORMAL, "normal"); (SIM_SCENARIO_STARTUP, "startup"); (SIM_SCENARIO_ALARMS, "alarms");
   (SIM_SCENARIO_HIGH_LOAD, "high_load"); (SIM_SCENARIO_MAINTENANCE, "maintenance");
   (SIM_SCENARIO_WATER_TREATMENT, "water_treatment_plant")].
Definition simulator_scenario_name (s : sim_scenario) : string :=
  match list_find (fun p => fst p = s) scenarios with Some (_, (_, n)) => n | None => "unknown" end.
Definition simulator_parse_scenario (name : option string) : sim_scenario :=
  match name with
  | None => SIM_SCENARIO_NORMAL
  | Some name =>
      match list_find (fun p => snd p = name) scenarios with
      | Some (_, (s, _)) => s
      | None => if bool_decide (name = "wtp") then SIM_SCENARIO_WATER_TREATMENT
                else if bool_decide (name = "alarm") then SIM_SCENARIO_ALARMS else SIM_SCENARIO_NORMAL
      end
  end.

(** One value per entry. *)
Definition fill {A B} (x : B) (l : list A) : list B := (fun _ => x) <$> l.

(** An RTU as the scenarios set it up, after [memset]. *)
Definition new_rtu (name ip : string) (sensors : list sim_sensor) (actuators : list sim_actuator) : sim_rtu :=
  mk_sim_rtu (strncpy 63 name) (strncpy 15 ip) 1171 1 PROFINET_STATE_RUNNING 16 0 sensors actuators
    (fill f0 (sensors)) (fill QUALITY_GOOD (sensors)) false 0.

Definition intake_rtu : sim_rtu := new_rtu "intake-rtu-01" "192.168.1.10"
  [mk_sim_sensor 1 "RAW_FLOW" (f32_of_Z 850) "GPM" (f32_of_Z 15) (f32_of_Z 50) (f32_of_Z 600) f0 (f32_of_Z 1200) (f32_of_Z 100) (f32_of_Z 1100);
   mk_sim_sensor 2 "RAW_TURB" (f32_of_Z 12) "NTU" (f32_of_Z 2) (f32_of_Z 3) (f32_of_Z 1800) f0 (f32_of_Z 100) f0 (f32_of_Z 25);
   mk_sim_sensor 3 "RAW_PH" (f32_lit 72 10) "pH" (f32_lit 1 10) (f32_lit 2 10) (f32_of_Z 900) f0 (f32_of_Z 14) (f32_lit 65 10) (f32_lit 85 10);
   mk_sim_sensor 4 "INTAKE_LEVEL" (f32_of_Z 75) "%" (f32_of_Z 2) (f32_of_Z 5) (f32_of_Z 1200) f0 (f32_of_Z 100) (f32_of_Z 20) (f32_of_Z 95)]
  [mk_sim_actuator 5 "INTAKE_VALVE" ACTUATOR_CMD_ON 0 false;
   mk_sim_actuator 6 "INTAKE_PUMP" ACTUATOR_CMD_ON 0 false].
Definition clarifier_rtu : sim_rtu := new_rtu "clarifier-rtu-01" "192.168.1.11"
  [mk_sim_sensor 1 "CLAR_TURB" (f32_lit 35 10) "NTU" (f32_lit 5 10) (f32_of_Z 1) (f32_of_Z 1200) f0 (f32_of_Z 50) f0 (f32_of_Z 8);
   mk_sim_sensor 2 "SLUDGE_LEVEL" (f32_of_Z 35) "%" (f32_of_Z 2) (f32_of_Z 8) (f32_of_Z 3600) f0 (f32_of_Z 100) f0 (f32_of_Z 75);
   mk_sim_sensor 3 "COAG_FLOW" (f32_of_Z 15) "GPH" (f32_of_Z 1) (f32_of_Z 2) (f32_of_Z 600) f0 (f32_of_Z 50) f0 f0]
  [mk_sim_actuator 4 "COAG_PUMP" ACTUATOR_CMD_ON 0 false;
   mk_sim_actuator 5 "FLOC_MIXER" ACTUATOR_CMD_ON 0 false;
   mk_sim_actuator 6 "SLUDGE_VALVE" ACTUATOR_CMD_OFF 0 false].
Definition filter_rtu : sim_rtu := new_rtu "filter-rtu-01" "192.168.1.12"
  [mk_sim_sensor 1 "FILT_TURB" (f32_lit 3 10) "NTU" (f32_lit 5 100) (f32_lit 1 10) (f32_of_Z 1800) f0 (f32_of_Z 10) f0 (f32_of_Z 1);
   mk_sim_sensor 2 "FILT_DP" (f32_of_Z 8) "PSI" (f32_lit 5 10) (f32_of_Z 2) (f32_of_Z 7200) f0 (f32_of_Z 25) f0 (f32_of_Z 18);
   mk_sim_sensor 3 "FILT_FLOW" (f32_of_Z 420) "GPM" (f32_of_Z 10) (f32_of_Z 30) (f32_of_Z 900) f0 (f32_of_Z 600) f0 f0]
  [mk_sim_actuator 4 "FILT_INLET" ACTUATOR_CMD_ON 0 false;
   mk_sim_actuator 5 "BACKWASH" ACTUATOR_CMD_OFF 0 false].
Definition disinfect_rtu : sim_rtu := new_rtu "disinfect-rtu-01" "192.168.1.13"
  [mk_sim_sensor 1 "CL2_RESIDUAL" (f32_lit 18 10) "mg/L" (f32_lit 1 10) (f32_lit 3 10) (f32_of_Z 600) f0 (f32_of_Z 5) (f32_lit 5 10) (f32_of_Z 4);
   mk_sim_sensor 2 "CL2_FLOW" (f32_lit 25 10) "GPH" (f32_lit 2 10) (f32_lit 5 10) (f32_of_Z 900) f0 (f32_of_Z 10) f0 f0;
   mk_sim_sensor 3 "CONTACT_TIME" (f32_of_Z 32) "min" (f32_of_Z 1) f0 f0 f0 (f32_of_Z 60) (f32_of_Z 20) f0]
  [mk_sim_actuator 4 "CL2_PUMP" ACTUATOR_CMD_PWM 65 false].
Definition distrib_rtu : sim_rtu := new_rtu "distrib-rtu-01" "192.168.1.14"
  [mk_sim_sensor 1 "CLEARWELL_LVL" (f32_of_Z 82) "%" (f32_of_Z 1) (f32_of_Z 8) (f32_of_Z 3600) f0 (f32_of_Z 100) (f32_of_Z 25) (f32_of_Z 95);
   mk_sim_sensor 2 "DIST_PRESS" (f32_of_Z 55) "PSI" (f32_of_Z 2) (f32_of_Z 5) (f32_of_Z 1800) f0 (f32_of_Z 100) (f32_of_Z 35) (f32_of_Z 80);
   mk_sim_sensor 3 "DIST_FLOW" (f32_of_Z 780) "GPM" (f32_of_Z 20) (f32_of_Z 100) (f32_of_Z 7200) f0 (f32_of_Z 1500) f0 f0]
  [mk_sim_actuator 4 "HIGH_LIFT_1" ACTUATOR_CMD_ON 0 false;
   mk_sim_actuator 5 "HIGH_LIFT_2" ACTUATOR_CMD_ON 0 false;
   mk_sim_actuator 6 "DIST_VALVE" ACTUATOR_CMD_ON 0 false].
Definition setup_water_treatment_scenario : list sim_rtu := [intake_rtu; clarifier_rtu; filter_rtu; disinfect_rtu; distrib_rtu].

Definition demo_rtu : sim_rtu := new_rtu "demo-rtu-01" "192.168.1.100"
  [mk_sim_sensor 1 "TEMP_01" (f32_of_Z 25) "C" (f32_lit 5 10) (f32_of_Z 2) (f32_of_Z 300) f0 (f32_of_Z 100) f0 f0;
   mk_sim_sensor 2 "PRESS_01" (f32_of_Z 50) "PSI" (f32_of_Z 1) (f32_of_Z 5) (f32_of_Z 600) f0 (f32_of_Z 100) f0 f0;
   mk_sim_sensor 3 "FLOW_01" (f32_of_Z 100) "GPM" (f32_of_Z 3) (f32_of_Z 10) (f32_of_Z 450) f0 (f32_of_Z 200) f0 f0;
   mk_sim_sensor 4 "LEVEL_01" (f32_of_Z 75) "%" (f32_of_Z 1) (f32_of_Z 5) (f32_of_Z 900) f0 (f32_of_Z 100) f0 f0]
  [mk_sim_actuator 5 "VALVE_01" ACTUATOR_CMD_ON 0 false;
   mk_sim_actuator 6 "PUMP_01" ACTUATOR_CMD_ON 0 false].
Definition setup_normal_scenario : list sim_rtu := [demo_rtu].

Definition setup_alarm_scenario : list sim_rtu :=
  alter (fun r => r <| sv_sensors ::= fun l =>
    alter (fun s => s <| si_base_value := f32_of_Z 15 |> <| si_alarm_low := f32_of_Z 20 |>) 1%nat
      (alter (fun s => s <| si_base_value := f32_of_Z 38 |> <| si_alarm_high := f32_of_Z 35 |>) 0%nat l) |>) 0%nat setup_normal_scenario.

Definition near_limit (s : sim_sensor) : sim_sensor :=
  if fgt (si_alarm_high s) f0 then s <| si_base_value := fmul (si_alarm_high s) (f32_lit 9 10) |> else s.
Definition setup_high_load_scenario : list sim_rtu :=
  (fun r => r <| sv_sensors ::= fmap near_limit |>) <$> setup_water_treatment_scenario.

Definition has_station (n : string) (r : sim_rtu) : Prop := sv_station_name r = n.
#[export] Instance has_station_dec n r : Decision (has_station n r).
Proof. unfold has_station. apply _. Defined.
Definition setup_maintenance_scenario : list sim_rtu :=
  default setup_water_treatment_scenario
    (find_update (has_station "clarifier-rtu-01") (fun r => r <| sv_state := PROFINET_STATE_OFFLINE |>) setup_water_treatment_scenario).
Definition setup_startup_scenario : list sim_rtu :=
  alter (fun r => r <| sv_state := PROFINET_STATE_CONNECTING |>) 0%nat setup_normal_scenario.

(** [load_scenario] *)
Definition scenario_rtus (s : sim_scenario) : list sim_rtu :=
  match s with
  | SIM_SCENARIO_WATER_TREATMENT => setup_water_treatment_scenario
  | SIM_SCENARIO_ALARMS => setup_alarm_scenario
  | SIM_SCENARIO_HIGH_LOAD => setup_high_load_scenario
  | SIM_SCENARIO_MAINTENANCE => setup_maintenance_scenario
  | SIM_SCENARIO_STARTUP => setup_startup_scenario
  | SIM_SCENARIO_NORMAL => setup_normal_scenario
  end.
Definition load_scenario (s : sim_scenario) (sim : simulator) : simulator :=
  sim <| sim_rtus := scenario_rtus s |> <| sim_config ::= fun c => c <| sg_scenario := s |> |>.

(** ** Operation *)

Definition default_sim_config : simulator_config := mk_simulator_config SIM_SCENARIO_NORMAL f1 true true f1.
(** [simulator_init] *)
Definition simulator_init (alloc_ok : bool) (config : option simulator_config) : wtc_result * option simulator :=
  if negb alloc_ok then (WTC_ERROR_NO_MEMORY, None)
  else let c := default default_sim_config config in
       (WTC_OK, Some (load_scenario (sg_scenario c) (mk_simulator c [] false 0 0))).

(** The slots of a simulated RTU for the registry. *)
Definition sensor_slot (s : sim_sensor) : slot_config :=
  mk_slot_config (si_slot s) 0 SLOT_TYPE_SENSOR (strncpy (WTC_MAX_NAME - 1) (si_tag s)) (strncpy (WTC_MAX_UNIT - 1) (si_unit s))
    MEASUREMENT_PH ACTUATOR_RELAY f0 f0 f0 f0 f0 f0 f0 f0 f0 true.
Definition actuator_slot (a : sim_actuator) : slot_config :=
  mk_slot_config (sq_slot a) 0 SLOT_TYPE_ACTUATOR (strncpy (WTC_MAX_NAME - 1) (sq_tag a)) ""
    MEASUREMENT_PH ACTUATOR_RELAY f0 f0 f0 f0 f0 f0 f0 f0 f0 true.

(** [register_rtus_with_registry]: one RTU. *)
Definition register_rtu (alloc : nat -> bool) (now : Z) (r : registry) (rtu : sim_rtu) : registry :=
  let slots := (sensor_slot <$> sv_sensors rtu) ++ (actuator_slot <$> sv_actuators rtu) in
  match rtu_registry_add_device alloc now r (sv_station_name rtu) (Some (sv_ip_address rtu)) (Some slots) (Z.of_nat (length slots)) with
  | (WTC_OK, r, _) => snd (fst (rtu_registry_set_device_state now r (sv_station_name rtu) (sv_state rtu)))
  | (_, r, _) => r
  end.
Definition register_rtus_with_registry (alloc : nat -> bool) (now : Z) (rtus : list sim_rtu) (reg : option registry) : option registry :=
  (fun r => foldl (register_rtu alloc now) r rtus) <$> reg.

Definition init_values (rtu : sim_rtu) : sim_rtu :=
  rtu <| sv_values := si_base_value <$> sv_sensors rtu |> <| sv_quality := fill QUALITY_GOOD (sv_sensors rtu) |>.
(** [simulator_start], [simulator_stop], [simulator_set_registry] *)
Definition simulator_start (alloc : nat -> bool) (now : Z) (sim : simulator) (reg : option registry) : simulator * option registry :=
  let sim := sim <| sim_running := true |> <| sim_start_time_ms := now |> <| sim_update_count := 0 |>
                 <| sim_rtus ::= fmap init_values |> in
  (sim, register_rtus_with_registry alloc now (sim_rtus sim) reg).
Definition simulator_stop (sim : simulator) : simulator := sim <| sim_running := false |>.
Definition simulator_set_registry (alloc : nat -> bool) (now : Z) (sim : simulator) (reg : option registry) : option registry :=
  if sim_running sim then register_rtus_with_registry alloc now (sim_rtus sim) reg else reg.
Definition simulator_set_scenario (alloc : nat -> bool) (now : Z) (s : sim_scenario) (sim : simulator) (reg : option registry)
    : simulator * option registry :=
  if sim_running sim then simulator_start alloc now (load_scenario s (simulator_stop sim)) reg else (load_scenario s sim, reg).

Section Values.
Context (sinf : float32 -> float32).

(** [random_noise], [calculate_sensor_value] *)
Definition random_noise (rand : Z) (amplitude : float32) : float32 :=
  fmul (fsub (fmul (fdiv (f32_of_Z rand) (f32_of_Z RAND_MAX)) (f32_of_Z 2)) f1) amplitude.
Definition angle (t period : float32) : float32 :=
  to_float (ddiv (dmul (dmul (to_double (f32_of_Z 2)) M_PI) (to_double t)) (to_double period)).
Definition calculate_sensor_value (rand : Z) (s : sim_sensor) (t : float32) : float32 :=
  let trend := if fgt (si_trend_period_sec s) f0
               then fmul (si_trend_amplitude s) (sinf (angle t (si_trend_period_sec s))) else f0 in
  let noise := random_noise rand (si_noise_amplitude s) in
  let value := fadd (fadd (si_base_value s) trend) noise in
  let value := if flt value (si_min_value s) then si_min_value s else value in
  if fgt value (si_max_value s) then si_max_value s else value.

(** The registry updates of one RTU. *)
Definition publish_point (now : Z) (station : string) (r : registry) (x : sim_sensor * (float32 * data_quality)) : registry :=
  let '(s, (v, q)) := x in snd (rtu_registry_update_sensor now r station (si_slot s) v IOPS_GOOD q).
Definition publish_points (now : Z) (rtu : sim_rtu) (r : registry) : registry :=
  foldl (publish_point now (sv_station_name rtu)) r (zip (sv_sensors rtu) (zip (sv_values rtu) (sv_quality rtu))).

(** One RTU of [simulator_process]. *)
Definition process_rtu (rnd : nat -> Z) (now : Z) (elapsed : float32) (rtu : sim_rtu) (reg : option registry) : sim_rtu * option registry :=
  if negb (bool_decide (sv_state rtu = PROFINET_STATE_RUNNING)) then (rtu <| sv_quality := fill QUALITY_NOT_CONNECTED (sv_sensors rtu) |>, reg)
  else if sv_fault_injected rtu then (rtu <| sv_quality := fill QUALITY_BAD (sv_sensors rtu) |>, reg)
  else
    let rtu := rtu <| sv_values := imap (fun j s => calculate_sensor_value (rnd j) s elapsed) (sv_sensors rtu) |>
                   <| sv_quality := fill QUALITY_GOOD (sv_sensors rtu) |> <| sv_total_cycles ::= fun n => wrap32 (n + 1) |> in
    (rtu, publish_points now rtu <$> reg).
Fixpoint process_rtus (rnd : nat -> nat -> Z) (now : Z) (elapsed : float32) (i : nat) (rtus : list sim_rtu) (reg : option registry)
    : list sim_rtu * option registry :=
  match rtus with
  | [] => ([], reg)
  | rtu :: rtus =>
      let '(rtu, reg) := process_rtu (rnd i) now elapsed rtu reg in
      let '(rtus, reg) := process_rtus rnd now elapsed (S i) rtus reg in
      (rtu :: rtus, reg)
  end.
(** [simulator_process] *)
Definition simulator_process (rnd : nat -> nat -> Z) (now : Z) (sim : simulator) (reg : option registry)
    : wtc_result * simulator * option registry :=
  if negb (sim_running sim) then (WTC_ERROR_INVALID_PARAM, sim, reg)
  else
    let elapsed := fmul (fdiv (f32_of_Z (wrap64 (now - sim_start_time_ms sim))) (f32_of_Z 1000)) (sg_time_scale (sim_config sim)) in
    let '(rtus, reg) := process_rtus rnd now elapsed 0 (sim_rtus sim) reg in
    (WTC_OK, sim <| sim_rtus := rtus |> <| sim_update_count ::= fun n => wrap32 (n + 1) |>, reg).
End Values.

Definition has_sim_slot (slot : Z) (s : sim_sensor) : Prop := si_slot s = slot.
#[export] Instance has_sim_slot_dec n r : Decision (has_sim_slot n r).
Proof. unfold has_sim_slot. apply _. Defined.
Definition has_act_slot (slot : Z) (s : sim_actuator) : Prop := sq_slot s = slot.
#[export] Instance has_act_slot_dec n r : Decision (has_act_slot n r).
Proof. unfold has_act_slot. apply _. Defined.

(** [simulator_get_sensor] *)
Definition simulator_get_sensor (sim : simulator) (station : string) (slot : Z) : wtc_result * option (float32 * data_quality) :=
  match list_find (has_station station) (sim_rtus sim) with
  | None => (WTC_ERROR_NOT_FOUND, None)
  | Some (_, rtu) =>
      match list_find (has_sim_slot slot) (sv_sensors rtu) with
      | None => (WTC_ERROR_NOT_FOUND, None)
      | Some (j, _) => (WTC_OK, Some (nth j (sv_values rtu) f0, nth j (sv_quality rtu) QUALITY_GOOD))
      end
  end.

(** The first RTU with the name changed. *)
Definition update_rtu (station : string) (f : sim_rtu -> option sim_rtu) (sim : simulator) : wtc_result * simulator :=
  match list_find (has_station station) (sim_rtus sim) with
  | None => (WTC_ERROR_NOT_FOUND, sim)
  | Some (i, rtu) =>
      match f rtu with
      | Some rtu => (WTC_OK, sim <| sim_rtus ::= <[i := rtu]> |>)
      | None => (WTC_ERROR_NOT_FOUND, sim)
      end
  end.
(** [simulator_command_actuator], [simulator_inject_fault], [simulator_clear_fault] *)
Definition simulator_command_actuator (station : string) (slot command pwm_duty : Z) : simulator -> wtc_result * simulator :=
  update_rtu station (fun rtu =>
    (fun l => rtu <| sv_actuators := l |>) <$>
      find_update (has_act_slot slot) (fun a => a <| sq_command := command |> <| sq_pwm_duty := pwm_duty |>) (sv_actuators rtu)).
Definition simulator_inject_fault (station : string) (fault_type : Z) : simulator -> wtc_result * simulator :=
  update_rtu station (fun rtu => Some (rtu <| sv_fault_injected := true |> <| sv_fault_type := fault_type |>)).
Definition simulator_clear_fault (station : string) : simulator -> wtc_result * simulator :=
  update_rtu station (fun rtu => Some (rtu <| sv_fault_injected := false |> <| sv_fault_type := 0 |>)).

(** [simulator_get_stats]: RTUs, sensors, actuators, updates, start, elapsed. *)
Definition simulator_get_stats (now : Z) (sim : simulator) : Z * Z * Z * Z * Z * Z :=
  (Z.of_nat (length (sim_rtus sim)), Z.of_nat (sum_list ((fun r => length (sv_sensors r)) <$> sim_rtus sim)),
   Z.of_nat (sum_list ((fun r => length (sv_actuators r)) <$> sim_rtus sim)), sim_update_count sim, sim_start_time_ms sim,
   wrap64 (now - sim_start_time_ms sim)).
(** [simulator_list_rtus] *)
Definition simulator_list_rtus (alloc_ok : bool) (sim : simulator) (max_count : Z) : wtc_result * list sim_rtu :=
  let n := Z.min (Z.of_nat (length (sim_rtus sim))) max_count in
  if negb alloc_ok || (n <? 0) then (WTC_ERROR_NO_MEMORY, []) else (WTC_OK, take (Z.to_nat n) (sim_rtus sim)).

(** ** Values *)

(** A simulated value is within the limits of its sensor or not a number, whatever the
    sine function, the random number and the time. *)
Theorem simulated_value_bounded sinf rand s t :
  fle (si_min_value s) (si_max_value s) = true ->
  let v := calculate_sensor_value sinf rand s t in
  is_nan v = true \/ (fle (si_min_value s) v = true /\ fle v (si_max_value s) = true).
Proof.
  intros Hm. unfold calculate_sensor_value. cbv zeta. set (v := fadd _ _). clearbody v.
  assert (Hn : is_nan (si_min_value s) = false /\ is_nan (si_max_value s) = false).
  { destruct (is_nan (si_min_value s)) eqn:E1, (is_nan (si_max_value s)) eqn:E2; try done;
      unfold fle, SFleb in Hm; rewrite SFcompare_nan in Hm by tauto; done. }
  destruct Hn as [Hn1 Hn2]. destruct (flt v (si_min_value s)) eqn:E1.
  - unfold fgt. rewrite (fle_not_flt _ _ Hm). right. auto using fle_refl.
  - unfold fgt. destruct (flt (si_max_value s) v) eqn:E2; [right; auto using fle_refl |].
    destruct (is_nan v) eqn:En; [by left | right].
    split; [by apply flt_false | by apply flt_false].
Qed.

(** ** What reaches the registry *)

(** A point the registry has. *)
Definition point_exists (r : registry) (st : string) (sl : Z) : Prop :=
  exists d, find_device_locked r st = Some d /\ 0 <= sl < Z.of_nat (length (dev_sensors d)).

Definition point_update := (string * Z * float32 * data_quality)%type.
Definition point_key (u : point_update) : string * Z := let '(st, sl, _, _) := u in (st, sl).
Definition apply_update (now : Z) (r : registry) (u : point_update) : registry :=
  let '(st, sl, v, q) := u in snd (rtu_registry_update_sensor now r st sl v IOPS_GOOD q).

Lemma update_sensor_ok now r st sl v q :
  point_exists r st sl -> exists r', rtu_registry_update_sensor now r st sl v IOPS_GOOD q = (WTC_OK, r').
Proof.
  intros (d & Hd & Hsl). unfold rtu_registry_update_sensor. destruct (Z.ltb_spec sl 0); [lia |]. rewrite Hd.
  destruct (Z.leb_spec (Z.of_nat (length (dev_sensors d))) sl); [lia |]. cbv zeta.
  edestruct (find_device_update r st d) as (l & Hl & _); [done | | rewrite Hl; by eexists]. done.
Qed.

Lemma point_exists_update now r u st sl : point_exists r st sl -> point_exists (apply_update now r u) st sl.
Proof.
  destruct u as [[[st' sl'] v] q]. intros (d & Hd & Hsl). unfold apply_update, rtu_registry_update_sensor.
  destruct (sl' <? 0); [by exists d |]. destruct (find_device_locked r st') as [d'|] eqn:Hd'; [| by exists d].
  destruct (_ <=? sl'); [by exists d |]. cbv zeta.
  match goal with |- context [find_update (has_name st') ?f _] =>
    destruct (find_device_update r st' d' f Hd') as (l & Hl & _ & Hfe & Hother); [done |] end.
  rewrite Hl. destruct (decide (st = st')) as [->|Hne].
  - eexists. split; [apply Hfe |]. rewrite Hd in Hd'. injection Hd' as ->. cbn. rewrite length_insert. exact Hsl.
  - exists d. split; [| done]. rewrite <- Hd. exact (Hother st Hne).
Qed.

Lemma update_other_point now r u st sl now' out :
  point_key u <> (st, sl) ->
  rtu_registry_get_sensor now' (apply_update now r u) st sl out = rtu_registry_get_sensor now' r st sl out.
Proof.
  destruct u as [[[st' sl'] v] q]. cbn [point_key]. intros Hne. unfold apply_update.
  destruct (rtu_registry_update_sensor now r st' sl' v IOPS_GOOD q) as [res r'] eqn:E. cbn [snd].
  destruct res; try (revert E; unfold rtu_registry_update_sensor; repeat case_match; by intros [= <-]).
  apply sensor_update_roundtrip in E as [_ E]. by apply E.
Qed.
Lemma updates_other_point now l r st sl now' out :
  (forall u, u ∈ l -> point_key u <> (st, sl)) ->
  rtu_registry_get_sensor now' (foldl (apply_update now) r l) st sl out = rtu_registry_get_sensor now' r st sl out.
Proof.
  revert r. induction l as [|u l IH]; intros r Hl; [done |]. cbn [foldl].
  rewrite IH by set_solver. apply update_other_point. set_solver.
Qed.

(** With distinct points every update is what the registry then answers. *)
Lemma updates_read now l r st sl v q now' out :
  NoDup (point_key <$> l) -> (st, sl, v, q) ∈ l -> point_exists r st sl ->
  rtu_registry_get_sensor now' (foldl (apply_update now) r l) st sl out =
    (WTC_OK, mk_sensor_data v IOPS_GOOD q now (5000 <? u64_sub now' now)).
Proof.
  revert r. induction l as [|u l IH]; intros r Hnd Hin Hp; [set_solver |]. cbn [foldl]. cbn in Hnd. apply NoDup_cons in Hnd as [Hk Hnd].
  apply elem_of_cons in Hin as [<- | Hin]; [| apply IH; auto using point_exists_update].
  rewrite updates_other_point.
  - cbn [apply_update]. destruct (update_sensor_ok now r st sl v q Hp) as [r' E]. rewrite E.
    apply sensor_update_roundtrip in E as [E _]. apply E.
  - intros u Hu Ek. apply Hk. rewrite <- Ek in *. cbn [point_key] in *. rewrite Ek. apply list_elem_of_fmap. by exists u.
Qed.

(** The updates one call makes. *)
Definition rtu_updates (sinf : float32 -> float32) (rnd : nat -> Z) (elapsed : float32) (rtu : sim_rtu) : list point_update :=
  if bool_decide (sv_state rtu = PROFINET_STATE_RUNNING) && negb (sv_fault_injected rtu)
  then imap (fun j s => (sv_station_name rtu, si_slot s, calculate_sensor_value sinf (rnd j) s elapsed, QUALITY_GOOD)) (sv_sensors rtu)
  else [].
Definition all_updates (sinf : float32 -> float32) (rnd : nat -> nat -> Z) (elapsed : float32) (i : nat) (rtus : list sim_rtu) : list point_update :=
  concat (imap (fun k rtu => rtu_updates sinf (rnd (i + k)%nat) elapsed rtu) rtus).

Lemma publish_points_updates sinf rnd now elapsed name (sensors : list sim_sensor) r :
  foldl (publish_point now name) r
    (zip sensors (zip (imap (fun j s => calculate_sensor_value sinf (rnd j) s elapsed) sensors) (fill QUALITY_GOOD sensors))) =
  foldl (apply_update now) r (imap (fun j s => (name, si_slot s, calculate_sensor_value sinf (rnd j) s elapsed, QUALITY_GOOD)) sensors).
Proof.
  revert rnd r. induction sensors as [|s sensors IH]; intros rnd r; [done |].
  cbn [imap fill fmap list_fmap zip zip_with foldl publish_point apply_update].
  exact (IH (fun j => rnd (S j)) _).
Qed.

Lemma process_rtu_updates sinf rnd now elapsed rtu r :
  snd (process_rtu sinf rnd now elapsed rtu (Some r)) = Some (foldl (apply_update now) r (rtu_updates sinf rnd elapsed rtu)).
Proof.
  unfold process_rtu, rtu_updates. destruct (bool_decide _); cbn [negb andb]; [| done].
  destruct (sv_fault_injected rtu); cbn [negb]; [done |]. cbn [snd fmap option_fmap option_map]. f_equal.
  apply publish_points_updates.
Qed.

Lemma process_rtus_updates sinf rnd now elapsed i rtus r :
  snd (process_rtus sinf rnd now elapsed i rtus (Some r)) = Some (foldl (apply_update now) r (all_updates sinf rnd elapsed i rtus)).
Proof.
  revert i r. induction rtus as [|rtu rtus IH]; intros i r; [done |]. cbn [process_rtus].
  pose proof (process_rtu_updates sinf (rnd i) now elapsed rtu r) as P.
  destruct (process_rtu sinf (rnd i) now elapsed rtu (Some r)) as [rtu' reg']. cbn [snd] in P. subst reg'.
  specialize (IH (S i) (foldl (apply_update now) r (rtu_updates sinf (rnd i) elapsed rtu))).
  destruct (process_rtus sinf rnd now elapsed (S i) rtus _) as [rtus' reg']. cbn [snd] in *. rewrite IH.
  unfold all_updates. cbn [imap concat]. rewrite foldl_app. rewrite Nat.add_0_r. do 3 f_equal.
  apply imap_ext. intros k x _. cbn. by rewrite Nat.add_succ_r.
Qed.

(** The points of the simulated RTUs. *)
Definition rtu_points (rtu : sim_rtu) : list (string * Z) := (fun s => (sv_station_name rtu, si_slot s)) <$> sv_sensors rtu.
Definition sim_points (rtus : list sim_rtu) : list (string * Z) := concat (rtu_points <$> rtus).

Lemma rtu_updates_points sinf rnd elapsed rtu : point_key <$> rtu_updates sinf rnd elapsed rtu `sublist_of` rtu_points rtu.
Proof.
  unfold rtu_updates. destruct (_ && _); [| apply sublist_nil_l].
  rewrite fmap_imap. unfold rtu_points. erewrite imap_ext; [by rewrite imap_const |]. done.
Qed.
Lemma all_updates_points sinf rnd elapsed i rtus : point_key <$> all_updates sinf rnd elapsed i rtus `sublist_of` sim_points rtus.
Proof.
  unfold all_updates, sim_points. revert i. induction rtus as [|rtu rtus IH]; intros i; [done |].
  cbn [imap concat fmap list_fmap]. rewrite fmap_app. apply sublist_app; [apply rtu_updates_points |].
  erewrite imap_ext; [apply (IH (S i)) |]. intros k x _. cbn. by rewrite Nat.add_succ_r.
Qed.

Definition elapsed_time (now : Z) (sim : simulator) : float32 :=
  fmul (fdiv (f32_of_Z (wrap64 (now - sim_start_time_ms sim))) (f32_of_Z 1000)) (sg_time_scale (sim_config sim)).

(** The registry after a call. *)
Lemma process_registry sinf rnd now sim r :
  sim_running sim = true ->
  exists sim', simulator_process sinf rnd now sim (Some r) =
    (WTC_OK, sim', Some (foldl (apply_update now) r (all_updates sinf rnd (elapsed_time now sim) 0 (sim_rtus sim)))).
Proof.
  intros Hr. unfold simulator_process. rewrite Hr. cbn [negb]. fold (elapsed_time now sim).
  pose proof (process_rtus_updates sinf rnd now (elapsed_time now sim) 0 (sim_rtus sim) r) as P.
  destruct (process_rtus _ _ _ _ _ _ _) as [rtus reg]. cbn [snd] in P. subst reg. by eexists.
Qed.

Lemma in_all_updates sinf rnd elapsed i rtus k rtu u :
  rtus !! k = Some rtu -> u ∈ rtu_updates sinf (rnd (i + k)%nat) elapsed rtu -> u ∈ all_updates sinf rnd elapsed i rtus.
Proof.
  intros Hk Hu. unfold all_updates. apply list_elem_of_In, in_concat. eexists.
  split; [| by apply list_elem_of_In]. apply list_elem_of_In, elem_of_lookup_imap. by exists k, rtu.
Qed.

(** After a call the registry answers, for every sensor of a running RTU without a
    fault, the value computed for that sensor at that time. *)
Theorem simulation_reaches_registry sinf rnd now sim r i rtu j s now' out :
  sim_running sim = true -> NoDup (sim_points (sim_rtus sim)) ->
  sim_rtus sim !! i = Some rtu -> sv_state rtu = PROFINET_STATE_RUNNING -> sv_fault_injected rtu = false ->
  sv_sensors rtu !! j = Some s -> point_exists r (sv_station_name rtu) (si_slot s) ->
  exists sim' r', simulator_process sinf rnd now sim (Some r) = (WTC_OK, sim', Some r') /\
    rtu_registry_get_sensor now' r' (sv_station_name rtu) (si_slot s) out =
      (WTC_OK, mk_sensor_data (calculate_sensor_value sinf (rnd i j) s (elapsed_time now sim)) IOPS_GOOD QUALITY_GOOD now
                 (5000 <? u64_sub now' now)).
Proof.
  intros Hr Hnd Hi Hst Hf Hs Hp. destruct (process_registry sinf rnd now sim r Hr) as [sim' ->].
  eexists _, _. split; [reflexivity |]. apply updates_read; [| | done].
  - eapply sublist_NoDup; [done | apply all_updates_points].
  - apply (in_all_updates sinf rnd _ 0 _ i rtu); [done |]. unfold rtu_updates. rewrite Hst, Hf.
    rewrite bool_decide_eq_true_2 by done. cbn [andb negb]. apply elem_of_lookup_imap. by exists j, s.
Qed.

(** A fault or a lost connection in the simulation does not reach the registry: the
    points of the station are answered as before, with the quality they had. *)
Theorem simulated_fault_not_reported sinf rnd now sim r st sl now' out :
  sim_running sim = true ->
  (forall rtu, rtu ∈ sim_rtus sim -> sv_station_name rtu = st ->
     sv_state rtu <> PROFINET_STATE_RUNNING \/ sv_fault_injected rtu = true) ->
  exists sim' r', simulator_process sinf rnd now sim (Some r) = (WTC_OK, sim', Some r') /\
    rtu_registry_get_sensor now' r' st sl out = rtu_registry_get_sensor now' r st sl out.
Proof.
  intros Hr Hst. destruct (process_registry sinf rnd now sim r Hr) as [sim' ->].
  eexists _, _. split; [reflexivity |]. apply updates_other_point. intros u Hu Ek.
  unfold all_updates in Hu. apply list_elem_of_In, in_concat in Hu as (l & Hl & Hu). apply list_elem_of_In in Hl, Hu.
  apply elem_of_lookup_imap in Hl as (k & rtu & -> & Hk). unfold rtu_updates in Hu.
  destruct (bool_decide_reflect (sv_state rtu = PROFINET_STATE_RUNNING)) as [E|]; [| set_solver].
  destruct (sv_fault_injected rtu) eqn:Ef; cbn [negb andb] in Hu; [set_solver |].
  apply elem_of_lookup_imap in Hu as (j & s & -> & _). cbn in Ek. injection Ek as Ek _.
  destruct (Hst rtu) as [?|?]; [by eapply list_elem_of_lookup_2 | done | congruence | congruence].
Qed.

(** Every scenario is well formed: it fits the arrays, its points are distinct and within
    the registry's default arrays, and the limits of every sensor are in order. *)
Definition scenario_ok (rtus : list sim_rtu) : Prop :=
  (length rtus <= SIM_MAX_RTUS)%nat /\ NoDup (sim_points rtus) /\
  Forall (fun r => (length (sv_sensors r) <= SIM_MAX_SENSORS_PER_RTU)%nat /\ (length (sv_actuators r) <= SIM_MAX_ACTUATORS_PER_RTU)%nat /\
    Forall (fun s => 0 <= si_slot s < Z.of_nat WTC_DEFAULT_SENSORS /\ fle (si_min_value s) (si_max_value s) = true) (sv_sensors r)) rtus.
#[export] Instance scenario_ok_dec rtus : Decision (scenario_ok rtus).
Proof. unfold scenario_ok. apply _. Defined.
Theorem scenarios_well_formed s : scenario_ok (scenario_rtus s).
Proof. destruct s; apply (bool_decide_unpack _); vm_compute; exact I. Qed.

Theorem scenario_name_roundtrip s : simulator_parse_scenario (Some (simulator_scenario_name s)) = s.
Proof. by destruct s. Qed.

(** ** Examples *)

Module SimDemo.
Definition all_ok : nat -> bool := fun _ => true.
Definition flat : float32 -> float32 := fun _ => f0.
Definition middle : nat -> nat -> Z := fun _ _ => 1073741824.
Definition fresh (s : sim_scenario) : simulator :=
  default (mk_simulator default_sim_config [] false 0 0) (snd (simulator_init true (Some (default_sim_config <| sg_scenario := s |>)))).
Definition started (s : sim_scenario) : simulator * option registry := simulator_start all_ok 1000 (fresh s) (Some demo_registry).
Definition started_registry : registry := default demo_registry (snd (started SIM_SCENARIO_NORMAL)).
Definition level_sensor : sim_sensor := nth 3 (sv_sensors demo_rtu) (mk_sim_sensor 0 "" f0 "" f0 f0 f0 f0 f0 f0 f0).

Lemma simulation_reaches_registry_witness :
  exists sim' r', simulator_process flat middle 2000 (fst (started SIM_SCENARIO_NORMAL)) (Some started_registry) = (WTC_OK, sim', Some r') /\
    rtu_registry_get_sensor 2000 r' "demo-rtu-01" 4 zero_sensor =
      (WTC_OK, mk_sensor_data (calculate_sensor_value flat 1073741824 level_sensor f1) IOPS_GOOD QUALITY_GOOD 2000 false).
Proof.
  apply (simulation_reaches_registry flat middle 2000 (fst (started SIM_SCENARIO_NORMAL)) started_registry 0
    (init_values demo_rtu) 3 level_sensor 2000 zero_sensor); try reflexivity.
  - apply (bool_decide_unpack _). vm_compute. exact I.
  - eexists. split; [reflexivity |]. vm_compute. split; [discriminate | reflexivity].
Defined.

(** The value is read back: base value 75 and no trend or noise. *)
Example level_value : calculate_sensor_value flat 1073741824 level_sensor f1 = f32_of_Z 75.
Proof. vm_compute. reflexivity. Qed.

(** The slots of the simulated RTUs count from 1, the registry stores a value at the index
    of its slot, the shared memory publishes the indices below the number of sensors: the
    first published value was never written and the last sensor is not published. *)
Definition published : option shm_rtu :=
  match snd (simulator_process flat middle 2000 (fst (started SIM_SCENARIO_NORMAL)) (Some started_registry)) with
  | Some r => (fun d => publish_rtu d zero_shm_rtu) <$> (reg_devices r !! 0%nat)
  | None => None
  end.
Example last_sensor_not_published :
  (fun p => (sr_sensor_count p, ss_value <$> take 5 (sr_sensors p))) <$> published =
  Some (4, [f0; f32_of_Z 25; f32_of_Z 50; f32_of_Z 100; f0]).
Proof. vm_compute. reflexivity. Qed.

(** An injected fault is seen by [simulator_get_sensor], not by the registry. *)
Example fault_hidden :
  let '(_, sim) := simulator_inject_fault "demo-rtu-01" 1 (fst (started SIM_SCENARIO_NORMAL)) in
  let '(_, sim', reg) := simulator_process flat middle 2000 sim (Some started_registry) in
  (snd <$> snd (simulator_get_sensor sim' "demo-rtu-01" 1), reg) = (Some QUALITY_BAD, Some started_registry).
Proof. vm_compute. reflexivity. Qed.
(** A second scenario leaves the RTUs of the first in the registry. *)
Example old_rtus_stay :
  (fun r => dev_station_name <$> reg_devices r) <$>
    snd (simulator_set_scenario all_ok 3000 SIM_SCENARIO_NORMAL (fst (started SIM_SCENARIO_WATER_TREATMENT)) (snd (started SIM_SCENARIO_WATER_TREATMENT))) =
  Some ["intake-rtu-01"; "clarifier-rtu-01"; "filter-rtu-01"; "disinfect-rtu-01"; "distrib-rtu-01"; "demo-rtu-01"]%string.
Proof. vm_compute. reflexivity. Qed.
End SimDemo.
