(* ===== verification/Database.v ===== *)
(** * The database layer

    Model of [src/db/database.c]: devices, alarm rules, alarms, historian tags and samples,
    PID loops, interlocks and users are written to and read from PostgreSQL as texts.

    [libpq] is the interface [PgLink]: a statement with its parameters gives a result and a
    new world.  A statement is kept as its structure; [sql_text] is the text sent.  The rows
    of a result are texts ([PQgetvalue] of NULL is the empty text).  [pg] is the build option
    [HAVE_POSTGRESQL], [alloc_ok] whether [calloc] succeeds.  [None] in place of a loaded
    list is a stored number that is no constant of its enumeration (C keeps the number). *)

From Stdlib Require Import SpecFloat Ascii.
From stdpp Require Import gmap.
From S2P Require Import Prelude Float32 Types Registry AlarmManager Pid ControlEngine Compression Wire Time.
From S2P Require Import Historian UserSync ConfigFile.

(** ** Statements *)

Inductive column_type :=
| VARCHAR (n : nat) | INTEGER | SERIAL | REAL | BOOLEAN | TIMESTAMP | BIGINT | SMALLINT.

(** The statements that create, write and read one table; any other is its text. *)
Inductive sql :=
| SqlCreateTable (table : string) (columns : list (string * column_type * string))
| SqlUpsert (table : string) (columns : list string) (key : string) (updated : list string)
| SqlSelect (table : string) (columns : list string) (limit : nat)
| SqlSelectKey (table : string) (columns : list string) (key : string)
| SqlDeleteKey (table : string) (key : string)
| SqlText (text : string).

Definition commas (l : list string) : string := String.concat ", " l.
Definition dollars (n : nat) : list string := (fun i => ("$" +:+ pretty (Z.of_nat i))%string) <$> seq 1 n.

Definition type_text (t : column_type) : string :=
  match t with
  | VARCHAR n => ("VARCHAR(" +:+ pretty (Z.of_nat n) +:+ ")")%string
  | INTEGER => "INTEGER" | SERIAL => "SERIAL" | REAL => "REAL" | BOOLEAN => "BOOLEAN"
  | TIMESTAMP => "TIMESTAMP" | BIGINT => "BIGINT" | SMALLINT => "SMALLINT"
  end.

Definition sql_text (q : sql) : string :=
  match q with
  | SqlCreateTable t cols =>
      ("CREATE TABLE IF NOT EXISTS " +:+ t +:+ " (" +:+
       String.concat "," ((fun c => "  " +:+ c.1.1 +:+ " " +:+ type_text c.1.2 +:+ c.2) <$> cols) +:+ ")")%string
  | SqlUpsert t cols key upd =>
      ("INSERT INTO " +:+ t +:+ " (" +:+ commas cols +:+ ") VALUES (" +:+ commas (dollars (length cols)) +:+
       ") ON CONFLICT (" +:+ key +:+ ") DO UPDATE SET " +:+
       commas ((fun c => c +:+ " = EXCLUDED." +:+ c) <$> upd))%string
  | SqlSelect t cols n => ("SELECT " +:+ commas cols +:+ " FROM " +:+ t +:+ " LIMIT " +:+ pretty (Z.of_nat n))%string
  | SqlSelectKey t cols key => ("SELECT " +:+ commas cols +:+ " FROM " +:+ t +:+ " WHERE " +:+ key +:+ " = $1")%string
  | SqlDeleteKey t key => ("DELETE FROM " +:+ t +:+ " WHERE " +:+ key +:+ " = $1")%string
  | SqlText s => s
  end.

(** [ExecStatusType] as far as the code looks at it, with the rows of a query *)
Inductive pg_result :=
| PGRES_COMMAND_OK
| PGRES_TUPLES_OK (rows : list (list string))
| PGRES_COPY_IN
| PGRES_FATAL_ERROR.

(** The functions of libpq the layer calls. *)
Class PgLink (W : Type) := {
  pg_connectdb : string -> W -> bool * W;
  pg_finish : W -> W;
  pg_exec : sql -> list string -> W -> pg_result * W;
  pg_put_copy_data : string -> W -> bool * W;
  pg_put_copy_end : option string -> W -> bool * W;
  pg_get_result : W -> pg_result * W }.

(** ** Texts of values *)

(** Enumerations as the numbers C gives them *)
Class Enum (A : Type) := {
  enum_code : A -> Z;
  enum_values : list A;
  enum_complete : forall x, x ∈ enum_values;
  enum_injective : Inj (=) (=) enum_code }.
Definition enum_of `{Enum A} (z : Z) : option A := find_entry (fun x => enum_code x = z) enum_values.

#[export, refine] Instance enum_condition : Enum alarm_condition := {|
  enum_code := condition_code;
  enum_values := [ALARM_CONDITION_HIGH; ALARM_CONDITION_LOW; ALARM_CONDITION_HIGH_HIGH; ALARM_CONDITION_LOW_LOW;
                  ALARM_CONDITION_RATE_OF_CHANGE; ALARM_CONDITION_DEVIATION; ALARM_CONDITION_BAD_QUALITY] |}.
Proof. all: [> by intros []; set_solver | by intros [] [] ]. Defined.
#[export, refine] Instance enum_severity : Enum alarm_severity := {|
  enum_code := fun s => match s with
    | ALARM_SEVERITY_LOW => 1 | ALARM_SEVERITY_MEDIUM => 2 | ALARM_SEVERITY_HIGH => 3 | ALARM_SEVERITY_EMERGENCY => 4 end;
  enum_values := [ALARM_SEVERITY_LOW; ALARM_SEVERITY_MEDIUM; ALARM_SEVERITY_HIGH; ALARM_SEVERITY_EMERGENCY] |}.
Proof. all: [> by intros []; set_solver | by intros [] [] ]. Defined.
#[export, refine] Instance enum_alarm_state : Enum alarm_state := {|
  enum_code := fun s => match s with
    | ALARM_STATE_CLEARED => 0 | ALARM_STATE_ACTIVE_UNACK => 1 | ALARM_STATE_ACTIVE_ACK => 2
    | ALARM_STATE_CLEARED_UNACK => 3 end;
  enum_values := [ALARM_STATE_CLEARED; ALARM_STATE_ACTIVE_UNACK; ALARM_STATE_ACTIVE_ACK; ALARM_STATE_CLEARED_UNACK] |}.
Proof. all: [> by intros []; set_solver | by intros [] [] ]. Defined.
#[export, refine] Instance enum_pid_mode : Enum pid_mode := {|
  enum_code := fun m => match m with
    | PID_MODE_OFF => 0 | PID_MODE_MANUAL => 1 | PID_MODE_AUTO => 2 | PID_MODE_CASCADE => 3 end;
  enum_values := [PID_MODE_OFF; PID_MODE_MANUAL; PID_MODE_AUTO; PID_MODE_CASCADE] |}.
Proof. all: [> by intros []; set_solver | by intros [] [] ]. Defined.
#[export, refine] Instance enum_il_condition : Enum interlock_condition := {|
  enum_code := fun c => match c with
    | INTERLOCK_CONDITION_ABOVE => 0 | INTERLOCK_CONDITION_BELOW => 1 | INTERLOCK_CONDITION_EQUAL => 2
    | INTERLOCK_CONDITION_NOT_EQUAL => 3 end;
  enum_values := [INTERLOCK_CONDITION_ABOVE; INTERLOCK_CONDITION_BELOW; INTERLOCK_CONDITION_EQUAL;
                  INTERLOCK_CONDITION_NOT_EQUAL] |}.
Proof. all: [> by intros []; set_solver | by intros [] [] ]. Defined.
#[export, refine] Instance enum_il_action : Enum interlock_action := {|
  enum_code := fun a => match a with
    | INTERLOCK_ACTION_ALARM_ONLY => 0 | INTERLOCK_ACTION_FORCE_OFF => 1 | INTERLOCK_ACTION_FORCE_ON => 2
    | INTERLOCK_ACTION_SET_VALUE => 3 end;
  enum_values := [INTERLOCK_ACTION_ALARM_ONLY; INTERLOCK_ACTION_FORCE_OFF; INTERLOCK_ACTION_FORCE_ON;
                  INTERLOCK_ACTION_SET_VALUE] |}.
Proof. all: [> by intros []; set_solver | by intros [] [] ]. Defined.
#[export, refine] Instance enum_compression : Enum compression := {|
  enum_code := fun c => match c with
    | COMPRESSION_NONE => 0 | COMPRESSION_SWINGING_DOOR => 1 | COMPRESSION_BOXCAR => 2 | COMPRESSION_DEADBAND => 3 end;
  enum_values := [COMPRESSION_NONE; COMPRESSION_SWINGING_DOOR; COMPRESSION_BOXCAR; COMPRESSION_DEADBAND] |}.
Proof. all: [> by intros []; set_solver | by intros [] [] ]. Defined.

Lemma enum_of_code `{Enum A} (x : A) : enum_of (enum_code x) = Some x.
Proof.
  unfold enum_of, find_entry. destruct (list_find _ _) as [[i y]|] eqn:E; cbn.
  - apply list_find_Some in E as (_ & Hy & _). f_equal. by apply enum_injective.
  - apply list_find_None in E. rewrite Forall_forall in E. destruct (E x); [apply enum_complete|done].
Qed.

(** [snprintf] of a number, of an enumerator, of a [float] with ["%f"] into 32 bytes, and
    of a [bool] *)
Definition num (z : Z) : string := pretty z.
Definition enum_text `{Enum A} (x : A) : string := num (enum_code x).
Definition real_text (x : float32) : string := strncpy 31 (fmt_fixed 6 x).
Definition bool_text (b : bool) : string := if b then "true" else "false".

(** [atof]: white space, a sign, a decimal number with an optional exponent, or the words
    for infinity and NaN, rounded to [double] (hexadecimal numbers, which no column prints,
    are left out). *)
Definition decimal_to_double (neg : bool) (m e10 : Z) : spec_float :=
  match m with
  | Z.pos m =>
      if 0 <=? e10 then binary_normalize prec64 emax64 (if neg then Z.neg m * 10 ^ e10 else Z.pos m * 10 ^ e10) 0 neg
      else match 10 ^ (- e10) with
           | Z.pos d => ddiv (S754_finite neg m 0) (S754_finite false d 0)
           | _ => S754_nan
           end
  | _ => S754_zero neg
  end.
Definition lower (c : ascii) : ascii :=
  if (65 <=? N_of_ascii c)%N && (N_of_ascii c <=? 90)%N then ascii_of_N (N_of_ascii c + 32) else c.
Fixpoint word_prefix (w s : string) : bool :=
  match w, s with
  | EmptyString, _ => true
  | String c w, String c' s => bool_decide (c = lower c') && word_prefix w s
  | _, _ => false
  end.
Definition scan_exponent (s : string) : Z :=
  match s with
  | String c s =>
      if bool_decide (lower c = "e"%char) then
        match s with
        | String c s' =>
            if bool_decide (c = "-"%char) then from_option (fun p => - p.1) 0 (scan_unsigned s')
            else if bool_decide (c = "+"%char) then from_option fst 0 (scan_unsigned s')
            else from_option fst 0 (scan_unsigned s)
        | EmptyString => 0
        end
      else 0
  | EmptyString => 0
  end.
Definition scan_magnitude (neg : bool) (s : string) : spec_float :=
  let '(ip, rest) := scan_digits 0 s in
  let '(m, rest', nfrac) :=
    match rest with
    | String c r =>
        if bool_decide (c = "."%char)
        then let '(m, r') := scan_digits ip r in (m, r', Z.of_nat (String.length r - String.length r'))
        else (ip, rest, 0)
    | EmptyString => (ip, rest, 0)
    end in
  if (Z.of_nat (String.length s - String.length rest) + nfrac =? 0) then
    if word_prefix "inf" s then S754_infinity neg else if word_prefix "nan" s then S754_nan else S754_zero false
  else decimal_to_double neg m (scan_exponent rest' - nfrac).
Definition atof (s : string) : spec_float :=
  match skip_space s with
  | String c s' =>
      if bool_decide (c = "-"%char) then scan_magnitude true s'
      else if bool_decide (c = "+"%char) then scan_magnitude false s'
      else scan_magnitude false (String c s')
  | EmptyString => S754_zero false
  end.

Example atof_tenth : atof " -0.1x" = S754_finite true 7205759403792794 (-56).
Proof. vm_compute. reflexivity. Qed.
Example atof_large : to_float (atof "3.4028235e+38") = S754_finite false 16777215 104.
Proof. vm_compute. reflexivity. Qed.
Example atof_words : (atof "Infinity", atof "NaN", atof "x1") = (S754_infinity false, S754_nan, S754_zero false).
Proof. vm_compute. reflexivity. Qed.

(** [(uint64_t)] of a [double]: the integer part; [ub] when it is out of range. *)
Definition double_to_u64 (ub : Z) (x : spec_float) : Z :=
  match x with
  | S754_zero _ => 0
  | S754_finite s m e =>
      let v := if 0 <=? e then Z.pos m * 2 ^ e else Z.pos m / 2 ^ (- e) in
      if bool_decide (v = 0) then 0 else if s || (2 ^ 64 <=? v) then ub else v
  | _ => ub
  end.

(** [PQgetvalue(res, i, k)] and what the code makes of it *)
Definition getvalue (row : list string) (k : nat) : string := default "" (row !! k).
Definition get_int (row : list string) (k : nat) : Z := atoi (getvalue row k).
Definition get_float (row : list string) (k : nat) : float32 := to_float (atof (getvalue row k)).
Definition get_bool (row : list string) (k : nat) : bool := bool_decide (getvalue row k = "t").
Definition get_text (n : nat) (row : list string) (k : nat) : string := strncpy (n - 1) (getvalue row k).
(** [atoll] *)
Definition atoll (s : string) : Z :=
  match scan_d s with Some (v, _) => (v + 2 ^ 63) mod 2 ^ 64 - 2 ^ 63 | None => 0 end.

(** ** The handle *)

(** [database_config_t] *)
Record database_config := mk_database_config {
  dc_host : option string;
  dc_port : Z;
  dc_database : option string;
  dc_username : option string;
  dc_password : option string;
  dc_max_connections : Z;
  dc_connection_timeout_ms : Z;
  dc_use_ssl : bool }.

(** [struct wtc_database]; [db_conn] is whether the connection object exists. *)
Record wtc_database := mk_wtc_database {
  db_config : database_config;
  db_connected : bool;
  db_conn : bool }.
#[export] Instance eta_wtc_database : Eta wtc_database := fun r =>
  mk_wtc_database (db_config r) (db_connected r) (db_conn r).

Definition database_init (alloc_ok : bool) (config : option database_config) : wtc_result * option wtc_database :=
  match config with
  | None => (WTC_ERROR_INVALID_PARAM, None)
  | Some c => if alloc_ok then (WTC_OK, Some (mk_wtc_database c false false)) else (WTC_ERROR_NO_MEMORY, None)
  end.

Definition database_is_connected (db : option wtc_database) : bool :=
  match db with Some d => db_connected d | None => false end.

(** The connection string, cut to 511 characters *)
Definition conninfo (c : database_config) : string :=
  strncpy 511
    ("host=" +:+ default "localhost" (dc_host c) +:+
     " port=" +:+ num (if (0 <? dc_port c)%Z then dc_port c else 5432) +:+
     " dbname=" +:+ default "water_treatment" (dc_database c) +:+
     " user=" +:+ default "wtc" (dc_username c) +:+
     " password=" +:+ default "" (dc_password c) +:+
     " connect_timeout=" +:+ num (Z.quot (dc_connection_timeout_ms c) 1000))%string.

(** [rtu_device_t] as far as the layer stores it; a loaded device has zero in all other
    fields, so its slot table is missing. *)
Record rtu_row := mk_rtu_row {
  rr_station_name : string;
  rr_ip_address : string;
  rr_vendor_id : Z;
  rr_device_id : Z;
  rr_slot_count : Z }.
Definition row_of_device (d : rtu_device) : rtu_row :=
  mk_rtu_row (dev_station_name d) (dev_ip_address d) (dev_vendor_id d) (dev_device_id d)
    (Z.of_nat (length (dev_slots d))).

(** [database_stats_t] *)
Record database_stats := mk_database_stats {
  ds_total_rows : Z;
  ds_historian_samples : Z;
  ds_alarm_records : Z;
  ds_storage_bytes : Z }.

(** ** Columns, parameters and rows of each table *)

Definition rtu_columns : list string := ["station_name"; "ip_address"; "vendor_id"; "device_id"; "slot_count"].
Definition rtu_params (r : rtu_row) : list string :=
  [rr_station_name r; rr_ip_address r; num (rr_vendor_id r); num (rr_device_id r); num (rr_slot_count r)].
Definition rtu_of_row (row : list string) : rtu_row :=
  mk_rtu_row (get_text WTC_MAX_STATION_NAME row 0) (get_text WTC_MAX_IP_ADDRESS row 1)
    (wrap16 (get_int row 2)) (wrap16 (get_int row 3)) (get_int row 4).

Definition rule_columns : list string :=
  ["rule_id"; "name"; "rtu_station"; "slot"; "condition"; "threshold"; "delay_ms"; "severity"; "message_template";
   "enabled"].
Definition rule_params (r : alarm_rule) : list string :=
  [num (ar_rule_id r); ar_name r; ar_rtu_station r; num (ar_slot r); enum_text (ar_condition r);
   real_text (ar_threshold r); num (ar_delay_ms r); enum_text (ar_severity r); ar_message_template r;
   bool_text (ar_enabled r)].
Definition rule_of_row (row : list string) : option alarm_rule :=
  condition ← enum_of (get_int row 4); severity ← enum_of (get_int row 7);
  Some (mk_alarm_rule (get_int row 0) (get_text WTC_MAX_NAME row 1) (get_bool row 9)
          (get_text WTC_MAX_STATION_NAME row 2) (get_int row 3) condition (get_float row 5)
          (wrap32 (get_int row 6)) severity (get_text WTC_MAX_MESSAGE row 8) "" "" 0 false "" "" 0 false 0).

Definition tag_columns : list string :=
  ["tag_id"; "rtu_station"; "slot"; "tag_name"; "unit"; "sample_rate_ms"; "deadband"; "compression"].
Definition tag_params (t : historian_tag) : list string :=
  [num (ht_tag_id t); ht_rtu_station t; num (ht_slot t); ht_tag_name t; ht_unit t; num (ht_sample_rate_ms t);
   real_text (ht_deadband t); strncpy 7 (enum_text (ht_compression t))].
Definition tag_of_row (row : list string) : option historian_tag :=
  c ← enum_of (get_int row 7);
  Some (mk_historian_tag (get_int row 0) (get_text WTC_MAX_STATION_NAME row 1) (get_int row 2)
          (get_text (WTC_MAX_NAME * 2) row 3) (get_text WTC_MAX_UNIT row 4) (get_int row 5) (get_float row 6) c
          0 0 f0 f0 0).

Definition loop_columns : list string :=
  ["loop_id"; "name"; "enabled"; "input_rtu"; "input_slot"; "output_rtu"; "output_slot"; "kp"; "ki"; "kd"; "setpoint";
   "output_min"; "output_max"; "deadband"; "integral_limit"; "derivative_filter"; "mode"].
Definition loop_params (l : pid_loop) : list string :=
  [num (pl_loop_id l); pl_name l; bool_text (pl_enabled l); pl_input_rtu l; num (pl_input_slot l); pl_output_rtu l;
   num (pl_output_slot l); real_text (pl_kp l); real_text (pl_ki l); real_text (pl_kd l); real_text (pl_setpoint l);
   real_text (pl_output_min l); real_text (pl_output_max l); real_text (pl_deadband l);
   real_text (pl_integral_limit l); real_text (pl_derivative_filter l); enum_text (pl_mode l)].
Definition loop_of_row (row : list string) : option pid_loop :=
  mode ← enum_of (get_int row 16);
  Some (mk_pid_loop (get_int row 0) (get_text WTC_MAX_NAME row 1) (get_bool row 2)
          (get_text WTC_MAX_STATION_NAME row 3) (get_int row 4) (get_text WTC_MAX_STATION_NAME row 5) (get_int row 6)
          (get_float row 7) (get_float row 8) (get_float row 9) (get_float row 10) (get_float row 11)
          (get_float row 12) (get_float row 13) (get_float row 14) (get_float row 15)
          f0 f0 f0 f0 f0 f0 mode 0).

Definition interlock_columns : list string :=
  ["interlock_id"; "name"; "enabled"; "condition_rtu"; "condition_slot"; "condition_type"; "threshold"; "delay_ms";
   "action_rtu"; "action_slot"; "action_type"; "action_value"].
Definition interlock_params (i : interlock) : list string :=
  [num (il_interlock_id i); il_name i; bool_text (il_enabled i); il_condition_rtu i; num (il_condition_slot i);
   enum_text (il_condition i); real_text (il_threshold i); num (il_delay_ms i); il_action_rtu i;
   num (il_action_slot i); enum_text (il_action i); real_text (il_action_value i)].
Definition interlock_of_row (row : list string) : option interlock :=
  condition ← enum_of (get_int row 5); action ← enum_of (get_int row 10);
  Some (mk_interlock (get_int row 0) (get_text WTC_MAX_NAME row 1) (get_bool row 2)
          (get_text WTC_MAX_STATION_NAME row 3) (get_int row 4) condition (get_float row 6) (wrap32 (get_int row 7))
          (get_text WTC_MAX_STATION_NAME row 8) (get_int row 9) action (get_float row 11) false 0 0).

Definition alarm_params (a : alarm) : list string :=
  [num (al_alarm_id a); num (al_rule_id a); al_rtu_station a; num (al_slot a); enum_text (al_severity a);
   enum_text (al_state a); al_message a; real_text (al_value a); real_text (al_threshold a);
   num (al_raise_time_ms a); num (al_ack_time_ms a); num (al_clear_time_ms a); al_ack_user a].
Definition alarm_of_row (ub : Z) (row : list string) : option alarm :=
  severity ← enum_of (get_int row 4); state ← enum_of (get_int row 5);
  Some (mk_alarm (get_int row 0) (get_int row 1) (get_text WTC_MAX_STATION_NAME row 2) (get_int row 3) severity state
          (get_text WTC_MAX_MESSAGE row 6) (get_float row 7) (get_float row 8)
          (double_to_u64 ub (atof (getvalue row 9))) (double_to_u64 ub (atof (getvalue row 10)))
          (double_to_u64 ub (atof (getvalue row 11))) (get_text WTC_MAX_USERNAME row 12) false 0 "" "").

Definition user_params (u : user) : list string :=
  [num (u_user_id u); u_username u; u_password_hash u; num (u_role u); num (u_created_at_ms u);
   num (u_last_login_ms u); bool_text (u_active u)].
Definition user_of_row (ub : Z) (row : list string) : user :=
  mk_user (get_int row 0) (get_text WTC_MAX_USERNAME row 1) (get_text 256 row 2) (get_int row 3)
    (double_to_u64 ub (atof (getvalue row 4))) (double_to_u64 ub (atof (getvalue row 5))) (get_bool row 6).

(** [historian_sample_t] as a line of COPY and from a row *)
Definition tab : string := String (ascii_of_nat 9) "".
Definition newline : string := String (ascii_of_nat 10) "".
Definition sample_line (s : historian_sample) : string :=
  strncpy 255 (num (hs_timestamp_ms s) +:+ tab +:+ num (hs_tag_id s) +:+ tab +:+ fmt_fixed 6 (hs_value s) +:+
               tab +:+ num (hs_quality s) +:+ newline)%string.
Definition sample_of_row (row : list string) : historian_sample :=
  mk_historian_sample (wrap64 (atoll (getvalue row 0))) (get_int row 1) (get_float row 2) (wrap8 (get_int row 3)).

(** ** The operations *)

Section Operations.
Context (pg : bool) {W : Type} `{PgLink W}.
Implicit Types (db : option wtc_database) (w : W).

(** The guards every operation on the connection starts with *)
Definition connected_only {A} db (dflt : wtc_result -> A) (body : A) : A :=
  match db with
  | None => dflt WTC_ERROR_INVALID_PARAM
  | Some d => if db_connected d then body else dflt WTC_ERROR_NOT_INITIALIZED
  end.

(** A statement without result rows; without PostgreSQL nothing happens. *)
Definition exec_command (q : sql) (ps : list string) w : wtc_result * W :=
  if pg then
    match pg_exec q ps w with
    | (PGRES_COMMAND_OK, w') => (WTC_OK, w')
    | (_, w') => (WTC_ERROR_IO, w')
    end
  else (WTC_OK, w).
Definition command db (q : sql) (ps : list string) w : wtc_result * W :=
  connected_only db (fun e => (e, w)) (exec_command q ps w).

(** A query for a list: [clip] is the maximum the row count is cut to. *)
Definition query_list {A} (alloc_ok : bool) (clip : option nat) (of_row : list string -> option A) db
    (q : sql) (ps : list string) w : wtc_result * option (list A) * W :=
  connected_only db (fun e => (e, None, w))
    (if pg then
       match pg_exec q ps w with
       | (PGRES_TUPLES_OK rows, w') =>
           let rows := match clip with Some n => take n rows | None => rows end in
           if alloc_ok then (WTC_OK, mapM of_row rows, w') else (WTC_ERROR_NO_MEMORY, None, w')
       | (_, w') => (WTC_ERROR_IO, None, w')
       end
     else (WTC_OK, Some [], w)).

(** A query for one row: the first is used. *)
Definition query_one {A} (of_row : list string -> A) db (q : sql) (ps : list string) w
    : wtc_result * option A * W :=
  connected_only db (fun e => (e, None, w))
    (if pg then
       match pg_exec q ps w with
       | (PGRES_TUPLES_OK (row :: _), w') => (WTC_OK, Some (of_row row), w')
       | (PGRES_TUPLES_OK [], w') => (WTC_ERROR_NOT_FOUND, None, w')
       | (_, w') => (WTC_ERROR_IO, None, w')
       end
     else (WTC_ERROR_NOT_FOUND, None, w)).

Definition database_connect db w : wtc_result * option wtc_database * W :=
  match db with
  | None => (WTC_ERROR_INVALID_PARAM, None, w)
  | Some d =>
      if db_connected d then (WTC_OK, Some d, w)
      else if pg then
        match pg_connectdb (conninfo (db_config d)) w with
        | (true, w') => (WTC_OK, Some (d <| db_connected := true |> <| db_conn := true |>), w')
        | (false, w') => (WTC_ERROR_CONNECTION_FAILED, Some (d <| db_conn := false |>), pg_finish w')
        end
      else (WTC_OK, Some (d <| db_connected := true |>), w)
  end.

Definition database_disconnect db w : wtc_result * option wtc_database * W :=
  match db with
  | None => (WTC_ERROR_INVALID_PARAM, None, w)
  | Some d =>
      if negb (db_connected d) then (WTC_OK, Some d, w)
      else (WTC_OK, Some (d <| db_conn := false |> <| db_connected := false |>),
            if pg && db_conn d then pg_finish w else w)
  end.

(** [database_cleanup]: disconnected and released *)
Definition database_cleanup db w : W := snd (database_disconnect db w).

(** *** Devices *)

Definition SAVE_RTU : sql :=
  SqlUpsert "rtus" rtu_columns "station_name" ["ip_address"; "vendor_id"; "device_id"; "slot_count"].
Definition database_save_rtu db (r : rtu_row) w : wtc_result * W := command db SAVE_RTU (rtu_params r) w.
Definition database_load_rtu db (station : string) w : wtc_result * option rtu_row * W :=
  query_one rtu_of_row db (SqlSelectKey "rtus" rtu_columns "station_name") [station] w.
Definition database_delete_rtu db (station : string) w : wtc_result * W :=
  command db (SqlDeleteKey "rtus" "station_name") [station] w.
Definition database_list_rtus alloc_ok db (max_count : nat) w : wtc_result * option (list rtu_row) * W :=
  query_list alloc_ok (Some max_count) (fun row => Some (rtu_of_row row)) db (SqlSelect "rtus" rtu_columns max_count) [] w.

(** *** Alarms *)

Definition SAVE_RULE : sql :=
  SqlUpsert "alarm_rules" rule_columns "rule_id"
    ["name"; "rtu_station"; "slot"; "condition"; "threshold"; "delay_ms"; "severity"; "message_template"; "enabled"].
Definition database_save_alarm_rule db (r : alarm_rule) w : wtc_result * W := command db SAVE_RULE (rule_params r) w.
Definition database_load_alarm_rules alloc_ok db (max_count : nat) w : wtc_result * option (list alarm_rule) * W :=
  query_list alloc_ok (Some max_count) rule_of_row db (SqlSelect "alarm_rules" rule_columns max_count) [] w.

Definition SAVE_ALARM : sql := SqlText
  ("INSERT INTO alarms (alarm_id, rule_id, rtu_station, slot, severity, state, " +:+
   "message, value, threshold, raise_time, ack_time, clear_time, ack_user) " +:+
   "VALUES ($1, $2, $3, $4, $5, $6, $7, $8, $9, to_timestamp($10/1000.0), " +:+
   "to_timestamp($11/1000.0), to_timestamp($12/1000.0), $13) " +:+
   "ON CONFLICT (alarm_id) DO UPDATE SET state = EXCLUDED.state, " +:+
   "ack_time = EXCLUDED.ack_time, clear_time = EXCLUDED.clear_time, " +:+
   "ack_user = EXCLUDED.ack_user").
Definition database_save_alarm db (a : alarm) w : wtc_result * W := command db SAVE_ALARM (alarm_params a) w.
Definition ALARM_HISTORY : sql := SqlText
  ("SELECT alarm_id, rule_id, rtu_station, slot, severity, state, message, " +:+
   "value, threshold, EXTRACT(EPOCH FROM raise_time)*1000, " +:+
   "EXTRACT(EPOCH FROM ack_time)*1000, EXTRACT(EPOCH FROM clear_time)*1000, ack_user " +:+
   "FROM alarms WHERE raise_time >= to_timestamp($1/1000.0) " +:+
   "AND raise_time <= to_timestamp($2/1000.0) " +:+
   "ORDER BY raise_time DESC LIMIT $3").
Definition database_load_alarm_history (ub : Z) alloc_ok db (start_ms end_ms : Z) (max_count : nat) w
    : wtc_result * option (list alarm) * W :=
  query_list alloc_ok None (alarm_of_row ub) db ALARM_HISTORY [num start_ms; num end_ms; num (Z.of_nat max_count)] w.

(** *** Historian *)

Definition SAVE_TAG : sql :=
  SqlUpsert "historian_tags" tag_columns "tag_id" ["tag_name"; "sample_rate_ms"; "deadband"; "compression"].
Definition database_save_historian_tag db (t : historian_tag) w : wtc_result * W := command db SAVE_TAG (tag_params t) w.
Definition database_load_historian_tags alloc_ok db (max_count : nat) w : wtc_result * option (list historian_tag) * W :=
  query_list alloc_ok None tag_of_row db (SqlSelect "historian_tags" tag_columns max_count) [] w.

(** The COPY of [database_save_historian_samples], line by line: whether all were taken *)
Fixpoint put_samples (samples : list historian_sample) w : bool * W :=
  match samples with
  | [] => (true, w)
  | s :: samples =>
      match pg_put_copy_data (sample_line s) w with
      | (true, w') => put_samples samples w'
      | (false, w') => (false, w')
      end
  end.
Definition COPY_SAMPLES : sql := SqlText "COPY historian_samples (timestamp, tag_id, value, quality) FROM STDIN".
Definition copy_samples (samples : list historian_sample) w : wtc_result * W :=
  match pg_exec COPY_SAMPLES [] w with
  | (PGRES_COPY_IN, w1) =>
      match put_samples samples w1 with
      | (false, w2) => (WTC_ERROR_IO, snd (pg_put_copy_end (Some "error"%string) w2))
      | (true, w2) =>
          match pg_put_copy_end None w2 with
          | (false, w3) => (WTC_ERROR_IO, w3)
          | (true, w3) =>
              match pg_get_result w3 with
              | (PGRES_COMMAND_OK, w4) => (WTC_OK, w4)
              | (_, w4) => (WTC_ERROR_IO, w4)
              end
          end
      end
  | (_, w1) => (WTC_ERROR_IO, w1)
  end.
Definition database_save_historian_samples db (samples : list historian_sample) w : wtc_result * W :=
  match db, samples with
  | None, _ | _, [] => (WTC_ERROR_INVALID_PARAM, w)
  | Some d, _ =>
      if negb (db_connected d) then (WTC_ERROR_NOT_INITIALIZED, w)
      else if pg then copy_samples samples w else (WTC_OK, w)
  end.
Definition QUERY_SAMPLES : sql := SqlText
  ("SELECT timestamp, tag_id, value, quality FROM historian_samples " +:+
   "WHERE tag_id = $1 AND timestamp >= $2 AND timestamp <= $3 " +:+
   "ORDER BY timestamp LIMIT $4").
Definition database_query_historian_samples alloc_ok db (tag_id start_ms end_ms : Z) (max_count : nat) w
    : wtc_result * option (list historian_sample) * W :=
  query_list alloc_ok None (fun row => Some (sample_of_row row)) db QUERY_SAMPLES
    [num tag_id; num start_ms; num end_ms; num (Z.of_nat max_count)] w.

(** *** Control *)

Definition SAVE_LOOP : sql := SqlUpsert "pid_loops" loop_columns "loop_id" (drop 1 loop_columns).
Definition database_save_pid_loop db (l : pid_loop) w : wtc_result * W := command db SAVE_LOOP (loop_params l) w.
Definition database_load_pid_loops alloc_ok db (max_count : nat) w : wtc_result * option (list pid_loop) * W :=
  query_list alloc_ok (Some max_count) loop_of_row db (SqlSelect "pid_loops" loop_columns max_count) [] w.

Definition SAVE_INTERLOCK : sql := SqlUpsert "interlocks" interlock_columns "interlock_id" (drop 1 interlock_columns).
Definition database_save_interlock db (i : interlock) w : wtc_result * W :=
  command db SAVE_INTERLOCK (interlock_params i) w.
Definition database_load_interlocks alloc_ok db (max_count : nat) w : wtc_result * option (list interlock) * W :=
  query_list alloc_ok (Some max_count) interlock_of_row db (SqlSelect "interlocks" interlock_columns max_count) [] w.

(** *** Users *)

Definition SAVE_USER : sql := SqlText
  ("INSERT INTO users (user_id, username, password_hash, role, created_at, " +:+
   "last_login, active) " +:+
   "VALUES ($1, $2, $3, $4, to_timestamp($5/1000.0), to_timestamp($6/1000.0), $7) " +:+
   "ON CONFLICT (username) DO UPDATE SET " +:+
   "password_hash = EXCLUDED.password_hash, role = EXCLUDED.role, " +:+
   "last_login = EXCLUDED.last_login, active = EXCLUDED.active").
Definition USER_FIELDS : list string :=
  ["user_id"; "username"; "password_hash"; "role"; "EXTRACT(EPOCH FROM created_at) * 1000";
   "EXTRACT(EPOCH FROM last_login) * 1000"; "active"].
Definition database_save_user db (u : user) w : wtc_result * W := command db SAVE_USER (user_params u) w.
Definition database_load_user (ub : Z) db (username : string) w : wtc_result * option user * W :=
  query_one (user_of_row ub) db (SqlSelectKey "users" USER_FIELDS "username") [username] w.
Definition database_delete_user db (username : string) w : wtc_result * W :=
  command db (SqlDeleteKey "users" "username") [username] w.
Definition database_list_users (ub : Z) alloc_ok db (max_count : nat) w : wtc_result * option (list user) * W :=
  query_list alloc_ok (Some max_count) (fun row => Some (user_of_row ub row)) db (SqlSelect "users" USER_FIELDS max_count) [] w.

(** *** Maintenance *)

Definition purge_text (table column : string) (days : Z) : string :=
  ("DELETE FROM " +:+ table +:+ " WHERE " +:+ column +:+ " < NOW() - INTERVAL '" +:+ num days +:+ " days'")%string.
Definition database_purge_historian_data db (retention_days : Z) w : wtc_result * W :=
  command db (SqlText (purge_text "historian_samples" "timestamp" retention_days)) [] w.
Definition database_purge_alarm_history db (retention_days : Z) w : wtc_result * W :=
  command db (SqlText (purge_text "alarms" "raise_time" retention_days)) [] w.

Definition STATS_QUERY : sql := SqlText
  ("SELECT " +:+ "(SELECT COUNT(*) FROM historian_samples), " +:+ "(SELECT COUNT(*) FROM alarms), " +:+
   "(SELECT pg_database_size(current_database()))").
Definition database_get_stats db w : wtc_result * option database_stats * W :=
  let zero := mk_database_stats 0 0 0 0 in
  connected_only db (fun e => (e, None, w))
    (if pg then
       match pg_exec STATS_QUERY [] w with
       | (PGRES_TUPLES_OK (row :: _), w') =>
           let s := wrap64 (atoll (getvalue row 0)) in
           let a := wrap64 (atoll (getvalue row 1)) in
           (WTC_OK, Some (mk_database_stats (wrap64 (s + a)) s a (wrap64 (atoll (getvalue row 2)))), w')
       | (_, w') => (WTC_OK, Some zero, w')
       end
     else (WTC_OK, Some zero, w)).

(** [schema] of [database_migrate]: the tables, with the rest of each column definition *)
Definition schema : list (string * list (string * column_type * string)) :=
  [("rtus",
    [("station_name", VARCHAR 64, " PRIMARY KEY"); ("ip_address", VARCHAR 16, ""); ("vendor_id", INTEGER, "");
     ("device_id", INTEGER, ""); ("slot_count", INTEGER, "");
     ("created_at", TIMESTAMP, " DEFAULT CURRENT_TIMESTAMP")]);
   ("alarm_rules",
    [("rule_id", SERIAL, " PRIMARY KEY"); ("name", VARCHAR 64, ""); ("rtu_station", VARCHAR 64, "");
     ("slot", INTEGER, ""); ("condition", INTEGER, ""); ("threshold", REAL, ""); ("delay_ms", INTEGER, "");
     ("severity", INTEGER, ""); ("message_template", VARCHAR 256, ""); ("enabled", BOOLEAN, " DEFAULT true")]);
   ("alarms",
    [("alarm_id", SERIAL, " PRIMARY KEY"); ("rule_id", INTEGER, ""); ("rtu_station", VARCHAR 64, "");
     ("slot", INTEGER, ""); ("severity", INTEGER, ""); ("state", INTEGER, ""); ("message", VARCHAR 256, "");
     ("value", REAL, ""); ("threshold", REAL, ""); ("raise_time", TIMESTAMP, ""); ("ack_time", TIMESTAMP, "");
     ("clear_time", TIMESTAMP, ""); ("ack_user", VARCHAR 64, "")]);
   ("historian_tags",
    [("tag_id", SERIAL, " PRIMARY KEY"); ("rtu_station", VARCHAR 64, ""); ("slot", INTEGER, "");
     ("tag_name", VARCHAR 128, ""); ("unit", VARCHAR 16, ""); ("sample_rate_ms", INTEGER, ""); ("deadband", REAL, "");
     ("compression", INTEGER, "")]);
   ("historian_samples",
    [("timestamp", BIGINT, " NOT NULL"); ("tag_id", INTEGER, " NOT NULL"); ("value", REAL, "");
     ("quality", SMALLINT, "")])]%string.
Definition indexes : list sql :=
  [SqlText "CREATE INDEX IF NOT EXISTS idx_alarms_raise_time ON alarms(raise_time)";
   SqlText "CREATE INDEX IF NOT EXISTS idx_samples_tag_time ON historian_samples(tag_id, timestamp)"].
Definition HYPERTABLE : sql := SqlText
  ("SELECT create_hypertable('historian_samples', 'timestamp', " +:+
   "chunk_time_interval => 86400000, if_not_exists => TRUE)").

(** [database_migrate]: every statement is sent, failures are only logged. *)
Definition migrate_statements : list sql :=
  ((fun t => SqlCreateTable t.1 t.2) <$> schema) ++ indexes ++ [HYPERTABLE].
Definition database_migrate db w : wtc_result * W :=
  connected_only db (fun e => (e, w))
    (WTC_OK, if pg then foldl (fun w q => snd (pg_exec q [] w)) w migrate_statements else w).

End Operations.

(** The texts are the source's. *)
Example save_rtu_text : sql_text SAVE_RTU =
  ("INSERT INTO rtus (station_name, ip_address, vendor_id, device_id, slot_count) " +:+
   "VALUES ($1, $2, $3, $4, $5) " +:+
   "ON CONFLICT (station_name) DO UPDATE SET " +:+
   "ip_address = EXCLUDED.ip_address, " +:+
   "vendor_id = EXCLUDED.vendor_id, " +:+
   "device_id = EXCLUDED.device_id, " +:+
   "slot_count = EXCLUDED.slot_count").
Proof. vm_compute. reflexivity. Qed.
Example save_rule_text : sql_text SAVE_RULE =
  ("INSERT INTO alarm_rules (rule_id, name, rtu_station, slot, condition, " +:+
   "threshold, delay_ms, severity, message_template, enabled) " +:+
   "VALUES ($1, $2, $3, $4, $5, $6, $7, $8, $9, $10) " +:+
   "ON CONFLICT (rule_id) DO UPDATE SET " +:+
   "name = EXCLUDED.name, rtu_station = EXCLUDED.rtu_station, " +:+
   "slot = EXCLUDED.slot, condition = EXCLUDED.condition, " +:+
   "threshold = EXCLUDED.threshold, delay_ms = EXCLUDED.delay_ms, " +:+
   "severity = EXCLUDED.severity, message_template = EXCLUDED.message_template, " +:+
   "enabled = EXCLUDED.enabled").
Proof. vm_compute. reflexivity. Qed.
Example save_interlock_text : sql_text SAVE_INTERLOCK =
  ("INSERT INTO interlocks (interlock_id, name, enabled, condition_rtu, " +:+
   "condition_slot, condition_type, threshold, delay_ms, action_rtu, " +:+
   "action_slot, action_type, action_value) " +:+
   "VALUES ($1, $2, $3, $4, $5, $6, $7, $8, $9, $10, $11, $12) " +:+
   "ON CONFLICT (interlock_id) DO UPDATE SET " +:+
   "name = EXCLUDED.name, enabled = EXCLUDED.enabled, " +:+
   "condition_rtu = EXCLUDED.condition_rtu, condition_slot = EXCLUDED.condition_slot, " +:+
   "condition_type = EXCLUDED.condition_type, threshold = EXCLUDED.threshold, " +:+
   "delay_ms = EXCLUDED.delay_ms, action_rtu = EXCLUDED.action_rtu, " +:+
   "action_slot = EXCLUDED.action_slot, action_type = EXCLUDED.action_type, " +:+
   "action_value = EXCLUDED.action_value").
Proof. vm_compute. reflexivity. Qed.
Example load_loops_text : sql_text (SqlSelect "pid_loops" loop_columns 64) =
  ("SELECT loop_id, name, enabled, input_rtu, input_slot, output_rtu, " +:+
   "output_slot, kp, ki, kd, setpoint, output_min, output_max, deadband, " +:+
   "integral_limit, derivative_filter, mode FROM pid_loops LIMIT 64").
Proof. vm_compute. reflexivity. Qed.
Example create_rtus_text : sql_text (SqlCreateTable "rtus" (from_option snd [] (schema !! 0%nat))) =
  ("CREATE TABLE IF NOT EXISTS rtus (" +:+
   "  station_name VARCHAR(64) PRIMARY KEY," +:+
   "  ip_address VARCHAR(16)," +:+
   "  vendor_id INTEGER," +:+
   "  device_id INTEGER," +:+
   "  slot_count INTEGER," +:+
   "  created_at TIMESTAMP DEFAULT CURRENT_TIMESTAMP" +:+
   ")").
Proof. vm_compute. reflexivity. Qed.

(** ** What the layer relies on

    The documented behaviour of PostgreSQL for the statements above, on the contents of the
    tables: a row maps column names to the texts a query returns.  Only successful
    statements are described. *)

Abbreviation row := (gmap string string).
Definition project (cols : list string) (r : row) : list string := (fun c => default "" (r !! c)) <$> cols.
Definition new_row (cols cells : list string) : row := list_to_map (zip cols cells).
(** The columns [upd] of [new] in [old] *)
Definition update_row (upd : list string) (new old : row) : row :=
  foldr (fun c r => match new !! c with Some v => <[c := v]> r | None => r end) old upd.
Definition same_key (key : string) (r r' : row) : Prop := r !! key = r' !! key.
#[export] Instance same_key_dec key r r' : Decision (same_key key r r').
Proof. unfold same_key. apply _. Defined.
Definition upsert (key : string) (upd : list string) (new : row) (rows : list row) : list row :=
  match list_find (same_key key new) rows with
  | Some (i, old) => <[i := update_row upd new old]> rows
  | None => rows ++ [new]
  end.
Definition is_key (key k : string) (r : row) : Prop := r !! key = Some k.
#[export] Instance is_key_dec key k r : Decision (is_key key k r).
Proof. unfold is_key. apply _. Defined.
Definition column_types (cols : list (string * column_type * string)) : gmap string column_type :=
  list_to_map ((fun c => (c.1.1, c.1.2)) <$> cols).

(** Text in any server encoding *)
Definition plain_text (s : string) : Prop := Forall (fun b => 1 <= b < 128) (string_bytes s).

Class PgTables (W : Type) `{PgLink W} := {
  pg_schema : W -> gmap string (gmap string column_type);
  pg_table : W -> string -> list row;
  (** the text a column returns for a text stored in it, if it can be stored *)
  pg_cell : column_type -> string -> option string;
  cell_varchar n s : plain_text s -> (String.length s <= n)%nat -> pg_cell (VARCHAR n) s = Some s;
  cell_integer z : - 2 ^ 31 <= z < 2 ^ 31 -> pg_cell INTEGER (pretty z) = Some (pretty z);
  (** a new row has the given cells, and defaults in the other columns *)
  exec_upsert t cols key upd ps w w' :
    pg_exec (SqlUpsert t cols key upd) ps w = (PGRES_COMMAND_OK, w') ->
    exists types cells new,
      pg_schema w !! t = Some types /\ length cells = length cols /\
      (forall i c p, cols !! i = Some c -> ps !! i = Some p ->
         exists ty, types !! c = Some ty /\ pg_cell ty p = cells !! i) /\
      new_row cols cells ⊆ new /\ pg_table w' t = upsert key upd new (pg_table w t) /\
      pg_schema w' = pg_schema w /\ (forall t', t' <> t -> pg_table w' t' = pg_table w t');
  exec_select_key t cols key k rows w w' :
    pg_exec (SqlSelectKey t cols key) [k] w = (PGRES_TUPLES_OK rows, w') ->
    rows ≡ₚ project cols <$> filter (is_key key k) (pg_table w t) /\
    pg_schema w' = pg_schema w /\ (forall t', pg_table w' t' = pg_table w t');
  exec_select t cols n rows w w' :
    pg_exec (SqlSelect t cols n) [] w = (PGRES_TUPLES_OK rows, w') ->
    (exists sel rest, pg_table w t ≡ₚ sel ++ rest /\ length sel = Nat.min n (length (pg_table w t)) /\
       rows = project cols <$> sel) /\
    pg_schema w' = pg_schema w /\ (forall t', pg_table w' t' = pg_table w t');
  exec_delete t key k w w' :
    pg_exec (SqlDeleteKey t key) [k] w = (PGRES_COMMAND_OK, w') ->
    pg_table w' t = filter (fun r => ~ is_key key k r) (pg_table w t) /\
    pg_schema w' = pg_schema w /\ (forall t', t' <> t -> pg_table w' t' = pg_table w t') }.

(** ** The stored devices refine a finite map *)

(** A device whose fields fit their columns *)
Definition storable (r : rtu_row) : Prop :=
  plain_text (rr_station_name r) /\ (String.length (rr_station_name r) <= 63)%nat /\
  plain_text (rr_ip_address r) /\ (String.length (rr_ip_address r) <= 15)%nat /\
  is_u16 (rr_vendor_id r) /\ is_u16 (rr_device_id r) /\ 0 <= rr_slot_count r < 2 ^ 31.

Definition rtu_cells (r : rtu_row) : row := new_row rtu_columns (rtu_params r).
Definition rtu_types : gmap string column_type := column_types (from_option snd [] (schema !! 0%nat)).

Section DeviceStore.
Context {W : Type} `{PgTables W}.
Implicit Types (w : W) (m : gmap string rtu_row) (l : list rtu_row).

(** The table holds exactly the devices of [m]. *)
Definition rep w m : Prop :=
  pg_schema w !! "rtus" = Some rtu_types /\
  exists l, Forall2 (fun r row => rtu_cells r ⊆ row) l (pg_table w "rtus") /\ Forall storable l /\
    NoDup (rr_station_name <$> l) /\ m = list_to_map ((fun r => (rr_station_name r, r)) <$> l).

(** The operations on a connected database *)
Inductive rtu_op := SaveRtu (r : rtu_row) | DeleteRtu (s : string) | LoadRtu (s : string) | ListRtus (n : nat).
Inductive rtu_answer := Done | Loaded (r : option rtu_row) | Listed (l : list rtu_row).

Definition rtu_exec (d : wtc_database) w (op : rtu_op) : wtc_result * rtu_answer * W :=
  match op with
  | SaveRtu r => let '(res, w') := database_save_rtu true (Some d) r w in (res, Done, w')
  | DeleteRtu s => let '(res, w') := database_delete_rtu true (Some d) s w in (res, Done, w')
  | LoadRtu s => let '(res, r, w') := database_load_rtu true (Some d) s w in (res, Loaded r, w')
  | ListRtus n => let '(res, l, w') := database_list_rtus true true (Some d) n w in (res, Listed (default [] l), w')
  end.

(** The specification: a finite map from station names to devices *)
Definition rtu_spec m (op : rtu_op) (res : wtc_result) (a : rtu_answer) m' : Prop :=
  match op with
  | SaveRtu r => res = WTC_OK /\ m' = <[rr_station_name r := r]> m
  | DeleteRtu s => res = WTC_OK /\ m' = delete s m
  | LoadRtu s => m' = m /\ a = Loaded (m !! s) /\ res = (if m !! s then WTC_OK else WTC_ERROR_NOT_FOUND)
  | ListRtus n => m' = m /\ res = WTC_OK /\ exists l, a = Listed l /\ length l = Nat.min n (size m) /\
                    exists rest, (map_to_list m).*2 ≡ₚ l ++ rest
  end.

(** A row shows a device in its five columns. *)
Lemma cells_iff r (ro : row) :
  rtu_cells r ⊆ ro <->
  ro !! "station_name"%string = Some (rr_station_name r) /\ ro !! "ip_address"%string = Some (rr_ip_address r) /\
  ro !! "vendor_id"%string = Some (num (rr_vendor_id r)) /\ ro !! "device_id"%string = Some (num (rr_device_id r)) /\
  ro !! "slot_count"%string = Some (num (rr_slot_count r)).
Proof.
  rewrite map_subseteq_spec. unfold rtu_cells, new_row, rtu_columns, rtu_params. cbn [zip zip_with list_to_map foldr].
  split.
  - intros Hs. split_and!; apply Hs; by simplify_map_eq.
  - intros (? & ? & ? & ? & ?) c v. rewrite !lookup_insert_Some, lookup_empty. naive_solver.
Qed.

(** Reading back the row of a device *)
Lemma rtu_of_cells r (ro : row) : storable r -> rtu_cells r ⊆ ro -> rtu_of_row (project rtu_columns ro) = r.
Proof.
  intros (_ & H1 & _ & H2 & H3 & H4 & H5) (E1 & E2 & E3 & E4 & E5)%cells_iff. unfold rtu_columns, project.
  rewrite !fmap_cons, E1, E2, E3, E4, E5. unfold rtu_of_row, get_text, get_int, getvalue, is_u16 in *.
  cbn [lookup list_lookup from_option id]. unfold num.
  rewrite !strncpy_fits, !atoi_pretty by (cbn; lia). unfold wrap16. rewrite !Z.mod_small by lia. by destruct r.
Qed.

Lemma list_find_Forall2 {A B} (R : A -> B -> Prop) (P : A -> Prop) (Q : B -> Prop)
    `{!forall x, Decision (P x), !forall y, Decision (Q y)} (l : list A) (k : list B) :
  Forall2 R l k -> (forall x y, R x y -> P x <-> Q y) ->
  match list_find P l, list_find Q k with
  | Some (i, x), Some (j, y) => i = j /\ R x y /\ P x
  | None, None => True
  | _, _ => False
  end.
Proof.
  intros HR HPQ. induction HR as [|x y l k Hxy _ IH]; [done|]. cbn. pose proof (HPQ x y Hxy).
  destruct (decide (P x)), (decide (Q y)); [done|tauto|tauto|].
  destruct (list_find P l) as [[]|], (list_find Q k) as [[]|]; cbn; naive_solver.
Qed.

(** *** Saving *)

Definition same_station (r r' : rtu_row) : Prop := rr_station_name r' = rr_station_name r.
#[local] Instance same_station_dec r r' : Decision (same_station r r').
Proof. unfold same_station. apply _. Defined.
Definition saved (r : rtu_row) l : list rtu_row :=
  match list_find (same_station r) l with Some (i, _) => <[i := r]> l | None => l ++ [r] end.

Lemma updated_cells r r0 (new old : row) :
  rtu_cells r ⊆ new -> rtu_cells r0 ⊆ old -> same_station r r0 ->
  rtu_cells r ⊆ update_row ["ip_address"; "vendor_id"; "device_id"; "slot_count"] new old.
Proof.
  intros (N1 & N2 & N3 & N4 & N5)%cells_iff (O1 & _)%cells_iff Hs. unfold same_station in Hs. apply cells_iff.
  cbn [update_row foldr]. rewrite N2, N3, N4, N5. split_and!; simplify_map_eq; congruence.
Qed.

Lemma saved_table r (new : row) l rows :
  Forall2 (fun r row => rtu_cells r ⊆ row) l rows -> rtu_cells r ⊆ new ->
  Forall2 (fun r row => rtu_cells r ⊆ row) (saved r l)
    (upsert "station_name" ["ip_address"; "vendor_id"; "device_id"; "slot_count"] new rows).
Proof.
  intros HF Hn. unfold saved, upsert.
  pose proof (list_find_Forall2 _ (same_station r) (same_key "station_name" new) _ _ HF) as Hf.
  ospecialize (Hf _).
  { intros x y (Ey & _)%cells_iff. apply cells_iff in Hn as (En & _). unfold same_station, same_key.
    rewrite Ey, En. split; congruence. }
  destruct (list_find (same_station r) l) as [[i x]|], (list_find (same_key _ _) rows) as [[j y]|]; try done.
  - destruct Hf as (<- & Hxy & Hx). apply Forall2_insert; [done|]. by eapply updated_cells.
  - by apply Forall2_app; [|repeat constructor].
Qed.

Definition station_map l : gmap string rtu_row := list_to_map ((fun r => (rr_station_name r, r)) <$> l).
Lemma station_map_fst l : ((fun r => (rr_station_name r, r)) <$> l).*1 = rr_station_name <$> l.
Proof. by rewrite <- list_fmap_compose. Qed.
Lemma station_map_Some l s r :
  NoDup (rr_station_name <$> l) -> station_map l !! s = Some r <-> r ∈ l /\ rr_station_name r = s.
Proof.
  intros Hnd. unfold station_map. rewrite <- elem_of_list_to_map by (by rewrite station_map_fst).
  rewrite list_elem_of_fmap. naive_solver.
Qed.

Lemma saved_stations r l : NoDup (rr_station_name <$> l) ->
  NoDup (rr_station_name <$> saved r l) /\ station_map (saved r l) = <[rr_station_name r := r]> (station_map l).
Proof.
  intros Hnd. unfold saved. destruct (list_find _ l) as [[i x]|] eqn:E.
  - apply list_find_Some in E as (Hi & Hx & _). unfold same_station in Hx.
    assert (rr_station_name <$> <[i:=r]> l = rr_station_name <$> l) as En.
    { rewrite list_fmap_insert. apply list_insert_id. by rewrite list_lookup_fmap, Hi, <- Hx. }
    split; [by rewrite En|]. apply map_eq. intros s. apply option_eq. intros r'.
    rewrite station_map_Some, lookup_insert_Some, station_map_Some by (by rewrite ?En).
    rewrite (list_elem_of_lookup (<[i:=r]> l)). split.
    + intros [[j Hj] <-]. destruct (decide (j = i)) as [->|Hne].
      * rewrite list_lookup_insert_eq in Hj by (by eapply lookup_lt_Some). left. by simplify_eq.
      * rewrite list_lookup_insert_ne in Hj by done. right. split; [|split; [by eapply list_elem_of_lookup_2|done]].
        intros Es. apply Hne, (NoDup_lookup (rr_station_name <$> l) _ _ (rr_station_name r) Hnd);
          by rewrite list_lookup_fmap, ?Hj, ?Hi; cbn; congruence.
    + intros [[<- <-]|[Hs [Hin <-]]].
      * split; [|done]. exists i. apply list_lookup_insert_eq. by eapply lookup_lt_Some.
      * split; [|done]. apply list_elem_of_lookup in Hin as [j Hj]. exists j.
        rewrite list_lookup_insert_ne; [done|]. intros <-. congruence.
  - apply list_find_None in E. rewrite Forall_forall in E. rewrite fmap_app. split.
    + apply NoDup_app. split; [done|]. split; [|apply NoDup_singleton].
      intros s (r' & -> & Hr')%list_elem_of_fmap Hs%list_elem_of_singleton. by apply (E r').
    + unfold station_map. rewrite fmap_app. apply list_to_map_snoc. rewrite station_map_fst.
      intros (r' & Es & Hr')%list_elem_of_fmap. by apply (E r').
Qed.

Lemma saved_storable r l : storable r -> Forall storable l -> Forall storable (saved r l).
Proof.
  intros Hr Hl. unfold saved. destruct (list_find _ l) as [[i x]|]; [by apply Forall_insert|].
  apply Forall_app. auto.
Qed.

Lemma stored_cells r (types : gmap string column_type) cells :
  storable r -> types = rtu_types -> length cells = length rtu_columns ->
  (forall i c p, rtu_columns !! i = Some c -> rtu_params r !! i = Some p ->
     exists ty, types !! c = Some ty /\ pg_cell ty p = cells !! i) ->
  cells = rtu_params r.
Proof.
  intros (P1 & L1 & P2 & L2 & U1 & U2 & U3) -> Hlen Hc. unfold is_u16 in *.
  do 5 (destruct cells as [|? cells]; [done|]). destruct cells; [|done].
  pose proof (Hc 0%nat _ _ eq_refl eq_refl) as (t0 & T0 & C0). pose proof (Hc 1%nat _ _ eq_refl eq_refl) as (t1 & T1 & C1).
  pose proof (Hc 2%nat _ _ eq_refl eq_refl) as (t2 & T2 & C2). pose proof (Hc 3%nat _ _ eq_refl eq_refl) as (t3 & T3 & C3).
  pose proof (Hc 4%nat _ _ eq_refl eq_refl) as (t4 & T4 & C4). clear Hc Hlen.
  vm_compute in T0, T1, T2, T3, T4. simplify_eq.
  unfold num in *. rewrite cell_varchar in C0 by (done || lia). rewrite cell_varchar in C1 by (done || lia).
  rewrite cell_integer in C2, C3, C4 by lia. unfold rtu_params, num. cbn in C0, C1, C2, C3, C4. congruence.
Qed.

(** *** Deleting and reading *)

Lemma Forall2_filter_iff {A B} (R : A -> B -> Prop) (P : A -> Prop) (Q : B -> Prop)
    `{!forall x, Decision (P x), !forall y, Decision (Q y)} (l : list A) (k : list B) :
  Forall2 R l k -> (forall x y, R x y -> P x <-> Q y) -> Forall2 R (filter P l) (filter Q k).
Proof.
  intros HR HPQ. induction HR as [|x y l k Hxy _ IH]; [done|]. pose proof (HPQ x y Hxy).
  rewrite !filter_cons. destruct (decide (P x)), (decide (Q y)); try tauto. by constructor.
Qed.

Lemma key_of_cells r (ro : row) s : rtu_cells r ⊆ ro -> rr_station_name r = s <-> is_key "station_name" s ro.
Proof. intros (E & _)%cells_iff. unfold is_key. rewrite E. split; congruence. Qed.

Lemma station_filter l s : NoDup (rr_station_name <$> l) ->
  filter (fun r => rr_station_name r = s) l = option_list (station_map l !! s).
Proof.
  induction l as [|r l IH]; [done|]. intros [Hr Hnd]%NoDup_cons. rewrite filter_cons. unfold station_map in *. cbn.
  destruct (decide (rr_station_name r = s)) as [<-|Hne].
  - rewrite lookup_insert_eq, IH by done. rewrite (not_elem_of_list_to_map_1); [done|]. by rewrite station_map_fst.
  - rewrite lookup_insert_ne by done. by apply IH.
Qed.

Lemma station_delete l s : NoDup (rr_station_name <$> l) ->
  NoDup (rr_station_name <$> filter (fun r => ~ rr_station_name r = s) l) /\
  station_map (filter (fun r => ~ rr_station_name r = s) l) = delete s (station_map l).
Proof.
  intros Hnd. assert (NoDup (rr_station_name <$> filter (fun r => ~ rr_station_name r = s) l)) as Hnd'.
  { eapply sublist_NoDup; [exact Hnd|]. apply fmap_sublist, sublist_filter. }
  split; [done|]. apply map_eq. intros s'. apply option_eq. intros r.
  rewrite lookup_delete_Some, !station_map_Some, list_elem_of_filter by done. naive_solver.
Qed.

Lemma rows_of l rows : Forall storable l -> Forall2 (fun r row => rtu_cells r ⊆ row) l rows ->
  (fun ro => rtu_of_row (project rtu_columns ro)) <$> rows = l.
Proof.
  intros Hs HF. induction HF as [|r ro l rows Hr _ IH]; [done|]. apply Forall_cons in Hs as [Hs1 Hs2].
  rewrite fmap_cons, IH by done. f_equal. by apply rtu_of_cells.
Qed.

Lemma mapM_Some_fmap {A B} (f : A -> B) (l : list A) : mapM (fun x => Some (f x)) l = Some (f <$> l).
Proof. induction l as [|x l IH]; [done|]. cbn. by rewrite IH. Qed.

Lemma save_step d r w w' m :
  db_connected d = true -> rep w m -> storable r -> database_save_rtu true (Some d) r w = (WTC_OK, w') ->
  rep w' (<[rr_station_name r := r]> m).
Proof.
  intros Hd (Hsch & l & HF & Hst & Hnd & ->) Hr. unfold database_save_rtu, command, connected_only, exec_command.
  rewrite Hd. destruct (pg_exec _ _ w) as [[] w1] eqn:E; intros [= <-].
  apply exec_upsert in E as (types & cells & new & Ht & Hlen & Hc & Hn & Htab & Hsch' & _).
  rewrite Ht in Hsch. apply (inj Some) in Hsch. apply stored_cells in Hc; [|done..]. subst types cells.
  destruct (saved_stations r l Hnd) as [Hnd' Em]. split; [by rewrite Hsch'|]. exists (saved r l).
  rewrite Htab. split_and!; [by apply saved_table|by apply saved_storable|done|by symmetry].
Qed.

Lemma delete_step d s w w' m :
  db_connected d = true -> rep w m -> database_delete_rtu true (Some d) s w = (WTC_OK, w') -> rep w' (delete s m).
Proof.
  intros Hd (Hsch & l & HF & Hst & Hnd & ->). unfold database_delete_rtu, command, connected_only, exec_command.
  rewrite Hd. destruct (pg_exec _ _ w) as [[] w1] eqn:E; intros [= <-].
  apply exec_delete in E as (Htab & Hsch' & _). destruct (station_delete l s Hnd) as [Hnd' Em].
  split; [by rewrite Hsch'|]. exists (filter (fun r => ~ rr_station_name r = s) l). rewrite Htab.
  split_and!; [| |done|by symmetry].
  2: { apply Forall_forall. intros x [_ Hx]%list_elem_of_filter. rewrite Forall_forall in Hst. auto. }
  apply Forall2_filter_iff; [done|]. intros x y Hxy. by rewrite (key_of_cells x y s Hxy).
Qed.

Lemma rep_same w w' m :
  pg_schema w' = pg_schema w -> (forall t, pg_table w' t = pg_table w t) -> rep w m -> rep w' m.
Proof. intros E1 E2. unfold rep. by rewrite E1, E2. Qed.

Lemma load_step d s w w' res a m :
  db_connected d = true -> rep w m -> database_load_rtu true (Some d) s w = (res, a, w') -> res <> WTC_ERROR_IO ->
  rep w' m /\ a = m !! s /\ res = (if m !! s then WTC_OK else WTC_ERROR_NOT_FOUND).
Proof.
  intros Hd Hrep. unfold database_load_rtu, query_one, connected_only.
  rewrite Hd. destruct (pg_exec _ _ w) as [[|rows| |] w1] eqn:E; intros Eq Hio; try (by simplify_eq).
  apply exec_select_key in E as (Hrows & Hsch' & Htab).
  assert (w' = w1) as -> by (by destruct rows; simplify_eq).
  split; [by eapply rep_same|]. destruct Hrep as (_ & l & HF & Hst & Hnd & ->).
  assert (Forall2 (fun r row => rtu_cells r ⊆ row) (option_list (station_map l !! s))
            (filter (is_key "station_name" s) (pg_table w "rtus"))) as HF'.
  { rewrite <- (station_filter l s Hnd). apply Forall2_filter_iff; [done|]. intros x y Hxy. by apply key_of_cells. }
  fold (station_map l). destruct (station_map l !! s) as [r|] eqn:Em; cbn [option_list] in HF'.
  - apply Forall2_cons_inv_l in HF' as (ro & ? & Hro & ->%Forall2_nil_inv_l & Ef). rewrite Ef in Hrows.
    apply Permutation_singleton_r in Hrows as ->. simplify_eq.
    rewrite (rtu_of_cells r); [done| |done]. apply station_map_Some in Em as [Hin _]; [|done].
    rewrite Forall_forall in Hst. by apply Hst.
  - apply Forall2_nil_inv_l in HF'. rewrite HF' in Hrows. apply Permutation_nil_r in Hrows as ->. by simplify_eq.
Qed.

Lemma list_step d n w w' (l' : option (list rtu_row)) m :
  db_connected d = true -> rep w m -> database_list_rtus true true (Some d) n w = (WTC_OK, l', w') ->
  rep w' m /\ exists l, l' = Some l /\ length l = Nat.min n (size m) /\ exists rest, (map_to_list m).*2 ≡ₚ l ++ rest.
Proof.
  intros Hd Hrep. unfold database_list_rtus, query_list, connected_only.
  rewrite Hd. destruct (pg_exec _ _ w) as [[|rows| |] w1] eqn:E; intros Eq; try (by simplify_eq).
  apply exec_select in E as ((sel & rest & Hperm & Hlen & ->) & Hsch' & Htab). injection Eq as <- <-.
  split; [by eapply rep_same|]. destruct Hrep as (_ & l & HF & Hst & Hnd & ->).
  pose proof (Forall2_length _ _ _ HF) as Hl. rewrite mapM_Some_fmap, take_ge by (rewrite length_fmap; lia).
  eexists. split; [done|]. rewrite <- list_fmap_compose. fold (station_map l).
  assert ((map_to_list (station_map l)).*2 ≡ₚ l) as Hv.
  { unfold station_map. rewrite map_to_list_to_map by (by rewrite station_map_fst).
    rewrite <- list_fmap_compose. by rewrite list_fmap_id. }
  assert (size (station_map l) = length l) as Hsize.
  { rewrite <- length_map_to_list, <- (length_fmap snd), Hv. done. }
  split; [rewrite length_fmap, Hsize; lia|].
  exists ((fun ro => rtu_of_row (project rtu_columns ro)) <$> rest). rewrite Hv.
  rewrite <- (rows_of l _ Hst HF) at 1. rewrite Hperm, fmap_app. done.
Qed.

Lemma command_result d q ps w res w' :
  db_connected d = true -> command true (Some d) q ps w = (res, w') -> res <> WTC_ERROR_IO -> res = WTC_OK.
Proof.
  intros Hd. unfold command, connected_only, exec_command. rewrite Hd. destruct (pg_exec _ _ w) as [[] ?]; congruence.
Qed.
Lemma query_result {A} (f : list string -> option A) d clip q ps w res (l : option (list A)) w' :
  db_connected d = true -> query_list true true clip f (Some d) q ps w = (res, l, w') -> res <> WTC_ERROR_IO ->
  res = WTC_OK.
Proof.
  intros Hd. unfold query_list, connected_only. rewrite Hd. destruct (pg_exec _ _ w) as [[] ?]; congruence.
Qed.

(** C25: In any database that keeps the documented behaviour of the four statements, the
    device operations implement a finite map from station names to devices: a save that
    succeeds stores the device under its name and a delete removes it, a load answers the
    stored device with exactly the saved fields or "not found", and a listing returns
    stored devices without repetition, all of them up to the limit. *)
Theorem device_store_refines_map d w m op res a w' :
  db_connected d = true -> rep w m ->
  match op with SaveRtu r => storable r | _ => True end ->
  rtu_exec d w op = (res, a, w') -> res <> WTC_ERROR_IO ->
  exists m', rtu_spec m op res a m' /\ rep w' m'.
Proof.
  intros Hd Hrep Hop E Hio. destruct op as [r|s|s|n]; cbn [rtu_exec] in E.
  - destruct (database_save_rtu _ _ _ _) as [res1 w1] eqn:E1. simplify_eq.
    assert (res = WTC_OK) as -> by (by eapply command_result).
    exists (<[rr_station_name r := r]> m). split; [done|]. by eapply save_step.
  - destruct (database_delete_rtu _ _ _ _) as [res1 w1] eqn:E1. simplify_eq.
    assert (res = WTC_OK) as -> by (by eapply command_result).
    exists (delete s m). split; [done|]. by eapply delete_step.
  - destruct (database_load_rtu _ _ _ _) as [[res1 r] w1] eqn:E1. simplify_eq.
    destruct (load_step d s w w' res r m) as (Hr & -> & ->); [done..|]. by exists m.
  - destruct (database_list_rtus _ _ _ _ _) as [[res1 r] w1] eqn:E1. simplify_eq.
    assert (res = WTC_OK) as -> by (by eapply query_result).
    destruct (list_step d n w w' r m) as (Hr & l & -> & Hl & Hrest); [done..|]. exists m. cbn. eauto 8.
Qed.

End DeviceStore.

(** ** A database in memory

    The reference behaviour as a program: it meets the interface, so the theorem is not
    about nothing. *)
Module MemDb.

Record world := mk_world {
  schema_of : gmap string (gmap string column_type);
  table_of : gmap string (list row) }.

Definition ascii_text (s : string) : bool := forallb (fun b => (1 <=? b) && (b <? 128)) (string_bytes s).
Definition cell (t : column_type) (s : string) : option string :=
  match t with
  | VARCHAR n => if ascii_text s && (String.length s <=? n)%nat then Some s else None
  | INTEGER | SERIAL | BIGINT | SMALLINT => if bool_decide (pretty (atoi s) = s) then Some s else None
  | BOOLEAN => if bool_decide (s = "true"%string) then Some "t"%string
               else if bool_decide (s = "false"%string) then Some "f"%string else None
  | REAL | TIMESTAMP => Some s
  end.
Definition rows_in (w : world) (t : string) : list row := default [] (table_of w !! t).

Definition exec (q : sql) (ps : list string) (w : world) : pg_result * world :=
  match q with
  | SqlCreateTable t cols =>
      if schema_of w !! t then (PGRES_COMMAND_OK, w)
      else (PGRES_COMMAND_OK, mk_world (<[t := column_types cols]> (schema_of w)) (<[t := []]> (table_of w)))
  | SqlUpsert t cols key upd =>
      match schema_of w !! t with
      | Some types =>
          match mapM (fun cp => ty ← types !! cp.1; cell ty cp.2) (zip cols ps) with
          | Some cells =>
              if bool_decide (length cells = length cols)
              then (PGRES_COMMAND_OK,
                    mk_world (schema_of w) (<[t := upsert key upd (new_row cols cells) (rows_in w t)]> (table_of w)))
              else (PGRES_FATAL_ERROR, w)
          | None => (PGRES_FATAL_ERROR, w)
          end
      | None => (PGRES_FATAL_ERROR, w)
      end
  | SqlSelect t cols n =>
      if schema_of w !! t then (PGRES_TUPLES_OK (project cols <$> take n (rows_in w t)), w) else (PGRES_FATAL_ERROR, w)
  | SqlSelectKey t cols key =>
      match schema_of w !! t, ps with
      | Some _, [k] => (PGRES_TUPLES_OK (project cols <$> filter (is_key key k) (rows_in w t)), w)
      | _, _ => (PGRES_FATAL_ERROR, w)
      end
  | SqlDeleteKey t key =>
      match schema_of w !! t, ps with
      | Some _, [k] =>
          (PGRES_COMMAND_OK,
           mk_world (schema_of w) (<[t := filter (fun r => ~ is_key key k r) (rows_in w t)]> (table_of w)))
      | _, _ => (PGRES_FATAL_ERROR, w)
      end
  | SqlText _ => (PGRES_FATAL_ERROR, w)
  end.

#[export] Instance mem_link : PgLink world := {|
  pg_connectdb := fun _ w => (true, w);
  pg_finish := fun w => w;
  pg_exec := exec;
  pg_put_copy_data := fun _ w => (false, w);
  pg_put_copy_end := fun _ w => (false, w);
  pg_get_result := fun w => (PGRES_FATAL_ERROR, w) |}.

Lemma rows_in_insert sch w t t' rs :
  rows_in (mk_world sch (<[t := rs]> (table_of w))) t' = if bool_decide (t' = t) then rs else rows_in w t'.
Proof. unfold rows_in. cbn. case_bool_decide; subst; by simplify_map_eq. Qed.

Lemma cells_spec (types : gmap string column_type) (cols ps cells : list string) :
  mapM (fun cp => ty ← types !! cp.1; cell ty cp.2) (zip cols ps) = Some cells ->
  forall i c p, cols !! i = Some c -> ps !! i = Some p -> exists ty, types !! c = Some ty /\ cell ty p = cells !! i.
Proof.
  intros E%mapM_Some i c p Hc Hp.
  assert (zip cols ps !! i = Some (c, p)) as Hz by (by apply lookup_zip_Some).
  destruct (Forall2_lookup_l _ _ _ _ _ E Hz) as (v & Hv & Ht). cbn in Ht.
  destruct (types !! c) as [ty|] eqn:Ety; [|done]. exists ty. by rewrite Hv.
Qed.

#[export, refine] Instance mem_tables : PgTables world := {|
  pg_schema := schema_of; pg_table := rows_in; pg_cell := cell |}.
Proof.
  - intros n s Hp Hl. unfold cell, ascii_text. rewrite (proj2 (Nat.leb_le _ _) Hl).
    rewrite (proj2 (forallb_forall _ _)); [done|]. intros b Hb%list_elem_of_In.
    unfold plain_text in Hp. rewrite Forall_forall in Hp. specialize (Hp b Hb). lia.
  - intros z Hz. unfold cell. by rewrite atoi_pretty, bool_decide_eq_true_2.
  - intros t cols key upd ps w w' E. cbn in E. destruct (schema_of w !! t) as [types|] eqn:Et; [|done].
    destruct (mapM _ _) as [cells|] eqn:Ec; [|done]. case_bool_decide as Hl; [|done]. injection E as <-.
    exists types, cells, (new_row cols cells). split_and!; [done|done|by apply cells_spec|done| |done|].
    + by rewrite rows_in_insert, bool_decide_eq_true_2.
    + intros t' Ht'. by rewrite rows_in_insert, bool_decide_eq_false_2.
  - intros t cols key k rows w w' E. cbn in E. destruct (schema_of w !! t); [|done]. by simplify_eq.
  - intros t cols n rows w w' E. cbn in E. destruct (schema_of w !! t); [|done]. simplify_eq. split; [|done].
    exists (take n (rows_in w' t)), (drop n (rows_in w' t)). by rewrite take_drop, length_take.
  - intros t key k w w' E. cbn in E. destruct (schema_of w !! t); [|done]. injection E as <-. split_and!; [|done|].
    + by rewrite rows_in_insert, bool_decide_eq_true_2.
    + intros t' Ht'. by rewrite rows_in_insert, bool_decide_eq_false_2.
Defined.

(** Migration creates the tables of [schema]; the loops, interlocks and users have none. *)
Definition handle : wtc_database :=
  mk_wtc_database (mk_database_config None 0 None None None 5 5000 false) true true.
Definition migrated : world := snd (database_migrate true (Some handle) (mk_world ∅ ∅)).
Definition pump : rtu_row := mk_rtu_row "rtu-pump" "192.168.1.20" 1171 1 4.

Lemma migrated_rep : rep migrated ∅.
Proof.
  split.
  - change (schema_of migrated !! "rtus"%string = Some rtu_types).
    assert (schema_of migrated = list_to_map (reverse ((fun t => (t.1, column_types t.2)) <$> schema))) as -> by reflexivity.
    reflexivity.
  - exists []. split_and!; [|constructor|constructor|done]. change (pg_table migrated "rtus") with (rows_in migrated "rtus").
    assert (rows_in migrated "rtus" = []) as -> by reflexivity. constructor.
Qed.
Lemma pump_storable : storable pump.
Proof.
  assert (forall s, Is_true (ascii_text s) -> plain_text s) as Ht.
  { intros s Hs. unfold plain_text. apply Forall_forall. intros b Hb%list_elem_of_In.
    apply Is_true_true in Hs. pose proof (proj1 (forallb_forall _ _) Hs b Hb) as Hr. cbv beta in Hr. lia. }
  unfold storable, is_u16, pump. cbn [rr_station_name rr_ip_address rr_vendor_id rr_device_id rr_slot_count].
  split_and!; try (apply Ht; vm_compute; done); cbn [String.length]; lia.
Qed.

(** The schema has no table for loops, interlocks and users: they are never stored. *)
Lemma loops_not_stored l i u :
  fst (database_save_pid_loop true (Some handle) l migrated) = WTC_ERROR_IO /\
  fst (database_save_interlock true (Some handle) i migrated) = WTC_ERROR_IO /\
  fst (database_save_user true (Some handle) u migrated) = WTC_ERROR_IO.
Proof. split_and!; vm_compute; reflexivity. Qed.

(** Six decimals: a small threshold is stored as zero, a large one loses its last digits. *)
Example thresholds_stored :
  (real_text (f32_lit 1 10000000), real_text (S754_finite false 16777215 104))
  = ("0.000000", "3402823466385288598117041834845")%string.
Proof. vm_compute. reflexivity. Qed.

(** A tag whose station changed keeps its old one: the station is not among the updated columns. *)
Definition tag_at (station : string) : historian_tag :=
  mk_historian_tag 1 station 1 "pH" "pH" 1000 f0 COMPRESSION_NONE 0 0 f0 f0 0.
Example tag_station_not_updated :
  let w := snd (database_save_historian_tag true (Some handle) (tag_at "rtu-a") migrated) in
  let w := snd (database_save_historian_tag true (Some handle) (tag_at "rtu-b") w) in
  ht_rtu_station <$> default [] (snd (fst (database_load_historian_tags true true (Some handle) 10 w)))
  = ["rtu-a"]%string.
Proof. vm_compute. reflexivity. Qed.

Lemma pump_saved : fst (rtu_exec handle migrated (SaveRtu pump)) = (WTC_OK, Done).
Proof. vm_compute. reflexivity. Qed.

Lemma device_store_refines_map_witness :
  exists m', rtu_spec ∅ (SaveRtu pump) WTC_OK Done m' /\ rep (snd (rtu_exec handle migrated (SaveRtu pump))) m'.
Proof.
  apply (device_store_refines_map handle migrated ∅ (SaveRtu pump) WTC_OK Done);
    [reflexivity|exact migrated_rep|exact pump_storable| |discriminate].
  rewrite <- pump_saved. apply surjective_pairing.
Defined.

End MemDb.
