(* ===== verification/App.v ===== *)
(** * The controller program

    Model of [src/main.c]: the command line, start-up, the callbacks that connect the
    components, the main loop beside the threads, persistence and shutdown.  It composes the
    models of all other components.

    A step of a thread is atomic, as its component's lock makes it.  What the model adds are
    two outcomes: [Crashed], an access outside an object or the release of memory that was
    not allocated, and [Hung], a thread that waits for a mutex it holds.  The PROFINET
    controller is the interface [PnOps] (with [NetOps] of Ipc.v), Modbus transports and
    database are [ModbusLinks] and [PgLink].  [getopt_long] delivers the options in order. *)

From Stdlib Require Import SpecFloat Ascii.
From S2P Require Import Prelude Float32 Types Registry AlarmManager Pid ControlEngine Compression Failover Wire Frame.
From S2P Require Import Dcp Cyclic Rpc ArManager PnController Modbus RegisterMap ModbusGateway UserSync Time Historian ConfigFile Ipc.
From S2P Require Import Simulator Database.

(** ** Configuration *)

(** [log_level_t] by its number *)
Definition LOG_LEVEL_TRACE : Z := 0.
Definition LOG_LEVEL_INFO : Z := 2.
Definition LOG_LEVEL_FATAL : Z := 5.

(** [app_config_t] *)
Record app_config := mk_app_config {
  ac_interface : string;
  ac_config_file : string;
  ac_log_file : string;
  ac_log_level : Z;
  ac_cycle_time_ms : Z;
  ac_web_port : Z;
  ac_daemon_mode : bool;
  ac_modbus_tcp_enabled : bool;
  ac_modbus_tcp_port : Z;
  ac_modbus_rtu_enabled : bool;
  ac_modbus_rtu_device : string;
  ac_modbus_slave_addr : Z;
  ac_db_host : string;
  ac_db_port : Z;
  ac_db_name : string;
  ac_db_user : string;
  ac_db_password : string;
  ac_db_enabled : bool;
  ac_failover_enabled : bool;
  ac_failover_timeout_ms : Z;
  ac_log_forward_host : string;
  ac_log_forward_port : Z;
  ac_log_forward_type : string;
  ac_log_forward_enabled : bool;
  ac_simulation_mode : bool;
  ac_simulation_scenario : string }.
#[export] Instance eta_app_config : Eta app_config := fun r =>
  mk_app_config (ac_interface r) (ac_config_file r) (ac_log_file r) (ac_log_level r) (ac_cycle_time_ms r)
    (ac_web_port r) (ac_daemon_mode r) (ac_modbus_tcp_enabled r) (ac_modbus_tcp_port r) (ac_modbus_rtu_enabled r)
    (ac_modbus_rtu_device r) (ac_modbus_slave_addr r) (ac_db_host r) (ac_db_port r) (ac_db_name r) (ac_db_user r)
    (ac_db_password r) (ac_db_enabled r) (ac_failover_enabled r) (ac_failover_timeout_ms r) (ac_log_forward_host r)
    (ac_log_forward_port r) (ac_log_forward_type r) (ac_log_forward_enabled r) (ac_simulation_mode r)
    (ac_simulation_scenario r).

(** The initial value of [g_config] *)
Definition g_config : app_config :=
  mk_app_config "" "" "" LOG_LEVEL_INFO 1000 8080 false true 1502 false "" 1 "localhost" 5432 "water_treatment" "wtc" ""
    true true 5000 "" 0 "" false false "water_treatment_plant".

(** The options, as [getopt_long] reports them with [optarg] *)
Inductive cmd_option :=
| OPT_INTERFACE (s : string) | OPT_CONFIG (s : string) | OPT_LOG (s : string) | OPT_VERBOSE | OPT_QUIET
| OPT_CYCLE (s : string) | OPT_PORT (s : string) | OPT_DAEMON
| OPT_DB_HOST (s : string) | OPT_DB_PORT (s : string) | OPT_DB_NAME (s : string) | OPT_DB_USER (s : string)
| OPT_DB_PASSWORD (s : string) | OPT_NO_DB
| OPT_LOG_FORWARD (s : string) | OPT_LOG_FORWARD_TYPE (s : string)
| OPT_SIMULATION | OPT_SCENARIO (s : string)
| OPT_HELP | OPT_INVALID.

(** [strchr(s, ':')]: the parts before and behind the first colon *)
Fixpoint split_colon (s : string) : option (string * string) :=
  match s with
  | EmptyString => None
  | String c s =>
      if bool_decide (c = ":"%char) then Some (""%string, s)
      else (fun p => (String c p.1, p.2)) <$> split_colon s
  end.

(** One round of the option loop; [inl]: the program exits with this code. *)
Definition parse_option (c : app_config) (o : cmd_option) : Z + app_config :=
  match o with
  | OPT_INTERFACE s => inr (c <| ac_interface := strncpy 31 s |>)
  | OPT_CONFIG s => inr (c <| ac_config_file := strncpy 255 s |>)
  | OPT_LOG s => inr (c <| ac_log_file := strncpy 255 s |>)
  | OPT_VERBOSE => inr (if LOG_LEVEL_TRACE <? ac_log_level c then c <| ac_log_level ::= Z.pred |> else c)
  | OPT_QUIET => inr (if ac_log_level c <? LOG_LEVEL_FATAL then c <| ac_log_level ::= Z.succ |> else c)
  | OPT_CYCLE s => inr (c <| ac_cycle_time_ms := wrap32 (atoi s) |>)
  | OPT_PORT s => inr (c <| ac_web_port := wrap16 (atoi s) |>)
  | OPT_DAEMON => inr (c <| ac_daemon_mode := true |>)
  | OPT_DB_HOST s => inr (c <| ac_db_host := strncpy 127 s |>)
  | OPT_DB_PORT s => inr (c <| ac_db_port := atoi s |>)
  | OPT_DB_NAME s => inr (c <| ac_db_name := strncpy 63 s |>)
  | OPT_DB_USER s => inr (c <| ac_db_user := strncpy 63 s |>)
  | OPT_DB_PASSWORD s => inr (c <| ac_db_password := strncpy 127 s |>)
  | OPT_NO_DB => inr (c <| ac_db_enabled := false |>)
  | OPT_LOG_FORWARD s =>
      inr (match split_colon s with
           | Some (host, port) => c <| ac_log_forward_host := strncpy 127 host |> <| ac_log_forward_port := atoi port |>
                                    <| ac_log_forward_enabled := true |>
           | None => c
           end)
  | OPT_LOG_FORWARD_TYPE s => inr (c <| ac_log_forward_type := strncpy 31 s |>)
  | OPT_SIMULATION => inr (c <| ac_simulation_mode := true |>)
  | OPT_SCENARIO s => inr (c <| ac_simulation_scenario := strncpy 63 s |>)
  | OPT_HELP => inl 0
  | OPT_INVALID => inl 1
  end.
Fixpoint parse_options (c : app_config) (opts : list cmd_option) : Z + app_config :=
  match opts with
  | [] => inr c
  | o :: opts => match parse_option c o with inl code => inl code | inr c => parse_options c opts end
  end.

(** [parse_args], with the values of the two environment variables *)
Definition parse_args (env_sim env_scenario : option string) (opts : list cmd_option) (c : app_config) : Z + app_config :=
  match parse_options c opts with
  | inl code => inl code
  | inr c =>
      let c := match env_sim with
               | Some s => if bool_decide (s = "1") || bool_decide (s = "true") then c <| ac_simulation_mode := true |> else c
               | None => c
               end in
      inr (match env_scenario with
           | Some EmptyString | None => c
           | Some s => c <| ac_simulation_scenario := strncpy 63 s |>
           end)
  end.

(** ** Network interface *)

(** The name tests of [detect_network_interface] *)
Definition skipped (name : string) : bool :=
  String.prefix "." name || bool_decide (name = "lo") || String.prefix "docker" name || String.prefix "veth" name ||
  String.prefix "br-" name || String.prefix "virbr" name.
(** [state[strcspn(state, "\n")] = 0] on the line read into 32 bytes *)
Fixpoint first_line (s : string) : string :=
  match s with
  | EmptyString => EmptyString
  | String c s => if (N_of_ascii c =? 10)%N then EmptyString else String c (first_line s)
  end.
(** An entry of the directory: its name and the content of its state file, if readable *)
Definition is_up (e : string * option string) : bool :=
  negb (skipped e.1) &&
  match e.2 with Some s => bool_decide (first_line (strncpy 31 s) = "up") | None => false end.

Definition detect_network_interface (dir : option (list (string * option string))) (size : nat) : option string :=
  match dir with
  | None => None
  | Some entries =>
      match list_find is_up entries with
      | Some (_, e) => Some (strncpy (size - 1) e.1)
      | None =>
          match list_find (fun e => negb (skipped e.1)) entries with
          | Some (_, e) => Some (strncpy (size - 1) e.1)
          | None => None
          end
      end
  end.

(** ** The components together *)

Inductive run (A : Type) := Running (a : A) | Crashed | Hung.
Arguments Running {A} _.
Arguments Crashed {A}.
Arguments Hung {A}.
Definition run_bind {A B} (x : run A) (f : A -> run B) : run B :=
  match x with Running a => f a | Crashed => Crashed | Hung => Hung end.
Notation "a <~ x ; k" := (run_bind x (fun a => k)) (at level 100, x at level 99, right associativity).
Definition run_of {A} (x : option A) : run A := match x with Some a => Running a | None => Crashed end.

(** The PROFINET controller as [main.c] uses it; [E] is what a call meets outside.  The
    callbacks made are collected until [pn_events] hands them out. *)
Class PnOps (N E : Type) := {
  pn_init : app_config -> E -> wtc_result * option N;
  pn_start : E -> N -> option (wtc_result * N);
  pn_stop : N -> N;
  pn_process : E -> N -> option N;
  pn_cycle : E -> N -> option N;
  pn_receive : E -> list Z -> N -> option N;
  pn_events : N -> list app_event * N }.

(** PnController.v provides it: what its functions meet, and the configuration that
    [initialize_components] builds. *)
Record pn_env := mk_pn_env {
  pe_now : Z; pe_now_us : Z; pe_elapsed : Z;
  pe_poll : wtc_result * list Z; pe_respond : list Z -> wtc_result; pe_nets : nat -> net; pe_sent : nat -> bool;
  pe_connects : nat -> connect_env;
  pe_socket : wtc_result; pe_mac : list Z; pe_ip : Z;
  pe_recv_ok : bool; pe_cyclic_ok : bool; pe_send_ok : bool }.
Definition pn_config_of (c : app_config) : pn_config :=
  mk_pn_config 0 PN_VENDOR_ID PN_DEVICE_ID "" (wrap32 (ac_cycle_time_ms c * 1000))
    (mk_pn_callbacks true true true true true).
#[export] Instance controller_ops : PnOps profinet_controller pn_env := {|
  pn_init c e := if bool_decide (pe_socket e = WTC_OK)
                 then (WTC_OK, Some (profinet_controller_init (pn_config_of c) (pe_mac e) (pe_ip e)))
                 else (pe_socket e, None);
  pn_start e n := profinet_controller_start (pe_recv_ok e) (pe_cyclic_ok e) (pe_send_ok e) n;
  pn_stop n := snd (profinet_controller_stop n);
  pn_process e n := snd <$> profinet_controller_process (pe_connects e) (pe_now e) (pe_poll e) (pe_respond e) (pe_nets e) n;
  pn_cycle e n := cyclic_round (pe_now e) (pe_now_us e) (pe_elapsed e) (pe_poll e) (pe_respond e) (pe_nets e) (pe_sent e) n;
  pn_receive e frame n := recv_frame (pe_now e) (pe_now_us e) frame n;
  pn_events n := (pc_events n, n <| pc_events := [] |>) |}.

(** The static variables of [main.c]: the components, what they store outside, and
    [last_status_ms]. *)
Record app (N L W : Type) := mk_app {
  ap_config : app_config;
  ap_c : components N;
  ap_historian : option historian;
  ap_files : files;
  ap_ipc : option ipc_server;
  ap_modbus : option modbus_gateway;
  ap_links : L;
  ap_failover : option failover_manager;
  ap_simulator : option simulator;
  ap_db : option wtc_database;
  ap_world : W;
  ap_last_status_ms : Z }.
Arguments mk_app {N L W}.
Arguments ap_config {N L W}.
Arguments ap_c {N L W}.
Arguments ap_historian {N L W}.
Arguments ap_files {N L W}.
Arguments ap_ipc {N L W}.
Arguments ap_modbus {N L W}.
Arguments ap_links {N L W}.
Arguments ap_failover {N L W}.
Arguments ap_simulator {N L W}.
Arguments ap_db {N L W}.
Arguments ap_world {N L W}.
Arguments ap_last_status_ms {N L W}.
#[export] Instance eta_app N L W : Eta (app N L W) := fun r =>
  mk_app (ap_config r) (ap_c r) (ap_historian r) (ap_files r) (ap_ipc r) (ap_modbus r) (ap_links r) (ap_failover r)
    (ap_simulator r) (ap_db r) (ap_world r) (ap_last_status_ms r).

(** An operation of the registry, if there is one *)
Definition on_registry {N} (f : registry -> registry) (c : components N) : components N :=
  c <| c_registry ::= fmap f |>.

(** The quality class in the upper bits of the quality byte *)
Definition quality_of_byte (b : Z) : data_quality :=
  match Z.land b 0xC0 with
  | 0 => QUALITY_GOOD | 64 => QUALITY_UNCERTAIN | 128 => QUALITY_BAD | _ => QUALITY_NOT_CONNECTED
  end.

(** A discovered slot as the controller hands it to [on_slots_discovered]: the scaling and
    alarm limits of the local array are never written ([junk]). *)
Definition discovered_slot (junk : nat -> slot_config) (i : nat) (s : ar_slot_info) : slot_config :=
  let j := junk i in
  mk_slot_config (Cyclic.si_slot s) (si_subslot s) (si_type s) "" "" (si_measurement_type s) (si_actuator_type s)
    (sc_scale_min j) (sc_scale_max j) (sc_alarm_low j) (sc_alarm_high j) (sc_alarm_low_low j) (sc_alarm_high_high j)
    (sc_warning_low j) (sc_warning_high j) (sc_deadband j) true.

(** What the callbacks meet: clock readings, allocations, uninitialised memory *)
Record cb_env := mk_cb_env {
  cb_clk : nat -> Z;
  cb_alloc : nat -> bool;
  cb_alloc_ok : bool;
  cb_junk : nat -> slot_config }.

(** ** The lock of the PROFINET controller

    [controller->lock] is a default mutex, here the thread that holds it.  The steps of the
    threads are atomic, so a lock that another thread holds is free before the step goes
    on; a thread that locks what it holds itself never returns ([None]). *)
Inductive thread := MainThread | CyclicThread | ReceiveThread.
#[export] Instance thread_eq_dec : EqDecision thread.
Proof. solve_decision. Defined.
Definition mutex := option thread.
Definition mutex_lock (me : thread) (l : mutex) : option mutex :=
  match l with
  | Some t => if decide (t = me) then None else Some (Some me)
  | None => Some (Some me)
  end.
Definition mutex_unlock (l : mutex) : mutex := None.

(** The controller behind its lock, in use by a thread; [ln_waits]: a call did not return. *)
Record locked_net (N : Type) := mk_locked_net {
  ln_net : N;
  ln_thread : thread;
  ln_lock : mutex;
  ln_waits : bool }.
Arguments mk_locked_net {N}.
Arguments ln_net {N}.
Arguments ln_thread {N}.
Arguments ln_lock {N}.
Arguments ln_waits {N}.
#[export] Instance eta_locked_net N : Eta (locked_net N) := fun r =>
  mk_locked_net (ln_net r) (ln_thread r) (ln_lock r) (ln_waits r).

Section Callbacks.
Context {N : Type} `{NetOps N}.
Implicit Types (c : components N) (e : cb_env).

Definition on_device_added e (station ip : string) c : components N :=
  on_registry (fun r => snd (fst (rtu_registry_add_device (cb_alloc e) (cb_clk e 0%nat) r station (Some ip) None 0))) c.

Definition on_device_removed e (station : string) c : components N :=
  on_registry (fun r => snd (fst (rtu_registry_set_device_state (cb_clk e 0%nat) r station PROFINET_STATE_OFFLINE))) c.

(** [profinet_controller_write_record] on the controller behind its lock: it takes the lock
    to look up the AR, releases it and sends the request. *)
#[export] Instance locked_record : RecordLink (locked_net N) := {|
  write_record n station api slot subslot index data :=
    match mutex_lock (ln_thread n) (ln_lock n) with
    | None => (n <| ln_waits := true |>, WTC_ERROR)
    | Some l =>
        let '(net, res) := write_record (ln_net n) station api slot subslot index data in
        (n <| ln_net := net |> <| ln_lock := mutex_unlock l |>, res)
    end |}.

(** [on_profinet_state_changed], called by thread [me] with the controller's lock as [lk] *)
Definition on_profinet_state_changed (me : thread) (lk : mutex) e (station : string) (state : profinet_state) c
    : run (components N) :=
  let c := on_registry (fun r => snd (fst (rtu_registry_set_device_state (cb_clk e 0%nat) r station state))) c in
  match c_user_sync c, c_profinet c with
  | Some m, Some net =>
      if bool_decide (state = PROFINET_STATE_RUNNING) then
        let '(m, n) := user_sync_on_rtu_connect (fun k => cb_clk e (S k)) m (mk_locked_net net me lk false) station [] in
        if ln_waits n then Hung
        else Running (c <| c_user_sync := Some m |> <| c_profinet := Some (ln_net n) |>)
      else Running c
  | _, _ => Running c
  end.

Definition on_data_received e (station : string) (slot : Z) (data : list Z) c : components N :=
  if (length data <? 5)%nat then c
  else
    let value := f32_of_bits (of_be 0 (take 4 data)) in
    let dq := quality_of_byte (nth 4 data 0) in
    let status := if bool_decide (dq = QUALITY_GOOD) then IOPS_GOOD else IOPS_BAD in
    on_registry (fun r => snd (rtu_registry_update_sensor (cb_clk e 0%nat) r station slot value status dq)) c.

Definition on_slots_discovered e (station : string) (slots : list ar_slot_info) c : components N :=
  match take WTC_MAX_SLOTS slots with
  | [] => c
  | l => on_registry (fun r => snd (rtu_registry_set_device_config (cb_alloc_ok e) r station
                                      (imap (discovered_slot (cb_junk e)) l))) c
  end.

(** The callbacks of the PROFINET controller *)
Definition handle_event (me : thread) (lk : mutex) e (ev : app_event) c : run (components N) :=
  match ev with
  | EvDeviceAdded station ip _ _ => Running (on_device_added e station ip c)
  | EvDeviceRemoved station => Running (on_device_removed e station c)
  | EvStateChanged station state => on_profinet_state_changed me lk e station state c
  | EvDataReceived station idx data => Running (on_data_received e station idx data c)
  | EvSlotsDiscovered station slots => Running (on_slots_discovered e station slots c)
  end.
Fixpoint handle_events (me : thread) (lk : mutex) (es : nat -> cb_env) (k : nat) (evs : list app_event) c
    : run (components N) :=
  match evs with
  | [] => Running c
  | ev :: evs => c <~ handle_event me lk (es k) ev c; handle_events me lk es (S k) evs c
  end.

(** An operation of the controller by thread [me] with the callbacks it makes; [locks]: the
    thread holds the controller's lock meanwhile, as [cyclic_thread_func] and
    [recv_thread_func] do. *)
Context {E : Type} `{PnOps N E}.
Definition with_controller (me : thread) (locks : bool) (es : nat -> cb_env) (f : N -> option N) c : run (components N) :=
  match c_profinet c with
  | None => Running c
  | Some net =>
      match (if locks then mutex_lock me None else Some None) with
      | None => Hung
      | Some lk =>
          match f net with
          | None => Crashed
          | Some net =>
              let '(evs, net) := pn_events net in handle_events me lk es 0 evs (c <| c_profinet := Some net |>)
          end
      end
  end.
End Callbacks.

(** [on_failover_event]: a notification for the web API *)
Definition WTC_EVENT_RTU_OFFLINE : Z := 1.
Definition WTC_EVENT_RTU_ONLINE : Z := 2.
Definition on_failover_event (now : Z) (ev : string * string * bool) (s : ipc_server) : ipc_server :=
  let '(primary, backup, failed_over) := ev in
  if failed_over
  then ipc_server_post_notification now s WTC_EVENT_RTU_OFFLINE (Some primary)
         (Some (strncpy 255 ("RTU offline - failing over to " +:+ backup)%string))
  else ipc_server_post_notification now s WTC_EVENT_RTU_ONLINE (Some primary)
         (Some "RTU online - restored from failover"%string).

Section Program.
Context {N E L W : Type} `{NetOps N} `{!PnOps N E} `{ModbusLinks L} `{PgLink W}.
Context (pg : bool) (sinf : float32 -> float32) (ub : float32 -> Z).
Implicit Types (a : app N L W).

(** ** Persistence *)

(** The rows of a load are processed one by one. *)
Definition load_rtus (alloc : nat -> nat -> bool) (clk : nat -> Z) (rows : list rtu_row) (r : registry) : registry :=
  snd (foldl (fun '(i, r) row =>
    (S i, snd (fst (rtu_registry_add_device (alloc i) (clk i) r (rr_station_name row) (Some (rr_ip_address row))
                      None (rr_slot_count row))))) (0%nat, r) rows).
Definition load_rules (rules : list alarm_rule) (m : alarm_manager) : alarm_manager :=
  foldl (fun m r => snd (alarm_manager_create_rule m (ar_rtu_station r) (ar_slot r) (ar_condition r) (ar_threshold r)
                           (ar_severity r) (ar_delay_ms r) (Some (ar_message_template r)))) m rules.
Definition load_loops (loops : list pid_loop) (g : control_engine) : control_engine :=
  foldl (fun g l => snd (control_engine_add_pid_loop g l)) g loops.
Definition load_tags (alloc_ok : nat -> bool) (tags : list historian_tag) (h : historian) : historian :=
  snd (foldl (fun '(i, h) t =>
    (S i, snd (historian_add_tag (alloc_ok i) h (ht_rtu_station t) (ht_slot t) (Some (ht_tag_name t))
                 (ht_sample_rate_ms t) (ht_deadband t) (ht_compression t)))) (0%nat, h) tags).

(** The list a load delivered, empty after an error *)
Definition loaded {A} (x : wtc_result * option (list A) * W) : option (list A) * W :=
  let '(res, l, w) := x in ((if bool_decide (res = WTC_OK) then l else Some []), w).

Record load_env := mk_load_env {
  le_calloc : nat -> bool;
  le_alloc : nat -> nat -> bool;
  le_clk : nat -> Z;
  le_tag_alloc : nat -> bool }.

(** [load_config_from_database] ([None]: a stored number outside its enumeration) *)
Definition load_config_from_database (e : load_env) a : option (app N L W) :=
  if negb (database_is_connected (ap_db a)) then Some a
  else
    let '(rtus, w) := loaded (database_list_rtus pg (le_calloc e 0%nat) (ap_db a) Registry.WTC_MAX_RTUS (ap_world a)) in
    let '(rules, w) := loaded (database_load_alarm_rules pg (le_calloc e 1%nat) (ap_db a) WTC_MAX_ALARM_RULES w) in
    let '(loops, w) := loaded (database_load_pid_loops pg (le_calloc e 2%nat) (ap_db a) WTC_MAX_PID_LOOPS w) in
    let '(tags, w) := loaded (database_load_historian_tags pg (le_calloc e 3%nat) (ap_db a)
                                (Z.to_nat WTC_MAX_HISTORIAN_TAGS) w) in
    rtus ← rtus; rules ← rules; loops ← loops; tags ← tags;
    Some (a <| ap_world := w |>
            <| ap_c ::= fun c => c <| c_registry ::= fmap (load_rtus (le_alloc e) (le_clk e) rtus) |>
                                   <| c_alarms ::= fmap (load_rules rules) |>
                                   <| c_control ::= fmap (load_loops loops) |> |>
            <| ap_historian ::= fmap (load_tags (le_tag_alloc e) tags) |>).

(** The save loops: the world after all statements *)
Definition save_all {A} (save : A -> W -> wtc_result * W) (l : list A) (w : W) : W :=
  foldl (fun w x => snd (save x w)) w l.

(** [control_engine_list_interlocks] stores pointers like [control_engine_list_pid_loops]. *)
Definition control_engine_list_interlocks (room : nat) (g : control_engine) (max_count : nat) : option (list nat) :=
  list_pointers room (ce_interlocks g) max_count.

(** One part of the save of the control engine: the array of pointers is one variable, so a
    second entry is stored behind it, and what it points to is then released. *)
Definition save_pointed {A} (ptrs : option (list nat)) (table : list A) (save : A -> W -> wtc_result * W) (w : W) : run W :=
  match ptrs with
  | None => Crashed
  | Some idx =>
      let w := save_all save (omap (fun i => table !! i) idx) w in
      match free_pointers idx with Some _ => Running w | None => Crashed end
  end.

Definition alarm_manager_list_rules (alloc_ok : bool) (m : alarm_manager) (max_count : nat) : wtc_result * list alarm_rule :=
  let l := take max_count (am_rules m) in
  match l with
  | [] => (WTC_OK, [])
  | _ => if alloc_ok then (WTC_OK, l) else (WTC_ERROR_NO_MEMORY, [])
  end.

(** [save_config_to_database] *)
Definition save_config_to_database (alloc_ok : nat -> bool) a : run W :=
  let db := ap_db a in
  if negb (database_is_connected db) then Running (ap_world a)
  else
    let rtus := match c_registry (ap_c a) with
                | Some r => match rtu_registry_list_devices (alloc_ok 0%nat) r (Z.of_nat Registry.WTC_MAX_RTUS) with
                            | (WTC_OK, Some l) => l
                            | _ => []
                            end
                | None => []
                end in
    let w := save_all (fun d => database_save_rtu pg db (row_of_device d)) rtus (ap_world a) in
    w <~ (match c_control (ap_c a) with
          | None => Running w
          | Some g =>
              w <~ save_pointed (control_engine_list_pid_loops 1 g WTC_MAX_PID_LOOPS) (ce_pid_loops g)
                     (database_save_pid_loop pg db) w;
              save_pointed (control_engine_list_interlocks 1 g WTC_MAX_INTERLOCKS) (ce_interlocks g)
                (database_save_interlock pg db) w
          end);
    Running (match c_alarms (ap_c a) with
             | None => w
             | Some m => match alarm_manager_list_rules (alloc_ok 1%nat) m WTC_MAX_ALARM_RULES with
                         | (WTC_OK, l) => save_all (database_save_alarm_rule pg db) l w
                         | _ => w
                         end
             end).

(** ** Start-up *)

(** What start-up meets: allocations per component, the PROFINET controller, the shared
    memory, the files, the threads. *)
Record init_env := mk_init_env {
  en_alloc : nat -> nat -> bool;
  en_pn : E;
  en_ipc : wtc_result;
  en_realloc : Z -> bool;
  en_file : string -> option string;
  en_cache : list downstream_cache_entry;
  en_load : load_env;
  en_now : Z;
  en_thread : nat -> bool }.

Definition database_config_of (c : app_config) : database_config :=
  mk_database_config (Some (ac_db_host c)) (ac_db_port c) (Some (ac_db_name c)) (Some (ac_db_user c))
    (Some (ac_db_password c)) 5 5000 false.

(** The database: an error leaves the program without persistence. *)
Definition init_database (e : init_env) a : app N L W :=
  if ac_db_enabled (ap_config a) then
    match database_init (en_alloc e 0 0) (Some (database_config_of (ap_config a))) with
    | (WTC_OK, db) =>
        let '(res, db, w) := database_connect pg db (ap_world a) in
        if bool_decide (res = WTC_OK)
        then a <| ap_db := db |> <| ap_world := snd (database_migrate pg db w) |>
        else a <| ap_db := None |> <| ap_world := database_cleanup pg db w |>
    | _ => a <| ap_db := None |>
    end
  else a.

Definition simulator_config_of (c : app_config) : simulator_config :=
  mk_simulator_config (simulator_parse_scenario (Some (ac_simulation_scenario c))) f1 true true f1.
Definition alarm_config : alarm_manager_config := mk_alarm_manager_config 256 10000 100 true false true false false.
Definition hist_config : historian_config :=
  mk_historian_config None WTC_MAX_HISTORIAN_TAGS 1000 1000 (f32_lit 1 10) 365.
Definition modbus_config_of (c : app_config) : modbus_gateway_config :=
  mk_modbus_gateway_config (ac_modbus_tcp_enabled c) (ac_modbus_tcp_port c) "" (ac_modbus_rtu_enabled c)
    (strncpy 63 (ac_modbus_rtu_device c)) 9600 (ac_modbus_slave_addr c) [] "" true 0 1000.
Definition failover_config_of (c : app_config) : failover_config :=
  mk_failover_config FAILOVER_MODE_AUTO 1000 (ac_failover_timeout_ms c) 3.

(** A component that start-up cannot do without: its error ends [initialize_components]. *)
Definition require {A} (x : wtc_result * option A) a (k : A -> run (wtc_result * app N L W))
    : run (wtc_result * app N L W) :=
  match x with
  | (WTC_OK, Some v) => k v
  | (WTC_OK, None) => Crashed
  | (res, _) => Running (res, a)
  end.

Definition set_c (f : components N -> components N) a : app N L W := a <| ap_c ::= f |>.

(** The simulator or the PROFINET controller *)
Definition init_source (e : init_env) a (k : app N L W -> run (wtc_result * app N L W)) : run (wtc_result * app N L W) :=
  if ac_simulation_mode (ap_config a) then
    require (simulator_init (en_alloc e 2 0) (Some (simulator_config_of (ap_config a)))) a (fun sim =>
      k (set_c (fun c => c <| c_registry := simulator_set_registry (en_alloc e 2) (en_now e) sim (c_registry c) |>)
           (a <| ap_simulator := Some sim |>)))
  else require (pn_init (ap_config a) (en_pn e)) a (fun net => k (set_c (fun c => c <| c_profinet := Some net |>) a)).

(** The user synchronisation: an error leaves the program without it. *)
Definition init_user_sync (e : init_env) a : app N L W :=
  match user_sync_manager_init (en_alloc e 7 0) None with
  | (WTC_OK, Some m) =>
      let m := user_sync_set_profinet m (bool_decide (is_Some (c_profinet (ap_c a)))) in
      set_c (fun c => c <| c_user_sync := Some (user_sync_set_registry m (bool_decide (is_Some (c_registry c)))) |>) a
  | _ => a
  end.

(** The Modbus gateway, its register map generated from the registry as it is now *)
Definition init_modbus (e : init_env) a (k : app N L W -> run (wtc_result * app N L W)) : run (wtc_result * app N L W) :=
  match modbus_gateway_init (en_realloc e) (en_alloc e 8) (en_file e) (en_cache e) (ap_links a)
          (modbus_config_of (ap_config a)) with
  | None => Crashed
  | Some x =>
      require x a (fun '(links, gw) =>
        let gw := modbus_gateway_set_registry (en_realloc e) (en_alloc e 8 9%nat) gw (c_registry (ap_c a)) in
        let gw := modbus_gateway_set_control_engine gw (bool_decide (is_Some (c_control (ap_c a)))) in
        let gw := modbus_gateway_set_alarm_manager gw (bool_decide (is_Some (c_alarms (ap_c a)))) in
        k (a <| ap_links := links |> <| ap_modbus := Some gw |>))
  end.

(** The failover manager: an error leaves the program without it. *)
Definition init_failover (e : init_env) a : app N L W :=
  if ac_failover_enabled (ap_config a) then
    match failover_init (en_alloc e 9 0) (failover_config_of (ap_config a)) with
    | (WTC_OK, Some fm) =>
        let fm := snd (failover_set_registry fm (bool_decide (is_Some (c_registry (ap_c a))))) in
        a <| ap_failover := Some (snd (failover_set_callback fm true)) |>
    | _ => a <| ap_failover := None |>
    end
  else a.

(** [initialize_components] *)
Definition initialize_components (e : init_env) a : run (wtc_result * app N L W) :=
  let a := init_database e a in
  if negb (en_alloc e 1 0) then Running (WTC_ERROR_NO_MEMORY, a) else
  let a := set_c (fun c => c <| c_registry := Some (rtu_registry_init true false true) |>) a in
  init_source e a (fun a =>
  if negb (en_alloc e 3 0) then Running (WTC_ERROR_NO_MEMORY, a) else
  let a := set_c (fun c => c <| c_control := Some (control_engine_init 100 false false) |>) a in
  require (alarm_manager_init (en_alloc e 4) (Some alarm_config)) a (fun m =>
  let a := set_c (fun c => c <| c_alarms := Some m |>) a in
  require (historian_init (en_alloc e 5 0) (Some hist_config)) a (fun h =>
  let a := a <| ap_historian := Some (historian_set_registry h true) |> in
  if negb (bool_decide (en_ipc e = WTC_OK)) then Running (en_ipc e, a) else
  let a := a <| ap_ipc := Some ipc_server_init |> in
  let a := init_user_sync e a in
  init_modbus e a (fun a =>
  let a := init_failover e a in
  a <~ run_of (load_config_from_database (en_load e) a);
  Running (WTC_OK, a))))).

(** [start_components]: threads are created, an error stops at once; a failover manager that
    does not start is only logged. *)
Definition start_source (e : init_env) a : run (wtc_result * app N L W) :=
  if ac_simulation_mode (ap_config a) then
    match ap_simulator a with
    | Some sim =>
        let '(sim, reg) := simulator_start (en_alloc e 2) (en_now e) sim (c_registry (ap_c a)) in
        Running (WTC_OK, set_c (fun c => c <| c_registry := reg |>) (a <| ap_simulator := Some sim |>))
    | None => Running (WTC_ERROR_INVALID_PARAM, a)
    end
  else match c_profinet (ap_c a) with
       | Some net =>
           match pn_start (en_pn e) net with
           | None => Crashed
           | Some (res, net) => Running (res, set_c (fun c => c <| c_profinet := Some net |>) a)
           end
       | None => Running (WTC_ERROR_INVALID_PARAM, a)
       end.

(** Control engine and alarm manager: whether the thread starts decides; the pointers are
    set once initialisation succeeded. *)
Definition start_components (e : init_env) a : run (wtc_result * app N L W) :=
  x <~ start_source e a;
  let '(res, a) := x in
  if negb (bool_decide (res = WTC_OK)) then Running (res, a)
  else if negb (en_thread e 0%nat) || negb (en_thread e 1%nat) then Running (WTC_ERROR, a)
  else
    match ap_historian a with
    | None => Running (WTC_ERROR_INVALID_PARAM, a)
    | Some h =>
        let '(res, h) := historian_start (en_thread e 2%nat) h in
        let a := a <| ap_historian := Some h |> in
        if negb (bool_decide (res = WTC_OK)) then Running (res, a)
        else
          let a := a <| ap_ipc ::= fmap ipc_server_start |> in
          match ap_modbus a with
          | None => Running (WTC_ERROR_INVALID_PARAM, a)
          | Some gw =>
              let '(links, gw) := modbus_gateway_start (ap_links a) gw in
              let a := a <| ap_links := links |> <| ap_modbus := Some gw |> in
              Running (WTC_OK, a <| ap_failover ::= fmap (fun fm => snd (failover_start (en_now e) fm)) |>)
          end
    end.

(** ** The running program *)

(** What one round of the main loop meets *)
Record main_env := mk_main_env {
  me_rnd : nat -> nat -> Z;
  me_now : Z;
  me_pn : E;
  me_cb : nat -> cb_env;
  me_update : ipc_env;
  me_command : ipc_env;
  me_modbus_clk : nat -> Z;
  me_failover_clk : reading -> Z;
  me_failover_alloc : bool }.

Definition step_simulator (e : main_env) a : app N L W :=
  match ap_simulator a with
  | Some sim =>
      let '(_, sim, reg) := simulator_process sinf (me_rnd e) (me_now e) sim (c_registry (ap_c a)) in
      set_c (fun c => c <| c_registry := reg |>) (a <| ap_simulator := Some sim |>)
  | None => a
  end.
Definition step_profinet (e : main_env) a : run (app N L W) :=
  c <~ with_controller MainThread false (me_cb e) (pn_process (me_pn e)) (ap_c a);
  Running (a <| ap_c := c |>).
(** [ipc_server_update], [ipc_server_process_commands]: a command may use the controller,
    whose callbacks follow. *)
Definition step_ipc (e : main_env) a : run (app N L W) :=
  match ap_ipc a with
  | None => Running a
  | Some s =>
      match ipc_server_update (me_update e) s (ap_c a) with
      | None => Crashed
      | Some (_, s) =>
          match ipc_server_process_commands (me_command e) (s, ap_c a) with
          | None => Crashed
          | Some (_, (s, c)) =>
              c <~ with_controller MainThread false (me_cb e) Some c;
              Running (a <| ap_ipc := Some s |> <| ap_c := c |>)
          end
      end
  end.
Definition step_modbus (e : main_env) a : app N L W :=
  match ap_modbus a with
  | Some gw =>
      let '(_, (links, gw)) := modbus_gateway_process (me_now e) (me_modbus_clk e) (ap_links a) gw in
      a <| ap_links := links |> <| ap_modbus := Some gw |>
  | None => a
  end.
(** [failover_process] and the callbacks it makes *)
Definition step_failover (e : main_env) a : app N L W :=
  match ap_failover a, c_registry (ap_c a) with
  | Some fm, Some r =>
      let '(_, fm') := failover_process (me_failover_clk e) (me_failover_alloc e) r fm in
      let news := drop (length (fm_trace fm)) (fm_trace fm') in
      a <| ap_failover := Some fm' |>
        <| ap_ipc ::= fmap (fun s => foldl (fun s ev => on_failover_event (me_now e) ev s) s news) |>
  | _, _ => a
  end.
(** The periodic status: statistics are read and logged. *)
Definition step_status (e : main_env) a : app N L W :=
  if 10000 <=? u64_sub (me_now e) (ap_last_status_ms a) then a <| ap_last_status_ms := me_now e |> else a.

(** One round of the main loop *)
Definition main_round (e : main_env) a : run (app N L W) :=
  let a := step_simulator e a in
  a <~ step_profinet e a;
  a <~ step_ipc e a;
  Running (step_status e (step_failover e (step_modbus e a))).

(** The steps of all threads *)
Inductive app_step :=
| StepMain (e : main_env)
| StepCyclic (e : E) (es : nat -> cb_env)
| StepReceive (e : E) (es : nat -> cb_env) (frame : list Z)
| StepControl (inp : scan_input)
| StepAlarm (clk : nat -> Z) (junk : nat -> sensor_data) (now : Z)
| StepHistorian (now : Z) (clk : nat -> Z)
| StepModbusRequest (clk : nat -> Z) (request response : modbus_pdu)
| StepApi (cmd : shm_command).

Definition app_exec a (st : app_step) : run (app N L W) :=
  match st with
  | StepMain e => main_round e a
  | StepCyclic e es => c <~ with_controller CyclicThread true es (pn_cycle e) (ap_c a); Running (a <| ap_c := c |>)
  | StepReceive e es frame => c <~ with_controller ReceiveThread true es (pn_receive e frame) (ap_c a); Running (a <| ap_c := c |>)
  | StepControl inp =>
      Running (set_c (fun c =>
        match c_control c with
        | Some g => let '(g, reg) := control_engine_process ub inp g (c_registry c) in
                    c <| c_control := Some g |> <| c_registry := reg |>
        | None => c
        end) a)
  | StepAlarm clk junk now =>
      Running (set_c (fun c => c <| c_alarms ::= fmap (fun m => snd (alarm_manager_process (c_registry c) clk junk now m)) |>) a)
  | StepHistorian now clk =>
      Running (match c_registry (ap_c a) with
               | Some r => a <| ap_historian ::= fmap (fun h => snd (historian_process now r clk h)) |>
               | None => a
               end)
  | StepModbusRequest clk request response =>
      Running (match ap_modbus a, c_registry (ap_c a), c_control (ap_c a) with
               | Some gw, Some r, Some g =>
                   let '(_, _, gw, p) := handle_server_request ub clk gw (mk_plant r g (ap_links a)) request response in
                   set_c (fun c => c <| c_registry := Some (p_registry p) |> <| c_control := Some (p_control p) |>)
                     (a <| ap_modbus := Some gw |> <| ap_links := p_links p |>)
               | _, _, _ => a
               end)
  | StepApi cmd => Running (a <| ap_ipc ::= fmap (post_command cmd) |>)
  end.
Fixpoint app_run a (l : list app_step) : run (app N L W) :=
  match l with
  | [] => Running a
  | st :: l => a <~ app_exec a st; app_run a l
  end.

(** ** Shutdown *)

Record stop_env := mk_stop_env {
  st_now : Z;
  st_open : Z -> bool;
  st_alloc : nat -> bool }.

(** [stop_components]: everything is stopped, then the configuration is saved. *)
Definition stop_components (e : stop_env) a : run (app N L W) :=
  let a := a <| ap_failover ::= fmap (fun fm => snd (failover_stop fm)) |> in
  let a := match ap_modbus a with
           | Some gw => let '(links, gw) := modbus_gateway_stop (ap_links a) gw in
                        a <| ap_links := links |> <| ap_modbus := Some gw |>
           | None => a
           end in
  let a := a <| ap_ipc ::= fmap ipc_server_stop |> in
  let a := match ap_historian a with
           | Some h => let '(_, h, fs) := historian_stop (st_now e) (st_open e) h (ap_files a) in
                       a <| ap_historian := Some h |> <| ap_files := fs |>
           | None => a
           end in
  let a := a <| ap_simulator ::= fmap simulator_stop |> in
  let a := set_c (fun c => c <| c_profinet ::= fmap pn_stop |>) a in
  w <~ save_config_to_database (st_alloc e) a;
  Running (a <| ap_world := w |>).

(** [cleanup_components]: what remains outside the process *)
Definition cleanup_components a : L * W :=
  let links := match ap_modbus a with Some gw => modbus_gateway_cleanup (ap_links a) gw | None => ap_links a end in
  (links, match ap_db a with
          | Some d => let '(_, db, w) := database_disconnect pg (Some d) (ap_world a) in database_cleanup pg db w
          | None => ap_world a
          end).

(** [main] up to the main loop: the state in which the loop starts, or the exit code after
    the components were cleaned up *)
Definition main_start (env_sim env_scenario : option string) (opts : list cmd_option)
    (dir : option (list (string * option string))) (e : init_env) (se : stop_env) a : run (Z + app N L W) :=
  match parse_args env_sim env_scenario opts (ap_config a) with
  | inl code => Running (inl code)
  | inr cfg =>
      match (if bool_decide (ac_interface cfg = "") then detect_network_interface dir 32 else Some (ac_interface cfg)) with
      | None => Running (inl 1)
      | Some interface =>
          x <~ initialize_components e (a <| ap_config := cfg <| ac_interface := interface |> |>);
          let '(res, a) := x in
          if negb (bool_decide (res = WTC_OK)) then Running (inl 1)
          else
            x <~ start_components e a;
            let '(res, a) := x in
            if negb (bool_decide (res = WTC_OK)) then _ <~ stop_components se a; Running (inl 1) else Running (inr a)
      end
  end.

(** The program before [main] *)
Definition before_main (fs : files) (links : L) (w : W) : app N L W :=
  mk_app g_config (mk_components None None None None None None) None fs None None links None None None w 0.

End Program.
