(* ===== verification/AppSafety.v ===== *)
(** * The controller program: theorems

    The invariants of the components hold together in every state the program of App.v
    reaches, whatever the threads do in whatever order; what the main loop and the cyclic
    thread run into; and what a restart brings back from the database. *)

From Stdlib Require Import SpecFloat.
From stdpp Require Import gmap.
From S2P Require Import Prelude Float32 Types Registry AlarmManager Pid ControlEngine Compression Failover Wire Frame.
From S2P Require Import Dcp Cyclic Rpc ArManager PnController Modbus RegisterMap ModbusGateway UserSync Time Historian ConfigFile Ipc.
From S2P Require Import Simulator Database App.

(** What a component that is there has *)
Definition opt_all {A} (P : A -> Prop) (o : option A) : Prop := match o with Some x => P x | None => True end.
Lemma opt_all_fmap {A} (P : A -> Prop) (f : A -> A) o :
  (forall x, P x -> P (f x)) -> opt_all P o -> opt_all P (f <$> o).
Proof. intros Hf. destruct o; cbn; auto. Qed.

Lemma foldl_inv {A B} (P : A -> Prop) (f : A -> B -> A) l x :
  (forall y b, P y -> P (f y b)) -> P x -> P (foldl f x l).
Proof. intros Hf. revert x. induction l as [|b l IH]; intros x Hx; [done|]. cbn. auto. Qed.

(** ** Registry, alarms and control *)

Definition comp_inv {N} (c : components N) : Prop :=
  opt_all reg_inv (c_registry c) /\ opt_all am_inv (c_alarms c) /\ opt_all ce_inv (c_control c).

Section Components.
Context {N : Type} `{NetOps N}.
Implicit Types (c : components N).

Lemma on_registry_inv f c : (forall r, reg_inv r -> reg_inv (f r)) -> comp_inv c -> comp_inv (on_registry f c).
Proof. intros Hf (H1 & H2 & H3). split_and!; try done. by apply opt_all_fmap. Qed.

Lemma registry_op_inv op c : comp_inv c -> comp_inv (on_registry (fun r => reg_exec r op) c).
Proof. intros Hc. apply on_registry_inv; [|done]. intros r. apply reg_exec_inv. Qed.

Lemma state_changed_inv me lk e st s c c' :
  comp_inv c -> on_profinet_state_changed me lk e st s c = Running c' -> comp_inv c'.
Proof.
  intros Hc%(registry_op_inv (OpSetState (cb_clk e 0%nat) st s)). unfold on_profinet_state_changed. cbv zeta.
  change (fun r => (rtu_registry_set_device_state _ r st s).1.2)
    with (fun r => reg_exec r (OpSetState (cb_clk e 0%nat) st s)).
  set (c1 := on_registry _ c) in *. clearbody c1.
  destruct (c_user_sync c1) as [m|]; [|by intros [= <-]].
  destruct (c_profinet c1) as [net|]; [|by intros [= <-]]. case_bool_decide; [|by intros [= <-]].
  destruct (user_sync_on_rtu_connect _ _ _ _ _) as [m' n]. destruct (ln_waits n); [done|]. by intros [= <-].
Qed.

Lemma handle_event_inv me lk e ev c c' : comp_inv c -> handle_event me lk e ev c = Running c' -> comp_inv c'.
Proof.
  intros Hc. destruct ev as [st ip v d|st|st s|st i data|st slots]; cbn [handle_event].
  - intros [= <-]. by apply (registry_op_inv (OpAddDevice (cb_alloc e) (cb_clk e 0%nat) st (Some ip) None 0)).
  - intros [= <-]. by apply (registry_op_inv (OpSetState (cb_clk e 0%nat) st PROFINET_STATE_OFFLINE)).
  - by apply state_changed_inv.
  - intros [= <-]. unfold on_data_received. destruct (_ <? _)%nat; [done|]. cbv zeta.
    exact (registry_op_inv (OpUpdateSensor _ _ _ _ _ _) c Hc).
  - intros [= <-]. unfold on_slots_discovered. destruct (take _ _) as [|x l]; [done|].
    exact (registry_op_inv (OpSetConfig _ _ _) c Hc).
Qed.

Lemma handle_events_inv me lk es k evs c c' :
  comp_inv c -> handle_events me lk es k evs c = Running c' -> comp_inv c'.
Proof.
  revert k c. induction evs as [|ev evs IH]; intros k c Hc; cbn [handle_events]; [by intros [= <-]|].
  destruct (handle_event _ _ _ _ _) as [c1| |] eqn:E1; cbn [run_bind]; try done.
  apply IH. by eapply handle_event_inv.
Qed.

Lemma with_controller_inv {E} `{!PnOps N E} me locks es f c c' :
  comp_inv c -> with_controller (E := E) me locks es f c = Running c' -> comp_inv c'.
Proof.
  intros Hc. unfold with_controller. destruct (c_profinet c) as [net|]; [|by intros [= <-]].
  destruct (if locks then _ else _) as [lk|]; [|done].
  destruct (f net) as [net1|]; [|done]. destruct (pn_events net1) as [evs net2]. by apply handle_events_inv.
Qed.

(** ** Commands of the web API *)

Lemma rtu_command_inv e cmd s c : comp_inv c -> comp_inv (snd (snd (handle_rtu_command e cmd (s, c)))).
Proof.
  intros Hc. pose proof Hc as (H1 & H2 & H3). destruct cmd as [| | | | | |name ip|name|name|name| | | | | |]; try done; cbn [handle_rtu_command].
  - destruct (c_registry c) as [r|]; [|done].
    pose proof (reg_inv_add (ie_alloc e) (ie_clk e 0%nat) r name (Some ip) None 0 H1) as Hr.
    destruct (rtu_registry_add_device _ _ _ _ _ _ _) as [[res r'] ev]. by split_and!.
  - destruct (c_registry c) as [r|]; [|done]. pose proof (reg_inv_remove r name H1) as Hr.
    destruct (rtu_registry_remove_device r name) as [[res r'] ev]. destruct (c_profinet c); by split_and!.
  - destruct (c_profinet c) as [net|]; [|done]. clear H1. destruct (c_registry c) as [r|]; [|exact Hc].
    destruct (rtu_registry_get_device _ _ _) as [d|]; [|exact Hc]. destruct (net_connect _ _ _ _). exact Hc.
  - destruct (c_profinet c) as [net|]; [|done]. destruct (net_disconnect _ _). by split_and!.
Qed.

Lemma discovery_command_inv e cmd s c x : comp_inv c -> handle_discovery_command e cmd (s, c) = Some x -> comp_inv (snd (snd x)).
Proof.
  intros Hc. pose proof Hc as (H1 & H2 & H3). destruct cmd; cbn [handle_discovery_command]; try (by intros [= <-]).
  - destruct (c_profinet c) as [net|].
    + destruct (net_discover_all net). intros [= <-]. by split_and!.
    + destruct (c_dcp c) as [dcp|]; [|by intros [= <-]].
      destruct (dcp_discovery_identify_all _ _) as [[[res d] fr]|]; [|done]. intros [= <-]. by split_and!.
  - destruct (c_profinet c) as [net|]; [|by intros [= <-]].
    destruct (net_read_record _ _ _ _ _ _ _) as [[net' res] buf]. intros [= <-]. by split_and!.
  - destruct (c_profinet c) as [net|]; [|by intros [= <-]].
    destruct (net_read_record _ _ _ _ _ _ _) as [[net' res] buf]. intros [= <-]. by split_and!.
Qed.

Lemma user_sync_command_inv e cmd s c : comp_inv c -> comp_inv (snd (snd (handle_user_sync_command e cmd (s, c)))).
Proof.
  intros Hc. pose proof Hc as (H1 & H2 & H3). unfold handle_user_sync_command.
  destruct (c_profinet c) as [net|]; [|done]. destruct cmd; try done.
  destruct (if negb all && _ then _ else _) as [net' res]. by split_and!.
Qed.

Lemma configure_slot_inv e cmd s c : comp_inv c -> comp_inv (snd (snd (handle_configure_slot e cmd (s, c)))).
Proof.
  intros Hc. pose proof Hc as (H1 & H2 & H3). unfold handle_configure_slot.
  destruct (c_registry c) as [r|] eqn:Er; [|done]. destruct cmd; try done. cbv zeta.
  set (cfg := [_]). pose proof (reg_exec_inv r (OpSetConfig (ie_alloc_ok e) rtu_station cfg) H1) as Hr.
  cbn [reg_exec] in Hr. destruct (rtu_registry_set_device_config _ _ _ _) as [res r']. by split_and!.
Qed.

Lemma execute_command_inv e cmd s c x : comp_inv c -> execute_command e cmd (s, c) = Some x -> comp_inv (snd x).
Proof.
  intros Hc. pose proof Hc as (H1 & H2 & H3). destruct cmd; cbn [execute_command].
  1,16: by intros [= <-].
  - destruct (c_registry c) as [r|] eqn:Er; [|by intros [= <-]]. set (o := mk_actuator_output _ _ _ _).
    pose proof (reg_exec_inv r (OpUpdateActuator (ie_clk e 0%nat) rtu_station slot o) H1) as Hr.
    cbn [reg_exec] in Hr. destruct (rtu_registry_update_actuator _ _ _ _ _) as [res r']. intros [= <-]. by split_and!.
  - destruct (c_control c) as [g|] eqn:Eg; intros [= <-]; [|done].
    pose proof (ce_exec_inv (R := registry) (fun _ => 0) g (OpSetSetpoint loop_id setpoint) H3). by split_and!.
  - destruct (c_control c) as [g|] eqn:Eg; intros [= <-]; [|done].
    pose proof (ce_exec_inv (R := registry) (fun _ => 0) g (OpSetMode loop_id mode) H3). by split_and!.
  - destruct (c_alarms c) as [m|] eqn:Em; intros [= <-]; [|done].
    pose proof (acknowledge_inv (ie_clk e 0%nat) m alarm_id user H2). by split_and!.
  - destruct (c_control c) as [g|] eqn:Eg; intros [= <-]; [|done].
    pose proof (ce_exec_inv (R := registry) (fun _ => 0) g (OpResetInterlock interlock_id) H3). by split_and!.
  - intros E%(inj Some). rewrite <- E. by apply rtu_command_inv.
  - intros E%(inj Some). rewrite <- E. by apply rtu_command_inv.
  - intros E%(inj Some). rewrite <- E. by apply rtu_command_inv.
  - intros E%(inj Some). rewrite <- E. by apply rtu_command_inv.
  - destruct (handle_discovery_command _ _ _) as [y|] eqn:E; [|done]. intros E'%(inj Some). rewrite <- E'. by eapply discovery_command_inv.
  - destruct (handle_discovery_command _ _ _) as [y|] eqn:E; [|done]. intros E'%(inj Some). rewrite <- E'. by eapply discovery_command_inv.
  - destruct (handle_discovery_command _ _ _) as [y|] eqn:E; [|done]. intros E'%(inj Some). rewrite <- E'. by eapply discovery_command_inv.
  - intros E%(inj Some). rewrite <- E. by apply configure_slot_inv.
  - intros E%(inj Some). rewrite <- E. by apply user_sync_command_inv.
Qed.

Lemma process_commands_inv e s c res s' c' :
  comp_inv c -> ipc_server_process_commands e (s, c) = Some (res, (s', c')) -> comp_inv c'.
Proof.
  intros Hc. unfold ipc_server_process_commands. destruct (negb _); [by intros [= <- <- <-]|].
  destruct (_ || _); [by intros [= <- <- <-]|].
  destruct (execute_command _ _ _) as [[s1 c1]|] eqn:E; [|done]. intros [= <- <- <-].
  exact (execute_command_inv _ _ _ _ _ Hc E).
Qed.
End Components.

(** ** The other sources of registry updates *)

Lemma publish_points_inv now rtu r : reg_inv r -> reg_inv (publish_points now rtu r).
Proof.
  intros Hr. unfold publish_points. apply foldl_inv; [|done]. intros r' [s [v q]] Hr'.
  exact (reg_exec_inv r' (OpUpdateSensor now (sv_station_name rtu) (Simulator.si_slot s) v IOPS_GOOD q) Hr').
Qed.

Lemma simulator_process_inv sinf rnd now sim reg :
  opt_all reg_inv reg -> opt_all reg_inv (snd (simulator_process sinf rnd now sim reg)).
Proof.
  intros Hr. unfold simulator_process. destruct (negb _); [done|]. cbv zeta. set (el := fmul _ _).
  enough (forall i, opt_all reg_inv (snd (process_rtus sinf rnd now el i (sim_rtus sim) reg))) as Hp.
  { specialize (Hp 0%nat). by destruct (process_rtus _ _ _ _ _ _ _). }
  generalize (sim_rtus sim). intros l. revert reg Hr. induction l as [|rtu l IH]; intros reg Hr i; [done|].
  cbn [process_rtus]. assert (opt_all reg_inv (snd (process_rtu sinf (rnd i) now el rtu reg))) as H1.
  { unfold process_rtu. destruct (negb _); [done|]. destruct (sv_fault_injected rtu); [done|].
    apply opt_all_fmap; [|done]. intros r. apply publish_points_inv. }
  destruct (process_rtu _ _ _ _ _ _) as [rtu' reg']. specialize (IH reg' H1 (S i)).
  by destruct (process_rtus _ _ _ _ _ _ _).
Qed.

Lemma register_rtus_inv alloc now rtus reg :
  opt_all reg_inv reg -> opt_all reg_inv (register_rtus_with_registry alloc now rtus reg).
Proof.
  apply opt_all_fmap. intros r Hr. apply foldl_inv; [|done]. clear r Hr. intros r rtu Hr. unfold register_rtu.
  set (slots := _ ++ _). pose proof (reg_inv_add alloc now r (sv_station_name rtu) (Some (sv_ip_address rtu)) (Some slots)
    (Z.of_nat (length slots)) Hr) as Ha.
  destruct (rtu_registry_add_device _ _ _ _ _ _ _) as [[[] r'] ev]; try done.
  exact (reg_exec_inv r' (OpSetState now (sv_station_name rtu) (sv_state rtu)) Ha).
Qed.

(** A property of the registry that writing outputs preserves survives a scan. *)
Lemma engine_registry_inv ub inp g reg :
  opt_all reg_inv reg -> opt_all reg_inv (snd (control_engine_process ub inp g reg)).
Proof.
  destruct reg as [r|]; [|done]. intros Hr. cbn [opt_all] in Hr. unfold control_engine_process.
  assert (forall now st i, reg_inv (snd st) ->
    reg_inv (snd (process_interlock (si_il_clk inp) (si_il_junk inp) ub now st i))) as Hi.
  { intros now [g' r'] i Hr'. unfold process_interlock. destruct (ce_interlocks g' !! i) as [il|]; [|done].
    destruct (negb _); [done|]. destruct (reg_get_sensor _ _ _ _ _). destruct (interlock_next _ _ _) as [il' tr].
    destruct (if il_tripped il' then _ else _) as [o|]; [|done].
    exact (reg_exec_inv r' (OpUpdateActuator _ _ _ o) Hr'). }
  assert (forall now st i, reg_inv (snd st) ->
    reg_inv (snd (process_pid_loop (si_pid_clk inp) (si_pid_junk inp) ub now st i))) as Hp.
  { intros now [g' r'] i Hr'. unfold process_pid_loop. destruct (ce_pid_loops g' !! i) as [l|]; [|done].
    destruct (reg_get_sensor _ _ _ _ _). destruct (pid_step _ _ _ _ _) as [sl out].
    destruct out as [| | |o tr]; try done; exact (reg_exec_inv r' (OpUpdateActuator _ _ _ _) Hr'). }
  assert (reg_inv (snd (process_interlocks (si_il_clk inp) (si_il_junk inp) ub (si_il_now inp) (g, r)))) as H1.
  { unfold process_interlocks. apply (foldl_inv (fun st => reg_inv (snd st))); [intros; by apply Hi|done]. }
  destruct (process_interlocks _ _ _ _ _) as [g1 r1]. cbn [snd] in H1. unfold process_pid_loops.
  set (st := foldl _ _ _). assert (reg_inv (snd st)) as H2.
  { apply (foldl_inv (fun st => reg_inv (snd st))); [intros; by apply Hp|done]. }
  by destruct st.
Qed.

(** ** The Modbus gateway *)

Definition empty_map (gw : modbus_gateway) : Prop :=
  map_registers (gw_register_map gw) = [] /\ map_coils (gw_register_map gw) = [].

Section Gateway.
Context {L : Type} `{ModbusLinks L}.
Implicit Types (st : L * modbus_gateway).

Definition same_map (gw gw' : modbus_gateway) : Prop := gw_register_map gw' = gw_register_map gw.
Lemma same_map_empty gw gw' : same_map gw gw' -> empty_map gw -> empty_map gw'.
Proof. unfold same_map, empty_map. by intros ->. Qed.

Lemma foldl_same_map {B} (f : L * modbus_gateway -> B -> L * modbus_gateway) l st :
  (forall st b, same_map (snd st) (snd (f st b))) -> same_map (snd st) (snd (foldl f st l)).
Proof.
  intros Hf. apply (foldl_inv (fun st' => same_map (snd st) (snd st'))); [|done].
  intros st' b Hs. unfold same_map in *. by rewrite Hf.
Qed.

Lemma connect_same_map links gw : same_map gw (snd (connect_downstream_clients links gw)).
Proof.
  apply (foldl_same_map connect_step). intros [l g] i. unfold connect_step. destruct (gw_clients g !! i); [|done].
  by destruct (connect_client _ _).
Qed.

Lemma process_same_map now clk links gw : same_map gw (snd (snd (modbus_gateway_process now clk links gw))).
Proof.
  unfold modbus_gateway_process. destruct (negb _); [done|]. apply (foldl_same_map (process_client now clk)).
  intros [l g] i. unfold process_client. destruct (gw_clients g !! i) as [cli|]; [|done].
  destruct (negb _); [done|]. destruct (negb _).
  { destruct (_ <? _); [apply connect_same_map|done]. }
  destruct (_ && _); [|done]. unfold poll_downstream_client. destruct (gw_clients _ !! i) as [cli'|]; [|done].
  match goal with |- same_map _ (snd (match ?x with _ => _ end)) => destruct x as [[l' res] vs] end. case_bool_decide; [done|]. by destruct (3 <=? _).
Qed.

(** With an empty map the server reads zeros and refuses every write: nothing changes. *)
Lemma empty_map_request ub clk gw (p : plant L) req resp :
  empty_map gw ->
  let '(_, _, gw', p') := handle_server_request ub clk gw p req resp in same_map gw gw' /\ p' = p.
Proof.
  intros [Hr Hc]. unfold handle_server_request. cbv zeta. set (g := gw <| gw_total_requests := _ |>).
  assert (forall t ad, register_map_get_register (gw_register_map g) t ad = None) as Er.
  { intros t ad. unfold register_map_get_register. cbn [gw_register_map g set]. by rewrite Hr. }
  assert (forall t ad, register_map_get_coil (gw_register_map g) t ad = None) as Ec.
  { intros t ad. unfold register_map_get_coil. cbn [gw_register_map g set]. by rewrite Hc. }
  assert (same_map gw g) as Hg by done. clearbody g.
  destruct (_ || _).
  - destruct (_ <? _); [done|]. set (t := if _ =? _ then _ else _) at 1. set (d := <[_:=_]> _).
    assert (forall n, fst (foldl (read_one ub clk g t (modbus_get_uint16_be (pdu_data req) 0)) (p, d) n) = p) as Hf.
    { intros n. apply (foldl_inv (fun st : plant L * list Z => fst st = p)); [|done]. intros [p' d'] i Hp.
      unfold read_one. by rewrite Er. }
    match goal with |- context [foldl ?f ?x ?l] => specialize (Hf l); destruct (foldl f x l) as [p' d'] end.
    by cbn [fst] in Hf.
  - destruct (_ =? _); [by rewrite Er|]. destruct (_ =? _).
    { destruct (_ <? _); [done|]. destruct (Z.to_nat _) as [|n] eqn:En; cbn [write_loop]; [done|]. rewrite Er. by destruct (_ =? _). }
    destruct (_ || _); [by destruct (_ <? _)|]. destruct (_ =? _); [by rewrite Ec|done].
Qed.
End Gateway.

(** ** The whole program *)

Section System.
Context {N E L W : Type} `{NetOps N} `{!PnOps N E} `{ModbusLinks L} `{PgLink W}.
Context (pg : bool) (sinf : float32 -> float32) (ub : float32 -> Z).
Implicit Types (a : app N L W).

Record sys_inv a : Prop := {
  sys_components : comp_inv (ap_c a);
  sys_historian : opt_all historian_wf (ap_historian a);
  sys_ipc : opt_all (fun s => shm_ok (is_shm s)) (ap_ipc a);
  sys_modbus : opt_all empty_map (ap_modbus a) }.

Lemma step_simulator_inv (e : main_env (E := E)) a : sys_inv a -> sys_inv (step_simulator sinf e a).
Proof.
  intros [(K1 & K2 & K3) K4 K5 K6]. unfold step_simulator. destruct (ap_simulator a) as [sim|]; [|by split].
  pose proof (simulator_process_inv sinf (me_rnd e) (me_now e) sim _ K1) as Hr.
  destruct (simulator_process _ _ _ _ _) as [[res sim'] reg]. by split.
Qed.

Lemma step_profinet_inv (e : main_env (E := E)) a a' : sys_inv a -> step_profinet e a = Running a' -> sys_inv a'.
Proof.
  intros [K1 K4 K5 K6]. unfold step_profinet. destruct (with_controller _ _ _ _ _) as [c| |] eqn:Ec; try done.
  intros [= <-]. split; try done. by eapply (with_controller_inv (E := E)).
Qed.

Lemma process_commands_shm e s c res s' c' :
  shm_ok (is_shm s) -> ipc_server_process_commands e (s, c) = Some (res, (s', c')) -> shm_ok (is_shm s').
Proof. intros Hok Ep. apply (shm_ok_exec (IpcProcess e) s c s' c' Hok). cbn [ipc_exec]. by rewrite Ep. Qed.

Lemma step_ipc_inv (e : main_env (E := E)) a a' : sys_inv a -> step_ipc e a = Running a' -> sys_inv a'.
Proof.
  intros [K1 K4 K5 K6]. unfold step_ipc. destruct (ap_ipc a) as [s|] eqn:Es; [|intros [= <-]; by split; rewrite ?Es].
  cbn [opt_all] in K5.
  destruct (ipc_server_update _ _ _) as [[r1 s1]|] eqn:E1; [|done]. apply shm_ok_update in E1; [|done].
  destruct (ipc_server_process_commands _ _) as [[r2 [s2 c2]]|] eqn:E2; [|done].
  pose proof (process_commands_inv _ _ _ _ _ _ K1 E2) as Hc. pose proof (process_commands_shm _ _ _ _ _ _ E1 E2) as Hs.
  destruct (with_controller _ _ _ _ _) as [c3| |] eqn:E3; try done. intros [= <-]. split; try done.
  by eapply (with_controller_inv (E := E)).
Qed.

Lemma step_modbus_inv (e : main_env (E := E)) a : sys_inv a -> sys_inv (step_modbus e a).
Proof.
  intros [K1 K4 K5 K6]. unfold step_modbus. destruct (ap_modbus a) as [gw|] eqn:Eg; [|split; by rewrite ?Eg].
  pose proof (process_same_map (me_now e) (me_modbus_clk e) (ap_links a) gw) as Hm.
  destruct (modbus_gateway_process _ _ _ _) as [res [links gw']]. split; try done. by eapply same_map_empty.
Qed.

Lemma step_failover_inv (e : main_env (E := E)) a : sys_inv a -> sys_inv (step_failover e a).
Proof.
  intros [K1 K4 K5 K6]. unfold step_failover. destruct (ap_failover a) as [fm|]; [|by split].
  destruct (c_registry (ap_c a)) as [r|] eqn:Er; [|by split].
  destruct (failover_process _ _ _ _) as [res fm']. split; try done. apply opt_all_fmap; [|done].
  intros s Hs. apply (foldl_inv (fun s => shm_ok (is_shm s))); [|done]. intros s' [[p b] f] Hs'.
  unfold on_failover_event. by destruct f; apply shm_ok_notification.
Qed.

Lemma step_status_inv (e : main_env (E := E)) a : sys_inv a -> sys_inv (step_status e a).
Proof. intros [K1 K4 K5 K6]. unfold step_status. by destruct (_ <=? _). Qed.

Lemma main_round_inv (e : main_env (E := E)) a a' : sys_inv a -> main_round sinf e a = Running a' -> sys_inv a'.
Proof.
  intros Ha. unfold main_round. cbv zeta. apply (step_simulator_inv e) in Ha. revert Ha.
  generalize (step_simulator sinf e a). clear a. intros a Ha.
  destruct (step_profinet e a) as [a1| |] eqn:E1; try done. apply step_profinet_inv in E1; [|done]. cbn [run_bind].
  destruct (step_ipc e a1) as [a2| |] eqn:E2; try done. apply step_ipc_inv in E2; [|done]. intros [= <-].
  by apply step_status_inv, step_failover_inv, step_modbus_inv.
Qed.

Lemma control_step_inv inp c :
  comp_inv c -> comp_inv (N := N) (match c_control c with
    | Some g => let '(g, reg) := control_engine_process ub inp g (c_registry c) in
                c <| c_control := Some g |> <| c_registry := reg |>
    | None => c end).
Proof.
  intros (K1 & K2 & K3). destruct (c_control c) as [g|] eqn:Eg; [|split_and!; by rewrite ?Eg].
  pose proof (engine_registry_inv ub inp g _ K1) as Hr.
  pose proof (engine_process_inv ub inp (c_registry c) g K3) as Hg.
  destruct (control_engine_process _ _ _ _) as [g' reg']. by split_and!.
Qed.

Lemma app_exec_inv (st : app_step (E := E)) a a' : sys_inv a -> app_exec sinf ub a st = Running a' -> sys_inv a'.
Proof.
  intros Ha. pose proof Ha as [K1 K4 K5 K6]. destruct st; cbn [app_exec].
  - by apply main_round_inv.
  - destruct (with_controller _ _ _ _ _) as [c| |] eqn:Ec; try done. intros [= <-]. split; try done.
    by eapply (with_controller_inv (E := E)).
  - destruct (with_controller _ _ _ _ _) as [c| |] eqn:Ec; try done. intros [= <-]. split; try done.
    by eapply (with_controller_inv (E := E)).
  - intros [= <-]. split; try done. by apply control_step_inv.
  - intros [= <-]. split; try done. destruct K1 as (K1 & K2 & K3). split_and!; try done.
    apply opt_all_fmap; [|done]. intros m Hm. exact (am_exec_inv m [AlarmManager.OpProcess (c_registry (ap_c a)) clk junk now] Hm).
  - intros [= <-]. destruct (c_registry (ap_c a)) as [r|] eqn:Er; [|done]. split; try done.
    apply opt_all_fmap; [|done]. intros h. apply process_wf.
  - intros [= <-]. destruct (ap_modbus a) as [gw|] eqn:Eg; [|done]. destruct (c_registry (ap_c a)) as [r|] eqn:Er; [|done].
    destruct (c_control (ap_c a)) as [g|] eqn:Ec; [|done].
    pose proof (empty_map_request ub clk gw (mk_plant r g (ap_links a)) request response K6) as Hq.
    destruct (handle_server_request _ _ _ _ _ _) as [[[ex rp] gw'] p']. destruct Hq as [Hm ->].
    destruct K1 as (K1 & K2 & K3). rewrite Er in K1. rewrite Ec in K3.
    split; try done. by eapply same_map_empty.
  - intros [= <-]. split; try done. apply opt_all_fmap; [|done]. intros s Hs.
    exact (shm_ok_exec (IpcPost cmd) s (ap_c a) _ (ap_c a) Hs eq_refl).
Qed.

Lemma app_run_inv (l : list (app_step (E := E))) a a' : sys_inv a -> app_run sinf ub a l = Running a' -> sys_inv a'.
Proof.
  revert a. induction l as [|st l IH]; intros a Ha; cbn [app_run]; [by intros [= <-]|].
  destruct (app_exec _ _ _ _) as [a1| |] eqn:E1; try done. apply IH. by eapply app_exec_inv.
Qed.

(** *** Start-up *)

Lemma require_ok {A} (x : wtc_result * option A) a (k : A -> run (wtc_result * app N L W)) a' :
  require x a k = Running (WTC_OK, a') -> exists v, x = (WTC_OK, Some v) /\ k v = Running (WTC_OK, a').
Proof. destruct x as [[] [v|]]; cbn; intros E0; try done. by exists v. Qed.

Lemma load_config_inv e a a' : sys_inv a -> load_config_from_database pg e a = Some a' -> sys_inv a'.
Proof.
  intros [(K1 & K2 & K3) K4 K5 K6]. unfold load_config_from_database.
  destruct (negb _); [intros [= <-]; by split|].
  destruct (loaded (database_list_rtus _ _ _ _ _)) as [[rtus|] w1]; cbn [mbind option_bind];
    destruct (loaded (database_load_alarm_rules _ _ _ _ _)) as [[rules|] w2];
    destruct (loaded (database_load_pid_loops _ _ _ _ _)) as [[loops|] w3];
    destruct (loaded (database_load_historian_tags _ _ _ _ _)) as [[tags|] w4]; try done.
  intros [= <-]. split; cbn [ap_c ap_historian ap_ipc ap_modbus set]; try done.
  - split_and!; (apply opt_all_fmap; [|done]).
    + intros r Hr. apply (foldl_inv (fun x : nat * registry => reg_inv (snd x))); [|done].
      intros [i r'] row Hr'. by apply reg_inv_add.
    + intros m Hm. unfold load_rules. apply foldl_inv; [|done]. intros m' r Hm'. by apply create_rule_inv.
    + intros g Hg. unfold load_loops. apply foldl_inv; [|done]. intros g' l Hg'.
      exact (ce_exec_inv (R := registry) ub g' (OpAddLoop l) Hg').
  - apply opt_all_fmap; [|done]. intros h Hh. apply (foldl_inv (fun x : nat * historian => historian_wf (snd x))); [|done].
    intros [i h'] t Hh'. by apply add_tag_wf.
Qed.

Lemma init_modbus_inv (e : init_env (E := E)) a k a' :
  sys_inv a -> c_registry (ap_c a) = Some (rtu_registry_init true false true) ->
  init_modbus e a k = Running (WTC_OK, a') ->
  exists a1, sys_inv a1 /\ k a1 = Running (WTC_OK, a').
Proof.
  intros [K1 K4 K5 K6] Hr. unfold init_modbus, modbus_gateway_init. destruct (negb _); [done|].
  unfold register_map_init. destruct (negb (_ && _)); [done|]. cbv zeta.
  rewrite bool_decide_eq_true_2 by done.
  destruct (if gc_tcp_enabled _ then _ else _) as [l1 tcp]. destruct (if gc_rtu_enabled _ && _ then _ else _) as [l2 rtu].
  intros (v & [= <-] & Hk)%require_ok. cbv zeta in Hk. eexists. split; [|exact Hk]. split; try done.
  rewrite Hr. split; done.
Qed.

(** Before [main] no component exists. *)
Definition fresh a : Prop :=
  ap_c a = mk_components None None None None None None /\ ap_historian a = None /\ ap_ipc a = None /\ ap_modbus a = None.

Lemma init_database_fresh (e : init_env (E := E)) a : fresh a -> fresh (init_database pg e a).
Proof.
  intros Hf. unfold init_database. destruct (ac_db_enabled _); [|done].
  destruct (database_init _ _) as [[] db]; try done. destruct (database_connect _ _ _) as [[res db'] w].
  by case_bool_decide.
Qed.

Lemma init_source_ok (e : init_env (E := E)) a k a' :
  init_source e a k = Running (WTC_OK, a') ->
  exists a1, k a1 = Running (WTC_OK, a') /\ c_registry (ap_c a1) = c_registry (ap_c a) /\
    c_alarms (ap_c a1) = c_alarms (ap_c a) /\ c_control (ap_c a1) = c_control (ap_c a) /\
    ap_historian a1 = ap_historian a /\ ap_ipc a1 = ap_ipc a /\ ap_modbus a1 = ap_modbus a.
Proof.
  unfold init_source. destruct (ac_simulation_mode _); intros (v & Ev & Hk)%require_ok; (eexists; split; [exact Hk|]).
  - unfold simulator_init in Ev. destruct (negb _); [done|]. injection Ev as <-. by split_and!.
  - by split_and!.
Qed.

Lemma historian_init_wf : historian_wf (historian_set_registry
  (mk_historian (mk_historian_config None 1024 1000 1000 (f32_lit 1 10) 365) false [] 1024 1 false 0 0 0) true).
Proof. split; try done; constructor. Qed.

Lemma engine_init_inv : ce_inv (control_engine_init 100 false false).
Proof. split; cbn; try (split; by constructor). all: vm_compute; lia. Qed.

Lemma ipc_init_ok : shm_ok (is_shm ipc_server_init).
Proof. destruct shm_ok_init. by constructor. Qed.

Lemma initialize_inv (e : init_env (E := E)) a a' :
  fresh a -> initialize_components pg e a = Running (WTC_OK, a') -> sys_inv a'.
Proof.
  intros Hf%(init_database_fresh e). unfold initialize_components. cbv zeta. revert Hf.
  generalize (init_database pg e a). clear a. intros a (Fc & Fh & Fi & Fm). destruct (negb _); [done|].
  intros (a1 & Hk & R1 & A1 & C1 & H1' & I1 & M1)%init_source_ok. revert Hk. destruct (negb _); [done|].
  intros (m & Em & Hk)%require_ok. apply init_inv in Em.
  apply require_ok in Hk as (h & Eh & Hk). cbv zeta in Hk. case_bool_decide; cbn [negb] in Hk; [|congruence].
  apply init_modbus_inv in Hk as (a2 & Ha2 & Hk).
  - destruct (load_config_from_database pg _ _) as [a3|] eqn:El; [|done]. injection Hk as <-.
    eapply load_config_inv; [|exact El]. unfold init_failover. destruct Ha2 as [K1 K4 K5 K6].
    destruct (ac_failover_enabled _); [|by split]. by destruct (failover_init _ _) as [[] [fm|]]; split.
  - unfold historian_init in Eh. destruct (en_alloc e 5 0); [|done]. injection Eh as <-.
    unfold init_user_sync. destruct (user_sync_manager_init _ _) as [[] [um|]];
      (split; cbn [ap_c ap_historian ap_ipc ap_modbus set opt_all set_c]; [|apply historian_init_wf|apply ipc_init_ok|rewrite M1; cbn; by rewrite Fm]);
      (split_and!; cbn; [rewrite R1; apply reg_inv_init|done|apply engine_init_inv]).
  - unfold init_user_sync. destruct (user_sync_manager_init _ _) as [[] [um|]]; cbn; by rewrite R1.
Qed.

Lemma start_inv (e : init_env (E := E)) a a' : sys_inv a -> start_components e a = Running (WTC_OK, a') -> sys_inv a'.
Proof.
  intros Ha. unfold start_components. destruct (start_source e a) as [[res a1]| |] eqn:E1; try done. cbn [run_bind].
  assert (sys_inv a1) as [K1 K4 K5 K6].
  { destruct Ha as [(K1 & K2 & K3) K4 K5 K6]. unfold start_source in E1. destruct (ac_simulation_mode _).
    - destruct (ap_simulator a) as [sim|]; [|injection E1 as <- <-; by split].
      pose proof (register_rtus_inv (en_alloc e 2) (en_now e) (init_values <$> sim_rtus sim) _ K1) as Hr.
      injection E1 as <- <-. by split.
    - destruct (c_profinet (ap_c a)) as [net|]; [|injection E1 as <- <-; by split].
      destruct (pn_start _ _) as [[r net']|]; [|done]. injection E1 as <- <-. by split. }
  clear Ha E1. case_bool_decide; cbn [negb]; [|congruence]. destruct (_ || _); [done|].
  destruct (ap_historian a1) as [h|] eqn:Eh; [|done]. cbn [opt_all] in K4.
  destruct (historian_start _ h) as [r2 h2] eqn:Es. assert (historian_wf h2) as Kh.
  { unfold historian_start in Es. destruct (hi_running h); [by injection Es as <- <-|].
    destruct (en_thread e 2%nat); injection Es as <- <-; [|done]. by destruct K4. }
  case_bool_decide; cbn [negb]; [|congruence].
  match goal with |- match ap_modbus ?x with _ => _ end = _ -> _ => set (a2 := x) end.
  assert (sys_inv a2) as Ha2.
  { split; try done. apply opt_all_fmap; [|done]. intros s Hs. by destruct Hs. }
  clearbody a2. clear - Ha2. destruct Ha2 as [K1 K4 K5 K6]. destruct (ap_modbus a2) as [gw|]; [|done].
  unfold modbus_gateway_start. cbv zeta.
  match goal with |- context [connect_downstream_clients ?l ?g] => pose proof (connect_same_map l g) as Hm;
    destruct (connect_downstream_clients l g) as [l' g'] end.
  intros [= <-]. split; try done. eapply same_map_empty; [exact Hm|]. exact K6.
Qed.

(** A state the program reaches: start-up succeeded and the threads have run *)
Definition reachable a : Prop :=
  exists env_sim env_scenario opts dir (e : init_env (E := E)) se fs links w a0 (l : list (app_step (E := E))),
    main_start pg env_sim env_scenario opts dir e se (before_main fs links w) = Running (inr a0) /\
    app_run sinf ub a0 l = Running a.

Lemma main_start_inv env_sim env_scenario opts dir (e : init_env (E := E)) se a a' :
  fresh a -> main_start pg env_sim env_scenario opts dir e se a = Running (inr a') -> sys_inv a'.
Proof.
  intros Hf. unfold main_start. destruct (parse_args _ _ _ _) as [code|cfg]; [done|].
  destruct (if bool_decide _ then _ else _) as [interface|]; [|done].
  destruct (initialize_components _ _ _) as [[res a1]| |] eqn:E1; try done. cbn [run_bind].
  case_bool_decide; [|done]. subst res. apply initialize_inv in E1; [|done]. cbn [negb].
  destruct (start_components _ _) as [[res a2]| |] eqn:E2; try done. cbn [run_bind].
  case_bool_decide; cbn [negb]; [|by destruct (stop_components _ _ _)]. subst res. intros [= <-]. by eapply start_inv.
Qed.

(** C11: In every state the program reaches, after any start-up that succeeds and any
    interleaving of the main loop, the cyclic and receive threads, the control, alarm and
    historian threads, Modbus requests and web API commands, the invariants of the registry,
    the alarm manager, the control engine, the historian and the shared memory hold. *)
Theorem system_invariant a : reachable a -> sys_inv a.
Proof.
  intros (es & esc & opts & dir & e & se & fs & links & w & a0 & l & Hs & Hr).
  eapply app_run_inv; [|exact Hr]. eapply main_start_inv; [|exact Hs]. by split_and!.
Qed.

(** C28: The Modbus server never serves a register: the map is generated from the registry
    once, at start-up, when no device is registered yet, so in every reachable state it is
    empty and a request changes neither the registry nor the control engine. *)
Theorem modbus_serves_nothing a gw clk p request response :
  reachable a -> ap_modbus a = Some gw ->
  let '(_, _, gw', p') := handle_server_request (W := L) ub clk gw p request response in
  map_registers (gw_register_map gw) = [] /\ map_coils (gw_register_map gw) = [] /\ p' = p.
Proof.
  intros (es & esc & opts & dir & e & se & fs & links & w & a0 & l & Hs & Hr) Hg.
  assert (sys_inv a) as [_ _ _ Hm].
  { eapply app_run_inv; [|exact Hr]. eapply main_start_inv; [|exact Hs]. by split_and!. }
  rewrite Hg in Hm. pose proof (empty_map_request ub clk gw p request response Hm) as Hq.
  destruct (handle_server_request _ _ _ _ _ _) as [[[ex rp] gw'] p']. destruct Hm, Hq. by split_and!.
Qed.

(** The shutdown with a connected database crashes exactly when a control loop or an
    interlock is configured; the alarm rules are then not saved. *)
Definition engine_in_use (a : app N L W) : bool :=
  match c_control (ap_c a) with
  | Some g => match ce_pid_loops g, ce_interlocks g with [], [] => false | _, _ => true end
  | None => false
  end.
Lemma save_pointed_outcome {A} max (table : list A) save (w : W) : (0 < max)%nat ->
  match save_pointed (list_pointers 1 table max) table save w with
  | Running w' => table = [] /\ w' = w
  | Crashed => table <> []
  | Hung => False
  end.
Proof.
  intros Hm. unfold save_pointed, list_pointers. destruct table as [|x table]; [by rewrite Nat.min_0_l|].
  destruct (Nat.leb_spec (Nat.min (length (x :: table)) max) 1); [|done].
  replace (Nat.min (length (x :: table)) max) with 1%nat by (cbn [length] in *; lia). done.
Qed.
Lemma save_crashes_iff alloc_ok (a : app N L W) :
  save_config_to_database pg alloc_ok a = Crashed <->
  database_is_connected (ap_db a) = true /\ engine_in_use a = true.
Proof.
  unfold save_config_to_database, engine_in_use. destruct (database_is_connected _); [|by split; [|intros []]]. cbn [negb].
  set (w0 := save_all _ _ _). destruct (c_control _) as [g|]; cbn [run_bind]; [|by split; [|intros []]].
  pose proof (save_pointed_outcome WTC_MAX_PID_LOOPS (ce_pid_loops g) (database_save_pid_loop pg (ap_db a)) w0
    ltac:(unfold WTC_MAX_PID_LOOPS; lia)) as K1.
  unfold control_engine_list_pid_loops, control_engine_list_interlocks.
  destruct (save_pointed _ (ce_pid_loops g) _ _) as [w1| |]; cbn [run_bind]; [destruct K1 as [-> _]| |done].
  - pose proof (save_pointed_outcome WTC_MAX_INTERLOCKS (ce_interlocks g) (database_save_interlock pg (ap_db a)) w1
      ltac:(unfold WTC_MAX_INTERLOCKS; lia)) as K2.
    destruct (save_pointed _ (ce_interlocks g) _ _) as [w2| |]; cbn [run_bind]; [destruct K2 as [-> _]| |done].
    + by split; [|intros []].
    + by destruct (ce_interlocks g).
  - by destruct (ce_pid_loops g).
Qed.
End System.

(** ** The lock of the PROFINET controller *)

Section Locking.
Context {N : Type} `{NetOps N}.
Implicit Types (c : components N).

(** A user synchronisation on connect has something to write. *)
Definition connect_writes (m : user_sync_manager) : bool :=
  uc_auto_sync_on_connect (um_config m) && um_profinet m &&
  match um_cached_users m with [] => false | _ => true end.
Definition writes_on_connect c : bool := match c_user_sync c with Some m => connect_writes m | None => false end.
Definition goes_running (ev : app_event) : Prop :=
  match ev with EvStateChanged _ s => s = PROFINET_STATE_RUNNING | _ => False end.
#[local] Instance goes_running_dec ev : Decision (goes_running ev).
Proof. destruct ev; apply _. Defined.

(** The synchronisation under the lock: it waits exactly when it writes, and without a
    write it changes nothing. *)
Lemma locked_rtu_connect clk m (n : locked_net N) st :
  ln_lock n = Some (ln_thread n) -> ln_waits n = false ->
  if connect_writes m then ln_waits (snd (user_sync_on_rtu_connect clk m n st [])) = true
  else user_sync_on_rtu_connect clk m n st [] = (m, n).
Proof.
  intros Hl Hw. unfold connect_writes, user_sync_on_rtu_connect, user_sync_to_rtu.
  destruct (uc_auto_sync_on_connect _); [|done]. cbn [negb andb].
  destruct (um_cached_users m) as [|u us]; [by rewrite andb_false_r|].
  destruct (um_profinet m); [|done]. cbn [negb andb write_record locked_record].
  unfold mutex_lock. rewrite Hl, decide_True by done. done.
Qed.

(** Under the lock an event hangs the thread exactly when a record would be written; any
    other event leaves the user synchronisation alone. *)
Lemma handle_event_locked me e ev c :
  is_Some (c_profinet c) ->
  (goes_running ev /\ writes_on_connect c = true /\ handle_event me (Some me) e ev c = Hung) \/
  (~ (goes_running ev /\ writes_on_connect c = true) /\
   exists c', handle_event me (Some me) e ev c = Running c' /\ c_user_sync c' = c_user_sync c /\
     is_Some (c_profinet c')).
Proof.
  intros Hn. destruct ev as [st ip v d|st|st s|st i data|st slots]; cbn [handle_event goes_running].
  1,2: right; split; [tauto|]; eexists; split_and!; [reflexivity..|done].
  - unfold on_profinet_state_changed, writes_on_connect. cbv zeta. set (c1 := on_registry _ c).
    change (c_user_sync c1) with (c_user_sync c). change (c_profinet c1) with (c_profinet c).
    destruct Hn as [net En]. rewrite En.
    destruct (c_user_sync c) as [m|] eqn:Em.
    2: { right. split; [by intros []|]. eexists. split_and!; [reflexivity|done|by exists net]. }
    case_bool_decide as Es; [|right; split; [tauto|eexists; split_and!; [reflexivity|done|by exists net]]].
    pose proof (locked_rtu_connect (fun k => cb_clk e (S k)) m (mk_locked_net net me (Some me) false) st
      eq_refl eq_refl) as Hc.
    destruct (connect_writes m) eqn:Ew.
    + left. destruct (user_sync_on_rtu_connect _ _ _ _ _) as [m' n']. cbn [snd] in Hc. rewrite Hc. done.
    + right. split; [by intros []|]. rewrite Hc. cbn [ln_waits ln_net]. eexists. split_and!; [reflexivity|done|by eexists].
  - right. split; [tauto|]. eexists. split; [reflexivity|]. unfold on_data_received. by destruct (_ <? _)%nat.
  - right. split; [tauto|]. eexists. split; [reflexivity|]. unfold on_slots_discovered. by destruct (take _ _).
Qed.

Lemma handle_events_locked me es k evs c :
  is_Some (c_profinet c) ->
  handle_events me (Some me) es k evs c = Hung <-> Exists goes_running evs /\ writes_on_connect c = true.
Proof.
  revert k c. induction evs as [|ev evs IH]; intros k c Hn; cbn [handle_events].
  { split; [done|]. by intros [?%Exists_nil _]. }
  destruct (handle_event_locked me (es k) ev c Hn) as [(H1 & H2 & ->)|(Hno & c' & -> & Hc & Hn')]; cbn [run_bind].
  - split; [|done]. intros _. by split; [left|].
  - rewrite IH by done. unfold writes_on_connect in *. rewrite Hc, Exists_cons. tauto.
Qed.

(** C12: The cyclic thread holds the lock of the PROFINET controller when it reports a state
    change, and the callback writes the cached users to an RTU that has come up through
    [profinet_controller_write_record], which locks the same mutex.  The thread waits for
    itself forever exactly when a device goes to RUNNING in the round while users are cached
    for automatic synchronisation. *)
Theorem cyclic_thread_hangs_iff {E : Type} `{!PnOps N E} (e : E) es c :
  with_controller (E := E) CyclicThread true es (pn_cycle e) c = Hung <->
  exists net net' evs net'', c_profinet c = Some net /\ pn_cycle e net = Some net' /\
    pn_events (E := E) net' = (evs, net'') /\ Exists goes_running evs /\
    exists m, c_user_sync c = Some m /\ uc_auto_sync_on_connect (um_config m) = true /\
      um_profinet m = true /\ um_cached_users m <> [].
Proof.
  assert (forall m, connect_writes m = true <-> uc_auto_sync_on_connect (um_config m) = true /\
    um_profinet m = true /\ um_cached_users m <> []) as Hcw.
  { intros m. unfold connect_writes. rewrite !andb_true_iff. destruct (um_cached_users m); naive_solver. }
  unfold with_controller. cbn [mutex_lock]. split.
  - destruct (c_profinet c) as [net|] eqn:En; [|done]. destruct (pn_cycle e net) as [net'|] eqn:Ec; [|done].
    destruct (pn_events net') as [evs net''] eqn:Ee. intros [H1 H2]%handle_events_locked; [|by eexists].
    exists net, net', evs, net''. split_and!; try done. unfold writes_on_connect in H2. cbn in H2.
    destruct (c_user_sync c) as [m|]; [|done]. exists m. split; [done|]. by apply Hcw.
  - intros (net & net' & evs & net'' & -> & -> & -> & He & m & Em & Hw%Hcw).
    apply handle_events_locked; [by eexists|]. split; [done|].
    unfold writes_on_connect. cbn. by rewrite Em.
Qed.

(** A synchronisation command of the web API with at least one user leaves users cached. *)
Lemma sync_command_caches e all st n u us s c m x :
  c_profinet c <> None -> c_user_sync c = Some m -> uc_auto_sync_on_connect (um_config m) = true ->
  um_profinet m = true -> 0 < n -> execute_command e (CMD_USER_SYNC all st n (u :: us)) (s, c) = Some x ->
  writes_on_connect (snd x) = true.
Proof.
  intros Hp Hm Ha Hu Hn E0%(inj Some). rewrite <- E0. clear E0. unfold handle_user_sync_command.
  destruct (c_profinet c) as [net|]; [|done]. cbv zeta.
  match goal with |- context [let '(_, _) := ?y in _] => destruct y as [net' res] end.
  unfold writes_on_connect. cbn [snd c_user_sync set]. rewrite Hm. cbn [fmap option_fmap option_map].
  destruct (Z.to_nat (Z.min n (Z.of_nat IPC_USER_SYNC_MAX_USERS))) as [|k] eqn:Ek.
  { unfold IPC_USER_SYNC_MAX_USERS in Ek. lia. }
  unfold connect_writes, user_sync_cache_users. cbn. by rewrite Ha, Hu.
Qed.
End Locking.

(** ** Restart *)

Section Restart.
Context {W : Type} `{PgTables W}.
Implicit Types (w : W) (l rows : list rtu_row).

(** Every statement of the save loop succeeds. *)
Fixpoint saves_ok (d : wtc_database) rows w : Prop :=
  match rows with
  | [] => True
  | r :: rows => fst (database_save_rtu true (Some d) r w) = WTC_OK /\
                 saves_ok d rows (snd (database_save_rtu true (Some d) r w))
  end.

(** What the table holds after the save loop: the saved rows, over what it held before. *)
Lemma save_all_rep d rows m w :
  db_connected d = true -> rep w m -> Forall storable rows -> NoDup (rr_station_name <$> rows) -> saves_ok d rows w ->
  rep (save_all (database_save_rtu true (Some d)) rows w) (station_map rows ∪ m).
Proof.
  intros Hd. revert m w. induction rows as [|r rows IH]; intros m w Hrep Hst Hnd Hok.
  { change (station_map []) with (∅ : gmap string rtu_row). by rewrite (left_id_L ∅ (∪)). }
  apply Forall_cons in Hst as [Hr Hst]. rewrite fmap_cons in Hnd. apply NoDup_cons in Hnd as [Hx Hnd].
  destruct Hok as [Hok1 Hok2].
  destruct (database_save_rtu true (Some d) r w) as [res w1] eqn:E1. cbn [fst snd] in *. subst res.
  pose proof (save_step d r w w1 _ Hd Hrep Hr E1) as Hrep1.
  unfold save_all in *. cbn [foldl]. rewrite E1. cbn [snd].
  replace (station_map (r :: rows) ∪ m) with (station_map rows ∪ <[rr_station_name r := r]> m); [by apply IH|].
  unfold station_map. cbn. rewrite <- insert_union_l, insert_union_r; [done|].
  apply not_elem_of_list_to_map_1. by rewrite station_map_fst.
Qed.

Lemma station_map_values l : NoDup (rr_station_name <$> l) -> (map_to_list (station_map l)).*2 ≡ₚ l.
Proof.
  intros Hnd. unfold station_map. rewrite map_to_list_to_map by (by rewrite station_map_fst).
  rewrite <- list_fmap_compose. by rewrite list_fmap_id.
Qed.

Lemma load_rtus_devices alloc clk l r i :
  (forall i k, alloc i k = true) -> Forall storable l ->
  NoDup ((dev_station_name <$> reg_devices r) ++ (rr_station_name <$> l)) ->
  (length (reg_devices r) + length l <= Registry.WTC_MAX_RTUS)%nat ->
  identity <$> reg_devices (snd (foldl (fun '(i, r) row =>
    (S i, snd (fst (rtu_registry_add_device (alloc i) (clk i) r (rr_station_name row) (Some (rr_ip_address row))
                      None (rr_slot_count row))))) (i, r) l))
  = (identity <$> reg_devices r) ++ ((fun row => (rr_station_name row, rr_ip_address row, [])) <$> l).
Proof.
  intros Ha. revert r i. induction l as [|row l IH]; intros r i Hst Hnd Hlen; [by rewrite app_nil_r|].
  apply Forall_cons in Hst as [(_ & Hn & _ & Hip & _) Hst]. cbn [foldl length] in *.
  destruct (add_device_fresh (alloc i) (clk i) r (rr_station_name row) (Some (rr_ip_address row)) (rr_slot_count row))
    as (dev & -> & Hdev); [done| |lia|done|done|].
  { apply NoDup_app in Hnd as (_ & Hx & _). intros Hin. apply (Hx _ Hin). left. }
  rewrite IH; cbn [reg_devices set].
  - rewrite !fmap_app, <- app_assoc. cbn. by rewrite Hdev.
  - done.
  - rewrite fmap_app, <- app_assoc. cbn. unfold identity in Hdev. injection Hdev as -> _ _. exact Hnd.
  - rewrite length_app. cbn. lia.
Qed.

Lemma map_to_list_disjoint_union {A} (m1 m2 : gmap string A) :
  m1 ##ₘ m2 -> map_to_list (m1 ∪ m2) ≡ₚ map_to_list m1 ++ map_to_list m2.
Proof.
  intros Hdis. apply NoDup_Permutation; [apply NoDup_map_to_list| |].
  - apply NoDup_app. split_and!; [apply NoDup_map_to_list| |apply NoDup_map_to_list].
    intros [k x] H1%elem_of_map_to_list H2%elem_of_map_to_list. by eapply (map_disjoint_spec m1 m2).
  - intros [k x]. rewrite elem_of_app, !elem_of_map_to_list. by apply lookup_union_Some.
Qed.

(** C27: What a restart brings back: when every save at shutdown succeeds and the devices are
    loaded again at start-up, the new registry has exactly the stations and addresses of the
    old one and, besides, those of the stations that the table [m] held before and that are
    not in the old registry (nothing deletes rows, so removed devices come back).  Every
    slot table is empty.  The table holds at most 64 stations, the station names of the
    registry are distinct and its entries can be stored. *)
Theorem restart_restores_devices d w m alloc clk (r : registry) l w' :
  let rows := row_of_device <$> reg_devices r in
  db_connected d = true -> rep w m -> NoDup (dev_station_name <$> reg_devices r) ->
  Forall storable rows -> saves_ok d rows w -> (forall i k, alloc i k = true) ->
  (size (station_map rows ∪ m) <= Registry.WTC_MAX_RTUS)%nat ->
  database_list_rtus true true (Some d) Registry.WTC_MAX_RTUS (save_all (database_save_rtu true (Some d)) rows w)
    = (WTC_OK, Some l, w') ->
  identity <$> reg_devices (load_rtus alloc clk l (rtu_registry_init true false true))
  ≡ₚ ((fun dev => (dev_station_name dev, dev_ip_address dev, [])) <$> reg_devices r) ++
     ((fun row => (rr_station_name row, rr_ip_address row, [])) <$>
        (map_to_list (filter (fun '(st, _) => st ∉ dev_station_name <$> reg_devices r) m)).*2).
Proof.
  intros rows Hd Hrep Hnd Hst Hok Ha Hsize El.
  assert (rr_station_name <$> rows = dev_station_name <$> reg_devices r) as Hnames
    by (unfold rows; by rewrite <- list_fmap_compose).
  pose proof (save_all_rep d rows m w Hd Hrep Hst ltac:(by rewrite Hnames) Hok) as Hrep'.
  set (w1 := save_all _ rows w) in *. clearbody w1.
  destruct (list_step d Registry.WTC_MAX_RTUS w1 w' (Some l) _ Hd Hrep' El) as (_ & l' & [= <-] & Hl & rest & Hp).
  rewrite Nat.min_r in Hl by done.
  assert (rest = []) as ->.
  { apply Permutation_length in Hp. rewrite length_app, length_fmap, length_map_to_list, Hl in Hp.
    destruct rest; [done|]. cbn in Hp. lia. }
  rewrite app_nil_r in Hp.
  assert (Forall storable l /\ NoDup (rr_station_name <$> l)) as [Hsl Hnl].
  { destruct Hrep' as (_ & l0 & _ & Hs0 & Hn0 & Em). fold (station_map l0) in Em.
    rewrite Em, station_map_values in Hp by done. by rewrite <- Hp. }
  unfold load_rtus. rewrite load_rtus_devices; [|done..|cbn [reg_devices rtu_registry_init length]; lia].
  change (reg_devices (rtu_registry_init true false true)) with (@nil rtu_device). cbn [fmap list_fmap].
  rewrite app_nil_l, <- Hp.
  assert (filter (fun '(st, _) => st ∉ dev_station_name <$> reg_devices r) m ##ₘ station_map rows) as Hdis.
  { apply map_disjoint_spec. intros st x y [_ Hx]%map_lookup_filter_Some Hy.
    apply station_map_Some in Hy as [Hin <-]; [|by rewrite Hnames]. apply Hx. rewrite <- Hnames.
    by apply list_elem_of_fmap_2. }
  replace (station_map rows ∪ m)
    with (filter (fun '(st, _) => st ∉ dev_station_name <$> reg_devices r) m ∪ station_map rows).
  - rewrite map_to_list_disjoint_union, !fmap_app, Permutation_app_comm by done. f_equiv.
    rewrite station_map_values by (by rewrite Hnames). unfold rows. by rewrite <- list_fmap_compose.
  - rewrite map_union_comm by done. apply map_eq. intros st. rewrite !lookup_union.
    destruct (station_map rows !! st) as [x|] eqn:Ex; [by rewrite !union_Some_l|].
    rewrite !(left_id_L None _). destruct (m !! st) as [y|] eqn:Ey.
    + apply map_lookup_filter_Some. split; [done|]. rewrite <- Hnames.
      unfold station_map in Ex. apply not_elem_of_list_to_map_2 in Ex. by rewrite station_map_fst in Ex.
    + apply map_lookup_filter_None. by left.
Qed.
End Restart.

(** ** A concrete program *)

Module AppDemo.
Import GatewayDemo MemDb.

(** A controller that reports the events it is given *)
Abbreviation demo_net := (list app_event).
#[export] Instance demo_net_ops : NetOps demo_net := {|
  net_record := {| write_record n _ _ _ _ _ _ := (n, WTC_OK) |};
  net_connect n _ _ _ := (n, WTC_OK);
  net_disconnect n _ := (n, WTC_OK);
  net_discover_all n := (n, WTC_OK);
  net_discovered _ _ := None;
  net_read_record n _ _ _ _ _ _ := (n, WTC_OK, []) |}.
#[export] Instance demo_pn_ops : PnOps demo_net (list app_event) := {|
  pn_init _ _ := (WTC_OK, Some []);
  pn_start _ n := Some (WTC_OK, n);
  pn_stop n := n;
  pn_process e n := Some (n ++ e);
  pn_cycle e n := Some (n ++ e);
  pn_receive e _ n := Some (n ++ e);
  pn_events n := (n, []) |}.

Definition demo_load : load_env := mk_load_env (fun _ => true) (fun _ _ => true) (fun _ => 0) (fun _ => true).
Definition demo_init : init_env (E := list app_event) :=
  mk_init_env (fun _ _ => true) [] WTC_OK (fun _ => true) (fun _ => None) [] demo_load 0 (fun _ => true).
Definition demo_stop : stop_env := mk_stop_env 0 (fun _ => true) (fun _ => true).
Definition demo_cb : nat -> cb_env :=
  fun _ => mk_cb_env (fun _ => 5) (fun _ => true) true
             (fun _ => mk_slot_config 0 0 SLOT_TYPE_DAP "" "" MEASUREMENT_PH ACTUATOR_RELAY f0 f0 f0 f0 f0 f0 f0 f0 f0 false).

Abbreviation demo_start := (main_start (N := demo_net) true None None [OPT_INTERFACE "eth0"; OPT_NO_DB] None demo_init demo_stop
  (before_main ∅ (GatewayDemo.links0 true) (MemDb.mk_world ∅ ∅))).

(** A device is added by the web API and reports a reading; the threads run. *)
Definition demo_ipc : ipc_env := mk_ipc_env (fun _ => 7) (fun _ => true) true true.
Definition demo_main (evs : list app_event) : main_env (E := list app_event) :=
  mk_main_env (fun _ _ => 0) 9 evs demo_cb demo_ipc demo_ipc (fun _ => 9) (fun _ => 9) true.
Definition demo_scan : scan_input := mk_scan_input 8 (fun _ => 8) (fun _ => zero_sensor) 8 (fun _ => 8) (fun _ => zero_sensor).
Definition demo_steps : list (app_step (E := list app_event)) :=
  [StepApi (CMD_ADD_RTU "rtu-1" "10.0.0.1"); StepMain (demo_main []);
   StepReceive [EvDataReceived "rtu-1" 0 [66; 40; 0; 0; 0]] demo_cb []; StepControl demo_scan;
   StepAlarm (fun _ => 9) (fun _ => zero_sensor) 9; StepHistorian 9 (fun _ => 9);
   StepMain (demo_main [EvStateChanged "rtu-1" PROFINET_STATE_RUNNING])].
Definition no_sin : float32 -> float32 := fun x => x.
Definition no_cast : float32 -> Z := fun _ => 0.
Definition run_from (x : run (Z + app demo_net demo_links world)) : run (app demo_net demo_links world) :=
  match x with Running (inr a) => app_run no_sin no_cast a demo_steps | _ => Crashed end.
Abbreviation demo_run := (run_from demo_start).

Definition is_running {A} (x : run A) : bool := match x with Running _ => true | _ => false end.
Lemma demo_runs : is_running demo_run = true.
Proof. lazy. reflexivity. Qed.

Lemma running_inv {A} (x : run A) : is_running x = true -> exists a, x = Running a.
Proof. destruct x as [a| |]; [by exists a|discriminate|discriminate]. Qed.
Lemma started_run (x : run (Z + app demo_net demo_links world)) a :
  run_from x = Running a ->
  exists a0, x = Running (inr a0) /\ app_run (E := list app_event) no_sin no_cast a0 demo_steps = Running a.
Proof. destruct x as [[code|a0]| |]; try discriminate. intros Hr. exists a0. exact (conj eq_refl Hr). Qed.

Lemma demo_reachable : exists a, demo_run = Running a /\ reachable (E := list app_event) true no_sin no_cast a.
Proof.
  destruct (running_inv demo_run demo_runs) as [a Hr]. exists a. split; [exact Hr|].
  destruct (started_run demo_start a Hr) as (a0 & Hs & Ha).
  exact (ex_intro _ None (ex_intro _ None (ex_intro _ [OPT_INTERFACE "eth0"; OPT_NO_DB] (ex_intro _ None
    (ex_intro _ demo_init (ex_intro _ demo_stop (ex_intro _ ∅ (ex_intro _ (links0 true) (ex_intro _ (mk_world ∅ ∅)
    (ex_intro _ a0 (ex_intro _ demo_steps (conj Hs Ha)))))))))))).
Qed.

Lemma system_invariant_witness : exists a : app demo_net demo_links world, demo_run = Running a /\ sys_inv a.
Proof.
  destruct demo_reachable as (a & Hr & Ha). exists a. split; [exact Hr|].
  exact (system_invariant (E := list app_event) true no_sin no_cast a Ha).
Defined.

Definition has_gateway (x : run (app demo_net demo_links world)) : bool :=
  match x with Running a => match ap_modbus a with Some _ => true | None => false end | _ => false end.
Lemma demo_gateway : has_gateway demo_run = true.
Proof. lazy. reflexivity. Qed.

Lemma modbus_serves_nothing_witness : exists gw : modbus_gateway, map_registers (gw_register_map gw) = [].
Proof.
  destruct demo_reachable as (a & Hr & Ha). pose proof demo_gateway as Hg. rewrite Hr in Hg. cbn [has_gateway] in Hg.
  destruct (ap_modbus a) as [gw|] eqn:Eg; [|discriminate]. exists gw.
  pose proof (modbus_serves_nothing (E := list app_event) true no_sin no_cast a gw (fun _ => 0)
    (mk_plant (rtu_registry_init true false true) (control_engine_init 100 false false) (links0 true)) blank blank Ha Eg) as Hm.
  destruct (handle_server_request _ _ _ _ _ _) as [[[ex rp] gw'] p']. exact (proj1 Hm).
Defined.

(** The registry of a plant with one pump, saved and loaded again *)
Definition old_registry : registry :=
  snd (fst (rtu_registry_add_device (fun _ => true) 0 (rtu_registry_init true false true) "rtu-pump"
              (Some "192.168.1.20"%string) (Some [sensor_slot (mk_sim_sensor 1 "p" f0 "bar" f0 f0 f0 f0 f0 f0 f0)]) 1)).
Lemma old_storable : Forall storable (row_of_device <$> reg_devices old_registry).
Proof.
  assert (row_of_device <$> reg_devices old_registry = [mk_rtu_row "rtu-pump" "192.168.1.20" 0 0 1]) as -> by (vm_compute; reflexivity).
  constructor; [|constructor].
  destruct pump_storable as (H1 & H2 & H3 & H4 & _). unfold storable, is_u16 in *.
  cbn [pump rr_station_name rr_ip_address rr_vendor_id rr_device_id rr_slot_count] in *. split_and!; try assumption; lia.
Qed.
(** The table still has a station of an earlier run. *)
Definition gone : rtu_row := mk_rtu_row "rtu-old" "192.168.1.30" 0 0 2.
Lemma gone_storable : storable gone.
Proof.
  assert (forall s, Is_true (ascii_text s) -> plain_text s) as Ht.
  { intros s Hs. unfold plain_text. apply Forall_forall. intros b Hb%list_elem_of_In.
    apply Is_true_true in Hs. pose proof (proj1 (forallb_forall _ _) Hs b Hb) as Hr. cbv beta in Hr. lia. }
  unfold storable, is_u16, gone. cbn [rr_station_name rr_ip_address rr_vendor_id rr_device_id rr_slot_count].
  split_and!; try (apply Ht; vm_compute; done); cbn [String.length]; lia.
Qed.
Definition earlier : world := snd (database_save_rtu true (Some handle) gone migrated).
Lemma gone_saved : fst (database_save_rtu true (Some handle) gone migrated) = WTC_OK.
Proof. vm_compute. reflexivity. Qed.
Lemma earlier_rep : rep earlier {["rtu-old"%string := gone]}.
Proof.
  refine (save_step handle gone migrated earlier ∅ eq_refl migrated_rep gone_storable _).
  rewrite <- gone_saved. apply surjective_pairing.
Qed.
Definition shut_down : world :=
  save_all (database_save_rtu true (Some handle)) (row_of_device <$> reg_devices old_registry) earlier.
Definition listed : list rtu_row :=
  default [] (snd (fst (database_list_rtus true true (Some handle) Registry.WTC_MAX_RTUS shut_down))).

Lemma listing :
  fst (database_list_rtus true true (Some handle) Registry.WTC_MAX_RTUS shut_down) = (WTC_OK, Some listed).
Proof. vm_compute. reflexivity. Qed.

Lemma restart_restores_devices_witness :
  identity <$> reg_devices (load_rtus (fun _ _ => true) (fun _ => 0) listed (rtu_registry_init true false true))
  ≡ₚ [("rtu-pump", "192.168.1.20", []); ("rtu-old", "192.168.1.30", [])]%string.
Proof.
  refine (restart_restores_devices handle earlier {["rtu-old"%string := gone]} (fun _ _ => true) (fun _ => 0) old_registry
    listed (snd (database_list_rtus true true (Some handle) Registry.WTC_MAX_RTUS shut_down)) _ _ _ _ _ _ _ _).
  - reflexivity.
  - exact earlier_rep.
  - vm_compute. apply NoDup_singleton.
  - exact old_storable.
  - split; [vm_compute; reflexivity|exact I].
  - reflexivity.
  - vm_compute. lia.
  - change (save_all _ _ _) with shut_down. rewrite <- listing. apply surjective_pairing.
Defined.

(** Users are cached and a device comes up: the cyclic thread locks the mutex it holds. *)
Definition syncing : user_sync_manager :=
  user_sync_cache_users
    (mk_user_sync_manager default_config true true false (mk_user_sync_stats 0 0 0 0 "") [] [])
    [mk_user 1 "operator" "hash" 1 0 0 true].
Lemma cyclic_thread_hangs_iff_witness :
  with_controller (E := list app_event) CyclicThread true demo_cb
    (pn_cycle [EvStateChanged "rtu-1" PROFINET_STATE_RUNNING])
    (mk_components None None None (Some ([] : demo_net)) None (Some syncing)) = Hung.
Proof.
  apply (proj2 (cyclic_thread_hangs_iff (E := list app_event)
    [EvStateChanged "rtu-1" PROFINET_STATE_RUNNING] demo_cb _)).
  exists [], [EvStateChanged "rtu-1" PROFINET_STATE_RUNNING],
    [EvStateChanged "rtu-1" PROFINET_STATE_RUNNING], [].
  split_and!; [reflexivity..|constructor; reflexivity|].
  exists syncing. split_and!; [reflexivity..|discriminate].
Defined.

End AppDemo.
