(* ===== verification/Topology.v ===== *)
(** * Text exports and the topology file

    Model of the text output of [src/registry/rtu_registry.c] and
    [src/alarms/alarm_manager.c]: the topology file of the registry, written and read back,
    and the exports of devices and alarm rules into a caller's buffer.

    All four print with [pos += snprintf(buffer + pos, size - pos, ...)].  [snprintf] returns
    the length of the whole text, so [pos] runs past [size] when the text is too long; the
    difference is then a huge [size_t] and the next call writes behind the buffer ([None]). *)

From Stdlib Require Import Ascii.
From stdpp Require Import strings pretty gmap.
From S2P Require Import Prelude Float32 Types Registry AlarmManager ConfigFile.

(** ** Printing into a buffer *)

Definition QUOTE : ascii := "034".
Definition NUL : ascii := "000".
(** A format text; apostrophes stand for the quotation marks of the source. *)
Definition json (s : string) : chars := (fun c => if bool_decide (c = "'"%char) then QUOTE else c) <$> of_string s.
Definition pct_d (z : Z) : chars := of_string (pretty z).

(** The characters in the buffer before its NUL, and [pos] *)
Definition snprintf_at (size : Z) (st : chars * Z) (s : chars) : option (chars * Z) :=
  let '(text, pos) := st in
  if size <? pos then None else Some (text ++ take (Z.to_nat (size - pos - 1)) s, pos + Z.of_nat (length s)).
Fixpoint print_all (size : Z) (st : chars * Z) (pieces : list chars) : option (chars * Z) :=
  match pieces with
  | [] => Some st
  | s :: pieces => st ← snprintf_at size st s; print_all size st pieces
  end.

(** A comma before every element but the first *)
Definition comma (i : nat) : list chars := match i with O => [] | S _ => [json ","] end.

(** ** The registry *)

Definition slot_type_number (t : slot_type) : Z :=
  match t with SLOT_TYPE_DAP => 0 | SLOT_TYPE_SENSOR => 1 | SLOT_TYPE_ACTUATOR => 2 end.
Definition profinet_state_number (s : profinet_state) : Z :=
  match s with
  | PROFINET_STATE_OFFLINE => 0 | PROFINET_STATE_DISCOVERY => 1 | PROFINET_STATE_CONNECTING => 2
  | PROFINET_STATE_CONNECTED => 3 | PROFINET_STATE_RUNNING => 4 | PROFINET_STATE_ERROR => 5
  | PROFINET_STATE_DISCONNECT => 6
  end.

(** The texts of the [snprintf] calls of [rtu_registry_save_topology], in order *)
Definition slot_text (s : slot_config) : chars :=
  json "{'number':" ++ pct_d (sc_slot s) ++ json ",'type':" ++ pct_d (slot_type_number (sc_type s)) ++
  json ",'subslot':" ++ pct_d (sc_subslot s) ++ json ",'name':'" ++ of_string (sc_name s) ++ json "'}".
Definition slot_pieces (j : nat) (s : slot_config) : list chars := comma j ++ [slot_text s].
Definition device_text (d : rtu_device) : chars :=
  json "{'station_name':'" ++ of_string (dev_station_name d) ++ json "','ip_address':'" ++ of_string (dev_ip_address d) ++
  json "','vendor_id':" ++ pct_d (dev_vendor_id d) ++ json ",'device_id':" ++ pct_d (dev_device_id d) ++
  json ",'slot_count':" ++ pct_d (Z.of_nat (length (dev_slots d))) ++ json ",'slots':[".
Definition device_pieces (i : nat) (d : rtu_device) : list chars :=
  comma i ++ [device_text d] ++ concat (imap slot_pieces (dev_slots d)) ++ [json "]}"].
Definition topology_pieces (r : registry) : list chars :=
  [json "{'version':1,'devices':["] ++ concat (imap device_pieces (reg_devices r)) ++ [json "]}"].

Definition topology_path (database_path : option string) : string :=
  default "/var/lib/water-controller/topology.json"%string database_path.
Definition TOPOLOGY_BUFFER : Z := 65536.

Abbreviation file_system := (gmap string chars).

(** [rtu_registry_save_topology]; [disk] bytes fit on the disk.  [fwrite] takes [pos] bytes
    of the buffer. *)
Definition rtu_registry_save_topology (database_path : option string) (malloc_ok open_ok : bool) (disk : nat)
    (r : registry) (fs : file_system) : option (wtc_result * file_system) :=
  if negb malloc_ok then Some (WTC_ERROR_NO_MEMORY, fs)
  else
    '(text, pos) ← print_all TOPOLOGY_BUFFER ([], 0) (topology_pieces r);
    if negb open_ok then Some (WTC_ERROR_IO, fs)
    else if TOPOLOGY_BUFFER <? pos then None
    else
      let written := take disk (take (Z.to_nat pos) (text ++ [NUL])) in
      Some (if Z.of_nat (length written) =? pos then WTC_OK else WTC_ERROR_IO,
            <[topology_path database_path := written]> fs).

(** [strstr]: the text from the first match on *)
Fixpoint strstr_from (needle text : chars) : option chars :=
  if bool_decide (take (length needle) text = needle) then Some text
  else match text with [] => None | _ :: text => strstr_from needle text end.

(** The address behind a station name *)
Definition find_ip (from : chars) : string :=
  match strstr_from (json "'ip_address':'") from with
  | Some q => match split_at QUOTE (drop 14 q) with Some (a, _) => strncpy 15 (to_string a) | None => "" end
  | None => ""
  end.

(** The loop of [rtu_registry_load_topology]; the text gets shorter in every round. *)
Fixpoint load_loop (alloc : nat -> nat -> bool) (clk : nat -> Z) (fuel i : nat) (p : chars) (r : registry) : registry :=
  match fuel with
  | O => r
  | S fuel =>
      match strstr_from (json "'station_name':'") p with
      | None => r
      | Some p =>
          match split_at QUOTE (drop 16 p) with
          | None => r
          | Some (name, after) =>
              let ip := find_ip (QUOTE :: after) in
              let r := snd (fst (rtu_registry_add_device (alloc i) (clk i) r (strncpy 63 (to_string name))
                                   (if bool_decide (ip = "") then None else Some ip) None 0)) in
              load_loop alloc clk fuel (S i) (QUOTE :: after) r
          end
      end
  end.

Definition rtu_registry_load_topology (database_path : option string) (malloc_ok read_ok : bool)
    (alloc : nat -> nat -> bool) (clk : nat -> Z) (r : registry) (fs : file_system) : wtc_result * registry :=
  match fs !! topology_path database_path with
  | None => (WTC_OK, r)
  | Some content =>
      let size := Z.of_nat (length content) in
      if (size <=? 0) || (1024 * 1024 <? size) then (WTC_ERROR_INVALID_PARAM, r)
      else if negb malloc_ok then (WTC_ERROR_NO_MEMORY, r)
      else if negb read_ok then (WTC_ERROR_IO, r)
      else let buffer := c_str content in (WTC_OK, load_loop alloc clk (length buffer) 0 buffer r)
  end.

(** [rtu_registry_export_json] *)
Definition export_text (d : rtu_device) : chars :=
  json "{'station_name':'" ++ of_string (dev_station_name d) ++ json "','ip_address':'" ++ of_string (dev_ip_address d) ++
  json "','vendor_id':" ++ pct_d (dev_vendor_id d) ++ json ",'device_id':" ++ pct_d (dev_device_id d) ++
  json ",'state':" ++ pct_d (profinet_state_number (dev_connection_state d)) ++
  json ",'slot_count':" ++ pct_d (Z.of_nat (length (dev_slots d))) ++ json "}".
Definition export_pieces (r : registry) : list chars :=
  [json "{'devices':["] ++ concat (imap (fun i d => comma i ++ [export_text d]) (reg_devices r)) ++ [json "]}"].
Definition rtu_registry_export_json (r : option registry) (buffer_size : Z) : option (wtc_result * chars) :=
  match r with
  | None => Some (WTC_ERROR_INVALID_PARAM, [])
  | Some r =>
      if buffer_size <? 64 then Some (WTC_ERROR_INVALID_PARAM, [])
      else '(text, _) ← print_all buffer_size ([], 0) (export_pieces r); Some (WTC_OK, text)
  end.

(** [rtu_registry_import_json] reads nothing. *)
Definition rtu_registry_import_json (r : option registry) (json_string : option string) : wtc_result * option registry :=
  match r, json_string with Some r, Some _ => (WTC_OK, Some r) | _, _ => (WTC_ERROR_INVALID_PARAM, r) end.

Definition rtu_registry_get_device_count (r : option registry) : Z :=
  match r with Some r => Z.of_nat (length (reg_devices r)) | None => 0 end.

(** ** Alarm rules *)

(** [alarm_manager_export_config] *)
Definition severity_number (s : alarm_severity) : Z :=
  match s with
  | ALARM_SEVERITY_LOW => 1 | ALARM_SEVERITY_MEDIUM => 2 | ALARM_SEVERITY_HIGH => 3 | ALARM_SEVERITY_EMERGENCY => 4
  end.
Definition rule_text (r : alarm_rule) : chars :=
  json "{'id':" ++ pct_d (ar_rule_id r) ++ json ",'name':'" ++ of_string (ar_name r) ++ json "','rtu':'" ++
  of_string (ar_rtu_station r) ++ json "','slot':" ++ pct_d (ar_slot r) ++ json ",'condition':" ++
  pct_d (condition_code (ar_condition r)) ++ json ",'threshold':" ++ of_string (fmt_fixed 3 (ar_threshold r)) ++
  json ",'severity':" ++ pct_d (severity_number (ar_severity r)) ++ json ",'delay':" ++ pct_d (ar_delay_ms r) ++
  json ",'enabled':" ++ json (if ar_enabled r then "true" else "false") ++ json "}".
Definition config_pieces (m : alarm_manager) : list chars :=
  [json "{'version':1,'rules':["] ++ concat (imap (fun i r => comma i ++ [rule_text r]) (am_rules m)) ++ [json "]}"].
Definition alarm_manager_export_config (m : option alarm_manager) (buffer_size : Z) : option (wtc_result * chars) :=
  match m with
  | None => Some (WTC_ERROR_INVALID_PARAM, [])
  | Some m =>
      if buffer_size <? 256 then Some (WTC_ERROR_INVALID_PARAM, [])
      else '(text, _) ← print_all buffer_size ([], 0) (config_pieces m); Some (WTC_OK, text)
  end.

(** ** Where printing ends *)

(** Printing writes behind the buffer exactly when the text before the last piece is longer
    than the buffer; otherwise the buffer has what fits of the whole text. *)
Lemma print_all_spec size pieces done_ : 0 < size ->
  print_all size (take (Z.to_nat (size - 1)) done_, Z.of_nat (length done_)) pieces =
  if bool_decide (pieces <> [] /\ size < Z.of_nat (length (done_ ++ concat (removelast pieces)))) then None
  else Some (take (Z.to_nat (size - 1)) (done_ ++ concat pieces), Z.of_nat (length (done_ ++ concat pieces))).
Proof.
  intros Hs. revert done_. induction pieces as [|s pieces IH]; intros done_.
  { cbn [concat removelast]. rewrite !app_nil_r. rewrite bool_decide_eq_false_2 by (intros [Hx _]; by destruct Hx). done. }
  cbn [print_all snprintf_at]. destruct (Z.ltb_spec size (Z.of_nat (length done_))) as [Hlt|Hle].
  { rewrite bool_decide_eq_true_2; [done|]. split; [done|]. rewrite length_app. lia. }
  cbn [mbind option_bind].
  assert ((take (Z.to_nat (size - 1)) done_ ++ take (Z.to_nat (size - Z.of_nat (length done_) - 1)) s,
           Z.of_nat (length done_) + Z.of_nat (length s)) =
          (take (Z.to_nat (size - 1)) (done_ ++ s), Z.of_nat (length (done_ ++ s)))) as ->.
  { rewrite take_app, length_app. f_equal; [|lia]. do 2 f_equal. lia. }
  rewrite IH. rewrite <- !app_assoc. destruct pieces as [|s' pieces].
  - cbn [concat removelast app]. rewrite !app_nil_r. rewrite bool_decide_eq_false_2 by (intros [Hx _]; by destruct Hx).
    rewrite bool_decide_eq_false_2; [done|]. intros [_ ?]. lia.
  - change (removelast (s :: s' :: pieces)) with (s :: removelast (s' :: pieces)). cbn [concat].
    do 2 case_bool_decide; naive_solver.
Qed.

Lemma print_pieces size pieces last : 0 < size ->
  print_all size ([], 0) (pieces ++ [last]) =
  if bool_decide (size < Z.of_nat (length (concat pieces))) then None
  else Some (take (Z.to_nat (size - 1)) (concat (pieces ++ [last])), Z.of_nat (length (concat (pieces ++ [last])))).
Proof.
  intros Hs. pose proof (print_all_spec size (pieces ++ [last]) [] Hs) as Hp. rewrite take_nil, removelast_last in Hp.
  change (Z.of_nat (length [])) with 0 in Hp. rewrite Hp. cbn [app]. assert (pieces ++ [last] <> []) by (by destruct pieces). erewrite bool_decide_ext; [done|tauto].
Qed.

(** The text of the topology *)
Definition topology_text (r : registry) : chars := concat (topology_pieces r).

(** Saving the topology of a registry reads or writes behind its buffer exactly when the
    text is longer than 65536 bytes.  Otherwise the file has the text, as far as the disk
    takes it (with its last byte a NUL when the text just fills the buffer), and the result
    is success exactly when everything was written. *)
Lemma topology_outcome path disk r fs :
  match rtu_registry_save_topology path true true disk r fs with
  | None => TOPOLOGY_BUFFER < Z.of_nat (length (topology_text r))
  | Some (res, fs') =>
      Z.of_nat (length (topology_text r)) <= TOPOLOGY_BUFFER /\
      fs' = <[topology_path path := take disk (if bool_decide (Z.of_nat (length (topology_text r)) = TOPOLOGY_BUFFER)
              then take (length (topology_text r) - 1) (topology_text r) ++ [NUL] else topology_text r)]> fs /\
      (res = WTC_OK <-> (length (topology_text r) <= disk)%nat)
  end.
Proof.
  unfold rtu_registry_save_topology, topology_text. cbn [negb].
  assert (exists pieces, topology_pieces r = pieces ++ [json "]}"]) as (pieces & Ep)
    by (unfold topology_pieces; rewrite app_assoc; by eexists).
  rewrite Ep, print_pieces by done. set (text := concat (pieces ++ [json "]}"])).
  assert (length (concat pieces) <= length text)%nat by (unfold text; rewrite concat_app, length_app; lia). clearbody text.
  unfold TOPOLOGY_BUFFER in *. case_bool_decide; cbn [mbind option_bind]; [lia|].
  destruct (Z.ltb_spec 65536 (Z.of_nat (length text))) as [|Hle]; [done|]. rewrite Nat2Z.id.
  replace (Z.to_nat (65536 - 1)) with (Z.to_nat 65535) by done.
  assert (take (length text) (take (Z.to_nat 65535) text ++ [NUL]) =
          if bool_decide (Z.of_nat (length text) = 65536) then take (length text - 1) text ++ [NUL] else text) as ->.
  { case_bool_decide as He.
    - replace (length text - 1)%nat with (Z.to_nat 65535) by lia. apply take_ge. rewrite length_app, length_take. cbn [length]. lia.
    - rewrite (take_ge text) by lia. apply take_app_length. }
  set (file := if bool_decide _ then _ else _).
  assert (length file = length text) as Hf.
  { unfold file. case_bool_decide; [|done]. rewrite length_app, length_take. cbn [length]. lia. }
  split_and!; [done|done|]. rewrite length_take, Hf. destruct (Z.eqb_spec (Z.of_nat (Nat.min disk (length text))) (Z.of_nat (length text)));
    split; intros; try done; lia.
Qed.

(** Saving the topology writes or reads behind its buffer exactly when the text is longer
    than the 65536 bytes of the buffer. *)
Theorem topology_save_overflows_iff path disk r fs :
  rtu_registry_save_topology path true true disk r fs = None <-> TOPOLOGY_BUFFER < Z.of_nat (length (topology_text r)).
Proof.
  pose proof (topology_outcome path disk r fs) as Ho. destruct (rtu_registry_save_topology _ _ _ _ _ _) as [[res fs']|]; [|done].
  destruct Ho as [Hle _]. split; [done|lia].
Qed.

(** The exports overflow exactly when the text before the closing brackets is too long. *)
Lemma export_json_overflows_iff r size : 64 <= size ->
  rtu_registry_export_json (Some r) size = None <-> size < Z.of_nat (length (concat (removelast (export_pieces r)))).
Proof.
  intros Hs. unfold rtu_registry_export_json, export_pieces. destruct (Z.ltb_spec size 64); [lia|].
  rewrite app_assoc, print_pieces, removelast_last by lia. by case_bool_decide.
Qed.
Lemma export_config_overflows_iff m size : 256 <= size ->
  alarm_manager_export_config (Some m) size = None <-> size < Z.of_nat (length (concat (removelast (config_pieces m)))).
Proof.
  intros Hs. unfold alarm_manager_export_config, config_pieces. destruct (Z.ltb_spec size 256); [lia|].
  rewrite app_assoc, print_pieces, removelast_last by lia. by case_bool_decide.
Qed.

(** ** Reading the file back

    A text is seen as its parts between quotation marks. *)

Fixpoint join (l : list chars) : chars :=
  match l with
  | [] => []
  | [a] => a
  | a :: l => a ++ QUOTE :: join l
  end.
Definition plain (s : chars) : Prop := Forall (fun c => c <> QUOTE /\ c <> NUL) s.
Definition marker (key : chars) : chars := QUOTE :: key ++ [QUOTE; ":"%char; QUOTE].

(** The value behind a key at the beginning of a list of parts, and its first occurrence *)
Definition hit (key : chars) (l : list chars) : option (chars * list chars) :=
  match l with
  | x :: y :: v :: rest => if bool_decide (x = key /\ y = [":"%char]) then Some (v, rest) else None
  | _ => None
  end.
Fixpoint seek (key : chars) (l : list chars) : option (chars * list chars) :=
  match l with
  | [] => None
  | _ :: l => match hit key l with Some z => Some z | None => seek key l end
  end.

Lemma join_cons a l : l <> [] -> join (a :: l) = a ++ QUOTE :: join l.
Proof. by destruct l. Qed.

Lemma strstr_skip key s text : plain s -> strstr_from (marker key) (s ++ text) = strstr_from (marker key) text.
Proof.
  induction 1 as [|c s [Hc _] _ IH]; [done|]. cbn [app strstr_from]. rewrite bool_decide_eq_false_2; [done|].
  unfold marker. cbn. by intros [= ->].
Qed.

(** Two texts without quotation marks, each up to its quotation mark *)
Lemma plain_prefix a b x y : plain a -> plain b -> a ++ QUOTE :: x = b ++ QUOTE :: y -> a = b /\ x = y.
Proof.
  intros Ha. revert b. induction Ha as [|c a [Hc _] _ IH]; intros b Hb; destruct Hb as [|d b [Hd _] Hb]; cbn [app]; intros E.
  - by injection E as ->.
  - by injection E as <- _.
  - by injection E as -> _.
  - injection E as <- E. by destruct (IH b Hb E) as [-> ->].
Qed.

Lemma marker_prefix key l : plain key -> Forall plain l -> l <> [] ->
  take (length (marker key)) (QUOTE :: join l) = marker key <-> is_Some (hit key l).
Proof.
  intros Hk Hl Hne. unfold marker. split.
  - intros E. destruct l as [|x l]; [done|]. apply Forall_cons in Hl as [Hx Hl].
    pose proof (take_drop (length (QUOTE :: key ++ [QUOTE; ":"%char; QUOTE])) (QUOTE :: join (x :: l))) as Et.
    rewrite E in Et. set (tl := drop _ _) in Et. clearbody tl. cbn [app] in Et. injection Et as Et.
    rewrite <- app_assoc in Et. cbn [app] in Et. destruct l as [|y l].
    { cbn [join] in Et. exfalso. revert Hx. unfold plain. rewrite <- Et, Forall_app. intros [_ [[Hq _] _]%Forall_cons]. done. }
    apply Forall_cons in Hl as [Hy Hl]. apply plain_prefix in Et as [<- Et]; [|done|done].
    destruct l as [|v l].
    { cbn [join] in Et. exfalso. revert Hy. unfold plain. rewrite <- Et, !Forall_cons. intros (_ & [Hq _] & _). done. }
    rewrite join_cons in Et by done.
    change (":"%char :: QUOTE :: tl) with ([":"%char] ++ QUOTE :: tl) in Et.
    apply plain_prefix in Et as [<- _]; [|by repeat constructor|done]. cbn [hit]. rewrite bool_decide_eq_true_2 by done. by eexists.
  - intros [z Hz]. destruct l as [|x [|y [|v l]]]; try discriminate. cbn [hit] in Hz. case_bool_decide as Hc; [|discriminate].
    destruct Hc as [-> ->]. rewrite (join_cons key), (join_cons [_]) by done. cbn [app length].
    change (QUOTE :: key ++ QUOTE :: ":"%char :: QUOTE :: join (v :: l))
      with (([QUOTE] ++ key) ++ [QUOTE; ":"%char; QUOTE] ++ join (v :: l)).
    change (QUOTE :: key ++ [QUOTE; ":"%char; QUOTE]) with (([QUOTE] ++ key) ++ [QUOTE; ":"%char; QUOTE]). rewrite app_assoc.
    replace (S (length (key ++ [QUOTE; ":"%char; QUOTE]))) with (length (([QUOTE] ++ key) ++ [QUOTE; ":"%char; QUOTE])) by done.
    by rewrite take_app_length.
Qed.

Lemma strstr_seek key l : plain key -> Forall plain l ->
  strstr_from (marker key) (join l) = (fun '(v, rest) => marker key ++ join (v :: rest)) <$> seek key l.
Proof.
  intros Hk. induction l as [|a l IH]; intros Hl; [done|]. apply Forall_cons in Hl as [Ha Hl]. destruct l as [|x l].
  { cbn [join seek hit fmap option_fmap option_map]. rewrite <- (app_nil_r a). by rewrite strstr_skip. }
  rewrite join_cons, strstr_skip by done. cbn [seek]. pose proof (marker_prefix key (x :: l) Hk Hl ltac:(done)) as Hm.
  remember (x :: l) as l0 eqn:El. assert (l0 <> []) by (by subst). cbn [strstr_from]. case_bool_decide as Hc.
  - apply Hm in Hc as [[v rest] Hh]. rewrite Hh. cbn [fmap option_fmap option_map]. f_equal.
    destruct l0 as [|x' [|y [|v' l']]]; try discriminate. cbn [hit] in Hh. case_bool_decide as Hd; [|discriminate].
    destruct Hd as [-> ->]. injection Hh as -> ->. rewrite (join_cons key), (join_cons [_]) by done. unfold marker.
    cbn [app]. by rewrite <- app_assoc.
  - destruct (hit key l0) eqn:Eh; [destruct Hc; by apply Hm|]. by rewrite IH, El.
Qed.

(** *** The parts of a topology text

    [lead] is the beginning of the part that the preceding text left open, [k] the rest. *)
Abbreviation lit := of_string.

Fixpoint slot_parts (lead : chars) (j : nat) (slots : list slot_config) (k : chars -> list chars) : list chars :=
  match slots with
  | [] => k lead
  | s :: slots =>
      (lead ++ concat (comma j) ++ lit "{") :: lit "number" :: (lit ":" ++ pct_d (sc_slot s) ++ lit ",") ::
      lit "type" :: (lit ":" ++ pct_d (slot_type_number (sc_type s)) ++ lit ",") :: lit "subslot" ::
      (lit ":" ++ pct_d (sc_subslot s) ++ lit ",") :: lit "name" :: lit ":" :: lit (sc_name s) ::
      slot_parts (lit "}") (S j) slots k
  end.
(** The parts behind the name of a device *)
Definition device_tail (d : rtu_device) (k : chars -> list chars) : list chars :=
  lit "," :: lit "ip_address" :: lit ":" :: lit (dev_ip_address d) :: lit "," ::
  lit "vendor_id" :: (lit ":" ++ pct_d (dev_vendor_id d) ++ lit ",") ::
  lit "device_id" :: (lit ":" ++ pct_d (dev_device_id d) ++ lit ",") ::
  lit "slot_count" :: (lit ":" ++ pct_d (Z.of_nat (length (dev_slots d))) ++ lit ",") ::
  lit "slots" :: slot_parts (lit ":[") 0 (dev_slots d) k.
Fixpoint device_parts (lead : chars) (i : nat) (devices : list rtu_device) : list chars :=
  match devices with
  | [] => [lead ++ lit "]}"]
  | d :: devices =>
      (lead ++ concat (comma i) ++ lit "{") :: lit "station_name" :: lit ":" :: lit (dev_station_name d) ::
      device_tail d (fun lead => device_parts (lead ++ lit "]}") (S i) devices)
  end.
Definition topology_parts (devices : list rtu_device) : list chars :=
  lit "{" :: lit "version" :: lit ":1," :: lit "devices" :: device_parts (lit ":[") 0 devices.

Lemma slot_parts_ne lead j slots k : (forall lead, k lead <> []) -> slot_parts lead j slots k <> [].
Proof. intros Hk. destruct slots; [apply Hk|done]. Qed.
Lemma device_parts_ne lead i devices : device_parts lead i devices <> [].
Proof. by destruct devices. Qed.

Lemma slot_parts_text lead j slots k rest : (forall lead, k lead <> []) -> (forall lead, join (k lead) = lead ++ rest) ->
  join (slot_parts lead j slots k) = lead ++ concat (concat (imap (fun i => slot_pieces (j + i)) slots)) ++ rest.
Proof.
  intros Hne Hk. revert lead j. induction slots as [|s slots IH]; intros lead j; cbn [slot_parts]; [by rewrite Hk|].
  rewrite !join_cons by (done || by apply slot_parts_ne). rewrite IH. rewrite imap_cons. cbn [concat].
  rewrite concat_app. rewrite Nat.add_0_r. unfold slot_pieces at 2. rewrite concat_app. cbn [concat]. rewrite app_nil_r.
  rewrite (imap_ext ((fun i => slot_pieces (j + i)) ∘ S) (fun i => slot_pieces (S j + i)))
    by (intros; unfold compose; f_equal; lia).
  unfold slot_text. rewrite <- !app_assoc. reflexivity.
Qed.

Lemma device_parts_text lead i devices :
  join (device_parts lead i devices) =
  lead ++ concat (concat (imap (fun n => device_pieces (i + n)) devices)) ++ json "]}".
Proof.
  revert lead i. induction devices as [|d devices IH]; intros lead i; [done|].
  cbn [device_parts]. unfold device_tail. rewrite !join_cons by (done || apply slot_parts_ne; intros; apply device_parts_ne).
  rewrite (slot_parts_text _ _ _ _ (json "]}" ++ concat (concat (imap (fun n => device_pieces (S i + n)) devices)) ++ json "]}")).
  - rewrite imap_cons. cbn [concat]. rewrite concat_app. unfold device_pieces at 2. rewrite Nat.add_0_r, !concat_app. cbn [concat].
    rewrite !app_nil_r.
    rewrite (imap_ext ((fun n => device_pieces (i + n)) ∘ S) (fun n => device_pieces (S i + n)))
      by (intros; unfold compose; f_equal; lia).
    rewrite (imap_ext (fun i => slot_pieces (0 + i)) slot_pieces) by done.
    unfold device_text. rewrite <- !app_assoc. reflexivity.
  - intros. apply device_parts_ne.
  - intros l. rewrite IH. by rewrite <- !app_assoc.
Qed.

Lemma topology_parts_text r : topology_text r = join (topology_parts (reg_devices r)).
Proof.
  unfold topology_parts. rewrite !join_cons by (done || apply device_parts_ne). rewrite device_parts_text.
  rewrite (imap_ext (fun n => device_pieces (0 + n)) device_pieces) by done.
  unfold topology_text, topology_pieces. rewrite !concat_app. reflexivity.
Qed.

(** *** Names that a text can carry *)

Definition text_ok (s : string) : Prop := plain (lit s).
Record printable (d : rtu_device) : Prop := mk_printable {
  pr_name : text_ok (dev_station_name d);
  pr_name_length : (String.length (dev_station_name d) <= 63)%nat;
  pr_ip : text_ok (dev_ip_address d);
  pr_ip_length : (String.length (dev_ip_address d) <= 15)%nat;
  pr_slots : Forall (fun s => text_ok (sc_name s)) (dev_slots d) }.

Lemma pretty_char_plain n : (n < 10)%N -> pretty_N_char n <> QUOTE /\ pretty_N_char n <> NUL.
Proof.
  intros Hn. assert (n ∈ [0;1;2;3;4;5;6;7;8;9]%N) as Hd by (rewrite !elem_of_cons; lia).
  clear Hn. revert n Hd. apply Forall_forall. by repeat (constructor; [done|]).
Qed.
Lemma pretty_go_plain x s : plain (lit s) -> plain (lit (pretty_N_go x s)).
Proof.
  revert s. induction (N.lt_wf_0 x) as [x _ IH]; intros s Hs. destruct (decide (x = 0)%N) as [->|Hx]; [done|].
  rewrite pretty_N_go_step by lia. apply IH; [apply N.div_lt; lia|]. constructor; [|done].
  apply pretty_char_plain. by apply N.mod_lt.
Qed.
Lemma pct_d_plain z : plain (pct_d z).
Proof.
  unfold pct_d. destruct z as [|p|p].
  - by repeat constructor.
  - change (pretty (Z.pos p)) with (pretty_N_go (N.pos p) ""). apply pretty_go_plain; constructor.
  - change (pretty (Z.neg p)) with (String "-" (pretty_N_go (N.pos p) "")). constructor; [done|apply pretty_go_plain; constructor].
Qed.

(** Literal texts are checked by evaluation. *)
Definition plainb (s : chars) : bool := forallb (fun c => negb (bool_decide (c = QUOTE)) && negb (bool_decide (c = NUL))) s.
Lemma plainb_plain s : plainb s = true -> plain s.
Proof.
  unfold plainb, plain. rewrite forallb_forall, Forall_forall. intros Hb c Hc%list_elem_of_In. specialize (Hb c Hc).
  apply andb_true_iff in Hb as [H1%negb_true_iff H2%negb_true_iff]. by apply bool_decide_eq_false in H1, H2.
Qed.
Lemma plain_app a b : plain a -> plain b -> plain (a ++ b).
Proof. apply Forall_app_2. Qed.
Create HintDb plain discriminated.
#[local] Hint Resolve pct_d_plain plain_app : plain.
#[local] Hint Extern 1 (plain (lit (String _ _))) => (apply plainb_plain; reflexivity) : plain.
#[local] Hint Extern 1 (plain (concat (comma ?i))) => (destruct i; apply plainb_plain; reflexivity) : plain.
Ltac plain := auto 6 with plain.

Lemma slot_parts_plain lead j slots k : plain lead -> Forall (fun s => text_ok (sc_name s)) slots ->
  (forall lead, plain lead -> Forall plain (k lead)) -> Forall plain (slot_parts lead j slots k).
Proof.
  intros Hl Hs Hk. revert lead j Hl. induction Hs as [|s slots Hn _ IH]; intros lead j Hl; cbn [slot_parts]; [by apply Hk|].
  repeat (apply Forall_cons; split; [plain|]). apply IH. plain.
Qed.
Lemma device_parts_plain lead i devices : plain lead -> Forall printable devices -> Forall plain (device_parts lead i devices).
Proof.
  intros Hl Hd. revert lead i Hl. induction Hd as [|d devices [] _ IH]; intros lead i Hl; cbn [device_parts].
  { apply Forall_singleton. plain. }
  unfold device_tail. repeat (apply Forall_cons; split; [plain|]). apply slot_parts_plain; [plain|done|]. intros l Hp. apply IH. plain.
Qed.

(** *** Finding the stations *)

Definition STATION : chars := lit "station_name".
Definition ADDRESS : chars := lit "ip_address".

Lemma hit_other key x l : x <> key -> hit key (x :: l) = None.
Proof. intros Hx. destruct l as [|y [|v l]]; [done|done|]. cbn. by rewrite bool_decide_eq_false_2 by (by intros [-> _]). Qed.
Lemma hit_no_colon key x y l : y <> [":"%char] -> hit key (x :: y :: l) = None.
Proof. intros Hy. destruct l as [|v l]; [done|]. cbn. by rewrite bool_decide_eq_false_2 by (by intros [_ ->]). Qed.
Lemma seek_other key a x l : x <> key -> seek key (a :: x :: l) = seek key (x :: l).
Proof. intros Hx. cbn [seek]. by rewrite hit_other. Qed.
Lemma seek_no_colon key a x y l : y <> [":"%char] -> seek key (a :: x :: y :: l) = seek key (x :: y :: l).
Proof. intros Hy. cbn [seek]. by rewrite hit_no_colon. Qed.

(** The continuation begins with the part it is given. *)
Definition leads (k : chars -> list chars) : Prop := forall lead, exists t l, k lead = (lead ++ t) :: l.
Lemma slot_parts_lead lead j slots k : leads k -> exists t l, slot_parts lead j slots k = (lead ++ t) :: l.
Proof. intros Hk. destruct slots; [apply Hk|]. cbn [slot_parts]. by eexists _, _. Qed.
Lemma device_parts_lead i devices : leads (fun lead => device_parts (lead ++ lit "]}") i devices).
Proof.
  intros lead. destruct devices; cbn [device_parts]; rewrite <- !app_assoc; by eexists _, _.
Qed.

Lemma seek_slot_parts lead j slots k R : leads k -> (forall lead, seek STATION (k lead) = R) ->
  seek STATION (slot_parts lead j slots k) = R.
Proof.
  intros Hl Hk. revert lead j. induction slots as [|s slots IH]; intros lead j; [apply Hk|]. cbn [slot_parts].
  rewrite !seek_other by discriminate. destruct (slot_parts_lead (lit "}") (S j) slots k Hl) as (t & l & El).
  specialize (IH (lit "}") (S j)). rewrite El in IH |- *. rewrite seek_no_colon by discriminate.
  by rewrite seek_other by discriminate.
Qed.

Lemma seek_device_lead lead lead' i devices : seek STATION (device_parts lead i devices) = seek STATION (device_parts lead' i devices).
Proof. by destruct devices. Qed.
Lemma seek_tail i d devices :
  seek STATION ([] :: device_tail d (fun lead => device_parts (lead ++ lit "]}") (S i) devices))
  = seek STATION (device_parts [] (S i) devices).
Proof.
  unfold device_tail. rewrite !seek_other by discriminate.
  rewrite seek_no_colon by discriminate. rewrite !seek_other by discriminate.
  set (k := fun lead => _). pose proof (seek_slot_parts (lit ":[") 0 (dev_slots d) k (seek STATION (device_parts [] (S i) devices))
    (device_parts_lead (S i) devices) (fun lead => seek_device_lead _ _ _ _)) as Hs.
  destruct (slot_parts_lead (lit ":[") 0 (dev_slots d) k (device_parts_lead (S i) devices)) as (t & l & El).
  rewrite El in Hs |- *. by rewrite seek_other by discriminate.
Qed.

(** *** The loop *)

Lemma split_plain a x : plain a -> split_at QUOTE (a ++ QUOTE :: x) = Some (a, x).
Proof.
  induction 1 as [|c a [Hc _] _ IH]; cbn [app split_at]; [by rewrite bool_decide_eq_true_2|].
  rewrite bool_decide_eq_false_2 by done. by rewrite IH.
Qed.
Lemma join_split a l : plain a -> l <> [] -> split_at QUOTE (join (a :: l)) = Some (a, join l).
Proof. intros Ha Hl. rewrite join_cons by done. by apply split_plain. Qed.

Lemma strstr_shorter needle s s' : strstr_from needle s = Some s' -> (length s' <= length s)%nat.
Proof.
  induction s as [|c s IH]; cbn [strstr_from]; case_bool_decide; intros E; try discriminate.
  - by injection E as <-.
  - by injection E as <-.
  - apply IH in E. cbn. lia.
Qed.
Lemma split_at_length c s a b : split_at c s = Some (a, b) -> length s = (length a + S (length b))%nat.
Proof.
  revert a b. induction s as [|x s IH]; intros a b; cbn [split_at]; [done|]. case_bool_decide.
  - by intros [= <- <-].
  - destruct (split_at c s) as [[a' b']|]; [|done]. intros [= <- <-]. cbn. by rewrite (IH a' b').
Qed.

(** The loop ends: a round consumes at least the marker, so the length of the text bounds
    the number of rounds. *)
Lemma load_loop_terminates alloc clk f1 f2 i p r : (length p <= f1)%nat -> (length p <= f2)%nat ->
  load_loop alloc clk f1 i p r = load_loop alloc clk f2 i p r.
Proof.
  revert f2 i p r. induction f1 as [|f1 IH]; intros f2 i p r H1 H2.
  { destruct p; [|by apply Nat.nle_succ_0 in H1]. by destruct f2. }
  destruct f2 as [|f2]; [destruct p; [done|by apply Nat.nle_succ_0 in H2]|]. cbn [load_loop].
  destruct (strstr_from _ p) as [p'|] eqn:E1; [|done]. destruct (split_at QUOTE (drop 16 p')) as [[name after]|] eqn:E2; [|done].
  pose proof (strstr_shorter _ _ _ E1) as Hs. apply split_at_length in E2. rewrite length_drop in E2.
  apply IH; cbn [length]; lia.
Qed.

Lemma locate_station l name rest : Forall plain l -> seek STATION l = Some (name, rest) ->
  strstr_from (json "'station_name':'") (join l) = Some (marker STATION ++ join (name :: rest)).
Proof.
  intros Hl Hs. change (json "'station_name':'") with (marker STATION).
  rewrite strstr_seek; [by rewrite Hs|by apply plainb_plain|done].
Qed.
Lemma find_ip_tail d k : plain (lit (dev_ip_address d)) -> (String.length (dev_ip_address d) <= 15)%nat ->
  Forall plain (device_tail d k) -> find_ip (QUOTE :: join (device_tail d k)) = dev_ip_address d.
Proof.
  intros Hp Hip Hl. unfold find_ip. change (json "'ip_address':'") with (marker ADDRESS).
  change (QUOTE :: join (device_tail d k)) with (join ([] :: device_tail d k)).
  rewrite strstr_seek; [|by apply plainb_plain|by constructor; [constructor|]].
  unfold device_tail. rewrite seek_other by discriminate. cbn [seek hit]. rewrite bool_decide_eq_true_2 by done.
  cbn [fmap option_fmap option_map]. change (drop 14) with (drop (A := ascii) (length (marker ADDRESS))). rewrite drop_app_length, join_split by done.
  by rewrite to_of_string, strncpy_fits.
Qed.

Lemma load_parts alloc clk ds fuel i n l r :
  (forall i k, alloc i k = true) -> Forall plain l -> Forall printable ds ->
  seek STATION l = seek STATION (device_parts [] n ds) -> (length ds < fuel)%nat ->
  NoDup ((dev_station_name <$> reg_devices r) ++ (dev_station_name <$> ds)) ->
  (length (reg_devices r) + length ds <= WTC_MAX_RTUS)%nat ->
  identity <$> reg_devices (load_loop alloc clk fuel i (join l) r)
  = (identity <$> reg_devices r) ++ ((fun d => (dev_station_name d, dev_ip_address d, [])) <$> ds).
Proof.
  intros Ha Hl Hd. revert fuel i n l r Hl. induction ds as [|d ds IH]; intros fuel i n l r Hl Hs Hf Hnd Hlen;
    (destruct fuel as [|fuel]; [by apply Nat.nlt_0_r in Hf|]); cbn [load_loop].
  { change (json "'station_name':'") with (marker STATION). rewrite strstr_seek by (done || by apply plainb_plain).
    rewrite Hs. cbn. by rewrite app_nil_r. }
  pose proof (device_parts_plain [] n (d :: ds) ltac:(constructor) Hd) as Hp.
  cbn [device_parts] in Hs, Hp. apply Forall_cons in Hp as [_ Hp]. apply Forall_cons in Hp as [_ Hp].
  apply Forall_cons in Hp as [_ Hp]. apply Forall_cons in Hp as [_ Hp].
  apply Forall_cons in Hd as [[H1 H2 H3 H4 H5] Hd]. cbn [seek hit] in Hs. rewrite bool_decide_eq_true_2 in Hs by done.
  rewrite (locate_station l _ _ Hl Hs). change (drop 16) with (drop (A := ascii) (length (marker STATION))).
  rewrite drop_app_length, join_split by done. rewrite find_ip_tail by done.
  rewrite to_of_string, strncpy_fits by lia. cbn [length] in Hf, Hlen.
  destruct (add_device_fresh (alloc i) (clk i) r (dev_station_name d)
    (if bool_decide (dev_ip_address d = "") then None else Some (dev_ip_address d)) 0) as (dev & -> & Hdev);
    [done| |lia|done|case_bool_decide; cbn; lia|].
  { apply NoDup_app in Hnd as (_ & Hx & _). intros Hin. apply (Hx _ Hin). left. }
  assert (identity dev = (dev_station_name d, dev_ip_address d, [])) as Hid.
  { rewrite Hdev. case_bool_decide as He; [by rewrite He|done]. }
  change (QUOTE :: join ?t) with (join ([] :: t)).
  rewrite (IH Hd fuel (S i) (S n)); cbn [reg_devices set].
  - rewrite fmap_app, <- app_assoc. cbn. by rewrite Hid.
  - by constructor; [constructor|].
  - apply seek_tail.
  - lia.
  - rewrite fmap_app, <- app_assoc. cbn. unfold identity in Hid. injection Hid as -> _ _. exact Hnd.
  - rewrite length_app. cbn. lia.
Qed.

Lemma join_no_zero l : Forall plain l -> no_zero (join l).
Proof.
  induction 1 as [|a l Ha _ IH]; [constructor|]. assert (no_zero a) by (eapply Forall_impl; [exact Ha|]; naive_solver).
  destruct l; [done|]. rewrite join_cons by done. apply Forall_app_2; [done|]. by constructor.
Qed.

(** The topology file round trip: a registry whose names and addresses contain no
    quotation mark, saved when the text is shorter than the buffer and the disk takes it and
    loaded into an empty registry, comes back with the same stations and addresses in the
    same order; the slot tables are empty. *)
Theorem topology_roundtrip path disk alloc clk r fs res fs' :
  reg_inv r -> NoDup (dev_station_name <$> reg_devices r) -> Forall printable (reg_devices r) ->
  Z.of_nat (length (topology_text r)) < TOPOLOGY_BUFFER -> (forall i k, alloc i k = true) ->
  rtu_registry_save_topology path true true disk r fs = Some (res, fs') -> res = WTC_OK ->
  exists r', rtu_registry_load_topology path true true alloc clk (rtu_registry_init true false true) fs' = (WTC_OK, r') /\
    identity <$> reg_devices r' = (fun d => (dev_station_name d, dev_ip_address d, [])) <$> reg_devices r.
Proof.
  intros [Hlen _] Hnd Hp Hfit Ha Es ->. pose proof (topology_outcome path disk r fs) as Ho. rewrite Es in Ho.
  destruct Ho as (_ & -> & Hdisk). rewrite bool_decide_eq_false_2 by lia. rewrite take_ge by (by apply Hdisk).
  unfold rtu_registry_load_topology. rewrite lookup_insert_eq. unfold TOPOLOGY_BUFFER in Hfit.
  assert (topology_text r <> []) as Hne by done.
  destruct (Z.leb_spec (Z.of_nat (length (topology_text r))) 0); [destruct (topology_text r); [done|cbn in *; lia]|].
  destruct (Z.ltb_spec (1024 * 1024) (Z.of_nat (length (topology_text r)))); [lia|]. cbn [orb negb].
  eexists. split; [reflexivity|].
  assert (Forall plain (topology_parts (reg_devices r))) as Hpl.
  { unfold topology_parts. repeat (apply Forall_cons; split; [plain|]). apply device_parts_plain; [plain|done]. }
  rewrite topology_parts_text, c_str_id by (by apply join_no_zero).
  rewrite (load_loop_terminates _ _ _ (S (length (join (topology_parts (reg_devices r))) + length (reg_devices r)))) by lia.
  rewrite (load_parts _ _ (reg_devices r) _ _ 0); try done.
  - unfold topology_parts. rewrite !seek_other by discriminate. destruct (reg_devices r); [done|]. cbn [device_parts].
    by rewrite seek_other by discriminate.
  - lia.
Qed.

Module TopologyDemo.

(** A registry with a device that has a slot, and one without *)
Definition tank_slot : slot_config :=
  mk_slot_config 1 1 SLOT_TYPE_SENSOR "level" "m" MEASUREMENT_LEVEL ACTUATOR_RELAY f0 f0 f0 f0 f0 f0 f0 f0 f0 true.
Definition plant : registry :=
  snd (fst (rtu_registry_add_device (fun _ => true) 0
    (snd (fst (rtu_registry_add_device (fun _ => true) 0 (rtu_registry_init true false true) "rtu-tank"
      (Some "10.0.0.1"%string) (Some [tank_slot]) 1))) "rtu-pump" None None 0)).

Lemma plant_printable : Forall printable (reg_devices plant).
Proof.
  assert (forall d, plainb (lit (dev_station_name d)) && plainb (lit (dev_ip_address d)) &&
    forallb (fun s => plainb (lit (sc_name s))) (dev_slots d) = true ->
    (String.length (dev_station_name d) <= 63)%nat -> (String.length (dev_ip_address d) <= 15)%nat -> printable d) as Hp.
  { intros d [[H1 H2]%andb_true_iff H3]%andb_true_iff H4 H5. split; try done; try by apply plainb_plain.
    apply Forall_forall. intros s Hs%list_elem_of_In. apply plainb_plain. by apply (proj1 (forallb_forall _ _) H3). }
  repeat apply Forall_cons_2; [apply Hp..|constructor]; (reflexivity || (cbn; lia)).
Qed.

Definition saved : file_system := <[topology_path None := topology_text plant]> ∅.

Lemma plant_saved : rtu_registry_save_topology None true true 1000 plant ∅ = Some (WTC_OK, saved).
Proof.
  pose proof (topology_outcome None 1000 plant ∅) as Ho. unfold saved. unfold TOPOLOGY_BUFFER in Ho.
  assert (Nat.leb (length (topology_text plant)) 1000 = true) as El%Nat.leb_le by reflexivity. set (n := length _) in *.
  destruct (rtu_registry_save_topology _ _ _ _ _ _) as [[res fs']|]; [|lia]. destruct Ho as (_ & -> & Hr).
  rewrite bool_decide_eq_false_2, take_ge by (fold n; lia). assert (res = WTC_OK) as -> by (apply Hr; lia). reflexivity.
Qed.

Lemma topology_roundtrip_witness : exists r,
  rtu_registry_load_topology None true true (fun _ _ => true) (fun _ => 0) (rtu_registry_init true false true) saved = (WTC_OK, r) /\
  identity <$> reg_devices r = [("rtu-tank", "10.0.0.1", []); ("rtu-pump", "", [])]%string.
Proof.
  apply (topology_roundtrip None 1000 (fun _ _ => true) (fun _ => 0) plant ∅ WTC_OK saved).
  - apply reg_inv_add, reg_inv_add, reg_inv_init.
  - vm_compute. repeat constructor; rewrite ?elem_of_cons, ?elem_of_nil; naive_solver.
  - exact plant_printable.
  - reflexivity.
  - reflexivity.
  - exact plant_saved.
  - reflexivity.
Defined.

End TopologyDemo.
