(* ===== verification/RpcSocket.v ===== *)
(** * The UDP socket of the PROFINET RPC

    Model of the socket operations of [src/profinet/profinet_rpc.c]: opening and closing the
    context, the request and answer exchange, the poll for requests of the devices and the
    answers to them.  Rpc.v leaves the exchange to its parameter [transport]; here it is a
    UDP socket.

    Of the kernel the model has what the code relies on: a queue of datagrams, oldest first,
    and [connect(2)], after which only datagrams of the peer are queued.  What happens outside
    (errors of system calls, arriving datagrams) is an argument. *)

From S2P Require Import Prelude Types Wire Rpc.

Definition PNIO_RPC_PORT : Z := 34964.

(** ** The kernel's side *)

Record datagram := mk_datagram { dg_ip : Z; dg_port : Z; dg_data : list Z }.
Record udp_socket := mk_udp_socket {
  us_peer : option (Z * Z);
  us_queue : list datagram }.
#[export] Instance eta_udp_socket : Eta udp_socket := fun s => mk_udp_socket (us_peer s) (us_queue s).

Definition accepts (peer : option (Z * Z)) (d : datagram) : bool :=
  match peer with None => true | Some p => bool_decide (p = (dg_ip d, dg_port d)) end.
(** A datagram arrives. *)
Definition arrive (s : udp_socket) (d : datagram) : udp_socket :=
  if accepts (us_peer s) d then s <| us_queue ::= fun q => q ++ [d] |> else s.
Definition arrive_all : udp_socket -> list datagram -> udp_socket := foldl arrive.

(** ** The context *)

(** [rpc_context_init]: results of [socket], [bind] and [getsockname]; binding to the
    interface may fail without consequence. *)
Definition rpc_context_init (socket_ok bind_ok name_ok : bool) (uuid : list Z) (controller_ip : Z)
    : wtc_result * rpc_context * udp_socket :=
  let closed := mk_rpc_context false 0 0 0 (replicate 16 0) in
  if negb socket_ok then (WTC_ERROR_IO, closed, mk_udp_socket None [])
  else if negb bind_ok then (WTC_ERROR_IO, closed, mk_udp_socket None [])
  else (WTC_OK, mk_rpc_context true controller_ip (if name_ok then PNIO_RPC_PORT else 0) 1 uuid, mk_udp_socket None []).

(** [rpc_context_cleanup]: the socket is closed once. *)
Definition rpc_context_cleanup (ctx : rpc_context) : rpc_context :=
  if rc_open ctx then ctx <| rc_open := false |> else ctx.

(** ** Exchange, poll, answer *)

(** What [rpc_send_and_receive] meets: the results of [connect], [send], [poll] and
    [recvfrom], and the datagrams that arrive while it waits. *)
Record exchange_env := mk_exchange_env {
  xe_connect_ok : bool;
  xe_send_ok : bool;
  xe_poll_ok : bool;
  xe_recv_ok : bool;
  xe_arrivals : list datagram }.

(** [rpc_send_and_receive] on the socket: every return before the last leaves the socket
    connected to the device. *)
Definition socket_exchange (e : exchange_env) (ctx : rpc_context) (device_ip : Z) (resp_len : nat) (s : udp_socket)
    : (wtc_result + list Z) * udp_socket :=
  if negb (rc_open ctx) then (inl WTC_ERROR_IO, s)
  else if negb (xe_connect_ok e) then (inl WTC_ERROR_IO, s)
  else
    let s := s <| us_peer := Some (device_ip, PNIO_RPC_PORT) |> in
    if negb (xe_send_ok e) then (inl WTC_ERROR_IO, s)
    else
      let s := arrive_all s (xe_arrivals e) in
      if negb (xe_poll_ok e) then (inl WTC_ERROR_IO, s)
      else match us_queue s with
           | [] => (inl WTC_ERROR_TIMEOUT, s)
           | d :: queue =>
               if negb (xe_recv_ok e) then (inl WTC_ERROR_IO, s)
               else (inr (take resp_len (dg_data d)), s <| us_queue := queue |> <| us_peer := None |>)
           end.

(** What [poll] and [recvfrom] report: ready, interrupted or nothing to read, or an error *)
Inductive poll_result := PollReady | PollNothing | PollError.

(** [rpc_poll_incoming]: the datagram, if there is one *)
Definition rpc_poll_incoming (p : poll_result) (ctx : rpc_context) (buf_size : nat) (s : udp_socket)
    : wtc_result * option datagram * udp_socket :=
  if negb (rc_open ctx) then (WTC_ERROR_NOT_INITIALIZED, None, s)
  else match p, us_queue s with
       | PollError, _ => (WTC_ERROR_IO, None, s)
       | PollNothing, _ | PollReady, [] => (WTC_OK, None, s)
       | PollReady, d :: queue =>
           (WTC_OK, Some (mk_datagram (dg_ip d) (dg_port d) (take buf_size (dg_data d))), s <| us_queue := queue |>)
       end.

(** [rpc_send_response] *)
Definition rpc_send_response (send_ok : bool) (ctx : rpc_context) (response : list Z) : wtc_result :=
  match response with
  | [] => WTC_ERROR_INVALID_PARAM
  | _ => if negb (rc_open ctx) then WTC_ERROR_NOT_INITIALIZED else if send_ok then WTC_OK else WTC_ERROR_IO
  end.

(** The exchange is the transport that the calls of Rpc.v take. *)
Definition socket_transport (e : exchange_env) (ctx : rpc_context) (device_ip : Z) (resp_len : nat) (s : udp_socket) : transport :=
  fun _ => fst (socket_exchange e ctx device_ip resp_len s).
Lemma socket_transport_exchange e ctx ip n s request :
  rpc_send_and_receive (socket_transport e ctx ip n s) ctx request = fst (socket_exchange e ctx ip n s).
Proof. unfold rpc_send_and_receive, socket_transport, socket_exchange. by destruct (rc_open ctx). Qed.

(** ** Between two exchanges *)

(** Datagrams arrive and are polled. *)
Inductive idle_step := Arrive (d : datagram) | Poll (p : poll_result).
Definition idle_exec (ctx : rpc_context) (buf_size : nat) (st : list datagram * udp_socket) (x : idle_step)
    : list datagram * udp_socket :=
  let '(got, s) := st in
  match x with
  | Arrive d => (got, arrive s d)
  | Poll p => let '(_, d, s) := rpc_poll_incoming p ctx buf_size s in (got ++ option_list d, s)
  end.
Definition idle_run (ctx : rpc_context) (buf_size : nat) (s : udp_socket) (l : list idle_step) : list datagram * udp_socket :=
  foldl (idle_exec ctx buf_size) ([], s) l.
Definition arrivals (l : list idle_step) : list datagram := omap (fun x => match x with Arrive d => Some d | _ => None end) l.

Definition cut (buf_size : nat) (d : datagram) : datagram := mk_datagram (dg_ip d) (dg_port d) (take buf_size (dg_data d)).

Lemma idle_run_fifo ctx n l got s got' s' :
  foldl (idle_exec ctx n) (got, s) l = (got', s') ->
  us_peer s' = us_peer s /\
  got' ++ (cut n <$> us_queue s') = got ++ (cut n <$> us_queue s ++ filter (accepts (us_peer s)) (arrivals l)).
Proof.
  revert got s. induction l as [|x l IH]; intros got s; cbn [foldl].
  { intros [= <- <-]. by rewrite app_nil_r. }
  destruct x as [d|p]; cbn [idle_exec].
  - intros [Hp Hq]%IH. unfold arrive in *. cbn [arrivals omap list_omap]. fold (arrivals l). rewrite filter_cons.
    destruct (accepts (us_peer s) d) eqn:Ea; cbn [us_peer us_queue set] in *.
    + split; [done|]. rewrite Hq, <- app_assoc. done.
    + split; [done|]. by rewrite Hq.
  - assert (exists q d s1, rpc_poll_incoming p ctx n s = (q, d, s1) /\ us_peer s1 = us_peer s /\
      option_list d ++ (cut n <$> us_queue s1) = cut n <$> us_queue s) as (q & d & s1 & -> & Hp1 & Hq1).
    { unfold rpc_poll_incoming. destruct (negb _); [by eexists _, _, _|].
      destruct p; try (by eexists _, _, _). destruct (us_queue s) as [|d q] eqn:Eq; eexists _, _, _; split_and!; try done; by rewrite Eq. }
    intros [Hp Hq]%IH. split; [congruence|]. rewrite Hq, Hp1. rewrite !fmap_app, <- Hq1. by rewrite <- !app_assoc.
Qed.

(** Where an exchange leaves the socket *)
Lemma exchange_peer e ctx ip n s r s1 :
  rc_open ctx = true -> xe_connect_ok e = true -> socket_exchange e ctx ip n s = (r, s1) ->
  us_peer s1 = match r with inr _ => None | inl _ => Some (ip, PNIO_RPC_PORT) end.
Proof.
  intros Ho Hc. unfold socket_exchange. rewrite Ho, Hc. cbn [negb].
  assert (forall l s, us_peer (arrive_all s l) = us_peer s) as Hp.
  { induction l as [|d l IH]; intros s0; [done|]. unfold arrive_all in *. cbn [foldl]. rewrite IH. unfold arrive. by destruct (accepts _ _). }
  destruct (xe_send_ok e); cbn [negb]; [|by intros [= <- <-]]. set (s0 := arrive_all _ _).
  assert (us_peer s0 = Some (ip, PNIO_RPC_PORT)) as Hs by (unfold s0; by rewrite Hp).
  destruct (xe_poll_ok e); cbn [negb]; [|by intros [= <- <-]].
  destruct (us_queue s0); [by intros [= <- <-]|]. destruct (xe_recv_ok e); cbn [negb]; by intros [= <- <-].
Qed.

(** C13: Requests of the devices after an exchange: when the exchange succeeded, polling
    delivers every datagram that arrives, in order.  When it failed after the socket was
    connected to its device (no answer in time, an error), only datagrams of that device's RPC
    port are delivered, and those of every other device are lost until the next exchange. *)
Theorem incoming_after_exchange e ctx ip n s r s1 buf_size l got s2 :
  rc_open ctx = true -> xe_connect_ok e = true -> socket_exchange e ctx ip n s = (r, s1) ->
  idle_run ctx buf_size s1 l = (got, s2) ->
  got ++ (cut buf_size <$> us_queue s2) =
  cut buf_size <$> us_queue s1 ++
    match r with
    | inr _ => arrivals l
    | inl _ => filter (fun d => dg_ip d = ip /\ dg_port d = PNIO_RPC_PORT) (arrivals l)
    end.
Proof.
  intros Ho Hc Ex Hi. destruct (idle_run_fifo _ _ _ _ _ _ _ Hi) as [_ ->]. cbn [app].
  rewrite (exchange_peer _ _ _ _ _ _ _ Ho Hc Ex). do 2 f_equal. destruct r.
  - apply list_filter_iff. intros d. unfold accepts. rewrite bool_decide_spec. split; [by intros [= -> ->]|by intros [-> ->]].
  - induction (arrivals l) as [|d ds IH]; [done|]. rewrite filter_cons, decide_True by done. by rewrite IH.
Qed.

Module RpcSocketDemo.

(** Device A does not answer; the ApplicationReady of device B is lost. *)
Definition A : Z := 3232235777.
Definition B : Z := 3232235778.
Definition context : rpc_context := mk_rpc_context true 3232235776 PNIO_RPC_PORT 1 [].
Definition no_answer : exchange_env := mk_exchange_env true true true true [].
Definition ready : datagram := mk_datagram B PNIO_RPC_PORT [4; 0].
Definition waiting : udp_socket := snd (socket_exchange no_answer context A 1500 (mk_udp_socket None [])).

Example no_answer_times_out : fst (socket_exchange no_answer context A 1500 (mk_udp_socket None [])) = inl WTC_ERROR_TIMEOUT.
Proof. reflexivity. Qed.

Lemma incoming_after_exchange_witness :
  fst (idle_run context 1500 waiting [Arrive ready; Poll PollReady]) ++
    (cut 1500 <$> us_queue (snd (idle_run context 1500 waiting [Arrive ready; Poll PollReady]))) = [].
Proof.
  apply (incoming_after_exchange no_answer context A 1500 (mk_udp_socket None []) (inl WTC_ERROR_TIMEOUT) waiting 1500
    [Arrive ready; Poll PollReady]); reflexivity.
Defined.

End RpcSocketDemo.
