(* ===== verification/Services.v ===== *)
(** * Threads, timing and resources of the services

    The parts of [src/control/control_engine.c], [src/alarms/alarm_manager.c],
    [src/profinet/dcp_discovery.c] and [src/utils/time_utils.c] around the components' logic:
    starting and stopping their threads, the timing of the control scan and its statistics,
    the read-only reports of the alarm manager, who owns the socket of the DCP discovery, and
    sleeping. *)

From S2P Require Import Prelude Float32 Types Registry AlarmManager Pid ControlEngine Time.

(** ** Starting and stopping a thread

    The state is the flag [running]; [None] is the null pointer. *)

Definition control_engine_start (thread_ok : bool) (running : option bool) : wtc_result * option bool :=
  match running with
  | None => (WTC_ERROR_INVALID_PARAM, None)
  | Some true => (WTC_OK, Some true)
  | Some false => if thread_ok then (WTC_OK, Some true) else (WTC_ERROR, Some false)
  end.
Definition control_engine_stop (running : option bool) : wtc_result * option bool := (WTC_OK, (fun _ => false) <$> running).
Definition alarm_manager_start (thread_ok : bool) (running : option bool) : wtc_result * option bool :=
  match running with
  | None => (WTC_ERROR_INVALID_PARAM, None)
  | Some true => (WTC_OK, Some true)
  | Some false => if thread_ok then (WTC_OK, Some true) else (WTC_ERROR, Some false)
  end.
Definition alarm_manager_stop (running : option bool) : wtc_result * option bool := (WTC_OK, (fun _ => false) <$> running).

(** [control_engine_load_program] and [rtu_registry_discover_devices] only write a log line. *)
Definition control_engine_load_program (engine program_file : bool) : wtc_result :=
  if engine && program_file then WTC_OK else WTC_ERROR_INVALID_PARAM.
Definition rtu_registry_discover_devices (registry interface_name : bool) : wtc_result :=
  if registry && interface_name then WTC_OK else WTC_ERROR_INVALID_PARAM.

(** ** The control scan *)

(** The timing part of [control_stats_t] *)
Record scan_stats := mk_scan_stats {
  ss_total_scans : Z;
  ss_scan_time_us_min : Z;
  ss_scan_time_us_max : Z;
  ss_scan_time_us_avg : Z }.

(** Statistics of a scan in [control_thread_func] *)
Definition count_scan (s : scan_stats) (elapsed_us : Z) : scan_stats :=
  let total := wrap64 (ss_total_scans s + 1) in
  mk_scan_stats total
    (if (elapsed_us <? ss_scan_time_us_min s) || (ss_scan_time_us_min s =? 0) then elapsed_us else ss_scan_time_us_min s)
    (if ss_scan_time_us_max s <? elapsed_us then elapsed_us else ss_scan_time_us_max s)
    (wrap64 (wrap64 (ss_scan_time_us_avg s * u64_sub total 1) + elapsed_us) / total).
Definition no_scans : scan_stats := mk_scan_stats 0 0 0 0.

(** The wait for the next scan: how long the thread sleeps, and the next deadline *)
Definition wait_for_next_scan (scan_rate_ms now_ms next_scan_ms : Z) : Z * Z :=
  let next := wrap64 (next_scan_ms + scan_rate_ms) in
  if now_ms <? next then (wrap32 (next - now_ms), next) else (0, wrap64 (now_ms + scan_rate_ms)).

(** [control_engine_get_stats] *)
Record control_stats := mk_control_stats {
  cs_scans : scan_stats;
  cs_active_pid_loops : Z;
  cs_active_interlocks : Z;
  cs_tripped_interlocks : Z }.
Definition control_engine_get_stats (engine : option (control_engine * scan_stats)) : wtc_result * option control_stats :=
  match engine with
  | None => (WTC_ERROR_INVALID_PARAM, None)
  | Some (g, s) => (WTC_OK, Some (mk_control_stats s (Z.of_nat (length (ce_pid_loops g))) (Z.of_nat (length (ce_interlocks g)))
                                   (ce_tripped_interlocks g)))
  end.

(** The statistics are exact: as long as the sum of the scan times fits in 64 bits, after
    scans of positive duration the minimum and the maximum are those of the durations, and the
    average lies between them. *)
Definition scanned (s : scan_stats) (l : list Z) : Prop :=
  ss_total_scans s = Z.of_nat (length l) /\
  ss_scan_time_us_min s ∈ l /\ ss_scan_time_us_max s ∈ l /\
  Forall (fun e => ss_scan_time_us_min s <= e <= ss_scan_time_us_max s) l /\
  ss_scan_time_us_min s <= ss_scan_time_us_avg s <= ss_scan_time_us_max s.

Lemma average_between lo hi avg n e : 0 < n -> lo <= avg <= hi -> lo <= e <= hi -> lo <= (avg * (n - 1) + e) / n <= hi.
Proof. intros Hn Ha He. split; [apply Z.div_le_lower_bound|apply Z.div_le_upper_bound]; nia. Qed.

Lemma count_scan_exact l e s M : Forall (fun e => 0 < e <= M) (l ++ [e]) -> Z.of_nat (S (length l)) * M < 2 ^ 64 ->
  (l = [] /\ s = no_scans \/ scanned s l) -> scanned (count_scan s e) (l ++ [e]).
Proof.
  intros [Hl [He _]%Forall_cons]%Forall_app Hfit [[-> ->]|(Ht & Hmin & Hmax & Hb & Havg)]; unfold scanned, count_scan.
  - cbn [no_scans ss_total_scans ss_scan_time_us_min ss_scan_time_us_max ss_scan_time_us_avg length app] in *.
    rewrite Z.eqb_refl, orb_true_r. unfold wrap64, u64_sub. rewrite !(Z.mod_small (0 + 1)) by lia.
    replace (if 0 <? e then e else 0) with e by (destruct (Z.ltb_spec 0 e); lia).
    rewrite Z.mul_0_l, (Z.mod_small 0) by lia. rewrite Z.mod_small by lia. rewrite Z.div_1_r. cbn [ss_total_scans ss_scan_time_us_min ss_scan_time_us_max ss_scan_time_us_avg].
    split_and!; try lia; try (by apply list_elem_of_singleton). apply Forall_singleton. lia.
  - rewrite !Forall_forall in Hl. pose proof (Hl _ Hmin) as H1. pose proof (Hl _ Hmax) as H2. cbn beta in H1, H2.
    assert (wrap64 (ss_total_scans s + 1) = Z.of_nat (S (length l))) as -> by (unfold wrap64; rewrite Z.mod_small; nia).
    unfold u64_sub. replace (wrap64 (Z.of_nat (S (length l)) - 1)) with (Z.of_nat (S (length l)) - 1)
      by (unfold wrap64; rewrite Z.mod_small; nia).
    assert (wrap64 (wrap64 (ss_scan_time_us_avg s * (Z.of_nat (S (length l)) - 1)) + e)
      = ss_scan_time_us_avg s * (Z.of_nat (S (length l)) - 1) + e) as ->.
    { unfold wrap64. rewrite (Z.mod_small (ss_scan_time_us_avg s * _)) by nia. rewrite Z.mod_small; nia. }
    destruct (Z.eqb_spec (ss_scan_time_us_min s) 0); [lia|]. rewrite orb_false_r.
    set (lo := if e <? ss_scan_time_us_min s then e else ss_scan_time_us_min s).
    set (hi := if ss_scan_time_us_max s <? e then e else ss_scan_time_us_max s).
    assert (lo <= e <= hi /\ lo <= ss_scan_time_us_min s /\ ss_scan_time_us_max s <= hi /\ lo ∈ l ++ [e] /\ hi ∈ l ++ [e])
      as (K1 & K2 & K3 & K4 & K5).
    { unfold lo, hi. rewrite !elem_of_app, !list_elem_of_singleton.
      destruct (Z.ltb_spec e (ss_scan_time_us_min s)), (Z.ltb_spec (ss_scan_time_us_max s) e); split_and!; first [lia|by left|by right]. }
    cbn [ss_total_scans ss_scan_time_us_min ss_scan_time_us_max ss_scan_time_us_avg].
    split; [rewrite length_app; cbn; lia|]. split; [done|]. split; [done|]. split; [|apply average_between; lia].
    apply Forall_app. split; [|apply Forall_singleton; lia]. eapply Forall_impl; [exact Hb|]. cbn. lia.
Qed.

Lemma scan_stats_exact l M : l <> [] -> Forall (fun e => 0 < e <= M) l -> Z.of_nat (length l) * M < 2 ^ 64 ->
  scanned (foldl count_scan no_scans l) l.
Proof.
  intros Hne Hl Hfit. induction l as [|e l IH] using rev_ind; [done|]. rewrite foldl_app. cbn [foldl].
  rewrite length_app in Hfit. cbn in Hfit. apply (count_scan_exact l e _ M); [done|lia|].
  apply Forall_app in Hl as [Hl [He _]%Forall_cons]. destruct l as [|x l]; [by left|]. right. apply IH; [done|done|]. nia.
Qed.

(** A scan waits at most two periods, and a scan that ends after its deadline does lead to a
    pause of two periods before the scan after next. *)
Lemma scan_wait_bound rate start now next sleep next' :
  0 < rate < 2 ^ 31 -> 0 <= start <= now -> now < 2 ^ 62 -> 0 <= next <= start + rate ->
  wait_for_next_scan rate now next = (sleep, next') ->
  0 <= sleep <= 2 * rate /\ next' <= now + sleep + rate.
Proof.
  intros Hr Hs Hn Hx. unfold wait_for_next_scan, wrap64, wrap32.
  rewrite (Z.mod_small (next + rate)), (Z.mod_small (now + rate)) by lia.
  destruct (Z.ltb_spec now (next + rate)); intros [= <- <-]; [rewrite Z.mod_small by lia|]; lia.
Qed.
Example late_scan_skips_a_period :
  (* period 100, deadline 1000; the scan ends late at 1150, the next one takes no time *)
  wait_for_next_scan 100 1150 1000 = (0, 1250) /\ wait_for_next_scan 100 1150 1250 = (200, 1350).
Proof. split; reflexivity. Qed.

(** ** Reports of the alarm manager *)

Definition alarm_manager_get_active_count (m : option alarm_manager) : Z :=
  match m with Some m => Z.of_nat (length (am_active_alarms m)) | None => 0 end.
Definition alarm_manager_is_suppressed (now : Z) (m : option alarm_manager) (station : option string) (slot : Z) : bool :=
  match m, station with Some m, Some station => is_suppressed now m station slot | _, _ => false end.

(** [alarm_stats_t] as [alarm_manager_get_statistics] fills it (the average times are not
    written); the conversion of the rate to [uint32_t] is in range. *)
Record alarm_stats := mk_alarm_stats {
  as_total_alarms : Z;
  as_active_alarms : Z;
  as_unack_alarms : Z;
  as_alarms_per_hour : Z }.
Definition active_unack (a : alarm) : Prop := al_state a = ALARM_STATE_ACTIVE_UNACK.
#[export] Instance active_unack_dec a : Decision (active_unack a).
Proof. unfold active_unack. solve_decision. Defined.
Definition alarm_manager_get_statistics (now : Z) (m : option alarm_manager) : wtc_result * option alarm_stats :=
  match m with
  | None => (WTC_ERROR_INVALID_PARAM, None)
  | Some m =>
      (WTC_OK, Some (mk_alarm_stats (am_total_alarms m) (Z.of_nat (length (am_active_alarms m)))
                       (Z.of_nat (length (filter active_unack (am_active_alarms m))))
                       (default 0 (f32_trunc (alarm_manager_get_alarm_rate now m)))))
  end.

(** The statistics count only active alarms as unacknowledged; cleared ones are left out. *)
Lemma unack_counts now m st : alarm_manager_get_statistics now (Some m) = (WTC_OK, Some st) ->
  as_unack_alarms st <= alarm_manager_get_unack_count m <= as_active_alarms st.
Proof.
  intros [= <-]. cbn [as_unack_alarms as_active_alarms]. unfold alarm_manager_get_unack_count.
  induction (am_active_alarms m) as [|a l IH]; [done|]. rewrite !filter_cons.
  destruct (decide (active_unack a)) as [Ha|], (decide (unacked a = true)) as [|Hu]; cbn [length]; try lia.
  destruct Hu. unfold unacked. by rewrite Ha.
Qed.

(** [alarm_manager_get_rationalization]: what is copied into buffers of the given sizes *)
Definition alarm_manager_get_rationalization (m : option alarm_manager) (rule_id : Z) (consequence_len response_len : nat)
    : wtc_result * option (string * string * Z) :=
  match m with
  | None => (WTC_ERROR_INVALID_PARAM, None)
  | Some m =>
      match find_entry (has_rule rule_id) (am_rules m) with
      | None => (WTC_ERROR_NOT_FOUND, None)
      | Some r => (WTC_OK, Some (strncpy (consequence_len - 1) (ar_consequence r),
                                 strncpy (response_len - 1) (ar_corrective_action r), ar_response_time_sec r))
      end
  end.

(** What [alarm_manager_set_rationalization] stored is read back, into buffers that are large
    enough. *)
Lemma rationalization_readback m id c r t m' :
  alarm_manager_set_rationalization m id (Some c) (Some r) t = (WTC_OK, m') ->
  alarm_manager_get_rationalization (Some m') id WTC_MAX_MESSAGE WTC_MAX_MESSAGE =
  (WTC_OK, Some (strncpy (WTC_MAX_MESSAGE - 1) c, strncpy (WTC_MAX_MESSAGE - 1) r, t)).
Proof.
  unfold alarm_manager_set_rationalization, with_rule. destruct (find_update _ _ _) as [l|] eqn:Eu; [|done]. intros [= <-].
  apply find_update_Some in Eu as (l1 & x & l2 & _ & Hx & Hno & ->). unfold alarm_manager_get_rationalization. cbn [am_rules set].
  match goal with |- context [find_entry _ (l1 ++ ?y :: l2)] => assert (find_entry (has_rule id) (l1 ++ y :: l2) = Some y) as -> end.
  - induction Hno as [|z l1 Hz _ IH]; unfold find_entry in *; cbn [app list_find].
    + by rewrite decide_True.
    + rewrite decide_False by done. destruct (list_find _ (l1 ++ _)) as [[]|]; cbn in *; congruence.
  - cbn. by rewrite !strncpy_idem.
Qed.

(** ** The socket of the DCP discovery *)

(** [socket_fd] and [owns_socket], with the descriptors closed so far *)
Record dcp_socket := mk_dcp_socket {
  dk_fd : Z;
  dk_owns : bool;
  dk_if_index : Z;
  dk_mac : list Z;
  dk_closed : list Z }.
#[export] Instance eta_dcp_socket : Eta dcp_socket := fun s =>
  mk_dcp_socket (dk_fd s) (dk_owns s) (dk_if_index s) (dk_mac s) (dk_closed s).

(** The name in the [ifreq]: 15 characters of the interface name *)
Definition ifr_name (interface_name : string) : string := strncpy 15 interface_name.
(** [get_interface_info]; the two arguments are what the [ioctl] calls deliver. *)
Definition get_interface_info (index : option Z) (mac : option (list Z)) (s : dcp_socket) : wtc_result * dcp_socket :=
  match index with
  | None => (WTC_ERROR_IO, s)
  | Some i =>
      let s := s <| dk_if_index := i |> in
      match mac with None => (WTC_ERROR_IO, s) | Some m => (WTC_OK, s <| dk_mac := take 6 m |>) end
  end.

(** The socket part of [dcp_discovery_init]: an error closes the socket that was opened. *)
Definition dcp_socket_init (alloc_ok : bool) (fd : Z) (index : option Z) (mac : option (list Z)) (bind_ok : bool)
    : wtc_result * option dcp_socket * list Z :=
  if negb alloc_ok then (WTC_ERROR_NO_MEMORY, None, [])
  else if fd <? 0 then (WTC_ERROR_IO, None, [])
  else
    let '(res, s) := get_interface_info index mac (mk_dcp_socket fd true 0 (replicate 6 0) []) in
    if negb (bool_decide (res = WTC_OK)) then (res, None, [fd])
    else if negb bind_ok then (WTC_ERROR_IO, None, [fd])
    else (WTC_OK, Some s, []).

Definition close_own (s : dcp_socket) : dcp_socket :=
  if dk_owns s && (0 <=? dk_fd s) then s <| dk_closed ::= fun l => l ++ [dk_fd s] |> else s.
Definition dcp_set_socket (s : dcp_socket) (socket_fd : Z) : dcp_socket :=
  (close_own s) <| dk_fd := socket_fd |> <| dk_owns := false |>.
(** [dcp_discovery_cleanup]: the descriptors closed in its lifetime *)
Definition dcp_discovery_cleanup (s : dcp_socket) : list Z := dk_closed (close_own s).

(** Every socket that the discovery opened is closed exactly once, and no socket handed to it
    is closed. *)
Lemma dcp_socket_closed_once alloc_ok fd index mac bind_ok fds res s closed :
  0 <= fd -> dcp_socket_init alloc_ok fd index mac bind_ok = (res, s, closed) ->
  match s with
  | Some s => res = WTC_OK /\ closed ++ dcp_discovery_cleanup (foldl dcp_set_socket s fds) = [fd]
  | None => res <> WTC_OK /\ closed = (if alloc_ok then [fd] else [])
  end.
Proof.
  intros Hfd. unfold dcp_socket_init. destruct alloc_ok; cbn [negb]; [|by intros [= <- <- <-]].
  destruct (Z.ltb_spec fd 0); [lia|]. unfold get_interface_info.
  destruct index as [i|], mac as [m|]; cbn [bool_decide negb]; try (by intros [= <- <- <-]).
  rewrite bool_decide_eq_true_2 by done. cbn [negb]. destruct bind_ok; cbn [negb]; intros [= <- <- <-]; [|done].
  split; [done|]. cbn [app]. unfold dcp_discovery_cleanup.
  assert (forall l s, dk_owns s = false -> dk_closed (close_own (foldl dcp_set_socket s l)) = dk_closed s) as Hrest.
  { induction l as [|x l IH]; intros s Hs; cbn [foldl]; [unfold close_own; by rewrite Hs|]. rewrite IH by done.
    unfold dcp_set_socket, close_own. by rewrite Hs. }
  destruct fds as [|x fds]; cbn [foldl].
  - unfold close_own. cbn. by rewrite (proj2 (Z.leb_le 0 fd) Hfd).
  - rewrite Hrest by done. unfold dcp_set_socket, close_own. cbn. by rewrite (proj2 (Z.leb_le 0 fd) Hfd).
Qed.

(** ** Sleeping *)

(** The loop of [time_sleep_ms] and [time_sleep_us]: [nanosleep] stores the remaining time
    when a signal interrupts it after [t] nanoseconds; the time slept in all. *)
Definition ns_of (ts : timespec) : Z := tv_sec ts * 1000000000 + tv_nsec ts.
Fixpoint sleep_loop (remaining : Z) (signals : list Z) : Z :=
  match signals with
  | t :: signals => if t <? remaining then t + sleep_loop (remaining - t) signals else remaining
  | [] => remaining
  end.
Definition time_sleep_ms (ms : Z) (signals : list Z) : Z :=
  sleep_loop (ns_of (mk_timespec (ms / 1000) (ms mod 1000 * 1000000))) signals.
Definition time_sleep_us (us : Z) (signals : list Z) : Z :=
  sleep_loop (ns_of (mk_timespec (us / 1000000) (us mod 1000000 * 1000))) signals.

Lemma sleep_loop_total remaining signals : sleep_loop remaining signals = remaining.
Proof. revert remaining. induction signals as [|t signals IH]; intros r; [done|]. cbn [sleep_loop]. rewrite IH. destruct (t <? r); lia. Qed.
(** Signals do not shorten a sleep. *)
Lemma sleep_exact ms us signals : time_sleep_ms ms signals = ms * 1000000 /\ time_sleep_us us signals = us * 1000.
Proof.
  unfold time_sleep_ms, time_sleep_us. rewrite !sleep_loop_total. unfold ns_of. cbn [tv_sec tv_nsec].
  pose proof (Z.div_mod ms 1000). pose proof (Z.div_mod us 1000000). lia.
Qed.

(** The monotonic clock of [time_get_monotonic_ms] and [time_get_monotonic_us] *)
Definition time_get_monotonic_ms (ts : timespec) : Z := wrap64 (tv_sec ts * 1000 + tv_nsec ts / 1000000).
Definition time_get_monotonic_us (ts : timespec) : Z := wrap64 (tv_sec ts * 1000000 + tv_nsec ts / 1000).
(** Both readings are of the same moment. *)
Lemma monotonic_agree ts : 0 <= tv_sec ts < 2 ^ 40 -> 0 <= tv_nsec ts < 1000000000 ->
  time_get_monotonic_us ts / 1000 = time_get_monotonic_ms ts.
Proof.
  intros Hs Hn. unfold time_get_monotonic_us, time_get_monotonic_ms, wrap64.
  assert (0 <= tv_nsec ts / 1000 < 1000000) by (split; [apply Z.div_pos|apply Z.div_lt_upper_bound]; lia).
  assert (0 <= tv_nsec ts / 1000000 < 1000) by (split; [apply Z.div_pos|apply Z.div_lt_upper_bound]; lia).
  rewrite !Z.mod_small by lia. replace (tv_sec ts * 1000000) with (tv_sec ts * 1000 * 1000) by lia.
  rewrite Z.div_add_l by lia. by rewrite Z.div_div by lia.
Qed.

(** ** The registry of a service

    The engine and the alarm manager keep a pointer to the registry; their scans take it as an
    argument. *)
Definition control_engine_set_registry {R} (engine : bool) (old new : option R) : wtc_result * option R :=
  if engine then (WTC_OK, new) else (WTC_ERROR_INVALID_PARAM, old).
Definition alarm_manager_set_registry {R} (manager : bool) (old new : option R) : wtc_result * option R :=
  if manager then (WTC_OK, new) else (WTC_ERROR_INVALID_PARAM, old).
