(* ===== verification/Gsdml.v ===== *)
(** * Device descriptions over HTTP

    Model of [src/profinet/gsdml_cache.c]: the HTTP client, the cache of GSDML files, the
    search for modules in a GSDML file and the parser of the slot list that an RTU serves at
    [/slots].  It provides what the discovery of ArManager.v takes from its surroundings.

    A file or an answer is a list of characters; [strstr] and the number conversions see it up
    to its first NUL.  A pointer into a text is the rest of the text from there. *)

From Stdlib Require Import Ascii.
From stdpp Require Import strings pretty gmap.
From S2P Require Import Prelude Types Wire Cyclic Rpc ArManager ArProtocol Time ConfigFile Topology.

Definition GSDML_CACHE_DIR : string := "/var/cache/water-controller/gsdml".
Definition GSDML_MAX_FILE_SIZE : Z := 256 * 1024.
Definition HTTP_BUF_SIZE : Z := GSDML_MAX_FILE_SIZE + 4096.

(** ** Numbers: [strtoul], [strtol] *)

Definition digit (base : Z) (c : ascii) : option Z :=
  let n := Z.of_nat (nat_of_ascii c) in
  let v := if (48 <=? n) && (n <=? 57) then n - 48
           else if (65 <=? n) && (n <=? 90) then n - 55
           else if (97 <=? n) && (n <=? 122) then n - 87
           else 255 in
  if v <? base then Some v else None.
Fixpoint digits (base acc : Z) (l : chars) : Z :=
  match l with
  | c :: l => match digit base c with Some d => digits base (acc * base + d) l | None => acc end
  | [] => acc
  end.
Definition starts_digit (base : Z) (l : chars) : bool :=
  match l with c :: _ => bool_decide (is_Some (digit base c)) | [] => false end.
Definition sign (l : chars) : bool * chars :=
  match l with
  | c :: l' => if bool_decide (c = "-"%char) then (true, l') else if bool_decide (c = "+"%char) then (false, l') else (false, l)
  | [] => (false, l)
  end.
(** The base and the digits: [0x] before a hexadecimal digit is skipped, and base 0 is chosen
    by the prefix. *)
Definition radix (base : Z) (l : chars) : Z * chars :=
  match l with
  | z :: x :: l' =>
      if ((base =? 16) || (base =? 0)) && bool_decide (z = "0"%char) &&
         (bool_decide (x = "x"%char) || bool_decide (x = "X"%char)) && starts_digit 16 l' then (16, l')
      else if base =? 0 then (if bool_decide (z = "0"%char) then 8 else 10, l) else (base, l)
  | z :: _ => (if base =? 0 then if bool_decide (z = "0"%char) then 8 else 10 else base, l)
  | [] => (base, l)
  end.
(** Sign and magnitude; [None]: no digit, the end pointer stays at the beginning. *)
Definition scan_number (base : Z) (l : chars) : option (bool * Z) :=
  let '(neg, l) := sign (drop_space l) in
  let '(base, l) := radix base l in
  if starts_digit base l then Some (neg, digits base 0 l) else None.
Definition strtoul (base : Z) (l : chars) : option Z :=
  (fun '(neg, v) => if 2 ^ 64 <=? v then 2 ^ 64 - 1 else if (neg : bool) then wrap64 (- v) else v) <$> scan_number base l.
Definition strtol (base : Z) (l : chars) : option Z :=
  (fun '(neg, v) => if (neg : bool) then Z.max (- 2 ^ 63) (- v) else Z.min (2 ^ 63 - 1) v) <$> scan_number base l.

(** ** HTTP *)

(** [http_get]: whether the connection, the request and the buffer work, and the bytes that
    arrive until the connection ends; the body, cut to the caller's buffer. *)
Definition CRLF2 : chars := ["013"; "010"; "013"; "010"]%char.
Definition http_get (connect_ok send_ok malloc_ok : bool) (stream : chars) (body_size : Z) : option chars :=
  if negb (connect_ok && send_ok && malloc_ok) then None
  else
    let buf := take (Z.to_nat (HTTP_BUF_SIZE - 1)) stream in
    let text := c_str buf in
    if (length buf <? 12)%nat || negb (bool_decide (take 5 text = of_string "HTTP/")) then None
    else if negb (atoi (to_string (c_str (drop 9 buf))) =? 200) then None
    else match strstr_from CRLF2 text with
         | None => None
         | Some p => Some (take (Z.to_nat (body_size - 1)) (drop (length text - length p + 4) buf))
         end.

(** ** The file cache *)

Definition cache_path (station_name : string) : string :=
  strncpy 255 (GSDML_CACHE_DIR +:+ "/" +:+ station_name +:+ ".xml")%string.

(** [mkdirs]: every directory on the path and the path itself, until one cannot be made *)
Fixpoint parents (seen rest : chars) : list chars :=
  match rest with
  | [] => [seen]
  | c :: rest => (if bool_decide (c = "/"%char) then [seen] else []) ++ parents (seen ++ [c]) rest
  end.
Definition mkdirs (mkdir : string -> bool) (path : string) : bool :=
  match of_string (strncpy 255 path) with
  | [] => mkdir ""%string
  | c :: rest => forallb mkdir (to_string <$> parents [c] rest)
  end.
Definition gsdml_cache_init (mkdir : string -> bool) : wtc_result :=
  if mkdirs mkdir GSDML_CACHE_DIR then WTC_OK else WTC_ERROR_IO.
Example cache_directories :
  to_string <$> parents ["/"%char] (drop 1 (of_string GSDML_CACHE_DIR)) =
  ["/var"; "/var/cache"; "/var/cache/water-controller"; "/var/cache/water-controller/gsdml"]%string.
Proof. reflexivity. Qed.

(** [gsdml_cache_fetch]; that the directory cannot be made has no consequence of its own. *)
Definition gsdml_cache_fetch (malloc_ok open_ok : bool) (http : option chars) (station_name : string) (fs : file_system)
    : wtc_result * file_system :=
  if negb malloc_ok then (WTC_ERROR_NO_MEMORY, fs)
  else match http with
       | None | Some [] => (WTC_ERROR_IO, fs)
       | Some body =>
           if negb (bool_decide (is_Some (strstr_from (of_string "<?xml") (c_str body)))) &&
              negb (bool_decide (is_Some (strstr_from (of_string "<GSDML") (c_str body)))) then (WTC_ERROR_PROTOCOL, fs)
           else if negb open_ok then (WTC_ERROR_IO, fs)
           else (WTC_OK, <[cache_path station_name := body]> fs)
       end.
Definition gsdml_cache_exists (station_name : string) (fs : file_system) : bool :=
  bool_decide (is_Some (fs !! cache_path station_name)).

(** The three submodules of the device access point *)
Definition dap_modules : list ar_module :=
  [mk_ar_module 0 0x0001 GSDML_MOD_DAP GSDML_SUBMOD_DAP; mk_ar_module 0 0x8000 GSDML_MOD_DAP GSDML_SUBMOD_INTERFACE;
   mk_ar_module 0 0x8001 GSDML_MOD_DAP GSDML_SUBMOD_PORT].

Definition MODULE_KEY : chars := json "ModuleIdentNumber='0x".
Definition SUBMODULE_KEY : chars := json "SubmoduleIdentNumber='0x".

(** The loop of [parse_gsdml_modules] *)
Fixpoint gsdml_loop (fuel : nat) (pos : chars) (slot_num : Z) (modules : list ar_module) : list ar_module :=
  match fuel with
  | O => modules
  | S fuel =>
      if (AR_MAX_DISCOVERED_MODULES <=? length modules)%nat then modules
      else match strstr_from MODULE_KEY pos with
           | None => modules
           | Some m =>
               let hex_start := drop (length MODULE_KEY) m in
               match strtoul 16 hex_start with
               | None | Some 0 => gsdml_loop fuel hex_start slot_num modules
               | Some mod_ident =>
                   if mod_ident =? GSDML_MOD_DAP then gsdml_loop fuel hex_start slot_num modules
                   else match strstr_from SUBMODULE_KEY hex_start with
                        | None => modules
                        | Some s =>
                            let sub_hex := drop (length SUBMODULE_KEY) s in
                            match strtoul 16 sub_hex with
                            | None | Some 0 => gsdml_loop fuel sub_hex slot_num modules
                            | Some submod_ident =>
                                gsdml_loop fuel sub_hex (wrap16 (slot_num + 1))
                                  (modules ++ [mk_ar_module slot_num 1 (wrap32 mod_ident) (wrap32 submod_ident)])
                            end
                        end
               end
           end
  end.
Definition parse_gsdml_modules (xml : chars) : wtc_result * list ar_module :=
  let text := c_str xml in (WTC_OK, gsdml_loop (length text) text 1 dap_modules).

(** [gsdml_cache_load_modules] *)
Definition gsdml_cache_load_modules (malloc_ok : bool) (station_name : string) (fs : file_system)
    : wtc_result * list ar_module :=
  match fs !! cache_path station_name with
  | None => (WTC_ERROR_NOT_FOUND, [])
  | Some xml =>
      let size := Z.of_nat (length xml) in
      if (size <=? 0) || (GSDML_MAX_FILE_SIZE <? size) then (WTC_ERROR_IO, [])
      else if negb malloc_ok then (WTC_ERROR_NO_MEMORY, [])
      else parse_gsdml_modules xml
  end.

(** ** The slot list *)

Definition strchr_after (c : ascii) (l : chars) : option chars := snd <$> split_at c l.

(** A number behind a key: [None] when the key is missing; otherwise the pointer behind the
    colon, or none, and the number there *)
Definition field (key : chars) (pos : chars) : option (option chars) :=
  (fun p => strchr_after ":" (drop (length key) p)) <$> strstr_from key pos.

Definition zero_module : ar_module := mk_ar_module 0 0 0 0.
(** One object of [parse_slots_json]: [cur] is the array element in work, with what an object
    that was not counted left in it.  The element and where the search goes on. *)
Definition slot_object (pos colon : chars) (slot_val : Z) (cur : ar_module) : ar_module * chars :=
  let '(subslot, colon) :=
    match field (json "'subslot'") pos with
    | None => (1, Some colon)
    | Some None => (md_subslot cur, None)
    | Some (Some c) => (match strtol 10 c with Some v => if 0 <? v then wrap16 v else 1 | None => 1 end, Some c)
    end in
  let ident key old colon :=
    match field key pos with
    | None => (old, colon)
    | Some None => (old, None)
    | Some (Some c) => (match strtoul 0 c with Some v => wrap32 v | None => 0 end, Some c)
    end in
  let '(module_ident, colon) := ident (json "'module_ident'") (md_module_ident cur) colon in
  let '(submodule_ident, colon) := ident (json "'submodule_ident'") (md_submodule_ident cur) colon in
  (mk_ar_module slot_val subslot module_ident submodule_ident,
   match colon with Some c => c | None => drop 6 pos end).

Fixpoint slots_loop (fuel : nat) (pos : chars) (cur : ar_module) (modules : list ar_module) : list ar_module :=
  match fuel with
  | O => modules
  | S fuel =>
      match strstr_from (json "'slot'") pos with
      | None => modules
      | Some pos =>
          if (AR_MAX_DISCOVERED_MODULES <=? length modules)%nat then modules
          else match strchr_after ":" (drop 6 pos) with
               | None => modules
               | Some colon =>
                   match strtol 10 colon with
                   | None => slots_loop fuel colon cur modules
                   | Some v =>
                       if (v <? 0) || (0xFFFF <? v) then slots_loop fuel colon cur modules
                       else
                         let '(m, next) := slot_object pos colon v cur in
                         if 0 <? v then slots_loop fuel next zero_module (modules ++ [m])
                         else slots_loop fuel next m modules
                   end
               end
      end
  end.
Definition parse_slots_json (body : chars) : wtc_result * list ar_module :=
  let text := c_str body in (WTC_OK, slots_loop (length text) text zero_module dap_modules).

(** [gsdml_fetch_slots_http] *)
Definition gsdml_fetch_slots_http (malloc_ok : bool) (http : option chars) : wtc_result * list ar_module :=
  if negb malloc_ok then (WTC_ERROR_NO_MEMORY, [])
  else match http with
       | None | Some [] => (WTC_ERROR_IO, [])
       | Some body => parse_slots_json body
       end.

(** ** Bounds and termination *)

Lemma gsdml_loop_bounded fuel pos n l :
  (length l <= AR_MAX_DISCOVERED_MODULES)%nat -> (length (gsdml_loop fuel pos n l) <= AR_MAX_DISCOVERED_MODULES)%nat.
Proof.
  revert pos n l. induction fuel as [|fuel IH]; intros pos n l Hl; cbn [gsdml_loop]; [done|].
  destruct (Nat.leb_spec AR_MAX_DISCOVERED_MODULES (length l)); [done|].
  repeat case_match; try done; apply IH; try done; rewrite length_app; cbn [length]; lia.
Qed.
Lemma slots_loop_bounded fuel pos cur l :
  (length l <= AR_MAX_DISCOVERED_MODULES)%nat -> (length (slots_loop fuel pos cur l) <= AR_MAX_DISCOVERED_MODULES)%nat.
Proof.
  revert pos cur l. induction fuel as [|fuel IH]; intros pos cur l Hl; cbn [slots_loop]; [done|].
  destruct (strstr_from _ pos); [|done]. destruct (Nat.leb_spec AR_MAX_DISCOVERED_MODULES (length l)); [done|].
  repeat case_match; try done; apply IH; try done; rewrite length_app; cbn [length]; lia.
Qed.
Lemma dap_fits : (length dap_modules <= AR_MAX_DISCOVERED_MODULES)%nat.
Proof. unfold AR_MAX_DISCOVERED_MODULES. cbn. lia. Qed.
Lemma fetch_slots_bounded ok http : (length (gsdml_fetch_slots_http ok http).2 <= AR_MAX_DISCOVERED_MODULES)%nat.
Proof.
  unfold gsdml_fetch_slots_http. destruct ok, http as [[|c body]|]; cbn [negb snd length]; try (unfold AR_MAX_DISCOVERED_MODULES; lia).
  apply slots_loop_bounded, dap_fits.
Qed.
Lemma load_modules_bounded ok name fs : (length (gsdml_cache_load_modules ok name fs).2 <= AR_MAX_DISCOVERED_MODULES)%nat.
Proof.
  unfold gsdml_cache_load_modules. destruct (fs !! _); [|cbn; unfold AR_MAX_DISCOVERED_MODULES; lia].
  destruct (_ || _); [cbn; unfold AR_MAX_DISCOVERED_MODULES; lia|]. destruct (negb ok); [cbn; unfold AR_MAX_DISCOVERED_MODULES; lia|].
  apply gsdml_loop_bounded, dap_fits.
Qed.

Lemma strstr_advance needle k s p : strstr_from needle s = Some p -> needle <> [] -> (0 < k)%nat -> (length (drop k p) < length s)%nat.
Proof.
  intros Hs Hn Hk. pose proof (strstr_shorter _ _ _ Hs) as Hl. rewrite length_drop.
  assert (p <> []) as Hp.
  { revert Hs. clear Hl. induction s as [|c s IH]; cbn [strstr_from]; case_bool_decide as Hc; intros E; try discriminate.
    - rewrite take_nil in Hc. by destruct Hn.
    - by injection E as <-.
    - by apply IH. }
  destruct p; [done|]. cbn [length] in *. lia.
Qed.

(** The length of the text is enough fuel: every round leaves a shorter text. *)
Lemma gsdml_loop_terminates f1 f2 pos n l : (length pos <= f1)%nat -> (length pos <= f2)%nat ->
  gsdml_loop f1 pos n l = gsdml_loop f2 pos n l.
Proof.
  revert f2 pos n l. induction f1 as [|f1 IH]; intros f2 pos n l H1 H2.
  { destruct pos; [|by apply Nat.nle_succ_0 in H1]. destruct f2; [done|]. cbn. by case_match. }
  destruct f2 as [|f2]; [destruct pos; [|by apply Nat.nle_succ_0 in H2]; cbn; by case_match|].
  cbn [gsdml_loop]. destruct (_ <=? _)%nat; [done|]. destruct (strstr_from MODULE_KEY pos) as [m|] eqn:E1; [|done].
  pose proof (strstr_advance _ (length MODULE_KEY) _ _ E1 ltac:(done) ltac:(cbn; lia)) as Hm.
  set (hex := drop _ m) in *. assert (forall x y, gsdml_loop f1 hex x y = gsdml_loop f2 hex x y) as Hx by (intros; apply IH; lia).
  destruct (strtoul 16 hex) as [[|v|v]|]; try apply Hx; (destruct (_ =? _); [apply Hx|]);
    (destruct (strstr_from SUBMODULE_KEY hex) as [s|] eqn:E2; [|done]);
    pose proof (strstr_advance _ (length SUBMODULE_KEY) _ _ E2 ltac:(done) ltac:(cbn; lia)) as Hs;
    destruct (strtoul 16 (drop _ s)) as [[|w|w]|]; apply IH; lia.
Qed.

Lemma field_advance key pos c : key <> [] -> field key pos = Some (Some c) -> (length c < length pos)%nat.
Proof.
  intros Hk. unfold field, strchr_after. destruct (strstr_from key pos) as [p|] eqn:Ep; [|done]. intros [= Hc].
  destruct (split_at _ _) as [[a b]|] eqn:Es; [|done]. injection Hc as <-. apply split_at_length in Es. rewrite length_drop in Es.
  pose proof (strstr_shorter _ _ _ Ep). lia.
Qed.
Lemma slot_object_advance pos colon v cur m next : (length colon < length pos)%nat ->
  slot_object pos colon v cur = (m, next) -> (length next < length pos)%nat.
Proof.
  intros Hc. unfold slot_object.
  assert (forall k c, field (json k) pos = Some (Some c) -> json k <> [] -> (length c < length pos)%nat) as Hf
    by (intros k c Hx Hk; by eapply field_advance).
  destruct (field (json "'subslot'") pos) as [[c1|]|] eqn:E1; try (apply Hf in E1; [|done]);
    destruct (field (json "'module_ident'") pos) as [[c2|]|] eqn:E2; try (apply Hf in E2; [|done]);
    destruct (field (json "'submodule_ident'") pos) as [[c3|]|] eqn:E3; try (apply Hf in E3; [|done]);
    intros [= <- <-]; try done; rewrite length_drop; destruct pos; cbn [length] in *; lia.
Qed.
Lemma slots_loop_terminates f1 f2 pos cur l : (length pos <= f1)%nat -> (length pos <= f2)%nat ->
  slots_loop f1 pos cur l = slots_loop f2 pos cur l.
Proof.
  revert f2 pos cur l. induction f1 as [|f1 IH]; intros f2 pos cur l H1 H2.
  { destruct pos; [|by apply Nat.nle_succ_0 in H1]. by destruct f2. }
  destruct f2 as [|f2]; [destruct pos; [done|by apply Nat.nle_succ_0 in H2]|].
  cbn [slots_loop]. destruct (strstr_from _ pos) as [p|] eqn:E1; [|done]. pose proof (strstr_shorter _ _ _ E1) as Hp.
  destruct (_ <=? _)%nat; [done|]. destruct (strchr_after _ _) as [c|] eqn:E2; [|done].
  assert (length c < length p)%nat as Hc.
  { unfold strchr_after in E2. destruct (split_at _ _) as [[a b]|] eqn:Es; [|done]. injection E2 as <-.
    apply split_at_length in Es. rewrite length_drop in Es. lia. }
  destruct (strtol 10 c) as [v|]; [|apply IH; lia]. destruct (_ || _); [apply IH; lia|].
  destruct (slot_object p c v cur) as [m next] eqn:E3. apply slot_object_advance in E3; [|done].
  destruct (0 <? v); apply IH; lia.
Qed.

(** ** The surroundings of the AR manager *)

(** The network of ArManager.v with this module list service *)
Definition with_discovery (stream : Z -> option chars) (fs : file_system) (http_ok file_ok : bool) (e : net) : net :=
  mk_net (ne_now e) (ne_rpc_init e) (ne_ar_uuid e) (ne_activity_uuid e) (ne_send e) (ne_alloc e)
    (fun ip => gsdml_fetch_slots_http http_ok (stream ip)) (fun name => gsdml_cache_exists name fs)
    (fun name => gsdml_cache_load_modules file_ok name fs).
(** It keeps what the AR manager relies on, whatever an RTU serves and the files contain. *)
Lemma discovery_net_ok stream fs http_ok file_ok e :
  is_uuid (ne_ar_uuid e) -> (forall ip, ne_rpc_init e ip <> inl WTC_OK) -> net_ok (with_discovery stream fs http_ok file_ok e).
Proof. intros Hu Hi. split; [done|done| |]; intros; [apply fetch_slots_bounded|apply load_modules_bounded]. Qed.

(** ** Numbers in a text *)

Lemma digit_char n : (n < 10)%N ->
  digit 10 (pretty_N_char n) = Some (Z.of_N n) /\ is_space (pretty_N_char n) = false /\
  pretty_N_char n <> "-"%char /\ pretty_N_char n <> "+"%char /\ (n <> 0%N -> pretty_N_char n <> "0"%char).
Proof.
  intros Hn. assert (n ∈ [0;1;2;3;4;5;6;7;8;9]%N) as Hd by (rewrite !elem_of_cons; lia).
  clear Hn. revert n Hd. apply Forall_forall. by repeat constructor.
Qed.
Lemma digits_pretty x s t : digits 10 0 (lit (pretty_N_go x s) ++ t) = digits 10 (Z.of_N x) (lit s ++ t).
Proof.
  revert s. induction (N.lt_wf_0 x) as [x _ IH]; intros s. destruct (decide (x = 0)%N) as [->|Hx]; [done|].
  rewrite pretty_N_go_step by lia. rewrite IH by (apply N.div_lt; lia).
  change (lit (String ?c s)) with (c :: lit s). cbn [app digits].
  destruct (digit_char (x `mod` 10)) as [-> _]; [by apply N.mod_lt|].
  f_equal. pose proof (N.div_mod x 10). lia.
Qed.
Lemma pretty_first x s : (0 < x)%N -> exists n t, (0 < n < 10)%N /\ lit (pretty_N_go x s) = pretty_N_char n :: t.
Proof.
  revert s. induction (N.lt_wf_0 x) as [x _ IH]; intros s Hx. rewrite pretty_N_go_step by lia.
  destruct (decide (x `div` 10 = 0)%N) as [E|E].
  - rewrite E, pretty_N_go_0. assert (x < 10)%N by (apply N.div_small_iff; [done|done]). rewrite N.mod_small by done.
    exists x, (lit s). split; [lia|done].
  - apply IH; [apply N.div_lt; lia|]. by apply N.neq_0_lt_0.
Qed.

(** A printed number is read back, in base 10 and in base 0. *)
Lemma scan_printed base z c t : base = 10 \/ base = 0 -> 0 <= z -> digit 10 c = None -> c <> "x"%char -> c <> "X"%char ->
  scan_number base (pct_d z ++ c :: t) = Some (false, z).
Proof.
  intros Hb Hz Hc Hx HX. unfold scan_number, pct_d. destruct z as [|p|p]; [| |lia].
  - change (lit (pretty 0%Z)) with ["0"%char]. change (sign (drop_space (["0"%char] ++ c :: t))) with (false, "0"%char :: c :: t). cbv beta iota.
    assert (digit 8 c = None) as H8.
    { revert Hc. unfold digit. cbv zeta.
      match goal with |- context [?v <? 10] => destruct (Z.ltb_spec v 10), (Z.ltb_spec v 8) end; done || lia. }
    unfold radix. rewrite (bool_decide_eq_false_2 (c = "x"%char)), (bool_decide_eq_false_2 (c = "X"%char)) by done.
    rewrite andb_false_r. destruct Hb as [-> | ->].
    + change (Some (false, match digit 10 c with Some d => digits 10 (0 * 10 + d) t | None => 0 end) = Some (false, 0)). by rewrite Hc.
    + change (Some (false, match digit 8 c with Some d => digits 8 (0 * 8 + d) t | None => 0 end) = Some (false, 0)). by rewrite H8.
  - change (pretty (Z.pos p)) with (pretty_N_go (N.pos p) "").
    pose proof (digits_pretty (N.pos p) "" (c :: t)) as Hd.
    destruct (pretty_first (N.pos p) "" ltac:(lia)) as (n & r & Hn & E). rewrite E in *. cbn [app] in *.
    destruct (digit_char n ltac:(lia)) as (H1 & H2 & H3 & H4 & H5). cbn [drop_space]. rewrite H2. cbn [sign].
    rewrite !bool_decide_eq_false_2 by done.
    assert (radix base (pretty_N_char n :: r ++ c :: t) = (10, pretty_N_char n :: r ++ c :: t)) as ->.
    { unfold radix. rewrite (bool_decide_eq_false_2 (pretty_N_char n = "0"%char)) by (apply H5; lia). rewrite !andb_false_r. cbn [andb].
      destruct (r ++ c :: t) eqn:Er; destruct Hb as [-> | ->]; done. }
    unfold starts_digit. rewrite H1, bool_decide_eq_true_2 by (by eexists). rewrite Hd. cbn. by rewrite Hc.
Qed.
Lemma strtol_printed z c t : 0 <= z < 2 ^ 63 -> digit 10 c = None -> c <> "x"%char -> c <> "X"%char ->
  strtol 10 (pct_d z ++ c :: t) = Some z.
Proof. intros Hz Hc Hx HX. unfold strtol. rewrite scan_printed by (auto || lia). cbn. f_equal. lia. Qed.
Lemma strtoul_printed z c t : 0 <= z < 2 ^ 64 -> digit 10 c = None -> c <> "x"%char -> c <> "X"%char ->
  strtoul 0 (pct_d z ++ c :: t) = Some z.
Proof.
  intros Hz Hc Hx HX. unfold strtoul. rewrite scan_printed by (auto || lia). cbn [fmap option_fmap option_map]. f_equal.
  destruct (Z.leb_spec (2 ^ 64) z); [lia|done].
Qed.

(** ** A slot list in the documented format *)

Record served_slot := mk_served_slot {
  sv_slot : Z; sv_subslot : Z; sv_module_ident : Z; sv_submodule_ident : Z; sv_input : bool; sv_data_size : Z }.
Definition direction (s : served_slot) : chars := lit (if sv_input s then "input" else "output").

Definition served_text (s : served_slot) : chars :=
  json "{'slot':" ++ pct_d (sv_slot s) ++ json ",'subslot':" ++ pct_d (sv_subslot s) ++
  json ",'module_ident':" ++ pct_d (sv_module_ident s) ++ json ",'submodule_ident':" ++ pct_d (sv_submodule_ident s) ++
  json ",'direction':'" ++ direction s ++ json "','data_size':" ++ pct_d (sv_data_size s) ++ json "}".
Definition slots_document (l : list served_slot) : chars :=
  json "{'slot_count':" ++ pct_d (Z.of_nat (length l)) ++ json ",'slots':[" ++
  concat (concat (imap (fun i s => comma i ++ [served_text s]) l)) ++ json "]}".

(** Its parts between quotation marks *)
Definition num (z : Z) (after : string) : chars := pct_d z ++ lit after.
Definition served_tail (s : served_slot) (k : chars -> list chars) : list chars :=
  lit "direction" :: lit ":" :: direction s :: lit "," :: lit "data_size" :: k (lit ":" ++ num (sv_data_size s) "}").
Definition served_fields (s : served_slot) (k : chars -> list chars) : list chars :=
  (lit ":" ++ num (sv_slot s) ",") :: lit "subslot" :: (lit ":" ++ num (sv_subslot s) ",") ::
  lit "module_ident" :: (lit ":" ++ num (sv_module_ident s) ",") ::
  lit "submodule_ident" :: (lit ":" ++ num (sv_submodule_ident s) ",") :: served_tail s k.
Fixpoint served_parts (lead : chars) (i : nat) (l : list served_slot) : list chars :=
  match l with
  | [] => [lead ++ lit "]}"]
  | s :: l => (lead ++ concat (comma i) ++ lit "{") :: lit "slot" :: served_fields s (fun lead => served_parts lead (S i) l)
  end.
Definition document_parts (l : list served_slot) : list chars :=
  lit "{" :: lit "slot_count" :: (lit ":" ++ num (Z.of_nat (length l)) ",") :: lit "slots" :: served_parts (lit ":[") 0 l.

Lemma served_parts_ne lead i l : served_parts lead i l <> [].
Proof. by destruct l. Qed.
Lemma served_parts_text lead i l :
  join (served_parts lead i l) = lead ++ concat (concat (imap (fun n s => comma (i + n) ++ [served_text s]) l)) ++ json "]}".
Proof.
  revert lead i. induction l as [|s l IH]; intros lead i; [done|]. cbn [served_parts]. unfold served_fields, served_tail.
  rewrite !join_cons by (done || apply served_parts_ne). rewrite IH, imap_cons. cbn [concat]. rewrite !concat_app. cbn [concat].
  rewrite Nat.add_0_r, app_nil_r.
  rewrite (imap_ext ((fun n s => comma (i + n) ++ [served_text s]) ∘ S) (fun n s => comma (S i + n) ++ [served_text s]))
    by (intros; unfold compose; do 2 f_equal; lia).
  unfold served_text, num. rewrite <- !app_assoc. reflexivity.
Qed.
Lemma document_parts_text l : slots_document l = join (document_parts l).
Proof.
  unfold document_parts. rewrite !join_cons by (done || apply served_parts_ne). rewrite served_parts_text.
  rewrite (imap_ext (fun n s => comma (0 + n) ++ [served_text s]) (fun n s => comma n ++ [served_text s])) by done.
  unfold slots_document, num. rewrite <- !app_assoc. reflexivity.
Qed.

(** [strstr] for a key in quotation marks *)
Fixpoint find_key (key : chars) (l : list chars) : option (list chars) :=
  match l with
  | [] => None
  | _ :: l => match l with
              | x :: y :: rest => if bool_decide (x = key) then Some (y :: rest) else find_key key l
              | _ => None
              end
  end.
Definition quoted (key : chars) : chars := QUOTE :: key ++ [QUOTE].

Lemma strstr_skip_quoted key s text : plain s -> strstr_from (quoted key) (s ++ text) = strstr_from (quoted key) text.
Proof.
  induction 1 as [|c s [Hc _] _ IH]; [done|]. cbn [app strstr_from]. rewrite bool_decide_eq_false_2; [done|].
  unfold quoted. cbn. by intros [= ->].
Qed.
Lemma quoted_prefix key x y rest : plain key -> plain x ->
  take (length (quoted key)) (QUOTE :: join (x :: y :: rest)) = quoted key <-> x = key.
Proof.
  intros Hk Hx. rewrite join_cons by done. split.
  - intros E. pose proof (take_drop (length (quoted key)) (QUOTE :: x ++ QUOTE :: join (y :: rest))) as Et.
    rewrite E in Et. set (tl := drop _ _) in Et. clearbody tl. unfold quoted in Et. cbn [app] in Et. injection Et as Et.
    rewrite <- app_assoc in Et. cbn [app] in Et. by apply plain_prefix in Et as [-> _].
  - intros ->. unfold quoted. cbn [length app take]. f_equal.
    change (key ++ QUOTE :: join (y :: rest)) with (key ++ [QUOTE] ++ join (y :: rest)). rewrite app_assoc. apply take_app_length.
Qed.
Lemma strstr_key key l : plain key -> Forall plain l ->
  strstr_from (quoted key) (join l) = (fun rest => quoted key ++ join rest) <$> find_key key l.
Proof.
  intros Hk. induction l as [|a l IH]; intros Hl; [done|]. apply Forall_cons in Hl as [Ha Hl]. destruct l as [|x l].
  { cbn [join find_key fmap option_fmap option_map]. rewrite <- (app_nil_r a). by rewrite strstr_skip_quoted. }
  rewrite join_cons, strstr_skip_quoted by done. pose proof (proj1 (proj1 (Forall_cons _ _ _) Hl)) as Hx. destruct l as [|y l].
  - specialize (IH Hl). cbn [join find_key fmap option_fmap option_map] in *. cbn [strstr_from]. rewrite bool_decide_eq_false_2; [done|].
    unfold quoted. cbn [length take]. intros [= E].
    assert (QUOTE ∈ key ++ [QUOTE]) as Hq by (apply elem_of_app; right; by left). rewrite <- E in Hq.
    apply elem_of_take in Hq as (i & Hi & _). apply list_elem_of_lookup_2 in Hi. unfold plain in Hx. rewrite Forall_forall in Hx. by apply Hx in Hi as [? _].
  - cbn [strstr_from find_key]. case_bool_decide as Hc.
    + apply quoted_prefix in Hc as ->; [|done|done]. rewrite bool_decide_eq_true_2 by done. cbn [fmap option_fmap option_map]. f_equal.
      rewrite join_cons by done. unfold quoted. cbn [app]. by rewrite <- app_assoc.
    + rewrite bool_decide_eq_false_2; [by apply IH|]. intros ->. apply Hc. by apply quoted_prefix.
Qed.

Lemma find_key_here key a y rest : find_key key (a :: key :: y :: rest) = Some (y :: rest).
Proof. cbn. by rewrite bool_decide_eq_true_2. Qed.
Lemma find_key_skip key a x y rest : x <> key -> find_key key (a :: x :: y :: rest) = find_key key (x :: y :: rest).
Proof. intros Hx. cbn [find_key]. by rewrite bool_decide_eq_false_2. Qed.

(** The number behind a key *)
Lemma field_value key parts v rest : plain key -> Forall plain parts -> rest <> [] ->
  find_key key parts = Some ((lit ":" ++ v) :: rest) -> field (quoted key) (join parts) = Some (Some (join (v :: rest))).
Proof.
  intros Hk Hp Hne Hf. unfold field. rewrite strstr_key, Hf by done. cbn [fmap option_fmap option_map]. rewrite drop_app_length.
  rewrite !join_cons by done. reflexivity.
Qed.

(** What the numbers of a slot may be, and the module it stands for *)
Definition served_ok (s : served_slot) : Prop :=
  0 <= sv_slot s < 2 ^ 16 /\ 0 < sv_subslot s < 2 ^ 16 /\ is_u32 (sv_module_ident s) /\ is_u32 (sv_submodule_ident s).
Definition module_of (s : served_slot) : ar_module :=
  mk_ar_module (sv_slot s) (sv_subslot s) (sv_module_ident s) (sv_submodule_ident s).
Definition served_modules (l : list served_slot) : list ar_module := module_of <$> filter (fun s => 0 < sv_slot s) l.

#[local] Hint Resolve pct_d_plain plain_app : plain.
#[local] Hint Extern 1 (plain (lit (String _ _))) => (apply plainb_plain; reflexivity) : plain.
#[local] Hint Extern 1 (plain (concat (comma ?i))) => (destruct i; apply plainb_plain; reflexivity) : plain.
#[local] Hint Extern 1 (plain (num _ _)) => unfold num : plain.
#[local] Hint Extern 1 (plain (direction ?s)) => (unfold direction; destruct (sv_input s); apply plainb_plain; reflexivity) : plain.

Lemma served_tail_plain s k : (forall lead, plain lead -> Forall plain (k lead)) -> Forall plain (served_tail s k).
Proof. intros Hk. unfold served_tail. repeat (apply Forall_cons; split; [plain|]). apply Hk. plain. Qed.
Lemma served_fields_plain s k : (forall lead, plain lead -> Forall plain (k lead)) -> Forall plain (served_fields s k).
Proof. intros Hk. unfold served_fields. do 7 (apply Forall_cons; split; [plain|]). by apply served_tail_plain. Qed.
Lemma served_parts_plain lead i l : plain lead -> Forall plain (served_parts lead i l).
Proof.
  revert lead i. induction l as [|s l IH]; intros lead i Hl; cbn [served_parts]; [apply Forall_singleton; plain|].
  do 2 (apply Forall_cons; split; [plain|]). apply served_fields_plain. intros. by apply IH.
Qed.

(** The object of a slot is read whole, and the search goes on behind it. *)
Lemma slot_object_served s k colon cur : served_ok s -> (forall lead, plain lead -> Forall plain (k lead)) ->
  slot_object (join ([] :: lit "slot" :: served_fields s k)) colon (sv_slot s) cur =
  (module_of s, join (num (sv_submodule_ident s) "," :: served_tail s k)).
Proof.
  intros (H1 & H2 & H3 & H4) Hk. unfold slot_object, is_u32 in *.
  assert (Forall plain ([] :: lit "slot" :: served_fields s k)) as Hp.
  { apply Forall_cons; split; [constructor|]. apply Forall_cons; split; [plain|]. by apply served_fields_plain. }
  change (json "'subslot'") with (quoted (lit "subslot")). change (json "'module_ident'") with (quoted (lit "module_ident")).
  change (json "'submodule_ident'") with (quoted (lit "submodule_ident")).
  unfold served_fields in *.
  erewrite (field_value (lit "subslot")); [|plain|exact Hp| |rewrite !find_key_skip by discriminate; apply find_key_here]; [|done].
  erewrite (field_value (lit "module_ident")); [|plain|exact Hp| |rewrite !find_key_skip by discriminate; apply find_key_here]; [|done].
  erewrite (field_value (lit "submodule_ident")); [|plain|exact Hp| |rewrite !find_key_skip by discriminate; apply find_key_here]; [|done].
  rewrite !(join_cons (num _ _)) by done. unfold num. rewrite <- !app_assoc. cbn [app].
  change (lit ","%string) with [","%char]. cbn [app].
  rewrite strtol_printed, !strtoul_printed by (done || lia). destruct (Z.ltb_spec 0 (sv_subslot s)); [|lia].
  unfold wrap16, wrap32. by rewrite !Z.mod_small by lia.
Qed.

Lemma find_slot_tail lead lead' i s l :
  find_key (lit "slot") (lead :: served_tail s (fun lead => served_parts lead (S i) l))
  = find_key (lit "slot") (served_parts lead' (S i) l).
Proof.
  unfold served_tail. rewrite !find_key_skip by (unfold direction; destruct (sv_input s); discriminate).
  destruct l as [|s' l]; [done|]. cbn [served_parts]. unfold served_fields.
  rewrite find_key_skip by discriminate. by rewrite !find_key_here.
Qed.

Lemma find_slot_served lead i s l :
  find_key (lit "slot") (served_parts lead i (s :: l)) = Some (served_fields s (fun lead => served_parts lead (S i) l)).
Proof. apply find_key_here. Qed.

Lemma slots_loop_served l fuel i p cur mods :
  Forall served_ok l -> Forall plain p -> find_key (lit "slot") p = find_key (lit "slot") (served_parts [] i l) ->
  (length l < fuel)%nat -> (length mods + length l <= AR_MAX_DISCOVERED_MODULES)%nat ->
  slots_loop fuel (join p) cur mods = mods ++ served_modules l.
Proof.
  intros Hl. revert fuel i p cur mods. induction Hl as [|s l Hs Hl IH]; intros fuel i p cur mods Hp Hf Hfuel Hroom;
    (destruct fuel as [|fuel]; [by apply Nat.nlt_0_r in Hfuel|]); cbn [slots_loop];
    change (json "'slot'") with (quoted (lit "slot")); rewrite strstr_key, Hf by (done || plain).
  { cbn. by rewrite app_nil_r. }
  rewrite find_slot_served. cbn [fmap option_fmap option_map].
  destruct (Nat.leb_spec AR_MAX_DISCOVERED_MODULES (length mods)); [cbn [length] in Hroom; lia|].
  set (k := fun lead => served_parts lead (S i) l).
  assert (forall lead, plain lead -> Forall plain (k lead)) as Hk by (intros; by apply served_parts_plain).
  change (quoted (lit "slot") ++ join (served_fields s k)) with (join ([] :: lit "slot" :: served_fields s k)).
  set (colon := join (num (sv_slot s) "," :: drop 1 (served_fields s k))).
  assert (strchr_after ":" (drop 6 (join ([] :: lit "slot" :: served_fields s k))) = Some colon) as -> by reflexivity.
  pose proof Hs as ((Hs1 & Hs2) & _).
  assert (strtol 10 colon = Some (sv_slot s)) as ->.
  { unfold colon, num. cbn [drop served_fields]. rewrite join_cons by done. rewrite <- !app_assoc. apply strtol_printed; done || lia. }
  destruct (Z.ltb_spec (sv_slot s) 0); [lia|]. destruct (Z.ltb_spec 0xFFFF (sv_slot s)); [lia|]. cbn [orb].
  rewrite slot_object_served by done.
  assert (Forall plain (num (sv_submodule_ident s) "," :: served_tail s k)) as Hp'.
  { apply Forall_cons; split; [plain|]. by apply served_tail_plain. }
  unfold served_modules. rewrite filter_cons. destruct (Z.ltb_spec 0 (sv_slot s)).
  - rewrite decide_True by done. rewrite (IH fuel (S i) _ _ _ Hp');
      [|apply find_slot_tail|cbn [length] in *; lia|rewrite length_app; cbn [length] in *; lia]. by rewrite <- app_assoc.
  - rewrite decide_False by lia. apply (IH fuel (S i) _ _ _ Hp'); [apply find_slot_tail|cbn [length] in *; lia..].
Qed.

Lemma document_plain l : Forall plain (document_parts l).
Proof. unfold document_parts. do 4 (apply Forall_cons; split; [plain|]). apply served_parts_plain. plain. Qed.

Lemma slots_document_parsed l : Forall served_ok l -> (length dap_modules + length l <= AR_MAX_DISCOVERED_MODULES)%nat ->
  parse_slots_json (slots_document l) = (WTC_OK, dap_modules ++ served_modules l).
Proof.
  intros Hl Hroom. unfold parse_slots_json. rewrite document_parts_text, c_str_id by apply join_no_zero, document_plain.
  rewrite (slots_loop_terminates _ (S (length (join (document_parts l)) + length l))) by lia. f_equal.
  apply (slots_loop_served _ _ 0); [done|apply document_plain| |lia|done].
  unfold document_parts. rewrite !find_key_skip by discriminate. destruct l as [|s l]; [done|]. cbn [served_parts]. unfold served_fields.
  rewrite find_key_skip by discriminate. by rewrite !find_key_here.
Qed.

(** ** The answer of an RTU *)

Definition CR : ascii := "013".
(** A header line: not empty, without carriage return and NUL *)
Definition header_ok (h : chars) : Prop := h <> [] /\ Forall (fun c => c <> CR /\ c <> NUL) h.
Definition header_lines (headers : list chars) : chars := concat ((fun h => [CR; NL] ++ h) <$> headers).
Definition http_answer (headers : list chars) (body : chars) : chars :=
  lit "HTTP/1.0 200 OK" ++ header_lines headers ++ CRLF2 ++ body.

Lemma strstr_skip_line h rest : Forall (fun c => c <> CR /\ c <> NUL) h -> strstr_from CRLF2 (h ++ rest) = strstr_from CRLF2 rest.
Proof.
  induction 1 as [|c h [Hc _] _ IH]; [done|]. cbn [app strstr_from]. rewrite bool_decide_eq_false_2; [done|].
  unfold CRLF2. cbn. by intros [= ->].
Qed.
Lemma strstr_headers headers body : Forall header_ok headers ->
  strstr_from CRLF2 (header_lines headers ++ CRLF2 ++ body) = Some (CRLF2 ++ body).
Proof.
  unfold header_lines. induction 1 as [|h headers [Hne Hh] _ IH].
  { cbn [fmap list_fmap concat app]. unfold CRLF2. cbn [app strstr_from length take]. by rewrite bool_decide_eq_true_2. }
  cbn [fmap list_fmap concat app]. rewrite <- app_assoc. destruct h as [|c h]; [done|].
  apply Forall_cons in Hh as [[Hc Hz] Hh]. cbn [app strstr_from length CRLF2 take].
  rewrite bool_decide_eq_false_2 by (intros [= ->]; done). rewrite bool_decide_eq_false_2 by done.
  rewrite bool_decide_eq_false_2 by (intros [= ->]; done). by rewrite strstr_skip_line.
Qed.

Lemma c_str_app a b : no_zero a -> c_str (a ++ b) = a ++ c_str b.
Proof. induction 1 as [|c a Hc _ IH]; [done|]. cbn [app c_str]. by rewrite bool_decide_eq_false_2, IH. Qed.
Lemma header_no_zero headers : Forall header_ok headers -> no_zero (header_lines headers).
Proof.
  unfold header_lines. induction 1 as [|h headers [_ Hh] _ IH]; [constructor|]. cbn [fmap list_fmap concat].
  apply Forall_app_2; [|done]. apply Forall_app_2; [by repeat constructor|]. eapply Forall_impl; [exact Hh|]. by intros c [_ Hc].
Qed.

(** A complete answer with status 200: the body as far as the caller's buffer takes it *)
Lemma http_get_body headers body size : Forall header_ok headers -> no_zero body ->
  Z.of_nat (length (http_answer headers body)) < HTTP_BUF_SIZE ->
  http_get true true true (http_answer headers body) size = Some (take (Z.to_nat (size - 1)) body).
Proof.
  intros Hh Hb Hfit. unfold http_get. cbn [andb negb]. rewrite take_ge by lia.
  assert (no_zero (http_answer headers body)) as Hz.
  { unfold http_answer. apply Forall_app_2; [by repeat constructor|]. apply Forall_app_2; [by apply header_no_zero|].
    apply Forall_app_2; [by repeat constructor|done]. }
  rewrite (c_str_id _ Hz). set (a := http_answer headers body) in *.
  assert (12 <= length a)%nat as Hlen by (unfold a, http_answer; rewrite length_app; cbn; lia).
  destruct (Nat.ltb_spec (length a) 12); [lia|]. cbn [orb].
  rewrite (bool_decide_eq_true_2 (take 5 a = _)) by done. cbn [negb].
  assert (atoi (to_string (c_str (drop 9 a))) = 200) as -> by reflexivity. cbn [negb Z.eqb Pos.eqb].
  assert (strstr_from CRLF2 a = Some (CRLF2 ++ body)) as ->.
  { unfold a, http_answer. rewrite strstr_skip_line by (by repeat constructor). by apply strstr_headers. }
  replace (length a - length (CRLF2 ++ body) + 4)%nat with (length (lit "HTTP/1.0 200 OK" ++ header_lines headers ++ CRLF2)).
  - unfold a, http_answer. rewrite !app_assoc. by rewrite drop_app_length.
  - unfold a, http_answer. rewrite !length_app. change (length CRLF2) with 4%nat. lia.
Qed.

Definition SLOTS_BUFFER : Z := 64 * 1024.

(** C29: The slot list of an RTU, from the HTTP answer to the module list of the connection: a
    document in the format of the source with at most 61 slots, in an answer with status 200
    and any headers, is read as the device access point and exactly the listed modules, in
    order, without the entries of slot 0; a discovery of a device uses that list. *)
Theorem slots_over_http headers l stream fs file_ok e ar :
  Forall header_ok headers -> Forall served_ok l -> (length dap_modules + length l <= AR_MAX_DISCOVERED_MODULES)%nat ->
  Z.of_nat (length (http_answer headers (slots_document l))) < HTTP_BUF_SIZE ->
  Z.of_nat (length (slots_document l)) < SLOTS_BUFFER ->
  stream (ar_device_ip ar) = http_get true true true (http_answer headers (slots_document l)) SLOTS_BUFFER ->
  discover (with_discovery stream fs true file_ok e) ar = dap_modules ++ served_modules l.
Proof.
  intros Hh Hl Hroom Hfit Hsize Hs. unfold discover, with_discovery. cbn [ne_http].
  assert (no_zero (slots_document l)) as Hz by (rewrite document_parts_text; apply join_no_zero, document_plain).
  assert (gsdml_fetch_slots_http true (stream (ar_device_ip ar)) = (WTC_OK, dap_modules ++ served_modules l)) as Hg.
  { rewrite Hs, http_get_body, take_ge by (done || lia). unfold gsdml_fetch_slots_http. cbn [negb].
    destruct (slots_document l) as [|c d] eqn:Ed; [unfold slots_document in Ed; discriminate Ed|]. rewrite <- Ed. by apply slots_document_parsed. }
  rewrite Hg. unfold usable. cbn [fst snd]. rewrite bool_decide_eq_true_2 by done. by rewrite length_app.
Qed.

(** What [gsdml_cache_fetch] stored is what [gsdml_cache_load_modules] parses. *)
Lemma fetched_file_loaded ok stream name fs fs' body :
  http_get ok ok ok stream GSDML_MAX_FILE_SIZE = Some body -> gsdml_cache_fetch true true (Some body) name fs = (WTC_OK, fs') ->
  gsdml_cache_exists name fs' = true /\ gsdml_cache_load_modules true name fs' = parse_gsdml_modules body.
Proof.
  intros Hb. unfold gsdml_cache_fetch. cbn [negb]. destruct body as [|c body]; [done|]. destruct (_ && _); [done|]. intros [= <-].
  assert (Z.of_nat (length (c :: body)) < GSDML_MAX_FILE_SIZE) as Hlen.
  { unfold http_get in Hb. destruct (negb _); [done|]. destruct (_ || _); [done|]. destruct (negb _); [done|].
    destruct (strstr_from _ _); [|done]. apply (inj Some) in Hb. rewrite <- Hb, length_take. unfold GSDML_MAX_FILE_SIZE. lia. }
  unfold gsdml_cache_exists, gsdml_cache_load_modules. rewrite !lookup_insert_eq, bool_decide_eq_true_2 by (by eexists). split; [done|].
  destruct (Z.leb_spec (Z.of_nat (length (c :: body))) 0); [cbn [length] in *; lia|].
  destruct (Z.ltb_spec GSDML_MAX_FILE_SIZE (Z.of_nat (length (c :: body)))); [lia|]. done.
Qed.

Module GsdmlDemo.

(** A pH sensor in slot 1, the entry of the access point, a pump in slot 9 *)
Definition plugged : list served_slot :=
  [mk_served_slot 1 1 16 17 true 5; mk_served_slot 0 1 1 1 true 0; mk_served_slot 9 1 256 257 false 4].
Definition headers : list chars := [lit "Content-Type: application/json"; lit "Connection: close"].
Definition stream (_ : Z) : option chars := http_get true true true (http_answer headers (slots_document plugged)) SLOTS_BUFFER.
Definition device : profinet_ar := zero_ar.
Definition network : net := mk_net 0 (fun _ => inl WTC_ERROR_IO) (replicate 16 0) (replicate 16 0) (fun _ _ => inl WTC_ERROR_IO) (fun _ => true)
  (fun _ => (WTC_OK, [])) (fun _ => false) (fun _ => (WTC_OK, [])).

Lemma slots_over_http_witness : discover (with_discovery stream ∅ true true network) device =
  dap_modules ++ [mk_ar_module 1 1 16 17; mk_ar_module 9 1 256 257].
Proof.
  apply (slots_over_http headers plugged stream ∅ true network device).
  - unfold header_ok. repeat (apply Forall_cons; split; [split; [done|by repeat constructor]|]). constructor.
  - unfold served_ok, is_u32. repeat (apply Forall_cons; split; [cbn; lia|]). constructor.
  - unfold AR_MAX_DISCOVERED_MODULES. cbn. lia.
  - vm_compute. reflexivity.
  - vm_compute. reflexivity.
  - reflexivity.
Defined.

(** The same list by evaluation of the parser *)
Example plugged_parsed : parse_slots_json (slots_document plugged) =
  (WTC_OK, dap_modules ++ [mk_ar_module 1 1 16 17; mk_ar_module 9 1 256 257]).
Proof. vm_compute. reflexivity. Qed.

(** A GSDML file: the access point is skipped, the others are numbered in their order. *)
Definition gsdml_file : chars :=
  json "<?xml version='1.0'?><DeviceAccessPointItem ModuleIdentNumber='0x00000001'><VirtualSubmoduleItem SubmoduleIdentNumber='0x00000001'/>" ++
  json "<ModuleItem ModuleIdentNumber='0x00000010'><VirtualSubmoduleItem SubmoduleIdentNumber='0x00000011'/></ModuleItem>" ++
  json "<ModuleItem ModuleIdentNumber='0x00000100'><VirtualSubmoduleItem SubmoduleIdentNumber='0x00000101'/></ModuleItem>".
Example gsdml_parsed : parse_gsdml_modules gsdml_file =
  (WTC_OK, dap_modules ++ [mk_ar_module 1 1 16 17; mk_ar_module 2 1 256 257]).
Proof. vm_compute. reflexivity. Qed.

(** A slot without identification numbers takes those of the slot behind it. *)
Example missing_field_borrowed :
  parse_slots_json (json "{'slots':[{'slot':1,'subslot':1},{'slot':2,'subslot':1,'module_ident':16,'submodule_ident':17}]}")
  = (WTC_OK, dap_modules ++ [mk_ar_module 1 1 16 17]).
Proof. vm_compute. reflexivity. Qed.

(** A station name with a path leads out of the cache directory. *)
Example cache_path_escapes : cache_path "../../../tmp/x" = "/var/cache/water-controller/gsdml/../../../tmp/x.xml"%string.
Proof. reflexivity. Qed.

End GsdmlDemo.
